(* ===== verification/_CoqProject ===== *)
-Q . S2P
Prelude.v
CString.v
Amount.v
StrEncodings.v
ArithUint256.v
Calendar.v
DrawTime.v
Script.v
HashEngine.v
Sha256.v
Sha512.v
Sha1.v
Ripemd160.v
Hash.v
ChainParams.v
Base58.v
Standard.v
Serialize.v
NetAddress.v
Transaction.v
Interpreter.v
InterpreterFacts.v
ScriptLimits.v
Spending.v
Sighash.v
CoreWrite.v
BetCode.v
Block.v
Chain.v
Pow.v
StakeModifier.v
Double.v
BetPayout.v
BetFacts.v
BetSound.v
BetComplete.v
Compressor.v
Coins.v
TxVerify.v
Merkle.v
MerkleFacts.v
PartialMerkle.v
Bloom.v
BloomFacts.v
BlockTree.v
ChainSelection.v
Activation.v
BlockIndexing.v
IndexInvariant.v
TipSelection.v
BlockCheck.v
BlockRules.v
CoinsView.v
Mempool.v
MempoolFacts.v
Connect.v
AcceptTx.v
Orphans.v
Kernel.v
AcceptBlock.v
AcceptFacts.v
BlockStore.v
ConnectFacts.v
Reorg.v
MempoolChain.v
OrphanFacts.v
Inflation.v
AddrMan.v
AddrManFacts.v
AddrManInvariant.v
AddrManCheck.v
AddrManDisk.v
AddrManReload.v
Sporks.v
SporkFacts.v
Wallet.v
WalletFacts.v
PlaceBet.v
