(* ===== verification/Prelude.v ===== *)
(** * A verification of PWRB

    PWRB is a proof-of-stake node derived from PIVX, itself from Bitcoin, whose
    addition is a lottery run by consensus: a bet is a transaction output that
    burns coins with an encoded choice of up to three numbers; after each draw a
    payout block mints the winnings, and every node checks that block against
    the payouts it computes itself. This library models the code that decides
    what a bet is, who is paid and who may spend, from the source under
    [src/src/], and proves it correct.

    ** The parts and the files that model them

    The library is layered; each file requires the ones it calls.

    - [Prelude]: machine integers ([u8] ... [s64]), byte strings, the error
      monad [res] with [let*], little-endian words, tactics and the hint
      database [pwrb].
    - [CString], [Calendar], [Double]: the parts of the C and C++ libraries
      the code uses: decimal printing and parsing, [std::string] with its
      exceptions; [gmtime], [timegm] and [strftime]; [double] arithmetic with
      rounding to nearest.
    - [Amount] ([amount.cpp], [utilmoneystr.cpp]), [StrEncodings]
      ([utilstrencodings.cpp]): amounts as text, hexadecimal, base 64, base 32,
      strict integers.
    - [HashEngine], [Sha256], [Sha512], [Sha1], [Ripemd160], [Hash]
      ([crypto/], [hash.h], [hash.cpp]): the buffering of the hash classes once,
      over an arbitrary compression function; the four compression functions;
      the hashes of ranges, HMAC, the RFC 6979 generator and MurmurHash3. Each
      class is proved to compute a one-shot reference.
    - [Serialize], [Transaction], [Block], [Compressor] ([serialize.h],
      [primitives/], [compressor.cpp]): the stream format, and the compact form
      of outputs in the coin database. The class [Serializable] is the interface of an object that
      can be put in a vector, [SerializableLaws] its promise to read back what
      it wrote; vectors are proved against the interface, and inputs, outputs
      and transactions discharge it.
    - [Script] ([script/script.h], [script/script.cpp]): opcodes, script
      numbers, the builder [operator<<], the reader [GetOp], [FindAndDelete].
      The type [item] is the abstract syntax of written scripts.
    - [ChainParams], [Base58], [Standard] ([consensus/params.h],
      [chainparams.cpp], [base58.cpp], [script/standard.cpp], [pubkey.h]): the
      networks, addresses, and the templates of output scripts.
    - [Interpreter] ([script/interpreter.cpp]): the script machine as a record
      of its local variables, one definition per opcode, [eval_step] for a round
      of the loop, [EvalScript], [VerifyScript], the signature hash and the
      signature checker. [InterpreterFacts], [ScriptLimits], [Spending] and
      [Sighash] hold its theorems.
    - [ArithUint256] ([arith_uint256.h], [arith_uint256.cpp]): big integers as
      arrays of 32-bit words with the loops of the class, and compact targets;
      [Pow] ([pow.cpp]): the difficulty of the next block and the work of a block.
    - [Chain] ([chain.h], [chain.cpp], parts of [main.cpp]): the tree of block
      index entries, its skip list, and the active chain.
    - [Coins] ([coins.h], [undo.h]): the unspent outputs of a transaction, with
      their stored form. [CoinsView] ([coins.cpp], [txdb.cpp]): the views on them.
      The class [CCoinsView] is the virtual interface, [CCoinsViewLaws] its
      promise: a view represents a map from transaction ids to coins. The
      database discharges it outright, the cache over any view that does, so a
      stack of caches does.
    - [TxVerify] ([consensus/tx_verify.cpp], [consensus/validation.h]), [Connect]
      ([main.cpp], parts of [masternode-payments.cpp]): the checks of a
      transaction, of its inputs, and the connection and disconnection of a block
      on a cache, in a monad of state (the cache) and rejection. The class
      [validation_env] holds what these read elsewhere: parameters, index,
      curve, sporks, budget, and the zerocoin checks. [ConnectFacts], [Reorg]
      and [Inflation] hold their theorems, proved against [CCoinsViewLaws].
    - [CoreWrite] ([core_write.cpp]): the text form of scripts, which the search
      for bets reads.
    - [BlockTree], [ChainSelection], [Activation], [BlockIndexing],
      [IndexInvariant], [TipSelection] ([main.cpp]): the set of candidates for
      the tip, [FindMostWorkChain], [ActivateBestChain] and its steps, new
      headers and block data, invalidation and rehabilitation, and their
      invariant. The verdict of connecting a block is an argument there.
    - [StakeModifier] ([legacy/stakemodifier.cpp], [chain.cpp]), [Kernel]
      ([kernel.cpp], [stakeinput.cpp]): stake modifiers, staking inputs and the
      check of a kernel hash.
    - [Merkle], [MerkleFacts], [PartialMerkle] ([consensus/merkle.cpp],
      [merkleblock.cpp]), [Bloom], [BloomFacts] ([bloom.cpp]): Merkle roots and
      branches, partial trees with their wire form, Bloom filters and what light
      clients are sent.
    - [BlockCheck], [BlockRules], [AcceptBlock], [AcceptFacts], [BlockStore]
      ([main.cpp], [checkpoints.cpp], [blocksignature.cpp]): the checks of a
      block alone and under its parent, checkpoints, the inputs of a coinstake
      on the tip and on forks, the place of a block in the block files,
      [AcceptBlock] and [ProcessNewBlock].
    - [Mempool], [MempoolFacts], [AcceptTx], [MempoolChain] ([txmempool.cpp],
      [main.cpp]): the memory pool, acceptance of a transaction, and
      the pool while blocks are connected; [Orphans], [OrphanFacts]: the
      transactions that wait for their parents, and the handler of [tx].
    - [NetAddress] ([netbase.cpp], [protocol.h]): network addresses, their
      classes and groups; [AddrMan], [AddrManFacts], [AddrManInvariant],
      [AddrManCheck] ([addrman.h], [addrman.cpp]): the manager of peer addresses
      with every operation; [AddrManDisk], [AddrManReload] ([addrman.h],
      [net.cpp]): its file [peers.dat].
    - [Sporks], [SporkFacts] ([spork.cpp], [sporkdb.cpp], [messagesigner.cpp]):
      the settings that the holder of the spork key changes, their signatures,
      their manager and database, and the handlers of their messages. The class
      [curve] holds what is used of [secp256k1], [curve_laws] what it documents.
    - [DrawTime], [BetCode], [BetPayout] ([betting/bet.cpp], [betting/bet.h],
      and the parts of [masternode-payments.cpp] and [main.cpp] that use them):
      the draw calendar, the encoding of a bet, and the payouts: the draw result
      from two results files and a spork, the traversal of the window of blocks,
      the payments already made, the payouts due, the dev reward, the validation
      of a payout block, the block that a staker builds and the amount that
      [ConnectBlock] allows to be minted. [BetFacts], [BetSound] and
      [BetComplete] hold its theorems.
    - [Wallet], [WalletFacts] ([wallet/wallet.cpp], [coincontrol.h]): the coins a
      request may spend, the randomised choice among them, fees, change and
      [CreateTransaction]; [PlaceBet] ([wallet/rpcwallet.cpp]): [placebet] and
      [SendMoney]. Keys, depths, signing and fee rates are the class
      [wallet_env]; the orders that the C++ library leaves open are the class
      [orders].

    ** Conventions

    A C++ integer is a [Z]; wrap-around is written out where an operation can
    leave its type. A [std::string], a [std::vector<unsigned char>], a [CScript]
    and a [uint256] are lists of bytes in memory order; an iterator is the list
    of what is left. An exception, an error code or a failed [assert] is a value
    ([res], [option]); an index out of range, undefined in C++, is the error
    [bad_index] in [BetPayout]. A stack is a list whose head is its top. What the
    node reads from outside (chain, files, clock, sporks) is the record [node].
    A [CBlockIndex*] is the hash of its block; a [CCoinsMap] is a finite map. The
    write of undo data and of the index at the end of [ConnectBlock] is the undo
    data in its result; memory-usage counters and the signature cache, which only
    saves work, are left out.

    Loops that are not structural take fuel, which is the length of what they
    read (scripts, streams, digits) or the number of rounds the source bounds
    (keys of a multisig): [eval_loop_ends] shows it for the interpreter, and the
    round trips for the other loops. The recursion of the memory pool has the
    size of the pool as fuel, the walk through orphans the size of the two maps,
    the loop of [ActivateBestChain] a measure of the index, and the rounds of
    [CreateTransaction] are bounded by the largest fee; that each is enough is
    part of [remove_takes_descendants], [TX_handles_orphans] and
    [ActivateBestChain_ends]. The clock and every random draw are arguments, so
    theorems hold for all of them. The lottery's dates are proved for every
    instant by arithmetic; the string surgery on dates is proved for the years
    1901 to 2099, whose days are four digits of year and a fixed leap rule.

    ** What the theorems show

    - Lottery. Every payout demanded is for a bet that won, at its odds, to the
      bettor, not yet paid ([GetBetPayouts_sound]); no winner is forgotten
      ([GetBetPayouts_complete]); the dev reward computed in [double] is exactly
      one twentieth ([GetBlockPayouts_spec]); the block a staker builds is one
      that the network accepts and mints exactly what is due
      ([FillBlockPayee_accepted]); what the check of a payout block accepts,
      exactly ([IsBlockPayoutsValid_iff]: no payout at all, or for each the amount
      or the address, not both). A bet has
      one encoding ([FromOpCode_ToOpCode], [FromOpCode_canonical]); a bet placed
      over RPC is one that the search finds ([placebet_found]). The draw
      times are the right ones ([lastdrawtime_latest], [nextdrawtime_earliest],
      [drawdates_agree]); the date used to find the results is right except on
      the 10th of a month and on October 1st ([previous_date_correct]).
    - Scripts. The results of spending the pay-to-key-hash and the cold-staking
      scripts ([VerifyScript_p2pkh], [VerifyScript_p2cs]), what a cold stake must
      satisfy ([CheckColdStake_spec]), the resource limits and termination of
      evaluation ([EvalScript_limits], [eval_loop_ends], [VerifyScript_returns]),
      unspendable outputs ([IsUnspendable_fails]), and the equality of the
      streaming signature hash with the edit-and-serialize one
      ([SignatureHash_old]).
    - Chain state. A cache of coins is a map, whatever its flags
      ([cache_implements_map], [cache_flags_truthful]), and what is written
      through two levels of it reaches the disk ([chainstate_reaches_disk]);
      [CheckTransaction] accepts exactly what it should ([CheckTransaction_iff]);
      a connected block creates no more than it may ([connect_mints_at_most]);
      spending cannot fail after the checks ([UpdateCoins_succeeds]);
      disconnecting a block undoes it ([disconnect_undoes_connect]), except for
      the coinstake mark of what it spent completely
      ([disconnect_forgets_coinstake]) and the bets in the money supply.
    - Chain and work. The skip list, the active chain and the forks agree with the
      tree of parents ([GetAncestor_walks_back], [SetTip_makes_branch],
      [forks_are_highest]); the big-integer loops compute integer arithmetic
      ([uint_ops_arithmetic], [compact_roundtrip]); the work of a block and the
      next target are the intended numbers ([GetBlockProof_exact],
      [GetNextWorkRequired_target]).
    - Chain selection. In every state that headers, blocks, activations and
      invalidations lead to, the index is a tree with correct heights, skip
      pointers, work and transaction counts, every candidate for the tip has all
      its data, and the active chain is the branch of its tip
      ([block_index_invariant]); [ActivateBestChain] ends
      ([ActivateBestChain_ends]).
    - Block acceptance. The index obeys the rules for heights, times, versions,
      checkpoints and difficulty whatever arrives in whatever order
      ([accepted_blocks_follow_rules]); what [CheckBlock] accepts exactly
      ([CheckBlock_iff]); a coinstake spends nothing twice on its branch
      ([coinstake_inputs_unspent]); stored blocks do not overlap
      ([block_ranges_disjoint]).
    - Staking. The modifier draws distinct candidates, the least hash first
      ([ComputeNextStakeModifier_selects]); what a stake must satisfy
      ([Stake_accepted]); the weighted target wraps ([stake_weight_wraps]).
    - Merkle trees and filters. The constant-space root is the recursive one
      ([ComputeMerkleRoot_recursive]); with the double SHA-256 of the code it
      binds the list of transactions ([merkle_root_binds]) and a partial tree
      shows transactions of the block only ([ExtractMatches_sound]), or else two
      of the inputs that were hashed collide; a partial tree carries its matches
      ([partial_tree_transmits]); a filter forgets
      nothing ([peer_filter_keeps]) and a light client is sent all it watches
      ([CMerkleBlock_complete]).
    - Memory pool. Its maps agree and every input is available, through
      acceptances, removals and blocks at changing heights and times
      ([mempool_invariant]; without zerocoins, and without disconnected blocks); removal takes
      exactly the descendants ([remove_takes_descendants]); a block clears what
      conflicts with it ([removeForBlock_clears]); orphans are bounded and
      retried ([TX_handles_orphans]).
    - Peer addresses. No assertion of the manager can fail and its own check
      always passes ([addrman_consistent]); samples are distinct and good
      ([GetAddr_samples]); a reached peer ends up in the tried table
      ([Good_moves_to_tried]); what is saved is restored
      ([peers_file_roundtrip]); a failed read leaves stale entries that can
      abort the node later (the example [failed_load_aborts]).
    - Sporks. Nodes that accept the same messages end up with the same values,
      whatever the order and through restarts ([sporks_converge]; with equal times
      they need not, [tied_sporks_diverge]); what the holder of the key sets is
      accepted everywhere ([UpdateSpork_propagates]) but lost by the signer at a
      restart ([UpdateSpork_not_stored]); a signature of the new form binds the
      message ([signature_preimage_inj]), one of the old form does not
      ([string_sporks_forgeable]).
    - Wallet. Choosing coins succeeds exactly when there is enough
      ([SelectCoinsMinConf_covers]); creating a transaction ends, and what it
      creates balances and pays what was asked ([CreateTransaction_balances]).
    - Formats. Round trips for transactions, blocks, compressed outputs, sizes,
      scripts, script numbers, addresses, script templates, amounts and text encodings; the hash
      classes against their references.

    ** Not modelled

    Elliptic-curve operations ([secp256k1]) are parameters of the interpreter;
    [HashQuark] (old headers), the JSON parser and the hexadecimal reader of the
    Boost library are parameters too. The wallet's
    storage, keys and staking, the other RPCs, the user interface, masternodes,
    budgets and zerocoin are not modelled; where validation reads them they are
    fields of [validation_env]. Of the network
    layer the manager of addresses, the filters, sporks and the handler of [tx] are
    modelled, sockets, name lookup and the other message handlers are not. Of the
    memory pool the fee estimator and the self check are left out, and the block
    template ([miner.cpp]) mixes the pool with [double] priorities and the staking
    thread: its payout part is [FillBlockPayee], the rest is not modelled. *)

(** ** Shared definitions, notations and automation *)

From Stdlib Require Import ZArith Lia Ascii String.
From stdpp Require Import base tactics list numbers strings.

#[global] Open Scope Z_scope.

(** ** Machine integers

    A C++ integer of a given width is a [Z] kept in range; the wrap-around of
    the unsigned types (and the two's complement narrowing of the signed
    ones) is written out at each operation that needs it. *)

Definition u8 (z : Z) : Z := z `mod` 2 ^ 8.
Definition u16 (z : Z) : Z := z `mod` 2 ^ 16.
Definition u32 (z : Z) : Z := z `mod` 2 ^ 32.
Definition u64 (z : Z) : Z := z `mod` 2 ^ 64.
Definition s8 (z : Z) : Z := (z + 2 ^ 7) `mod` 2 ^ 8 - 2 ^ 7.
Definition s32 (z : Z) : Z := (z + 2 ^ 31) `mod` 2 ^ 32 - 2 ^ 31.
Definition s64 (z : Z) : Z := (z + 2 ^ 63) `mod` 2 ^ 64 - 2 ^ 63.

Definition in_u (w z : Z) : Prop := 0 <= z < 2 ^ w.
Definition in_s (w z : Z) : Prop := - 2 ^ (w - 1) <= z < 2 ^ (w - 1).

#[global] Instance in_u_dec w z : Decision (in_u w z).
Proof. unfold in_u. apply _. Defined.
#[global] Instance in_s_dec w z : Decision (in_s w z).
Proof. unfold in_s. apply _. Defined.

Lemma u8_id z : 0 <= z < 256 -> u8 z = z.
Proof. intros. apply Z.mod_small. lia. Qed.
Lemma u16_id z : 0 <= z < 65536 -> u16 z = z.
Proof. intros. apply Z.mod_small. lia. Qed.
Lemma u32_id z : 0 <= z < 4294967296 -> u32 z = z.
Proof. intros. apply Z.mod_small. lia. Qed.
Lemma u64_id z : 0 <= z < 18446744073709551616 -> u64 z = z.
Proof. intros. apply Z.mod_small. lia. Qed.
Lemma s32_id z : -2147483648 <= z < 2147483648 -> s32 z = z.
Proof. intros. unfold s32. rewrite Z.mod_small; lia. Qed.
Lemma s64_id z : -9223372036854775808 <= z < 9223372036854775808 -> s64 z = z.
Proof. intros. unfold s64. rewrite Z.mod_small; lia. Qed.

Lemma u8_range z : 0 <= u8 z < 256.
Proof. apply (Z.mod_pos_bound z (2 ^ 8)). lia. Qed.
Lemma u32_range z : 0 <= u32 z < 4294967296.
Proof. apply (Z.mod_pos_bound z (2 ^ 32)). lia. Qed.
Lemma u64_range z : 0 <= u64 z < 18446744073709551616.
Proof. apply (Z.mod_pos_bound z (2 ^ 64)). lia. Qed.

(** ** Bytes and byte strings

    [unsigned char], [std::vector<unsigned char>] and [std::string] are all
    lists of byte values; [char] signedness is written where it matters
    ([s8]). *)

Abbreviation bytes := (list Z).

Definition is_byte (b : Z) : Prop := 0 <= b < 256.
#[global] Instance is_byte_dec b : Decision (is_byte b).
Proof. unfold is_byte. apply _. Defined.

Abbreviation is_bytes := (Forall is_byte).

(** The bytes of a string literal. *)
Definition str (s : string) : bytes :=
  map (fun c => Z.of_N (N_of_ascii c)) (list_ascii_of_string s).

(** Unchecked vector/string indexing [v[i]], used by the model only where the
    source indexes inside the bounds it has just tested; the default is never
    observed there. [std::string::operator[]] at [size()] is the NUL byte,
    which is the default too. *)
Definition idx (l : bytes) (i : Z) : Z := nth (Z.to_nat i) l 0.

Definition zlen {A} (l : list A) : Z := Z.of_nat (length l).

Lemma zlen_nonneg {A} (l : list A) : 0 <= zlen l.
Proof. unfold zlen. lia. Qed.
Lemma zlen_cons {A} (x : A) l : zlen (x :: l) = 1 + zlen l.
Proof. unfold zlen. cbn [length]. lia. Qed.
Lemma zlen_app {A} (l k : list A) : zlen (l ++ k) = zlen l + zlen k.
Proof. unfold zlen. rewrite length_app. lia. Qed.

(** Push [zlen] through the list constructors of the goal. *)
Ltac zl := repeat first [progress change (zlen (@nil _)) with 0 | rewrite zlen_cons | rewrite zlen_app].

Lemma idx_range l i : is_bytes l -> is_byte (idx l i).
Proof.
  intros H. unfold idx. destruct (nth_in_or_default (Z.to_nat i) l 0) as [Hin | ->].
  - rewrite List.Forall_forall in H. auto.
  - unfold is_byte. lia.
Qed.

(** ** Results

    A C++ function that reports an error (a [ScriptError], a thrown
    exception, a rejected block) returns [res E A]. *)

Inductive res (E A : Type) : Type :=
| Ok (a : A)
| Err (e : E).
Arguments Ok {E A} a.
Arguments Err {E A} e.

Definition res_bind {E A B} (m : res E A) (f : A -> res E B) : res E B :=
  match m with Ok a => f a | Err e => Err e end.

Declare Scope res_scope.
Delimit Scope res_scope with res.
Notation "'let*' x ':=' m 'in' k" := (res_bind m (fun x => k))
  (at level 200, x pattern, m at level 100, k at level 200,
   right associativity) : res_scope.
#[global] Open Scope res_scope.

Definition is_ok {E A} (m : res E A) : bool :=
  match m with Ok _ => true | Err _ => false end.

Lemma res_bind_Ok {E A B} (m : res E A) (f : A -> res E B) b :
  res_bind m f = Ok b -> exists a, m = Ok a /\ f a = Ok b.
Proof. destruct m; simpl; [eauto | discriminate]. Qed.

(** [for (x : l)] with an error exit: a fold that stops at the first error. *)
Fixpoint res_fold {E A S} (f : S -> A -> res E S) (s : S) (l : list A) : res E S :=
  match l with
  | [] => Ok s
  | x :: l => let* s' := f s x in res_fold f s' l
  end.

Lemma res_fold_inv {E A S} (P : S -> Prop) (f : S -> A -> res E S) l s s' :
  P s -> (forall s x s', P s -> x ∈ l -> f s x = Ok s' -> P s') ->
  res_fold f s l = Ok s' -> P s'.
Proof.
  revert s. induction l as [| x l IH]; cbn; intros s Hs Hf E0.
  - by simplify_eq.
  - apply res_bind_Ok in E0 as (s1 & E1 & E2).
    eapply IH; [| | exact E2].
    + eapply Hf; eauto. left.
    + intros. eapply Hf; eauto. by right.
Qed.

(** ** Little-endian words *)

Fixpoint le_bytes (n : nat) (z : Z) : bytes :=
  match n with
  | O => []
  | S n => z `mod` 256 :: le_bytes n (z / 256)
  end.

Fixpoint le_val (l : bytes) : Z :=
  match l with
  | [] => 0
  | b :: l => b + 256 * le_val l
  end.

Lemma le_bytes_length n z : length (le_bytes n z) = n.
Proof. revert z. induction n; intros; cbn; auto. Qed.

Lemma le_bytes_is_bytes n z : is_bytes (le_bytes n z).
Proof.
  revert z. induction n; intros; cbn; constructor; auto.
  apply Z.mod_pos_bound. lia.
Qed.

Lemma le_val_le_bytes n z : le_val (le_bytes n z) = z `mod` 256 ^ Z.of_nat n.
Proof.
  revert z. induction n as [| n IH]; intros; cbn -[Z.pow].
  - by rewrite Z.mod_1_r.
  - rewrite IH, Nat2Z.inj_succ, Z.pow_succ_r by lia.
    rewrite Z.rem_mul_r by lia. lia.
Qed.

Lemma le_val_bound l : is_bytes l -> 0 <= le_val l < 256 ^ zlen l.
Proof.
  induction 1 as [| b l Hb _ IH]; [split; [done | by vm_compute] |].
  rewrite zlen_cons, Z.pow_add_r by (try apply zlen_nonneg; lia).
  cbn [le_val]. unfold is_byte in Hb. rewrite Z.pow_1_r. lia.
Qed.

Lemma le_bytes_le_val l : is_bytes l -> le_bytes (length l) (le_val l) = l.
Proof.
  induction 1 as [| b l Hb _ IH]; [done |]. cbn.
  unfold is_byte in Hb.
  rewrite (Z.mul_comm 256), Z.mod_add, Z.mod_small by lia.
  rewrite Z.div_add, Z.div_small, Z.add_0_l by lia. by rewrite IH.
Qed.

Lemma le_val_app l k : le_val (l ++ k) = le_val l + 256 ^ zlen l * le_val k.
Proof.
  induction l as [| b l IH]; [cbn [le_val app]; zl; lia |].
  rewrite zlen_cons, Z.pow_add_r by (try apply zlen_nonneg; lia).
  cbn [le_val app]. rewrite IH, Z.pow_1_r. lia.
Qed.

(** ** Checks by evaluation *)

(** Bounded universal checks, decided by evaluation. *)
Fixpoint all_below (p : Z -> bool) (n : nat) (z : Z) : bool :=
  match n with
  | O => true
  | S n => p z && all_below p n (z + 1)
  end.

Lemma all_below_spec p n z : all_below p n z = true ->
  forall x, z <= x < z + Z.of_nat n -> p x = true.
Proof.
  revert z. induction n as [| n IH]; intros z; cbn [all_below]; [lia |].
  intros [H1 H2]%andb_true_iff x Hx.
  destruct (decide (x = z)) as [-> |]; [done |]. apply (IH (z + 1)); [done | lia].
Qed.

(** ** Bits *)

Lemma lor_shiftl_add a b k : 0 <= k -> 0 <= b < 2 ^ k -> Z.lor (Z.shiftl a k) b = a * 2 ^ k + b.
Proof.
  intros Hk Hb.
  assert (Hl : Z.land (Z.shiftl a k) b = 0).
  { apply Z.bits_inj'. intros n Hn. rewrite Z.land_spec, Z.bits_0.
    destruct (decide (n < k)).
    - by rewrite Z.shiftl_spec_low.
    - rewrite <- (Z.mod_small b (2 ^ k)) by done. rewrite Z.mod_pow2_bits_high by lia.
      apply andb_false_r. }
  rewrite <- Z.lxor_lor, <- Z.add_nocarry_lxor by done. by rewrite Z.shiftl_mul_pow2.
Qed.

Lemma land_ones_mod a k m : m = Z.ones k -> 0 <= k -> Z.land a m = a `mod` 2 ^ k.
Proof. intros -> Hk. by apply Z.land_ones. Qed.

Lemma lor_add_shiftl a b k : 0 <= k -> 0 <= b < 2 ^ k -> Z.lor b (Z.shiftl a k) = a * 2 ^ k + b.
Proof. rewrite Z.lor_comm. apply lor_shiftl_add. Qed.

(** ** Automation *)

Create HintDb pwrb.
#[export] Hint Resolve u8_range u32_range u64_range zlen_nonneg idx_range
  le_bytes_is_bytes : pwrb.
#[export] Hint Rewrite @zlen_cons @zlen_app le_bytes_length : pwrb.

(** Turn every boolean test in the context into the proposition it decides. *)
Ltac bprop :=
  repeat match goal with
  | H : (_ && _)%bool = true |- _ => apply andb_true_iff in H as [? ?]
  | H : (_ && _)%bool = false |- _ => apply andb_false_iff in H
  | H : (_ || _)%bool = false |- _ => apply orb_false_iff in H as [? ?]
  | H : (_ || _)%bool = true |- _ => apply orb_true_iff in H
  | H : negb _ = true |- _ => apply negb_true_iff in H
  | H : negb _ = false |- _ => apply negb_false_iff in H
  | H : (_ =? _) = true |- _ => apply Z.eqb_eq in H
  | H : (_ =? _) = false |- _ => apply Z.eqb_neq in H
  | H : (_ <? _) = true |- _ => apply Z.ltb_lt in H
  | H : (_ <? _) = false |- _ => apply Z.ltb_ge in H
  | H : (_ <=? _) = true |- _ => apply Z.leb_le in H
  | H : (_ <=? _) = false |- _ => apply Z.leb_gt in H
  end.

(** Split on the condition of an [if] of the goal (or of a hypothesis) and
    decide it. *)
Ltac bcase :=
  match goal with
  | |- context [if ?b then _ else _] =>
      let E := fresh "E" in destruct b eqn:E; bprop
  end.
Ltac bcase_in H :=
  match type of H with
  | context [if ?b then _ else _] =>
      let E := fresh "E" in destruct b eqn:E; bprop
  end.
