(* ===== verification/CString.v ===== *)
(** C and C++ library facilities the sources use on strings: character
    classes, decimal formatting ([std::to_string], [strprintf("%d")]),
    decimal parsing ([strtoll], [std::stoi]) and the [std::string] methods
    with their exceptions. A string is its list of bytes. *)

From Stdlib Require Import ZArith Lia.
From stdpp Require Import base tactics list numbers strings.
From S2P Require Import Prelude.

(** ** Character classes (the "C" locale) *)

Definition isspace (c : Z) : bool := (c =? 32) || ((9 <=? c) && (c <=? 13)).
Definition isdigit (c : Z) : bool := (48 <=? c) && (c <=? 57).

(** ** Decimal formatting *)

Fixpoint dec_digits (fuel : nat) (n : Z) (acc : bytes) : bytes :=
  match fuel with
  | O => acc
  | S fuel =>
      let acc := 48 + n `mod` 10 :: acc in
      if n <? 10 then acc else dec_digits fuel (n / 10) acc
  end.

(** Digits of a non-negative number; one more than its bits is fuel enough. *)
Definition dec_nonneg (n : Z) : bytes := dec_digits (S (Z.to_nat (Z.log2 n))) n [].

Definition to_string (n : Z) : bytes :=
  if n <? 0 then 45 :: dec_nonneg (- n) else dec_nonneg n.

(** [%0<w>d] *)
Definition fmt0 (w : nat) (n : Z) : bytes :=
  if n <? 0 then 45 :: replicate (w - 1 - length (dec_nonneg (- n))) 48 ++ dec_nonneg (- n)
  else replicate (w - length (dec_nonneg n)) 48 ++ dec_nonneg n.

(** ** Decimal parsing *)

Definition digits_val (l : bytes) : Z := fold_left (fun a c => 10 * a + (c - 48)) l 0.

Fixpoint span (p : Z -> bool) (l : bytes) : bytes * bytes :=
  match l with
  | [] => ([], [])
  | c :: l' => if p c then let (a, b) := span p l' in (c :: a, b) else ([], l)
  end.

Record strto := { sto_val : Z; sto_end : bytes; sto_conv : bool; sto_erange : bool }.

(** [strtol]/[strtoll] in base 10 with 64-bit [long]: the value, the text
    [endptr] points at, whether a conversion was made and whether [errno] is
    [ERANGE]. *)
Definition strtoll (s : bytes) : strto :=
  let s1 := snd (span isspace s) in
  let '(neg, s2) := match s1 with
                    | c :: r => if c =? 45 then (true, r) else if c =? 43 then (false, r) else (false, s1)
                    | [] => (false, s1)
                    end in
  let '(ds, rest) := span isdigit s2 in
  match ds with
  | [] => {| sto_val := 0; sto_end := s; sto_conv := false; sto_erange := false |}
  | _ =>
      let v := if neg then - digits_val ds else digits_val ds in
      if v <? - 2 ^ 63 then {| sto_val := - 2 ^ 63; sto_end := rest; sto_conv := true; sto_erange := true |}
      else if 2 ^ 63 <=? v then {| sto_val := 2 ^ 63 - 1; sto_end := rest; sto_conv := true; sto_erange := true |}
      else {| sto_val := v; sto_end := rest; sto_conv := true; sto_erange := false |}
  end.

(** The exceptions of the C++ library. *)
Inductive cxx_exn := invalid_argument | out_of_range | runtime_error.
#[global] Instance cxx_exn_eq_dec : EqDecision cxx_exn.
Proof. solve_decision. Defined.

(** [std::stoi] *)
Definition stoi (s : bytes) : res cxx_exn Z :=
  let r := strtoll s in
  if negb (sto_conv r) then Err invalid_argument
  else if sto_erange r || (sto_val r <? - 2 ^ 31) || (2 ^ 31 <=? sto_val r) then Err out_of_range
  else Ok (sto_val r).

(** A C string ends at its first NUL byte. *)
Definition c_str (s : bytes) : bytes := fst (span (fun c => negb (c =? 0)) s).

(** ** [std::string] methods *)

(** [substr(pos, n)] *)
Definition substr (s : bytes) (pos n : nat) : res cxx_exn bytes :=
  if (length s <? pos)%nat then Err out_of_range else Ok (take n (drop pos s)).

(** [replace(pos, n, t)] *)
Definition replace (s : bytes) (pos n : nat) (t : bytes) : res cxx_exn bytes :=
  if (length s <? pos)%nat then Err out_of_range
  else Ok (take pos s ++ t ++ drop (pos + n) s).

Fixpoint is_prefix (p s : bytes) : bool :=
  match p, s with
  | [], _ => true
  | a :: p, b :: s => (a =? b) && is_prefix p s
  | _ :: _, [] => false
  end.

(** [find(t) != npos] *)
Fixpoint contains (s t : bytes) : bool :=
  is_prefix t s || match s with [] => false | _ :: s => contains s t end.

(** ** Lemmas *)

Lemma digits_val_app l k :
  digits_val (l ++ k) = fold_left (fun a c => 10 * a + (c - 48)) k (digits_val l).
Proof. apply fold_left_app. Qed.

Definition all_digits (l : bytes) : Prop := Forall (fun c => isdigit c = true) l.

Lemma isdigit_48 d : 0 <= d < 10 -> isdigit (48 + d) = true.
Proof. intros. unfold isdigit. apply andb_true_iff. split; apply Z.leb_le; lia. Qed.

Lemma fold_digits l a :
  fold_left (fun a c => 10 * a + (c - 48)) l a = a * 10 ^ zlen l + digits_val l.
Proof.
  unfold digits_val. revert a. induction l as [| c l IH] using rev_ind; intros a.
  - cbn -[Z.pow]. zl. lia.
  - rewrite !fold_left_app. cbn [fold_left]. rewrite IH.
    zl. rewrite Z.add_0_r, Z.pow_add_r
      by (try apply zlen_nonneg; lia). lia.
Qed.

Lemma dec_digits_spec fuel n acc :
  0 <= n < 10 ^ Z.of_nat fuel -> (0 < fuel)%nat ->
  digits_val (dec_digits fuel n acc) = n * 10 ^ zlen acc + digits_val acc
  /\ (all_digits acc -> all_digits (dec_digits fuel n acc)).
Proof.
  revert n acc. induction fuel as [| fuel IH]; intros n acc Hn Hf; [lia |].
  cbn [dec_digits]. rewrite Nat2Z.inj_succ, Z.pow_succ_r in Hn by lia.
  assert (Hd : 0 <= n `mod` 10 < 10) by (apply Z.mod_pos_bound; lia).
  assert (Hv : digits_val (48 + n `mod` 10 :: acc)
               = n `mod` 10 * 10 ^ zlen acc + digits_val acc).
  { change (digits_val (48 + n `mod` 10 :: acc)) with
      (fold_left (fun a c => 10 * a + (c - 48)) acc (10 * 0 + (48 + n `mod` 10 - 48))).
    rewrite fold_digits. f_equal. f_equal. lia. }
  destruct (n <? 10) eqn:E; bprop.
  - rewrite Hv, Z.mod_small by lia. split; [done |].
    intros. constructor; [by apply isdigit_48; lia | done].
  - assert (0 <= n / 10 < 10 ^ Z.of_nat fuel).
    { split; [apply Z.div_pos; lia | apply Z.div_lt_upper_bound; lia]. }
    destruct fuel as [| fuel]; [cbn in Hn; lia |].
    edestruct (IH (n / 10) (48 + n `mod` 10 :: acc)) as [IH1 IH2]; [lia | lia |].
    rewrite IH1, Hv, zlen_cons, Z.pow_add_r by (try apply zlen_nonneg; lia).
    split.
    + pose proof (Z.div_mod n 10). nia.
    + intros. apply IH2. constructor; [by apply isdigit_48 | done].
Qed.

Lemma dec_fuel n : 0 <= n -> n < 10 ^ Z.of_nat (S (Z.to_nat (Z.log2 n))).
Proof.
  intros. destruct (decide (n = 0)) as [-> | Hne]; [cbn; lia |].
  pose proof (Z.log2_spec n ltac:(lia)) as [_ Hlt].
  pose proof (Z.log2_nonneg n).
  rewrite Nat2Z.inj_succ, Z2Nat.id by lia.
  eapply Z.lt_le_trans; [exact Hlt |]. apply Z.pow_le_mono_l. lia.
Qed.

(** Decimal formatting denotes the number it formats. *)
Lemma dec_nonneg_val n : 0 <= n -> digits_val (dec_nonneg n) = n.
Proof.
  intros. unfold dec_nonneg.
  destruct (dec_digits_spec (S (Z.to_nat (Z.log2 n))) n []) as [-> _];
    [split; [done | by apply dec_fuel] | lia |].
  zl. unfold digits_val. simpl. lia.
Qed.

Lemma dec_nonneg_digits n : 0 <= n -> all_digits (dec_nonneg n).
Proof.
  intros. unfold dec_nonneg.
  apply (dec_digits_spec (S (Z.to_nat (Z.log2 n))) n []);
    [split; [done | by apply dec_fuel] | lia | constructor].
Qed.

Lemma dec_digits_nonnil fuel n acc : (0 < fuel)%nat -> dec_digits fuel n acc <> [].
Proof.
  revert n acc. induction fuel as [| fuel IH]; intros n acc Hf; [lia |].
  cbn. destruct (n <? 10); [done |]. destruct fuel; [done |]. apply IH. lia.
Qed.

Lemma dec_nonneg_nonnil n : dec_nonneg n <> [].
Proof. apply dec_digits_nonnil. lia. Qed.

Lemma digits_val_pad k l : digits_val (replicate k 48 ++ l) = digits_val l.
Proof.
  rewrite digits_val_app, fold_digits.
  replace (digits_val (replicate k 48)) with 0; [lia |].
  induction k as [| k IH]; [done |]. unfold digits_val in *. cbn. done.
Qed.

Lemma span_all p l k :
  Forall (fun c => p c = true) l ->
  match k with [] => True | c :: _ => p c = false end -> span p (l ++ k) = (l, k).
Proof.
  induction 1 as [| c l Hc _ IH]; intros Hk; cbn.
  - destruct k as [| c k]; [done |]. cbn. by rewrite Hk.
  - rewrite Hc, IH by done. done.
Qed.

Lemma span_app p l : fst (span p l) ++ snd (span p l) = l.
Proof.
  induction l as [| c l IH]; [done |]. cbn.
  destruct (p c); [| done]. destruct (span p l). cbn in *. by rewrite IH.
Qed.

Lemma all_digits_not_space l c : all_digits (c :: l) -> isspace c = false.
Proof.
  intros H. inversion H as [| ? ? Hd _]; subst. unfold isdigit, isspace in *. bprop.
  apply orb_false_iff. split; [apply Z.eqb_neq; lia | apply andb_false_iff].
  right. apply Z.leb_gt. lia.
Qed.

(** [strtoll] reads back a run of digits that fits. *)
Lemma strtoll_digits ds rest :
  all_digits ds -> ds <> [] -> digits_val ds < 2 ^ 63 -> 0 <= digits_val ds ->
  match rest with [] => True | c :: _ => isdigit c = false end ->
  strtoll (ds ++ rest)
  = {| sto_val := digits_val ds; sto_end := rest; sto_conv := true; sto_erange := false |}.
Proof.
  intros Hd Hne Hlt Hge Hr. unfold strtoll.
  destruct ds as [| c ds]; [done |].
  pose proof (all_digits_not_space _ _ Hd) as Hs.
  inversion Hd as [| ? ? Hc _]; subst.
  assert (Hspan : snd (span isspace ((c :: ds) ++ rest)) = (c :: ds) ++ rest)
    by (cbn; by rewrite Hs).
  rewrite Hspan. cbn [app].
  assert (c =? 45 = false /\ c =? 43 = false) as [-> ->]
    by (unfold isdigit in Hc; bprop; split; apply Z.eqb_neq; lia).
  rewrite app_comm_cons, (span_all isdigit (c :: ds) rest) by done.
  cbn -[digits_val Z.pow].
  destruct (digits_val (c :: ds) <? - 2 ^ 63) eqn:E1; bprop; [lia |].
  destruct (2 ^ 63 <=? digits_val (c :: ds)) eqn:E2; bprop; [lia |]. done.
Qed.

Lemma dec_digits_length k fuel n acc :
  (0 < k)%nat -> 0 <= n < 10 ^ Z.of_nat k -> (length (dec_digits fuel n acc) <= k + length acc)%nat.
Proof.
  revert fuel n acc. induction k as [| k IH]; intros fuel n acc Hk Hn; [lia |].
  destruct fuel as [| fuel]; cbn [dec_digits]; [lia |].
  destruct (n <? 10) eqn:E; bprop; [cbn; lia |].
  rewrite Nat2Z.inj_succ, Z.pow_succ_r in Hn by lia.
  destruct k as [| k]; [cbn in Hn; lia |].
  etrans; [apply IH; [lia |] | cbn; lia].
  split; [apply Z.div_pos; lia | apply Z.div_lt_upper_bound; lia].
Qed.

Lemma dec_nonneg_length k n :
  (0 < k)%nat -> 0 <= n < 10 ^ Z.of_nat k -> (length (dec_nonneg n) <= k)%nat.
Proof.
  intros Hk Hn. etrans; [by apply dec_digits_length | cbn; lia].
Qed.

Lemma c_str_no_nul s : Forall (fun c => c <> 0) s -> c_str s = s.
Proof.
  intros H. unfold c_str. rewrite <- (app_nil_r s) at 1.
  rewrite span_all; [done | | done].
  eapply Forall_impl; [exact H |]. intros c Hc. apply negb_true_iff, Z.eqb_neq, Hc.
Qed.

Lemma all_digits_no_nul l : all_digits l -> Forall (fun c => c <> 0) l.
Proof.
  intros H. eapply Forall_impl; [exact H |]. intros c Hc. unfold isdigit in Hc.
  cbv beta in Hc. bprop. lia.
Qed.

Lemma c_str_digits_dot l k : all_digits l -> all_digits k -> c_str (l ++ 46 :: k) = l ++ 46 :: k.
Proof.
  intros. apply c_str_no_nul, Forall_app. split; [by apply all_digits_no_nul |].
  constructor; [done | by apply all_digits_no_nul].
Qed.

Lemma digits_val_bound l : all_digits l -> 0 <= digits_val l < 10 ^ zlen l.
Proof.
  intros H. induction l as [| c l IH] using rev_ind; [done |].
  apply Forall_app in H as [Hl Hc]. inversion Hc as [| ? ? Hd _]; subst.
  specialize (IH Hl). rewrite digits_val_app. cbn [fold_left]. zl.
  rewrite Z.add_0_r, Z.pow_add_r by (try apply zlen_nonneg; lia).
  unfold isdigit in Hd. bprop. lia.
Qed.

#[export] Hint Resolve dec_nonneg_digits dec_nonneg_nonnil : pwrb.
