(* ===== verification/Amount.v ===== *)
(** Amounts: [amount.h], [amount.cpp] (the unit, the fee rate) and
    [utilmoneystr.cpp] (printing and parsing of amounts). *)

From Stdlib Require Import ZArith Lia.
From stdpp Require Import base tactics list numbers strings.
From S2P Require Import Prelude CString.

(** ** [amount.h] *)

Definition COIN : Z := 100000000.
Definition CENT : Z := 1000000.

Definition CURRENCY_UNIT : bytes := str "PWRB".

Record CFeeRate := mkCFeeRate { nSatoshisPerK : Z }.

(** [CFeeRate(const CAmount& nFeePaid, size_t nSize)]. The product is an
    [int64_t]; dividing it by a [size_t] converts it to [uint64_t], and the
    quotient is stored back in an [int64_t]. *)
Definition CFeeRate_of (nFeePaid nSize : Z) : CFeeRate :=
  if 0 <? nSize then mkCFeeRate (s64 (u64 (s64 (nFeePaid * 1000)) / nSize))
  else mkCFeeRate 0.

(** [CFeeRate::GetFee]: [int64_t * size_t] is computed modulo 2^64. *)
Definition GetFee (r : CFeeRate) (nSize : Z) : Z :=
  let nFee := s64 (u64 (nSatoshisPerK r * nSize) / 1000) in
  if (nFee =? 0) && (0 <? nSatoshisPerK r) then nSatoshisPerK r else nFee.

Definition GetFeePerK (r : CFeeRate) : Z := GetFee r 1000.

(** [CFeeRate::ToString]: [strprintf("%d.%08d %s/kB", k / COIN, k % COIN, unit)];
    division of an [int64_t] truncates. *)
Definition CFeeRate_ToString (r : CFeeRate) : bytes :=
  to_string (Z.quot (nSatoshisPerK r) COIN) ++ str "." ++
  fmt0 8 (Z.rem (nSatoshisPerK r) COIN) ++ str " " ++ CURRENCY_UNIT ++ str "/kB".

(** ** [utilmoneystr.cpp] *)

(** The right-trim loop of [FormatMoney]:
    [for (int i = size - 1; str[i] == '0' && isdigit(str[i - 2]); --i) ++nTrim]. *)
Fixpoint trim_loop (s : bytes) (i nTrim : nat) : nat :=
  if (idx s (Z.of_nat i) =? 48) && isdigit (idx s (Z.of_nat i - 2)) then
    match i with
    | O => S nTrim
    | S i => trim_loop s i (S nTrim)
    end
  else nTrim.

Definition FormatMoney (n : Z) (fPlus : bool) : bytes :=
  let n_abs := if 0 <? n then n else s64 (- n) in
  let quotient := Z.quot n_abs COIN in
  let remainder := Z.rem n_abs COIN in
  let s := to_string quotient ++ str "." ++ fmt0 8 remainder in
  let nTrim := trim_loop s (length s - 1) 0 in
  let s := take (length s - nTrim) s in
  if n <? 0 then str "-" ++ s
  else if fPlus && (0 <? n) then str "+" ++ s
  else s.

(** The digits after the point: [while (isdigit( *p ) && nMult > 0)]. *)
Fixpoint parse_units (p : bytes) (nMult nUnits : Z) : Z * bytes :=
  match p with
  | c :: p' =>
      if isdigit c && (0 <? nMult)
      then parse_units p' (nMult / 10) (nUnits + nMult * (c - 48))
      else (nUnits, p)
  | [] => (nUnits, [])
  end.

(** The main scanning loop: the whole part, the units and what is left of
    the input; [None] on a character that is not allowed. *)
Fixpoint parse_whole (p strWhole : bytes) : option (bytes * Z * bytes) :=
  match p with
  | [] => Some (strWhole, 0, [])
  | c :: p' =>
      if c =? 46 then
        let (nUnits, rest) := parse_units p' (CENT * 10) 0 in Some (strWhole, nUnits, rest)
      else if isspace c then Some (strWhole, 0, p)
      else if negb (isdigit c) then None
      else parse_whole p' (strWhole ++ [c])
  end.

Definition atoi64 (s : bytes) : Z := sto_val (strtoll s).

Definition ParseMoney (pszIn : bytes) : option Z :=
  let p := snd (span isspace (c_str pszIn)) in
  match parse_whole p [] with
  | None => None
  | Some (strWhole, nUnits, rest) =>
      if negb (forallb isspace rest) then None
      else if (10 <? length strWhole)%nat then None
      else if (nUnits <? 0) || (COIN <? nUnits) then None
      else Some (s64 (atoi64 strWhole * COIN + nUnits))
  end.

(** ** Fee rates *)

Lemma GetFee_small r n :
  0 <= nSatoshisPerK r -> 0 <= n -> nSatoshisPerK r * n < 2 ^ 63 ->
  GetFee r n =
    if (nSatoshisPerK r * n / 1000 =? 0) && (0 <? nSatoshisPerK r)
    then nSatoshisPerK r else nSatoshisPerK r * n / 1000.
Proof.
  intros Hr Hn Hb. unfold GetFee.
  assert (0 <= nSatoshisPerK r * n) by lia.
  rewrite u64_id by lia.
  assert (0 <= nSatoshisPerK r * n / 1000 <= nSatoshisPerK r * n).
  { split; [apply Z.div_pos; lia |].
    apply Z.div_le_upper_bound; lia. }
  rewrite s64_id by lia. done.
Qed.

(** ** Printing and parsing are inverse *)

Lemma trim_loop_spec s i acc :
  exists k, trim_loop s i acc = (acc + k)%nat /\ (k <= S i)%nat /\
    forall j, (i < j + k)%nat -> (j <= i)%nat ->
      idx s (Z.of_nat j) = 48 /\ isdigit (idx s (Z.of_nat j - 2)) = true.
Proof.
  revert acc. induction i as [| i IH]; intros acc; cbn [trim_loop].
  - destruct (_ && _) eqn:E; bprop.
    + exists 1%nat. repeat split; [lia | lia | |]; replace j with 0%nat by lia; done.
    + exists 0%nat. repeat split; try lia.
  - destruct (_ && _) eqn:E; bprop.
    + destruct (IH (S acc)) as (k & Hk & Hle & Hj). exists (S k).
      split; [lia |]. split; [lia |]. intros j H1 H2.
      destruct (decide (j = S i)) as [-> |]; [done | apply Hj; lia].
    + exists 0%nat. repeat split; lia.
Qed.

Lemma parse_units_digits l rest m u :
  all_digits l ->
  (length l <= m)%nat -> match rest with [] => True | c :: _ => isdigit c = false end ->
  parse_units (l ++ rest) (10 ^ Z.of_nat m / 10) u
  = (u + digits_val l * 10 ^ Z.of_nat (m - length l), rest).
Proof.
  intros Hl. revert m u. induction Hl as [| c l Hc Hl IH]; intros m u Hm Hr.
  - assert (H0 : digits_val [] = 0) by done. rewrite H0. cbn [app].
    destruct rest as [| c rest]; cbn [parse_units]; [f_equal; lia |].
    rewrite Hr. cbn. f_equal; lia.
  - cbn [app parse_units length] in *. destruct m as [| m]; [lia |].
    assert (Hp : 10 ^ Z.of_nat (S m) / 10 = 10 ^ Z.of_nat m).
    { rewrite Nat2Z.inj_succ, Z.pow_succ_r, Z.mul_comm by lia.
      by rewrite Z.div_mul. }
    rewrite Hp, Hc. assert (0 < 10 ^ Z.of_nat m) by lia.
    destruct (0 <? 10 ^ Z.of_nat m) eqn:E; bprop; [| lia]. cbn [andb].
    rewrite IH by (auto; lia). f_equal. cbn [Nat.sub].
    change (digits_val (c :: l)) with
      (fold_left (fun a c => 10 * a + (c - 48)) l (10 * 0 + (c - 48))).
    rewrite fold_digits. unfold zlen.
    replace (Z.of_nat m) with (Z.of_nat (length l) + Z.of_nat (m - length l)) at 1 by lia.
    rewrite Z.pow_add_r by lia. lia.
Qed.

Lemma isdigit_not_space c : isdigit c = true -> isspace c = false.
Proof. intros H. by apply (all_digits_not_space []); constructor. Qed.

Lemma parse_whole_digits l p acc :
  all_digits l -> parse_whole (l ++ 46 :: p) acc =
    let (nUnits, rest) := parse_units p (CENT * 10) 0 in Some (acc ++ l, nUnits, rest).
Proof.
  intros Hl. revert acc. induction Hl as [| c l Hc Hl IH]; intros acc; cbn [app parse_whole].
  - rewrite Z.eqb_refl. destruct (parse_units p _ _). by rewrite app_nil_r.
  - destruct (c =? 46) eqn:E; bprop; [subst; done |].
    rewrite (isdigit_not_space c), Hc by done. cbn [negb].
    rewrite IH. destruct (parse_units p _ _). by rewrite <- app_assoc.
Qed.

Lemma digits_val_trim l k :
  (k <= length l)%nat ->
  (forall j, (length l <= j + k)%nat -> (j < length l)%nat -> idx l (Z.of_nat j) = 48) ->
  digits_val l = digits_val (take (length l - k) l) * 10 ^ Z.of_nat k.
Proof.
  intros Hk Hz. rewrite <- (take_drop (length l - k) l) at 1.
  rewrite digits_val_app, fold_digits. unfold zlen. rewrite length_drop.
  replace (length l - (length l - k))%nat with k by lia.
  assert (Hd : drop (length l - k) l = replicate k 48).
  { apply list_eq. intros i. rewrite lookup_drop.
    destruct (decide (i < k)%nat) as [Hi |].
    - rewrite lookup_replicate_2 by done.
      specialize (Hz (length l - k + i)%nat ltac:(lia) ltac:(lia)).
      unfold idx in Hz. rewrite Nat2Z.id in Hz.
      destruct (lookup_lt_is_Some_2 l (length l - k + i) ltac:(lia)) as [x Hx].
      rewrite Hx. rewrite (nth_lookup_Some _ _ _ _ Hx) in Hz. by subst.
    - rewrite lookup_ge_None_2 by lia.
      symmetry. apply lookup_ge_None_2. rewrite length_replicate. lia. }
  rewrite Hd. replace (replicate k 48) with (replicate k 48 ++ []) by apply app_nil_r.
  rewrite digits_val_pad. change (digits_val []) with 0. lia.
Qed.

Lemma idx_app_r l k j : (length l <= j)%nat ->
  idx (l ++ k) (Z.of_nat j) = idx k (Z.of_nat (j - length l)).
Proof. intros. unfold idx. rewrite !Nat2Z.id. by apply app_nth2. Qed.

Lemma fmt0_nonneg w r : 0 <= r -> fmt0 w r = replicate (w - length (dec_nonneg r)) 48 ++ dec_nonneg r.
Proof. intros. unfold fmt0. destruct (r <? 0) eqn:E; bprop; [lia | done]. Qed.

Lemma fmt0_length w r : (0 < w)%nat -> 0 <= r < 10 ^ Z.of_nat w -> length (fmt0 w r) = w.
Proof.
  intros Hw Hr. rewrite fmt0_nonneg by lia.
  rewrite length_app, length_replicate.
  pose proof (dec_nonneg_length w r Hw Hr). lia.
Qed.

Lemma fmt0_digits w r : 0 <= r -> all_digits (fmt0 w r).
Proof.
  intros. rewrite fmt0_nonneg by done. apply Forall_app. split; [| by apply dec_nonneg_digits].
  apply Forall_replicate. done.
Qed.

Lemma fmt0_val w r : 0 <= r -> digits_val (fmt0 w r) = r.
Proof. intros. rewrite fmt0_nonneg, digits_val_pad, dec_nonneg_val by done. done. Qed.

(** What [FormatMoney] prints for an amount that is not negative: the whole
    coins, a point, and the 8 decimals without at most 6 trailing zeros. *)
Lemma FormatMoney_shape n :
  0 <= n < 2 ^ 63 ->
  exists k, (k <= 6)%nat /\
    FormatMoney n false = dec_nonneg (n / COIN) ++ 46 :: take (8 - k) (fmt0 8 (n `mod` COIN)) /\
    forall j, (8 <= j + k)%nat -> (j < 8)%nat -> idx (fmt0 8 (n `mod` COIN)) (Z.of_nat j) = 48.
Proof.
  intros Hn. unfold FormatMoney.
  assert (Ha : (if 0 <? n then n else s64 (- n)) = n).
  { destruct (0 <? n) eqn:E; bprop; [done |]. replace n with 0 by lia. done. }
  rewrite Ha, Z.quot_div_nonneg, Z.rem_mod_nonneg by (unfold COIN; lia).
  assert (Hq : 0 <= n / COIN) by (apply Z.div_pos; unfold COIN; lia).
  assert (Hm : 0 <= n `mod` COIN < COIN) by (apply Z.mod_pos_bound; done).
  unfold to_string. destruct (n / COIN <? 0) eqn:E; bprop; [lia | clear E].
  destruct (n <? 0) eqn:E; bprop; [lia | clear E]. cbn [andb].
  set (w := dec_nonneg (n / COIN)). set (f := fmt0 8 (n `mod` COIN)).
  assert (Hf : length f = 8%nat) by (apply fmt0_length; [lia | exact Hm]).
  change (w ++ str "." ++ f) with (w ++ 46 :: f). set (s := w ++ 46 :: f).
  assert (Hs : length s = (length w + 9)%nat) by (unfold s; rewrite length_app; cbn; lia).
  destruct (trim_loop_spec s (length s - 1) 0) as (k & Hk & Hle & Hj).
  assert (Hidx : forall j, idx s (Z.of_nat (length w + 1 + j)) = idx f (Z.of_nat j)).
  { intros j. unfold s. rewrite idx_app_r by lia. unfold idx. rewrite !Nat2Z.id.
    by replace (length w + 1 + j - length w)%nat with (S j) by lia. }
  assert (Hk6 : (k <= 6)%nat).
  { destruct (decide (k <= 6)%nat) as [| Hgt]; [done |]. exfalso.
    destruct (Hj (length w + 2)%nat) as [_ Hd]; [lia | lia |].
    replace (Z.of_nat (length w + 2) - 2) with (Z.of_nat (length w)) in Hd by lia.
    unfold s in Hd. rewrite idx_app_r, Nat.sub_diag in Hd by lia. done. }
  exists k. split; [done |]. split.
  - rewrite Hk, Nat.add_0_l. unfold s at 2. rewrite take_app_ge by lia. f_equal.
    replace (length s - k - length w)%nat with (S (8 - k)) by lia. done.
  - intros j H1 H2. rewrite <- Hidx. apply Hj; lia.
Qed.

(** every amount from 0 up to 10^10 coins that [FormatMoney] prints is
    read back exactly by [ParseMoney]. *)
Theorem ParseMoney_FormatMoney (n : Z) :
  0 <= n < 10 ^ 10 * COIN -> ParseMoney (FormatMoney n false) = Some n.
Proof.
  intros Hn. assert (Hb : n < 2 ^ 63) by (unfold COIN in Hn; lia).
  destruct (FormatMoney_shape n ltac:(lia)) as (k & Hk & -> & Hz).
  assert (Hq : 0 <= n / COIN < 10 ^ Z.of_nat 10).
  { split; [apply Z.div_pos | apply Z.div_lt_upper_bound]; unfold COIN in *; lia. }
  assert (Hm : 0 <= n `mod` COIN < COIN) by (apply Z.mod_pos_bound; done).
  set (f := fmt0 8 (n `mod` COIN)) in *. set (w := dec_nonneg (n / COIN)).
  assert (Hf : length f = 8%nat) by (apply fmt0_length; [lia | exact Hm]).
  assert (Hfd : all_digits (take (8 - k) f)) by (apply Forall_take, fmt0_digits; lia).
  assert (Hwd : all_digits w) by (apply dec_nonneg_digits; lia).
  pose proof (dec_nonneg_nonnil (n / COIN) : w <> []) as Hw0.
  unfold ParseMoney.
  rewrite c_str_digits_dot by done.
  assert (Hsp : snd (span isspace (w ++ 46 :: take (8 - k) f)) = w ++ 46 :: take (8 - k) f).
  { destruct w as [| c w]; [done |]. cbn. by rewrite (all_digits_not_space w c). }
  rewrite Hsp, parse_whole_digits by done.
  pose proof (parse_units_digits (take (8 - k) f) [] 8 0 Hfd) as Hu.
  rewrite app_nil_r, length_take in Hu.
  replace (CENT * 10) with (10 ^ Z.of_nat 8 / 10) by done.
  rewrite Hu by (try lia; done). cbn [forallb negb app].
  pose proof (dec_nonneg_length 10 (n / COIN) ltac:(lia) Hq) as Hwl. fold w in Hwl.
  destruct (10 <? length w)%nat eqn:E; [apply Nat.ltb_lt in E; lia | clear E].
  pose proof (digits_val_trim f k ltac:(lia)) as Ht. rewrite Hf in Ht.
  replace (8 - (8 - k) `min` length f)%nat with k by lia.
  rewrite Z.add_0_l, <- Ht by done.
  assert (Hfv : digits_val f = n `mod` COIN) by (apply fmt0_val; lia). rewrite Hfv.
  destruct ((n `mod` COIN <? 0) || (COIN <? n `mod` COIN)) eqn:E.
  { apply orb_true_iff in E as [E | E]; bprop; lia. }
  unfold atoi64. pose proof (dec_nonneg_val (n / COIN) ltac:(lia)) as Hv. fold w in Hv.
  pose proof (strtoll_digits w []) as Hst. rewrite app_nil_r in Hst.
  rewrite Hst by (rewrite ?Hv; try done; lia). cbn [sto_val]. rewrite Hv.
  rewrite (Z.mul_comm (n / COIN)), <- Z.div_mod by done.
  rewrite s64_id by lia. done.
Qed.

Lemma ParseMoney_FormatMoney_witness :
  0 <= 123450000 < 10 ^ 10 * COIN /\ ParseMoney (FormatMoney 123450000 false) = Some 123450000.
Proof. split; [done |]. apply ParseMoney_FormatMoney. done. Defined.

Lemma parse_units_range p nMult u :
  0 <= nMult -> u <= fst (parse_units p nMult u) <= u + 10 * nMult.
Proof.
  revert nMult u. induction p as [| c p IH]; intros m u Hm; cbn [parse_units fst]; [lia |].
  destruct (isdigit c && (0 <? m)) eqn:E; [| cbn; lia].
  unfold isdigit in E. bprop.
  specialize (IH (m / 10) (u + m * (c - 48)) ltac:(apply Z.div_pos; lia)).
  pose proof (Z.mul_div_le m 10 ltac:(lia)).
  assert (0 <= m * (c - 48) <= m * 9) by (split; [apply Z.mul_nonneg_nonneg | apply Z.mul_le_mono_nonneg_l]; lia).
  lia.
Qed.

Lemma parse_whole_range p acc w u rest :
  all_digits acc -> parse_whole p acc = Some (w, u, rest) -> all_digits w /\ 0 <= u <= COIN.
Proof.
  revert acc. induction p as [| c p IH]; intros acc Hacc; cbn [parse_whole].
  - intros [= <- <- _]. split; [done |]. by vm_compute.
  - destruct (c =? 46) eqn:E.
    + pose proof (parse_units_range p (CENT * 10) 0 ltac:(done)) as Hr.
      destruct (parse_units p (CENT * 10) 0) as [v r]. intros [= <- <- _].
      split; [done |]. cbn [fst] in Hr. unfold COIN, CENT in *. lia.
    + destruct (isspace c); [intros [= <- <- _]; split; [done | by vm_compute] |].
      destruct (isdigit c) eqn:Hd; cbn [negb]; [| done]. apply IH.
      apply Forall_app. split; [done | by repeat constructor].
Qed.

(** whatever text it is given, [ParseMoney] either rejects it or returns
    an amount between 0 and 10^10 coins; the 63-bit guard is enough and the
    final [int64_t] arithmetic never wraps. *)
Theorem ParseMoney_range (s : bytes) (v : Z) :
  ParseMoney s = Some v -> 0 <= v <= 10 ^ 10 * COIN.
Proof.
  unfold ParseMoney. destruct (parse_whole _ []) as [[[w u] rest] |] eqn:E; [| done].
  apply parse_whole_range in E as [Hw Hu]; [| constructor].
  destruct (negb _); [done |].
  destruct (10 <? length w)%nat eqn:El; [done |]. apply Nat.ltb_ge in El.
  destruct (_ || _); [done |]. intros [= <-].
  assert (Hv : 0 <= atoi64 w < 10 ^ 10).
  { destruct w as [| c w]; [done |]. set (l := c :: w) in *.
    pose proof (digits_val_bound l Hw) as Hb.
    assert (10 ^ zlen l <= 10 ^ 10) by (apply Z.pow_le_mono_r; unfold zlen; lia).
    unfold atoi64. pose proof (strtoll_digits l []) as Hst. rewrite app_nil_r in Hst.
    rewrite Hst by (try done; lia). cbn [sto_val]. lia. }
  unfold COIN in *. rewrite s64_id; lia.
Qed.

Lemma ParseMoney_range_witness :
  ParseMoney (str " 9999999999.99999999 ") = Some 999999999999999999 /\
  0 <= 999999999999999999 <= 10 ^ 10 * COIN.
Proof. split; [vm_compute; reflexivity |]. apply (ParseMoney_range (str " 9999999999.99999999 ")). vm_compute. reflexivity. Defined.

(** A positive fee rate never gives a zero fee. *)
Lemma GetFee_positive r n :
  0 < nSatoshisPerK r -> 0 <= n -> nSatoshisPerK r * n < 2 ^ 63 ->
  0 < GetFee r n <= Z.max (nSatoshisPerK r) (nSatoshisPerK r * n / 1000).
Proof.
  intros. rewrite GetFee_small by lia.
  assert (0 <= nSatoshisPerK r * n / 1000) by (apply Z.div_pos; lia).
  destruct (_ && _) eqn:E; bprop; [lia |].
  destruct E as [E | E]; bprop; lia.
Qed.
