(* ===== verification/StrEncodings.v ===== *)
(** [utilstrencodings.cpp] and [utilstrencodings.h]: hexadecimal, base 64 and
    base 32 conversion, strict integer parsing, sanitising and the
    timing-resistant comparison. *)

From Stdlib Require Import ZArith Lia.
From stdpp Require Import base tactics list numbers strings.
From S2P Require Import Prelude CString.

(** ** Sanitising *)

Definition CHARS_ALPHA_NUM : bytes :=
  str "abcdefghijklmnopqrstuvwxyzABCDEFGHIJKLMNOPQRSTUVWXYZ0123456789".

Inductive SafeChars := SAFE_CHARS_DEFAULT | SAFE_CHARS_UA_COMMENT | SAFE_CHARS_FILENAME.

Definition SAFE_CHARS (rule : SafeChars) : bytes :=
  match rule with
  | SAFE_CHARS_DEFAULT => CHARS_ALPHA_NUM ++ str " .,;-_/:?@()"
  | SAFE_CHARS_UA_COMMENT => CHARS_ALPHA_NUM ++ str " .,;-_?@"
  | SAFE_CHARS_FILENAME => CHARS_ALPHA_NUM ++ str ".-_"
  end.

Definition SanitizeString (s : bytes) (rule : SafeChars) : bytes :=
  List.filter (fun c => existsb (Z.eqb c) (SAFE_CHARS rule)) s.

(** [validateURL]: the size limit and the required scheme; [strErr] is not
    kept. *)
Definition validateURL (strURL : bytes) (maxSize : Z) : bool :=
  if maxSize <? zlen strURL then false
  else is_prefix (str "http://") strURL || is_prefix (str "https://") strURL.

(** ** Hexadecimal *)

(** The 256-entry table [p_util_hexdigit], written as its non-negative runs. *)
Definition p_util_hexdigit : list Z :=
  replicate 48 (-1) ++ [0; 1; 2; 3; 4; 5; 6; 7; 8; 9] ++ replicate 7 (-1) ++
  [10; 11; 12; 13; 14; 15] ++ replicate 26 (-1) ++ [10; 11; 12; 13; 14; 15] ++
  replicate 153 (-1).

Definition HexDigit (c : Z) : Z := idx p_util_hexdigit (u8 c).

Definition IsHex (s : bytes) : bool :=
  forallb (fun c => 0 <=? HexDigit c) s && (0 <? zlen s) && (zlen s `mod` 2 =? 0).

(** The loop of [ParseHex]; [hi] is the first digit of the byte being read. *)
Fixpoint ParseHex_loop (p : bytes) (hi : option Z) : bytes :=
  match p with
  | [] => []
  | ch :: p =>
      match hi with
      | None =>
          if isspace ch then ParseHex_loop p None
          else if HexDigit ch =? -1 then []
          else ParseHex_loop p (Some (HexDigit ch))
      | Some c =>
          if HexDigit ch =? -1 then []
          else Z.lor (u8 (Z.shiftl c 4)) (HexDigit ch) :: ParseHex_loop p None
      end
  end.

Definition ParseHex (s : bytes) : bytes := ParseHex_loop (c_str s) None.

Definition hexmap : bytes := str "0123456789abcdef".

(** [HexStr(it, end)] with [fSpaces = false]. *)
Fixpoint HexStr (l : bytes) : bytes :=
  match l with
  | [] => []
  | val :: l => idx hexmap (Z.shiftr val 4) :: idx hexmap (Z.land val 15) :: HexStr l
  end.

(** ** Base 64 *)

Definition pbase64 : bytes :=
  str "ABCDEFGHIJKLMNOPQRSTUVWXYZabcdefghijklmnopqrstuvwxyz0123456789+/".

Inductive emode64 := E0 | E1 | E2.

Fixpoint encode64 (l : bytes) (mode : emode64) (left : Z) : bytes :=
  match l with
  | [] =>
      match mode with
      | E0 => []
      | E1 => idx pbase64 left :: str "=="
      | E2 => idx pbase64 left :: str "="
      end
  | enc :: l =>
      match mode with
      | E0 => idx pbase64 (Z.shiftr enc 2) :: encode64 l E1 (Z.shiftl (Z.land enc 3) 4)
      | E1 => idx pbase64 (Z.lor left (Z.shiftr enc 4)) :: encode64 l E2 (Z.shiftl (Z.land enc 15) 2)
      | E2 => idx pbase64 (Z.lor left (Z.shiftr enc 6)) :: idx pbase64 (Z.land enc 63) :: encode64 l E0 left
      end
  end.

Definition EncodeBase64 (l : bytes) : bytes := encode64 l E0 0.

(** [decode64_table], by its non-negative runs. *)
Definition decode64_table : list Z :=
  replicate 43 (-1) ++ [62] ++ replicate 3 (-1) ++ [63] ++ seqZ 52 10 ++ replicate 7 (-1) ++
  seqZ 0 26 ++ replicate 6 (-1) ++ seqZ 26 26 ++ replicate 133 (-1).

Inductive dmode64 := D0 | D1 | D2 | D3.

(** The decoding loop: what was pushed, and the mode, pending bits and input
    left when it stopped. *)
Fixpoint decode64 (p : bytes) (mode : dmode64) (left : Z) : bytes * (dmode64 * Z * bytes) :=
  match p with
  | [] => ([], (mode, left, []))
  | c :: p' =>
      let dec := idx decode64_table c in
      if dec =? -1 then ([], (mode, left, p))
      else match mode with
           | D0 => decode64 p' D1 dec
           | D1 => let (o, st) := decode64 p' D2 (Z.land dec 15) in
                   (u8 (Z.lor (Z.shiftl left 2) (Z.shiftr dec 4)) :: o, st)
           | D2 => let (o, st) := decode64 p' D3 (Z.land dec 3) in
                   (u8 (Z.lor (Z.shiftl left 4) (Z.shiftr dec 2)) :: o, st)
           | D3 => let (o, st) := decode64 p' D0 left in
                   (u8 (Z.lor (Z.shiftl left 6) dec) :: o, st)
           end
  end.

(** [p[i]] on a C string: the terminator is read as 0. *)
Definition at_c (p : bytes) (i : nat) : Z := nth i p 0.

(** [DecodeBase64]: the bytes and [*pfInvalid]. *)
Definition invalid64 (st : dmode64 * Z * bytes) : bool :=
  let '(mode, rem_bits, p) := st in
  let none c := idx decode64_table c =? -1 in
  match mode with
  | D0 => false
  | D1 => true
  | D2 => negb (rem_bits =? 0) || negb (at_c p 0 =? 61) || negb (at_c p 1 =? 61) || negb (none (at_c p 2))
  | D3 => negb (rem_bits =? 0) || negb (at_c p 0 =? 61) || negb (none (at_c p 1))
  end.

Definition DecodeBase64 (s : bytes) : bytes * bool :=
  let (o, st) := decode64 (c_str s) D0 0 in (o, invalid64 st).

(** ** Base 32 *)

Definition pbase32 : bytes := str "abcdefghijklmnopqrstuvwxyz234567".

Inductive emode32 := F0 | F1 | F2 | F3 | F4.

Fixpoint encode32 (l : bytes) (mode : emode32) (left : Z) : bytes :=
  match l with
  | [] =>
      match mode with
      | F0 => []
      | F1 => idx pbase32 left :: replicate 6 61
      | F2 => idx pbase32 left :: replicate 4 61
      | F3 => idx pbase32 left :: replicate 3 61
      | F4 => idx pbase32 left :: replicate 1 61
      end
  | enc :: l =>
      match mode with
      | F0 => idx pbase32 (Z.shiftr enc 3) :: encode32 l F1 (Z.shiftl (Z.land enc 7) 2)
      | F1 => idx pbase32 (Z.lor left (Z.shiftr enc 6)) :: idx pbase32 (Z.land (Z.shiftr enc 1) 31)
              :: encode32 l F2 (Z.shiftl (Z.land enc 1) 4)
      | F2 => idx pbase32 (Z.lor left (Z.shiftr enc 4)) :: encode32 l F3 (Z.shiftl (Z.land enc 15) 1)
      | F3 => idx pbase32 (Z.lor left (Z.shiftr enc 7)) :: idx pbase32 (Z.land (Z.shiftr enc 2) 31)
              :: encode32 l F4 (Z.shiftl (Z.land enc 3) 3)
      | F4 => idx pbase32 (Z.lor left (Z.shiftr enc 5)) :: idx pbase32 (Z.land enc 31)
              :: encode32 l F0 left
      end
  end.

Definition EncodeBase32 (l : bytes) : bytes := encode32 l F0 0.

(** [decode32_table], by its non-negative runs. *)
Definition decode32_table : list Z :=
  replicate 50 (-1) ++ seqZ 26 6 ++ replicate 9 (-1) ++ seqZ 0 26 ++ replicate 6 (-1) ++
  seqZ 0 26 ++ replicate 133 (-1).

Inductive dmode32 := G0 | G1 | G2 | G3 | G4 | G5 | G6 | G7.

Fixpoint decode32 (p : bytes) (mode : dmode32) (left : Z) : bytes * (dmode32 * Z * bytes) :=
  match p with
  | [] => ([], (mode, left, []))
  | c :: p' =>
      let dec := idx decode32_table c in
      let push b m l := let (o, st) := decode32 p' m l in (u8 b :: o, st) in
      if dec =? -1 then ([], (mode, left, p))
      else match mode with
           | G0 => decode32 p' G1 dec
           | G1 => push (Z.lor (Z.shiftl left 3) (Z.shiftr dec 2)) G2 (Z.land dec 3)
           | G2 => decode32 p' G3 (Z.lor (Z.shiftl left 5) dec)
           | G3 => push (Z.lor (Z.shiftl left 1) (Z.shiftr dec 4)) G4 (Z.land dec 15)
           | G4 => push (Z.lor (Z.shiftl left 4) (Z.shiftr dec 1)) G5 (Z.land dec 1)
           | G5 => decode32 p' G6 (Z.lor (Z.shiftl left 5) dec)
           | G6 => push (Z.lor (Z.shiftl left 2) (Z.shiftr dec 3)) G7 (Z.land dec 7)
           | G7 => push (Z.lor (Z.shiftl left 5) dec) G0 left
           end
  end.

(** [n] padding characters and then nothing the table decodes. *)
Definition padded32 (p : bytes) (n : nat) : bool :=
  forallb (fun i => at_c p i =? 61) (seq 0 n) && (idx decode32_table (at_c p n) =? -1).

Definition invalid32 (st : dmode32 * Z * bytes) : bool :=
  let '(mode, rem_bits, p) := st in
  match mode with
  | G0 => false
  | G1 | G3 | G6 => true
  | G2 => negb (rem_bits =? 0) || negb (padded32 p 6)
  | G4 => negb (rem_bits =? 0) || negb (padded32 p 4)
  | G5 => negb (rem_bits =? 0) || negb (padded32 p 3)
  | G7 => negb (rem_bits =? 0) || negb (padded32 p 1)
  end.

Definition DecodeBase32 (s : bytes) : bytes * bool :=
  let (o, st) := decode32 (c_str s) G0 0 in (o, invalid32 st).

(** ** Strict integer parsing *)

Definition ParsePrechecks (s : bytes) : bool :=
  match s with
  | [] => false
  | c :: _ =>
      if isspace c || isspace (idx s (zlen s - 1)) then false
      else zlen s =? zlen (c_str s)
  end.

(** [ParseInt32(str, out)]: the return value and what was written to [*out]. *)
Definition ParseInt32 (s : bytes) : bool * option Z :=
  if negb (ParsePrechecks s) then (false, None)
  else let r := strtoll (c_str s) in
    (bool_decide (sto_end r = []) && negb (sto_erange r) && (- 2 ^ 31 <=? sto_val r) &&
       (sto_val r <=? 2 ^ 31 - 1),
     Some (s32 (sto_val r))).

Definition ParseInt64 (s : bytes) : bool * option Z :=
  if negb (ParsePrechecks s) then (false, None)
  else let r := strtoll (c_str s) in
    (bool_decide (sto_end r = []) && negb (sto_erange r), Some (sto_val r)).

Definition itostr (n : Z) : bytes := to_string n.

(** ** [TimingResistantEqual] *)

Fixpoint tre_loop (a b : bytes) (i : nat) (acc : Z) : Z :=
  match a with
  | [] => acc
  | x :: a => tre_loop a b (S i) (Z.lor acc (Z.lxor x (nth (i mod length b) b 0)))
  end.

Definition TimingResistantEqual (a b : bytes) : bool :=
  if zlen b =? 0 then zlen a =? 0
  else tre_loop a b 0 (Z.lxor (zlen a) (zlen b)) =? 0.

(** ** Base 64 and base 32 decode what they encode *)

Definition not_nul (c : Z) : Prop := c <> 0.

Definition code_ok (tab code : list Z) (v : Z) : bool :=
  (idx tab (idx code v) =? v) && negb (idx code v =? 0).

Lemma code64_ok v : 0 <= v < 64 -> idx decode64_table (idx pbase64 v) = v /\ not_nul (idx pbase64 v).
Proof.
  intros. pose proof (all_below_spec (code_ok decode64_table pbase64) 64 0 eq_refl v ltac:(lia)) as H'.
  unfold code_ok in H'. by bprop.
Qed.

Lemma code32_ok v : 0 <= v < 32 -> idx decode32_table (idx pbase32 v) = v /\ not_nul (idx pbase32 v).
Proof.
  intros. pose proof (all_below_spec (code_ok decode32_table pbase32) 32 0 eq_refl v ltac:(lia)) as H'.
  unfold code_ok in H'. by bprop.
Qed.

(** Bit operations on bytes as arithmetic. *)
Ltac bits_arith :=
  rewrite ?(land_ones_mod _ 1 1), ?(land_ones_mod _ 2 3), ?(land_ones_mod _ 3 7),
    ?(land_ones_mod _ 4 15), ?(land_ones_mod _ 5 31), ?(land_ones_mod _ 6 63) by done;
  rewrite ?Z.shiftr_div_pow2 by lia.
Ltac divlia := unfold is_byte in *; Z.div_mod_to_equations; lia.
(** Merge two bit fields whose ranges are disjoint. *)
Ltac merge :=
  repeat match goal with
  | |- context [Z.lor (Z.shiftl ?a ?k) ?b] =>
      rewrite (lor_shiftl_add a b k ltac:(lia)) by (rewrite ?Z.shiftl_mul_pow2 by lia; divlia)
  end.

Lemma decode64_char v p mode left :
  0 <= v < 64 ->
  decode64 (idx pbase64 v :: p) mode left =
    match mode with
    | D0 => decode64 p D1 v
    | D1 => let (o, st) := decode64 p D2 (Z.land v 15) in
            (u8 (Z.lor (Z.shiftl left 2) (Z.shiftr v 4)) :: o, st)
    | D2 => let (o, st) := decode64 p D3 (Z.land v 3) in
            (u8 (Z.lor (Z.shiftl left 4) (Z.shiftr v 2)) :: o, st)
    | D3 => let (o, st) := decode64 p D0 left in
            (u8 (Z.lor (Z.shiftl left 6) v) :: o, st)
    end.
Proof.
  intros Hv. cbn [decode64]. rewrite (proj1 (code64_ok v Hv)).
  destruct (v =? -1) eqn:E; bprop; [lia | done].
Qed.

Definition reads64 (s : bytes) (mode : dmode64) (left : Z) (l : bytes) : Prop :=
  Forall not_nul s /\ exists st, decode64 s mode left = (l, st) /\ invalid64 st = false.

Ltac enc_arith := bits_arith; merge; rewrite ?Z.shiftl_mul_pow2 by lia; divlia.

Lemma reads64_push v s mode mode' left left' b l :
  0 <= v < 64 ->
  (forall o st, decode64 s mode' left' = (o, st) ->
     decode64 (idx pbase64 v :: s) mode left = (b :: o, st)) ->
  reads64 s mode' left' l -> reads64 (idx pbase64 v :: s) mode left (b :: l).
Proof.
  intros Hv Hstep [Hn (st & E & Hi)]. split.
  - constructor; [by apply code64_ok | done].
  - exists st. split; [by apply Hstep | done].
Qed.

Lemma reads64_skip v s left l :
  0 <= v < 64 -> reads64 s D1 v l -> reads64 (idx pbase64 v :: s) D0 left l.
Proof.
  intros Hv [Hn (st & E & Hi)]. split.
  - constructor; [by apply code64_ok | done].
  - exists st. by rewrite decode64_char.
Qed.

(** One character that completes a byte: decoder mode before and after, and
    the bits pending after it. *)
Ltac push64 m m' l' :=
  eapply (reads64_push _ _ m m' _ l');
  [ enc_arith
  | let E := fresh in intros ? ? E; rewrite decode64_char by enc_arith;
    (match goal with |- context [decode64 _ m' ?x] => replace x with l' by enc_arith end);
    rewrite E; f_equal; f_equal; rewrite u8_id; enc_arith
  | ].

Lemma encode64_reads l : is_bytes l ->
  (forall x y, reads64 (encode64 l E0 x) D0 y l) /\
  (forall e, is_byte e -> reads64 (encode64 l E1 (Z.shiftl (Z.land e 3) 4)) D1 (Z.shiftr e 2) (e :: l)) /\
  (forall e, is_byte e -> reads64 (encode64 l E2 (Z.shiftl (Z.land e 15) 2)) D2 (Z.shiftr e 4) (e :: l)).
Proof.
  induction 1 as [| c l Hc Hl (IH0 & IH1 & IH2)];
    (split; [intros x y | split; intros e He]); cbn [encode64].
  - split; [constructor |]. by exists (D0, y, []).
  - push64 D1 D2 0. split; [by repeat constructor |]. by exists (D2, 0, str "==").
  - push64 D2 D3 0. split; [by repeat constructor |]. by exists (D3, 0, str "=").
  - apply reads64_skip; [enc_arith | by apply IH1].
  - push64 D1 D2 (Z.shiftr c 4). by apply IH2.
  - push64 D2 D3 (Z.shiftr c 6). push64 D3 D0 (Z.shiftr c 6). apply IH0.
Qed.

(** base 64 decoding of an encoding gives back the bytes and reports the
    text valid. *)
Theorem DecodeBase64_EncodeBase64 (l : bytes) :
  is_bytes l -> DecodeBase64 (EncodeBase64 l) = (l, false).
Proof.
  intros Hl. destruct (proj1 (encode64_reads l Hl) 0 0) as [Hn (st & E & Hi)].
  unfold DecodeBase64, EncodeBase64. rewrite c_str_no_nul by exact Hn. rewrite E. by rewrite Hi.
Qed.

Lemma DecodeBase64_EncodeBase64_witness :
  is_bytes [80; 87; 82; 66] /\ DecodeBase64 (EncodeBase64 [80; 87; 82; 66]) = ([80; 87; 82; 66], false).
Proof.
  assert (H : is_bytes [80; 87; 82; 66]) by (repeat constructor; lia).
  split; [exact H |]. exact (DecodeBase64_EncodeBase64 _ H).
Defined.

Lemma decode32_char v p mode left :
  0 <= v < 32 ->
  let push b m l := let (o, st) := decode32 p m l in (u8 b :: o, st) in
  decode32 (idx pbase32 v :: p) mode left =
    match mode with
    | G0 => decode32 p G1 v
    | G1 => push (Z.lor (Z.shiftl left 3) (Z.shiftr v 2)) G2 (Z.land v 3)
    | G2 => decode32 p G3 (Z.lor (Z.shiftl left 5) v)
    | G3 => push (Z.lor (Z.shiftl left 1) (Z.shiftr v 4)) G4 (Z.land v 15)
    | G4 => push (Z.lor (Z.shiftl left 4) (Z.shiftr v 1)) G5 (Z.land v 1)
    | G5 => decode32 p G6 (Z.lor (Z.shiftl left 5) v)
    | G6 => push (Z.lor (Z.shiftl left 2) (Z.shiftr v 3)) G7 (Z.land v 7)
    | G7 => push (Z.lor (Z.shiftl left 5) v) G0 left
    end.
Proof.
  intros Hv. cbn [decode32]. rewrite (proj1 (code32_ok v Hv)).
  destruct (v =? -1) eqn:E; bprop; [lia | done].
Qed.

Definition reads32 (s : bytes) (mode : dmode32) (left : Z) (l : bytes) : Prop :=
  Forall not_nul s /\ exists st, decode32 s mode left = (l, st) /\ invalid32 st = false.

Lemma reads32_push v s mode mode' left left' b l :
  0 <= v < 32 ->
  (forall o st, decode32 s mode' left' = (o, st) ->
     decode32 (idx pbase32 v :: s) mode left = (b :: o, st)) ->
  reads32 s mode' left' l -> reads32 (idx pbase32 v :: s) mode left (b :: l).
Proof.
  intros Hv Hstep [Hn (st & E & Hi)]. split.
  - constructor; [by apply code32_ok | done].
  - exists st. split; [by apply Hstep | done].
Qed.

Lemma reads32_skip v s mode mode' left left' l :
  0 <= v < 32 -> decode32 (idx pbase32 v :: s) mode left = decode32 s mode' left' ->
  reads32 s mode' left' l -> reads32 (idx pbase32 v :: s) mode left l.
Proof.
  intros Hv Hstep [Hn (st & E & Hi)]. split.
  - constructor; [by apply code32_ok | done].
  - exists st. by rewrite Hstep.
Qed.

Ltac push32 m m' l' :=
  eapply (reads32_push _ _ m m' _ l');
  [ enc_arith
  | let E := fresh in intros ? ? E; rewrite decode32_char by enc_arith; cbv beta zeta;
    (match goal with |- context [decode32 _ m' ?x] => replace x with l' by enc_arith end);
    rewrite E; f_equal; f_equal; rewrite u8_id; enc_arith
  | ].
Ltac skip32 m m' l' :=
  eapply (reads32_skip _ _ m m' _ l');
  [ enc_arith
  | rewrite decode32_char by enc_arith; cbv beta zeta iota; f_equal; enc_arith
  | ].

Lemma encode32_reads l : is_bytes l ->
  (forall x y, reads32 (encode32 l F0 x) G0 y l) /\
  (forall e, is_byte e -> reads32 (encode32 l F1 (Z.shiftl (Z.land e 7) 2)) G1 (Z.shiftr e 3) (e :: l)) /\
  (forall e, is_byte e -> reads32 (encode32 l F2 (Z.shiftl (Z.land e 1) 4)) G3 (Z.shiftr e 1) (e :: l)) /\
  (forall e, is_byte e -> reads32 (encode32 l F3 (Z.shiftl (Z.land e 15) 1)) G4 (Z.shiftr e 4) (e :: l)) /\
  (forall e, is_byte e -> reads32 (encode32 l F4 (Z.shiftl (Z.land e 3) 3)) G6 (Z.shiftr e 2) (e :: l)).
Proof.
  induction 1 as [| c l Hc Hl (IH0 & IH1 & IH2 & IH3 & IH4)];
    (split; [intros x y | split; [intros e He | split; [intros e He | split; intros e He]]]);
    cbn [encode32].
  - split; [constructor |]. by exists (G0, y, []).
  - push32 G1 G2 0. split; [by repeat constructor |]. by exists (G2, 0, replicate 6 61).
  - push32 G3 G4 0. split; [by repeat constructor |]. by exists (G4, 0, replicate 4 61).
  - push32 G4 G5 0. split; [by repeat constructor |]. by exists (G5, 0, replicate 3 61).
  - push32 G6 G7 0. split; [by repeat constructor |]. by exists (G7, 0, replicate 1 61).
  - skip32 G0 G1 (Z.shiftr c 3). by apply IH1.
  - push32 G1 G2 (Z.shiftr c 6). skip32 G2 G3 (Z.shiftr c 1). by apply IH2.
  - push32 G3 G4 (Z.shiftr c 4). by apply IH3.
  - push32 G4 G5 (Z.shiftr c 7). skip32 G5 G6 (Z.shiftr c 2). by apply IH4.
  - push32 G6 G7 (Z.shiftr c 5). push32 G7 G0 (Z.shiftr c 5). apply IH0.
Qed.

(** the same for base 32, all five padding lengths included. *)
Theorem DecodeBase32_EncodeBase32 (l : bytes) :
  is_bytes l -> DecodeBase32 (EncodeBase32 l) = (l, false).
Proof.
  intros Hl. destruct (proj1 (encode32_reads l Hl) 0 0) as [Hn (st & E & Hi)].
  unfold DecodeBase32, EncodeBase32. rewrite c_str_no_nul by exact Hn. rewrite E. by rewrite Hi.
Qed.

Lemma DecodeBase32_EncodeBase32_witness :
  is_bytes [80; 87; 82] /\ DecodeBase32 (EncodeBase32 [80; 87; 82]) = ([80; 87; 82], false).
Proof.
  assert (H : is_bytes [80; 87; 82]) by (repeat constructor; lia).
  split; [exact H |]. exact (DecodeBase32_EncodeBase32 _ H).
Defined.

(** ** Hexadecimal *)

Definition nibble_ok (v : Z) : bool :=
  (HexDigit (idx hexmap v) =? v) && negb (isspace (idx hexmap v)) && negb (idx hexmap v =? 0).

Lemma hexmap_ok v : 0 <= v < 16 ->
  HexDigit (idx hexmap v) = v /\ isspace (idx hexmap v) = false /\ not_nul (idx hexmap v).
Proof.
  intros. pose proof (all_below_spec nibble_ok 16 0 eq_refl v ltac:(lia)) as H'.
  unfold nibble_ok in H'. by bprop.
Qed.

Lemma nibbles c : is_byte c -> 0 <= Z.shiftr c 4 < 16 /\ 0 <= Z.land c 15 < 16
  /\ Z.lor (u8 (Z.shiftl (Z.shiftr c 4) 4)) (Z.land c 15) = c.
Proof.
  intros. rewrite u8_id by (rewrite Z.shiftl_mul_pow2 by lia; enc_arith).
  split; [| split]; enc_arith.
Qed.

Lemma HexStr_no_nul l : is_bytes l -> Forall not_nul (HexStr l).
Proof.
  induction 1 as [| c l Hc _ IH]; [constructor |].
  destruct (nibbles c Hc) as (? & ? & _).
  repeat constructor; [by apply hexmap_ok | by apply hexmap_ok | done].
Qed.

Lemma ParseHex_of_HexStr (l : bytes) : is_bytes l -> ParseHex (HexStr l) = l.
Proof.
  intros Hl. unfold ParseHex. rewrite c_str_no_nul by by apply HexStr_no_nul.
  induction Hl as [| c l Hc _ IH]; [done |].
  destruct (nibbles c Hc) as (Hh & Hlo & Hc'). cbn [HexStr ParseHex_loop].
  destruct (hexmap_ok _ Hh) as (-> & -> & _), (hexmap_ok _ Hlo) as (-> & _).
  destruct (_ =? -1) eqn:E; bprop; [lia |].
  destruct (Z.land c 15 =? -1) eqn:E'; bprop; [lia |]. by rewrite Hc', IH.
Qed.

(** reading back printed bytes gives the bytes. *)
Theorem ParseHex_HexStr (l : bytes) : is_bytes l -> ParseHex (HexStr l) = l.
Proof. apply ParseHex_of_HexStr. Qed.

Lemma ParseHex_HexStr_witness :
  is_bytes [222; 173; 190; 239] /\ ParseHex (HexStr [222; 173; 190; 239]) = [222; 173; 190; 239].
Proof.
  assert (H : is_bytes [222; 173; 190; 239]) by (repeat constructor; lia).
  split; [exact H |]. exact (ParseHex_HexStr _ H).
Defined.

(** ** Strict parsing accepts exactly what is printed *)

Lemma strtoll_to_string n : in_s 64 n ->
  strtoll (to_string n)
  = {| sto_val := n; sto_end := []; sto_conv := true; sto_erange := false |}.
Proof.
  intros Hn. unfold in_s in Hn. unfold to_string. destruct (n <? 0) eqn:E; bprop.
  - assert (Hv : digits_val (dec_nonneg (- n)) = - n) by (apply dec_nonneg_val; lia).
    assert (Hd : all_digits (dec_nonneg (- n))) by (apply dec_nonneg_digits; lia).
    pose proof (span_all isdigit (dec_nonneg (- n)) [] Hd I) as Hs. rewrite app_nil_r in Hs.
    unfold strtoll. cbn [span isspace snd]. cbn -[span dec_nonneg Z.pow].
    rewrite Hs. pose proof (dec_nonneg_nonnil (- n)).
    destruct (dec_nonneg (- n)) as [| d ds] eqn:Ed; [done |]. rewrite Hv.
    destruct (_ <? _) eqn:E1; bprop; [lia |]. destruct (_ <=? _) eqn:E2; bprop; [lia |]. f_equal; lia.
  - assert (Hv : digits_val (dec_nonneg n) = n) by (apply dec_nonneg_val; lia).
    rewrite <- (app_nil_r (dec_nonneg n)).
    rewrite strtoll_digits; rewrite ?Hv; auto using dec_nonneg_nonnil; [| lia].
    apply dec_nonneg_digits; lia.
Qed.

Lemma to_string_chars n c : c ∈ to_string n -> c = 45 \/ isdigit c = true.
Proof.
  assert (Hd : forall m, 0 <= m -> c ∈ dec_nonneg m -> isdigit c = true).
  { intros m Hm. pose proof (dec_nonneg_digits m Hm) as H. unfold all_digits in H.
    rewrite Forall_forall in H. apply H. }
  unfold to_string. destruct (n <? 0) eqn:E; bprop.
  - rewrite elem_of_cons. intros [-> | H]; [by left | right; eapply Hd; eauto; lia].
  - intros H. right. eapply Hd; eauto; lia.
Qed.

Lemma to_string_not_space n c : c ∈ to_string n -> isspace c = false /\ not_nul c.
Proof.
  intros [-> | Hd]%to_string_chars; [done |].
  split; [| unfold isdigit in Hd; bprop; unfold not_nul; lia].
  apply (all_digits_not_space []). by constructor.
Qed.

Lemma idx_elem (l : bytes) i : 0 <= i < zlen l -> idx l i ∈ l.
Proof.
  intros. apply list_elem_of_In. unfold idx. apply nth_In. unfold zlen in *. lia.
Qed.

Lemma to_string_precheck n : c_str (to_string n) = to_string n /\ ParsePrechecks (to_string n) = true.
Proof.
  assert (Hc : c_str (to_string n) = to_string n).
  { apply c_str_no_nul, Forall_forall. intros c Hc. by apply (to_string_not_space n). }
  split; [done |]. unfold ParsePrechecks. rewrite Hc, Z.eqb_refl.
  assert (Hne : to_string n <> []).
  { unfold to_string. destruct (n <? 0); [done | apply dec_nonneg_nonnil]. }
  pose proof (fun c => to_string_not_space n c) as Hs.
  destruct (to_string n) as [| c l] eqn:E; [done |].
  destruct (Hs c) as [-> _]; [left |].
  destruct (Hs (idx (c :: l) (zlen (c :: l) - 1))) as [-> _]; [| done].
  apply idx_elem. pose proof (zlen_nonneg l). zl. lia.
Qed.

(** the strict parser accepts the printed form of a 64-bit integer
    exactly when it fits 32 bits, and then stores that integer. *)
Theorem ParseInt32_itostr (n : Z) : in_s 64 n ->
  ParseInt64 (itostr n) = (true, Some n)
  /\ ParseInt32 (itostr n) = (bool_decide (in_s 32 n), Some (s32 n)).
Proof.
  intros Hn. destruct (to_string_precheck n) as [Hc Hp].
  unfold ParseInt64, ParseInt32, itostr. rewrite Hp, Hc, strtoll_to_string by done.
  cbn -[Z.pow s32 in_s]. split; [done |]. f_equal.
  rewrite bool_decide_decide. unfold in_s. destruct (decide _) as [H | H].
  - apply andb_true_iff. split; apply Z.leb_le; lia.
  - apply andb_false_iff. destruct (Z.leb_spec (- 2 ^ 31) n); [right | by left].
    apply Z.leb_gt. lia.
Qed.

Lemma ParseInt32_itostr_witness :
  in_s 64 (-2147483649) /\ ParseInt32 (itostr (-2147483649)) = (false, Some 2147483647).
Proof.
  assert (H : in_s 64 (-2147483649)) by (unfold in_s; lia).
  split; [exact H |]. exact (proj2 (ParseInt32_itostr _ H)).
Defined.

(** ** [TimingResistantEqual] *)

Lemma lor_eq_0 a b : Z.lor a b = 0 <-> a = 0 /\ b = 0.
Proof. apply Z.lor_eq_0_iff. Qed.

Lemma tre_loop_zero a b i acc :
  tre_loop a b i acc = 0 <->
  acc = 0 /\ forall k, (k < length a)%nat -> nth k a 0 = nth ((i + k) mod length b) b 0.
Proof.
  revert i acc. induction a as [| x a IH]; intros i acc; cbn [tre_loop length].
  - split; [intros ->; split; [done | lia] | tauto].
  - rewrite IH, lor_eq_0, Z.lxor_eq_0_iff. split.
    + intros [[-> Hx] Hk]. split; [done |]. intros [| k] Hlt.
      * by rewrite Nat.add_0_r.
      * cbn [nth]. rewrite Hk by lia. do 2 f_equal. lia.
    + intros [-> Hk]. split; [split; [done |] |].
      * specialize (Hk 0%nat ltac:(lia)). by rewrite Nat.add_0_r in Hk.
      * intros k Hlt. specialize (Hk (S k) ltac:(lia)). cbn [nth] in Hk. rewrite Hk.
        do 2 f_equal. lia.
Qed.

(** the comparison that always reads the whole first string decides
    equality of the two strings. *)
Theorem TimingResistantEqual_iff (a b : bytes) : TimingResistantEqual a b = true <-> a = b.
Proof.
  unfold TimingResistantEqual. destruct (zlen b =? 0) eqn:E; bprop.
  - destruct b; [| rewrite zlen_cons in E; pose proof (zlen_nonneg b); lia].
    destruct a; [done |]. rewrite zlen_cons. pose proof (zlen_nonneg a).
    split; [intros ?; bprop; lia | done].
  - rewrite Z.eqb_eq, tre_loop_zero, Z.lxor_eq_0_iff. unfold zlen in *. split.
    + intros [Hl Hk]. apply (nth_ext _ _ 0 0); [lia |]. intros n Hn.
      rewrite Hk by done. rewrite Nat.add_0_l, Nat.mod_small by lia. done.
    + intros ->. split; [done |]. intros k Hk. by rewrite Nat.add_0_l, Nat.mod_small by lia.
Qed.
