(* ===== verification/ArithUint256.v ===== *)
(** [arith_uint256.h], [arith_uint256.cpp]: unsigned integers of 160, 256 and 512 bits
    as arrays of 32-bit words, with the loops of the class, and their meaning: each
    operation computes the operation on numbers modulo [2^BITS]. *)

From Stdlib Require Import ZArith Lia.
From stdpp Require Import base tactics list numbers strings.
From S2P Require Import Prelude CString StrEncodings.

(** [pn], the least significant word first; [WIDTH] is its length. *)
Abbreviation base_uint := (list Z).

(** ** The operations *)

(** [base_uint(uint64_t)] of [WIDTH] words. *)
Definition uint_of (W : nat) (b : Z) : base_uint := u32 b :: u32 (Z.shiftr b 32) :: replicate (W - 2) 0.

Definition uint_not (a : base_uint) : base_uint := map (fun w => u32 (Z.lnot w)) a.

(** [while (++pn[i] == 0 && i < WIDTH-1) i++;] *)
Fixpoint uint_inc (a : base_uint) : base_uint :=
  match a with
  | [] => []
  | w :: a => let w := u32 (w + 1) in if w =? 0 then w :: uint_inc a else w :: a
  end.

(** [while (--pn[i] == (uint32_t)-1 && i < WIDTH-1) i++;] *)
Fixpoint uint_dec (a : base_uint) : base_uint :=
  match a with
  | [] => []
  | w :: a => let w := u32 (w - 1) in if w =? u32 (-1) then w :: uint_dec a else w :: a
  end.

Definition uint_neg (a : base_uint) : base_uint := uint_inc (uint_not a).

Fixpoint add_words (carry : Z) (a b : base_uint) : base_uint :=
  match a, b with
  | x :: a, y :: b => let n := u64 (carry + x + y) in Z.land n 0xffffffff :: add_words (Z.shiftr n 32) a b
  | _, _ => []
  end.
Definition uint_add (a b : base_uint) : base_uint := add_words 0 a b.
Definition uint_sub (a b : base_uint) : base_uint := uint_add a (uint_neg b).

(** [operator*=(uint32_t)] *)
Fixpoint mul32_words (carry b32 : Z) (a : base_uint) : base_uint :=
  match a with
  | [] => []
  | x :: a => let n := u64 (carry + b32 * x) in Z.land n 0xffffffff :: mul32_words (Z.shiftr n 32) b32 a
  end.
Definition uint_mul32 (a : base_uint) (b32 : Z) : base_uint := mul32_words 0 b32 a.

(** The inner loop of [operator*=]: [acc] is [pn] from word [j] on, [x] is [a.pn[j]]. *)
Fixpoint mul_row (carry x : Z) (acc b : base_uint) : base_uint :=
  match acc, b with
  | p :: acc, y :: b => let n := u64 (carry + p + x * y) in Z.land n 0xffffffff :: mul_row (Z.shiftr n 32) x acc b
  | acc, _ => acc
  end.
(** The outer loop: a row leaves its first word alone for the next ones. *)
Fixpoint mul_rows (a acc b : base_uint) : base_uint :=
  match a with
  | [] => acc
  | x :: a =>
      match mul_row 0 x acc b with
      | p :: acc => p :: mul_rows a acc b
      | [] => []
      end
  end.
Definition uint_mul (a b : base_uint) : base_uint := mul_rows a (replicate (length a) 0) b.

(** [operator<<=] and [operator>>=]: word [i] of the copy is or-ed into two words. *)
Definition or_word (pn : base_uint) (i : nat) (w : Z) : base_uint := alter (fun p => Z.lor p w) i pn.

Definition shl_step (W k : nat) (s : Z) (pn : base_uint) (iw : nat * Z) : base_uint :=
  let (i, w) := iw in
  let pn := if (i + k + 1 <? W)%nat && negb (s =? 0) then or_word pn (i + k + 1) (Z.shiftr w (32 - s)) else pn in
  if (i + k <? W)%nat then or_word pn (i + k) (u32 (Z.shiftl w s)) else pn.
Definition uint_shl (a : base_uint) (shift : Z) : base_uint :=
  foldl (shl_step (length a) (Z.to_nat (shift / 32)) (shift `mod` 32)) (replicate (length a) 0) (imap pair a).

Definition shr_step (k : nat) (s : Z) (pn : base_uint) (iw : nat * Z) : base_uint :=
  let (i, w) := iw in
  let pn := if (k + 1 <=? i)%nat && negb (s =? 0) then or_word pn (i - k - 1) (u32 (Z.shiftl w (32 - s))) else pn in
  if (k <=? i)%nat then or_word pn (i - k) (Z.shiftr w s) else pn.
Definition uint_shr (a : base_uint) (shift : Z) : base_uint :=
  foldl (shr_step (Z.to_nat (shift / 32)) (shift `mod` 32)) (replicate (length a) 0) (imap pair a).

(** [CompareTo]: from the most significant word. *)
Fixpoint compare_words (a b : base_uint) : Z :=
  match a, b with
  | x :: a, y :: b => if x <? y then -1 else if y <? x then 1 else compare_words a b
  | _, _ => 0
  end.
Definition CompareTo (a b : base_uint) : Z := compare_words (reverse a) (reverse b).

Definition EqualTo (a : base_uint) (b : Z) : bool :=
  match a with
  | w0 :: w1 :: a => forallb (Z.eqb 0) a && (w1 =? Z.shiftr b 32) && (w0 =? Z.land b 0xffffffff)
  | _ => false
  end.

Definition uint_IsNull (a : base_uint) : bool := forallb (Z.eqb 0) a.

(** [bits()]: from the most significant word; inside a word from bit 31 down. *)
Fixpoint word_bits (bits : nat) (w : Z) : Z :=
  match bits with
  | O => 1
  | S b => if negb (Z.land w (Z.shiftl 1 (Z.of_nat bits)) =? 0) then Z.of_nat bits + 1 else word_bits b w
  end.
Fixpoint bits_from (a : base_uint) : Z :=
  match a with
  | [] => 0
  | w :: a => if w =? 0 then bits_from a else 32 * zlen a + word_bits 31 w
  end.
Definition uint_bits (a : base_uint) : Z := bits_from (reverse a).

(** [while (shift >= 0)] of [operator/=]: [n] is [shift + 1]. *)
Fixpoint div_loop (n : nat) (num div pn : base_uint) : base_uint :=
  match n with
  | O => pn
  | S shift =>
      let '(num, pn) :=
        if 0 <=? CompareTo num div
        then (uint_sub num div, or_word pn (shift / 32) (u32 (Z.shiftl 1 (Z.land (Z.of_nat shift) 31))))
        else (num, pn) in
      div_loop shift num (uint_shr div 1) pn
  end.

(** [None]: [uint_error("Division by zero")]. *)
Definition uint_div (a b : base_uint) : option base_uint :=
  let num_bits := uint_bits a in
  let div_bits := uint_bits b in
  let zero := replicate (length a) 0 in
  if div_bits =? 0 then None
  else if num_bits <? div_bits then Some zero
  else
    let shift := num_bits - div_bits in
    Some (div_loop (Z.to_nat (shift + 1)) a (uint_shl b shift) zero).

Definition GetLow64 (a : base_uint) : Z := match a with w0 :: w1 :: _ => Z.lor w0 (Z.shiftl w1 32) | _ => 0 end.
Definition Get64 (a : base_uint) (n : nat) : Z := Z.lor (nth (2 * n) a 0) (Z.shiftl (nth (2 * n + 1) a 0) 32).
Definition Get32 (a : base_uint) (n : nat) : Z := nth (2 * n) a 0.

(** A constant of [W] words. *)
Definition uint_lit (W : nat) (v : Z) : base_uint := map (fun i => u32 (Z.shiftr v (32 * Z.of_nat i))) (seq 0 W).

(** ** Compact targets *)

Definition SetCompact (nCompact : Z) : base_uint * bool * bool :=
  let nSize := Z.shiftr nCompact 24 in
  let nWord := Z.land nCompact 0x007fffff in
  let '(n, nWord) :=
    if nSize <=? 3 then let nWord := Z.shiftr nWord (8 * (3 - nSize)) in (uint_of 8 nWord, nWord)
    else (uint_shl (uint_of 8 nWord) (8 * (nSize - 3)), nWord) in
  let pfNegative := negb (nWord =? 0) && negb (Z.land nCompact 0x00800000 =? 0) in
  let pfOverflow := negb (nWord =? 0) && ((34 <? nSize) || ((0xff <? nWord) && (33 <? nSize)) || ((0xffff <? nWord) && (32 <? nSize))) in
  (n, pfNegative, pfOverflow).

(** [None]: a failed [assert]. *)
Definition GetCompact (a : base_uint) (fNegative : bool) : option Z :=
  let nSize := (uint_bits a + 7) / 8 in
  let nCompact :=
    if nSize <=? 3 then u32 (Z.shiftl (GetLow64 a) (8 * (3 - nSize)))
    else u32 (GetLow64 (uint_shr a (8 * (nSize - 3)))) in
  let '(nCompact, nSize) :=
    if negb (Z.land nCompact 0x00800000 =? 0) then (Z.shiftr nCompact 8, nSize + 1) else (nCompact, nSize) in
  if negb (Z.ldiff nCompact 0x007fffff =? 0) then None
  else if 256 <=? nSize then None
  else
    let nCompact := Z.lor nCompact (Z.shiftl nSize 24) in
    Some (Z.lor nCompact (if fNegative && negb (Z.land nCompact 0x007fffff =? 0) then 0x00800000 else 0)).

(** ** The value of an array *)

Definition word (w : Z) : Prop := 0 <= w < 2 ^ 32.
Abbreviation words := (Forall word).

Fixpoint val (a : base_uint) : Z := match a with [] => 0 | w :: a => w + 2 ^ 32 * val a end.
Definition modulus (a : base_uint) : Z := 2 ^ (32 * zlen a).

Lemma modulus_cons w a : modulus (w :: a) = 2 ^ 32 * modulus a.
Proof. unfold modulus. rewrite zlen_cons, <- Z.pow_add_r by (pose proof (zlen_nonneg a); lia). f_equal. lia. Qed.
Lemma modulus_pos a : 0 < modulus a.
Proof. apply Z.pow_pos_nonneg; [lia |]. pose proof (zlen_nonneg a). lia. Qed.
Lemma modulus_len a b : length a = length b -> modulus a = modulus b.
Proof. unfold modulus, zlen. by intros ->. Qed.

Lemma val_bound a : words a -> 0 <= val a < modulus a.
Proof.
  induction 1 as [| w a Hw Ha IH]; [done |]. rewrite modulus_cons. cbn [val]. unfold word in Hw. pose proof (modulus_pos a). nia.
Qed.

Lemma val_inj a b : words a -> words b -> length a = length b -> val a = val b -> a = b.
Proof.
  intros Ha. revert b. induction Ha as [| x a Hx Ha IH]; intros [| y b] Hb Hl Hv; try done. apply Forall_cons in Hb as [Hy Hb].
  cbn [val] in Hv. unfold word in Hx, Hy. assert (x = y /\ val a = val b) as [-> Hv'] by lia. f_equal. apply IH; [done | by injection Hl | done].
Qed.

Lemma val_app a b : val (a ++ b) = val a + modulus a * val b.
Proof. induction a as [| w a IH]; cbn [app val]; [change (modulus []) with 1; lia |]. rewrite IH, modulus_cons. lia. Qed.

Lemma val_replicate n : val (replicate n 0) = 0.
Proof. induction n as [| n IH]; cbn [replicate val]; [done | lia]. Qed.
Lemma words_replicate n : words (replicate n 0).
Proof. apply Forall_replicate. by unfold word. Qed.

(** One step of a carry chain. *)
Lemma step_mod n m M : 0 < M -> (n + 2 ^ 32 * m) `mod` (2 ^ 32 * M) = n `mod` 2 ^ 32 + 2 ^ 32 * ((n / 2 ^ 32 + m) `mod` M).
Proof.
  intros HM. rewrite Z.rem_mul_r by lia. rewrite (Z.mul_comm (2 ^ 32) m), Z.mod_add, Z.div_add by lia. done.
Qed.

Lemma low_word n : Z.land n 0xffffffff = n `mod` 2 ^ 32.
Proof. by apply (land_ones_mod n 32). Qed.
Lemma high_part n : Z.shiftr n 32 = n / 2 ^ 32.
Proof. by apply Z.shiftr_div_pow2. Qed.
Lemma mod_word n : word (n `mod` 2 ^ 32).
Proof. apply Z.mod_pos_bound. lia. Qed.

(** ** Addition and subtraction *)

Lemma add_words_spec carry a b : words a -> words b -> length a = length b -> 0 <= carry <= 1 ->
  val (add_words carry a b) = (carry + val a + val b) `mod` modulus a /\ words (add_words carry a b) /\ length (add_words carry a b) = length a.
Proof.
  intros Ha. revert carry b. induction Ha as [| x a Hx Ha IH]; intros carry [| y b] Hb Hl Hc; try done; cbn [add_words].
  { split; [symmetry; apply Z.mod_1_r |]. by split. }
  apply Forall_cons in Hb as [Hy Hb]. unfold word in Hx, Hy. rewrite u64_id by lia. rewrite low_word, high_part.
  assert (0 <= (carry + x + y) / 2 ^ 32 <= 1) as Hc' by (split; [apply Z.div_pos; lia | enough ((carry + x + y) / 2 ^ 32 < 2) by lia; apply Z.div_lt_upper_bound; lia]).
  destruct (IH _ b Hb ltac:(by injection Hl) Hc') as (Hv & Hw & Hlen). split_and!.
  - cbn [val]. rewrite Hv, modulus_cons. pose proof (modulus_pos a).
    replace (carry + (x + 2 ^ 32 * val a) + (y + 2 ^ 32 * val b)) with ((carry + x + y) + 2 ^ 32 * (val a + val b)) by lia.
    rewrite step_mod by done. by rewrite Z.add_assoc.
  - constructor; [apply mod_word | done].
  - cbn. congruence.
Qed.

Lemma uint_add_spec a b : words a -> words b -> length a = length b ->
  val (uint_add a b) = (val a + val b) `mod` modulus a /\ words (uint_add a b) /\ length (uint_add a b) = length a.
Proof. intros Ha Hb Hl. apply (add_words_spec 0 a b); [done | done | done | lia]. Qed.

Lemma uint_not_spec a : words a ->
  val (uint_not a) = modulus a - 1 - val a /\ words (uint_not a) /\ length (uint_not a) = length a.
Proof.
  induction 1 as [| w a Hw Ha (IH & Hws & Hl)]; [done |]. cbn [uint_not map val].
  assert (E : u32 (Z.lnot w) = 2 ^ 32 - 1 - w).
  { unfold u32, Z.lnot, Z.pred. rewrite <- (Z.mod_add _ 1) by lia. unfold word in Hw. rewrite Z.mod_small; lia. }
  split_and!.
  - rewrite E, modulus_cons. unfold uint_not in IH. rewrite IH. lia.
  - constructor; [apply (mod_word (Z.lnot w)) | done].
  - cbn. unfold uint_not in Hl. congruence.
Qed.

Lemma uint_inc_spec a : words a -> val (uint_inc a) = (val a + 1) `mod` modulus a /\ words (uint_inc a) /\ length (uint_inc a) = length a.
Proof.
  induction 1 as [| w a Hw Ha (IH & Hws & Hl)]; [done |]. cbn [uint_inc]. pose proof (val_bound a Ha). pose proof (modulus_pos a).
  unfold word in Hw. assert (E : u32 (w + 1) = (w + 1) `mod` 2 ^ 32) by done.
  destruct (decide (w + 1 = 2 ^ 32)) as [E1 | Hne].
  - assert (Eu : u32 (w + 1) = 0) by (rewrite E, E1; done). rewrite Eu. cbn [Z.eqb val]. rewrite IH, modulus_cons. split_and!.
    + replace (w + 2 ^ 32 * val a + 1) with ((w + 1) + 2 ^ 32 * val a) by lia. rewrite step_mod, <- E, Eu, E1 by done.
      rewrite Z.div_same by lia. by rewrite (Z.add_comm 1).
    + constructor; [unfold word; lia | done].
    + cbn. congruence.
  - assert (Eu : u32 (w + 1) = w + 1) by (apply u32_id; lia). rewrite Eu. destruct (Z.eqb_spec (w + 1) 0); [lia |]. cbn [val]. split_and!.
    + rewrite modulus_cons, Z.mod_small by nia. lia.
    + constructor; [unfold word; lia | done].
    + done.
Qed.

Lemma uint_neg_spec a : words a -> val (uint_neg a) = (- val a) `mod` modulus a /\ words (uint_neg a) /\ length (uint_neg a) = length a.
Proof.
  intros Ha. destruct (uint_not_spec a Ha) as (Hv & Hw & Hl). destruct (uint_inc_spec _ Hw) as (Hv' & Hw' & Hl').
  unfold uint_neg. rewrite Hv', Hv, (modulus_len _ a Hl). split_and!; [| done | congruence].
  replace (modulus a - 1 - val a + 1) with (- val a + 1 * modulus a) by lia. pose proof (modulus_pos a). by rewrite Z.mod_add by lia.
Qed.

Lemma uint_sub_spec a b : words a -> words b -> length a = length b ->
  val (uint_sub a b) = (val a - val b) `mod` modulus a /\ words (uint_sub a b) /\ length (uint_sub a b) = length a.
Proof.
  intros Ha Hb Hl. destruct (uint_neg_spec b Hb) as (Hv & Hw & Hlen). destruct (uint_add_spec a (uint_neg b) Ha Hw ltac:(congruence)) as (H1 & H2 & H3).
  unfold uint_sub. split_and!; [| done | done]. rewrite H1, Hv, (modulus_len b a) by done. pose proof (modulus_pos a). by rewrite Zplus_mod_idemp_r.
Qed.

(** ** Multiplication *)

Lemma mul32_spec carry b32 a : words a -> word b32 -> word carry ->
  val (mul32_words carry b32 a) = (carry + b32 * val a) `mod` modulus a /\ words (mul32_words carry b32 a) /\ length (mul32_words carry b32 a) = length a.
Proof.
  intros Ha Hb. revert carry. induction Ha as [| x a Hx Ha IH]; intros carry Hc; cbn [mul32_words].
  { split; [symmetry; apply Z.mod_1_r |]. by split. }
  unfold word in Hx, Hb, Hc. rewrite u64_id by nia. rewrite low_word, high_part.
  assert (word ((carry + b32 * x) / 2 ^ 32)) as Hc' by (split; [apply Z.div_pos; nia | apply Z.div_lt_upper_bound; nia]).
  destruct (IH _ Hc') as (Hv & Hw & Hlen). split_and!; [| constructor; [apply mod_word | done] | cbn; congruence].
  cbn [val]. rewrite Hv, modulus_cons. pose proof (modulus_pos a).
  replace (carry + b32 * (x + 2 ^ 32 * val a)) with ((carry + b32 * x) + 2 ^ 32 * (b32 * val a)) by lia. by rewrite step_mod by done.
Qed.

Lemma mul_row_spec carry x acc b : words acc -> words b -> (length acc <= length b)%nat -> word x -> word carry ->
  val (mul_row carry x acc b) = (carry + val acc + x * val b) `mod` modulus acc /\ words (mul_row carry x acc b) /\
  length (mul_row carry x acc b) = length acc.
Proof.
  intros Ha. revert carry b. induction Ha as [| p acc Hp Ha IH]; intros carry b Hb Hl Hx Hc.
  { destruct b; (split; [symmetry; apply Z.mod_1_r | by split]). }
  destruct b as [| y b]; [cbn in Hl; lia |]. apply Forall_cons in Hb as [Hy Hb]. cbn [mul_row]. unfold word in Hp, Hy, Hx, Hc.
  rewrite u64_id by nia. rewrite low_word, high_part.
  assert (word ((carry + p + x * y) / 2 ^ 32)) as Hc' by (split; [apply Z.div_pos; nia | apply Z.div_lt_upper_bound; nia]).
  destruct (IH _ b Hb ltac:(cbn in Hl; lia) Hx Hc') as (Hv & Hw & Hlen). split_and!; [| constructor; [apply mod_word | done] | cbn; congruence].
  cbn [val]. rewrite Hv, modulus_cons. pose proof (modulus_pos acc).
  replace (carry + (p + 2 ^ 32 * val acc) + x * (y + 2 ^ 32 * val b)) with ((carry + p + x * y) + 2 ^ 32 * (val acc + x * val b)) by lia.
  rewrite step_mod by done. by rewrite Z.add_assoc.
Qed.

Lemma mul_rows_spec a acc b : words a -> words acc -> words b -> length a = length acc -> (length acc <= length b)%nat ->
  val (mul_rows a acc b) = (val acc + val a * val b) `mod` modulus acc /\ words (mul_rows a acc b) /\ length (mul_rows a acc b) = length acc.
Proof.
  intros Ha. revert acc. induction Ha as [| x a Hx Ha IH]; intros acc Hacc Hb Hl Hlb; cbn [mul_rows].
  { destruct acc; [| done]. split; [symmetry; apply Z.mod_1_r |]. by split. }
  destruct (mul_row_spec 0 x acc b Hacc Hb Hlb Hx ltac:(by unfold word)) as (Hv & Hw & Hlen).
  destruct (mul_row 0 x acc b) as [| p acc1] eqn:E; [cbn in Hlen; cbn in Hl; lia |]. apply Forall_cons in Hw as [Hp Hw].
  destruct acc as [| q acc]; [done |]. cbn in Hl, Hlen, Hlb.
  destruct (IH acc1 Hw Hb ltac:(lia) ltac:(lia)) as (Hv1 & Hw1 & Hl1). split_and!; [| by constructor | cbn; lia].
  assert (Hm : modulus acc1 = modulus acc) by (apply modulus_len; lia). rewrite modulus_cons in Hv |- *. pose proof (modulus_pos acc).
  cbn [val] in *. rewrite Hv1, Hm. set (A := val acc) in *. set (Bv := val b) in *. set (M := modulus acc) in *. unfold word in Hp.
  replace (q + 2 ^ 32 * A + (x + 2 ^ 32 * val a) * Bv) with ((q + 2 ^ 32 * A + x * Bv) + 2 ^ 32 * (val a * Bv)) by lia.
  rewrite step_mod by done. rewrite Z.add_0_l in Hv. rewrite Z.rem_mul_r in Hv by lia.
  pose proof (Z.mod_pos_bound (q + 2 ^ 32 * A + x * Bv) (2 ^ 32) ltac:(lia)).
  assert (p = (q + 2 ^ 32 * A + x * Bv) `mod` 2 ^ 32 /\ val acc1 = ((q + 2 ^ 32 * A + x * Bv) / 2 ^ 32) `mod` M) as [-> ->] by lia.
  by rewrite Zplus_mod_idemp_l.
Qed.

Lemma uint_mul_spec a b : words a -> words b -> length a = length b ->
  val (uint_mul a b) = (val a * val b) `mod` modulus a /\ words (uint_mul a b) /\ length (uint_mul a b) = length a.
Proof.
  intros Ha Hb Hl. destruct (mul_rows_spec a (replicate (length a) 0) b Ha (words_replicate _) Hb) as (Hv & Hw & Hlen);
    rewrite ?length_replicate; [done | lia |]. unfold uint_mul. rewrite length_replicate in Hlen.
  split_and!; [| done | done]. rewrite Hv, val_replicate. by rewrite (modulus_len (replicate (length a) 0) a) by apply length_replicate.
Qed.

(** ** Or-ing a word in *)

Lemma lor_disjoint_add a b : Z.land a b = 0 -> Z.lor a b = a + b.
Proof. intros E. by rewrite <- Z.lxor_lor, <- Z.add_nocarry_lxor. Qed.

(** A number below [2^s] and a multiple of [2^s] have no bit in common. *)
Lemma low_high_disjoint a b s : 0 <= s -> 0 <= a < 2 ^ s -> Z.land a (2 ^ s * b) = 0.
Proof.
  intros Hs Ha. apply Z.bits_inj'. intros n Hn. rewrite Z.land_spec, Z.bits_0. rewrite Z.mul_comm. destruct (Z.lt_ge_cases n s).
  - rewrite Z.mul_pow2_bits_low by lia. apply andb_false_r.
  - rewrite <- (Z.mod_small a (2 ^ s)) by done. by rewrite Z.mod_pow2_bits_high by lia.
Qed.

Lemma val_or_word pn i p w : pn !! i = Some p -> Z.land p w = 0 -> val (or_word pn i w) = val pn + 2 ^ (32 * Z.of_nat i) * w.
Proof.
  intros Hi Hd. revert i Hi. induction pn as [| q pn IH]; intros i Hi; [done |]. destruct i as [| i]; cbn in Hi.
  - injection Hi as ->. cbn [or_word alter list_alter val]. rewrite lor_disjoint_add by done. change (2 ^ (32 * Z.of_nat 0)) with 1. lia.
  - change (or_word (q :: pn) (S i) w) with (q :: or_word pn i w). cbn [val]. rewrite IH by done.
    replace (32 * Z.of_nat (S i)) with (32 + 32 * Z.of_nat i) by lia. rewrite (Z.pow_add_r 2 32) by lia. lia.
Qed.

Lemma or_word_length pn i w : length (or_word pn i w) = length pn.
Proof. apply length_alter. Qed.

Lemma or_word_lookup pn i w j : or_word pn i w !! j = if decide (i = j) then (fun p => Z.lor p w) <$> (pn !! j) else pn !! j.
Proof. unfold or_word. destruct (decide (i = j)) as [-> |]; [by rewrite list_lookup_alter_eq | by rewrite list_lookup_alter_ne]. Qed.

Lemma lor_word a b : word a -> word b -> word (Z.lor a b).
Proof.
  intros Ha Hb. unfold word in *. split; [apply Z.lor_nonneg; lia |]. destruct (decide (Z.lor a b = 0)) as [-> |]; [lia |].
  apply Z.log2_lt_pow2; [apply Z.le_neq; split; [apply Z.lor_nonneg; lia | done] |]. rewrite Z.log2_lor by lia.
  apply Z.max_lub_lt; [destruct (decide (a = 0)) as [-> |]; [done | apply Z.log2_lt_pow2; lia] |
                       destruct (decide (b = 0)) as [-> |]; [done | apply Z.log2_lt_pow2; lia]].
Qed.

Lemma or_word_words pn i w : words pn -> word w -> words (or_word pn i w).
Proof. intros Hp Hw. apply Forall_alter; [done |]. intros x _ Hx. by apply lor_word. Qed.

(** ** Shifts *)

Lemma val_take_S a i w : a !! i = Some w -> val (take (S i) a) = val (take i a) + 2 ^ (32 * Z.of_nat i) * w.
Proof.
  intros Hi. rewrite (take_S_r a i w Hi), val_app. unfold modulus, zlen. rewrite length_take_le by (apply lookup_lt_Some in Hi; lia). cbn [val]. lia.
Qed.

(** Shifting a word left by [s] splits it into what stays and what moves up. *)
Lemma split_shl w s : word w -> 0 <= s < 32 ->
  word (u32 (Z.shiftl w s)) /\ 0 <= Z.shiftr w (32 - s) < 2 ^ s /\
  u32 (Z.shiftl w s) + 2 ^ 32 * Z.shiftr w (32 - s) = w * 2 ^ s /\ exists b, u32 (Z.shiftl w s) = 2 ^ s * b.
Proof.
  intros Hw Hs. unfold word in Hw. rewrite Z.shiftl_mul_pow2, Z.shiftr_div_pow2 by lia.
  assert (Hp : 2 ^ 32 = 2 ^ s * 2 ^ (32 - s)) by (rewrite <- Z.pow_add_r by lia; f_equal; lia).
  assert (0 < 2 ^ s) by (apply Z.pow_pos_nonneg; lia). assert (0 < 2 ^ (32 - s)) by (apply Z.pow_pos_nonneg; lia).
  assert (Hm : u32 (w * 2 ^ s) = 2 ^ s * (w `mod` 2 ^ (32 - s))).
  { unfold u32. rewrite Hp, (Z.mul_comm w), Z.mul_mod_distr_l by lia. done. }
  pose proof (Z.div_mod w (2 ^ (32 - s)) ltac:(lia)) as Hd. split_and!.
  - apply mod_word.
  - apply Z.div_pos; lia.
  - apply Z.div_lt_upper_bound; [lia |]. rewrite Z.mul_comm, <- Hp. lia.
  - rewrite Hm, Hp. nia.
  - eauto.
Qed.

Section ShiftLeft.
Context (a : base_uint) (Ha : words a) (k : nat) (s : Z) (Hs : 0 <= s < 32).

(** After [i] words: the value so far, the partial word below [2^s], nothing above. *)
Definition shl_inv (i : nat) (pn : base_uint) : Prop :=
  words pn /\ length pn = length a /\
  val pn = (val (take i a) * 2 ^ (32 * Z.of_nat k + s)) `mod` modulus a /\
  (forall p, pn !! (i + k)%nat = Some p -> p < 2 ^ s) /\ (forall j p, (i + k < j)%nat -> pn !! j = Some p -> p = 0).

Lemma shl_step_inv i w pn : a !! i = Some w -> shl_inv i pn -> shl_inv (S i) (shl_step (length a) k s pn (i, w)).
Proof.
  intros Hi (Hw & Hl & Hv & Hlow & Hz). assert (Hww : word w) by (rewrite Forall_forall in Ha; apply Ha; by eapply list_elem_of_lookup_2).
  destruct (split_shl w s Hww Hs) as (Hlw & Hhw & Hsum & (lb & Hlb)). set (lo := u32 (Z.shiftl w s)) in *. set (hi := Z.shiftr w (32 - s)) in *.
  unfold shl_step. fold lo hi. set (W := length a) in *. assert (0 < 2 ^ s) by (apply Z.pow_pos_nonneg; lia).
  assert (Hhiw : word hi) by (unfold word; assert (2 ^ s < 2 ^ 32) by (apply Z.pow_lt_mono_r; lia); lia).
  set (pn1 := if (i + k + 1 <? W)%nat && negb (s =? 0) then or_word pn (i + k + 1) hi else pn).
  assert (H1 : words pn1 /\ length pn1 = W /\ (forall j, j <> (i + k + 1)%nat -> pn1 !! j = pn !! j) /\
    (forall p, pn1 !! (i + k + 1)%nat = Some p -> 0 <= p < 2 ^ s) /\
    val pn1 = val pn + (if (i + k + 1 <? W)%nat then 2 ^ (32 * Z.of_nat (i + k + 1)) * hi else 0)).
  { unfold pn1. destruct (Nat.ltb_spec (i + k + 1) W) as [Hlt | Hge]; cbn [andb].
    - destruct (lookup_lt_is_Some_2 pn (i + k + 1)%nat ltac:(lia)) as [q Hq]. assert (q = 0) as -> by (by apply (Hz (i + k + 1)%nat); [lia |]).
      destruct (Z.eqb_spec s 0) as [-> | Hs0]; cbn [negb].
      + split_and!; try done; [intros p Hp; rewrite Hq in Hp; injection Hp as <-; lia |]. assert (hi = 0) as -> by lia. lia.
      + split_and!; [by apply or_word_words | by rewrite or_word_length | intros j Hj; rewrite or_word_lookup, decide_False; done | |].
        * intros p. rewrite or_word_lookup, decide_True by done. rewrite Hq. cbn. rewrite Z.lor_0_l. intros [= <-]. lia.
        * by rewrite (val_or_word _ _ 0).
    - split_and!; try done; [| lia]. intros p Hp. apply lookup_lt_Some in Hp. lia. }
  destruct H1 as (Hw1 & Hl1 & Hsame & Hp1 & Hv1).
  assert (Htot : val (take (S i) a) * 2 ^ (32 * Z.of_nat k + s) = val (take i a) * 2 ^ (32 * Z.of_nat k + s) + 2 ^ (32 * Z.of_nat (i + k)) * (lo + 2 ^ 32 * hi)).
  { rewrite (val_take_S a i w Hi), Hsum, Z.mul_add_distr_r. f_equal. rewrite Z.pow_add_r by lia.
    replace (32 * Z.of_nat (i + k)) with (32 * Z.of_nat i + 32 * Z.of_nat k) by lia. rewrite (Z.pow_add_r 2 (32 * Z.of_nat i)) by lia. lia. }
  assert (Hbig : forall j, (W <= j)%nat -> exists c, 2 ^ (32 * Z.of_nat j) = c * modulus a).
  { intros j Hj. exists (2 ^ (32 * (Z.of_nat j - Z.of_nat W))). unfold modulus, zlen. fold W. rewrite <- Z.pow_add_r by lia. f_equal. lia. }
  assert (Hup : 2 ^ (32 * Z.of_nat (i + k + 1)) = 2 ^ (32 * Z.of_nat (i + k)) * 2 ^ 32) by (rewrite <- Z.pow_add_r by lia; f_equal; lia).
  pose proof (modulus_pos a). unfold shl_inv. rewrite Htot. replace (S i + k)%nat with (i + k + 1)%nat by lia.
  destruct (Nat.ltb_spec (i + k) W) as [Hlt | Hge].
  - destruct (lookup_lt_is_Some_2 pn (i + k)%nat ltac:(lia)) as [q Hq].
    assert (Hq0 : 0 <= q < 2 ^ s) by (split; [rewrite Forall_forall in Hw; apply Hw; by eapply list_elem_of_lookup_2 | by apply Hlow]).
    assert (Hww2 : words (or_word pn1 (i + k) lo)) by (by apply or_word_words).
    assert (Hv2 : val (or_word pn1 (i + k) lo) = val pn1 + 2 ^ (32 * Z.of_nat (i + k)) * lo).
    { apply (val_or_word _ _ q); [rewrite Hsame by lia; done |]. rewrite Hlb. by apply low_high_disjoint; [lia |]. }
    split_and!; [done | by rewrite or_word_length | | |].
    + pose proof (val_bound _ Hww2) as Hb. rewrite (modulus_len _ a) in Hb by (by rewrite or_word_length).
      rewrite <- (Z.mod_small (val (or_word pn1 (i + k) lo)) (modulus a)) by done. rewrite Hv2, Hv1, Hv.
      destruct (Nat.ltb_spec (i + k + 1) W).
      * rewrite <- Z.add_assoc, Zplus_mod_idemp_l. f_equal. rewrite Hup. lia.
      * rewrite Z.add_0_r, Zplus_mod_idemp_l. destruct (Hbig (i + k + 1)%nat ltac:(lia)) as [c Hc]. symmetry.
        rewrite Hup in Hc. replace (val (take i a) * 2 ^ (32 * Z.of_nat k + s) + 2 ^ (32 * Z.of_nat (i + k)) * (lo + 2 ^ 32 * hi))
          with (val (take i a) * 2 ^ (32 * Z.of_nat k + s) + 2 ^ (32 * Z.of_nat (i + k)) * lo + (c * hi) * modulus a) by nia.
        by rewrite Z.mod_add by lia.
    + intros p. rewrite or_word_lookup, decide_False by lia. intros Hp. by apply Hp1.
    + intros j p Hj. rewrite or_word_lookup, decide_False, Hsame by lia. apply Hz. lia.
  - split_and!; [done | done | | |].
    + rewrite Hv1. destruct (Nat.ltb_spec (i + k + 1) W); [lia |]. rewrite Z.add_0_r, Hv.
      destruct (Hbig (i + k)%nat ltac:(lia)) as [c Hc]. rewrite Hc.
      replace (c * modulus a * (lo + 2 ^ 32 * hi)) with ((c * (lo + 2 ^ 32 * hi)) * modulus a) by lia. by rewrite Z.mod_add by lia.
    + intros p Hp. by apply Hp1.
    + intros j p Hj. rewrite Hsame by lia. apply Hz. lia.
Qed.
End ShiftLeft.

(** A fold over the words with their places. *)
Lemma foldl_imap_inv (P : nat -> base_uint -> Prop) (f : base_uint -> nat * Z -> base_uint) a pn :
  P 0%nat pn -> (forall i w pn, a !! i = Some w -> P i pn -> P (S i) (f pn (i, w))) -> P (length a) (foldl f pn (imap pair a)).
Proof.
  intros H0 Hstep. enough (Hgen : forall l k g pn, (forall i w, g i w = ((k + i)%nat, w)) ->
    (forall i w pn, l !! i = Some w -> P (k + i)%nat pn -> P (S (k + i)) (f pn ((k + i)%nat, w))) ->
    P k pn -> P (k + length l)%nat (foldl f pn (imap g l))).
  { apply (Hgen a 0%nat pair pn); [done | intros i w q Hi HP; by apply Hstep | done]. }
  clear. induction l as [| w l IH]; intros k g pn Hg Hstep HP; cbn [length imap foldl].
  { by rewrite Nat.add_0_r. }
  rewrite Nat.add_succ_r, <- Nat.add_succ_l. apply IH.
  - intros i x. cbn. rewrite Hg. f_equal. lia.
  - intros i x q Hi HPi. specialize (Hstep (S i) x q Hi). rewrite Nat.add_succ_r in Hstep. auto.
  - rewrite Hg. specialize (Hstep 0%nat w pn eq_refl). rewrite Nat.add_0_r in *. auto.
Qed.

Lemma uint_shl_spec a shift : words a -> 0 <= shift ->
  val (uint_shl a shift) = (val a * 2 ^ shift) `mod` modulus a /\ words (uint_shl a shift) /\ length (uint_shl a shift) = length a.
Proof.
  intros Ha Hsh. set (k := Z.to_nat (shift / 32)). set (s := shift `mod` 32).
  assert (Hs : 0 <= s < 32) by (apply Z.mod_pos_bound; lia).
  assert (Hk : 0 <= shift / 32) by (apply Z.div_pos; lia).
  assert (Hks : shift = 32 * Z.of_nat k + s) by (unfold k, s; rewrite Z2Nat.id by done; apply Z.div_mod; lia).
  pose proof (foldl_imap_inv (shl_inv a k s) (shl_step (length a) k s) a (replicate (length a) 0)) as HP.
  destruct HP as (Hw & Hl & Hv & _).
  - split_and!; [apply words_replicate | apply length_replicate | cbn [take val]; rewrite val_replicate; symmetry; apply Z.mod_0_l; pose proof (modulus_pos a); lia | |].
    + intros p Hp. apply lookup_replicate in Hp as [-> _]. apply Z.pow_pos_nonneg; lia.
    + intros j p _ Hp. by apply lookup_replicate in Hp as [-> _].
  - intros i w pn Hi HP. by apply shl_step_inv.
  - split_and!; [| exact Hw | exact Hl]. unfold uint_shl. fold k s. rewrite Hv, take_ge by lia. by rewrite <- Hks.
Qed.

Section ShiftRight.
Context (a : base_uint) (Ha : words a) (k : nat) (s : Z) (Hs : 0 <= s < 32).

(** After [i] words: the value so far; the last word written has room above; nothing further up. *)
Definition shr_inv (i : nat) (pn : base_uint) : Prop :=
  words pn /\ length pn = length a /\ val pn = val (take i a) / 2 ^ (32 * Z.of_nat k + s) /\
  (forall p, (k < i)%nat -> pn !! (i - k - 1)%nat = Some p -> p < 2 ^ (32 - s)) /\
  (forall j p, (i <= j + k)%nat -> pn !! j = Some p -> p = 0).

Lemma val_take_bound i w : a !! i = Some w -> 0 <= val (take i a) < 2 ^ (32 * Z.of_nat i).
Proof.
  intros Hi. pose proof (val_bound (take i a) (Forall_take _ _ _ Ha)) as Hb. unfold modulus, zlen in Hb.
  rewrite length_take_le in Hb by (apply lookup_lt_Some in Hi; lia). done.
Qed.

(** The part of the shifted value that word [i] adds. *)
Lemma shr_gain i w : a !! i = Some w ->
  val (take (S i) a) / 2 ^ (32 * Z.of_nat k + s) = val (take i a) / 2 ^ (32 * Z.of_nat k + s) +
    (if (k <? i)%nat then 2 ^ (32 * Z.of_nat (i - k - 1)) * (2 ^ (32 - s) * w) else if (i =? k)%nat then Z.shiftr w s else 0).
Proof.
  intros Hi. pose proof (val_take_bound i w Hi) as Hb. rewrite (val_take_S a i w Hi). set (A := val (take i a)) in *.
  assert (Hw : word w) by (rewrite Forall_forall in Ha; apply Ha; by eapply list_elem_of_lookup_2). unfold word in Hw.
  assert (0 < 2 ^ (32 * Z.of_nat k + s)) by (apply Z.pow_pos_nonneg; lia).
  destruct (Nat.ltb_spec k i) as [Hlt | Hge].
  - replace (2 ^ (32 * Z.of_nat i)) with (2 ^ (32 * Z.of_nat (i - k - 1)) * 2 ^ (32 - s) * 2 ^ (32 * Z.of_nat k + s))
      by (rewrite <- !Z.pow_add_r by lia; f_equal; lia).
    set (X := 2 ^ (32 * Z.of_nat (i - k - 1))). set (Y := 2 ^ (32 - s)). set (D := 2 ^ (32 * Z.of_nat k + s)) in *.
    replace (A + X * Y * D * w) with (A + (X * (Y * w)) * D) by lia. apply Z.div_add. lia.
  - destruct (Nat.eqb_spec i k) as [-> | Hne].
    + assert (0 < 2 ^ s) by (apply Z.pow_pos_nonneg; lia). rewrite Z.pow_add_r, <- !Z.div_div by lia.
      rewrite (Z.mul_comm (2 ^ (32 * Z.of_nat k)) w), Z.div_add by lia. rewrite (Z.div_small A) by done. rewrite Z.div_0_l by lia.
      rewrite Z.shiftr_div_pow2 by lia. f_equal.
    + assert (Hp : 2 ^ (32 * Z.of_nat k + s) = 2 ^ (32 * Z.of_nat i) * 2 ^ (32 * Z.of_nat (k - i) + s)) by (rewrite <- Z.pow_add_r by lia; f_equal; lia).
      assert (2 ^ 32 <= 2 ^ (32 * Z.of_nat (k - i) + s)) by (apply Z.pow_le_mono_r; lia).
      rewrite !Z.div_small by nia. done.
Qed.

Lemma shr_step_inv i w pn : a !! i = Some w -> shr_inv i pn -> shr_inv (S i) (shr_step k s pn (i, w)).
Proof.
  intros Hi (Hw & Hl & Hv & Hlow & Hz). assert (Hww : word w) by (rewrite Forall_forall in Ha; apply Ha; by eapply list_elem_of_lookup_2).
  pose proof (lookup_lt_Some _ _ _ Hi) as Hil.
  assert (Hhi : word (Z.shiftr w s) /\ Z.shiftr w s < 2 ^ (32 - s)).
  { unfold word in *. rewrite Z.shiftr_div_pow2 by lia. assert (0 < 2 ^ s) by (apply Z.pow_pos_nonneg; lia).
    assert (2 ^ 32 = 2 ^ s * 2 ^ (32 - s)) by (rewrite <- Z.pow_add_r by lia; f_equal; lia).
    split_and!; [apply Z.div_pos; lia | apply Z.div_lt_upper_bound; nia | apply Z.div_lt_upper_bound; nia]. }
  destruct Hhi as [Hhi Hhi2]. unfold shr_step. set (hi := Z.shiftr w s) in *.
  set (pn1 := if (k + 1 <=? i)%nat && negb (s =? 0) then or_word pn (i - k - 1) (u32 (Z.shiftl w (32 - s))) else pn).
  assert (H1 : words pn1 /\ length pn1 = length a /\ (forall j, (i <= j + k)%nat -> pn1 !! j = pn !! j) /\
    val pn1 + (if (k <=? i)%nat then 2 ^ (32 * Z.of_nat (i - k)) * hi else 0) = val (take (S i) a) / 2 ^ (32 * Z.of_nat k + s)).
  { rewrite (shr_gain i w Hi), <- Hv. unfold pn1. destruct (Nat.leb_spec (k + 1) i) as [Hlt | Hge]; cbn [andb].
    - assert (Hlt' : (k <? i)%nat = true) by (apply Nat.ltb_lt; lia). assert (Hle' : (k <=? i)%nat = true) by (apply Nat.leb_le; lia).
      rewrite Hlt', Hle'. replace (32 * Z.of_nat (i - k)) with (32 * Z.of_nat (i - k - 1) + 32) by lia. rewrite (Z.pow_add_r 2 _ 32) by lia.
      destruct (Z.eqb_spec s 0) as [Hs0 | Hs0]; cbn [negb].
      + split_and!; try done. unfold hi. rewrite Hs0, Z.shiftr_0_r. replace (32 - 0) with 32 by lia. lia.
      + destruct (split_shl w (32 - s) Hww ltac:(lia)) as (Hlw & _ & Hsum & (b & Hb)).
        replace (32 - (32 - s)) with s in Hsum by lia. fold hi in Hsum.
        destruct (lookup_lt_is_Some_2 pn (i - k - 1)%nat ltac:(lia)) as [q Hq]. split_and!.
        * by apply or_word_words.
        * by rewrite or_word_length.
        * intros j Hj. rewrite or_word_lookup, decide_False by lia. done.
        * rewrite (val_or_word pn _ q); [nia | done |]. rewrite Hb. apply low_high_disjoint; [lia |]. split; [| apply Hlow; [lia | done]].
          rewrite Forall_forall in Hw. apply Hw. by eapply list_elem_of_lookup_2.
    - assert (Hlt' : (k <? i)%nat = false) by (apply Nat.ltb_ge; lia). rewrite Hlt'. split_and!; try done.
      destruct (Nat.eqb_spec i k) as [-> | Hne].
      + rewrite Nat.leb_refl, Nat.sub_diag. fold hi. change (2 ^ (32 * Z.of_nat 0)) with 1. lia.
      + destruct (Nat.leb_spec k i); lia. }
  destruct H1 as (Hw1 & Hl1 & Hsame & Hv1). unfold shr_inv. destruct (Nat.leb_spec k i) as [Hki | Hki].
  - destruct (lookup_lt_is_Some_2 pn (i - k)%nat ltac:(lia)) as [q Hq]. assert (q = 0) as -> by (apply (Hz (i - k)%nat); [lia | done]).
    assert (Hq1 : pn1 !! (i - k)%nat = Some 0) by (rewrite Hsame by lia; done). split_and!.
    + by apply or_word_words.
    + by rewrite or_word_length.
    + by rewrite (val_or_word pn1 _ 0).
    + intros p _. replace (S i - k - 1)%nat with (i - k)%nat by lia. rewrite or_word_lookup, decide_True, Hq1 by done. cbn. rewrite Z.lor_0_l.
      intros [= <-]. done.
    + intros j p Hj. rewrite or_word_lookup, decide_False, Hsame by lia. apply Hz. lia.
  - split_and!; [done | done | by rewrite <- Hv1, Z.add_0_r | lia |]. intros j p Hj. rewrite Hsame by lia. apply Hz. lia.
Qed.
End ShiftRight.

Lemma uint_shr_spec a shift : words a -> 0 <= shift ->
  val (uint_shr a shift) = val a / 2 ^ shift /\ words (uint_shr a shift) /\ length (uint_shr a shift) = length a.
Proof.
  intros Ha Hsh. set (k := Z.to_nat (shift / 32)). set (s := shift `mod` 32).
  assert (Hs : 0 <= s < 32) by (apply Z.mod_pos_bound; lia).
  assert (Hk : 0 <= shift / 32) by (apply Z.div_pos; lia).
  assert (Hks : shift = 32 * Z.of_nat k + s) by (unfold k, s; rewrite Z2Nat.id by done; apply Z.div_mod; lia).
  pose proof (foldl_imap_inv (shr_inv a k s) (shr_step k s) a (replicate (length a) 0)) as HP.
  destruct HP as (Hw & Hl & Hv & _).
  - split_and!; [apply words_replicate | apply length_replicate | cbn [take val]; by rewrite val_replicate | lia |].
    intros j p _ Hp. by apply lookup_replicate in Hp as [-> _].
  - intros i w pn Hi HP. by apply shr_step_inv.
  - split_and!; [| exact Hw | exact Hl]. unfold uint_shr. fold k s. rewrite Hv, take_ge by lia. by rewrite <- Hks.
Qed.

(** ** Comparison *)

Definition sign_of (x y : Z) : Z := if x <? y then -1 else if y <? x then 1 else 0.

Lemma compare_words_snoc a b x y : length a = length b ->
  compare_words (a ++ [x]) (b ++ [y]) = if compare_words a b =? 0 then sign_of x y else compare_words a b.
Proof.
  revert b. induction a as [| p a IH]; intros [| q b] Hl; try done; cbn [app compare_words].
  destruct (p <? q); [done |]. destruct (q <? p); [done |]. apply IH. by injection Hl.
Qed.

Lemma CompareTo_sign a b : words a -> words b -> length a = length b -> CompareTo a b = sign_of (val a) (val b).
Proof.
  unfold CompareTo. intros Ha. revert b. induction Ha as [| x a Hx Ha IH]; intros [| y b] Hb Hl; try done.
  apply Forall_cons in Hb as [Hy Hb]. rewrite !reverse_cons, compare_words_snoc by (rewrite !length_reverse; by injection Hl).
  rewrite IH by (done || by injection Hl). cbn [val]. unfold word in Hx, Hy. unfold sign_of.
  destruct (Z.ltb_spec (val a) (val b)); cbn [Z.eqb]; [destruct (Z.ltb_spec (x + 2 ^ 32 * val a) (y + 2 ^ 32 * val b)); [done | nia] |].
  destruct (Z.ltb_spec (val b) (val a)); cbn [Z.eqb].
  - destruct (Z.ltb_spec (x + 2 ^ 32 * val a) (y + 2 ^ 32 * val b)); [nia |]. destruct (Z.ltb_spec (y + 2 ^ 32 * val b) (x + 2 ^ 32 * val a)); [done | nia].
  - assert (val a = val b) as -> by lia. destruct (Z.ltb_spec x y), (Z.ltb_spec y x), (Z.ltb_spec (x + 2 ^ 32 * val b) (y + 2 ^ 32 * val b)),
      (Z.ltb_spec (y + 2 ^ 32 * val b) (x + 2 ^ 32 * val b)); lia.
Qed.

Lemma CompareTo_le a b : words a -> words b -> length a = length b -> (0 <=? CompareTo a b) = (val b <=? val a).
Proof.
  intros Ha Hb Hl. rewrite CompareTo_sign by done. unfold sign_of.
  destruct (Z.ltb_spec (val a) (val b)), (Z.ltb_spec (val b) (val a)), (Z.leb_spec (val b) (val a)); try done; lia.
Qed.

(** ** The position of the highest bit *)

(** [bits() = n]: the number needs [n] bits. *)
Definition bit_length (n v : Z) : Prop := (v = 0 /\ n = 0) \/ (0 < n /\ 2 ^ (n - 1) <= v < 2 ^ n).

Lemma land_bit w n : 0 <= n -> (Z.land w (2 ^ n) =? 0) = negb (Z.testbit w n).
Proof.
  intros Hn. destruct (Z.testbit w n) eqn:E; cbn [negb].
  - apply Z.eqb_neq. intros H0. assert (Ht : Z.testbit (Z.land w (2 ^ n)) n = false) by (by rewrite H0, Z.bits_0).
    rewrite Z.land_spec, E, Z.pow2_bits_true in Ht by done. done.
  - apply Z.eqb_eq, Z.bits_inj'. intros m Hm. rewrite Z.land_spec, Z.bits_0. destruct (decide (m = n)) as [-> |]; [by rewrite E |].
    rewrite Z.pow2_bits_false by done. apply andb_false_r.
Qed.

Lemma testbit_top w n : 0 <= n -> 0 <= w < 2 ^ (n + 1) -> Z.testbit w n = (2 ^ n <=? w).
Proof.
  intros Hn Hw. rewrite Z.pow_add_r in Hw by lia. rewrite Z.testbit_odd, Z.shiftr_div_pow2 by done. assert (0 < 2 ^ n) by (apply Z.pow_pos_nonneg; lia).
  destruct (Z.leb_spec (2 ^ n) w).
  - assert (w / 2 ^ n = 1) as -> by (symmetry; apply (Z.div_unique w (2 ^ n) 1 (w - 2 ^ n)); lia). done.
  - by rewrite Z.div_small by lia.
Qed.

Lemma word_bits_spec n w : 0 < w < 2 ^ (Z.of_nat n + 1) -> bit_length (word_bits n w) w.
Proof.
  induction n as [| n IH]; intros Hw; cbn [word_bits].
  - right. cbn in Hw. assert (w = 1) by lia. subst. done.
  - rewrite Z.shiftl_1_l, land_bit, negb_involutive by lia. rewrite testbit_top by lia. destruct (Z.leb_spec (2 ^ Z.of_nat (S n)) w).
    + right. replace (Z.of_nat (S n) + 1 - 1) with (Z.of_nat (S n)) by lia. lia.
    + apply IH. replace (Z.of_nat n + 1) with (Z.of_nat (S n)) by lia. lia.
Qed.

Lemma bits_from_snoc a w : words a -> word w ->
  bits_from (a ++ [w]) = if bits_from a =? 0 then (if w =? 0 then 0 else word_bits 31 w) else 32 + bits_from a.
Proof.
  intros Ha Hw. induction Ha as [| x a Hx Ha IH]; cbn [app bits_from]; [done |].
  destruct (Z.eqb_spec x 0) as [-> | Hx0]; [apply IH |]. unfold word in Hx.
  destruct (word_bits_spec 31 x ltac:(cbn; lia)) as [[? ?] | [Hp _]]; [lia |]. rewrite zlen_app. change (zlen [w]) with 1. pose proof (zlen_nonneg a).
  destruct (Z.eqb_spec (32 * zlen a + word_bits 31 x) 0); lia.
Qed.

Lemma uint_bits_spec a : words a -> bit_length (uint_bits a) (val a).
Proof.
  unfold uint_bits. induction 1 as [| w a Hw Ha IH]; [by left |]. rewrite reverse_cons, bits_from_snoc by (done || by apply Forall_reverse).
  cbn [val]. pose proof (val_bound a Ha). unfold word in Hw. set (n := bits_from (reverse a)) in *. destruct IH as [[Hv ->] | (Hn & Hv)].
  - rewrite Hv. cbn [Z.eqb]. replace (w + 2 ^ 32 * 0) with w by lia. destruct (Z.eqb_spec w 0); [by left |]. apply word_bits_spec. cbn. lia.
  - destruct (Z.eqb_spec n 0); [lia |]. right. split; [lia |]. replace (32 + n - 1) with (32 + (n - 1)) by lia. rewrite !Z.pow_add_r by lia. nia.
Qed.

(** ** Division *)

Lemma val_testbit a k j : words a -> 0 <= j < 32 -> Z.testbit (val a) (32 * Z.of_nat k + j) = Z.testbit (nth k a 0) j.
Proof.
  intros Ha Hj. revert k. induction Ha as [| w a Hw Ha IH]; intros k.
  - destruct k; cbn [nth val]; by rewrite !Z.bits_0.
  - cbn [val]. unfold word in Hw. rewrite <- lor_disjoint_add by (by apply low_high_disjoint). rewrite Z.lor_spec, (Z.mul_comm (2 ^ 32)).
    destruct k as [| k]; cbn [nth].
    + rewrite Z.mul_pow2_bits_low by lia. rewrite orb_false_r. f_equal.
    + rewrite Z.mul_pow2_bits by lia. replace (32 * Z.of_nat (S k) + j - 32) with (32 * Z.of_nat k + j) by lia. rewrite IH.
      rewrite <- (Z.mod_small w (2 ^ 32)) by done. by rewrite Z.mod_pow2_bits_high by lia.
Qed.

(** Setting one clear bit of the quotient. *)
Lemma or_bit_spec pn sh q : words pn -> (sh < 32 * length pn)%nat -> val pn = 2 ^ (Z.of_nat sh + 1) * q ->
  let pn' := or_word pn (sh / 32) (u32 (Z.shiftl 1 (Z.land (Z.of_nat sh) 31))) in
  val pn' = val pn + 2 ^ Z.of_nat sh /\ words pn' /\ length pn' = length pn.
Proof.
  intros Hw Hsh Hv. cbv zeta. set (i := (sh / 32)%nat). set (j := (Z.of_nat sh) `mod` 32).
  assert (Hj : 0 <= j < 32) by (apply Z.mod_pos_bound; lia).
  assert (Hsplit : Z.of_nat sh = 32 * Z.of_nat i + j).
  { unfold i, j. rewrite Nat2Z.inj_div. change (Z.of_nat 32) with 32. apply Z.div_mod. lia. }
  assert (Hi : (i < length pn)%nat) by lia. destruct (lookup_lt_is_Some_2 pn i Hi) as [p Hp].
  rewrite (land_ones_mod _ 5 31) by done. change (2 ^ 5) with 32. fold j. rewrite Z.shiftl_1_l.
  assert (Hpow : 0 < 2 ^ j < 2 ^ 32) by (split; [apply Z.pow_pos_nonneg; lia | apply Z.pow_lt_mono_r; lia]). rewrite u32_id by lia.
  split_and!; [| apply or_word_words; [done | unfold word; lia] | apply or_word_length].
  rewrite (val_or_word pn i p _ Hp).
  - f_equal. rewrite <- Z.pow_add_r by lia. f_equal. lia.
  - apply Z.eqb_eq. rewrite land_bit by lia. pose proof (val_testbit pn i j Hw Hj) as Ht. rewrite <- Hsplit, Hv, Z.mul_comm, Z.mul_pow2_bits_low in Ht by lia.
    rewrite (nth_lookup_Some pn i 0 p) in Ht by done. by rewrite <- Ht.
Qed.

Section Division.
Context (D : Z) (HD : 0 < D) (W : nat).

Lemma div_loop_spec n num div pn q :
  words num -> words div -> words pn -> length num = W -> length div = W -> length pn = W -> (n <= 32 * W)%nat ->
  val div = D * 2 ^ Z.of_nat n / 2 -> val num < D * 2 ^ Z.of_nat n -> val pn = 2 ^ Z.of_nat n * q ->
  val (div_loop n num div pn) = val pn + val num / D /\ words (div_loop n num div pn) /\ length (div_loop n num div pn) = W.
Proof.
  revert num div pn q. induction n as [| sh IH]; intros num div pn q Hnum Hdiv Hpn Lnum Ldiv Lpn Hn Vdiv Vnum Vpn; cbn [div_loop].
  { change (2 ^ Z.of_nat 0) with 1 in *. pose proof (val_bound num Hnum). rewrite Z.div_small by lia. split_and!; [lia | done | done]. }
  replace (Z.of_nat (S sh)) with (Z.of_nat sh + 1) in * by lia. rewrite Z.pow_add_r in Vdiv, Vnum by lia. change (2 ^ 1) with 2 in *.
  rewrite Z.mul_assoc, Z.div_mul in Vdiv by lia. set (P := 2 ^ Z.of_nat sh) in *. assert (0 < P) by (apply Z.pow_pos_nonneg; lia).
  destruct (uint_shr_spec div 1 Hdiv ltac:(lia)) as (Vs & Ws & Ls). rewrite Vdiv in Vs. change (2 ^ 1) with 2 in Vs.
  rewrite CompareTo_le, Vdiv by congruence. destruct (Z.leb_spec (D * P) (val num)) as [Hge | Hlt].
  - destruct (uint_sub_spec num div Hnum Hdiv ltac:(congruence)) as (Vm & Wm & Lm). pose proof (val_bound num Hnum).
    rewrite Vdiv, Z.mod_small in Vm by nia.
    destruct (or_bit_spec pn sh q Hpn ltac:(lia) Vpn) as (Vo & Wo & Lo). fold P in Vo.
    edestruct (IH _ _ _ (2 * q + 1) Wm Ws Wo) as (Vr & Wr & Lr); try congruence; [lia | lia | |].
    { rewrite Vo, Vpn, Z.pow_add_r by lia. fold P. change (2 ^ 1) with 2. lia. }
    split_and!; [| done | done]. rewrite Vr, Vo, Vm. replace (val num) with (val num - D * P + P * D) at 2 by lia. rewrite Z.div_add by lia. lia.
  - apply (IH num _ pn (2 * q) Hnum Ws Hpn); try congruence; [lia |].
    rewrite Vpn, Z.pow_add_r by lia. fold P. change (2 ^ 1) with 2. lia.
Qed.
End Division.

Lemma uint_div_spec a b : words a -> words b -> length a = length b -> val b <> 0 ->
  exists q, uint_div a b = Some q /\ val q = val a / val b /\ words q /\ length q = length a.
Proof.
  intros Ha Hb Hl Hnz. unfold uint_div. pose proof (val_bound a Ha). pose proof (val_bound b Hb). pose proof (modulus_len a b Hl) as Hm.
  destruct (uint_bits_spec b Hb) as [[? _] | (Hdb & Vb)]; [lia |]. set (db := uint_bits b) in *. set (nb := uint_bits a).
  destruct (Z.eqb_spec db 0); [lia |]. set (zero := replicate (length a) 0).
  assert (Hzero : val zero = 0 /\ words zero /\ length zero = length a) by (split_and!; [apply val_replicate | apply words_replicate | apply length_replicate]).
  destruct Hzero as (Vz & Wz & Lz). pose proof (uint_bits_spec a Ha) as Hna. fold nb in Hna.
  assert (Va : 0 <= nb /\ val a < 2 ^ nb) by (destruct Hna as [[-> ->] | ?]; [done | lia]). destruct Va as [Hnb Va].
  destruct (Z.ltb_spec nb db) as [Hlt | Hge].
  - exists zero. split_and!; try done. rewrite Vz. symmetry. apply Z.div_small. split; [lia |].
    assert (2 ^ nb <= 2 ^ (db - 1)) by (apply Z.pow_le_mono_r; lia). lia.
  - destruct Hna as [[? ?] | (_ & Vna)]; [lia |]. set (shift := nb - db). eexists. split; [done |].
    assert (Hpow : 2 ^ nb = 2 ^ db * 2 ^ shift) by (rewrite <- Z.pow_add_r by lia; f_equal; lia).
    assert (Hp1 : 2 ^ nb = 2 * 2 ^ (nb - 1)) by (rewrite <- (Z.pow_succ_r 2 (nb - 1)) by lia; f_equal; lia).
    assert (Hp2 : 2 ^ db = 2 * 2 ^ (db - 1)) by (rewrite <- (Z.pow_succ_r 2 (db - 1)) by lia; f_equal; lia).
    assert (Hps : 0 < 2 ^ shift) by (apply Z.pow_pos_nonneg; lia).
    assert (Hnm : nb <= 32 * zlen a).
    { apply Z.lt_succ_r. apply (Z.pow_lt_mono_r_iff 2); [lia | pose proof (zlen_nonneg a); lia |]. rewrite Z.pow_succ_r by (pose proof (zlen_nonneg a); lia).
      unfold modulus in *. lia. }
    assert (HM : 2 ^ nb <= modulus a) by (apply Z.pow_le_mono_r; lia).
    destruct (uint_shl_spec b shift Hb ltac:(lia)) as (Vd & Wd & Ld). rewrite Z.mod_small in Vd by nia.
    edestruct (div_loop_spec (val b) ltac:(lia) (length a) (Z.to_nat (shift + 1)) a (uint_shl b shift) zero 0) as (Vr & Wr & Lr); try done; try congruence.
    + unfold zlen in Hnm. lia.
    + rewrite Vd, Z2Nat.id, Z.pow_add_r by lia. change (2 ^ 1) with 2. by rewrite Z.mul_assoc, Z.div_mul by lia.
    + rewrite Z2Nat.id, Z.pow_add_r by lia. change (2 ^ 1) with 2. nia.
    + rewrite Vz. lia.
    + rewrite Vz, Z.add_0_l in Vr. done.
Qed.

Lemma uint_div_zero a b : words b -> val b = 0 -> uint_div a b = None.
Proof.
  intros Hb H0. unfold uint_div. destruct (uint_bits_spec b Hb) as [[_ ->] | (? & ?)]; [done |]. assert (0 < 2 ^ (uint_bits b - 1)) by (apply Z.pow_pos_nonneg; lia). lia.
Qed.

(** ** Conversions and compact targets *)

Lemma uint_of_spec W b : (2 <= W)%nat -> 0 <= b < 2 ^ 64 -> val (uint_of W b) = b /\ words (uint_of W b) /\ length (uint_of W b) = W.
Proof.
  intros HW Hb. unfold uint_of. split_and!.
  - cbn [val]. rewrite val_replicate, high_part. unfold u32. pose proof (Z.div_mod b (2 ^ 32) ltac:(lia)).
    rewrite (Z.mod_small (b / 2 ^ 32)); [lia |]. split; [apply Z.div_pos; lia | apply Z.div_lt_upper_bound; lia].
  - constructor; [apply mod_word |]. constructor; [apply mod_word | apply words_replicate].
  - cbn [length]. rewrite length_replicate. lia.
Qed.

Lemma GetLow64_spec a : words a -> (2 <= length a)%nat -> GetLow64 a = val a `mod` 2 ^ 64.
Proof.
  destruct 1 as [| w0 l H0 Hl]; [cbn; lia |]. destruct Hl as [| w1 l H1 Hl]; [cbn; lia |]. intros _. cbn [GetLow64 val]. unfold word in *.
  rewrite Z.shiftl_mul_pow2 by lia. rewrite (Z.mul_comm w1), lor_disjoint_add by (by apply low_high_disjoint).
  replace (w0 + 2 ^ 32 * (w1 + 2 ^ 32 * val l)) with (w0 + 2 ^ 32 * w1 + val l * 2 ^ 64) by lia. rewrite Z.mod_add, Z.mod_small by lia. done.
Qed.

Lemma uint_lit_spec W v : 0 <= v < 2 ^ (32 * Z.of_nat W) -> val (uint_lit W v) = v /\ words (uint_lit W v) /\ length (uint_lit W v) = W.
Proof.
  intros Hv. unfold uint_lit. split_and!; [| apply Forall_map, Forall_forall; intros i _; apply mod_word | by rewrite length_map, length_seq].
  enough (Hgen : forall k, 0 <= v -> v / 2 ^ (32 * Z.of_nat k) < 2 ^ (32 * Z.of_nat W) ->
    val (map (fun i => u32 (Z.shiftr v (32 * Z.of_nat i))) (seq k W)) = v / 2 ^ (32 * Z.of_nat k)).
  { rewrite (Hgen 0%nat); change (2 ^ (32 * Z.of_nat 0)) with 1; rewrite ?Z.div_1_r; lia. }
  clear Hv. induction W as [| W IH]; intros k Hv0 Hv.
  { assert (0 < 2 ^ (32 * Z.of_nat k)) by (apply Z.pow_pos_nonneg; lia). pose proof (Z.div_pos v (2 ^ (32 * Z.of_nat k))).
    change (2 ^ (32 * Z.of_nat 0)) with 1 in Hv. cbn [seq map val]. lia. }
  cbn [seq map val]. assert (0 < 2 ^ (32 * Z.of_nat k)) by (apply Z.pow_pos_nonneg; lia).
  assert (E : v / 2 ^ (32 * Z.of_nat (S k)) = v / 2 ^ (32 * Z.of_nat k) / 2 ^ 32).
  { rewrite Z.div_div by lia. rewrite <- Z.pow_add_r by lia. do 2 f_equal. lia. }
  replace (32 * Z.of_nat (S W)) with (32 + 32 * Z.of_nat W) in Hv by lia. rewrite Z.pow_add_r in Hv by lia.
  rewrite IH; [| done | rewrite E; apply Z.div_lt_upper_bound; lia]. rewrite E, Z.shiftr_div_pow2 by lia. unfold u32.
  set (q := v / 2 ^ (32 * Z.of_nat k)). pose proof (Z.div_mod q (2 ^ 32)). lia.
Qed.

Lemma pow2_8 k : 0 <= k -> 2 ^ (8 * k) = 256 ^ k.
Proof. intros Hk. by rewrite Z.pow_mul_r by lia. Qed.
Lemma pow2_8_pos k : 0 <= k -> 0 < 256 ^ k.
Proof. intros. apply Z.pow_pos_nonneg; lia. Qed.

(** The value a compact target stands for. *)
Definition compact_value (size m : Z) : Z := if size <=? 3 then m / 256 ^ (3 - size) else m * 256 ^ (size - 3).

Lemma compact_fields m g s : 0 <= m < 2 ^ 23 -> 0 <= g <= 1 -> 0 <= s ->
  let c := m + 2 ^ 23 * g + 2 ^ 24 * s in Z.shiftr c 24 = s /\ Z.land c 0x007fffff = m /\ (Z.land c 0x00800000 =? 0) = (g =? 0).
Proof.
  intros Hm Hg Hs. cbv zeta. split_and!.
  - rewrite Z.shiftr_div_pow2 by lia. rewrite (Z.mul_comm (2 ^ 24)), Z.div_add, Z.div_small by lia. done.
  - rewrite (land_ones_mod _ 23 0x7fffff) by done. replace (m + 2 ^ 23 * g + 2 ^ 24 * s) with (m + (g + 2 * s) * 2 ^ 23) by lia. by rewrite Z.mod_add, Z.mod_small by lia.
  - change 0x800000 with (2 ^ 23). rewrite land_bit by lia.
    rewrite Z.testbit_odd, Z.shiftr_div_pow2 by lia.
    replace (m + 2 ^ 23 * g + 2 ^ 24 * s) with (m + (g + 2 * s) * 2 ^ 23) by lia. rewrite Z.div_add, Z.div_small by lia.
    rewrite Z.add_0_l, Z.odd_add, Z.odd_mul. assert (g = 0 \/ g = 1) as [-> | ->] by lia; done.
Qed.

Lemma compact_split c : 0 <= c < 2 ^ 32 -> exists m g s, c = m + 2 ^ 23 * g + 2 ^ 24 * s /\ 0 <= m < 2 ^ 23 /\ 0 <= g <= 1 /\ 0 <= s < 256.
Proof.
  intros Hc. exists (c `mod` 2 ^ 23), ((c / 2 ^ 23) `mod` 2), (c / 2 ^ 24).
  assert (E : c / 2 ^ 24 = c / 2 ^ 23 / 2) by (by rewrite Z.div_div by lia). rewrite E.
  pose proof (Z.div_mod c (2 ^ 23) ltac:(lia)). pose proof (Z.mod_pos_bound c (2 ^ 23) ltac:(lia)). set (q := c / 2 ^ 23) in *.
  pose proof (Z.div_mod q 2 ltac:(lia)). pose proof (Z.mod_pos_bound q 2 ltac:(lia)). lia.
Qed.

Lemma SetCompact_any m g s : 0 <= m < 2 ^ 23 -> 0 <= g <= 1 -> 0 <= s < 256 ->
  let '(t, neg, over) := SetCompact (m + 2 ^ 23 * g + 2 ^ 24 * s) in
  words t /\ length t = 8%nat /\ (g = 0 -> neg = false) /\ (over = false <-> compact_value s m < 2 ^ 256) /\ val t = compact_value s m `mod` 2 ^ 256.
Proof.
  intros Hm Hg Hs. destruct (compact_fields m g s Hm Hg ltac:(lia)) as (E1 & E2 & E3). unfold SetCompact. rewrite E1, E2, E3. unfold compact_value.
  destruct (Z.leb_spec s 3) as [Hle | Hgt].
  - rewrite Z.shiftr_div_pow2, pow2_8 by lia. pose proof (pow2_8_pos (3 - s) ltac:(lia)). set (m' := m / 256 ^ (3 - s)).
    assert (Hm' : 0 <= m' < 2 ^ 23) by (split; [apply Z.div_pos; lia | apply Z.div_lt_upper_bound; nia]).
    destruct (uint_of_spec 8 m' ltac:(lia) ltac:(lia)) as (V & Wd & L). split_and!; [done | done | intros ->; apply andb_false_r | | rewrite V, Z.mod_small; lia].
    split; [intros _; lia | intros _]. destruct (Z.ltb_spec 34 s), (Z.ltb_spec 33 s), (Z.ltb_spec 32 s); lia.
  - rewrite (Z.mul_comm 8), <- (Z.mul_comm 8). destruct (uint_of_spec 8 m ltac:(lia) ltac:(lia)) as (V & Wd & L).
    destruct (uint_shl_spec (uint_of 8 m) (8 * (s - 3)) Wd ltac:(lia)) as (Vs & Ws & Ls). rewrite V, pow2_8 in Vs by lia.
    split_and!; [done | congruence | intros ->; apply andb_false_r | | rewrite Vs; done].
    destruct (Z.eqb_spec m 0) as [-> | Hm0]; cbn [negb andb]; [split; [intros _; lia | done] |].
    assert (H256 : 2 ^ 256 = 256 ^ 32) by done. rewrite H256.
    destruct (Z.ltb_spec 34 s); cbn [orb].
    { split; [done |]. intros Hlt. exfalso. assert (256 ^ 32 <= 256 ^ (s - 3)) by (apply Z.pow_le_mono_r; lia). nia. }
    destruct (Z.eq_dec s 34) as [-> | ?]; [| destruct (Z.eq_dec s 33) as [-> | ?]].
    + cbn [Z.ltb Z.compare Pos.compare Pos.compare_cont]. rewrite !andb_true_r. change (34 - 3) with 31. replace (256 ^ 32) with (256 * 256 ^ 31) by done.
      pose proof (pow2_8_pos 31 ltac:(lia)). destruct (Z.ltb_spec 0xff m), (Z.ltb_spec 0xffff m); cbn [orb]; (split; [intros ?; try done; nia | intros ?; try done; exfalso; nia]).
    + cbn [Z.ltb Z.compare Pos.compare Pos.compare_cont]. rewrite andb_true_r, andb_false_r. change (33 - 3) with 30. replace (256 ^ 32) with (65536 * 256 ^ 30) by done.
      pose proof (pow2_8_pos 30 ltac:(lia)). cbn [orb]. destruct (Z.ltb_spec 0xffff m); (split; [intros ?; try done; nia | intros ?; try done; exfalso; nia]).
    + destruct (Z.ltb_spec 33 s), (Z.ltb_spec 32 s); try lia. rewrite !andb_false_r. split; [intros _ | done].
      assert (256 ^ (s - 3) <= 256 ^ 29) by (apply Z.pow_le_mono_r; lia). replace (256 ^ 32) with (2 ^ 24 * 256 ^ 29) by done. pose proof (pow2_8_pos (s - 3) ltac:(lia)). nia.
Qed.

Lemma SetCompact_spec m s : 0 <= m < 2 ^ 23 -> 0 <= s < 256 ->
  let '(t, neg, over) := SetCompact (m + 2 ^ 24 * s) in
  words t /\ length t = 8%nat /\ neg = false /\ (over = false <-> compact_value s m < 2 ^ 256) /\ val t = compact_value s m `mod` 2 ^ 256.
Proof.
  intros Hm Hs. pose proof (SetCompact_any m 0 s Hm ltac:(lia) Hs) as H. rewrite Z.mul_0_r, Z.add_0_r in H.
  destruct (SetCompact (m + 2 ^ 24 * s)) as [[t neg] over]. destruct H as (? & ? & Hneg & ? & ?). split_and!; try done; by apply Hneg.
Qed.

(** [GetCompact]'s mantissa before the sign bit is looked at. *)
Definition mantissa (size v : Z) : Z := if size <=? 3 then v * 256 ^ (3 - size) else v / 256 ^ (size - 3).

Lemma mantissa_bounds n v : bit_length n v -> let s := (n + 7) / 8 in 0 <= s /\ 0 <= mantissa s v < 2 ^ 24 /\ (0 < v -> 2 ^ 16 <= mantissa s v).
Proof.
  intros Hn. cbv zeta. set (s := (n + 7) / 8). destruct Hn as [[-> ->] | (Hpos & Hlo & Hhi)]; [done |].
  assert (Hs : 8 * (s - 1) <= n - 1 < 8 * s) by (unfold s; Z.div_mod_to_equations; lia). split; [lia |].
  assert (H1 : 2 ^ (8 * (s - 1)) <= v) by (etransitivity; [| exact Hlo]; apply Z.pow_le_mono_r; lia).
  assert (H2 : v < 2 ^ (8 * s)) by (eapply Z.lt_le_trans; [exact Hhi |]; apply Z.pow_le_mono_r; lia).
  rewrite !pow2_8 in * by lia. unfold mantissa. destruct (Z.leb_spec s 3).
  - assert (E1 : 256 ^ s * 256 ^ (3 - s) = 2 ^ 24) by (rewrite <- Z.pow_add_r by lia; by replace (s + (3 - s)) with 3 by lia).
    assert (E2 : 256 ^ (s - 1) * 256 ^ (3 - s) = 2 ^ 16) by (rewrite <- Z.pow_add_r by lia; by replace (s - 1 + (3 - s)) with 2 by lia).
    pose proof (pow2_8_pos (3 - s) ltac:(lia)). pose proof (pow2_8_pos (s - 1) ltac:(lia)). nia.
  - assert (E1 : 256 ^ s = 256 ^ (s - 3) * 2 ^ 24) by (change (2 ^ 24) with (256 ^ 3); rewrite <- Z.pow_add_r by lia; f_equal; lia).
    assert (E2 : 256 ^ (s - 1) = 256 ^ (s - 3) * 2 ^ 16) by (change (2 ^ 16) with (256 ^ 2); rewrite <- Z.pow_add_r by lia; f_equal; lia).
    pose proof (pow2_8_pos (s - 3) ltac:(lia)). split_and!; [apply Z.div_pos; lia | apply Z.div_lt_upper_bound; lia | intros _; apply Z.div_le_lower_bound; lia].
Qed.

Definition compact_of (size m0 : Z) : Z := if m0 <? 2 ^ 23 then m0 + 2 ^ 24 * size else m0 / 256 + 2 ^ 24 * (size + 1).

Lemma bit_length_inj n m v : bit_length n v -> bit_length m v -> n = m.
Proof.
  assert (Hle : forall n m, 0 < n -> 0 < m -> 2 ^ (n - 1) <= v -> v < 2 ^ m -> n <= m).
  { clear. intros n m Hn Hm H1 H2. assert (2 ^ (n - 1) < 2 ^ m) as Hlt by lia. apply Z.pow_lt_mono_r_iff in Hlt; lia. }
  intros [[Hv ->] | (Hn & Hn1 & Hn2)] [[Hv' ->] | (Hm & Hm1 & Hm2)]; [done | | |].
  - assert (0 < 2 ^ (m - 1)) by (apply Z.pow_pos_nonneg; lia). lia.
  - assert (0 < 2 ^ (n - 1)) by (apply Z.pow_pos_nonneg; lia). lia.
  - apply Z.le_antisymm; by apply Hle.
Qed.

Lemma bit_length_bound n v k : bit_length n v -> 0 <= k -> v < 2 ^ k -> n <= k.
Proof.
  intros [[_ ->] | (Hn & H1 & _)] Hk Hv; [done |]. assert (2 ^ (n - 1) < 2 ^ k) as Hlt by lia. apply Z.pow_lt_mono_r_iff in Hlt; lia.
Qed.

Lemma GetCompact_spec a n : words a -> length a = 8%nat -> bit_length n (val a) ->
  GetCompact a false = Some (compact_of ((n + 7) / 8) (mantissa ((n + 7) / 8) (val a))).
Proof.
  intros Ha Hl Hn. unfold GetCompact. rewrite (bit_length_inj _ n (val a) (uint_bits_spec a Ha) Hn). set (s := (n + 7) / 8).
  destruct (mantissa_bounds n (val a) Hn) as (Hs & Hm & _). fold s in Hs, Hm. pose proof (val_bound a Ha) as Hb.
  assert (HM : modulus a = 2 ^ 256) by (unfold modulus, zlen; by rewrite Hl).
  assert (Hs32 : s <= 32) by (assert (n <= 256) by (apply (bit_length_bound n (val a)); [done | lia | lia]); unfold s; Z.div_mod_to_equations; lia).
  assert (E : (if s <=? 3 then u32 (Z.shiftl (GetLow64 a) (8 * (3 - s))) else u32 (GetLow64 (uint_shr a (8 * (s - 3))))) = mantissa s (val a)).
  { unfold mantissa in *. destruct (Z.leb_spec s 3).
    - rewrite GetLow64_spec by (done || lia). pose proof (pow2_8_pos (3 - s) ltac:(lia)).
      rewrite Z.shiftl_mul_pow2, pow2_8 by lia. rewrite (Z.mod_small (val a)) by nia. apply u32_id. lia.
    - destruct (uint_shr_spec a (8 * (s - 3)) Ha ltac:(lia)) as (V & Wd & L). rewrite GetLow64_spec by (done || lia).
      rewrite V, pow2_8 by lia. rewrite Z.mod_small by lia. apply u32_id. lia. }
  rewrite E. set (m0 := mantissa s (val a)) in *. change 0x800000 with (2 ^ 23). rewrite land_bit, negb_involutive, testbit_top by lia.
  unfold compact_of. assert (Hpick : exists m s', (if 2 ^ 23 <=? m0 then (Z.shiftr m0 8, s + 1) else (m0, s)) = (m, s') /\
    0 <= m < 2 ^ 23 /\ 0 <= s' <= 33 /\ (if m0 <? 2 ^ 23 then m0 + 2 ^ 24 * s else m0 / 256 + 2 ^ 24 * (s + 1)) = m + 2 ^ 24 * s').
  { destruct (Z.leb_spec (2 ^ 23) m0), (Z.ltb_spec m0 (2 ^ 23)); try lia.
    - exists (m0 / 256), (s + 1). rewrite Z.shiftr_div_pow2 by lia. split; [done |]. split; [Z.div_mod_to_equations; lia | lia].
    - exists m0, s. split; [done |]. lia. }
  destruct Hpick as (m & s' & -> & Hm' & Hs' & ->). cbn [andb]. rewrite Z.lor_0_r.
  assert (Hdiff : Z.ldiff m 0x7fffff = 0) by (change 0x7fffff with (Z.ones 23); rewrite Z.ldiff_ones_r, Z.shiftr_div_pow2, Z.div_small by lia; done).
  rewrite Hdiff. cbn [Z.eqb negb]. destruct (Z.leb_spec 256 s'); [lia |]. f_equal.
  rewrite Z.shiftl_mul_pow2, (Z.mul_comm s') by lia. apply lor_disjoint_add. apply low_high_disjoint; lia.
Qed.

(** What a compact target of size [s'] keeps of a number: all of it, or its top bytes. *)
Definition top_bytes (s' v : Z) : Z := if s' <=? 3 then v else v / 256 ^ (s' - 3) * 256 ^ (s' - 3).

Section Keeps.
Context (n v : Z) (Hn : bit_length n v).
Let s := (n + 7) / 8.
Let s' := if mantissa s v <? 2 ^ 23 then s else s + 1.

Lemma size_bounds : 0 <= s <= s' /\ s' <= s + 1 /\ (0 < v -> 8 * (s - 1) <= n - 1).
Proof using Hn.
  destruct (mantissa_bounds n v Hn) as (Hs & _). fold s in Hs. unfold s'. destruct (Z.ltb_spec (mantissa s v) (2 ^ 23)).
  all: split_and!; try lia; intros Hv; unfold s; destruct Hn as [[? ?] | (? & ?)]; [lia |]; Z.div_mod_to_equations; lia.
Qed.

Lemma compact_of_value : exists m, compact_of s (mantissa s v) = m + 2 ^ 24 * s' /\ 0 <= m < 2 ^ 23 /\ compact_value s' m = top_bytes s' v.
Proof using Hn.
  destruct (mantissa_bounds n v Hn) as (Hs & Hm & _). fold s in Hs, Hm. unfold compact_of, compact_value, top_bytes, s'. clear s'.
  destruct (Z.ltb_spec (mantissa s v) (2 ^ 23)) as [Hlt | Hge].
  - exists (mantissa s v). split; [done |]. split; [lia |]. unfold mantissa. destruct (Z.leb_spec s 3); [| done].
    pose proof (pow2_8_pos (3 - s) ltac:(lia)). apply Z.div_mul. lia.
  - exists (mantissa s v / 256). split; [done |]. split; [Z.div_mod_to_equations; lia |]. unfold mantissa in *. destruct (Z.leb_spec (s + 1) 3), (Z.leb_spec s 3); try lia.
    + replace (3 - s) with (1 + (3 - (s + 1))) by lia. rewrite Z.pow_add_r by lia. pose proof (pow2_8_pos (3 - (s + 1)) ltac:(lia)). change (256 ^ 1) with 256.
      rewrite Z.mul_assoc, (Z.mul_comm v 256), <- Z.mul_assoc, (Z.mul_comm 256), !Z.div_mul by lia. done.
    + assert (s = 3) by lia. subst. replace (s + 1 - 3) with 1 by lia. replace (3 - s) with 0 by lia. by rewrite Z.mul_1_r.
    + pose proof (pow2_8_pos (s - 3) ltac:(lia)). rewrite Z.div_div by lia. by replace (256 ^ (s + 1 - 3)) with (256 ^ (s - 3) * 256) by (change 256 with (256 ^ 1) at 2; rewrite <- Z.pow_add_r by lia; f_equal; lia).
Qed.

Lemma top_bytes_error : top_bytes s' v <= v /\ (v - top_bytes s' v) * 2 ^ 15 <= top_bytes s' v.
Proof using Hn.
  destruct (mantissa_bounds n v Hn) as (Hs & Hm & Hm1). fold s in Hs, Hm, Hm1. pose proof size_bounds as Hsb. unfold top_bytes.
  assert (0 <= v) by (destruct Hn as [[-> _] | (? & ? & _)]; [done |]; assert (0 < 2 ^ (n - 1)) by (apply Z.pow_pos_nonneg; lia); lia).
  destruct (Z.leb_spec s' 3) as [| Hs3]; [lia |]. pose proof (pow2_8_pos (s' - 3) ltac:(lia)) as Hp. set (P := 256 ^ (s' - 3)) in *.
  pose proof (Z.div_mod v P ltac:(lia)). pose proof (Z.mod_pos_bound v P Hp).
  assert (v = 0 \/ 2 ^ 15 <= v / P) as [-> | Hbig]; [| rewrite Z.div_0_l by lia; lia | nia].
  destruct (Z.eq_dec v 0) as [| Hv]; [by left | right]. specialize (Hm1 ltac:(lia)). unfold P, s' in *. clear P.
  destruct (Z.ltb_spec (mantissa s v) (2 ^ 23)) as [Hlt | Hge]; unfold mantissa in *; destruct (Z.leb_spec s 3); try lia.
  - assert (s = 3) by lia. subst. replace (s + 1 - 3) with 1 by lia. replace (3 - s) with 0 in Hge by lia. rewrite Z.mul_1_r in Hge. apply Z.div_le_lower_bound; lia.
  - replace (256 ^ (s + 1 - 3)) with (256 ^ (s - 3) * 256) by (change 256 with (256 ^ 1) at 2; rewrite <- Z.pow_add_r by lia; f_equal; lia).
    pose proof (pow2_8_pos (s - 3) ltac:(lia)). rewrite <- Z.div_div by lia. apply Z.div_le_lower_bound; lia.
Qed.

Lemma top_bytes_length : bit_length n (top_bytes s' v).
Proof using Hn.
  pose proof size_bounds as Hsb. destruct Hn as [[Hv Hn0] | (Hpos & Hlo & Hhi)] eqn:E; clear E.
  - left. split; [| done]. unfold top_bytes. destruct (Z.leb_spec s' 3); [done |]. rewrite Hv. by rewrite Z.div_0_l by (apply Z.pow_nonzero; lia).
  - assert (0 < 2 ^ (n - 1)) by (apply Z.pow_pos_nonneg; lia). right. split; [done |]. unfold top_bytes. destruct (Z.leb_spec s' 3); [lia |].
    pose proof (pow2_8_pos (s' - 3) ltac:(lia)) as Hp. assert (Hk : 8 * (s' - 3) <= n - 1) by lia.
    assert (E : 2 ^ (n - 1) = 256 ^ (s' - 3) * 2 ^ (n - 1 - 8 * (s' - 3))) by (rewrite <- pow2_8, <- Z.pow_add_r by lia; f_equal; lia).
    set (P := 256 ^ (s' - 3)) in *. pose proof (Z.div_mod v P ltac:(lia)). pose proof (Z.mod_pos_bound v P Hp).
    assert (2 ^ (n - 1 - 8 * (s' - 3)) <= v / P) by (apply Z.div_le_lower_bound; lia). nia.
Qed.

(** Compacting what was kept gives the same target. *)
Lemma compact_of_top_bytes : compact_of s (mantissa s (top_bytes s' v)) = compact_of s (mantissa s v).
Proof using Hn.
  destruct (mantissa_bounds n v Hn) as (Hs & Hm & _). fold s in Hs, Hm. unfold top_bytes, s'. destruct (Z.ltb_spec (mantissa s v) (2 ^ 23)) as [Hlt | Hge].
  - destruct (Z.leb_spec s 3) as [| Hs3]; [done |]. unfold mantissa. destruct (Z.leb_spec s 3); [lia |].
    pose proof (pow2_8_pos (s - 3) ltac:(lia)). by rewrite Z.div_mul by lia.
  - destruct (Z.leb_spec (s + 1) 3) as [| Hs3]; [done |].
    assert (E : mantissa s (v / 256 ^ (s + 1 - 3) * 256 ^ (s + 1 - 3)) = mantissa s v / 256 * 256).
    { unfold mantissa in *. destruct (Z.leb_spec s 3).
      - assert (s = 3) by lia. subst. replace (s + 1 - 3) with 1 by lia. replace (3 - s) with 0 by lia. by rewrite !Z.mul_1_r.
      - replace (256 ^ (s + 1 - 3)) with (256 ^ (s - 3) * 256) by (change 256 with (256 ^ 1) at 2; rewrite <- Z.pow_add_r by lia; f_equal; lia).
        pose proof (pow2_8_pos (s - 3) ltac:(lia)). rewrite (Z.mul_comm _ 256), Z.mul_assoc, Z.div_mul, (Z.mul_comm 256), <- Z.div_div by lia. done. }
    rewrite E. set (m0 := mantissa s v) in *. unfold compact_of. rewrite Z.div_mul by lia.
    destruct (Z.ltb_spec m0 (2 ^ 23)), (Z.ltb_spec (m0 / 256 * 256) (2 ^ 23)); try done; Z.div_mod_to_equations; lia.
Qed.
End Keeps.

Definition compact_size (n v : Z) : Z := let s := (n + 7) / 8 in if mantissa s v <? 2 ^ 23 then s else s + 1.

Lemma GetCompact_decodes a : words a -> length a = 8%nat -> exists c t,
  GetCompact a false = Some c /\ SetCompact c = (t, false, false) /\ words t /\ length t = 8%nat /\
  val t = top_bytes (compact_size (uint_bits a) (val a)) (val a) /\ val t <= val a /\ (val a - val t) * 2 ^ 15 <= val t.
Proof.
  intros Ha Hl. pose proof (uint_bits_spec a Ha) as Hn. set (n := uint_bits a) in *. set (v := val a) in *. unfold compact_size. set (s := (n + 7) / 8).
  destruct (compact_of_value n v Hn) as (m & Ec & Hm & Ev). fold s in Ec, Ev. set (s' := if mantissa s v <? 2 ^ 23 then s else s + 1) in *.
  pose proof (top_bytes_error n v Hn) as Herr. fold s in Herr. fold s' in Herr.
  pose proof (size_bounds n v Hn) as Hsb. fold s in Hsb. fold s' in Hsb. pose proof (val_bound a Ha) as Hb. fold v in Hb.
  assert (HM : modulus a = 2 ^ 256) by (unfold modulus, zlen; by rewrite Hl).
  assert (Hs32 : s <= 32) by (assert (n <= 256) by (apply (bit_length_bound n v); [done | lia | lia]); unfold s; Z.div_mod_to_equations; lia).
  pose proof (SetCompact_spec m s' Hm ltac:(lia)) as Hset. destruct (SetCompact (m + 2 ^ 24 * s')) as [[t neg] over] eqn:Es.
  destruct Hset as (Wt & Lt & -> & Hover & Vt). rewrite Ev in Hover, Vt. rewrite Z.mod_small in Vt by lia.
  assert (over = false) as -> by (apply Hover; lia).
  exists (m + 2 ^ 24 * s'), t. split_and!; try done; [rewrite (GetCompact_spec a n) by done; fold v s; by rewrite Ec | lia | lia].
Qed.

(** a 256-bit number always has a compact target (neither assertion of [GetCompact]
    fails); the target read back is not negative, does not overflow, is at most the
    number and smaller by at most one part in 2^15; compacting it again gives the
    same target, so a target written and read is stable. *)
Theorem compact_roundtrip a : words a -> length a = 8%nat -> exists c t,
  GetCompact a false = Some c /\ SetCompact c = (t, false, false) /\ words t /\ length t = 8%nat /\
  val t <= val a /\ (val a - val t) * 2 ^ 15 <= val t /\ GetCompact t false = Some c.
Proof.
  intros Ha Hl. destruct (GetCompact_decodes a Ha Hl) as (c & t & Hc & Hs & Wt & Lt & Vt & Hle & Herr). exists c, t. split_and!; try done.
  pose proof (uint_bits_spec a Ha) as Hn. rewrite <- Hc, (GetCompact_spec a _ Ha Hl Hn), (GetCompact_spec t (uint_bits a) Wt Lt), Vt.
  - f_equal. apply (compact_of_top_bytes _ _ Hn).
  - rewrite Vt. apply (top_bytes_length _ _ Hn).
Qed.

(** C34: the word loops of [base_uint] compute the integer operations: addition,
    subtraction, negation, multiplication (by a number and by a 32-bit word) and left
    shift are those of the integers modulo [2^BITS], right shift and division are the
    integer quotients (division by zero is the error), comparison is the order,
    [bits] is the bit length; every result is again a number of the same width. *)
Theorem uint_ops_arithmetic a b shift w : words a -> words b -> length a = length b -> 0 <= shift -> word w ->
  val (uint_add a b) = (val a + val b) `mod` modulus a /\ val (uint_sub a b) = (val a - val b) `mod` modulus a /\
  val (uint_neg a) = (- val a) `mod` modulus a /\ val (uint_mul a b) = (val a * val b) `mod` modulus a /\
  val (uint_mul32 a w) = (val a * w) `mod` modulus a /\
  val (uint_shl a shift) = (val a * 2 ^ shift) `mod` modulus a /\ val (uint_shr a shift) = val a / 2 ^ shift /\
  (if val b =? 0 then uint_div a b = None else exists q, uint_div a b = Some q /\ words q /\ length q = length a /\ val q = val a / val b) /\
  CompareTo a b = sign_of (val a) (val b) /\ bit_length (uint_bits a) (val a) /\
  Forall (fun r => words r /\ length r = length a)
    [uint_add a b; uint_sub a b; uint_neg a; uint_mul a b; uint_mul32 a w; uint_shl a shift; uint_shr a shift].
Proof.
  intros Ha Hb Hl Hs Hw. destruct (uint_add_spec a b Ha Hb Hl) as [? ?]. destruct (uint_sub_spec a b Ha Hb Hl) as [? ?].
  destruct (uint_neg_spec a Ha) as [? ?]. destruct (uint_mul_spec a b Ha Hb Hl) as [? ?].
  destruct (mul32_spec 0 w a Ha Hw ltac:(by unfold word)) as [Hm32 ?].
  destruct (uint_shl_spec a shift Ha Hs) as [? ?]. destruct (uint_shr_spec a shift Ha Hs) as [? ?].
  split_and!; try done; [unfold uint_mul32; rewrite Hm32; f_equal; lia | | by apply CompareTo_sign | by apply uint_bits_spec | repeat (apply Forall_cons; split; [assumption |]); apply Forall_nil_2].
  destruct (Z.eqb_spec (val b) 0); [by apply uint_div_zero |]. destruct (uint_div_spec a b Ha Hb Hl) as (q & ? & ? & ? & ?); [done | eauto].
Qed.

Lemma uint_ops_arithmetic_witness :
  val (uint_mul [0xffffffff; 3] [5; 7]) = (0x3ffffffff * 0x700000005) `mod` 2 ^ 64 /\ uint_div [0xffffffff; 3] [5; 0] = Some [0xcccccccc; 0].
Proof.
  assert (Ha : words [0xffffffff; 3]) by (rewrite !Forall_cons; split_and!; try done; apply Forall_nil_2). assert (Hb : words [5; 7]) by (rewrite !Forall_cons; split_and!; done). split; [| reflexivity].
  apply (uint_ops_arithmetic [0xffffffff; 3] [5; 7] 0 0 Ha Hb); [reflexivity | lia | by unfold word].
Defined.

Lemma compact_roundtrip_witness : exists c t, GetCompact [0; 0; 0; 0; 0; 0x12345678; 0; 0] false = Some c /\ c = 0x18123456 /\
  SetCompact c = (t, false, false) /\ GetCompact t false = Some c.
Proof.
  assert (Ha : words [0; 0; 0; 0; 0; 0x12345678; 0; 0]) by (rewrite !Forall_cons; split_and!; try done; apply Forall_nil_2).
  destruct (compact_roundtrip [0; 0; 0; 0; 0; 0x12345678; 0; 0] Ha eq_refl) as (c & t & H1 & H2 & _ & _ & _ & _ & H3).
  exists c, t. split; [exact H1 |]. split; [vm_compute in H1; by injection H1 as <- | by split].
Defined.
