(* ===== verification/Calendar.v ===== *)
(** The C library's calendar ([struct tm], [gmtime], [timegm], [strftime]) as
    [betting/bet.cpp] uses it: the proleptic Gregorian calendar in UTC, with
    [timegm]'s normalisation of out-of-range fields. Day 0 is 1970-01-01. *)

From Stdlib Require Import ZArith Lia.
From stdpp Require Import base tactics list numbers strings.
From S2P Require Import Prelude CString.

(** ** The Gregorian calendar *)

Definition leap (y : Z) : bool :=
  (y `mod` 4 =? 0) && (negb (y `mod` 100 =? 0) || (y `mod` 400 =? 0)).

Definition days_in_month (y m : Z) : Z :=
  if m =? 2 then (if leap y then 29 else 28)
  else if (m =? 4) || (m =? 6) || (m =? 9) || (m =? 11) then 30 else 31.

(** Leap years before year [y]. *)
Definition leaps_before (y : Z) : Z := (y - 1) / 4 - (y - 1) / 100 + (y - 1) / 400.

Definition cum_days : list Z := [0; 31; 59; 90; 120; 151; 181; 212; 243; 273; 304; 334].

Definition days_from_civil (y m d : Z) : Z :=
  365 * (y - 1970) + (leaps_before y - leaps_before 1970) +
  idx cum_days (m - 1) + (if (2 <? m) && leap y then 1 else 0) + (d - 1).

(** The date of a day inside a 400-year era that starts on a March 1st. *)
Definition civil_of_doe (doe : Z) : Z * Z * Z :=
  let yoe := (doe - doe / 1460 + doe / 36524 - doe / 146096) / 365 in
  let doy := doe - (365 * yoe + yoe / 4 - yoe / 100) in
  let mp := (5 * doy + 2) / 153 in
  let d := doy - (153 * mp + 2) / 5 + 1 in
  let m := if mp <? 10 then mp + 3 else mp - 9 in
  (if m <=? 2 then yoe + 1 else yoe, m, d).

Definition civil_from_days (z : Z) : Z * Z * Z :=
  let z := z + 719468 in
  let '(y, m, d) := civil_of_doe (z `mod` 146097) in
  (y + 400 * (z / 146097), m, d).

Definition weekday (z : Z) : Z := (z + 4) `mod` 7.

(** ** [struct tm] *)

Record tm := mkTm {
  tm_sec : Z; tm_min : Z; tm_hour : Z; tm_mday : Z; tm_mon : Z; tm_year : Z; tm_wday : Z }.

Definition gmtime (t : Z) : tm :=
  let days := t / 86400 in
  let sod := t `mod` 86400 in
  let '(y, m, d) := civil_from_days days in
  {| tm_sec := sod `mod` 60; tm_min := (sod / 60) `mod` 60; tm_hour := sod / 3600;
     tm_mday := d; tm_mon := m - 1; tm_year := y - 1900; tm_wday := weekday days |}.

(** [timegm] returns the time and leaves the structure normalised. *)
Definition timegm (w : tm) : Z * tm :=
  let y := tm_year w + 1900 + tm_mon w / 12 in
  let m := tm_mon w `mod` 12 + 1 in
  let t := 86400 * days_from_civil y m (tm_mday w) +
           3600 * tm_hour w + 60 * tm_min w + tm_sec w in
  (t, gmtime t).

(** [strftime] with ["%Y-%m-%d"] and with ["%Y%m%d"]. *)
Definition strftime_dashed (w : tm) : bytes :=
  to_string (tm_year w + 1900) ++ str "-" ++ fmt0 2 (tm_mon w + 1) ++ str "-" ++ fmt0 2 (tm_mday w).
Definition strftime_plain (w : tm) : bytes :=
  to_string (tm_year w + 1900) ++ fmt0 2 (tm_mon w + 1) ++ fmt0 2 (tm_mday w).

(** ** The calendar functions are inverse *)

Definition valid_date (y m d : Z) : Prop := 1 <= m <= 12 /\ 1 <= d <= days_in_month y m.

(** The month and day of a day of a year that starts on March 1st. *)
Definition month_day (doy : Z) : Z * Z :=
  let mp := (5 * doy + 2) / 153 in
  (if mp <? 10 then mp + 3 else mp - 9, doy - (153 * mp + 2) / 5 + 1).

Definition check_doy (doy : Z) : bool :=
  let '(m, d) := month_day doy in
  (1 <=? m) && (m <=? 12) && (1 <=? d) &&
  (if m <=? 2 then idx cum_days (m - 1) + d =? doy - 305
   else idx cum_days (m - 1) + d =? doy + 60) &&
  (if m =? 2 then (d <=? 28) || ((d =? 29) && (doy =? 365))
   else d <=? days_in_month 0 m).

Lemma check_doy_all doy : 0 <= doy <= 365 -> check_doy doy = true.
Proof.
  intros. apply (all_below_spec check_doy 366 0); [| lia]. vm_compute. reflexivity.
Qed.

(** The year of the era and the day of that year. *)
Lemma year_of_era doe :
  0 <= doe < 146097 ->
  let yoe := (doe - doe / 1460 + doe / 36524 - doe / 146096) / 365 in
  let doy := doe - (365 * yoe + yoe / 4 - yoe / 100) in
  0 <= yoe < 400 /\ 0 <= doy <= 365 /\
  (doy = 365 -> (yoe + 1) `mod` 4 = 0 /\ ((yoe + 1) `mod` 100 <> 0 \/ yoe = 399)).
Proof.
  intros H yoe doy. unfold doy, yoe. clear doy yoe.
  Z.div_mod_to_equations. lia.
Qed.

(** Leap days up to and including year [y]. *)
Lemma leaps_upto y : leaps_before y + (if leap y then 1 else 0) = y / 4 - y / 100 + y / 400.
Proof.
  unfold leaps_before, leap.
  destruct (y `mod` 4 =? 0) eqn:E4, (y `mod` 100 =? 0) eqn:E1, (y `mod` 400 =? 0) eqn:E3;
    cbn [andb orb negb]; bprop; Z.div_mod_to_equations; lia.
Qed.

Lemma civil_of_doe_spec doe :
  0 <= doe < 146097 ->
  let '(y, m, d) := civil_of_doe doe in
  days_from_civil y m d = doe - 719468 /\ valid_date y m d.
Proof.
  intros H. pose proof (year_of_era doe H) as Hy. unfold civil_of_doe. cbv zeta in Hy.
  set (yoe := _ / 365) in *. set (doy := doe - (365 * yoe + yoe / 4 - yoe / 100)) in *.
  destruct Hy as (Hyoe & Hdoy & Hlast).
  pose proof (check_doy_all doy Hdoy) as Hc. unfold check_doy, month_day in Hc.
  set (mp := (5 * doy + 2) / 153) in *. cbv zeta.
  set (m := if mp <? 10 then mp + 3 else mp - 9) in *. clearbody m.
  set (d := doy - (153 * mp + 2) / 5 + 1) in *. clearbody d. clear mp.
  assert (Hdoe : doe = 365 * yoe + yoe / 4 - yoe / 100 + doy) by (unfold doy; lia).
  assert (yoe / 400 = 0) by (apply Z.div_small; lia). clearbody yoe doy.
  apply andb_true_iff in Hc as [Hc Hlen]. apply andb_true_iff in Hc as [Hc Hcum]. bprop.
  destruct (m <=? 2) eqn:Em; bprop.
  - assert (Hl : leaps_before (yoe + 1) = yoe / 4 - yoe / 100 + yoe / 400)
      by (unfold leaps_before; replace (yoe + 1 - 1) with yoe by lia; done).
    split.
    + unfold days_from_civil. rewrite Hl. change (leaps_before 1970) with 477.
      destruct (2 <? m) eqn:E2; bprop; [lia |]. cbn [andb]. lia.
    + unfold valid_date, days_in_month in *. split; [lia |]. split; [lia |].
      destruct (m =? 2) eqn:E2; [| by bprop].
      apply orb_true_iff in Hlen as [Hlen | Hlen]; bprop.
      * destruct (leap _); lia.
      * subst doy. destruct (Hlast eq_refl) as [Hm4 H100].
        assert (leap (yoe + 1) = true) as ->; [| lia].
        unfold leap. rewrite Hm4. cbn [andb Z.eqb].
        destruct H100 as [H100 | ->]; [| done].
        destruct (_ `mod` 100 =? 0) eqn:E3; bprop; [lia | done].
  - pose proof (leaps_upto yoe) as Hl. split.
    + unfold days_from_civil. change (leaps_before 1970) with 477.
      destruct (2 <? m) eqn:E2; bprop; [| lia]. cbn [andb]. lia.
    + unfold valid_date, days_in_month in *. split; [lia |]. split; [lia |].
      destruct (m =? 2) eqn:E2; [bprop; lia | by bprop].
Qed.

Lemma leap_shift y k : leap (y + 400 * k) = leap y.
Proof.
  unfold leap.
  replace (y + 400 * k) with (y + (100 * k) * 4) at 1 by lia. rewrite Z.mod_add by lia.
  replace (y + 400 * k) with (y + (4 * k) * 100) at 1 by lia. rewrite Z.mod_add by lia.
  replace (y + 400 * k) with (y + k * 400) by lia. by rewrite Z.mod_add by lia.
Qed.

Lemma days_from_civil_shift y m d k :
  days_from_civil (y + 400 * k) m d = days_from_civil y m d + 146097 * k.
Proof.
  unfold days_from_civil, leaps_before. rewrite leap_shift.
  replace (y + 400 * k - 1) with (y - 1 + (100 * k) * 4) at 1 by lia.
  replace (y + 400 * k - 1) with (y - 1 + (4 * k) * 100) at 1 by lia.
  replace (y + 400 * k - 1) with (y - 1 + k * 400) by lia.
  rewrite !Z.div_add by lia. lia.
Qed.

Lemma days_from_civil_add y m d k :
  days_from_civil y m (d + k) = days_from_civil y m d + k.
Proof. unfold days_from_civil. lia. Qed.

Lemma civil_from_days_spec z :
  let '(y, m, d) := civil_from_days z in days_from_civil y m d = z /\ valid_date y m d.
Proof.
  unfold civil_from_days.
  pose proof (civil_of_doe_spec ((z + 719468) `mod` 146097)) as H.
  specialize (H ltac:(apply Z.mod_pos_bound; lia)).
  destruct (civil_of_doe _) as [[y m] d]. destruct H as [H Hv].
  rewrite days_from_civil_shift. split.
  - pose proof (Z.div_mod (z + 719468) 146097). lia.
  - unfold valid_date, days_in_month in *. by rewrite leap_shift.
Qed.

(** Shifting the day of the month and setting the time of day moves
    [timegm] by whole days. *)
Lemma timegm_gmtime_shift t k h mi s wd :
  let w := gmtime t in
  fst (timegm {| tm_sec := s; tm_min := mi; tm_hour := h; tm_mday := tm_mday w + k;
                 tm_mon := tm_mon w; tm_year := tm_year w; tm_wday := wd |})
  = 86400 * (t / 86400 + k) + 3600 * h + 60 * mi + s.
Proof.
  unfold gmtime, timegm. pose proof (civil_from_days_spec (t / 86400)) as H.
  destruct (civil_from_days (t / 86400)) as [[y m] d]. cbn.
  destruct H as [H [Hm _]].
  rewrite (Z.div_small (m - 1)) by lia. rewrite (Z.mod_small (m - 1)) by lia.
  rewrite days_from_civil_add.
  replace (y - 1900 + 1900 + 0) with y by lia. replace (m - 1 + 1) with m by lia.
  rewrite H. lia.
Qed.

(** [timegm] undoes [gmtime]. *)
Lemma timegm_gmtime t : fst (timegm (gmtime t)) = t.
Proof.
  pose proof (timegm_gmtime_shift t 0 (tm_hour (gmtime t)) (tm_min (gmtime t))
    (tm_sec (gmtime t)) (tm_wday (gmtime t))) as H. cbv zeta in H.
  rewrite Z.add_0_r in H. destruct (gmtime t) eqn:E. cbn [tm_mday tm_mon tm_year tm_hour
    tm_min tm_sec tm_wday] in H. rewrite H.
  unfold gmtime in E. destruct (civil_from_days _) as [[y m] d]. injection E as <- <- <- _ _ _ _.
  pose proof (Z.div_mod t 86400). set (x := t `mod` 86400) in *.
  pose proof (Z.div_mod x 60). pose proof (Z.div_mod (x / 60) 60).
  assert (x / 3600 = x / 60 / 60) by (rewrite Z.div_div by lia; done). lia.
Qed.

(** The structure [timegm] leaves behind is the broken-down result, so a
    second call returns the same time. *)
Lemma timegm_snd w : snd (timegm w) = gmtime (fst (timegm w)).
Proof. reflexivity. Qed.

Lemma timegm_twice w : fst (timegm (snd (timegm w))) = fst (timegm w).
Proof. rewrite timegm_snd. apply timegm_gmtime. Qed.

(** ** Dates are determined by their day number *)

Definition year_start (y : Z) : Z := 365 * (y - 1970) + (leaps_before y - leaps_before 1970).
Definition day_of_year (y m d : Z) : Z :=
  idx cum_days (m - 1) + (if (2 <? m) && leap y then 1 else 0) + (d - 1).

Lemma days_from_civil_split y m d : days_from_civil y m d = year_start y + day_of_year y m d.
Proof. unfold days_from_civil, year_start, day_of_year. lia. Qed.

Lemma leaps_before_succ y : leaps_before (y + 1) = leaps_before y + (if leap y then 1 else 0).
Proof. rewrite leaps_upto. unfold leaps_before. by replace (y + 1 - 1) with y by lia. Qed.

Lemma year_start_mono y y' : y < y' ->
  year_start y + 365 + (if leap y then 1 else 0) <= year_start y'.
Proof.
  intros H. unfold year_start. pose proof (leaps_before_succ y).
  assert (leaps_before (y + 1) + 365 * (y + 1) <= leaps_before y' + 365 * y'); [| lia].
  unfold leaps_before. clear -H. Z.div_mod_to_equations. lia.
Qed.

Ltac month_cases m :=
  let H := fresh in
  assert (H : m = 1 \/ m = 2 \/ m = 3 \/ m = 4 \/ m = 5 \/ m = 6 \/ m = 7 \/ m = 8 \/ m = 9 \/
          m = 10 \/ m = 11 \/ m = 12) by lia;
  repeat destruct H as [H | H]; subst m.

(** Evaluate the table lookups and comparisons of a concrete month. *)
Ltac ev_closed t := let v := eval vm_compute in t in progress change t with v in *.
Ltac ev_month :=
  repeat match goal with
  | |- context [idx cum_days ?e] => ev_closed (idx cum_days e)
  | H : context [idx cum_days ?e] |- _ => ev_closed (idx cum_days e)
  | |- context [Zpos ?a - Zpos ?b =? ?c] => ev_closed (Zpos a - Zpos b =? c)
  | H : context [Zpos ?a - Zpos ?b =? ?c] |- _ => ev_closed (Zpos a - Zpos b =? c)
  | |- context [Zpos ?a =? Zpos ?b] => ev_closed (Zpos a =? Zpos b)
  | H : context [Zpos ?a =? Zpos ?b] |- _ => ev_closed (Zpos a =? Zpos b)
  | |- context [Zpos ?a <? Zpos ?b] => ev_closed (Zpos a <? Zpos b)
  | H : context [Zpos ?a <? Zpos ?b] |- _ => ev_closed (Zpos a <? Zpos b)
  | |- context [2 <? Zpos ?a - Zpos ?b] => ev_closed (2 <? Zpos a - Zpos b)
  end; cbn [andb orb] in *.

Lemma day_of_year_range y m d : valid_date y m d ->
  0 <= day_of_year y m d < 365 + (if leap y then 1 else 0).
Proof.
  intros [Hm Hd]. unfold day_of_year, days_in_month in *.
  month_cases m; ev_month; destruct (leap y); lia.
Qed.

Lemma day_of_year_inj y m d m' d' : valid_date y m d -> valid_date y m' d' ->
  day_of_year y m d = day_of_year y m' d' -> m = m' /\ d = d'.
Proof.
  intros [Hm Hd] [Hm' Hd']. unfold day_of_year, days_in_month in *.
  month_cases m; month_cases m'; ev_month; destruct (leap y); lia.
Qed.

Lemma days_from_civil_inj y m d y' m' d' :
  valid_date y m d -> valid_date y' m' d' ->
  days_from_civil y m d = days_from_civil y' m' d' -> (y, m, d) = (y', m', d').
Proof.
  intros V V'. rewrite !days_from_civil_split. intros H.
  pose proof (day_of_year_range _ _ _ V). pose proof (day_of_year_range _ _ _ V').
  assert (y = y') as <-.
  { destruct (Z.lt_trichotomy y y') as [Hlt | [-> | Hlt]]; [| done |];
      pose proof (year_start_mono _ _ Hlt); lia. }
  destruct (day_of_year_inj y m d m' d') as [-> ->]; [done | done | lia | done].
Qed.

Lemma civil_from_days_unique z y m d :
  valid_date y m d -> days_from_civil y m d = z -> civil_from_days z = (y, m, d).
Proof.
  intros V H. pose proof (civil_from_days_spec z) as Hs.
  destruct (civil_from_days z) as [[y' m'] d']. destruct Hs as [H' V'].
  apply days_from_civil_inj; [done | done | congruence].
Qed.

(** The calendar's previous day. *)
Definition prev_civil (y m d : Z) : Z * Z * Z :=
  if 1 <? d then (y, m, d - 1)
  else if 1 <? m then (y, m - 1, days_in_month y (m - 1))
  else (y - 1, 12, 31).

Lemma prev_civil_spec z y m d :
  civil_from_days z = (y, m, d) -> civil_from_days (z - 1) = prev_civil y m d.
Proof.
  intros H. pose proof (civil_from_days_spec z) as Hs. rewrite H in Hs.
  destruct Hs as [Hz V]. pose proof V as [Hm Hd]. unfold prev_civil.
  destruct (1 <? d) eqn:E; bprop.
  { apply civil_from_days_unique; [unfold valid_date in *; lia |].
    pose proof (days_from_civil_add y m d (-1)). replace (d - 1) with (d + -1) by lia. lia. }
  assert (d = 1) as -> by lia. destruct (1 <? m) eqn:E1; bprop.
  - apply civil_from_days_unique.
    + unfold valid_date, days_in_month in *. month_cases m; ev_month; destruct (leap y); lia.
    + rewrite days_from_civil_split in *. unfold day_of_year, days_in_month in *.
      month_cases m; ev_month; destruct (leap y); lia.
  - assert (m = 1) as -> by lia. apply civil_from_days_unique; [by vm_compute |].
    rewrite days_from_civil_split in *. unfold year_start, day_of_year in *.
    pose proof (leaps_before_succ (y - 1)) as Hl. replace (y - 1 + 1) with y in Hl by lia.
    ev_month. destruct (leap (y - 1)); lia.
Qed.
