(* ===== verification/DrawTime.v ===== *)
(** The lottery's draw schedule: [lastdrawtime], [lastdrawdate],
    [nextdrawtime], [nextdrawdate] of [betting/bet.cpp], and the date the
    results files are searched for ([GetBetPayouts] turns the UTC date of the
    last draw into the American date by string surgery). *)

From Stdlib Require Import ZArith Lia.
From stdpp Require Import base tactics list numbers strings.
From S2P Require Import Prelude CString Calendar.

(** ** The operations *)

(** The chain of [tm_mday] adjustments [lastdrawtime] and [lastdrawdate]
    share. *)
Definition lastdraw_mday (w : tm) : Z :=
  let before := (tm_hour w <? 2) || ((tm_hour w =? 2) && (tm_min w <? 59)) in
  if (tm_wday w =? 0) && before then tm_mday w - 3
  else if (tm_wday w =? 4) && before then tm_mday w - 4
  else if (0 <=? tm_wday w) && (tm_wday w <=? 3) then tm_mday w - tm_wday w
  else if (4 <=? tm_wday w) && (tm_wday w <=? 6) then tm_mday w - (tm_wday w - 4)
  else tm_mday w.

(** The broken-down time both functions hand to [timegm]. *)
Definition lastdraw_tm (blockTime : Z) : tm :=
  let l := gmtime blockTime in
  {| tm_sec := 0; tm_min := 59; tm_hour := 2; tm_mday := lastdraw_mday l;
     tm_mon := tm_mon l; tm_year := tm_year l; tm_wday := tm_wday l |}.

(** The code calls [timegm] on the structure and then again on the normalised
    structure it left behind. *)
Definition lastdrawtime (blockTime : Z) : Z :=
  fst (timegm (snd (timegm (lastdraw_tm blockTime)))).

Definition lastdrawdate (blockTime : Z) : bytes :=
  strftime_dashed (snd (timegm (lastdraw_tm blockTime))).

Definition nextdraw_mday (w : tm) (sun thu : Z) : Z :=
  if tm_wday w =? 0 then tm_mday w + sun
  else if tm_wday w =? 4 then tm_mday w + thu
  else tm_mday w.

Definition nextdrawtime (blockTime : Z) : Z :=
  let n := gmtime (lastdrawtime blockTime) in
  fst (timegm (snd (timegm
    {| tm_sec := 0; tm_min := 59; tm_hour := 2; tm_mday := nextdraw_mday n 4 3;
       tm_mon := tm_mon n; tm_year := tm_year n; tm_wday := tm_wday n |}))).

Definition nextdrawdate (blockTime : Z) : bytes :=
  let n := gmtime (lastdrawtime blockTime) in
  strftime_plain (snd (timegm
    {| tm_sec := 0; tm_min := 59; tm_hour := 22; tm_mday := nextdraw_mday n 3 2;
       tm_mon := tm_mon n; tm_year := tm_year n; tm_wday := tm_wday n |})).

(** [GetBetPayouts] turns the UTC date of the last draw, ["YYYY-MM-DD"], into
    the date of the day before: the chain of [std::string::replace] calls on
    the date string, by the year, month and day read from it. *)
Definition adjust_date (latestDrawDate : bytes) (year month day : Z) : res cxx_exn bytes :=
  if 10 <? day then replace latestDrawDate 8 2 (to_string (day - 1))
  else if (1 <? day) && (day <=? 10) then replace latestDrawDate 9 1 (to_string (day - 1))
  else if month =? 1 then
    let* s := replace latestDrawDate 5 2 (to_string 12) in
    let* s := replace s 8 2 (to_string 31) in
    replace s 0 4 (to_string (year - 1))
  else if month =? 2 then
    let* s := replace latestDrawDate 6 1 (to_string (month - 1)) in
    replace s 8 2 (to_string 31)
  else if month =? 3 then
    let* s := replace latestDrawDate 6 1 (to_string (month - 1)) in
    replace s 8 2 (if Z.rem year 4 =? 0 then to_string 29 else to_string 28)
  else if (month =? 5) || (month =? 7) || (month =? 10) then
    let* s := replace latestDrawDate 6 1 (to_string (month - 1)) in
    replace s 8 2 (to_string 30)
  else if month =? 11 then
    let* s := replace latestDrawDate 5 2 (to_string (month - 1)) in
    replace s 8 2 (to_string 31)
  else if month =? 12 then
    let* s := replace latestDrawDate 5 2 (to_string (month - 1)) in
    replace s 8 2 (to_string 30)
  else
    let* s := replace latestDrawDate 6 1 (to_string (month - 1)) in
    replace s 8 2 (to_string 31).

Definition previous_date (latestDrawDate : bytes) : res cxx_exn bytes :=
  let* ys := substr latestDrawDate 0 4 in
  let* year := stoi ys in
  let* ms := substr latestDrawDate 5 2 in
  let* month := stoi ms in
  let* ds := substr latestDrawDate 8 2 in
  let* day := stoi ds in
  adjust_date latestDrawDate year month day.

(** ** Specification: the draw instants

    Draws are held on Sundays and Thursdays at 02:59:00 UTC. *)

Definition is_draw (t : Z) : Prop :=
  t `mod` 86400 = 10740 /\ (weekday (t / 86400) = 0 \/ weekday (t / 86400) = 4).

(** The dates the two formatting functions print. *)
Definition dashed_of_day (z : Z) : bytes := strftime_dashed (gmtime (86400 * z)).
Definition plain_of_day (z : Z) : bytes := strftime_plain (gmtime (86400 * z)).

(** ** Lemmas *)

Lemma gmtime_wday t : tm_wday (gmtime t) = weekday (t / 86400).
Proof. unfold gmtime. by destruct (civil_from_days _) as [[y m] d]. Qed.

Lemma gmtime_before t :
  let w := gmtime t in
  (tm_hour w <? 2) || ((tm_hour w =? 2) && (tm_min w <? 59)) = (t `mod` 86400 <? 10740).
Proof.
  unfold gmtime. destruct (civil_from_days _) as [[y m] d]. cbn [tm_hour tm_min].
  pose proof (Z.mod_pos_bound t 86400 ltac:(lia)). set (x := t `mod` 86400) in *. clearbody x.
  destruct (x <? 10740) eqn:E; bprop.
  - apply orb_true_iff. destruct (x / 3600 <? 2) eqn:E1; bprop; [by left |]. right.
    apply andb_true_iff. split; [apply Z.eqb_eq | apply Z.ltb_lt]; Z.div_mod_to_equations; lia.
  - apply orb_false_iff. split; [apply Z.ltb_ge; Z.div_mod_to_equations; lia |].
    apply andb_false_iff. destruct (x / 3600 =? 2) eqn:E1; bprop; [right | by left].
    apply Z.ltb_ge. Z.div_mod_to_equations. lia.
Qed.

(** Days to go back from a time to the last draw day. *)
Definition back_days (t : Z) : Z :=
  let wd := weekday (t / 86400) in
  let before := t `mod` 86400 <? 10740 in
  if (wd =? 0) && before then 3
  else if (wd =? 4) && before then 4
  else if wd <=? 3 then wd else wd - 4.

Lemma weekday_range z : 0 <= weekday z < 7.
Proof. apply Z.mod_pos_bound. lia. Qed.

Lemma lastdraw_mday_back t : lastdraw_mday (gmtime t) = tm_mday (gmtime t) + - back_days t.
Proof.
  unfold lastdraw_mday, back_days. rewrite gmtime_before, gmtime_wday.
  pose proof (weekday_range (t / 86400)).
  set (wd := weekday (t / 86400)) in *. clearbody wd.
  destruct (_ && _); [lia |]. destruct (_ && _); [lia |].
  destruct (0 <=? wd) eqn:E0; bprop; [| lia].
  destruct (wd <=? 3) eqn:E1; cbn [andb]; [lia |].
  destruct (4 <=? wd) eqn:E2, (wd <=? 6) eqn:E3; bprop; cbn [andb]; lia.
Qed.

Lemma lastdrawtime_days t : lastdrawtime t = 86400 * (t / 86400 - back_days t) + 10740.
Proof.
  unfold lastdrawtime. rewrite timegm_twice. unfold lastdraw_tm. rewrite lastdraw_mday_back.
  pose proof (timegm_gmtime_shift t (- back_days t) 2 59 0 (tm_wday (gmtime t))) as H.
  cbv zeta in H. rewrite H. lia.
Qed.

Lemma day_time q r : 0 <= r < 86400 -> (86400 * q + r) / 86400 = q /\ (86400 * q + r) `mod` 86400 = r.
Proof.
  intros. rewrite Z.mul_comm, Z.add_comm. rewrite Z.div_add, Z.mod_add by lia.
  by rewrite Z.div_small, Z.mod_small by lia.
Qed.

Lemma lastdrawtime_day t : lastdrawtime t / 86400 = t / 86400 - back_days t.
Proof. rewrite lastdrawtime_days. by apply day_time. Qed.

Lemma weekday_lastdraw t : weekday (t / 86400 - back_days t) = 0 \/ weekday (t / 86400 - back_days t) = 4.
Proof.
  unfold back_days, weekday. set (z := t / 86400). clearbody z.
  pose proof (Z.mod_pos_bound (z + 4) 7 ltac:(lia)).
  pose proof (Z.div_mod (z + 4) 7 ltac:(lia)).
  set (q := (z + 4) / 7) in *. set (w := (z + 4) `mod` 7) in *. clearbody q w.
  destruct ((w =? 0) && _) eqn:E1; bprop; [right; Z.div_mod_to_equations; lia |].
  destruct ((w =? 4) && _) eqn:E2; bprop; [left; Z.div_mod_to_equations; lia |].
  destruct (w <=? 3) eqn:E3; bprop; [left | right]; Z.div_mod_to_equations; lia.
Qed.

Lemma is_draw_days d q : d = 86400 * q + 10740 -> (weekday q = 0 \/ weekday q = 4) -> is_draw d.
Proof.
  intros -> Hw. unfold is_draw. destruct (day_time q 10740) as [-> ->]; [lia | done].
Qed.

Lemma is_draw_inv d : is_draw d -> exists q, d = 86400 * q + 10740 /\ (weekday q = 0 \/ weekday q = 4).
Proof.
  intros [H1 H2]. exists (d / 86400). split; [| done].
  pose proof (Z.div_mod d 86400). lia.
Qed.

Lemma lastdraw_le t : lastdrawtime t <= t.
Proof.
  rewrite lastdrawtime_days. unfold back_days.
  pose proof (Z.div_mod t 86400 ltac:(lia)). pose proof (Z.mod_pos_bound t 86400 ltac:(lia)).
  pose proof (weekday_range (t / 86400)).
  set (wd := weekday _) in *. clearbody wd. set (z := t / 86400) in *. clearbody z.
  set (r := t `mod` 86400) in *. clearbody r.
  destruct (wd =? 0) eqn:E0, (wd =? 4) eqn:E4, (r <? 10740) eqn:Er, (wd <=? 3) eqn:E3;
    bprop; cbn [andb]; lia.
Qed.

Lemma lastdraw_max t d : is_draw d -> d <= t -> d <= lastdrawtime t.
Proof.
  intros (q & -> & Hw)%is_draw_inv Hd. rewrite lastdrawtime_days. unfold back_days.
  pose proof (Z.div_mod t 86400 ltac:(lia)). pose proof (Z.mod_pos_bound t 86400 ltac:(lia)).
  set (z := t / 86400) in *. clearbody z. set (r := t `mod` 86400) in *. clearbody r.
  unfold weekday in *.
  destruct ((z + 4) `mod` 7 =? 0) eqn:E0, ((z + 4) `mod` 7 =? 4) eqn:E4,
    (r <? 10740) eqn:Er, ((z + 4) `mod` 7 <=? 3) eqn:E3;
    bprop; cbn [andb]; Z.div_mod_to_equations; lia.
Qed.

Lemma lastdraw_is_draw t : is_draw (lastdrawtime t).
Proof. eapply is_draw_days; [apply lastdrawtime_days | apply weekday_lastdraw]. Qed.

(** [lastdrawtime t] is the latest draw instant that is not after [t]. *)
Theorem lastdrawtime_latest (t : Z) :
  is_draw (lastdrawtime t) /\ lastdrawtime t <= t /\
  (forall d, is_draw d -> d <= t -> d <= lastdrawtime t).
Proof. auto using lastdraw_is_draw, lastdraw_le, lastdraw_max. Qed.

(** Days from a draw day to the next one. *)
Definition gap_days (q : Z) : Z := if weekday q =? 0 then 4 else 3.

Lemma nextdraw_mday_gap t k k' :
  nextdraw_mday (gmtime (lastdrawtime t)) k k'
  = tm_mday (gmtime (lastdrawtime t)) + (if weekday (lastdrawtime t / 86400) =? 0 then k else k').
Proof.
  unfold nextdraw_mday. rewrite gmtime_wday, lastdrawtime_day.
  destruct (weekday_lastdraw t) as [-> | ->]; done.
Qed.

Lemma nextdrawtime_days t :
  nextdrawtime t = 86400 * (lastdrawtime t / 86400 + gap_days (lastdrawtime t / 86400)) + 10740.
Proof.
  unfold nextdrawtime. rewrite timegm_twice, nextdraw_mday_gap.
  unfold gap_days. generalize (lastdrawtime t) as l. intros l.
  generalize (if weekday (l / 86400) =? 0 then 4 else 3) as k. intros k.
  pose proof (timegm_gmtime_shift l k 2 59 0 (tm_wday (gmtime l))) as H.
  cbv zeta in H. rewrite H. lia.
Qed.

Lemma gap_is_draw q : weekday q = 0 \/ weekday q = 4 ->
  weekday (q + gap_days q) = 0 \/ weekday (q + gap_days q) = 4.
Proof.
  unfold gap_days, weekday. intros [H | H]; rewrite H; cbn [Z.eqb]; Z.div_mod_to_equations; lia.
Qed.

Lemma gap_next q q' : (weekday q = 0 \/ weekday q = 4) -> (weekday q' = 0 \/ weekday q' = 4) ->
  q < q' -> q + gap_days q <= q'.
Proof.
  unfold gap_days, weekday. intros [H | H] Hq' Hlt; rewrite H; cbn [Z.eqb];
    Z.div_mod_to_equations; lia.
Qed.

Lemma nextdraw_gt_last t : lastdrawtime t < nextdrawtime t.
Proof.
  rewrite nextdrawtime_days. unfold gap_days.
  rewrite (lastdrawtime_day t), (lastdrawtime_days t).
  destruct (weekday _ =? 0); lia.
Qed.

Lemma nextdraw_is_draw t : is_draw (nextdrawtime t).
Proof.
  eapply is_draw_days; [apply nextdrawtime_days |]. apply gap_is_draw.
  rewrite lastdrawtime_day. apply weekday_lastdraw.
Qed.

(** [nextdrawtime t] is the earliest draw instant after [t]. *)
Theorem nextdrawtime_earliest (t : Z) :
  is_draw (nextdrawtime t) /\ t < nextdrawtime t /\
  (forall d, is_draw d -> t < d -> nextdrawtime t <= d).
Proof.
  pose proof (nextdraw_is_draw t) as Hn. pose proof (nextdraw_gt_last t).
  split; [done |]. split.
  - destruct (decide (t < nextdrawtime t)) as [| Hge]; [done |].
    pose proof (lastdraw_max t (nextdrawtime t) Hn ltac:(lia)). lia.
  - intros d (q & -> & Hw)%is_draw_inv Hd. pose proof (lastdraw_le t).
    rewrite nextdrawtime_days.
    pose proof (gap_next (lastdrawtime t / 86400) q) as Hg.
    rewrite (lastdrawtime_day t) in *. rewrite (lastdrawtime_days t) in *.
    specialize (Hg (weekday_lastdraw t) Hw). lia.
Qed.

(** ** The printed dates *)

Lemma gmtime_date t z : t / 86400 = z ->
  tm_year (gmtime t) = tm_year (gmtime (86400 * z)) /\
  tm_mon (gmtime t) = tm_mon (gmtime (86400 * z)) /\
  tm_mday (gmtime t) = tm_mday (gmtime (86400 * z)).
Proof.
  intros <-. unfold gmtime. rewrite (Z.mul_comm 86400), Z.div_mul by lia.
  by destruct (civil_from_days _) as [[y m] d].
Qed.

(** the dates printed are those of the draws: [lastdrawdate] prints the
    UTC date of the last draw, and [nextdrawdate], whose draw is at 22:59 the
    evening before in America, prints the day before the UTC date of the
    next draw. *)
Theorem drawdates_agree (t : Z) :
  lastdrawdate t = dashed_of_day (lastdrawtime t / 86400) /\
  nextdrawdate t = plain_of_day (nextdrawtime t / 86400 - 1).
Proof.
  split.
  - unfold lastdrawdate, dashed_of_day, strftime_dashed. rewrite timegm_snd.
    assert (Hl : fst (timegm (lastdraw_tm t)) = lastdrawtime t)
      by (unfold lastdrawtime; by rewrite timegm_twice).
    rewrite Hl. by destruct (gmtime_date (lastdrawtime t) _ eq_refl) as (-> & -> & ->).
  - unfold nextdrawdate, plain_of_day, strftime_plain. rewrite timegm_snd, nextdraw_mday_gap.
    rewrite nextdrawtime_days. generalize (lastdrawtime t) as l. intros l.
    destruct (day_time (l / 86400 + gap_days (l / 86400)) 10740) as [-> _]; [lia |].
    remember (if weekday (l / 86400) =? 0 then 3 else 2) as k eqn:Hk.
    replace (l / 86400 + gap_days (l / 86400) - 1) with (l / 86400 + k)
      by (subst k; unfold gap_days; destruct (weekday _ =? 0); lia).
    pose proof (timegm_gmtime_shift l k 22 59 0 (tm_wday (gmtime l))) as H. cbv zeta in H. rewrite H.
    destruct (day_time (l / 86400 + k) 82740) as [Hd _]; [lia |].
    replace (86400 * (l / 86400 + k) + 3600 * 22 + 60 * 59 + 0)
      with (86400 * (l / 86400 + k) + 82740) by lia.
    by destruct (gmtime_date _ _ Hd) as (-> & -> & ->).
Qed.

(** ** The date the results files are searched for *)

Definition dashed (ys : bytes) (m d : Z) : bytes := ys ++ str "-" ++ fmt0 2 m ++ str "-" ++ fmt0 2 d.

Lemma dashed_of_day_civil z y m d :
  civil_from_days z = (y, m, d) -> dashed_of_day z = dashed (to_string y) m d.
Proof.
  intros H. unfold dashed_of_day, strftime_dashed, gmtime.
  rewrite (Z.mul_comm 86400), Z.div_mul by lia. rewrite H. cbn [tm_year tm_mon tm_mday].
  unfold dashed. by replace (y - 1900 + 1900) with y by lia; replace (m - 1 + 1) with m by lia.
Qed.

(** A four-digit year prints as four characters and reads back. *)
Lemma year_string y : 1000 <= y <= 9999 ->
  exists a b c e, to_string y = [a; b; c; e] /\ stoi [a; b; c; e] = Ok y.
Proof.
  intros Hy. unfold to_string. destruct (y <? 0) eqn:E; bprop; [lia | clear E].
  pose proof (dec_nonneg_length 4 y ltac:(lia) ltac:(cbn; lia)) as Hle.
  pose proof (dec_nonneg_digits y ltac:(lia)) as Hd.
  pose proof (digits_val_bound _ Hd) as Hb. rewrite dec_nonneg_val in Hb by lia.
  assert (Hge : (4 <= length (dec_nonneg y))%nat).
  { destruct (decide (4 <= length (dec_nonneg y))%nat) as [| Hlt]; [done |]. exfalso.
    assert (10 ^ zlen (dec_nonneg y) <= 10 ^ 3) by (apply Z.pow_le_mono_r; unfold zlen; lia). lia. }
  pose proof (strtoll_digits (dec_nonneg y) [] Hd (dec_nonneg_nonnil y)) as Hs.
  rewrite dec_nonneg_val, app_nil_r in Hs by lia.
  specialize (Hs ltac:(lia) ltac:(lia) I).
  destruct (dec_nonneg y) as [| a [| b [| c [| e [| ? ?]]]]] eqn:Ey; cbn in Hle, Hge; try lia.
  exists a, b, c, e. split; [done |]. unfold stoi. rewrite Hs. cbn [sto_conv sto_erange sto_val negb orb].
  destruct (y <? - 2 ^ 31) eqn:E1; bprop; [lia |]. destruct (2 ^ 31 <=? y) eqn:E2; bprop; [lia |]. done.
Qed.

Lemma previous_date_parts a b c e p q u v y m d :
  stoi [a; b; c; e] = Ok y -> stoi [p; q] = Ok m -> stoi [u; v] = Ok d ->
  previous_date [a; b; c; e; 45; p; q; 45; u; v]
  = adjust_date [a; b; c; e; 45; p; q; 45; u; v] y m d.
Proof.
  intros Hy Hm Hd. unfold previous_date.
  change (substr _ 0 4) with (@Ok cxx_exn _ [a; b; c; e]).
  change (substr _ 5 2) with (@Ok cxx_exn _ [p; q]).
  change (substr _ 8 2) with (@Ok cxx_exn _ [u; v]).
  cbn [res_bind]. rewrite Hy. cbn [res_bind]. rewrite Hm. cbn [res_bind]. rewrite Hd. done.
Qed.

(** Two-digit fields print as two characters and read back. *)
Definition two_digits_ok (n : Z) : bool :=
  match fmt0 2 n with
  | [p; q] => match stoi [p; q] with Ok v => v =? n | Err _ => false end
  | _ => false
  end.

Lemma two_digits n : 0 <= n < 100 -> exists p q, fmt0 2 n = [p; q] /\ stoi [p; q] = Ok n.
Proof.
  intros Hn. pose proof (all_below_spec two_digits_ok 100 0 eq_refl n ltac:(lia)) as H.
  unfold two_digits_ok in H. destruct (fmt0 2 n) as [| p [| q [| ? ?]]]; try done.
  exists p, q. split; [done |]. destruct (stoi [p; q]) as [v |]; [| done]. bprop. by subst.
Qed.

(** The day arm of [adjust_date], for every day of the month but the first:
    the string it builds is right except on the 10th. *)
Definition day_arm_ok (d : Z) : bool :=
  match fmt0 2 d with
  | [u; v] =>
      if 10 <? d then bool_decide (to_string (d - 1) = fmt0 2 (d - 1))
      else if d =? 10 then bool_decide (u :: to_string (d - 1) <> fmt0 2 (d - 1))
      else bool_decide (u :: to_string (d - 1) = fmt0 2 (d - 1))
  | _ => false
  end.

Lemma adjust_date_day a b c e p q y m d :
  2 <= d <= 31 ->
  (adjust_date ([a; b; c; e; 45; p; q; 45] ++ fmt0 2 d) y m d
   = Ok ([a; b; c; e; 45; p; q; 45] ++ fmt0 2 (d - 1))) <-> d <> 10.
Proof.
  intros Hd.
  pose proof (all_below_spec day_arm_ok 30 2 eq_refl d ltac:(lia)) as H.
  unfold day_arm_ok in H. unfold adjust_date.
  destruct (fmt0 2 d) as [| u [| v [| ? ?]]]; try done.
  destruct (10 <? d) eqn:E; bprop; [apply bool_decide_eq_true in H |].
  - split; [lia |]. intros _. rewrite <- H. unfold replace. cbn. by rewrite app_nil_r.
  - destruct (1 <? d) eqn:E1; bprop; [| lia]. destruct (d <=? 10) eqn:E2; bprop; [| lia].
    cbn [andb]. unfold replace. cbn. rewrite app_nil_r.
    destruct (d =? 10) eqn:E3; bprop; apply bool_decide_eq_true in H.
    + split; [intros [= Heq] | lia]. by rewrite <- Heq in H.
    + split; [done |]. intros _. by rewrite <- H.
Qed.

Lemma adjust_date_first a b c e y m :
  1 <= m <= 12 -> leap y = (Z.rem y 4 =? 0) -> to_string y = [a; b; c; e] ->
  (adjust_date (dashed [a; b; c; e] m 1) y m 1
   = Ok (let '(y', m', d') := prev_civil y m 1 in dashed (to_string y') m' d')) <-> m <> 10.
Proof.
  intros Hm Hl Hy. unfold adjust_date, prev_civil, days_in_month. rewrite Hl.
  generalize (Z.rem y 4 =? 0) as lp. intros lp.
  assert (Hy1 : forall z, z = y -> to_string z = [a; b; c; e]) by (intros ? ->; done).
  remember (to_string (y - 1)) as ty eqn:Hty.
  month_cases m; cbn [Z.ltb Z.eqb Z.compare Pos.compare Pos.compare_cont Pos.eqb andb orb];
    rewrite <- ?Hty; rewrite ?Hy; unfold dashed, replace, res_bind; vm_compute;
    try destruct lp;
    first [ split; [intros _; discriminate | intros _; reflexivity]
          | split; [intros H; discriminate H | intros H; exfalso; by apply H] ].
Qed.

(** the date [GetBetPayouts] searches the results files for is the day
    before the UTC date of the last draw on every day of the years 1901 to
    2099, except on the 10th of a month and on October 1st, where the string
    surgery produces a date nine or ten days off (or month 19). *)
Theorem previous_date_correct (z : Z) :
  let '(y, m, d) := civil_from_days z in
  1901 <= y <= 2099 ->
  (previous_date (dashed_of_day z) = Ok (dashed_of_day (z - 1)) <->
   ~ (d = 10 \/ (m = 10 /\ d = 1))).
Proof.
  destruct (civil_from_days z) as [[y m] d] eqn:Ez. intros Hy.
  pose proof (civil_from_days_spec z) as Hs. rewrite Ez in Hs. destruct Hs as [_ [Hm Hd]].
  assert (Hd31 : d <= 31).
  { unfold days_in_month in Hd. repeat bcase_in Hd; lia. }
  destruct (year_string y ltac:(lia)) as (a & b & c & e & Hys & Hyr).
  destruct (two_digits m ltac:(lia)) as (p & q & Hms & Hmr).
  destruct (two_digits d ltac:(lia)) as (u & v & Hds & Hdr).
  rewrite (dashed_of_day_civil z y m d Ez).
  assert (Hp : previous_date (dashed (to_string y) m d)
               = adjust_date (dashed (to_string y) m d) y m d).
  { unfold dashed. rewrite Hys, Hms, Hds. exact (previous_date_parts _ _ _ _ _ _ _ _ _ _ _ Hyr Hmr Hdr). }
  rewrite Hp. pose proof (prev_civil_spec z y m d Ez) as Hprev.
  destruct (decide (d = 1)) as [-> | Hd1].
  - pose proof (adjust_date_first a b c e y m Hm) as H. rewrite <- Hys in H.
    assert (Hl : leap y = (Z.rem y 4 =? 0)).
    { rewrite Z.rem_mod_nonneg by lia. unfold leap.
      destruct (y `mod` 4 =? 0) eqn:E4; bprop; [| done]. cbn [andb].
      destruct (y `mod` 100 =? 0) eqn:E100; bprop; [| done]. cbn [negb orb].
      apply Z.eqb_eq. Z.div_mod_to_equations. lia. }
    specialize (H Hl eq_refl). destruct (prev_civil y m 1) as [[y' m'] d'].
    rewrite (dashed_of_day_civil (z - 1) y' m' d' Hprev), H. lia.
  - unfold prev_civil in Hprev. destruct (1 <? d) eqn:E; bprop; [| lia].
    rewrite (dashed_of_day_civil (z - 1) y m (d - 1) Hprev).
    pose proof (adjust_date_day a b c e p q y m d ltac:(lia)) as H.
    unfold dashed. rewrite Hys, Hms. change (str "-") with [45]. cbn [app] in *.
    etrans; [exact H | lia].
Qed.

(** The draw of Thursday 2020-09-10, seen from a block of that morning: the
    search is for ["2020-09-19"], not ["2020-09-09"]. *)
Lemma previous_date_correct_witness :
  lastdrawdate 1599714000 = str "2020-09-10" /\
  previous_date (str "2020-09-10") = Ok (str "2020-09-19") /\
  ((previous_date (dashed_of_day 18514) = Ok (dashed_of_day (18514 - 1))) <->
   ~ (9 = 10 \/ (9 = 10 /\ 9 = 1))).
Proof.
  split; [vm_compute; reflexivity |]. split; [vm_compute; reflexivity |].
  exact (previous_date_correct 18514 ltac:(vm_compute; split; discriminate)).
Defined.
