(* ===== verification/Script.v ===== *)
(** [script/script.h] and [script/script.cpp]: opcodes, script numbers, and the
    reading and writing of serialized scripts.

    A [CScript] is the list of its bytes. An iterator into a script is the list
    of the bytes from it to the end, so [pc == end()] is [pc = []] and
    [end() - pc] is its length. *)

From Stdlib Require Import ZArith Lia.
From stdpp Require Import base tactics list numbers strings.
From S2P Require Import Prelude.

(** ** Opcodes: [enum opcodetype] *)

Definition OP_0 : Z := 0.
Definition OP_FALSE : Z := OP_0.
Definition OP_PUSHDATA1 : Z := 76.
Definition OP_PUSHDATA2 : Z := 77.
Definition OP_PUSHDATA4 : Z := 78.
Definition OP_1NEGATE : Z := 79.
Definition OP_RESERVED : Z := 80.
Definition OP_1 : Z := 81.
Definition OP_TRUE : Z := OP_1.
Definition OP_2 : Z := 82.
Definition OP_3 : Z := 83.
Definition OP_4 : Z := 84.
Definition OP_5 : Z := 85.
Definition OP_6 : Z := 86.
Definition OP_7 : Z := 87.
Definition OP_8 : Z := 88.
Definition OP_9 : Z := 89.
Definition OP_10 : Z := 90.
Definition OP_11 : Z := 91.
Definition OP_12 : Z := 92.
Definition OP_13 : Z := 93.
Definition OP_14 : Z := 94.
Definition OP_15 : Z := 95.
Definition OP_16 : Z := 96.
Definition OP_NOP : Z := 97.
Definition OP_VER : Z := 98.
Definition OP_IF : Z := 99.
Definition OP_NOTIF : Z := 100.
Definition OP_VERIF : Z := 101.
Definition OP_VERNOTIF : Z := 102.
Definition OP_ELSE : Z := 103.
Definition OP_ENDIF : Z := 104.
Definition OP_VERIFY : Z := 105.
Definition OP_RETURN : Z := 106.
Definition OP_TOALTSTACK : Z := 107.
Definition OP_FROMALTSTACK : Z := 108.
Definition OP_2DROP : Z := 109.
Definition OP_2DUP : Z := 110.
Definition OP_3DUP : Z := 111.
Definition OP_2OVER : Z := 112.
Definition OP_2ROT : Z := 113.
Definition OP_2SWAP : Z := 114.
Definition OP_IFDUP : Z := 115.
Definition OP_DEPTH : Z := 116.
Definition OP_DROP : Z := 117.
Definition OP_DUP : Z := 118.
Definition OP_NIP : Z := 119.
Definition OP_OVER : Z := 120.
Definition OP_PICK : Z := 121.
Definition OP_ROLL : Z := 122.
Definition OP_ROT : Z := 123.
Definition OP_SWAP : Z := 124.
Definition OP_TUCK : Z := 125.
Definition OP_CAT : Z := 126.
Definition OP_SUBSTR : Z := 127.
Definition OP_LEFT : Z := 128.
Definition OP_RIGHT : Z := 129.
Definition OP_SIZE : Z := 130.
Definition OP_INVERT : Z := 131.
Definition OP_AND : Z := 132.
Definition OP_OR : Z := 133.
Definition OP_XOR : Z := 134.
Definition OP_EQUAL : Z := 135.
Definition OP_EQUALVERIFY : Z := 136.
Definition OP_RESERVED1 : Z := 137.
Definition OP_RESERVED2 : Z := 138.
Definition OP_1ADD : Z := 139.
Definition OP_1SUB : Z := 140.
Definition OP_2MUL : Z := 141.
Definition OP_2DIV : Z := 142.
Definition OP_NEGATE : Z := 143.
Definition OP_ABS : Z := 144.
Definition OP_NOT : Z := 145.
Definition OP_0NOTEQUAL : Z := 146.
Definition OP_ADD : Z := 147.
Definition OP_SUB : Z := 148.
Definition OP_MUL : Z := 149.
Definition OP_DIV : Z := 150.
Definition OP_MOD : Z := 151.
Definition OP_LSHIFT : Z := 152.
Definition OP_RSHIFT : Z := 153.
Definition OP_BOOLAND : Z := 154.
Definition OP_BOOLOR : Z := 155.
Definition OP_NUMEQUAL : Z := 156.
Definition OP_NUMEQUALVERIFY : Z := 157.
Definition OP_NUMNOTEQUAL : Z := 158.
Definition OP_LESSTHAN : Z := 159.
Definition OP_GREATERTHAN : Z := 160.
Definition OP_LESSTHANOREQUAL : Z := 161.
Definition OP_GREATERTHANOREQUAL : Z := 162.
Definition OP_MIN : Z := 163.
Definition OP_MAX : Z := 164.
Definition OP_WITHIN : Z := 165.
Definition OP_RIPEMD160 : Z := 166.
Definition OP_SHA1 : Z := 167.
Definition OP_SHA256 : Z := 168.
Definition OP_HASH160 : Z := 169.
Definition OP_HASH256 : Z := 170.
Definition OP_CODESEPARATOR : Z := 171.
Definition OP_CHECKSIG : Z := 172.
Definition OP_CHECKSIGVERIFY : Z := 173.
Definition OP_CHECKMULTISIG : Z := 174.
Definition OP_CHECKMULTISIGVERIFY : Z := 175.
Definition OP_NOP1 : Z := 176.
Definition OP_NOP2 : Z := 177.
Definition OP_CHECKLOCKTIMEVERIFY : Z := OP_NOP2.
Definition OP_NOP3 : Z := 178.
Definition OP_NOP4 : Z := 179.
Definition OP_NOP5 : Z := 180.
Definition OP_NOP6 : Z := 181.
Definition OP_NOP7 : Z := 182.
Definition OP_NOP8 : Z := 183.
Definition OP_NOP9 : Z := 184.
Definition OP_NOP10 : Z := 185.
Definition OP_ZEROCOINMINT : Z := 193.
Definition OP_ZEROCOINSPEND : Z := 194.
Definition OP_ZEROCOINPUBLICSPEND : Z := 195.
Definition OP_CHECKCOLDSTAKEVERIFY : Z := 209.
Definition OP_SMALLINTEGER : Z := 250.
Definition OP_PUBKEYS : Z := 251.
Definition OP_PUBKEYHASH : Z := 253.
Definition OP_PUBKEY : Z := 254.
Definition OP_INVALIDOPCODE : Z := 255.

#[export] Hint Unfold
  OP_0 OP_FALSE OP_PUSHDATA1 OP_PUSHDATA2 OP_PUSHDATA4 OP_1NEGATE OP_RESERVED OP_1 OP_TRUE
  OP_2 OP_3 OP_4 OP_5 OP_6 OP_7 OP_8 OP_9 OP_10 OP_11 OP_12 OP_13 OP_14 OP_15 OP_16 OP_NOP
  OP_VER OP_IF OP_NOTIF OP_VERIF OP_VERNOTIF OP_ELSE OP_ENDIF OP_VERIFY OP_RETURN
  OP_TOALTSTACK OP_FROMALTSTACK OP_2DROP OP_2DUP OP_3DUP OP_2OVER OP_2ROT OP_2SWAP OP_IFDUP
  OP_DEPTH OP_DROP OP_DUP OP_NIP OP_OVER OP_PICK OP_ROLL OP_ROT OP_SWAP OP_TUCK OP_CAT
  OP_SUBSTR OP_LEFT OP_RIGHT OP_SIZE OP_INVERT OP_AND OP_OR OP_XOR OP_EQUAL OP_EQUALVERIFY
  OP_RESERVED1 OP_RESERVED2 OP_1ADD OP_1SUB OP_2MUL OP_2DIV OP_NEGATE OP_ABS OP_NOT
  OP_0NOTEQUAL OP_ADD OP_SUB OP_MUL OP_DIV OP_MOD OP_LSHIFT OP_RSHIFT OP_BOOLAND OP_BOOLOR
  OP_NUMEQUAL OP_NUMEQUALVERIFY OP_NUMNOTEQUAL OP_LESSTHAN OP_GREATERTHAN OP_LESSTHANOREQUAL
  OP_GREATERTHANOREQUAL OP_MIN OP_MAX OP_WITHIN OP_RIPEMD160 OP_SHA1 OP_SHA256 OP_HASH160
  OP_HASH256 OP_CODESEPARATOR OP_CHECKSIG OP_CHECKSIGVERIFY OP_CHECKMULTISIG
  OP_CHECKMULTISIGVERIFY OP_NOP1 OP_NOP2 OP_CHECKLOCKTIMEVERIFY OP_NOP3 OP_NOP4 OP_NOP5
  OP_NOP6 OP_NOP7 OP_NOP8 OP_NOP9 OP_NOP10 OP_ZEROCOINMINT OP_ZEROCOINSPEND
  OP_ZEROCOINPUBLICSPEND OP_CHECKCOLDSTAKEVERIFY OP_SMALLINTEGER OP_PUBKEYS OP_PUBKEYHASH
  OP_PUBKEY OP_INVALIDOPCODE : opcodes.

(** Read every opcode constant as its number. *)
Ltac ops := try (autounfold with opcodes in *).

Definition MAX_SCRIPT_ELEMENT_SIZE : Z := 520.
Definition MAX_SCRIPT_SIZE : Z := 10000.
Definition LOCKTIME_THRESHOLD : Z := 500000000.

(** [GetOpName]: the [switch] of the source, case by case. *)
Definition op_names : list (Z * string) := [
  (OP_0, "0"%string);
  (OP_PUSHDATA1, "OP_PUSHDATA1"%string);
  (OP_PUSHDATA2, "OP_PUSHDATA2"%string);
  (OP_PUSHDATA4, "OP_PUSHDATA4"%string);
  (OP_1NEGATE, "-1"%string);
  (OP_RESERVED, "OP_RESERVED"%string);
  (OP_1, "1"%string);
  (OP_2, "2"%string);
  (OP_3, "3"%string);
  (OP_4, "4"%string);
  (OP_5, "5"%string);
  (OP_6, "6"%string);
  (OP_7, "7"%string);
  (OP_8, "8"%string);
  (OP_9, "9"%string);
  (OP_10, "10"%string);
  (OP_11, "11"%string);
  (OP_12, "12"%string);
  (OP_13, "13"%string);
  (OP_14, "14"%string);
  (OP_15, "15"%string);
  (OP_16, "16"%string);
  (OP_NOP, "OP_NOP"%string);
  (OP_VER, "OP_VER"%string);
  (OP_IF, "OP_IF"%string);
  (OP_NOTIF, "OP_NOTIF"%string);
  (OP_VERIF, "OP_VERIF"%string);
  (OP_VERNOTIF, "OP_VERNOTIF"%string);
  (OP_ELSE, "OP_ELSE"%string);
  (OP_ENDIF, "OP_ENDIF"%string);
  (OP_VERIFY, "OP_VERIFY"%string);
  (OP_RETURN, "OP_RETURN"%string);
  (OP_TOALTSTACK, "OP_TOALTSTACK"%string);
  (OP_FROMALTSTACK, "OP_FROMALTSTACK"%string);
  (OP_2DROP, "OP_2DROP"%string);
  (OP_2DUP, "OP_2DUP"%string);
  (OP_3DUP, "OP_3DUP"%string);
  (OP_2OVER, "OP_2OVER"%string);
  (OP_2ROT, "OP_2ROT"%string);
  (OP_2SWAP, "OP_2SWAP"%string);
  (OP_IFDUP, "OP_IFDUP"%string);
  (OP_DEPTH, "OP_DEPTH"%string);
  (OP_DROP, "OP_DROP"%string);
  (OP_DUP, "OP_DUP"%string);
  (OP_NIP, "OP_NIP"%string);
  (OP_OVER, "OP_OVER"%string);
  (OP_PICK, "OP_PICK"%string);
  (OP_ROLL, "OP_ROLL"%string);
  (OP_ROT, "OP_ROT"%string);
  (OP_SWAP, "OP_SWAP"%string);
  (OP_TUCK, "OP_TUCK"%string);
  (OP_CAT, "OP_CAT"%string);
  (OP_SUBSTR, "OP_SUBSTR"%string);
  (OP_LEFT, "OP_LEFT"%string);
  (OP_RIGHT, "OP_RIGHT"%string);
  (OP_SIZE, "OP_SIZE"%string);
  (OP_INVERT, "OP_INVERT"%string);
  (OP_AND, "OP_AND"%string);
  (OP_OR, "OP_OR"%string);
  (OP_XOR, "OP_XOR"%string);
  (OP_EQUAL, "OP_EQUAL"%string);
  (OP_EQUALVERIFY, "OP_EQUALVERIFY"%string);
  (OP_RESERVED1, "OP_RESERVED1"%string);
  (OP_RESERVED2, "OP_RESERVED2"%string);
  (OP_1ADD, "OP_1ADD"%string);
  (OP_1SUB, "OP_1SUB"%string);
  (OP_2MUL, "OP_2MUL"%string);
  (OP_2DIV, "OP_2DIV"%string);
  (OP_NEGATE, "OP_NEGATE"%string);
  (OP_ABS, "OP_ABS"%string);
  (OP_NOT, "OP_NOT"%string);
  (OP_0NOTEQUAL, "OP_0NOTEQUAL"%string);
  (OP_ADD, "OP_ADD"%string);
  (OP_SUB, "OP_SUB"%string);
  (OP_MUL, "OP_MUL"%string);
  (OP_DIV, "OP_DIV"%string);
  (OP_MOD, "OP_MOD"%string);
  (OP_LSHIFT, "OP_LSHIFT"%string);
  (OP_RSHIFT, "OP_RSHIFT"%string);
  (OP_BOOLAND, "OP_BOOLAND"%string);
  (OP_BOOLOR, "OP_BOOLOR"%string);
  (OP_NUMEQUAL, "OP_NUMEQUAL"%string);
  (OP_NUMEQUALVERIFY, "OP_NUMEQUALVERIFY"%string);
  (OP_NUMNOTEQUAL, "OP_NUMNOTEQUAL"%string);
  (OP_LESSTHAN, "OP_LESSTHAN"%string);
  (OP_GREATERTHAN, "OP_GREATERTHAN"%string);
  (OP_LESSTHANOREQUAL, "OP_LESSTHANOREQUAL"%string);
  (OP_GREATERTHANOREQUAL, "OP_GREATERTHANOREQUAL"%string);
  (OP_MIN, "OP_MIN"%string);
  (OP_MAX, "OP_MAX"%string);
  (OP_WITHIN, "OP_WITHIN"%string);
  (OP_RIPEMD160, "OP_RIPEMD160"%string);
  (OP_SHA1, "OP_SHA1"%string);
  (OP_SHA256, "OP_SHA256"%string);
  (OP_HASH160, "OP_HASH160"%string);
  (OP_HASH256, "OP_HASH256"%string);
  (OP_CODESEPARATOR, "OP_CODESEPARATOR"%string);
  (OP_CHECKSIG, "OP_CHECKSIG"%string);
  (OP_CHECKSIGVERIFY, "OP_CHECKSIGVERIFY"%string);
  (OP_CHECKMULTISIG, "OP_CHECKMULTISIG"%string);
  (OP_CHECKMULTISIGVERIFY, "OP_CHECKMULTISIGVERIFY"%string);
  (OP_NOP1, "OP_NOP1"%string);
  (OP_CHECKLOCKTIMEVERIFY, "OP_CHECKLOCKTIMEVERIFY"%string);
  (OP_NOP3, "OP_NOP3"%string);
  (OP_NOP4, "OP_NOP4"%string);
  (OP_NOP5, "OP_NOP5"%string);
  (OP_NOP6, "OP_NOP6"%string);
  (OP_NOP7, "OP_NOP7"%string);
  (OP_NOP8, "OP_NOP8"%string);
  (OP_NOP9, "OP_NOP9"%string);
  (OP_NOP10, "OP_NOP10"%string);
  (OP_ZEROCOINMINT, "OP_ZEROCOINMINT"%string);
  (OP_ZEROCOINSPEND, "OP_ZEROCOINSPEND"%string);
  (OP_ZEROCOINPUBLICSPEND, "OP_ZEROCOINPUBLICSPEND"%string);
  (OP_CHECKCOLDSTAKEVERIFY, "OP_CHECKCOLDSTAKEVERIFY"%string);
  (OP_INVALIDOPCODE, "OP_INVALIDOPCODE"%string)
].

Definition GetOpName (opcode : Z) : bytes :=
  match List.find (fun e => fst e =? opcode) op_names with
  | Some (_, name) => str name
  | None => str "OP_UNKNOWN"
  end.

(** ** Script numbers: [CScriptNum] *)

Inductive scriptnum_error := script_number_overflow | non_minimally_encoded.

Definition nDefaultMaxNumSize : Z := 4.

(** [vch.back()] of a non-empty vector. *)
Definition back (l : bytes) : Z := List.last l 0.

(** The loop of [set_vch]. *)
Fixpoint set_vch_loop (vch : bytes) (i result : Z) : Z :=
  match vch with
  | [] => result
  | b :: vch => set_vch_loop vch (i + 1) (s64 (Z.lor result (Z.shiftl b (8 * i))))
  end.

Definition set_vch (vch : bytes) : Z :=
  if zlen vch =? 0 then 0
  else
    let result := set_vch_loop vch 0 0 in
    if negb (Z.land (back vch) 128 =? 0)
    then - s64 (Z.land result (Z.lnot (Z.shiftl 128 (8 * (zlen vch - 1)))))
    else result.

(** The constructor from bytes: the value, or the exception thrown. *)
Definition CScriptNum (vch : bytes) (fRequireMinimal : bool) (nMaxNumSize : Z) : res scriptnum_error Z :=
  if nMaxNumSize <? zlen vch then Err script_number_overflow
  else if fRequireMinimal && (0 <? zlen vch) && (Z.land (back vch) 127 =? 0) &&
          ((zlen vch <=? 1) || (Z.land (idx vch (zlen vch - 2)) 128 =? 0))
  then Err non_minimally_encoded
  else Ok (set_vch vch).

Definition getint (m_value : Z) : Z :=
  if 2 ^ 31 - 1 <? m_value then 2 ^ 31 - 1
  else if m_value <? - 2 ^ 31 then - 2 ^ 31
  else m_value.

(** [while (absvalue)]: eight rounds empty a 64-bit value. *)
Fixpoint serialize_abs (fuel : nat) (absvalue : Z) : bytes :=
  match fuel with
  | O => []
  | S fuel =>
      if absvalue =? 0 then []
      else Z.land absvalue 255 :: serialize_abs fuel (Z.shiftr absvalue 8)
  end.

(** Replace the last byte. *)
Definition set_back (l : bytes) (b : Z) : bytes := removelast l ++ [b].

Definition serialize (value : Z) : bytes :=
  if value =? 0 then []
  else
    let neg := value <? 0 in
    let absvalue := u64 (if neg then - value else value) in
    let result := serialize_abs 8 absvalue in
    if negb (Z.land (back result) 128 =? 0) then result ++ [if neg then 128 else 0]
    else if neg then set_back result (Z.lor (back result) 128)
    else result.

Definition getvch (m_value : Z) : bytes := serialize m_value.

(** ** Writing scripts *)

(** [operator<<(opcodetype)] *)
Definition push_op (s : bytes) (opcode : Z) : res unit bytes :=
  if (opcode <? 0) || (255 <? opcode) then Err tt else Ok (s ++ [opcode]).

(** [operator<<(const std::vector<unsigned char>&)]; [WriteLE16] and
    [WriteLE32] truncate the size to their width. *)
Definition push_data (s b : bytes) : bytes :=
  (if zlen b <? OP_PUSHDATA1 then s ++ [zlen b]
   else if zlen b <=? 255 then s ++ [OP_PUSHDATA1; zlen b]
   else if zlen b <=? 65535 then s ++ OP_PUSHDATA2 :: le_bytes 2 (zlen b)
   else s ++ OP_PUSHDATA4 :: le_bytes 4 (zlen b)) ++ b.

Definition push_int64 (s : bytes) (n : Z) : bytes :=
  if (n =? -1) || ((1 <=? n) && (n <=? 16)) then s ++ [n + (OP_1 - 1)]
  else if n =? 0 then s ++ [OP_0]
  else push_data s (serialize n).

(** ** Reading scripts *)

(** What [GetOp2] leaves behind: its result, the advanced [pc], the opcode and
    the pushed data. *)
Record getop := GetOp_ { go_ok : bool; go_pc : bytes; go_opcode : Z; go_data : bytes }.

Definition GetOp_fail (pc : bytes) : getop := GetOp_ false pc OP_INVALIDOPCODE [].

(** The part of [GetOp2] after [nSize] is known. *)
Definition GetOp_take (pc : bytes) (opcode nSize : Z) : getop :=
  if zlen pc <? nSize then GetOp_fail pc
  else GetOp_ true (drop (Z.to_nat nSize) pc) opcode (take (Z.to_nat nSize) pc).

Definition GetOp2 (pc : bytes) : getop :=
  match pc with
  | [] => GetOp_fail pc
  | opcode :: pc =>
      if opcode <=? OP_PUSHDATA4 then
        if opcode <? OP_PUSHDATA1 then GetOp_take pc opcode opcode
        else if opcode =? OP_PUSHDATA1 then
          if zlen pc <? 1 then GetOp_fail pc
          else GetOp_take (drop 1 pc) opcode (le_val (take 1 pc))
        else if opcode =? OP_PUSHDATA2 then
          if zlen pc <? 2 then GetOp_fail pc
          else GetOp_take (drop 2 pc) opcode (le_val (take 2 pc))
        else
          if zlen pc <? 4 then GetOp_fail pc
          else GetOp_take (drop 4 pc) opcode (le_val (take 4 pc))
      else GetOp_ true pc opcode []
  end.

(** [None] is the failed [assert]. *)
Definition DecodeOP_N (opcode : Z) : option Z :=
  if opcode =? OP_0 then Some 0
  else if (OP_1 <=? opcode) && (opcode <=? OP_16) then Some (opcode - (OP_1 - 1))
  else None.

Definition EncodeOP_N (n : Z) : option Z :=
  if (0 <=? n) && (n <=? 16) then Some (if n =? 0 then OP_0 else OP_1 + n - 1) else None.

(** [std::equal(b.begin(), b.end(), pc)] under the size test before it. *)
Definition starts_with (b pc : bytes) : bool :=
  (zlen b <=? zlen pc) && bool_decide (take (length b) pc = b).

(** The inner [while] of [FindAndDelete]: skip occurrences of [b] at [pc]. *)
Fixpoint skip_matches (fuel : nat) (b pc : bytes) (nFound : Z) : bytes * Z :=
  match fuel with
  | O => (pc, nFound)
  | S fuel =>
      if starts_with b pc then skip_matches fuel b (drop (length b) pc) (nFound + 1)
      else (pc, nFound)
  end.

(** The outer [do ... while (GetOp(pc, opcode))]: the bytes put in [result]
    from here on, the final [pc2] and [nFound]. *)
Fixpoint fad_loop (fuel : nat) (b pc2 pc : bytes) (nFound : Z) : bytes * bytes * Z :=
  let kept := take (length pc2 - length pc) pc2 in
  match fuel with
  | O => (kept, pc, nFound)
  | S fuel =>
      let (pc, nFound) := skip_matches (length pc) b pc nFound in
      let g := GetOp2 pc in
      if go_ok g then
        let '(r, p, n) := fad_loop fuel b pc (go_pc g) nFound in (kept ++ r, p, n)
      else (kept, pc, nFound)
  end.

(** The script after the call and the count returned. *)
Definition FindAndDelete (s b : bytes) : bytes * Z :=
  if zlen b =? 0 then (s, 0)
  else
    let '(result, pc2, nFound) := fad_loop (S (length s)) b s s 0 in
    if 0 <? nFound then (result ++ pc2, nFound) else (s, nFound).

(** The opcodes [GetOp] yields until it fails or the script ends, each with
    its data, and whether the end was reached. *)
Fixpoint GetOps (fuel : nat) (pc : bytes) : list (Z * bytes) * bool :=
  match fuel with
  | O => ([], bool_decide (pc = []))
  | S fuel =>
      if bool_decide (pc = []) then ([], true)
      else let g := GetOp2 pc in
           if go_ok g then
             let (l, e) := GetOps fuel (go_pc g) in ((go_opcode g, go_data g) :: l, e)
           else ([], false)
  end.

(** Every loop of the form [while (pc < end()) { if (!GetOp(pc, ...)) ...; ... }]
    visits these. *)
Definition ops_of (s : bytes) : list (Z * bytes) * bool := GetOps (length s) s.

Definition Find (s : bytes) (op : Z) : Z :=
  zlen (List.filter (fun o => fst o =? op) (fst (ops_of s))).

(** ** Classifying scripts *)

Fixpoint sigops_loop (fAccurate : bool) (l : list (Z * bytes)) (lastOpcode n : Z) : Z :=
  match l with
  | [] => n
  | (opcode, _) :: l =>
      let n :=
        if (opcode =? OP_CHECKSIG) || (opcode =? OP_CHECKSIGVERIFY) then u32 (n + 1)
        else if (opcode =? OP_CHECKMULTISIG) || (opcode =? OP_CHECKMULTISIGVERIFY) then
          if fAccurate && (OP_1 <=? lastOpcode) && (lastOpcode <=? OP_16)
          then u32 (n + default 0 (DecodeOP_N lastOpcode))
          else u32 (n + 20)
        else n in
      sigops_loop fAccurate l opcode n
  end.

Definition GetSigOpCount (s : bytes) (fAccurate : bool) : Z :=
  sigops_loop fAccurate (fst (ops_of s)) OP_INVALIDOPCODE 0.

Definition IsPayToScriptHash (s : bytes) : bool :=
  (zlen s =? 23) && (idx s 0 =? OP_HASH160) && (idx s 1 =? 20) && (idx s 22 =? OP_EQUAL).

(** [GetSigOpCount(const CScript& scriptSig)] *)
Definition GetSigOpCount_p2sh (s scriptSig : bytes) : Z :=
  if negb (IsPayToScriptHash s) then GetSigOpCount s true
  else
    let (l, e) := ops_of scriptSig in
    if negb e || existsb (fun o => OP_16 <? fst o) l then 0
    else GetSigOpCount (List.last (map snd l) []) true.

(** [IsNormalPaymentScript]: a failed [GetOp] leaves [OP_INVALIDOPCODE] and the
    advanced [pc], and the loop goes on. *)
Fixpoint normal_loop (fuel : nat) (pc : bytes) (i : Z) : bool :=
  match fuel with
  | O => true
  | S fuel =>
      if zlen pc =? 0 then true
      else
        let g := GetOp2 pc in
        let opcode := go_opcode g in
        if (i =? 0) && negb (opcode =? OP_DUP) then false
        else if (i =? 1) && negb (opcode =? OP_HASH160) then false
        else if (i =? 3) && negb (opcode =? OP_EQUALVERIFY) then false
        else if (i =? 4) && negb (opcode =? OP_CHECKSIG) then false
        else if i =? 5 then false
        else normal_loop fuel (go_pc g) (i + 1)
  end.

Definition IsNormalPaymentScript (s : bytes) : bool :=
  if negb (zlen s =? 25) then false else normal_loop (length s) s 0.

Definition IsPayToColdStaking (s : bytes) : bool :=
  (zlen s =? 51) && (idx s 2 =? OP_ROT) && (idx s 4 =? OP_CHECKCOLDSTAKEVERIFY) &&
  (idx s 5 =? 20) && (idx s 27 =? 20) && (idx s 49 =? OP_EQUALVERIFY) && (idx s 50 =? OP_CHECKSIG).

Definition StartsWithOpcode (s : bytes) (opcode : Z) : bool :=
  negb (zlen s =? 0) && (idx s 0 =? opcode).
Definition IsZerocoinMint (s : bytes) : bool := StartsWithOpcode s OP_ZEROCOINMINT.
Definition IsZerocoinSpend (s : bytes) : bool := StartsWithOpcode s OP_ZEROCOINSPEND.
Definition IsZerocoinPublicSpend (s : bytes) : bool := StartsWithOpcode s OP_ZEROCOINPUBLICSPEND.

Definition IsPushOnly (pc : bytes) : bool :=
  let (l, e) := ops_of pc in e && forallb (fun o => negb (OP_16 <? fst o)) l.

Definition IsUnspendable (s : bytes) : bool :=
  ((0 <? zlen s) && (idx s 0 =? OP_RETURN)) || (MAX_SCRIPT_SIZE <? zlen s).

(** ** Script numbers have one encoding *)

(** The value of a non-empty encoding [l ++ [b]]: sign and magnitude. *)
Definition num_of (l : bytes) (b : Z) : Z :=
  if b <? 128 then le_val l + 256 ^ zlen l * b else - (le_val l + 256 ^ zlen l * (b - 128)).

Definition minimal (l : bytes) (b : Z) : Prop :=
  b `mod` 128 <> 0 \/ (l <> [] /\ 128 <= back l).

Lemma back_app l b : back (l ++ [b]) = b.
Proof. apply List.last_last. Qed.

Lemma back_byte l : is_bytes l -> is_byte (back l).
Proof.
  intros H. unfold back. destruct l as [| c l] using rev_ind; [by split |].
  rewrite List.last_last. by apply Forall_app in H as [_ H']; inversion H'.
Qed.

Lemma land_128 b : is_byte b -> (Z.land b 128 =? 0) = (b <? 128).
Proof.
  intros Hb. apply (all_below_spec (fun b => Bool.eqb (Z.land b 128 =? 0) (b <? 128)) 256 0 eq_refl b) in Hb.
  by apply eqb_prop in Hb.
Qed.

Lemma land_127 b : Z.land b 127 = b `mod` 128.
Proof. by apply (land_ones_mod b 7). Qed.

Lemma lor_128 b : 0 <= b < 128 -> Z.lor b 128 = b + 128.
Proof.
  intros Hb. pose proof (all_below_spec (fun b => Z.lor b 128 =? b + 128) 128 0 eq_refl b ltac:(lia)).
  cbv beta in *. bprop. lia.
Qed.

Lemma s64_cong a b : a `mod` 2 ^ 64 = b `mod` 2 ^ 64 -> s64 a = s64 b.
Proof.
  intros H. unfold s64. rewrite (Z.add_mod a), (Z.add_mod b), H by lia. done.
Qed.

Lemma s64_mod a : s64 a `mod` 2 ^ 64 = a `mod` 2 ^ 64.
Proof.
  unfold s64. rewrite Zminus_mod_idemp_l. f_equal. lia.
Qed.

Lemma s64_land a m : s64 (Z.land (s64 a) m) = s64 (Z.land a m).
Proof.
  apply s64_cong. apply Z.bits_inj'. intros n Hn.
  destruct (decide (n < 64)).
  - rewrite !Z.mod_pow2_bits_low, !Z.land_spec by done.
    rewrite <- (Z.mod_pow2_bits_low (s64 a) 64), <- (Z.mod_pow2_bits_low a 64) by done.
    by rewrite s64_mod.
  - rewrite !Z.mod_pow2_bits_high by lia. done.
Qed.

Lemma pow256 n : 0 <= n -> 256 ^ n = 2 ^ (8 * n).
Proof. intros. rewrite Z.pow_mul_r by lia. done. Qed.

Lemma set_vch_loop_spec vch i r :
  is_bytes vch -> vch <> [] -> 0 <= i -> i + zlen vch <= 8 -> 0 <= r < 256 ^ i ->
  set_vch_loop vch i r = s64 (r + 256 ^ i * le_val vch).
Proof.
  intros Hb. revert i r. induction Hb as [| b vch Hb Hvch IH]; [done |].
  intros i r _ Hi Hl Hr. rewrite zlen_cons in Hl. cbn [set_vch_loop le_val].
  rewrite pow256 in Hr |- * by done.
  rewrite lor_add_shiftl by (done || lia).
  destruct (decide (vch = [])) as [-> | Hne]; [cbn; f_equal; lia |].
  assert (0 < zlen vch) by (destruct vch; [done | rewrite zlen_cons; pose proof (zlen_nonneg vch); lia]).
  unfold is_byte in Hb. assert (H56 : 2 ^ (8 * i + 8) <= 2 ^ 56) by (apply Z.pow_le_mono_r; lia).
  assert (Hp : 2 ^ (8 * i + 8) = 256 * 2 ^ (8 * i)) by (rewrite Z.pow_add_r by lia; lia).
  rewrite s64_id by nia.
  replace (8 * i + 8) with (8 * (i + 1)) in Hp by lia.
  rewrite IH; rewrite ?pow256 by lia; [f_equal; nia | done | lia | lia | nia].
Qed.

Lemma ldiff_top V k : 0 <= k -> 2 ^ k <= V < 2 ^ (k + 1) -> Z.land V (Z.lnot (2 ^ k)) = V - 2 ^ k.
Proof.
  intros Hk HV. rewrite <- Z.ldiff_land. symmetry. apply Z.sub_nocarry_ldiff.
  apply Z.bits_inj'. intros n Hn. rewrite Z.ldiff_spec, Z.bits_0, Z.pow2_bits_eqb by done.
  destruct (Z.eqb_spec k n) as [<- |]; [| done].
  assert (Hb : Z.testbit V k = true); [| by rewrite Hb].
  apply Z.testbit_true; [done |].
  assert (Hp : 2 ^ (k + 1) = 2 * 2 ^ k) by (rewrite Z.pow_add_r by lia; lia).
  rewrite Hp in HV. replace (V / 2 ^ k) with 1; [done |].
  apply (Z.div_unique _ _ _ (V - 2 ^ k)); lia.
Qed.

Lemma set_vch_app l b :
  is_bytes l -> is_byte b -> zlen l + 1 <= 8 -> set_vch (l ++ [b]) = num_of l b.
Proof.
  intros Hl Hb Hn. pose proof (zlen_nonneg l) as Hz. pose proof (le_val_bound l Hl) as Hv.
  assert (Hlb : is_bytes (l ++ [b])) by (apply Forall_app; split; [done | by constructor]).
  unfold set_vch, num_of. rewrite back_app, land_128 by done.
  rewrite set_vch_loop_spec; [| done | by destruct l | lia | zl; lia | by vm_compute].
  zl. destruct (_ =? 0) eqn:E; bprop; [lia |]. clear E.
  rewrite le_val_app. cbn [le_val]. rewrite Z.add_0_l, Z.pow_0_r, Z.mul_1_l, Z.mul_0_r, Z.add_0_r.
  unfold is_byte in Hb. rewrite pow256 in * by done.
  set (P := 2 ^ (8 * zlen l)) in *.
  assert (HP : P <= 2 ^ 56) by (apply Z.pow_le_mono_r; lia).
  assert (H0 : 0 < P) by (apply Z.pow_pos_nonneg; lia).
  destruct (Z.ltb_spec b 128) as [Hb' | Hb']; cbn [negb].
  - apply s64_id. nia.
  - rewrite s64_land. f_equal.
    replace (Z.shiftl 128 (8 * (zlen l + (1 + 0) - 1))) with (2 ^ (8 * zlen l + 7))
      by (rewrite Z.shiftl_mul_pow2, Z.pow_add_r by lia; fold P;
          replace (8 * (zlen l + (1 + 0) - 1)) with (8 * zlen l) by lia; fold P; lia).
    assert (E7 : 2 ^ (8 * zlen l + 7) = 128 * P) by (rewrite Z.pow_add_r by lia; fold P; lia).
    assert (E8 : 2 ^ (8 * zlen l + 7 + 1) = 256 * P) by (rewrite !Z.pow_add_r by lia; fold P; lia).
    rewrite ldiff_top by (rewrite ?E8, ?E7; nia). rewrite E7.
    rewrite s64_id by nia. lia.
Qed.

Lemma serialize_abs_spec fuel a :
  0 <= a < 256 ^ Z.of_nat fuel ->
  let l := serialize_abs fuel a in
  is_bytes l /\ le_val l = a /\ zlen l <= Z.of_nat fuel /\ (l = [] \/ back l <> 0) /\ (a <> 0 -> l <> []).
Proof.
  revert a. induction fuel as [| fuel IH]; intros a Ha; cbn [serialize_abs].
  - split_and!; [constructor | cbn in *; lia | done | by left | cbn in *; lia].
  - rewrite Nat2Z.inj_succ, Z.pow_succ_r in Ha by lia.
    destruct (Z.eqb_spec a 0) as [-> | Hne].
    { split_and!; [constructor | done | zl; lia | by left | done]. }
    rewrite (land_ones_mod a 8), Z.shiftr_div_pow2 by done.
    destruct (IH (a / 2 ^ 8)) as (H1 & H2 & H3 & H4 & H5).
    { split; [apply Z.div_pos; lia | apply Z.div_lt_upper_bound; lia]. }
    pose proof (Z.mod_pos_bound a (2 ^ 8) ltac:(lia)) as Hm.
    pose proof (Z.div_mod a (2 ^ 8) ltac:(lia)) as Hd.
    split_and!; [constructor; [unfold is_byte; lia | done] | cbn [le_val]; lia | zl; lia | | done].
    right. destruct (serialize_abs fuel (a / 2 ^ 8)) as [| c r] eqn:E.
    + unfold back. cbn. intros H0. apply H5; [lia | done].
    + destruct H4 as [? | H4]; [done |]. exact H4.
Qed.

Lemma num_of_sign l b : is_bytes l -> is_byte b -> minimal l b ->
  (b < 128 /\ 0 < num_of l b) \/ (128 <= b /\ num_of l b < 0).
Proof.
  intros Hl Hb Hm. pose proof (le_val_bound l Hl) as Hv. unfold is_byte in Hb.
  assert (H0 : 0 < 256 ^ zlen l) by (apply Z.pow_pos_nonneg; [lia | apply zlen_nonneg]).
  assert (Hpos : 0 < le_val l + 256 ^ zlen l * (b `mod` 128)).
  { pose proof (Z.mod_pos_bound b 128 ltac:(lia)).
    destruct Hm as [Hm | [Hne Hm]]; [nia |].
    destruct l as [| c l] using rev_ind; [done |]. rewrite back_app in Hm.
    rewrite le_val_app in *. cbn [le_val] in *. apply Forall_app in Hl as [Hl _].
    pose proof (le_val_bound l Hl). nia. }
  unfold num_of. destruct (Z.ltb_spec b 128); [left | right]; split; try done.
  - rewrite Z.mod_small in Hpos by lia. lia.
  - replace (b `mod` 128) with (b - 128) in Hpos; [lia |].
    apply (Z.mod_unique _ _ 1); lia.
Qed.

(** The magnitude as a plain little-endian number with no leading zero. *)
Definition magnitude (l : bytes) (b : Z) : bytes :=
  if b `mod` 128 =? 0 then l else l ++ [b `mod` 128].

Lemma magnitude_val l b :
  is_bytes l -> is_byte b -> le_val (magnitude l b) = Z.abs (num_of l b).
Proof.
  intros Hl Hb.
  pose proof (le_val_bound l Hl) as Hv. unfold is_byte in Hb.
  assert (Hm : le_val (magnitude l b) = le_val l + 256 ^ zlen l * (b `mod` 128)).
  { unfold magnitude. destruct (Z.eqb_spec (b `mod` 128) 0) as [-> |]; [lia |].
    rewrite le_val_app. cbn [le_val]. lia. }
  rewrite Hm. unfold num_of. destruct (Z.ltb_spec b 128).
  - rewrite Z.mod_small by lia. rewrite Z.abs_eq; nia.
  - replace (b `mod` 128) with (b - 128); [rewrite Z.abs_opp, Z.abs_eq; nia |].
    apply (Z.mod_unique _ _ 1); lia.
Qed.

(** Little-endian numerals without a leading zero are unique. *)
Lemma le_val_inj l k : is_bytes l -> is_bytes k ->
  (l = [] \/ back l <> 0) -> (k = [] \/ back k <> 0) -> le_val l = le_val k -> l = k.
Proof.
  assert (Hpos : forall k, is_bytes k -> back k <> 0 -> 0 < le_val k).
  { intros x Hx Hb. destruct x as [| c x] using rev_ind; [done |]. rewrite back_app in Hb.
    apply Forall_app in Hx as [Hx Hc]. inversion Hc as [| ? ? Hc' _]; subst. unfold is_byte in Hc'.
    rewrite le_val_app. cbn [le_val]. pose proof (le_val_bound x Hx).
    assert (0 < 256 ^ zlen x) by (apply Z.pow_pos_nonneg; [lia | apply zlen_nonneg]). nia. }
  intros Hl. revert k. induction Hl as [| b l Hb Hl IH]; intros k Hk Hbl Hbk E.
  - destruct Hbk as [-> | Hbk]; [done |]. specialize (Hpos k Hk Hbk). cbn in E. lia.
  - destruct Hbl as [? | Hbl]; [done |].
    destruct Hk as [| c k Hc Hk].
    { specialize (Hpos (b :: l) ltac:(by constructor) Hbl). cbn in E, Hpos. lia. }
    destruct Hbk as [? | Hbk]; [done |]. cbn [le_val] in E. unfold is_byte in Hb, Hc.
    assert (b = c /\ le_val l = le_val k) as [-> Ev] by lia. f_equal.
    apply IH; [done | | | done].
    + destruct l; [by left | right; exact Hbl].
    + destruct k; [by left | right; exact Hbk].
Qed.

Lemma num_of_inj l b l' b' :
  is_bytes l -> is_byte b -> minimal l b -> is_bytes l' -> is_byte b' -> minimal l' b' ->
  num_of l b = num_of l' b' -> l ++ [b] = l' ++ [b'].
Proof.
  intros Hl Hb Hm Hl' Hb' Hm' E.
  assert (Hmag : forall l b, is_bytes l -> is_byte b -> minimal l b ->
            is_bytes (magnitude l b) /\ (magnitude l b = [] \/ back (magnitude l b) <> 0)).
  { clear. intros l b Hl Hb Hm. pose proof (Z.mod_pos_bound b 128 ltac:(lia)) as Hr. unfold magnitude.
    destruct (Z.eqb_spec (b `mod` 128) 0) as [E |].
    - destruct Hm as [? | [Hne Hm]]; [done |]. split; [done | right; lia].
    - split; [apply Forall_app; split; [done | by constructor; unfold is_byte; [lia |]] |].
      right. by rewrite back_app. }
  destruct (Hmag l b Hl Hb Hm) as [M1 M2], (Hmag l' b' Hl' Hb' Hm') as [M1' M2'].
  assert (Em : magnitude l b = magnitude l' b').
  { apply le_val_inj; try done. rewrite !magnitude_val by done. by rewrite E. }
  assert (Hs : b < 128 <-> b' < 128).
  { pose proof (num_of_sign l b Hl Hb Hm). pose proof (num_of_sign l' b' Hl' Hb' Hm'). lia. }
  assert (Hbb : b `mod` 128 = b' `mod` 128 -> b = b').
  { unfold is_byte in Hb, Hb'. intros. Z.div_mod_to_equations. lia. }
  pose proof (Z.mod_pos_bound b 128 ltac:(lia)). pose proof (Z.mod_pos_bound b' 128 ltac:(lia)).
  unfold magnitude in Em.
  destruct (Z.eqb_spec (b `mod` 128) 0) as [E0 | E0], (Z.eqb_spec (b' `mod` 128) 0) as [E0' | E0'].
  - rewrite Em, Hbb by lia. done.
  - destruct Hm as [? | [_ Hm]]; [done |]. rewrite Em, back_app in Hm. lia.
  - destruct Hm' as [? | [_ Hm']]; [done |]. rewrite <- Em, back_app in Hm'. lia.
  - apply app_inj_tail in Em as [-> Em]. by rewrite Hbb.
Qed.

Lemma serialize_form v : - 2 ^ 63 < v < 2 ^ 63 -> v <> 0 ->
  exists l b, serialize v = l ++ [b] /\ is_bytes l /\ is_byte b /\ zlen l + 1 <= 8
    /\ minimal l b /\ num_of l b = v.
Proof.
  intros Hv Hne. unfold serialize. destruct (Z.eqb_spec v 0) as [? | _]; [done |].
  rewrite u64_id by (destruct (v <? 0) eqn:?; bprop; lia).
  replace (if v <? 0 then - v else v) with (Z.abs v) by (destruct (Z.ltb_spec v 0); lia).
  destruct (serialize_abs_spec 8 (Z.abs v) ltac:(cbn; lia)) as (H1 & H2 & H3 & H4 & H5).
  specialize (H5 ltac:(lia)). destruct H4 as [? | H4]; [done |].
  set (r := serialize_abs 8 (Z.abs v)) in *. clearbody r.
  destruct r as [| b l _] using rev_ind; [done |]. rewrite back_app in *.
  apply Forall_app in H1 as [Hl Hb]. inversion Hb as [| ? ? Hb' _]; subst.
  rewrite zlen_app, zlen_cons in H3. change (zlen (@nil Z)) with 0 in H3. rewrite land_128 by done.
  rewrite le_val_app in H2. cbn [le_val] in H2. pose proof (le_val_bound l Hl) as Hlv.
  rewrite pow256 in * by apply zlen_nonneg. pose proof (zlen_nonneg l) as Hz. unfold is_byte in Hb'.
  assert (HP : 0 < 2 ^ (8 * zlen l)) by (apply Z.pow_pos_nonneg; lia).
  destruct (Z.ltb_spec b 128) as [Hb1 | Hb1]; cbn [negb].
  - set (b' := if v <? 0 then b + 128 else b).
    exists l, b'. split_and!; [| done | | lia | |].
    + unfold b', set_back. rewrite removelast_last, lor_128 by lia. by destruct (v <? 0).
    + unfold b', is_byte. destruct (v <? 0); lia.
    + left. unfold b'. destruct (v <? 0); Z.div_mod_to_equations; lia.
    + unfold num_of, b'. rewrite pow256 by lia. destruct (Z.ltb_spec v 0), (Z.ltb_spec (if v <? 0 then b + 128 else b) 128); try lia.
      all: destruct (Z.ltb_spec (b + 128) 128); try lia. all: destruct (Z.ltb_spec b 128); lia.
  - exists (l ++ [b]), (if v <? 0 then 128 else 0). split_and!.
    + done.
    + apply Forall_app. split; [done | by constructor].
    + unfold is_byte. destruct (v <? 0); lia.
    + zl. destruct (decide (zlen l = 7)) as [E7 |]; [| lia].
      rewrite E7 in *. change (2 ^ (8 * 7)) with (2 ^ 56) in *. lia.
    + right. rewrite back_app. split; [by destruct l | done].
    + unfold num_of. rewrite le_val_app, pow256 by lia. cbn [le_val].
      destruct (Z.ltb_spec v 0); cbn [Z.ltb]; zl; change (128 <? 128) with false; change (0 <? 128) with true; cbn iota; lia.
Qed.

(** The size of the encoding, from the size of the value. *)
Lemma num_of_bounds l b : is_bytes l -> is_byte b -> minimal l b ->
  2 ^ (8 * zlen l) <= 2 * Z.abs (num_of l b) < 2 ^ (8 * (zlen l + 1)).
Proof.
  intros Hl Hb Hm. pose proof (zlen_nonneg l) as Hz.
  rewrite <- magnitude_val by done.
  assert (Hv : le_val (magnitude l b) = le_val l + 2 ^ (8 * zlen l) * (b `mod` 128)).
  { unfold magnitude. rewrite <- pow256 by done.
    destruct (Z.eqb_spec (b `mod` 128) 0) as [-> |]; [lia |].
    rewrite le_val_app. cbn [le_val]. lia. }
  pose proof (le_val_bound l Hl) as Hlv. pose proof (Z.mod_pos_bound b 128 ltac:(lia)) as Hr.
  rewrite pow256 in Hlv by done. rewrite Hv.
  replace (8 * (zlen l + 1)) with (8 * zlen l + 8) by lia. rewrite Z.pow_add_r by lia.
  assert (HP : 0 < 2 ^ (8 * zlen l)) by (apply Z.pow_pos_nonneg; lia).
  split; [| nia]. destruct Hm as [Hm | [Hne Hm]]; [nia |].
  clear Hv. destruct l as [| c l] using rev_ind; [done |]. rewrite back_app in Hm.
  apply Forall_app in Hl as [Hl _]. pose proof (le_val_bound l Hl) as Hl0. revert HP Hlv. zl.
  rewrite le_val_app, pow256 by apply zlen_nonneg. cbn [le_val]. pose proof (zlen_nonneg l).
  replace (8 * (zlen l + (1 + 0))) with (8 * zlen l + 8) by lia. rewrite Z.pow_add_r by lia.
  intros. nia.
Qed.

Lemma abs_lt_half x n : 0 < n -> Z.abs x < 2 ^ (n - 1) <-> 2 * Z.abs x < 2 ^ n.
Proof.
  intros. replace n with (n - 1 + 1) at 2 by lia. rewrite Z.pow_add_r by lia. lia.
Qed.

Lemma CScriptNum_app l b nMax :
  is_bytes l -> is_byte b -> nMax <= 8 ->
  forall v, CScriptNum (l ++ [b]) true nMax = Ok v <->
    zlen l + 1 <= nMax /\ minimal l b /\ v = num_of l b.
Proof.
  intros Hl Hb Hn v. pose proof (zlen_nonneg l) as Hz. unfold CScriptNum. rewrite back_app, land_127. zl.
  destruct (Z.ltb_spec nMax (zlen l + (1 + 0))) as [Hlt | Hlt]; [split; [done | lia] |].
  rewrite set_vch_app by (done || lia).
  destruct (Z.ltb_spec 0 (zlen l + (1 + 0))) as [_ |]; [| lia]. cbn [andb].
  assert (Hok : minimal l b -> Ok (num_of l b) = (Ok v : res scriptnum_error Z) <->
            zlen l + 1 <= nMax /\ minimal l b /\ v = num_of l b).
  { split; [intros [= <-]; split_and!; [lia | done | done] | by intros (_ & _ & ->)]. }
  assert (Hno : ~ minimal l b -> Err non_minimally_encoded = (Ok v : res scriptnum_error Z) <->
            zlen l + 1 <= nMax /\ minimal l b /\ v = num_of l b).
  { intros H. split; [done | by intros (_ & ? & _)]. }
  destruct (Z.eqb_spec (b `mod` 128) 0) as [E | E]; cbn [andb]; [| by apply Hok; left].
  destruct l as [| c l _] using rev_ind; [apply Hno; by intros [? | [? _]] |].
  replace (idx ((l ++ [c]) ++ [b]) _) with c.
  2:{ unfold idx. zl. rewrite app_nth1 by (rewrite length_app; unfold zlen; cbn; lia).
      rewrite app_nth2 by (unfold zlen; lia). unfold zlen. by replace (_ - _)%nat with 0%nat by lia. }
  apply Forall_app in Hl as [Hl Hc]. inversion Hc as [| ? ? Hc' _]; subst. rewrite land_128 by done.
  destruct (Z.leb_spec (zlen (l ++ [c]) + (1 + 0)) 1) as [Hz1 | _];
    [revert Hz1; zl; pose proof (zlen_nonneg l); lia | cbn [orb]].
  destruct (Z.ltb_spec c 128).
  - apply Hno. intros [? | [_ Hm]]; [done |]. rewrite back_app in Hm. lia.
  - apply Hok. right. rewrite back_app. split; [by destruct l | done].
Qed.

(** with the minimality flag, a byte string is accepted as a script number
    exactly when it is the serialization of its value and the value fits the
    size limit: every number has one encoding, and reading undoes writing. *)
Theorem CScriptNum_iff_serialize (vch : bytes) (nMaxNumSize v : Z) :
  is_bytes vch -> 1 <= nMaxNumSize <= 8 ->
  CScriptNum vch true nMaxNumSize = Ok v <->
  vch = serialize v /\ Z.abs v < 2 ^ (8 * nMaxNumSize - 1).
Proof.
  intros Hb Hn.
  assert (H63 : forall n, n <= 8 -> 2 ^ (8 * n) <= 2 ^ 64) by (intros; apply Z.pow_le_mono_r; lia).
  destruct (decide (v = 0)) as [-> | Hv0].
  - rewrite abs_lt_half by lia. change (serialize 0) with (@nil Z).
    pose proof (Z.pow_pos_nonneg 2 (8 * nMaxNumSize) ltac:(lia) ltac:(lia)).
    destruct vch as [| b l _] using rev_ind.
    { unfold CScriptNum. destruct (Z.ltb_spec nMaxNumSize (zlen (@nil Z))) as [Hlt | _]; [change (zlen (@nil Z)) with 0 in Hlt; lia |].
      split; [split; [done | lia] | done]. }
    apply Forall_app in Hb as [Hl Hb]. inversion Hb as [| ? ? Hb' _]; subst.
    rewrite CScriptNum_app by (done || lia). split; [| by destruct l; intros [? _]].
    intros (_ & Hm & E). pose proof (num_of_sign l b Hl Hb' Hm). lia.
  - destruct vch as [| b l _] using rev_ind.
    { unfold CScriptNum. destruct (Z.ltb_spec nMaxNumSize (zlen (@nil Z))) as [Hlt | _]; [change (zlen (@nil Z)) with 0 in Hlt; lia |].
      rewrite abs_lt_half by lia. split; [intros E; vm_compute in E; congruence |]. intros [E Hlt]. specialize (H63 nMaxNumSize ltac:(lia)).
      destruct (serialize_form v ltac:(lia) Hv0) as (l & b & E' & _). rewrite E' in E. by destruct l. }
    apply Forall_app in Hb as [Hl Hb]. inversion Hb as [| ? ? Hb' _]; subst. clear Hb.
    rewrite CScriptNum_app, abs_lt_half by (done || lia). split.
    + intros (Hz & Hm & ->). pose proof (num_of_bounds l b Hl Hb' Hm) as [Hlo Hhi].
      assert (2 ^ (8 * (zlen l + 1)) <= 2 ^ (8 * nMaxNumSize)) by (apply Z.pow_le_mono_r; lia).
      specialize (H63 nMaxNumSize ltac:(lia)). split; [| lia].
      destruct (serialize_form (num_of l b) ltac:(lia) Hv0) as (l' & b' & -> & Hl' & Hb2 & _ & Hm' & E').
      by apply num_of_inj.
    + intros [E Hlt]. specialize (H63 nMaxNumSize ltac:(lia)).
      destruct (serialize_form v ltac:(lia) Hv0) as (l' & b' & E' & Hl' & Hb2 & _ & Hm' & Ev).
      rewrite E' in E. apply app_inj_tail in E as [-> ->]. split_and!; [| done | done].
      pose proof (num_of_bounds l' b' Hl' Hb2 Hm') as [Hlo _]. rewrite Ev in Hlo.
      assert (8 * zlen l' < 8 * nMaxNumSize); [| lia]. apply (Z.pow_lt_mono_r_iff 2); lia.
Qed.

Lemma CScriptNum_iff_serialize_witness :
  CScriptNum [255; 128] true 4 = Ok (-255) /\ serialize (-255) = [255; 128].
Proof.
  assert (Hb : is_bytes [255; 128]) by (repeat constructor; lia).
  split; [| reflexivity].
  apply (CScriptNum_iff_serialize [255; 128] 4 (-255) Hb ltac:(lia)). split; [reflexivity | cbn; lia].
Defined.

(** ** Reading a script undoes writing it *)

Lemma zlen_drop {A} n (l : list A) : 0 <= n <= zlen l -> zlen (drop (Z.to_nat n) l) = zlen l - n.
Proof. intros. unfold zlen in *. rewrite length_drop. lia. Qed.

(** [GetOp] moves [pc] forward, on every path that reads a byte. *)
Lemma GetOp_take_length pc opcode n :
  0 <= n -> (length (go_pc (GetOp_take pc opcode n)) <= length pc)%nat.
Proof. intros. unfold GetOp_take. destruct (_ <? _); cbn; [done |]. rewrite length_drop. lia. Qed.

Lemma le_val_nonneg l : is_bytes l -> 0 <= le_val l.
Proof. intros H. by apply le_val_bound. Qed.

Lemma GetOp2_length pc : is_bytes pc -> pc <> [] -> (length (go_pc (GetOp2 pc)) < length pc)%nat.
Proof.
  intros Hb Hne. destruct Hb as [| c pc Hc Hb]; [done |]. cbn [GetOp2 length].
  assert (Ht : forall k, 0 <= le_val (take k pc)) by (intros; by apply le_val_nonneg, Forall_take).
  repeat case_match; cbn [go_pc GetOp_fail]; try lia;
    match goal with
    | |- context [GetOp_take ?p ?o ?n] =>
        pose proof (GetOp_take_length p o n) as Hl; rewrite ?length_drop in Hl
    end; unfold is_byte in Hc; try specialize (Hl (Ht _)); try specialize (Hl ltac:(lia)); lia.
Qed.

Lemma GetOp2_bytes pc : is_bytes pc -> is_bytes (go_pc (GetOp2 pc)).
Proof.
  intros Hb. destruct Hb as [| c pc Hc Hb]; [constructor |]. cbn [GetOp2].
  repeat case_match; unfold GetOp_take; repeat case_match; cbn [go_pc GetOp_fail];
    auto using Forall_drop.
Qed.

Definition push_opcode (n : Z) : Z :=
  if n <? OP_PUSHDATA1 then n
  else if n <=? 255 then OP_PUSHDATA1
  else if n <=? 65535 then OP_PUSHDATA2
  else OP_PUSHDATA4.

Lemma take_drop_app {A} (l k : list A) n : n = zlen l ->
  take (Z.to_nat n) (l ++ k) = l /\ drop (Z.to_nat n) (l ++ k) = k.
Proof.
  intros ->. unfold zlen. rewrite Nat2Z.id. split; [by rewrite take_app_length | by rewrite drop_app_length].
Qed.

Lemma GetOp_take_app b rest opcode n : n = zlen b ->
  GetOp_take (b ++ rest) opcode n = GetOp_ true rest opcode b.
Proof.
  intros Hn. unfold GetOp_take. destruct (Z.ltb_spec (zlen (b ++ rest)) n) as [Hlt | _].
  { rewrite zlen_app in Hlt. pose proof (zlen_nonneg rest). lia. }
  by destruct (take_drop_app b rest n Hn) as [-> ->].
Qed.

(** [operator<<] appends a push that [GetOp] reads back. *)
Lemma GetOp2_push_data b rest : zlen b < 2 ^ 32 ->
  GetOp2 (push_data [] b ++ rest) = GetOp_ true rest (push_opcode (zlen b)) b.
Proof.
  intros Hb. pose proof (zlen_nonneg b) as H0. unfold push_data, push_opcode. ops.
  destruct (Z.ltb_spec (zlen b) 76) as [H1 | H1]; [| destruct (Z.leb_spec (zlen b) 255) as [H2 | H2];
    [| destruct (Z.leb_spec (zlen b) 65535) as [H3 | H3]]]; cbn [app]; rewrite <- ?app_assoc; cbn [app GetOp2]; ops.
  - destruct (Z.leb_spec (zlen b) 78); [| lia]. destruct (Z.ltb_spec (zlen b) 76); [| lia].
    by apply GetOp_take_app.
  - cbn [Z.leb Z.ltb Z.eqb Z.compare Pos.compare Pos.compare_cont Pos.eqb].
    destruct (Z.ltb_spec (zlen (zlen b :: b ++ rest)) 1) as [Hl | _].
    { rewrite zlen_cons in Hl. pose proof (zlen_nonneg (b ++ rest)). lia. }
    cbn [firstn skipn le_val]. apply GetOp_take_app. rewrite take_0. cbn. lia.
  - cbn [Z.leb Z.ltb Z.eqb Z.compare Pos.compare Pos.compare_cont Pos.eqb].
    destruct (Z.ltb_spec (zlen (le_bytes 2 (zlen b) ++ b ++ rest)) 2) as [Hl | _].
    { rewrite zlen_app in Hl. unfold zlen at 1 in Hl. rewrite le_bytes_length in Hl.
      pose proof (zlen_nonneg (b ++ rest)). lia. }
    rewrite take_app_le, drop_app_le by (rewrite le_bytes_length; lia).
    rewrite take_ge by (rewrite le_bytes_length; lia).
    rewrite (drop_ge (le_bytes 2 _)) by (rewrite le_bytes_length; lia). cbn [app].
    apply GetOp_take_app. rewrite le_val_le_bytes. apply Z.mod_small. cbn. lia.
  - cbn [Z.leb Z.ltb Z.eqb Z.compare Pos.compare Pos.compare_cont Pos.eqb].
    destruct (Z.ltb_spec (zlen (le_bytes 4 (zlen b) ++ b ++ rest)) 4) as [Hl | _].
    { rewrite zlen_app in Hl. unfold zlen at 1 in Hl. rewrite le_bytes_length in Hl.
      pose proof (zlen_nonneg (b ++ rest)). lia. }
    rewrite take_app_le, drop_app_le by (rewrite le_bytes_length; lia).
    rewrite take_ge by (rewrite le_bytes_length; lia).
    rewrite (drop_ge (le_bytes 4 _)) by (rewrite le_bytes_length; lia). cbn [app].
    apply GetOp_take_app. rewrite le_val_le_bytes. apply Z.mod_small. cbn. lia.
Qed.

Lemma GetOp2_op o rest : OP_PUSHDATA4 < o -> GetOp2 (o :: rest) = GetOp_ true rest o [].
Proof. intros. cbn [GetOp2]. destruct (Z.leb_spec o OP_PUSHDATA4); [lia | done]. Qed.

(** What a script is built from: opcodes and pushed vectors. *)
Inductive item := Op (o : Z) | Push (b : bytes).

Definition item_ok (i : item) : Prop :=
  match i with
  | Op o => OP_PUSHDATA4 < o <= 255
  | Push b => is_bytes b /\ zlen b < 2 ^ 32
  end.

Definition item_bytes (i : item) : bytes :=
  match i with Op o => [o] | Push b => push_data [] b end.

Definition item_op (i : item) : Z * bytes :=
  match i with Op o => (o, []) | Push b => (push_opcode (zlen b), b) end.

Definition script_of (l : list item) : bytes := concat (map item_bytes l).

Lemma GetOp2_item i rest : item_ok i ->
  GetOp2 (item_bytes i ++ rest) = GetOp_ true rest (fst (item_op i)) (snd (item_op i)).
Proof.
  destruct i as [o | b]; cbn.
  - intros [? ?]. by apply GetOp2_op.
  - intros [_ ?]. by apply GetOp2_push_data.
Qed.

Lemma item_bytes_nonnil i : item_bytes i <> [].
Proof. destruct i; cbn; [done |]. unfold push_data. repeat case_match; done. Qed.

Lemma GetOps_script_of fuel l : Forall item_ok l -> (length (script_of l) <= fuel)%nat ->
  GetOps fuel (script_of l) = (map item_op l, true).
Proof.
  intros Hl. revert fuel. induction Hl as [| i l Hi Hl IH]; intros fuel Hf.
  - destruct fuel; cbn; by rewrite ?bool_decide_true by done.
  - change (script_of (i :: l)) with (item_bytes i ++ script_of l) in *.
    pose proof (item_bytes_nonnil i). rewrite length_app in Hf.
    destruct fuel as [| fuel]; [destruct (item_bytes i); [done | cbn in Hf; lia] |]. cbn [GetOps].
    rewrite bool_decide_false by (by destruct (item_bytes i)).
    rewrite GetOp2_item by done. cbn [go_ok go_pc go_opcode go_data].
    rewrite IH; [cbn [map]; by rewrite <- surjective_pairing |].
    destruct (item_bytes i); [done |]. cbn in Hf. lia.
Qed.

(** a script written with [operator<<] is read back by the [GetOp] loop
    as the same opcodes and data, and the loop reaches the end. *)
Theorem ops_of_script_of (l : list item) :
  Forall item_ok l -> ops_of (script_of l) = (map item_op l, true).
Proof. intros. by apply GetOps_script_of. Qed.

Lemma ops_of_script_of_witness :
  let l := [Op OP_DUP; Push (replicate 300 7); Op OP_EQUALVERIFY] in
  Forall item_ok l /\ ops_of (script_of l) = (map item_op l, true).
Proof.
  assert (H : Forall item_ok [Op OP_DUP; Push (replicate 300 7); Op OP_EQUALVERIFY]).
  { repeat constructor; ops; try lia. }
  split; [exact H | exact (ops_of_script_of _ H)].
Defined.

(** ** [FindAndDelete] *)

#[global] Instance item_eq_dec : EqDecision item.
Proof. solve_decision. Defined.

(** Item encodings form a prefix code. *)
Lemma item_bytes_prefix i j rest rest' : item_ok i -> item_ok j ->
  item_bytes i ++ rest = item_bytes j ++ rest' -> i = j.
Proof.
  intros Hi Hj E. pose proof (GetOp2_item i rest Hi) as Ei. rewrite E, (GetOp2_item j rest' Hj) in Ei.
  injection Ei as _ Eo Ed. destruct i as [o | b], j as [o' | b']; cbn in *; subst.
  - done.
  - exfalso. revert Hi. unfold push_opcode. ops. repeat case_match; bprop; lia.
  - exfalso. revert Hj. unfold push_opcode. ops. repeat case_match; bprop; lia.
  - done.
Qed.

Lemma starts_with_app b rest : starts_with b (b ++ rest) = true.
Proof.
  unfold starts_with. rewrite take_app_length, bool_decide_true, zlen_app by done.
  pose proof (zlen_nonneg rest). apply andb_true_iff. split; [apply Z.leb_le; lia | done].
Qed.

Lemma starts_with_true b pc : starts_with b pc = true -> exists rest, pc = b ++ rest.
Proof.
  unfold starts_with. intros [_ H%bool_decide_eq_true]%andb_true_iff.
  exists (drop (length b) pc). by rewrite <- H at 1; rewrite take_drop.
Qed.

Lemma starts_with_item i j rest : item_ok i -> item_ok j -> i <> j ->
  starts_with (item_bytes i) (item_bytes j ++ rest) = false.
Proof.
  intros Hi Hj Hne. apply not_true_iff_false. intros [rest' E]%starts_with_true.
  by apply Hne, (item_bytes_prefix i j rest' rest).
Qed.

Lemma starts_with_nil i : starts_with (item_bytes i) [] = false.
Proof.
  apply not_true_iff_false. intros [rest E]%starts_with_true.
  pose proof (item_bytes_nonnil i). by destruct (item_bytes i).
Qed.

Lemma skip_matches_items i l fuel n : item_ok i -> Forall item_ok l ->
  (length (script_of l) <= fuel)%nat ->
  exists k l', l = replicate k i ++ l' /\ head l' <> Some i /\
    skip_matches fuel (item_bytes i) (script_of l) n = (script_of l', n + Z.of_nat k).
Proof.
  intros Hi Hl. revert fuel n. induction Hl as [| j l Hj Hl IH]; intros fuel n Hf.
  - exists 0%nat, []. split_and!; [done | done |]. rewrite Z.add_0_r.
    destruct fuel; [done |]. cbn [skip_matches script_of map concat]. by rewrite starts_with_nil.
  - change (script_of (j :: l)) with (item_bytes j ++ script_of l) in *. rewrite length_app in Hf.
    assert (0 < length (item_bytes j))%nat
      by (pose proof (item_bytes_nonnil j); destruct (item_bytes j); [done | cbn; lia]).
    destruct fuel as [| fuel]; [lia |]. cbn [skip_matches]. destruct (decide (i = j)) as [<- | Hne].
    + rewrite starts_with_app, drop_app_length.
      destruct (IH fuel (n + 1)) as (k & l' & -> & Hh & ->); [lia |].
      exists (S k), l'. split_and!; [done | done | f_equal; lia].
    + exists 0%nat, (j :: l). rewrite starts_with_item by done. split_and!; [done | cbn; congruence |].
      rewrite Z.add_0_r. done.
Qed.

Definition count_item (i : item) (l : list item) : Z := zlen (filter (fun j => j = i) l).

Lemma script_of_app l k : script_of (l ++ k) = script_of l ++ script_of k.
Proof. unfold script_of. by rewrite map_app, concat_app. Qed.

Lemma filter_replicate_ne (i : item) k : filter (fun j => j <> i) (replicate k i) = [].
Proof. induction k; [done |]. rewrite replicate_S, filter_cons_False by tauto. done. Qed.
Lemma filter_replicate_eq (i : item) k : filter (fun j => j = i) (replicate k i) = replicate k i.
Proof. induction k as [| k IH]; [done |]. rewrite replicate_S, filter_cons_True by done. by rewrite IH. Qed.

Lemma fad_loop_items i fuel l pre n : item_ok i -> Forall item_ok l -> (length l < fuel)%nat ->
  exists x y, fad_loop fuel (item_bytes i) (pre ++ script_of l) (script_of l) n
    = (x, y, n + count_item i l) /\ x ++ y = pre ++ script_of (filter (fun j => j <> i) l).
Proof.
  intros Hi. revert l pre n. induction fuel as [| fuel IH]; intros l pre n Hl Hf; [lia |].
  cbn [fad_loop]. rewrite length_app, Nat.add_sub, take_app_length.
  destruct (skip_matches_items i l (length (script_of l)) n Hi Hl ltac:(done))
    as (k & l' & -> & Hh & ->).
  rewrite filter_app, filter_replicate_ne. unfold count_item.
  rewrite filter_app, filter_replicate_eq, zlen_app.
  replace (zlen (replicate k i)) with (Z.of_nat k) by (unfold zlen; by rewrite length_replicate).
  apply Forall_app in Hl as [_ Hl]. rewrite length_app, length_replicate in Hf. cbn [app].
  destruct Hl as [| j l' Hj Hl].
  - exists pre, []. cbn. rewrite !app_nil_r, ?Z.add_0_r. done.
  - change (script_of (j :: l')) with (item_bytes j ++ script_of l').
    rewrite GetOp2_item by done. cbn [go_ok go_pc].
    destruct (IH l' (item_bytes j) (n + Z.of_nat k) Hl) as (x & y & -> & E); [cbn in Hf; lia |].
    cbn in Hh. exists (pre ++ x), y. split.
    + f_equal. rewrite (filter_cons_False _ j) by congruence. unfold count_item, zlen. lia.
    + rewrite <- app_assoc, E. rewrite filter_cons_True by congruence. done.
Qed.

Lemma filter_none (i : item) l : filter (fun j => j = i) l = [] -> filter (fun j => j <> i) l = l.
Proof.
  induction l as [| j l IH]; [done |]. intros E. destruct (decide (j = i)) as [Hj | Hj].
  - rewrite filter_cons_True in E by done. congruence.
  - rewrite filter_cons_False in E by done. rewrite filter_cons_True by done. by rewrite IH.
Qed.

Lemma FindAndDelete_script_of (i : item) (l : list item) :
  item_ok i -> Forall item_ok l ->
  FindAndDelete (script_of l) (item_bytes i)
  = (script_of (filter (fun j => j <> i) l), count_item i l).
Proof.
  intros Hi Hl. unfold FindAndDelete.
  assert (Hlen : (length l <= length (script_of l))%nat).
  { clear. induction l as [| i l IH]; [done |]. pose proof (item_bytes_nonnil i).
    change (script_of (i :: l)) with (item_bytes i ++ script_of l). rewrite length_app.
    destruct (item_bytes i); [done |]. cbn. lia. }
  destruct (Z.eqb_spec (zlen (item_bytes i)) 0) as [E | _].
  { pose proof (item_bytes_nonnil i). destruct (item_bytes i) as [| c r]; [done |].
    rewrite zlen_cons in E. pose proof (zlen_nonneg r). lia. }
  destruct (fad_loop_items i (S (length (script_of l))) l [] 0 Hi Hl ltac:(lia)) as (x & y & E & Exy).
  cbn [app] in E, Exy. rewrite E, Exy. rewrite Z.add_0_l.
  destruct (Z.ltb_spec 0 (count_item i l)) as [_ | H0]; [done |]. f_equal; f_equal.
  assert (E0 : filter (fun j => j = i) l = []).
  { unfold count_item in H0. destruct (filter (fun j => j = i) l) as [| c r]; [done |].
    rewrite zlen_cons in H0. pose proof (zlen_nonneg r). lia. }
  by rewrite filter_none.
Qed.

(** on a script written with [operator<<], [FindAndDelete] of one written
    item removes exactly the occurrences of that item and returns how many
    there were. *)
Theorem FindAndDelete_items (i : item) (l : list item) :
  item_ok i -> Forall item_ok l ->
  FindAndDelete (script_of l) (item_bytes i)
  = (script_of (filter (fun j => j <> i) l), count_item i l).
Proof. apply FindAndDelete_script_of. Qed.

Lemma FindAndDelete_items_witness :
  FindAndDelete (script_of [Push [1; 2]; Op OP_DUP; Push [1; 2]; Push [3]]) (item_bytes (Push [1; 2]))
  = (script_of [Op OP_DUP; Push [3]], 2).
Proof.
  refine (FindAndDelete_items (Push [1; 2]) [Push [1; 2]; Op OP_DUP; Push [1; 2]; Push [3]] _ _).
  - split; [repeat constructor; lia | by vm_compute].
  - repeat constructor; ops; lia.
Defined.
