(* ===== verification/HashEngine.v ===== *)
(** The buffering shared by the four hash classes of [crypto/]
    ([CSHA256], [CSHA1], [CSHA512], [CRIPEMD160]): a chaining state [s], a block
    buffer [buf] and a byte counter [bytes]. [Write] and [Finalize] have the
    same text in the four files up to the block size and the compression
    function, which are the parameters here; each class instantiates them in
    its own file. *)

From Stdlib Require Import ZArith Lia.
From stdpp Require Import base tactics list numbers strings.
From S2P Require Import Prelude.

Record hasher := Hasher { hs_s : list Z; hs_buf : bytes; hs_bytes : Z }.

(** [memcpy(buf + pos, data, len(data))] *)
Definition memcpy (buf : bytes) (pos : nat) (data : bytes) : bytes :=
  take pos buf ++ data ++ drop (pos + length data) buf.

(** Big-endian words. *)
Definition be_bytes (n : nat) (z : Z) : bytes := rev (le_bytes n z).
Definition be_val (l : bytes) : Z := le_val (rev l).

(** [ReadBE32(chunk + i)] and its siblings. *)
Definition ReadBE32 (chunk : bytes) (i : nat) : Z := be_val (take 4 (drop i chunk)).
Definition ReadBE64 (chunk : bytes) (i : nat) : Z := be_val (take 8 (drop i chunk)).
Definition ReadLE32 (chunk : bytes) (i : nat) : Z := le_val (take 4 (drop i chunk)).

Section Engine.
Context (B : nat) (Transform : list Z -> bytes -> list Z).
Context (HB : (0 < B)%nat) (HB64 : (2 ^ 64) `mod` Z.of_nat B = 0).

(** [while (end >= data + B)]: the state after the full blocks, and what is
    left of [data]. Every round consumes a block, so [length data] rounds are
    enough. *)
Fixpoint write_blocks (fuel : nat) (s : list Z) (data : bytes) : list Z * bytes :=
  match fuel with
  | O => (s, data)
  | S fuel =>
      if (B <=? length data)%nat
      then write_blocks fuel (Transform s (take B data)) (drop B data)
      else (s, data)
  end.

Definition engine_write (h : hasher) (data : bytes) : hasher :=
  let bufsize := Z.to_nat (hs_bytes h `mod` Z.of_nat B) in
  let '(s, buf, nbytes, data, bufsize) :=
    if negb (bufsize =? 0)%nat && (B <=? bufsize + length data)%nat then
      let n := (B - bufsize)%nat in
      let buf := memcpy (hs_buf h) bufsize (take n data) in
      (Transform (hs_s h) buf, buf, u64 (hs_bytes h + Z.of_nat n), drop n data, O)
    else (hs_s h, hs_buf h, hs_bytes h, data, bufsize) in
  let (s, rest) := write_blocks (length data) s data in
  let nbytes := u64 (nbytes + (zlen data - zlen rest)) in
  if (0 <? length rest)%nat
  then Hasher s (memcpy buf bufsize rest) (u64 (nbytes + zlen rest))
  else Hasher s buf nbytes.

(** The [Write] calls of [Finalize]: the padding and the size. [lenpos] is
    the size of the size descriptor. *)
Definition engine_finalize (lenpos : nat) (sizedesc : Z -> bytes) (h : hasher) : list Z :=
  let size := sizedesc (u64 (Z.shiftl (hs_bytes h) 3)) in
  let padlen := 1 + ((2 * Z.of_nat B - 1 - Z.of_nat lenpos - hs_bytes h `mod` Z.of_nat B) `mod` Z.of_nat B) in
  let h := engine_write h (take (Z.to_nat padlen) (128 :: replicate (B - 1) 0)) in
  hs_s (engine_write h size).

(** ** What the buffering computes *)

(** The reference: compress block by block from the front; the result is the
    chaining value and the unprocessed tail. *)
Definition absorb (s : list Z) (l : bytes) : list Z * bytes := write_blocks (length l) s l.

Lemma write_blocks_fuel f f' s l : (length l <= f)%nat -> (length l <= f')%nat ->
  write_blocks f s l = write_blocks f' s l.
Proof.
  revert f' s l. induction f as [| f IH]; intros f' s l Hf Hf'.
  - destruct l; [| cbn in Hf; lia]. destruct f'; [done |]. cbn. by destruct B; [lia |].
  - destruct f' as [| f']; cbn [write_blocks].
    + destruct l; [| cbn in Hf'; lia]. cbn. by destruct B; [lia |].
    + destruct (Nat.leb_spec B (length l)); [| done]. apply IH; rewrite length_drop; lia.
Qed.

Lemma absorb_step s l : (B <= length l)%nat ->
  absorb s l = absorb (Transform s (take B l)) (drop B l).
Proof.
  intros Hl. unfold absorb. destruct (length l) as [| n] eqn:E; [lia |]. cbn [write_blocks].
  rewrite E. destruct (Nat.leb_spec B (S n)); [| lia].
  apply write_blocks_fuel; rewrite length_drop; lia.
Qed.

Lemma absorb_short s l : (length l < B)%nat -> absorb s l = (s, l).
Proof.
  intros Hl. unfold absorb. destruct (length l) as [| n] eqn:E; [done |]. cbn [write_blocks].
  rewrite E. destruct (Nat.leb_spec B (S n)); [lia | done].
Qed.

Lemma absorb_spec s l : exists s' r, absorb s l = (s', r) /\ (length r < B)%nat /\
  exists k, length l = (k * B + length r)%nat /\
  forall l', absorb s (l ++ l') = absorb s' (r ++ l').
Proof.
  remember (length l) as n eqn:E. revert s l E.
  induction n as [n IH] using lt_wf_ind; intros s l E.
  destruct (decide (length l < B)%nat) as [Hs | Hs].
  - exists s, l. rewrite absorb_short by done. split_and!; [done | done |]. exists 0%nat. split; [lia | done].
  - destruct (IH (n - B)%nat ltac:(lia) (Transform s (take B l)) (drop B l)) as (s' & r & E1 & Hr & k & Hk & Ha).
    { rewrite length_drop. lia. }
    exists s', r. rewrite absorb_step by lia. split_and!; [done | done |]. exists (S k). split; [cbn; lia |].
    intros l'. rewrite absorb_step by (rewrite length_app; lia).
    rewrite take_app_le, drop_app_le by lia. apply Ha.
Qed.

(** The buffered object stands for the message [m] absorbed from [s0]. *)
Definition represents (s0 : list Z) (h : hasher) (m : bytes) : Prop :=
  exists r, absorb s0 m = (hs_s h, r) /\ take (length r) (hs_buf h) = r
    /\ length (hs_buf h) = B /\ hs_bytes h = u64 (zlen m).

Lemma u64_mod_B x : u64 x `mod` Z.of_nat B = x `mod` Z.of_nat B.
Proof.
  unfold u64. apply Z.mod_divide in HB64 as [q Hq]; [| lia].
  rewrite Hq. rewrite (Z.mul_comm q), Z.rem_mul_r by nia.
  rewrite (Z.mul_comm (Z.of_nat B)), Z.mod_add, Z.mod_mod by lia. done.
Qed.

Lemma represents_bufsize s0 h m r :
  absorb s0 m = (hs_s h, r) -> hs_bytes h = u64 (zlen m) ->
  Z.to_nat (hs_bytes h `mod` Z.of_nat B) = length r.
Proof.
  intros E Hb. destruct (absorb_spec s0 m) as (s' & r' & E' & Hr & k & Hk & _).
  rewrite E in E'. injection E' as _ <-.
  rewrite Hb, u64_mod_B. unfold zlen. rewrite Hk, Nat2Z.inj_add, Nat2Z.inj_mul, Z.add_comm, Z.mod_add by lia.
  rewrite Z.mod_small by lia. lia.
Qed.

Lemma u64_add_l a b : u64 (u64 a + b) = u64 (a + b).
Proof. unfold u64. by rewrite Zplus_mod_idemp_l. Qed.

Ltac u64s := rewrite <- ?Z.add_assoc, ?u64_add_l; f_equal; lia.

Lemma memcpy_take buf pos data :
  (pos + length data <= length buf)%nat ->
  take (pos + length data) (memcpy buf pos data) = take pos buf ++ data /\
  length (memcpy buf pos data) = length buf.
Proof.
  intros H. unfold memcpy. rewrite !length_app, length_take, length_drop. split; [| lia].
  rewrite app_assoc. rewrite take_app_le by (rewrite length_app, length_take; lia).
  rewrite take_ge; [done | rewrite length_app, length_take; lia].
Qed.

(** [Write] appends to the message. *)
Lemma engine_write_represents s0 h m data :
  represents s0 h m -> represents s0 (engine_write h data) (m ++ data).
Proof.
  intros (r & Ea & Hr & Hlen & Hb). destruct (absorb_spec s0 m) as (s' & r' & E' & Hrl & k & Hk & Happ).
  rewrite Ea in E'. injection E' as <- <-.
  unfold engine_write. rewrite (represents_bufsize s0 h m r Ea Hb).
  unfold represents. rewrite (Happ data), zlen_app.
  destruct (negb (length r =? 0)%nat && (B <=? length r + length data)%nat) eqn:Ec.
  - apply andb_true_iff in Ec as [_ Hge%Nat.leb_le].
    assert (Hc : memcpy (hs_buf h) (length r) (take (B - length r) data) = r ++ take (B - length r) data).
    { unfold memcpy. rewrite Hr. rewrite length_take, drop_ge by lia. by rewrite app_nil_r. }
    rewrite Hc. set (c := r ++ take (B - length r) data). set (d := drop (B - length r) data).
    assert (Hcl : length c = B) by (unfold c; rewrite length_app, length_take; lia).
    assert (Habs : absorb (hs_s h) (r ++ data) = absorb (Transform (hs_s h) c) d).
    { rewrite absorb_step by (rewrite length_app; lia). f_equal.
      - f_equal. unfold c. rewrite take_app_ge by lia. done.
      - unfold d. rewrite drop_app_ge by lia. done. }
    rewrite Habs. destruct (absorb_spec (Transform (hs_s h) c) d) as (s2 & r2 & E2 & Hr2 & _).
    unfold absorb in E2 at 1. rewrite E2.
    assert (Hn : zlen data = Z.of_nat (B - length r) + zlen d) by (unfold zlen, d; rewrite length_drop; lia).
    rewrite Hb, !u64_add_l. exists r2.
    destruct (Nat.ltb_spec 0 (length r2)) as [Hpos | Hz]; cbn [hs_s hs_buf hs_bytes].
    + destruct (memcpy_take c 0 r2 ltac:(lia)) as [Ht Hl]. cbn [Nat.add app] in Ht. rewrite take_0 in Ht.
      rewrite Ht, Hl, ?u64_add_l. split_and!; [done | done | done | u64s].
    + destruct r2; [| cbn in Hz; lia]. change (zlen (@nil Z)) with 0. split_and!; [done | done | done | u64s].
  - destruct (write_blocks (length data) (hs_s h) data) as [s2 r2] eqn:E2.
    assert (Hcase : r = [] \/ (r <> [] /\ s2 = hs_s h /\ r2 = data /\ (length r + length data < B)%nat)).
    { destruct r as [| x r]; [by left | right]. cbn -[Nat.leb] in Ec. apply Nat.leb_gt in Ec.
      fold (absorb (hs_s h) data) in E2. rewrite absorb_short in E2 by lia. simplify_eq. cbn. by split_and!; [| | | lia]. }
    rewrite Hb, u64_add_l. destruct Hcase as [-> | (Hne & -> & -> & Hlt)].
    + cbn [app length]. fold (absorb (hs_s h) data) in E2. rewrite E2.
      destruct (absorb_spec (hs_s h) data) as (s3 & r3 & E3 & Hr2 & _). rewrite E2 in E3. injection E3 as <- <-.
      exists r2. destruct (Nat.ltb_spec 0 (length r2)) as [Hpos | Hz]; cbn [hs_s hs_buf hs_bytes].
      * destruct (memcpy_take (hs_buf h) 0 r2 ltac:(lia)) as [Ht Hl]. cbn [Nat.add app] in Ht. rewrite take_0 in Ht.
        rewrite Ht, Hl, ?u64_add_l. split_and!; [done | done | done | u64s].
      * destruct r2; [| cbn in Hz; lia]. change (zlen (@nil Z)) with 0. split_and!; [done | done | done | u64s].
    + exists (r ++ data). rewrite absorb_short by (rewrite length_app; lia).
      destruct (Nat.ltb_spec 0 (length data)) as [Hpos | Hz]; cbn [hs_s hs_buf hs_bytes].
      * destruct (memcpy_take (hs_buf h) (length r) data ltac:(lia)) as [Ht Hl].
        rewrite length_app, Ht, Hl, Hr, ?u64_add_l. split_and!; [done | done | done | u64s].
      * destruct data; [| cbn in Hz; lia]. rewrite app_nil_r. change (zlen (@nil Z)) with 0.
        split_and!; [done | done | done | u64s].
Qed.

(** A fresh object, whatever its uninitialised buffer holds. *)
Lemma represents_init s0 buf : length buf = B -> represents s0 (Hasher s0 buf 0) [].
Proof. intros Hl. exists []. split_and!; done. Qed.

Lemma engine_writes_represents s0 h m ds :
  represents s0 h m -> represents s0 (fold_left engine_write ds h) (m ++ concat ds).
Proof.
  revert h m. induction ds as [| d ds IH]; intros h m Hr; cbn [fold_left concat].
  - by rewrite app_nil_r.
  - rewrite app_assoc. by apply IH, engine_write_represents.
Qed.

(** The padding of a message: a one bit, zeros, and the length in bits. *)
Definition md_pad (lenpos : nat) (sizedesc : Z -> bytes) (m : bytes) : bytes :=
  128 :: replicate (Z.to_nat ((2 * Z.of_nat B - 1 - Z.of_nat lenpos - zlen m) `mod` Z.of_nat B)) 0
  ++ sizedesc (u64 (8 * zlen m)).

(** The digest state by definition: compress the padded message block by
    block. *)
Definition md_hash (s0 : list Z) (lenpos : nat) (sizedesc : Z -> bytes) (m : bytes) : list Z :=
  fst (absorb s0 (m ++ md_pad lenpos sizedesc m)).

Lemma take_pad n : (n < B)%nat -> take (S n) (128 :: replicate (B - 1) 0) = 128 :: replicate n 0.
Proof.
  intros. cbn [firstn]. f_equal. rewrite take_replicate. f_equal. lia.
Qed.

Lemma engine_finalize_spec s0 h m lenpos sizedesc :
  represents s0 h m -> engine_finalize lenpos sizedesc h = md_hash s0 lenpos sizedesc m.
Proof.
  intros Hr. unfold engine_finalize.
  assert (Hb : hs_bytes h = u64 (zlen m)) by (by destruct Hr as (? & _ & _ & _ & ?)).
  set (x := (2 * Z.of_nat B - 1 - Z.of_nat lenpos - zlen m) `mod` Z.of_nat B).
  assert (Hx : 0 <= x < Z.of_nat B) by (apply Z.mod_pos_bound; lia).
  replace ((2 * Z.of_nat B - 1 - Z.of_nat lenpos - hs_bytes h `mod` Z.of_nat B) `mod` Z.of_nat B) with x
    by (unfold x; rewrite Hb, u64_mod_B, Zminus_mod_idemp_r; done).
  replace (Z.to_nat (1 + x)) with (S (Z.to_nat x)) by lia. rewrite take_pad by lia.
  replace (u64 (Z.shiftl (hs_bytes h) 3)) with (u64 (8 * zlen m))
    by (rewrite Hb, Z.shiftl_mul_pow2 by lia; unfold u64; rewrite Z.mul_mod_idemp_l by lia; f_equal; lia).
  destruct (engine_write_represents s0 _ _ (sizedesc (u64 (8 * zlen m)))
    (engine_write_represents s0 h m (128 :: replicate (Z.to_nat x) 0) Hr)) as (r & E & _).
  unfold md_hash, md_pad. fold x. rewrite <- app_assoc in E. cbn [app] in E. by rewrite E.
Qed.

(** Splitting the input over any number of [Write] calls does not change the
    digest. *)
Lemma engine_stream s0 buf lenpos sizedesc ds : length buf = B ->
  engine_finalize lenpos sizedesc (fold_left engine_write ds (Hasher s0 buf 0))
  = md_hash s0 lenpos sizedesc (concat ds).
Proof.
  intros. apply engine_finalize_spec.
  by apply (engine_writes_represents s0 (Hasher s0 buf 0) []), represents_init.
Qed.
End Engine.
