(* ===== verification/Sha256.v ===== *)
(** [crypto/sha256.cpp]: SHA-256. *)

From Stdlib Require Import ZArith Lia.
From stdpp Require Import base tactics list numbers strings.
From S2P Require Import Prelude HashEngine.

Declare Scope sha256_scope.
Notation "x ⊞ y" := (u32 (x + y)) (at level 50, left associativity) : sha256_scope.
#[local] Open Scope sha256_scope.

Definition sha256_Ch (x y z : Z) : Z := Z.lxor z (Z.land x (Z.lxor y z)).
Definition sha256_Maj (x y z : Z) : Z := Z.lor (Z.land x y) (Z.land z (Z.lor x y)).
Definition sha256_Sigma0 (x : Z) : Z :=
  Z.lxor (Z.lxor (Z.lor (Z.shiftr x 2) (u32 (Z.shiftl x 30))) (Z.lor (Z.shiftr x 13) (u32 (Z.shiftl x 19))))
         (Z.lor (Z.shiftr x 22) (u32 (Z.shiftl x 10))).
Definition sha256_Sigma1 (x : Z) : Z :=
  Z.lxor (Z.lxor (Z.lor (Z.shiftr x 6) (u32 (Z.shiftl x 26))) (Z.lor (Z.shiftr x 11) (u32 (Z.shiftl x 21))))
         (Z.lor (Z.shiftr x 25) (u32 (Z.shiftl x 7))).
Definition sha256_sigma0 (x : Z) : Z :=
  Z.lxor (Z.lxor (Z.lor (Z.shiftr x 7) (u32 (Z.shiftl x 25))) (Z.lor (Z.shiftr x 18) (u32 (Z.shiftl x 14)))) (Z.shiftr x 3).
Definition sha256_sigma1 (x : Z) : Z :=
  Z.lxor (Z.lxor (Z.lor (Z.shiftr x 17) (u32 (Z.shiftl x 15))) (Z.lor (Z.shiftr x 19) (u32 (Z.shiftl x 13)))) (Z.shiftr x 10).

(** [Round]: the new values of the references [d] and [h]. *)
Definition sha256_Round (a b c d e f g h k w : Z) : Z * Z :=
  let t1 := h ⊞ sha256_Sigma1 e ⊞ sha256_Ch e f g ⊞ k ⊞ w in
  let t2 := sha256_Sigma0 a ⊞ sha256_Maj a b c in
  (d ⊞ t1, t1 ⊞ t2).

Definition sha256_Initialize : list Z :=
  [0x6a09e667; 0xbb67ae85; 0x3c6ef372; 0xa54ff53a; 0x510e527f; 0x9b05688c; 0x1f83d9ab; 0x5be0cd19].

(** [Transform], round by round. *)
Definition sha256_Transform (s : list Z) (chunk : bytes) : list Z :=
  let a := idx s 0 in let b := idx s 1 in let c := idx s 2 in let d := idx s 3 in
  let e := idx s 4 in let f := idx s 5 in let g := idx s 6 in let h := idx s 7 in
  let w0 := ReadBE32 chunk 0 in
  let '(d, h) := sha256_Round a b c d e f g h 0x428a2f98 w0 in
  let w1 := ReadBE32 chunk 4 in
  let '(c, g) := sha256_Round h a b c d e f g 0x71374491 w1 in
  let w2 := ReadBE32 chunk 8 in
  let '(b, f) := sha256_Round g h a b c d e f 0xb5c0fbcf w2 in
  let w3 := ReadBE32 chunk 12 in
  let '(a, e) := sha256_Round f g h a b c d e 0xe9b5dba5 w3 in
  let w4 := ReadBE32 chunk 16 in
  let '(h, d) := sha256_Round e f g h a b c d 0x3956c25b w4 in
  let w5 := ReadBE32 chunk 20 in
  let '(g, c) := sha256_Round d e f g h a b c 0x59f111f1 w5 in
  let w6 := ReadBE32 chunk 24 in
  let '(f, b) := sha256_Round c d e f g h a b 0x923f82a4 w6 in
  let w7 := ReadBE32 chunk 28 in
  let '(e, a) := sha256_Round b c d e f g h a 0xab1c5ed5 w7 in
  let w8 := ReadBE32 chunk 32 in
  let '(d, h) := sha256_Round a b c d e f g h 0xd807aa98 w8 in
  let w9 := ReadBE32 chunk 36 in
  let '(c, g) := sha256_Round h a b c d e f g 0x12835b01 w9 in
  let w10 := ReadBE32 chunk 40 in
  let '(b, f) := sha256_Round g h a b c d e f 0x243185be w10 in
  let w11 := ReadBE32 chunk 44 in
  let '(a, e) := sha256_Round f g h a b c d e 0x550c7dc3 w11 in
  let w12 := ReadBE32 chunk 48 in
  let '(h, d) := sha256_Round e f g h a b c d 0x72be5d74 w12 in
  let w13 := ReadBE32 chunk 52 in
  let '(g, c) := sha256_Round d e f g h a b c 0x80deb1fe w13 in
  let w14 := ReadBE32 chunk 56 in
  let '(f, b) := sha256_Round c d e f g h a b 0x9bdc06a7 w14 in
  let w15 := ReadBE32 chunk 60 in
  let '(e, a) := sha256_Round b c d e f g h a 0xc19bf174 w15 in
  let w0 := w0 ⊞ (sha256_sigma1 w14 ⊞ w9 ⊞ sha256_sigma0 w1) in
  let '(d, h) := sha256_Round a b c d e f g h 0xe49b69c1 w0 in
  let w1 := w1 ⊞ (sha256_sigma1 w15 ⊞ w10 ⊞ sha256_sigma0 w2) in
  let '(c, g) := sha256_Round h a b c d e f g 0xefbe4786 w1 in
  let w2 := w2 ⊞ (sha256_sigma1 w0 ⊞ w11 ⊞ sha256_sigma0 w3) in
  let '(b, f) := sha256_Round g h a b c d e f 0x0fc19dc6 w2 in
  let w3 := w3 ⊞ (sha256_sigma1 w1 ⊞ w12 ⊞ sha256_sigma0 w4) in
  let '(a, e) := sha256_Round f g h a b c d e 0x240ca1cc w3 in
  let w4 := w4 ⊞ (sha256_sigma1 w2 ⊞ w13 ⊞ sha256_sigma0 w5) in
  let '(h, d) := sha256_Round e f g h a b c d 0x2de92c6f w4 in
  let w5 := w5 ⊞ (sha256_sigma1 w3 ⊞ w14 ⊞ sha256_sigma0 w6) in
  let '(g, c) := sha256_Round d e f g h a b c 0x4a7484aa w5 in
  let w6 := w6 ⊞ (sha256_sigma1 w4 ⊞ w15 ⊞ sha256_sigma0 w7) in
  let '(f, b) := sha256_Round c d e f g h a b 0x5cb0a9dc w6 in
  let w7 := w7 ⊞ (sha256_sigma1 w5 ⊞ w0 ⊞ sha256_sigma0 w8) in
  let '(e, a) := sha256_Round b c d e f g h a 0x76f988da w7 in
  let w8 := w8 ⊞ (sha256_sigma1 w6 ⊞ w1 ⊞ sha256_sigma0 w9) in
  let '(d, h) := sha256_Round a b c d e f g h 0x983e5152 w8 in
  let w9 := w9 ⊞ (sha256_sigma1 w7 ⊞ w2 ⊞ sha256_sigma0 w10) in
  let '(c, g) := sha256_Round h a b c d e f g 0xa831c66d w9 in
  let w10 := w10 ⊞ (sha256_sigma1 w8 ⊞ w3 ⊞ sha256_sigma0 w11) in
  let '(b, f) := sha256_Round g h a b c d e f 0xb00327c8 w10 in
  let w11 := w11 ⊞ (sha256_sigma1 w9 ⊞ w4 ⊞ sha256_sigma0 w12) in
  let '(a, e) := sha256_Round f g h a b c d e 0xbf597fc7 w11 in
  let w12 := w12 ⊞ (sha256_sigma1 w10 ⊞ w5 ⊞ sha256_sigma0 w13) in
  let '(h, d) := sha256_Round e f g h a b c d 0xc6e00bf3 w12 in
  let w13 := w13 ⊞ (sha256_sigma1 w11 ⊞ w6 ⊞ sha256_sigma0 w14) in
  let '(g, c) := sha256_Round d e f g h a b c 0xd5a79147 w13 in
  let w14 := w14 ⊞ (sha256_sigma1 w12 ⊞ w7 ⊞ sha256_sigma0 w15) in
  let '(f, b) := sha256_Round c d e f g h a b 0x06ca6351 w14 in
  let w15 := w15 ⊞ (sha256_sigma1 w13 ⊞ w8 ⊞ sha256_sigma0 w0) in
  let '(e, a) := sha256_Round b c d e f g h a 0x14292967 w15 in
  let w0 := w0 ⊞ (sha256_sigma1 w14 ⊞ w9 ⊞ sha256_sigma0 w1) in
  let '(d, h) := sha256_Round a b c d e f g h 0x27b70a85 w0 in
  let w1 := w1 ⊞ (sha256_sigma1 w15 ⊞ w10 ⊞ sha256_sigma0 w2) in
  let '(c, g) := sha256_Round h a b c d e f g 0x2e1b2138 w1 in
  let w2 := w2 ⊞ (sha256_sigma1 w0 ⊞ w11 ⊞ sha256_sigma0 w3) in
  let '(b, f) := sha256_Round g h a b c d e f 0x4d2c6dfc w2 in
  let w3 := w3 ⊞ (sha256_sigma1 w1 ⊞ w12 ⊞ sha256_sigma0 w4) in
  let '(a, e) := sha256_Round f g h a b c d e 0x53380d13 w3 in
  let w4 := w4 ⊞ (sha256_sigma1 w2 ⊞ w13 ⊞ sha256_sigma0 w5) in
  let '(h, d) := sha256_Round e f g h a b c d 0x650a7354 w4 in
  let w5 := w5 ⊞ (sha256_sigma1 w3 ⊞ w14 ⊞ sha256_sigma0 w6) in
  let '(g, c) := sha256_Round d e f g h a b c 0x766a0abb w5 in
  let w6 := w6 ⊞ (sha256_sigma1 w4 ⊞ w15 ⊞ sha256_sigma0 w7) in
  let '(f, b) := sha256_Round c d e f g h a b 0x81c2c92e w6 in
  let w7 := w7 ⊞ (sha256_sigma1 w5 ⊞ w0 ⊞ sha256_sigma0 w8) in
  let '(e, a) := sha256_Round b c d e f g h a 0x92722c85 w7 in
  let w8 := w8 ⊞ (sha256_sigma1 w6 ⊞ w1 ⊞ sha256_sigma0 w9) in
  let '(d, h) := sha256_Round a b c d e f g h 0xa2bfe8a1 w8 in
  let w9 := w9 ⊞ (sha256_sigma1 w7 ⊞ w2 ⊞ sha256_sigma0 w10) in
  let '(c, g) := sha256_Round h a b c d e f g 0xa81a664b w9 in
  let w10 := w10 ⊞ (sha256_sigma1 w8 ⊞ w3 ⊞ sha256_sigma0 w11) in
  let '(b, f) := sha256_Round g h a b c d e f 0xc24b8b70 w10 in
  let w11 := w11 ⊞ (sha256_sigma1 w9 ⊞ w4 ⊞ sha256_sigma0 w12) in
  let '(a, e) := sha256_Round f g h a b c d e 0xc76c51a3 w11 in
  let w12 := w12 ⊞ (sha256_sigma1 w10 ⊞ w5 ⊞ sha256_sigma0 w13) in
  let '(h, d) := sha256_Round e f g h a b c d 0xd192e819 w12 in
  let w13 := w13 ⊞ (sha256_sigma1 w11 ⊞ w6 ⊞ sha256_sigma0 w14) in
  let '(g, c) := sha256_Round d e f g h a b c 0xd6990624 w13 in
  let w14 := w14 ⊞ (sha256_sigma1 w12 ⊞ w7 ⊞ sha256_sigma0 w15) in
  let '(f, b) := sha256_Round c d e f g h a b 0xf40e3585 w14 in
  let w15 := w15 ⊞ (sha256_sigma1 w13 ⊞ w8 ⊞ sha256_sigma0 w0) in
  let '(e, a) := sha256_Round b c d e f g h a 0x106aa070 w15 in
  let w0 := w0 ⊞ (sha256_sigma1 w14 ⊞ w9 ⊞ sha256_sigma0 w1) in
  let '(d, h) := sha256_Round a b c d e f g h 0x19a4c116 w0 in
  let w1 := w1 ⊞ (sha256_sigma1 w15 ⊞ w10 ⊞ sha256_sigma0 w2) in
  let '(c, g) := sha256_Round h a b c d e f g 0x1e376c08 w1 in
  let w2 := w2 ⊞ (sha256_sigma1 w0 ⊞ w11 ⊞ sha256_sigma0 w3) in
  let '(b, f) := sha256_Round g h a b c d e f 0x2748774c w2 in
  let w3 := w3 ⊞ (sha256_sigma1 w1 ⊞ w12 ⊞ sha256_sigma0 w4) in
  let '(a, e) := sha256_Round f g h a b c d e 0x34b0bcb5 w3 in
  let w4 := w4 ⊞ (sha256_sigma1 w2 ⊞ w13 ⊞ sha256_sigma0 w5) in
  let '(h, d) := sha256_Round e f g h a b c d 0x391c0cb3 w4 in
  let w5 := w5 ⊞ (sha256_sigma1 w3 ⊞ w14 ⊞ sha256_sigma0 w6) in
  let '(g, c) := sha256_Round d e f g h a b c 0x4ed8aa4a w5 in
  let w6 := w6 ⊞ (sha256_sigma1 w4 ⊞ w15 ⊞ sha256_sigma0 w7) in
  let '(f, b) := sha256_Round c d e f g h a b 0x5b9cca4f w6 in
  let w7 := w7 ⊞ (sha256_sigma1 w5 ⊞ w0 ⊞ sha256_sigma0 w8) in
  let '(e, a) := sha256_Round b c d e f g h a 0x682e6ff3 w7 in
  let w8 := w8 ⊞ (sha256_sigma1 w6 ⊞ w1 ⊞ sha256_sigma0 w9) in
  let '(d, h) := sha256_Round a b c d e f g h 0x748f82ee w8 in
  let w9 := w9 ⊞ (sha256_sigma1 w7 ⊞ w2 ⊞ sha256_sigma0 w10) in
  let '(c, g) := sha256_Round h a b c d e f g 0x78a5636f w9 in
  let w10 := w10 ⊞ (sha256_sigma1 w8 ⊞ w3 ⊞ sha256_sigma0 w11) in
  let '(b, f) := sha256_Round g h a b c d e f 0x84c87814 w10 in
  let w11 := w11 ⊞ (sha256_sigma1 w9 ⊞ w4 ⊞ sha256_sigma0 w12) in
  let '(a, e) := sha256_Round f g h a b c d e 0x8cc70208 w11 in
  let w12 := w12 ⊞ (sha256_sigma1 w10 ⊞ w5 ⊞ sha256_sigma0 w13) in
  let '(h, d) := sha256_Round e f g h a b c d 0x90befffa w12 in
  let w13 := w13 ⊞ (sha256_sigma1 w11 ⊞ w6 ⊞ sha256_sigma0 w14) in
  let '(g, c) := sha256_Round d e f g h a b c 0xa4506ceb w13 in
  let '(f, b) := sha256_Round c d e f g h a b 0xbef9a3f7 (w14 ⊞ sha256_sigma1 w12 ⊞ w7 ⊞ sha256_sigma0 w15) in
  let '(e, a) := sha256_Round b c d e f g h a 0xc67178f2 (w15 ⊞ sha256_sigma1 w13 ⊞ w8 ⊞ sha256_sigma0 w0) in
  [idx s 0 ⊞ a; idx s 1 ⊞ b; idx s 2 ⊞ c; idx s 3 ⊞ d;
   idx s 4 ⊞ e; idx s 5 ⊞ f; idx s 6 ⊞ g; idx s 7 ⊞ h].

(** The class: the constructor leaves [buf] uninitialised, which is the
    argument here; [Reset] keeps it. *)
Definition CSHA256_init (buf : bytes) : hasher := Hasher sha256_Initialize buf 0.
Definition CSHA256_Write : hasher -> bytes -> hasher := engine_write 64 sha256_Transform.
Definition CSHA256_sizedesc (bits : Z) : bytes := be_bytes 8 bits.
Definition CSHA256_Finalize (h : hasher) : bytes :=
  flat_map (be_bytes 4) (engine_finalize 64 sha256_Transform 8 CSHA256_sizedesc h).
Definition CSHA256_Reset (h : hasher) : hasher := Hasher sha256_Initialize (hs_buf h) 0.

(** [CSHA256().Write(m).Finalize(...)]; the buffer content does not matter. *)
Definition sha256 (m : bytes) : bytes :=
  CSHA256_Finalize (CSHA256_Write (CSHA256_init (replicate 64 0)) m).

#[global] Strategy 1000 [sha256_Transform].

(** ** The reference: compress the padded message block by block *)

Definition sha256_ref (m : bytes) : bytes :=
  flat_map (be_bytes 4) (md_hash 64 sha256_Transform sha256_Initialize 8 CSHA256_sizedesc m).

Lemma sha256_stream buf ds : length buf = 64%nat ->
  CSHA256_Finalize (fold_left CSHA256_Write ds (CSHA256_init buf)) = sha256_ref (concat ds).
Proof.
  intros Hl. unfold CSHA256_Finalize, sha256_ref. f_equal. by apply engine_stream; [lia | |].
Qed.

Lemma sha256_eq m : sha256 m = sha256_ref m.
Proof.
  unfold sha256. change (CSHA256_Write ?h m) with (fold_left CSHA256_Write [m] h).
  rewrite sha256_stream by apply length_replicate. cbn [concat]. by rewrite app_nil_r.
Qed.

(** [Reset] starts over whatever was written before. *)
Lemma CSHA256_Reset_stream h ds : length (hs_buf h) = 64%nat ->
  CSHA256_Finalize (fold_left CSHA256_Write ds (CSHA256_Reset h)) = sha256_ref (concat ds).
Proof. intros. by apply sha256_stream. Qed.
