(* ===== verification/Sha512.v ===== *)
(** [crypto/sha512.cpp]: SHA-512. *)

From Stdlib Require Import ZArith Lia.
From stdpp Require Import base tactics list numbers strings.
From S2P Require Import Prelude HashEngine.

Declare Scope sha512_scope.
Notation "x ⊞ y" := (u64 (x + y)) (at level 50, left associativity) : sha512_scope.
#[local] Open Scope sha512_scope.

Definition sha512_Ch (x y z : Z) : Z := Z.lxor z (Z.land x (Z.lxor y z)).
Definition sha512_Maj (x y z : Z) : Z := Z.lor (Z.land x y) (Z.land z (Z.lor x y)).
Definition sha512_Sigma0 (x : Z) : Z :=
  Z.lxor (Z.lxor (Z.lor (Z.shiftr x 28) (u64 (Z.shiftl x 36))) (Z.lor (Z.shiftr x 34) (u64 (Z.shiftl x 30))))
         (Z.lor (Z.shiftr x 39) (u64 (Z.shiftl x 25))).
Definition sha512_Sigma1 (x : Z) : Z :=
  Z.lxor (Z.lxor (Z.lor (Z.shiftr x 14) (u64 (Z.shiftl x 50))) (Z.lor (Z.shiftr x 18) (u64 (Z.shiftl x 46))))
         (Z.lor (Z.shiftr x 41) (u64 (Z.shiftl x 23))).
Definition sha512_sigma0 (x : Z) : Z :=
  Z.lxor (Z.lxor (Z.lor (Z.shiftr x 1) (u64 (Z.shiftl x 63))) (Z.lor (Z.shiftr x 8) (u64 (Z.shiftl x 56)))) (Z.shiftr x 7).
Definition sha512_sigma1 (x : Z) : Z :=
  Z.lxor (Z.lxor (Z.lor (Z.shiftr x 19) (u64 (Z.shiftl x 45))) (Z.lor (Z.shiftr x 61) (u64 (Z.shiftl x 3)))) (Z.shiftr x 6).

(** [Round]: the new values of the references [d] and [h]. *)
Definition sha512_Round (a b c d e f g h k w : Z) : Z * Z :=
  let t1 := h ⊞ sha512_Sigma1 e ⊞ sha512_Ch e f g ⊞ k ⊞ w in
  let t2 := sha512_Sigma0 a ⊞ sha512_Maj a b c in
  (d ⊞ t1, t1 ⊞ t2).

Definition sha512_Initialize : list Z :=
  [0x6a09e667f3bcc908; 0xbb67ae8584caa73b; 0x3c6ef372fe94f82b; 0xa54ff53a5f1d36f1; 0x510e527fade682d1; 0x9b05688c2b3e6c1f; 0x1f83d9abfb41bd6b; 0x5be0cd19137e2179].

(** [Transform], round by round. *)
Definition sha512_Transform (s : list Z) (chunk : bytes) : list Z :=
  let a := idx s 0 in let b := idx s 1 in let c := idx s 2 in let d := idx s 3 in
  let e := idx s 4 in let f := idx s 5 in let g := idx s 6 in let h := idx s 7 in
  let w0 := ReadBE64 chunk 0 in
  let '(d, h) := sha512_Round a b c d e f g h 0x428a2f98d728ae22 w0 in
  let w1 := ReadBE64 chunk 8 in
  let '(c, g) := sha512_Round h a b c d e f g 0x7137449123ef65cd w1 in
  let w2 := ReadBE64 chunk 16 in
  let '(b, f) := sha512_Round g h a b c d e f 0xb5c0fbcfec4d3b2f w2 in
  let w3 := ReadBE64 chunk 24 in
  let '(a, e) := sha512_Round f g h a b c d e 0xe9b5dba58189dbbc w3 in
  let w4 := ReadBE64 chunk 32 in
  let '(h, d) := sha512_Round e f g h a b c d 0x3956c25bf348b538 w4 in
  let w5 := ReadBE64 chunk 40 in
  let '(g, c) := sha512_Round d e f g h a b c 0x59f111f1b605d019 w5 in
  let w6 := ReadBE64 chunk 48 in
  let '(f, b) := sha512_Round c d e f g h a b 0x923f82a4af194f9b w6 in
  let w7 := ReadBE64 chunk 56 in
  let '(e, a) := sha512_Round b c d e f g h a 0xab1c5ed5da6d8118 w7 in
  let w8 := ReadBE64 chunk 64 in
  let '(d, h) := sha512_Round a b c d e f g h 0xd807aa98a3030242 w8 in
  let w9 := ReadBE64 chunk 72 in
  let '(c, g) := sha512_Round h a b c d e f g 0x12835b0145706fbe w9 in
  let w10 := ReadBE64 chunk 80 in
  let '(b, f) := sha512_Round g h a b c d e f 0x243185be4ee4b28c w10 in
  let w11 := ReadBE64 chunk 88 in
  let '(a, e) := sha512_Round f g h a b c d e 0x550c7dc3d5ffb4e2 w11 in
  let w12 := ReadBE64 chunk 96 in
  let '(h, d) := sha512_Round e f g h a b c d 0x72be5d74f27b896f w12 in
  let w13 := ReadBE64 chunk 104 in
  let '(g, c) := sha512_Round d e f g h a b c 0x80deb1fe3b1696b1 w13 in
  let w14 := ReadBE64 chunk 112 in
  let '(f, b) := sha512_Round c d e f g h a b 0x9bdc06a725c71235 w14 in
  let w15 := ReadBE64 chunk 120 in
  let '(e, a) := sha512_Round b c d e f g h a 0xc19bf174cf692694 w15 in
  let w0 := w0 ⊞ (sha512_sigma1 w14 ⊞ w9 ⊞ sha512_sigma0 w1) in
  let '(d, h) := sha512_Round a b c d e f g h 0xe49b69c19ef14ad2 w0 in
  let w1 := w1 ⊞ (sha512_sigma1 w15 ⊞ w10 ⊞ sha512_sigma0 w2) in
  let '(c, g) := sha512_Round h a b c d e f g 0xefbe4786384f25e3 w1 in
  let w2 := w2 ⊞ (sha512_sigma1 w0 ⊞ w11 ⊞ sha512_sigma0 w3) in
  let '(b, f) := sha512_Round g h a b c d e f 0x0fc19dc68b8cd5b5 w2 in
  let w3 := w3 ⊞ (sha512_sigma1 w1 ⊞ w12 ⊞ sha512_sigma0 w4) in
  let '(a, e) := sha512_Round f g h a b c d e 0x240ca1cc77ac9c65 w3 in
  let w4 := w4 ⊞ (sha512_sigma1 w2 ⊞ w13 ⊞ sha512_sigma0 w5) in
  let '(h, d) := sha512_Round e f g h a b c d 0x2de92c6f592b0275 w4 in
  let w5 := w5 ⊞ (sha512_sigma1 w3 ⊞ w14 ⊞ sha512_sigma0 w6) in
  let '(g, c) := sha512_Round d e f g h a b c 0x4a7484aa6ea6e483 w5 in
  let w6 := w6 ⊞ (sha512_sigma1 w4 ⊞ w15 ⊞ sha512_sigma0 w7) in
  let '(f, b) := sha512_Round c d e f g h a b 0x5cb0a9dcbd41fbd4 w6 in
  let w7 := w7 ⊞ (sha512_sigma1 w5 ⊞ w0 ⊞ sha512_sigma0 w8) in
  let '(e, a) := sha512_Round b c d e f g h a 0x76f988da831153b5 w7 in
  let w8 := w8 ⊞ (sha512_sigma1 w6 ⊞ w1 ⊞ sha512_sigma0 w9) in
  let '(d, h) := sha512_Round a b c d e f g h 0x983e5152ee66dfab w8 in
  let w9 := w9 ⊞ (sha512_sigma1 w7 ⊞ w2 ⊞ sha512_sigma0 w10) in
  let '(c, g) := sha512_Round h a b c d e f g 0xa831c66d2db43210 w9 in
  let w10 := w10 ⊞ (sha512_sigma1 w8 ⊞ w3 ⊞ sha512_sigma0 w11) in
  let '(b, f) := sha512_Round g h a b c d e f 0xb00327c898fb213f w10 in
  let w11 := w11 ⊞ (sha512_sigma1 w9 ⊞ w4 ⊞ sha512_sigma0 w12) in
  let '(a, e) := sha512_Round f g h a b c d e 0xbf597fc7beef0ee4 w11 in
  let w12 := w12 ⊞ (sha512_sigma1 w10 ⊞ w5 ⊞ sha512_sigma0 w13) in
  let '(h, d) := sha512_Round e f g h a b c d 0xc6e00bf33da88fc2 w12 in
  let w13 := w13 ⊞ (sha512_sigma1 w11 ⊞ w6 ⊞ sha512_sigma0 w14) in
  let '(g, c) := sha512_Round d e f g h a b c 0xd5a79147930aa725 w13 in
  let w14 := w14 ⊞ (sha512_sigma1 w12 ⊞ w7 ⊞ sha512_sigma0 w15) in
  let '(f, b) := sha512_Round c d e f g h a b 0x06ca6351e003826f w14 in
  let w15 := w15 ⊞ (sha512_sigma1 w13 ⊞ w8 ⊞ sha512_sigma0 w0) in
  let '(e, a) := sha512_Round b c d e f g h a 0x142929670a0e6e70 w15 in
  let w0 := w0 ⊞ (sha512_sigma1 w14 ⊞ w9 ⊞ sha512_sigma0 w1) in
  let '(d, h) := sha512_Round a b c d e f g h 0x27b70a8546d22ffc w0 in
  let w1 := w1 ⊞ (sha512_sigma1 w15 ⊞ w10 ⊞ sha512_sigma0 w2) in
  let '(c, g) := sha512_Round h a b c d e f g 0x2e1b21385c26c926 w1 in
  let w2 := w2 ⊞ (sha512_sigma1 w0 ⊞ w11 ⊞ sha512_sigma0 w3) in
  let '(b, f) := sha512_Round g h a b c d e f 0x4d2c6dfc5ac42aed w2 in
  let w3 := w3 ⊞ (sha512_sigma1 w1 ⊞ w12 ⊞ sha512_sigma0 w4) in
  let '(a, e) := sha512_Round f g h a b c d e 0x53380d139d95b3df w3 in
  let w4 := w4 ⊞ (sha512_sigma1 w2 ⊞ w13 ⊞ sha512_sigma0 w5) in
  let '(h, d) := sha512_Round e f g h a b c d 0x650a73548baf63de w4 in
  let w5 := w5 ⊞ (sha512_sigma1 w3 ⊞ w14 ⊞ sha512_sigma0 w6) in
  let '(g, c) := sha512_Round d e f g h a b c 0x766a0abb3c77b2a8 w5 in
  let w6 := w6 ⊞ (sha512_sigma1 w4 ⊞ w15 ⊞ sha512_sigma0 w7) in
  let '(f, b) := sha512_Round c d e f g h a b 0x81c2c92e47edaee6 w6 in
  let w7 := w7 ⊞ (sha512_sigma1 w5 ⊞ w0 ⊞ sha512_sigma0 w8) in
  let '(e, a) := sha512_Round b c d e f g h a 0x92722c851482353b w7 in
  let w8 := w8 ⊞ (sha512_sigma1 w6 ⊞ w1 ⊞ sha512_sigma0 w9) in
  let '(d, h) := sha512_Round a b c d e f g h 0xa2bfe8a14cf10364 w8 in
  let w9 := w9 ⊞ (sha512_sigma1 w7 ⊞ w2 ⊞ sha512_sigma0 w10) in
  let '(c, g) := sha512_Round h a b c d e f g 0xa81a664bbc423001 w9 in
  let w10 := w10 ⊞ (sha512_sigma1 w8 ⊞ w3 ⊞ sha512_sigma0 w11) in
  let '(b, f) := sha512_Round g h a b c d e f 0xc24b8b70d0f89791 w10 in
  let w11 := w11 ⊞ (sha512_sigma1 w9 ⊞ w4 ⊞ sha512_sigma0 w12) in
  let '(a, e) := sha512_Round f g h a b c d e 0xc76c51a30654be30 w11 in
  let w12 := w12 ⊞ (sha512_sigma1 w10 ⊞ w5 ⊞ sha512_sigma0 w13) in
  let '(h, d) := sha512_Round e f g h a b c d 0xd192e819d6ef5218 w12 in
  let w13 := w13 ⊞ (sha512_sigma1 w11 ⊞ w6 ⊞ sha512_sigma0 w14) in
  let '(g, c) := sha512_Round d e f g h a b c 0xd69906245565a910 w13 in
  let w14 := w14 ⊞ (sha512_sigma1 w12 ⊞ w7 ⊞ sha512_sigma0 w15) in
  let '(f, b) := sha512_Round c d e f g h a b 0xf40e35855771202a w14 in
  let w15 := w15 ⊞ (sha512_sigma1 w13 ⊞ w8 ⊞ sha512_sigma0 w0) in
  let '(e, a) := sha512_Round b c d e f g h a 0x106aa07032bbd1b8 w15 in
  let w0 := w0 ⊞ (sha512_sigma1 w14 ⊞ w9 ⊞ sha512_sigma0 w1) in
  let '(d, h) := sha512_Round a b c d e f g h 0x19a4c116b8d2d0c8 w0 in
  let w1 := w1 ⊞ (sha512_sigma1 w15 ⊞ w10 ⊞ sha512_sigma0 w2) in
  let '(c, g) := sha512_Round h a b c d e f g 0x1e376c085141ab53 w1 in
  let w2 := w2 ⊞ (sha512_sigma1 w0 ⊞ w11 ⊞ sha512_sigma0 w3) in
  let '(b, f) := sha512_Round g h a b c d e f 0x2748774cdf8eeb99 w2 in
  let w3 := w3 ⊞ (sha512_sigma1 w1 ⊞ w12 ⊞ sha512_sigma0 w4) in
  let '(a, e) := sha512_Round f g h a b c d e 0x34b0bcb5e19b48a8 w3 in
  let w4 := w4 ⊞ (sha512_sigma1 w2 ⊞ w13 ⊞ sha512_sigma0 w5) in
  let '(h, d) := sha512_Round e f g h a b c d 0x391c0cb3c5c95a63 w4 in
  let w5 := w5 ⊞ (sha512_sigma1 w3 ⊞ w14 ⊞ sha512_sigma0 w6) in
  let '(g, c) := sha512_Round d e f g h a b c 0x4ed8aa4ae3418acb w5 in
  let w6 := w6 ⊞ (sha512_sigma1 w4 ⊞ w15 ⊞ sha512_sigma0 w7) in
  let '(f, b) := sha512_Round c d e f g h a b 0x5b9cca4f7763e373 w6 in
  let w7 := w7 ⊞ (sha512_sigma1 w5 ⊞ w0 ⊞ sha512_sigma0 w8) in
  let '(e, a) := sha512_Round b c d e f g h a 0x682e6ff3d6b2b8a3 w7 in
  let w8 := w8 ⊞ (sha512_sigma1 w6 ⊞ w1 ⊞ sha512_sigma0 w9) in
  let '(d, h) := sha512_Round a b c d e f g h 0x748f82ee5defb2fc w8 in
  let w9 := w9 ⊞ (sha512_sigma1 w7 ⊞ w2 ⊞ sha512_sigma0 w10) in
  let '(c, g) := sha512_Round h a b c d e f g 0x78a5636f43172f60 w9 in
  let w10 := w10 ⊞ (sha512_sigma1 w8 ⊞ w3 ⊞ sha512_sigma0 w11) in
  let '(b, f) := sha512_Round g h a b c d e f 0x84c87814a1f0ab72 w10 in
  let w11 := w11 ⊞ (sha512_sigma1 w9 ⊞ w4 ⊞ sha512_sigma0 w12) in
  let '(a, e) := sha512_Round f g h a b c d e 0x8cc702081a6439ec w11 in
  let w12 := w12 ⊞ (sha512_sigma1 w10 ⊞ w5 ⊞ sha512_sigma0 w13) in
  let '(h, d) := sha512_Round e f g h a b c d 0x90befffa23631e28 w12 in
  let w13 := w13 ⊞ (sha512_sigma1 w11 ⊞ w6 ⊞ sha512_sigma0 w14) in
  let '(g, c) := sha512_Round d e f g h a b c 0xa4506cebde82bde9 w13 in
  let w14 := w14 ⊞ (sha512_sigma1 w12 ⊞ w7 ⊞ sha512_sigma0 w15) in
  let '(f, b) := sha512_Round c d e f g h a b 0xbef9a3f7b2c67915 w14 in
  let w15 := w15 ⊞ (sha512_sigma1 w13 ⊞ w8 ⊞ sha512_sigma0 w0) in
  let '(e, a) := sha512_Round b c d e f g h a 0xc67178f2e372532b w15 in
  let w0 := w0 ⊞ (sha512_sigma1 w14 ⊞ w9 ⊞ sha512_sigma0 w1) in
  let '(d, h) := sha512_Round a b c d e f g h 0xca273eceea26619c w0 in
  let w1 := w1 ⊞ (sha512_sigma1 w15 ⊞ w10 ⊞ sha512_sigma0 w2) in
  let '(c, g) := sha512_Round h a b c d e f g 0xd186b8c721c0c207 w1 in
  let w2 := w2 ⊞ (sha512_sigma1 w0 ⊞ w11 ⊞ sha512_sigma0 w3) in
  let '(b, f) := sha512_Round g h a b c d e f 0xeada7dd6cde0eb1e w2 in
  let w3 := w3 ⊞ (sha512_sigma1 w1 ⊞ w12 ⊞ sha512_sigma0 w4) in
  let '(a, e) := sha512_Round f g h a b c d e 0xf57d4f7fee6ed178 w3 in
  let w4 := w4 ⊞ (sha512_sigma1 w2 ⊞ w13 ⊞ sha512_sigma0 w5) in
  let '(h, d) := sha512_Round e f g h a b c d 0x06f067aa72176fba w4 in
  let w5 := w5 ⊞ (sha512_sigma1 w3 ⊞ w14 ⊞ sha512_sigma0 w6) in
  let '(g, c) := sha512_Round d e f g h a b c 0x0a637dc5a2c898a6 w5 in
  let w6 := w6 ⊞ (sha512_sigma1 w4 ⊞ w15 ⊞ sha512_sigma0 w7) in
  let '(f, b) := sha512_Round c d e f g h a b 0x113f9804bef90dae w6 in
  let w7 := w7 ⊞ (sha512_sigma1 w5 ⊞ w0 ⊞ sha512_sigma0 w8) in
  let '(e, a) := sha512_Round b c d e f g h a 0x1b710b35131c471b w7 in
  let w8 := w8 ⊞ (sha512_sigma1 w6 ⊞ w1 ⊞ sha512_sigma0 w9) in
  let '(d, h) := sha512_Round a b c d e f g h 0x28db77f523047d84 w8 in
  let w9 := w9 ⊞ (sha512_sigma1 w7 ⊞ w2 ⊞ sha512_sigma0 w10) in
  let '(c, g) := sha512_Round h a b c d e f g 0x32caab7b40c72493 w9 in
  let w10 := w10 ⊞ (sha512_sigma1 w8 ⊞ w3 ⊞ sha512_sigma0 w11) in
  let '(b, f) := sha512_Round g h a b c d e f 0x3c9ebe0a15c9bebc w10 in
  let w11 := w11 ⊞ (sha512_sigma1 w9 ⊞ w4 ⊞ sha512_sigma0 w12) in
  let '(a, e) := sha512_Round f g h a b c d e 0x431d67c49c100d4c w11 in
  let w12 := w12 ⊞ (sha512_sigma1 w10 ⊞ w5 ⊞ sha512_sigma0 w13) in
  let '(h, d) := sha512_Round e f g h a b c d 0x4cc5d4becb3e42b6 w12 in
  let w13 := w13 ⊞ (sha512_sigma1 w11 ⊞ w6 ⊞ sha512_sigma0 w14) in
  let '(g, c) := sha512_Round d e f g h a b c 0x597f299cfc657e2a w13 in
  let '(f, b) := sha512_Round c d e f g h a b 0x5fcb6fab3ad6faec (w14 ⊞ sha512_sigma1 w12 ⊞ w7 ⊞ sha512_sigma0 w15) in
  let '(e, a) := sha512_Round b c d e f g h a 0x6c44198c4a475817 (w15 ⊞ sha512_sigma1 w13 ⊞ w8 ⊞ sha512_sigma0 w0) in
  [idx s 0 ⊞ a; idx s 1 ⊞ b; idx s 2 ⊞ c; idx s 3 ⊞ d;
   idx s 4 ⊞ e; idx s 5 ⊞ f; idx s 6 ⊞ g; idx s 7 ⊞ h].

(** The class: the constructor leaves [buf] uninitialised, which is the
    argument here; [Reset] keeps it. *)
Definition CSHA512_init (buf : bytes) : hasher := Hasher sha512_Initialize buf 0.
Definition CSHA512_Write : hasher -> bytes -> hasher := engine_write 128 sha512_Transform.
Definition CSHA512_sizedesc (bits : Z) : bytes := replicate 8 0 ++ be_bytes 8 bits.
Definition CSHA512_Finalize (h : hasher) : bytes :=
  flat_map (be_bytes 8) (engine_finalize 128 sha512_Transform 16 CSHA512_sizedesc h).
Definition CSHA512_Reset (h : hasher) : hasher := Hasher sha512_Initialize (hs_buf h) 0.

(** [CSHA512().Write(m).Finalize(...)]; the buffer content does not matter. *)
Definition sha512 (m : bytes) : bytes :=
  CSHA512_Finalize (CSHA512_Write (CSHA512_init (replicate 128 0)) m).

#[global] Strategy 1000 [sha512_Transform].

(** ** The reference: compress the padded message block by block *)

Definition sha512_ref (m : bytes) : bytes :=
  flat_map (be_bytes 8) (md_hash 128 sha512_Transform sha512_Initialize 16 CSHA512_sizedesc m).

Lemma sha512_stream buf ds : length buf = 128%nat ->
  CSHA512_Finalize (fold_left CSHA512_Write ds (CSHA512_init buf)) = sha512_ref (concat ds).
Proof.
  intros Hl. unfold CSHA512_Finalize, sha512_ref. f_equal. by apply engine_stream; [lia | |].
Qed.

Lemma sha512_eq m : sha512 m = sha512_ref m.
Proof.
  unfold sha512. change (CSHA512_Write ?h m) with (fold_left CSHA512_Write [m] h).
  rewrite sha512_stream by apply length_replicate. cbn [concat]. by rewrite app_nil_r.
Qed.

(** [Reset] starts over whatever was written before. *)
Lemma CSHA512_Reset_stream h ds : length (hs_buf h) = 128%nat ->
  CSHA512_Finalize (fold_left CSHA512_Write ds (CSHA512_Reset h)) = sha512_ref (concat ds).
Proof. intros. by apply sha512_stream. Qed.
