(* ===== verification/Sha1.v ===== *)
(** [crypto/sha1.cpp]: SHA-1. *)

From Stdlib Require Import ZArith Lia.
From stdpp Require Import base tactics list numbers strings.
From S2P Require Import Prelude HashEngine.

Declare Scope sha1_scope.
Notation "x ⊞ y" := (u32 (x + y)) (at level 50, left associativity) : sha1_scope.
Notation "x ⊕ y" := (Z.lxor x y) (at level 50, left associativity) : sha1_scope.
#[local] Open Scope sha1_scope.

(** [Round]: the new values of the references [b] and [e]. *)
Definition sha1_Round (a b c d e f k w : Z) : Z * Z :=
  (Z.lor (u32 (Z.shiftl b 30)) (Z.shiftr b 2),
   e ⊞ (Z.lor (u32 (Z.shiftl a 5)) (Z.shiftr a 27) ⊞ f ⊞ k ⊞ w)).

Definition sha1_f1 (b c d : Z) : Z := Z.lxor d (Z.land b (Z.lxor c d)).
Definition sha1_f2 (b c d : Z) : Z := Z.lxor (Z.lxor b c) d.
Definition sha1_f3 (b c d : Z) : Z := Z.lor (Z.land b c) (Z.land d (Z.lor b c)).
Definition sha1_left (x : Z) : Z := Z.lor (u32 (Z.shiftl x 1)) (Z.shiftr x 31).

Definition sha1_Initialize : list Z := [0x67452301; 0xEFCDAB89; 0x98BADCFE; 0x10325476; 0xC3D2E1F0].
Definition sha1_k1 : Z := 0x5A827999.
Definition sha1_k2 : Z := 0x6ED9EBA1.
Definition sha1_k3 : Z := 0x8F1BBCDC.
Definition sha1_k4 : Z := 0xCA62C1D6.

Definition sha1_Transform (s : list Z) (chunk : bytes) : list Z :=
  let a := idx s 0 in let b := idx s 1 in let c := idx s 2 in let d := idx s 3 in
  let e := idx s 4 in
  let w0 := ReadBE32 chunk 0 in
  let '(b, e) := sha1_Round a b c d e (sha1_f1 b c d) sha1_k1 w0 in
  let w1 := ReadBE32 chunk 4 in
  let '(a, d) := sha1_Round e a b c d (sha1_f1 a b c) sha1_k1 w1 in
  let w2 := ReadBE32 chunk 8 in
  let '(e, c) := sha1_Round d e a b c (sha1_f1 e a b) sha1_k1 w2 in
  let w3 := ReadBE32 chunk 12 in
  let '(d, b) := sha1_Round c d e a b (sha1_f1 d e a) sha1_k1 w3 in
  let w4 := ReadBE32 chunk 16 in
  let '(c, a) := sha1_Round b c d e a (sha1_f1 c d e) sha1_k1 w4 in
  let w5 := ReadBE32 chunk 20 in
  let '(b, e) := sha1_Round a b c d e (sha1_f1 b c d) sha1_k1 w5 in
  let w6 := ReadBE32 chunk 24 in
  let '(a, d) := sha1_Round e a b c d (sha1_f1 a b c) sha1_k1 w6 in
  let w7 := ReadBE32 chunk 28 in
  let '(e, c) := sha1_Round d e a b c (sha1_f1 e a b) sha1_k1 w7 in
  let w8 := ReadBE32 chunk 32 in
  let '(d, b) := sha1_Round c d e a b (sha1_f1 d e a) sha1_k1 w8 in
  let w9 := ReadBE32 chunk 36 in
  let '(c, a) := sha1_Round b c d e a (sha1_f1 c d e) sha1_k1 w9 in
  let w10 := ReadBE32 chunk 40 in
  let '(b, e) := sha1_Round a b c d e (sha1_f1 b c d) sha1_k1 w10 in
  let w11 := ReadBE32 chunk 44 in
  let '(a, d) := sha1_Round e a b c d (sha1_f1 a b c) sha1_k1 w11 in
  let w12 := ReadBE32 chunk 48 in
  let '(e, c) := sha1_Round d e a b c (sha1_f1 e a b) sha1_k1 w12 in
  let w13 := ReadBE32 chunk 52 in
  let '(d, b) := sha1_Round c d e a b (sha1_f1 d e a) sha1_k1 w13 in
  let w14 := ReadBE32 chunk 56 in
  let '(c, a) := sha1_Round b c d e a (sha1_f1 c d e) sha1_k1 w14 in
  let w15 := ReadBE32 chunk 60 in
  let '(b, e) := sha1_Round a b c d e (sha1_f1 b c d) sha1_k1 w15 in
  let w0 := sha1_left (w0 ⊕ w13 ⊕ w8 ⊕ w2) in
  let '(a, d) := sha1_Round e a b c d (sha1_f1 a b c) sha1_k1 w0 in
  let w1 := sha1_left (w1 ⊕ w14 ⊕ w9 ⊕ w3) in
  let '(e, c) := sha1_Round d e a b c (sha1_f1 e a b) sha1_k1 w1 in
  let w2 := sha1_left (w2 ⊕ w15 ⊕ w10 ⊕ w4) in
  let '(d, b) := sha1_Round c d e a b (sha1_f1 d e a) sha1_k1 w2 in
  let w3 := sha1_left (w3 ⊕ w0 ⊕ w11 ⊕ w5) in
  let '(c, a) := sha1_Round b c d e a (sha1_f1 c d e) sha1_k1 w3 in
  let w4 := sha1_left (w4 ⊕ w1 ⊕ w12 ⊕ w6) in
  let '(b, e) := sha1_Round a b c d e (sha1_f2 b c d) sha1_k2 w4 in
  let w5 := sha1_left (w5 ⊕ w2 ⊕ w13 ⊕ w7) in
  let '(a, d) := sha1_Round e a b c d (sha1_f2 a b c) sha1_k2 w5 in
  let w6 := sha1_left (w6 ⊕ w3 ⊕ w14 ⊕ w8) in
  let '(e, c) := sha1_Round d e a b c (sha1_f2 e a b) sha1_k2 w6 in
  let w7 := sha1_left (w7 ⊕ w4 ⊕ w15 ⊕ w9) in
  let '(d, b) := sha1_Round c d e a b (sha1_f2 d e a) sha1_k2 w7 in
  let w8 := sha1_left (w8 ⊕ w5 ⊕ w0 ⊕ w10) in
  let '(c, a) := sha1_Round b c d e a (sha1_f2 c d e) sha1_k2 w8 in
  let w9 := sha1_left (w9 ⊕ w6 ⊕ w1 ⊕ w11) in
  let '(b, e) := sha1_Round a b c d e (sha1_f2 b c d) sha1_k2 w9 in
  let w10 := sha1_left (w10 ⊕ w7 ⊕ w2 ⊕ w12) in
  let '(a, d) := sha1_Round e a b c d (sha1_f2 a b c) sha1_k2 w10 in
  let w11 := sha1_left (w11 ⊕ w8 ⊕ w3 ⊕ w13) in
  let '(e, c) := sha1_Round d e a b c (sha1_f2 e a b) sha1_k2 w11 in
  let w12 := sha1_left (w12 ⊕ w9 ⊕ w4 ⊕ w14) in
  let '(d, b) := sha1_Round c d e a b (sha1_f2 d e a) sha1_k2 w12 in
  let w13 := sha1_left (w13 ⊕ w10 ⊕ w5 ⊕ w15) in
  let '(c, a) := sha1_Round b c d e a (sha1_f2 c d e) sha1_k2 w13 in
  let w14 := sha1_left (w14 ⊕ w11 ⊕ w6 ⊕ w0) in
  let '(b, e) := sha1_Round a b c d e (sha1_f2 b c d) sha1_k2 w14 in
  let w15 := sha1_left (w15 ⊕ w12 ⊕ w7 ⊕ w1) in
  let '(a, d) := sha1_Round e a b c d (sha1_f2 a b c) sha1_k2 w15 in
  let w0 := sha1_left (w0 ⊕ w13 ⊕ w8 ⊕ w2) in
  let '(e, c) := sha1_Round d e a b c (sha1_f2 e a b) sha1_k2 w0 in
  let w1 := sha1_left (w1 ⊕ w14 ⊕ w9 ⊕ w3) in
  let '(d, b) := sha1_Round c d e a b (sha1_f2 d e a) sha1_k2 w1 in
  let w2 := sha1_left (w2 ⊕ w15 ⊕ w10 ⊕ w4) in
  let '(c, a) := sha1_Round b c d e a (sha1_f2 c d e) sha1_k2 w2 in
  let w3 := sha1_left (w3 ⊕ w0 ⊕ w11 ⊕ w5) in
  let '(b, e) := sha1_Round a b c d e (sha1_f2 b c d) sha1_k2 w3 in
  let w4 := sha1_left (w4 ⊕ w1 ⊕ w12 ⊕ w6) in
  let '(a, d) := sha1_Round e a b c d (sha1_f2 a b c) sha1_k2 w4 in
  let w5 := sha1_left (w5 ⊕ w2 ⊕ w13 ⊕ w7) in
  let '(e, c) := sha1_Round d e a b c (sha1_f2 e a b) sha1_k2 w5 in
  let w6 := sha1_left (w6 ⊕ w3 ⊕ w14 ⊕ w8) in
  let '(d, b) := sha1_Round c d e a b (sha1_f2 d e a) sha1_k2 w6 in
  let w7 := sha1_left (w7 ⊕ w4 ⊕ w15 ⊕ w9) in
  let '(c, a) := sha1_Round b c d e a (sha1_f2 c d e) sha1_k2 w7 in
  let w8 := sha1_left (w8 ⊕ w5 ⊕ w0 ⊕ w10) in
  let '(b, e) := sha1_Round a b c d e (sha1_f3 b c d) sha1_k3 w8 in
  let w9 := sha1_left (w9 ⊕ w6 ⊕ w1 ⊕ w11) in
  let '(a, d) := sha1_Round e a b c d (sha1_f3 a b c) sha1_k3 w9 in
  let w10 := sha1_left (w10 ⊕ w7 ⊕ w2 ⊕ w12) in
  let '(e, c) := sha1_Round d e a b c (sha1_f3 e a b) sha1_k3 w10 in
  let w11 := sha1_left (w11 ⊕ w8 ⊕ w3 ⊕ w13) in
  let '(d, b) := sha1_Round c d e a b (sha1_f3 d e a) sha1_k3 w11 in
  let w12 := sha1_left (w12 ⊕ w9 ⊕ w4 ⊕ w14) in
  let '(c, a) := sha1_Round b c d e a (sha1_f3 c d e) sha1_k3 w12 in
  let w13 := sha1_left (w13 ⊕ w10 ⊕ w5 ⊕ w15) in
  let '(b, e) := sha1_Round a b c d e (sha1_f3 b c d) sha1_k3 w13 in
  let w14 := sha1_left (w14 ⊕ w11 ⊕ w6 ⊕ w0) in
  let '(a, d) := sha1_Round e a b c d (sha1_f3 a b c) sha1_k3 w14 in
  let w15 := sha1_left (w15 ⊕ w12 ⊕ w7 ⊕ w1) in
  let '(e, c) := sha1_Round d e a b c (sha1_f3 e a b) sha1_k3 w15 in
  let w0 := sha1_left (w0 ⊕ w13 ⊕ w8 ⊕ w2) in
  let '(d, b) := sha1_Round c d e a b (sha1_f3 d e a) sha1_k3 w0 in
  let w1 := sha1_left (w1 ⊕ w14 ⊕ w9 ⊕ w3) in
  let '(c, a) := sha1_Round b c d e a (sha1_f3 c d e) sha1_k3 w1 in
  let w2 := sha1_left (w2 ⊕ w15 ⊕ w10 ⊕ w4) in
  let '(b, e) := sha1_Round a b c d e (sha1_f3 b c d) sha1_k3 w2 in
  let w3 := sha1_left (w3 ⊕ w0 ⊕ w11 ⊕ w5) in
  let '(a, d) := sha1_Round e a b c d (sha1_f3 a b c) sha1_k3 w3 in
  let w4 := sha1_left (w4 ⊕ w1 ⊕ w12 ⊕ w6) in
  let '(e, c) := sha1_Round d e a b c (sha1_f3 e a b) sha1_k3 w4 in
  let w5 := sha1_left (w5 ⊕ w2 ⊕ w13 ⊕ w7) in
  let '(d, b) := sha1_Round c d e a b (sha1_f3 d e a) sha1_k3 w5 in
  let w6 := sha1_left (w6 ⊕ w3 ⊕ w14 ⊕ w8) in
  let '(c, a) := sha1_Round b c d e a (sha1_f3 c d e) sha1_k3 w6 in
  let w7 := sha1_left (w7 ⊕ w4 ⊕ w15 ⊕ w9) in
  let '(b, e) := sha1_Round a b c d e (sha1_f3 b c d) sha1_k3 w7 in
  let w8 := sha1_left (w8 ⊕ w5 ⊕ w0 ⊕ w10) in
  let '(a, d) := sha1_Round e a b c d (sha1_f3 a b c) sha1_k3 w8 in
  let w9 := sha1_left (w9 ⊕ w6 ⊕ w1 ⊕ w11) in
  let '(e, c) := sha1_Round d e a b c (sha1_f3 e a b) sha1_k3 w9 in
  let w10 := sha1_left (w10 ⊕ w7 ⊕ w2 ⊕ w12) in
  let '(d, b) := sha1_Round c d e a b (sha1_f3 d e a) sha1_k3 w10 in
  let w11 := sha1_left (w11 ⊕ w8 ⊕ w3 ⊕ w13) in
  let '(c, a) := sha1_Round b c d e a (sha1_f3 c d e) sha1_k3 w11 in
  let w12 := sha1_left (w12 ⊕ w9 ⊕ w4 ⊕ w14) in
  let '(b, e) := sha1_Round a b c d e (sha1_f2 b c d) sha1_k4 w12 in
  let w13 := sha1_left (w13 ⊕ w10 ⊕ w5 ⊕ w15) in
  let '(a, d) := sha1_Round e a b c d (sha1_f2 a b c) sha1_k4 w13 in
  let w14 := sha1_left (w14 ⊕ w11 ⊕ w6 ⊕ w0) in
  let '(e, c) := sha1_Round d e a b c (sha1_f2 e a b) sha1_k4 w14 in
  let w15 := sha1_left (w15 ⊕ w12 ⊕ w7 ⊕ w1) in
  let '(d, b) := sha1_Round c d e a b (sha1_f2 d e a) sha1_k4 w15 in
  let w0 := sha1_left (w0 ⊕ w13 ⊕ w8 ⊕ w2) in
  let '(c, a) := sha1_Round b c d e a (sha1_f2 c d e) sha1_k4 w0 in
  let w1 := sha1_left (w1 ⊕ w14 ⊕ w9 ⊕ w3) in
  let '(b, e) := sha1_Round a b c d e (sha1_f2 b c d) sha1_k4 w1 in
  let w2 := sha1_left (w2 ⊕ w15 ⊕ w10 ⊕ w4) in
  let '(a, d) := sha1_Round e a b c d (sha1_f2 a b c) sha1_k4 w2 in
  let w3 := sha1_left (w3 ⊕ w0 ⊕ w11 ⊕ w5) in
  let '(e, c) := sha1_Round d e a b c (sha1_f2 e a b) sha1_k4 w3 in
  let w4 := sha1_left (w4 ⊕ w1 ⊕ w12 ⊕ w6) in
  let '(d, b) := sha1_Round c d e a b (sha1_f2 d e a) sha1_k4 w4 in
  let w5 := sha1_left (w5 ⊕ w2 ⊕ w13 ⊕ w7) in
  let '(c, a) := sha1_Round b c d e a (sha1_f2 c d e) sha1_k4 w5 in
  let w6 := sha1_left (w6 ⊕ w3 ⊕ w14 ⊕ w8) in
  let '(b, e) := sha1_Round a b c d e (sha1_f2 b c d) sha1_k4 w6 in
  let w7 := sha1_left (w7 ⊕ w4 ⊕ w15 ⊕ w9) in
  let '(a, d) := sha1_Round e a b c d (sha1_f2 a b c) sha1_k4 w7 in
  let w8 := sha1_left (w8 ⊕ w5 ⊕ w0 ⊕ w10) in
  let '(e, c) := sha1_Round d e a b c (sha1_f2 e a b) sha1_k4 w8 in
  let w9 := sha1_left (w9 ⊕ w6 ⊕ w1 ⊕ w11) in
  let '(d, b) := sha1_Round c d e a b (sha1_f2 d e a) sha1_k4 w9 in
  let w10 := sha1_left (w10 ⊕ w7 ⊕ w2 ⊕ w12) in
  let '(c, a) := sha1_Round b c d e a (sha1_f2 c d e) sha1_k4 w10 in
  let w11 := sha1_left (w11 ⊕ w8 ⊕ w3 ⊕ w13) in
  let '(b, e) := sha1_Round a b c d e (sha1_f2 b c d) sha1_k4 w11 in
  let w12 := sha1_left (w12 ⊕ w9 ⊕ w4 ⊕ w14) in
  let '(a, d) := sha1_Round e a b c d (sha1_f2 a b c) sha1_k4 w12 in
  let '(e, c) := sha1_Round d e a b c (sha1_f2 e a b) sha1_k4 (sha1_left (w13 ⊕ w10 ⊕ w5 ⊕ w15)) in
  let '(d, b) := sha1_Round c d e a b (sha1_f2 d e a) sha1_k4 (sha1_left (w14 ⊕ w11 ⊕ w6 ⊕ w0)) in
  let '(c, a) := sha1_Round b c d e a (sha1_f2 c d e) sha1_k4 (sha1_left (w15 ⊕ w12 ⊕ w7 ⊕ w1)) in
  [idx s 0 ⊞ a; idx s 1 ⊞ b; idx s 2 ⊞ c; idx s 3 ⊞ d; idx s 4 ⊞ e].

Definition CSHA1_init (buf : bytes) : hasher := Hasher sha1_Initialize buf 0.
Definition CSHA1_Write : hasher -> bytes -> hasher := engine_write 64 sha1_Transform.
Definition CSHA1_sizedesc (bits : Z) : bytes := be_bytes 8 bits.
Definition CSHA1_Finalize (h : hasher) : bytes :=
  flat_map (be_bytes 4) (engine_finalize 64 sha1_Transform 8 CSHA1_sizedesc h).
Definition CSHA1_Reset (h : hasher) : hasher := Hasher sha1_Initialize (hs_buf h) 0.

Definition sha1 (m : bytes) : bytes :=
  CSHA1_Finalize (CSHA1_Write (CSHA1_init (replicate 64 0)) m).

#[global] Strategy 1000 [sha1_Transform].

(** ** The reference: compress the padded message block by block *)

Definition sha1_ref (m : bytes) : bytes :=
  flat_map (be_bytes 4) (md_hash 64 sha1_Transform sha1_Initialize 8 CSHA1_sizedesc m).

Lemma sha1_stream buf ds : length buf = 64%nat ->
  CSHA1_Finalize (fold_left CSHA1_Write ds (CSHA1_init buf)) = sha1_ref (concat ds).
Proof.
  intros Hl. unfold CSHA1_Finalize, sha1_ref. f_equal. by apply engine_stream; [lia | |].
Qed.

Lemma sha1_eq m : sha1 m = sha1_ref m.
Proof.
  unfold sha1. change (CSHA1_Write ?h m) with (fold_left CSHA1_Write [m] h).
  rewrite sha1_stream by apply length_replicate. cbn [concat]. by rewrite app_nil_r.
Qed.

(** [Reset] starts over whatever was written before. *)
Lemma CSHA1_Reset_stream h ds : length (hs_buf h) = 64%nat ->
  CSHA1_Finalize (fold_left CSHA1_Write ds (CSHA1_Reset h)) = sha1_ref (concat ds).
Proof. intros. by apply sha1_stream. Qed.
