(* ===== verification/Ripemd160.v ===== *)
(** [crypto/ripemd160.cpp]: RIPEMD-160. *)

From Stdlib Require Import ZArith Lia.
From stdpp Require Import base tactics list numbers strings.
From S2P Require Import Prelude HashEngine.

Declare Scope ripemd160_scope.
Notation "x ⊞ y" := (u32 (x + y)) (at level 50, left associativity) : ripemd160_scope.
Notation "~~ x" := (Z.lxor 0xffffffff x) (at level 35, right associativity) : ripemd160_scope.
#[local] Open Scope ripemd160_scope.

Definition ripemd160_f1 (x y z : Z) : Z := Z.lxor (Z.lxor x y) z.
Definition ripemd160_f2 (x y z : Z) : Z := Z.lor (Z.land x y) (Z.land (~~ x) z).
Definition ripemd160_f3 (x y z : Z) : Z := Z.lxor (Z.lor x (~~ y)) z.
Definition ripemd160_f4 (x y z : Z) : Z := Z.lor (Z.land x z) (Z.land y (~~ z)).
Definition ripemd160_f5 (x y z : Z) : Z := Z.lxor x (Z.lor y (~~ z)).

Definition ripemd160_Initialize : list Z := [0x67452301; 0xEFCDAB89; 0x98BADCFE; 0x10325476; 0xC3D2E1F0].

Definition ripemd160_rol (x i : Z) : Z := Z.lor (u32 (Z.shiftl x i)) (Z.shiftr x (32 - i)).

(** [Round]: the new values of the references [a] and [c]. *)
Definition ripemd160_Round (a b c d e f x k r : Z) : Z * Z :=
  (ripemd160_rol (a ⊞ f ⊞ x ⊞ k) r ⊞ e, ripemd160_rol c 10).

Definition ripemd160_R11 (a b c d e x r : Z) : Z * Z :=
  ripemd160_Round a b c d e (ripemd160_f1 b c d) x 0 r.
Definition ripemd160_R21 (a b c d e x r : Z) : Z * Z :=
  ripemd160_Round a b c d e (ripemd160_f2 b c d) x 0x5A827999 r.
Definition ripemd160_R31 (a b c d e x r : Z) : Z * Z :=
  ripemd160_Round a b c d e (ripemd160_f3 b c d) x 0x6ED9EBA1 r.
Definition ripemd160_R41 (a b c d e x r : Z) : Z * Z :=
  ripemd160_Round a b c d e (ripemd160_f4 b c d) x 0x8F1BBCDC r.
Definition ripemd160_R51 (a b c d e x r : Z) : Z * Z :=
  ripemd160_Round a b c d e (ripemd160_f5 b c d) x 0xA953FD4E r.
Definition ripemd160_R12 (a b c d e x r : Z) : Z * Z :=
  ripemd160_Round a b c d e (ripemd160_f5 b c d) x 0x50A28BE6 r.
Definition ripemd160_R22 (a b c d e x r : Z) : Z * Z :=
  ripemd160_Round a b c d e (ripemd160_f4 b c d) x 0x5C4DD124 r.
Definition ripemd160_R32 (a b c d e x r : Z) : Z * Z :=
  ripemd160_Round a b c d e (ripemd160_f3 b c d) x 0x6D703EF3 r.
Definition ripemd160_R42 (a b c d e x r : Z) : Z * Z :=
  ripemd160_Round a b c d e (ripemd160_f2 b c d) x 0x7A6D76E9 r.
Definition ripemd160_R52 (a b c d e x r : Z) : Z * Z :=
  ripemd160_Round a b c d e (ripemd160_f1 b c d) x 0 r.

(** [Transform], the two lines of rounds interleaved as written. *)
Definition ripemd160_Transform (s : list Z) (chunk : bytes) : list Z :=
  let a1 := idx s 0 in let b1 := idx s 1 in let c1 := idx s 2 in let d1 := idx s 3 in
  let e1 := idx s 4 in
  let a2 := a1 in let b2 := b1 in let c2 := c1 in let d2 := d1 in let e2 := e1 in
  let w0 := ReadLE32 chunk 0 in
  let w1 := ReadLE32 chunk 4 in
  let w2 := ReadLE32 chunk 8 in
  let w3 := ReadLE32 chunk 12 in
  let w4 := ReadLE32 chunk 16 in
  let w5 := ReadLE32 chunk 20 in
  let w6 := ReadLE32 chunk 24 in
  let w7 := ReadLE32 chunk 28 in
  let w8 := ReadLE32 chunk 32 in
  let w9 := ReadLE32 chunk 36 in
  let w10 := ReadLE32 chunk 40 in
  let w11 := ReadLE32 chunk 44 in
  let w12 := ReadLE32 chunk 48 in
  let w13 := ReadLE32 chunk 52 in
  let w14 := ReadLE32 chunk 56 in
  let w15 := ReadLE32 chunk 60 in
  let '(a1, c1) := ripemd160_R11 a1 b1 c1 d1 e1 w0 11 in
  let '(a2, c2) := ripemd160_R12 a2 b2 c2 d2 e2 w5 8 in
  let '(e1, b1) := ripemd160_R11 e1 a1 b1 c1 d1 w1 14 in
  let '(e2, b2) := ripemd160_R12 e2 a2 b2 c2 d2 w14 9 in
  let '(d1, a1) := ripemd160_R11 d1 e1 a1 b1 c1 w2 15 in
  let '(d2, a2) := ripemd160_R12 d2 e2 a2 b2 c2 w7 9 in
  let '(c1, e1) := ripemd160_R11 c1 d1 e1 a1 b1 w3 12 in
  let '(c2, e2) := ripemd160_R12 c2 d2 e2 a2 b2 w0 11 in
  let '(b1, d1) := ripemd160_R11 b1 c1 d1 e1 a1 w4 5 in
  let '(b2, d2) := ripemd160_R12 b2 c2 d2 e2 a2 w9 13 in
  let '(a1, c1) := ripemd160_R11 a1 b1 c1 d1 e1 w5 8 in
  let '(a2, c2) := ripemd160_R12 a2 b2 c2 d2 e2 w2 15 in
  let '(e1, b1) := ripemd160_R11 e1 a1 b1 c1 d1 w6 7 in
  let '(e2, b2) := ripemd160_R12 e2 a2 b2 c2 d2 w11 15 in
  let '(d1, a1) := ripemd160_R11 d1 e1 a1 b1 c1 w7 9 in
  let '(d2, a2) := ripemd160_R12 d2 e2 a2 b2 c2 w4 5 in
  let '(c1, e1) := ripemd160_R11 c1 d1 e1 a1 b1 w8 11 in
  let '(c2, e2) := ripemd160_R12 c2 d2 e2 a2 b2 w13 7 in
  let '(b1, d1) := ripemd160_R11 b1 c1 d1 e1 a1 w9 13 in
  let '(b2, d2) := ripemd160_R12 b2 c2 d2 e2 a2 w6 7 in
  let '(a1, c1) := ripemd160_R11 a1 b1 c1 d1 e1 w10 14 in
  let '(a2, c2) := ripemd160_R12 a2 b2 c2 d2 e2 w15 8 in
  let '(e1, b1) := ripemd160_R11 e1 a1 b1 c1 d1 w11 15 in
  let '(e2, b2) := ripemd160_R12 e2 a2 b2 c2 d2 w8 11 in
  let '(d1, a1) := ripemd160_R11 d1 e1 a1 b1 c1 w12 6 in
  let '(d2, a2) := ripemd160_R12 d2 e2 a2 b2 c2 w1 14 in
  let '(c1, e1) := ripemd160_R11 c1 d1 e1 a1 b1 w13 7 in
  let '(c2, e2) := ripemd160_R12 c2 d2 e2 a2 b2 w10 14 in
  let '(b1, d1) := ripemd160_R11 b1 c1 d1 e1 a1 w14 9 in
  let '(b2, d2) := ripemd160_R12 b2 c2 d2 e2 a2 w3 12 in
  let '(a1, c1) := ripemd160_R11 a1 b1 c1 d1 e1 w15 8 in
  let '(a2, c2) := ripemd160_R12 a2 b2 c2 d2 e2 w12 6 in
  let '(e1, b1) := ripemd160_R21 e1 a1 b1 c1 d1 w7 7 in
  let '(e2, b2) := ripemd160_R22 e2 a2 b2 c2 d2 w6 9 in
  let '(d1, a1) := ripemd160_R21 d1 e1 a1 b1 c1 w4 6 in
  let '(d2, a2) := ripemd160_R22 d2 e2 a2 b2 c2 w11 13 in
  let '(c1, e1) := ripemd160_R21 c1 d1 e1 a1 b1 w13 8 in
  let '(c2, e2) := ripemd160_R22 c2 d2 e2 a2 b2 w3 15 in
  let '(b1, d1) := ripemd160_R21 b1 c1 d1 e1 a1 w1 13 in
  let '(b2, d2) := ripemd160_R22 b2 c2 d2 e2 a2 w7 7 in
  let '(a1, c1) := ripemd160_R21 a1 b1 c1 d1 e1 w10 11 in
  let '(a2, c2) := ripemd160_R22 a2 b2 c2 d2 e2 w0 12 in
  let '(e1, b1) := ripemd160_R21 e1 a1 b1 c1 d1 w6 9 in
  let '(e2, b2) := ripemd160_R22 e2 a2 b2 c2 d2 w13 8 in
  let '(d1, a1) := ripemd160_R21 d1 e1 a1 b1 c1 w15 7 in
  let '(d2, a2) := ripemd160_R22 d2 e2 a2 b2 c2 w5 9 in
  let '(c1, e1) := ripemd160_R21 c1 d1 e1 a1 b1 w3 15 in
  let '(c2, e2) := ripemd160_R22 c2 d2 e2 a2 b2 w10 11 in
  let '(b1, d1) := ripemd160_R21 b1 c1 d1 e1 a1 w12 7 in
  let '(b2, d2) := ripemd160_R22 b2 c2 d2 e2 a2 w14 7 in
  let '(a1, c1) := ripemd160_R21 a1 b1 c1 d1 e1 w0 12 in
  let '(a2, c2) := ripemd160_R22 a2 b2 c2 d2 e2 w15 7 in
  let '(e1, b1) := ripemd160_R21 e1 a1 b1 c1 d1 w9 15 in
  let '(e2, b2) := ripemd160_R22 e2 a2 b2 c2 d2 w8 12 in
  let '(d1, a1) := ripemd160_R21 d1 e1 a1 b1 c1 w5 9 in
  let '(d2, a2) := ripemd160_R22 d2 e2 a2 b2 c2 w12 7 in
  let '(c1, e1) := ripemd160_R21 c1 d1 e1 a1 b1 w2 11 in
  let '(c2, e2) := ripemd160_R22 c2 d2 e2 a2 b2 w4 6 in
  let '(b1, d1) := ripemd160_R21 b1 c1 d1 e1 a1 w14 7 in
  let '(b2, d2) := ripemd160_R22 b2 c2 d2 e2 a2 w9 15 in
  let '(a1, c1) := ripemd160_R21 a1 b1 c1 d1 e1 w11 13 in
  let '(a2, c2) := ripemd160_R22 a2 b2 c2 d2 e2 w1 13 in
  let '(e1, b1) := ripemd160_R21 e1 a1 b1 c1 d1 w8 12 in
  let '(e2, b2) := ripemd160_R22 e2 a2 b2 c2 d2 w2 11 in
  let '(d1, a1) := ripemd160_R31 d1 e1 a1 b1 c1 w3 11 in
  let '(d2, a2) := ripemd160_R32 d2 e2 a2 b2 c2 w15 9 in
  let '(c1, e1) := ripemd160_R31 c1 d1 e1 a1 b1 w10 13 in
  let '(c2, e2) := ripemd160_R32 c2 d2 e2 a2 b2 w5 7 in
  let '(b1, d1) := ripemd160_R31 b1 c1 d1 e1 a1 w14 6 in
  let '(b2, d2) := ripemd160_R32 b2 c2 d2 e2 a2 w1 15 in
  let '(a1, c1) := ripemd160_R31 a1 b1 c1 d1 e1 w4 7 in
  let '(a2, c2) := ripemd160_R32 a2 b2 c2 d2 e2 w3 11 in
  let '(e1, b1) := ripemd160_R31 e1 a1 b1 c1 d1 w9 14 in
  let '(e2, b2) := ripemd160_R32 e2 a2 b2 c2 d2 w7 8 in
  let '(d1, a1) := ripemd160_R31 d1 e1 a1 b1 c1 w15 9 in
  let '(d2, a2) := ripemd160_R32 d2 e2 a2 b2 c2 w14 6 in
  let '(c1, e1) := ripemd160_R31 c1 d1 e1 a1 b1 w8 13 in
  let '(c2, e2) := ripemd160_R32 c2 d2 e2 a2 b2 w6 6 in
  let '(b1, d1) := ripemd160_R31 b1 c1 d1 e1 a1 w1 15 in
  let '(b2, d2) := ripemd160_R32 b2 c2 d2 e2 a2 w9 14 in
  let '(a1, c1) := ripemd160_R31 a1 b1 c1 d1 e1 w2 14 in
  let '(a2, c2) := ripemd160_R32 a2 b2 c2 d2 e2 w11 12 in
  let '(e1, b1) := ripemd160_R31 e1 a1 b1 c1 d1 w7 8 in
  let '(e2, b2) := ripemd160_R32 e2 a2 b2 c2 d2 w8 13 in
  let '(d1, a1) := ripemd160_R31 d1 e1 a1 b1 c1 w0 13 in
  let '(d2, a2) := ripemd160_R32 d2 e2 a2 b2 c2 w12 5 in
  let '(c1, e1) := ripemd160_R31 c1 d1 e1 a1 b1 w6 6 in
  let '(c2, e2) := ripemd160_R32 c2 d2 e2 a2 b2 w2 14 in
  let '(b1, d1) := ripemd160_R31 b1 c1 d1 e1 a1 w13 5 in
  let '(b2, d2) := ripemd160_R32 b2 c2 d2 e2 a2 w10 13 in
  let '(a1, c1) := ripemd160_R31 a1 b1 c1 d1 e1 w11 12 in
  let '(a2, c2) := ripemd160_R32 a2 b2 c2 d2 e2 w0 13 in
  let '(e1, b1) := ripemd160_R31 e1 a1 b1 c1 d1 w5 7 in
  let '(e2, b2) := ripemd160_R32 e2 a2 b2 c2 d2 w4 7 in
  let '(d1, a1) := ripemd160_R31 d1 e1 a1 b1 c1 w12 5 in
  let '(d2, a2) := ripemd160_R32 d2 e2 a2 b2 c2 w13 5 in
  let '(c1, e1) := ripemd160_R41 c1 d1 e1 a1 b1 w1 11 in
  let '(c2, e2) := ripemd160_R42 c2 d2 e2 a2 b2 w8 15 in
  let '(b1, d1) := ripemd160_R41 b1 c1 d1 e1 a1 w9 12 in
  let '(b2, d2) := ripemd160_R42 b2 c2 d2 e2 a2 w6 5 in
  let '(a1, c1) := ripemd160_R41 a1 b1 c1 d1 e1 w11 14 in
  let '(a2, c2) := ripemd160_R42 a2 b2 c2 d2 e2 w4 8 in
  let '(e1, b1) := ripemd160_R41 e1 a1 b1 c1 d1 w10 15 in
  let '(e2, b2) := ripemd160_R42 e2 a2 b2 c2 d2 w1 11 in
  let '(d1, a1) := ripemd160_R41 d1 e1 a1 b1 c1 w0 14 in
  let '(d2, a2) := ripemd160_R42 d2 e2 a2 b2 c2 w3 14 in
  let '(c1, e1) := ripemd160_R41 c1 d1 e1 a1 b1 w8 15 in
  let '(c2, e2) := ripemd160_R42 c2 d2 e2 a2 b2 w11 14 in
  let '(b1, d1) := ripemd160_R41 b1 c1 d1 e1 a1 w12 9 in
  let '(b2, d2) := ripemd160_R42 b2 c2 d2 e2 a2 w15 6 in
  let '(a1, c1) := ripemd160_R41 a1 b1 c1 d1 e1 w4 8 in
  let '(a2, c2) := ripemd160_R42 a2 b2 c2 d2 e2 w0 14 in
  let '(e1, b1) := ripemd160_R41 e1 a1 b1 c1 d1 w13 9 in
  let '(e2, b2) := ripemd160_R42 e2 a2 b2 c2 d2 w5 6 in
  let '(d1, a1) := ripemd160_R41 d1 e1 a1 b1 c1 w3 14 in
  let '(d2, a2) := ripemd160_R42 d2 e2 a2 b2 c2 w12 9 in
  let '(c1, e1) := ripemd160_R41 c1 d1 e1 a1 b1 w7 5 in
  let '(c2, e2) := ripemd160_R42 c2 d2 e2 a2 b2 w2 12 in
  let '(b1, d1) := ripemd160_R41 b1 c1 d1 e1 a1 w15 6 in
  let '(b2, d2) := ripemd160_R42 b2 c2 d2 e2 a2 w13 9 in
  let '(a1, c1) := ripemd160_R41 a1 b1 c1 d1 e1 w14 8 in
  let '(a2, c2) := ripemd160_R42 a2 b2 c2 d2 e2 w9 12 in
  let '(e1, b1) := ripemd160_R41 e1 a1 b1 c1 d1 w5 6 in
  let '(e2, b2) := ripemd160_R42 e2 a2 b2 c2 d2 w7 5 in
  let '(d1, a1) := ripemd160_R41 d1 e1 a1 b1 c1 w6 5 in
  let '(d2, a2) := ripemd160_R42 d2 e2 a2 b2 c2 w10 15 in
  let '(c1, e1) := ripemd160_R41 c1 d1 e1 a1 b1 w2 12 in
  let '(c2, e2) := ripemd160_R42 c2 d2 e2 a2 b2 w14 8 in
  let '(b1, d1) := ripemd160_R51 b1 c1 d1 e1 a1 w4 9 in
  let '(b2, d2) := ripemd160_R52 b2 c2 d2 e2 a2 w12 8 in
  let '(a1, c1) := ripemd160_R51 a1 b1 c1 d1 e1 w0 15 in
  let '(a2, c2) := ripemd160_R52 a2 b2 c2 d2 e2 w15 5 in
  let '(e1, b1) := ripemd160_R51 e1 a1 b1 c1 d1 w5 5 in
  let '(e2, b2) := ripemd160_R52 e2 a2 b2 c2 d2 w10 12 in
  let '(d1, a1) := ripemd160_R51 d1 e1 a1 b1 c1 w9 11 in
  let '(d2, a2) := ripemd160_R52 d2 e2 a2 b2 c2 w4 9 in
  let '(c1, e1) := ripemd160_R51 c1 d1 e1 a1 b1 w7 6 in
  let '(c2, e2) := ripemd160_R52 c2 d2 e2 a2 b2 w1 12 in
  let '(b1, d1) := ripemd160_R51 b1 c1 d1 e1 a1 w12 8 in
  let '(b2, d2) := ripemd160_R52 b2 c2 d2 e2 a2 w5 5 in
  let '(a1, c1) := ripemd160_R51 a1 b1 c1 d1 e1 w2 13 in
  let '(a2, c2) := ripemd160_R52 a2 b2 c2 d2 e2 w8 14 in
  let '(e1, b1) := ripemd160_R51 e1 a1 b1 c1 d1 w10 12 in
  let '(e2, b2) := ripemd160_R52 e2 a2 b2 c2 d2 w7 6 in
  let '(d1, a1) := ripemd160_R51 d1 e1 a1 b1 c1 w14 5 in
  let '(d2, a2) := ripemd160_R52 d2 e2 a2 b2 c2 w6 8 in
  let '(c1, e1) := ripemd160_R51 c1 d1 e1 a1 b1 w1 12 in
  let '(c2, e2) := ripemd160_R52 c2 d2 e2 a2 b2 w2 13 in
  let '(b1, d1) := ripemd160_R51 b1 c1 d1 e1 a1 w3 13 in
  let '(b2, d2) := ripemd160_R52 b2 c2 d2 e2 a2 w13 6 in
  let '(a1, c1) := ripemd160_R51 a1 b1 c1 d1 e1 w8 14 in
  let '(a2, c2) := ripemd160_R52 a2 b2 c2 d2 e2 w14 5 in
  let '(e1, b1) := ripemd160_R51 e1 a1 b1 c1 d1 w11 11 in
  let '(e2, b2) := ripemd160_R52 e2 a2 b2 c2 d2 w0 15 in
  let '(d1, a1) := ripemd160_R51 d1 e1 a1 b1 c1 w6 8 in
  let '(d2, a2) := ripemd160_R52 d2 e2 a2 b2 c2 w3 13 in
  let '(c1, e1) := ripemd160_R51 c1 d1 e1 a1 b1 w15 5 in
  let '(c2, e2) := ripemd160_R52 c2 d2 e2 a2 b2 w9 11 in
  let '(b1, d1) := ripemd160_R51 b1 c1 d1 e1 a1 w13 6 in
  let '(b2, d2) := ripemd160_R52 b2 c2 d2 e2 a2 w11 11 in
  [idx s 1 ⊞ c1 ⊞ d2; idx s 2 ⊞ d1 ⊞ e2; idx s 3 ⊞ e1 ⊞ a2; idx s 4 ⊞ a1 ⊞ b2;
   idx s 0 ⊞ b1 ⊞ c2].

Definition CRIPEMD160_init (buf : bytes) : hasher := Hasher ripemd160_Initialize buf 0.
Definition CRIPEMD160_Write : hasher -> bytes -> hasher := engine_write 64 ripemd160_Transform.
Definition CRIPEMD160_sizedesc (bits : Z) : bytes := le_bytes 8 bits.
Definition CRIPEMD160_Finalize (h : hasher) : bytes :=
  flat_map (le_bytes 4) (engine_finalize 64 ripemd160_Transform 8 CRIPEMD160_sizedesc h).
Definition CRIPEMD160_Reset (h : hasher) : hasher := Hasher ripemd160_Initialize (hs_buf h) 0.

Definition ripemd160 (m : bytes) : bytes :=
  CRIPEMD160_Finalize (CRIPEMD160_Write (CRIPEMD160_init (replicate 64 0)) m).

#[global] Strategy 1000 [ripemd160_Transform].

(** ** The reference: compress the padded message block by block *)

Definition ripemd160_ref (m : bytes) : bytes :=
  flat_map (le_bytes 4) (md_hash 64 ripemd160_Transform ripemd160_Initialize 8 CRIPEMD160_sizedesc m).

Lemma ripemd160_stream buf ds : length buf = 64%nat ->
  CRIPEMD160_Finalize (fold_left CRIPEMD160_Write ds (CRIPEMD160_init buf)) = ripemd160_ref (concat ds).
Proof.
  intros Hl. unfold CRIPEMD160_Finalize, ripemd160_ref. f_equal. by apply engine_stream; [lia | |].
Qed.

Lemma ripemd160_eq m : ripemd160 m = ripemd160_ref m.
Proof.
  unfold ripemd160. change (CRIPEMD160_Write ?h m) with (fold_left CRIPEMD160_Write [m] h).
  rewrite ripemd160_stream by apply length_replicate. cbn [concat]. by rewrite app_nil_r.
Qed.

(** [Reset] starts over whatever was written before. *)
Lemma CRIPEMD160_Reset_stream h ds : length (hs_buf h) = 64%nat ->
  CRIPEMD160_Finalize (fold_left CRIPEMD160_Write ds (CRIPEMD160_Reset h)) = ripemd160_ref (concat ds).
Proof. intros. by apply ripemd160_stream. Qed.
