(* ===== verification/Hash.v ===== *)
(** [hash.h], [hash.cpp] and the HMAC classes of [crypto/]: double SHA-256,
    RIPEMD-160 of SHA-256, MurmurHash3, HMAC and the RFC 6979 generator. *)

From Stdlib Require Import ZArith Lia.
From stdpp Require Import base tactics list numbers strings.
From S2P Require Import Prelude HashEngine Sha256 Sha512 Ripemd160.

(** ** [CHash256] and [CHash160] *)

Definition CHash256_Write : hasher -> bytes -> hasher := CSHA256_Write.
Definition CHash256_Reset : hasher -> hasher := CSHA256_Reset.

(** The final [CSHA256] object keeps the buffer of the first pass. *)
Definition CHash256_Finalize (h : hasher) : bytes :=
  let buf := CSHA256_Finalize h in
  CSHA256_Finalize (CSHA256_Write (CSHA256_Reset h) buf).

Definition CHash512_Write : hasher -> bytes -> hasher := CSHA512_Write.
Definition CHash512_Reset : hasher -> hasher := CSHA512_Reset.
Definition CHash512_Finalize (h : hasher) : bytes :=
  let buf := CSHA512_Finalize h in
  CSHA512_Finalize (CSHA512_Write (CSHA512_Reset h) buf).

Definition CHash160_Write : hasher -> bytes -> hasher := CSHA256_Write.
Definition CHash160_Reset : hasher -> hasher := CSHA256_Reset.
Definition CHash160_Finalize (h : hasher) : bytes :=
  let buf := CSHA256_Finalize h in
  CRIPEMD160_Finalize (CRIPEMD160_Write (CRIPEMD160_init (replicate 64 0)) buf).

(** [Hash(p1begin, p1end, ..., pkbegin, pkend)] for any number of ranges: one
    [Write] each. *)
Definition Hash_ranges (ps : list bytes) : bytes :=
  CHash256_Finalize (fold_left CHash256_Write ps (CSHA256_init (replicate 64 0))).
Definition Hash (p : bytes) : bytes := Hash_ranges [p].
Definition Hash2 (p1 p2 : bytes) : bytes := Hash_ranges [p1; p2].
Definition Hash3 (p1 p2 p3 : bytes) : bytes := Hash_ranges [p1; p2; p3].
Definition Hash4 (p1 p2 p3 p4 : bytes) : bytes := Hash_ranges [p1; p2; p3; p4].
Definition Hash5 (p1 p2 p3 p4 p5 : bytes) : bytes := Hash_ranges [p1; p2; p3; p4; p5].
Definition Hash6 (p1 p2 p3 p4 p5 p6 : bytes) : bytes := Hash_ranges [p1; p2; p3; p4; p5; p6].

Definition Hash512_ranges (ps : list bytes) : bytes :=
  CHash512_Finalize (fold_left CHash512_Write ps (CSHA512_init (replicate 128 0))).

Definition Hash160 (p : bytes) : bytes :=
  CHash160_Finalize (CHash160_Write (CSHA256_init (replicate 64 0)) p).

(** [CHashWriter]: a stream that hashes what is serialized into it. *)
Definition CHashWriter_init : hasher := CSHA256_init (replicate 64 0).
Definition CHashWriter_write : hasher -> bytes -> hasher := CHash256_Write.
Definition CHashWriter_GetHash : hasher -> bytes := CHash256_Finalize.

(** ** [MurmurHash3] *)

Definition ROTL32 (x r : Z) : Z := Z.lor (u32 (Z.shiftl x r)) (Z.shiftr x (32 - r)).

Definition murmur_c1 : Z := 0xcc9e2d51.
Definition murmur_c2 : Z := 0x1b873593.

Definition murmur_k1 (k1 : Z) : Z := u32 (ROTL32 (u32 (k1 * murmur_c1)) 15 * murmur_c2).

(** The body loop over [nblocks] four-byte blocks. *)
Fixpoint murmur_body (nblocks : nat) (data : bytes) (h1 : Z) : Z :=
  match nblocks with
  | O => h1
  | S n =>
      let h1 := Z.lxor h1 (murmur_k1 (ReadLE32 data 0)) in
      let h1 := u32 (ROTL32 h1 13 * 5 + 0xe6546b64) in
      murmur_body n (drop 4 data) h1
  end.

(** The [switch] on [size & 3], with its fall-through. *)
Definition murmur_tail (tail : bytes) (h1 : Z) : Z :=
  let n := zlen tail in
  let k1 := 0 in
  let k1 := if n =? 3 then Z.lxor k1 (Z.shiftl (idx tail 2) 16) else k1 in
  let k1 := if 2 <=? n then Z.lxor k1 (Z.shiftl (idx tail 1) 8) else k1 in
  if 1 <=? n then Z.lxor h1 (murmur_k1 (Z.lxor k1 (idx tail 0))) else h1.

Definition murmur_final (h1 size : Z) : Z :=
  let h1 := Z.lxor h1 (u32 size) in
  let h1 := Z.lxor h1 (Z.shiftr h1 16) in
  let h1 := u32 (h1 * 0x85ebca6b) in
  let h1 := Z.lxor h1 (Z.shiftr h1 13) in
  let h1 := u32 (h1 * 0xc2b2ae35) in
  Z.lxor h1 (Z.shiftr h1 16).

Definition MurmurHash3 (nHashSeed : Z) (vDataToHash : bytes) : Z :=
  let h1 := nHashSeed in
  let h1 :=
    if 0 <? zlen vDataToHash then
      let nblocks := Z.to_nat (zlen vDataToHash / 4) in
      let h1 := murmur_body nblocks vDataToHash h1 in
      murmur_tail (drop (4 * nblocks) vDataToHash) h1
    else h1 in
  murmur_final h1 (zlen vDataToHash).

(** ** HMAC *)

Record hmac := Hmac { hm_outer : hasher; hm_inner : hasher }.

Definition CHMAC_SHA256 (key : bytes) : hmac :=
  let rkey := if zlen key <=? 64 then key ++ replicate (64 - length key) 0
              else sha256 key ++ replicate 32 0 in
  let rkey := map (fun b => Z.lxor b 0x5c) rkey in
  let outer := CSHA256_Write (CSHA256_init (replicate 64 0)) rkey in
  let rkey := map (fun b => Z.lxor b (Z.lxor 0x5c 0x36)) rkey in
  let inner := CSHA256_Write (CSHA256_init (replicate 64 0)) rkey in
  Hmac outer inner.

Definition CHMAC_SHA256_Write (h : hmac) (data : bytes) : hmac :=
  Hmac (hm_outer h) (CSHA256_Write (hm_inner h) data).

Definition CHMAC_SHA256_Finalize (h : hmac) : bytes :=
  let temp := CSHA256_Finalize (hm_inner h) in
  CSHA256_Finalize (CSHA256_Write (hm_outer h) temp).

Definition CHMAC_SHA512 (key : bytes) : hmac :=
  let rkey := if zlen key <=? 128 then key ++ replicate (128 - length key) 0
              else sha512 key ++ replicate 64 0 in
  let rkey := map (fun b => Z.lxor b 0x5c) rkey in
  let outer := CSHA512_Write (CSHA512_init (replicate 128 0)) rkey in
  let rkey := map (fun b => Z.lxor b (Z.lxor 0x5c 0x36)) rkey in
  let inner := CSHA512_Write (CSHA512_init (replicate 128 0)) rkey in
  Hmac outer inner.

Definition CHMAC_SHA512_Write (h : hmac) (data : bytes) : hmac :=
  Hmac (hm_outer h) (CSHA512_Write (hm_inner h) data).

Definition CHMAC_SHA512_Finalize (h : hmac) : bytes :=
  let temp := CSHA512_Finalize (hm_inner h) in
  CSHA512_Finalize (CSHA512_Write (hm_outer h) temp).

(** [CHMAC_SHA256(key).Write(d1)...Write(dk).Finalize(out)] *)
Definition hmac_sha256 (key : bytes) (ds : list bytes) : bytes :=
  CHMAC_SHA256_Finalize (fold_left CHMAC_SHA256_Write ds (CHMAC_SHA256 key)).
Definition hmac_sha512 (key : bytes) (ds : list bytes) : bytes :=
  CHMAC_SHA512_Finalize (fold_left CHMAC_SHA512_Write ds (CHMAC_SHA512 key)).

Definition BIP32Hash (chainCode : bytes) (nChild header : Z) (data : bytes) : bytes :=
  let num := [Z.land (Z.shiftr nChild 24) 255; Z.land (Z.shiftr nChild 16) 255;
              Z.land (Z.shiftr nChild 8) 255; Z.land (Z.shiftr nChild 0) 255] in
  hmac_sha512 chainCode [[header]; data; num].

(** ** The RFC 6979 generator *)

Record RFC6979 := { rfc_V : bytes; rfc_K : bytes; rfc_retry : bool }.

Definition RFC6979_HMAC_SHA256 (key msg : bytes) : RFC6979 :=
  let V := replicate 32 1 in
  let K := replicate 32 0 in
  let K := hmac_sha256 K [V; [0]; key; msg] in
  let V := hmac_sha256 K [V] in
  let K := hmac_sha256 K [V; [1]; key; msg] in
  let V := hmac_sha256 K [V] in
  {| rfc_V := V; rfc_K := K; rfc_retry := false |}.

(** [while (outputlen > 0)]: each round writes at least one byte. *)
Fixpoint RFC6979_loop (fuel : nat) (K V : bytes) (outputlen : nat) : bytes * bytes :=
  match fuel with
  | O => ([], V)
  | S fuel =>
      if (0 <? outputlen)%nat then
        let V := hmac_sha256 K [V] in
        let len := (outputlen `min` 32)%nat in
        let (out, V') := RFC6979_loop fuel K V (outputlen - len) in
        (take len V ++ out, V')
      else ([], V)
  end.

Definition RFC6979_Generate (r : RFC6979) (outputlen : nat) : bytes * RFC6979 :=
  let K := if rfc_retry r then hmac_sha256 (rfc_K r) [rfc_V r; [0]] else rfc_K r in
  let V := if rfc_retry r then hmac_sha256 K [rfc_V r] else rfc_V r in
  let (out, V) := RFC6979_loop outputlen K V outputlen in
  (out, {| rfc_V := V; rfc_K := K; rfc_retry := true |}).

(** ** What the classes compute *)

Lemma CSHA256_writes_buf ds buf : length buf = 64%nat ->
  length (hs_buf (fold_left CSHA256_Write ds (CSHA256_init buf))) = 64%nat.
Proof.
  intros Hl. pose proof (engine_writes_represents 64 sha256_Transform ltac:(lia) eq_refl
    sha256_Initialize (Hasher sha256_Initialize buf 0) [] ds (represents_init _ _ _ _ Hl)) as (r & _ & _ & H & _).
  exact H.
Qed.

Lemma CSHA512_writes_buf ds buf : length buf = 128%nat ->
  length (hs_buf (fold_left CSHA512_Write ds (CSHA512_init buf))) = 128%nat.
Proof.
  intros Hl. pose proof (engine_writes_represents 128 sha512_Transform ltac:(lia) eq_refl
    sha512_Initialize (Hasher sha512_Initialize buf 0) [] ds (represents_init _ _ _ _ Hl)) as (r & _ & _ & H & _).
  exact H.
Qed.

Lemma sha256_write1 h m : CSHA256_Write h m = fold_left CSHA256_Write [m] h.
Proof. done. Qed.
Lemma sha512_write1 h m : CSHA512_Write h m = fold_left CSHA512_Write [m] h.
Proof. done. Qed.

Lemma ripemd160_write1 h m : CRIPEMD160_Write h m = fold_left CRIPEMD160_Write [m] h.
Proof. done. Qed.

Lemma Hash_ranges_ref ps : Hash_ranges ps = sha256_ref (sha256_ref (concat ps)).
Proof.
  unfold Hash_ranges, CHash256_Finalize, CHash256_Write.
  rewrite sha256_write1, CSHA256_Reset_stream by (apply CSHA256_writes_buf; done).
  cbn [concat]. by rewrite app_nil_r, sha256_stream.
Qed.

Lemma Hash512_ranges_ref ps : Hash512_ranges ps = sha512_ref (sha512_ref (concat ps)).
Proof.
  unfold Hash512_ranges, CHash512_Finalize, CHash512_Write.
  rewrite sha512_write1, CSHA512_Reset_stream by (apply CSHA512_writes_buf; done).
  cbn [concat]. by rewrite app_nil_r, sha512_stream.
Qed.

Lemma Hash160_ref p : Hash160 p = ripemd160_ref (sha256_ref p).
Proof.
  unfold Hash160, CHash160_Finalize, CHash160_Write.
  rewrite sha256_write1, sha256_stream, ripemd160_write1, ripemd160_stream by done.
  cbn [concat]. by rewrite !app_nil_r.
Qed.

(** hashing several ranges with [Hash] is double SHA-256 of their
    concatenation, and [Hash512] is double SHA-512 of it: how the input is split
    over [Write] calls, what the buffers held and the reuse of the object
    between the two passes do not matter. [Hash160] is RIPEMD-160 of SHA-256. *)
Theorem Hash_ranges_reference (ps : list bytes) :
  Hash_ranges ps = sha256_ref (sha256_ref (concat ps))
  /\ Hash512_ranges ps = sha512_ref (sha512_ref (concat ps))
  /\ Hash160 (concat ps) = ripemd160_ref (sha256_ref (concat ps)).
Proof. split_and!; [apply Hash_ranges_ref | apply Hash512_ranges_ref | apply Hash160_ref]. Qed.

(** RFC 2104, with [H] of block size [B]. *)
Definition hmac_reference (H : bytes -> bytes) (B : nat) (key m : bytes) : bytes :=
  let K0 := if (length key <=? B)%nat then key ++ replicate (B - length key) 0
            else H key ++ replicate (B - length (H key)) 0 in
  H (map (Z.lxor 0x5c) K0 ++ H (map (Z.lxor 0x36) K0 ++ m)).

Lemma hmac_sha256_writes ds h :
  fold_left CHMAC_SHA256_Write ds h = Hmac (hm_outer h) (fold_left CSHA256_Write ds (hm_inner h)).
Proof. revert h. induction ds as [| d ds IH]; intros h; [by destruct h |]. cbn. by rewrite IH. Qed.
Lemma hmac_sha512_writes ds h :
  fold_left CHMAC_SHA512_Write ds h = Hmac (hm_outer h) (fold_left CSHA512_Write ds (hm_inner h)).
Proof. revert h. induction ds as [| d ds IH]; intros h; [by destruct h |]. cbn. by rewrite IH. Qed.

Lemma xor_pads l :
  map (fun b => Z.lxor b (Z.lxor 0x5c 0x36)) (map (fun b => Z.lxor b 0x5c) l) = map (Z.lxor 0x36) l
  /\ map (fun b => Z.lxor b 0x5c) l = map (Z.lxor 0x5c) l.
Proof.
  rewrite map_map. split; apply map_ext; intros b; [| apply Z.lxor_comm].
  rewrite Z.lxor_assoc, (Z.lxor_comm b). f_equal.
Qed.

Lemma flat_map_length {A} (f : A -> bytes) l n :
  (forall x, length (f x) = n) -> length (flat_map f l) = (length l * n)%nat.
Proof. intros H. induction l as [| x l IH]; [done |]. cbn. rewrite length_app, H, IH. done. Qed.

Lemma be_bytes_length n z : length (be_bytes n z) = n.
Proof. unfold be_bytes. by rewrite length_rev, le_bytes_length. Qed.

(** The chaining value keeps its eight words. *)
Lemma write_blocks_words B T fuel s l n :
  (forall s c, length (T s c) = n) -> length s = n -> length (fst (write_blocks B T fuel s l)) = n.
Proof.
  intros HT. revert s l. induction fuel as [| fuel IH]; intros s l Hs; [done |]. cbn.
  destruct (_ <=? _)%nat; [apply IH, HT | done].
Qed.

Lemma sha256_Transform_words s c : length (sha256_Transform s c) = 8%nat.
Proof. lazy. reflexivity. Qed.
Lemma sha512_Transform_words s c : length (sha512_Transform s c) = 8%nat.
Proof. lazy. reflexivity. Qed.

Lemma sha256_ref_length m : length (sha256_ref m) = 32%nat.
Proof.
  unfold sha256_ref, md_hash, absorb. rewrite (flat_map_length _ _ 4) by apply be_bytes_length.
  rewrite (write_blocks_words _ _ _ _ _ 8); [done | apply sha256_Transform_words | done].
Qed.
Lemma sha512_ref_length m : length (sha512_ref m) = 64%nat.
Proof.
  unfold sha512_ref, md_hash, absorb. rewrite (flat_map_length _ _ 8) by apply be_bytes_length.
  rewrite (write_blocks_words _ _ _ _ _ 8); [done | apply sha512_Transform_words | done].
Qed.

Lemma zlen_leb_nat {A} (l : list A) n : (zlen l <=? Z.of_nat n) = (length l <=? n)%nat.
Proof. unfold zlen. destruct (Z.leb_spec (Z.of_nat (length l)) (Z.of_nat n)), (Nat.leb_spec (length l) n); lia || done. Qed.

(** the two HMAC classes compute RFC 2104 HMAC of the concatenation of
    what is written, for keys of any length. *)
Theorem hmac_rfc2104 (key : bytes) (ds : list bytes) :
  hmac_sha256 key ds = hmac_reference sha256_ref 64 key (concat ds)
  /\ hmac_sha512 key ds = hmac_reference sha512_ref 128 key (concat ds).
Proof.
  split.
  - unfold hmac_sha256, CHMAC_SHA256_Finalize. rewrite hmac_sha256_writes.
    unfold CHMAC_SHA256. cbn [hm_outer hm_inner].
    change (zlen key <=? 64) with (zlen key <=? Z.of_nat 64). rewrite sha256_eq, zlen_leb_nat.
    set (K0 := if (length key <=? 64)%nat then _ else _).
    destruct (xor_pads K0) as [-> ->].
    rewrite (sha256_write1 (CSHA256_init _) (map (Z.lxor 0x36) K0)), <- fold_left_app.
    rewrite (sha256_write1 (CSHA256_init _) (map (Z.lxor 0x5c) K0)).
    rewrite (sha256_write1 (fold_left _ _ _)), <- fold_left_app, !sha256_stream by done.
    unfold hmac_reference. rewrite sha256_ref_length. fold K0. cbn [concat app]. by rewrite app_nil_r.
  - unfold hmac_sha512, CHMAC_SHA512_Finalize. rewrite hmac_sha512_writes.
    unfold CHMAC_SHA512. cbn [hm_outer hm_inner].
    change (zlen key <=? 128) with (zlen key <=? Z.of_nat 128). rewrite sha512_eq, zlen_leb_nat.
    set (K0 := if (length key <=? 128)%nat then _ else _).
    destruct (xor_pads K0) as [-> ->].
    rewrite (sha512_write1 (CSHA512_init _) (map (Z.lxor 0x36) K0)), <- fold_left_app.
    rewrite (sha512_write1 (CSHA512_init _) (map (Z.lxor 0x5c) K0)).
    rewrite (sha512_write1 (fold_left _ _ _)), <- fold_left_app, !sha512_stream by done.
    unfold hmac_reference. rewrite sha512_ref_length. fold K0. cbn [concat app]. by rewrite app_nil_r.
Qed.
