(* ===== verification/ChainParams.v ===== *)
(** [consensus/params.h] and [chainparams.cpp]: the consensus parameters of the
    three networks, the address prefixes, and the predicates on them. *)

From Stdlib Require Import ZArith Lia.
From stdpp Require Import base tactics list numbers strings.
From S2P Require Import Prelude Amount.

(** Assigning a floating literal [a/b] to an integer field truncates it. *)
Definition trunc_ratio (a b : Z) : Z := Z.quot a b.

(** [struct Consensus::Params]; 256-bit numbers are their values. *)
Record ConsensusParams := {
  hashGenesisBlock : Z;
  fPowAllowMinDifficultyBlocks : bool;
  powLimit : Z;
  posLimitV1 : Z;
  posLimitV2 : Z;
  nBudgetCycleBlocks : Z;
  nBudgetFeeConfirmations : Z;
  nCoinbaseMaturity : Z;
  nFutureTimeDriftPoW : Z;
  nFutureTimeDriftPoS : Z;
  nMasternodeCountDrift : Z;
  nMaxMoneyOut : Z;
  nPoolMaxTransactions : Z;
  nProposalEstablishmentTime : Z;
  nStakeMinAge : Z;
  nStakeMinDepth : Z;
  nTargetTimespan : Z;
  nTargetTimespanV2 : Z;
  nTargetSpacing : Z;
  nTimeSlotLength : Z;
  nBetBlocksIndexTimespan : Z;
  strDevPayoutAddr : bytes;
  nMinBetPayoutRange : Z;
  nMaxBetPayoutRange : Z;
  nMaxWinnerPayout : Z;
  nBetBlockPayoutAmount : Z;
  nBetPlaceTimeoutBlocks : Z;
  strSporkPubKey : bytes;
  strSporkPubKeyOld : bytes;
  nTime_EnforceNewSporkKey : Z;
  nTime_RejectOldSporkKey : Z;
  height_last_PoW : Z;
  height_last_ZC_AccumCheckpoint : Z;
  height_last_ZC_WrappedSerials : Z;
  height_start_BIP65 : Z;
  height_start_InvalidUTXOsCheck : Z;
  height_start_MessSignaturesV2 : Z;
  height_start_StakeModifierNewSelection : Z;
  height_start_StakeModifierV2 : Z;
  height_start_TimeProtoV2 : Z;
  height_start_ZC : Z;
  height_start_ZC_InvalidSerials : Z;
  height_start_ZC_PublicSpends : Z;
  height_start_ZC_SerialRangeCheck : Z;
  height_start_ZC_SerialsV2 : Z;
  height_ZC_RecalcAccumulators : Z;
  nPwrbBadBlockTime : Z;
  nPwrbBadBlockBits : Z;
  ZC_Modulus : bytes;
  ZC_MaxPublicSpendsPerTx : Z;
  ZC_MaxSpendsPerTx : Z;
  ZC_MinMintConfirmations : Z;
  ZC_MinMintFee : Z;
  ZC_MinStakeDepth : Z;
  ZC_TimeStart : Z;
  ZC_WrappedSerialsSupply : Z
}.

(** [CMainParams] *)
Definition mainConsensus : ConsensusParams := {|
  hashGenesisBlock := 0x000001240cc694469fa1944f31e3e1de71799ae415cff0dfdf4e7229896b37eb;
  fPowAllowMinDifficultyBlocks := false;
  powLimit := Z.shiftr (2 ^ 256 - 1) 20;
  posLimitV1 := Z.shiftr (2 ^ 256 - 1) 24;
  posLimitV2 := Z.shiftr (2 ^ 256 - 1) 20;
  nBudgetCycleBlocks := 43200;
  nBudgetFeeConfirmations := 6;
  nCoinbaseMaturity := 100;
  nFutureTimeDriftPoW := 7200;
  nFutureTimeDriftPoS := 180;
  nMasternodeCountDrift := 20;
  nMaxMoneyOut := 3000000 * COIN;
  nPoolMaxTransactions := 3;
  nProposalEstablishmentTime := 60 * 60 * 24;
  nStakeMinAge := 3600;
  nStakeMinDepth := 600;
  nTargetTimespan := 40 * 60;
  nTargetTimespanV2 := 30 * 60;
  nTargetSpacing := 1 * 60;
  nTimeSlotLength := 15;
  nBetBlocksIndexTimespan := 1440*7;
  strDevPayoutAddr := str "PXEmioTv9BDESnpeDGeovLddtekLM1rawc";
  nMinBetPayoutRange := trunc_ratio 5 100;
  nMaxBetPayoutRange := 833;
  nMaxWinnerPayout := 10001;
  nBetBlockPayoutAmount := 1440*7;
  nBetPlaceTimeoutBlocks := 110*60;
  strSporkPubKey := str "04a44e6db7c1a961054d05097a37db0d38950e9bb30ddacfe956f09e27a9fad6e315d2a271359e15a24663d7b617213a4ad270d2102977fac368bce8f48e49474d";
  strSporkPubKeyOld := str "04a44e6db7c1a961054d05097a37db0d38950e9bb30ddacfe956f09e27a9fad6e315d2a271359e15a24663d7b617213a4ad270d2102977fac368bce8f48e49474d";
  nTime_EnforceNewSporkKey := 1584552673;
  nTime_RejectOldSporkKey := 1569538800;
  height_last_PoW := 200;
  height_last_ZC_AccumCheckpoint := 208;
  height_last_ZC_WrappedSerials := -1;
  height_start_BIP65 := 210;
  height_start_InvalidUTXOsCheck := 999999999;
  height_start_MessSignaturesV2 := 2100;
  height_start_StakeModifierNewSelection := 0;
  height_start_StakeModifierV2 := 2000;
  height_start_TimeProtoV2 := 2100;
  height_start_ZC := 205;
  height_start_ZC_InvalidSerials := 999999999;
  height_start_ZC_PublicSpends := 2100;
  height_start_ZC_SerialRangeCheck := 1;
  height_start_ZC_SerialsV2 := 205;
  height_ZC_RecalcAccumulators := 999999999;
  nPwrbBadBlockTime := 1471401614;
  nPwrbBadBlockBits := 0x1c056dac;
  ZC_Modulus := str "25195908475657893494027183240048398571429282126204032027777137836043662020707595556264018525880784406918290641249515082189298559149176184502808489120072844992687392807287776735971418347270261896375014971824691165077613379859095700097330459748808428401797429100642458691817195118746121515172654632282216869987549182422433637259085141865462043576798423387184774447920739934236584823824281198163815010674810451660377306056201619676256133844143603833904414952634432190114657544454178424020924616515723350778707749817125772467962926386356373289912154831438167899885040445364023527381951378636564391212010397122822120720357";
  ZC_MaxPublicSpendsPerTx := 637;
  ZC_MaxSpendsPerTx := 7;
  ZC_MinMintConfirmations := 20;
  ZC_MinMintFee := 1 * CENT;
  ZC_MinStakeDepth := 200;
  ZC_TimeStart := 1591653000;
  ZC_WrappedSerialsSupply := 0 * COIN
|}.

(** [CTestNetParams] *)
Definition testConsensus : ConsensusParams := {|
  hashGenesisBlock := 0x000001240cc694469fa1944f31e3e1de71799ae415cff0dfdf4e7229896b37eb;
  fPowAllowMinDifficultyBlocks := true;
  powLimit := Z.shiftr (2 ^ 256 - 1) 20;
  posLimitV1 := Z.shiftr (2 ^ 256 - 1) 24;
  posLimitV2 := Z.shiftr (2 ^ 256 - 1) 20;
  nBudgetCycleBlocks := 144;
  nBudgetFeeConfirmations := 3;
  nCoinbaseMaturity := 15;
  nFutureTimeDriftPoW := 7200;
  nFutureTimeDriftPoS := 180;
  nMasternodeCountDrift := 4;
  nMaxMoneyOut := 3000000 * COIN;
  nPoolMaxTransactions := 2;
  nProposalEstablishmentTime := 60 * 5;
  nStakeMinAge := 3600;
  nStakeMinDepth := 600;
  nTargetTimespan := 40 * 60;
  nTargetTimespanV2 := 30 * 60;
  nTargetSpacing := 1 * 60;
  nTimeSlotLength := 15;
  nBetBlocksIndexTimespan := 1440*7;
  strDevPayoutAddr := str "xwLsc1qBHuxtLsfGPBV6caT4RsgFqvLX2Z";
  nMinBetPayoutRange := trunc_ratio 5 100;
  nMaxBetPayoutRange := 101;
  nMaxWinnerPayout := 10001;
  nBetBlockPayoutAmount := 1440*7;
  nBetPlaceTimeoutBlocks := 110*60;
  strSporkPubKey := str "0476b9e13ecf801b9f9a6def9121d5bc05361bf37927bdc342719239e65251396a105279ffd3d11f606172aa8aca4b66b11a1cfc9e1e0a316d5881f360b266dfae";
  strSporkPubKeyOld := str "0476b9e13ecf801b9f9a6def9121d5bc05361bf37927bdc342719239e65251396a105279ffd3d11f606172aa8aca4b66b11a1cfc9e1e0a316d5881f360b266dfae";
  nTime_EnforceNewSporkKey := 1584552673;
  nTime_RejectOldSporkKey := 1569538800;
  height_last_PoW := 200;
  height_last_ZC_AccumCheckpoint := 1106090;
  height_last_ZC_WrappedSerials := -1;
  height_start_BIP65 := 210;
  height_start_InvalidUTXOsCheck := 999999999;
  height_start_MessSignaturesV2 := 2100;
  height_start_StakeModifierNewSelection := 0;
  height_start_StakeModifierV2 := 2000;
  height_start_TimeProtoV2 := 2100;
  height_start_ZC := 205;
  height_start_ZC_InvalidSerials := 999999999;
  height_start_ZC_PublicSpends := 2100;
  height_start_ZC_SerialRangeCheck := 1;
  height_start_ZC_SerialsV2 := 205;
  height_ZC_RecalcAccumulators := 999999999;
  nPwrbBadBlockTime := 1489001494;
  nPwrbBadBlockBits := 0x1e0a20bd;
  ZC_Modulus := str "25195908475657893494027183240048398571429282126204032027777137836043662020707595556264018525880784406918290641249515082189298559149176184502808489120072844992687392807287776735971418347270261896375014971824691165077613379859095700097330459748808428401797429100642458691817195118746121515172654632282216869987549182422433637259085141865462043576798423387184774447920739934236584823824281198163815010674810451660377306056201619676256133844143603833904414952634432190114657544454178424020924616515723350778707749817125772467962926386356373289912154831438167899885040445364023527381951378636564391212010397122822120720357";
  ZC_MaxPublicSpendsPerTx := 637;
  ZC_MaxSpendsPerTx := 7;
  ZC_MinMintConfirmations := 20;
  ZC_MinMintFee := 1 * CENT;
  ZC_MinStakeDepth := 200;
  ZC_TimeStart := 1591653000;
  ZC_WrappedSerialsSupply := 0
|}.

(** [CRegTestParams]: what it does not set it inherits from [CTestNetParams]. *)
Definition regConsensus : ConsensusParams := {|
  hashGenesisBlock := 0x000001240cc694469fa1944f31e3e1de71799ae415cff0dfdf4e7229896b37eb;
  fPowAllowMinDifficultyBlocks := true;
  powLimit := Z.shiftr (2 ^ 256 - 1) 20;
  posLimitV1 := Z.shiftr (2 ^ 256 - 1) 24;
  posLimitV2 := Z.shiftr (2 ^ 256 - 1) 20;
  nBudgetCycleBlocks := 144;
  nBudgetFeeConfirmations := 3;
  nCoinbaseMaturity := 100;
  nFutureTimeDriftPoW := 7200;
  nFutureTimeDriftPoS := 180;
  nMasternodeCountDrift := 4;
  nMaxMoneyOut := 3000000 * COIN;
  nPoolMaxTransactions := 2;
  nProposalEstablishmentTime := 60 * 5;
  nStakeMinAge := 0;
  nStakeMinDepth := 2;
  nTargetTimespan := 40 * 60;
  nTargetTimespanV2 := 30 * 60;
  nTargetSpacing := 1 * 60;
  nTimeSlotLength := 15;
  nBetBlocksIndexTimespan := 1440*7;
  strDevPayoutAddr := str "xwLsc1qBHuxtLsfGPBV6caT4RsgFqvLX2Z";
  nMinBetPayoutRange := trunc_ratio 5 100;
  nMaxBetPayoutRange := 101;
  nMaxWinnerPayout := 10001;
  nBetBlockPayoutAmount := 1440*7;
  nBetPlaceTimeoutBlocks := 110*60;
  strSporkPubKey := str "043969b1b0e6f327de37f297a015d37e2235eaaeeb3933deecd8162c075cee0207b13537618bde640879606001a8136091c62ec272dd0133424a178704e6e75bb7";
  strSporkPubKeyOld := str "";
  nTime_EnforceNewSporkKey := 0;
  nTime_RejectOldSporkKey := 0;
  height_last_PoW := 250;
  height_last_ZC_AccumCheckpoint := 310;
  height_last_ZC_WrappedSerials := -1;
  height_start_BIP65 := 210;
  height_start_InvalidUTXOsCheck := 999999999;
  height_start_MessSignaturesV2 := 1;
  height_start_StakeModifierNewSelection := 0;
  height_start_StakeModifierV2 := 251;
  height_start_TimeProtoV2 := 999999999;
  height_start_ZC := 300;
  height_start_ZC_InvalidSerials := 999999999;
  height_start_ZC_PublicSpends := 210;
  height_start_ZC_SerialRangeCheck := 300;
  height_start_ZC_SerialsV2 := 300;
  height_ZC_RecalcAccumulators := 999999999;
  nPwrbBadBlockTime := 1489001494;
  nPwrbBadBlockBits := 0x1e0a20bd;
  ZC_Modulus := str "25195908475657893494027183240048398571429282126204032027777137836043662020707595556264018525880784406918290641249515082189298559149176184502808489120072844992687392807287776735971418347270261896375014971824691165077613379859095700097330459748808428401797429100642458691817195118746121515172654632282216869987549182422433637259085141865462043576798423387184774447920739934236584823824281198163815010674810451660377306056201619676256133844143603833904414952634432190114657544454178424020924616515723350778707749817125772467962926386356373289912154831438167899885040445364023527381951378636564391212010397122822120720357";
  ZC_MaxPublicSpendsPerTx := 637;
  ZC_MaxSpendsPerTx := 7;
  ZC_MinMintConfirmations := 10;
  ZC_MinMintFee := 1 * CENT;
  ZC_MinStakeDepth := 10;
  ZC_TimeStart := 0;
  ZC_WrappedSerialsSupply := 0
|}.

(** ** The methods of [Consensus::Params] *)

Section Methods.
Context (p : ConsensusParams).

Definition TargetTimespan (fV2 : bool) : Z := if fV2 then nTargetTimespanV2 p else nTargetTimespan p.
Definition ProofOfStakeLimit (fV2 : bool) : Z := if fV2 then posLimitV2 p else posLimitV1 p.
Definition MoneyRange (nValue : Z) : bool := (0 <=? nValue) && (nValue <=? nMaxMoneyOut p).
Definition IsMessSigV2 (nHeight : Z) : bool := height_start_MessSignaturesV2 p <=? nHeight.
Definition IsTimeProtocolV2 (nHeight : Z) : bool := height_start_TimeProtoV2 p <=? nHeight.

Definition FutureBlockTimeDrift (nHeight : Z) : Z :=
  if IsTimeProtocolV2 nHeight then nTimeSlotLength p - 1
  else if height_last_PoW p <? nHeight then nFutureTimeDriftPoS p else nFutureTimeDriftPoW p.

Definition IsValidBlockTimeStamp (nTime nHeight : Z) : bool :=
  if negb (IsTimeProtocolV2 nHeight) then true
  else Z.rem nTime (nTimeSlotLength p) =? 0.

(** The sum of the [uint32_t] time and the age wraps at 32 bits. *)
Definition HasStakeMinAgeOrDepth (contextHeight contextTime utxoFromBlockHeight utxoFromBlockTime : Z) : bool :=
  if contextHeight <? height_start_StakeModifierV2 p
  then u32 (utxoFromBlockTime + nStakeMinAge p) <=? contextTime
  else nStakeMinDepth p <=? contextHeight - utxoFromBlockHeight.
End Methods.

(** ** Address prefixes *)

Inductive Base58Type :=
| PUBKEY_ADDRESS | SCRIPT_ADDRESS | SECRET_KEY | EXT_PUBLIC_KEY | EXT_SECRET_KEY | EXT_COIN_TYPE
| STAKING_ADDRESS.

Definition mainBase58 (t : Base58Type) : bytes :=
  match t with
  | PUBKEY_ADDRESS => [55]
  | SCRIPT_ADDRESS => [73]
  | STAKING_ADDRESS => [63]
  | SECRET_KEY => [60]
  | EXT_PUBLIC_KEY => [0x02; 0x2D; 0x25; 0x33]
  | EXT_SECRET_KEY => [0x02; 0x21; 0x31; 0x2B]
  | EXT_COIN_TYPE => [0x80; 0x00; 0x00; 0x77]
  end.

Definition testBase58 (t : Base58Type) : bytes :=
  match t with
  | PUBKEY_ADDRESS => [139]
  | SCRIPT_ADDRESS => [19]
  | STAKING_ADDRESS => [73]
  | SECRET_KEY => [239]
  | EXT_PUBLIC_KEY => [0x3a; 0x80; 0x61; 0xa0]
  | EXT_SECRET_KEY => [0x3a; 0x80; 0x58; 0x37]
  | EXT_COIN_TYPE => [0x80; 0x00; 0x00; 0x01]
  end.

(** What the code reads through [Params()]: the selected network. *)
Record CChainParams := { consensus : ConsensusParams; Base58Prefix : Base58Type -> bytes }.

Definition mainParams : CChainParams := {| consensus := mainConsensus; Base58Prefix := mainBase58 |}.
Definition testNetParams : CChainParams := {| consensus := testConsensus; Base58Prefix := testBase58 |}.
Definition regTestParams : CChainParams := {| consensus := regConsensus; Base58Prefix := testBase58 |}.
