(* ===== verification/Base58.v ===== *)
(** [base58.cpp], [base58.h]: base 58 text, the checksummed form, and addresses. *)

From Stdlib Require Import ZArith Lia.
From stdpp Require Import base tactics list numbers strings.
From S2P Require Import Prelude CString Script HashEngine Sha256 Hash ChainParams.

Definition pszBase58 : bytes := str "123456789ABCDEFGHJKLMNPQRSTUVWXYZabcdefghijkmnopqrstuvwxyz".

(** The carry loop of both directions, [v = v * mul + carry] on digits of base
    [base]; the digits are listed in the order [rbegin()] visits them, least
    significant first. The result is the new digits and the final carry. *)
Fixpoint mul_add (base mul : Z) (v : list Z) (carry : Z) : list Z * Z :=
  match v with
  | [] => ([], carry)
  | d :: v =>
      let carry := carry + mul * d in
      let (v, out) := mul_add base mul v (carry / base) in
      (carry `mod` base :: v, out)
  end.

(** [strchr(pszBase58, c) - pszBase58] *)
Fixpoint strchr_pos (s : bytes) (c i : Z) : option Z :=
  match s with
  | [] => None
  | x :: s => if x =? c then Some i else strchr_pos s c (i + 1)
  end.

Fixpoint skip_while (p : Z -> bool) (l : bytes) : bytes :=
  match l with [] => [] | c :: l' => if p c then skip_while p l' else l end.

(** How a call can end: an [assert] can fail, a decoder can return false. *)
Inductive decoded := Decoded (v : bytes) | Rejected | AssertFailed.

(** The character loop of [DecodeBase58]: the digits and the rest of the text. *)
Fixpoint decode58_loop (psz : bytes) (b256 : list Z) : option (option (list Z * bytes)) :=
  match psz with
  | [] => Some (Some (b256, []))
  | c :: psz' =>
      if isspace c then Some (Some (b256, psz))
      else match strchr_pos pszBase58 c 0 with
           | None => Some None
           | Some carry =>
               let (b256, out) := mul_add 256 58 b256 carry in
               if out =? 0 then decode58_loop psz' b256 else None
           end
  end.

(** [DecodeBase58(const char*, std::vector<unsigned char>&)] on a C string. *)
Definition DecodeBase58 (psz : bytes) : decoded :=
  let psz := skip_while isspace (c_str psz) in
  let rest := skip_while (fun c => c =? 49) psz in
  let zeroes := (length psz - length rest)%nat in
  let b256 := replicate (Z.to_nat (zlen rest * 733 / 1000 + 1)) 0 in
  match decode58_loop rest b256 with
  | None => AssertFailed
  | Some None => Rejected
  | Some (Some (b256, rest)) =>
      match skip_while isspace rest with
      | [] => Decoded (replicate zeroes 0 ++ skip_while (fun c => c =? 0) (rev b256))
      | _ => Rejected
      end
  end.

(** The byte loop of [EncodeBase58]; [None] is a failed [assert]. *)
Fixpoint encode58_loop (p : bytes) (b58 : list Z) : option (list Z) :=
  match p with
  | [] => Some b58
  | c :: p =>
      let (b58, out) := mul_add 58 256 b58 c in
      if out =? 0 then encode58_loop p b58 else None
  end.

Definition EncodeBase58 (v : bytes) : option bytes :=
  let rest := skip_while (fun c => c =? 0) v in
  let zeroes := (length v - length rest)%nat in
  let b58 := replicate (Z.to_nat (zlen rest * 138 / 100 + 1)) 0 in
  match encode58_loop rest b58 with
  | None => None
  | Some b58 =>
      Some (replicate zeroes 49 ++ map (idx pszBase58) (skip_while (fun c => c =? 0) (rev b58)))
  end.

Definition EncodeBase58Check (vchIn : bytes) : option bytes :=
  EncodeBase58 (vchIn ++ take 4 (Hash vchIn)).

Definition DecodeBase58Check (psz : bytes) : decoded :=
  match DecodeBase58 psz with
  | Decoded vchRet =>
      if zlen vchRet <? 4 then Rejected
      else
        let body := take (length vchRet - 4) vchRet in
        let check := drop (length vchRet - 4) vchRet in
        if bool_decide (take 4 (Hash body) = check) then Decoded body else Rejected
  | r => r
  end.

(** ** [CBase58Data] and [CBitcoinAddress] *)

Record CBase58Data := { vchVersion : bytes; vchData : bytes }.

Definition CBase58Data_empty : CBase58Data := {| vchVersion := []; vchData := [] |}.

Definition SetData (vchVersionIn pdata : bytes) : CBase58Data :=
  {| vchVersion := vchVersionIn; vchData := pdata |}.

(** [SetString(psz, nVersionBytes)]: the return value and the object. *)
Definition SetString (psz : bytes) (nVersionBytes : nat) : bool * CBase58Data :=
  match DecodeBase58Check psz with
  | Decoded vchTemp =>
      if (length vchTemp <? nVersionBytes)%nat then (false, CBase58Data_empty)
      else (true, {| vchVersion := take nVersionBytes vchTemp; vchData := drop nVersionBytes vchTemp |})
  | _ => (false, CBase58Data_empty)
  end.

(** [SetString(const std::string&)] of an object just constructed. *)
Definition SetString_str (s : bytes) : bool * CBase58Data :=
  if zlen s =? 0 then (false, CBase58Data_empty) else SetString s 1.

Definition ToString (a : CBase58Data) : option bytes := EncodeBase58Check (vchVersion a ++ vchData a).

(** [operator<] of vectors: lexicographic. *)
Fixpoint lex_lt (a b : bytes) : bool :=
  match a, b with
  | _, [] => false
  | [], _ => true
  | x :: a, y :: b => (x <? y) || ((x =? y) && lex_lt a b)
  end.

Definition CompareTo (a b : CBase58Data) : Z :=
  if lex_lt (vchVersion a) (vchVersion b) then -1
  else if lex_lt (vchVersion b) (vchVersion a) then 1
  else if lex_lt (vchData a) (vchData b) then -1
  else if lex_lt (vchData b) (vchData a) then 1
  else 0.

(** [boost::variant<CNoDestination, CKeyID, CScriptID>]; ids are 20 bytes. *)
Inductive CTxDestination := CNoDestination | CKeyID (id : bytes) | CScriptID (id : bytes).

#[global] Instance CTxDestination_eq_dec : EqDecision CTxDestination.
Proof. solve_decision. Defined.

Section Address.
Context (params : CChainParams).

(** [CBitcoinAddress::Set] on an object just constructed; a
    [CNoDestination] leaves it empty. *)
Definition Address_of (dest : CTxDestination) (addrType : Base58Type) : CBase58Data :=
  match dest with
  | CKeyID id => SetData (Base58Prefix params addrType) id
  | CScriptID id => SetData (Base58Prefix params SCRIPT_ADDRESS) id
  | CNoDestination => CBase58Data_empty
  end.

Definition Address_IsValid (a : CBase58Data) : bool :=
  (zlen (vchData a) =? 20) &&
  (bool_decide (vchVersion a = Base58Prefix params PUBKEY_ADDRESS) ||
   bool_decide (vchVersion a = Base58Prefix params SCRIPT_ADDRESS) ||
   bool_decide (vchVersion a = Base58Prefix params STAKING_ADDRESS)).

Definition Address_Get (a : CBase58Data) : CTxDestination :=
  if negb (Address_IsValid a) then CNoDestination
  else if bool_decide (vchVersion a = Base58Prefix params PUBKEY_ADDRESS) ||
          bool_decide (vchVersion a = Base58Prefix params STAKING_ADDRESS)
  then CKeyID (take 20 (vchData a))
  else if bool_decide (vchVersion a = Base58Prefix params SCRIPT_ADDRESS)
  then CScriptID (take 20 (vchData a))
  else CNoDestination.

Definition Address_GetKeyID (a : CBase58Data) : option bytes :=
  if negb (Address_IsValid a) ||
     (negb (bool_decide (vchVersion a = Base58Prefix params PUBKEY_ADDRESS)) &&
      negb (bool_decide (vchVersion a = Base58Prefix params STAKING_ADDRESS)))
  then None else Some (take 20 (vchData a)).

Definition Address_IsScript (a : CBase58Data) : bool :=
  (zlen (vchData a) =? 20) && bool_decide (vchVersion a = Base58Prefix params SCRIPT_ADDRESS).

Definition Address_IsStakingAddress (a : CBase58Data) : bool :=
  (zlen (vchData a) =? 20) && bool_decide (vchVersion a = Base58Prefix params STAKING_ADDRESS).

Definition DecodeDestination (s : bytes) : CTxDestination := Address_Get (snd (SetString_str s)).

Definition DecodeDestination_staking (s : bytes) : CTxDestination * bool :=
  let a := snd (SetString_str s) in (Address_Get a, Address_IsStakingAddress a).

Definition EncodeDestination (dest : CTxDestination) (addrType : Base58Type) : option bytes :=
  let a := Address_of dest addrType in
  if negb (Address_IsValid a) then Some [] else ToString a.

(** [None] is the exception. *)
Definition DestinationFor (keyID : bytes) (addrType : Base58Type) : option CTxDestination :=
  let a := Address_of (CKeyID keyID) addrType in
  if negb (Address_IsValid a) then None else Some (Address_Get a).

Definition IsValidDestinationString (s : bytes) : bool := Address_IsValid (snd (SetString_str s)).

Definition IsValidDestinationString_staking (s : bytes) (isStaking : bool) : bool :=
  let a := snd (SetString_str s) in
  Address_IsValid a && Bool.eqb (Address_IsStakingAddress a) isStaking.
End Address.

(** ** Digit arithmetic *)

Fixpoint dval (base : Z) (l : list Z) : Z :=
  match l with [] => 0 | d :: l => d + base * dval base l end.

Definition digits (base : Z) : list Z -> Prop := Forall (fun d => 0 <= d < base).

(** Horner's rule, most significant first. *)
Definition horner (base a : Z) (l : list Z) : Z := fold_left (fun a d => a * base + d) l a.

Lemma dval_rev base l : dval base (rev l) = horner base 0 l.
Proof.
  assert (H : forall l a, dval base (rev l) + base ^ zlen l * a = horner base a l).
  { clear l. intros l. induction l as [| d l IH] using rev_ind; intros a.
    - unfold horner. cbn [rev dval fold_left]. zl. lia.
    - rewrite rev_unit. cbn [dval]. unfold horner in *. rewrite fold_left_app. cbn [fold_left].
      rewrite <- IH. zl. rewrite Z.add_0_r, Z.pow_add_r by (try apply zlen_nonneg; lia). lia. }
  rewrite <- H. lia.
Qed.

Lemma horner_acc base l a : horner base a l = a * base ^ zlen l + horner base 0 l.
Proof.
  revert a. induction l as [| d l IH] using rev_ind; intros a; [unfold horner; cbn [fold_left]; zl; lia |].
  unfold horner in *. rewrite !fold_left_app. cbn [fold_left]. rewrite IH. zl.
  rewrite Z.add_0_r, Z.pow_add_r by (try apply zlen_nonneg; lia). lia.
Qed.

Lemma horner_bound base l : 0 < base -> digits base l -> 0 <= horner base 0 l < base ^ zlen l.
Proof.
  intros Hb. induction l as [| d l IH] using rev_ind; [unfold horner; cbn [fold_left]; zl; lia |].
  intros [Hl Hd]%Forall_app. inversion Hd as [| ? ? Hd' _]; subst. specialize (IH Hl).
  unfold horner in *. rewrite fold_left_app. cbn [fold_left]. zl.
  rewrite Z.add_0_r, Z.pow_add_r by (try apply zlen_nonneg; lia). nia.
Qed.

Lemma mul_add_spec base mul v carry v' out :
  0 < base -> 0 <= mul -> 0 <= carry -> digits base v -> mul_add base mul v carry = (v', out) ->
  digits base v' /\ length v' = length v /\ 0 <= out /\
  dval base v' + base ^ zlen v * out = mul * dval base v + carry.
Proof.
  intros Hb Hm. revert carry v' out. induction v as [| d v IH]; intros carry v' out Hc Hd E; cbn in E.
  - simplify_eq. split_and!; [done | done | done | cbn [dval]; zl; lia].
  - inversion Hd as [| ? ? Hd1 Hd2]; subst. destruct (mul_add _ _ _ _) as [v1 o1] eqn:E1. simplify_eq.
    assert (0 <= (carry + mul * d) / base) by (apply Z.div_pos; nia).
    destruct (IH _ _ _ H Hd2 E1) as (H1 & H2 & H3 & H4).
    pose proof (Z.mod_pos_bound (carry + mul * d) base Hb).
    pose proof (Z.div_mod (carry + mul * d) base ltac:(lia)).
    split_and!; [by constructor | cbn; by rewrite H2 | done |].
    rewrite zlen_cons, Z.pow_add_r by (try apply zlen_nonneg; lia). cbn [dval]. nia.
Qed.

Lemma dval_bound base v : 0 < base -> digits base v -> 0 <= dval base v < base ^ zlen v.
Proof.
  intros Hb H. pose proof (horner_bound base (rev v) Hb (Forall_rev H)) as Hh.
  rewrite <- dval_rev, rev_involutive in Hh. unfold zlen in *. by rewrite length_rev in Hh.
Qed.

Lemma mul_add_fits base mul v carry :
  0 < base -> 0 <= mul -> 0 <= carry -> digits base v -> mul * dval base v + carry < base ^ zlen v ->
  exists v', mul_add base mul v carry = (v', 0) /\ digits base v' /\ zlen v' = zlen v /\
    dval base v' = dval base v * mul + carry.
Proof.
  intros Hb Hm Hc Hd Hlt. destruct (mul_add base mul v carry) as [v' out] eqn:E.
  destruct (mul_add_spec _ _ _ _ _ _ Hb Hm Hc Hd E) as (H1 & H2 & H3 & H4).
  pose proof (dval_bound base v' Hb H1). assert (zlen v' = zlen v) as Hz by (unfold zlen; lia).
  assert (out = 0) as -> by nia. exists v'. split_and!; [done | done | done | lia].
Qed.

(** Leading zeros aside, a numeral is determined by its value. *)
Definition no_lead (l : list Z) : Prop := match l with [] => True | d :: _ => d <> 0 end.

Lemma horner_pos base l : 0 < base -> digits base l -> l <> [] -> no_lead l -> 0 < horner base 0 l.
Proof.
  intros Hb Hd Hne Hn. destruct Hd as [| d l Hd1 Hd2]; [done |]. cbn in Hn.
  change (horner base 0 (d :: l)) with (horner base (0 * base + d) l).
  rewrite horner_acc. pose proof (horner_bound base l Hb Hd2).
  assert (0 < base ^ zlen l) by (apply Z.pow_pos_nonneg; [lia | apply zlen_nonneg]). nia.
Qed.

Lemma horner_inj base l k : 1 < base -> digits base l -> digits base k -> no_lead l -> no_lead k ->
  horner base 0 l = horner base 0 k -> l = k.
Proof.
  intros Hb. revert k. induction l as [| x l IH] using rev_ind; intros k Hl Hk Hnl Hnk E.
  - destruct k as [| y k]; [done |]. pose proof (horner_pos base (y :: k) ltac:(lia) Hk ltac:(done) Hnk).
    change (horner base 0 []) with 0 in E. lia.
  - destruct k as [| y k _] using rev_ind.
    { assert (l ++ [x] <> []) by (by destruct l).
      pose proof (horner_pos base (l ++ [x]) ltac:(lia) Hl ltac:(done) Hnl). change (horner base 0 []) with 0 in E. lia. }
    apply Forall_app in Hl as [Hl Hx]. apply Forall_app in Hk as [Hk Hy].
    inversion Hx as [| ? ? Hx' _]; inversion Hy as [| ? ? Hy' _]; subst.
    unfold horner in *. rewrite !fold_left_app in E. cbn [fold_left] in E.
    assert (x = y /\ fold_left (fun a d => a * base + d) l 0 = fold_left (fun a d => a * base + d) k 0) as [-> E'].
    { set (A := fold_left _ l 0) in *. set (C := fold_left _ k 0) in *.
      assert (Hxy : x - y = base * (C - A)) by lia. assert (C - A = 0) by nia. lia. }
    f_equal. apply IH; [done | done | | | done].
    + destruct l; [done | exact Hnl].
    + destruct k; [done | exact Hnk].
Qed.

(** ** Both directions *)

Lemma skip_while_spec p l :
  exists n, (n <= length l)%nat /\ skip_while p l = drop n l /\ Forall (fun c => p c = true) (take n l) /\
    match skip_while p l with [] => True | c :: _ => p c = false end.
Proof.
  induction l as [| c l (n & Hn & E & Hf & Hh)].
  - exists 0%nat. done.
  - cbn [skip_while]. destruct (p c) eqn:Ec.
    + exists (S n). cbn. split_and!; [lia | done | by constructor | done].
    + exists 0%nat. split_and!; [lia | done | constructor | done].
Qed.

Lemma skip_zeros_spec l :
  let r := skip_while (fun c => c =? 0) l in
  l = replicate (length l - length r) 0 ++ r /\ no_lead r.
Proof.
  cbv zeta. destruct (skip_while_spec (fun c => c =? 0) l) as (n & Hn & E & Hf & Hh). rewrite E in *.
  split.
  - rewrite length_drop. replace (length l - (length l - n))%nat with n by lia.
    rewrite <- (take_drop n l) at 1. f_equal.
    assert (Hl : length (take n l) = n) by (rewrite length_take; lia). revert Hf Hl. generalize (take n l).
    clear. intros t Hf <-. induction Hf as [| c t Hc _ IH]; [done |]. bprop. subst. cbn. by rewrite <- IH.
  - destruct (drop n l); [done |]. cbn in *. by bprop.
Qed.

Lemma skip_zeros_val base l : horner base 0 (skip_while (fun c => c =? 0) l) = horner base 0 l.
Proof.
  destruct (skip_zeros_spec l) as [E _]. rewrite E at 2. set (r := skip_while _ l). clearbody r. clear E.
  generalize (length l - length r)%nat. intros n. induction n as [| n IH]; [done |]. exact IH.
Qed.

Lemma skip_zeros_digits base l : digits base l -> digits base (skip_while (fun c => c =? 0) l).
Proof.
  intros H. destruct (skip_while_spec (fun c => c =? 0) l) as (n & _ & -> & _). by apply Forall_drop.
Qed.

Lemma encode58_loop_spec p b58 :
  is_bytes p -> digits 58 b58 -> horner 256 (dval 58 b58) p < 58 ^ zlen b58 ->
  exists b58', encode58_loop p b58 = Some b58' /\ digits 58 b58' /\ dval 58 b58' = horner 256 (dval 58 b58) p.
Proof.
  intros Hp. revert b58. induction Hp as [| c p Hc Hp IH]; intros b58 Hd Hlt; [by exists b58 |].
  cbn [encode58_loop]. change (horner 256 (dval 58 b58) (c :: p)) with (horner 256 (dval 58 b58 * 256 + c) p) in *.
  pose proof (dval_bound 58 b58 ltac:(lia) Hd) as Hb. unfold is_byte in Hc.
  assert (Hstep : 256 * dval 58 b58 + c < 58 ^ zlen b58).
  { rewrite horner_acc in Hlt. pose proof (horner_bound 256 p ltac:(lia) Hp).
    assert (1 <= 256 ^ zlen p) by (apply (Z.pow_le_mono_r 256 0); [lia | apply zlen_nonneg]). nia. }
  destruct (mul_add_fits 58 256 b58 c ltac:(lia) ltac:(lia) ltac:(lia) Hd Hstep) as (v & -> & Hv & Hz & Hval).
  cbn [Z.eqb]. rewrite <- Hval in Hlt. rewrite <- Hz in Hlt.
  destruct (IH v Hv Hlt) as (b' & E & Hb' & Hval'). exists b'. split_and!; [done | done | by rewrite Hval', Hval].
Qed.

(** The digit of each character. *)
Definition char_ok (d : Z) : bool :=
  match strchr_pos pszBase58 (idx pszBase58 d) 0 with
  | Some e => (e =? d) && negb (isspace (idx pszBase58 d)) && negb (idx pszBase58 d =? 0) &&
              ((d =? 0) || negb (idx pszBase58 d =? 49))
  | None => false
  end.

Lemma char58 d : 0 <= d < 58 ->
  strchr_pos pszBase58 (idx pszBase58 d) 0 = Some d /\ isspace (idx pszBase58 d) = false /\
  idx pszBase58 d <> 0 /\ (d <> 0 -> idx pszBase58 d <> 49).
Proof.
  intros Hd. pose proof (all_below_spec char_ok 58 0 eq_refl d ltac:(lia)) as H. unfold char_ok in H.
  destruct (strchr_pos _ _ _) as [e |]; [| done]. bprop. subst. split_and!; [done | done | done |].
  intros Hne. destruct H0 as [H0 | H0]; bprop; [lia | done].
Qed.

Lemma decode58_loop_spec ds b256 :
  digits 58 ds -> digits 256 b256 -> horner 58 (dval 256 b256) ds < 256 ^ zlen b256 ->
  exists b', decode58_loop (map (idx pszBase58) ds) b256 = Some (Some (b', [])) /\ digits 256 b' /\
    dval 256 b' = horner 58 (dval 256 b256) ds.
Proof.
  intros Hp. revert b256. induction Hp as [| c p Hc Hp IH]; intros b256 Hd Hlt; [by exists b256 |].
  cbn [decode58_loop map]. destruct (char58 c Hc) as (-> & -> & _ & _).
  change (horner 58 (dval 256 b256) (c :: p)) with (horner 58 (dval 256 b256 * 58 + c) p) in *.
  pose proof (dval_bound 256 b256 ltac:(lia) Hd) as Hb.
  assert (Hstep : 58 * dval 256 b256 + c < 256 ^ zlen b256).
  { rewrite horner_acc in Hlt. pose proof (horner_bound 58 p ltac:(lia) Hp).
    assert (1 <= 58 ^ zlen p) by (apply (Z.pow_le_mono_r 58 0); [lia | apply zlen_nonneg]). nia. }
  destruct (mul_add_fits 256 58 b256 c ltac:(lia) ltac:(lia) ltac:(lia) Hd Hstep) as (v & -> & Hv & Hz & Hval).
  cbn [Z.eqb]. rewrite <- Hval in Hlt. rewrite <- Hz in Hlt.
  destruct (IH v Hv Hlt) as (b' & E & Hb' & Hval'). exists b'. split_and!; [done | done | by rewrite Hval', Hval].
Qed.

(** The space reserved is enough: [p / q] is an upper bound of
    [log a / log b]. *)
Lemma reserved_space a b p q n : 1 < b -> 0 < q -> 0 <= p -> 0 < a -> 0 <= n ->
  a ^ q <= b ^ p -> a ^ n <= b ^ (n * p / q + 1).
Proof.
  intros Hb Hq Hp Ha Hn H. set (k := n * p / q + 1).
  assert (Hk : n * p <= q * k) by (pose proof (Z.mul_succ_div_gt (n * p) q ltac:(lia)); lia).
  assert (Hk0 : 0 <= k) by (unfold k; pose proof (Z.div_pos (n * p) q ltac:(nia) ltac:(lia)); lia).
  destruct (Z.le_gt_cases (a ^ n) (b ^ k)) as [| Hgt]; [done | exfalso].
  assert (0 < b ^ k) by (apply Z.pow_pos_nonneg; lia).
  assert (H1 : (b ^ k) ^ q < (a ^ n) ^ q) by (apply Z.pow_lt_mono_l; lia).
  rewrite <- !Z.pow_mul_r in H1 by lia.
  assert (H2 : a ^ (n * q) <= b ^ (n * p)).
  { rewrite (Z.mul_comm n q), (Z.mul_comm n p), !Z.pow_mul_r by lia.
    apply Z.pow_le_mono_l. split; [apply Z.pow_nonneg; lia | done]. }
  assert (H3 : b ^ (n * p) <= b ^ (k * q)) by (apply Z.pow_le_mono_r; lia). lia.
Qed.

Lemma dval_zeros base n : dval base (replicate n 0) = 0.
Proof. induction n as [| n IH]; [done |]. cbn [replicate dval]. rewrite IH. lia. Qed.

Lemma digits_zeros base n : 0 < base -> digits base (replicate n 0).
Proof. intros. apply Forall_replicate. lia. Qed.

Lemma zlen_replicate (n : Z) (x : Z) : 0 <= n -> zlen (replicate (Z.to_nat n) x) = n.
Proof. intros. unfold zlen. rewrite length_replicate. lia. Qed.

Lemma room58 n : 0 <= n -> 256 ^ n <= 58 ^ (n * 138 / 100 + 1).
Proof. intros. apply reserved_space; lia. Qed.

Lemma room256 n : 0 <= n -> 58 ^ n <= 256 ^ (n * 733 / 1000 + 1).
Proof. intros. apply reserved_space; lia. Qed.

(** [EncodeBase58] never trips its [assert], and describes its result. *)
Lemma EncodeBase58_spec v : is_bytes v ->
  let rest := skip_while (fun c => c =? 0) v in
  exists ds, EncodeBase58 v = Some (replicate (length v - length rest) 49 ++ map (idx pszBase58) ds) /\
    digits 58 ds /\ no_lead ds /\ horner 58 0 ds = horner 256 0 rest.
Proof.
  intros Hv rest. unfold EncodeBase58. fold rest.
  assert (Hr : is_bytes rest) by (by apply (skip_zeros_digits 256)).
  pose proof (zlen_nonneg rest) as Hz.
  assert (Hd0 : 0 <= zlen rest * 138 / 100) by (apply Z.div_pos; lia).
  set (b0 := replicate _ 0).
  destruct (encode58_loop_spec rest b0) as (b' & E & Hb' & Hval).
  - done.
  - by apply digits_zeros.
  - unfold b0. rewrite dval_zeros, zlen_replicate by lia.
    pose proof (horner_bound 256 rest ltac:(lia) Hr).
    pose proof (room58 (zlen rest) Hz). lia.
  - rewrite E. eexists. split; [reflexivity |]. split_and!.
    + by apply skip_zeros_digits, Forall_rev.
    + apply (skip_zeros_spec (rev b')).
    + rewrite skip_zeros_val, <- dval_rev, rev_involutive, Hval. unfold b0. by rewrite dval_zeros.
Qed.

Lemma skip_while_app p l k : Forall (fun c => p c = true) l ->
  match k with [] => True | c :: _ => p c = false end -> skip_while p (l ++ k) = k.
Proof.
  induction 1 as [| c l Hc _ IH]; intros Hk; cbn; [| by rewrite Hc, IH].
  destruct k; [done |]. cbn. by rewrite Hk.
Qed.

Lemma DecodeBase58_digits z ds : digits 58 ds -> no_lead ds ->
  exists r, DecodeBase58 (replicate z 49 ++ map (idx pszBase58) ds) = Decoded (replicate z 0 ++ r) /\
    is_bytes r /\ no_lead r /\ horner 256 0 r = horner 58 0 ds.
Proof.
  intros Hd Hn. set (t := map (idx pszBase58) ds).
  assert (Ht : Forall (fun c => isspace c = false /\ c <> 0) t).
  { unfold t. apply List.Forall_map. eapply Forall_impl; [exact Hd |]. intros d Hr.
    by destruct (char58 d Hr) as (_ & ? & ? & _). }
  assert (H1 : match t with [] => True | c :: _ => (c =? 49) = false end).
  { unfold t. destruct Hd as [| d ds' Hd1 _]; [done |]. cbn in *. apply Z.eqb_neq. by apply char58. }
  unfold DecodeBase58.
  rewrite c_str_no_nul.
  2:{ apply Forall_app. split; [by apply Forall_replicate | eapply Forall_impl; [exact Ht | naive_solver]]. }
  assert (Hs : skip_while isspace (replicate z 49 ++ t) = replicate z 49 ++ t).
  { destruct z; [| done]. cbn. destruct Ht as [| c t' [Hc _] _]; [done |]. cbn. by rewrite Hc. }
  rewrite Hs. rewrite (skip_while_app (fun c => c =? 49) (replicate z 49) t) by (done || by apply Forall_replicate).
  rewrite length_app, length_replicate, Nat.add_sub.
  pose proof (zlen_nonneg t) as Hz. assert (Hd0 : 0 <= zlen t * 733 / 1000) by (apply Z.div_pos; lia).
  set (b0 := replicate _ 0).
  destruct (decode58_loop_spec ds b0) as (b' & E & Hb' & Hval).
  - done.
  - by apply digits_zeros.
  - unfold b0. rewrite dval_zeros, zlen_replicate by lia.
    pose proof (horner_bound 58 ds ltac:(lia) Hd).
    assert (zlen t = zlen ds) as -> by (unfold t, zlen; by rewrite length_map).
    pose proof (room256 (zlen ds) (zlen_nonneg ds)). lia.
  - fold t in E. rewrite E. cbn [skip_while]. eexists. split; [reflexivity |]. split_and!.
    + by apply (skip_zeros_digits 256), Forall_rev.
    + apply (skip_zeros_spec (rev b')).
    + rewrite skip_zeros_val, <- dval_rev, rev_involutive, Hval. unfold b0. by rewrite dval_zeros.
Qed.

Lemma DecodeBase58_EncodeBase58 v : is_bytes v ->
  exists t, EncodeBase58 v = Some t /\ DecodeBase58 t = Decoded v.
Proof.
  intros Hv. destruct (EncodeBase58_spec v Hv) as (ds & E & Hd & Hn & Hval).
  eexists. split; [exact E |]. destruct (DecodeBase58_digits (length v - length (skip_while (fun c => c =? 0) v)) ds Hd Hn)
    as (r & E' & Hr & Hnr & Hval').
  rewrite E'. f_equal. destruct (skip_zeros_spec v) as [Ev Hnv]. rewrite Ev at 3. f_equal.
  apply (horner_inj 256); [lia | done | by apply (skip_zeros_digits 256) | done | done | by rewrite Hval', Hval].
Qed.

(** ** The checksummed form and addresses *)

Lemma be_bytes_is_bytes n z : is_bytes (be_bytes n z).
Proof. apply Forall_rev, le_bytes_is_bytes. Qed.

Lemma Hash_bytes v : is_bytes (Hash v) /\ length (Hash v) = 32%nat.
Proof.
  unfold Hash. rewrite Hash_ranges_ref. split; [| apply sha256_ref_length].
  unfold sha256_ref at 1. apply Forall_flat_map. apply Forall_forall. intros. apply be_bytes_is_bytes.
Qed.

Lemma EncodeBase58Check_unfold v : EncodeBase58Check v = EncodeBase58 (v ++ take 4 (Hash v)).
Proof. reflexivity. Qed.

(** The checksum test, for any hash function of at least four bytes. *)
Lemma checksum_matches (h : bytes -> bytes) v : length (h v) = 32%nat ->
  (if zlen (v ++ take 4 (h v)) <? 4 then Rejected
   else
     let body := take (length (v ++ take 4 (h v)) - 4) (v ++ take 4 (h v)) in
     let check := drop (length (v ++ take 4 (h v)) - 4) (v ++ take 4 (h v)) in
     if bool_decide (take 4 (h body) = check) then Decoded body else Rejected) = Decoded v.
Proof.
  intros Hl. cbv zeta. zl.
  assert (H4 : length (take 4 (h v)) = 4%nat) by (rewrite length_take; lia).
  destruct (Z.ltb_spec (zlen v + zlen (take 4 (h v))) 4) as [Hlt | _].
  { pose proof (zlen_nonneg v). unfold zlen in Hlt. rewrite H4 in Hlt. unfold zlen in *. lia. }
  rewrite length_app, H4, Nat.add_sub, take_app_length, drop_app_length.
  cbv zeta. by rewrite bool_decide_true by done.
Qed.

Lemma DecodeBase58Check_body v t :
  DecodeBase58 t = Decoded (v ++ take 4 (Hash v)) -> length (Hash v) = 32%nat ->
  DecodeBase58Check t = Decoded v.
Proof. intros D Hl. unfold DecodeBase58Check. rewrite D. apply (checksum_matches Hash v Hl). Qed.

Lemma check_roundtrip v : is_bytes v ->
  exists t, EncodeBase58Check v = Some t /\ DecodeBase58Check t = Decoded v.
Proof.
  intros Hv. destruct (Hash_bytes v) as [Hh Hl].
  assert (Hb : is_bytes (v ++ take 4 (Hash v))) by (apply Forall_app; split; [done | by apply Forall_take]).
  destruct (DecodeBase58_EncodeBase58 _ Hb) as (t & E & D). exists t. split.
  - by rewrite EncodeBase58Check_unfold.
  - by apply DecodeBase58Check_body.
Qed.

(** [EncodeBase58Check] never fails its [assert] (the space it reserves is
    enough for every input) and [DecodeBase58Check] of the text gives back the
    bytes. *)
Theorem DecodeBase58Check_EncodeBase58Check (v : bytes) :
  is_bytes v -> exists t, EncodeBase58Check v = Some t /\ DecodeBase58Check t = Decoded v.
Proof. apply check_roundtrip. Qed.

Lemma DecodeBase58Check_EncodeBase58Check_witness :
  is_bytes [0; 0; 55; 1; 2] /\
  exists t, EncodeBase58Check [0; 0; 55; 1; 2] = Some t /\ DecodeBase58Check t = Decoded [0; 0; 55; 1; 2].
Proof.
  assert (H : is_bytes [0; 0; 55; 1; 2]) by (repeat constructor; lia).
  split; [exact H | exact (DecodeBase58Check_EncodeBase58Check _ H)].
Defined.

Definition dest_ok (d : CTxDestination) : Prop :=
  match d with
  | CNoDestination => False
  | CKeyID id | CScriptID id => is_bytes id /\ length id = 20%nat
  end.

(** The object read back from the text of an address. *)
Lemma SetString_ToString a v : is_byte v -> is_bytes (vchData a) -> vchVersion a = [v] ->
  exists t, ToString a = Some t /\ SetString_str t = (true, a).
Proof.
  intros Hv Hd Ev. unfold ToString. rewrite Ev.
  destruct (check_roundtrip ([v] ++ vchData a)) as (t & E & D).
  { by constructor. }
  exists t. split; [done |]. unfold SetString_str, SetString. rewrite D.
  destruct (Z.eqb_spec (zlen t) 0) as [E0 |].
  { destruct t as [| c t]; [| rewrite zlen_cons in E0; pose proof (zlen_nonneg t); lia]. by vm_compute in D. }
  cbn [app length]. destruct (Nat.ltb_spec (S (length (vchData a))) 1); [lia |].
  cbn. rewrite take_0. destruct a; cbn in *; by subst.
Qed.

Definition is_staking (d : CTxDestination) (t : Base58Type) : bool :=
  match d, t with CKeyID _, STAKING_ADDRESS => true | _, _ => false end.

(** on each of the three networks the text of a destination decodes to that
    destination, and is reported as a staking address exactly when it was made
    as one from a key. *)
Theorem DecodeDestination_EncodeDestination (p : CChainParams) (d : CTxDestination) (t0 : Base58Type) :
  p = mainParams \/ p = testNetParams \/ p = regTestParams ->
  dest_ok d -> t0 = PUBKEY_ADDRESS \/ t0 = STAKING_ADDRESS ->
  exists t, EncodeDestination p d t0 = Some t /\
    DecodeDestination_staking p t = (d, is_staking d t0).
Proof.
  intros Hp Hd Ht.
  assert (Hid : exists id v, is_byte v /\ is_bytes id /\ length id = 20%nat /\
            Address_of p d t0 = {| vchVersion := [v]; vchData := id |} /\
            Address_IsValid p {| vchVersion := [v]; vchData := id |} = true /\
            Address_Get p {| vchVersion := [v]; vchData := id |} = d /\
            Address_IsStakingAddress p {| vchVersion := [v]; vchData := id |} = is_staking d t0).
  { assert (Hz : forall id : bytes, length id = 20%nat -> zlen id = 20) by (unfold zlen; lia).
    destruct d as [| id | id]; [done | |]; destruct Hd as [Hb Hl];
      destruct Hp as [-> | [-> | ->]], Ht as [-> | ->]; cbn -[Address_IsValid Address_Get Address_IsStakingAddress];
      exists id; eexists; (split; [shelve |]); (split; [exact Hb |]); (split; [exact Hl |]); (split; [reflexivity |]);
      unfold Address_Get, Address_IsValid, Address_IsStakingAddress; cbn [vchData vchVersion]; rewrite (Hz id Hl);
      rewrite take_ge by lia; by vm_compute. Unshelve. all: unfold is_byte; lia. }
  destruct Hid as (id & v & Hv & Hb & Hl & Ea & Hval & Hget & Hst).
  destruct (SetString_ToString {| vchVersion := [v]; vchData := id |} v Hv Hb eq_refl) as (t & E & S).
  exists t. unfold EncodeDestination, DecodeDestination_staking. rewrite Ea, Hval, S. cbn [negb snd].
  by rewrite Hget, Hst.
Qed.

Lemma DecodeDestination_EncodeDestination_witness :
  exists t, EncodeDestination mainParams (CKeyID (replicate 20 7)) STAKING_ADDRESS = Some t /\
    DecodeDestination_staking mainParams t = (CKeyID (replicate 20 7), true).
Proof.
  refine (DecodeDestination_EncodeDestination mainParams (CKeyID (replicate 20 7)) STAKING_ADDRESS _ _ _).
  - by left.
  - split; [apply Forall_replicate; unfold is_byte; lia | done].
  - by right.
Defined.
