(* ===== verification/Standard.v ===== *)
(** [script/standard.cpp] and the byte-level part of [pubkey.h]: recognising the
    standard output scripts, the destinations they pay to, and building them. *)

From Stdlib Require Import ZArith Lia.
From stdpp Require Import base tactics list numbers strings.
From S2P Require Import Prelude Script Hash ChainParams Base58.

(** ** [CPubKey]

    The object holds the bytes of the key; [vch[0] = 0xFF] marks an invalid
    one. *)

Definition PUBLIC_KEY_SIZE : Z := 65.
Definition COMPRESSED_PUBLIC_KEY_SIZE : Z := 33.

Definition GetLen (chHeader : Z) : Z :=
  if (chHeader =? 2) || (chHeader =? 3) then COMPRESSED_PUBLIC_KEY_SIZE
  else if (chHeader =? 4) || (chHeader =? 6) || (chHeader =? 7) then PUBLIC_KEY_SIZE
  else 0.

Definition CPubKey (v : bytes) : bytes :=
  let len := if zlen v =? 0 then 0 else GetLen (idx v 0) in
  if negb (len =? 0) && (len =? zlen v) then v else [255].

Definition PubKey_size (key : bytes) : Z := GetLen (idx key 0).
Definition PubKey_IsValid (key : bytes) : bool := 0 <? PubKey_size key.
Definition PubKey_IsCompressed (key : bytes) : bool := PubKey_size key =? 33.
Definition PubKey_GetID (key : bytes) : CTxDestination :=
  CKeyID (Hash160 (take (Z.to_nat (PubKey_size key)) key)).

(** ** [Solver] *)

Inductive txnouttype :=
| TX_NONSTANDARD | TX_PUBKEY | TX_PUBKEYHASH | TX_SCRIPTHASH | TX_MULTISIG | TX_NULL_DATA
| TX_ZEROCOINMINT | TX_COLDSTAKE.

#[global] Instance txnouttype_eq_dec : EqDecision txnouttype.
Proof. solve_decision. Defined.

Definition GetTxnOutputType (t : txnouttype) : bytes :=
  match t with
  | TX_NONSTANDARD => str "nonstandard"
  | TX_PUBKEY => str "pubkey"
  | TX_PUBKEYHASH => str "pubkeyhash"
  | TX_SCRIPTHASH => str "scripthash"
  | TX_MULTISIG => str "multisig"
  | TX_COLDSTAKE => str "coldstake"
  | TX_NULL_DATA => str "nulldata"
  | TX_ZEROCOINMINT => str "zerocoinmint"
  end.

(** [mTemplates], in the order a [multimap] keyed by [txnouttype] visits it. *)
Definition mTemplates : list (txnouttype * bytes) :=
  [(TX_PUBKEY, [OP_PUBKEY; OP_CHECKSIG]);
   (TX_PUBKEYHASH, [OP_DUP; OP_HASH160; OP_PUBKEYHASH; OP_EQUALVERIFY; OP_CHECKSIG]);
   (TX_MULTISIG, [OP_SMALLINTEGER; OP_PUBKEYS; OP_SMALLINTEGER; OP_CHECKMULTISIG]);
   (TX_COLDSTAKE, [OP_DUP; OP_HASH160; OP_ROT; OP_IF; OP_CHECKCOLDSTAKEVERIFY; OP_PUBKEYHASH; OP_ELSE;
                   OP_PUBKEYHASH; OP_ENDIF; OP_EQUALVERIFY; OP_CHECKSIG])].

(** The [while] under [OP_PUBKEYS]: collect key-sized pushes of [script1]. *)
Fixpoint take_pubkeys (fuel : nat) (g1 : getop) (sols : list bytes) : getop * list bytes :=
  match fuel with
  | O => (g1, sols)
  | S fuel =>
      let vch1 := go_data g1 in
      if (33 <=? zlen vch1) && (zlen vch1 <=? 65) then
        let sols := sols ++ [vch1] in
        let g1 := GetOp2 (go_pc g1) in
        if go_ok g1 then take_pubkeys fuel g1 sols else (g1, sols)
      else (g1, sols)
  end.

(** The comparison of the two scripts: [Some] of the solutions when both end
    together, [None] when the loop breaks. *)
Fixpoint match_template (fuel : nat) (pc1 pc2 : bytes) (sols : list bytes) : option (list bytes) :=
  match fuel with
  | O => None
  | S fuel =>
      if (zlen pc1 =? 0) && (zlen pc2 =? 0) then Some sols
      else
        let g1 := GetOp2 pc1 in
        if negb (go_ok g1) then None
        else
        let g2 := GetOp2 pc2 in
        if negb (go_ok g2) then None
        else
        let pubkeys := go_opcode g2 =? OP_PUBKEYS in
        let '(g1, sols) := if pubkeys then take_pubkeys (length pc1) g1 sols else (g1, sols) in
        let g2 := if pubkeys then GetOp2 (go_pc g2) else g2 in
        if negb (go_ok g2) then None
        else
        let opcode1 := go_opcode g1 in
        let vch1 := go_data g1 in
        let opcode2 := go_opcode g2 in
        if opcode2 =? OP_PUBKEY then
          if (zlen vch1 <? 33) || (65 <? zlen vch1) then None
          else match_template fuel (go_pc g1) (go_pc g2) (sols ++ [vch1])
        else if opcode2 =? OP_PUBKEYHASH then
          if negb (zlen vch1 =? 20) then None
          else match_template fuel (go_pc g1) (go_pc g2) (sols ++ [vch1])
        else if opcode2 =? OP_SMALLINTEGER then
          if (opcode1 =? OP_0) || ((OP_1 <=? opcode1) && (opcode1 <=? OP_16))
          then match_template fuel (go_pc g1) (go_pc g2) (sols ++ [[default 0 (DecodeOP_N opcode1)]])
          else None
        else if negb (opcode1 =? opcode2) || negb (bool_decide (vch1 = go_data g2)) then None
        else match_template fuel (go_pc g1) (go_pc g2) sols
  end.

(** [Solver]: its result, [typeRet] and [vSolutionsRet] (empty on entry). *)
Definition solution : Type := bool * txnouttype * list bytes.

Definition front0 (sols : list bytes) : Z := idx (List.hd [] sols) 0.
Definition back0 (sols : list bytes) : Z := idx (List.last sols []) 0.

(** [for (tplate : mTemplates)] *)
Fixpoint scan_templates (ts : list (txnouttype * bytes)) (script : bytes) : solution :=
  match ts with
  | [] => (false, TX_NONSTANDARD, [])
  | (t, script2) :: ts =>
      match match_template (S (length script2)) script script2 [] with
      | Some sols =>
          if bool_decide (t = TX_MULTISIG) then
            let m := front0 sols in
            let n := back0 sols in
            if (m <? 1) || (n <? 1) || (n <? m) || negb (zlen sols - 2 =? n) then (false, t, sols)
            else (true, t, sols)
          else (true, t, sols)
      | None => scan_templates ts script
      end
  end.

Definition Solver (scriptPubKey : bytes) : solution :=
  if IsPayToScriptHash scriptPubKey then (true, TX_SCRIPTHASH, [take 20 (drop 2 scriptPubKey)])
  else if IsZerocoinMint scriptPubKey then
    if 150 <? zlen scriptPubKey then (false, TX_ZEROCOINMINT, [])
    else (true, TX_ZEROCOINMINT, [drop 2 scriptPubKey])
  else if (1 <=? zlen scriptPubKey) && (idx scriptPubKey 0 =? OP_RETURN) && IsPushOnly (drop 1 scriptPubKey)
  then (true, TX_NULL_DATA, [])
  else scan_templates mTemplates scriptPubKey.

Definition ScriptSigArgsExpected (t : txnouttype) (vSolutions : list bytes) : Z :=
  match t with
  | TX_NONSTANDARD | TX_NULL_DATA | TX_ZEROCOINMINT => -1
  | TX_PUBKEY => 1
  | TX_PUBKEYHASH => 2
  | TX_COLDSTAKE => 3
  | TX_MULTISIG =>
      if (zlen vSolutions <? 1) || (zlen (List.hd [] vSolutions) <? 1) then -1
      else front0 vSolutions + 1
  | TX_SCRIPTHASH => 1
  end.

(** [IsStandard]; [-datacarrier] and [nMaxDatacarrierBytes] are node settings. *)
Definition IsStandard (datacarrier : bool) (nMaxDatacarrierBytes : Z) (scriptPubKey : bytes) : bool * txnouttype :=
  let '(ok, whichType, vSolutions) := Solver scriptPubKey in
  if negb ok then (false, whichType)
  else if bool_decide (whichType = TX_MULTISIG) then
    let m := front0 vSolutions in
    let n := back0 vSolutions in
    if (n <? 1) || (3 <? n) then (false, whichType)
    else if (m <? 1) || (n <? m) then (false, whichType)
    else (true, whichType)
  else if bool_decide (whichType = TX_NULL_DATA) &&
          (negb datacarrier || (nMaxDatacarrierBytes <? zlen scriptPubKey)) then (false, whichType)
  else (negb (bool_decide (whichType = TX_NONSTANDARD)), whichType).

(** ** Destinations *)

Definition nth_sol (sols : list bytes) (i : nat) : bytes := nth i sols [].

(** [ExtractDestination]: the return value and [addressRet], which starts as
    the given destination (a [CNoDestination] in most callers). *)
Definition ExtractDestination (scriptPubKey : bytes) (fColdStake : bool) : option CTxDestination :=
  let '(ok, whichType, vSolutions) := Solver scriptPubKey in
  if negb ok then None
  else match whichType with
       | TX_PUBKEY =>
           let pubKey := CPubKey (nth_sol vSolutions 0) in
           if PubKey_IsValid pubKey then Some (PubKey_GetID pubKey) else None
       | TX_PUBKEYHASH => Some (CKeyID (nth_sol vSolutions 0))
       | TX_SCRIPTHASH => Some (CScriptID (nth_sol vSolutions 0))
       | TX_COLDSTAKE => Some (CKeyID (nth_sol vSolutions (if fColdStake then 0 else 1)))
       | _ => None
       end.

(** The variable [addr] after [CTxDestination addr; ExtractDestination(s, addr);]. *)
Definition destination_of (scriptPubKey : bytes) : CTxDestination :=
  default CNoDestination (ExtractDestination scriptPubKey false).

(** [ExtractDestinations]: [None] is [false]; otherwise type, addresses and
    [nRequiredRet]. *)
Definition ExtractDestinations (scriptPubKey : bytes) : option (txnouttype * list CTxDestination * Z) :=
  let '(ok, typeRet, vSolutions) := Solver scriptPubKey in
  if negb ok then None
  else if bool_decide (typeRet = TX_NULL_DATA) then None
  else if bool_decide (typeRet = TX_MULTISIG) then
    let keys := filter (fun k => PubKey_IsValid k = true)
                  (map CPubKey (take (length vSolutions - 2) (drop 1 vSolutions))) in
    let addressRet := map PubKey_GetID keys in
    if zlen addressRet =? 0 then None else Some (typeRet, addressRet, front0 vSolutions)
  else if bool_decide (typeRet = TX_COLDSTAKE) then
    if zlen vSolutions <? 2 then None
    else Some (typeRet, [CKeyID (nth_sol vSolutions 0); CKeyID (nth_sol vSolutions 1)], 2)
  else match ExtractDestination scriptPubKey false with
       | Some address => Some (typeRet, [address], 1)
       | None => None
       end.

(** ** Building scripts *)

Definition GetScriptForDestination (dest : CTxDestination) : bytes :=
  match dest with
  | CNoDestination => []
  | CKeyID keyID => push_data [OP_DUP; OP_HASH160] keyID ++ [OP_EQUALVERIFY; OP_CHECKSIG]
  | CScriptID scriptID => push_data [OP_HASH160] scriptID ++ [OP_EQUAL]
  end.

Definition GetScriptForRawPubKey (key : bytes) : bytes :=
  push_data [] (take (Z.to_nat (PubKey_size key)) key) ++ [OP_CHECKSIG].

Definition GetScriptForStakeDelegation (stakingKey spendingKey : bytes) : bytes :=
  push_data (push_data [OP_DUP; OP_HASH160; OP_ROT; OP_IF; OP_CHECKCOLDSTAKEVERIFY] stakingKey ++ [OP_ELSE])
    spendingKey ++ [OP_ENDIF; OP_EQUALVERIFY; OP_CHECKSIG].

(** [None] is a failed [assert] of [EncodeOP_N]. *)
Definition GetScriptForMultisig (nRequired : Z) (keys : list bytes) : option bytes :=
  match EncodeOP_N nRequired, EncodeOP_N (zlen keys) with
  | Some m, Some n => Some (fold_left push_data keys [m] ++ [n; OP_CHECKMULTISIG])
  | _, _ => None
  end.

Definition IsValidDestination (dest : CTxDestination) : bool :=
  match dest with CNoDestination => false | _ => true end.

(** ** What is built is recognised *)

(** Name the bytes of a vector of known length. *)
Ltac name_bytes l :=
  repeat (destruct l as [| ? l]; [discriminate |]); destruct l; [| discriminate].

Lemma extract_p2pkh id : length id = 20%nat ->
  Solver (GetScriptForDestination (CKeyID id)) = (true, TX_PUBKEYHASH, [id]).
Proof. intros H. name_bytes id. vm_compute. reflexivity. Qed.

Lemma extract_p2sh id : length id = 20%nat ->
  Solver (GetScriptForDestination (CScriptID id)) = (true, TX_SCRIPTHASH, [id]).
Proof. intros H. name_bytes id. vm_compute. reflexivity. Qed.

Lemma extract_p2cs staking spending : length staking = 20%nat -> length spending = 20%nat ->
  Solver (GetScriptForStakeDelegation staking spending) = (true, TX_COLDSTAKE, [staking; spending]).
Proof. intros H1 H2. name_bytes staking. name_bytes spending. vm_compute. reflexivity. Qed.

Lemma ExtractDestination_GetScript d : dest_ok d ->
  ExtractDestination (GetScriptForDestination d) false = Some d.
Proof.
  unfold ExtractDestination. destruct d as [| id | id]; [done | |]; intros [_ Hl].
  - by rewrite extract_p2pkh.
  - by rewrite extract_p2sh.
Qed.

(** the script built for a destination pays that destination, and the
    script of a cold-staking delegation yields the staking key to a staker and
    the spending key to everyone else. *)
Theorem ExtractDestination_built (d : CTxDestination) (staking spending : bytes) :
  dest_ok d -> length staking = 20%nat -> length spending = 20%nat ->
  ExtractDestination (GetScriptForDestination d) false = Some d
  /\ ExtractDestination (GetScriptForStakeDelegation staking spending) true = Some (CKeyID staking)
  /\ ExtractDestination (GetScriptForStakeDelegation staking spending) false = Some (CKeyID spending)
  /\ IsPayToColdStaking (GetScriptForStakeDelegation staking spending) = true.
Proof.
  intros Hd H1 H2. split; [by apply ExtractDestination_GetScript |].
  unfold ExtractDestination. rewrite extract_p2cs by done. split_and!; [done | done |].
  clear Hd. name_bytes staking. name_bytes spending. reflexivity.
Qed.

Lemma ExtractDestination_built_witness :
  ExtractDestination (GetScriptForDestination (CScriptID (replicate 20 1))) false
  = Some (CScriptID (replicate 20 1)).
Proof.
  refine (proj1 (ExtractDestination_built (CScriptID (replicate 20 1)) (replicate 20 2) (replicate 20 3) _ _ _)).
  - split; [apply Forall_replicate; unfold is_byte; lia | reflexivity].
  - reflexivity.
  - reflexivity.
Defined.

(** *** Multisig *)

Definition key_sized (k : bytes) : Prop := is_bytes k /\ 33 <= zlen k <= 65.

Lemma key_item k : key_sized k -> item_ok (Push k).
Proof. intros [Hb Hl]. split; [done | lia]. Qed.

Lemma take_pubkeys_items ks k fuel o r sols :
  Forall key_sized (k :: ks) -> item_ok (Op o) -> (length ks < fuel)%nat ->
  take_pubkeys fuel (GetOp2 (script_of (map Push (k :: ks)) ++ o :: r)) sols
  = (GetOp_ true r o [], sols ++ k :: ks).
Proof.
  intros Hk Ho. revert k fuel sols Hk. induction ks as [| k' ks IH]; intros k fuel sols Hk Hf;
    (destruct fuel as [| fuel]; [lia |]); inversion Hk as [| ? ? Hk1 Hk2]; subst;
    cbn [take_pubkeys map]; change (script_of (Push k :: ?l)) with (item_bytes (Push k) ++ script_of l);
    rewrite <- app_assoc, GetOp2_item by (by apply key_item); cbn [go_data go_pc item_op snd fst];
    destruct Hk1 as [_ Hk1];
    destruct (Z.leb_spec 33 (zlen k)), (Z.leb_spec (zlen k) 65); try lia; cbn [andb].
  - change (script_of [] ++ o :: r) with (item_bytes (Op o) ++ r). rewrite GetOp2_item by done. cbn [go_ok].
    destruct fuel; [| cbn [take_pubkeys go_data item_op snd]]; done.
  - change (map Push (k' :: ks)) with (Push k' :: map Push ks) in *.
    assert (Hg : go_ok (GetOp2 (script_of (Push k' :: map Push ks) ++ o :: r)) = true).
    { inversion Hk2; subst. change (script_of (Push k' :: map Push ks)) with (item_bytes (Push k') ++ script_of (map Push ks)).
      rewrite <- app_assoc, GetOp2_item by (by apply key_item). done. }
    rewrite Hg. change (Push k' :: map Push ks) with (map Push (k' :: ks)).
    rewrite IH by (done || (cbn in Hf; lia)). by rewrite <- app_assoc.
Qed.

Lemma push_data_app s b : push_data s b = s ++ push_data [] b.
Proof. unfold push_data. repeat case_match; cbn [app]; rewrite <- ?app_assoc; done. Qed.

Lemma fold_push_data keys s : fold_left push_data keys s = s ++ script_of (map Push keys).
Proof.
  revert s. induction keys as [| k keys IH]; intros s; [by rewrite app_nil_r |]. cbn [fold_left map].
  rewrite IH, (push_data_app s k), <- app_assoc. done.
Qed.

Definition op_n (n : Z) : Z := OP_1 + n - 1.

Lemma DecodeOP_N_op_n n : 1 <= n <= 16 -> DecodeOP_N (op_n n) = Some n.
Proof.
  intros Hn. unfold DecodeOP_N, op_n. ops.
  destruct (Z.eqb_spec (81 + n - 1) 0); [lia |].
  destruct (Z.leb_spec 81 (81 + n - 1)), (Z.leb_spec (81 + n - 1) 96); try lia. cbn. f_equal. lia.
Qed.

Lemma small_integer_op n : 1 <= n <= 16 ->
  (op_n n =? OP_0) || ((OP_1 <=? op_n n) && (op_n n <=? OP_16)) = true.
Proof.
  intros Hn. unfold op_n. ops. apply orb_true_iff. right. apply andb_true_iff. split; apply Z.leb_le; lia.
Qed.

Lemma op_n_item j : 1 <= j <= 16 -> item_ok (Op (op_n j)).
Proof. intros. unfold op_n. cbn. ops. lia. Qed.

Lemma mt_small f j r1 r2 sols : 1 <= j <= 16 ->
  match_template (S f) (op_n j :: r1) (OP_SMALLINTEGER :: r2) sols = match_template f r1 r2 (sols ++ [[j]]).
Proof.
  intros Hj. cbn [match_template].
  rewrite (GetOp2_op (op_n j)) by apply op_n_item, Hj. rewrite (GetOp2_op OP_SMALLINTEGER) by done.
  rewrite !zlen_cons. destruct (Z.eqb_spec (1 + zlen r1) 0) as [E | _]; [pose proof (zlen_nonneg r1); lia |].
  cbn [andb go_ok go_pc go_opcode go_data negb].
  change (OP_SMALLINTEGER =? OP_PUBKEYS) with false. change (OP_SMALLINTEGER =? OP_PUBKEY) with false.
  change (OP_SMALLINTEGER =? OP_PUBKEYHASH) with false. change (OP_SMALLINTEGER =? OP_SMALLINTEGER) with true.
  cbn iota. cbn [go_ok negb go_opcode go_pc].
  by rewrite small_integer_op, DecodeOP_N_op_n by done.
Qed.

Lemma script_of_keys_length keys : (length keys <= length (script_of (map Push keys)))%nat.
Proof.
  induction keys as [| x l IH]; [done |]. cbn [map length].
  change (script_of (Push x :: map Push l)) with (item_bytes (Push x) ++ script_of (map Push l)).
  rewrite length_app. pose proof (item_bytes_nonnil (Push x)). destruct (item_bytes (Push x)); [done |]. cbn. lia.
Qed.

Lemma mt_pubkeys f keys j r1 r2 sols : 1 <= j <= 16 -> keys <> [] -> Forall key_sized keys ->
  match_template (S f) (script_of (map Push keys) ++ op_n j :: r1) (OP_PUBKEYS :: OP_SMALLINTEGER :: r2) sols
  = match_template f r1 r2 ((sols ++ keys) ++ [[j]]).
Proof.
  intros Hj Hne Hk. destruct keys as [| k ks]; [done |]. cbn [match_template].
  set (rest := script_of (map Push (k :: ks)) ++ op_n j :: r1).
  assert (Hf : (length ks < length rest)%nat).
  { unfold rest. rewrite length_app. pose proof (script_of_keys_length (k :: ks)) as H. cbn [length] in *. lia. }
  assert (Hg : go_ok (GetOp2 rest) = true).
  { unfold rest. cbn [map]. change (script_of (Push k :: map Push ks)) with (item_bytes (Push k) ++ script_of (map Push ks)).
    rewrite <- app_assoc, GetOp2_item; [done |]. apply key_item. by inversion Hk. }
  rewrite (zlen_cons OP_PUBKEYS). destruct (Z.eqb_spec (1 + zlen (OP_SMALLINTEGER :: r2)) 0) as [E | _];
    [pose proof (zlen_nonneg (OP_SMALLINTEGER :: r2)); lia |]. rewrite andb_false_r, Hg.
  rewrite (GetOp2_op OP_PUBKEYS) by done. cbn [go_ok go_pc go_opcode go_data negb].
  change (OP_PUBKEYS =? OP_PUBKEYS) with true. cbn iota.
  unfold rest at 2. rewrite take_pubkeys_items by (done || by apply op_n_item).
  rewrite (GetOp2_op OP_SMALLINTEGER) by done. cbn [go_ok go_pc go_opcode go_data negb].
  change (OP_SMALLINTEGER =? OP_PUBKEY) with false.
  change (OP_SMALLINTEGER =? OP_PUBKEYHASH) with false. change (OP_SMALLINTEGER =? OP_SMALLINTEGER) with true.
  cbn iota. by rewrite small_integer_op, DecodeOP_N_op_n by done.
Qed.

Lemma match_multisig m n keys :
  1 <= m <= 16 -> 1 <= n <= 16 -> keys <> [] -> Forall key_sized keys ->
  match_template 5 (op_n m :: script_of (map Push keys) ++ [op_n n; OP_CHECKMULTISIG])
    [OP_SMALLINTEGER; OP_PUBKEYS; OP_SMALLINTEGER; OP_CHECKMULTISIG] []
  = Some ([m] :: keys ++ [[n]]).
Proof.
  intros Hm Hn Hne Hk. rewrite mt_small, mt_pubkeys by done. reflexivity.
Qed.

(** the script built for m-of-n multisig is recognised as such, with the
    threshold, the keys in order and the key count as its solutions. *)
Theorem Solver_GetScriptForMultisig (m : Z) (keys : list bytes) :
  1 <= m <= zlen keys -> zlen keys <= 16 -> Forall key_sized keys ->
  exists s, GetScriptForMultisig m keys = Some s /\
    Solver s = (true, TX_MULTISIG, [m] :: keys ++ [[zlen keys]]).
Proof.
  intros Hm Hn Hk. set (n := zlen keys) in *.
  assert (Hne : keys <> []) by (intros ->; unfold n in Hm; change (zlen (@nil bytes)) with 0 in Hm; lia).
  exists (op_n m :: script_of (map Push keys) ++ [op_n n; OP_CHECKMULTISIG]). split.
  { unfold GetScriptForMultisig, EncodeOP_N. fold n.
    destruct (Z.leb_spec 0 m), (Z.leb_spec m 16), (Z.leb_spec 0 n), (Z.leb_spec n 16); try lia. cbn [andb].
    destruct (Z.eqb_spec m 0), (Z.eqb_spec n 0); try lia. by rewrite fold_push_data. }
  set (s := script_of (map Push keys) ++ _).
  assert (H0 : forall o, o <> op_n m -> (idx (op_n m :: s) 0 =? o) = false).
  { intros o Ho. apply Z.eqb_neq. intros E. by apply Ho. }
  unfold Solver, IsPayToScriptHash, IsZerocoinMint, StartsWithOpcode.
  rewrite !(H0 _) by (unfold op_n; ops; lia). rewrite !andb_false_r. cbn [andb].
  unfold scan_templates, mTemplates.
  assert (Hfirst : forall f script2 sols o r, script2 = o :: r -> OP_PUSHDATA4 < o -> o <> OP_PUBKEYS ->
            o <> OP_PUBKEYHASH -> o <> OP_SMALLINTEGER -> o <> op_n m ->
            match_template (S f) (op_n m :: s) script2 sols = None).
  { intros f script2 sols o r -> Ho H1 H2 H3 H4. cbn [match_template].
    rewrite (GetOp2_op (op_n m)) by (unfold op_n; ops; lia). rewrite (GetOp2_op o) by done.
    rewrite !zlen_cons. destruct (Z.eqb_spec (1 + zlen s) 0) as [E | _]; [pose proof (zlen_nonneg s); lia |].
    cbn [andb go_ok go_pc go_opcode go_data negb].
    destruct (Z.eqb_spec o OP_PUBKEYS); [done |]. cbn [go_ok go_pc go_opcode go_data negb].
    destruct (Z.eqb_spec o OP_PUBKEY); [done |]. destruct (Z.eqb_spec o OP_PUBKEYHASH); [done |].
    destruct (Z.eqb_spec o OP_SMALLINTEGER); [done |]. destruct (Z.eqb_spec (op_n m) o); [by subst | done]. }
  rewrite (Hfirst _ _ _ OP_PUBKEY [OP_CHECKSIG]) by (done || unfold op_n; ops; lia).
  rewrite (Hfirst _ _ _ OP_DUP [OP_HASH160; OP_PUBKEYHASH; OP_EQUALVERIFY; OP_CHECKSIG])
    by (done || unfold op_n; ops; lia).
  unfold s. rewrite match_multisig by (done || lia).
  rewrite bool_decide_true by done. unfold front0, back0. cbn [List.hd idx].
  change (List.last ([m] :: keys ++ [[n]]) []) with (List.last (([m] :: keys) ++ [[n]]) []).
  rewrite List.last_last. change (idx [m] 0) with m. change (idx [n] 0) with n. zl. fold n.
  destruct (Z.ltb_spec m 1), (Z.ltb_spec n 1), (Z.ltb_spec n m); try lia. cbn [orb].
  destruct (Z.eqb_spec (1 + (n + (1 + 0)) - 2) n); [done | lia].
Qed.

Lemma Solver_GetScriptForMultisig_witness :
  exists s, GetScriptForMultisig 1 [replicate 33 2; replicate 65 4] = Some s /\
    Solver s = (true, TX_MULTISIG, [1] :: [replicate 33 2; replicate 65 4] ++ [[2]]).
Proof.
  refine (Solver_GetScriptForMultisig 1 [replicate 33 2; replicate 65 4] _ _ _).
  - vm_compute. split; discriminate.
  - vm_compute. discriminate.
  - repeat constructor; try (unfold is_byte; lia); vm_compute; discriminate.
Defined.
