(* ===== verification/Serialize.v ===== *)
(** [serialize.h]: fixed-width integers, compact sizes, variable-length
    integers, byte vectors and vectors of objects.

    Writing appends to the stream, so a serializer is a function to the bytes
    it writes. Reading takes the bytes that are left and returns the object and
    what is left after it, or the exception thrown. *)

From Stdlib Require Import ZArith Lia.
From stdpp Require Import base tactics list numbers strings.
From S2P Require Import Prelude.

(** The [std::ios_base::failure] exceptions. *)
Inductive ser_error := end_of_data | non_canonical | size_too_large | negative_size.

Definition reader (A : Type) : Type := bytes -> res ser_error (A * bytes).

(** [s.read(pch, nSize)] *)
Definition read (nSize : nat) : reader bytes := fun s =>
  if (length s <? nSize)%nat then Err end_of_data else Ok (take nSize s, drop nSize s).

(** ** Fixed-width integers *)

Definition ser_writedata8 (obj : Z) : bytes := le_bytes 1 obj.
Definition ser_writedata16 (obj : Z) : bytes := le_bytes 2 obj.
Definition ser_writedata32 (obj : Z) : bytes := le_bytes 4 obj.
Definition ser_writedata64 (obj : Z) : bytes := le_bytes 8 obj.

Definition read_le (n : nat) : reader Z := fun s =>
  let* (b, s) := read n s in Ok (le_val b, s).

Definition ser_readdata8 : reader Z := read_le 1.
Definition ser_readdata16 : reader Z := read_le 2.
Definition ser_readdata32 : reader Z := read_le 4.
Definition ser_readdata64 : reader Z := read_le 8.

(** ** Compact sizes *)

Definition MAX_SIZE : Z := 0x02000000.

Definition GetSizeOfCompactSize (nSize : Z) : Z :=
  if nSize <? 253 then 1
  else if nSize <=? 65535 then 3
  else if nSize <=? 4294967295 then 5
  else 9.

Definition WriteCompactSize (nSize : Z) : bytes :=
  if nSize <? 253 then ser_writedata8 nSize
  else if nSize <=? 65535 then ser_writedata8 253 ++ ser_writedata16 nSize
  else if nSize <=? 4294967295 then ser_writedata8 254 ++ ser_writedata32 nSize
  else ser_writedata8 255 ++ ser_writedata64 nSize.

Definition canonical (limit : Z) (r : Z * bytes) : res ser_error (Z * bytes) :=
  if fst r <? limit then Err non_canonical else Ok r.

Definition ReadCompactSize : reader Z := fun s =>
  let* (chSize, s) := ser_readdata8 s in
  let* (nSizeRet, s) :=
    if chSize <? 253 then Ok (chSize, s)
    else if chSize =? 253 then let* r := ser_readdata16 s in canonical 253 r
    else if chSize =? 254 then let* r := ser_readdata32 s in canonical 0x10000 r
    else let* r := ser_readdata64 s in canonical 0x100000000 r in
  if MAX_SIZE <? nSizeRet then Err size_too_large else Ok (nSizeRet, s).

(** ** Variable-length integers *)

(** [GetSizeOfVarInt]; ten rounds are enough for 64 bits. *)
Fixpoint GetSizeOfVarInt_loop (fuel : nat) (n nRet : Z) : Z :=
  match fuel with
  | O => nRet
  | S fuel =>
      let nRet := nRet + 1 in
      if n <=? 127 then nRet else GetSizeOfVarInt_loop fuel (Z.shiftr n 7 - 1) nRet
  end.
Definition GetSizeOfVarInt (n : Z) : Z := GetSizeOfVarInt_loop 10 n 0.

(** The array [tmp], index 0 first. *)
Fixpoint varint_tmp (fuel : nat) (n len : Z) : bytes :=
  match fuel with
  | O => []
  | S fuel =>
      let c := Z.lor (Z.land n 127) (if len =? 0 then 0 else 128) in
      if n <=? 127 then [c] else c :: varint_tmp fuel (Z.shiftr n 7 - 1) (len + 1)
  end.

Definition WriteVarInt (n : Z) : bytes := rev (varint_tmp 10 n 0).

(** [ReadVarInt] into a [w]-bit unsigned type; every round reads a byte. *)
Fixpoint ReadVarInt_loop (w : Z) (n : Z) (s : bytes) : res ser_error (Z * bytes) :=
  match s with
  | [] => Err end_of_data
  | chData :: s =>
      let n := Z.lor (Z.shiftl n 7 `mod` 2 ^ w) (Z.land chData 127) in
      if negb (Z.land chData 128 =? 0) then ReadVarInt_loop w ((n + 1) `mod` 2 ^ w) s
      else Ok (n, s)
  end.
Definition ReadVarInt (w : Z) : reader Z := ReadVarInt_loop w 0.

(** ** Vectors *)

(** [std::vector<unsigned char>], [prevector] of bytes, [std::string] *)
Definition Serialize_bytes (v : bytes) : bytes := WriteCompactSize (zlen v) ++ v.

(** The loop reading blocks of at most [1 + 4999999 / sizeof(T)] bytes. *)
Fixpoint read_blocks (fuel : nat) (nSize i : Z) (s : bytes) : res ser_error (bytes * bytes) :=
  match fuel with
  | O => Ok ([], s)
  | S fuel =>
      if i <? nSize then
        let blk := Z.min (nSize - i) 5000000 in
        let* (v, s) := read (Z.to_nat blk) s in
        let* (rest, s) := read_blocks fuel nSize (i + blk) s in
        Ok (v ++ rest, s)
      else Ok ([], s)
  end.

Definition Unserialize_bytes : reader bytes := fun s =>
  let* (nSize, s) := ReadCompactSize s in
  read_blocks (S (Z.to_nat (nSize / 5000000))) nSize 0 s.

(** ** Objects

    What a type promises to the containers that hold it: how it is written and
    read, and that reading undoes writing on the values it admits. *)
Class Serializable (A : Type) := {
  Serialize : A -> bytes;
  Unserialize : reader A;
  ser_valid : A -> Prop
}.

Class SerializableLaws (A : Type) `{Serializable A} :=
  Unserialize_Serialize : forall (a : A) (rest : bytes),
    ser_valid a -> Unserialize (Serialize a ++ rest) = Ok (a, rest).

#[global] Hint Mode Serializable ! : typeclass_instances.

Section Vector.
Context {A : Type} `{SerializableLaws A}.

Definition Serialize_vector (v : list A) : bytes :=
  WriteCompactSize (zlen v) ++ concat (map Serialize v).

(** [for (; i < nMid; i++) Unserialize(is, v[i])] *)
Fixpoint read_elems (n : nat) (s : bytes) : res ser_error (list A * bytes) :=
  match n with
  | O => Ok ([], s)
  | S n =>
      let* (a, s) := Unserialize s in
      let* (l, s) := read_elems n s in
      Ok (a :: l, s)
  end.

(** The outer loop; [batch] is [5000000 / sizeof(T)]. *)
Fixpoint read_batches (fuel : nat) (batch nSize nMid : nat) (s : bytes) : res ser_error (list A * bytes) :=
  match fuel with
  | O => Ok ([], s)
  | S fuel =>
      if (nMid <? nSize)%nat then
        let nMid' := ((nMid + batch) `min` nSize)%nat in
        let* (l, s) := read_elems (nMid' - nMid) s in
        let* (rest, s) := read_batches fuel batch nSize nMid' s in
        Ok (l ++ rest, s)
      else Ok ([], s)
  end.

Definition Unserialize_vector (batch : nat) : reader (list A) := fun s =>
  let* (nSize, s) := ReadCompactSize s in
  read_batches (Z.to_nat nSize) batch (Z.to_nat nSize) 0 s.
End Vector.

(** ** Reading undoes writing *)

Lemma read_app b rest n : length b = n -> read n (b ++ rest) = Ok (b, rest).
Proof.
  intros <-. unfold read. rewrite length_app.
  destruct (Nat.ltb_spec (length b + length rest) (length b)); [lia |].
  by rewrite take_app_length, drop_app_length.
Qed.

Lemma read_le_app n z rest : 0 <= z < 256 ^ Z.of_nat n -> read_le n (le_bytes n z ++ rest) = Ok (z, rest).
Proof.
  intros Hz. unfold read_le. rewrite read_app by apply le_bytes_length. cbn [res_bind].
  by rewrite le_val_le_bytes, Z.mod_small.
Qed.

#[export] Hint Rewrite read_le_app : serialize.

Lemma ReadCompactSize_Write n rest : 0 <= n <= MAX_SIZE ->
  ReadCompactSize (WriteCompactSize n ++ rest) = Ok (n, rest).
Proof.
  unfold MAX_SIZE. intros Hn. unfold ReadCompactSize, WriteCompactSize, ser_readdata8, ser_readdata16, ser_readdata32,
    ser_readdata64, ser_writedata8, ser_writedata16, ser_writedata32, ser_writedata64, canonical.
  destruct (Z.ltb_spec n 253); [| destruct (Z.leb_spec n 65535); [| destruct (Z.leb_spec n 4294967295); [| lia]]];
    rewrite <- ?app_assoc, read_le_app by (cbn; lia); cbn [res_bind].
  - destruct (Z.ltb_spec n 253); [| lia]. cbn [res_bind]. unfold MAX_SIZE. destruct (Z.ltb_spec 0x02000000 n); [lia | done].
  - change (253 <? 253) with false. change (253 =? 253) with true. cbn iota.
    rewrite read_le_app by (cbn; lia). cbn [res_bind fst]. destruct (Z.ltb_spec n 253); [lia |]. cbn [res_bind].
    unfold MAX_SIZE. destruct (Z.ltb_spec 0x02000000 n); [lia | done].
  - change (254 <? 253) with false. change (254 =? 253) with false. change (254 =? 254) with true. cbn iota.
    rewrite read_le_app by (cbn; lia). cbn [res_bind fst]. destruct (Z.ltb_spec n 0x10000); [lia |]. cbn [res_bind].
    unfold MAX_SIZE. destruct (Z.ltb_spec 0x02000000 n); [lia | done].
Qed.

Lemma read_le_inv n s z r : is_bytes s -> read_le n s = Ok (z, r) ->
  s = le_bytes n z ++ r /\ 0 <= z < 256 ^ Z.of_nat n.
Proof.
  intros Hs. unfold read_le, read. destruct (Nat.ltb_spec (length s) n) as [| Hl]; [done |]. cbn [res_bind].
  intros [= <- <-]. assert (Ht : is_bytes (take n s)) by by apply Forall_take.
  assert (El : length (take n s) = n) by (rewrite length_take; lia).
  pose proof (le_val_bound _ Ht) as Hb. unfold zlen in Hb. rewrite El in Hb. split; [| done].
  rewrite <- El at 1. rewrite le_bytes_le_val by done. by rewrite take_drop.
Qed.

(** Only the shortest form of a size is accepted. *)
Lemma ReadCompactSize_canonical s n r : is_bytes s ->
  ReadCompactSize s = Ok (n, r) -> s = WriteCompactSize n ++ r.
Proof.
  intros Hs E. unfold ReadCompactSize, ser_readdata8, ser_readdata16, ser_readdata32, ser_readdata64 in E.
  apply res_bind_Ok in E as ([c s1] & E1 & E). apply (read_le_inv 1) in E1 as [-> Hc]; [| done].
  apply Forall_app in Hs as [_ Hs]. apply res_bind_Ok in E as ([k s2] & E2 & E).
  destruct (_ <? _) in E; [done |]. simplify_eq.
  unfold WriteCompactSize, ser_writedata8, ser_writedata16, ser_writedata32, ser_writedata64.
  destruct (Z.ltb_spec c 253) as [Hc1 | Hc1]; [| destruct (Z.eqb_spec c 253) as [-> |];
    [| destruct (Z.eqb_spec c 254) as [-> |]]].
  - simplify_eq. destruct (Z.ltb_spec n 253); [done | lia].
  - apply res_bind_Ok in E2 as ([x y] & E3 & E2). unfold canonical in E2. cbn [fst] in E2.
    destruct (Z.ltb_spec x 253); [done |]. simplify_eq. apply (read_le_inv 2) in E3 as [-> Hn]; [| done].
    change (256 ^ Z.of_nat 2) with 65536 in Hn.
    destruct (Z.ltb_spec n 253), (Z.leb_spec n 65535); try lia. by rewrite app_assoc.
  - apply res_bind_Ok in E2 as ([x y] & E3 & E2). unfold canonical in E2. cbn [fst] in E2.
    destruct (Z.ltb_spec x 0x10000); [done |]. simplify_eq. apply (read_le_inv 4) in E3 as [-> Hn]; [| done].
    change (256 ^ Z.of_nat 4) with 4294967296 in Hn.
    destruct (Z.ltb_spec n 253), (Z.leb_spec n 65535), (Z.leb_spec n 4294967295); try lia. by rewrite app_assoc.
  - assert (c = 255) as -> by (change (256 ^ Z.of_nat 1) with 256 in Hc; lia).
    apply res_bind_Ok in E2 as ([x y] & E3 & E2). unfold canonical in E2. cbn [fst] in E2.
    destruct (Z.ltb_spec x 0x100000000); [done |]. simplify_eq. apply (read_le_inv 8) in E3 as [-> Hn]; [| done].
    destruct (Z.ltb_spec n 253), (Z.leb_spec n 65535), (Z.leb_spec n 4294967295); try lia. by rewrite app_assoc.
Qed.

(** The recursive form of [WriteVarInt]: [cont] is the continuation bit of the
    last byte. *)
Lemma varint_tmp_cons fuel n len : 127 < n ->
  varint_tmp (S fuel) n len
  = Z.lor (Z.land n 127) (if len =? 0 then 0 else 128) :: varint_tmp fuel (Z.shiftr n 7 - 1) (len + 1).
Proof. intros. cbn [varint_tmp]. destruct (Z.leb_spec n 127); [lia | done]. Qed.

Lemma varint_byte d (b : bool) : 0 <= d < 128 ->
  let c := Z.lor d (if b then 0 else 128) in
  Z.land c 127 = d /\ (Z.land c 128 =? 0) = b.
Proof.
  intros Hd. pose proof (all_below_spec (fun d =>
    (Z.land (Z.lor d 0) 127 =? d) && (Z.land (Z.lor d 128) 127 =? d) &&
    (Z.land (Z.lor d 0) 128 =? 0) && negb (Z.land (Z.lor d 128) 128 =? 0)) 128 0 eq_refl d ltac:(lia)) as H.
  cbv beta in H. destruct b; bprop; split; try done; [by apply Z.eqb_eq | by apply Z.eqb_neq].
Qed.

(** What the reader has accumulated once it has read the digits of [n]. *)
Lemma ReadVarInt_tmp w fuel n len rest :
  7 <= w -> 0 <= n < 2 ^ w -> 0 <= len -> n < 2 ^ (7 * Z.of_nat fuel) -> (0 < fuel)%nat ->
  ReadVarInt_loop w 0 (rev (varint_tmp fuel n len) ++ rest)
  = if len =? 0 then Ok (n, rest) else ReadVarInt_loop w ((n + 1) `mod` 2 ^ w) rest.
Proof.
  intros Hw. revert n len rest. induction fuel as [| fuel IH]; intros n len rest Hn Hlen Hf H0; [lia |].
  assert (H128 : 128 <= 2 ^ w) by (change 128 with (2 ^ 7); apply Z.pow_le_mono_r; lia).
  rewrite (Nat2Z.inj_succ fuel) in Hf. replace (7 * Z.succ (Z.of_nat fuel)) with (7 * Z.of_nat fuel + 7) in Hf by lia.
  rewrite Z.pow_add_r in Hf by lia.
  pose proof (Z.div_mod n 128 ltac:(lia)). pose proof (Z.mod_pos_bound n 128 ltac:(lia)).
  destruct (Z.le_gt_cases n 127) as [Hs | Hs].
  - cbn [varint_tmp]. destruct (Z.leb_spec n 127); [| lia]. cbn [rev app ReadVarInt_loop].
    rewrite (land_ones_mod n 7), Z.mod_small by (done || lia).
    destruct (varint_byte n (len =? 0) ltac:(lia)) as [-> ->].
    rewrite Z.shiftl_0_l, Z.mod_0_l, Z.lor_0_l by lia. by destruct (len =? 0).
  - rewrite varint_tmp_cons by lia. cbn [rev]. rewrite <- app_assoc. cbn [app].
    rewrite Z.shiftr_div_pow2 by lia. change (2 ^ 7) with 128 in *.
    assert (Hf0 : (0 < fuel)%nat) by (destruct fuel; [cbn in Hf; lia | lia]).
    rewrite IH; [| lia | lia | lia | done].
    destruct (Z.eqb_spec (len + 1) 0); [lia |]. cbn [ReadVarInt_loop].
    rewrite (land_ones_mod n 7) by done. change (2 ^ 7) with 128.
    destruct (varint_byte (n `mod` 128) (len =? 0) ltac:(lia)) as [-> ->].
    replace (n / 128 - 1 + 1) with (n / 128) by lia.
    rewrite (Z.mod_small (n / 128)) by lia.
    rewrite Z.shiftl_mul_pow2 by lia. change (2 ^ 7) with 128.
    rewrite (Z.mod_small (n / 128 * 128)) by lia.
    replace (n / 128 * 128) with (Z.shiftl (n / 128) 7) by (rewrite Z.shiftl_mul_pow2 by lia; done).
    rewrite lor_shiftl_add by (change (2 ^ 7) with 128; lia). change (2 ^ 7) with 128.
    replace (n / 128 * 128 + n `mod` 128) with n by lia. by destruct (len =? 0).
Qed.

Lemma ReadVarInt_Write w n rest : 7 <= w <= 64 -> 0 <= n < 2 ^ w -> ReadVarInt w (WriteVarInt n ++ rest) = Ok (n, rest).
Proof.
  intros Hw Hn. unfold ReadVarInt, WriteVarInt. rewrite ReadVarInt_tmp; [done | lia | done | lia | | lia].
  assert (2 ^ w <= 2 ^ (7 * Z.of_nat 10)) by (apply Z.pow_le_mono_r; lia). lia.
Qed.

(** compact sizes and variable-length integers read back as written, the
    reader stopping exactly where the writer did; a compact size is accepted
    only in its shortest form. *)
Theorem sizes_roundtrip (n m w : Z) (rest : bytes) :
  0 <= n <= MAX_SIZE -> 7 <= w <= 64 -> 0 <= m < 2 ^ w ->
  ReadCompactSize (WriteCompactSize n ++ rest) = Ok (n, rest)
  /\ zlen (WriteCompactSize n) = GetSizeOfCompactSize n
  /\ ReadVarInt w (WriteVarInt m ++ rest) = Ok (m, rest)
  /\ (forall s, is_bytes s -> ReadCompactSize s = Ok (n, rest) -> s = WriteCompactSize n ++ rest).
Proof.
  intros Hn Hw Hm. split_and!; [by apply ReadCompactSize_Write | | by apply ReadVarInt_Write |
    intros; by apply ReadCompactSize_canonical].
  unfold WriteCompactSize, GetSizeOfCompactSize. repeat case_match; reflexivity.
Qed.

Lemma sizes_roundtrip_witness :
  ReadCompactSize (WriteCompactSize 70000 ++ [9]) = Ok (70000, [9])
  /\ zlen (WriteCompactSize 70000) = GetSizeOfCompactSize 70000
  /\ ReadVarInt 32 (WriteVarInt 4294967295 ++ [9]) = Ok (4294967295, [9])
  /\ (forall s, is_bytes s -> ReadCompactSize s = Ok (70000, [9]) -> s = WriteCompactSize 70000 ++ [9]).
Proof.
  refine (sizes_roundtrip 70000 4294967295 32 [9] _ _ _); [unfold MAX_SIZE; lia | lia | lia].
Defined.

(** *** Vectors *)

Lemma read_blocks_app fuel nSize i v rest :
  0 <= i -> i + zlen v = nSize -> zlen v <= 5000000 * (Z.of_nat fuel - 1) + 4999999 -> (0 < fuel)%nat ->
  read_blocks fuel nSize i (v ++ rest) = Ok (v, rest).
Proof.
  revert i v. induction fuel as [| fuel IH]; intros i v Hi Hv Hf H0; [lia |]. cbn [read_blocks].
  pose proof (zlen_nonneg v).
  destruct (Z.ltb_spec i nSize) as [Hlt | Hge].
  - set (blk := Z.min (nSize - i) 5000000).
    assert (Hb : 0 < blk <= zlen v) by lia.
    rewrite <- (take_drop (Z.to_nat blk) v) at 1. rewrite <- app_assoc.
    rewrite read_app by (rewrite length_take; unfold zlen in *; lia). cbn [res_bind].
    assert (Hd : zlen (drop (Z.to_nat blk) v) = zlen v - blk) by (unfold zlen in *; rewrite length_drop; lia).
    destruct (decide (fuel = 0%nat)) as [-> | Hne].
    + cbn [read_blocks res_bind]. assert (Hz : drop (Z.to_nat blk) v = []).
      { destruct (drop (Z.to_nat blk) v) as [| x l] eqn:E; [done |]. rewrite zlen_cons in Hd.
        pose proof (zlen_nonneg l). lia. }
      rewrite Hz, app_nil_r. cbn. rewrite <- (take_drop (Z.to_nat blk) v) at 2. by rewrite Hz, app_nil_r.
    + rewrite IH by lia. cbn [res_bind]. by rewrite take_drop.
  - assert (v = []) as -> by (destruct v as [| x v]; [done |]; rewrite zlen_cons in *; pose proof (zlen_nonneg v); lia).
    done.
Qed.

Lemma Unserialize_bytes_app v rest : zlen v <= MAX_SIZE ->
  Unserialize_bytes (Serialize_bytes v ++ rest) = Ok (v, rest).
Proof.
  intros Hv. pose proof (zlen_nonneg v). unfold Unserialize_bytes, Serialize_bytes. rewrite <- app_assoc.
  rewrite ReadCompactSize_Write by done. cbn [res_bind].
  pose proof (Z.div_mod (zlen v) 5000000 ltac:(lia)). pose proof (Z.mod_pos_bound (zlen v) 5000000 ltac:(lia)).
  pose proof (Z.div_pos (zlen v) 5000000 ltac:(lia) ltac:(lia)).
  apply read_blocks_app; [lia | lia | | lia]. rewrite Nat2Z.inj_succ, Z2Nat.id by lia. lia.
Qed.

Section VectorLaws.
Context {A : Type} `{SerializableLaws A}.

Lemma read_elems_app (v : list A) rest : Forall ser_valid v ->
  read_elems (length v) (concat (map Serialize v) ++ rest) = Ok (v, rest).
Proof.
  induction 1 as [| a v Ha _ IH]; [done |]. cbn [length read_elems map concat]. rewrite <- app_assoc.
  rewrite Unserialize_Serialize by done. cbn [res_bind]. by rewrite IH.
Qed.

Lemma read_batches_app fuel batch nSize nMid (v : list A) rest :
  (0 < batch)%nat -> Forall ser_valid v -> (nMid + length v = nSize)%nat -> (length v <= fuel)%nat ->
  read_batches fuel batch nSize nMid (concat (map Serialize v) ++ rest) = Ok (v, rest).
Proof.
  intros Hb. revert nMid v. induction fuel as [| fuel IH]; intros nMid v Hv Hn Hf.
  - destruct v; [done | cbn in Hf; lia].
  - cbn [read_batches]. destruct (Nat.ltb_spec nMid nSize) as [Hlt | Hge].
    + set (k := (((nMid + batch) `min` nSize) - nMid)%nat).
      assert (Hk : (0 < k <= length v)%nat) by lia.
      rewrite <- (take_drop k v) at 1. rewrite map_app, concat_app, <- app_assoc.
      assert (Hl : length (take k v) = k) by (rewrite length_take; lia). rewrite <- Hl at 1.
      rewrite read_elems_app by by apply Forall_take. cbn [res_bind].
      rewrite IH; [cbn [res_bind]; by rewrite take_drop | by apply Forall_drop | |]; rewrite length_drop; lia.
    + destruct v; [done | cbn in Hn; lia].
Qed.

(** A vector of objects reads back whatever the batch size. *)
Lemma Unserialize_vector_app batch (v : list A) rest :
  (0 < batch)%nat -> Forall ser_valid v -> zlen v <= MAX_SIZE ->
  Unserialize_vector batch (Serialize_vector v ++ rest) = Ok (v, rest).
Proof.
  intros Hb Hv Hl. unfold Unserialize_vector, Serialize_vector. rewrite <- app_assoc.
  rewrite ReadCompactSize_Write by (pose proof (zlen_nonneg v); lia). cbn [res_bind].
  unfold zlen. rewrite Nat2Z.id. by apply read_batches_app.
Qed.
End VectorLaws.
