(* ===== verification/NetAddress.v ===== *)
(** Network addresses ([netbase.h], [netbase.cpp], [CAddress] of [protocol.h]): which
    addresses are routable, the group an address belongs to, how reachable one is from
    another, and the stream form of addresses.

    A [CNetAddr] is its array of 16 bytes in network order. *)

From Stdlib Require Import ZArith Lia.
From stdpp Require Import base tactics list numbers option strings.
From S2P Require Import Prelude CString StrEncodings Hash Serialize.

(** ** Addresses *)

Definition CNetAddr : Type := bytes.

Inductive Network := NET_UNROUTABLE | NET_IPV4 | NET_IPV6 | NET_TOR.

#[global] Instance Network_eq_dec : EqDecision Network.
Proof. solve_decision. Defined.

(** The numbers of the enumeration, as [GetGroup] writes them. *)
Definition Network_code (n : Network) : Z :=
  match n with NET_UNROUTABLE => 0 | NET_IPV4 => 1 | NET_IPV6 => 2 | NET_TOR => 3 end.

Definition pchIPv4 : bytes := [0; 0; 0; 0; 0; 0; 0; 0; 0; 0; 0xff; 0xff].
Definition pchOnionCat : bytes := [0xFD; 0x87; 0xD8; 0x7E; 0xEB; 0x43].

(** [memcmp(ip, p, sizeof(p)) == 0] *)
Definition starts_with (p ip : bytes) : bool := bool_decide (take (length p) ip = p).

Definition CNetAddr_Init : CNetAddr := replicate 16 0.

(** [SetRaw]: [None] is the assertion on the network. *)
Definition SetRaw (network : Network) (ip_in : bytes) : option CNetAddr :=
  match network with
  | NET_IPV4 => Some (pchIPv4 ++ take 4 ip_in)
  | NET_IPV6 => Some (take 16 ip_in)
  | _ => None
  end.

Definition SetSpecial (strName : bytes) : option CNetAddr :=
  let n := (length strName - 6)%nat in
  if (6 <? length strName)%nat && bool_decide (drop n strName = str ".onion") then
    let vchAddr := (DecodeBase32 (take n strName)).1 in
    if (length vchAddr =? 10)%nat then Some (pchOnionCat ++ vchAddr) else None
  else None.

Definition GetByte (ip : CNetAddr) (n : Z) : Z := idx ip (15 - n).

Definition IsIPv4 (ip : CNetAddr) : bool := starts_with pchIPv4 ip.
Definition IsTor (ip : CNetAddr) : bool := starts_with pchOnionCat ip.
Definition IsIPv6 (ip : CNetAddr) : bool := negb (IsIPv4 ip) && negb (IsTor ip).

Definition IsRFC1918 (ip : CNetAddr) : bool :=
  IsIPv4 ip && ((GetByte ip 3 =? 10) ||
                ((GetByte ip 3 =? 192) && (GetByte ip 2 =? 168)) ||
                ((GetByte ip 3 =? 172) && ((16 <=? GetByte ip 2) && (GetByte ip 2 <=? 31)))).

Definition IsRFC2544 (ip : CNetAddr) : bool :=
  IsIPv4 ip && (GetByte ip 3 =? 198) && ((GetByte ip 2 =? 18) || (GetByte ip 2 =? 19)).

Definition IsRFC3927 (ip : CNetAddr) : bool := IsIPv4 ip && ((GetByte ip 3 =? 169) && (GetByte ip 2 =? 254)).

Definition IsRFC6598 (ip : CNetAddr) : bool :=
  IsIPv4 ip && (GetByte ip 3 =? 100) && (64 <=? GetByte ip 2) && (GetByte ip 2 <=? 127).

Definition IsRFC5737 (ip : CNetAddr) : bool :=
  IsIPv4 ip && (((GetByte ip 3 =? 192) && (GetByte ip 2 =? 0) && (GetByte ip 1 =? 2)) ||
                ((GetByte ip 3 =? 198) && (GetByte ip 2 =? 51) && (GetByte ip 1 =? 100)) ||
                ((GetByte ip 3 =? 203) && (GetByte ip 2 =? 0) && (GetByte ip 1 =? 113))).

Definition IsRFC3849 (ip : CNetAddr) : bool :=
  (GetByte ip 15 =? 0x20) && (GetByte ip 14 =? 0x01) && (GetByte ip 13 =? 0x0D) && (GetByte ip 12 =? 0xB8).

Definition IsRFC3964 (ip : CNetAddr) : bool := (GetByte ip 15 =? 0x20) && (GetByte ip 14 =? 0x02).

Definition IsRFC6052 (ip : CNetAddr) : bool := starts_with [0; 0x64; 0xFF; 0x9B; 0; 0; 0; 0; 0; 0; 0; 0] ip.

Definition IsRFC4380 (ip : CNetAddr) : bool :=
  (GetByte ip 15 =? 0x20) && (GetByte ip 14 =? 0x01) && (GetByte ip 13 =? 0) && (GetByte ip 12 =? 0).

Definition IsRFC4862 (ip : CNetAddr) : bool := starts_with [0xFE; 0x80; 0; 0; 0; 0; 0; 0] ip.

Definition IsRFC4193 (ip : CNetAddr) : bool := Z.land (GetByte ip 15) 0xFE =? 0xFC.

Definition IsRFC6145 (ip : CNetAddr) : bool := starts_with [0; 0; 0; 0; 0; 0; 0; 0; 0xFF; 0xFF; 0; 0] ip.

Definition IsRFC4843 (ip : CNetAddr) : bool :=
  (GetByte ip 15 =? 0x20) && (GetByte ip 14 =? 0x01) && (GetByte ip 13 =? 0x00) &&
  (Z.land (GetByte ip 12) 0xF0 =? 0x10).

Definition pchLocal : bytes := replicate 15 0 ++ [1].

Definition IsLocal (ip : CNetAddr) : bool :=
  if IsIPv4 ip && ((GetByte ip 3 =? 127) || (GetByte ip 3 =? 0)) then true else starts_with pchLocal ip.

Definition IsMulticast (ip : CNetAddr) : bool :=
  (IsIPv4 ip && (Z.land (GetByte ip 3) 0xF0 =? 0xE0)) || (GetByte ip 15 =? 0xFF).

Definition CNetAddr_IsValid (ip : CNetAddr) : bool :=
  if starts_with (drop 3 pchIPv4) ip then false
  else if starts_with (replicate 16 0) ip then false
  else if IsRFC3849 ip then false
  else if IsIPv4 ip && (starts_with (replicate 4 0xff) (drop 12 ip) || starts_with (replicate 4 0) (drop 12 ip)) then false
  else true.

Definition IsRoutable (ip : CNetAddr) : bool :=
  CNetAddr_IsValid ip &&
  negb (IsRFC1918 ip || IsRFC2544 ip || IsRFC3927 ip || IsRFC4862 ip || IsRFC6598 ip || IsRFC5737 ip ||
        (IsRFC4193 ip && negb (IsTor ip)) || IsRFC4843 ip || IsLocal ip).

Definition GetNetwork (ip : CNetAddr) : Network :=
  if negb (IsRoutable ip) then NET_UNROUTABLE
  else if IsIPv4 ip then NET_IPV4
  else if IsTor ip then NET_TOR
  else NET_IPV6.

(** [while (nBits >= 8) ...] and the last partial byte. *)
Fixpoint group_bytes (fuel : nat) (ip : CNetAddr) (nStartByte nBits : Z) : bytes :=
  match fuel with
  | O => []
  | S fuel =>
      if 8 <=? nBits then GetByte ip (15 - nStartByte) :: group_bytes fuel ip (nStartByte + 1) (nBits - 8)
      else if 0 <? nBits then [Z.lor (GetByte ip (15 - nStartByte)) (Z.shiftl 1 (8 - nBits) - 1)]
      else []
  end.

(** [nClass], [nStartByte] and [nBits] after the tests; [None] is the early return for
    Teredo addresses. *)
Definition group_class (ip : CNetAddr) : option (Z * Z * Z) :=
  let '(nClass, nStartByte, nBits) := (Network_code NET_IPV6, 0, 16) in
  let '(nClass, nBits) := if IsLocal ip then (255, 0) else (nClass, nBits) in
  if negb (IsRoutable ip) then Some (Network_code NET_UNROUTABLE, nStartByte, 0)
  else if IsIPv4 ip || IsRFC6145 ip || IsRFC6052 ip then Some (Network_code NET_IPV4, 12, nBits)
  else if IsRFC3964 ip then Some (Network_code NET_IPV4, 2, nBits)
  else if IsRFC4380 ip then None
  else if IsTor ip then Some (Network_code NET_TOR, 6, 4)
  else if (GetByte ip 15 =? 0x20) && (GetByte ip 14 =? 0x01) && (GetByte ip 13 =? 0x04) && (GetByte ip 12 =? 0x70)
  then Some (nClass, nStartByte, 36)
  else Some (nClass, nStartByte, 32).

Definition GetGroup (ip : CNetAddr) : bytes :=
  match group_class ip with
  | None => [Network_code NET_IPV4; Z.lxor (GetByte ip 3) 0xFF; Z.lxor (GetByte ip 2) 0xFF]
  | Some (nClass, nStartByte, nBits) => nClass :: group_bytes 5 ip nStartByte nBits
  end.

Definition CNetAddr_GetHash (ip : CNetAddr) : Z := le_val (take 8 (Hash ip)).

(** *** Reachability *)

Inductive ext_network := net (n : Network) | NET_UNKNOWN | NET_TEREDO.

Definition GetExtNetwork (addr : option CNetAddr) : ext_network :=
  match addr with
  | None => NET_UNKNOWN
  | Some a => if IsRFC4380 a then NET_TEREDO else net (GetNetwork a)
  end.

Inductive Reachability :=
| REACH_UNREACHABLE | REACH_DEFAULT | REACH_TEREDO | REACH_IPV6_WEAK | REACH_IPV4 | REACH_IPV6_STRONG | REACH_PRIVATE.

Definition GetReachabilityFrom (ip : CNetAddr) (paddrPartner : option CNetAddr) : Reachability :=
  if negb (IsRoutable ip) then REACH_UNREACHABLE
  else
    let ourNet := GetExtNetwork (Some ip) in
    let fTunnel := IsRFC3964 ip || IsRFC6052 ip || IsRFC6145 ip in
    match GetExtNetwork paddrPartner with
    | net NET_IPV4 => match ourNet with net NET_IPV4 => REACH_IPV4 | _ => REACH_DEFAULT end
    | net NET_IPV6 =>
        match ourNet with
        | NET_TEREDO => REACH_TEREDO
        | net NET_IPV4 => REACH_IPV4
        | net NET_IPV6 => if fTunnel then REACH_IPV6_WEAK else REACH_IPV6_STRONG
        | _ => REACH_DEFAULT
        end
    | net NET_TOR =>
        match ourNet with net NET_IPV4 => REACH_IPV4 | net NET_TOR => REACH_PRIVATE | _ => REACH_DEFAULT end
    | NET_TEREDO =>
        match ourNet with
        | NET_TEREDO => REACH_TEREDO
        | net NET_IPV6 => REACH_IPV6_WEAK
        | net NET_IPV4 => REACH_IPV4
        | _ => REACH_DEFAULT
        end
    | NET_UNKNOWN | net NET_UNROUTABLE =>
        match ourNet with
        | NET_TEREDO => REACH_TEREDO
        | net NET_IPV6 => REACH_IPV6_WEAK
        | net NET_IPV4 => REACH_IPV4
        | net NET_TOR => REACH_PRIVATE
        | _ => REACH_DEFAULT
        end
    end.

(** ** Services and peer addresses *)

Record CService := { sv_ip : CNetAddr; sv_port : Z }.

#[global] Instance CService_eq_dec : EqDecision CService.
Proof. solve_decision. Defined.

Definition CService_GetKey (s : CService) : bytes := sv_ip s ++ [sv_port s / 0x100; Z.land (sv_port s) 0x0FF].

(** [operator==]: the 16 bytes of [memcmp] and the ports. *)
Definition CService_eq (a b : CService) : bool := bool_decide (sv_ip a = sv_ip b) && (sv_port a =? sv_port b).

(** The port is written in network order: [htons] on a little-endian machine. *)
Definition Serialize_CService (s : CService) : bytes := sv_ip s ++ rev (le_bytes 2 (sv_port s)).

Definition Unserialize_CService : reader CService := fun s =>
  let* (ip, s) := read 16 s in
  let* (portN, s) := read 2 s in
  Ok ({| sv_ip := ip; sv_port := le_val (rev portN) |}, s).

Record CAddress := { ad_service : CService; ad_nServices : Z; ad_nTime : Z }.

#[global] Instance CAddress_eq_dec : EqDecision CAddress.
Proof. solve_decision. Defined.

Definition CADDR_TIME_VERSION : Z := 31402.
Definition SER_NETWORK : Z := 1.
Definition SER_DISK : Z := 2.
Definition SER_GETHASH : Z := 4.

Definition CAddress_Init (s : CService) : CAddress := {| ad_service := s; ad_nServices := 0; ad_nTime := 100000000 |}.
Definition CAddress_default : CAddress := CAddress_Init {| sv_ip := CNetAddr_Init; sv_port := 0 |}.

Definition with_time (nType nVersion : Z) : bool :=
  negb (Z.land nType SER_DISK =? 0) ||
  ((CADDR_TIME_VERSION <=? nVersion) && (Z.land nType SER_GETHASH =? 0)).

Definition Serialize_CAddress (nType nVersion : Z) (a : CAddress) : bytes :=
  (if negb (Z.land nType SER_DISK =? 0) then ser_writedata32 nVersion else []) ++
  (if with_time nType nVersion then ser_writedata32 (ad_nTime a) else []) ++
  ser_writedata64 (ad_nServices a) ++ Serialize_CService (ad_service a).

(** Reading overwrites [nVersion], which decides whether the time follows. *)
Definition Unserialize_CAddress (nType nVersion : Z) : reader CAddress := fun s =>
  let* (nVersion, s) := (if negb (Z.land nType SER_DISK =? 0) then let* (v, s) := ser_readdata32 s in Ok (s32 v, s) else Ok (nVersion, s)) in
  let* (nTime, s) := (if with_time nType nVersion then ser_readdata32 s else Ok (ad_nTime CAddress_default, s)) in
  let* (nServicesInt, s) := ser_readdata64 s in
  let* (sv, s) := Unserialize_CService s in
  Ok ({| ad_service := sv; ad_nServices := nServicesInt; ad_nTime := nTime |}, s).
