(* ===== verification/Transaction.v ===== *)
(** [primitives/transaction.h], [primitives/transaction.cpp]: outpoints, inputs,
    outputs and transactions, their serialization and their predicates.

    A [uint256] is the list of its 32 bytes in memory order. *)

From Stdlib Require Import ZArith Lia.
From stdpp Require Import base tactics list numbers strings.
From S2P Require Import Prelude CString Amount Script Hash Base58 Standard Serialize.

Definition uint256_IsNull (h : bytes) : bool := forallb (fun b => b =? 0) h.

Definition MAX_UINT32 : Z := 4294967295.

Record COutPoint := { op_hash : bytes; op_n : Z }.

#[global] Instance COutPoint_eq_dec : EqDecision COutPoint.
Proof. solve_decision. Defined.

Definition COutPoint_null : COutPoint := {| op_hash := replicate 32 0; op_n := MAX_UINT32 |}.
Definition COutPoint_IsNull (o : COutPoint) : bool := uint256_IsNull (op_hash o) && (op_n o =? MAX_UINT32).

Definition COutPoint_GetHash (o : COutPoint) : bytes := Hash2 (op_hash o) (le_bytes 4 (op_n o)).

Record CTxIn := { prevout : COutPoint; scriptSig : bytes; nSequence : Z }.

#[global] Instance CTxIn_eq_dec : EqDecision CTxIn.
Proof. solve_decision. Defined.

Definition CTxIn_IsFinal (i : CTxIn) : bool := nSequence i =? MAX_UINT32.
Definition CTxIn_IsZerocoinSpend (i : CTxIn) : bool :=
  uint256_IsNull (op_hash (prevout i)) && IsZerocoinSpend (scriptSig i).
Definition CTxIn_IsZerocoinPublicSpend (i : CTxIn) : bool := IsZerocoinPublicSpend (scriptSig i).

Record CTxOut := { nValue : Z; scriptPubKey : bytes; nRounds : Z }.

#[global] Instance CTxOut_eq_dec : EqDecision CTxOut.
Proof. solve_decision. Defined.

Definition CTxOut_new (v : Z) (s : bytes) : CTxOut := {| nValue := v; scriptPubKey := s; nRounds := -10 |}.
Definition CTxOut_SetNull : CTxOut := {| nValue := -1; scriptPubKey := []; nRounds := -10 |}.
Definition CTxOut_IsNull (o : CTxOut) : bool := nValue o =? -1.
Definition CTxOut_SetEmpty (o : CTxOut) : CTxOut := {| nValue := 0; scriptPubKey := []; nRounds := nRounds o |}.
Definition CTxOut_IsEmpty (o : CTxOut) : bool := (nValue o =? 0) && (zlen (scriptPubKey o) =? 0).

(** [GetKeyIDFromUTXO]: [None] is [false]. *)
Definition GetKeyIDFromUTXO (o : CTxOut) : option CTxDestination :=
  if zlen (scriptPubKey o) =? 0 then None
  else
    let '(ok, whichType, vSolutions) := Solver (scriptPubKey o) in
    if negb ok then None
    else match whichType with
         | TX_PUBKEY => Some (PubKey_GetID (CPubKey (nth_sol vSolutions 0)))
         | TX_PUBKEYHASH | TX_COLDSTAKE => Some (CKeyID (nth_sol vSolutions 0))
         | _ => None
         end.

Definition CTxOut_IsZerocoinMint (o : CTxOut) : bool := IsZerocoinMint (scriptPubKey o).
Definition CTxOut_GetZerocoinMinted (o : CTxOut) : Z := if CTxOut_IsZerocoinMint o then nValue o else 0.

Record CTransaction := { nVersion : Z; vin : list CTxIn; vout : list CTxOut; nLockTime : Z }.

#[global] Instance CTransaction_eq_dec : EqDecision CTransaction.
Proof. solve_decision. Defined.

(** ** Serialization *)

Definition Serialize_COutPoint (o : COutPoint) : bytes := op_hash o ++ ser_writedata32 (op_n o).
Definition Unserialize_COutPoint : reader COutPoint := fun s =>
  let* (h, s) := read 32 s in
  let* (n, s) := ser_readdata32 s in
  Ok ({| op_hash := h; op_n := n |}, s).

#[global] Instance COutPoint_ser : Serializable COutPoint := {|
  Serialize := Serialize_COutPoint;
  Unserialize := Unserialize_COutPoint;
  ser_valid o := length (op_hash o) = 32%nat /\ in_u 32 (op_n o)
|}.

Definition Serialize_CTxIn (i : CTxIn) : bytes :=
  Serialize (prevout i) ++ Serialize_bytes (scriptSig i) ++ ser_writedata32 (nSequence i).
Definition Unserialize_CTxIn : reader CTxIn := fun s =>
  let* (p, s) := Unserialize s in
  let* (sig, s) := Unserialize_bytes s in
  let* (q, s) := ser_readdata32 s in
  Ok ({| prevout := p; scriptSig := sig; nSequence := q |}, s).

#[global] Instance CTxIn_ser : Serializable CTxIn := {|
  Serialize := Serialize_CTxIn;
  Unserialize := Unserialize_CTxIn;
  ser_valid i := ser_valid (prevout i) /\ zlen (scriptSig i) <= MAX_SIZE /\ in_u 32 (nSequence i)
|}.

(** The amount is signed; [nRounds] is not serialized and stays at the value
    the default constructor gives it. *)
Definition Serialize_CTxOut (o : CTxOut) : bytes :=
  ser_writedata64 (nValue o) ++ Serialize_bytes (scriptPubKey o).
Definition Unserialize_CTxOut : reader CTxOut := fun s =>
  let* (v, s) := ser_readdata64 s in
  let* (k, s) := Unserialize_bytes s in
  Ok ({| nValue := s64 v; scriptPubKey := k; nRounds := -10 |}, s).

#[global] Instance CTxOut_ser : Serializable CTxOut := {|
  Serialize := Serialize_CTxOut;
  Unserialize := Unserialize_CTxOut;
  ser_valid o := in_s 64 (nValue o) /\ zlen (scriptPubKey o) <= MAX_SIZE /\ nRounds o = -10
|}.

Definition Serialize_CTransaction (t : CTransaction) : bytes :=
  ser_writedata32 (nVersion t) ++ Serialize_vector (vin t) ++ Serialize_vector (vout t) ++
  ser_writedata32 (nLockTime t).

(** [batch_in] and [batch_out] are [5000000 / sizeof(CTxIn)] and
    [5000000 / sizeof(CTxOut)] of the platform. *)
Definition Unserialize_CTransaction (batch_in batch_out : nat) : reader CTransaction := fun s =>
  let* (ver, s) := ser_readdata32 s in
  let* (i, s) := Unserialize_vector batch_in s in
  let* (o, s) := Unserialize_vector batch_out s in
  let* (l, s) := ser_readdata32 s in
  Ok ({| nVersion := s32 ver; vin := i; vout := o; nLockTime := l |}, s).

(** [UpdateHash], [CMutableTransaction::GetHash]: [SerializeHash]. *)
Definition CTransaction_GetHash (t : CTransaction) : bytes := Hash (Serialize_CTransaction t).
Definition CTxOut_GetHash (o : CTxOut) : bytes := Hash (Serialize o).

Definition GetSerializeSize {A} `{Serializable A} (a : A) : Z := zlen (Serialize a).
Definition GetTotalSize (t : CTransaction) : Z := u32 (zlen (Serialize_CTransaction t)).

Definition IsDust (o : CTxOut) (minRelayTxFee : CFeeRate) : bool :=
  let nSize := GetSerializeSize o + 148 in
  nValue o <? 3 * GetFee minRelayTxFee nSize.

(** ** Predicates *)

Definition CTransaction_IsNull (t : CTransaction) : bool := (zlen (vin t) =? 0) && (zlen (vout t) =? 0).

Definition HasZerocoinSpendInputs (t : CTransaction) : bool :=
  existsb (fun i => CTxIn_IsZerocoinSpend i || CTxIn_IsZerocoinPublicSpend i) (vin t).
Definition HasZerocoinMintOutputs (t : CTransaction) : bool := existsb CTxOut_IsZerocoinMint (vout t).
Definition HasZerocoinPublicSpendInputs (t : CTransaction) : bool := existsb CTxIn_IsZerocoinPublicSpend (vin t).
Definition ContainsZerocoins (t : CTransaction) : bool :=
  HasZerocoinSpendInputs t || HasZerocoinPublicSpendInputs t || HasZerocoinMintOutputs t.

Definition IsCoinBase (t : CTransaction) : bool :=
  match vin t with
  | [i] => COutPoint_IsNull (prevout i) && negb (ContainsZerocoins t)
  | _ => false
  end.

Definition IsCoinStake (t : CTransaction) : bool :=
  match vin t with
  | [] => false
  | i :: _ =>
      let fAllowNull := CTxIn_IsZerocoinSpend i in
      if COutPoint_IsNull (prevout i) && negb fAllowNull then false
      else match vout t with
           | o :: _ :: _ => CTxOut_IsEmpty o
           | _ => false
           end
  end.

(** [for (i = from; i < size - 1; i++)]: the outputs from [from] to the one
    before the last. *)
Definition middle {A} (from : nat) (l : list A) : list A := drop from (removelast l).

Definition CheckColdStake (t : CTransaction) (script : bytes) : bool :=
  if negb (IsCoinStake t) then false
  else match vin t, vout t with
       | first :: ins, _ :: o1 :: _ =>
           if existsb (fun i => negb (bool_decide (scriptSig i = scriptSig first))) ins then false
           else if negb (bool_decide (scriptPubKey o1 = script)) then false
           else if (3 <? zlen (vin t)) &&
                   existsb (fun o => negb (bool_decide (scriptPubKey o = script))) (middle 2 (vout t)) then false
           else true
       | _, _ => false
       end.

Definition HasP2CSOutputs (t : CTransaction) : bool := existsb (fun o => IsPayToColdStaking (scriptPubKey o)) (vout t).

Inductive value_error := value_negative | value_wraps.

(** [GetValueOut]: the sum, or the exception. *)
Definition add_value (nValueOut : Z) (o : CTxOut) : res value_error Z :=
  if nValue o <? 0 then Err value_negative
  else if s64 (nValueOut + nValue o) <? nValueOut then Err value_wraps
  else Ok (s64 (nValueOut + nValue o)).
Definition GetValueOut (t : CTransaction) : res value_error Z := res_fold add_value 0 (vout t).

Definition GetZerocoinMinted (t : CTransaction) : Z :=
  fold_left (fun acc o => s64 (acc + CTxOut_GetZerocoinMinted o)) (vout t) 0.
Definition GetZerocoinSpent (t : CTransaction) : Z :=
  fold_left (fun acc i => if CTxIn_IsZerocoinSpend i then s64 (acc + nSequence i * COIN) else acc) (vin t) 0.
Definition GetZerocoinMintCount (t : CTransaction) : Z := zlen (List.filter CTxOut_IsZerocoinMint (vout t)).

Definition UsesUTXO (t : CTransaction) (out : COutPoint) : bool :=
  existsb (fun i => bool_decide (prevout i = out)) (vin t).
Definition GetOutPoints (t : CTransaction) : list COutPoint :=
  imap (fun i _ => {| op_hash := CTransaction_GetHash t; op_n := Z.of_nat i |}) (vout t).

Definition CalculateModifiedSize (t : CTransaction) (nTxSize : Z) : Z :=
  let nTxSize := if nTxSize =? 0 then GetTotalSize t else nTxSize in
  fold_left (fun n i =>
    let offset := 41 + Z.min 110 (zlen (scriptSig i)) in
    if offset <? n then n - offset else n) (vin t) nTxSize.

(** The default constructor. *)
Definition CTransaction_empty : CTransaction := {| nVersion := 1; vin := []; vout := []; nLockTime := 0 |}.

(** ** Round trips *)

#[global] Instance COutPoint_laws : SerializableLaws COutPoint.
Proof.
  intros [h n] rest [Hh Hn]. cbn [Serialize Unserialize COutPoint_ser op_hash op_n] in *.
  unfold Unserialize_COutPoint, Serialize_COutPoint. cbn [op_hash op_n].
  rewrite <- app_assoc, read_app by done. cbn [res_bind].
  unfold ser_readdata32, ser_writedata32. rewrite read_le_app by exact Hn. done.
Qed.

#[global] Instance CTxIn_laws : SerializableLaws CTxIn.
Proof.
  intros [p sig q] rest (Hp & Hs & Hq). cbn [prevout scriptSig nSequence] in *.
  cbn [Serialize Unserialize CTxIn_ser].
  unfold Unserialize_CTxIn, Serialize_CTxIn. cbn [prevout scriptSig nSequence].
  rewrite <- !app_assoc, Unserialize_Serialize by done. cbn [res_bind].
  rewrite Unserialize_bytes_app by done. cbn [res_bind].
  unfold ser_readdata32, ser_writedata32. by rewrite read_le_app by exact Hq.
Qed.

(** A signed integer and the unsigned reading of its bytes. *)
Lemma read_le_signed n z rest :
  read_le n (le_bytes n z ++ rest) = Ok (z `mod` 256 ^ Z.of_nat n, rest).
Proof.
  unfold read_le. rewrite read_app by apply le_bytes_length. cbn [res_bind]. by rewrite le_val_le_bytes.
Qed.

Lemma s64_of_mod z : in_s 64 z -> s64 (z `mod` 256 ^ Z.of_nat 8) = z.
Proof. intros Hz. unfold in_s in Hz. change (256 ^ Z.of_nat 8) with (2 ^ 64). rewrite <- (s64_id z) at 2 by lia.
  apply s64_cong. by rewrite Z.mod_mod. Qed.

Lemma s32_of_mod z : in_s 32 z -> s32 (z `mod` 256 ^ Z.of_nat 4) = z.
Proof.
  intros Hz. unfold in_s in Hz. change (256 ^ Z.of_nat 4) with (2 ^ 32). unfold s32.
  rewrite Zplus_mod_idemp_l, Z.mod_small by lia. lia.
Qed.

#[global] Instance CTxOut_laws : SerializableLaws CTxOut.
Proof.
  intros [v k r] rest (Hv & Hk & Hr). cbn in Hv, Hk, Hr. subst r.
  cbn [Serialize Unserialize CTxOut_ser]. unfold Unserialize_CTxOut, Serialize_CTxOut. cbn [nValue scriptPubKey].
  rewrite <- app_assoc. unfold ser_readdata64, ser_writedata64. rewrite read_le_signed. cbn [res_bind].
  rewrite Unserialize_bytes_app by done. cbn [res_bind]. by rewrite s64_of_mod.
Qed.

Definition tx_valid (t : CTransaction) : Prop :=
  in_s 32 (nVersion t) /\ in_u 32 (nLockTime t) /\ Forall ser_valid (vin t) /\ Forall ser_valid (vout t) /\
  zlen (vin t) <= MAX_SIZE /\ zlen (vout t) <= MAX_SIZE.

Lemma tx_roundtrip t rest bi bo : (0 < bi)%nat -> (0 < bo)%nat -> tx_valid t ->
  Unserialize_CTransaction bi bo (Serialize_CTransaction t ++ rest) = Ok (t, rest).
Proof.
  intros Hbi Hbo (Hv & Hl & Hi & Ho & Hni & Hno). destruct t as [ver i o l]. cbn in Hv, Hl, Hi, Ho, Hni, Hno.
  unfold Unserialize_CTransaction, Serialize_CTransaction. cbn [nVersion vin vout nLockTime].
  rewrite <- !app_assoc. unfold ser_readdata32, ser_writedata32. rewrite read_le_signed. cbn [res_bind].
  rewrite Unserialize_vector_app by done. cbn [res_bind]. rewrite Unserialize_vector_app by done. cbn [res_bind].
  rewrite read_le_app by exact Hl. cbn [res_bind]. by rewrite s32_of_mod.
Qed.

(** reading the serialization of a transaction gives back the transaction
    and leaves the stream where the transaction ended, whatever the sizes of the
    allocation batches. *)
Theorem Unserialize_Serialize_tx (t : CTransaction) (rest : bytes) (bi bo : nat) :
  (0 < bi)%nat -> (0 < bo)%nat -> tx_valid t ->
  Unserialize_CTransaction bi bo (Serialize_CTransaction t ++ rest) = Ok (t, rest).
Proof. apply tx_roundtrip. Qed.

Definition sample_tx : CTransaction :=
  {| nVersion := 1;
     vin := [{| prevout := {| op_hash := replicate 32 5; op_n := 1 |}; scriptSig := [1; 2; 3]; nSequence := MAX_UINT32 |}];
     vout := [CTxOut_new 0 []; CTxOut_new 7 [OP_RETURN]]; nLockTime := 0 |}.

Lemma sample_tx_valid : tx_valid sample_tx.
Proof.
  repeat split; try (cbn; unfold in_s, in_u, MAX_SIZE, MAX_UINT32; lia); repeat constructor; cbn;
    unfold in_s, in_u, MAX_SIZE, MAX_UINT32; try lia; vm_compute; discriminate.
Qed.

Lemma Unserialize_Serialize_tx_witness :
  Unserialize_CTransaction 2 1 (Serialize_CTransaction sample_tx ++ [9]) = Ok (sample_tx, [9]).
Proof. refine (Unserialize_Serialize_tx sample_tx [9] 2 1 _ _ sample_tx_valid); lia. Defined.

(** ** Amounts *)

Definition sum_values (l : list CTxOut) : Z := fold_right (fun o a => nValue o + a) 0 l.

Lemma sum_values_nonneg l : Forall (fun o => 0 <= nValue o) l -> 0 <= sum_values l.
Proof. induction 1; unfold sum_values in *; cbn [fold_right]; lia. Qed.

Lemma add_values_spec l acc v :
  Forall (fun o => in_s 64 (nValue o)) l -> 0 <= acc < 2 ^ 63 ->
  res_fold add_value acc l = Ok v <->
  Forall (fun o => 0 <= nValue o) l /\ acc + sum_values l < 2 ^ 63 /\ v = acc + sum_values l.
Proof.
  intros Hl. revert acc. induction Hl as [| o l Ho Hl IH]; intros acc Hacc; cbn [res_fold sum_values fold_right].
  - rewrite Z.add_0_r. split; [intros [= <-]; split_and!; [constructor | lia | done] | by intros (_ & _ & ->)].
  - unfold add_value at 1. unfold in_s in Ho. destruct (Z.ltb_spec (nValue o) 0) as [Hneg | Hpos].
    { split; [done |]. intros (Hf & _). inversion Hf as [| ? ? Hf1 _]; subst. lia. }
    fold (sum_values l). destruct (Z.lt_ge_cases (acc + nValue o) (2 ^ 63)) as [Hs | Hs].
    + rewrite s64_id by lia. destruct (Z.ltb_spec (acc + nValue o) acc); [lia |]. cbn [res_bind].
      rewrite IH by lia. split.
      * intros (Hf & H1 & ->). split_and!; [by constructor | lia | lia].
      * intros (Hf & H1 & ->). inversion Hf; subst. split_and!; [done | lia | lia].
    + assert (Es : s64 (acc + nValue o) = acc + nValue o - 2 ^ 64).
      { rewrite (s64_cong _ (acc + nValue o - 2 ^ 64)).
        - apply s64_id. lia.
        - rewrite Zminus_mod, Z.mod_same, Z.sub_0_r, Z.mod_mod by lia. done. }
      rewrite Es. destruct (Z.ltb_spec (acc + nValue o - 2 ^ 64) acc); [| lia]. cbn [res_bind].
      split; [done |]. intros (Hf & H1 & _). inversion Hf as [| ? ? _ Hf']; subst.
      pose proof (sum_values_nonneg l Hf'). lia.
Qed.

(** [GetValueOut] returns the exact sum of the outputs when every amount is
    non-negative and the sum fits 63 bits, and throws in every other case: it
    never returns a wrapped total. *)
Theorem GetValueOut_spec (t : CTransaction) (v : Z) :
  Forall (fun o => in_s 64 (nValue o)) (vout t) ->
  GetValueOut t = Ok v <->
  Forall (fun o => 0 <= nValue o) (vout t) /\ sum_values (vout t) < 2 ^ 63 /\ v = sum_values (vout t).
Proof. intros H. apply (add_values_spec _ 0); [done | lia]. Qed.

Lemma GetValueOut_spec_witness : GetValueOut sample_tx = Ok 7.
Proof.
  apply (GetValueOut_spec sample_tx 7); [repeat constructor; cbn; lia |].
  split_and!; [repeat constructor; cbn; lia | vm_compute; reflexivity | reflexivity].
Defined.

(** ** Cold staking *)

Lemma existsb_ne_false {A} (f : A -> bytes) s l :
  existsb (fun o => negb (bool_decide (f o = s))) l = false <-> Forall (fun o => f o = s) l.
Proof.
  induction l as [| x l IH]; cbn [existsb]; [split; [constructor | done] |].
  rewrite orb_false_iff, IH, negb_false_iff, bool_decide_eq_true. split.
  - intros [? ?]. by constructor.
  - intros H. by inversion H; subst.
Qed.

(** what [CheckColdStake] enforces: a coinstake whose inputs share one
    [scriptSig] and whose second output pays [script]; the outputs between the
    second and the last are constrained only when there are more than three
    inputs. *)
Theorem CheckColdStake_spec (t : CTransaction) (script : bytes) :
  CheckColdStake t script = true <->
  IsCoinStake t = true /\
  exists i ins o0 o1 outs, vin t = i :: ins /\ vout t = o0 :: o1 :: outs /\
    Forall (fun j => scriptSig j = scriptSig i) ins /\ scriptPubKey o1 = script /\
    (3 < zlen (vin t) -> Forall (fun o => scriptPubKey o = script) (middle 2 (vout t))).
Proof.
  unfold CheckColdStake. destruct (IsCoinStake t) eqn:Ec; cbn [negb]; [| naive_solver].
  destruct (vin t) as [| i ins] eqn:Ei; [naive_solver |].
  destruct (vout t) as [| o0 [| o1 outs]] eqn:Eo; [naive_solver | naive_solver |].
  destruct (existsb _ ins) eqn:E1.
  { split; [done |]. intros (_ & ? & ? & ? & ? & ? & [= <- <-] & [= <- <- <-] & H & _).
    apply (existsb_ne_false scriptSig (scriptSig i)) in H. congruence. }
  apply (existsb_ne_false scriptSig (scriptSig i)) in E1.
  case_bool_decide as E2; cbn [negb].
  2:{ split; [done |]. intros (_ & ? & ? & ? & ? & ? & [= <- <-] & [= <- <- <-] & _ & H & _). done. }
  destruct (Z.ltb_spec 3 (zlen (i :: ins))) as [H3 | H3]; cbn [andb].
  - destruct (existsb _ (middle 2 _)) eqn:E4.
    + split; [done |]. intros (_ & ? & ? & ? & ? & ? & [= <- <-] & [= <- <- <-] & _ & _ & H).
      apply (existsb_ne_false scriptPubKey script) in H; [| done]. congruence.
    + apply (existsb_ne_false scriptPubKey script) in E4.
      split; [intros _ | done]. split; [done |]. exists i, ins, o0, o1, outs. by split_and!.
  - split; [intros _ | done]. split; [done |]. exists i, ins, o0, o1, outs. split_and!; [done | done | done | done | lia].
Qed.
