(* ===== verification/Interpreter.v ===== *)
(** [script/interpreter.cpp], [script/interpreter.h]: the script machine.

    The machine's stack is a list whose head is [stack.back()], so
    [stacktop(-k)] is the element at index [k - 1]; the same for [altstack] and
    for [vfExec]. Exceptions of the [try] block ([scriptnum_error],
    [popstack], [at]) all end in [SCRIPT_ERR_UNKNOWN_ERROR]. *)

From Stdlib Require Import ZArith Lia.
From stdpp Require Import base tactics list numbers strings.
From S2P Require Import Prelude Script Sha256 Sha1 Ripemd160 Hash Standard Serialize Transaction.

Inductive ScriptError :=
| SCRIPT_ERR_OK | SCRIPT_ERR_UNKNOWN_ERROR | SCRIPT_ERR_EVAL_FALSE | SCRIPT_ERR_OP_RETURN
| SCRIPT_ERR_SCRIPT_SIZE | SCRIPT_ERR_PUSH_SIZE | SCRIPT_ERR_OP_COUNT | SCRIPT_ERR_STACK_SIZE
| SCRIPT_ERR_SIG_COUNT | SCRIPT_ERR_PUBKEY_COUNT
| SCRIPT_ERR_VERIFY | SCRIPT_ERR_EQUALVERIFY | SCRIPT_ERR_CHECKCOLDSTAKEVERIFY
| SCRIPT_ERR_CHECKMULTISIGVERIFY | SCRIPT_ERR_CHECKSIGVERIFY | SCRIPT_ERR_NUMEQUALVERIFY
| SCRIPT_ERR_BAD_OPCODE | SCRIPT_ERR_DISABLED_OPCODE | SCRIPT_ERR_INVALID_STACK_OPERATION
| SCRIPT_ERR_INVALID_ALTSTACK_OPERATION | SCRIPT_ERR_UNBALANCED_CONDITIONAL
| SCRIPT_ERR_NEGATIVE_LOCKTIME | SCRIPT_ERR_UNSATISFIED_LOCKTIME
| SCRIPT_ERR_SIG_HASHTYPE | SCRIPT_ERR_SIG_DER | SCRIPT_ERR_MINIMALDATA | SCRIPT_ERR_SIG_PUSHONLY
| SCRIPT_ERR_SIG_HIGH_S | SCRIPT_ERR_SIG_NULLDUMMY | SCRIPT_ERR_PUBKEYTYPE
| SCRIPT_ERR_DISCOURAGE_UPGRADABLE_NOPS.

#[global] Instance ScriptError_eq_dec : EqDecision ScriptError.
Proof. solve_decision. Defined.

Definition SIGHASH_ALL : Z := 1.
Definition SIGHASH_NONE : Z := 2.
Definition SIGHASH_SINGLE : Z := 3.
Definition SIGHASH_ANYONECANPAY : Z := 0x80.

(** The verification flags; [flags & FLAG] is [has flags FLAG]. *)
Definition SCRIPT_VERIFY_NONE : Z := 0.
Definition SCRIPT_VERIFY_P2SH : Z := Z.shiftl 1 0.
Definition SCRIPT_VERIFY_STRICTENC : Z := Z.shiftl 1 1.
Definition SCRIPT_VERIFY_DERSIG : Z := Z.shiftl 1 2.
Definition SCRIPT_VERIFY_LOW_S : Z := Z.shiftl 1 3.
Definition SCRIPT_VERIFY_NULLDUMMY : Z := Z.shiftl 1 4.
Definition SCRIPT_VERIFY_SIGPUSHONLY : Z := Z.shiftl 1 5.
Definition SCRIPT_VERIFY_MINIMALDATA : Z := Z.shiftl 1 6.
Definition SCRIPT_VERIFY_DISCOURAGE_UPGRADABLE_NOPS : Z := Z.shiftl 1 7.
Definition SCRIPT_VERIFY_CLEANSTACK : Z := Z.shiftl 1 8.
Definition SCRIPT_VERIFY_CHECKLOCKTIMEVERIFY : Z := Z.shiftl 1 9.

Definition has (flags flag : Z) : bool := negb (Z.land flags flag =? 0).

(** ** Helpers *)

(** [CastToBool]: some byte is non-zero, other than a sign bit alone at the
    end. *)
Fixpoint CastToBool (vch : bytes) : bool :=
  match vch with
  | [] => false
  | b :: vch =>
      if negb (b =? 0) then negb ((zlen vch =? 0) && (b =? 0x80)) else CastToBool vch
  end.

Definition vchFalse : bytes := [].
Definition vchTrue : bytes := [1].
Definition vchBool (b : bool) : bytes := if b then vchTrue else vchFalse.

Definition IsCompressedOrUncompressedPubKey (vchPubKey : bytes) : bool :=
  if zlen vchPubKey <? 33 then false
  else if idx vchPubKey 0 =? 0x04 then zlen vchPubKey =? 65
  else if (idx vchPubKey 0 =? 0x02) || (idx vchPubKey 0 =? 0x03) then zlen vchPubKey =? 33
  else false.

Definition IsValidSignatureEncoding (sig : bytes) : bool :=
  let size := zlen sig in
  if size <? 9 then false
  else if 73 <? size then false
  else if negb (idx sig 0 =? 0x30) then false
  else if negb (idx sig 1 =? size - 3) then false
  else
    let lenR := idx sig 3 in
    if size <=? 5 + lenR then false
    else
      let lenS := idx sig (5 + lenR) in
      if negb (lenR + lenS + 7 =? size) then false
      else if negb (idx sig 2 =? 0x02) then false
      else if lenR =? 0 then false
      else if negb (Z.land (idx sig 4) 0x80 =? 0) then false
      else if (1 <? lenR) && (idx sig 4 =? 0) && (Z.land (idx sig 5) 0x80 =? 0) then false
      else if negb (idx sig (lenR + 4) =? 0x02) then false
      else if lenS =? 0 then false
      else if negb (Z.land (idx sig (lenR + 6)) 0x80 =? 0) then false
      else if (1 <? lenS) && (idx sig (lenR + 6) =? 0) && (Z.land (idx sig (lenR + 7)) 0x80 =? 0) then false
      else true.

Definition IsDefinedHashtypeSignature (vchSig : bytes) : bool :=
  if zlen vchSig =? 0 then false
  else
    let nHashType := Z.land (back vchSig) (255 - SIGHASH_ANYONECANPAY) in
    negb ((nHashType <? SIGHASH_ALL) || (SIGHASH_SINGLE <? nHashType)).

Definition CheckMinimalPush (data : bytes) (opcode : Z) : bool :=
  if zlen data =? 0 then opcode =? OP_0
  else if (zlen data =? 1) && (1 <=? idx data 0) && (idx data 0 <=? 16) then opcode =? OP_1 + (idx data 0 - 1)
  else if (zlen data =? 1) && (idx data 0 =? 0x81) then opcode =? OP_1NEGATE
  else if zlen data <=? 75 then opcode =? zlen data
  else if zlen data <=? 255 then opcode =? OP_PUSHDATA1
  else if zlen data <=? 65535 then opcode =? OP_PUSHDATA2
  else true.

(** [class BaseSignatureChecker] *)
Record BaseSignatureChecker := {
  CheckSig : bytes -> bytes -> bytes -> bool;
  CheckLockTime : Z -> bool;
  checkColdStake : bytes -> bool
}.

Section Machine.
(** [CPubKey::CheckLowS] is [libsecp256k1]'s. *)
Context (CheckLowS : bytes -> bool).

Abbreviation mres := (res ScriptError).

Definition IsLowDERSignature (vchSig : bytes) : mres unit :=
  if negb (IsValidSignatureEncoding vchSig) then Err SCRIPT_ERR_SIG_DER
  else if negb (CheckLowS (take (length vchSig - 1) vchSig)) then Err SCRIPT_ERR_SIG_HIGH_S
  else Ok tt.

Definition CheckSignatureEncoding (vchSig : bytes) (flags : Z) : mres unit :=
  if zlen vchSig =? 0 then Ok tt
  else if has flags (Z.lor (Z.lor SCRIPT_VERIFY_DERSIG SCRIPT_VERIFY_LOW_S) SCRIPT_VERIFY_STRICTENC) &&
          negb (IsValidSignatureEncoding vchSig) then Err SCRIPT_ERR_SIG_DER
  else
    let* _ := if has flags SCRIPT_VERIFY_LOW_S then IsLowDERSignature vchSig else Ok tt in
    if has flags SCRIPT_VERIFY_STRICTENC && negb (IsDefinedHashtypeSignature vchSig)
    then Err SCRIPT_ERR_SIG_HASHTYPE
    else Ok tt.

Definition CheckPubKeyEncoding (vchPubKey : bytes) (flags : Z) : mres unit :=
  if has flags SCRIPT_VERIFY_STRICTENC && negb (IsCompressedOrUncompressedPubKey vchPubKey)
  then Err SCRIPT_ERR_PUBKEYTYPE
  else Ok tt.

(** The local variables of [EvalScript]. *)
Record machine := {
  m_pc : bytes;
  m_codehash : bytes;
  m_stack : list bytes;
  m_alt : list bytes;
  m_exec : list bool;
  m_ops : Z
}.

Context (script : bytes) (flags : Z) (checker : BaseSignatureChecker).

Definition fRequireMinimal : bool := has flags SCRIPT_VERIFY_MINIMALDATA.

(** [CScriptNum(vch, fRequireMinimal, max)]; the exception is caught. *)
Definition num (vch : bytes) (max : Z) : mres Z :=
  match CScriptNum vch fRequireMinimal max with
  | Ok n => Ok n
  | Err _ => Err SCRIPT_ERR_UNKNOWN_ERROR
  end.

Definition with_stack (m : machine) (s : list bytes) : machine :=
  {| m_pc := m_pc m; m_codehash := m_codehash m; m_stack := s; m_alt := m_alt m;
     m_exec := m_exec m; m_ops := m_ops m |}.

Definition bad_stack {A} : mres A := Err SCRIPT_ERR_INVALID_STACK_OPERATION.

(** *** Control *)

Definition op_CHECKLOCKTIMEVERIFY (m : machine) : mres machine :=
  if negb (has flags SCRIPT_VERIFY_CHECKLOCKTIMEVERIFY) then
    if has flags SCRIPT_VERIFY_DISCOURAGE_UPGRADABLE_NOPS then Err SCRIPT_ERR_DISCOURAGE_UPGRADABLE_NOPS
    else Ok m
  else match m_stack m with
       | [] => bad_stack
       | top :: _ =>
           let* nLockTime := num top 5 in
           if nLockTime <? 0 then Err SCRIPT_ERR_NEGATIVE_LOCKTIME
           else if negb (CheckLockTime checker nLockTime) then Err SCRIPT_ERR_UNSATISFIED_LOCKTIME
           else Ok m
       end.

Definition op_NOPs (m : machine) : mres machine :=
  if has flags SCRIPT_VERIFY_DISCOURAGE_UPGRADABLE_NOPS then Err SCRIPT_ERR_DISCOURAGE_UPGRADABLE_NOPS
  else Ok m.

Definition with_exec (m : machine) (s : list bytes) (vf : list bool) : machine :=
  {| m_pc := m_pc m; m_codehash := m_codehash m; m_stack := s; m_alt := m_alt m;
     m_exec := vf; m_ops := m_ops m |}.

(** [OP_IF], [OP_NOTIF] *)
Definition op_IF (opcode : Z) (fExec : bool) (m : machine) : mres machine :=
  if fExec then
    match m_stack m with
    | [] => Err SCRIPT_ERR_UNBALANCED_CONDITIONAL
    | vch :: s =>
        let fValue := CastToBool vch in
        let fValue := if opcode =? OP_NOTIF then negb fValue else fValue in
        Ok (with_exec m s (fValue :: m_exec m))
    end
  else Ok (with_exec m (m_stack m) (false :: m_exec m)).

Definition op_ELSE (m : machine) : mres machine :=
  match m_exec m with
  | [] => Err SCRIPT_ERR_UNBALANCED_CONDITIONAL
  | b :: vf => Ok (with_exec m (m_stack m) (negb b :: vf))
  end.

Definition op_ENDIF (m : machine) : mres machine :=
  match m_exec m with
  | [] => Err SCRIPT_ERR_UNBALANCED_CONDITIONAL
  | _ :: vf => Ok (with_exec m (m_stack m) vf)
  end.

Definition op_VERIFY (s : list bytes) : mres (list bytes) :=
  match s with
  | [] => bad_stack
  | top :: s => if CastToBool top then Ok s else Err SCRIPT_ERR_VERIFY
  end.

(** *** Stack ops *)

Definition op_TOALTSTACK (m : machine) : mres machine :=
  match m_stack m with
  | [] => bad_stack
  | x :: s => Ok {| m_pc := m_pc m; m_codehash := m_codehash m; m_stack := s; m_alt := x :: m_alt m;
                    m_exec := m_exec m; m_ops := m_ops m |}
  end.

Definition op_FROMALTSTACK (m : machine) : mres machine :=
  match m_alt m with
  | [] => Err SCRIPT_ERR_INVALID_ALTSTACK_OPERATION
  | x :: a => Ok {| m_pc := m_pc m; m_codehash := m_codehash m; m_stack := x :: m_stack m; m_alt := a;
                    m_exec := m_exec m; m_ops := m_ops m |}
  end.

Definition op_2DROP (s : list bytes) : mres (list bytes) :=
  match s with _ :: _ :: s => Ok s | _ => bad_stack end.
Definition op_2DUP (s : list bytes) : mres (list bytes) :=
  match s with x2 :: x1 :: s => Ok (x2 :: x1 :: x2 :: x1 :: s) | _ => bad_stack end.
Definition op_3DUP (s : list bytes) : mres (list bytes) :=
  match s with x3 :: x2 :: x1 :: s => Ok (x3 :: x2 :: x1 :: x3 :: x2 :: x1 :: s) | _ => bad_stack end.
Definition op_2OVER (s : list bytes) : mres (list bytes) :=
  match s with
  | x4 :: x3 :: x2 :: x1 :: s => Ok (x2 :: x1 :: x4 :: x3 :: x2 :: x1 :: s)
  | _ => bad_stack
  end.
Definition op_2ROT (s : list bytes) : mres (list bytes) :=
  match s with
  | x6 :: x5 :: x4 :: x3 :: x2 :: x1 :: s => Ok (x2 :: x1 :: x6 :: x5 :: x4 :: x3 :: s)
  | _ => bad_stack
  end.
Definition op_2SWAP (s : list bytes) : mres (list bytes) :=
  match s with
  | x4 :: x3 :: x2 :: x1 :: s => Ok (x2 :: x1 :: x4 :: x3 :: s)
  | _ => bad_stack
  end.
Definition op_IFDUP (s : list bytes) : mres (list bytes) :=
  match s with
  | x :: s => Ok (if CastToBool x then x :: x :: s else x :: s)
  | [] => bad_stack
  end.
Definition op_DEPTH (s : list bytes) : mres (list bytes) := Ok (getvch (zlen s) :: s).
Definition op_DROP (s : list bytes) : mres (list bytes) :=
  match s with _ :: s => Ok s | [] => bad_stack end.
Definition op_DUP (s : list bytes) : mres (list bytes) :=
  match s with x :: s => Ok (x :: x :: s) | [] => bad_stack end.
Definition op_NIP (s : list bytes) : mres (list bytes) :=
  match s with x2 :: _ :: s => Ok (x2 :: s) | _ => bad_stack end.
Definition op_OVER (s : list bytes) : mres (list bytes) :=
  match s with x2 :: x1 :: s => Ok (x1 :: x2 :: x1 :: s) | _ => bad_stack end.

(** [OP_PICK], [OP_ROLL] *)
Definition op_PICK_ROLL (opcode : Z) (s : list bytes) : mres (list bytes) :=
  match s with
  | top :: (_ :: _) =>
      let rest := drop 1 s in
      let* v := num top nDefaultMaxNumSize in
      let n := getint v in
      if (n <? 0) || (zlen rest <=? n) then bad_stack
      else
        let vch := nth (Z.to_nat n) rest [] in
        let rest := if opcode =? OP_ROLL
                    then take (Z.to_nat n) rest ++ drop (S (Z.to_nat n)) rest else rest in
        Ok (vch :: rest)
  | _ => bad_stack
  end.

Definition op_ROT (s : list bytes) : mres (list bytes) :=
  match s with x3 :: x2 :: x1 :: s => Ok (x1 :: x3 :: x2 :: s) | _ => bad_stack end.
Definition op_SWAP (s : list bytes) : mres (list bytes) :=
  match s with x2 :: x1 :: s => Ok (x1 :: x2 :: s) | _ => bad_stack end.
Definition op_TUCK (s : list bytes) : mres (list bytes) :=
  match s with x2 :: x1 :: s => Ok (x2 :: x1 :: x2 :: s) | _ => bad_stack end.
Definition op_SIZE (s : list bytes) : mres (list bytes) :=
  match s with x :: s => Ok (getvch (zlen x) :: x :: s) | [] => bad_stack end.

(** *** Bitwise logic and numbers *)

Definition op_EQUAL (opcode : Z) (s : list bytes) : mres (list bytes) :=
  match s with
  | x2 :: x1 :: s =>
      let fEqual := bool_decide (x1 = x2) in
      if opcode =? OP_EQUALVERIFY then if fEqual then Ok s else Err SCRIPT_ERR_EQUALVERIFY
      else Ok (vchBool fEqual :: s)
  | _ => bad_stack
  end.

Definition b2z (b : bool) : Z := if b then 1 else 0.

(** The inner [switch] on one operand. *)
Definition unary (opcode bn : Z) : Z :=
  if opcode =? OP_1ADD then bn + 1
  else if opcode =? OP_1SUB then bn - 1
  else if opcode =? OP_NEGATE then - bn
  else if opcode =? OP_ABS then if bn <? 0 then - bn else bn
  else if opcode =? OP_NOT then b2z (bn =? 0)
  else b2z (negb (bn =? 0)).

Definition op_unary (opcode : Z) (s : list bytes) : mres (list bytes) :=
  match s with
  | x :: s => let* bn := num x nDefaultMaxNumSize in Ok (getvch (unary opcode bn) :: s)
  | [] => bad_stack
  end.

(** The inner [switch] on two operands. *)
Definition binary (opcode bn1 bn2 : Z) : Z :=
  if opcode =? OP_ADD then bn1 + bn2
  else if opcode =? OP_SUB then bn1 - bn2
  else if opcode =? OP_BOOLAND then b2z (negb (bn1 =? 0) && negb (bn2 =? 0))
  else if opcode =? OP_BOOLOR then b2z (negb (bn1 =? 0) || negb (bn2 =? 0))
  else if opcode =? OP_NUMEQUAL then b2z (bn1 =? bn2)
  else if opcode =? OP_NUMEQUALVERIFY then b2z (bn1 =? bn2)
  else if opcode =? OP_NUMNOTEQUAL then b2z (negb (bn1 =? bn2))
  else if opcode =? OP_LESSTHAN then b2z (bn1 <? bn2)
  else if opcode =? OP_GREATERTHAN then b2z (bn2 <? bn1)
  else if opcode =? OP_LESSTHANOREQUAL then b2z (bn1 <=? bn2)
  else if opcode =? OP_GREATERTHANOREQUAL then b2z (bn2 <=? bn1)
  else if opcode =? OP_MIN then if bn1 <? bn2 then bn1 else bn2
  else if bn2 <? bn1 then bn1 else bn2.

Definition op_binary (opcode : Z) (s : list bytes) : mres (list bytes) :=
  match s with
  | x2 :: x1 :: s =>
      let* bn1 := num x1 nDefaultMaxNumSize in
      let* bn2 := num x2 nDefaultMaxNumSize in
      let out := getvch (binary opcode bn1 bn2) in
      if opcode =? OP_NUMEQUALVERIFY then if CastToBool out then Ok s else Err SCRIPT_ERR_NUMEQUALVERIFY
      else Ok (out :: s)
  | _ => bad_stack
  end.

Definition op_WITHIN (s : list bytes) : mres (list bytes) :=
  match s with
  | x3 :: x2 :: x1 :: s =>
      let* bn1 := num x1 nDefaultMaxNumSize in
      let* bn2 := num x2 nDefaultMaxNumSize in
      let* bn3 := num x3 nDefaultMaxNumSize in
      Ok (vchBool ((bn2 <=? bn1) && (bn1 <? bn3)) :: s)
  | _ => bad_stack
  end.

(** *** Crypto *)

Definition op_hash (opcode : Z) (s : list bytes) : mres (list bytes) :=
  match s with
  | vch :: s =>
      let vchHash :=
        if opcode =? OP_RIPEMD160 then ripemd160 vch
        else if opcode =? OP_SHA1 then sha1 vch
        else if opcode =? OP_SHA256 then sha256 vch
        else if opcode =? OP_HASH160 then Hash160 vch
        else Hash vch in
      Ok (vchHash :: s)
  | [] => bad_stack
  end.

Definition op_CODESEPARATOR (m : machine) : machine :=
  {| m_pc := m_pc m; m_codehash := m_pc m; m_stack := m_stack m; m_alt := m_alt m;
     m_exec := m_exec m; m_ops := m_ops m |}.

(** [CScript(vchSig)]: the script pushing the signature. *)
Definition op_CHECKSIG (opcode : Z) (m : machine) : mres machine :=
  match m_stack m with
  | vchPubKey :: vchSig :: s =>
      let scriptCode := fst (FindAndDelete (m_codehash m) (push_data [] vchSig)) in
      let* _ := CheckSignatureEncoding vchSig flags in
      let* _ := CheckPubKeyEncoding vchPubKey flags in
      let fSuccess := CheckSig checker vchSig vchPubKey scriptCode in
      if opcode =? OP_CHECKSIGVERIFY
      then if fSuccess then Ok (with_stack m s) else Err SCRIPT_ERR_CHECKSIGVERIFY
      else Ok (with_stack m (vchBool fSuccess :: s))
  | _ => bad_stack
  end.

Definition stacktop (s : list bytes) (k : Z) : bytes := nth (Z.to_nat (k - 1)) s [].

(** [while (fSuccess && nSigsCount > 0)]; a key is used up in every round. *)
Fixpoint multisig_loop (fuel : nat) (s : list bytes) (scriptCode : bytes)
    (isig ikey nSigsCount nKeysCount : Z) (fSuccess : bool) : mres bool :=
  match fuel with
  | O => Ok fSuccess
  | S fuel =>
      if fSuccess && (0 <? nSigsCount) then
        let vchSig := stacktop s isig in
        let vchPubKey := stacktop s ikey in
        let* _ := CheckSignatureEncoding vchSig flags in
        let* _ := CheckPubKeyEncoding vchPubKey flags in
        let fOk := CheckSig checker vchSig vchPubKey scriptCode in
        let isig := if fOk then isig + 1 else isig in
        let nSigsCount := if fOk then nSigsCount - 1 else nSigsCount in
        let ikey := ikey + 1 in
        let nKeysCount := nKeysCount - 1 in
        multisig_loop fuel s scriptCode isig ikey nSigsCount nKeysCount (negb (nKeysCount <? nSigsCount))
      else Ok fSuccess
  end.

Definition op_CHECKMULTISIG (opcode : Z) (m : machine) : mres machine :=
  let s := m_stack m in
  let size := zlen s in
  if size <? 1 then bad_stack
  else
  let* k := num (stacktop s 1) nDefaultMaxNumSize in
  let nKeysCount := getint k in
  if (nKeysCount <? 0) || (20 <? nKeysCount) then Err SCRIPT_ERR_PUBKEY_COUNT
  else
  let nOpCount := m_ops m + nKeysCount in
  if 201 <? nOpCount then Err SCRIPT_ERR_OP_COUNT
  else
  let ikey := 2 in
  let i := 2 + nKeysCount in
  if size <? i then bad_stack
  else
  let* g := num (stacktop s i) nDefaultMaxNumSize in
  let nSigsCount := getint g in
  if (nSigsCount <? 0) || (nKeysCount <? nSigsCount) then Err SCRIPT_ERR_SIG_COUNT
  else
  let isig := i + 1 in
  let i := i + 1 + nSigsCount in
  if size <? i then bad_stack
  else
  let scriptCode :=
    fold_left (fun code k => fst (FindAndDelete code (push_data [] (stacktop s (isig + Z.of_nat k)))))
      (seq 0 (Z.to_nat nSigsCount)) (m_codehash m) in
  let* fSuccess := multisig_loop (S (Z.to_nat nKeysCount)) s scriptCode isig ikey nSigsCount nKeysCount true in
  match drop (Z.to_nat (i - 1)) s with
  | [] => bad_stack
  | dummy :: s =>
      if has flags SCRIPT_VERIFY_NULLDUMMY && negb (zlen dummy =? 0) then Err SCRIPT_ERR_SIG_NULLDUMMY
      else
        let m := {| m_pc := m_pc m; m_codehash := m_codehash m; m_stack := vchBool fSuccess :: s;
                    m_alt := m_alt m; m_exec := m_exec m; m_ops := nOpCount |} in
        if opcode =? OP_CHECKMULTISIGVERIFY
        then if fSuccess then Ok (with_stack m s) else Err SCRIPT_ERR_CHECKMULTISIGVERIFY
        else Ok m
  end.

Definition op_CHECKCOLDSTAKEVERIFY (m : machine) : mres machine :=
  if negb (checkColdStake checker script) then Err SCRIPT_ERR_CHECKCOLDSTAKEVERIFY else Ok m.

(** *** The [switch], by groups: [None] is "no [case] of this group". *)

Definition lift (f : list bytes -> mres (list bytes)) (m : machine) : mres machine :=
  let* s := f (m_stack m) in Ok (with_stack m s).

Definition one_of (opcode : Z) (l : list Z) : bool := existsb (Z.eqb opcode) l.

Definition exec_control (opcode : Z) (fExec : bool) (m : machine) : option (mres machine) :=
  if (opcode =? OP_1NEGATE) || ((OP_1 <=? opcode) && (opcode <=? OP_16))
  then Some (Ok (with_stack m (getvch (opcode - (OP_1 - 1)) :: m_stack m)))
  else if opcode =? OP_NOP then Some (Ok m)
  else if opcode =? OP_CHECKLOCKTIMEVERIFY then Some (op_CHECKLOCKTIMEVERIFY m)
  else if one_of opcode [OP_NOP1; OP_NOP3; OP_NOP4; OP_NOP5; OP_NOP6; OP_NOP7; OP_NOP8; OP_NOP9; OP_NOP10]
  then Some (op_NOPs m)
  else if (opcode =? OP_IF) || (opcode =? OP_NOTIF) then Some (op_IF opcode fExec m)
  else if opcode =? OP_ELSE then Some (op_ELSE m)
  else if opcode =? OP_ENDIF then Some (op_ENDIF m)
  else if opcode =? OP_VERIFY then Some (lift op_VERIFY m)
  else if opcode =? OP_RETURN then Some (Err SCRIPT_ERR_OP_RETURN)
  else None.

Definition exec_stack (opcode : Z) (m : machine) : option (mres machine) :=
  if opcode =? OP_TOALTSTACK then Some (op_TOALTSTACK m)
  else if opcode =? OP_FROMALTSTACK then Some (op_FROMALTSTACK m)
  else if opcode =? OP_2DROP then Some (lift op_2DROP m)
  else if opcode =? OP_2DUP then Some (lift op_2DUP m)
  else if opcode =? OP_3DUP then Some (lift op_3DUP m)
  else if opcode =? OP_2OVER then Some (lift op_2OVER m)
  else if opcode =? OP_2ROT then Some (lift op_2ROT m)
  else if opcode =? OP_2SWAP then Some (lift op_2SWAP m)
  else if opcode =? OP_IFDUP then Some (lift op_IFDUP m)
  else if opcode =? OP_DEPTH then Some (lift op_DEPTH m)
  else if opcode =? OP_DROP then Some (lift op_DROP m)
  else if opcode =? OP_DUP then Some (lift op_DUP m)
  else if opcode =? OP_NIP then Some (lift op_NIP m)
  else if opcode =? OP_OVER then Some (lift op_OVER m)
  else if (opcode =? OP_PICK) || (opcode =? OP_ROLL) then Some (lift (op_PICK_ROLL opcode) m)
  else if opcode =? OP_ROT then Some (lift op_ROT m)
  else if opcode =? OP_SWAP then Some (lift op_SWAP m)
  else if opcode =? OP_TUCK then Some (lift op_TUCK m)
  else if opcode =? OP_SIZE then Some (lift op_SIZE m)
  else None.

Definition exec_numeric (opcode : Z) (m : machine) : option (mres machine) :=
  if (opcode =? OP_EQUAL) || (opcode =? OP_EQUALVERIFY) then Some (lift (op_EQUAL opcode) m)
  else if one_of opcode [OP_1ADD; OP_1SUB; OP_NEGATE; OP_ABS; OP_NOT; OP_0NOTEQUAL]
  then Some (lift (op_unary opcode) m)
  else if one_of opcode [OP_ADD; OP_SUB; OP_BOOLAND; OP_BOOLOR; OP_NUMEQUAL; OP_NUMEQUALVERIFY;
                         OP_NUMNOTEQUAL; OP_LESSTHAN; OP_GREATERTHAN; OP_LESSTHANOREQUAL;
                         OP_GREATERTHANOREQUAL; OP_MIN; OP_MAX]
  then Some (lift (op_binary opcode) m)
  else if opcode =? OP_WITHIN then Some (lift op_WITHIN m)
  else None.

Definition exec_crypto (opcode : Z) (m : machine) : option (mres machine) :=
  if one_of opcode [OP_RIPEMD160; OP_SHA1; OP_SHA256; OP_HASH160; OP_HASH256]
  then Some (lift (op_hash opcode) m)
  else if opcode =? OP_CODESEPARATOR then Some (Ok (op_CODESEPARATOR m))
  else if (opcode =? OP_CHECKSIG) || (opcode =? OP_CHECKSIGVERIFY) then Some (op_CHECKSIG opcode m)
  else if (opcode =? OP_CHECKMULTISIG) || (opcode =? OP_CHECKMULTISIGVERIFY) then Some (op_CHECKMULTISIG opcode m)
  else if opcode =? OP_CHECKCOLDSTAKEVERIFY then Some (op_CHECKCOLDSTAKEVERIFY m)
  else None.

Definition exec_opcode (opcode : Z) (fExec : bool) (m : machine) : mres machine :=
  match exec_control opcode fExec m with
  | Some r => r
  | None =>
      match exec_stack opcode m with
      | Some r => r
      | None =>
          match exec_numeric opcode m with
          | Some r => r
          | None => default (Err SCRIPT_ERR_BAD_OPCODE) (exec_crypto opcode m)
          end
      end
  end.

Definition disabled (opcode : Z) : bool :=
  one_of opcode [OP_CAT; OP_SUBSTR; OP_LEFT; OP_RIGHT; OP_INVERT; OP_AND; OP_OR; OP_XOR; OP_2MUL; OP_2DIV;
                 OP_MUL; OP_DIV; OP_MOD; OP_LSHIFT; OP_RSHIFT].

(** One round of [while (pc < pend)]. *)
Definition eval_step (m : machine) : mres machine :=
  let fExec := forallb id (m_exec m) in
  let g := GetOp2 (m_pc m) in
  let opcode := go_opcode g in
  let vchPushValue := go_data g in
  if negb (go_ok g) then Err SCRIPT_ERR_BAD_OPCODE
  else if MAX_SCRIPT_ELEMENT_SIZE <? zlen vchPushValue then Err SCRIPT_ERR_PUSH_SIZE
  else
  let nOpCount := if OP_16 <? opcode then m_ops m + 1 else m_ops m in
  if (OP_16 <? opcode) && (201 <? nOpCount) then Err SCRIPT_ERR_OP_COUNT
  else if disabled opcode then Err SCRIPT_ERR_DISABLED_OPCODE
  else
  let m := {| m_pc := go_pc g; m_codehash := m_codehash m; m_stack := m_stack m; m_alt := m_alt m;
              m_exec := m_exec m; m_ops := nOpCount |} in
  let* m :=
    if fExec && (0 <=? opcode) && (opcode <=? OP_PUSHDATA4) then
      if fRequireMinimal && negb (CheckMinimalPush vchPushValue opcode) then Err SCRIPT_ERR_MINIMALDATA
      else Ok (with_stack m (vchPushValue :: m_stack m))
    else if fExec || ((OP_IF <=? opcode) && (opcode <=? OP_ENDIF)) then exec_opcode opcode fExec m
    else Ok m in
  if 1000 <? zlen (m_stack m) + zlen (m_alt m) then Err SCRIPT_ERR_STACK_SIZE else Ok m.

(** Every round reads at least the opcode byte. *)
Fixpoint eval_loop (fuel : nat) (m : machine) : mres machine :=
  match fuel with
  | O => Ok m
  | S fuel =>
      if zlen (m_pc m) =? 0 then Ok m
      else let* m := eval_step m in eval_loop fuel m
  end.

(** [EvalScript]: the stack it leaves, or the error. *)
Definition EvalScript (stack : list bytes) : mres (list bytes) :=
  if MAX_SCRIPT_SIZE <? zlen script then Err SCRIPT_ERR_SCRIPT_SIZE
  else
    let* m := eval_loop (length script)
      {| m_pc := script; m_codehash := script; m_stack := stack; m_alt := []; m_exec := []; m_ops := 0 |} in
    match m_exec m with
    | [] => Ok (m_stack m)
    | _ => Err SCRIPT_ERR_UNBALANCED_CONDITIONAL
    end.
End Machine.

(** [VerifyScript]; [AssertFailed] cannot be reported by an error code, so the
    failed [assert(!stackCopy.empty())] is [None]. *)
Definition top_true (stack : list bytes) : res ScriptError unit :=
  match stack with
  | [] => Err SCRIPT_ERR_EVAL_FALSE
  | top :: _ => if CastToBool top then Ok tt else Err SCRIPT_ERR_EVAL_FALSE
  end.

Definition VerifyScript (CheckLowS : bytes -> bool) (scriptSig scriptPubKey : bytes) (flags : Z)
    (checker : BaseSignatureChecker) : option (res ScriptError unit) :=
  if has flags SCRIPT_VERIFY_SIGPUSHONLY && negb (IsPushOnly scriptSig) then Some (Err SCRIPT_ERR_SIG_PUSHONLY)
  else
    match EvalScript CheckLowS scriptSig flags checker [] with
    | Err e => Some (Err e)
    | Ok stack =>
        let stackCopy := stack in
        match EvalScript CheckLowS scriptPubKey flags checker stack with
        | Err e => Some (Err e)
        | Ok stack =>
            match top_true stack with
            | Err e => Some (Err e)
            | Ok _ =>
                if has flags SCRIPT_VERIFY_P2SH && IsPayToScriptHash scriptPubKey then
                  if negb (IsPushOnly scriptSig) then Some (Err SCRIPT_ERR_SIG_PUSHONLY)
                  else match stackCopy with
                       | [] => None
                       | pubKey2 :: stackCopy =>
                           match EvalScript CheckLowS pubKey2 flags checker stackCopy with
                           | Err e => Some (Err e)
                           | Ok stackCopy => Some (top_true stackCopy)
                           end
                       end
                else Some (Ok tt)
            end
        end
    end.

(** ** Signature hashes *)

Section Sighash.
Context (txTo : CTransaction) (scriptCode : bytes) (nIn : Z) (nHashType : Z).

Definition fAnyoneCanPay : bool := negb (Z.land nHashType SIGHASH_ANYONECANPAY =? 0).
Definition fHashSingle : bool := Z.land nHashType 0x1f =? SIGHASH_SINGLE.
Definition fHashNone : bool := Z.land nHashType 0x1f =? SIGHASH_NONE.

(** [while (scriptCode.GetOp(it, opcode)) if (opcode == OP_CODESEPARATOR) n++] *)
Fixpoint count_separators (fuel : nat) (it : bytes) : Z :=
  match fuel with
  | O => 0
  | S fuel =>
      let g := GetOp2 it in
      if go_ok g
      then (if go_opcode g =? OP_CODESEPARATOR then 1 else 0) + count_separators fuel (go_pc g)
      else 0
  end.

(** The second loop and the final write; a [GetOp] that fails has still
    advanced [it]. *)
Fixpoint write_code (fuel : nat) (itBegin it : bytes) : bytes :=
  match fuel with
  | O => []
  | S fuel =>
      let g := GetOp2 it in
      if go_ok g then
        if go_opcode g =? OP_CODESEPARATOR
        then take (length itBegin - length (go_pc g) - 1) itBegin ++ write_code fuel (go_pc g) (go_pc g)
        else write_code fuel itBegin (go_pc g)
      else if zlen itBegin =? 0 then [] else take (length itBegin - length (go_pc g)) itBegin
  end.

Definition SerializeScriptCode : bytes :=
  let fuel := S (length scriptCode) in
  WriteCompactSize (zlen scriptCode - count_separators fuel scriptCode) ++ write_code fuel scriptCode scriptCode.

Definition input_at (i : Z) : CTxIn :=
  nth (Z.to_nat i) (vin txTo) {| prevout := COutPoint_null; scriptSig := []; nSequence := MAX_UINT32 |}.

Definition SerializeInput (nInput : Z) : bytes :=
  let nInput := if fAnyoneCanPay then nIn else nInput in
  let i := input_at nInput in
  Serialize (prevout i) ++
  (if negb (nInput =? nIn) then Serialize_bytes [] else SerializeScriptCode) ++
  (if negb (nInput =? nIn) && (fHashSingle || fHashNone) then ser_writedata32 0
   else ser_writedata32 (nSequence i)).

Definition SerializeOutput (nOutput : Z) : bytes :=
  if fHashSingle && negb (nOutput =? nIn) then Serialize CTxOut_SetNull
  else Serialize (nth (Z.to_nat nOutput) (vout txTo) CTxOut_SetNull).

Definition SerializeForSig : bytes :=
  let nInputs := if fAnyoneCanPay then 1 else zlen (vin txTo) in
  let nOutputs := if fHashNone then 0 else if fHashSingle then nIn + 1 else zlen (vout txTo) in
  ser_writedata32 (nVersion txTo) ++
  WriteCompactSize nInputs ++ concat (map (fun i => SerializeInput (Z.of_nat i)) (seq 0 (Z.to_nat nInputs))) ++
  WriteCompactSize nOutputs ++ concat (map (fun i => SerializeOutput (Z.of_nat i)) (seq 0 (Z.to_nat nOutputs))) ++
  ser_writedata32 (nLockTime txTo).
End Sighash.

Definition UINT256_ONE : bytes := 1 :: replicate 31 0.

Definition SignatureHash (scriptCode : bytes) (txTo : CTransaction) (nIn nHashType : Z) : bytes :=
  if zlen (vin txTo) <=? nIn then UINT256_ONE
  else if (Z.land nHashType 0x1f =? SIGHASH_SINGLE) && (zlen (vout txTo) <=? nIn) then UINT256_ONE
  else Hash (SerializeForSig txTo scriptCode nIn nHashType ++ ser_writedata32 nHashType).

(** ** [TransactionSignatureChecker] *)

Section Checker.
(** [CPubKey::Verify] is [libsecp256k1]'s: public key, hash, signature. *)
Context (Verify : bytes -> bytes -> bytes -> bool) (txTo : CTransaction) (nIn : Z).

Definition tsc_CheckSig (vchSigIn vchPubKey scriptCode : bytes) : bool :=
  let pubkey := CPubKey vchPubKey in
  if negb (PubKey_IsValid pubkey) then false
  else if zlen vchSigIn =? 0 then false
  else
    let nHashType := back vchSigIn in
    let vchSig := removelast vchSigIn in
    let sighash := SignatureHash scriptCode txTo nIn nHashType in
    Verify pubkey sighash vchSig.

Definition tsc_CheckLockTime (nLockTime_ : Z) : bool :=
  if negb (((nLockTime txTo <? LOCKTIME_THRESHOLD) && (nLockTime_ <? LOCKTIME_THRESHOLD)) ||
           ((LOCKTIME_THRESHOLD <=? nLockTime txTo) && (LOCKTIME_THRESHOLD <=? nLockTime_)))
  then false
  else if nLockTime txTo <? nLockTime_ then false
  else negb (CTxIn_IsFinal (input_at txTo nIn)).

Definition TransactionSignatureChecker : BaseSignatureChecker := {|
  CheckSig := tsc_CheckSig;
  CheckLockTime := tsc_CheckLockTime;
  checkColdStake := CheckColdStake txTo
|}.
End Checker.
