(* ===== verification/InterpreterFacts.v ===== *)
(** Properties of the script machine of [Interpreter]: its resource limits, the
    scripts that can never succeed, and what the standard scripts check. *)

From Stdlib Require Import ZArith Lia.
From stdpp Require Import base tactics list numbers strings.
From S2P Require Import Prelude Script HashEngine Sha256 Sha1 Ripemd160 Hash Base58 Standard Serialize Transaction.
From S2P Require Import Interpreter.

(** The end of a round. *)
Definition limit (m : machine) : res ScriptError machine :=
  if 1000 <? zlen (m_stack m) + zlen (m_alt m) then Err SCRIPT_ERR_STACK_SIZE else Ok m.

Definition advance (m : machine) (pc : bytes) (ops : Z) : machine :=
  {| m_pc := pc; m_codehash := m_codehash m; m_stack := m_stack m; m_alt := m_alt m;
     m_exec := m_exec m; m_ops := ops |}.

Lemma p2pkh_bytes id : GetScriptForDestination (CKeyID id)
  = OP_DUP :: OP_HASH160 :: push_data [] id ++ [OP_EQUALVERIFY; OP_CHECKSIG].
Proof. cbn [GetScriptForDestination]. by rewrite push_data_app. Qed.

Lemma push_data20 b : length b = 20%nat -> push_data [] b = 20 :: b.
Proof. intros H. unfold push_data, zlen. by rewrite H. Qed.

Section Facts.
Context (CheckLowS : bytes -> bool) (script : bytes) (flags : Z) (checker : BaseSignatureChecker).

Abbreviation step := (eval_step CheckLowS script flags checker).
Abbreviation loop := (eval_loop CheckLowS script flags checker).
Abbreviation exec := (exec_opcode CheckLowS script flags checker).

(** ** One round, case by case *)

(** An opcode above [OP_16] that is executed. *)
Lemma step_exec o rest m fe :
  m_pc m = o :: rest -> OP_16 < o -> disabled o = false -> forallb id (m_exec m) = fe ->
  fe || ((OP_IF <=? o) && (o <=? OP_ENDIF)) = true -> m_ops m < 201 ->
  step m = let* m1 := exec o fe (advance m rest (m_ops m + 1)) in limit m1.
Proof.
  intros Epc Ho Hd Hf He Hops. unfold eval_step. rewrite Epc, GetOp2_op by (ops; lia).
  cbn [go_ok go_data go_opcode go_pc negb]. rewrite Hf, Hd.
  destruct (Z.ltb_spec OP_16 o); [| lia]. destruct (Z.ltb_spec 201 (m_ops m + 1)); [lia |].
  change (MAX_SCRIPT_ELEMENT_SIZE <? zlen (@nil Z)) with false. cbn [andb].
  destruct (Z.leb_spec o OP_PUSHDATA4); [ops; lia |]. rewrite andb_false_r, He. done.
Qed.

(** An opcode in a branch that is not executed. *)
Lemma step_skip o rest m :
  m_pc m = o :: rest -> OP_16 < o -> disabled o = false -> forallb id (m_exec m) = false ->
  (OP_IF <=? o) && (o <=? OP_ENDIF) = false -> m_ops m < 201 ->
  step m = limit (advance m rest (m_ops m + 1)).
Proof.
  intros Epc Ho Hd Hf He Hops. unfold eval_step. rewrite Epc, GetOp2_op by (ops; lia).
  cbn [go_ok go_data go_opcode go_pc negb]. rewrite Hf, Hd, He.
  destruct (Z.ltb_spec OP_16 o); [| lia]. destruct (Z.ltb_spec 201 (m_ops m + 1)); [lia |]. done.
Qed.

(** A direct push of 20 bytes, executed or not. *)
Lemma step_push20 b rest m : length b = 20%nat -> m_pc m = push_data [] b ++ rest ->
  step m = limit (if forallb id (m_exec m)
                  then with_stack (advance m rest (m_ops m)) (b :: m_stack m) else advance m rest (m_ops m)).
Proof.
  intros Hl Epc. assert (Hz : zlen b = 20) by (unfold zlen; lia).
  unfold eval_step. rewrite Epc, GetOp2_push_data by lia.
  unfold push_opcode. rewrite Hz. cbn [go_ok go_data go_opcode go_pc negb].
  change (20 <? OP_PUSHDATA1) with true. cbn iota.
  change (OP_16 <? 20) with false. change (MAX_SCRIPT_ELEMENT_SIZE <? 20) with false. cbn [andb].
  change (disabled 20) with false. change (20 <=? OP_PUSHDATA4) with true. change (0 <=? 20) with true.
  unfold CheckMinimalPush. rewrite Hz. cbn [Z.eqb Z.leb Z.compare andb Pos.eqb Pos.compare Pos.compare_cont].
  change (20 =? 20) with true. rewrite andb_false_r.
  destruct (forallb id (m_exec m)); cbn [andb orb]; reflexivity.
Qed.

(** ** The loop *)

Lemma loop_step fuel m : m_pc m <> [] -> loop (S fuel) m = let* m1 := step m in loop fuel m1.
Proof.
  intros Hne. cbn [eval_loop]. destruct (Z.eqb_spec (zlen (m_pc m)) 0) as [E |]; [| done].
  destruct (m_pc m) as [| x l]; [done |]. rewrite zlen_cons in E. pose proof (zlen_nonneg l). lia.
Qed.

Lemma loop_end fuel m : m_pc m = [] -> loop fuel m = Ok m.
Proof. intros E. destruct fuel; [done |]. cbn [eval_loop]. by rewrite E. Qed.

Lemma limit_ok m : zlen (m_stack m) + zlen (m_alt m) <= 1000 -> limit m = Ok m.
Proof. intros. unfold limit. destruct (Z.ltb_spec 1000 (zlen (m_stack m) + zlen (m_alt m))); [lia | done]. Qed.

(** What [OP_CHECKSIG] leaves on the stack. *)
Definition checksig_result (code pubkey sig : bytes) (s : list bytes) : res ScriptError (list bytes) :=
  let* _ := CheckSignatureEncoding CheckLowS sig flags in
  let* _ := CheckPubKeyEncoding pubkey flags in
  Ok (vchBool (CheckSig checker sig pubkey (fst (FindAndDelete code (push_data [] sig)))) :: s).

Lemma step_CHECKSIG rest m pubkey sig s :
  m_pc m = OP_CHECKSIG :: rest -> m_exec m = [] -> m_ops m < 201 -> m_stack m = pubkey :: sig :: s ->
  zlen s + zlen (m_alt m) <= 900 ->
  step m = let* s' := checksig_result (m_codehash m) pubkey sig s in
           Ok (with_stack (advance m rest (m_ops m + 1)) s').
Proof.
  intros Epc Ee Ho Es Hl. rewrite (step_exec OP_CHECKSIG rest m true) by (done || by rewrite Ee).
  change (exec OP_CHECKSIG true ?x) with (op_CHECKSIG CheckLowS flags checker OP_CHECKSIG x).
  unfold op_CHECKSIG, checksig_result. cbn [advance m_stack m_codehash]. rewrite Es.
  change (OP_CHECKSIG =? OP_CHECKSIGVERIFY) with false. cbn iota.
  destruct (CheckSignatureEncoding CheckLowS sig flags); [cbn [res_bind] | done].
  destruct (CheckPubKeyEncoding pubkey flags); [cbn [res_bind] | done].
  apply limit_ok. cbn [with_stack m_stack m_alt advance]. rewrite zlen_cons. lia.
Qed.

Lemma step_EQUALVERIFY rest m x2 x1 s :
  m_pc m = OP_EQUALVERIFY :: rest -> m_exec m = [] -> m_ops m < 201 -> m_stack m = x2 :: x1 :: s ->
  zlen s + zlen (m_alt m) <= 900 ->
  step m = if bool_decide (x1 = x2) then Ok (with_stack (advance m rest (m_ops m + 1)) s)
           else Err SCRIPT_ERR_EQUALVERIFY.
Proof.
  intros Epc Ee Ho Es Hl. rewrite (step_exec OP_EQUALVERIFY rest m true) by (done || by rewrite Ee).
  change (exec OP_EQUALVERIFY true ?x) with (lift (op_EQUAL OP_EQUALVERIFY) x).
  unfold lift, op_EQUAL. cbn [advance m_stack]. rewrite Es. change (OP_EQUALVERIFY =? OP_EQUALVERIFY) with true.
  cbn iota. case_bool_decide; [cbn [res_bind] | done].
  apply limit_ok. cbn [with_stack m_stack m_alt advance]. lia.
Qed.

(** The common end of the standard scripts. *)
Lemma loop_EQUALVERIFY_CHECKSIG fuel m h pubkey_hash pubkey sig s :
  m_pc m = [OP_EQUALVERIFY; OP_CHECKSIG] -> m_exec m = [] -> m_ops m < 150 -> (2 <= fuel)%nat ->
  m_stack m = h :: pubkey_hash :: pubkey :: sig :: s -> zlen s + zlen (m_alt m) <= 800 ->
  (let* m1 := loop fuel m in match m_exec m1 with [] => Ok (m_stack m1) | _ => Err SCRIPT_ERR_UNBALANCED_CONDITIONAL end)
  = if bool_decide (pubkey_hash = h) then checksig_result (m_codehash m) pubkey sig s
    else Err SCRIPT_ERR_EQUALVERIFY.
Proof.
  intros Epc Ee Ho Hf Es Hl. destruct fuel as [| [| fuel]]; [lia | lia |].
  rewrite loop_step by (by rewrite Epc).
  rewrite (step_EQUALVERIFY [OP_CHECKSIG] m h pubkey_hash (pubkey :: sig :: s)); try done; [| lia | rewrite !zlen_cons; lia].
  case_bool_decide; [cbn [res_bind] | done].
  rewrite loop_step by done.
  rewrite (step_CHECKSIG [] _ pubkey sig s); try done; [| cbn; lia | cbn [m_alt with_stack advance]; lia].
  cbn [m_codehash with_stack advance]. destruct (checksig_result _ _ _ _) as [s' |]; [cbn [res_bind] | done].
  rewrite loop_end by done. cbn [res_bind m_exec m_stack with_stack advance]. by rewrite Ee.
Qed.
(** ** Rounds of the loop that succeed *)

(** An operation on the stack alone. *)
Lemma loop_lift o f s' rest fuel m :
  m_pc m = o :: rest -> (forall x, exec o true x = lift f x) -> OP_16 < o -> disabled o = false ->
  forallb id (m_exec m) = true -> m_ops m < 201 -> f (m_stack m) = Ok s' ->
  zlen s' + zlen (m_alt m) <= 1000 ->
  loop (S fuel) m = loop fuel (with_stack (advance m rest (m_ops m + 1)) s').
Proof.
  intros Epc Hx Ho Hd He Hops Hf Hl. rewrite loop_step by (by rewrite Epc).
  rewrite (step_exec o rest m true), Hx by done. unfold lift. cbn [advance m_stack]. rewrite Hf. cbn [res_bind].
  by rewrite limit_ok.
Qed.

Lemma loop_push20 b rest fuel m :
  length b = 20%nat -> m_pc m = push_data [] b ++ rest -> zlen (m_stack m) + zlen (m_alt m) <= 999 ->
  loop (S fuel) m = loop fuel (if forallb id (m_exec m)
                  then with_stack (advance m rest (m_ops m)) (b :: m_stack m) else advance m rest (m_ops m)).
Proof.
  intros Hl Epc Hs. rewrite loop_step by (rewrite Epc; by rewrite push_data20). rewrite (step_push20 b rest) by done.
  rewrite limit_ok; [done |]. destruct (forallb id (m_exec m)); cbn [m_stack m_alt with_stack advance]; zl; lia.
Qed.

(** [OP_IF], [OP_ELSE], [OP_ENDIF], which are executed in every branch. *)
Lemma loop_IF v s rest fuel m :
  m_pc m = OP_IF :: rest -> m_exec m = [] -> m_ops m < 201 -> m_stack m = v :: s ->
  zlen s + zlen (m_alt m) <= 1000 ->
  loop (S fuel) m = loop fuel (with_exec (advance m rest (m_ops m + 1)) s [CastToBool v]).
Proof.
  intros Epc Ee Ho Es Hl. rewrite loop_step by (by rewrite Epc).
  rewrite (step_exec OP_IF rest m true) by (done || by rewrite Ee).
  change (exec OP_IF true ?x) with (op_IF OP_IF true x). unfold op_IF. cbn [advance m_stack m_exec]. rewrite Es, Ee.
  change (OP_IF =? OP_NOTIF) with false. cbn [res_bind]. by rewrite limit_ok.
Qed.

Lemma loop_ELSE b vf rest fuel m :
  m_pc m = OP_ELSE :: rest -> m_exec m = b :: vf -> m_ops m < 201 -> zlen (m_stack m) + zlen (m_alt m) <= 1000 ->
  loop (S fuel) m = loop fuel (with_exec (advance m rest (m_ops m + 1)) (m_stack m) (negb b :: vf)).
Proof.
  intros Epc Ee Ho Hl. rewrite loop_step by (by rewrite Epc).
  rewrite (step_exec OP_ELSE rest m (forallb id (m_exec m))) by (done || by rewrite orb_true_r).
  change (exec OP_ELSE ?f ?x) with (op_ELSE x). unfold op_ELSE. cbn [advance m_stack m_exec]. rewrite Ee.
  cbn [res_bind]. by rewrite limit_ok.
Qed.

Lemma loop_ENDIF b vf rest fuel m :
  m_pc m = OP_ENDIF :: rest -> m_exec m = b :: vf -> m_ops m < 201 -> zlen (m_stack m) + zlen (m_alt m) <= 1000 ->
  loop (S fuel) m = loop fuel (with_exec (advance m rest (m_ops m + 1)) (m_stack m) vf).
Proof.
  intros Epc Ee Ho Hl. rewrite loop_step by (by rewrite Epc).
  rewrite (step_exec OP_ENDIF rest m (forallb id (m_exec m))) by (done || by rewrite orb_true_r).
  change (exec OP_ENDIF ?f ?x) with (op_ENDIF x). unfold op_ENDIF. cbn [advance m_stack m_exec]. rewrite Ee.
  cbn [res_bind]. by rewrite limit_ok.
Qed.

(** [OP_CHECKCOLDSTAKEVERIFY], executed or skipped. *)
Lemma loop_CHECKCOLDSTAKEVERIFY rest fuel m :
  m_pc m = OP_CHECKCOLDSTAKEVERIFY :: rest -> m_ops m < 201 -> zlen (m_stack m) + zlen (m_alt m) <= 1000 ->
  loop (S fuel) m =
  if forallb id (m_exec m) && negb (checkColdStake checker script) then Err SCRIPT_ERR_CHECKCOLDSTAKEVERIFY
  else loop fuel (advance m rest (m_ops m + 1)).
Proof.
  intros Epc Ho Hl. rewrite loop_step by (by rewrite Epc). destruct (forallb id (m_exec m)) eqn:Ee.
  - rewrite (step_exec OP_CHECKCOLDSTAKEVERIFY rest m true) by done.
    change (exec OP_CHECKCOLDSTAKEVERIFY ?f ?x) with (op_CHECKCOLDSTAKEVERIFY script checker x).
    unfold op_CHECKCOLDSTAKEVERIFY. destruct (checkColdStake checker script); cbn [negb andb res_bind]; [| done].
    by rewrite limit_ok.
  - rewrite (step_skip OP_CHECKCOLDSTAKEVERIFY rest m) by done. by rewrite limit_ok.
Qed.

Lemma start_script stack :
  zlen script <= MAX_SCRIPT_SIZE ->
  EvalScript CheckLowS script flags checker stack =
  let* m := loop (length script)
    {| m_pc := script; m_codehash := script; m_stack := stack; m_alt := []; m_exec := []; m_ops := 0 |} in
  match m_exec m with [] => Ok (m_stack m) | _ => Err SCRIPT_ERR_UNBALANCED_CONDITIONAL end.
Proof. intros. unfold EvalScript. destruct (Z.ltb_spec MAX_SCRIPT_SIZE (zlen script)); [lia | done]. Qed.

(** ** The standard scripts *)

Lemma eval_p2pkh id pubkey sig rest :
  script = GetScriptForDestination (CKeyID id) -> length id = 20%nat -> zlen rest <= 700 ->
  EvalScript CheckLowS script flags checker (pubkey :: sig :: rest) =
  if bool_decide (Hash160 pubkey = id) then checksig_result script pubkey sig rest
  else Err SCRIPT_ERR_EQUALVERIFY.
Proof.
  intros Es Hid Hr. rewrite p2pkh_bytes in Es.
  assert (Hlen : length script = 25%nat) by (rewrite Es, push_data20 by done; cbn [length]; rewrite length_app; cbn; lia).
  rewrite start_script by (unfold zlen; rewrite Hlen; done). rewrite Hlen.
  pose proof (zlen_nonneg rest).
  erewrite (loop_lift OP_DUP op_DUP); [| exact Es | done .. | cbn [m_alt]; zl; lia].
  erewrite (loop_lift OP_HASH160 (op_hash OP_HASH160)); try done; [| cbn [m_alt with_stack advance]; zl; lia].
  rewrite (loop_push20 id [OP_EQUALVERIFY; OP_CHECKSIG]); try done; [| cbn [m_stack m_alt with_stack advance]; zl; lia].
  cbn [forallb m_exec with_stack advance m_stack].
  rewrite (loop_EQUALVERIFY_CHECKSIG 22 _ id (Hash160 pubkey) pubkey sig rest);
    try done; [lia | cbn [m_alt with_stack advance]; zl; lia].
Qed.

Lemma p2cs_bytes staking spending : GetScriptForStakeDelegation staking spending
  = OP_DUP :: OP_HASH160 :: OP_ROT :: OP_IF :: OP_CHECKCOLDSTAKEVERIFY :: push_data [] staking ++
    OP_ELSE :: push_data [] spending ++ [OP_ENDIF; OP_EQUALVERIFY; OP_CHECKSIG].
Proof.
  unfold GetScriptForStakeDelegation. rewrite !(push_data_app (_ ++ _)), !(push_data_app [_; _; _; _; _]).
  by rewrite <- !app_assoc.
Qed.

(** What a cold-staking output checks, by the branch its spender chooses. *)
Definition p2cs_result (staking spending flag pubkey sig : bytes) (rest : list bytes) :=
  if CastToBool flag then
    if negb (checkColdStake checker script) then Err SCRIPT_ERR_CHECKCOLDSTAKEVERIFY
    else if bool_decide (Hash160 pubkey = staking) then checksig_result script pubkey sig rest
    else Err SCRIPT_ERR_EQUALVERIFY
  else if bool_decide (Hash160 pubkey = spending) then checksig_result script pubkey sig rest
  else Err SCRIPT_ERR_EQUALVERIFY.

Ltac small := cbn [m_stack m_alt m_ops with_stack with_exec advance]; zl; lia.

Lemma eval_p2cs_lemma staking spending flag pubkey sig rest :
  script = GetScriptForStakeDelegation staking spending -> length staking = 20%nat -> length spending = 20%nat ->
  zlen rest <= 700 ->
  EvalScript CheckLowS script flags checker (pubkey :: flag :: sig :: rest) =
  p2cs_result staking spending flag pubkey sig rest.
Proof.
  intros Es H1 H2 Hr. rewrite p2cs_bytes in Es. pose proof (zlen_nonneg rest).
  assert (Hlen : length script = 51%nat).
  { rewrite Es, !push_data20 by done. repeat (cbn [length]; rewrite ?length_app). rewrite H1, H2. reflexivity. }
  rewrite start_script by (unfold zlen; rewrite Hlen; done). rewrite Hlen. unfold p2cs_result.
  erewrite (loop_lift OP_DUP op_DUP); [| exact Es | done .. | small].
  erewrite (loop_lift OP_HASH160 (op_hash OP_HASH160)); [| done .. | small].
  change (if OP_HASH160 =? OP_RIPEMD160 then ?x else _) with (Hash160 pubkey).
  erewrite (loop_lift OP_ROT op_ROT); [| done .. | small].
  erewrite (loop_IF flag); [| done .. | small].
  erewrite loop_CHECKCOLDSTAKEVERIFY; [| done .. | small].
  cbn [forallb m_exec with_exec advance m_stack id andb].
  destruct (CastToBool flag); cbn [andb].
  - destruct (checkColdStake checker script); cbn [negb]; [| done].
    erewrite (loop_push20 staking); [| done .. | small].
    cbn [forallb m_exec with_exec advance m_stack id andb].
    erewrite loop_ELSE; [| done .. | small].
    erewrite (loop_push20 spending); [| done .. | small].
    cbn [forallb m_exec with_exec with_stack advance m_stack id andb negb].
    erewrite loop_ENDIF; [| done .. | small].
    rewrite (loop_EQUALVERIFY_CHECKSIG 42 _ staking (Hash160 pubkey) pubkey sig rest); try done; [lia | small].
  - erewrite (loop_push20 staking); [| done .. | small].
    cbn [forallb m_exec with_exec advance m_stack id andb].
    erewrite loop_ELSE; [| done .. | small].
    erewrite (loop_push20 spending); [| done .. | small].
    cbn [forallb m_exec with_exec with_stack advance m_stack id andb negb].
    erewrite loop_ENDIF; [| done .. | small].
    rewrite (loop_EQUALVERIFY_CHECKSIG 42 _ spending (Hash160 pubkey) pubkey sig rest); try done; [lia | small].
Qed.
End Facts.
