(* ===== verification/ScriptLimits.v ===== *)
(** The limits of the script machine: what every script accepted by
    [EvalScript] satisfies, the scripts that can never be spent, and the
    assertion of [VerifyScript]. *)

From Stdlib Require Import ZArith Lia.
From stdpp Require Import base tactics list numbers strings.
From S2P Require Import Prelude Script HashEngine Sha256 Sha1 Ripemd160 Hash Base58 Standard Serialize Transaction.
From S2P Require Import Interpreter InterpreterFacts.

(** ** Sizes *)

Lemma sha1_Transform_words s c : length (sha1_Transform s c) = 5%nat.
Proof. lazy. reflexivity. Qed.
Lemma ripemd160_Transform_words s c : length (ripemd160_Transform s c) = 5%nat.
Proof. lazy. reflexivity. Qed.

Lemma sha1_ref_length m : length (sha1_ref m) = 20%nat.
Proof.
  unfold sha1_ref, md_hash, absorb. rewrite (flat_map_length _ _ 4) by apply be_bytes_length.
  rewrite (write_blocks_words _ _ _ _ _ 5); [done | apply sha1_Transform_words | done].
Qed.
Lemma ripemd160_ref_length m : length (ripemd160_ref m) = 20%nat.
Proof.
  unfold ripemd160_ref, md_hash, absorb. rewrite (flat_map_length _ _ 4) by apply le_bytes_length.
  rewrite (write_blocks_words _ _ _ _ _ 5); [done | apply ripemd160_Transform_words | done].
Qed.

(** An element within [MAX_SCRIPT_ELEMENT_SIZE]. *)
Definition small (v : bytes) : Prop := zlen v <= MAX_SCRIPT_ELEMENT_SIZE.

Lemma serialize_abs_length fuel a : (length (serialize_abs fuel a) <= fuel)%nat.
Proof. revert a. induction fuel as [| fuel IH]; intros a; cbn; [lia |]. case_match; cbn; [lia |]. specialize (IH (Z.shiftr a 8)). lia. Qed.

Lemma getvch_small n : small (getvch n).
Proof.
  unfold small, getvch, serialize, zlen, MAX_SCRIPT_ELEMENT_SIZE.
  case_match; [cbn; lia |]. cbn zeta. set (r := serialize_abs 8 _).
  assert (length r <= 8)%nat by apply serialize_abs_length.
  repeat case_match; unfold set_back; rewrite ?length_app; cbn [length]; try lia.
  destruct r as [| b l] using rev_ind; [cbn; lia |]. rewrite removelast_last, length_app in *. cbn in *. lia.
Qed.

Lemma vchBool_small b : small (vchBool b).
Proof. by destruct b. Qed.

Lemma small_length v n : length v = n -> Z.of_nat n <= 520 -> small v.
Proof. intros E ?. unfold small, zlen, MAX_SCRIPT_ELEMENT_SIZE. lia. Qed.

Lemma nth_small n l : Forall small l -> small (nth n l []).
Proof.
  intros Hl. destruct (nth_in_or_default n l []) as [Hin | ->]; [| done].
  rewrite List.Forall_forall in Hl. auto.
Qed.

Lemma hash_small o vch s s' : Forall small s -> op_hash o (vch :: s) = Ok s' -> Forall small s'.
Proof.
  intros Hs. unfold op_hash. intros E. injection E as <-. constructor; [| done].
  repeat case_match.
  - eapply small_length; [rewrite ripemd160_eq; apply ripemd160_ref_length | lia].
  - eapply small_length; [rewrite sha1_eq; apply sha1_ref_length | lia].
  - eapply small_length; [rewrite sha256_eq; apply sha256_ref_length | lia].
  - eapply small_length; [rewrite Hash160_ref; apply ripemd160_ref_length | lia].
  - eapply small_length; [unfold Hash; rewrite Hash_ranges_ref; apply sha256_ref_length | lia].
Qed.

#[local] Hint Resolve getvch_small vchBool_small : core.

(** ** Frame: what one opcode can change *)

Section Frame.
Context (CheckLowS : bytes -> bool) (script : bytes) (flags : Z) (checker : BaseSignatureChecker).

Definition elements_small (m : machine) : Prop := Forall small (m_stack m) /\ Forall small (m_alt m).

Definition frame (m m' : machine) : Prop :=
  m_pc m' = m_pc m /\ m_ops m <= m_ops m' /\ (m_ops m <= 201 -> m_ops m' <= 201) /\
  (elements_small m -> elements_small m').

Lemma frame_refl m : frame m m.
Proof. unfold frame. split_and!; try done; lia. Qed.

Ltac inv_all := repeat match goal with
  | H : Forall _ (_ :: _) |- _ => apply Forall_cons_1 in H as [? H]
  | H : res_bind ?x _ = Ok _ |- _ => apply res_bind_Ok in H as (? & ? & H)
  | H : Ok _ = Ok _ |- _ => injection H as H; try subst
  | H : Err _ = Ok _ |- _ => discriminate H
  | H : bad_stack = Ok _ |- _ => discriminate H
  end.

(** An operation on the stack keeps its elements small. *)
Definition keeps (f : list bytes -> res ScriptError (list bytes)) : Prop :=
  forall s s', Forall small s -> f s = Ok s' -> Forall small s'.

Lemma lift_frame f m m' : keeps f -> lift f m = Ok m' -> frame m m'.
Proof.
  intros Hf E. unfold lift in E. inv_all. unfold frame, elements_small. cbn [with_stack m_pc m_ops m_stack m_alt].
  split_and!; try done. intros []. split; [eapply Hf; [| eassumption]; done | done].
Qed.

Ltac keeps_tac := intros s s' Hs E; inv_all; repeat (case_match; inv_all); repeat constructor; auto;
  repeat case_match; repeat constructor; auto.

Lemma stack_ops_keep : keeps op_VERIFY /\ keeps op_2DROP /\ keeps op_2DUP /\ keeps op_3DUP /\ keeps op_2OVER
  /\ keeps op_2ROT /\ keeps op_2SWAP /\ keeps op_IFDUP /\ keeps op_DEPTH /\ keeps op_DROP /\ keeps op_DUP
  /\ keeps op_NIP /\ keeps op_OVER /\ keeps op_ROT /\ keeps op_SWAP /\ keeps op_TUCK /\ keeps op_SIZE.
Proof.
  unfold op_VERIFY, op_2DROP, op_2DUP, op_3DUP, op_2OVER, op_2ROT, op_2SWAP, op_IFDUP, op_DEPTH, op_DROP, op_DUP,
    op_NIP, op_OVER, op_ROT, op_SWAP, op_TUCK, op_SIZE.
  split_and!; keeps_tac.
Qed.

Lemma PICK_ROLL_keeps o : keeps (op_PICK_ROLL flags o).
Proof.
  intros s s' Hs E. unfold op_PICK_ROLL in E. destruct s as [| top [| x s]]; inv_all.
  cbn zeta in E. destruct (_ || _) in E; inv_all.
  change (drop 1 (top :: x :: s)) with (x :: s). assert (Forall small (x :: s)) by (by constructor).
  constructor; [by apply (nth_small (Z.to_nat (getint x0)) (x :: s)) |].
  destruct (_ =? _); [| done]. apply Forall_app. split; [by apply Forall_take | by apply Forall_drop].
Qed.

Lemma numeric_keep o : keeps (op_EQUAL o) /\ keeps (op_unary flags o) /\ keeps (op_binary flags o) /\ keeps (op_WITHIN flags)
  /\ keeps (op_hash o).
Proof.
  split_and!.
  - unfold op_EQUAL. keeps_tac.
  - unfold op_unary. keeps_tac.
  - unfold op_binary. keeps_tac.
  - unfold op_WITHIN. keeps_tac.
  - intros [| v s] s' Hs E; [discriminate |]. apply Forall_cons_1 in Hs as [_ Hs]. by eapply hash_small.
Qed.

Ltac frame_tac := unfold frame, elements_small;
  cbn [with_stack with_exec op_CODESEPARATOR m_pc m_ops m_stack m_alt m_exec];
  split_and!; try done; try lia; intros [? ?]; inv_all; split; auto; repeat constructor; auto.

Lemma checksig_frame o m m' : op_CHECKSIG CheckLowS flags checker o m = Ok m' -> frame m m'.
Proof.
  intros E. unfold op_CHECKSIG in E. destruct m as [pc ch st alt ex ops]. cbn [m_stack m_codehash] in E.
  destruct st as [| pk [| sg st]]; inv_all. cbn zeta in E. repeat case_match; inv_all; frame_tac.
Qed.

Lemma multisig_frame o m m' : op_CHECKMULTISIG CheckLowS flags checker o m = Ok m' -> frame m m'.
Proof.
  intros E. unfold op_CHECKMULTISIG in E. destruct m as [pc ch st alt ex ops]. cbn [m_stack m_codehash m_ops m_pc m_alt m_exec] in E.
  cbn zeta in E. bcase_in E; inv_all. bcase_in E; inv_all. bcase_in E; inv_all. bcase_in E; inv_all.
  bcase_in E; inv_all. bcase_in E; inv_all.
  assert (Hd : forall n, Forall small st -> Forall small (drop n st)) by (intros; by apply Forall_drop).
  destruct (drop _ st) as [| dummy st'] eqn:Ed; inv_all.
  bcase_in E; inv_all. unfold frame, elements_small.
  assert (Hs : Forall small st -> Forall small st').
  { intros Hs. apply (Hd (Z.to_nat (2 + getint x + 1 + getint x0 - 1))) in Hs. rewrite Ed in Hs. by inv_all. }
  destruct (o =? OP_CHECKMULTISIGVERIFY); [destruct x1; inv_all | inv_all];
    cbn [with_stack m_pc m_ops m_stack m_alt m_exec]; split_and!; try done; try lia; intros [? ?]; split; auto.
Qed.

Lemma control_frame o fe m m' :
  (op_CHECKLOCKTIMEVERIFY flags checker m = Ok m' -> frame m m')
  /\ (op_NOPs flags m = Ok m' -> frame m m')
  /\ (op_IF o fe m = Ok m' -> frame m m')
  /\ (op_ELSE m = Ok m' -> frame m m')
  /\ (op_ENDIF m = Ok m' -> frame m m')
  /\ (op_TOALTSTACK m = Ok m' -> frame m m')
  /\ (op_FROMALTSTACK m = Ok m' -> frame m m')
  /\ (op_CHECKCOLDSTAKEVERIFY script checker m = Ok m' -> frame m m').
Proof.
  unfold op_CHECKLOCKTIMEVERIFY, op_NOPs, op_IF, op_ELSE, op_ENDIF, op_TOALTSTACK, op_FROMALTSTACK, op_CHECKCOLDSTAKEVERIFY.
  destruct m as [pc ch st alt ex ops]. cbn [m_stack m_exec m_alt m_pc m_ops m_codehash].
  split_and!; intros E; repeat (case_match; inv_all); inv_all; first [apply frame_refl | frame_tac].
Qed.

Lemma const_frame m n : frame m (with_stack m (getvch n :: m_stack m)).
Proof. frame_tac. Qed.
Lemma codeseparator_frame m : frame m (op_CODESEPARATOR m).
Proof. frame_tac. Qed.

Lemma exec_frame o fe m m' : exec_opcode CheckLowS script flags checker o fe m = Ok m' -> frame m m'.
Proof.
  destruct stack_ops_keep as (?&?&?&?&?&?&?&?&?&?&?&?&?&?&?&?&?).
  destruct (numeric_keep o) as (?&?&?&?&?). pose proof (PICK_ROLL_keeps o).
  destruct (control_frame o fe m m') as (?&?&?&?&?&?&?&?).
  unfold exec_opcode, exec_control, exec_stack, exec_numeric, exec_crypto.
  repeat (case_match; simplify_eq); intros E; unfold from_option, id in E; inv_all;
    first [apply const_frame | apply codeseparator_frame | by auto | by (eapply lift_frame; [| exact E]) | by eapply checksig_frame | by eapply multisig_frame | apply frame_refl].
Qed.

(** ** One round, and the loop *)

(** An opcode read from the script, with its data. *)
Definition allowed (op : Z * bytes) : Prop := disabled (fst op) = false /\ small (snd op).

Definition counted (l : list (Z * bytes)) : Z := zlen (List.filter (fun op => OP_16 <? fst op) l).

Lemma counted_cons op l : counted (op :: l) = (if OP_16 <? fst op then 1 else 0) + counted l.
Proof. unfold counted. cbn [List.filter]. case_match; [by rewrite zlen_cons | lia]. Qed.

Definition depth (m : machine) : Z := zlen (m_stack m) + zlen (m_alt m).

Lemma step_limits m m' : eval_step CheckLowS script flags checker m = Ok m' ->
  let g := GetOp2 (m_pc m) in
  go_ok g = true /\ allowed (go_opcode g, go_data g) /\ m_pc m' = go_pc g /\
  m_ops m + (if OP_16 <? go_opcode g then 1 else 0) <= m_ops m' /\
  (m_ops m <= 201 -> m_ops m' <= 201) /\ depth m' <= 1000 /\ (elements_small m -> elements_small m').
Proof.
  intros E. cbn zeta. unfold eval_step in E. set (g := GetOp2 (m_pc m)) in *. cbn zeta in E.
  set (n := if OP_16 <? go_opcode g then m_ops m + 1 else m_ops m) in *.
  bcase_in E; inv_all. bcase_in E; inv_all. bcase_in E; inv_all. bcase_in E; inv_all.
  set (m1 := {| m_pc := go_pc g |}) in *.
  bcase_in E; inv_all.
  assert (Hf : (small (go_data g) -> elements_small m -> elements_small m') /\ m_pc m' = go_pc g /\
               m_ops m1 <= m_ops m' /\ (m_ops m1 <= 201 -> m_ops m' <= 201)).
  { bcase_in H; [bcase_in H; inv_all; split_and!; try done; intros ? []; split; [constructor |]; done |].
    bcase_in H; [| inv_all; by split_and!].
    apply exec_frame in H as (Hp & Ho & Ho2 & Hs). by split_and!. }
  destruct Hf as (Hs & Hp & Ho & Ho2). cbn [m1 m_ops] in *.
  assert (Hsm : small (go_data g)) by (unfold small; lia).
  split_and!; [done | by split | done | | | unfold depth; lia | by apply Hs].
  - subst n. case_match; lia.
  - intros. apply Ho2. subst n. destruct (OP_16 <? go_opcode g) eqn:?; [| done]. bprop. destruct_or?; [done | bprop; lia].
Qed.

Lemma loop_limits fuel m m' :
  is_bytes (m_pc m) -> (length (m_pc m) <= fuel)%nat -> m_ops m <= 201 ->
  eval_loop CheckLowS script flags checker fuel m = Ok m' ->
  exists l, GetOps fuel (m_pc m) = (l, true) /\ Forall allowed l /\ m_ops m + counted l <= m_ops m' <= 201 /\
    (elements_small m -> elements_small m') /\ (depth m <= 1000 -> depth m' <= 1000).
Proof.
  revert m. induction fuel as [| fuel IH]; intros m Hb Hl Ho E.
  - destruct (m_pc m) eqn:Ep; [| cbn in Hl; lia]. injection E as <-. exists []. cbn [GetOps].
    rewrite bool_decide_true by done. change (counted []) with 0. split_and!; done || lia.
  - cbn [eval_loop GetOps] in *. destruct (Z.eqb_spec (zlen (m_pc m)) 0) as [E0 | Hne].
    + destruct (m_pc m); [| unfold zlen in E0; cbn in E0; lia]. injection E as <-. exists [].
      rewrite bool_decide_true by done. change (counted []) with 0. split_and!; done || lia.
    + apply res_bind_Ok in E as (m1 & E1 & E). apply step_limits in E1 as (Hk & Ha & Hp & H1 & H2 & H3 & H4).
      assert (m_pc m <> []) by (intros E0; rewrite E0 in Hne; done). rewrite bool_decide_false by done.
      pose proof (GetOp2_length (m_pc m) Hb ltac:(done)). rewrite Hk.
      destruct (IH m1) as (l & El & Ha' & Hc & Hs & Hd); [rewrite Hp; by apply GetOp2_bytes | rewrite Hp; lia | auto | done |].
      rewrite <- Hp, El. eexists. split; [done |]. rewrite counted_cons. cbn [fst]. split_and!; [by constructor | lia | lia | auto | auto].
Qed.
End Frame.

(** C37: a script that [EvalScript] accepts is at most 10,000 bytes, reads to its
    end with [GetOp], contains no disabled opcode and no push over 520 bytes
    (in branches that are not executed too), has at most 201 opcodes above
    [OP_16], and leaves at most 1,000 elements, none over 520 bytes, when it is
    started within these limits. *)
Theorem EvalScript_limits CheckLowS (script : bytes) (flags : Z) checker (stack stack' : list bytes) :
  is_bytes script -> EvalScript CheckLowS script flags checker stack = Ok stack' ->
  zlen script <= MAX_SCRIPT_SIZE /\
  (exists l, ops_of script = (l, true) /\ Forall allowed l /\ counted l <= 201) /\
  (Forall small stack -> Forall small stack') /\ (zlen stack <= 1000 -> zlen stack' <= 1000).
Proof.
  intros Hb E. unfold EvalScript in E. bcase_in E; [discriminate |].
  apply res_bind_Ok in E as (m & E1 & E). apply loop_limits in E1; [| done | done | cbn; lia].
  destruct E1 as (l & El & Ha & Hc & Hs & Hd). cbn [m_ops m_pc] in *.
  destruct (m_exec m); [injection E as <- | discriminate].
  split_and!; [done | exists l; split_and!; [done | done | lia] | | ].
  - intros. by apply Hs.
  - unfold depth in Hd. cbn [m_stack m_alt] in Hd. change (zlen (@nil bytes)) with 0 in Hd.
    pose proof (zlen_nonneg (m_alt m)). lia.
Qed.

Lemma EvalScript_limits_witness :
  is_bytes [OP_1; OP_DUP] /\ EvalScript (fun _ => true) [OP_1; OP_DUP] 0 (Build_BaseSignatureChecker (fun _ _ _ => false) (fun _ => false) (fun _ => false)) [] = Ok [[1]; [1]]
  /\ (Forall small [] -> Forall small [[1]; [1]]).
Proof.
  assert (Hb : is_bytes [OP_1; OP_DUP]) by (repeat constructor; ops; lia).
  assert (E : EvalScript (fun _ => true) [OP_1; OP_DUP] 0 (Build_BaseSignatureChecker (fun _ _ _ => false) (fun _ => false) (fun _ => false)) [] = Ok [[1]; [1]]) by reflexivity.
  split_and!; [exact Hb | exact E |].
  destruct (EvalScript_limits _ _ _ _ _ _ Hb E) as (_ & _ & H & _). exact H.
Defined.

(** ** Scripts that can never be satisfied *)

Section Never.
Context (CheckLowS : bytes -> bool) (script : bytes) (flags : Z) (checker : BaseSignatureChecker).

(** A first opcode that fails fails the script. *)
Lemma first_op_fails o rest stack e :
  script = o :: rest -> OP_16 < o -> disabled o = false ->
  (forall m, m_stack m = stack -> exec_opcode CheckLowS script flags checker o true m = Err e) ->
  exists e', EvalScript CheckLowS script flags checker stack = Err e' /\ (e' = e \/ e' = SCRIPT_ERR_SCRIPT_SIZE).
Proof.
  intros Es Ho Hd Hx. unfold EvalScript. case_match; [eauto |]. exists e. split; [| by left].
  assert (Hl : length script = S (length rest)) by (by rewrite Es). rewrite Hl.
  rewrite loop_step by (cbn [m_pc]; by rewrite Es).
  rewrite (step_exec _ _ _ _ o rest _ true) by done. by rewrite Hx.
Qed.

Lemma unspendable_fails stack : IsUnspendable script = true ->
  exists e, EvalScript CheckLowS script flags checker stack = Err e /\ (e = SCRIPT_ERR_OP_RETURN \/ e = SCRIPT_ERR_SCRIPT_SIZE).
Proof.
  unfold IsUnspendable. intros [H | H]%orb_true_iff.
  - destruct script as [| o rest] eqn:Es; [done |]. rewrite <- Es.
    apply andb_true_iff in H as [_ H]. apply Z.eqb_eq in H. change (o = OP_RETURN) in H. rewrite H in Es.
    by apply (first_op_fails OP_RETURN rest).
  - exists SCRIPT_ERR_SCRIPT_SIZE. split; [| by right]. unfold EvalScript. by rewrite H.
Qed.

Lemma p2sh_empty_fails : IsPayToScriptHash script = true ->
  exists e, EvalScript CheckLowS script flags checker [] = Err e.
Proof.
  intros H. unfold IsPayToScriptHash in H. apply andb_true_iff in H as [H _].
  apply andb_true_iff in H as [H _]. apply andb_true_iff in H as [H0 H].
  destruct script as [| o rest] eqn:Es; [done |]. rewrite <- Es. apply Z.eqb_eq in H.
  change (o = OP_HASH160) in H. rewrite H in Es.
  destruct (first_op_fails OP_HASH160 rest [] SCRIPT_ERR_INVALID_STACK_OPERATION Es) as (e & He & _);
    [done | done | | by exists e].
  intros m Hm. change (exec_opcode CheckLowS script flags checker OP_HASH160 true m) with (lift (op_hash OP_HASH160) m).
  unfold lift. by rewrite Hm.
Qed.
End Never.

(** an output that [IsUnspendable] prunes from the coin database can be
    spent by no input: evaluation fails on every stack, for every flags and
    every signature checker. *)
Theorem IsUnspendable_fails CheckLowS (script : bytes) (flags : Z) checker (stack : list bytes) :
  IsUnspendable script = true ->
  exists e, EvalScript CheckLowS script flags checker stack = Err e
    /\ (e = SCRIPT_ERR_OP_RETURN \/ e = SCRIPT_ERR_SCRIPT_SIZE).
Proof. apply unspendable_fails. Qed.

Lemma IsUnspendable_fails_witness :
  exists e, EvalScript (fun _ => true) [OP_RETURN; OP_1] 0
    (Build_BaseSignatureChecker (fun _ _ _ => false) (fun _ => false) (fun _ => false)) [] = Err e
    /\ (e = SCRIPT_ERR_OP_RETURN \/ e = SCRIPT_ERR_SCRIPT_SIZE).
Proof. apply IsUnspendable_fails. reflexivity. Defined.

(** [VerifyScript] always returns: the [assert(!stackCopy.empty())] of the
    P2SH branch cannot fail, whatever the two scripts. *)
Theorem VerifyScript_returns CheckLowS (scriptSig scriptPubKey : bytes) (flags : Z) checker :
  VerifyScript CheckLowS scriptSig scriptPubKey flags checker <> None.
Proof.
  unfold VerifyScript. case_match; [done |]. case_match; [| done].
  destruct (EvalScript CheckLowS scriptPubKey flags checker a) eqn:E; [| done].
  case_match; [| done]. destruct (has flags SCRIPT_VERIFY_P2SH && IsPayToScriptHash scriptPubKey) eqn:Hp; [| done].
  apply andb_true_iff in Hp as [_ Hp]. case_match; [done |].
  destruct a; [| by case_match]. destruct (p2sh_empty_fails CheckLowS scriptPubKey flags checker Hp) as [e He].
  by rewrite He in E.
Qed.

(** the loop of [EvalScript] ends: every round consumes a byte of the script,
    so as many rounds as the script has bytes leave the same result as any larger
    number, and a run that raises no error has read the script to its end. *)
Theorem eval_loop_ends CheckLowS (script : bytes) (flags : Z) checker (fuel : nat) (m : machine) :
  is_bytes (m_pc m) -> (length (m_pc m) <= fuel)%nat ->
  eval_loop CheckLowS script flags checker fuel m = eval_loop CheckLowS script flags checker (length (m_pc m)) m /\
  (forall m', eval_loop CheckLowS script flags checker fuel m = Ok m' -> m_pc m' = []).
Proof.
  revert m. induction fuel as [fuel IH] using lt_wf_ind; intros m Hb Hl.
  destruct (m_pc m) as [| c pc] eqn:Ep.
  { rewrite !loop_end by done. split; [done |]. by intros m' [= <-]. }
  destruct fuel as [| fuel]; [cbn in Hl; lia |]. cbn [length] in *. rewrite !loop_step by (by rewrite Ep).
  destruct (eval_step CheckLowS script flags checker m) as [m1 |] eqn:E1; cbn [res_bind]; [| by split].
  apply step_limits in E1 as (_ & _ & Hp & _). rewrite Ep in Hp.
  pose proof (GetOp2_length (c :: pc) Hb ltac:(done)) as Hlen. pose proof (GetOp2_bytes _ Hb) as Hb1. rewrite <- Hp in Hlen, Hb1.
  cbn [length] in Hlen. destruct (IH fuel ltac:(lia) m1 Hb1 ltac:(lia)) as [-> H].
  destruct (IH (length pc) ltac:(lia) m1 Hb1 ltac:(lia)) as [-> _]. split; [done |].
  intros m' E. by apply H.
Qed.

Lemma eval_loop_ends_witness :
  let m := {| m_pc := [OP_1; OP_DUP]; m_codehash := []; m_stack := []; m_alt := []; m_exec := []; m_ops := 0 |} in
  let run n := eval_loop (fun _ => true) [OP_1; OP_DUP] 0 (Build_BaseSignatureChecker (fun _ _ _ => false) (fun _ => false) (fun _ => false)) n m in
  run 7%nat = run 2%nat.
Proof.
  refine (proj1 (eval_loop_ends _ _ _ _ 7 {| m_pc := [OP_1; OP_DUP]; m_codehash := []; m_stack := []; m_alt := []; m_exec := []; m_ops := 0 |} _ _)).
  - repeat constructor; ops; lia.
  - cbn. lia.
Defined.
