(* ===== verification/Spending.v ===== *)
(** What the standard outputs check: [VerifyScript] of the usual input scripts
    against the scripts that [GetScriptForDestination] and
    [GetScriptForStakeDelegation] build. *)

From Stdlib Require Import ZArith Lia.
From stdpp Require Import base tactics list numbers strings.
From S2P Require Import Prelude Script HashEngine Sha256 Sha1 Ripemd160 Hash Base58 Standard Serialize Transaction.
From S2P Require Import Interpreter InterpreterFacts.

(** A vector whose push is minimal under [SCRIPT_VERIFY_MINIMALDATA] and fits in
    an element: signatures and public keys are. *)
Definition pushable (b : bytes) : Prop := is_bytes b /\ (zlen b = 0 \/ 2 <= zlen b <= 520).

Lemma pushable_ok b : pushable b -> item_ok (Push b).
Proof. intros [? ?]. split; [done | lia]. Qed.

Section Spend.
Context (CheckLowS : bytes -> bool) (script : bytes) (flags : Z) (checker : BaseSignatureChecker).

Lemma loop_push b rest fuel m :
  pushable b -> m_pc m = push_data [] b ++ rest -> m_exec m = [] -> zlen (m_stack m) + zlen (m_alt m) <= 999 ->
  eval_loop CheckLowS script flags checker (S fuel) m
  = eval_loop CheckLowS script flags checker fuel (with_stack (advance m rest (m_ops m)) (b :: m_stack m)).
Proof.
  intros [Hb Hl] Epc Ee Hs. pose proof (zlen_nonneg b).
  rewrite loop_step. 2:{ rewrite Epc. pose proof (item_bytes_nonnil (Push b)). cbn [item_bytes] in *. by destruct (push_data [] b). }
  unfold eval_step. rewrite Epc, GetOp2_push_data by lia. cbn [go_ok go_data go_opcode go_pc negb]. rewrite Ee.
  assert (Ho : 0 <= push_opcode (zlen b) <= 78) by (unfold push_opcode; ops; repeat case_match; bprop; lia).
  destruct (Z.ltb_spec MAX_SCRIPT_ELEMENT_SIZE (zlen b)) as [Hbig | _]; [unfold MAX_SCRIPT_ELEMENT_SIZE in Hbig; lia |].
  assert (Hm : CheckMinimalPush b (push_opcode (zlen b)) = true).
  { unfold CheckMinimalPush, push_opcode. ops. destruct (Z.eqb_spec (zlen b) 0) as [-> | ?]; [done |].
    destruct (Z.eqb_spec (zlen b) 1); [lia |]. cbn [andb].
    repeat bcase; bprop; lia. }
  destruct (Z.ltb_spec OP_16 (push_opcode (zlen b))); [ops; lia |]. cbn [andb forallb].
  assert (Hd : disabled (push_opcode (zlen b)) = false).
  { unfold disabled, one_of. cbn [existsb]. ops. repeat (rewrite (proj2 (Z.eqb_neq _ _)) by lia). done. }
  rewrite Hd. destruct (Z.leb_spec 0 (push_opcode (zlen b))); [| lia].
  destruct (Z.leb_spec (push_opcode (zlen b)) OP_PUSHDATA4); [| ops; lia]. rewrite Hm, andb_false_r.
  cbn [andb negb res_bind]. rewrite (proj2 (Z.ltb_ge _ _)). { unfold advance. by rewrite Ee. }
  cbn [m_stack m_alt with_stack]. zl. lia.
Qed.

(** [OP_1], the flag of the staking branch. *)
Lemma loop_OP_1 rest fuel m :
  m_pc m = OP_1 :: rest -> m_exec m = [] -> zlen (m_stack m) + zlen (m_alt m) <= 999 ->
  eval_loop CheckLowS script flags checker (S fuel) m
  = eval_loop CheckLowS script flags checker fuel (with_stack (advance m rest (m_ops m)) ([1] :: m_stack m)).
Proof.
  intros Epc Ee Hs. rewrite loop_step by (by rewrite Epc).
  destruct m as [pc ch st alt ex ops]. cbn [m_pc m_exec m_stack m_alt] in *. subst pc ex.
  set (m' := with_stack _ _). assert (E : eval_step CheckLowS script flags checker
    {| m_pc := OP_1 :: rest; m_codehash := ch; m_stack := st; m_alt := alt; m_exec := []; m_ops := ops |} = limit m')
    by reflexivity.
  rewrite E, limit_ok; [done |]. cbn [m' m_stack m_alt with_stack advance]. zl. lia.
Qed.
End Spend.

(** ** Input scripts *)

(** The staking flag: [OP_1] for the staker, [OP_0] for the owner. *)
Definition flag_item (stake : bool) : item := if stake then Op OP_1 else Push [].
Definition flag_elem (stake : bool) : bytes := if stake then [1] else [].

Lemma push_length b : pushable b -> (1 <= length (push_data [] b) <= 523)%nat.
Proof.
  intros [_ Hb]. assert (length b <= 520)%nat by (unfold zlen in Hb; lia).
  unfold push_data. repeat case_match; rewrite ?length_app; cbn [length le_bytes]; bprop; try lia.
Qed.

Section Inputs.
Context (CheckLowS : bytes -> bool) (flags : Z) (checker : BaseSignatureChecker).

Lemma eval_two_pushes sig pubkey : pushable sig -> pushable pubkey ->
  EvalScript CheckLowS (script_of [Push sig; Push pubkey]) flags checker [] = Ok [pubkey; sig].
Proof.
  intros Hs Hp. pose proof (push_length sig Hs) as H1. pose proof (push_length pubkey Hp) as H2.
  set (script := script_of _). assert (Es : script = push_data [] sig ++ push_data [] pubkey ++ []) by done.
  assert (Hl : length script = (length (push_data [] sig) + length (push_data [] pubkey))%nat)
    by (rewrite Es, !length_app; cbn [length]; lia).
  rewrite start_script by (unfold zlen, MAX_SCRIPT_SIZE; lia).
  destruct (length script) as [| [| fuel]]; [lia | lia |].
  erewrite (loop_push _ _ _ _ sig); [| done | exact Es | done ..].
  erewrite (loop_push _ _ _ _ pubkey); [| done ..].
  by rewrite loop_end.
Qed.

Lemma eval_flag_pushes sig pubkey stake : pushable sig -> pushable pubkey ->
  EvalScript CheckLowS (script_of [Push sig; flag_item stake; Push pubkey]) flags checker []
  = Ok [pubkey; flag_elem stake; sig].
Proof.
  intros Hs Hp. pose proof (push_length sig Hs) as H1. pose proof (push_length pubkey Hp) as H2.
  set (script := script_of _).
  assert (Es : script = push_data [] sig ++ item_bytes (flag_item stake) ++ push_data [] pubkey ++ []) by done.
  assert (Hi : length (item_bytes (flag_item stake)) = 1%nat) by (by destruct stake).
  assert (Hl : length script = (length (push_data [] sig) + 1 + length (push_data [] pubkey))%nat)
    by (rewrite Es, !length_app, Hi; cbn [length]; lia).
  rewrite start_script by (unfold zlen, MAX_SCRIPT_SIZE; lia).
  destruct (length script) as [| [| [| fuel]]]; [lia | lia | lia |].
  erewrite (loop_push _ _ _ _ sig); [| done | exact Es | done ..].
  destruct stake; cbn [flag_item flag_elem item_bytes].
  - erewrite loop_OP_1; [| done ..]. erewrite (loop_push _ _ _ _ pubkey); [| done ..]. by rewrite loop_end.
  - erewrite (loop_push _ _ _ _ []); [| split; [constructor | by left] | done ..].
    erewrite (loop_push _ _ _ _ pubkey); [| done ..]. by rewrite loop_end.
Qed.

(** [CheckSig] of an input, as an error code. *)
Definition spend_result (code pubkey sig : bytes) : res ScriptError unit :=
  let* _ := CheckSignatureEncoding CheckLowS sig flags in
  let* _ := CheckPubKeyEncoding pubkey flags in
  if CheckSig checker sig pubkey code then Ok tt else Err SCRIPT_ERR_EVAL_FALSE.

Lemma checksig_top code pubkey sig rest :
  fst (FindAndDelete code (push_data [] sig)) = code ->
  (let* s := checksig_result CheckLowS flags checker code pubkey sig rest in top_true s) = spend_result code pubkey sig.
Proof.
  intros E. unfold checksig_result, spend_result. rewrite E.
  destruct (CheckSignatureEncoding CheckLowS sig flags); [cbn [res_bind] | done].
  destruct (CheckPubKeyEncoding pubkey flags); [cbn [res_bind] | done]. by destruct (CheckSig _ _ _ _).
Qed.

Lemma push_only l : Forall item_ok l -> Forall (fun i => fst (item_op i) <= OP_16) l -> IsPushOnly (script_of l) = true.
Proof.
  intros Hl Ho. unfold IsPushOnly, ops_of. rewrite GetOps_script_of by done. cbn [andb].
  apply forallb_forall. intros op (i & <- & Hi)%in_map_iff. rewrite List.Forall_forall in Ho.
  specialize (Ho i Hi). apply negb_true_iff, Z.ltb_ge. lia.
Qed.

Lemma push_item_low b : pushable b -> fst (item_op (Push b)) <= OP_16.
Proof. intros _. cbn [item_op fst]. unfold push_opcode. ops. repeat case_match; bprop; lia. Qed.

Lemma flag_ok stake : item_ok (flag_item stake) /\ fst (item_op (flag_item stake)) <= OP_16.
Proof.
  destruct stake; (split; [| by vm_compute]); cbn [item_ok flag_item].
  - ops. lia.
  - split; [constructor | done].
Qed.

(** An output that is not P2SH, under any flags. *)
Lemma VerifyScript_plain scriptSig scriptPubKey stack :
  IsPushOnly scriptSig = true -> IsPayToScriptHash scriptPubKey = false ->
  EvalScript CheckLowS scriptSig flags checker [] = Ok stack ->
  VerifyScript CheckLowS scriptSig scriptPubKey flags checker
  = Some (let* s := EvalScript CheckLowS scriptPubKey flags checker stack in top_true s).
Proof.
  intros H1 H2 E. unfold VerifyScript. rewrite H1, H2, E. rewrite !andb_false_r. cbn [negb].
  destruct (EvalScript CheckLowS scriptPubKey flags checker stack) as [s |]; [cbn [res_bind] | done].
  by destruct (top_true s) as [[] |].
Qed.

(** Deleting a signature from a script it does not occur in. *)
Lemma FindAndDelete_other l sig : Forall item_ok l -> item_ok (Push sig) -> Push sig ∉ l ->
  fst (FindAndDelete (script_of l) (push_data [] sig)) = script_of l.
Proof.
  intros Hl Hs Hn. change (push_data [] sig) with (item_bytes (Push sig)).
  rewrite FindAndDelete_script_of by done. cbn [fst]. f_equal.
  clear Hl. induction l as [| i l IH]; [done |]. apply not_elem_of_cons in Hn as [Hi Hn].
  rewrite filter_cons_True by (intros ->; done). by rewrite IH.
Qed.

(** ** Spending *)

Definition p2pkh_items (id : bytes) : list item := [Op OP_DUP; Op OP_HASH160; Push id; Op OP_EQUALVERIFY; Op OP_CHECKSIG].

Definition p2cs_items (staking spending : bytes) : list item :=
  [Op OP_DUP; Op OP_HASH160; Op OP_ROT; Op OP_IF; Op OP_CHECKCOLDSTAKEVERIFY; Push staking; Op OP_ELSE;
   Push spending; Op OP_ENDIF; Op OP_EQUALVERIFY; Op OP_CHECKSIG].

Lemma p2pkh_script id : GetScriptForDestination (CKeyID id) = script_of (p2pkh_items id).
Proof. by rewrite p2pkh_bytes. Qed.
Lemma p2cs_script staking spending : GetScriptForStakeDelegation staking spending = script_of (p2cs_items staking spending).
Proof. by rewrite p2cs_bytes. Qed.

Lemma id_ok id : is_bytes id -> length id = 20%nat -> item_ok (Push id).
Proof. intros. split; [done |]. unfold zlen. lia. Qed.

Lemma not_pushed sig id : length id = 20%nat -> zlen sig <> 20 -> Push sig <> Push id.
Proof. intros Hl Hs [= ->]. unfold zlen in Hs. lia. Qed.
End Inputs.

(** C33: a pay-to-public-key-hash output accepts an input that pushes a signature
    and a public key exactly when the key hashes to the output's id and the
    encoding rules of the flags and [CheckSig] over the output's script accept
    them; the error of each case. *)
Theorem VerifyScript_p2pkh CheckLowS (flags : Z) checker (id sig pubkey : bytes) :
  is_bytes id -> length id = 20%nat -> pushable sig -> pushable pubkey -> zlen sig <> 20 ->
  let script := GetScriptForDestination (CKeyID id) in
  VerifyScript CheckLowS (script_of [Push sig; Push pubkey]) script flags checker
  = Some (if bool_decide (Hash160 pubkey = id) then spend_result CheckLowS flags checker script pubkey sig
          else Err SCRIPT_ERR_EQUALVERIFY).
Proof.
  intros Hb Hid Hs Hp Hne script.
  rewrite (VerifyScript_plain _ _ _ _ _ [pubkey; sig]).
  - rewrite (eval_p2pkh _ _ _ _ id) by done. case_bool_decide; [| done].
    f_equal. apply checksig_top. unfold script. rewrite p2pkh_script.
    apply FindAndDelete_other; [| by apply pushable_ok |].
    + repeat constructor; try (by apply id_ok); ops; lia.
    + intros Hin. repeat (apply elem_of_cons in Hin as [E | Hin]; [first [discriminate E | by eapply (not_pushed sig); [| | exact E]] |]).
      by apply elem_of_nil in Hin.
  - apply push_only; repeat (apply Forall_cons; split); auto using pushable_ok, push_item_low, Forall_nil_2.
  - unfold script. rewrite p2pkh_bytes. unfold IsPayToScriptHash. rewrite push_data20 by done. zl. unfold zlen. by rewrite Hid.
  - by apply eval_two_pushes.
Qed.

(** C32: a cold-staking output. With [OP_1] (true) the spender must be the
    staker and the transaction must pass [CheckColdStake] for this output's
    script; with [OP_0] (false) only the owner's key is accepted and no
    restriction on the transaction applies. *)
Theorem VerifyScript_p2cs CheckLowS (flags : Z) checker (staking spending sig pubkey : bytes) (stake : bool) :
  is_bytes staking -> length staking = 20%nat -> is_bytes spending -> length spending = 20%nat ->
  pushable sig -> pushable pubkey -> zlen sig <> 20 ->
  let script := GetScriptForStakeDelegation staking spending in
  VerifyScript CheckLowS (script_of [Push sig; flag_item stake; Push pubkey]) script flags checker
  = Some (if stake && negb (checkColdStake checker script) then Err SCRIPT_ERR_CHECKCOLDSTAKEVERIFY
          else if bool_decide (Hash160 pubkey = if stake then staking else spending)
          then spend_result CheckLowS flags checker script pubkey sig
          else Err SCRIPT_ERR_EQUALVERIFY).
Proof.
  intros Hb1 H1 Hb2 H2 Hs Hp Hne script.
  assert (Hd : fst (FindAndDelete script (push_data [] sig)) = script).
  { unfold script. rewrite p2cs_script. apply FindAndDelete_other; [| by apply pushable_ok |].
    + repeat constructor; try (by apply id_ok); ops; lia.
    + intros Hin. repeat (apply elem_of_cons in Hin as [E | Hin]; [first [discriminate E | by eapply (not_pushed sig); [| | exact E]] |]).
      by apply elem_of_nil in Hin. }
  rewrite (VerifyScript_plain _ _ _ _ _ [pubkey; flag_elem stake; sig]).
  - rewrite (eval_p2cs_lemma _ _ _ _ staking spending) by done. unfold p2cs_result.
    destruct stake; cbn [flag_elem CastToBool andb].
    + change (CastToBool [1]) with true. cbn iota. destruct (checkColdStake checker script); cbn [negb]; [| done].
      case_bool_decide; [| done]. f_equal. by apply checksig_top.
    + case_bool_decide; [| done]. f_equal. by apply checksig_top.
  - destruct (flag_ok stake). apply push_only;
      repeat (apply Forall_cons; split); auto using pushable_ok, push_item_low, Forall_nil_2.
  - unfold script. rewrite p2cs_bytes. unfold IsPayToScriptHash. rewrite !push_data20 by done.
    repeat (zl; cbn [app]). unfold zlen. by rewrite H1, H2.
  - by apply eval_flag_pushes.
Qed.

Ltac bytes_lit := repeat (apply Forall_cons; split; [unfold is_byte; lia |]); apply Forall_nil_2.

(** A checker that accepts one key's signature over one script. *)
Definition toy_checker (key : bytes) (cold : bool) : BaseSignatureChecker := {|
  CheckSig := fun _ pk _ => bool_decide (pk = key);
  CheckLockTime := fun _ => false;
  checkColdStake := fun _ => cold
|}.

Lemma VerifyScript_p2pkh_witness :
  let script := GetScriptForDestination (CKeyID (replicate 20 7)) in
  VerifyScript (fun _ => true) (script_of [Push [1; 1]; Push [2; 2]]) script 0 (toy_checker [2; 2] false)
  = Some (if bool_decide (Hash160 [2; 2] = replicate 20 7)
          then spend_result (fun _ => true) 0 (toy_checker [2; 2] false) script [2; 2] [1; 1]
          else Err SCRIPT_ERR_EQUALVERIFY).
Proof.
  apply VerifyScript_p2pkh; [bytes_lit | reflexivity | | | discriminate];
    (split; [bytes_lit | right; split; discriminate]).
Defined.

Lemma VerifyScript_p2cs_witness :
  let script := GetScriptForStakeDelegation (replicate 20 7) (replicate 20 9) in
  VerifyScript (fun _ => true) (script_of [Push [1; 1]; flag_item true; Push [2; 2]]) script 0 (toy_checker [2; 2] false)
  = Some (Err SCRIPT_ERR_CHECKCOLDSTAKEVERIFY).
Proof.
  refine (VerifyScript_p2cs (fun _ => true) 0 (toy_checker [2; 2] false) (replicate 20 7) (replicate 20 9)
    [1; 1] [2; 2] true _ _ _ _ _ _ _);
    [bytes_lit | reflexivity | bytes_lit | reflexivity | | | discriminate];
    (split; [bytes_lit | right; split; discriminate]).
Defined.
