(* ===== verification/Sighash.v ===== *)
(** [SignatureHash] against the definition it replaced.

    [script/interpreter.cpp] serializes the transaction on the fly through
    [CTransactionSignatureSerializer]; [test/sighash_tests.cpp] keeps the former
    [SignatureHash], which edits a copy of the transaction and serializes it.
    The two agree on every script that parses. *)

From Stdlib Require Import ZArith Lia.
From stdpp Require Import base tactics list numbers strings.
From S2P Require Import Prelude Script Hash Serialize Transaction Interpreter.

Definition set_scriptSig (s : bytes) (i : CTxIn) : CTxIn :=
  {| prevout := prevout i; scriptSig := s; nSequence := nSequence i |}.
Definition set_nSequence (n : Z) (i : CTxIn) : CTxIn :=
  {| prevout := prevout i; scriptSig := scriptSig i; nSequence := n |}.

(** [SignatureHashOld]: the edits of [txTmp], in order. *)
Definition old_blank (code : bytes) (nIn : nat) (vin : list CTxIn) : list CTxIn :=
  alter (set_scriptSig code) nIn (map (set_scriptSig []) vin).
Definition old_update_at_will (nIn : nat) (vin : list CTxIn) : list CTxIn :=
  imap (fun i x => if (i =? nIn)%nat then x else set_nSequence 0 x) vin.
Definition old_only_this (nIn : nat) (vin : list CTxIn) : list CTxIn :=
  match vin !! nIn with Some x => take 1 (<[0%nat := x]> vin) | None => vin end.
Definition old_single_outputs (nOut : nat) (vout : list CTxOut) : list CTxOut :=
  imap (fun i o => if (i <? nOut)%nat then CTxOut_SetNull else o) (take (nOut + 1) vout).

Definition old_tx (scriptCode : bytes) (txTo : CTransaction) (nIn nHashType : Z) : CTransaction :=
  let n := Z.to_nat nIn in
  let code := fst (FindAndDelete scriptCode [OP_CODESEPARATOR]) in
  let ins := old_blank code n (vin txTo) in
  let '(ins, outs) :=
    if Z.land nHashType 0x1f =? SIGHASH_NONE then (old_update_at_will n ins, [])
    else if Z.land nHashType 0x1f =? SIGHASH_SINGLE
    then (old_update_at_will n ins, old_single_outputs n (vout txTo))
    else (ins, vout txTo) in
  let ins := if negb (Z.land nHashType SIGHASH_ANYONECANPAY =? 0) then old_only_this n ins else ins in
  {| nVersion := nVersion txTo; vin := ins; vout := outs; nLockTime := nLockTime txTo |}.

Definition SignatureHashOld (scriptCode : bytes) (txTo : CTransaction) (nIn nHashType : Z) : bytes :=
  if zlen (vin txTo) <=? nIn then UINT256_ONE
  else if negb (Z.land nHashType 0x1f =? SIGHASH_NONE) && (Z.land nHashType 0x1f =? SIGHASH_SINGLE)
          && (zlen (vout txTo) <=? nIn) then UINT256_ONE
  else Hash (Serialize_CTransaction (old_tx scriptCode txTo nIn nHashType) ++ ser_writedata32 nHashType).

(** ** A script that parses *)

Definition separator : bytes := [OP_CODESEPARATOR].

(** The bytes of one operation: [GetOp] takes them and nothing more, whatever follows. *)
Definition chunk (c : bytes) : Prop := exists op data k,
  c = op :: k /\ (forall rest, GetOp2 (c ++ rest) = GetOp_ true rest op data) /\ (op = OP_CODESEPARATOR -> k = []).

Lemma GetOp_take_ok pc op n : 0 <= n -> go_ok (GetOp_take pc op n) = true ->
  zlen (take (Z.to_nat n) pc) = n /\ pc = take (Z.to_nat n) pc ++ go_pc (GetOp_take pc op n).
Proof.
  intros Hn. unfold GetOp_take. destruct (Z.ltb_spec (zlen pc) n); [done |]. intros _. cbn [go_pc]. rewrite take_drop.
  split; [| done]. unfold zlen in *. rewrite length_take. lia.
Qed.

(** A push whose size is written in [k] bytes. *)
Lemma sized_push pc op k : is_bytes pc -> zlen pc <? Z.of_nat k = false -> go_ok (GetOp_take (drop k pc) op (le_val (take k pc))) = true ->
  let c := take k pc ++ take (Z.to_nat (le_val (take k pc))) (drop k pc) in
  pc = c ++ go_pc (GetOp_take (drop k pc) op (le_val (take k pc))) /\
  forall rest, (zlen (c ++ rest) <? Z.of_nat k) = false /\
    GetOp_take (drop k (c ++ rest)) op (le_val (take k (c ++ rest))) = GetOp_ true rest op (take (Z.to_nat (le_val (take k pc))) (drop k pc)).
Proof.
  intros Hb Hk Hok. bprop. assert (Hlk : length (take k pc) = k) by (rewrite length_take; unfold zlen in *; lia).
  pose proof (le_val_bound (take k pc) ltac:(by apply Forall_take)) as [Hn _].
  destruct (GetOp_take_ok _ _ _ Hn Hok) as [Hl Hd]. cbn zeta. split.
  - rewrite <- app_assoc, <- Hd. by rewrite take_drop.
  - intros rest. rewrite <- app_assoc. split; [apply Z.ltb_ge; rewrite zlen_app; pose proof (zlen_nonneg (take (Z.to_nat (le_val (take k pc))) (drop k pc) ++ rest)); unfold zlen in *; lia |].
    rewrite take_app_le, drop_app_le by lia. rewrite (take_ge (take k pc)), (drop_ge (take k pc)) by lia. cbn [app]. by apply GetOp_take_app.
Qed.

Lemma GetOp2_chunk s : is_bytes s -> go_ok (GetOp2 s) = true -> exists c, s = c ++ go_pc (GetOp2 s) /\ chunk c.
Proof.
  intros Hs. destruct Hs as [| o pc Ho Hpc]; [done |]. unfold is_byte in Ho. cbn [GetOp2].
  destruct (Z.leb_spec o OP_PUSHDATA4) as [Hle | Hgt].
  2: { intros _. exists [o]. split; [done |]. exists o, [], []. split; [done |]. split; [| done]. intros rest. by apply GetOp2_op. }
  assert (Hsep : forall k, o = OP_CODESEPARATOR -> k = @nil Z) by (intros k ->; revert Hle; ops; lia).
  destruct (Z.ltb_spec o OP_PUSHDATA1) as [H1 | H1].
  { intros Hok. destruct (GetOp_take_ok _ _ _ (proj1 Ho) Hok) as [Hl Hd]. exists (o :: take (Z.to_nat o) pc). split; [cbn; by rewrite <- Hd |].
    exists o, (take (Z.to_nat o) pc), (take (Z.to_nat o) pc). split_and!; [done | | by apply Hsep]. intros rest. cbn [app GetOp2].
    rewrite (proj2 (Z.leb_le _ _)), (proj2 (Z.ltb_lt _ _)) by done. by apply GetOp_take_app. }
  destruct (Z.eqb_spec o OP_PUSHDATA1) as [-> | N1]; [| destruct (Z.eqb_spec o OP_PUSHDATA2) as [-> | N2]].
  all: match goal with |- context [zlen ?l <? ?k] => destruct (zlen l <? k) eqn:E; [done |] end; intros Hok.
  - destruct (sized_push pc OP_PUSHDATA1 1 Hpc E Hok) as [Hd HG]. eexists (_ :: _). split; [cbn [app]; by rewrite <- Hd |].
    eexists _, _, _. split_and!; [done | | by apply Hsep]. intros rest. destruct (HG rest) as [H2 H3]. cbn [app GetOp2].
    rewrite (proj2 (Z.leb_le _ _)), (proj2 (Z.ltb_ge _ _)), Z.eqb_refl by done. change (Z.of_nat 1) with 1 in H2. by rewrite H2, H3.
  - destruct (sized_push pc OP_PUSHDATA2 2 Hpc E Hok) as [Hd HG]. eexists (_ :: _). split; [cbn [app]; by rewrite <- Hd |].
    eexists _, _, _. split_and!; [done | | by apply Hsep]. intros rest. destruct (HG rest) as [H2 H3]. cbn [app GetOp2].
    rewrite (proj2 (Z.leb_le _ _)), (proj2 (Z.ltb_ge _ _)), (proj2 (Z.eqb_neq _ _) N1), Z.eqb_refl by done. change (Z.of_nat 2) with 2 in H2. by rewrite H2, H3.
  - destruct (sized_push pc o 4 Hpc E Hok) as [Hd HG]. eexists (_ :: _). split; [cbn [app]; by rewrite <- Hd |].
    eexists _, _, _. split_and!; [done | | by apply Hsep]. intros rest. destruct (HG rest) as [H2 H3]. cbn [app GetOp2].
    rewrite (proj2 (Z.leb_le _ _)), (proj2 (Z.ltb_ge _ _)), (proj2 (Z.eqb_neq _ _) N1), (proj2 (Z.eqb_neq _ _) N2) by done.
    change (Z.of_nat 4) with 4 in H2. by rewrite H2, H3.
Qed.

Lemma chunk_nonempty c : chunk c -> (0 < length c)%nat.
Proof. intros (op & d & k & -> & _). cbn. lia. Qed.

Lemma GetOps_chunks fuel s : is_bytes s -> snd (GetOps fuel s) = true -> exists cs, s = concat cs /\ Forall chunk cs.
Proof.
  revert s. induction fuel as [| fuel IH]; intros s Hs; cbn [GetOps].
  - intros E%bool_decide_eq_true. exists []. by split.
  - case_bool_decide as E; [exists []; by split |]. destruct (go_ok (GetOp2 s)) eqn:Ho; [| done].
    destruct (GetOp2_chunk s Hs Ho) as (c & Hc & HC). destruct (GetOps fuel (go_pc (GetOp2 s))) as [l e] eqn:El. cbn [snd]. intros ->.
    destruct (IH (go_pc (GetOp2 s))) as (cs & Hcs & HF); [rewrite Hc in Hs; by apply Forall_app in Hs as [_ Hs] | by rewrite El |].
    exists (c :: cs). split; [cbn; by rewrite <- Hcs | by constructor].
Qed.

Lemma chunk_separator c : chunk c -> exists op data, (forall rest, GetOp2 (c ++ rest) = GetOp_ true rest op data) /\
  (op =? OP_CODESEPARATOR) = bool_decide (c = separator).
Proof.
  intros (op & d & k & -> & HG & Hk). exists op, d. split; [done |]. unfold separator. destruct (Z.eqb_spec op OP_CODESEPARATOR) as [-> | Hne].
  - rewrite bool_decide_true; [done |]. by rewrite Hk.
  - rewrite bool_decide_false; [done |]. by intros [= ->].
Qed.

Lemma starts_with_chunk c rest : chunk c -> starts_with separator (c ++ rest) = bool_decide (c = separator).
Proof.
  intros (op & d & k & -> & _ & Hk). unfold starts_with, separator. change (length [OP_CODESEPARATOR]) with 1%nat. cbn [app take].
  rewrite take_0. rewrite (proj2 (Z.leb_le _ _)) by (unfold zlen; cbn [length]; lia).
  cbn [andb]. apply bool_decide_ext. split; [| by intros [= -> _]]. intros [= ->]. by rewrite Hk.
Qed.

(** ** The script code *)

Lemma count_separators_chunks fuel cs : Forall chunk cs -> (length cs <= fuel)%nat ->
  count_separators fuel (concat cs) = zlen (filter (fun c => c = separator) cs).
Proof.
  intros Hl. revert fuel. induction Hl as [| c cs Hc Hl IH]; intros fuel Hf; [by destruct fuel |].
  destruct fuel as [| fuel]; [cbn in Hf; lia |]. destruct (chunk_separator c Hc) as (op & d & HG & Hs). cbn [concat count_separators].
  rewrite HG. cbn [go_ok go_opcode go_pc]. rewrite Hs, IH by (cbn in Hf; lia).
  case_bool_decide as E; [rewrite filter_cons_True by done; by rewrite zlen_cons |]. rewrite filter_cons_False by done. lia.
Qed.

Lemma write_code_chunks cs fuel pre : Forall chunk cs -> (length cs < fuel)%nat ->
  write_code fuel (pre ++ concat cs) (concat cs) = pre ++ concat (filter (fun c => c <> separator) cs).
Proof.
  intros Hl. revert fuel pre. induction Hl as [| c cs Hc Hl IH]; intros fuel pre Hf.
  - destruct fuel as [| fuel]; [lia |]. cbn [write_code concat GetOp2 GetOp_fail go_ok go_pc].
    cbn [filter list_filter concat]. rewrite !app_nil_r. destruct pre as [| x pre]; [done |].
    destruct (Z.eqb_spec (zlen (x :: pre)) 0) as [E | _]; [unfold zlen in E; cbn in E; lia |].
    cbn [length]. rewrite Nat.sub_0_r. by rewrite take_ge.
  - destruct fuel as [| fuel]; [lia |]. destruct (chunk_separator c Hc) as (op & d & HG & Hs). cbn [concat write_code].
    rewrite HG. cbn [go_ok go_opcode go_pc]. rewrite Hs. cbn in Hf. case_bool_decide as E.
    + subst c. rewrite filter_cons_False by (intros H; by apply H). pose proof (IH fuel [] ltac:(lia)) as E. cbn [app] in E. rewrite E.
      f_equal. rewrite !length_app. unfold separator. cbn [length]. rewrite take_app_le by lia. apply take_ge. lia.
    + rewrite filter_cons_True by done. cbn [concat]. rewrite app_assoc, (IH fuel (pre ++ c)) by lia. by rewrite <- app_assoc.
Qed.

Lemma chunks_length cs : Forall chunk cs -> (length cs <= length (concat cs))%nat.
Proof. induction 1 as [| c cs Hc _ IH]; [done |]. apply chunk_nonempty in Hc. cbn [concat length]. rewrite length_app. lia. Qed.

(** The separators are one byte each. *)
Lemma filter_separator_length cs :
  zlen (concat (filter (fun c => c <> separator) cs)) = zlen (concat cs) - zlen (filter (fun c => c = separator) cs).
Proof.
  induction cs as [| c cs IH]; [done |]. cbn [concat]. rewrite zlen_app. destruct (decide (c = separator)) as [-> | Hne].
  - rewrite filter_cons_False by (intros H; by apply H). rewrite filter_cons_True by done.
    rewrite zlen_cons, IH. change (zlen separator) with 1. lia.
  - rewrite filter_cons_True by done. rewrite filter_cons_False by done. cbn [concat]. rewrite zlen_app, IH. lia.
Qed.

(** ** Deleting the separators *)

Lemma skip_matches_chunks cs fuel n : Forall chunk cs -> (length (concat cs) <= fuel)%nat ->
  exists k cs', cs = replicate k separator ++ cs' /\ head cs' <> Some separator /\
    skip_matches fuel separator (concat cs) n = (concat cs', n + Z.of_nat k).
Proof.
  intros Hl. revert fuel n. induction Hl as [| c cs Hc Hl IH]; intros fuel n Hf.
  - exists 0%nat, []. split_and!; [done | done |]. rewrite Z.add_0_r. by destruct fuel.
  - cbn [concat] in *. rewrite length_app in Hf. pose proof (chunk_nonempty c Hc). destruct fuel as [| fuel]; [lia |]. cbn [skip_matches].
    rewrite starts_with_chunk by done. case_bool_decide as E.
    + subst c. rewrite drop_app_length. destruct (IH fuel (n + 1)) as (k & cs' & -> & Hh & ->); [lia |].
      exists (S k), cs'. split_and!; [done | done | f_equal; lia].
    + exists 0%nat, (c :: cs). split_and!; [done | cbn; congruence |]. by rewrite Z.add_0_r.
Qed.

Lemma separators_filter k cs : filter (fun c => c <> separator) (replicate k separator ++ cs) = filter (fun c => c <> separator) cs /\
  zlen (filter (fun c => c = separator) (replicate k separator ++ cs)) = Z.of_nat k + zlen (filter (fun c => c = separator) cs).
Proof.
  induction k as [| k [IH1 IH2]]; [done |]. rewrite replicate_S. cbn [app].
  rewrite filter_cons_False by (intros H; by apply H). rewrite filter_cons_True by done. rewrite zlen_cons, IH2. split; [done | lia].
Qed.

Lemma fad_loop_chunks fuel cs pre n : Forall chunk cs -> (length cs < fuel)%nat ->
  exists x y, fad_loop fuel separator (pre ++ concat cs) (concat cs) n = (x, y, n + zlen (filter (fun c => c = separator) cs)) /\
    x ++ y = pre ++ concat (filter (fun c => c <> separator) cs).
Proof.
  revert cs pre n. induction fuel as [| fuel IH]; intros cs pre n Hl Hf; [lia |].
  cbn [fad_loop]. rewrite length_app, Nat.add_sub, take_app_length.
  destruct (skip_matches_chunks cs (length (concat cs)) n Hl ltac:(done)) as (k & cs' & -> & Hh & ->).
  destruct (separators_filter k cs') as [-> ->]. apply Forall_app in Hl as [_ Hl]. rewrite length_app, length_replicate in Hf.
  destruct Hl as [| c cs' Hc Hl].
  - exists pre, []. cbn. rewrite !app_nil_r, ?Z.add_0_r. done.
  - destruct (chunk_separator c Hc) as (op & d & HG & _). cbn [concat]. rewrite HG. cbn [go_ok go_pc].
    destruct (IH cs' c (n + Z.of_nat k) Hl) as (x & y & -> & E); [cbn in Hf; lia |].
    cbn in Hh. exists (pre ++ x), y. rewrite (filter_cons_False _ c) by congruence. split; [f_equal; lia |].
    rewrite <- app_assoc, E. rewrite filter_cons_True by congruence. done.
Qed.

Lemma no_separator cs : filter (fun c => c = separator) cs = [] -> filter (fun c => c <> separator) cs = cs.
Proof.
  induction cs as [| c cs IH]; [done |]. intros E. destruct (decide (c = separator)) as [Hj | Hj].
  - by rewrite filter_cons_True in E.
  - rewrite filter_cons_False in E by done. rewrite filter_cons_True by done. by rewrite IH.
Qed.

Lemma FindAndDelete_chunks cs : Forall chunk cs -> fst (FindAndDelete (concat cs) separator) = concat (filter (fun c => c <> separator) cs).
Proof.
  intros Hl. unfold FindAndDelete. change (zlen separator =? 0) with false. cbn iota. pose proof (chunks_length cs Hl).
  destruct (fad_loop_chunks (S (length (concat cs))) cs [] 0 Hl ltac:(lia)) as (x & y & E & Exy). cbn [app] in E, Exy. rewrite E, Z.add_0_l.
  destruct (Z.ltb_spec 0 (zlen (filter (fun c => c = separator) cs))) as [_ | H0]; [done |]. cbn [fst]. rewrite no_separator; [done |].
  destruct (filter (fun c => c = separator) cs) as [| c k]; [done |]. rewrite zlen_cons in H0. pose proof (zlen_nonneg k). lia.
Qed.

(** [SerializeScriptCode] on a script that [GetOp] reads to its end. *)
Lemma SerializeScriptCode_parsed s : is_bytes s -> snd (ops_of s) = true ->
  SerializeScriptCode s = Serialize_bytes (fst (FindAndDelete s separator)).
Proof.
  intros Hb Hp. destruct (GetOps_chunks _ _ Hb Hp) as (cs & -> & Hl). pose proof (chunks_length cs Hl). rewrite FindAndDelete_chunks by done.
  unfold SerializeScriptCode, Serialize_bytes. pose proof (write_code_chunks cs (S (length (concat cs))) [] Hl ltac:(lia)) as E. cbn [app] in E.
  rewrite count_separators_chunks, E, filter_separator_length by (done || lia). done.
Qed.

(** ** Inputs and outputs *)

(** A loop over indices that serializes what a list holds at each. *)
Lemma concat_seq {A} (f : Z -> bytes) (g : A -> bytes) (l : list A) :
  (forall i x, l !! i = Some x -> f (Z.of_nat i) = g x) ->
  concat (map (fun i => f (Z.of_nat i)) (seq 0 (length l))) = concat (map g l).
Proof.
  intros H. f_equal. apply list_eq. intros i. rewrite !list_lookup_fmap.
  destruct (decide (i < length l)%nat) as [Hi | Hi].
  - rewrite lookup_seq_lt by done. destruct (lookup_lt_is_Some_2 l i Hi) as [x E]. rewrite E. cbn. f_equal. by apply H.
  - rewrite lookup_seq_ge, (lookup_ge_None_2 l) by lia. done.
Qed.

Section Equiv.
Context (txTo : CTransaction) (scriptCode : bytes) (nIn nHashType : Z).
Context (Hb : is_bytes scriptCode) (Hparse : snd (ops_of scriptCode) = true) (Hn : 0 <= nIn < zlen (vin txTo)).

Abbreviation code := (fst (FindAndDelete scriptCode [OP_CODESEPARATOR])).
Abbreviation n := (Z.to_nat nIn).

(** The input at index [i] of the edited copy, before [SIGHASH_ANYONECANPAY]. *)
Definition edited (will : bool) (i : nat) (x : CTxIn) : CTxIn :=
  {| prevout := prevout x; scriptSig := if (i =? n)%nat then code else [];
     nSequence := if negb (i =? n)%nat && will then 0 else nSequence x |}.

Definition edited_list (will : bool) : list CTxIn :=
  let ins := old_blank code n (vin txTo) in if will then old_update_at_will n ins else ins.

Lemma edited_list_imap will : edited_list will = imap (edited will) (vin txTo).
Proof.
  apply list_eq. intros i. rewrite list_lookup_imap. unfold edited_list, old_blank, old_update_at_will.
  destruct (decide (i = n)) as [-> | Hne].
  - assert (E : alter (set_scriptSig code) n (map (set_scriptSig []) (vin txTo)) !! n = edited will n <$> vin txTo !! n).
    { rewrite list_lookup_alter_eq, list_lookup_fmap. destruct (vin txTo !! n) as [x |]; [| done]. cbn. f_equal.
      unfold edited. by rewrite Nat.eqb_refl. }
    destruct will; [| exact E]. rewrite list_lookup_imap, E. destruct (vin txTo !! n); [| done].
    cbn. by rewrite Nat.eqb_refl.
  - assert (E : alter (set_scriptSig code) n (map (set_scriptSig []) (vin txTo)) !! i = set_scriptSig [] <$> vin txTo !! i).
    { rewrite list_lookup_alter_ne, list_lookup_fmap by done. done. }
    destruct will; [rewrite list_lookup_imap |]; rewrite E; (destruct (vin txTo !! i); [| done]); cbn;
      unfold edited; apply Nat.eqb_neq in Hne; rewrite Hne; done.
Qed.

Abbreviation will := (fHashSingle nHashType || fHashNone nHashType).

Lemma SerializeInput_edited i j x :
  j = (if fAnyoneCanPay nHashType then n else i) -> vin txTo !! j = Some x ->
  SerializeInput txTo scriptCode nIn nHashType (Z.of_nat i) = Serialize (edited will j x).
Proof.
  intros Ej E. unfold SerializeInput.
  replace (if fAnyoneCanPay nHashType then nIn else Z.of_nat i) with (Z.of_nat j) by (rewrite Ej; case_match; lia).
  cbn zeta. replace (input_at txTo (Z.of_nat j)) with x
    by (unfold input_at; rewrite Nat2Z.id; symmetry; by apply nth_lookup_Some).
  replace (Z.of_nat j =? nIn) with (j =? n)%nat
    by (destruct (Nat.eqb_spec j n), (Z.eqb_spec (Z.of_nat j) nIn); lia || done).
  cbn [Serialize CTxIn_ser]. unfold Serialize_CTxIn, edited. cbn [prevout scriptSig nSequence].
  f_equal. destruct (j =? n)%nat; cbn [negb andb].
  - by rewrite SerializeScriptCode_parsed.
  - by destruct will.
Qed.

Definition all_inputs : list CTxIn :=
  if fAnyoneCanPay nHashType then old_only_this n (edited_list will) else edited_list will.

Lemma this_input : exists x, vin txTo !! n = Some x /\
  old_only_this n (edited_list will) = [edited will n x].
Proof.
  destruct (lookup_lt_is_Some_2 (vin txTo) n) as [x E]; [unfold zlen in Hn; lia |]. exists x. split; [done |].
  unfold old_only_this. rewrite edited_list_imap, list_lookup_imap, E. cbn [fmap option_fmap option_map].
  destruct (vin txTo) as [| y r]; [done |]. done.
Qed.

Lemma inputs_agree :
  let nInputs := if fAnyoneCanPay nHashType then 1 else zlen (vin txTo) in
  WriteCompactSize nInputs ++
  concat (map (fun i => SerializeInput txTo scriptCode nIn nHashType (Z.of_nat i)) (seq 0 (Z.to_nat nInputs)))
  = Serialize_vector all_inputs.
Proof.
  unfold all_inputs, Serialize_vector. destruct (fAnyoneCanPay nHashType) eqn:Ea; cbn zeta.
  - destruct this_input as (x & E & ->). change (seq 0 (Z.to_nat 1)) with [0%nat]. cbn [map concat].
    rewrite (SerializeInput_edited 0 n x) by (rewrite ?Ea; done). done.
  - rewrite edited_list_imap. f_equal; [unfold zlen; by rewrite length_imap |].
    replace (Z.to_nat (zlen (vin txTo))) with (length (imap (edited will) (vin txTo)))
      by (rewrite length_imap; unfold zlen; lia).
    apply concat_seq. intros i x Hx. rewrite list_lookup_imap in Hx.
    destruct (vin txTo !! i) as [y |] eqn:Ey; [| done]. injection Hx as <-.
    apply SerializeInput_edited; [by rewrite Ea | done].
Qed.

Definition all_outputs : list CTxOut :=
  if fHashNone nHashType then [] else if fHashSingle nHashType then old_single_outputs n (vout txTo) else vout txTo.

Lemma single_outputs_length : nIn < zlen (vout txTo) -> length (old_single_outputs n (vout txTo)) = Z.to_nat (nIn + 1).
Proof. intros. unfold old_single_outputs. rewrite length_imap, length_take. unfold zlen in *. lia. Qed.

Lemma outputs_agree : (fHashSingle nHashType = true -> nIn < zlen (vout txTo)) ->
  let nOutputs := if fHashNone nHashType then 0 else if fHashSingle nHashType then nIn + 1 else zlen (vout txTo) in
  WriteCompactSize nOutputs ++
  concat (map (fun i => SerializeOutput txTo nIn nHashType (Z.of_nat i)) (seq 0 (Z.to_nat nOutputs)))
  = Serialize_vector all_outputs.
Proof.
  intros Ho. unfold all_outputs, Serialize_vector. destruct (fHashNone nHashType) eqn:En; [done |].
  destruct (fHashSingle nHashType) eqn:Es; cbn zeta.
  - specialize (Ho eq_refl). pose proof (single_outputs_length Ho) as El.
    f_equal; [unfold zlen; rewrite El; f_equal; lia |]. rewrite <- El. apply concat_seq. intros i x Hx.
    unfold old_single_outputs in Hx. rewrite list_lookup_imap in Hx.
    destruct (decide (i < n + 1)%nat) as [Hi | Hi]; [| rewrite lookup_take_ge in Hx by lia; done].
    rewrite lookup_take_lt in Hx by lia. destruct (vout txTo !! i) as [y |] eqn:Ey; [| done]. injection Hx as <-.
    unfold SerializeOutput. rewrite Es, Nat2Z.id. cbn [andb].
    destruct (Nat.ltb_spec i n), (Z.eqb_spec (Z.of_nat i) nIn); cbn [negb]; try lia; [done |].
    f_equal. by apply nth_lookup_Some.
  - f_equal. unfold zlen at 1. rewrite Nat2Z.id. apply concat_seq. intros i x Hx.
    unfold SerializeOutput. rewrite Es, Nat2Z.id. cbn [andb]. f_equal. by apply nth_lookup_Some.
Qed.

Lemma SerializeForSig_old : (fHashSingle nHashType = true -> nIn < zlen (vout txTo)) ->
  SerializeForSig txTo scriptCode nIn nHashType
  = Serialize_CTransaction (old_tx scriptCode txTo nIn nHashType).
Proof.
  intros Ho. pose proof inputs_agree as Hi. pose proof (outputs_agree Ho) as Hu. cbn zeta in Hi, Hu.
  unfold SerializeForSig. cbn zeta.
  rewrite (app_assoc (WriteCompactSize _) (concat _) _), Hi.
  rewrite (app_assoc (WriteCompactSize _) (concat _) _), Hu.
  unfold Serialize_CTransaction, old_tx, all_inputs, all_outputs, edited_list, fAnyoneCanPay, fHashSingle, fHashNone.
  destruct (Z.eqb_spec (Z.land nHashType 31) SIGHASH_NONE) as [E | _].
  - rewrite orb_true_r. cbn [nVersion vin vout nLockTime]. done.
  - rewrite orb_false_r. destruct (Z.land nHashType 31 =? SIGHASH_SINGLE); cbn [nVersion vin vout nLockTime]; done.
Qed.
End Equiv.

(** C36: On every script that parses (that [GetOp] reads to its end, whatever form its
    pushes have), the signature hash computed by the streaming serializer is the one
    computed by editing and serializing a copy of the transaction, for every hash type (the
    reserved ones too), every input index and every transaction. *)
Theorem SignatureHash_old (scriptCode : bytes) (txTo : CTransaction) (nIn nHashType : Z) :
  is_bytes scriptCode -> snd (ops_of scriptCode) = true -> 0 <= nIn ->
  SignatureHash scriptCode txTo nIn nHashType = SignatureHashOld scriptCode txTo nIn nHashType.
Proof.
  intros Hb Hp Hn. unfold SignatureHash, SignatureHashOld.
  destruct (Z.leb_spec (zlen (vin txTo)) nIn); [done |].
  destruct (Z.eqb_spec (Z.land nHashType 31) SIGHASH_SINGLE) as [E | Hs].
  - rewrite E. change (SIGHASH_SINGLE =? SIGHASH_NONE) with false. cbn [negb andb].
    destruct (Z.leb_spec (zlen (vout txTo)) nIn); [done |]. by rewrite SerializeForSig_old.
  - rewrite andb_false_r. cbn [andb]. rewrite SerializeForSig_old; [done | done | done | lia |].
    unfold fHashSingle. intros Ht. by apply Z.eqb_eq in Ht.
Qed.

(** A separator, a push of one byte in the long form, and another separator. *)
Definition sample_code : bytes := [OP_CODESEPARATOR; OP_PUSHDATA1; 1; OP_CODESEPARATOR; OP_CODESEPARATOR; OP_CHECKSIG].

Lemma SignatureHash_old_witness :
  let tx := {| nVersion := 1; vin := [{| prevout := COutPoint_null; scriptSig := [1]; nSequence := 5 |}]; vout := []; nLockTime := 0 |} in
  SignatureHash sample_code tx 0 SIGHASH_ALL = SignatureHashOld sample_code tx 0 SIGHASH_ALL /\
  fst (FindAndDelete sample_code [OP_CODESEPARATOR]) = [OP_PUSHDATA1; 1; OP_CODESEPARATOR; OP_CHECKSIG].
Proof.
  split; [| reflexivity]. apply SignatureHash_old; [| reflexivity | lia]. apply (bool_decide_unpack _). vm_compute. exact I.
Defined.
