(* ===== verification/CoreWrite.v ===== *)
(** [core_write.cpp]: the assembly string of a script. *)

From Stdlib Require Import ZArith Lia.
From stdpp Require Import base tactics list numbers strings.
From S2P Require Import Prelude CString StrEncodings Script Standard Transaction Interpreter.

Definition mapSigHashTypes : list (Z * bytes) := [
  (SIGHASH_ALL, str "ALL");
  (Z.lor SIGHASH_ALL SIGHASH_ANYONECANPAY, str "ALL|ANYONECANPAY");
  (SIGHASH_NONE, str "NONE");
  (Z.lor SIGHASH_NONE SIGHASH_ANYONECANPAY, str "NONE|ANYONECANPAY");
  (SIGHASH_SINGLE, str "SINGLE");
  (Z.lor SIGHASH_SINGLE SIGHASH_ANYONECANPAY, str "SINGLE|ANYONECANPAY")].

Definition find_sighash (t : Z) : option bytes :=
  snd <$> List.find (fun p => fst p =? t) mapSigHashTypes.

(** [CheckSignatureEncoding(vch, SCRIPT_VERIFY_STRICTENC, NULL)]: the low-S rule
    is not asked for. *)
Definition looks_like_signature (vch : bytes) : bool :=
  is_ok (CheckSignatureEncoding (fun _ => true) vch SCRIPT_VERIFY_STRICTENC).

(** What one opcode appends to [str]. *)
Definition asm_op (fDecode : bool) (opcode : Z) (vch : bytes) : bytes :=
  if (0 <=? opcode) && (opcode <=? OP_PUSHDATA4) then
    if zlen vch <=? 4 then
      match CScriptNum vch false nDefaultMaxNumSize with
      | Ok n => to_string (getint n)
      | Err _ => []
      end
    else if fDecode then
      match (if looks_like_signature vch then find_sighash (back vch) else None) with
      | Some name => HexStr (removelast vch) ++ str "[" ++ name ++ str "]"
      | None => HexStr vch
      end
    else HexStr vch
  else GetOpName opcode.

Fixpoint asm_loop (fDecode : bool) (fuel : nat) (pc s : bytes) : bytes :=
  match fuel with
  | O => s
  | S fuel =>
      match pc with
      | [] => s
      | _ =>
          let s := if zlen s =? 0 then s else s ++ str " " in
          let g := GetOp2 pc in
          if negb (go_ok g) then s ++ str "[error]"
          else asm_loop fDecode fuel (go_pc g) (s ++ asm_op fDecode (go_opcode g) (go_data g))
      end
  end.

Definition ScriptToAsmStr (script : bytes) (fAttemptSighashDecode : bool) : bytes :=
  asm_loop (fAttemptSighashDecode && negb (IsUnspendable script)) (length script) script [].

(** The [CScriptNum] of a short vector does not throw. *)
Lemma CScriptNum_short vch : zlen vch <= 4 -> is_ok (CScriptNum vch false nDefaultMaxNumSize) = true.
Proof. intros. unfold CScriptNum, nDefaultMaxNumSize. by rewrite (proj2 (Z.ltb_ge _ _)). Qed.

(** ** Scripts written with [operator<<] *)

Lemma asm_loop_items fDecode l : Forall item_ok l -> forall fuel s, (length (script_of l) <= fuel)%nat ->
  asm_loop fDecode fuel (script_of l) s
  = fold_left (fun s i => (if zlen s =? 0 then s else s ++ str " ") ++ asm_op fDecode (fst (item_op i)) (snd (item_op i))) l s.
Proof.
  intros Hl. induction Hl as [| i l Hi Hl IH]; intros fuel s Hf; [by destruct fuel |].
  change (script_of (i :: l)) with (item_bytes i ++ script_of l) in *. pose proof (item_bytes_nonnil i).
  rewrite length_app in Hf. destruct (item_bytes i) as [| c r] eqn:Ei; [done |].
  destruct fuel as [| fuel]; [cbn in Hf; lia |]. cbn [asm_loop app]. change (c :: r ++ script_of l) with ((c :: r) ++ script_of l).
  rewrite <- Ei, GetOp2_item by done. cbn [go_ok go_pc go_opcode go_data negb fold_left].
  rewrite IH by (cbn in Hf; lia). done.
Qed.

Lemma asm_OP_RETURN_push data : is_bytes data -> 5 <= zlen data < 2 ^ 32 ->
  ScriptToAsmStr (script_of [Op OP_RETURN; Push data]) false = str "OP_RETURN " ++ HexStr data.
Proof.
  intros Hb Hl. unfold ScriptToAsmStr. cbn [andb].
  rewrite asm_loop_items; [| repeat (apply Forall_cons; split); try apply Forall_nil_2; [cbn; ops; lia | split; [done | lia]] | done].
  cbn [fold_left item_op fst snd]. change (asm_op false OP_RETURN []) with (str "OP_RETURN").
  change (if zlen [] =? 0 then [] else [] ++ str " ") with (@nil Z). cbn [app].
  change (if zlen (str "OP_RETURN") =? 0 then _ else _) with (str "OP_RETURN "). f_equal.
  unfold asm_op. rewrite (proj2 (Z.leb_gt (zlen data) 4)) by lia.
  assert (Ho : 0 <= push_opcode (zlen data) <= 78) by (unfold push_opcode; ops; repeat case_match; bprop; lia).
  destruct (Z.leb_spec 0 (push_opcode (zlen data))); [| lia].
  destruct (Z.leb_spec (push_opcode (zlen data)) OP_PUSHDATA4); [done | ops; lia].
Qed.
