(* ===== verification/BetCode.v ===== *)
(** [betting/bet.h], [betting/bet.cpp]: the encoding of a lottery bet in the data
    of an [OP_RETURN] output. *)

From Stdlib Require Import ZArith Lia.
From stdpp Require Import base tactics list numbers strings.
From S2P Require Import Prelude CString StrEncodings Script Standard Transaction Interpreter CoreWrite.

Definition plBetTxType : Z := 0x01.
Definition BTX_FORMAT_VERSION : Z := 0x01.
Definition BTX_HEX_PREFIX : bytes := str "42".
Definition LB_OP_STRLEN : Z := 26.

(** [class CBetOut]: a [CTxOut] with the bet it pays. *)
Record CBetOut := {
  bo_out : CTxOut;
  nBetValue : Z;
  bo_nDate : Z;
  bo_nNumber1 : Z;
  bo_nNumber2 : Z;
  bo_nNumber3 : Z
}.

#[global] Instance CBetOut_eq_dec : EqDecision CBetOut.
Proof. solve_decision. Defined.

Definition CBetOut_new (v : Z) (s : bytes) (nBetValueIn nDateIn : Z) : CBetOut :=
  {| bo_out := CTxOut_new v s; nBetValue := nBetValueIn; bo_nDate := nDateIn;
     bo_nNumber1 := 0; bo_nNumber2 := 0; bo_nNumber3 := 0 |}.

(** [-1] in a [uint32_t] field. *)
Definition CBetOut_SetNull : CBetOut :=
  {| bo_out := CTxOut_SetNull; nBetValue := -1; bo_nDate := u32 (-1);
     bo_nNumber1 := u32 (-1); bo_nNumber2 := u32 (-1); bo_nNumber3 := u32 (-1) |}.

Definition CBetOut_SetEmpty (b : CBetOut) : CBetOut :=
  {| bo_out := CTxOut_SetEmpty (bo_out b); nBetValue := 0; bo_nDate := 0;
     bo_nNumber1 := 0; bo_nNumber2 := 0; bo_nNumber3 := 0 |}.

Definition CBetOut_IsEmpty (b : CBetOut) : bool :=
  CTxOut_IsEmpty (bo_out b) && (nBetValue b =? 0) && (bo_nDate b =? 0) && (bo_nNumber1 b =? 0)
  && (bo_nNumber2 b =? 0) && (bo_nNumber3 b =? 0).

(** [class CLottoBet] *)
Record CLottoBet := { nDate : Z; nNumber1 : Z; nNumber2 : Z; nNumber3 : Z }.

#[global] Instance CLottoBet_eq_dec : EqDecision CLottoBet.
Proof. solve_decision. Defined.

(** The constructor takes [int]s into [uint32_t] fields. *)
Definition CLottoBet_new (date number1 number2 number3 : Z) : CLottoBet :=
  {| nDate := u32 date; nNumber1 := u32 number1; nNumber2 := u32 number2; nNumber3 := u32 number3 |}.

(** ** Decoding *)

(** [opCode[i]] is a [char]: signed. *)
Definition char_at (s : bytes) (i : Z) : Z := s8 (idx s i).

Definition ReadBTXFormatVersion (opCode : bytes) : Z :=
  if negb (char_at opCode 0 =? 66) then -1
  else
    let v := char_at opCode 1 in
    if (v <? 1) || (254 <? v) then -1 else v.

Definition FromChars2 (a b : Z) : Z :=
  let n := b in
  let n := u32 (Z.shiftl n 8) in
  u32 (n + a).

Definition FromChars4 (a b c d : Z) : Z :=
  let n := d in
  let n := u32 (Z.shiftl n 8) in
  let n := u32 (n + c) in
  let n := u32 (Z.shiftl n 8) in
  let n := u32 (n + b) in
  let n := u32 (Z.shiftl n 8) in
  u32 (n + a).

Definition FromOpCode (opCode : bytes) : option CLottoBet :=
  if negb (zlen opCode =? LB_OP_STRLEN / 2) then None
  else if negb (char_at opCode 2 =? plBetTxType) then None
  else if negb (ReadBTXFormatVersion opCode =? BTX_FORMAT_VERSION) then None
  else
    let c i := u8 (char_at opCode i) in
    Some {| nDate := FromChars4 (c 3) (c 4) (c 5) (c 6);
            nNumber1 := FromChars2 (c 7) (c 8);
            nNumber2 := FromChars2 (c 9) (c 10);
            nNumber3 := FromChars2 (c 11) (c 12) |}.

(** ** Encoding *)

Definition swap_endianness_16 (x : Z) : Z := u16 (Z.lor (Z.shiftr x 8) (Z.shiftl x 8)).
Definition swap_endianness_32 (x : Z) : Z :=
  Z.lor (Z.lor (Z.lor (Z.shiftr (Z.land x 0xff000000) 24) (Z.shiftr (Z.land x 0x00ff0000) 8))
               (Z.shiftl (Z.land x 0x0000ff00) 8)) (Z.shiftl (Z.land x 0x000000ff) 24).

Definition hexchar (d : Z) : Z := idx hexmap d.

(** [std::hex << std::setw(w) << std::setfill('0') << n] *)
Fixpoint hex_digits (fuel : nat) (n : Z) (acc : bytes) : bytes :=
  match fuel with
  | O => acc
  | S fuel =>
      let acc := hexchar (n `mod` 16) :: acc in
      if n <? 16 then acc else hex_digits fuel (n / 16) acc
  end.
Definition hex_nonneg (n : Z) : bytes := hex_digits (S (Z.to_nat (Z.log2 n))) n [].
Definition hex0 (w : nat) (n : Z) : bytes := replicate (w - length (hex_nonneg n)) 48 ++ hex_nonneg n.

Definition ToHex (value : Z) (length : Z) : bytes :=
  if length =? 2 then hex0 2 value
  else if length =? 4 then
    let be_value := u16 value in
    let le_value := swap_endianness_16 be_value in
    hex0 4 le_value
  else if length =? 8 then
    let le_value := swap_endianness_32 value in
    hex0 8 le_value
  else [].

(** The string and whether it has the right length. *)
Definition ToOpCode (lb : CLottoBet) : bytes * bool :=
  let sDate := ToHex (nDate lb) 8 in
  let sNumber1 := ToHex (nNumber1 lb) 4 in
  let sNumber2 := ToHex (nNumber2 lb) 4 in
  let sNumber3 := ToHex (nNumber3 lb) 4 in
  let opCode := BTX_HEX_PREFIX ++ str "0101" ++ sDate ++ sNumber1 ++ sNumber2 ++ sNumber3 in
  (opCode, zlen opCode =? LB_OP_STRLEN).

(** ** Fixed-width hexadecimal *)

(** The [w] low hexadecimal digits, most significant first. *)
Fixpoint nibbles_of (w : nat) (n : Z) (acc : bytes) : bytes :=
  match w with O => acc | S w => nibbles_of w (n / 16) (hexchar (n `mod` 16) :: acc) end.

Lemma nibbles_zero w acc : nibbles_of w 0 acc = replicate w 48 ++ acc.
Proof.
  revert acc. induction w as [| w IH]; intros acc; [done |]. cbn [nibbles_of]. change (0 / 16) with 0.
  rewrite IH. change (hexchar (0 `mod` 16)) with 48. by rewrite (replicate_S_end w), <- app_assoc.
Qed.

Lemma hex_digits_fixed fuel w n acc : 0 <= n < 16 ^ Z.of_nat w -> n < 16 ^ Z.of_nat fuel -> (0 < fuel)%nat -> (0 < w)%nat ->
  nibbles_of w n acc = replicate (w + length acc - length (hex_digits fuel n acc)) 48 ++ hex_digits fuel n acc
  /\ (length (hex_digits fuel n acc) <= w + length acc)%nat.
Proof.
  revert w n acc. induction fuel as [| fuel IH]; intros w n acc Hn Hf H0 Hw; [lia |].
  destruct w as [| w]; [lia |]. cbn [nibbles_of hex_digits].
  rewrite Nat2Z.inj_succ, Z.pow_succ_r in Hn by lia. rewrite Nat2Z.inj_succ, Z.pow_succ_r in Hf by lia.
  destruct (Z.ltb_spec n 16) as [Hlt | Hge].
  - rewrite Z.div_small, nibbles_zero by lia. cbn [length]. split; [f_equal; f_equal; lia | lia].
  - assert (0 < n / 16) by (apply Z.div_str_pos; lia).
    assert (n / 16 < 16 ^ Z.of_nat w) by (apply Z.div_lt_upper_bound; lia).
    assert (n / 16 < 16 ^ Z.of_nat fuel) by (apply Z.div_lt_upper_bound; lia).
    destruct w as [| w]; [cbn in *; lia |]. destruct fuel as [| fuel]; [cbn in *; lia |].
    destruct (IH (S w) (n / 16) (hexchar (n `mod` 16) :: acc)) as [IH1 IH2]; try lia.
    cbn [length] in IH1, IH2. split; [rewrite IH1; f_equal; f_equal; lia | lia].
Qed.

Lemma hex0_fixed w n : 0 <= n < 16 ^ Z.of_nat w -> (0 < w)%nat -> hex0 w n = nibbles_of w n [].
Proof.
  intros Hn Hw. unfold hex0, hex_nonneg.
  destruct (hex_digits_fixed (S (Z.to_nat (Z.log2 n))) w n [] Hn) as [-> _]; [| lia | done |].
  - destruct (decide (n = 0)) as [-> | Hne]; [cbn; lia |].
    pose proof (Z.log2_spec n ltac:(lia)) as [_ Hlt]. pose proof (Z.log2_nonneg n).
    rewrite Nat2Z.inj_succ, Z2Nat.id by lia. eapply Z.lt_le_trans; [exact Hlt |]. apply Z.pow_le_mono_l. lia.
  - cbn [length]. by rewrite Nat.add_0_r.
Qed.

(** One byte is two digits. *)
Lemma nibbles_byte w a b acc : is_byte b ->
  nibbles_of (S (S w)) (a * 256 + b) acc = nibbles_of w a (HexStr [b] ++ acc).
Proof.
  intros Hb. unfold is_byte in Hb. cbn [nibbles_of HexStr app]. rewrite Z.div_div by lia.
  replace ((a * 256 + b) / (16 * 16)) with a by (apply Z.div_unique with b; lia).
  rewrite Z.shiftr_div_pow2, (land_ones_mod b 4) by done. unfold hexchar. change (2 ^ 4) with 16.
  replace ((a * 256 + b) `mod` 16) with (b `mod` 16)
    by (replace (a * 256 + b) with (b + (a * 16) * 16) by lia; by rewrite Z.mod_add by lia).
  replace (((a * 256 + b) / 16) `mod` 16) with (b / 16); [done |].
  replace (a * 256 + b) with (b + (a * 16) * 16) by lia. rewrite Z.div_add, Z.mod_add by lia.
  symmetry. apply Z.mod_small. split; [apply Z.div_pos; lia | apply Z.div_lt_upper_bound; lia].
Qed.

(** A mask of one byte selects it. *)
Lemma land_byte x k : 0 <= k -> Z.land x (Z.shiftl 255 k) = Z.shiftl ((x / 2 ^ k) `mod` 256) k.
Proof.
  intros Hk. rewrite <- Z.shiftr_div_pow2 by lia. change 256 with (2 ^ 8). rewrite <- (land_ones_mod (Z.shiftr x k) 8 255) by done.
  apply Z.bits_inj'. intros n Hn. rewrite Z.land_spec, !Z.shiftl_spec by lia.
  destruct (Z.ltb_spec n k) as [Hlt | Hge].
  - rewrite !(Z.testbit_neg_r _ (n - k)) by lia. apply andb_false_r.
  - rewrite Z.land_spec, Z.shiftr_spec by lia. do 2 f_equal. lia.
Qed.

Lemma swap32_val x : in_u 32 x ->
  swap_endianness_32 x
  = (((x `mod` 256) * 256 + (x / 2 ^ 8) `mod` 256) * 256 + (x / 2 ^ 16) `mod` 256) * 256 + (x / 2 ^ 24) `mod` 256.
Proof.
  intros Hx. unfold swap_endianness_32.
  change 0xff000000 with (Z.shiftl 255 24). change 0x00ff0000 with (Z.shiftl 255 16).
  change 0x0000ff00 with (Z.shiftl 255 8). change (Z.land x 0x000000ff) with (Z.land x (Z.shiftl 255 0)).
  rewrite !land_byte by lia. rewrite Z.shiftr_shiftl_l, Z.shiftr_shiftl_l, !Z.shiftl_shiftl by lia.
  change (24 - 24) with 0. change (16 - 8) with 8. change (8 + 8) with 16. change (0 + 24) with 24.
  rewrite Z.shiftl_0_r, Z.pow_0_r, Z.div_1_r.
  assert (H : forall y, 0 <= y `mod` 256 < 256) by (intros; apply Z.mod_pos_bound; lia).
  pose proof (H x). pose proof (H (x / 2 ^ 8)). pose proof (H (x / 2 ^ 16)). pose proof (H (x / 2 ^ 24)).
  set (b0 := x `mod` 256) in *. set (b1 := (x / 2 ^ 8) `mod` 256) in *. set (b2 := (x / 2 ^ 16) `mod` 256) in *.
  set (b3 := (x / 2 ^ 24) `mod` 256) in *.
  rewrite (lor_add_shiftl b2 b3 8), (lor_add_shiftl b1 _ 16), (lor_add_shiftl b0 _ 24) by lia. lia.
Qed.

Lemma swap16_val x : in_u 16 x -> swap_endianness_16 x = (x `mod` 256) * 256 + (x / 2 ^ 8) `mod` 256.
Proof.
  intros Hx. unfold in_u in Hx. unfold swap_endianness_16, u16.
  assert (0 <= x / 2 ^ 8 < 256) by (split; [apply Z.div_pos; lia | apply Z.div_lt_upper_bound; lia]).
  rewrite Z.shiftr_div_pow2, lor_add_shiftl by lia. rewrite (Z.mod_small (x / 2 ^ 8)) by lia.
  pose proof (Z.div_mod x 256 ltac:(lia)). pose proof (Z.mod_pos_bound x 256 ltac:(lia)).
  symmetry. apply Z.mod_unique with (x / 256); [left; lia |]. lia.
Qed.

Lemma ToHex8 v : in_u 32 v -> ToHex v 8 = HexStr (le_bytes 4 v).
Proof.
  intros Hv. unfold ToHex. change (8 =? 2) with false. change (8 =? 4) with false. change (8 =? 8) with true. cbn iota zeta.
  assert (H : forall y, is_byte (y `mod` 256)) by (intros; apply Z.mod_pos_bound; lia).
  pose proof (H v). pose proof (H (v / 2 ^ 8)). pose proof (H (v / 2 ^ 16)). pose proof (H (v / 2 ^ 24)).
  rewrite swap32_val, hex0_fixed by (done || lia || (unfold is_byte in *; cbn; lia)).
  rewrite !nibbles_byte by done. change (nibbles_of 0 0 ?a) with a.
  rewrite (nibbles_byte 0 0 (v `mod` 256)) by done.
  cbn [nibbles_of le_bytes HexStr app]. rewrite !Z.div_div by lia. done.
Qed.

Lemma ToHex4 v : 0 <= v -> ToHex v 4 = HexStr (le_bytes 2 v).
Proof.
  intros Hv. unfold ToHex. change (4 =? 2) with false. change (4 =? 4) with true. cbn iota zeta.
  assert (H : forall y, is_byte (y `mod` 256)) by (intros; apply Z.mod_pos_bound; lia).
  assert (Hu : in_u 16 (u16 v)) by (apply Z.mod_pos_bound; lia).
  pose proof (H (u16 v)). pose proof (H (u16 v / 2 ^ 8)).
  rewrite swap16_val, hex0_fixed by (done || lia || (unfold is_byte in *; cbn; lia)).
  rewrite nibbles_byte by done. rewrite (nibbles_byte 0 0 (u16 v `mod` 256)) by done. cbn [nibbles_of le_bytes].
  assert (E : u16 v `mod` 256 = v `mod` 256) by (unfold u16; rewrite <- Znumtheory.Zmod_div_mod; [done | lia | lia | by exists 256]).
  assert (E2 : (u16 v / 2 ^ 8) `mod` 256 = (v / 256) `mod` 256).
  { unfold u16. change (2 ^ 16) with (256 * 256). change (2 ^ 8) with 256.
    rewrite Z.rem_mul_r by lia. rewrite Z.add_comm, Z.mul_comm, Z.div_add_l by lia.
    rewrite (Z.div_small (v `mod` 256)) by (apply Z.mod_pos_bound; lia). rewrite Z.add_0_r. apply Z.mod_mod. lia. }
  rewrite E, E2. done.
Qed.

(** The thirteen bytes of a bet. *)
Definition bet_bytes (lb : CLottoBet) : bytes :=
  [66; 1; 1] ++ le_bytes 4 (nDate lb) ++ le_bytes 2 (nNumber1 lb) ++ le_bytes 2 (nNumber2 lb) ++ le_bytes 2 (nNumber3 lb).

(** A bet whose fields fit their place in the encoding. *)
Definition bet_ok (lb : CLottoBet) : Prop :=
  in_u 32 (nDate lb) /\ in_u 16 (nNumber1 lb) /\ in_u 16 (nNumber2 lb) /\ in_u 16 (nNumber3 lb).

Lemma HexStr_app l k : HexStr (l ++ k) = HexStr l ++ HexStr k.
Proof. induction l as [| c l IH]; [done |]. cbn. by rewrite IH. Qed.

Lemma bet_bytes_ok lb : is_bytes (bet_bytes lb) /\ zlen (bet_bytes lb) = 13.
Proof.
  unfold bet_bytes. split.
  - repeat (apply Forall_app; split); try apply le_bytes_is_bytes. repeat constructor; unfold is_byte; lia.
  - repeat rewrite zlen_app. unfold zlen. by rewrite !le_bytes_length.
Qed.

Lemma ToOpCode_bytes lb : in_u 32 (nDate lb) -> 0 <= nNumber1 lb -> 0 <= nNumber2 lb -> 0 <= nNumber3 lb ->
  ToOpCode lb = (HexStr (bet_bytes lb), true).
Proof.
  intros H1 H2 H3 H4. unfold ToOpCode. rewrite ToHex8, !ToHex4 by done. cbn zeta.
  assert (E : BTX_HEX_PREFIX ++ str "0101" ++ HexStr (le_bytes 4 (nDate lb)) ++ HexStr (le_bytes 2 (nNumber1 lb)) ++
              HexStr (le_bytes 2 (nNumber2 lb)) ++ HexStr (le_bytes 2 (nNumber3 lb)) = HexStr (bet_bytes lb)).
  { unfold bet_bytes. by rewrite !HexStr_app. }
  rewrite E. done.
Qed.

Lemma FromChars2_val a b : is_byte a -> is_byte b -> FromChars2 a b = a + 256 * b.
Proof.
  unfold is_byte. intros. unfold FromChars2. rewrite Z.shiftl_mul_pow2 by lia. rewrite (u32_id (b * 2 ^ 8)), u32_id by lia. lia.
Qed.

Lemma FromChars4_val a b c d : is_byte a -> is_byte b -> is_byte c -> is_byte d ->
  FromChars4 a b c d = a + 256 * (b + 256 * (c + 256 * d)).
Proof.
  unfold is_byte. intros. unfold FromChars4. cbn zeta. rewrite !Z.shiftl_mul_pow2 by lia.
  rewrite (u32_id (d * 2 ^ 8)), (u32_id (d * 2 ^ 8 + c)) by lia.
  rewrite (u32_id ((d * 2 ^ 8 + c) * 2 ^ 8)), (u32_id ((d * 2 ^ 8 + c) * 2 ^ 8 + b)) by lia.
  rewrite (u32_id (((d * 2 ^ 8 + c) * 2 ^ 8 + b) * 2 ^ 8)), u32_id by lia. lia.
Qed.

Lemma char_u8 s i : is_bytes s -> u8 (char_at s i) = idx s i.
Proof.
  intros Hs. pose proof (idx_range s i Hs) as H. unfold is_byte in H. unfold char_at, u8, s8.
  rewrite Zminus_mod_idemp_l. replace (idx s i + 2 ^ 7 - 2 ^ 7) with (idx s i) by lia. apply Z.mod_small. lia.
Qed.

Lemma char_at_eq s i c : is_bytes s -> 0 <= c < 128 -> (char_at s i =? c) = (idx s i =? c).
Proof.
  intros Hs Hc. pose proof (idx_range s i Hs) as H. unfold is_byte in H. unfold char_at, s8.
  destruct (Z.ltb_spec (idx s i) 128).
  - rewrite Z.mod_small by lia. f_equal. lia.
  - replace (idx s i + 2 ^ 7) with (idx s i - 128 + 1 * 2 ^ 8) by lia. rewrite Z.mod_add, Z.mod_small by lia.
    destruct (Z.eqb_spec (idx s i - 128 - 2 ^ 7) c), (Z.eqb_spec (idx s i) c); lia || done.
Qed.

(** Evaluate [idx] at literal positions. *)
Ltac idx_lit := unfold idx in *; repeat match goal with
  | |- context [Z.to_nat ?k] => let v := eval compute in (Z.to_nat k) in change (Z.to_nat k) with v
  | H : context [Z.to_nat ?k] |- _ => let v := eval compute in (Z.to_nat k) in change (Z.to_nat k) with v in H
  end.

(** [FromOpCode], in closed form. *)
Lemma FromOpCode_list (c : list Z) : is_bytes c -> length c = 13%nat ->
  FromOpCode c =
  if (idx c 2 =? 1) && (idx c 0 =? 66) && (idx c 1 =? 1)
  then Some {| nDate := le_val (take 4 (drop 3 c)); nNumber1 := le_val (take 2 (drop 7 c));
               nNumber2 := le_val (take 2 (drop 9 c)); nNumber3 := le_val (take 2 (drop 11 c)) |}
  else None.
Proof.
  intros Hc Hl. unfold FromOpCode. replace (zlen c =? LB_OP_STRLEN / 2) with true by (unfold zlen; by rewrite Hl). cbn [negb].
  rewrite !char_u8 by done. unfold plBetTxType. rewrite char_at_eq by (done || lia).
  destruct (idx c 2 =? 1); cbn [negb andb]; [| done].
  assert (Ev : (ReadBTXFormatVersion c =? BTX_FORMAT_VERSION) = (idx c 0 =? 66) && (idx c 1 =? 1)).
  { unfold ReadBTXFormatVersion, BTX_FORMAT_VERSION. rewrite char_at_eq by (done || lia).
    destruct (idx c 0 =? 66); cbn [negb andb]; [| done].
    destruct (Z.eqb_spec (char_at c 1) 1) as [E | Hne].
    - rewrite E. cbn. symmetry. rewrite <- char_at_eq by (done || lia). by rewrite E.
    - rewrite <- char_at_eq by (done || lia). rewrite (proj2 (Z.eqb_neq (char_at c 1) 1)) by done.
      case_match; [done |]. by apply Z.eqb_neq. }
  rewrite Ev. destruct ((idx c 0 =? 66) && (idx c 1 =? 1)); cbn [negb]; [| done].
  rewrite !FromChars2_val, FromChars4_val by (by apply idx_range).
  do 13 (destruct c as [| ? c]; [done |]). destruct c; [| done].
  idx_lit. cbn [nth firstn skipn le_val]. do 2 f_equal; lia.
Qed.

Lemma FromOpCode_bet_bytes lb :
  FromOpCode (bet_bytes lb) = Some {| nDate := nDate lb `mod` 2 ^ 32; nNumber1 := nNumber1 lb `mod` 2 ^ 16;
    nNumber2 := nNumber2 lb `mod` 2 ^ 16; nNumber3 := nNumber3 lb `mod` 2 ^ 16 |}.
Proof.
  destruct (bet_bytes_ok lb) as [Hb Hl]. rewrite FromOpCode_list by (done || (unfold zlen in Hl; lia)).
  change (idx (bet_bytes lb) 2 =? 1) with true. change (idx (bet_bytes lb) 0 =? 66) with true.
  change (idx (bet_bytes lb) 1 =? 1) with true. cbn [andb].
  change (take 4 (drop 3 (bet_bytes lb))) with (le_bytes 4 (nDate lb)).
  change (take 2 (drop 7 (bet_bytes lb))) with (le_bytes 2 (nNumber1 lb)).
  change (take 2 (drop 9 (bet_bytes lb))) with (le_bytes 2 (nNumber2 lb)).
  change (take 2 (drop 11 (bet_bytes lb))) with (le_bytes 2 (nNumber3 lb)).
  by rewrite !le_val_le_bytes.
Qed.

(** C35: a bet encoded by [ToOpCode] and read back from its hexadecimal form is
    the same bet, with each number reduced to the 16 bits it is stored in; the
    encoding always has the required length. *)
Theorem FromOpCode_ToOpCode (lb : CLottoBet) :
  in_u 32 (nDate lb) -> in_u 32 (nNumber1 lb) -> in_u 32 (nNumber2 lb) -> in_u 32 (nNumber3 lb) ->
  snd (ToOpCode lb) = true /\
  FromOpCode (ParseHex (fst (ToOpCode lb)))
  = Some {| nDate := nDate lb; nNumber1 := nNumber1 lb `mod` 2 ^ 16; nNumber2 := nNumber2 lb `mod` 2 ^ 16;
            nNumber3 := nNumber3 lb `mod` 2 ^ 16 |}.
Proof.
  unfold in_u. intros H1 H2 H3 H4. rewrite ToOpCode_bytes by (done || lia). cbn [fst snd]. split; [done |].
  rewrite ParseHex_of_HexStr by apply bet_bytes_ok. rewrite FromOpCode_bet_bytes. do 2 f_equal. by apply Z.mod_small.
Qed.

Lemma FromOpCode_ToOpCode_witness :
  FromOpCode (ParseHex (fst (ToOpCode (CLottoBet_new 20200615 7 12 70000))))
  = Some {| nDate := 20200615; nNumber1 := 7; nNumber2 := 12; nNumber3 := 4464 |}.
Proof. refine (proj2 (FromOpCode_ToOpCode (CLottoBet_new 20200615 7 12 70000) _ _ _ _)); split; vm_compute; congruence. Defined.

Lemma le_bytes_val2 a n : is_bytes a -> length a = n -> le_bytes n (le_val a) = a.
Proof. intros ? <-. by apply le_bytes_le_val. Qed.

(** the bytes that [FromOpCode] accepts are exactly the encodings of the
    bets that fit: the decoder accepts no second encoding of a bet. *)
Theorem FromOpCode_canonical (op : bytes) (lb : CLottoBet) :
  is_bytes op -> FromOpCode op = Some lb <-> bet_ok lb /\ HexStr op = fst (ToOpCode lb).
Proof.
  intros Hb. split.
  - intros E. assert (Hl : length op = 13%nat).
    { unfold FromOpCode in E. destruct (zlen op =? LB_OP_STRLEN / 2) eqn:Hl; [| done].
      apply Z.eqb_eq in Hl. unfold zlen in Hl. change (LB_OP_STRLEN / 2) with 13 in Hl. lia. }
    rewrite FromOpCode_list in E by done.
    destruct ((idx op 2 =? 1) && (idx op 0 =? 66) && (idx op 1 =? 1)) eqn:Hh; [| done]. injection E as <-.
    bprop. set (lb := {| nDate := _ |}).
    assert (Hr : forall k n, (k + n <= 13)%nat -> in_u (8 * Z.of_nat n) (le_val (take n (drop k op)))).
    { intros k n Hk. unfold in_u. pose proof (le_val_bound (take n (drop k op)) ltac:(by apply Forall_take, Forall_drop)) as Hr.
      unfold zlen in Hr. rewrite length_take, length_drop, Hl in Hr. rewrite Nat.min_l in Hr by lia.
      rewrite pow256 in Hr by lia. done. }
    assert (Hok : bet_ok lb) by (split_and!; apply (Hr _ 4%nat) || apply (Hr _ 2%nat); lia).
    split; [done |]. destruct Hok as (? & ? & ? & ?). unfold in_u in *.
    rewrite ToOpCode_bytes by (done || lia). cbn [fst]. f_equal. unfold bet_bytes, lb. cbn [nDate nNumber1 nNumber2 nNumber3].
    rewrite !le_bytes_val2 by (try (by apply Forall_take, Forall_drop); rewrite length_take, length_drop, Hl; done).
    clear -Hl H H0 H1. do 13 (destruct op as [| ? op]; [done |]). destruct op; [| done].
    idx_lit. cbn [nth] in H, H0, H1. by subst.
  - intros [(H1 & H2 & H3 & H4) E]. unfold in_u in *. rewrite ToOpCode_bytes in E by (done || lia). cbn [fst] in E.
    assert (op = bet_bytes lb) as ->.
    { rewrite <- (ParseHex_of_HexStr op) by done. rewrite E. apply ParseHex_of_HexStr, bet_bytes_ok. }
    rewrite FromOpCode_bet_bytes. rewrite !Z.mod_small by lia. by destruct lb.
Qed.

Lemma FromOpCode_canonical_witness :
  FromOpCode (bet_bytes (CLottoBet_new 20200615 7 12 33)) = Some (CLottoBet_new 20200615 7 12 33).
Proof.
  apply FromOpCode_canonical; [apply bet_bytes_ok |]. split; [| reflexivity].
  unfold bet_ok, in_u. split_and!; vm_compute; congruence.
Defined.

(** ** The bet of an output *)

(** The part of the scans of [GetBetPayouts] and [listbets] that finds a bet in an
    output: its assembly string starts with [OP_RETURN] and the rest is the
    hexadecimal form of a bet. *)
Definition bet_of_output (o : CTxOut) : option CLottoBet :=
  let scriptPubKey := ScriptToAsmStr (scriptPubKey o) false in
  if (0 <? zlen scriptPubKey) && is_prefix (str "OP_RETURN") scriptPubKey
  then FromOpCode (ParseHex (drop 9 scriptPubKey))
  else None.

Lemma ParseHex_space s : ParseHex (32 :: s) = ParseHex s.
Proof. unfold ParseHex, c_str. cbn. by destruct (span _ s). Qed.

(** The output that a wallet writes for a bet is read back as that bet. *)
Lemma bet_of_output_written lb o : bet_ok lb ->
  scriptPubKey o = script_of [Op OP_RETURN; Push (bet_bytes lb)] -> bet_of_output o = Some lb.
Proof.
  intros (H1 & H2 & H3 & H4) E. destruct (bet_bytes_ok lb) as [Hb Hl]. unfold in_u in *.
  unfold bet_of_output. rewrite E, asm_OP_RETURN_push by (done || lia). cbn zeta.
  assert (Hp : (0 <? zlen (str "OP_RETURN " ++ HexStr (bet_bytes lb))) = true).
  { apply Z.ltb_lt. rewrite zlen_app. pose proof (zlen_nonneg (HexStr (bet_bytes lb))). change (zlen (str "OP_RETURN ")) with 10. lia. }
  rewrite Hp. change (is_prefix (str "OP_RETURN") (str "OP_RETURN " ++ HexStr (bet_bytes lb))) with true. cbn [andb].
  change (drop 9 (str "OP_RETURN " ++ HexStr (bet_bytes lb))) with (32 :: HexStr (bet_bytes lb)).
  rewrite ParseHex_space, ParseHex_of_HexStr, FromOpCode_bet_bytes by done. rewrite !Z.mod_small by lia. by destruct lb.
Qed.
