(* ===== verification/Block.v ===== *)
(** [primitives/block.h], [primitives/block.cpp]: block headers and blocks.

    [HashQuark], the hash of the headers before version 4, is a parameter: its
    component hashes are third-party code. *)

From Stdlib Require Import ZArith Lia.
From stdpp Require Import base tactics list numbers strings.
From S2P Require Import Prelude Script Hash Serialize Transaction.

Record CBlockHeader := {
  h_nVersion : Z;
  hashPrevBlock : bytes;
  hashMerkleRoot : bytes;
  nTime : Z;
  nBits : Z;
  nNonce : Z;
  nAccumulatorCheckpoint : bytes
}.

#[global] Instance CBlockHeader_eq_dec : EqDecision CBlockHeader.
Proof. solve_decision. Defined.

Definition CURRENT_VERSION : Z := 7.
Definition uint256_zero : bytes := replicate 32 0.

Definition CBlockHeader_SetNull : CBlockHeader :=
  {| h_nVersion := CURRENT_VERSION; hashPrevBlock := uint256_zero; hashMerkleRoot := uint256_zero;
     nTime := 0; nBits := 0; nNonce := 0; nAccumulatorCheckpoint := uint256_zero |}.
Definition CBlockHeader_IsNull (h : CBlockHeader) : bool := nBits h =? 0.
Definition GetBlockTime (h : CBlockHeader) : Z := nTime h.

(** [nVersion > 3 && nVersion < 7] *)
Definition has_checkpoint (nVersion : Z) : bool := (3 <? nVersion) && (nVersion <? 7).

Definition Serialize_CBlockHeader (h : CBlockHeader) : bytes :=
  ser_writedata32 (h_nVersion h) ++ hashPrevBlock h ++ hashMerkleRoot h ++ ser_writedata32 (nTime h) ++
  ser_writedata32 (nBits h) ++ ser_writedata32 (nNonce h) ++
  (if has_checkpoint (h_nVersion h) then nAccumulatorCheckpoint h else []).

(** Reading into an object: [nAccumulatorCheckpoint] keeps what it held when the
    version has none. *)
Definition Unserialize_CBlockHeader (self : CBlockHeader) : reader CBlockHeader := fun s =>
  let* (ver, s) := ser_readdata32 s in
  let ver := s32 ver in
  let* (prev, s) := read 32 s in
  let* (root, s) := read 32 s in
  let* (t, s) := ser_readdata32 s in
  let* (bits, s) := ser_readdata32 s in
  let* (nonce, s) := ser_readdata32 s in
  let* (acc, s) := if has_checkpoint ver then read 32 s else Ok (nAccumulatorCheckpoint self, s) in
  Ok ({| h_nVersion := ver; hashPrevBlock := prev; hashMerkleRoot := root; nTime := t; nBits := bits;
         nNonce := nonce; nAccumulatorCheckpoint := acc |}, s).

(** [CBlockHeader::GetHash]: the 80 bytes from [nVersion] to [nNonce] for old
    versions, the serialization for the others. *)
Definition CBlockHeader_GetHash (HashQuark : bytes -> bytes) (h : CBlockHeader) : bytes :=
  if h_nVersion h <? 4
  then HashQuark (ser_writedata32 (h_nVersion h) ++ hashPrevBlock h ++ hashMerkleRoot h ++
                  ser_writedata32 (nTime h) ++ ser_writedata32 (nBits h) ++ ser_writedata32 (nNonce h))
  else Hash (Serialize_CBlockHeader h).

Record CBlock := { header : CBlockHeader; vtx : list CTransaction; vchBlockSig : bytes }.

#[global] Instance CBlock_eq_dec : EqDecision CBlock.
Proof. solve_decision. Defined.

Definition CBlock_SetNull : CBlock := {| header := CBlockHeader_SetNull; vtx := []; vchBlockSig := [] |}.

Definition GetBlockHeader (b : CBlock) : CBlockHeader :=
  let h := header b in
  {| h_nVersion := h_nVersion h; hashPrevBlock := hashPrevBlock h; hashMerkleRoot := hashMerkleRoot h;
     nTime := nTime h; nBits := nBits h; nNonce := nNonce h;
     nAccumulatorCheckpoint := if has_checkpoint (h_nVersion h) then nAccumulatorCheckpoint h else uint256_zero |}.

(** [vtx.size() > 1 && vtx[1].IsCoinStake()] *)
Definition second_is_coinstake (l : list CTransaction) : bool :=
  match l with _ :: t :: _ => IsCoinStake t | _ => false end.

Definition IsProofOfStake (b : CBlock) : bool := second_is_coinstake (vtx b).
Definition IsProofOfWork (b : CBlock) : bool := negb (IsProofOfStake b).

Definition IsZerocoinStake (b : CBlock) : bool :=
  IsProofOfStake b && match vtx b with _ :: t :: _ => HasZerocoinSpendInputs t | _ => false end.

Definition GetProofOfStake (b : CBlock) : COutPoint * Z :=
  match vtx b with
  | _ :: t :: _ =>
      match vin t with
      | i :: _ => if IsCoinStake t then (prevout i, nTime (header b)) else (COutPoint_null, 0)
      | [] => (COutPoint_null, 0)
      end
  | _ => (COutPoint_null, 0)
  end.

(** The vector of transactions, as [Serialize_vector] writes it. *)
Definition Serialize_vtx (l : list CTransaction) : bytes :=
  WriteCompactSize (zlen l) ++ concat (map Serialize_CTransaction l).

Definition Serialize_CBlock (b : CBlock) : bytes :=
  Serialize_CBlockHeader (header b) ++ Serialize_vtx (vtx b) ++
  (if second_is_coinstake (vtx b) then Serialize_bytes (vchBlockSig b) else []).

Section BlockSer.
Context (bi bo bt : nat).

(** A transaction inside a vector, with the allocation batches of the platform. *)
#[local] Instance CTransaction_ser : Serializable CTransaction := {|
  Serialize := Serialize_CTransaction;
  Unserialize := Unserialize_CTransaction bi bo;
  ser_valid := tx_valid
|}.

Definition Unserialize_CBlock (self : CBlock) : reader CBlock := fun s =>
  let* (h, s) := Unserialize_CBlockHeader (header self) s in
  let* (txs, s) := Unserialize_vector bt s in
  let* (sig, s) := if second_is_coinstake txs then Unserialize_bytes s else Ok (vchBlockSig self, s) in
  Ok ({| header := h; vtx := txs; vchBlockSig := sig |}, s).
End BlockSer.

(** ** Round trip *)

Definition header_valid (h : CBlockHeader) : Prop :=
  in_s 32 (h_nVersion h) /\ length (hashPrevBlock h) = 32%nat /\ length (hashMerkleRoot h) = 32%nat /\
  in_u 32 (nTime h) /\ in_u 32 (nBits h) /\ in_u 32 (nNonce h) /\ length (nAccumulatorCheckpoint h) = 32%nat.

(** What the serialization keeps of a header read into a cleared object. *)
Definition wire_header (h : CBlockHeader) : CBlockHeader :=
  {| h_nVersion := h_nVersion h; hashPrevBlock := hashPrevBlock h; hashMerkleRoot := hashMerkleRoot h;
     nTime := nTime h; nBits := nBits h; nNonce := nNonce h;
     nAccumulatorCheckpoint := if has_checkpoint (h_nVersion h) then nAccumulatorCheckpoint h else uint256_zero |}.

Lemma header_roundtrip h rest : header_valid h ->
  Unserialize_CBlockHeader CBlockHeader_SetNull (Serialize_CBlockHeader h ++ rest) = Ok (wire_header h, rest).
Proof.
  intros (Hv & Hp & Hm & Ht & Hb & Hn & Ha). unfold Unserialize_CBlockHeader, Serialize_CBlockHeader.
  unfold ser_readdata32, ser_writedata32. rewrite <- !app_assoc, read_le_signed. cbn [res_bind]. rewrite s32_of_mod by done.
  rewrite read_app by done. cbn [res_bind]. rewrite read_app by done. cbn [res_bind].
  rewrite read_le_app by exact Ht. cbn [res_bind]. rewrite read_le_app by exact Hb. cbn [res_bind].
  rewrite read_le_app by exact Hn. cbn [res_bind]. unfold wire_header.
  destruct (has_checkpoint (h_nVersion h)); [| done]. rewrite read_app by done. done.
Qed.

Definition block_valid (b : CBlock) : Prop :=
  header_valid (header b) /\ Forall tx_valid (vtx b) /\ zlen (vtx b) <= MAX_SIZE /\ zlen (vchBlockSig b) <= MAX_SIZE.

(** a block read back from its serialization has the same transactions, the
    same header up to a checkpoint that its version does not carry, and the same
    signature exactly when it is a proof-of-stake block; the stream is left where
    the block ended. *)
Theorem Unserialize_Serialize_block (b : CBlock) (rest : bytes) (bi bo bt : nat) :
  (0 < bi)%nat -> (0 < bo)%nat -> (0 < bt)%nat -> block_valid b ->
  Unserialize_CBlock bi bo bt CBlock_SetNull (Serialize_CBlock b ++ rest)
  = Ok ({| header := GetBlockHeader b; vtx := vtx b;
           vchBlockSig := if IsProofOfStake b then vchBlockSig b else [] |}, rest).
Proof.
  intros Hbi Hbo Hbt (Hh & Ht & Hn & Hs). unfold Unserialize_CBlock, Serialize_CBlock, IsProofOfStake. cbn [header CBlock_SetNull].
  rewrite <- !app_assoc, header_roundtrip by done. cbn [res_bind].
  assert (HL : @SerializableLaws CTransaction (CTransaction_ser bi bo)) by (intros t r Hv; by apply tx_roundtrip).
  change (Serialize_vtx (vtx b)) with (@Serialize_vector CTransaction (CTransaction_ser bi bo) (vtx b)).
  rewrite Unserialize_vector_app by done. cbn [res_bind].
  destruct (second_is_coinstake (vtx b)); [| done]. rewrite Unserialize_bytes_app by done. done.
Qed.

Definition sample_block : CBlock := {| header := CBlockHeader_SetNull; vtx := [sample_tx]; vchBlockSig := [5] |}.

Lemma Unserialize_Serialize_block_witness :
  Unserialize_CBlock 2 1 1 CBlock_SetNull (Serialize_CBlock sample_block ++ [9])
  = Ok ({| header := CBlockHeader_SetNull; vtx := [sample_tx]; vchBlockSig := [] |}, [9]).
Proof.
  refine (Unserialize_Serialize_block sample_block [9] 2 1 1 _ _ _ _); [lia | lia | lia |].
  unfold block_valid. split; [| split; [apply Forall_singleton, sample_tx_valid | split; vm_compute; congruence]].
  unfold header_valid, in_s, in_u. split_and!; vm_compute; congruence.
Defined.
