(* ===== verification/Chain.v ===== *)
(** [chain.h], [chain.cpp] and the skip list of [main.cpp]: the tree of block index
    entries, the ancestors of a block, and the active chain [CChain].

    A [CBlockIndex*] is the hash of its block, the key of its entry in
    [mapBlockIndex]; a null pointer is [None]. *)

From Stdlib Require Import ZArith Lia.
From stdpp Require Import base tactics list numbers gmap sorting.
From S2P Require Import Prelude ChainParams Block.

Abbreviation ptr := bytes.

Record CBlockIndex := {
  bi_pprev : option ptr;
  bi_pskip : option ptr;
  bi_nHeight : Z;
  bi_nFile : Z;
  bi_nDataPos : Z;
  bi_nUndoPos : Z;
  bi_nChainWork : Z;
  bi_nTx : Z;
  bi_nChainTx : Z;
  bi_nStatus : Z;
  bi_vStakeModifier : bytes;
  bi_nFlags : Z;
  bi_nVersion : Z;
  bi_hashMerkleRoot : bytes;
  bi_nTime : Z;
  bi_nBits : Z;
  bi_nNonce : Z;
  bi_nAccumulatorCheckpoint : bytes;
  bi_nSequenceId : Z
}.

Abbreviation BlockMap := (gmap bytes CBlockIndex).

(** ** [BlockStatus] and flags *)

Definition BLOCK_VALID_HEADER : Z := 1.
Definition BLOCK_VALID_TREE : Z := 2.
Definition BLOCK_VALID_TRANSACTIONS : Z := 3.
Definition BLOCK_VALID_CHAIN : Z := 4.
Definition BLOCK_VALID_SCRIPTS : Z := 5.
Definition BLOCK_VALID_MASK : Z :=
  Z.lor (Z.lor (Z.lor (Z.lor BLOCK_VALID_HEADER BLOCK_VALID_TREE) BLOCK_VALID_TRANSACTIONS) BLOCK_VALID_CHAIN) BLOCK_VALID_SCRIPTS.
Definition BLOCK_HAVE_DATA : Z := 8.
Definition BLOCK_HAVE_UNDO : Z := 16.
Definition BLOCK_HAVE_MASK : Z := Z.lor BLOCK_HAVE_DATA BLOCK_HAVE_UNDO.
Definition BLOCK_FAILED_VALID : Z := 32.
Definition BLOCK_FAILED_CHILD : Z := 64.
Definition BLOCK_FAILED_MASK : Z := Z.lor BLOCK_FAILED_VALID BLOCK_FAILED_CHILD.

Definition BLOCK_PROOF_OF_STAKE : Z := Z.shiftl 1 0.
Definition BLOCK_STAKE_ENTROPY : Z := Z.shiftl 1 1.
Definition BLOCK_STAKE_MODIFIER : Z := Z.shiftl 1 2.

Definition has_flag (n f : Z) : bool := negb (Z.land n f =? 0).

Definition with_status (e : CBlockIndex) (s : Z) : CBlockIndex :=
  {| bi_pprev := bi_pprev e; bi_pskip := bi_pskip e; bi_nHeight := bi_nHeight e; bi_nFile := bi_nFile e; bi_nDataPos := bi_nDataPos e;
     bi_nUndoPos := bi_nUndoPos e; bi_nChainWork := bi_nChainWork e; bi_nTx := bi_nTx e; bi_nChainTx := bi_nChainTx e; bi_nStatus := s;
     bi_vStakeModifier := bi_vStakeModifier e; bi_nFlags := bi_nFlags e; bi_nVersion := bi_nVersion e;
     bi_hashMerkleRoot := bi_hashMerkleRoot e; bi_nTime := bi_nTime e; bi_nBits := bi_nBits e; bi_nNonce := bi_nNonce e;
     bi_nAccumulatorCheckpoint := bi_nAccumulatorCheckpoint e; bi_nSequenceId := bi_nSequenceId e |}.

Definition with_stake (e : CBlockIndex) (m : bytes) (f : Z) : CBlockIndex :=
  {| bi_pprev := bi_pprev e; bi_pskip := bi_pskip e; bi_nHeight := bi_nHeight e; bi_nFile := bi_nFile e; bi_nDataPos := bi_nDataPos e;
     bi_nUndoPos := bi_nUndoPos e; bi_nChainWork := bi_nChainWork e; bi_nTx := bi_nTx e; bi_nChainTx := bi_nChainTx e;
     bi_nStatus := bi_nStatus e; bi_vStakeModifier := m; bi_nFlags := f; bi_nVersion := bi_nVersion e;
     bi_hashMerkleRoot := bi_hashMerkleRoot e; bi_nTime := bi_nTime e; bi_nBits := bi_nBits e; bi_nNonce := bi_nNonce e;
     bi_nAccumulatorCheckpoint := bi_nAccumulatorCheckpoint e; bi_nSequenceId := bi_nSequenceId e |}.

Definition with_links (e : CBlockIndex) (prev skip : option ptr) (h : Z) : CBlockIndex :=
  {| bi_pprev := prev; bi_pskip := skip; bi_nHeight := h; bi_nFile := bi_nFile e; bi_nDataPos := bi_nDataPos e;
     bi_nUndoPos := bi_nUndoPos e; bi_nChainWork := bi_nChainWork e; bi_nTx := bi_nTx e; bi_nChainTx := bi_nChainTx e;
     bi_nStatus := bi_nStatus e; bi_vStakeModifier := bi_vStakeModifier e; bi_nFlags := bi_nFlags e; bi_nVersion := bi_nVersion e;
     bi_hashMerkleRoot := bi_hashMerkleRoot e; bi_nTime := bi_nTime e; bi_nBits := bi_nBits e; bi_nNonce := bi_nNonce e;
     bi_nAccumulatorCheckpoint := bi_nAccumulatorCheckpoint e; bi_nSequenceId := bi_nSequenceId e |}.

Definition bi_IsProofOfStake (e : CBlockIndex) : bool := has_flag (bi_nFlags e) BLOCK_PROOF_OF_STAKE.
Definition bi_IsProofOfWork (e : CBlockIndex) : bool := negb (bi_IsProofOfStake e).
Definition SetProofOfStake (e : CBlockIndex) : CBlockIndex := with_stake e (bi_vStakeModifier e) (Z.lor (bi_nFlags e) BLOCK_PROOF_OF_STAKE).
Definition GeneratedStakeModifier (e : CBlockIndex) : bool := has_flag (bi_nFlags e) BLOCK_STAKE_MODIFIER.

(** [CBlockIndex(block)] *)
Definition CBlockIndex_new (block : CBlock) : CBlockIndex :=
  let h := header block in
  let e := {| bi_pprev := None; bi_pskip := None; bi_nHeight := 0; bi_nFile := 0; bi_nDataPos := 0; bi_nUndoPos := 0;
              bi_nChainWork := 0; bi_nTx := 0; bi_nChainTx := 0; bi_nStatus := 0; bi_vStakeModifier := []; bi_nFlags := 0;
              bi_nVersion := h_nVersion h; bi_hashMerkleRoot := hashMerkleRoot h; bi_nTime := nTime h; bi_nBits := nBits h;
              bi_nNonce := nNonce h;
              bi_nAccumulatorCheckpoint := if has_checkpoint (h_nVersion h) then nAccumulatorCheckpoint h else uint256_zero;
              bi_nSequenceId := 0 |} in
  if IsProofOfStake block then SetProofOfStake e else e.

Definition SetStakeEntropyBit (e : CBlockIndex) (nEntropyBit : Z) : bool * CBlockIndex :=
  if 1 <? nEntropyBit then (false, e)
  else (true, with_stake e (bi_vStakeModifier e) (Z.lor (bi_nFlags e) (if nEntropyBit =? 0 then 0 else BLOCK_STAKE_ENTROPY))).

(** [SetStakeModifier(uint64_t, bool)] and [SetStakeModifier(const uint256&)] *)
Definition SetStakeModifierV1 (e : CBlockIndex) (nStakeModifier : Z) (fGeneratedStakeModifier : bool) : CBlockIndex :=
  with_stake e (le_bytes 8 nStakeModifier)
    (if fGeneratedStakeModifier then Z.lor (bi_nFlags e) BLOCK_STAKE_MODIFIER else bi_nFlags e).
Definition SetStakeModifierV2 (e : CBlockIndex) (nStakeModifier : bytes) : CBlockIndex := with_stake e nStakeModifier (bi_nFlags e).

Section Modifiers.
Context (consensus : ConsensusParams).

Definition GetStakeModifierV1 (e : CBlockIndex) : Z :=
  if (zlen (bi_vStakeModifier e) =? 0) || (height_start_StakeModifierV2 consensus <=? bi_nHeight e) then 0
  else le_val (bi_vStakeModifier e).
Definition GetStakeModifierV2 (e : CBlockIndex) : bytes :=
  if (zlen (bi_vStakeModifier e) =? 0) || (bi_nHeight e <? height_start_StakeModifierV2 consensus) then uint256_zero
  else bi_vStakeModifier e.
End Modifiers.

Definition bi_IsValid (e : CBlockIndex) (nUpTo : Z) : bool :=
  if has_flag (bi_nStatus e) BLOCK_FAILED_MASK then false else nUpTo <=? Z.land (bi_nStatus e) BLOCK_VALID_MASK.

Definition RaiseValidity (e : CBlockIndex) (nUpTo : Z) : bool * CBlockIndex :=
  if has_flag (bi_nStatus e) BLOCK_FAILED_MASK then (false, e)
  else if Z.land (bi_nStatus e) BLOCK_VALID_MASK <? nUpTo
  then (true, with_status e (Z.lor (Z.ldiff (bi_nStatus e) BLOCK_VALID_MASK) nUpTo))
  else (false, e).

Record CDiskBlockPos := { dp_nFile : Z; dp_nPos : Z }.
Definition CDiskBlockPos_null : CDiskBlockPos := {| dp_nFile := -1; dp_nPos := 0 |}.
Definition dp_IsNull (p : CDiskBlockPos) : bool := dp_nFile p =? -1.
Definition GetBlockPos (e : CBlockIndex) : CDiskBlockPos :=
  if has_flag (bi_nStatus e) BLOCK_HAVE_DATA then {| dp_nFile := bi_nFile e; dp_nPos := bi_nDataPos e |} else CDiskBlockPos_null.
Definition GetUndoPos (e : CBlockIndex) : CDiskBlockPos :=
  if has_flag (bi_nStatus e) BLOCK_HAVE_UNDO then {| dp_nFile := bi_nFile e; dp_nPos := bi_nUndoPos e |} else CDiskBlockPos_null.

(** ** The skip list *)

Definition InvertLowestOne (n : Z) : Z := Z.land n (n - 1).
Definition GetSkipHeight (height : Z) : Z :=
  if height <? 2 then 0
  else if Z.land height 1 =? 0 then InvertLowestOne height
  else InvertLowestOne (InvertLowestOne (height - 1)) + 1.

(** [CChain::vChain]: a null entry is [None]. *)
Abbreviation CChain := (list (option ptr)).

Section Tree.
Context (ix : BlockMap).

(** [p->nHeight] and [p->pprev]. Following a null pointer is undefined; in the model
    it gives [None], and the theorems show that it does not happen. *)
Definition height_at (p : ptr) : option Z := bi_nHeight <$> (ix !! p).
Definition prev_at (p : ptr) : option ptr := ix !! p ≫= bi_pprev.

(** [while (heightWalk > height)] of [GetAncestor]; every round lowers the height. *)
Fixpoint ancestor_walk (fuel : nat) (pindexWalk : ptr) (heightWalk height : Z) : option ptr :=
  match fuel with
  | O => Some pindexWalk
  | S fuel =>
      if height <? heightWalk then
        let heightSkip := GetSkipHeight heightWalk in
        let heightSkipPrev := GetSkipHeight (heightWalk - 1) in
        if (heightSkip =? height) ||
           ((height <? heightSkip) && negb ((heightSkipPrev <? heightSkip - 2) && (height <=? heightSkipPrev))) then
          match ix !! pindexWalk ≫= bi_pskip with
          | Some p => ancestor_walk fuel p heightSkip height
          | None => None
          end
        else
          match prev_at pindexWalk with
          | Some p => ancestor_walk fuel p (heightWalk - 1) height
          | None => None
          end
      else Some pindexWalk
  end.

Definition GetAncestor (p : ptr) (height : Z) : option ptr :=
  match height_at p with
  | None => None
  | Some nHeight =>
      if (nHeight <? height) || (height <? 0) then None
      else ancestor_walk (Z.to_nat nHeight) p nHeight height
  end.

(** [BuildSkip] for an entry of height [nHeight] under [pprev]. *)
Definition BuildSkip (pprev : option ptr) (nHeight : Z) : option ptr :=
  match pprev with Some q => GetAncestor q (GetSkipHeight nHeight) | None => None end.

(** [GetMedianTimePast]: up to eleven times, sorted, the middle one. *)
Fixpoint past_times (n : nat) (p : option ptr) : list Z :=
  match n, p with
  | S n, Some p => match ix !! p with Some e => bi_nTime e :: past_times n (bi_pprev e) | None => [] end
  | _, _ => []
  end.
Definition nMedianTimeSpan : nat := 11.
Definition GetMedianTimePast (p : ptr) : Z :=
  let l := merge_sort Z.le (past_times nMedianTimeSpan (Some p)) in
  nth (length l / 2) l 0.

(** [LastCommonAncestor]; the outer [None] is the failed [assert]. *)
Fixpoint common_walk (fuel : nat) (pa pb : option ptr) : option ptr * option ptr :=
  match fuel with
  | O => (pa, pb)
  | S fuel =>
      match pa, pb with
      | Some a, Some b => if decide (a = b) then (pa, pb) else common_walk fuel (prev_at a) (prev_at b)
      | _, _ => (pa, pb)
      end
  end.

Definition LastCommonAncestor (pa pb : ptr) : option (option ptr) :=
  match height_at pa, height_at pb with
  | Some ha, Some hb =>
      let a := if hb <? ha then GetAncestor pa hb else Some pa in
      let b := if ha <? hb then GetAncestor pb ha else Some pb in
      let '(a, b) := common_walk (S (Z.to_nat (Z.min ha hb))) a b in
      if decide (a = b) then Some a else None
  | _, _ => None
  end.

(** ** [CChain] *)

Definition chain_at (c : CChain) (nHeight : Z) : option ptr :=
  if (nHeight <? 0) || (zlen c <=? nHeight) then None else match c !! Z.to_nat nHeight with Some p => p | None => None end.
Definition Genesis (c : CChain) : option ptr := chain_at c 0.
Definition Height (c : CChain) : Z := zlen c - 1.

Fixpoint last_stake (fuel : nat) (p : ptr) : ptr :=
  match fuel, ix !! p with
  | S fuel, Some e => match bi_pprev e with Some q => if bi_IsProofOfStake e then p else last_stake fuel q | None => p end
  | _, _ => p
  end.
Definition Tip (c : CChain) (fProofOfStake : bool) : option ptr :=
  match chain_at c (Height c) with
  | None => None
  | Some p => if fProofOfStake then Some (last_stake (length c) p) else Some p
  end.

Definition Contains (c : CChain) (p : ptr) : bool :=
  match height_at p with Some h => bool_decide (chain_at c h = Some p) | None => false end.
Definition Next (c : CChain) (p : ptr) : option ptr :=
  match height_at p with Some h => if Contains c p then chain_at c (h + 1) else None | None => None end.

(** [while (pindex && vChain[pindex->nHeight] != pindex)]; the height of [pindex]
    falls by one each round. *)
Fixpoint set_tip_loop (fuel : nat) (c : CChain) (pindex : option ptr) : CChain :=
  match fuel, pindex with
  | S fuel, Some p =>
      match ix !! p with
      | None => c
      | Some e =>
          if decide (chain_at c (bi_nHeight e) = Some p) then c
          else set_tip_loop fuel (<[Z.to_nat (bi_nHeight e) := Some p]> c) (bi_pprev e)
      end
  | _, _ => c
  end.

Definition resize_chain (c : CChain) (n : nat) : CChain := take n c ++ replicate (n - length c) None.

Definition SetTip (c : CChain) (pindex : option ptr) : CChain :=
  match pindex with
  | None => []
  | Some p =>
      match height_at p with
      | None => c
      | Some h => let c := resize_chain c (Z.to_nat (h + 1)) in set_tip_loop (S (Z.to_nat h)) c (Some p)
      end
  end.

(** [GetLocator]: the blocks whose hashes it lists. *)
Fixpoint locator_loop (fuel : nat) (c : CChain) (pindex : option ptr) (nStep nHave : Z) : list ptr :=
  match fuel, pindex with
  | S fuel, Some p =>
      match height_at p with
      | None => []
      | Some h =>
          if h =? 0 then [p]
          else
            let nHeight := Z.max (h - nStep) 0 in
            let q := if Contains c p then chain_at c nHeight else GetAncestor p nHeight in
            p :: locator_loop fuel c q (if 10 <? nHave + 1 then nStep * 2 else nStep) (nHave + 1)
      end
  | _, _ => []
  end.
Definition GetLocator (c : CChain) (pindex : option ptr) : list ptr :=
  let pindex := match pindex with Some p => Some p | None => Tip c false end in
  match pindex ≫= height_at with Some h => locator_loop (S (Z.to_nat h)) c pindex 1 0 | None => [] end.

Fixpoint fork_loop (fuel : nat) (c : CChain) (pindex : option ptr) : option ptr :=
  match fuel, pindex with
  | S fuel, Some p => if Contains c p then Some p else fork_loop fuel c (prev_at p)
  | _, _ => pindex
  end.
Definition FindFork (c : CChain) (pindex : option ptr) : option ptr :=
  match pindex with
  | None => None
  | Some p =>
      match height_at p with
      | None => None
      | Some h => let p := if Height c <? h then GetAncestor p (Height c) else Some p in fork_loop (S (Z.to_nat h)) c p
      end
  end.

(** [FindForkInGlobalIndex] ([main.cpp]) *)
Definition FindForkInGlobalIndex (c : CChain) (vHave : list bytes) : option ptr :=
  match List.find (fun h => Contains c h) vHave with Some h => Some h | None => Genesis c end.
End Tree.

(** ** Ancestors by walking [pprev] *)

Fixpoint back (ix : BlockMap) (n : nat) (p : ptr) : option ptr :=
  match n with O => Some p | S n => prev_at ix p ≫= back ix n end.

(** The ancestor at a height: the reference for [GetAncestor]. *)
Definition ancestor (ix : BlockMap) (p : ptr) (height : Z) : option ptr :=
  match height_at ix p with
  | Some h => if (0 <=? height) && (height <=? h) then back ix (Z.to_nat (h - height)) p else None
  | None => None
  end.

Lemma back_add ix n k p : back ix (n + k) p = back ix n p ≫= back ix k.
Proof. revert p. induction n as [| n IH]; intros p; cbn; [done |]. destruct (prev_at ix p); cbn; [apply IH | done]. Qed.

(** An entry is linked to its parent, one lower, and to an ancestor. *)
Definition entry_linked (ix : BlockMap) (e : CBlockIndex) : Prop :=
  match bi_pprev e with
  | None => bi_nHeight e = 0
  | Some q => exists h, height_at ix q = Some h /\ 0 <= h /\ bi_nHeight e = h + 1 /\ bi_pskip e = ancestor ix q (GetSkipHeight (h + 1))
  end.
Definition linked (ix : BlockMap) : Prop := map_Forall (fun _ => entry_linked ix) ix.

Lemma invert_bounds n : 0 <= n -> 0 <= InvertLowestOne n <= n /\ (0 < n -> InvertLowestOne n < n).
Proof.
  intros Hn. unfold InvertLowestOne. destruct (decide (n = 0)) as [-> |]; [change (Z.land 0 (0 - 1)) with 0; lia |].
  assert (0 <= Z.land n (n - 1)) by (apply Z.land_nonneg; lia).
  enough (Z.land n (n - 1) <= n - 1) by lia.
  assert (E : Z.ldiff (Z.land n (n - 1)) (n - 1) = 0).
  { apply Z.bits_inj'. intros k Hk. rewrite Z.ldiff_spec, Z.land_spec, Z.bits_0. by destruct (Z.testbit n k), (Z.testbit (n - 1) k). }
  pose proof (Z.sub_nocarry_ldiff _ _ E). assert (0 <= Z.ldiff (n - 1) (Z.land n (n - 1))) by (apply Z.ldiff_nonneg; lia). lia.
Qed.

Lemma skip_bounds h : 0 < h -> 0 <= GetSkipHeight h < h.
Proof.
  intros Hh. unfold GetSkipHeight. destruct (Z.ltb_spec h 2); [lia |]. destruct (Z.land h 1 =? 0).
  - destruct (invert_bounds h ltac:(lia)) as [H1 H2]. specialize (H2 ltac:(lia)). lia.
  - destruct (invert_bounds (h - 1) ltac:(lia)) as [H1 H2]. specialize (H2 ltac:(lia)).
    destruct (invert_bounds (InvertLowestOne (h - 1)) ltac:(lia)) as [H3 _]. lia.
Qed.

Section Linked.
Context (ix : BlockMap) (Hix : linked ix).

Lemma linked_prev p h : height_at ix p = Some h -> 0 <= h /\
  (0 < h -> exists q, prev_at ix p = Some q /\ height_at ix q = Some (h - 1) /\ ix !! p ≫= bi_pskip = ancestor ix q (GetSkipHeight h)).
Proof.
  unfold height_at, prev_at. destruct (ix !! p) as [e |] eqn:E; [| done]. cbn. intros [= <-]. pose proof (Hix _ _ E) as Hl.
  unfold entry_linked in Hl. destruct (bi_pprev e) as [q |] eqn:Eq; [| rewrite Hl; lia].
  destruct Hl as (h & Hh & H0 & -> & Hs). split; [lia |]. intros _. exists q. split_and!; [done | by rewrite Z.add_simpl_r | done].
Qed.

Lemma root_prev p : height_at ix p = Some 0 -> prev_at ix p = None.
Proof.
  unfold prev_at, height_at. destruct (ix !! p) as [e |] eqn:E; [| done]. cbn. intros [= Hp]. pose proof (Hix _ _ E) as Hl.
  unfold entry_linked in Hl. destruct (bi_pprev e); [| done]. destruct Hl as (? & _ & ? & ? & _). lia.
Qed.

Lemma back_height n p h : height_at ix p = Some h -> Z.of_nat n <= h ->
  exists q, back ix n p = Some q /\ height_at ix q = Some (h - Z.of_nat n).
Proof.
  revert p h. induction n as [| n IH]; intros p h Hp Hn.
  { exists p. cbn. by rewrite Z.sub_0_r. }
  destruct (linked_prev p h Hp) as [_ Hl]. destruct (Hl ltac:(lia)) as (q & Hq & Hhq & _). cbn [back]. rewrite Hq. cbn.
  destruct (IH q (h - 1) Hhq ltac:(lia)) as (r & Hr & Hhr). exists r. split; [done |]. rewrite Hhr. f_equal. lia.
Qed.

Lemma ancestor_some p h k : height_at ix p = Some h -> 0 <= k <= h -> exists q, ancestor ix p k = Some q /\ height_at ix q = Some k.
Proof.
  intros Hp Hk. unfold ancestor. rewrite Hp. rewrite (proj2 (Z.leb_le 0 k)), (proj2 (Z.leb_le k h)) by lia. cbn [andb].
  destruct (back_height (Z.to_nat (h - k)) p h Hp ltac:(lia)) as (q & -> & Hq). exists q. split; [done |]. rewrite Hq. f_equal. lia.
Qed.

Lemma ancestor_back p h k : height_at ix p = Some h -> 0 <= k <= h -> ancestor ix p k = back ix (Z.to_nat (h - k)) p.
Proof. intros Hp Hk. unfold ancestor. rewrite Hp. by rewrite (proj2 (Z.leb_le 0 k)), (proj2 (Z.leb_le k h)) by lia. Qed.

Lemma ancestor_prev p h q k : height_at ix p = Some h -> prev_at ix p = Some q -> 0 <= k < h -> ancestor ix p k = ancestor ix q k.
Proof.
  intros Hp Hq Hk. destruct (linked_prev p h Hp) as [_ Hl]. destruct (Hl ltac:(lia)) as (q' & Hq' & Hhq & _).
  assert (q' = q) as -> by congruence. rewrite (ancestor_back p h), (ancestor_back q (h - 1)) by (done || lia).
  replace (Z.to_nat (h - k)) with (S (Z.to_nat (h - 1 - k))) by lia. cbn [back]. by rewrite Hq.
Qed.

Lemma ancestor_trans p q j k : ancestor ix p j = Some q -> 0 <= k <= j -> ancestor ix p k = ancestor ix q k.
Proof.
  intros Hq Hk. unfold ancestor in Hq. destruct (height_at ix p) as [h |] eqn:Hp; [| done].
  destruct (_ && _) eqn:E; [| done]. bprop. destruct (back_height (Z.to_nat (h - j)) p h Hp ltac:(lia)) as (q' & Hq' & Hhq).
  assert (q' = q) as -> by congruence. rewrite (ancestor_back p h), (ancestor_back q j); [| | lia | done | lia].
  - replace (Z.to_nat (h - k)) with (Z.to_nat (h - j) + Z.to_nat (j - k))%nat by lia. by rewrite back_add, Hq.
  - rewrite Hhq. f_equal. lia.
Qed.

Lemma ancestor_self p h : height_at ix p = Some h -> ancestor ix p h = Some p.
Proof. intros Hp. destruct (linked_prev p h Hp) as [H0 _]. rewrite (ancestor_back p h) by (done || lia). by rewrite Z.sub_diag. Qed.

Lemma ancestor_walk_spec fuel p h k : height_at ix p = Some h -> 0 <= k <= h -> h - k <= Z.of_nat fuel ->
  ancestor_walk ix fuel p h k = ancestor ix p k.
Proof.
  revert p h. induction fuel as [| fuel IH]; intros p h Hp Hk Hf; cbn [ancestor_walk].
  { assert (k = h) as -> by lia. by rewrite (ancestor_self p h). }
  destruct (Z.ltb_spec k h) as [Hlt | Hge]; [| assert (k = h) as -> by lia; by rewrite (ancestor_self p h)].
  destruct (linked_prev p h Hp) as [_ Hl]. destruct (Hl ltac:(lia)) as (q & Hq & Hhq & Hs). pose proof (skip_bounds h ltac:(lia)) as Hb.
  case_match eqn:Ec.
  - assert (k <= GetSkipHeight h) by (apply orb_true_iff in Ec as [? | [? _]%andb_true_iff]; bprop; lia).
    rewrite Hs. destruct (ancestor_some q (h - 1) (GetSkipHeight h) Hhq ltac:(lia)) as (r & Hr & Hhr). rewrite Hr.
    rewrite (IH r (GetSkipHeight h)) by (done || lia). rewrite (ancestor_prev p h q) by (done || lia). symmetry. apply (ancestor_trans q r (GetSkipHeight h)); [done | lia].
  - rewrite Hq, (IH q (h - 1)) by (done || lia). symmetry. apply (ancestor_prev p h q); done || lia.
Qed.

Lemma GetAncestor_ancestor p k : GetAncestor ix p k = ancestor ix p k.
Proof.
  unfold GetAncestor. destruct (height_at ix p) as [h |] eqn:Hp; [| unfold ancestor; by rewrite Hp].
  destruct (linked_prev p h Hp) as [H0 _]. destruct (Z.ltb_spec h k), (Z.ltb_spec k 0); cbn [orb].
  1-3: unfold ancestor; rewrite Hp; symmetry; destruct (Z.leb_spec 0 k), (Z.leb_spec k h); cbn [andb]; done || (exfalso; lia).
  apply ancestor_walk_spec; try done; lia.
Qed.
End Linked.

(** ** Building the tree *)

(** The part of [AddToBlockIndex] that links a new entry: parent, height, skip pointer. *)
Definition add_linked (ix : BlockMap) (hash hashPrev : bytes) (e : CBlockIndex) : BlockMap :=
  match ix !! hash with
  | Some _ => ix
  | None =>
      match ix !! hashPrev with
      | Some f => let h := bi_nHeight f + 1 in <[hash := with_links e (Some hashPrev) (BuildSkip ix (Some hashPrev) h) h]> ix
      | None => <[hash := with_links e None None 0]> ix
      end
  end.

Inductive built : BlockMap -> Prop :=
| built_empty : built ∅
| built_add ix hash hashPrev e : built ix -> built (add_linked ix hash hashPrev e).

Lemma back_insert ix t e n p : linked ix -> ix !! t = None -> height_at ix p <> None -> back (<[t := e]> ix) n p = back ix n p.
Proof.
  intros Hix Ht. revert p. induction n as [| n IH]; intros p Hp; cbn [back]; [done |].
  assert (p <> t) by (intros ->; unfold height_at in Hp; by rewrite Ht in Hp).
  assert (Hpr : prev_at (<[t := e]> ix) p = prev_at ix p) by (unfold prev_at; by rewrite lookup_insert_ne).
  rewrite Hpr. destruct (prev_at ix p) as [q |] eqn:Eq; [| done]. cbn. apply IH.
  unfold prev_at in Eq. destruct (ix !! p) as [f |] eqn:Ef; [| done]. cbn in Eq. pose proof (Hix _ _ Ef) as Hl. unfold entry_linked in Hl.
  rewrite Eq in Hl. destruct Hl as (h & -> & _). done.
Qed.

Lemma height_insert ix t e p : height_at ix p <> None -> ix !! t = None -> height_at (<[t := e]> ix) p = height_at ix p.
Proof.
  intros Hp Ht. unfold height_at. rewrite lookup_insert_ne; [done |]. intros ->. unfold height_at in Hp. by rewrite Ht in Hp.
Qed.

Lemma ancestor_insert ix t e p k : linked ix -> ix !! t = None -> height_at ix p <> None ->
  ancestor (<[t := e]> ix) p k = ancestor ix p k.
Proof.
  intros Hix Ht Hp. unfold ancestor. rewrite height_insert by done. destruct (height_at ix p) as [h |] eqn:Eh; [| done].
  case_match; [| done]. apply back_insert; [done | done | congruence].
Qed.

Lemma add_linked_linked ix hash hashPrev e : linked ix -> linked (add_linked ix hash hashPrev e).
Proof.
  intros Hix. unfold add_linked. destruct (ix !! hash) eqn:Eh; [done |].
  assert (Hold : forall d, map_Forall (fun _ => entry_linked (<[hash := d]> ix)) ix).
  { intros d p f Hf. pose proof (Hix _ _ Hf) as Hl. unfold entry_linked in *. destruct (bi_pprev f) as [q |]; [| done].
    destruct Hl as (h & Hh & H0 & Hn & Hs). exists h. rewrite height_insert, ancestor_insert by (done || congruence). by split_and!. }
  destruct (ix !! hashPrev) as [f |] eqn:Ef.
  - apply map_Forall_insert_2; [| apply Hold]. unfold entry_linked. cbn [with_links bi_pprev bi_nHeight bi_pskip].
    assert (Hf : height_at ix hashPrev = Some (bi_nHeight f)) by (unfold height_at; by rewrite Ef).
    exists (bi_nHeight f). rewrite height_insert, ancestor_insert by (done || congruence).
    destruct (linked_prev ix Hix _ _ Hf) as [H0 _]. split_and!; [done | done | done |]. apply GetAncestor_ancestor, Hix.
  - apply map_Forall_insert_2; [done | apply Hold].
Qed.

Lemma built_linked ix : built ix -> linked ix.
Proof. induction 1; [apply map_Forall_empty | by apply add_linked_linked]. Qed.

(** ** The active chain *)

(** [vChain] is the branch that ends in [p]. *)
Definition branch (ix : BlockMap) (p : ptr) (h : Z) : CChain := map (fun k => ancestor ix p (Z.of_nat k)) (seq 0 (S (Z.to_nat h))).

Definition chain_ok (ix : BlockMap) (c : CChain) : Prop :=
  c = [] \/ exists p h, height_at ix p = Some h /\ c = branch ix p h.

Lemma chain_at_lookup c k : (k < length c)%nat -> c !! k = Some (chain_at c (Z.of_nat k)).
Proof.
  intros Hk. unfold chain_at, zlen. destruct (Z.ltb_spec (Z.of_nat k) 0); [lia |].
  destruct (Z.leb_spec (Z.of_nat (length c)) (Z.of_nat k)); [lia |]. cbn [orb]. rewrite Nat2Z.id.
  destruct (lookup_lt_is_Some_2 c k Hk) as [x ->]. done.
Qed.

Section Active.
Context (ix : BlockMap) (Hix : linked ix).

Lemma branch_lookup p h k : height_at ix p = Some h -> (k <= Z.to_nat h)%nat -> branch ix p h !! k = Some (ancestor ix p (Z.of_nat k)).
Proof. intros Hp Hk. unfold branch. rewrite list_lookup_fmap, lookup_seq_lt by lia. done. Qed.

(** Below a block that is where it should be, so is every block. *)
Definition settled (c : CChain) (j : nat) : Prop :=
  forall i q, (i <= j)%nat -> c !! i = Some (Some q) -> forall k, (k <= i)%nat -> c !! k = Some (ancestor ix q (Z.of_nat k)).

Lemma chain_settled c j : chain_ok ix c -> settled c j.
Proof.
  intros [-> | (p & h & Hp & ->)]; [by intros i q _ Hi |]. intros i q _ Hi k Hk.
  assert (Hlt : (i < S (Z.to_nat h))%nat) by (apply lookup_lt_Some in Hi; unfold branch in Hi; by rewrite length_map, length_seq in Hi).
  rewrite branch_lookup in Hi by (done || lia). injection Hi as Hi. rewrite branch_lookup by (done || lia). f_equal.
  apply (ancestor_trans ix Hix p q (Z.of_nat i)); [done | lia].
Qed.

Lemma resize_settled c n j : settled c j -> settled (resize_chain c n) j.
Proof.
  intros Hc i q Hi Hq k Hk. unfold resize_chain in *. assert (Hit : take n c !! i = Some (Some q)).
  { destruct (decide (i < length (take n c))%nat); [by rewrite lookup_app_l in Hq |].
    rewrite lookup_app_r in Hq by lia. apply lookup_replicate in Hq as [? _]. done. }
  apply lookup_take_Some in Hit as [Hci Hin]. pose proof (lookup_lt_Some _ _ _ Hci).
  rewrite lookup_app_l by (rewrite length_take; lia). rewrite lookup_take_lt by lia. by eapply Hc.
Qed.

Lemma set_tip_loop_spec fuel c p h tip htip : height_at ix p = Some h -> height_at ix tip = Some htip -> h <= htip ->
  ancestor ix tip h = Some p -> h < Z.of_nat fuel -> length c = S (Z.to_nat htip) -> settled c (Z.to_nat h) ->
  (forall k, (Z.to_nat h < k)%nat -> c !! k = branch ix tip htip !! k) ->
  set_tip_loop ix fuel c (Some p) = branch ix tip htip.
Proof.
  revert c p h. induction fuel as [| fuel IH]; intros c p h Hp Htip Hle Ha Hf Hlen Hset Hup;
    destruct (linked_prev ix Hix p h Hp) as [H0 Hl]; [lia |]. cbn [set_tip_loop].
  destruct (ix !! p) as [e |] eqn:Ep; [| unfold height_at in Hp; by rewrite Ep in Hp].
  assert (Eh : bi_nHeight e = h) by (unfold height_at in Hp; rewrite Ep in Hp; by injection Hp). rewrite Eh.
  assert (Hlb : length (branch ix tip htip) = S (Z.to_nat htip)) by (unfold branch; by rewrite length_map, length_seq).
  destruct (decide (chain_at c h = Some p)) as [Ec | Ec].
  - apply list_eq. intros k. destruct (decide (Z.to_nat h < k)%nat) as [Hk | Hk]; [by apply Hup |].
    rewrite branch_lookup by (done || lia). assert (Hch : c !! Z.to_nat h = Some (Some p)).
    { rewrite chain_at_lookup by lia. rewrite Z2Nat.id by lia. by rewrite Ec. }
    rewrite (Hset _ p ltac:(done) Hch k ltac:(lia)). f_equal. symmetry. apply (ancestor_trans ix Hix tip p h); [done | lia].
  - set (c' := <[Z.to_nat h := Some p]> c).
    assert (Hlen' : length c' = S (Z.to_nat htip)) by (unfold c'; by rewrite length_insert).
    assert (Hc'h : c' !! Z.to_nat h = branch ix tip htip !! Z.to_nat h).
    { unfold c'. rewrite list_lookup_insert_eq by lia. rewrite branch_lookup by (done || lia). rewrite Z2Nat.id by lia. by rewrite Ha. }
    destruct (decide (h = 0)) as [-> | Hne].
    + assert (bi_pprev e = None) as -> by (pose proof (root_prev ix Hix p Hp) as Hr; unfold prev_at in Hr; by rewrite Ep in Hr).
      assert (E0 : set_tip_loop ix fuel c' None = c') by (by destruct fuel). rewrite E0. apply list_eq. intros [| k]; [exact Hc'h |].
      unfold c'. rewrite list_lookup_insert_ne by (cbn; lia). apply Hup. cbn. lia.
    + destruct (Hl ltac:(lia)) as (q & Hq & Hhq & _). assert (bi_pprev e = Some q) as -> by (unfold prev_at in Hq; rewrite Ep in Hq; done).
      apply (IH c' q (h - 1)); try done; try lia.
      * rewrite <- (ancestor_self ix Hix q (h - 1) Hhq), <- (ancestor_prev ix Hix p h q) by (done || lia).
        apply (ancestor_trans ix Hix tip p h); [done | lia].
      * intros i r Hi Hr k Hk. unfold c' in *. rewrite list_lookup_insert_ne in * by lia. apply (Hset i r); [lia | done | done].
      * intros k Hk. destruct (decide (k = Z.to_nat h)) as [-> | Hkne]; [exact Hc'h |]. unfold c'. rewrite list_lookup_insert_ne by lia. apply Hup. lia.
Qed.

Lemma branch_zlen p h : 0 <= h -> zlen (branch ix p h) = h + 1.
Proof. intros H0. unfold zlen, branch. rewrite length_map, length_seq. lia. Qed.

Lemma branch_at p h k : height_at ix p = Some h -> chain_at (branch ix p h) k = ancestor ix p k.
Proof.
  intros Hp. destruct (linked_prev ix Hix p h Hp) as [H0 _]. unfold chain_at. rewrite branch_zlen by done.
  destruct (Z.ltb_spec k 0), (Z.leb_spec (h + 1) k); cbn [orb];
    try (unfold ancestor; rewrite Hp; destruct (Z.leb_spec 0 k), (Z.leb_spec k h); cbn [andb]; done || (exfalso; lia)).
  rewrite branch_lookup by (done || lia). by rewrite Z2Nat.id by lia.
Qed.

Lemma branch_Tip p h : height_at ix p = Some h -> Tip ix (branch ix p h) false = Some p.
Proof.
  intros Hp. destruct (linked_prev ix Hix p h Hp) as [H0 _]. unfold Tip, Height. rewrite branch_at, branch_zlen, Z.add_simpl_r by done.
  by rewrite (ancestor_self ix Hix p h Hp).
Qed.

Lemma branch_Contains p h q : height_at ix p = Some h -> Contains ix (branch ix p h) q = true <-> exists k, ancestor ix p k = Some q.
Proof.
  intros Hp. unfold Contains. destruct (height_at ix q) as [k |] eqn:Hq.
  - rewrite bool_decide_eq_true, branch_at by done. split; [eauto |]. intros [j Hj]. enough (j = k) as <- by done.
    unfold ancestor in Hj. rewrite Hp in Hj. destruct (_ && _) eqn:E; [| done]. bprop.
    destruct (back_height ix Hix (Z.to_nat (h - j)) p h Hp ltac:(lia)) as (r & Hr & Hhr). assert (r = q) as -> by congruence. rewrite Hq in Hhr. injection Hhr. lia.
  - split; [done |]. intros [j Hj]. unfold ancestor in Hj. rewrite Hp in Hj. destruct (_ && _) eqn:E; [| done]. bprop.
    destruct (back_height ix Hix (Z.to_nat (h - j)) p h Hp ltac:(lia)) as (r & Hr & Hhr). congruence.
Qed.

Lemma SetTip_branch c p h : chain_ok ix c -> height_at ix p = Some h -> SetTip ix c (Some p) = branch ix p h.
Proof.
  intros Hc Hp. unfold SetTip. rewrite Hp. destruct (linked_prev ix Hix p h Hp) as [H0 _].
  assert (Hlen : length (resize_chain c (Z.to_nat (h + 1))) = S (Z.to_nat h)).
  { unfold resize_chain. rewrite length_app, length_take, length_replicate. lia. }
  apply (set_tip_loop_spec _ _ p h p h); try done; try lia.
  - by apply ancestor_self.
  - apply resize_settled, chain_settled, Hc.
  - intros k Hk. rewrite !lookup_ge_None_2; [done | |]; [unfold branch; rewrite length_map, length_seq; lia | lia].
Qed.
End Active.

(** ** Forks *)

Section Forks.
Context (ix : BlockMap) (Hix : linked ix).

(** [r] is the highest ancestor of [p] that satisfies [P]; none does when it is null. *)
Definition highest (P : Z -> ptr -> Prop) (p : ptr) (r : option ptr) : Prop :=
  match r with
  | Some q => exists k, ancestor ix p k = Some q /\ P k q /\ forall j a, k < j -> ancestor ix p j = Some a -> ~ P j a
  | None => forall j a, ancestor ix p j = Some a -> ~ P j a
  end.

Lemma ancestor_range p h j a : height_at ix p = Some h -> ancestor ix p j = Some a -> 0 <= j <= h.
Proof. intros Hp Ha. unfold ancestor in Ha. rewrite Hp in Ha. case_match eqn:E; [| done]. bprop. lia. Qed.

Lemma ancestor_height p h j a : height_at ix p = Some h -> ancestor ix p j = Some a -> height_at ix a = Some j.
Proof.
  intros Hp Ha. pose proof (ancestor_range p h j a Hp Ha) as Hj. destruct (ancestor_some ix Hix p h j Hp Hj) as (q & Hq & Hhq). congruence.
Qed.

Lemma highest_here P p h : height_at ix p = Some h -> P h p -> highest P p (Some p).
Proof.
  intros Hp HP. exists h. split_and!; [by apply ancestor_self | done |]. intros j a Hj Ha. pose proof (ancestor_range p h j a Hp Ha). lia.
Qed.

(** Going down from a block that does not satisfy [P]. *)
Lemma highest_down P p h r : height_at ix p = Some h -> ~ P h p ->
  match prev_at ix p with Some q => highest P q r | None => r = None end -> highest P p r.
Proof.
  intros Hp HP Hr. destruct (linked_prev ix Hix p h Hp) as [H0 Hl].
  assert (Htop : forall j a, ancestor ix p j = Some a -> h <= j -> ~ P j a).
  { intros j a Ha Hj. pose proof (ancestor_range p h j a Hp Ha). assert (j = h) as -> by lia.
    rewrite (ancestor_self ix Hix p h Hp) in Ha. by injection Ha as <-. }
  destruct (decide (h = 0)) as [-> | Hne].
  - pose proof (root_prev ix Hix p Hp) as Hn.
    rewrite Hn in Hr. subst r. intros j a Ha. apply Htop; [done |]. pose proof (ancestor_range p 0 j a Hp Ha). lia.
  - destruct (Hl ltac:(lia)) as (q & Hq & Hhq & _). rewrite Hq in Hr.
    assert (Hlow : forall j, j < h -> ancestor ix p j = ancestor ix q j).
    { intros j Hj. destruct (decide (0 <= j)); [apply (ancestor_prev ix Hix p h q); done || lia |].
      unfold ancestor. rewrite Hp, Hhq. destruct (Z.leb_spec 0 j); [lia | done]. }
    destruct r as [r |]; cbn [highest] in *.
    + destruct Hr as (k & Hk & HPk & Hup). pose proof (ancestor_range q (h - 1) k r Hhq Hk). exists k.
      split_and!; [by rewrite Hlow by lia | done |]. intros j a Hj Ha. destruct (decide (j < h)); [| apply Htop; [done | lia]].
      apply (Hup j a); [done | by rewrite <- Hlow].
    + intros j a Ha. destruct (decide (j < h)); [| apply Htop; [done | lia]]. apply Hr. by rewrite <- Hlow.
Qed.

Definition contained (c : CChain) (_ : Z) (q : ptr) : Prop := Contains ix c q = true.

Lemma fork_loop_highest fuel c p h : height_at ix p = Some h -> h < Z.of_nat fuel ->
  highest (contained c) p (fork_loop ix fuel c (Some p)).
Proof.
  revert p h. induction fuel as [| fuel IH]; intros p h Hp Hf; destruct (linked_prev ix Hix p h Hp) as [H0 Hl]; [lia |]. cbn [fork_loop].
  destruct (Contains ix c p) eqn:Ec; [by apply (highest_here _ p h) |].
  apply (highest_down _ p h); [done | unfold contained; by rewrite Ec |]. destruct (prev_at ix p) as [q |] eqn:Eq; [| by destruct fuel].
  destruct (decide (h = 0)) as [-> | Hne].
  - by rewrite (root_prev ix Hix p Hp) in Eq.
  - destruct (Hl ltac:(lia)) as (q' & [= ->] & Hhq & _). apply (IH _ (h - 1)); [done | lia].
Qed.

Lemma contains_height c p h : height_at ix p = Some h -> Contains ix c p = true -> h <= Height c.
Proof.
  intros Hp Hc. unfold Contains in Hc. rewrite Hp in Hc. apply bool_decide_eq_true in Hc. unfold chain_at in Hc. unfold Height.
  destruct (Z.leb_spec (zlen c) h); [by rewrite orb_true_r in Hc | lia].
Qed.

Lemma FindFork_highest c p h : height_at ix p = Some h -> highest (contained c) p (FindFork ix c (Some p)).
Proof.
  intros Hp. unfold FindFork. rewrite Hp. destruct (Z.ltb_spec (Height c) h) as [Hlt | Hge]; [| apply (fork_loop_highest _ c p h); [done | lia]].
  rewrite (GetAncestor_ancestor ix Hix). assert (Hup : forall j a, Height c < j -> ancestor ix p j = Some a -> ~ contained c j a).
  { intros j a Hj Ha Hcc. pose proof (contains_height c a j (ancestor_height p h j a Hp Ha) Hcc). lia. }
  pose proof (zlen_nonneg c). unfold Height in *. destruct (decide (zlen c = 0)) as [E0 | E0].
  - assert (ancestor ix p (zlen c - 1) = None) as ->.
    { unfold ancestor. rewrite Hp. destruct (Z.leb_spec 0 (zlen c - 1)); [lia | done]. }
    cbn [fork_loop highest]. intros j a Ha. apply Hup; [| done]. pose proof (ancestor_range p h j a Hp Ha). lia.
  - destruct (ancestor_some ix Hix p h (zlen c - 1) Hp ltac:(lia)) as (q & Hq & Hhq). rewrite Hq.
    pose proof (fork_loop_highest (S (Z.to_nat h)) c q (zlen c - 1) Hhq ltac:(lia)) as Hhi.
    destruct (fork_loop ix (S (Z.to_nat h)) c (Some q)) as [r |]; cbn [highest] in *.
    + destruct Hhi as (k & Hk & HPk & Hall). pose proof (ancestor_range q _ k r Hhq Hk). exists k.
      split_and!; [by rewrite (ancestor_trans ix Hix p q (zlen c - 1)) by (done || lia) | done |].
      intros j a Hj Ha. destruct (decide (zlen c - 1 < j)); [by apply Hup |]. apply (Hall j a Hj).
      rewrite <- Ha. symmetry. pose proof (ancestor_range p h j a Hp Ha). apply (ancestor_trans ix Hix p q (zlen c - 1)); [done | lia].
    + intros j a Ha. destruct (decide (zlen c - 1 < j)); [by apply Hup |]. apply (Hhi j a). rewrite <- Ha. symmetry.
      pose proof (ancestor_range p h j a Hp Ha). apply (ancestor_trans ix Hix p q (zlen c - 1)); [done | lia].
Qed.

(** A common ancestor of [p] and [b]. *)
Definition shared (b : ptr) (k : Z) (q : ptr) : Prop := ancestor ix b k = Some q.

Lemma common_walk_highest fuel a b h : height_at ix a = Some h -> height_at ix b = Some h -> h < Z.of_nat fuel ->
  exists r, common_walk ix fuel (Some a) (Some b) = (r, r) /\ highest (shared b) a r.
Proof.
  revert a b h. induction fuel as [| fuel IH]; intros a b h Ha Hb Hf; destruct (linked_prev ix Hix a h Ha) as [H0 Hla]; [lia |].
  destruct (linked_prev ix Hix b h Hb) as [_ Hlb]. cbn [common_walk]. destruct (decide (a = b)) as [-> | Hne].
  { exists (Some b). split; [done |]. apply (highest_here _ b h); [done | by apply ancestor_self]. }
  assert (HnP : ~ shared b h a) by (unfold shared; rewrite (ancestor_self ix Hix b h Hb); congruence).
  destruct (decide (h = 0)) as [-> | Hn0].
  - pose proof (root_prev ix Hix) as Hroot.
    rewrite (Hroot a Ha), (Hroot b Hb). exists None. split; [by destruct fuel |]. apply (highest_down _ a 0); [done | done |]. by rewrite (Hroot a Ha).
  - destruct (Hla ltac:(lia)) as (a' & Ea & Ha' & _). destruct (Hlb ltac:(lia)) as (b' & Eb & Hb' & _). rewrite Ea, Eb.
    destruct (IH a' b' (h - 1) Ha' Hb' ltac:(lia)) as (r & -> & Hr). exists r. split; [done |]. apply (highest_down _ a h); [done | done |].
    rewrite Ea. assert (Hsh : forall k q, ancestor ix a' k = Some q -> shared b k q <-> shared b' k q).
    { intros k q Hk. pose proof (ancestor_range a' _ k q Ha' Hk). unfold shared. by rewrite (ancestor_prev ix Hix b h b') by (done || lia). }
    destruct r as [q |]; cbn [highest] in *.
    + destruct Hr as (k & Hk & HPk & Hall). exists k. split_and!; [done | by apply Hsh |]. intros j x Hj Hx. rewrite (Hsh j x Hx). by apply Hall.
    + intros j x Hx. rewrite (Hsh j x Hx). by apply Hr.
Qed.

Lemma LastCommonAncestor_highest a b ha hb : height_at ix a = Some ha -> height_at ix b = Some hb ->
  exists r, LastCommonAncestor ix a b = Some r /\ highest (shared b) a r.
Proof.
  intros Ha Hb. unfold LastCommonAncestor. rewrite Ha, Hb. destruct (linked_prev ix Hix a ha Ha) as [Ha0 _]. destruct (linked_prev ix Hix b hb Hb) as [Hb0 _].
  rewrite !(GetAncestor_ancestor ix Hix). set (h := Z.min ha hb).
  destruct (ancestor_some ix Hix a ha h Ha ltac:(lia)) as (a' & Ea & Ha'). destruct (ancestor_some ix Hix b hb h Hb ltac:(lia)) as (b' & Eb & Hb').
  assert ((if hb <? ha then ancestor ix a hb else Some a) = Some a') as ->.
  { destruct (Z.ltb_spec hb ha); [by replace hb with h by lia |]. assert (h = ha) as Eh by lia. rewrite Eh, (ancestor_self ix Hix a ha Ha) in Ea. done. }
  assert ((if ha <? hb then ancestor ix b ha else Some b) = Some b') as ->.
  { destruct (Z.ltb_spec ha hb); [by replace ha with h by lia |]. assert (h = hb) as Eh by lia. rewrite Eh, (ancestor_self ix Hix b hb Hb) in Eb. done. }
  destruct (common_walk_highest (S (Z.to_nat h)) a' b' h Ha' Hb' ltac:(lia)) as (r & -> & Hr). rewrite decide_True by done. exists r. split; [done |].
  assert (Hja : forall j, j <= h -> ancestor ix a j = ancestor ix a' j /\ ancestor ix b j = ancestor ix b' j).
  { intros j Hj. destruct (decide (0 <= j)); [split; apply (ancestor_trans ix Hix _ _ h); done || lia |].
    unfold ancestor. rewrite Ha, Hb, Ha', Hb'. destruct (Z.leb_spec 0 j); [lia | done]. }
  assert (Hbig : forall j x, h < j -> ancestor ix a j = Some x -> ~ shared b j x).
  { intros j x Hj Hx Hs. pose proof (ancestor_range a ha j x Ha Hx). pose proof (ancestor_range b hb j x Hb Hs). lia. }
  destruct r as [q |]; cbn [highest] in *; unfold shared in *.
  - destruct Hr as (k & Hk & HPk & Hall). pose proof (ancestor_range a' h k q Ha' Hk). destruct (Hja k ltac:(lia)) as [E1 E2]. exists k.
    split_and!; [congruence | congruence |]. intros j x Hj Hx. destruct (decide (h < j)); [by apply Hbig |].
    destruct (Hja j ltac:(lia)) as [E3 E4]. rewrite E4. apply Hall; [done | congruence].
  - intros j x Hx. destruct (decide (h < j)); [by apply Hbig |]. destruct (Hja j ltac:(lia)) as [E3 E4]. rewrite E4. apply Hr. congruence.
Qed.
End Forks.

(** ** Theorems *)

(** C40: the skip list is sound: in every index that [AddToBlockIndex] can build,
    [GetAncestor] returns what walking [pprev] would, and null exactly when there is no
    such height; the walk over the skip pointers ends and never follows a null pointer. *)
Theorem GetAncestor_walks_back (ix : BlockMap) (p : ptr) (h height : Z) : built ix -> height_at ix p = Some h ->
  GetAncestor ix p height = ancestor ix p height /\
  (0 <= height <= h -> exists q, GetAncestor ix p height = Some q /\ height_at ix q = Some height).
Proof.
  intros Hb Hp. pose proof (built_linked ix Hb) as Hix. split; [by apply GetAncestor_ancestor |]. intros Hk.
  rewrite GetAncestor_ancestor by done. by apply (ancestor_some ix Hix p h).
Qed.

(** [SetTip], which stops as soon as the chain already holds the block it reaches,
    leaves exactly the branch of the new tip, block by block from the genesis block,
    when the chain was the branch of some tip before; the chain stays one. *)
Theorem SetTip_makes_branch (ix : BlockMap) (c : CChain) (p : ptr) (h : Z) : built ix -> chain_ok ix c -> height_at ix p = Some h ->
  chain_ok ix (SetTip ix c (Some p)) /\ Height (SetTip ix c (Some p)) = h /\ Tip ix (SetTip ix c (Some p)) false = Some p /\
  forall k, chain_at (SetTip ix c (Some p)) k = ancestor ix p k.
Proof.
  intros Hb Hc Hp. pose proof (built_linked ix Hb) as Hix. rewrite (SetTip_branch ix Hix c p h Hc Hp).
  destruct (linked_prev ix Hix p h Hp) as [H0 _]. split_and!; [right; by exists p, h | | by apply branch_Tip | intros k; by apply branch_at].
  unfold Height. rewrite branch_zlen by done. lia.
Qed.

(** [FindFork] returns the highest ancestor of a block that is in the chain, and
    [LastCommonAncestor] the highest block that two branches share; each returns null
    exactly when there is none, and the assertion of [LastCommonAncestor] holds. *)
Theorem forks_are_highest (ix : BlockMap) (c : CChain) (a b : ptr) (ha hb : Z) : built ix ->
  height_at ix a = Some ha -> height_at ix b = Some hb ->
  highest ix (contained ix c) a (FindFork ix c (Some a)) /\
  exists r, LastCommonAncestor ix a b = Some r /\ highest ix (shared ix b) a r.
Proof.
  intros Hbu Ha Hb. pose proof (built_linked ix Hbu) as Hix. split; [by apply (FindFork_highest ix Hix c a ha) |].
  by apply (LastCommonAncestor_highest ix Hix a b ha hb).
Qed.

(** A chain of four blocks with a branch at height 1. *)
Definition sample_index : BlockMap :=
  let e := CBlockIndex_new CBlock_SetNull in
  add_linked (add_linked (add_linked (add_linked (add_linked ∅ [0] [] e) [1] [0] e) [2] [1] e) [3] [2] e) [12] [1] e.

Lemma sample_built : built sample_index.
Proof. unfold sample_index. repeat apply built_add. apply built_empty. Qed.

Lemma GetAncestor_walks_back_witness : GetAncestor sample_index [3] 1 = Some [1].
Proof.
  destruct (GetAncestor_walks_back sample_index [3] 3 1 sample_built) as [-> _]; [vm_compute; reflexivity |]. vm_compute. reflexivity.
Defined.

Lemma SetTip_makes_branch_witness : SetTip sample_index (branch sample_index [12] 2) (Some [3]) = [Some [0]; Some [1]; Some [2]; Some [3]] /\
  Tip sample_index (SetTip sample_index (branch sample_index [12] 2) (Some [3])) false = Some [3].
Proof.
  split; [vm_compute; reflexivity |].
  apply (SetTip_makes_branch sample_index (branch sample_index [12] 2) [3] 3 sample_built); [| vm_compute; reflexivity].
  right. exists [12], 2. split; [vm_compute; reflexivity | reflexivity].
Defined.

Lemma forks_are_highest_witness : FindFork sample_index (branch sample_index [3] 3) (Some [12]) = Some [1] /\
  exists r, LastCommonAncestor sample_index [12] [3] = Some r.
Proof.
  split; [vm_compute; reflexivity |].
  destruct (forks_are_highest sample_index (branch sample_index [3] 3) [12] [3] 2 3 sample_built) as [_ (r & E & _)]; [vm_compute; reflexivity .. |].
  exists r. exact E.
Defined.
