(* ===== verification/Pow.v ===== *)
(** [pow.cpp]: the difficulty of the next block (Dark Gravity Wave before the last
    proof-of-work block, an exponential moving average after it), the check of a proof
    of work, and the work a block stands for; computed on [ArithUint256] words. *)

From Stdlib Require Import ZArith Lia.
From stdpp Require Import base tactics list numbers gmap strings.
From S2P Require Import Prelude ArithUint256 ChainParams Block Chain.

Definition bi_GetBlockTime (e : CBlockIndex) : Z := bi_nTime e.
(** [bnTarget.SetCompact(nBits)] without the flags. *)
Definition target_of (nBits : Z) : base_uint := fst (fst (SetCompact nBits)).

Definition PastBlocksMin : Z := 24.
Definition PastBlocksMax : nat := 24.

Section Pow.
Context (consensus : ConsensusParams) (fRegTest : bool) (ix : BlockMap).

(** The branch of [GetNextWorkRequired] for proof of stake; [None]: an exception, an
    assertion or a null pointer. *)
Definition pos_work_required (last : CBlockIndex) : option Z :=
  let fTimeV2 := IsTimeProtocolV2 consensus (bi_nHeight last + 1) in
  let bnTargetLimit := uint_lit 8 (ProofOfStakeLimit consensus fTimeV2) in
  let nTargetTimespan := TargetTimespan consensus fTimeV2 in
  let spacing := nTargetSpacing consensus in
  match (if bi_nHeight last =? 0 then Some 0
         else prev ← bi_pprev last ≫= (ix !!.); Some (bi_GetBlockTime last - bi_GetBlockTime prev)) with
  | None => None
  | Some nActualSpacing =>
      let nActualSpacing := if nActualSpacing <? 0 then 1 else nActualSpacing in
      let nActualSpacing := if fTimeV2 && (spacing * 10 <? nActualSpacing) then spacing * 10 else nActualSpacing in
      let bnNew := target_of (bi_nBits last) in
      let bnNew := if fTimeV2 && negb (IsTimeProtocolV2 consensus (bi_nHeight last)) then uint_shl bnNew 4 else bnNew in
      let nInterval := Z.quot nTargetTimespan spacing in
      let bnNew := uint_mul32 bnNew (u32 ((nInterval - 1) * spacing + nActualSpacing + nActualSpacing)) in
      match uint_div bnNew (uint_of 8 (u64 ((nInterval + 1) * spacing))) with
      | None => None
      | Some bnNew =>
          let bnNew := if (CompareTo bnNew (uint_of 8 0) <=? 0) || (0 <? CompareTo bnNew bnTargetLimit) then bnTargetLimit else bnNew in
          GetCompact bnNew false
      end
  end.

(** The loop over the last blocks: the average target, the time they took, their number.
    [n] counts down from [PastBlocksMax]; [CountBlocks] is the number of rounds, so it
    never passes [PastBlocksMin]. *)
Fixpoint gravity_loop (n : nat) (BlockReading : option ptr) (average : base_uint) (nActualTimespan LastBlockTime CountBlocks : Z)
    : option (base_uint * Z * Z) :=
  match n, BlockReading with
  | S n, Some p =>
      match ix !! p with
      | None => None
      | Some e =>
          if bi_nHeight e <=? 0 then Some (average, nActualTimespan, CountBlocks)
          else
            let CountBlocks := CountBlocks + 1 in
            let cur := target_of (bi_nBits e) in
            match (if CountBlocks =? 1 then Some cur
                   else uint_div (uint_add (uint_mul32 average (u32 CountBlocks)) cur) (uint_of 8 (u64 (CountBlocks + 1)))) with
            | None => None
            | Some average =>
                let nActualTimespan := if 0 <? LastBlockTime then nActualTimespan + (LastBlockTime - bi_GetBlockTime e) else nActualTimespan in
                match bi_pprev e with
                | None => Some (average, nActualTimespan, CountBlocks)
                | Some q => gravity_loop n (Some q) average nActualTimespan (bi_GetBlockTime e) CountBlocks
                end
            end
      end
  | _, _ => Some (average, nActualTimespan, CountBlocks)
  end.

(** The branch for proof of work. *)
Definition pow_work_required (pindexLast : ptr) : option Z :=
  match gravity_loop PastBlocksMax (Some pindexLast) (uint_of 8 0) 0 0 0 with
  | None => None
  | Some (average, nActualTimespan, CountBlocks) =>
      let nTimespan := CountBlocks * nTargetSpacing consensus in
      let nActualTimespan := if nActualTimespan <? Z.quot nTimespan 3 then Z.quot nTimespan 3 else nActualTimespan in
      let nActualTimespan := if nTimespan * 3 <? nActualTimespan then nTimespan * 3 else nActualTimespan in
      match uint_div (uint_mul32 average (u32 nActualTimespan)) (uint_of 8 (u64 nTimespan)) with
      | None => None
      | Some bnNew =>
          let limit := uint_lit 8 (powLimit consensus) in
          GetCompact (if 0 <? CompareTo bnNew limit then limit else bnNew) false
      end
  end.

Definition GetNextWorkRequired (pindexLast : option ptr) : option Z :=
  match pindexLast ≫= (ix !!.) with
  | None => if fRegTest then None else match pindexLast with None => GetCompact (uint_lit 8 (powLimit consensus)) false | Some _ => None end
  | Some last =>
      if fRegTest then Some (bi_nBits last)
      else if (bi_nHeight last =? 0) || (bi_nHeight last <? PastBlocksMin) then GetCompact (uint_lit 8 (powLimit consensus)) false
      else if height_last_PoW consensus <=? bi_nHeight last then pos_work_required last
      else match pindexLast with Some p => pow_work_required p | None => None end
  end.

(** [CheckProofOfWork]: the first test is never false. *)
Definition CheckProofOfWork (hash : base_uint) (nBits : Z) : bool :=
  if fRegTest || true then true
  else
    let '(bnTarget, fNegative, fOverflow) := SetCompact nBits in
    if fNegative || uint_IsNull bnTarget || fOverflow || (0 <? CompareTo bnTarget (uint_lit 8 (powLimit consensus))) then false
    else if 0 <? CompareTo hash bnTarget then false
    else true.
End Pow.

(** [GetBlockProof]; [None]: division by zero. *)
Definition GetBlockProof (nBits : Z) : option base_uint :=
  let '(bnTarget, fNegative, fOverflow) := SetCompact nBits in
  if fNegative || fOverflow || uint_IsNull bnTarget then Some (uint_of 8 0)
  else
    q ← uint_div (uint_not bnTarget) (uint_add bnTarget (uint_of 8 1));
    Some (uint_add q (uint_of 8 1)).

(** ** The work of a block *)

(** A valid target: neither negative, nor too large, nor zero. *)
Definition valid_target (nBits T : Z) : Prop := exists t, SetCompact nBits = (t, false, false) /\ val t = T /\ T <> 0.

Lemma target_shape nBits : 0 <= nBits < 2 ^ 32 -> exists t neg over, SetCompact nBits = (t, neg, over) /\ words t /\ length t = 8%nat /\
  (over = false -> val t < 2 ^ 256 - 1).
Proof.
  intros Hb. destruct (compact_split nBits Hb) as (m & g & s & -> & Hm & Hg & Hs). pose proof (SetCompact_any m g s Hm Hg Hs) as H.
  destruct (SetCompact _) as [[t neg] over]. destruct H as (Hw & Hl & _ & Hover & Hv). exists t, neg, over. split_and!; try done.
  intros E. apply Hover in E. assert (0 <= compact_value s m) as H0.
  { unfold compact_value. destruct (Z.leb_spec s 3); [apply Z.div_pos; [lia |] | apply Z.mul_nonneg_nonneg; [lia |]];
      [apply pow2_8_pos | apply Z.lt_le_incl, pow2_8_pos]; lia. }
  rewrite Hv, Z.mod_small by lia. unfold compact_value in *. destruct (Z.leb_spec s 3).
  - assert (m / 256 ^ (3 - s) <= m) by (apply Z.div_le_upper_bound; [apply pow2_8_pos; lia |]; pose proof (pow2_8_pos (3 - s)); nia). lia.
  - assert (Hdiv : (m * 256 ^ (s - 3)) `mod` 2 = 0).
    { replace (s - 3) with (1 + (s - 4)) by lia. rewrite Z.pow_add_r by lia. replace (m * (256 ^ 1 * 256 ^ (s - 4))) with (m * 128 * 256 ^ (s - 4) * 2) by lia. apply Z.mod_mul. lia. }
    destruct (Z.eq_dec (m * 256 ^ (s - 3)) (2 ^ 256 - 1)) as [E1 | ?]; [rewrite E1 in Hdiv; done | lia].
Qed.

Lemma uint_IsNull_val a : words a -> uint_IsNull a = (val a =? 0).
Proof.
  induction 1 as [| w a Hw Ha IH]; [done |]. cbn [uint_IsNull forallb val]. unfold uint_IsNull in IH. rewrite IH. unfold word in Hw. pose proof (val_bound a Ha).
  destruct (Z.eqb_spec 0 w), (Z.eqb_spec (val a) 0), (Z.eqb_spec (w + 2 ^ 32 * val a) 0); cbn; try done; lia.
Qed.

Lemma GetBlockProof_spec nBits : 0 <= nBits < 2 ^ 32 -> exists r, GetBlockProof nBits = Some r /\ words r /\ length r = 8%nat /\
  (forall T, valid_target nBits T -> val r = 2 ^ 256 / (T + 1)) /\ ((forall T, ~ valid_target nBits T) -> val r = 0).
Proof.
  intros Hb. destruct (target_shape nBits Hb) as (t & neg & over & E & Hw & Hl & Hmax). unfold GetBlockProof, valid_target. rewrite E, uint_IsNull_val by done.
  destruct neg, over, (Z.eqb_spec (val t) 0) as [Hz | Hz]; cbn [orb].
  1-7: exists (uint_of 8 0); destruct (uint_of_spec 8 0) as (V & W0 & _); [lia | lia |]; split_and!; try done; intros T (t' & Et & Ev & Hne); congruence.
  specialize (Hmax eq_refl). destruct (uint_of_spec 8 1 ltac:(lia) ltac:(lia)) as (V1 & W1 & L1). destruct (uint_not_spec t Hw) as (Vn & Wn & Ln).
  destruct (uint_add_spec t (uint_of 8 1) Hw W1 ltac:(congruence)) as (Va & Wa & La). pose proof (val_bound t Hw) as Hbd.
  assert (HM : modulus t = 2 ^ 256) by (unfold modulus, zlen; by rewrite Hl). rewrite HM in *. rewrite V1, Z.mod_small in Va by lia.
  destruct (uint_div_spec (uint_not t) (uint_add t (uint_of 8 1)) Wn Wa ltac:(congruence) ltac:(lia)) as (q & Eq & Vq & Wq & Lq).
  destruct (uint_add_spec q (uint_of 8 1) Wq W1 ltac:(congruence)) as (Vr & Wr & Lr). rewrite Eq. eexists. split; [done |]. split; [done |]. split; [congruence |].
  assert (Hval : val (uint_add q (uint_of 8 1)) = 2 ^ 256 / (val t + 1)).
  { rewrite Vr, V1, Vq, Vn, Va. rewrite (modulus_len q t), HM by congruence.
    replace (2 ^ 256) with (2 ^ 256 - 1 - val t + 1 * (val t + 1)) at 3 by lia. rewrite Z.div_add by lia. apply Z.mod_small.
    split; [assert (0 <= (2 ^ 256 - 1 - val t) / (val t + 1)) by (apply Z.div_pos; lia); lia |].
    assert ((2 ^ 256 - 1 - val t) / (val t + 1) < 2 ^ 256 - 1); [| lia]. apply Z.div_lt_upper_bound; nia. }
  split; [intros T (t' & Et & <- & _); by injection Et as <- |]. intros Hno. exfalso. apply (Hno (val t)). by exists t.
Qed.

(** the work of a block is exactly [2^256 / (target + 1)] for a target that is
    neither negative, too large nor zero, and zero otherwise; the division the code
    rearranges to stay within 256 bits never divides by zero. *)
Theorem GetBlockProof_exact nBits : 0 <= nBits < 2 ^ 32 -> exists r, GetBlockProof nBits = Some r /\ words r /\
  (forall T, valid_target nBits T -> val r = 2 ^ 256 / (T + 1)) /\ ((forall T, ~ valid_target nBits T) -> val r = 0).
Proof. intros Hb. destruct (GetBlockProof_spec nBits Hb) as (r & E & W & _ & H). by exists r. Qed.

Lemma GetBlockProof_exact_witness : exists r, GetBlockProof 0x1e0fffff = Some r /\ val r = 0x100001.
Proof.
  destruct (GetBlockProof_exact 0x1e0fffff ltac:(lia)) as (r & E & _ & Hv & _). exists r. split; [exact E |].
  rewrite (Hv (0xfffff * 256 ^ 27)); [reflexivity |]. exists (target_of 0x1e0fffff). split; [reflexivity |]. split; [reflexivity | lia].
Defined.

(** ** The next target *)

(** What the difficulty code needs of the parameters of a network. *)
Record pow_params_ok (c : ConsensusParams) : Prop := {
  spacing_pos : 0 < nTargetSpacing c < 2 ^ 32;
  timespan_pos : 0 <= nTargetTimespan c < 2 ^ 32 /\ 0 <= nTargetTimespanV2 c < 2 ^ 32;
  limits_ok : Forall (fun l => 0 < l < 2 ^ 256) [powLimit c; posLimitV1 c; posLimitV2 c]
}.

Definition entries_ok (ix : BlockMap) : Prop := map_Forall (fun _ e => 0 <= bi_nBits e < 2 ^ 32) ix.

(** The limit of the branch that a height selects. *)
Definition work_limit (c : ConsensusParams) (h : Z) : Z :=
  if (h <? PastBlocksMin) || (h <? height_last_PoW c) then powLimit c else ProofOfStakeLimit c (IsTimeProtocolV2 c (h + 1)).

(** The spacing that proof of stake counts. *)
Definition counted_spacing (c : ConsensusParams) (h time prevtime : Z) : Z :=
  let a := if time - prevtime <? 0 then 1 else time - prevtime in
  if IsTimeProtocolV2 c (h + 1) then Z.min a (nTargetSpacing c * 10) else a.

(** The moving average over integers. *)
Definition moving_target (limit T factor divisor : Z) : Z :=
  let g := T * factor / divisor in if (g =? 0) || (limit <? g) then limit else g.

Lemma target_of_words nBits : 0 <= nBits < 2 ^ 32 -> words (target_of nBits) /\ length (target_of nBits) = 8%nat.
Proof. intros Hb. unfold target_of. destruct (target_shape nBits Hb) as (t & neg & over & -> & Hw & Hl & _). done. Qed.

Lemma mul32_ok a w : words a -> words (uint_mul32 a (u32 w)) /\ length (uint_mul32 a (u32 w)) = length a /\
  val (uint_mul32 a (u32 w)) = (val a * u32 w) `mod` modulus a.
Proof.
  intros Ha. destruct (mul32_spec 0 (u32 w) a Ha (mod_word w)) as (Hv & Hw & Hl); [by unfold word |]. split_and!; try done.
  unfold uint_mul32. rewrite Hv. f_equal. lia.
Qed.

Lemma div_ok a d : words a -> length a = 8%nat -> 0 < d < 2 ^ 64 ->
  exists q, uint_div a (uint_of 8 (u64 d)) = Some q /\ words q /\ length q = 8%nat /\ val q = val a / d.
Proof.
  intros Ha Hl Hd. rewrite u64_id by lia. destruct (uint_of_spec 8 d ltac:(lia) ltac:(lia)) as (Vd & Wd & Ld).
  destruct (uint_div_spec a (uint_of 8 d) Ha Wd ltac:(congruence) ltac:(lia)) as (q & E & Vq & Wq & Lq). rewrite Vd in Vq.
  exists q. split_and!; try done. congruence.
Qed.

Lemma compact_below a : words a -> length a = 8%nat -> exists c t, GetCompact a false = Some c /\ SetCompact c = (t, false, false) /\
  val t <= val a /\ (0 < val a -> 0 < val t).
Proof.
  intros Ha Hl. destruct (GetCompact_decodes a Ha Hl) as (c & t & Hc & Hs & _ & _ & _ & Hle & Herr). exists c, t. split_and!; try done. lia.
Qed.

Section NextWork.
Context (consensus : ConsensusParams) (Hp : pow_params_ok consensus) (ix : BlockMap) (Hix : linked ix) (Hok : entries_ok ix).

Lemma limit_words l : 0 < l < 2 ^ 256 -> val (uint_lit 8 l) = l /\ words (uint_lit 8 l) /\ length (uint_lit 8 l) = 8%nat.
Proof using Type. intros Hl. apply uint_lit_spec. change (32 * Z.of_nat 8) with 256. lia. Qed.

Lemma gravity_loop_ends n p h average span last count : height_at ix p = Some h -> words average -> length average = 8%nat ->
  0 <= count -> count + Z.of_nat n < 2 ^ 31 -> exists average' span' count', gravity_loop ix n (Some p) average span last count = Some (average', span', count') /\
    words average' /\ length average' = 8%nat /\ count <= count' <= count + Z.of_nat n /\ ((0 < n)%nat -> 0 < h -> count < count').
Proof using Hix Hok.
  revert p h average span last count. induction n as [| n IH]; intros p h average span last count Hh Hw Hl Hc Hn; cbn [gravity_loop].
  { exists average, span, count. split_and!; try done; lia. }
  unfold height_at in Hh. destruct (ix !! p) as [e |] eqn:Ee; [| done]. injection Hh as Hh. destruct (target_of_words (bi_nBits e) (Hok p e Ee)) as [Wc Lc].
  destruct (Z.leb_spec (bi_nHeight e) 0); [exists average, span, count; split_and!; try done; lia |].
  set (cnt := count + 1). assert (Havg : exists avg', (if cnt =? 1 then Some (target_of (bi_nBits e))
    else uint_div (uint_add (uint_mul32 average (u32 cnt)) (target_of (bi_nBits e))) (uint_of 8 (u64 (cnt + 1)))) = Some avg' /\ words avg' /\ length avg' = 8%nat).
  { destruct (cnt =? 1); [by exists (target_of (bi_nBits e)) |]. destruct (mul32_ok average cnt Hw) as (Wm & Lm & _).
    destruct (uint_add_spec (uint_mul32 average (u32 cnt)) (target_of (bi_nBits e)) Wm Wc ltac:(congruence)) as (_ & Wa & La).
    destruct (div_ok _ (cnt + 1) Wa ltac:(congruence) ltac:(lia)) as (q & Eq & Wq & Lq & _). eauto. }
  destruct Havg as (avg' & -> & Wa & La). pose proof (Hix p e Ee) as Hlink. unfold entry_linked in Hlink.
  destruct (bi_pprev e) as [q |]; [| lia]. destruct Hlink as (hq & Hhq & _ & _ & _).
  match goal with |- context [gravity_loop ix n (Some q) avg' ?sp ?l cnt] => destruct (IH q hq avg' sp l cnt Hhq Wa La) as (a' & s' & c' & -> & Wr & Lr & Hcr & _); [lia | lia |] end.
  exists a', s', c'. split_and!; try done; lia.
Qed.

Lemma pow_required p h : height_at ix p = Some h -> 0 < h -> exists c t,
  pow_work_required consensus ix p = Some c /\ SetCompact c = (t, false, false) /\ val t <= powLimit consensus.
Proof using Hp Hix Hok.
  intros Hh Hpos. destruct Hp as [Hsp _ Hlim]. rewrite !Forall_cons in Hlim. destruct Hlim as (Hlim & _).
  destruct (uint_of_spec 8 0 ltac:(lia) ltac:(lia)) as (_ & W0 & L0).
  destruct (gravity_loop_ends PastBlocksMax p h (uint_of 8 0) 0 0 0 Hh W0 L0) as (avg & span & cnt & E & Wa & La & Hc & Hc1); [done | done |].
  unfold pow_work_required. rewrite E. specialize (Hc1 ltac:(unfold PastBlocksMax; lia) Hpos). change (Z.of_nat PastBlocksMax) with 24 in Hc.
  match goal with |- context [uint_mul32 avg (u32 ?x)] => set (f := x) end.
  destruct (mul32_ok avg f Wa) as (Wm & Lm & _). destruct (div_ok _ (cnt * nTargetSpacing consensus) Wm ltac:(congruence) ltac:(nia)) as (q & -> & Wq & Lq & _).
  destruct (limit_words _ Hlim) as (Vl & Wl & Ll).
  set (r := if 0 <? CompareTo q (uint_lit 8 (powLimit consensus)) then uint_lit 8 (powLimit consensus) else q).
  assert (Hr : words r /\ length r = 8%nat /\ val r <= powLimit consensus).
  { unfold r. rewrite CompareTo_sign by congruence. rewrite Vl. unfold sign_of.
    destruct (Z.ltb_spec (val q) (powLimit consensus)); [cbn [Z.ltb Z.compare]; split_and!; [done | done | lia] |].
    destruct (Z.ltb_spec (powLimit consensus) (val q)); cbn [Z.ltb Z.compare]; rewrite ?Vl; split_and!; done || lia. }
  destruct Hr as (Wr & Lr & Hle). destruct (compact_below r Wr Lr) as (c & t & Hc' & Hs & Ht & _). exists c, t. split_and!; try done. lia.
Qed.

Lemma pos_required p last : ix !! p = Some last -> 0 < bi_nHeight last -> exists c t prev,
  pos_work_required consensus ix last = Some c /\ SetCompact c = (t, false, false) /\
  bi_pprev last ≫= (ix !!.) = Some prev /\
  0 < val t <= ProofOfStakeLimit consensus (IsTimeProtocolV2 consensus (bi_nHeight last + 1)) /\
  let v2 := IsTimeProtocolV2 consensus (bi_nHeight last + 1) in
  let interval := Z.quot (TargetTimespan consensus v2) (nTargetSpacing consensus) in
  let spacing := counted_spacing consensus (bi_nHeight last) (bi_nTime last) (bi_nTime prev) in
  let factor := (interval - 1) * nTargetSpacing consensus + 2 * spacing in
  let T := val (target_of (bi_nBits last)) * (if v2 && negb (IsTimeProtocolV2 consensus (bi_nHeight last)) then 16 else 1) in
  (0 <= factor < 2 ^ 32 -> T * factor < 2 ^ 256 -> T < 2 ^ 256 ->
   GetCompact (uint_lit 8 (moving_target (ProofOfStakeLimit consensus v2) T factor ((interval + 1) * nTargetSpacing consensus))) false = Some c).
Proof using Hp Hix Hok.
  intros Ee Hpos. destruct Hp as [Hsp [Ht1 Ht2] Hlim]. rewrite !Forall_cons in Hlim. destruct Hlim as (_ & Hl1 & Hl2 & _).
  set (v2 := IsTimeProtocolV2 consensus (bi_nHeight last + 1)). set (S := nTargetSpacing consensus) in *.
  assert (HL : 0 < ProofOfStakeLimit consensus v2 < 2 ^ 256) by (unfold ProofOfStakeLimit; by destruct v2).
  assert (HT : 0 <= TargetTimespan consensus v2 < 2 ^ 32) by (unfold TargetTimespan; by destruct v2).
  pose proof (Hix p last Ee) as Hlink. unfold entry_linked in Hlink. destruct (bi_pprev last) as [q |] eqn:Eq; [| lia].
  destruct Hlink as (hq & Hhq & _). unfold height_at in Hhq. destruct (ix !! q) as [prev |] eqn:Ep; [| done].
  destruct (target_of_words (bi_nBits last) (Hok p last Ee)) as [Wt Lt]. unfold pos_work_required. fold v2 S. rewrite Eq. cbn [mbind option_bind]. rewrite Ep.
  cbn [mbind option_bind]. destruct (Z.eqb_spec (bi_nHeight last) 0); [lia |]. unfold bi_GetBlockTime.
  match goal with |- context [uint_mul32 ?b (u32 ((?i - 1) * S + ?a + ?a))] => set (bn := b); set (spacing := a); set (interval := i) in * end.
  assert (Hspacing : spacing = counted_spacing consensus (bi_nHeight last) (bi_nTime last) (bi_nTime prev)).
  { unfold spacing, counted_spacing. fold v2 S. destruct v2; cbn [andb]; [| done].
    set (a := if bi_nTime last - bi_nTime prev <? 0 then 1 else bi_nTime last - bi_nTime prev). destruct (Z.ltb_spec (S * 10) a); lia. }
  assert (Hint : 0 <= interval <= TargetTimespan consensus v2).
  { unfold interval. rewrite Z.quot_div_nonneg by lia. split; [apply Z.div_pos; lia | apply Z.div_le_upper_bound; nia]. }
  assert (Hbn : words bn /\ length bn = 8%nat /\
    val bn = (val (target_of (bi_nBits last)) * (if v2 && negb (IsTimeProtocolV2 consensus (bi_nHeight last)) then 16 else 1)) `mod` 2 ^ 256).
  { assert (HM : modulus (target_of (bi_nBits last)) = 2 ^ 256) by (unfold modulus, zlen; by rewrite Lt). unfold bn. destruct (v2 && _).
    - destruct (uint_shl_spec (target_of (bi_nBits last)) 4 Wt ltac:(lia)) as (Vs & Ws & Ls). rewrite HM in Vs. split_and!; [done | congruence | done].
    - split_and!; [done | done |]. rewrite Z.mul_1_r. pose proof (val_bound _ Wt). rewrite Z.mod_small; [done | congruence]. }
  destruct Hbn as (Wb & Lb & Vb). assert (HM : modulus bn = 2 ^ 256) by (unfold modulus, zlen; by rewrite Lb).
  destruct (mul32_ok bn ((interval - 1) * S + spacing + spacing) Wb) as (Wm & Lm & Vm). rewrite HM in Vm.
  destruct (div_ok _ ((interval + 1) * S) Wm ltac:(congruence) ltac:(nia)) as (d & -> & Wd & Ld & Vd).
  destruct (limit_words _ HL) as (Vl & Wl & Ll). destruct (uint_of_spec 8 0 ltac:(lia) ltac:(lia)) as (V0 & W0 & L0).
  rewrite !CompareTo_sign by congruence. rewrite Vl, V0. set (L := ProofOfStakeLimit consensus v2) in *. pose proof (val_bound d Wd) as Hbd.
  assert (Hpick : (sign_of (val d) 0 <=? 0) || (0 <? sign_of (val d) L) = ((val d =? 0) || (L <? val d))).
  { unfold sign_of. destruct (Z.ltb_spec (val d) 0), (Z.ltb_spec 0 (val d)), (Z.ltb_spec (val d) L), (Z.ltb_spec L (val d)), (Z.eqb_spec (val d) 0); try done; lia. }
  rewrite Hpick. set (r := if (val d =? 0) || (L <? val d) then uint_lit 8 L else d).
  assert (Hr : words r /\ length r = 8%nat /\ 0 < val r <= L /\ val r = (if (val d =? 0) || (L <? val d) then L else val d)).
  { unfold r. destruct (Z.eqb_spec (val d) 0), (Z.ltb_spec L (val d)); cbn [orb]; rewrite ?Vl; split_and!; done || lia. }
  destruct Hr as (Wr & Lr & Hrange & Vr). destruct (compact_below r Wr Lr) as (c & t & Hc & Hs & Ht & Htp). exists c, t, prev. split_and!; try done; [lia | lia |].
  cbv zeta. rewrite <- Hspacing. set (T := val (target_of (bi_nBits last)) * _) in *. intros Hf HTF HTB. pose proof (val_bound _ Wt) as Hbt.
  assert (HT0 : 0 <= T) by (unfold T; destruct (v2 && _); lia). rewrite Z.mod_small in Vb by lia.
  assert (Vd' : val d = T * ((interval - 1) * S + 2 * spacing) / ((interval + 1) * S)).
  { rewrite Vd, Vm, Vb. replace ((interval - 1) * S + spacing + spacing) with ((interval - 1) * S + 2 * spacing) by lia.
    rewrite u32_id by lia. rewrite Z.mod_small by nia. done. }
  assert (Hmt : val r = moving_target L T ((interval - 1) * S + 2 * spacing) ((interval + 1) * S)) by (unfold moving_target; by rewrite Vr, Vd').
  rewrite <- Hc, <- Hmt. f_equal. assert (Hr' : 0 < val r < 2 ^ 256) by lia. destruct (limit_words _ Hr') as (V' & W' & L').
  apply val_inj; congruence.
Qed.
End NextWork.

(** for every block of a linked tree the next target exists (no division by zero,
    no failed assertion, no null pointer), is neither negative nor too large, and is
    at most the limit of the block's phase; in the proof-of-stake phase it is positive
    and, when the product fits 256 bits, it is the moving average
    [T * ((interval - 1) * S + 2 * spacing) / ((interval + 1) * S)] computed over the integers,
    replaced by the limit when zero or above it. *)
Theorem GetNextWorkRequired_target consensus ix p last :
  pow_params_ok consensus -> linked ix -> entries_ok ix -> ix !! p = Some last ->
  exists c t, GetNextWorkRequired consensus false ix (Some p) = Some c /\ SetCompact c = (t, false, false) /\
    val t <= work_limit consensus (bi_nHeight last) /\
    (PastBlocksMin <= bi_nHeight last -> height_last_PoW consensus <= bi_nHeight last -> 0 < val t /\
     exists prev, bi_pprev last ≫= (ix !!.) = Some prev /\
     let v2 := IsTimeProtocolV2 consensus (bi_nHeight last + 1) in
     let interval := Z.quot (TargetTimespan consensus v2) (nTargetSpacing consensus) in
     let spacing := counted_spacing consensus (bi_nHeight last) (bi_nTime last) (bi_nTime prev) in
     let factor := (interval - 1) * nTargetSpacing consensus + 2 * spacing in
     let T := val (target_of (bi_nBits last)) * (if v2 && negb (IsTimeProtocolV2 consensus (bi_nHeight last)) then 16 else 1) in
     (0 <= factor < 2 ^ 32 -> T * factor < 2 ^ 256 -> T < 2 ^ 256 ->
      GetCompact (uint_lit 8 (moving_target (ProofOfStakeLimit consensus v2) T factor ((interval + 1) * nTargetSpacing consensus))) false = Some c)).
Proof.
  intros Hp Hix Hok Ee. unfold GetNextWorkRequired, work_limit. cbn [mbind option_bind]. rewrite Ee. set (h := bi_nHeight last).
  assert (Hmin : PastBlocksMin = 24) by done. assert (Hh : height_at ix p = Some h) by (unfold height_at; by rewrite Ee).
  destruct (Z.ltb_spec h PastBlocksMin) as [Hlt | Hge].
  - rewrite orb_true_r. cbn [orb]. destruct Hp as [_ _ Hlim]. rewrite !Forall_cons in Hlim. destruct Hlim as (Hlim & _).
    destruct (limit_words _ Hlim) as (V & Wl & Ll). destruct (compact_below _ Wl Ll) as (c & t & Hc & Hs & Ht & _).
    exists c, t. split_and!; [done | done | lia | intros; exfalso; lia].
  - destruct (Z.eqb_spec h 0); [lia |]. cbn [orb]. destruct (Z.leb_spec (height_last_PoW consensus) h), (Z.ltb_spec h (height_last_PoW consensus)); try lia.
    + destruct (pos_required consensus Hp ix Hix Hok p last Ee ltac:(fold h; lia)) as (c & t & prev & Hc & Hs & Hpr & Hrange & Hform).
      fold h in Hrange. exists c, t. split; [done |]. split; [done |]. split; [lia |]. intros _ _. split; [lia |]. by exists prev.
    + destruct (pow_required consensus Hp ix Hix Hok p h Hh ltac:(lia)) as (c & t & Hc & Hs & Ht). exists c, t. split_and!; [done | done | lia | intros; exfalso; lia].
Qed.

(** ** A sample chain: a block a minute *)

Definition sample_block (h : Z) : CBlock :=
  let b := CBlock_SetNull in
  {| header := {| h_nVersion := 7; hashPrevBlock := []; hashMerkleRoot := []; nTime := 1600000000 + 60 * h; nBits := 0x1d0fffff; nNonce := 0;
                  nAccumulatorCheckpoint := [] |}; vtx := vtx b; vchBlockSig := vchBlockSig b |}.
Definition sample_minutes (n : nat) : BlockMap :=
  foldl (fun ix i => add_linked ix [Z.of_nat i] [Z.of_nat i - 1] (CBlockIndex_new (sample_block (Z.of_nat i)))) ∅ (seq 0 n).

Lemma sample_minutes_built n : built (sample_minutes n).
Proof.
  unfold sample_minutes. generalize (seq 0 n) as l. assert (H : built ∅) by constructor. revert H. generalize (∅ : BlockMap) as ix.
  intros ix H l. revert ix H. induction l as [| i l IH]; intros ix H; cbn [foldl]; [done |]. apply IH. by constructor.
Qed.

Lemma add_linked_ok ix hash hashPrev e : entries_ok ix -> 0 <= bi_nBits e < 2 ^ 32 -> entries_ok (add_linked ix hash hashPrev e).
Proof. intros Hix He. unfold add_linked. destruct (ix !! hash); [done |]. destruct (ix !! hashPrev); by apply map_Forall_insert_2. Qed.

Lemma sample_minutes_ok n : entries_ok (sample_minutes n).
Proof.
  unfold sample_minutes. generalize (seq 0 n) as l. assert (H : entries_ok ∅) by apply map_Forall_empty. revert H. generalize (∅ : BlockMap) as ix.
  intros ix H l. revert ix H. induction l as [| i l IH]; intros ix H; cbn [foldl]; [done |]. apply IH. by apply add_linked_ok.
Qed.

Lemma mainConsensus_pow : pow_params_ok mainConsensus.
Proof. constructor; [done | done |]. rewrite !Forall_cons. split_and!; try done; apply Forall_nil_2. Qed.

Lemma GetNextWorkRequired_target_witness : exists c t,
  GetNextWorkRequired mainConsensus false (sample_minutes 26) (Some [25]) = Some c /\
  SetCompact c = (t, false, false) /\ val t <= powLimit mainConsensus.
Proof.
  assert (exists last, sample_minutes 26 !! [25] = Some last) as [last Hl] by (vm_compute; eauto).
  destruct (GetNextWorkRequired_target mainConsensus (sample_minutes 26) [25] last mainConsensus_pow (built_linked _ (sample_minutes_built 26)) (sample_minutes_ok 26) Hl)
    as (c & t & Hc & Ht & Hle & _). exists c, t. split; [exact Hc |]. split; [exact Ht |].
  assert (bi_nHeight last = 25) as E by (vm_compute in Hl; injection Hl as <-; reflexivity). rewrite E in Hle. exact Hle.
Defined.

(** On schedule, the proof-of-stake target does not move. *)
Example pos_work_steady : (last ← sample_minutes 3 !! [2]; pos_work_required mainConsensus (sample_minutes 3) last) = Some 0x1d0fffff.
Proof. vm_compute. reflexivity. Qed.
