(* ===== verification/StakeModifier.v ===== *)
(** The stake modifier ([legacy/stakemodifier.cpp], [chain.cpp]): the 64 bits collected
    from past blocks, one from each of up to 64 selection rounds, and the hash chain that
    replaced them. *)

From Stdlib Require Import ZArith Lia.
From stdpp Require Import base tactics list numbers gmap sorting.
From S2P Require Import Prelude ArithUint256 Hash ChainParams Block Chain Pow.

Definition MODIFIER_INTERVAL : Z := 60.
Definition MODIFIER_INTERVAL_RATIO : Z := 3.
Definition OLD_MODIFIER_INTERVAL : Z := 2087.

(** A [uint256] as its words. *)
Definition uint_of_hash (h : bytes) : base_uint := uint_lit 8 (le_val h).

(** The low bit of the block's hash. *)
Definition GetStakeEntropyBit (hash : bytes) : Z := Z.land (GetLow64 (uint_of_hash hash)) 1.

(** [None]: the [assert] fails. *)
Definition GetStakeModifierSelectionIntervalSection (nSection : Z) : option Z :=
  if (0 <=? nSection) && (nSection <? 64)
  then Some (u32 (MODIFIER_INTERVAL * 63) / u32 (63 + (63 - nSection) * (MODIFIER_INTERVAL_RATIO - 1)))
  else None.

(** A candidate: the time of a block and its hash, in the order of [std::pair]. *)
Abbreviation stamp := (Z * ptr)%type.
Definition stamp_le (a b : stamp) : Prop := a.1 < b.1 \/ (a.1 = b.1 /\ CompareTo (uint_of_hash a.2) (uint_of_hash b.2) <= 0).
#[global] Instance stamp_le_dec : RelDecision stamp_le.
Proof. intros a b. unfold stamp_le. apply _. Defined.

Section Modifier.
Context (consensus : ConsensusParams) (ix : BlockMap).

Definition selection_hash (fModifierV2 : bool) (nStakeModifierPrev : Z) (h : ptr) (e : CBlockIndex) : base_uint :=
  let hashProof := if fModifierV2 then h else if bi_IsProofOfStake e then uint256_zero else h in
  let hashSelection := uint_of_hash (Hash (hashProof ++ le_bytes 8 nStakeModifierPrev)) in
  if bi_IsProofOfStake e then uint_shr hashSelection 32 else hashSelection.

(** The loop over the candidates. [best] is [None] until [fSelected]; [v2] is [None]
    while [fFirstRun]. The result [None] is a candidate that is not in the index. *)
Fixpoint select_loop (l : list stamp) (mapSelectedBlocks : gset ptr) (nSelectionIntervalStop nStakeModifierPrev : Z)
    (v2 : option bool) (best : option (base_uint * ptr)) : option (option (base_uint * ptr)) :=
  match l with
  | [] => Some best
  | (_, h) :: l =>
      match ix !! h with
      | None => None
      | Some e =>
          if match best with Some _ => nSelectionIntervalStop <? bi_GetBlockTime e | None => false end then Some best
          else
            let fModifierV2 := match v2 with Some b => b | None => height_start_StakeModifierNewSelection consensus <=? bi_nHeight e end in
            let best :=
              if decide (h ∈ mapSelectedBlocks) then best
              else
                let hashSelection := selection_hash fModifierV2 nStakeModifierPrev h e in
                match best with
                | Some (hashBest, _) => if CompareTo hashSelection hashBest <? 0 then Some (hashSelection, h) else best
                | None => Some (hashSelection, h)
                end in
            select_loop l mapSelectedBlocks nSelectionIntervalStop nStakeModifierPrev (Some fModifierV2) best
      end
  end.

(** The selected block; [None]: the function returns false. *)
Definition SelectBlockFromCandidates (vSortedByTimestamp : list stamp) (mapSelectedBlocks : gset ptr)
    (nSelectionIntervalStop nStakeModifierPrev : Z) : option ptr :=
  snd <$> mjoin (select_loop vSortedByTimestamp mapSelectedBlocks nSelectionIntervalStop nStakeModifierPrev None None).

(** [while (p && p->pprev && !p->GeneratedStakeModifier())] *)
Fixpoint last_generated (fuel : nat) (p : ptr) : ptr :=
  match fuel, ix !! p with
  | S fuel, Some e =>
      match bi_pprev e with Some q => if GeneratedStakeModifier e then p else last_generated fuel q | None => p end
  | _, _ => p
  end.

(** [while (pindex && pindex->GetBlockTime() >= nSelectionIntervalStart)] *)
Fixpoint candidates_from (fuel : nat) (pindex : option ptr) (nSelectionIntervalStart : Z) : list stamp :=
  match fuel, pindex with
  | S fuel, Some p =>
      match ix !! p with
      | None => []
      | Some e => if nSelectionIntervalStart <=? bi_GetBlockTime e
                  then (bi_GetBlockTime e, p) :: candidates_from fuel (bi_pprev e) nSelectionIntervalStart else []
      end
  | _, _ => []
  end.

(** The rounds [nRound .. nRound + n - 1]; [None]: no block could be selected. *)
Fixpoint rounds_loop (n : nat) (nRound : Z) (vSortedByTimestamp : list stamp) (mapSelectedBlocks : gset ptr)
    (nSelectionIntervalStop nStakeModifier nStakeModifierNew : Z) : option Z :=
  match n with
  | O => Some nStakeModifierNew
  | S n =>
      section ← GetStakeModifierSelectionIntervalSection nRound;
      let nSelectionIntervalStop := nSelectionIntervalStop + section in
      p ← SelectBlockFromCandidates vSortedByTimestamp mapSelectedBlocks nSelectionIntervalStop nStakeModifier;
      let nStakeModifierNew := Z.lor nStakeModifierNew (u64 (Z.shiftl (GetStakeEntropyBit p) nRound)) in
      rounds_loop n (nRound + 1) vSortedByTimestamp ({[p]} ∪ mapSelectedBlocks) nSelectionIntervalStop nStakeModifier nStakeModifierNew
  end.

(** [uint64_t("stakemodifier")] is the address of the literal. *)
Context (literal : Z).

(** The result, [nStakeModifier] and [fGeneratedStakeModifier]. *)
Definition ComputeNextStakeModifier (pindexPrev : option ptr) : bool * Z * bool :=
  match pindexPrev with
  | None => (true, 0, true)
  | Some prev =>
      match ix !! prev with
      | None => (false, 0, false)
      | Some ep =>
          if bi_nHeight ep =? 0 then (true, u64 literal, true)
          else
            match ix !! last_generated (Z.to_nat (bi_nHeight ep)) prev with
            | None => (false, 0, false)
            | Some e =>
                if negb (GeneratedStakeModifier e) then (false, 0, false)
                else
                  let nStakeModifier := GetStakeModifierV1 consensus e in
                  let nModifierTime := bi_GetBlockTime e in
                  if Z.quot (bi_GetBlockTime ep) MODIFIER_INTERVAL <=? Z.quot nModifierTime MODIFIER_INTERVAL then (true, nStakeModifier, false)
                  else
                    let nSelectionIntervalStart := Z.quot (bi_GetBlockTime ep) MODIFIER_INTERVAL * MODIFIER_INTERVAL - OLD_MODIFIER_INTERVAL in
                    let vSortedByTimestamp :=
                      merge_sort stamp_le (reverse (candidates_from (S (Z.to_nat (bi_nHeight ep))) (Some prev) nSelectionIntervalStart)) in
                    match rounds_loop (Nat.min 64 (length vSortedByTimestamp)) 0 vSortedByTimestamp ∅ nSelectionIntervalStart nStakeModifier 0 with
                    | None => (false, nStakeModifier, false)
                    | Some nStakeModifierNew => (true, nStakeModifierNew, true)
                    end
            end
      end
  end.

(** [CBlockIndex::SetNewStakeModifier()]: a failure is only logged. *)
Definition SetNewStakeModifierV1 (hash : ptr) (self : CBlockIndex) : CBlockIndex :=
  let self := snd (SetStakeEntropyBit self (GetStakeEntropyBit hash)) in
  let '(_, nStakeModifier, fGeneratedStakeModifier) := ComputeNextStakeModifier (bi_pprev self) in
  SetStakeModifierV1 self nStakeModifier fGeneratedStakeModifier.

(** [CBlockIndex::SetNewStakeModifier(prevoutId)]; [None]: the exception. *)
Definition SetNewStakeModifierV2 (self : CBlockIndex) (prevoutId : bytes) : option CBlockIndex :=
  if bi_nHeight self <? height_start_StakeModifierV2 consensus then Some self
  else
    match bi_pprev self with
    | None => None
    | Some q => e ← ix !! q; Some (SetStakeModifierV2 self (Hash (prevoutId ++ GetStakeModifierV2 consensus e)))
    end.

(** ** The modifier of an old kernel *)

Context (chain : CChain).

(** [do { ... } while (nStakeModifierTime < pindexFrom->GetBlockTime() + OLD_MODIFIER_INTERVAL)] *)
Fixpoint old_modifier_loop (fuel : nat) (pindexNext : option ptr) (nStakeModifierTime nTimeFrom : Z) : option Z :=
  match fuel, pindexNext with
  | S fuel, Some p =>
      e ← ix !! p;
      let nStakeModifierTime := if GeneratedStakeModifier e then bi_GetBlockTime e else nStakeModifierTime in
      if nStakeModifierTime <? nTimeFrom + OLD_MODIFIER_INTERVAL
      then old_modifier_loop fuel (chain_at chain (bi_nHeight e + 1)) nStakeModifierTime nTimeFrom
      else Some (GetStakeModifierV1 consensus e)
  | _, _ => None
  end.

Definition GetOldModifier (pindexFrom : ptr) : option Z :=
  e ← ix !! pindexFrom;
  old_modifier_loop (length chain) (chain_at chain (bi_nHeight e + 1)) (bi_GetBlockTime e) (bi_GetBlockTime e).

(** The zerocoin branch: the first checkpoint more than an hour later. *)
Fixpoint checkpoint_loop (fuel : nat) (pindexFrom : option ptr) (nTimeBlockFrom nHeightStop : Z) : option Z :=
  match fuel, pindexFrom with
  | S fuel, Some p =>
      e ← ix !! p;
      if bi_nHeight e + 1 <=? nHeightStop then
        if 60 * 60 <? bi_GetBlockTime e - nTimeBlockFrom then Some (GetLow64 (uint_of_hash (bi_nAccumulatorCheckpoint e)))
        else checkpoint_loop fuel (Next ix chain p) nTimeBlockFrom nHeightStop
      else None
  | _, _ => None
  end.

Definition GetOldStakeModifier (indexFrom : option ptr) (fZPWRB : bool) : option Z :=
  p ← indexFrom;
  e ← ix !! p;
  if fZPWRB then
    checkpoint_loop (length chain) (Some p) (bi_GetBlockTime e) (Z.min (Height chain) (height_last_ZC_AccumCheckpoint consensus - 1))
  else GetOldModifier p.
End Modifier.

(** ** Order of the candidates *)

Lemma uint_lit_words W v : words (uint_lit W v) /\ length (uint_lit W v) = W.
Proof. split; [apply Forall_map, Forall_forall; intros i _; apply mod_word | unfold uint_lit; by rewrite length_map, length_seq]. Qed.

Lemma compare_hash a b : CompareTo (uint_of_hash a) (uint_of_hash b) = sign_of (val (uint_of_hash a)) (val (uint_of_hash b)).
Proof. destruct (uint_lit_words 8 (le_val a)), (uint_lit_words 8 (le_val b)). apply CompareTo_sign; unfold uint_of_hash; congruence. Qed.

Lemma stamp_le_iff a b : stamp_le a b <-> a.1 < b.1 \/ (a.1 = b.1 /\ val (uint_of_hash a.2) <= val (uint_of_hash b.2)).
Proof.
  unfold stamp_le. rewrite compare_hash. unfold sign_of.
  destruct (Z.ltb_spec (val (uint_of_hash a.2)) (val (uint_of_hash b.2))), (Z.ltb_spec (val (uint_of_hash b.2)) (val (uint_of_hash a.2))); lia.
Qed.

#[global] Instance stamp_le_trans : Transitive stamp_le.
Proof. intros a b c. rewrite !stamp_le_iff. lia. Qed.
#[global] Instance stamp_le_total : Total stamp_le.
Proof. intros a b. rewrite !stamp_le_iff. lia. Qed.

(** ** One selection *)

Section Select.
Context (consensus : ConsensusParams) (ix : BlockMap) (selected : gset ptr) (stop prevMod : Z).

(** The candidates as the index knows them. *)
Definition stamped (s : stamp) : Prop := exists e, ix !! s.2 = Some e /\ bi_GetBlockTime e = s.1.
Definition hash_for (v2 : bool) (p : ptr) : Z := match ix !! p with Some e => val (selection_hash v2 prevMod p e) | None => 0 end.

Lemma selection_words v2 h e : words (selection_hash v2 prevMod h e) /\ length (selection_hash v2 prevMod h e) = 8%nat.
Proof.
  unfold selection_hash. set (a := uint_of_hash _). destruct (uint_lit_words 8 (le_val (Hash ((if v2 then h else if bi_IsProofOfStake e then uint256_zero else h) ++ le_bytes 8 prevMod)))) as [W L].
  destruct (bi_IsProofOfStake e); [| done]. destruct (uint_shr_spec a 32 W ltac:(lia)) as (_ & W' & L'). split; [done |]. by rewrite L'.
Qed.

Lemma select_improves l v2 hb pb : StronglySorted stamp_le l -> Forall stamped l -> words hb -> length hb = 8%nat -> exists h p,
  select_loop consensus ix l selected stop prevMod (Some v2) (Some (hb, pb)) = Some (Some (h, p)) /\ val h <= val hb /\
  (p = pb /\ h = hb \/ exists t, (t, p) ∈ l /\ p ∉ selected /\ t <= stop /\ val h = hash_for v2 p) /\
  forall t q, (t, q) ∈ l -> q ∉ selected -> t <= stop -> val h <= hash_for v2 q.
Proof.
  intros Hs Hl. revert hb pb. induction Hs as [| [t p] l Hs IH Hle]; intros hb pb Hw Hlen.
  { exists hb, pb. split_and!; [done | lia | by left |]. intros t q Hin. by apply elem_of_nil in Hin. }
  inversion Hl as [| x l' (e & He & Ht) Hl']; subst. cbn [snd fst] in *. subst t. cbn [select_loop]. rewrite He. destruct (Z.ltb_spec stop (bi_GetBlockTime e)) as [Hb | Hb].
  { exists hb, pb. split_and!; [done | lia | by left |]. intros t' q [E | Hin]%elem_of_cons Hq Ht'; [injection E as -> ->; lia |]. exfalso.
    rewrite List.Forall_forall in Hle. apply list_elem_of_In in Hin. pose proof (Hle _ Hin) as Hle'. apply stamp_le_iff in Hle'. cbn in Hle'. lia. }
  destruct (decide (p ∈ selected)) as [Hsel | Hsel].
  { destruct (IH Hl' hb pb Hw Hlen) as (h' & p' & E & Hv & Hcase & Hmin). exists h', p'. split_and!; [done | done | |].
    - destruct Hcase as [? | (t' & Hin & ?)]; [by left |]. right. exists t'. split; [by right | done].
    - intros t' q [E' | Hin]%elem_of_cons; [by injection E' as -> -> |]. by apply (Hmin t'). }
  destruct (selection_words v2 p e) as [W L]. rewrite CompareTo_sign by congruence. assert (Hh : hash_for v2 p = val (selection_hash v2 prevMod p e)) by (unfold hash_for; by rewrite He).
  unfold sign_of at 1. destruct (Z.ltb_spec (val (selection_hash v2 prevMod p e)) (val hb)) as [Hlt | Hge].
  - cbn [Z.ltb Z.compare]. destruct (IH Hl' _ p W L) as (h' & p' & E & Hv & Hcase & Hmin). exists h', p'. split_and!; [done | lia | |].
    + right. destruct Hcase as [[-> ->] | (t' & Hin & ?)]; [exists (bi_GetBlockTime e); split_and!; [left | done | done | done] |]. exists t'. split; [by right | done].
    + intros t' q [E' | Hin]%elem_of_cons; [injection E' as -> ->; intros; lia |]. by apply (Hmin t').
  - assert ((if val hb <? val (selection_hash v2 prevMod p e) then 1 else 0) <? 0 = false) as -> by (by case_match).
    destruct (IH Hl' hb pb Hw Hlen) as (h' & p' & E & Hv & Hcase & Hmin). exists h', p'. split_and!; [done | done | |].
    + destruct Hcase as [? | (t' & Hin & ?)]; [by left |]. right. exists t'. split; [by right | done].
    + intros t' q [E' | Hin]%elem_of_cons; [injection E' as -> ->; intros; lia |]. by apply (Hmin t').
Qed.

(** The block a round picks among the candidates [l]: the one with the least hash among
    those of the interval, and the earliest one when the interval has none. *)
Definition picked (v2 : bool) (l : list stamp) (p : ptr) : Prop :=
  exists t, (t, p) ∈ l /\ p ∉ selected /\
    (t <= stop /\ (forall t' q, (t', q) ∈ l -> q ∉ selected -> t' <= stop -> hash_for v2 p <= hash_for v2 q) \/
     (forall t' q, (t', q) ∈ l -> q ∉ selected -> stop < t' /\ stamp_le (t, p) (t', q))).

Lemma select_picks l v2 : StronglySorted stamp_le l -> Forall stamped l -> (exists s, s ∈ l /\ s.2 ∉ selected) ->
  exists h p, select_loop consensus ix l selected stop prevMod (Some v2) None = Some (Some (h, p)) /\ picked v2 l p.
Proof.
  intros Hs Hl. induction Hs as [| [t p] l Hs IH Hle]; intros (s & Hin & Hns); [by apply elem_of_nil in Hin |].
  inversion Hl as [| x l' (e & He & Ht) Hl']; subst. cbn [snd fst] in *. subst t. cbn [select_loop]. rewrite He.
  assert (Hbelow : forall t' q, (t', q) ∈ l -> stamp_le (bi_GetBlockTime e, p) (t', q)).
  { intros t' q Hq. rewrite List.Forall_forall in Hle. by apply Hle, list_elem_of_In. }
  destruct (decide (p ∈ selected)) as [Hsel | Hsel].
  { destruct IH as (h' & p' & E & t' & Hin' & Hns' & Hcase); [done | |].
    - apply elem_of_cons in Hin as [-> | Hin]; [done |]. eauto.
    - exists h', p'. split; [done |]. exists t'. split_and!; [by right | done |]. destruct Hcase as [[? Hc] | Hc]; [left; split; [done |] | right];
        intros t2 q [E' | Hq]%elem_of_cons; try (by injection E' as -> ->); by apply Hc. }
  destruct (selection_words v2 p e) as [W L].
  destruct (select_improves l v2 _ p Hs Hl' W L) as (h' & p' & E & Hv & Hcase & Hmin). exists h', p'. split; [done |].
  assert (Hh : hash_for v2 p = val (selection_hash v2 prevMod p e)) by (unfold hash_for; by rewrite He).
  destruct Hcase as [[-> ->] | (t' & Hin' & Hns' & Ht' & Hv')].
  - exists (bi_GetBlockTime e). split_and!; [left | done |]. destruct (decide (bi_GetBlockTime e <= stop)) as [Hstop | Hstop].
    + left. split; [done |]. intros t' q [E' | Hq]%elem_of_cons Hnq Hq'; [injection E' as -> ->; lia |]. rewrite Hh. by apply (Hmin t').
    + right. intros t' q [E' | Hq]%elem_of_cons _; [injection E' as -> ->; split; [lia |]; apply stamp_le_iff; cbn; lia |].
      pose proof (Hbelow t' q Hq) as Hb. split; [| done]. apply stamp_le_iff in Hb. cbn in Hb. lia.
  - exists t'. split_and!; [by right | done |]. left. split; [done |]. intros t2 q [E' | Hq]%elem_of_cons Hnq Hq'; [injection E' as -> ->; lia |].
    rewrite <- Hv'. by apply (Hmin t2).
Qed.
End Select.

(** ** The rounds *)

Section Rounds.
Context (consensus : ConsensusParams) (ix : BlockMap).

(** The first candidate decides which hash is used. *)
Definition first_v2 (l : list stamp) : bool :=
  match l with
  | (_, h) :: _ => match ix !! h with Some e => height_start_StakeModifierNewSelection consensus <=? bi_nHeight e | None => false end
  | [] => false
  end.

Lemma Select_picked l selected stop m : StronglySorted stamp_le l -> Forall (stamped ix) l -> (exists s, s ∈ l /\ s.2 ∉ selected) ->
  exists p, SelectBlockFromCandidates consensus ix l selected stop m = Some p /\ picked ix selected stop m (first_v2 l) l p.
Proof.
  intros Hs Hl Hex. destruct (select_picks consensus ix selected stop m l (first_v2 l) Hs Hl Hex) as (h & p & E & Hp). exists p. split; [| done].
  unfold SelectBlockFromCandidates. assert (select_loop consensus ix l selected stop m None None = Some (Some (h, p))) as ->; [| done].
  rewrite <- E. destruct l as [| [t q] l]; [done |]. inversion Hl as [| x l' (e & He & Ht) Hl']; subst. cbn [snd] in He. cbn [select_loop first_v2]. by rewrite He.
Qed.

Fixpoint entropy_bits (sel : list ptr) : Z :=
  match sel with [] => 0 | p :: sel => GetStakeEntropyBit p + 2 * entropy_bits sel end.

(** The blocks selected from the round [r] on. *)
Inductive rounds (l : list stamp) (m : Z) : Z -> Z -> gset ptr -> list ptr -> Prop :=
| rounds_nil r stop selected : rounds l m r stop selected []
| rounds_cons r stop selected section p sel : GetStakeModifierSelectionIntervalSection r = Some section ->
    picked ix selected (stop + section) m (first_v2 l) l p -> rounds l m (r + 1) (stop + section) ({[p]} ∪ selected) sel ->
    rounds l m r stop selected (p :: sel).

Lemma entropy_bit p : 0 <= GetStakeEntropyBit p <= 1.
Proof.
  unfold GetStakeEntropyBit. pose proof (Z.land_ones (GetLow64 (uint_of_hash p)) 1 ltac:(lia)) as E. change (Z.ones 1) with 1 in E. rewrite E. pose proof (Z.mod_pos_bound (GetLow64 (uint_of_hash p)) (2 ^ 1)). lia.
Qed.

Lemma entropy_bits_bound sel : 0 <= entropy_bits sel < 2 ^ Z.of_nat (length sel).
Proof.
  induction sel as [| p sel IH]; [done |]. cbn [entropy_bits length]. pose proof (entropy_bit p). rewrite Nat2Z.inj_succ, Z.pow_succ_r by lia. lia.
Qed.

Lemma unselected_left (l : list stamp) (selected : gset ptr) : NoDup (l.*2) -> (size selected < length l)%nat -> exists s, s ∈ l /\ s.2 ∉ selected.
Proof.
  intros Hnd Hsize. destruct (decide (Forall (fun s => s.2 ∈ selected) l)) as [Hall | Hsome].
  - exfalso. assert (Hsub : list_to_set (l.*2) ⊆ selected).
    { intros x Hx. apply elem_of_list_to_set, list_elem_of_fmap in Hx as (s & -> & Hs). rewrite Forall_forall in Hall. by apply Hall. }
    apply subseteq_size in Hsub. rewrite size_list_to_set in Hsub by done. rewrite length_fmap in Hsub. lia.
  - apply not_Forall_Exists in Hsome; [| apply _]. apply Exists_exists in Hsome as (s & Hs & Hn). by exists s.
Qed.

Lemma section_some r : 0 <= r < 64 -> exists section, GetStakeModifierSelectionIntervalSection r = Some section.
Proof. intros Hr. unfold GetStakeModifierSelectionIntervalSection. destruct (Z.leb_spec 0 r), (Z.ltb_spec r 64); try lia. eauto. Qed.

Lemma shifted_bit b r : 0 <= b <= 1 -> 0 <= r < 64 -> u64 (Z.shiftl b r) = b * 2 ^ r.
Proof.
  intros Hb Hr. rewrite Z.shiftl_mul_pow2 by lia. unfold u64. apply Z.mod_small. pose proof (Z.pow_lt_mono_r 2 r 64). nia.
Qed.

Lemma rounds_loop_spec l m n r stop selected new : StronglySorted stamp_le l -> Forall (stamped ix) l -> NoDup (l.*2) ->
  0 <= r -> r + Z.of_nat n <= 64 -> (size selected + n <= length l)%nat -> 0 <= new < 2 ^ r ->
  exists sel, rounds_loop consensus ix n r l selected stop m new = Some (new + 2 ^ r * entropy_bits sel) /\
    length sel = n /\ rounds l m r stop selected sel /\ NoDup sel /\ (forall p, p ∈ sel -> p ∉ selected).
Proof.
  intros Hs Hl Hnd. revert r stop selected new. induction n as [| n IH]; intros r stop selected new Hr Hn Hsize Hnew.
  { exists []. cbn. split_and!; [f_equal; lia | done | constructor | constructor | intros p Hp; by apply elem_of_nil in Hp]. }
  cbn [rounds_loop]. destruct (section_some r ltac:(lia)) as [section Hsec]. rewrite Hsec. cbn [mbind option_bind].
  destruct (Select_picked l selected (stop + section) m Hs Hl (unselected_left l selected Hnd ltac:(lia))) as (p & E & Hp). rewrite E. cbn [mbind option_bind].
  pose proof (entropy_bit p) as Hbit. rewrite shifted_bit by lia. assert (0 < 2 ^ r) by lia.
  assert (Hor : Z.lor new (GetStakeEntropyBit p * 2 ^ r) = new + 2 ^ r * GetStakeEntropyBit p).
  { rewrite Z.mul_comm. apply lor_disjoint_add, low_high_disjoint; lia. }
  rewrite Hor. assert (Hnew' : 0 <= new + 2 ^ r * GetStakeEntropyBit p < 2 ^ (r + 1)) by (rewrite Z.pow_add_r by lia; nia).
  assert (Hnp : p ∉ selected) by (by destruct Hp as (t & _ & ? & _)).
  assert (Hsize' : (size ({[p]} ∪ selected) + n <= length l)%nat) by (rewrite size_union by set_solver; rewrite size_singleton; lia).
  destruct (IH (r + 1) (stop + section) ({[p]} ∪ selected) _ ltac:(lia) ltac:(lia) Hsize' Hnew') as (sel & E' & Hlen & Hrounds & Hnds & Hout).
  exists (p :: sel). split_and!.
  - rewrite E'. cbn [entropy_bits]. f_equal. rewrite Z.pow_add_r by lia. lia.
  - cbn. by rewrite Hlen.
  - by apply (rounds_cons l m r stop selected section).
  - constructor; [| done]. intros Hin. apply (Hout p Hin). set_solver.
  - intros q [-> | Hq]%elem_of_cons; [done |]. intros Hin. apply (Hout q Hq). set_solver.
Qed.

(** ** The candidates and the last modifier *)

Context (Hix : linked ix).

(** [q] and every block from it up to [prev] are not older than [start]. *)
Definition in_window (prev : ptr) (start : Z) (q : ptr) : Prop :=
  exists k, ancestor ix prev k = Some q /\
    forall j r e, k <= j -> ancestor ix prev j = Some r -> ix !! r = Some e -> start <= bi_GetBlockTime e.

Lemma window_top p h start : height_at ix p = Some h -> (exists q, in_window p start q) -> exists e, ix !! p = Some e /\ start <= bi_GetBlockTime e.
Proof.
  intros Hp (q & k & Hq & Hall). assert (Hp' := Hp). unfold height_at in Hp'. destruct (ix !! p) as [e |] eqn:He; [| done]. exists e. split; [done |].
  pose proof (ancestor_range ix p h k q Hp Hq). apply (Hall h p e); [lia | by apply ancestor_self | done].
Qed.

Lemma candidates_spec fuel p h start : height_at ix p = Some h -> h < Z.of_nat fuel ->
  (forall t q, (t, q) ∈ candidates_from ix fuel (Some p) start <-> in_window p start q /\ stamped ix (t, q)) /\
  NoDup ((candidates_from ix fuel (Some p) start).*2) /\ (forall t q, (t, q) ∈ candidates_from ix fuel (Some p) start -> exists j, height_at ix q = Some j /\ j <= h).
Proof.
  revert p h. induction fuel as [| fuel IH]; intros p h Hp Hf; [destruct (linked_prev ix Hix p h Hp); lia |].
  cbn [candidates_from]. assert (Hp' := Hp). unfold height_at in Hp'. destruct (ix !! p) as [e |] eqn:He; [| done]. injection Hp' as Hh.
  pose proof (ancestor_self ix Hix p h Hp) as Hself. destruct (Z.leb_spec start (bi_GetBlockTime e)) as [Hle | Hlt].
  2: { split_and!; [| constructor | intros t q Hin; by apply elem_of_nil in Hin]. intros t q. split; [intros Hin; by apply elem_of_nil in Hin |]. intros [Hw _].
       destruct (window_top p h start Hp (ex_intro _ q Hw)) as (e' & He' & ?). assert (e' = e) as -> by congruence. lia. }
  destruct (linked_prev ix Hix p h Hp) as [H0 Hl]. assert (Hprev : prev_at ix p = bi_pprev e) by (unfold prev_at; by rewrite He).
  assert (Hone : forall t q, stamped ix (t, q) -> q = p -> (t, q) = (bi_GetBlockTime e, p)) by (intros t q (e' & He' & Ht) ->; cbn in *; congruence).
  destruct (decide (h = 0)) as [-> | Hne].
  - rewrite <- Hprev, (root_prev ix Hix p Hp). assert (candidates_from ix fuel None start = []) as -> by (by destruct fuel). split_and!.
    + intros t q. rewrite list_elem_of_singleton. split.
      * intros [= -> ->]. split; [| by exists e]. exists 0. split; [done |]. intros j r e' Hj Hr He'. pose proof (ancestor_range ix p 0 j r Hp Hr).
        assert (j = 0) as -> by lia. assert (r = p) as -> by congruence. congruence.
      * intros [(k & Hk & _) Hst]. pose proof (ancestor_range ix p 0 k q Hp Hk). assert (k = 0) as -> by lia. apply Hone; [done | congruence].
    + cbn. apply NoDup_singleton.
    + intros t q Hin%list_elem_of_singleton. injection Hin as -> ->. exists 0. split; [done | lia].
  - destruct (Hl ltac:(lia)) as (p1 & Hp1 & Hh1 & _). rewrite <- Hprev, Hp1. destruct (IH p1 (h - 1) Hh1 ltac:(lia)) as (Hiff & Hnd & Hheights).
    assert (Hdown : forall k, k <> h -> ancestor ix p k = ancestor ix p1 k).
    { intros k Hk. destruct (decide (0 <= k < h)); [by apply (ancestor_prev ix Hix p h p1) |]. unfold ancestor. rewrite Hp, Hh1.
      destruct (Z.leb_spec 0 k), (Z.leb_spec k h), (Z.leb_spec k (h - 1)); try lia; done. }
    split_and!.
    + intros t q. rewrite elem_of_cons, Hiff. split.
      * intros [[= -> ->] | [(k & Hk & Hall) Hst]].
        -- split; [| by exists e]. exists h. split; [done |]. intros j r e' Hj Hr He'. pose proof (ancestor_range ix p h j r Hp Hr).
           assert (j = h) as -> by lia. assert (r = p) as -> by congruence. congruence.
        -- split; [| done]. pose proof (ancestor_range ix p1 (h - 1) k q Hh1 Hk). exists k. split; [by rewrite Hdown by lia |]. intros j r e' Hj Hr He'.
           destruct (decide (j = h)) as [-> | Hjh]; [assert (r = p) as -> by congruence; congruence |]. rewrite Hdown in Hr by done. by apply (Hall j r).
      * intros [(k & Hk & Hall) Hst]. destruct (decide (k = h)) as [-> | Hkh]; [left; apply Hone; [done | congruence] |]. right. split; [| done].
        pose proof (ancestor_range ix p h k q Hp Hk). exists k. split; [by rewrite <- Hdown |]. intros j r e' Hj Hr He'. pose proof (ancestor_range ix p1 (h - 1) j r Hh1 Hr).
        apply (Hall j r); [done | by rewrite Hdown by lia | done].
    + cbn. constructor; [| done]. intros Hin. apply list_elem_of_fmap in Hin as ([t q] & -> & Hin). destruct (Hheights t q Hin) as (j & Hj & ?). cbn in Hp. assert (j = h) by congruence. lia.
    + intros t q [E | Hin]%elem_of_cons; [injection E as -> ->; exists h; split; [done | lia] |]. destruct (Hheights t q Hin) as (j & ? & ?). exists j. split; [done | lia].
Qed.

Lemma last_generated_spec p h k g eg : height_at ix p = Some h -> ancestor ix p k = Some g -> ix !! g = Some eg -> GeneratedStakeModifier eg = true ->
  (forall j r e, k < j -> ancestor ix p j = Some r -> ix !! r = Some e -> GeneratedStakeModifier e = false) -> last_generated ix (Z.to_nat h) p = g.
Proof.
  intros Hp. remember (Z.to_nat h) as fuel eqn:Ef. revert p h Hp Ef. induction fuel as [| fuel IH]; intros p h Hp Ef Hk Hg Hgen Hnone;
    destruct (linked_prev ix Hix p h Hp) as [H0 Hl]; pose proof (ancestor_range ix p h k g Hp Hk) as Hr; pose proof (ancestor_self ix Hix p h Hp) as Hself.
  { assert (k = h) as -> by lia. cbn. congruence. }
  cbn [last_generated]. assert (Hp' := Hp). unfold height_at in Hp'. destruct (ix !! p) as [e |] eqn:He; [| done]. injection Hp' as Hh.
  destruct (Hl ltac:(lia)) as (p1 & Hp1 & Hh1 & _). assert (Hprev : bi_pprev e = Some p1) by (unfold prev_at in Hp1; rewrite He in Hp1; done). rewrite Hprev.
  destruct (decide (k = h)) as [-> | Hne].
  - assert (g = p) as -> by congruence. assert (eg = e) as -> by congruence. by rewrite Hgen.
  - rewrite (Hnone h p e ltac:(lia) Hself He). apply (IH p1 (h - 1) Hh1 ltac:(lia)); [by rewrite <- (ancestor_prev ix Hix p h p1 k Hp Hp1) by lia | done | done |].
    intros j r e' Hj Hr' He'. pose proof (ancestor_range ix p1 (h - 1) j r Hh1 Hr'). apply (Hnone j r); [done | by rewrite (ancestor_prev ix Hix p h p1 j Hp Hp1) by lia | done].
Qed.
End Rounds.

(** C38: above the first block the computation of the stake modifier never fails. It keeps
    the modifier of the nearest block that generated one while no new interval has
    begun; otherwise the candidates are the blocks back to the first one older than the
    selection interval, sorted by time and hash; the new modifier has one bit per round,
    for as many rounds as there are candidates and at most 64; each round's bit is the
    entropy bit of a block not selected before: the one with the least selection hash
    among the candidates up to the end of the round's interval, or the earliest one when
    the interval holds none. *)
Theorem ComputeNextStakeModifier_selects consensus ix literal prev ep k g eg : linked ix -> ix !! prev = Some ep -> bi_nHeight ep <> 0 ->
  ancestor ix prev k = Some g -> ix !! g = Some eg -> GeneratedStakeModifier eg = true ->
  (forall j r e, k < j -> ancestor ix prev j = Some r -> ix !! r = Some e -> GeneratedStakeModifier e = false) ->
  let old := GetStakeModifierV1 consensus eg in
  let start := Z.quot (bi_GetBlockTime ep) MODIFIER_INTERVAL * MODIFIER_INTERVAL - OLD_MODIFIER_INTERVAL in
  (Z.quot (bi_GetBlockTime ep) MODIFIER_INTERVAL <= Z.quot (bi_GetBlockTime eg) MODIFIER_INTERVAL /\
     ComputeNextStakeModifier consensus ix literal (Some prev) = (true, old, false)) \/
  (Z.quot (bi_GetBlockTime eg) MODIFIER_INTERVAL < Z.quot (bi_GetBlockTime ep) MODIFIER_INTERVAL /\
     exists l sel, (forall t q, (t, q) ∈ l <-> in_window ix prev start q /\ stamped ix (t, q)) /\ StronglySorted stamp_le l /\
       length sel = Nat.min 64 (length l) /\ NoDup sel /\ rounds consensus ix l old 0 start ∅ sel /\
       ComputeNextStakeModifier consensus ix literal (Some prev) = (true, entropy_bits sel, true) /\ entropy_bits sel < 2 ^ 64).
Proof.
  intros Hix He Hh Hk Hg Hgen Hnone old start. assert (Hp : height_at ix prev = Some (bi_nHeight ep)) by (unfold height_at; by rewrite He).
  destruct (linked_prev ix Hix prev _ Hp) as [H0 _].
  unfold ComputeNextStakeModifier. rewrite He. destruct (Z.eqb_spec (bi_nHeight ep) 0); [done |].
  rewrite (last_generated_spec ix Hix prev _ k g eg Hp Hk Hg Hgen Hnone), Hg, Hgen. cbn [negb]. fold old start.
  destruct (Z.leb_spec (Z.quot (bi_GetBlockTime ep) MODIFIER_INTERVAL) (Z.quot (bi_GetBlockTime eg) MODIFIER_INTERVAL)) as [Hle | Hlt]; [by left | right].
  split; [done |]. set (c := candidates_from ix _ (Some prev) start). destruct (candidates_spec ix Hix (S (Z.to_nat (bi_nHeight ep))) prev _ start Hp ltac:(lia)) as (Hiff & Hnd & _).
  fold c in Hiff, Hnd. set (l := merge_sort stamp_le (reverse c)). assert (Hperm : l ≡ₚ c) by (unfold l; by rewrite merge_sort_Permutation, reverse_Permutation).
  assert (Hin : forall t q, (t, q) ∈ l <-> in_window ix prev start q /\ stamped ix (t, q)) by (intros t q; rewrite Hperm; apply Hiff).
  assert (Hs : StronglySorted stamp_le l) by (unfold l; apply StronglySorted_merge_sort; apply _).
  assert (Hst : Forall (stamped ix) l) by (apply Forall_forall; intros [t q] H; by apply Hin in H as [_ ?]).
  assert (Hndl : NoDup (l.*2)) by (by rewrite Hperm).
  destruct (rounds_loop_spec consensus ix l old (Nat.min 64 (length l)) 0 start ∅ 0 Hs Hst Hndl) as (sel & E & Hlen & Hr & Hnds & _); [lia | lia | rewrite size_empty; lia | lia |].
  exists l, sel. rewrite E. pose proof (entropy_bits_bound sel). pose proof (Z.pow_le_mono_r 2 (Z.of_nat (length sel)) 64).
  split_and!; try done; [do 2 f_equal; lia | lia].
Qed.

(** Three blocks; the second generated a modifier, and a new interval has begun. *)
Definition stake_sample : BlockMap :=
  let e t f := with_stake {| bi_pprev := None; bi_pskip := None; bi_nHeight := 0; bi_nFile := 0; bi_nDataPos := 0; bi_nUndoPos := 0;
                             bi_nChainWork := 0; bi_nTx := 0; bi_nChainTx := 0; bi_nStatus := 0; bi_vStakeModifier := []; bi_nFlags := 0;
                             bi_nVersion := 3; bi_hashMerkleRoot := []; bi_nTime := t; bi_nBits := 0; bi_nNonce := 0;
                             bi_nAccumulatorCheckpoint := []; bi_nSequenceId := 0 |} [1; 0; 0; 0; 0; 0; 0; 0] f in
  add_linked (add_linked (add_linked ∅ [0] [] (e 1000 0)) [1] [0] (e 1060 BLOCK_STAKE_MODIFIER)) [2] [1] (e 1200 0).

Lemma ComputeNextStakeModifier_selects_witness : exists sel, NoDup sel /\ (length sel <= 64)%nat /\
  ComputeNextStakeModifier mainConsensus stake_sample 0 (Some [2]) = (true, entropy_bits sel, true).
Proof.
  assert (Hb : built stake_sample) by (unfold stake_sample; repeat apply built_add; apply built_empty).
  destruct (ComputeNextStakeModifier_selects mainConsensus stake_sample 0 [2] (default (CBlockIndex_new CBlock_SetNull) (stake_sample !! [2])) 1 [1]
    (default (CBlockIndex_new CBlock_SetNull) (stake_sample !! [1]))) as [[Hq _] | (_ & l & sel & _ & _ & Hlen & Hnd & _ & E & _)].
  - by apply built_linked.
  - reflexivity.
  - vm_compute. lia.
  - reflexivity.
  - reflexivity.
  - reflexivity.
  - intros j r e Hj Hr He. pose proof (ancestor_range stake_sample [2] 2 j r eq_refl Hr). assert (j = 2) as -> by lia.
    vm_compute in Hr. injection Hr as <-. vm_compute in He. injection He as <-. reflexivity.
  - exfalso. vm_compute in Hq. by apply Hq.
  - exists sel. rewrite Hlen. split_and!; [done | lia | done].
Defined.
