(* ===== verification/Double.v ===== *)
(** The [double] arithmetic of the amounts code.

    A [double] that is not an infinity, a NaN or subnormal is [m / 2 ^ e] with
    [m] an integer of at most 53 significant bits. The code only multiplies and
    adds amounts and literals, of magnitudes between [2 ^ -20] and [2 ^ 80], so
    results are rounded to 53 bits, to nearest and ties to even, and no other
    case of IEEE 754 occurs. *)

From Stdlib Require Import ZArith Lia.
From stdpp Require Import base tactics list numbers strings.
From S2P Require Import Prelude.

(** [m] rounded to a multiple of [2 ^ k]. *)
Definition round_even (m k : Z) : Z :=
  if k <=? 0 then m
  else
    let q := m / 2 ^ k in
    let r := m `mod` 2 ^ k in
    let h := 2 ^ (k - 1) in
    if r <? h then q * 2 ^ k
    else if h <? r then (q + 1) * 2 ^ k
    else if Z.even q then q * 2 ^ k else (q + 1) * 2 ^ k.

Definition round_pos (m : Z) : Z := round_even m (Z.log2 m - 52).
Definition rnd53 (m : Z) : Z := if m <? 0 then - round_pos (- m) else round_pos m.

(** [(double)n] of an [int64_t], as an integer. *)
Definition double_of_int (n : Z) : Z := rnd53 n.

(** [(int64_t)(n * (m / 2 ^ e))] for an [int64_t] [n] and a literal. *)
Definition mul_literal (n m e : Z) : Z := Z.quot (rnd53 (double_of_int n * m)) (2 ^ e).

(** [n * k] for an integral [double] [k], converted back. *)
Definition mul_double (n k : Z) : Z := rnd53 (double_of_int n * k).

(** [n + k] for an integral [double] [k], converted back. *)
Definition add_double (n k : Z) : Z := rnd53 (double_of_int n + k).

(** The literal [0.05]: [7205759403792794 / 2 ^ 57]. *)
Definition lit_0_05 : Z * Z := (7205759403792794, 57).

(** ** Rounding *)

Lemma round_even_bounds m k : 0 <= m -> 0 < k ->
  m / 2 ^ k * 2 ^ k <= round_even m k /\ m - 2 ^ (k - 1) <= round_even m k <= m + 2 ^ (k - 1).
Proof.
  intros Hm Hk. unfold round_even. destruct (Z.leb_spec k 0); [lia |]. cbn zeta.
  pose proof (Z.div_mod m (2 ^ k) ltac:(lia)) as Hd. pose proof (Z.mod_pos_bound m (2 ^ k) ltac:(lia)) as Hr.
  assert (2 ^ k = 2 * 2 ^ (k - 1)) by (rewrite <- Z.pow_succ_r by lia; f_equal; lia).
  set (q := m / 2 ^ k) in *. set (r := m `mod` 2 ^ k) in *. set (h := 2 ^ (k - 1)) in *.
  destruct (Z.ltb_spec r h); [nia |]. destruct (Z.ltb_spec h r); [nia |]. destruct (Z.even q); nia.
Qed.

Lemma rnd53_exact m : Z.abs m < 2 ^ 53 -> rnd53 m = m.
Proof.
  assert (H : forall a, 0 <= a < 2 ^ 53 -> round_pos a = a).
  { intros a Ha. unfold round_pos, round_even.
    assert (Z.log2 a <= 52).
    { destruct (decide (a = 0)) as [-> | ?]; [cbn; lia |]. assert (Z.log2 a < 53) by (apply Z.log2_lt_pow2; lia). lia. }
    destruct (Z.leb_spec (Z.log2 a - 52) 0); [done | lia]. }
  intros Hm. unfold rnd53. destruct (Z.ltb_spec m 0); rewrite H by lia; lia.
Qed.

(** Amounts and the products of the code below [2 ^ 53] are exact. *)
Lemma mul_double_exact n k : Z.abs n < 2 ^ 53 -> Z.abs (n * k) < 2 ^ 53 -> mul_double n k = n * k.
Proof. intros. unfold mul_double, double_of_int. by rewrite (rnd53_exact n), rnd53_exact by done. Qed.

(** Rounding does not cross a multiple of a power of two at least as coarse as
    the last place. *)
Lemma round_pos_ge m x e : 0 < m -> 0 <= e -> Z.log2 m - 52 <= e -> x * 2 ^ e <= m -> x * 2 ^ e <= round_pos m.
Proof.
  intros Hm He Hk Hx. unfold round_pos. destruct (Z.leb_spec (Z.log2 m - 52) 0) as [H0 | H0].
  - unfold round_even. by rewrite (proj2 (Z.leb_le _ _)) by done.
  - set (k := Z.log2 m - 52) in *. destruct (round_even_bounds m k ltac:(lia) ltac:(lia)) as [H1 _].
    etransitivity; [| exact H1]. replace e with (e - k + k) in * by lia. rewrite Z.pow_add_r in * by lia.
    rewrite Z.mul_assoc in *. apply Z.mul_le_mono_nonneg_r; [lia |]. apply Z.div_le_lower_bound; lia.
Qed.

(** A twentieth of an amount. *)
Lemma mul_0_05 n : 0 <= n < 2 ^ 52 -> mul_literal n (fst lit_0_05) (snd lit_0_05) = n / 20.
Proof.
  intros Hn. unfold mul_literal, double_of_int. cbn [fst snd lit_0_05]. rewrite (rnd53_exact n) by lia.
  destruct (decide (n = 0)) as [-> | Hne]; [done |].
  set (c := 7205759403792794). set (m := n * c).
  assert (Hm : 0 < m < 2 ^ 105) by (unfold m, c; lia).
  assert (Hlog : Z.log2 m < 105) by (apply Z.log2_lt_pow2; lia).
  unfold rnd53. destruct (Z.ltb_spec m 0); [lia |].
  pose proof (Z.div_mod n 20 ltac:(lia)) as Hd. pose proof (Z.mod_pos_bound n 20 ltac:(lia)) as Hr.
  set (q := n / 20) in *. set (r := n `mod` 20) in *.
  assert (Hlo : q * 2 ^ 57 <= round_pos m) by (apply round_pos_ge; [lia | lia | lia | unfold m, c; lia]).
  assert (Hhi : round_pos m < (q + 1) * 2 ^ 57).
  { unfold round_pos. destruct (Z.leb_spec (Z.log2 m - 52) 0) as [H0 | H0].
    - unfold round_even. rewrite (proj2 (Z.leb_le _ _)) by done. unfold m, c. lia.
    - destruct (round_even_bounds m (Z.log2 m - 52) ltac:(lia) ltac:(lia)) as [_ [_ H1]].
      assert (2 ^ (Z.log2 m - 52 - 1) <= 2 ^ 51) by (apply Z.pow_le_mono_r; lia). unfold m, c in *. lia. }
  assert (0 <= q) by (apply Z.div_pos; lia).
  rewrite Z.quot_div_nonneg by lia. symmetry. apply Z.div_unique with (round_pos m - q * 2 ^ 57); lia.
Qed.
