(* ===== verification/BetPayout.v ===== *)
(** [betting/bet.cpp]: which bets a payout block must pay, and the validation of
    the block that pays them; with the subsidy of [main.cpp], the block template
    of [masternode-payments.cpp] and the bet part of [ConnectBlock].

    The chain, the results files and the spork are inputs ([node] below):
    reading them is I/O. A vector index past the end, which C++ leaves
    undefined, is the error [bad_index]. *)

From Stdlib Require Import ZArith Lia.
From stdpp Require Import base tactics list numbers strings.
From S2P Require Import Prelude CString Amount StrEncodings DrawTime Script ChainParams Base58 Standard Transaction.
From S2P Require Import CoreWrite BetCode Block Double.

Inductive fault := Exn (e : cxx_exn) | bad_index | assert_failed.

#[global] Instance fault_eq_dec : EqDecision fault.
Proof. solve_decision. Defined.

Abbreviation fres := (res fault).

(** A call that may throw, in code that does not catch. *)
Definition throws {A} (r : res cxx_exn A) : fres A :=
  match r with Ok a => Ok a | Err e => Err (Exn e) end.

(** [v[i]] *)
Definition at_index {A} (l : list A) (i : Z) : fres A :=
  match l !! Z.to_nat i with Some x => if i <? 0 then Err bad_index else Ok x | None => Err bad_index end.

(** ** Subsidy ([main.cpp]) *)

Definition GetBlockValue (nHeight : Z) : Z := if nHeight =? 1 then 175200 * COIN else 1 * COIN.
Definition GetMasternodePayment : Z := 0 * COIN.

(** ** JSON values, as [find_value] and the type tests see them *)

Inductive UniValue :=
| VNULL
| VBOOL (b : bool)
| VNUM (s : bytes)
| VSTR (s : bytes)
| VARR (l : list UniValue)
| VOBJ (l : list (bytes * UniValue)).

Definition find_value (o : list (bytes * UniValue)) (name : bytes) : UniValue :=
  match List.find (fun p => bool_decide (fst p = name)) o with Some p => snd p | None => VNULL end.

Definition get_obj (v : UniValue) : res cxx_exn (list (bytes * UniValue)) :=
  match v with VOBJ l => Ok l | _ => Err runtime_error end.

(** ** The node *)

Record node := {
  params : CChainParams;
  IsInitialBlockDownload : bool;
  GetTime : Z;
  tip_time : Z;                                  (* chainActive.Tip()->GetBlockTime() *)
  blocks_from : Z -> list CBlock;                (* chainActive[h], chainActive.Next(...), ... *)
  GetTransaction : bytes -> option CTransaction;
  ReadResultsFile : option UniValue;             (* the parsed file, None when it does not parse *)
  ReadResultsFile2 : option UniValue;
  SPORK_19_DRAW_RESULT : Z
}.

Section Payouts.
Context (env : node).

Abbreviation cons := (consensus (params env)).

(** [CBitcoinAddress(dest).ToString()] *)
Definition addr_string (dest : CTxDestination) : fres bytes :=
  match ToString (Address_of (params env) dest PUBKEY_ADDRESS) with
  | Some s => Ok s
  | None => Err assert_failed
  end.

(** [ExtractDestination(script, dest)] into a default [CTxDestination], then the
    address string. *)
Definition script_addr (script : bytes) : fres bytes :=
  addr_string (destination_of script).

(** ** [GetBlockPayouts] *)

Definition devPayoutScript : bytes :=
  GetScriptForDestination (DecodeDestination (params env) (strDevPayoutAddr cons)).

Definition total_payout (v : list CBetOut) : Z := fold_left (fun a b => s64 (a + nValue (bo_out b))) v 0.

(** [(CAmount)(nPayout * 0.05)] *)
Definition devReward (nPayout : Z) : Z := mul_literal nPayout (fst lit_0_05) (snd lit_0_05).

(** The total returned and the payout vector with the dev reward appended. *)
Definition GetBlockPayouts (vExpectedPayouts : list CBetOut) : Z * list CBetOut :=
  let nPayout := total_payout vExpectedPayouts in
  if 0 <? zlen vExpectedPayouts then
    let nDevReward := devReward nPayout in
    (s64 (nPayout + nDevReward), vExpectedPayouts ++ [CBetOut_new nDevReward devPayoutScript 0 0])
  else (nPayout, vExpectedPayouts).

(** ** Staking outputs *)

(** [stakeAmount]: the value of the output staked, 0 if its transaction is not
    found. *)
Definition stake_amount (prevout : COutPoint) : fres Z :=
  match GetTransaction env (op_hash prevout) with
  | Some txPrev => let* o := at_index (vout txPrev) (op_n prevout) in Ok (nValue o)
  | None => Ok 0
  end.

(** The loop that counts the outputs before the payouts: [numStakingTx] and
    [totalStakeAcc]. *)
Fixpoint count_staking (bound : Z) (outs : list CTxOut) (numStakingTx totalStakeAcc : Z) : Z * Z :=
  match outs with
  | [] => (numStakingTx, totalStakeAcc)
  | txout :: outs =>
      if totalStakeAcc <? bound
      then count_staking bound outs (numStakingTx + 1) (s64 (totalStakeAcc + nValue txout))
      else (numStakingTx, totalStakeAcc)
  end.

Definition stake_bound (stakeAmount height : Z) : Z :=
  s64 (s64 (stakeAmount + GetBlockValue height) - GetMasternodePayment).

(** ** [IsBlockPayoutsValid] *)

(** The last loop: the payout [k] against the output [numStakingTx + k]. *)
Fixpoint check_payouts (expected : list CBetOut) (outs : list CTxOut) : fres bool :=
  match expected with
  | [] => Ok true
  | e :: expected =>
      match outs with
      | [] => Err bad_index
      | txout :: outs =>
          let vExpectedAmt := nValue (bo_out e) in
          let* expectedAddrS := script_addr (scriptPubKey (bo_out e)) in
          let voutValue := nValue txout in
          let* betAddrS := script_addr (scriptPubKey txout) in
          if negb (vExpectedAmt =? voutValue) && negb (bool_decide (betAddrS = expectedAddrS)) then Ok false
          else check_payouts expected outs
      end
  end.

Definition IsBlockPayoutsValid (vExpectedPayouts : list CBetOut) (block : CBlock) (height : Z) : fres bool :=
  if 0 <? zlen vExpectedPayouts then
    let* tx := at_index (vtx block) 1 in
    let* txin := at_index (vin tx) 0 in
    let* stakeAmount := stake_amount (prevout txin) in
    let bound := stake_bound stakeAmount height in
    let '(numStakingTx, totalStakeAcc) := count_staking bound (vout tx) 0 0 in
    if (numStakingTx =? zlen (vout tx)) && (totalStakeAcc =? bound) then Ok true
    else if negb (zlen vExpectedPayouts + numStakingTx =? zlen (vout tx)) then Ok false
    else
      let payouts := drop (Z.to_nat numStakingTx) (vout tx) in
      let totalExpPayout := total_payout vExpectedPayouts in
      let totalPayout := fold_left (fun a o => s64 (a + nValue o)) payouts 0 in
      if negb (totalExpPayout =? totalPayout) then Ok false
      else check_payouts vExpectedPayouts payouts
  else Ok true.

(** ** The draw result *)

(** The scan of a parsed results file; the exceptions of [get_obj] and
    [std::stoi] end it, leaving [sOfficialDate] and [sOfficialResults]. *)
Fixpoint scan_results (date_key numbers_key latestDrawDate : bytes) (l : list UniValue)
    (sOfficialDate sOfficialResults : bytes) : bytes * bytes :=
  match l with
  | [] => (sOfficialDate, sOfficialResults)
  | val :: l =>
      match get_obj val with
      | Err _ => (sOfficialDate, sOfficialResults)
      | Ok o =>
          match find_value o date_key, find_value o numbers_key with
          | VSTR sOfficialDate, VSTR n =>
              if contains sOfficialDate latestDrawDate then (sOfficialDate, n)
              else if zlen sOfficialDate <? 10 then (sOfficialDate, sOfficialResults)
              else match (let* y := substr sOfficialDate 0 4 in stoi y) with
                   | Err _ => (sOfficialDate, sOfficialResults)
                   | Ok y =>
                       if y <? 2020 then (sOfficialDate, sOfficialResults)
                       else scan_results date_key numbers_key latestDrawDate l sOfficialDate sOfficialResults
                   end
          | _, _ => scan_results date_key numbers_key latestDrawDate l sOfficialDate sOfficialResults
          end
      end
  end.

(** [if (!read(...) || !isArray()) officialResults = UniValue(VARR)] *)
Definition results_array (v : option UniValue) : list UniValue :=
  match v with Some (VARR l) => l | _ => [] end.

(** A drawn number, without its leading zero. *)
Definition strip0 (s : bytes) : res cxx_exn bytes :=
  let* c := substr s 0 1 in
  if bool_decide (c = str "0") then substr s 1 1 else Ok s.

Definition number_at (s : bytes) (pos : nat) : res cxx_exn bytes :=
  let* n := substr s pos 2 in strip0 n.

Record draw_result := { resultDate : bytes; resultNums : list bytes }.

Definition numbers_at (s : bytes) (p1 p2 p3 p4 p5 : nat) : res cxx_exn (list bytes) :=
  let* n1 := number_at s p1 in
  let* n2 := number_at s p2 in
  let* n3 := number_at s p3 in
  let* n4 := number_at s p4 in
  let* n5 := number_at s p5 in
  Ok [n1; n2; n3; n4; n5].

(** From a results file: ["YYYY-MM-DD..."] and ["nn nn nn nn nn ..."]. *)
Definition official_result (sOfficialDate sOfficialResults : bytes) : res cxx_exn draw_result :=
  let* y := substr sOfficialDate 0 4 in
  let* m := substr sOfficialDate 5 2 in
  let* d := substr sOfficialDate 8 2 in
  let* nums := numbers_at sOfficialResults 0 3 6 9 12 in
  Ok {| resultDate := y ++ m ++ d; resultNums := nums |}.

(** From the spork: ["YYYYMMDDnnnnnnnnnn"]. *)
Definition sporked_result : res cxx_exn draw_result :=
  let result := to_string (SPORK_19_DRAW_RESULT env) in
  let* d := substr result 0 8 in
  let* nums := numbers_at result 8 10 12 14 16 in
  Ok {| resultDate := d; resultNums := nums |}.

Definition latest_result (latestDrawDate : bytes) : res cxx_exn draw_result :=
  let (sDate, sRes) := scan_results (str "draw_date") (str "winning_numbers") latestDrawDate
                         (results_array (ReadResultsFile env)) [] [] in
  if 17 <=? zlen sRes then official_result sDate sRes
  else
    let (sDate, sRes) := scan_results (str "field_draw_date") (str "field_winning_numbers") latestDrawDate
                           (results_array (ReadResultsFile2 env)) sDate sRes in
    if 17 <=? zlen sRes then official_result sDate sRes else sporked_result.

(** ** Winning bets *)

Definition nOneNumberOdds : Z := 12.
Definition nTwoNumberOdds : Z := 200.
Definition nThreeNumberOdds : Z := 3500.

(** [n != stoi(resultNum1) && ... && n != stoi(resultNum5)] *)
Fixpoint none_drawn (n : Z) (nums : list bytes) : fres bool :=
  match nums with
  | [] => Ok true
  | s :: nums =>
      let* v := throws (stoi s) in
      if n =? u32 v then Ok false else none_drawn n nums
  end.

Definition not_drawn (n : Z) (nums : list bytes) : fres bool :=
  if n =? 0 then Ok false else none_drawn n nums.

Definition isWinner (r : draw_result) (latestDrawStartTime transactionTime : Z) (lb : CLottoBet) : fres bool :=
  let* x1 := not_drawn (nNumber1 lb) (resultNums r) in
  let* x2 := not_drawn (nNumber2 lb) (resultNums r) in
  let* x3 := not_drawn (nNumber3 lb) (resultNums r) in
  let equal := ((nNumber1 lb =? nNumber2 lb) && negb (nNumber1 lb =? 0)) ||
               ((nNumber1 lb =? nNumber3 lb) && negb (nNumber1 lb =? 0)) ||
               ((nNumber2 lb =? nNumber3 lb) && negb (nNumber2 lb =? 0)) in
  let big := (69 <? nNumber1 lb) || (69 <? nNumber2 lb) || (69 <? nNumber3 lb) in
  let none := (nNumber1 lb =? 0) && (nNumber2 lb =? 0) && (nNumber3 lb =? 0) in
  let late := latestDrawStartTime - nBetPlaceTimeoutBlocks cons <? u32 transactionTime in
  let other := negb (bool_decide (resultDate r = to_string (nDate lb))) in
  Ok (negb (x1 || x2 || x3 || equal || big || none || late || other)).

Definition winnings (lb : CLottoBet) (betAmount : Z) : Z :=
  let p1 := 0 <? nNumber1 lb in
  let p2 := 0 <? nNumber2 lb in
  let p3 := 0 <? nNumber3 lb in
  if p3 && p2 && p1 then mul_double betAmount nThreeNumberOdds
  else if (p1 && p2) || (p1 && p3) || (p2 && p3) then mul_double betAmount nTwoNumberOdds
  else if p1 || p2 || p3 then mul_double betAmount nOneNumberOdds
  else 0.

(** The address that placed the bet: the output spent by the first input. *)
Definition payout_address (tx : CTransaction) : fres CTxDestination :=
  let* txin := at_index (vin tx) 0 in
  match GetTransaction env (op_hash (prevout txin)) with
  | Some txPrev =>
      let* o := at_index (vout txPrev) (op_n (prevout txin)) in
      Ok (destination_of (scriptPubKey o))
  | None => Ok CNoDestination
  end.

(** [GetScriptForDestination(CBitcoinAddress(payoutAddress).Get())] *)
Definition payout_script (payoutAddress : CTxDestination) : bytes :=
  GetScriptForDestination (Address_Get (params env) (Address_of (params env) payoutAddress PUBKEY_ADDRESS)).

(** One output of one transaction: the payout it adds. *)
Definition scan_output (r : draw_result) (latestDrawStartTime transactionTime : Z) (tx : CTransaction)
    (vExpected : list CBetOut) (txout : CTxOut) : fres (list CBetOut) :=
  let betAmount := nValue txout in
  match bet_of_output txout with
  | None => Ok vExpected
  | Some lb =>
      if (nMinBetPayoutRange cons * COIN <=? betAmount) && (betAmount <=? nMaxBetPayoutRange cons * COIN) then
        let* win := isWinner r latestDrawStartTime transactionTime lb in
        if bool_decide (resultDate r = to_string (nDate lb)) && win then
          let payout := winnings lb betAmount in
          let* payoutAddress := payout_address tx in
          if (0 <? payout) && (payout <=? nMaxWinnerPayout cons * COIN)
          then Ok (vExpected ++ [CBetOut_new payout (payout_script payoutAddress) betAmount 0])
          else Ok vExpected
        else Ok vExpected
      else Ok vExpected
  end.

Definition scan_tx (r : draw_result) (latestDrawStartTime transactionTime : Z)
    (vExpected : list CBetOut) (tx : CTransaction) : fres (list CBetOut) :=
  res_fold (scan_output r latestDrawStartTime transactionTime tx) vExpected (vout tx).

(** ** Payouts already made *)

(** The outputs after the staking ones, except a masternode payment at the end. *)
Fixpoint paid_outputs (outs : list CTxOut) : list CBetOut :=
  match outs with
  | [] => []
  | o :: outs =>
      if (zlen outs =? 0) && (nValue o =? GetMasternodePayment) then paid_outputs outs
      else CBetOut_new (nValue o) (scriptPubKey o) 0 0 :: paid_outputs outs
  end.

Definition completed_in (block : CBlock) (latestDrawStartTime transactionTime nTraverseHeight : Z)
    : fres (list CBetOut) :=
  let* cbtx := at_index (vtx block) 1 in
  if (1 <? zlen (vout cbtx)) && (latestDrawStartTime <=? transactionTime) then
    let* txin := at_index (vin cbtx) 0 in
    let* stakeAmount := stake_amount (prevout txin) in
    let '(numStakingTx, _) := count_staking (stake_bound stakeAmount nTraverseHeight) (vout cbtx) 0 0 in
    Ok (paid_outputs (drop (Z.to_nat numStakingTx) (vout cbtx)))
  else Ok [].

(** [while (BlocksIndex)] *)
Fixpoint traverse (r : draw_result) (latestDrawStartTime : Z) (blocks : list CBlock) (nTraverseHeight : Z)
    (vExpected vCompleted : list CBetOut) : fres (list CBetOut * list CBetOut) :=
  match blocks with
  | [] => Ok (vExpected, vCompleted)
  | block :: blocks =>
      let transactionTime := nTime (header block) in
      let* vExpected := res_fold (scan_tx r latestDrawStartTime transactionTime) vExpected (vtx block) in
      let* c := completed_in block latestDrawStartTime transactionTime nTraverseHeight in
      traverse r latestDrawStartTime blocks (nTraverseHeight + 1) vExpected (vCompleted ++ c)
  end.

(** ** Payouts still due *)

(** [for (k = 0; k < vCompletedSize; k++)] *)
Fixpoint is_paid (expectedValue : Z) (expectedAddrS : bytes) (vCompleted : list CBetOut) : fres bool :=
  match vCompleted with
  | [] => Ok false
  | c :: vCompleted =>
      let* completedAddrS := script_addr (scriptPubKey (bo_out c)) in
      if (nValue (bo_out c) =? expectedValue) && bool_decide (completedAddrS = expectedAddrS) then Ok true
      else is_paid expectedValue expectedAddrS vCompleted
  end.

Definition add_pending (vCompleted : list CBetOut) (vPending : list CBetOut) (e : CBetOut) : fres (list CBetOut) :=
  let* expectedAddrS := script_addr (scriptPubKey (bo_out e)) in
  let* betPaid := is_paid (nValue (bo_out e)) expectedAddrS vCompleted in
  Ok (if betPaid then vPending
      else vPending ++ [CBetOut_new (nValue (bo_out e)) (scriptPubKey (bo_out e)) (nBetValue e) 0]).

Definition pending (vExpected vCompleted : list CBetOut) : fres (list CBetOut) :=
  if zlen vCompleted <? zlen vExpected then res_fold (add_pending vCompleted) [] vExpected else Ok [].

(** ** [GetBetPayouts] *)

Definition recent_tip : bool := negb (IsInitialBlockDownload env) && (GetTime env - tip_time env <? 60 * 60 * 2).

(** The first branches, which download the results, return no payouts. *)
Definition downloads (height : Z) : bool :=
  recent_tip && ((Z.rem height 1500 =? 1494) || (Z.rem height 1500 =? 1496)).

Definition is_payout_height (height : Z) : bool :=
  (Z.rem height 1500 =? 0) &&
  (lastdrawtime (tip_time env) + 60 * 60 * (if height <=? 88500 then 16 else 18) <? tip_time env).

(** [None]: no betting payouts until block 1500. *)
Definition traverse_height (height : Z) : option Z :=
  if height_last_PoW cons + 1 <? height - nBetBlocksIndexTimespan cons
  then Some (height - nBetBlocksIndexTimespan cons)
  else if height <=? 1500 then None
  else Some (height_last_PoW cons + 1).

Definition GetBetPayouts (height : Z) : fres (list CBetOut) :=
  if downloads height then Ok []
  else if negb (is_payout_height height) then Ok []
  else
    match traverse_height height with
    | None => Ok []
    | Some nTraverseHeight =>
        let latestDrawStartTime := lastdrawtime (tip_time env) in
        let* latestDrawDate := throws (previous_date (lastdrawdate (tip_time env))) in
        let* r := throws (latest_result latestDrawDate) in
        let* p := traverse r latestDrawStartTime (blocks_from env nTraverseHeight) nTraverseHeight [] [] in
        pending (fst p) (snd p)
    end.

(** ** [CMasternodePayments::FillBlockPayee] and [ConnectBlock] *)

(** The outputs of the new coinbase or coinstake transaction. *)
Definition FillBlockPayee (vout : list CTxOut) (fProofOfStake : bool) (nPrevHeight : Z) : fres (list CTxOut) :=
  let blockValue := GetBlockValue (nPrevHeight + 1) in
  let* vout :=
    if fProofOfStake then Ok vout
    else match vout with
         | [] => Err bad_index
         | o :: l => Ok ({| nValue := blockValue; scriptPubKey := scriptPubKey o; nRounds := nRounds o |} :: l)
         end in
  let* vLottoPayouts := GetBetPayouts (nPrevHeight + 1) in
  let (_, vLottoPayouts) := GetBlockPayouts vLottoPayouts in
  Ok (vout ++ map (fun b => CTxOut_new (nValue (bo_out b)) (scriptPubKey (bo_out b))) vLottoPayouts).
End Payouts.

(** The bet part of [ConnectBlock]: the mint it allows, or the rejection
    ["bad-cb-payout"]. [env2] is the node after the results files are downloaded
    again. *)
Definition connect_expected_mint (env env2 : node) (testnet : bool) (block : CBlock) (nHeight : Z) : fres (option Z) :=
  let nExpectedMint := GetBlockValue nHeight in
  let nExpectedMint := if IsProofOfWork block then add_double nExpectedMint 100000 else nExpectedMint in
  let* v := GetBetPayouts env nHeight in
  let (nBets, v) := GetBlockPayouts env v in
  let* ok := IsBlockPayoutsValid env v block nHeight in
  if negb ok && (0 <? zlen v) then
    if testnet then Ok (Some (s64 (nExpectedMint + nBets)))
    else
      let* v := GetBetPayouts env2 nHeight in
      let (nBets, v) := GetBlockPayouts env2 v in
      let* ok := IsBlockPayoutsValid env2 v block nHeight in
      if negb ok && (0 <? zlen v) then Ok None else Ok (Some (s64 (nExpectedMint + nBets)))
  else Ok (Some (s64 (nExpectedMint + nBets))).
