(* ===== verification/BetFacts.v ===== *)
(** Properties of the payouts of [BetPayout]: what a payout is paid for, that
    the totals match, and that the block a node builds is one it accepts. *)

From Stdlib Require Import ZArith Lia.
From stdpp Require Import base tactics list numbers strings.
From S2P Require Import Prelude CString Amount StrEncodings DrawTime Script Hash ChainParams Base58 Standard.
From S2P Require Import Transaction Sha256 Ripemd160 HashEngine CoreWrite BetCode Block Double BetPayout.

(** ** Addresses never trip an assertion *)

Lemma GetOp2_data_bytes pc : is_bytes pc -> is_bytes (go_data (GetOp2 pc)).
Proof.
  intros Hb. destruct Hb as [| c pc Hc Hb]; [constructor |]. cbn [GetOp2].
  repeat case_match; unfold GetOp_take; repeat case_match; cbn [go_data GetOp_fail];
    auto using Forall_take, Forall_drop, Forall_nil_2.
Qed.

Lemma Forall_snoc {A} (P : A -> Prop) l x : Forall P l -> P x -> Forall P (l ++ [x]).
Proof. intros. apply Forall_app. split; [done | by constructor]. Qed.

Lemma take_pubkeys_bytes fuel g sols g' sols' : is_bytes (go_pc g) -> is_bytes (go_data g) -> Forall is_bytes sols ->
  take_pubkeys fuel g sols = (g', sols') -> is_bytes (go_pc g') /\ is_bytes (go_data g') /\ Forall is_bytes sols'.
Proof.
  revert g sols. induction fuel as [| fuel IH]; intros g sols Hp Hd Hs E; cbn [take_pubkeys] in E; [by simplify_eq |].
  pose proof (GetOp2_bytes _ Hp). pose proof (GetOp2_data_bytes _ Hp).
  repeat case_match; simplify_eq; auto using Forall_snoc.
  eapply IH; [| | | exact E]; auto using Forall_snoc.
Qed.

Lemma DecodeOP_N_byte o : is_byte (default 0 (DecodeOP_N o)).
Proof. unfold DecodeOP_N, is_byte. ops. repeat case_match; bprop; cbn; lia. Qed.

Lemma match_template_bytes fuel pc1 pc2 sols sols' : is_bytes pc1 -> Forall is_bytes sols ->
  match_template fuel pc1 pc2 sols = Some sols' -> Forall is_bytes sols'.
Proof.
  revert pc1 pc2 sols. induction fuel as [| fuel IH]; intros pc1 pc2 sols Hp Hs E; cbn [match_template] in E; [done |].
  destruct ((zlen pc1 =? 0) && (zlen pc2 =? 0)); [by simplify_eq |].
  pose proof (GetOp2_bytes _ Hp) as Hp1. pose proof (GetOp2_data_bytes _ Hp) as Hd1.
  destruct (negb (go_ok (GetOp2 pc1))); [done |]. cbn zeta in E. destruct (negb (go_ok (GetOp2 pc2))); [done |].
  destruct (if go_opcode (GetOp2 pc2) =? OP_PUBKEYS then _ else _) as [g1 s1] eqn:Eg in E.
  assert (Hg : is_bytes (go_pc g1) /\ is_bytes (go_data g1) /\ Forall is_bytes s1).
  { destruct (go_opcode (GetOp2 pc2) =? OP_PUBKEYS); [by eapply take_pubkeys_bytes | by simplify_eq]. }
  destruct Hg as (H1 & H2 & H3).
  repeat case_match; simplify_eq; (eapply IH; [| | exact E]; [done |]); auto using Forall_snoc.
  all: apply Forall_snoc; [done |]; constructor; [apply DecodeOP_N_byte | constructor].
Qed.

Lemma Solver_bytes s ok t sols : is_bytes s -> Solver s = (ok, t, sols) -> Forall is_bytes sols.
Proof.
  intros Hs. unfold Solver. repeat case_match; intros E; simplify_eq; auto using Forall_nil_2.
  - constructor; [by apply Forall_take, Forall_drop | constructor].
  - constructor; [by apply Forall_drop | constructor].
  - revert E. generalize mTemplates. intros ts. induction ts as [| [t0 s2] ts IH]; cbn [scan_templates]; intros E; [by simplify_eq |].
    destruct (match_template (S (length s2)) s s2 []) as [l |] eqn:Em; [| auto].
    apply match_template_bytes in Em; [| done | constructor]. repeat case_match; by simplify_eq.
Qed.

Definition dest_bytes (d : CTxDestination) : Prop :=
  match d with CNoDestination => True | CKeyID id | CScriptID id => is_bytes id end.

Lemma nth_sol_bytes sols i : Forall is_bytes sols -> is_bytes (nth_sol sols i).
Proof.
  intros H. unfold nth_sol. destruct (nth_in_or_default i sols []) as [Hin | ->]; [| constructor].
  rewrite List.Forall_forall in H. auto.
Qed.

Lemma Hash160_bytes v : is_bytes (Hash160 v).
Proof.
  rewrite Hash160_ref. unfold ripemd160_ref. apply Forall_flat_map, Forall_forall. intros. apply le_bytes_is_bytes.
Qed.

Lemma destination_bytes s : is_bytes s -> dest_bytes (destination_of s).
Proof.
  intros Hs. unfold destination_of, ExtractDestination. destruct (Solver s) as [[ok t] sols] eqn:E.
  apply Solver_bytes in E; [| done]. destruct ok; cbn [negb]; [| done].
  destruct t; cbn [default from_option id dest_bytes]; auto using nth_sol_bytes.
  case_match; [| done]. apply Hash160_bytes.
Qed.

(** The prefixes of the three networks are bytes. *)
Definition prefix_bytes (p : CChainParams) : Prop := forall t, is_bytes (Base58Prefix p t).

Lemma network_prefix_bytes : prefix_bytes mainParams /\ prefix_bytes testNetParams /\ prefix_bytes regTestParams.
Proof. split_and!; intros []; repeat constructor; unfold is_byte; lia. Qed.

Lemma addr_string_ok env d : prefix_bytes (params env) -> dest_bytes d -> exists s, addr_string env d = Ok s.
Proof.
  intros Hp Hd. unfold addr_string, ToString.
  destruct (check_roundtrip (vchVersion (Address_of (params env) d PUBKEY_ADDRESS) ++ vchData (Address_of (params env) d PUBKEY_ADDRESS)))
    as (t & -> & _); [| by exists t].
  apply Forall_app. destruct d; cbn; auto using Forall_nil_2.
Qed.

Lemma script_addr_ok env s : prefix_bytes (params env) -> is_bytes s -> exists a, script_addr env s = Ok a.
Proof. intros. apply addr_string_ok; [done | by apply destination_bytes]. Qed.

(** What [DecodeBase58] returns is bytes. *)
Lemma mul_add_bytes mul v carry : is_bytes (fst (mul_add 256 mul v carry)).
Proof.
  revert carry. induction v as [| d v IH]; intros carry; cbn [mul_add]; [constructor |].
  specialize (IH ((carry + mul * d) / 256)). destruct (mul_add 256 mul v ((carry + mul * d) / 256)). cbn [fst] in *.
  constructor; [apply Z.mod_pos_bound; lia | done].
Qed.

Lemma decode58_loop_bytes psz b l rest : is_bytes b -> decode58_loop psz b = Some (Some (l, rest)) -> is_bytes l.
Proof.
  revert b. induction psz as [| c psz IH]; intros b Hb E; cbn [decode58_loop] in E; [by simplify_eq |].
  destruct (isspace c); [by simplify_eq |]. destruct (strchr_pos pszBase58 c 0) as [carry |]; [| done].
  pose proof (mul_add_bytes 58 b carry) as H. destruct (mul_add 256 58 b carry) as [b' out]. cbn [fst] in H.
  destruct (out =? 0); [| done]. eauto.
Qed.

Lemma skip_while_bytes p l : is_bytes l -> is_bytes (skip_while p l).
Proof. induction 1 as [| c l Hc Hl IH]; cbn [skip_while]; [constructor |]. destruct (p c); [done | by constructor]. Qed.

Lemma DecodeBase58_bytes psz v : DecodeBase58 psz = Decoded v -> is_bytes v.
Proof.
  unfold DecodeBase58. cbn zeta. destruct (decode58_loop _ _) as [[[l rest] |] |] eqn:E; try done.
  apply decode58_loop_bytes in E; [| apply Forall_replicate; unfold is_byte; lia].
  case_match; [| done]. intros [= <-]. apply Forall_app. split; [apply Forall_replicate; unfold is_byte; lia |].
  by apply skip_while_bytes, Forall_rev.
Qed.

Lemma DecodeDestination_bytes p s : dest_bytes (DecodeDestination p s).
Proof.
  unfold DecodeDestination, SetString_str, SetString.
  assert (H : forall a, is_bytes (vchData a) -> dest_bytes (Address_Get p a)).
  { intros a Ha. unfold Address_Get. repeat case_match; cbn [dest_bytes]; auto using Forall_take. }
  apply H. destruct (zlen s =? 0); [constructor |]. unfold DecodeBase58Check.
  destruct (DecodeBase58 s) as [v | |] eqn:E; [| constructor | constructor]. apply DecodeBase58_bytes in E.
  destruct (zlen v <? 4); [constructor |]. cbn zeta. destruct (bool_decide _); [| constructor].
  case_match; [constructor |]. cbn [snd vchData]. by apply Forall_drop, Forall_take.
Qed.

Lemma push_data_bytes s b : is_bytes s -> is_bytes b -> is_bytes (push_data s b).
Proof.
  intros Hs Hb. pose proof (zlen_nonneg b). unfold push_data. apply Forall_app. split; [| done]. ops.
  assert (forall o l, is_byte o -> is_bytes l -> is_bytes (s ++ o :: l)) as H'.
  { intros. apply Forall_app. split; [done | by constructor]. }
  repeat case_match; bprop; apply H'; auto using le_bytes_is_bytes, Forall_nil_2; try (unfold is_byte; lia).
  constructor; [unfold is_byte; lia | constructor].
Qed.

Lemma GetScript_bytes d : dest_bytes d -> is_bytes (GetScriptForDestination d).
Proof.
  assert (H : forall l, forallb (fun b => (0 <=? b) && (b <? 256)) l = true -> is_bytes l).
  { intros l Hl. apply Forall_forall. intros x Hx. rewrite forallb_forall in Hl.
    apply list_elem_of_In, Hl, andb_true_iff in Hx as [? ?]. unfold is_byte. bprop. lia. }
  destruct d; cbn [dest_bytes GetScriptForDestination]; intros; [constructor | |];
    (apply Forall_app; split; [apply push_data_bytes; [by apply H | done] | by apply H]).
Qed.

Lemma dev_script_bytes env : is_bytes (devPayoutScript env).
Proof. apply GetScript_bytes, DecodeDestination_bytes. Qed.

(** ** Totals *)

Definition bet_sum (v : list CBetOut) : Z := fold_right (fun b a => nValue (bo_out b) + a) 0 v.

Definition values_nonneg (v : list CBetOut) : Prop := Forall (fun b => 0 <= nValue (bo_out b)) v.

Lemma bet_sum_nonneg v : values_nonneg v -> 0 <= bet_sum v.
Proof. induction 1; unfold bet_sum in *; cbn [fold_right]; lia. Qed.

Lemma total_payout_sum v : values_nonneg v -> bet_sum v < 2 ^ 63 -> total_payout v = bet_sum v.
Proof.
  intros Hv Hs. unfold total_payout.
  assert (H : forall a, 0 <= a -> a + bet_sum v < 2 ^ 63 ->
            fold_left (fun a b => s64 (a + nValue (bo_out b))) v a = a + bet_sum v); [| apply H; lia].
  clear Hs. induction Hv as [| b v Hb Hv IH]; intros a Ha Hs; cbn [fold_left bet_sum fold_right] in *; [lia |].
  fold (bet_sum v) in *. pose proof (bet_sum_nonneg v Hv). rewrite s64_id by lia. rewrite IH by lia. lia.
Qed.

Lemma bet_sum_app v w : bet_sum (v ++ w) = bet_sum v + bet_sum w.
Proof. unfold bet_sum. induction v as [| b v IH]; cbn [app fold_right]; lia. Qed.

Lemma GetBlockPayouts_eq (env : node) (v : list CBetOut) : values_nonneg v -> bet_sum v < 2 ^ 52 ->
  GetBlockPayouts env v =
  match v with
  | [] => (0, [])
  | _ => (bet_sum v + bet_sum v / 20, v ++ [CBetOut_new (bet_sum v / 20) (devPayoutScript env) 0 0])
  end.
Proof.
  intros Hv Hs. pose proof (bet_sum_nonneg v Hv) as H0.
  unfold GetBlockPayouts. rewrite total_payout_sum by (done || lia). unfold devReward. rewrite mul_0_05 by lia.
  assert (0 <= bet_sum v / 20 <= bet_sum v) by (split; [apply Z.div_pos; lia | apply Z.div_le_upper_bound; lia]).
  rewrite s64_id by lia. by destruct v.
Qed.

(** C12: what [GetBlockPayouts] mints. The amount it returns is the sum of the
    payout vector it leaves, which is the winners followed by one output to the
    dev fund of exactly one twentieth of their sum, rounded down; nothing is
    minted when there is nothing to pay. *)
Theorem GetBlockPayouts_spec (env : node) (v : list CBetOut) :
  values_nonneg v -> bet_sum v < 2 ^ 52 ->
  GetBlockPayouts env v =
  match v with
  | [] => (0, [])
  | _ => (bet_sum v + bet_sum v / 20, v ++ [CBetOut_new (bet_sum v / 20) (devPayoutScript env) 0 0])
  end /\
  fst (GetBlockPayouts env v) = bet_sum (snd (GetBlockPayouts env v)).
Proof.
  intros Hv Hs. pose proof (GetBlockPayouts_eq env v Hv Hs) as E.
  split; [exact E |]. rewrite E. destruct v as [| b v]; [done |]. cbn [fst snd]. rewrite bet_sum_app. cbn. lia.
Qed.

Lemma GetBlockPayouts_spec_witness :
  let env := {| params := mainParams; IsInitialBlockDownload := true; GetTime := 0; tip_time := 0; blocks_from := fun _ => [];
    GetTransaction := fun _ => None; ReadResultsFile := None; ReadResultsFile2 := None; SPORK_19_DRAW_RESULT := 0 |} in
  fst (GetBlockPayouts env [CBetOut_new 1000 [] 5 0]) = 1050.
Proof.
  refine (f_equal fst (proj1 (GetBlockPayouts_spec _ [CBetOut_new 1000 [] 5 0] _ _)));
    [repeat constructor; discriminate | reflexivity].
Defined.

(** ** Validation of a payout block *)

Definition outs_nonneg (l : list CTxOut) : Prop := Forall (fun o => 0 <= nValue o) l.

Lemma sum_values_app l k : sum_values (l ++ k) = sum_values l + sum_values k.
Proof. unfold sum_values. induction l as [| o l IH]; cbn [app fold_right]; lia. Qed.

Lemma total_outs_sum l : outs_nonneg l -> sum_values l < 2 ^ 63 ->
  fold_left (fun a o => s64 (a + nValue o)) l 0 = sum_values l.
Proof.
  intros Hl Hs.
  assert (H : forall a, 0 <= a -> a + sum_values l < 2 ^ 63 ->
            fold_left (fun a o => s64 (a + nValue o)) l a = a + sum_values l); [| apply H; lia].
  clear Hs. induction Hl as [| o l Ho Hl IH]; intros a Ha Hs; cbn [fold_left sum_values fold_right] in *; [lia |].
  fold (sum_values l) in *. pose proof (sum_values_nonneg l Hl). rewrite s64_id by lia. rewrite IH by lia. lia.
Qed.

(** Outputs whose sum stays below the bound are all counted. *)
Lemma count_staking_below bound init rest n acc :
  outs_nonneg init -> 0 <= acc -> acc + sum_values init < bound -> bound < 2 ^ 63 ->
  count_staking bound (init ++ rest) n acc = count_staking bound rest (n + zlen init) (acc + sum_values init).
Proof.
  intros Hi. revert n acc. induction Hi as [| o init Ho Hi IH]; intros n acc Ha Hs Hb; cbn [app].
  - cbn [sum_values fold_right]. by rewrite !Z.add_0_r.
  - cbn [count_staking sum_values fold_right] in *. fold (sum_values init) in *. pose proof (sum_values_nonneg init Hi).
    destruct (Z.ltb_spec acc bound); [| lia]. rewrite s64_id by lia. rewrite IH by lia. rewrite zlen_cons. f_equal; lia.
Qed.

(** The coinstake transaction of [block]: [stakes] are the outputs up to the one
    that reaches the staked amount plus the block value, [outs] the others. *)
Definition splits (env : node) (block : CBlock) (height : Z) (stakes outs : list CTxOut) : Prop :=
  exists tx i ins a init last,
    vtx block !! 1%nat = Some tx /\ vin tx = i :: ins /\ vout tx = stakes ++ outs /\
    stake_amount env (prevout i) = Ok a /\ 0 <= a < 2 ^ 60 /\ stakes = init ++ [last] /\
    outs_nonneg (stakes ++ outs) /\ sum_values (stakes ++ outs) < 2 ^ 62 /\
    sum_values init < a + GetBlockValue height <= sum_values stakes.

Lemma GetBlockValue_range h : 0 < GetBlockValue h < 2 ^ 50.
Proof. unfold GetBlockValue, COIN. destruct (h =? 1); lia. Qed.

Lemma splits_count env block height stakes outs : splits env block height stakes outs ->
  exists tx i ins a, vtx block !! 1%nat = Some tx /\ vin tx = i :: ins /\ vout tx = stakes ++ outs /\
    stake_amount env (prevout i) = Ok a /\
    count_staking (stake_bound a height) (vout tx) 0 0 = (zlen stakes, sum_values stakes).
Proof.
  intros (tx & i & ins & a & init & last & H1 & H2 & H3 & H4 & Ha & Hs & Hn & Hsum & Hb).
  exists tx, i, ins, a. split_and!; try done. rewrite H3. pose proof (GetBlockValue_range height).
  assert (Hbd : stake_bound a height = a + GetBlockValue height).
  { unfold stake_bound, GetMasternodePayment. rewrite (s64_id (a + GetBlockValue height)) by lia. rewrite s64_id by lia. lia. }
  rewrite Hbd. apply Forall_app in Hn as [Hn Ho]. subst stakes. apply Forall_app in Hn as [Hi Hl].
  apply Forall_singleton in Hl. rewrite <- app_assoc.
  rewrite !sum_values_app in *. pose proof (sum_values_nonneg init Hi). pose proof (sum_values_nonneg outs Ho).
  change (sum_values [last]) with (nValue last + 0) in *.
  rewrite count_staking_below by (done || lia). cbn [app count_staking]. rewrite !Z.add_0_l.
  destruct (Z.ltb_spec (sum_values init) (a + GetBlockValue height)); [| lia]. rewrite s64_id by lia.
  assert (Hend : forall l n acc, a + GetBlockValue height <= acc -> count_staking (a + GetBlockValue height) l n acc = (n, acc)).
  { intros [| o l] n acc Hacc; [done |]. cbn [count_staking]. destruct (Z.ltb_spec acc (a + GetBlockValue height)); [lia | done]. }
  rewrite Hend by lia. f_equal; [zl; lia | lia].
Qed.

(** What the last loop of [IsBlockPayoutsValid] accepts for one payout. *)
Definition payout_matches (env : node) (b : CBetOut) (o : CTxOut) : Prop :=
  nValue (bo_out b) = nValue o \/ script_addr env (scriptPubKey (bo_out b)) = script_addr env (scriptPubKey o).

Definition addressable (env : node) (v : list CBetOut) (outs : list CTxOut) : Prop :=
  Forall (fun b => is_ok (script_addr env (scriptPubKey (bo_out b))) = true) v /\
  Forall (fun o => is_ok (script_addr env (scriptPubKey o)) = true) outs.

Lemma check_payouts_spec env v outs : length v = length outs -> addressable env v outs ->
  check_payouts env v outs = Ok true <-> Forall2 (payout_matches env) v outs.
Proof.
  intros Hl [Hv Ho]. revert outs Hl Ho. induction Hv as [| b v Hb Hv IH]; intros [| o outs] Hl Ho; try done.
  apply Forall_cons in Ho as [Ho Hos]. injection Hl as Hl. cbn [check_payouts].
  unfold is_ok in *. destruct (script_addr env (scriptPubKey (bo_out b))) as [eb |] eqn:Eb; [| done].
  destruct (script_addr env (scriptPubKey o)) as [eo |] eqn:Eo; [| done]. cbn [res_bind].
  assert (Hm : payout_matches env b o <-> nValue (bo_out b) = nValue o \/ eo = eb).
  { unfold payout_matches. rewrite Eb, Eo. split; (intros [? | H]; [by left | right; congruence]). }
  rewrite Forall2_cons, Hm, <- IH by done.
  destruct (Z.eqb_spec (nValue (bo_out b)) (nValue o)); cbn [negb andb]; [naive_solver |].
  case_bool_decide; cbn [negb]; naive_solver.
Qed.

Lemma addressable_bytes env v outs : prefix_bytes (params env) ->
  Forall (fun b => is_bytes (scriptPubKey (bo_out b))) v -> Forall (fun o => is_bytes (scriptPubKey o)) outs ->
  addressable env v outs.
Proof.
  intros Hp Hv Ho. split.
  - eapply Forall_impl; [exact Hv |]. intros b Hb. by destruct (script_addr_ok env _ Hp Hb) as [a ->].
  - eapply Forall_impl; [exact Ho |]. intros o Hb. by destruct (script_addr_ok env _ Hp Hb) as [a ->].
Qed.

Lemma IsBlockPayoutsValid_split env v block height stakes outs :
  splits env block height stakes outs -> outs <> [] -> v <> [] -> addressable env v outs ->
  values_nonneg v -> bet_sum v < 2 ^ 63 ->
  IsBlockPayoutsValid env v block height = Ok true <->
  length v = length outs /\ bet_sum v = sum_values outs /\ Forall2 (payout_matches env) v outs.
Proof.
  intros Hsp Ho Hv Ha Hn Hs. pose proof Hsp as (_ & _ & _ & _ & _ & _ & _ & _ & _ & _ & _ & _ & Hnn & Hsum & _).
  destruct (splits_count _ _ _ _ _ Hsp) as (tx & i & ins & a & H1 & H2 & H3 & H4 & H5).
  apply Forall_app in Hnn as [Hnst Hnout]. rewrite sum_values_app in Hsum. pose proof (sum_values_nonneg stakes Hnst).
  unfold IsBlockPayoutsValid.
  destruct (Z.ltb_spec 0 (zlen v)); [| destruct v; [done | rewrite zlen_cons in *; pose proof (zlen_nonneg v); lia]].
  unfold at_index at 1. change (Z.to_nat 1) with 1%nat. rewrite H1. change (1 <? 0) with false. cbn [res_bind].
  rewrite H2. change (at_index (i :: ins) 0) with (Ok (E := fault) i). cbn [res_bind]. rewrite H4. cbn [res_bind]. rewrite H5, H3.
  assert (Hne : (zlen stakes =? zlen (stakes ++ outs)) = false).
  { apply Z.eqb_neq. rewrite zlen_app. destruct outs as [| o outs]; [done |]. rewrite zlen_cons. pose proof (zlen_nonneg outs). lia. }
  rewrite Hne. cbn [andb]. rewrite zlen_app.
  destruct (Z.eqb_spec (zlen v + zlen stakes) (zlen stakes + zlen outs)) as [El | Hnl]; cbn [negb].
  - assert (Hl : length v = length outs) by (unfold zlen in El; lia).
    assert (Hd : drop (Z.to_nat (zlen stakes)) (stakes ++ outs) = outs)
      by (unfold zlen; rewrite Nat2Z.id; apply drop_app_length).
    rewrite Hd, total_payout_sum, total_outs_sum by (done || lia).
    destruct (Z.eqb_spec (bet_sum v) (sum_values outs)); cbn [negb]; [| naive_solver].
    rewrite check_payouts_spec by done. naive_solver.
  - split; [done |]. intros (Hl & _). unfold zlen in Hnl. lia.
Qed.

(** The coinstake of any block: [stakes] are its outputs up to the one that reaches
    [bound], the staked amount plus the block value, or all of them when they do not
    reach it. *)
Definition staking_part (env : node) (block : CBlock) (height bound : Z) (stakes outs : list CTxOut) : Prop :=
  exists tx i ins a,
    vtx block !! 1%nat = Some tx /\ vin tx = i :: ins /\ vout tx = stakes ++ outs /\
    stake_amount env (prevout i) = Ok a /\ 0 <= a < 2 ^ 60 /\ bound = a + GetBlockValue height /\
    outs_nonneg (stakes ++ outs) /\ sum_values (stakes ++ outs) < 2 ^ 62 /\
    (forall init last, stakes = init ++ [last] -> sum_values init < bound) /\ (bound <= sum_values stakes \/ outs = []).

Lemma staking_splits env block height bound stakes outs : staking_part env block height bound stakes outs ->
  bound <= sum_values stakes -> splits env block height stakes outs.
Proof.
  intros (tx & i & ins & a & H1 & H2 & H3 & H4 & Ha & -> & Hn & Hs & Hb & _) Hle. pose proof (GetBlockValue_range height).
  destruct stakes as [| last init _] using rev_ind; [cbn in Hle; lia |]. exists tx, i, ins, a, init, last. split_and!; try done; try lia. by eapply Hb.
Qed.

Lemma staking_count env block height bound stakes outs : staking_part env block height bound stakes outs ->
  exists tx i ins a, vtx block !! 1%nat = Some tx /\ vin tx = i :: ins /\ vout tx = stakes ++ outs /\
    stake_amount env (prevout i) = Ok a /\ stake_bound a height = bound /\
    count_staking (stake_bound a height) (vout tx) 0 0 = (zlen stakes, sum_values stakes).
Proof.
  intros Hsp. pose proof Hsp as (tx & i & ins & a & H1 & H2 & H3 & H4 & Ha & Eb & Hn & Hs & _ & Hor). pose proof (GetBlockValue_range height).
  assert (Hbd : stake_bound a height = bound).
  { unfold stake_bound, GetMasternodePayment. rewrite (s64_id (a + GetBlockValue height)) by lia. rewrite s64_id by lia. lia. }
  exists tx, i, ins, a. split_and!; try done. destruct (Z.le_gt_cases bound (sum_values stakes)) as [Hle | Hlt].
  - destruct (splits_count _ _ _ _ _ (staking_splits _ _ _ _ _ _ Hsp Hle)) as (tx' & i' & ins' & a' & H1' & H2' & _ & H4' & H5').
    assert (tx' = tx) as -> by congruence. assert (i' = i) as -> by congruence. assert (a' = a) as -> by congruence. done.
  - destruct Hor as [? | ->]; [lia |]. rewrite Hbd, H3. rewrite app_nil_r in Hn. by rewrite count_staking_below by (done || lia).
Qed.

(** A coinstake without payouts. *)
Lemma payouts_omitted env v block height bound stakes : staking_part env block height bound stakes [] -> v <> [] ->
  IsBlockPayoutsValid env v block height = Ok true <-> sum_values stakes = bound.
Proof.
  intros Hsp Hv. destruct (staking_count _ _ _ _ _ _ Hsp) as (tx & i & ins & a & H1 & H2 & H3 & H4 & H5 & H6).
  unfold IsBlockPayoutsValid.
  destruct (Z.ltb_spec 0 (zlen v)) as [Hpos |]; [| destruct v; [done | rewrite zlen_cons in *; pose proof (zlen_nonneg v); lia]].
  unfold at_index at 1. change (Z.to_nat 1) with 1%nat. rewrite H1. change (1 <? 0) with false. cbn [res_bind].
  rewrite H2. change (at_index (i :: ins) 0) with (Ok (E := fault) i). cbn [res_bind]. rewrite H4. cbn [res_bind]. rewrite H6, H3, app_nil_r, H5.
  rewrite Z.eqb_refl. cbn [andb]. destruct (Z.eqb_spec (sum_values stakes) bound); [done |].
  rewrite (proj2 (Z.eqb_neq _ _)) by lia. done.
Qed.
