(* ===== verification/BetSound.v ===== *)
(** What [GetBetPayouts] pays: every payout is for a bet in the window that won
    the latest draw, at the advertised odds, and that no block has paid yet; and
    the block that a node builds for these payouts is one that it accepts. *)

From Stdlib Require Import ZArith Lia.
From stdpp Require Import base tactics list numbers strings.
From S2P Require Import Prelude CString Amount StrEncodings DrawTime Script Hash ChainParams Base58 Standard.
From S2P Require Import Transaction CoreWrite BetCode Block Double BetPayout BetFacts.

(** ** Specification *)





(** ** One bet *)






(** ** The window *)

Section Window.
Context (env : node) (r : draw_result) (start : Z).
Abbreviation cons := (consensus (params env)).

(** The entry [e] of [vExpectedPayouts] and the bet it pays. *)
Definition earned_by (blocks : list CBlock) (e : CBetOut) : Prop :=
  exists block tx o lb d,
    block ∈ blocks /\ tx ∈ vtx block /\ o ∈ vout tx /\ bet_of_output o = Some lb /\
    nMinBetPayoutRange cons * COIN <= nValue o <= nMaxBetPayoutRange cons * COIN /\
    isWinner env r start (nTime (header block)) lb = Ok true /\
    payout_address env tx = Ok d /\ e = CBetOut_new (winnings lb (nValue o)) (payout_script env d) (nValue o) 0 /\
    0 < winnings lb (nValue o) <= nMaxWinnerPayout cons * COIN.

Lemma scan_output_earned blocks block tx v o v' :
  block ∈ blocks -> tx ∈ vtx block -> o ∈ vout tx -> Forall (earned_by blocks) v ->
  scan_output env r start (nTime (header block)) tx v o = Ok v' -> Forall (earned_by blocks) v'.
Proof.
  intros Hb Ht Ho Hv E. unfold scan_output in E. destruct (bet_of_output o) as [lb |] eqn:El; [| by simplify_eq].
  bcase_in E; [| by simplify_eq]. apply res_bind_Ok in E as (w & Ew & E). bcase_in E; [| by simplify_eq].
  apply res_bind_Ok in E as (d & Ed & E). bcase_in E; [| by simplify_eq]. injection E as <-.
  apply Forall_app. split; [done |]. apply Forall_singleton. exists block, tx, o, lb, d. subst w. split_and!; done || lia.
Qed.

Lemma traverse_earned all blocks h vE vC vE' vC' :
  (forall b, b ∈ blocks -> b ∈ all) -> Forall (earned_by all) vE ->
  traverse env r start blocks h vE vC = Ok (vE', vC') -> Forall (earned_by all) vE'.
Proof.
  revert h vE vC. induction blocks as [| block blocks IH]; intros h vE vC Hs Hv E; cbn [traverse] in E; [by simplify_eq |].
  apply res_bind_Ok in E as (v1 & E1 & E). apply res_bind_Ok in E as (c & Ec & E).
  eapply IH; [| | exact E]; [intros; apply Hs; by apply list_elem_of_further |].
  eapply (res_fold_inv (Forall (earned_by all))); [exact Hv | | exact E1].
  intros s tx s' Hs0 Htx Et. unfold scan_tx in Et.
  eapply (res_fold_inv (Forall (earned_by all))); [exact Hs0 | | exact Et].
  intros s1 o s2 Hs1 Ho Eo. eapply scan_output_earned; [| exact Htx | exact Ho | exact Hs1 | exact Eo].
  apply Hs, list_elem_of_here.
Qed.

(** What is due: expected, with no payment of the same amount to the same
    address since the draw. *)
Definition unpaid (vC : list CBetOut) (p : CBetOut) : Prop :=
  exists a, script_addr env (scriptPubKey (bo_out p)) = Ok a /\ is_paid env (nValue (bo_out p)) a vC = Ok false.

Lemma pending_unpaid vE vC vP : pending env vE vC = Ok vP ->
  Forall (fun p => unpaid vC p /\ exists e, e ∈ vE /\ p = CBetOut_new (nValue (bo_out e)) (scriptPubKey (bo_out e)) (nBetValue e) 0) vP.
Proof.
  unfold pending. case_match; [| intros [= <-]; constructor]. intros E.
  eapply (res_fold_inv (Forall _)); [apply Forall_nil_2 | | exact E].
  intros s e s' Hs He Es. unfold add_pending in Es. apply res_bind_Ok in Es as (a & Ea & Es).
  apply res_bind_Ok in Es as (paid & Ep & Es). injection Es as <-. destruct paid; [done |].
  apply Forall_snoc; [done |]. split; [by exists a | by exists e].
Qed.
End Window.

(** The numbers of the three networks: no bet is near the limits of [double]. *)
Definition bet_limits_ok (c : ConsensusParams) : Prop :=
  0 <= nMinBetPayoutRange c /\ nMaxBetPayoutRange c * COIN * 3500 < 2 ^ 53 /\ nMaxWinnerPayout c * COIN < 2 ^ 50.

Lemma network_bet_limits : bet_limits_ok mainConsensus /\ bet_limits_ok testConsensus /\ bet_limits_ok regConsensus.
Proof. unfold bet_limits_ok. split_and!; vm_compute; congruence. Qed.



(** A call that pays something: its window, its draw, and its payouts. *)
Lemma GetBetPayouts_inv env height v p : GetBetPayouts env height = Ok v -> p ∈ v ->
  exists h date r vE vC,
    is_payout_height env height = true /\ traverse_height env height = Some h /\
    previous_date (lastdrawdate (tip_time env)) = Ok date /\ latest_result env date = Ok r /\
    traverse env r (lastdrawtime (tip_time env)) (blocks_from env h) h [] [] = Ok (vE, vC) /\ pending env vE vC = Ok v.
Proof.
  unfold GetBetPayouts. intros E Hp.
  destruct (downloads env height); [simplify_eq; by apply elem_of_nil in Hp |].
  destruct (is_payout_height env height); cbn [negb] in E; [| simplify_eq; by apply elem_of_nil in Hp].
  destruct (traverse_height env height) as [h |]; [| simplify_eq; by apply elem_of_nil in Hp].
  apply res_bind_Ok in E as (date & Ed & E). apply res_bind_Ok in E as (r & Er & E).
  apply res_bind_Ok in E as ([vE vC] & Et & E).
  assert (Hth : forall A (x : res cxx_exn A) a, throws x = Ok a -> x = Ok a) by (intros A [x |] y [= ->]; done).
  exists h, date, r, vE, vC. split_and!; auto.
Qed.


(** A bet of 1 PWR on the number 1, which was drawn. *)
Definition sample_bet_tx : CTransaction :=
  {| Transaction.nVersion := 1;
     vin := [{| prevout := {| op_hash := replicate 32 5; op_n := 0 |}; scriptSig := []; nSequence := MAX_UINT32 |}];
     vout := [CTxOut_new COIN (script_of [Op OP_RETURN; Push (bet_bytes (CLottoBet_new 20200614 1 0 0))])];
     nLockTime := 0 |}.

Definition sample_node : node :=
  {| params := mainParams; IsInitialBlockDownload := false; GetTime := 1592600000; tip_time := 1592600000;
     blocks_from := fun _ => [{| header :=
       {| h_nVersion := 7; hashPrevBlock := []; hashMerkleRoot := []; nTime := 1592000000; nBits := 0; nNonce := 0;
          nAccumulatorCheckpoint := [] |}; vtx := [sample_tx; sample_bet_tx]; vchBlockSig := [] |}];
     GetTransaction := fun _ => Some {| Transaction.nVersion := 1; vin := [];
       vout := [CTxOut_new (5 * COIN) (GetScriptForDestination (CKeyID (replicate 20 9)))]; nLockTime := 0 |};
     ReadResultsFile := None; ReadResultsFile2 := None; SPORK_19_DRAW_RESULT := 202006140102030405 |}.

Definition sample_payout : CBetOut := CBetOut_new (12 * COIN) (GetScriptForDestination (CKeyID (replicate 20 9))) COIN 0.

Lemma sample_pending : pending sample_node [sample_payout] [] = Ok [sample_payout].
Proof.
  unfold pending. change (zlen [] <? zlen [sample_payout]) with true. cbn iota. cbn [res_fold]. unfold add_pending.
  destruct (script_addr_ok sample_node (scriptPubKey (bo_out sample_payout))) as [a ->];
    [apply network_prefix_bytes | | reflexivity].
  apply GetScript_bytes. cbn [dest_bytes]. apply Forall_replicate. unfold is_byte. lia.
Qed.

Lemma sample_payouts : GetBetPayouts sample_node 3000 = Ok [sample_payout].
Proof.
  transitivity (pending sample_node [sample_payout] []); [| exact sample_pending].
  unfold GetBetPayouts. change (downloads sample_node 3000) with false. change (is_payout_height sample_node 3000) with true.
  change (traverse_height sample_node 3000) with (Some 201). cbn [negb].
  change (throws (previous_date (lastdrawdate (tip_time sample_node)))) with (Ok (E := fault) (str "2020-06-17")).
  cbn [res_bind].
  change (throws (latest_result sample_node (str "2020-06-17")))
    with (Ok (E := fault) {| resultDate := str "20200614"; resultNums := [str "1"; str "2"; str "3"; str "4"; str "5"] |}).
  cbn [res_bind].
  change (lastdrawtime (tip_time sample_node)) with 1592449140.
  replace (traverse _ _ _ _ _ _ _) with (Ok (E := fault) ([sample_payout], @nil CBetOut)) by (vm_compute; reflexivity).
  reflexivity.
Qed.


(** C13: what the payout validation of a block accepts, exactly. [IsBlockPayoutsValid]
    holds if and only if no payout is expected; or the coinstake has no outputs after its
    staking outputs, which amount to exactly what they must (a block that pays no bet is
    accepted whatever payouts are expected); or there are as many outputs after the
    staking outputs as expected payouts, their total is the expected total, and each has
    the expected amount or the expected address. The comment of the function asks for the
    amount and the address; the test in the code joins the two mismatches with [&&]. *)
Theorem IsBlockPayoutsValid_iff (env : node) (v : list CBetOut) (block : CBlock) (height bound : Z) (stakes outs : list CTxOut) :
  prefix_bytes (params env) -> staking_part env block height bound stakes outs ->
  Forall (fun b => is_bytes (scriptPubKey (bo_out b))) v -> Forall (fun o => is_bytes (scriptPubKey o)) outs ->
  values_nonneg v -> bet_sum v < 2 ^ 63 ->
  IsBlockPayoutsValid env v block height = Ok true <->
  v = [] \/ (outs = [] /\ sum_values stakes = bound) \/
  (length v = length outs /\ bet_sum v = sum_values outs /\ Forall2 (payout_matches env) v outs).
Proof.
  intros Hp Hsp Hv Ho Hn Hs. destruct (decide (v = [])) as [-> | Hvn]; [by split; [left |] |].
  destruct (decide (outs = [])) as [-> | Hon].
  - assert (Hl : length v <> length (@nil CTxOut)) by (by destruct v). rewrite (payouts_omitted _ _ _ _ _ _ Hsp Hvn). naive_solver.
  - assert (Hb : bound <= sum_values stakes) by (destruct Hsp as (? & ? & ? & ? & _ & _ & _ & _ & _ & _ & _ & _ & _ & [? | ?]); done).
    pose proof (IsBlockPayoutsValid_split env v block height stakes outs (staking_splits _ _ _ _ _ _ Hsp Hb) Hon Hvn
      (addressable_bytes _ _ _ Hp Hv Ho) Hn Hs) as E. rewrite E. naive_solver.
Qed.

(** A payout block that pays the right amount to somebody else. *)
Definition sample_stakes : list CTxOut := [CTxOut_new 0 []; CTxOut_new (6 * COIN) [OP_1]].
Definition sample_misdirected : list CTxOut := [CTxOut_new (12 * COIN) (GetScriptForDestination (CKeyID (replicate 20 66)))].
Definition sample_payout_block (outs : list CTxOut) : CBlock :=
  {| header := CBlockHeader_SetNull;
     vtx := [sample_tx; {| Transaction.nVersion := 1; vin := vin sample_bet_tx; vout := sample_stakes ++ outs; nLockTime := 0 |}];
     vchBlockSig := [] |}.

Lemma sample_staking outs : outs_nonneg outs -> sum_values outs < 2 ^ 61 ->
  staking_part sample_node (sample_payout_block outs) 3000 (6 * COIN) sample_stakes outs.
Proof.
  intros H1 H2. eexists _, _, _, (5 * COIN). split_and!; try reflexivity; try discriminate.
  - apply Forall_app. split; [| done].
    repeat (apply Forall_cons; split); [discriminate | discriminate | apply Forall_nil_2].
  - rewrite sum_values_app. change (sum_values sample_stakes) with 600000000. lia.
  - intros init last E. change sample_stakes with ([CTxOut_new 0 []] ++ [CTxOut_new (6 * COIN) [OP_1]]) in E. apply app_inj_2 in E as [<- _]; [| done]. reflexivity.
  - left. discriminate.
Qed.

Lemma sample_splits outs : outs_nonneg outs -> sum_values outs < 2 ^ 61 ->
  splits sample_node (sample_payout_block outs) 3000 sample_stakes outs.
Proof.
  intros H1 H2. eexists _, _, _, (5 * COIN), [CTxOut_new 0 []], (CTxOut_new (6 * COIN) [OP_1]).
  split_and!; try reflexivity; try discriminate.
  - apply Forall_app. split; [| done].
    repeat (apply Forall_cons; split); [discriminate | discriminate | apply Forall_nil_2].
  - rewrite sum_values_app. change (sum_values sample_stakes) with 600000000. lia.
Qed.

Lemma IsBlockPayoutsValid_iff_witness :
  IsBlockPayoutsValid sample_node [sample_payout] (sample_payout_block sample_misdirected) 3000 = Ok true.
Proof.
  apply (IsBlockPayoutsValid_iff sample_node [sample_payout] (sample_payout_block sample_misdirected) 3000 (6 * COIN) sample_stakes sample_misdirected).
  - apply network_prefix_bytes.
  - apply sample_staking; [apply Forall_singleton; discriminate | reflexivity].
  - apply Forall_singleton, GetScript_bytes. apply Forall_replicate. split; [discriminate | reflexivity].
  - apply Forall_singleton, GetScript_bytes. apply Forall_replicate. split; [discriminate | reflexivity].
  - apply Forall_singleton. discriminate.
  - reflexivity.
  - right. right. split; [reflexivity | split; [reflexivity |]]. apply Forall2_cons. split; [by left | apply Forall2_nil_2].
Defined.

(** ** The node's own block *)

Lemma GetBetPayouts_values env height v : bet_limits_ok (consensus (params env)) ->
  GetBetPayouts env height = Ok v ->
  values_nonneg v /\ Forall (fun b => is_ok (script_addr env (scriptPubKey (bo_out b))) = true) v.
Proof.
  intros Hlim E. unfold values_nonneg. rewrite <- Forall_and, Forall_forall. intros p Hp.
  destruct (GetBetPayouts_inv env height v p E Hp) as (h & date & r & vE & vC & _ & _ & _ & _ & H4 & H5).
  apply pending_unpaid in H5. rewrite Forall_forall in H5. destruct (H5 p Hp) as ((a & Ea & _) & e & He & Ep).
  pose proof (traverse_earned env r _ (blocks_from env h) _ _ _ _ _ _ (fun b H => H) (Forall_nil_2 _) H4) as Hv.
  rewrite Forall_forall in Hv. destruct (Hv e He) as (block & tx & o & lb & d & _ & _ & _ & _ & _ & _ & _ & -> & Hpos).
  subst p. cbn [CBetOut_new bo_out CTxOut_new nValue scriptPubKey] in *. rewrite Ea. split; [lia | done].
Qed.

(** The outputs [FillBlockPayee] writes for a payout vector. *)
Definition payout_outputs (v : list CBetOut) : list CTxOut :=
  map (fun b => CTxOut_new (nValue (bo_out b)) (scriptPubKey (bo_out b))) v.

Lemma payout_outputs_sum v : sum_values (payout_outputs v) = bet_sum v.
Proof. unfold sum_values, bet_sum. induction v as [| b v IH]; cbn [payout_outputs map fold_right nValue CTxOut_new] in *; [done |]. unfold payout_outputs in IH. lia. Qed.

Lemma payout_outputs_matches env v : Forall2 (payout_matches env) v (payout_outputs v).
Proof. induction v as [| b v IH]; constructor; [by left | done]. Qed.

Lemma payout_outputs_addressable env v :
  Forall (fun b => is_ok (script_addr env (scriptPubKey (bo_out b))) = true) v -> addressable env v (payout_outputs v).
Proof. intros Hv. split; [done |]. unfold payout_outputs. by apply Forall_fmap. Qed.

(** C10: the block that a staking node builds is one that nodes with the same
    view accept: after [FillBlockPayee] appends the payouts to the coinstake,
    [ConnectBlock] finds them valid and allows exactly the block value, the
    winnings and the dev reward to be minted. *)
Theorem FillBlockPayee_accepted (env env2 : node) (testnet : bool) (block : CBlock) (prev : Z)
    (stakes outs : list CTxOut) (v : list CBetOut) :
  prefix_bytes (params env) -> bet_limits_ok (consensus (params env)) ->
  GetBetPayouts env (prev + 1) = Ok v -> bet_sum v < 2 ^ 52 ->
  FillBlockPayee env stakes true prev = Ok (stakes ++ outs) ->
  splits env block (prev + 1) stakes outs -> IsProofOfStake block = true ->
  connect_expected_mint env env2 testnet block (prev + 1)
  = Ok (Some (GetBlockValue (prev + 1) + bet_sum v + bet_sum v / 20)).
Proof.
  intros Hp Hlim Ev Hs Hf Hsp Hpos. destruct (GetBetPayouts_values env _ v Hlim Ev) as [Hn Ha].
  pose proof (bet_sum_nonneg v Hn) as H0. pose proof (GetBlockValue_range (prev + 1)) as Hbv.
  pose proof (GetBlockPayouts_eq env v Hn Hs) as Eg.
  assert (Hd : 0 <= bet_sum v / 20 <= bet_sum v) by (split; [apply Z.div_pos; lia | apply Z.div_le_upper_bound; lia]).
  unfold FillBlockPayee in Hf. cbn [res_bind] in Hf. rewrite Ev in Hf. cbn [res_bind] in Hf.
  unfold connect_expected_mint. rewrite Ev. cbn [res_bind]. unfold IsProofOfWork. rewrite Hpos. cbn [negb].
  rewrite Eg in *. destruct v as [| b v]; cbv iota in *.
  - change (IsBlockPayoutsValid env [] block (prev + 1)) with (Ok (E := fault) true). cbn [res_bind negb andb].
    rewrite s64_id by lia. do 2 f_equal. change (bet_sum []) with 0. change (0 / 20) with 0. lia.
  - set (w := b :: v) in *. set (v' := w ++ _) in *. injection Hf as Hf. apply app_inv_head in Hf.
    fold (payout_outputs v') in Hf. subst outs.
    assert (Hn' : values_nonneg v') by (apply Forall_app; split; [done | apply Forall_singleton; cbn [bo_out CBetOut_new nValue CTxOut_new]; lia]).
    assert (Hv' : bet_sum v' = bet_sum w + bet_sum w / 20) by (unfold v'; rewrite bet_sum_app; change (bet_sum [CBetOut_new ?d ?s 0 0]) with (d + 0); lia).
    assert (Ha' : Forall (fun x => is_ok (script_addr env (scriptPubKey (bo_out x))) = true) v').
    { apply Forall_app. split; [done |]. apply Forall_singleton. cbn [bo_out CBetOut_new scriptPubKey CTxOut_new].
      by destruct (script_addr_ok env (devPayoutScript env) Hp (dev_script_bytes env)) as [a ->]. }
    assert (Hok : IsBlockPayoutsValid env v' block (prev + 1) = Ok true).
    { apply (IsBlockPayoutsValid_split env v' block (prev + 1) stakes (payout_outputs v')); try done.
      - by apply payout_outputs_addressable.
      - lia.
      - split_and!; [unfold payout_outputs; by rewrite length_map | by rewrite payout_outputs_sum | apply payout_outputs_matches]. }
    rewrite Hok. cbn [res_bind negb andb]. rewrite s64_id by lia. do 2 f_equal. lia.
Qed.

(** The sample bet, paid with its dev reward. *)
Definition sample_paid : list CTxOut :=
  payout_outputs [sample_payout; CBetOut_new (12 * COIN / 20) (devPayoutScript sample_node) 0 0].

Lemma FillBlockPayee_accepted_witness :
  connect_expected_mint sample_node sample_node false (sample_payout_block sample_paid) 3000
  = Ok (Some (COIN + 12 * COIN + 12 * COIN / 20)).
Proof.
  refine (FillBlockPayee_accepted sample_node sample_node false (sample_payout_block sample_paid) 2999 sample_stakes sample_paid
    [sample_payout] _ _ _ _ _ _ _).
  - apply network_prefix_bytes.
  - apply network_bet_limits.
  - exact sample_payouts.
  - reflexivity.
  - unfold FillBlockPayee. cbn [res_bind]. change (2999 + 1) with 3000. rewrite sample_payouts. reflexivity.
  - apply sample_splits; [| reflexivity]. repeat (apply Forall_cons; split); [discriminate | discriminate | apply Forall_nil_2].
  - reflexivity.
Defined.
