(* ===== verification/Compressor.v ===== *)
(** [compressor.h], [compressor.cpp]: the compact form in which the coin
    database keeps transaction outputs, with the two methods of [pubkey.cpp]
    that it calls.

    The curve operations are those of [libsecp256k1]: [parse] is
    [secp256k1_ec_pubkey_parse] and [serialize65] is
    [secp256k1_ec_pubkey_serialize] with [SECP256K1_EC_UNCOMPRESSED]. *)

From Stdlib Require Import ZArith Lia.
From stdpp Require Import base tactics list numbers strings.
From S2P Require Import Prelude Script Standard Serialize Amount Transaction.

(** ** Amounts *)

(** [while (((n % 10) == 0) && e < 9)]; [k] is [9 - e]. *)
Fixpoint strip_zeros (k : nat) (n e : Z) : Z * Z :=
  match k with
  | O => (n, e)
  | S k => if n `mod` 10 =? 0 then strip_zeros k (n / 10) (e + 1) else (n, e)
  end.

(** [None]: the [assert] on the last digit fails. *)
Definition CompressAmount (n : Z) : option Z :=
  if n =? 0 then Some 0
  else
    let (n, e) := strip_zeros 9 n 0 in
    if e <? 9 then
      let d := n `mod` 10 in
      if (1 <=? d) && (d <=? 9) then Some (u64 (1 + (n / 10 * 9 + d - 1) * 10 + e)) else None
    else Some (u64 (1 + (n - 1) * 10 + 9)).

(** [while (e)] *)
Fixpoint times_ten (e : nat) (n : Z) : Z :=
  match e with O => n | S e => times_ten e (u64 (n * 10)) end.

Definition DecompressAmount (x : Z) : Z :=
  if x =? 0 then 0
  else
    let x := x - 1 in
    let e := x `mod` 10 in
    let x := x / 10 in
    let n := if e <? 9 then let d := x `mod` 9 + 1 in u64 (x / 9 * 10 + d) else x + 1 in
    times_ten (Z.to_nat e) n.

(** ** Scripts *)

Section Curve.
Context {point : Type} (parse : bytes -> option point) (serialize65 : point -> bytes).

(** The bytes of a key object that are passed on: the first [size()]. *)
Definition key_data (key : bytes) : bytes := take (Z.to_nat (PubKey_size key)) key.

Definition IsFullyValid (key : bytes) : bool :=
  if negb (PubKey_IsValid key) then false
  else match parse (key_data key) with Some _ => true | None => false end.

Definition PubKey_Decompress (key : bytes) : option bytes :=
  if negb (PubKey_IsValid key) then None
  else match parse (key_data key) with Some p => Some (CPubKey (serialize65 p)) | None => None end.

Definition nSpecialScripts : Z := 6.

Definition IsToKeyID (script : bytes) : option bytes :=
  if (zlen script =? 25) && (idx script 0 =? OP_DUP) && (idx script 1 =? OP_HASH160) && (idx script 2 =? 20) &&
     (idx script 23 =? OP_EQUALVERIFY) && (idx script 24 =? OP_CHECKSIG)
  then Some (take 20 (drop 3 script)) else None.

Definition IsToScriptID (script : bytes) : option bytes :=
  if (zlen script =? 23) && (idx script 0 =? OP_HASH160) && (idx script 1 =? 20) && (idx script 22 =? OP_EQUAL)
  then Some (take 20 (drop 2 script)) else None.

Definition IsToPubKey (script : bytes) : option bytes :=
  if (zlen script =? 35) && (idx script 0 =? 33) && (idx script 34 =? OP_CHECKSIG) &&
     ((idx script 1 =? 0x02) || (idx script 1 =? 0x03))
  then Some (CPubKey (take 33 (drop 1 script)))
  else if (zlen script =? 67) && (idx script 0 =? 65) && (idx script 66 =? OP_CHECKSIG) && (idx script 1 =? 0x04)
  then let pubkey := CPubKey (take 65 (drop 1 script)) in
       if IsFullyValid pubkey then Some pubkey else None
  else None.

Definition Compress (script : bytes) : option bytes :=
  match IsToKeyID script with
  | Some keyID => Some (0x00 :: keyID)
  | None =>
      match IsToScriptID script with
      | Some scriptID => Some (0x01 :: scriptID)
      | None =>
          match IsToPubKey script with
          | Some pubkey =>
              let x := take 32 (drop 1 pubkey) in
              if (idx pubkey 0 =? 0x02) || (idx pubkey 0 =? 0x03) then Some (idx pubkey 0 :: x)
              else if idx pubkey 0 =? 0x04 then Some (Z.lor 0x04 (Z.land (idx pubkey 64) 0x01) :: x)
              else None
          | None => None
          end
      end
  end.

Definition GetSpecialSize (nSize : Z) : nat :=
  if (nSize =? 0) || (nSize =? 1) then 20
  else if (nSize =? 2) || (nSize =? 3) || (nSize =? 4) || (nSize =? 5) then 32
  else 0.

(** The script afterwards, which is [script] when [false] is returned; [None]:
    [assert(pubkey.size() == 65)] fails. *)
Definition Decompress (script : bytes) (nSize : Z) (vch : bytes) : option bytes :=
  if nSize =? 0x00 then Some ([OP_DUP; OP_HASH160; 20] ++ take 20 vch ++ [OP_EQUALVERIFY; OP_CHECKSIG])
  else if nSize =? 0x01 then Some ([OP_HASH160; 20] ++ take 20 vch ++ [OP_EQUAL])
  else if (nSize =? 0x02) || (nSize =? 0x03) then Some ([33; nSize] ++ take 32 vch ++ [OP_CHECKSIG])
  else if (nSize =? 0x04) || (nSize =? 0x05) then
    match PubKey_Decompress (CPubKey (nSize - 2 :: take 32 vch)) with
    | None => Some script
    | Some pubkey =>
        if PubKey_size pubkey =? 65 then Some ([65] ++ take 65 pubkey ++ [OP_CHECKSIG]) else None
    end
  else Some script.

(** [CScriptCompressor::Serialize] *)
Definition Serialize_compressed (script : bytes) : bytes :=
  match Compress script with
  | Some compr => compr
  | None => WriteVarInt (u32 (zlen script + nSpecialScripts)) ++ script
  end.

(** [s.ignore(nSize)], whose parameter is an [int] *)
Definition ignore (nSize : Z) (s : bytes) : res ser_error bytes :=
  if s32 nSize <? 0 then Err negative_size else let* p := read (Z.to_nat nSize) s in Ok (snd p).

(** [CScriptCompressor::Unserialize] into [script] *)
Definition Unserialize_compressed (script : bytes) (s : bytes) : option (res ser_error (bytes * bytes)) :=
  match ReadVarInt 32 s with
  | Err e => Some (Err e)
  | Ok (nSize, s) =>
      if nSize <? nSpecialScripts then
        match read (GetSpecialSize nSize) s with
        | Err e => Some (Err e)
        | Ok (vch, s) => match Decompress script nSize vch with Some sc => Some (Ok (sc, s)) | None => None end
        end
      else
        let nSize := nSize - nSpecialScripts in
        if MAX_SCRIPT_SIZE <? nSize then Some (let* s := ignore nSize s in Ok (script ++ [OP_RETURN], s))
        else Some (read (Z.to_nat nSize) s)
  end.

(** ** Outputs: [CTxOutCompressor] *)

Definition Serialize_CTxOutCompressor (txout : CTxOut) : option bytes :=
  match CompressAmount (u64 (nValue txout)) with
  | Some nVal => Some (WriteVarInt nVal ++ Serialize_compressed (scriptPubKey txout))
  | None => None
  end.

(** Reading into the object [txout]. *)
Definition Unserialize_CTxOutCompressor (txout : CTxOut) (s : bytes) : option (res ser_error (CTxOut * bytes)) :=
  match ReadVarInt 64 s with
  | Err e => Some (Err e)
  | Ok (nVal, s) =>
      match Unserialize_compressed (scriptPubKey txout) s with
      | None => None
      | Some (Err e) => Some (Err e)
      | Some (Ok (script, s)) =>
          Some (Ok ({| nValue := s64 (DecompressAmount nVal); scriptPubKey := script; nRounds := nRounds txout |}, s))
      end
  end.
End Curve.

(** ** Amounts read back *)

Lemma strip_zeros_spec k n e n' e' : 0 < n -> strip_zeros k n e = (n', e') ->
  e <= e' <= e + Z.of_nat k /\ n = n' * 10 ^ (e' - e) /\ 0 < n' /\ (e' < e + Z.of_nat k -> n' `mod` 10 <> 0).
Proof.
  revert n e. induction k as [| k IH]; intros n e Hn E; cbn [strip_zeros] in E.
  - injection E as <- <-. rewrite Z.sub_diag. lia.
  - destruct (Z.eqb_spec (n `mod` 10) 0) as [H0 | H0].
    + pose proof (Z.div_mod n 10 ltac:(lia)). destruct (IH (n / 10) (e + 1)) as (H1 & H2 & H3 & H4); [lia | done |].
      split_and!; try lia. replace (e' - e) with (Z.succ (e' - (e + 1))) by lia. rewrite Z.pow_succ_r by lia. lia.
    + injection E as <- <-. rewrite Z.sub_diag. lia.
Qed.

Lemma times_ten_spec e n : 0 <= n -> n * 10 ^ Z.of_nat e < 2 ^ 64 -> times_ten e n = n * 10 ^ Z.of_nat e.
Proof.
  revert n. induction e as [| e IH]; intros n Hn Hb; cbn [times_ten]; [lia |].
  rewrite Nat2Z.inj_succ, Z.pow_succ_r in * by lia. pose proof (Z.pow_pos_nonneg 10 (Z.of_nat e) ltac:(lia) ltac:(lia)).
  rewrite u64_id by nia. rewrite IH by nia. lia.
Qed.

(** Twenty billion coins; beyond about [2 ^ 64 / 9] the compressed form would not
    fit. *)
Definition max_compressible : Z := 2 * 10 ^ 18.

Lemma divmod_eq a b q r : 0 <= r < b -> a = b * q + r -> a `mod` b = r /\ a / b = q.
Proof. intros. split; symmetry; [eapply Z.mod_unique_pos | eapply Z.div_unique_pos]; eauto. Qed.

Lemma amount_roundtrip n : 0 <= n <= max_compressible ->
  exists x, CompressAmount n = Some x /\ 0 <= x < 2 ^ 64 /\ DecompressAmount x = n.
Proof.
  unfold max_compressible. intros Hn. unfold CompressAmount. destruct (Z.eqb_spec n 0) as [-> | H0]; [by exists 0 |].
  destruct (strip_zeros 9 n 0) as [m e] eqn:E. apply strip_zeros_spec in E as (He & Em & Hm & Hd); [| lia].
  rewrite Z.sub_0_r in Em. pose proof (Z.pow_pos_nonneg 10 e ltac:(lia) ltac:(lia)).
  assert (Hmn : m <= n) by nia. pose proof (Z.mod_pos_bound m 10 ltac:(lia)). pose proof (Z.div_mod m 10 ltac:(lia)).
  assert (Hten : times_ten (Z.to_nat e) m = n) by (rewrite times_ten_spec; rewrite ?Z2Nat.id; lia).
  destruct (Z.ltb_spec e 9).
  - rewrite (proj2 (Z.leb_le 1 _)), (proj2 (Z.leb_le _ 9)) by lia. cbn [andb].
    set (y := m / 10 * 9 + m `mod` 10 - 1). assert (0 <= y <= n) by (unfold y; lia).
    rewrite u64_id by (unfold y; lia). exists (1 + y * 10 + e). split_and!; [done | unfold y; lia | unfold y; lia |].
    unfold DecompressAmount. destruct (Z.eqb_spec (1 + y * 10 + e) 0); [lia |].
    cbn zeta.
    assert (Ee : (1 + y * 10 + e - 1) `mod` 10 = e /\ (1 + y * 10 + e - 1) / 10 = y) by (apply divmod_eq; lia). destruct Ee as [-> ->].
    assert (Ed : y `mod` 9 = m `mod` 10 - 1 /\ y / 9 = m / 10) by (apply divmod_eq; unfold y; lia). destruct Ed as [-> ->].
    rewrite (proj2 (Z.ltb_lt e 9)), u64_id by lia.
    by replace (m / 10 * 10 + (m `mod` 10 - 1 + 1)) with m by lia.
  - assert (e = 9) as -> by lia. rewrite u64_id by lia. exists (1 + (m - 1) * 10 + 9). split_and!; [done | lia | lia |].
    unfold DecompressAmount. destruct (Z.eqb_spec (1 + (m - 1) * 10 + 9) 0); [lia |].
    cbn zeta.
    assert (Ee : (1 + (m - 1) * 10 + 9 - 1) `mod` 10 = 9 /\ (1 + (m - 1) * 10 + 9 - 1) / 10 = m - 1) by (apply divmod_eq; lia). destruct Ee as [-> ->].
    change (9 <? 9) with false. cbn iota. by replace (m - 1 + 1) with m by lia.
Qed.

(** ** Scripts read back *)

Lemma drop_idx (i : nat) (s : bytes) : (i < length s)%nat -> drop i s = idx s (Z.of_nat i) :: drop (S i) s.
Proof.
  intros H. destruct (lookup_lt_is_Some_2 s i H) as [x Hx]. rewrite (drop_S _ _ _ Hx). f_equal.
  unfold idx. rewrite Nat2Z.id. symmetry. by apply nth_lookup_Some.
Qed.

(** The middle of a script between known ends. *)
Lemma middle_split (i n : nat) (s : bytes) : s = take i s ++ take n (drop i s) ++ drop (i + n) s.
Proof. by rewrite <- drop_drop, !take_drop. Qed.

Lemma take1_idx s : (1 <= length s)%nat -> take 1 s = [idx s 0].
Proof. by destruct s; cbn; [lia |]. Qed.
Lemma take2_idx s : (2 <= length s)%nat -> take 2 s = [idx s 0; idx s 1].
Proof. destruct s as [| a [| b s]]; cbn; [lia | lia | done]. Qed.
Lemma take3_idx s : (3 <= length s)%nat -> take 3 s = [idx s 0; idx s 1; idx s 2].
Proof. destruct s as [| a [| b [| c s]]]; cbn; [lia | lia | lia | done]. Qed.

Lemma drop_last_idx (k : nat) s : length s = S k -> drop k s = [idx s (Z.of_nat k)].
Proof. intros H. rewrite drop_idx by lia. by rewrite drop_ge by lia. Qed.

Lemma IsToKeyID_form s h : IsToKeyID s = Some h ->
  s = [OP_DUP; OP_HASH160; 20] ++ h ++ [OP_EQUALVERIFY; OP_CHECKSIG] /\ length h = 20%nat.
Proof.
  unfold IsToKeyID. bcase; [| done]. intros [= <-]. assert (length s = 25%nat) by (unfold zlen in *; lia).
  split; [| rewrite length_take, length_drop; lia]. rewrite (middle_split 3 20 s) at 1. rewrite take3_idx by lia.
  change (3 + 20)%nat with 23%nat. rewrite (drop_idx 23), (drop_last_idx 24) by lia.
  change (Z.of_nat 23) with 23. change (Z.of_nat 24) with 24. congruence.
Qed.

Lemma IsToScriptID_form s h : IsToScriptID s = Some h -> s = [OP_HASH160; 20] ++ h ++ [OP_EQUAL] /\ length h = 20%nat.
Proof.
  unfold IsToScriptID. bcase; [| done]. intros [= <-]. assert (length s = 23%nat) by (unfold zlen in *; lia).
  split; [| rewrite length_take, length_drop; lia]. rewrite (middle_split 2 20 s) at 1. rewrite take2_idx by lia.
  change (2 + 20)%nat with 22%nat. rewrite (drop_last_idx 22) by lia. change (Z.of_nat 22) with 22. congruence.
Qed.

(** A key object made from the right number of bytes holds them. *)
Lemma CPubKey_id v : GetLen (idx v 0) = zlen v -> 0 < zlen v -> CPubKey v = v.
Proof.
  intros H1 H2. unfold CPubKey. destruct (Z.eqb_spec (zlen v) 0); [lia |]. rewrite H1.
  destruct (Z.eqb_spec (zlen v) 0); [lia |]. by rewrite Z.eqb_refl.
Qed.

Lemma key_script (k : nat) s : length s = S (S k) -> s = [idx s 0] ++ take k (drop 1 s) ++ [idx s (Z.of_nat (S k))].
Proof.
  intros H. rewrite (middle_split 1 k s) at 1. rewrite take1_idx by lia. change (1 + k)%nat with (S k).
  by rewrite (drop_last_idx (S k)) by lia.
Qed.

Lemma idx_key (k : nat) s : (0 < k)%nat -> (k < length s)%nat -> idx (take k (drop 1 s)) 0 = idx s 1.
Proof. intros Hk Hl. destruct s as [| a [| b s]]; cbn in *; [lia | lia |]. by destruct k; [lia |]. Qed.

Lemma key_form (k : nat) s : length s = S (S k) -> (0 < k)%nat -> GetLen (idx s 1) = Z.of_nat k ->
  idx s 0 = Z.of_nat k -> idx s (Z.of_nat (S k)) = OP_CHECKSIG ->
  let key := take k (drop 1 s) in
  CPubKey key = key /\ length key = k /\ idx key 0 = idx s 1 /\ s = [zlen key] ++ key ++ [OP_CHECKSIG].
Proof.
  intros Hl Hk HG H0 H1 key. assert (Hn : length key = k) by (unfold key; rewrite length_take, length_drop; lia).
  assert (Hi : idx key 0 = idx s 1) by (apply idx_key; lia). unfold zlen. rewrite Hn. split_and!; try done.
  - apply CPubKey_id; unfold zlen; rewrite ?Hi, ?Hn; lia.
  - rewrite (key_script k s Hl) at 1. by rewrite H0, H1.
Qed.

Lemma IsToPubKey_form {point} (parse : bytes -> option point) s key : IsToPubKey parse s = Some key ->
  s = [zlen key] ++ key ++ [OP_CHECKSIG] /\
  ((length key = 33%nat /\ (idx key 0 = 2 \/ idx key 0 = 3)) \/
   (length key = 65%nat /\ idx key 0 = 4 /\ IsFullyValid parse key = true)).
Proof.
  unfold IsToPubKey. bcase; [| bcase; [| done]].
  - intros [= <-]. assert (Hp : idx s 1 = 2 \/ idx s 1 = 3) by (destruct_or!; bprop; auto).
    destruct (key_form 33 s) as (-> & Hn & Hi & Hs);
      [unfold zlen in *; lia | lia | by destruct Hp as [-> | ->] | done | done |].
    split; [done |]. left. by rewrite Hi.
  - destruct (key_form 65 s) as (-> & Hn & Hi & Hs);
      [unfold zlen in *; lia | lia | by match goal with H : idx s 1 = _ |- _ => rewrite H end | done | done |].
    destruct (IsFullyValid parse (take 65 (drop 1 s))) eqn:Hv; [| done]. intros [= <-].
    split; [done |]. right. by rewrite Hi.
Qed.

(** What the code relies on of [libsecp256k1]: an uncompressed key that parses is
    the uncompressed form of its point, and the compressed key with the parity of
    its last byte parses to the same point. *)
Definition curve_laws {point} (parse : bytes -> option point) (serialize65 : point -> bytes) : Prop :=
  forall key p, length key = 65%nat -> idx key 0 = 4 -> parse key = Some p ->
    serialize65 p = key /\ parse (2 + Z.land (idx key 64) 1 :: take 32 (drop 1 key)) = Some p.

Section Roundtrip.
Context {point : Type} (parse : bytes -> option point) (serialize65 : point -> bytes).
Context (Hcurve : curve_laws parse serialize65).

Lemma PubKey_Decompress_point key : length key = 65%nat -> idx key 0 = 4 -> IsFullyValid parse key = true ->
  let c := Z.land (idx key 64) 1 in
  0 <= c <= 1 /\ PubKey_Decompress parse serialize65 (CPubKey (2 + c :: take 32 (drop 1 key))) = Some key.
Proof.
  intros Hl H4 Hv c.
  assert (Ec : c = idx key 64 `mod` 2) by exact (Z.land_ones (idx key 64) 1 ltac:(lia)).
  assert (Hc : 0 <= c <= 1) by (pose proof (Z.mod_pos_bound (idx key 64) 2 ltac:(lia)); lia). clear Ec.
  split; [done |]. assert (HG : GetLen (2 + c) = 33) by (assert (c = 0 \/ c = 1) as [-> | ->] by lia; reflexivity).
  set (comp := 2 + c :: take 32 (drop 1 key)).
  assert (Hn : length comp = 33%nat) by (unfold comp; cbn [length]; rewrite length_take, length_drop; lia).
  rewrite (CPubKey_id comp) by (unfold zlen; rewrite Hn; done || lia).
  assert (Hd : forall v, GetLen (idx v 0) = zlen v -> key_data v = v).
  { intros v Ev. unfold key_data, PubKey_size. rewrite Ev. unfold zlen. rewrite Nat2Z.id. by apply take_ge. }
  assert (Hk : GetLen (idx key 0) = zlen key) by (rewrite H4; unfold zlen; by rewrite Hl).
  unfold IsFullyValid in Hv. rewrite Hd in Hv by done. destruct (negb (PubKey_IsValid key)); [done |].
  destruct (parse key) as [p |] eqn:Ep; [| done]. destruct (Hcurve key p Hl H4 Ep) as [Hs Hp].
  unfold PubKey_Decompress. unfold PubKey_IsValid, PubKey_size. change (idx comp 0) with (2 + c). rewrite HG.
  cbn [negb Z.ltb Z.compare]. rewrite Hd by (unfold zlen; rewrite Hn; exact HG). fold c in Hp. unfold comp. rewrite Hp, Hs.
  f_equal. apply CPubKey_id; [done |]. unfold zlen. rewrite Hl. lia.
Qed.

(** A first byte below 128 is a whole [VARINT]. *)
Lemma ReadVarInt_byte c s : 0 <= c < 128 -> ReadVarInt 32 (c :: s) = Ok (c, s).
Proof.
  intros Hc. unfold ReadVarInt. cbn [ReadVarInt_loop]. destruct (varint_byte c true Hc) as [E1 E2].
  rewrite Z.lor_0_r in E1, E2. by rewrite E2, E1.
Qed.

Lemma lor_4_parity z : 0 <= z <= 1 -> Z.lor 4 z = 4 + z.
Proof. intros. assert (z = 0 \/ z = 1) as [-> | ->] by lia; reflexivity. Qed.

(** The special scripts. *)
Lemma Compress_roundtrip script0 script c rest : Compress parse script = Some c ->
  Unserialize_compressed parse serialize65 script0 (c ++ rest) = Some (Ok (script, rest)).
Proof.
  unfold Compress. destruct (IsToKeyID script) as [h |] eqn:E1.
  { apply IsToKeyID_form in E1 as [-> Hl]. intros [= <-]. cbn [app]. unfold Unserialize_compressed. rewrite ReadVarInt_byte by lia.
    change (0 <? nSpecialScripts) with true. change (GetSpecialSize 0) with 20%nat. rewrite read_app by done.
    unfold Decompress. change (0 =? 0) with true. cbn iota. by rewrite (take_ge h) by lia. }
  destruct (IsToScriptID script) as [h |] eqn:E2.
  { apply IsToScriptID_form in E2 as [-> Hl]. intros [= <-]. cbn [app]. unfold Unserialize_compressed. rewrite ReadVarInt_byte by lia.
    change (1 <? nSpecialScripts) with true. change (GetSpecialSize 1) with 20%nat. rewrite read_app by done.
    unfold Decompress. cbn [Z.eqb Pos.eqb]. by rewrite (take_ge h) by lia. }
  destruct (IsToPubKey parse script) as [key |] eqn:E3; [| done].
  apply IsToPubKey_form in E3 as [-> [[Hl Hi] | (Hl & Hi & Hv)]].
  - assert (Ex : key = idx key 0 :: take 32 (drop 1 key)).
    { rewrite <- (take_drop 1 key) at 1. rewrite take1_idx by lia. by rewrite (take_ge (drop 1 key)) by (rewrite length_drop; lia). }
    assert (Hx : length (take 32 (drop 1 key)) = 32%nat) by (rewrite length_take, length_drop; lia).
    unfold zlen. rewrite Hl. change (Z.of_nat 33) with 33.
    destruct Hi as [Hi | Hi]; rewrite Hi in *; cbn [Z.eqb Pos.eqb orb]; intros [= <-]; cbn [app];
      unfold Unserialize_compressed; rewrite ReadVarInt_byte by lia; cbn [nSpecialScripts Z.ltb Z.compare Pos.compare Pos.compare_cont GetSpecialSize Z.eqb Pos.eqb orb];
      rewrite read_app by done; unfold Decompress; cbn [Z.eqb Pos.eqb orb]; rewrite (take_ge (take 32 _)) by lia;
      cbn [app]; by rewrite Ex at 2.
  - rewrite Hi. cbn [Z.eqb Pos.eqb orb]. intros [= <-]. destruct (PubKey_Decompress_point key Hl Hi Hv) as [Hc Hd].
    cbn zeta in Hd, Hc. rewrite lor_4_parity by done. set (z := Z.land (idx key 64) 1) in *.
    assert (Hx : length (take 32 (drop 1 key)) = 32%nat) by (rewrite length_take, length_drop; lia).
    cbn [app]. unfold Unserialize_compressed. rewrite ReadVarInt_byte by lia. unfold nSpecialScripts.
    rewrite (proj2 (Z.ltb_lt (4 + z) 6)) by lia.
    assert (Hsz : GetSpecialSize (4 + z) = 32%nat) by (assert (z = 0 \/ z = 1) as [-> | ->] by lia; reflexivity).
    rewrite Hsz, read_app by done. unfold Decompress.
    assert (Hb : (4 + z =? 0) = false /\ (4 + z =? 1) = false /\ (4 + z =? 2) || (4 + z =? 3) = false /\ (4 + z =? 4) || (4 + z =? 5) = true)
      by (assert (z = 0 \/ z = 1) as [-> | ->] by lia; done).
    destruct Hb as (-> & -> & -> & ->). replace (4 + z - 2) with (2 + z) by lia. rewrite (take_ge (take 32 _)) by lia.
    rewrite Hd. unfold PubKey_size. rewrite Hi. change (GetLen 4 =? 65) with true. cbn iota. unfold zlen. rewrite Hl.
    by rewrite (take_ge key) by lia.
Qed.

Lemma script_roundtrip script0 script rest : zlen script <= MAX_SCRIPT_SIZE ->
  Unserialize_compressed parse serialize65 script0 (Serialize_compressed parse script ++ rest) = Some (Ok (script, rest)).
Proof.
  intros Hl. unfold Serialize_compressed. destruct (Compress parse script) as [c |] eqn:E; [by apply Compress_roundtrip |].
  pose proof (zlen_nonneg script). unfold MAX_SCRIPT_SIZE in *. unfold nSpecialScripts in *. rewrite u32_id by lia.
  rewrite <- app_assoc. unfold Unserialize_compressed. rewrite ReadVarInt_Write by lia. unfold nSpecialScripts.
  destruct (Z.ltb_spec (zlen script + 6) 6); [lia |]. rewrite Z.add_simpl_r. unfold MAX_SCRIPT_SIZE.
  destruct (Z.ltb_spec 10000 (zlen script)); [lia |]. f_equal. apply read_app. unfold zlen. by rewrite Nat2Z.id.
Qed.
End Roundtrip.

(** The compact form of an output reads back as the output: its amount, up
    to twenty billion coins (the [assert] on the last digit holds and nothing
    wraps), and its script, of any shape up to the size limit; the reader stops
    where the writer did. The reader's [assert] on the size of a decompressed key
    holds too. *)
Lemma output_roundtrip {point} (parse : bytes -> option point) (serialize65 : point -> bytes)
    (o o0 : CTxOut) (rest : bytes) :
  curve_laws parse serialize65 -> 0 <= nValue o <= max_compressible -> zlen (scriptPubKey o) <= MAX_SCRIPT_SIZE ->
  exists s, Serialize_CTxOutCompressor parse o = Some s /\
    Unserialize_CTxOutCompressor parse serialize65 o0 (s ++ rest)
    = Some (Ok ({| nValue := nValue o; scriptPubKey := scriptPubKey o; nRounds := nRounds o0 |}, rest)).
Proof.
  intros Hc Hn Hl. destruct (amount_roundtrip (nValue o) Hn) as (x & Ex & Hx & Ed).
  unfold max_compressible in Hn. unfold Serialize_CTxOutCompressor. rewrite u64_id, Ex by lia.
  eexists. split; [done |]. rewrite <- app_assoc. unfold Unserialize_CTxOutCompressor. rewrite ReadVarInt_Write by lia.
  rewrite script_roundtrip by done. by rewrite Ed, s64_id by lia.
Qed.

(** A curve on which the second coordinate is the parity. *)
Definition toy_point (x : bytes) (parity : Z) : bytes := 4 :: x ++ replicate 31 0 ++ [parity].
Definition toy_parse (key : bytes) : option bytes :=
  if zlen key =? 33 then Some (toy_point (take 32 (drop 1 key)) (idx key 0 - 2))
  else if bool_decide (key = toy_point (take 32 (drop 1 key)) (Z.land (idx key 64) 1)) then Some key else None.

Lemma toy_curve : curve_laws toy_parse id.
Proof.
  intros key p Hl H4 E. unfold toy_parse in *.
  assert (E65 : (zlen key =? 33) = false) by (unfold zlen; by rewrite Hl). rewrite E65 in E.
  case_bool_decide as Hk; [| done]. injection E as <-. split; [done |].
  set (x := take 32 (drop 1 key)) in *. assert (Hx : length x = 32%nat) by (unfold x; rewrite length_take, length_drop; lia).
  unfold zlen. cbn [length]. rewrite Hx. change (Z.of_nat 33 =? 33) with true. cbn iota.
  cbn [drop]. rewrite (take_ge x) by lia.
  change (idx (2 + Z.land (idx key 64) 1 :: x) 0) with (2 + Z.land (idx key 64) 1).
  replace (2 + Z.land (idx key 64) 1 - 2) with (Z.land (idx key 64) 1) by lia. by rewrite <- Hk.
Qed.

Lemma output_roundtrip_sample :
  let o := CTxOut_new (5 * COIN) ([65] ++ toy_point (replicate 32 7) 1 ++ [OP_CHECKSIG]) in
  exists s, Serialize_CTxOutCompressor toy_parse o = Some s /\
    Unserialize_CTxOutCompressor toy_parse id CTxOut_SetNull (s ++ [1; 2]) = Some (Ok (o, [1; 2])).
Proof.
  apply (output_roundtrip toy_parse id
    (CTxOut_new (5 * COIN) ([65] ++ toy_point (replicate 32 7) 1 ++ [OP_CHECKSIG])) CTxOut_SetNull [1; 2]).
  - exact toy_curve.
  - cbn [nValue CTxOut_new]. unfold max_compressible, COIN. lia.
  - discriminate.
Defined.

(** The compact form of that output: 49 for the amount, then the key's first
    coordinate behind the parity. *)
Example compressed_size :
  Serialize_CTxOutCompressor toy_parse (CTxOut_new (5 * COIN) ([65] ++ toy_point (replicate 32 7) 1 ++ [OP_CHECKSIG]))
  = Some (49 :: 5 :: replicate 32 7).
Proof. reflexivity. Qed.
