(* ===== verification/Coins.v ===== *)
(** [coins.h], [coins.cpp] (the class [CCoins]) and [undo.h]: the unspent outputs
    of one transaction, spending them, the undo records, and the forms in which
    both are kept on disk. *)

From Stdlib Require Import ZArith Lia.
From stdpp Require Import base tactics list numbers strings sets.
From S2P Require Import Prelude CString Amount Script Standard Serialize Transaction Compressor.

(** ** The unspent outputs of a transaction *)

Record CCoins := {
  fCoinBase : bool;
  fCoinStake : bool;
  c_vout : list CTxOut;
  c_nHeight : Z;
  c_nVersion : Z
}.

#[global] Instance CCoins_eq_dec : EqDecision CCoins.
Proof. solve_decision. Defined.

(** The empty constructor, and [Clear]. *)
Definition CCoins_empty : CCoins :=
  {| fCoinBase := false; fCoinStake := false; c_vout := []; c_nHeight := 0; c_nVersion := 0 |}.

Definition with_vout (c : CCoins) (v : list CTxOut) : CCoins :=
  {| fCoinBase := fCoinBase c; fCoinStake := fCoinStake c; c_vout := v; c_nHeight := c_nHeight c; c_nVersion := c_nVersion c |}.

(** [while (vout.size() > 0 && vout.back().IsNull()) vout.pop_back();] *)
Fixpoint drop_null (v : list CTxOut) : list CTxOut :=
  match v with
  | [] => []
  | o :: v =>
      match drop_null v with
      | [] => if CTxOut_IsNull o then [] else [o]
      | v => o :: v
      end
  end.

Definition Cleanup (c : CCoins) : CCoins := with_vout c (drop_null (c_vout c)).

Definition clear_unspendable (o : CTxOut) : CTxOut :=
  if IsUnspendable (scriptPubKey o) then CTxOut_SetNull else o.
Definition ClearUnspendable (c : CCoins) : CCoins := Cleanup (with_vout c (map clear_unspendable (c_vout c))).

Definition FromTx (tx : CTransaction) (nHeightIn : Z) : CCoins :=
  ClearUnspendable {| fCoinBase := IsCoinBase tx; fCoinStake := IsCoinStake tx; c_vout := vout tx;
                      c_nHeight := nHeightIn; c_nVersion := nVersion tx |}.

Definition IsPruned (c : CCoins) : bool := forallb CTxOut_IsNull (c_vout c).

(** [operator==] *)
Definition CCoins_eqb (a b : CCoins) : bool := (IsPruned a && IsPruned b) || bool_decide (a = b).

Definition IsAvailable (c : CCoins) (nPos : Z) : bool :=
  match c_vout c !! Z.to_nat nPos with
  | Some o => (0 <=? nPos) && negb (CTxOut_IsNull o) && negb (CTxOut_IsZerocoinMint o)
  | None => false
  end.

(** ** Undo records *)

Record CTxInUndo := { u_txout : CTxOut; u_fCoinBase : bool; u_fCoinStake : bool; u_nHeight : Z; u_nVersion : Z }.

#[global] Instance CTxInUndo_eq_dec : EqDecision CTxInUndo.
Proof. solve_decision. Defined.

(** [Spend]: [None] when the output is not there; else the coins left and the undo
    record. *)
Definition Spend (c : CCoins) (out : COutPoint) : option (CCoins * CTxInUndo) :=
  match c_vout c !! Z.to_nat (op_n out) with
  | None => None
  | Some o =>
      if CTxOut_IsNull o then None
      else
        let c' := Cleanup (with_vout c (<[Z.to_nat (op_n out) := CTxOut_SetNull]> (c_vout c))) in
        if zlen (c_vout c') =? 0
        then Some (c', {| u_txout := o; u_fCoinBase := fCoinBase c; u_fCoinStake := fCoinStake c;
                          u_nHeight := u32 (c_nHeight c); u_nVersion := c_nVersion c |})
        else Some (c', {| u_txout := o; u_fCoinBase := false; u_fCoinStake := false; u_nHeight := 0; u_nVersion := 0 |})
  end.

(** ** Reading and writing

    [None] is a failed [assert] or the one of [CompressAmount]. *)

Definition ares (A : Type) : Type := option (res ser_error A).
Definition ares_bind {A B} (m : ares A) (f : A -> ares B) : ares B :=
  match m with None => None | Some (Err e) => Some (Err e) | Some (Ok a) => f a end.
Notation "'let!' x ':=' m 'in' k" := (ares_bind m (fun x => k))
  (at level 200, x pattern, m at level 100, k at level 200, right associativity) : res_scope.

(** The outputs that byte [b] of the bit mask stands for. *)
Definition mask_chunk (v : list CTxOut) (b : nat) : list CTxOut := take 8 (drop (2 + b * 8) v).

(** [for (b = 0; 2 + b * 8 < vout.size(); b++)]: [nLastUsedByte] and
    [nNonzeroBytes]. *)
Fixpoint mask_loop (fuel : nat) (v : list CTxOut) (b nLastUsedByte nNonzeroBytes : nat) : nat * nat :=
  match fuel with
  | O => (nLastUsedByte, nNonzeroBytes)
  | S fuel =>
      if (2 + b * 8 <? length v)%nat then
        if forallb CTxOut_IsNull (mask_chunk v b) then mask_loop fuel v (S b) nLastUsedByte nNonzeroBytes
        else mask_loop fuel v (S b) (S b) (S nNonzeroBytes)
      else (nLastUsedByte, nNonzeroBytes)
  end.
Definition CalcMaskSize (v : list CTxOut) : nat * nat := mask_loop (length v) v 0 0 0.

(** [chAvail |= (1 << i)] over the outputs of a byte. *)
Fixpoint avail_byte (i : Z) (l : list CTxOut) : Z :=
  match l with
  | [] => 0
  | o :: l => Z.lor (if CTxOut_IsNull o then 0 else Z.shiftl 1 i) (avail_byte (i + 1) l)
  end.

Definition nonnull_at (v : list CTxOut) (i : nat) : bool :=
  match v !! i with Some o => negb (CTxOut_IsNull o) | None => false end.

Section Disk.
Context {point : Type} (parse : bytes -> option point) (serialize65 : point -> bytes).

Fixpoint write_outs (v : list CTxOut) : option bytes :=
  match v with
  | [] => Some []
  | o :: v =>
      if CTxOut_IsNull o then write_outs v
      else match Serialize_CTxOutCompressor parse o, write_outs v with
           | Some a, Some b => Some (a ++ b)
           | _, _ => None
           end
  end.

Definition b2n (b : bool) (n : Z) : Z := if b then n else 0.

Definition Serialize_CCoins (c : CCoins) : option bytes :=
  let (nMaskSize, nMaskCode) := CalcMaskSize (c_vout c) in
  let fFirst := nonnull_at (c_vout c) 0 in
  let fSecond := nonnull_at (c_vout c) 1 in
  if fFirst || fSecond || negb (nMaskCode =? 0)%nat then
    let nCode := u32 (16 * (Z.of_nat nMaskCode - (if fFirst || fSecond then 0 else 1)) + b2n (fCoinBase c) 1 +
                      b2n (fCoinStake c) 2 + b2n fFirst 4 + b2n fSecond 8) in
    match write_outs (c_vout c) with
    | None => None
    | Some outs =>
        Some (WriteVarInt (c_nVersion c) ++ WriteVarInt nCode ++
              map (fun b => avail_byte 0 (mask_chunk (c_vout c) b)) (seq 0 nMaskSize) ++ outs ++
              WriteVarInt (c_nHeight c))
    end
  else None.

(** [for (p = 0; p < 8; p++) vAvail.push_back((chAvail & (1 << p)) != 0);] *)
Definition byte_flags (chAvail : Z) : list bool :=
  map (fun p => negb (Z.land chAvail (Z.shiftl 1 (Z.of_nat p)) =? 0)) (seq 0 8).

(** [while (nMaskCode > 0)]; every round reads a byte. *)
Fixpoint read_mask (s : bytes) (nMaskCode : Z) (vAvail : list bool) : res ser_error (list bool * bytes) :=
  if nMaskCode <=? 0 then Ok (vAvail, s)
  else match s with
       | [] => Err end_of_data
       | chAvail :: s =>
           read_mask s (if chAvail =? 0 then nMaskCode else nMaskCode - 1) (vAvail ++ byte_flags chAvail)
       end.

Fixpoint read_outs (vAvail : list bool) (s : bytes) : ares (list CTxOut * bytes) :=
  match vAvail with
  | [] => Some (Ok ([], s))
  | b :: vAvail =>
      let! (o, s) := if b then Unserialize_CTxOutCompressor parse serialize65 CTxOut_SetNull s else Some (Ok (CTxOut_SetNull, s)) in
      let! (l, s) := read_outs vAvail s in
      Some (Ok (o :: l, s))
  end.

Definition Unserialize_CCoins (s : bytes) : ares (CCoins * bytes) :=
  let! (nVersion, s) := Some (ReadVarInt 32 s) in
  let! (nCode, s) := Some (ReadVarInt 32 s) in
  let vAvail := [negb (Z.land nCode 4 =? 0); negb (Z.land nCode 8 =? 0)] in
  let nMaskCode := nCode / 16 + (if Z.land nCode 12 =? 0 then 1 else 0) in
  let! (vAvail, s) := Some (read_mask s nMaskCode vAvail) in
  let! (outs, s) := read_outs vAvail s in
  let! (nHeight, s) := Some (ReadVarInt 32 s) in
  Some (Ok (Cleanup {| fCoinBase := negb (Z.land nCode 1 =? 0); fCoinStake := negb (Z.land nCode 2 =? 0); c_vout := outs;
                       c_nHeight := s32 nHeight; c_nVersion := s32 nVersion |}, s)).

Definition Serialize_CTxInUndo (u : CTxInUndo) : option bytes :=
  match Serialize_CTxOutCompressor parse (u_txout u) with
  | None => None
  | Some o =>
      Some (WriteVarInt (u32 (u_nHeight u * 4 + b2n (u_fCoinBase u) 2 + b2n (u_fCoinStake u) 1)) ++
            (if 0 <? u_nHeight u then WriteVarInt (u_nVersion u) else []) ++ o)
  end.

(** Reading into a new record: [nVersion] stays 0 when it is not stored. *)
Definition Unserialize_CTxInUndo (s : bytes) : ares (CTxInUndo * bytes) :=
  let! (nCode, s) := Some (ReadVarInt 32 s) in
  let nHeight := Z.shiftr nCode 2 in
  let! (nVersion, s) := if 0 <? nHeight then Some (ReadVarInt 32 s) else Some (Ok (0, s)) in
  let! (o, s) := Unserialize_CTxOutCompressor parse serialize65 CTxOut_SetNull s in
  Some (Ok ({| u_txout := o; u_fCoinBase := negb (Z.land nCode 2 =? 0); u_fCoinStake := negb (Z.land nCode 1 =? 0);
               u_nHeight := nHeight; u_nVersion := s32 nVersion |}, s)).
End Disk.

(** ** Clean vectors of outputs *)

(** The type invariant: a spent output is the default one. *)
Definition null_canonical (o : CTxOut) : Prop := CTxOut_IsNull o = true -> o = CTxOut_SetNull.

(** No spent output at the end. *)
Definition clean (v : list CTxOut) : Prop := drop_null v = v.

Definition coins_wf (c : CCoins) : Prop := clean (c_vout c) /\ Forall null_canonical (c_vout c).

Lemma drop_null_nil v : drop_null v = [] <-> forallb CTxOut_IsNull v = true.
Proof.
  induction v as [| o v IH]; cbn [drop_null forallb]; [done |]. rewrite andb_true_iff, <- IH.
  destruct (drop_null v); [| naive_solver]. destruct (CTxOut_IsNull o); naive_solver.
Qed.

Lemma drop_null_split v : Forall null_canonical v ->
  v = drop_null v ++ replicate (length v - length (drop_null v)) CTxOut_SetNull.
Proof.
  induction 1 as [| o v Ho Hv IH]; [done |]. cbn [drop_null]. destruct (drop_null v) as [| p w] eqn:E.
  - cbn [length app] in IH. rewrite Nat.sub_0_r in IH. destruct (CTxOut_IsNull o) eqn:En.
    + rewrite (Ho En) at 1. cbn [app length Nat.sub replicate]. by rewrite <- IH.
    + cbn [app length]. rewrite Nat.sub_succ, Nat.sub_0_r. by rewrite <- IH.
  - cbn [app length] in *. rewrite Nat.sub_succ. f_equal. exact IH.
Qed.

Lemma drop_null_app v l : Forall (fun o => CTxOut_IsNull o = true) l -> drop_null (v ++ l) = drop_null v.
Proof.
  intros Hl. induction v as [| o v IH]; cbn [app drop_null]; [| by rewrite IH].
  apply drop_null_nil, forallb_forall. rewrite List.Forall_forall in Hl. auto.
Qed.

Lemma drop_null_clean v : clean (drop_null v).
Proof.
  unfold clean. induction v as [| o v IH]; cbn [drop_null]; [done |]. destruct (drop_null v) as [| p w] eqn:E.
  - destruct (CTxOut_IsNull o) eqn:En; [done |]. cbn [drop_null]. by rewrite En.
  - cbn [drop_null] in *. by rewrite IH.
Qed.

Lemma drop_null_elem v o : o ∈ drop_null v -> o ∈ v.
Proof.
  induction v as [| p v IH]; cbn [drop_null]; [done |]. rewrite elem_of_cons. destruct (drop_null v); [| set_solver].
  destruct (CTxOut_IsNull p); set_solver.
Qed.

Lemma drop_null_Forall P v : Forall P v -> Forall P (drop_null v).
Proof. rewrite !Forall_forall. intros H o Ho. apply H. by apply drop_null_elem. Qed.

Lemma drop_null_reach v i o : v !! i = Some o -> CTxOut_IsNull o = false -> (i < length (drop_null v))%nat.
Proof.
  revert i. induction v as [| p v IH]; intros i Hi Hn; [done |]. destruct i as [| i]; cbn in Hi.
  - injection Hi as ->. cbn [drop_null]. destruct (drop_null v); [rewrite Hn |]; cbn; lia.
  - specialize (IH i Hi Hn). cbn [drop_null]. destruct (drop_null v); cbn in *; lia.
Qed.

Lemma drop_null_le v : (length (drop_null v) <= length v)%nat.
Proof.
  induction v as [| o v IH]; cbn [drop_null]; [done |]. destruct (drop_null v); [destruct (CTxOut_IsNull o) |]; cbn in *; lia.
Qed.

Lemma clean_last v o : clean v -> last v = Some o -> CTxOut_IsNull o = false.
Proof.
  unfold clean. revert o. induction v as [| p v IH]; intros o Hc Hl; [done |]. cbn [drop_null] in Hc.
  destruct (drop_null v) as [| q w] eqn:E.
  - destruct (CTxOut_IsNull p) eqn:En; [done |]. destruct v; [| done]. by injection Hl as ->.
  - injection Hc as Hc. destruct v as [| r v]; [done |]. apply IH; [congruence | by rewrite last_cons_cons in Hl].
Qed.

Lemma Cleanup_wf c : Forall null_canonical (c_vout c) -> coins_wf (Cleanup c).
Proof. intros H. split; [apply drop_null_clean | by apply drop_null_Forall]. Qed.

Lemma empty_wf : coins_wf CCoins_empty.
Proof. split; [done | constructor]. Qed.

(** ** Spending and putting back *)

(** What disconnecting a block does to the outputs: [resize] to [n + 1], then the
    assignment. *)
Definition put_back (v : list CTxOut) (n : nat) (o : CTxOut) : list CTxOut :=
  <[n := o]> (v ++ replicate (S n - length v) CTxOut_SetNull).

Lemma put_back_spent v n o : clean v -> Forall null_canonical v -> v !! n = Some o -> CTxOut_IsNull o = false ->
  put_back (drop_null (<[n := CTxOut_SetNull]> v)) n o = v.
Proof.
  intros Hc Hv Hn Ho. set (w := <[n := CTxOut_SetNull]> v). pose proof (lookup_lt_Some _ _ _ Hn) as Hlt.
  assert (Hw : Forall null_canonical w) by (apply Forall_insert; [done | by intros _]).
  assert (Hlw : length w = length v) by apply length_insert.
  pose proof (drop_null_split w Hw) as Hs. pose proof (drop_null_le w) as Hle. rewrite Hlw in *.
  assert (Hlen : (length v <= S n)%nat \/ length (drop_null w) = length v).
  { destruct (last v) as [p |] eqn:El; [| apply last_None in El; subst; done].
    destruct (decide (n = pred (length v))) as [-> | Hne]; [left; lia | right].
    rewrite last_lookup in El. assert (w !! pred (length v) = Some p) by (unfold w; by rewrite list_lookup_insert_ne).
    pose proof (drop_null_reach w _ p ltac:(done) (clean_last v p Hc ltac:(by rewrite last_lookup))). lia. }
  assert (E : drop_null w ++ replicate (S n - length (drop_null w)) CTxOut_SetNull = w).
  { rewrite Hs at 3. f_equal. f_equal. lia. }
  unfold put_back. rewrite E. unfold w. rewrite list_insert_insert_eq. by apply list_insert_id.
Qed.

Lemma Spend_wf c out c' u : coins_wf c -> Spend c out = Some (c', u) -> coins_wf c'.
Proof.
  intros [Hc Hn] E. unfold Spend in E. destruct (c_vout c !! Z.to_nat (op_n out)); [| done].
  destruct (CTxOut_IsNull c0); [done |]. cbn zeta in E.
  assert (H : coins_wf (Cleanup (with_vout c (<[Z.to_nat (op_n out) := CTxOut_SetNull]> (c_vout c))))).
  { apply Cleanup_wf. apply Forall_insert; [done | by intros _]. }
  destruct (zlen _ =? 0); by injection E as <- _.
Qed.

Lemma FromTx_wf tx h : Forall null_canonical (vout tx) -> coins_wf (FromTx tx h).
Proof.
  intros H. apply Cleanup_wf. cbn [c_vout with_vout]. apply Forall_map. eapply Forall_impl; [exact H |].
  intros o Ho. unfold clear_unspendable. case_match; [by intros _ | done].
Qed.

Lemma wf_pruned c : coins_wf c -> IsPruned c = true <-> c_vout c = [].
Proof. intros [Hc _]. unfold IsPruned. by rewrite <- drop_null_nil, Hc. Qed.

(** ** Reading back from disk *)

Fixpoint chunks (fuel : nat) (l : list CTxOut) : list (list CTxOut) :=
  match fuel, l with
  | S fuel, _ :: _ => take 8 l :: chunks fuel (drop 8 l)
  | _, _ => []
  end.

Definition nonnull (o : CTxOut) : bool := negb (CTxOut_IsNull o).

(** Not empty and not all spent: the last byte of the mask is of this kind. *)
Definition used (l : list CTxOut) : bool := negb (forallb CTxOut_IsNull l).
Definition used_count (cs : list (list CTxOut)) : nat := length (List.filter used cs).

Definition ends_used (l : list CTxOut) : Prop := forall o, last l = Some o -> nonnull o = true.

Lemma ends_used_drop k l : ends_used l -> ends_used (drop k l).
Proof.
  intros H o Ho. apply H. rewrite last_lookup, lookup_drop in Ho. rewrite last_lookup, <- Ho. f_equal.
  apply lookup_lt_Some in Ho. rewrite length_drop in *. lia.
Qed.

Lemma used_false l : used l = false -> Forall (fun o => nonnull o = false) l.
Proof.
  intros H. apply negb_false_iff in H. rewrite forallb_forall in H. rewrite List.Forall_forall. intros o Ho.
  unfold nonnull. by rewrite (H o Ho).
Qed.

(** The last byte is used. *)
Lemma chunks_last fuel l : ends_used l -> l <> [] -> (length l <= 8 * fuel)%nat -> used_count (chunks fuel l) <> 0%nat.
Proof.
  revert l. induction fuel as [| fuel IH]; intros l He Hne Hl; [destruct l; cbn in Hl; [done | lia] |].
  destruct l as [| p l]; [done |]. cbn [chunks]. set (w := p :: l) in *. unfold used_count in *. cbn [List.filter].
  destruct (used (take 8 w)) eqn:Eu; [done |].
  destruct (decide (drop 8 w = [])) as [E | E]; [| apply IH; [by apply ends_used_drop | done | rewrite length_drop; lia]].
  exfalso. apply used_false in Eu. destruct (last w) as [o |] eqn:El; [| by apply last_None in El].
  assert (Hin : o ∈ take 8 w).
  { rewrite <- (take_drop 8 w), E, app_nil_r in El. by apply last_Some_elem_of. }
  rewrite Forall_forall in Eu. specialize (Eu o Hin). specialize (He o El). congruence.
Qed.

Lemma mask_loop_chunks fuel v b l z : ends_used (drop (2 + b * 8) v) -> (length v <= 2 + b * 8 + 8 * fuel)%nat ->
  let cs := chunks fuel (drop (2 + b * 8) v) in
  mask_loop fuel v b l z = (if (used_count cs =? 0)%nat then l else (b + length cs)%nat, (z + used_count cs)%nat) /\
  map (fun i => avail_byte 0 (mask_chunk v i)) (seq b (length cs)) = map (avail_byte 0) cs.
Proof.
  revert b l z. induction fuel as [| fuel IH]; intros b l z He Hf; cbn [mask_loop chunks].
  { cbn. split; [f_equal; lia | done]. }
  destruct (Nat.ltb_spec (2 + b * 8) (length v)) as [Hlt | Hge].
  2:{ rewrite drop_ge by lia. cbn. split; [f_equal; lia | done]. }
  destruct (drop (2 + b * 8) v) as [| p w] eqn:Ed; [apply (f_equal length) in Ed; rewrite length_drop in Ed; cbn in Ed; lia |].
  rewrite <- Ed in *. assert (Edd : drop 8 (drop (2 + b * 8) v) = drop (2 + S b * 8) v) by (rewrite drop_drop; f_equal; lia).
  rewrite Edd. assert (He' : ends_used (drop (2 + S b * 8) v)) by (rewrite <- Edd; by apply ends_used_drop).
  specialize (IH (S b)). unfold mask_chunk at 1. cbn zeta in *. cbn [length seq map].
  set (cs := chunks fuel (drop (2 + S b * 8) v)) in *. unfold used_count. cbn [List.filter].
  assert (Hu : forall x, used x = negb (forallb CTxOut_IsNull x)) by done. rewrite Hu.
  destruct (IH l z He' ltac:(lia)) as [IH1 IHm]. destruct (IH (S b) (S z) He' ltac:(lia)) as [IH2 _].
  split; [| by rewrite IHm].
  destruct (forallb CTxOut_IsNull (take 8 (drop (2 + b * 8) v))) eqn:En; cbn [negb length].
  - rewrite IH1. fold (used_count cs). destruct (used_count cs) eqn:Ec; cbn [Nat.eqb]; f_equal; lia.
  - rewrite IH2. fold (used_count cs). cbn [Nat.eqb]. destruct (decide (drop (2 + S b * 8) v = [])) as [E0 | E0].
    + assert (cs = []) as -> by (unfold cs; rewrite E0; by destruct fuel). cbn. f_equal; lia.
    + pose proof (chunks_last fuel _ He' E0 ltac:(rewrite length_drop; lia)). fold cs in H.
      destruct (used_count cs); [done |]. cbn [Nat.eqb]. f_equal; lia.
Qed.

Lemma avail_testbit l i p : 0 <= i -> 0 <= p -> Z.testbit (avail_byte i l) p = (i <=? p) && nonnull_at l (Z.to_nat (p - i)).
Proof.
  revert i. induction l as [| o l IH]; intros i Hi Hp; cbn [avail_byte]; [by rewrite Z.testbit_0_l, andb_false_r |].
  rewrite Z.lor_spec, IH by lia. unfold nonnull_at. destruct (Z.leb_spec i p), (Z.leb_spec (i + 1) p); cbn [andb]; try lia.
  - replace (Z.to_nat (p - i)) with (S (Z.to_nat (p - (i + 1)))) by lia. cbn [lookup list_lookup].
    replace (Z.testbit _ p) with false; [done |]. destruct (CTxOut_IsNull o); [by rewrite Z.testbit_0_l |].
    rewrite Z.shiftl_1_l, Z.pow2_bits_eqb by lia. by destruct (Z.eqb_spec i p); [lia |].
  - assert (p = i) as -> by lia. rewrite Z.sub_diag. change ((o :: l) !! Z.to_nat 0) with (Some o). cbn iota. rewrite orb_false_r.
    destruct (CTxOut_IsNull o); [by rewrite Z.testbit_0_l |]. by rewrite Z.shiftl_1_l, Z.pow2_bits_true by lia.
  - destruct (CTxOut_IsNull o); [by rewrite Z.testbit_0_l |].
    rewrite Z.shiftl_1_l, Z.pow2_bits_eqb by lia. by destruct (Z.eqb_spec i p); [lia |].
Qed.

Lemma land_pow2_eqb x p : 0 <= p -> (Z.land x (Z.shiftl 1 p) =? 0) = negb (Z.testbit x p).
Proof.
  intros Hp. rewrite Z.shiftl_1_l. destruct (Z.testbit x p) eqn:E.
  - apply Z.eqb_neq. intros H. apply (f_equal (fun z => Z.testbit z p)) in H.
    by rewrite Z.land_spec, E, Z.pow2_bits_true, Z.testbit_0_l in H by lia.
  - apply Z.eqb_eq. apply Z.bits_inj'. intros q Hq. rewrite Z.land_spec, Z.pow2_bits_eqb, Z.testbit_0_l by lia.
    destruct (Z.eqb_spec p q) as [-> |]; [by rewrite E | by rewrite andb_false_r].
Qed.

Lemma flags_padded (l : list CTxOut) (n : nat) : (length l <= n)%nat ->
  map (nonnull_at l) (seq 0 n) = map nonnull l ++ replicate (n - length l) false.
Proof.
  revert n. induction l as [| o l IH]; intros n Hn.
  - cbn [length map app]. rewrite Nat.sub_0_r. clear. generalize 0%nat.
    induction n as [| n IH]; intros k; cbn [seq map replicate]; [done |]. by rewrite IH.
  - destruct n as [| n]; [cbn in Hn; lia |]. cbn [length seq map app Nat.sub]. f_equal.
    rewrite <- seq_shift, map_map. rewrite <- IH by (cbn in Hn; lia). done.
Qed.

Lemma byte_flags_avail l : (length l <= 8)%nat -> byte_flags (avail_byte 0 l) = map nonnull l ++ replicate (8 - length l) false.
Proof.
  intros Hl. rewrite <- flags_padded by done. unfold byte_flags. apply map_ext_in. intros p _.
  rewrite land_pow2_eqb, negb_involutive, avail_testbit by lia. rewrite Z.sub_0_r, Nat2Z.id.
  by destruct (Z.leb_spec 0 (Z.of_nat p)); [| lia].
Qed.

Lemma avail_zero l : (avail_byte 0 l =? 0) = negb (used l).
Proof.
  unfold used. rewrite negb_involutive. destruct (forallb CTxOut_IsNull l) eqn:E.
  - apply Z.eqb_eq. apply Z.bits_inj'. intros p Hp. rewrite avail_testbit, Z.testbit_0_l by lia.
    rewrite forallb_forall in E. unfold nonnull_at. destruct (l !! Z.to_nat (p - 0)) eqn:El; [| by rewrite andb_false_r].
    apply list_elem_of_lookup_2, list_elem_of_In, E in El. by rewrite El, andb_false_r.
  - apply Z.eqb_neq. intros H. rewrite <- not_true_iff_false in E. apply E, forallb_forall. intros o Ho.
    apply list_elem_of_In, list_elem_of_lookup_1 in Ho as [i Hi].
    pose proof (avail_testbit l 0 (Z.of_nat i) ltac:(lia) ltac:(lia)) as Ht. rewrite H, Z.testbit_0_l in Ht.
    rewrite Z.sub_0_r, Nat2Z.id in Ht. unfold nonnull_at in Ht. rewrite Hi in Ht.
    destruct (Z.leb_spec 0 (Z.of_nat i)); [| lia]. by destruct (CTxOut_IsNull o).
Qed.

Lemma read_mask_chunks fuel l rest acc : ends_used l -> (length l <= 8 * fuel)%nat ->
  let cs := chunks fuel l in
  exists k, read_mask (map (avail_byte 0) cs ++ rest) (Z.of_nat (used_count cs)) acc
            = Ok (acc ++ map nonnull l ++ replicate k false, rest).
Proof.
  revert l acc. induction fuel as [| fuel IH]; intros l acc He Hl; cbn zeta.
  { destruct l; [| cbn in Hl; lia]. exists 0%nat. cbn. rewrite app_nil_r. by destruct rest. }
  destruct l as [| p l0].
  { exists 0%nat. cbn. rewrite app_nil_r. by destruct rest. }
  pose proof (chunks_last (S fuel) (p :: l0) He ltac:(done) Hl) as Hpos. cbn [chunks] in *. set (l := p :: l0) in *.
  destruct (IH (drop 8 l) (acc ++ byte_flags (avail_byte 0 (take 8 l)))) as [k Hk];
    [by apply ends_used_drop | rewrite length_drop; lia |].
  cbn [map app read_mask].
  destruct (Z.leb_spec (Z.of_nat (used_count (take 8 l :: chunks fuel (drop 8 l)))) 0) as [H0 | _]; [lia |].
  rewrite avail_zero. replace (if negb (used (take 8 l)) then _ else _) with (Z.of_nat (used_count (chunks fuel (drop 8 l)))).
  2:{ unfold used_count. cbn [List.filter]. destruct (used (take 8 l)); cbn [negb length]; lia. }
  rewrite Hk, byte_flags_avail by (rewrite length_take; lia).
  destruct (decide (drop 8 l = [])) as [E | E].
  - exists (8 - length (take 8 l) + k)%nat. rewrite E. cbn [map app]. rewrite <- (take_drop 8 l) at 3. rewrite E, app_nil_r.
    rewrite replicate_add, <- !app_assoc. done.
  - exists k. assert (8 < length l)%nat by (destruct (decide (8 < length l)%nat); [done | by rewrite drop_ge in E by lia]).
    rewrite length_take. replace (8 - 8 `min` length l)%nat with 0%nat by lia. cbn [replicate]. rewrite app_nil_r.
    rewrite <- (take_drop 8 l) at 3. by rewrite map_app, <- !app_assoc.
Qed.

Section Roundtrip.
Context {point : Type} (parse : bytes -> option point) (serialize65 : point -> bytes).
Context (Hcurve : curve_laws parse serialize65).

(** The outputs that the compact form keeps. *)
Definition storable (o : CTxOut) : Prop :=
  0 <= nValue o <= max_compressible /\ zlen (scriptPubKey o) <= MAX_SCRIPT_SIZE /\ nRounds o = -10.

Lemma compressed_roundtrip o rest : storable o ->
  exists s, Serialize_CTxOutCompressor parse o = Some s /\
    Unserialize_CTxOutCompressor parse serialize65 CTxOut_SetNull (s ++ rest) = Some (Ok (o, rest)).
Proof.
  intros (Hv & Hs & Hr). destruct (output_roundtrip parse serialize65 o CTxOut_SetNull rest Hcurve Hv Hs) as (s & E1 & E2).
  exists s. split; [done |]. rewrite E2. destruct o as [v k n]. cbn in Hr. by subst n.
Qed.

Lemma compressed_some o : storable o -> exists s, Serialize_CTxOutCompressor parse o = Some s.
Proof. intros H. destruct (compressed_roundtrip o [] H) as (s & E & _). by exists s. Qed.

Definition kept (o : CTxOut) : Prop := if CTxOut_IsNull o then o = CTxOut_SetNull else storable o.

Lemma write_outs_some v : Forall kept v -> exists b, write_outs parse v = Some b.
Proof.
  induction 1 as [| o v Ho Hv [b Hb]]; cbn [write_outs]; [by exists [] |]. unfold kept in Ho.
  destruct (CTxOut_IsNull o); [by exists b |]. destruct (compressed_some o Ho) as [a ->]. rewrite Hb. by eexists.
Qed.

Lemma read_outs_null k s : read_outs parse serialize65 (replicate k false) s = Some (Ok (replicate k CTxOut_SetNull, s)).
Proof. induction k as [| k IH]; cbn [replicate read_outs ares_bind]; [done |]. by rewrite IH. Qed.

Lemma read_outs_write v b k rest : Forall kept v -> write_outs parse v = Some b ->
  read_outs parse serialize65 (map nonnull v ++ replicate k false) (b ++ rest)
  = Some (Ok (v ++ replicate k CTxOut_SetNull, rest)).
Proof.
  intros Hv. revert b. induction Hv as [| o v Ho Hv IH]; intros b Eb; cbn [write_outs] in Eb.
  { injection Eb as <-. apply read_outs_null. }
  cbn [map app read_outs]. unfold nonnull at 1. unfold kept in Ho. destruct (CTxOut_IsNull o) eqn:En; cbn [negb].
  - cbn [ares_bind]. rewrite (IH b Eb). cbn [ares_bind]. by rewrite Ho.
  - destruct (Serialize_CTxOutCompressor parse o) as [a |] eqn:Ea; [| done].
    destruct (write_outs parse v) as [b' |] eqn:Eb'; [| done]. injection Eb as <-. rewrite <- app_assoc.
    destruct (compressed_roundtrip o (b' ++ rest) Ho) as (a' & Ea' & E). assert (a' = a) as -> by congruence.
    rewrite E. cbn [ares_bind]. by rewrite (IH b' eq_refl).
Qed.

(** The four flags and the count packed in [nCode]. *)
Lemma code_fields m (b0 b1 b2 b3 : bool) :
  let nCode := 16 * m + b2n b0 1 + b2n b1 2 + b2n b2 4 + b2n b3 8 in
  (Z.land nCode 1 =? 0) = negb b0 /\ (Z.land nCode 2 =? 0) = negb b1 /\ (Z.land nCode 4 =? 0) = negb b2 /\
  (Z.land nCode 8 =? 0) = negb b3 /\ (Z.land nCode 12 =? 0) = negb (b2 || b3) /\ nCode / 16 = m.
Proof.
  cbn zeta. set (r := b2n b0 1 + b2n b1 2 + b2n b2 4 + b2n b3 8).
  assert (Hr : 0 <= r < 16) by (unfold r, b2n; destruct b0, b1, b2, b3; lia).
  replace (16 * m + b2n b0 1 + b2n b1 2 + b2n b2 4 + b2n b3 8) with (m * 2 ^ 4 + r) by (unfold r; lia).
  assert (H : forall k, 0 <= k < 16 -> Z.land (m * 2 ^ 4 + r) k = Z.land r k).
  { intros k Hk. rewrite <- lor_shiftl_add by lia. rewrite Z.land_lor_distr_l.
    replace (Z.land (Z.shiftl m 4) k) with 0; [by rewrite Z.lor_0_l |]. symmetry. apply Z.bits_inj'. intros p Hp.
    rewrite Z.land_spec, Z.testbit_0_l. destruct (Z.lt_ge_cases p 4).
    - by rewrite Z.shiftl_spec_low.
    - assert (E : Z.testbit k p = false); [| by rewrite E, andb_false_r].
      destruct (decide (k = 0)) as [-> |]; [apply Z.testbit_0_l |]. apply Z.bits_above_log2; [lia |].
      assert (Z.log2 k < 4) by (apply Z.log2_lt_pow2; lia). lia. }
  rewrite !H by lia. split_and!; try (destruct b0, b1, b2, b3; reflexivity).
  rewrite Z.div_add_l by lia. rewrite Z.div_small by lia. lia.
Qed.

Definition coins_storable (c : CCoins) : Prop :=
  clean (c_vout c) /\ IsPruned c = false /\ Forall kept (c_vout c) /\ zlen (c_vout c) < 2 ^ 27 /\
  0 <= c_nHeight c < 2 ^ 31 /\ 0 <= c_nVersion c < 2 ^ 31.

Lemma flags_head v : nonnull_at v 0 :: nonnull_at v 1 :: map nonnull (drop 2 v) = map nonnull v ++ replicate (2 - length v) false.
Proof.
  destruct v as [| a [| b v]]; [done | done |]. rewrite (eq_refl : (2 - length (a :: b :: v))%nat = 0%nat), app_nil_r. done.
Qed.

Lemma clean_ends v : clean v -> ends_used v.
Proof. intros H o Ho. unfold nonnull. by rewrite (clean_last v o H Ho). Qed.

Lemma used_count_le fuel l : (used_count (chunks fuel l) <= length l)%nat.
Proof.
  revert l. induction fuel as [| fuel IH]; intros l; [cbn; lia |]. destruct l as [| p l]; [cbn; lia |]. cbn [chunks].
  specialize (IH (drop 8 (p :: l))). rewrite length_drop in IH. unfold used_count in *. cbn [List.filter].
  destruct (used (take 8 (p :: l))); cbn [length] in *; lia.
Qed.

(** Something is left to say so. *)
Lemma mask_nonempty v : forallb CTxOut_IsNull v = false -> clean v ->
  nonnull_at v 0 || nonnull_at v 1 || negb (used_count (chunks (length v) (drop 2 v)) =? 0)%nat = true.
Proof.
  intros Hp Hc. destruct (decide (drop 2 v = [])) as [E | E].
  - destruct v as [| a [| b [| c v]]]; [done | | | done]; cbn in Hp |- *;
      destruct (CTxOut_IsNull a); try done; by destruct (CTxOut_IsNull b).
  - pose proof (chunks_last (length v) (drop 2 v) ltac:(apply ends_used_drop, clean_ends, Hc) E ltac:(rewrite length_drop; lia)).
    destruct (used_count _); [done |]. by rewrite !orb_true_r.
Qed.

Lemma coins_roundtrip c rest : coins_storable c ->
  exists s, Serialize_CCoins parse c = Some s /\ Unserialize_CCoins parse serialize65 (s ++ rest) = Some (Ok (c, rest)).
Proof.
  intros (Hc & Hp & Hk & Hl & Hh & Hv). unfold IsPruned in Hp. pose proof (mask_nonempty _ Hp Hc) as Hm.
  assert (He : ends_used (drop 2 (c_vout c))) by (apply ends_used_drop, clean_ends, Hc).
  pose proof (mask_loop_chunks (length (c_vout c)) (c_vout c) 0 0 0 He ltac:(lia)) as [Hloop Hmask].
  cbn [Nat.mul Nat.add] in Hloop, Hmask. set (cs := chunks (length (c_vout c)) (drop 2 (c_vout c))) in *.
  destruct (write_outs_some _ Hk) as [outs Eo].
  pose proof (used_count_le (length (c_vout c)) (drop 2 (c_vout c))) as Hcnt. fold cs in Hcnt. rewrite length_drop in Hcnt.
  set (f0 := nonnull_at (c_vout c) 0) in *. set (f1 := nonnull_at (c_vout c) 1) in *.
  set (m := Z.of_nat (used_count cs) - (if f0 || f1 then 0 else 1)).
  assert (Hmm : 0 <= m < 2 ^ 27).
  { unfold m, zlen in *. destruct (f0 || f1); [lia |]. destruct (used_count cs); [done | lia]. }
  assert (Hsz : (if (used_count cs =? 0)%nat then 0%nat else length cs) = length cs).
  { destruct (decide (drop 2 (c_vout c) = [])) as [E | E].
    - assert (cs = []) as -> by (unfold cs; rewrite E; by destruct (length (c_vout c))). done.
    - pose proof (chunks_last (length (c_vout c)) _ He E ltac:(rewrite length_drop; lia)). fold cs in H.
      by destruct (used_count cs). }
  eexists. split.
  { unfold Serialize_CCoins, CalcMaskSize. rewrite Hloop. fold f0 f1. rewrite Hm, Eo, Hsz, Hmask. reflexivity. }
  fold m. assert (Hrange : 0 <= 16 * m + b2n (fCoinBase c) 1 + b2n (fCoinStake c) 2 + b2n f0 4 + b2n f1 8 < 2 ^ 32)
    by (destruct (fCoinBase c), (fCoinStake c), f0, f1; cbn [b2n]; lia).
  destruct (code_fields m (fCoinBase c) (fCoinStake c) f0 f1) as (F0 & F1 & F2 & F3 & F4 & F5). cbn zeta in *.
  rewrite u32_id by exact Hrange. unfold Unserialize_CCoins. rewrite <- !app_assoc.
  rewrite (ReadVarInt_Write 32) by lia. cbn [ares_bind]. rewrite (ReadVarInt_Write 32) by lia. cbn [ares_bind].
  rewrite F0, F1, F2, F3, F4, F5, !negb_involutive.
  replace (m + (if negb (f0 || f1) then 1 else 0)) with (Z.of_nat (used_count cs)) by (unfold m; destruct (f0 || f1); cbn [negb]; lia).
  destruct (read_mask_chunks (length (c_vout c)) (drop 2 (c_vout c)) (outs ++ WriteVarInt (c_nHeight c) ++ rest) [f0; f1] He
    ltac:(rewrite length_drop; lia)) as [k Ek]. cbn zeta in Ek. fold cs in Ek. rewrite Ek. cbn [ares_bind].
  cbn [app]. change (f0 :: f1 :: map nonnull (drop 2 (c_vout c)) ++ replicate k false)
    with ((f0 :: f1 :: map nonnull (drop 2 (c_vout c))) ++ replicate k false).
  unfold f0, f1. rewrite flags_head, <- app_assoc, <- replicate_add, read_outs_write by done. cbn [ares_bind].
  rewrite (ReadVarInt_Write 32) by lia. cbn [ares_bind]. rewrite !s32_id by lia.
  unfold Cleanup. cbn [c_vout with_vout fCoinBase fCoinStake c_nHeight c_nVersion].
  rewrite drop_null_app by (by apply Forall_replicate). rewrite Hc. by destruct c.
Qed.

(** An undo record as [Spend] makes it: with the height of the transaction, or with
    nothing but the output. *)
Definition undo_storable (u : CTxInUndo) : Prop :=
  storable (u_txout u) /\ 0 <= u_nHeight u < 2 ^ 30 /\ 0 <= u_nVersion u < 2 ^ 31 /\ (u_nHeight u = 0 -> u_nVersion u = 0).

Lemma undo_roundtrip u rest : undo_storable u ->
  exists s, Serialize_CTxInUndo parse u = Some s /\ Unserialize_CTxInUndo parse serialize65 (s ++ rest) = Some (Ok (u, rest)).
Proof.
  intros (Ho & Hh & Hv & Hz). destruct (compressed_roundtrip (u_txout u) rest Ho) as (o & Eo & Er).
  unfold Serialize_CTxInUndo. rewrite Eo. eexists. split; [reflexivity |].
  set (nCode := u_nHeight u * 4 + b2n (u_fCoinBase u) 2 + b2n (u_fCoinStake u) 1).
  assert (Hc : 0 <= nCode < 2 ^ 32) by (unfold nCode; destruct (u_fCoinBase u), (u_fCoinStake u); cbn [b2n]; lia).
  rewrite u32_id by lia. unfold Unserialize_CTxInUndo. rewrite <- !app_assoc, (ReadVarInt_Write 32) by lia. cbn [ares_bind].
  set (r := b2n (u_fCoinBase u) 2 + b2n (u_fCoinStake u) 1).
  assert (Hr : 0 <= r < 4) by (unfold r; destruct (u_fCoinBase u), (u_fCoinStake u); cbn [b2n]; lia).
  assert (Hn : nCode = Z.lor (Z.shiftl (u_nHeight u) 2) r) by (rewrite lor_shiftl_add by lia; unfold nCode, r; lia).
  assert (Hsh : Z.shiftr nCode 2 = u_nHeight u).
  { rewrite Hn, Z.shiftr_lor, Z.shiftr_shiftl_l by lia. rewrite (Z.shiftr_div_pow2 r) by lia. rewrite Z.div_small by lia.
    by rewrite Z.lor_0_r, Z.shiftl_0_r. }
  assert (Hb : forall k, 0 <= k < 4 -> Z.land nCode k = Z.land r k).
  { intros k Hk. rewrite Hn, Z.land_lor_distr_l. enough (Z.land (Z.shiftl (u_nHeight u) 2) k = 0) as -> by apply Z.lor_0_l.
    apply Z.bits_inj'. intros p Hp. rewrite Z.land_spec, Z.testbit_0_l. destruct (Z.lt_ge_cases p 2); [by rewrite Z.shiftl_spec_low |].
    rewrite (Z.bits_above_log2 k p); [apply andb_false_r | lia |]. destruct (decide (k = 0)) as [-> |]; [cbn; lia |].
    assert (Z.log2 k < 2) by (apply Z.log2_lt_pow2; lia). lia. }
  rewrite Hsh, !Hb by lia.
  assert (Hf : negb (Z.land r 2 =? 0) = u_fCoinBase u /\ negb (Z.land r 1 =? 0) = u_fCoinStake u)
    by (unfold r; destruct (u_fCoinBase u), (u_fCoinStake u); done).
  destruct Hf as [-> ->]. destruct (Z.ltb_spec 0 (u_nHeight u)).
  - rewrite (ReadVarInt_Write 32) by lia. cbn [ares_bind]. rewrite Er. cbn [ares_bind]. rewrite s32_id by lia. by destruct u.
  - cbn [ares_bind app]. rewrite Er. cbn [ares_bind]. change (s32 0) with 0. rewrite <- Hz by lia. by destruct u.
Qed.
End Roundtrip.

(** the coin database and the undo files give back what was written: for any
    curve, the unspent outputs of a transaction (with the bit mask of those that are
    left, skipping the zero bytes) and the undo record of a spent output are read back,
    and reading stops where they end. *)
Theorem Unserialize_Serialize_coins {point : Type} (parse : bytes -> option point) (serialize65 : point -> bytes) (c : CCoins)
    (u : CTxInUndo) (rest : bytes) :
  curve_laws parse serialize65 -> coins_storable c -> undo_storable u ->
  (exists s, Serialize_CCoins parse c = Some s /\ Unserialize_CCoins parse serialize65 (s ++ rest) = Some (Ok (c, rest))) /\
  (exists s, Serialize_CTxInUndo parse u = Some s /\ Unserialize_CTxInUndo parse serialize65 (s ++ rest) = Some (Ok (u, rest))).
Proof. intros Hc Hcs Hu. split; [by apply coins_roundtrip | by apply undo_roundtrip]. Qed.

(** Eleven outputs of which the first, the third and the last are left. *)
Definition stored_coins : CCoins :=
  {| fCoinBase := false; fCoinStake := true;
     c_vout := [CTxOut_new 5 [OP_1]; CTxOut_SetNull; CTxOut_new COIN [OP_1]] ++ replicate 8 CTxOut_SetNull ++ [CTxOut_new 7 []];
     c_nHeight := 120891; c_nVersion := 1 |}.
Definition stored_undo : CTxInUndo :=
  {| u_txout := CTxOut_new 5 [OP_1]; u_fCoinBase := false; u_fCoinStake := true; u_nHeight := 7; u_nVersion := 1 |}.

Lemma Unserialize_Serialize_coins_witness : exists s,
  Serialize_CCoins toy_parse stored_coins = Some s /\ Unserialize_CCoins toy_parse id (s ++ [1; 2]) = Some (Ok (stored_coins, [1; 2])).
Proof.
  apply (Unserialize_Serialize_coins toy_parse id stored_coins stored_undo [1; 2]).
  - exact toy_curve.
  - split; [reflexivity |]. split; [reflexivity |]. split; [| split; [reflexivity | split; split; vm_compute; congruence]].
    assert (Hk : forall n s, (0 <=? n) && (n <=? max_compressible) && (zlen s <=? MAX_SCRIPT_SIZE) = true -> kept (CTxOut_new n s)).
    { intros n s Hb. bprop. unfold kept, CTxOut_IsNull. cbn [nValue CTxOut_new]. rewrite (proj2 (Z.eqb_neq _ _)) by lia. by split_and!. }
    assert (Hn : kept CTxOut_SetNull) by reflexivity. repeat (apply Forall_cons; split; [first [exact Hn | apply Hk; reflexivity] |]). constructor.
  - split; [split; [split; vm_compute; congruence | split; [vm_compute; congruence | reflexivity]] |].
    split; [split; vm_compute; congruence |]. split; [split; vm_compute; congruence |]. intros Hx. discriminate Hx.
Defined.
