(* ===== verification/TxVerify.v ===== *)
(** [consensus/tx_verify.cpp], [consensus/validation.h] and [consensus/consensus.h]:
    the context-free checks of a transaction and the verdicts they give. *)

From Stdlib Require Import ZArith Lia String.
From stdpp Require Import base tactics list numbers strings sets.
From S2P Require Import Prelude Amount ChainParams Script Standard Serialize Transaction.

(** ** Limits *)

Definition MAX_BLOCK_SIZE_CURRENT : Z := 2000000.
Definition MAX_BLOCK_SIZE_LEGACY : Z := 1000000.
Definition MAX_BLOCK_SIGOPS_CURRENT : Z := MAX_BLOCK_SIZE_CURRENT / 50.
Definition MAX_BLOCK_SIGOPS_LEGACY : Z := MAX_BLOCK_SIZE_LEGACY / 50.
Definition MAX_TX_SIGOPS_CURRENT : Z := MAX_BLOCK_SIGOPS_CURRENT / 5.
Definition MAX_TX_SIGOPS_LEGACY : Z := MAX_BLOCK_SIGOPS_LEGACY / 5.
Definition MIN_COLDSTAKING_AMOUNT : Z := 1 * COIN.
Definition MAX_ZEROCOIN_TX_SIZE : Z := 150000.

(** ** Verdicts *)

Definition REJECT_MALFORMED : Z := 0x01.
Definition REJECT_INVALID : Z := 0x10.
Definition REJECT_OBSOLETE : Z := 0x11.
Definition REJECT_DUPLICATE : Z := 0x12.
Definition REJECT_NONSTANDARD : Z := 0x40.
Definition REJECT_DUST : Z := 0x41.
Definition REJECT_INSUFFICIENTFEE : Z := 0x42.
Definition REJECT_CHECKPOINT : Z := 0x43.

Inductive mode_state := MODE_VALID | MODE_INVALID | MODE_ERROR.

#[global] Instance mode_state_eq_dec : EqDecision mode_state.
Proof. solve_decision. Defined.

Record CValidationState := {
  mode : mode_state;
  nDoS : Z;
  strRejectReason : string;
  chRejectCode : Z;
  corruptionPossible : bool
}.

Definition CValidationState_new : CValidationState :=
  {| mode := MODE_VALID; nDoS := 0; strRejectReason := ""; chRejectCode := 0; corruptionPossible := false |}.

Definition state_DoS (s : CValidationState) (level chRejectCodeIn : Z) (strRejectReasonIn : string) (corruptionIn : bool) :
    CValidationState :=
  if decide (mode s = MODE_ERROR)
  then {| mode := mode s; nDoS := nDoS s; strRejectReason := strRejectReasonIn; chRejectCode := chRejectCodeIn;
          corruptionPossible := corruptionIn |}
  else {| mode := MODE_INVALID; nDoS := s32 (nDoS s + level); strRejectReason := strRejectReasonIn;
          chRejectCode := chRejectCodeIn; corruptionPossible := corruptionIn |}.

Definition state_Error (s : CValidationState) (reason : string) : CValidationState :=
  {| mode := MODE_ERROR; nDoS := nDoS s;
     strRejectReason := if decide (mode s = MODE_VALID) then reason else strRejectReason s;
     chRejectCode := chRejectCode s; corruptionPossible := corruptionPossible s |}.

Definition state_IsValid (s : CValidationState) : bool := bool_decide (mode s = MODE_VALID).
Definition state_IsError (s : CValidationState) : bool := bool_decide (mode s = MODE_ERROR).
Definition state_IsInvalid (s : CValidationState) : option Z :=
  if decide (mode s = MODE_INVALID) then Some (nDoS s) else None.

(** A check that fails returns what it passed to [state.DoS] ([state.Invalid] is the
    level 0), to [state.Error], a plain [false], or it throws, or an [assert] fails. *)
Inductive reject :=
| DoS (level code : Z) (reason : string)
| DoS_corrupt (level code : Z) (reason : string)
| Error_ (reason : string)
| Failed (what : string)
| Throws (what : string)
| AssertFail.

#[global] Instance reject_eq_dec : EqDecision reject.
Proof. solve_decision. Defined.

Abbreviation vres := (res reject).

Definition Invalid (code : Z) (reason : string) : reject := DoS 0 code reason.

(** The state that a check leaves behind. *)
Definition state_after {A} (s : CValidationState) (r : vres A) : CValidationState :=
  match r with
  | Ok _ => s
  | Err (DoS l c m) => state_DoS s l c m false
  | Err (DoS_corrupt l c m) => state_DoS s l c m true
  | Err (Error_ m) => state_Error s m
  | Err (Failed _) | Err (Throws _) | Err AssertFail => s
  end.

(** [state.DoS] on a state that a failed check has already set: the levels add up. *)
Definition escalate (inner : reject) (level code : Z) (reason : string) (corruptionIn : bool) : reject :=
  match inner with
  | DoS l _ _ | DoS_corrupt l _ _ => if corruptionIn then DoS_corrupt (l + level) code reason else DoS (l + level) code reason
  | Failed _ => if corruptionIn then DoS_corrupt level code reason else DoS level code reason
  | Error_ _ => Error_ reason
  | Throws _ | AssertFail => inner
  end.

Definition check (b : bool) (e : reject) : vres unit := if b then Ok tt else Err e.

(** [for (x : l) { ... return ...}]: the first failure. *)
Definition check_all {A} (f : A -> vres unit) (l : list A) : vres unit := res_fold (fun _ x => f x) tt l.

(** ** [IsFinalTx] and the signature operation counts *)

Section Final.
(** [chainActive.Height()] and [GetAdjustedTime()]. *)
Context (tip_height adjusted_time : Z).

Definition IsFinalTx (tx : CTransaction) (nBlockHeight nBlockTime : Z) : bool :=
  if nLockTime tx =? 0 then true
  else
    let nBlockHeight := if nBlockHeight =? 0 then tip_height else nBlockHeight in
    let nBlockTime := if nBlockTime =? 0 then adjusted_time else nBlockTime in
    if nLockTime tx <? (if nLockTime tx <? LOCKTIME_THRESHOLD then nBlockHeight else nBlockTime) then true
    else forallb CTxIn_IsFinal (vin tx).
End Final.

Definition GetLegacySigOpCount (tx : CTransaction) : Z :=
  let n := fold_left (fun n i => u32 (n + GetSigOpCount (scriptSig i) false)) (vin tx) 0 in
  fold_left (fun n o => u32 (n + GetSigOpCount (scriptPubKey o) false)) (vout tx) n.

(** ** [CheckTransaction] *)

Section CheckTransaction.
Context (consensus : ConsensusParams).
(** [CheckZerocoinSpend] with its cryptography. *)
Context (CheckZerocoinSpend : CTransaction -> bool).

(** One round of the loop over the outputs, with the running total. *)
Definition check_output (tx : CTransaction) (fColdStakingActive : bool) (nValueOut : Z) (o : CTxOut) : vres Z :=
  if CTxOut_IsEmpty o && negb (IsCoinBase tx) && negb (IsCoinStake tx) then Err (DoS 100 0 "")
  else if nValue o <? 0 then Err (DoS 100 REJECT_INVALID "bad-txns-vout-negative")
  else if nMaxMoneyOut consensus <? nValue o then Err (DoS 100 REJECT_INVALID "bad-txns-vout-toolarge")
  else
    let nValueOut := s64 (nValueOut + nValue o) in
    if negb (MoneyRange consensus nValueOut) then Err (DoS 100 REJECT_INVALID "bad-txns-txouttotal-toolarge")
    else if IsPayToColdStaking (scriptPubKey o) then
      if negb fColdStakingActive then Err (DoS 10 REJECT_INVALID "bad-txns-cold-stake")
      else if nValue o <? MIN_COLDSTAKING_AMOUNT then Err (DoS 100 REJECT_INVALID "bad-txns-cold-stake")
      else Ok nValueOut
    else Ok nValueOut.

(** One round of the loop over the inputs: [vInOutPoints] and [nZCSpendCount]. *)
Definition check_input (s : list COutPoint * Z) (i : CTxIn) : vres (list COutPoint * Z) :=
  let (vInOutPoints, nZCSpendCount) := s in
  if bool_decide (prevout i ∈ vInOutPoints) then Err (DoS 100 REJECT_INVALID "bad-txns-inputs-duplicate")
  else if negb (CTxIn_IsZerocoinSpend i) then Ok (prevout i :: vInOutPoints, nZCSpendCount)
  else if negb (CTxIn_IsZerocoinPublicSpend i) then Ok (vInOutPoints, s32 (nZCSpendCount + 1))
  else Ok (vInOutPoints, nZCSpendCount).

Definition check_zerocoin (tx : CTransaction) (nZCSpendCount : Z) : vres unit :=
  if ZC_MaxSpendsPerTx consensus <? nZCSpendCount then Err (DoS 100 0 "")
  else if HasZerocoinSpendInputs tx then
    if existsb (fun i => negb (CTxIn_IsZerocoinSpend i) && negb (CTxIn_IsZerocoinPublicSpend i)) (vin tx)
    then Err (DoS 100 0 "")
    else if negb (CheckZerocoinSpend tx) then Err (DoS 100 0 "")
    else Ok tt
  else Ok tt.

(** The last part: the coinbase's script, the number of zerocoin inputs, no null
    inputs. *)
Definition check_kind (tx : CTransaction) (fZerocoinActive : bool) : vres unit :=
  if IsCoinBase tx then
    match vin tx with
    | i :: _ => if (zlen (scriptSig i) <? 2) || (150 <? zlen (scriptSig i)) then Err (DoS 100 REJECT_INVALID "bad-cb-length") else Ok tt
    | [] => Err AssertFail
    end
  else if fZerocoinActive && HasZerocoinSpendInputs tx then
    if zlen (vin tx) <? 1 then Err (DoS 10 REJECT_INVALID "bad-zerocoinspend")
    else if HasZerocoinPublicSpendInputs tx then
      if ZC_MaxPublicSpendsPerTx consensus <? zlen (vin tx) then Err (DoS 10 REJECT_INVALID "bad-zerocoinspend") else Ok tt
    else if ZC_MaxSpendsPerTx consensus <? zlen (vin tx) then Err (DoS 10 REJECT_INVALID "bad-zerocoinspend")
    else Ok tt
  else if existsb (fun i => COutPoint_IsNull (prevout i) && (fZerocoinActive && negb (CTxIn_IsZerocoinSpend i))) (vin tx)
  then Err (DoS 10 REJECT_INVALID "bad-txns-prevout-null")
  else Ok tt.

Definition CheckTransaction (tx : CTransaction) (fZerocoinActive fColdStakingActive : bool) : vres unit :=
  if zlen (vin tx) =? 0 then Err (DoS 10 REJECT_INVALID "bad-txns-vin-empty")
  else if zlen (vout tx) =? 0 then Err (DoS 10 REJECT_INVALID "bad-txns-vout-empty")
  else if MAX_ZEROCOIN_TX_SIZE <? GetTotalSize tx then Err (DoS 100 REJECT_INVALID "bad-txns-oversize")
  else
    let* _ := res_fold (check_output tx fColdStakingActive) 0 (vout tx) in
    let* (_, nZCSpendCount) := res_fold check_input ([], 0) (vin tx) in
    let* _ := if fZerocoinActive then check_zerocoin tx nZCSpendCount else Ok tt in
    check_kind tx fZerocoinActive.

(** ** What [CheckTransaction] accepts *)

Definition output_ok (tx : CTransaction) (fColdStakingActive : bool) (o : CTxOut) : Prop :=
  (CTxOut_IsEmpty o = true -> IsCoinBase tx = true \/ IsCoinStake tx = true) /\ 0 <= nValue o <= nMaxMoneyOut consensus /\
  (IsPayToColdStaking (scriptPubKey o) = true -> fColdStakingActive = true /\ MIN_COLDSTAKING_AMOUNT <= nValue o).

Hypothesis max_money : 0 <= nMaxMoneyOut consensus < 2 ^ 62.

Lemma check_output_ok tx cold total o total' : 0 <= total <= nMaxMoneyOut consensus ->
  check_output tx cold total o = Ok total' <->
  output_ok tx cold o /\ total' = total + nValue o /\ total' <= nMaxMoneyOut consensus.
Proof.
  intros Ht. unfold check_output, output_ok, MoneyRange.
  destruct (CTxOut_IsEmpty o && negb (IsCoinBase tx) && negb (IsCoinStake tx)) eqn:E1.
  { split; [done |]. intros ((He & _) & _). destruct (CTxOut_IsEmpty o), (IsCoinBase tx), (IsCoinStake tx); try done. by destruct He. }
  assert (He : CTxOut_IsEmpty o = true -> IsCoinBase tx = true \/ IsCoinStake tx = true)
    by (destruct (CTxOut_IsEmpty o), (IsCoinBase tx), (IsCoinStake tx); auto; done).
  destruct (Z.ltb_spec (nValue o) 0); [split; [done | lia] |].
  destruct (Z.ltb_spec (nMaxMoneyOut consensus) (nValue o)); [split; [done | lia] |].
  rewrite s64_id by lia. rewrite (proj2 (Z.leb_le 0 (total + nValue o))) by lia. cbn [andb].
  destruct (Z.leb_spec (total + nValue o) (nMaxMoneyOut consensus)); cbn [negb]; [| split; [done | lia]].
  destruct (IsPayToColdStaking (scriptPubKey o)); [destruct cold; cbn [negb] |].
  - destruct (Z.ltb_spec (nValue o) MIN_COLDSTAKING_AMOUNT).
    + split; [done |]. intros ((_ & _ & Hp) & _). destruct Hp; [done | lia].
    + split; [intros [= <-]; split_and!; auto; lia | intros (_ & -> & _); done].
  - split; [done |]. intros ((_ & _ & Hp) & _). by destruct Hp.
  - split; [intros [= <-]; split_and!; auto; done || lia | intros (_ & -> & _); done].
Qed.

Lemma check_outputs_ok tx cold l total total' : 0 <= total <= nMaxMoneyOut consensus ->
  res_fold (check_output tx cold) total l = Ok total' <->
  Forall (output_ok tx cold) l /\ total' = total + sum_values l /\ total' <= nMaxMoneyOut consensus.
Proof.
  revert total. induction l as [| o l IH]; intros total Ht; cbn [res_fold].
  { change (sum_values []) with 0. rewrite Z.add_0_r. split; [by intros [= <-]; split_and!; [constructor | | lia] | by intros (_ & -> & _)]. }
  change (sum_values (o :: l)) with (nValue o + sum_values l). rewrite Z.add_assoc. split.
  - intros (t1 & (Ho & -> & Hle)%check_output_ok & E)%res_bind_Ok; [| done].
    apply IH in E as (Hl & -> & ?); [| destruct Ho as (_ & ? & _); lia]. split_and!; [by constructor | done | done].
  - intros (Hl & -> & Hle). apply Forall_cons in Hl as [Ho Hl].
    assert (Hs : 0 <= sum_values l) by (apply sum_values_nonneg; eapply Forall_impl; [exact Hl |]; intros p (_ & ? & _); lia).
    assert (Ho' := Ho). destruct Ho' as (_ & Hv & _).
    rewrite (proj2 (check_output_ok tx cold total o (total + nValue o) Ht)) by (split_and!; [done | done | lia]).
    cbn [res_bind]. apply IH; [lia |]. by split_and!.
Qed.

Lemma check_inputs_ok l s n : Forall (fun i => CTxIn_IsZerocoinSpend i = false) l ->
  is_ok (res_fold check_input (s, n) l) = true <-> NoDup (map prevout l) /\ (forall i, i ∈ l -> prevout i ∉ s).
Proof.
  intros Hl. revert s. induction Hl as [| i l Hi Hl IH]; intros s; cbn [res_fold map].
  { split; [intros _; split; [constructor | by intros i ?%elem_of_nil] | done]. }
  cbn [check_input]. rewrite Hi. cbn [negb]. case_bool_decide as Hd; cbn [res_bind is_ok].
  - split; [done |]. intros [_ H]. exfalso. by apply (H i); [left |].
  - rewrite IH, NoDup_cons. split.
    + intros [Hn H]. split_and!; [| done |].
      * intros (j & E & Hj)%list_elem_of_fmap. apply (H j Hj). rewrite <- E. left.
      * intros j [-> | Hj]%elem_of_cons; [done |]. intros Hs. apply (H j Hj). by right.
    + intros [[Hn Hnd] H]. split; [done |]. intros j Hj [E | Hs]%elem_of_cons.
      * apply Hn. rewrite <- E. by apply list_elem_of_fmap_2.
      * apply (H j); [by right | done].
Qed.

Lemma check_inputs_count l s n s' n' : Forall (fun i => CTxIn_IsZerocoinSpend i = false) l ->
  res_fold check_input (s, n) l = Ok (s', n') -> n' = n.
Proof.
  intros Hl. revert s. induction Hl as [| i l Hi Hl IH]; intros s; cbn [res_fold]; [by intros [= -> ->] |].
  cbn [check_input]. rewrite Hi. cbn [negb]. case_bool_decide; [done |]. cbn [res_bind]. apply IH.
Qed.

Lemma no_spends tx : HasZerocoinSpendInputs tx = false -> Forall (fun i => CTxIn_IsZerocoinSpend i = false) (vin tx).
Proof.
  unfold HasZerocoinSpendInputs. intros H. apply List.Forall_forall. intros i Hi.
  destruct (CTxIn_IsZerocoinSpend i) eqn:E; [| done]. rewrite <- H. symmetry. apply existsb_exists. exists i. by rewrite E.
Qed.

(** What makes a transaction without zerocoin inputs acceptable. *)
Record tx_ok (tx : CTransaction) (fZerocoinActive fColdStakingActive : bool) : Prop := {
  tx_vin : vin tx <> [];
  tx_vout : vout tx <> [];
  tx_size : GetTotalSize tx <= MAX_ZEROCOIN_TX_SIZE;
  tx_outputs : Forall (output_ok tx fColdStakingActive) (vout tx);
  tx_total : sum_values (vout tx) <= nMaxMoneyOut consensus;
  tx_distinct : NoDup (map prevout (vin tx));
  tx_coinbase : forall i, IsCoinBase tx = true -> vin tx = [i] -> 2 <= zlen (scriptSig i) <= 150;
  tx_null : IsCoinBase tx = false -> fZerocoinActive = true -> Forall (fun i => COutPoint_IsNull (prevout i) = false) (vin tx)
}.

Lemma check_kind_ok tx active : HasZerocoinSpendInputs tx = false ->
  check_kind tx active = Ok tt <->
  (forall i, IsCoinBase tx = true -> vin tx = [i] -> 2 <= zlen (scriptSig i) <= 150) /\
  (IsCoinBase tx = false -> active = true -> Forall (fun i => COutPoint_IsNull (prevout i) = false) (vin tx)).
Proof.
  intros Hz. unfold check_kind. rewrite Hz, andb_false_r. destruct (IsCoinBase tx) eqn:Ec.
  - assert (exists i, vin tx = [i]) as [i Hi] by (unfold IsCoinBase in Ec; destruct (vin tx) as [| i []]; [done | by exists i | done]).
    rewrite Hi. bcase; bprop; split; try done.
    + intros [H _]. specialize (H i eq_refl eq_refl). destruct E; bprop; lia.
    + intros _. split; [| done]. intros j _ [= <-]. lia.
  - bcase.
    + split; [done |]. intros [_ H]. apply existsb_exists in E as (i & Hi & E). bprop. subst.
      specialize (H eq_refl eq_refl). rewrite List.Forall_forall in H. specialize (H i Hi). congruence.
    + split; [| done]. intros _. split; [done |]. intros _ ->. apply List.Forall_forall. intros i Hi.
      destruct (COutPoint_IsNull (prevout i)) eqn:En; [| done]. rewrite <- E. symmetry. apply existsb_exists. exists i. split; [done |].
      pose proof (no_spends tx Hz) as Hs. rewrite List.Forall_forall in Hs. by rewrite En, (Hs i Hi).
Qed.

(** Acceptance, exactly. *)
Lemma CheckTransaction_tx_ok tx active cold : 0 <= ZC_MaxSpendsPerTx consensus -> HasZerocoinSpendInputs tx = false ->
  CheckTransaction tx active cold = Ok tt <-> tx_ok tx active cold.
Proof.
  intros Hzc Hz. pose proof (no_spends tx Hz) as Hs. unfold CheckTransaction.
  assert (Hlen : forall A (l : list A), (zlen l =? 0) = false <-> l <> []) by (intros A [|]; zl; split; try done; intros; apply Z.eqb_neq; pose proof (zlen_nonneg l); lia).
  split.
  - intros E. bcase_in E; [done |]. destruct (zlen (vout tx) =? 0) eqn:E1; [done |]. destruct (_ <? GetTotalSize tx) eqn:E2; [done |].
    apply res_bind_Ok in E as (t1 & (Ho & -> & Ht)%check_outputs_ok & E); [| lia].
    apply res_bind_Ok in E as ([s n] & Ei & E). apply res_bind_Ok in E as ([] & _ & E). apply check_kind_ok in E as [Hcb Hn]; [| done].
    destruct (proj1 (check_inputs_ok (vin tx) [] 0 Hs)) as [Hnd _]; [by rewrite Ei |].
    bprop. split; try done; try by apply Hlen, Z.eqb_neq.
  - intros [Hvi Hvo Hsz Ho Ht Hnd Hcb Hn]. apply Hlen in Hvi as ->. apply Hlen in Hvo as ->.
    rewrite (proj2 (Z.ltb_ge _ _)) by done.
    rewrite (proj2 (check_outputs_ok tx cold (vout tx) 0 (0 + sum_values (vout tx)) ltac:(lia))) by (split_and!; [done | done | lia]).
    cbn [res_bind]. pose proof (proj2 (check_inputs_ok (vin tx) [] 0 Hs)) as Hi.
    destruct (res_fold check_input ([], 0) (vin tx)) as [[s n] | e] eqn:Ei; [| exfalso; enough (false = true) by done; apply Hi; split; [done | intros i _; apply not_elem_of_nil]].
    apply check_inputs_count in Ei as ->; [| done]. cbn [res_bind].
    assert ((if active then check_zerocoin tx 0 else Ok tt) = Ok tt) as ->.
    { destruct active; [| done]. unfold check_zerocoin. rewrite Hz. by rewrite (proj2 (Z.ltb_ge _ _)). }
    cbn [res_bind]. by apply check_kind_ok.
Qed.
End CheckTransaction.

(** C31: [CheckTransaction] accepts a transaction without zerocoin inputs exactly when
    it has inputs and outputs, fits the size limit, every output is in the money
    range and so is their (never wrapped) total, no user output is empty, cold
    staking outputs are allowed and large enough, no output is spent twice, a
    coinbase has a script of 2 to 150 bytes and (while zerocoin is active) nothing
    else spends the null output. *)
Theorem CheckTransaction_iff (consensus : ConsensusParams) (CheckZerocoinSpend : CTransaction -> bool) (tx : CTransaction)
    (fZerocoinActive fColdStakingActive : bool) :
  0 <= nMaxMoneyOut consensus < 2 ^ 62 -> 0 <= ZC_MaxSpendsPerTx consensus -> HasZerocoinSpendInputs tx = false ->
  CheckTransaction consensus CheckZerocoinSpend tx fZerocoinActive fColdStakingActive = Ok tt <->
  tx_ok consensus tx fZerocoinActive fColdStakingActive.
Proof. intros Hm. by apply CheckTransaction_tx_ok. Qed.

Lemma CheckTransaction_iff_witness :
  tx_ok mainConsensus sample_tx true true /\
  CheckTransaction mainConsensus (fun _ => false) sample_tx true true = Ok tt.
Proof.
  assert (H : CheckTransaction mainConsensus (fun _ => false) sample_tx true true = Ok tt) by reflexivity.
  split; [| exact H].
  apply (CheckTransaction_iff mainConsensus (fun _ => false) sample_tx true true); [split; vm_compute; congruence | vm_compute; congruence | reflexivity | exact H].
Defined.
