(* ===== verification/Merkle.v ===== *)
(** Merkle trees ([consensus/merkle.cpp], [merkleblock.cpp]): the root and the branches of
    a block's tree computed in constant space, and the partial trees that prove which
    transactions a block has.

    The hash of a pair of nodes is an argument; the code uses the double SHA-256 of
    their concatenation. *)

From Stdlib Require Import ZArith Lia.
From stdpp Require Import base tactics list numbers.
From S2P Require Import Prelude ArithUint256 Hash Serialize Transaction Block TxVerify.

Section Merkle.
Context (H2 : bytes -> bytes -> bytes).

(** ** [MerkleComputation] *)

(** [!(count & (((uint32_t)1) << level))] *)
Definition bit_clear (count level : Z) : bool := Z.land count (u32 (Z.shiftl 1 level)) =? 0.
Definition inner_at (inner : list bytes) (level : Z) : bytes := nth (Z.to_nat level) inner uint256_zero.

(** [inner], [matchlevel], [*pbranch] and [mutated]. *)
Record merkle_state := { inner : list bytes; matchlevel : Z; branch : list bytes; mutated : bool }.

(** The steps on a pair of nodes that both loops share: what goes to the branch, and
    whether the pair depends on the matching leaf. *)
Definition match_step (st : merkle_state) (level : Z) (h : bytes) (matchh : bool) : list bytes * bool :=
  if matchh then (branch st ++ [inner_at (inner st) level], true)
  else if matchlevel st =? level then (branch st ++ [h], true)
  else (branch st, false).

(** [for (level = 0; !(count & (1 << level)); level++)]; a count below [2^32] has a bit
    among the 32 levels. *)
Fixpoint absorb (fuel : nat) (st : merkle_state) (count level : Z) (h : bytes) (matchh : bool) : merkle_state * Z * bytes * bool :=
  match fuel with
  | O => (st, level, h, matchh)
  | S fuel =>
      if bit_clear count level then
        let '(br, matchh) := match_step st level h matchh in
        let st := {| inner := inner st; matchlevel := matchlevel st; branch := br; mutated := mutated st || bool_decide (inner_at (inner st) level = h) |} in
        absorb fuel st count (level + 1) (H2 (inner_at (inner st) level) h) matchh
      else (st, level, h, matchh)
  end.

(** [while (count < leaves.size())] *)
Fixpoint take_leaves (leaves : list bytes) (st : merkle_state) (count branchpos : Z) : merkle_state * Z :=
  match leaves with
  | [] => (st, count)
  | h :: leaves =>
      let matchh := count =? branchpos in
      let count := u32 (count + 1) in
      let '(st, level, h, matchh) := absorb 32 st count 0 h matchh in
      take_leaves leaves
        {| inner := <[Z.to_nat level := h]> (inner st); matchlevel := if matchh then level else matchlevel st; branch := branch st; mutated := mutated st |}
        count branchpos
  end.

(** [while (!(count & (1 << level))) level++] *)
Fixpoint lowest_level (fuel : nat) (count level : Z) : Z :=
  match fuel with O => level | S fuel => if bit_clear count level then lowest_level fuel count (level + 1) else level end.

(** The inner loop of the sweep. *)
Fixpoint propagate (fuel : nat) (st : merkle_state) (count level : Z) (h : bytes) (matchh : bool) : merkle_state * Z * bytes * bool :=
  match fuel with
  | O => (st, level, h, matchh)
  | S fuel =>
      if bit_clear count level then
        let '(br, matchh) := match_step st level h matchh in
        propagate fuel {| inner := inner st; matchlevel := matchlevel st; branch := br; mutated := mutated st |} count (level + 1)
          (H2 (inner_at (inner st) level) h) matchh
      else (st, level, h, matchh)
  end.

(** [while (count != (1 << level))]; every round raises the level. *)
Fixpoint sweep (fuel : nat) (st : merkle_state) (count level : Z) (h : bytes) (matchh : bool) : merkle_state * bytes :=
  match fuel with
  | O => (st, h)
  | S fuel =>
      if count =? u32 (Z.shiftl 1 level) then (st, h)
      else
        let st := {| inner := inner st; matchlevel := matchlevel st; branch := if matchh then branch st ++ [h] else branch st; mutated := mutated st |} in
        let h := H2 h h in
        let count := u32 (count + u32 (Z.shiftl 1 level)) in
        let '(st, level, h, matchh) := propagate 32 st count (level + 1) h matchh in
        sweep fuel st count level h matchh
  end.

(** The root, [mutated] and the branch. *)
Definition MerkleComputation (leaves : list bytes) (branchpos : Z) : bytes * bool * list bytes :=
  match leaves with
  | [] => (uint256_zero, false, [])
  | _ =>
      let '(st, count) := take_leaves leaves {| inner := replicate 32 uint256_zero; matchlevel := -1; branch := []; mutated := false |} 0 branchpos in
      let level := lowest_level 32 count 0 in
      let '(st, h) := sweep 32 st count level (inner_at (inner st) level) (matchlevel st =? level) in
      (h, mutated st, branch st)
  end.

Definition ComputeMerkleRoot (leaves : list bytes) : bytes * bool := fst (MerkleComputation leaves (2 ^ 32 - 1)).
Definition ComputeMerkleBranch (leaves : list bytes) (position : Z) : list bytes := snd (MerkleComputation leaves position).

Fixpoint ComputeMerkleRootFromBranch (leaf : bytes) (vMerkleBranch : list bytes) (nIndex : Z) : bytes :=
  match vMerkleBranch with
  | [] => leaf
  | it :: l => ComputeMerkleRootFromBranch (if negb (Z.land nIndex 1 =? 0) then H2 it leaf else H2 leaf it) l (Z.shiftr nIndex 1)
  end.

(** ** [CPartialMerkleTree] *)

Record CPartialMerkleTree := { nTransactions : Z; vBits : list bool; vHash : list bytes; fBad : bool }.

Definition CalcTreeWidth (nTransactions height : Z) : Z := Z.shiftr (u32 (nTransactions + Z.shiftl 1 height - 1)) height.

(** [while (CalcTreeWidth(nHeight) > 1) nHeight++] *)
Fixpoint tree_height (fuel : nat) (nTransactions nHeight : Z) : nat :=
  match fuel with
  | O => Z.to_nat nHeight
  | S fuel => if 1 <? CalcTreeWidth nTransactions nHeight then tree_height fuel nTransactions (nHeight + 1) else Z.to_nat nHeight
  end.

Fixpoint CalcHash (nTransactions : Z) (height : nat) (pos : Z) (vTxid : list bytes) : bytes :=
  match height with
  | O => nth (Z.to_nat pos) vTxid uint256_zero
  | S height =>
      let hl := CalcHash nTransactions height (pos * 2) vTxid in
      let hr := if pos * 2 + 1 <? CalcTreeWidth nTransactions (Z.of_nat height) then CalcHash nTransactions height (pos * 2 + 1) vTxid else hl in
      H2 hl hr
  end.

(** [for (p = pos << height; p < (pos + 1) << height && p < nTransactions; p++)] *)
Definition parent_of_match (nTransactions : Z) (height : nat) (pos : Z) (vMatch : list bool) : bool :=
  let first := Z.shiftl pos (Z.of_nat height) in
  let last := Z.min (Z.shiftl (pos + 1) (Z.of_nat height)) nTransactions in
  existsb id (take (Z.to_nat (last - first)) (drop (Z.to_nat first) vMatch)).

Fixpoint TraverseAndBuild (nTransactions : Z) (height : nat) (pos : Z) (vTxid : list bytes) (vMatch : list bool) : list bool * list bytes :=
  let fParentOfMatch := parent_of_match nTransactions height pos vMatch in
  match height with
  | O => ([fParentOfMatch], [CalcHash nTransactions 0 pos vTxid])
  | S h =>
      if negb fParentOfMatch then ([fParentOfMatch], [CalcHash nTransactions (S h) pos vTxid])
      else
        let '(lb, lh) := TraverseAndBuild nTransactions h (pos * 2) vTxid vMatch in
        let '(rb, rh) := if pos * 2 + 1 <? CalcTreeWidth nTransactions (Z.of_nat h) then TraverseAndBuild nTransactions h (pos * 2 + 1) vTxid vMatch else ([], []) in
        (fParentOfMatch :: lb ++ rb, lh ++ rh)
  end.

Definition CPartialMerkleTree_new (vTxid : list bytes) (vMatch : list bool) : CPartialMerkleTree :=
  let n := u32 (zlen vTxid) in
  let '(bits, hashes) := TraverseAndBuild n (tree_height 32 n 0) 0 vTxid vMatch in
  {| nTransactions := n; vBits := bits; vHash := hashes; fBad := false |}.

(** [nBitsUsed], [nHashUsed], [vMatch] and [fBad]. *)
Record extract_state := { nBitsUsed : nat; nHashUsed : nat; vMatched : list bytes; bad : bool }.

Fixpoint TraverseAndExtract (t : CPartialMerkleTree) (height : nat) (pos : Z) (st : extract_state) : bytes * extract_state :=
  match vBits t !! nBitsUsed st with
  | None => (uint256_zero, {| nBitsUsed := nBitsUsed st; nHashUsed := nHashUsed st; vMatched := vMatched st; bad := true |})
  | Some fParentOfMatch =>
      let st := {| nBitsUsed := S (nBitsUsed st); nHashUsed := nHashUsed st; vMatched := vMatched st; bad := bad st |} in
      let leaf :=
        match vHash t !! nHashUsed st with
        | None => (uint256_zero, {| nBitsUsed := nBitsUsed st; nHashUsed := nHashUsed st; vMatched := vMatched st; bad := true |})
        | Some hash =>
            (hash, {| nBitsUsed := nBitsUsed st; nHashUsed := S (nHashUsed st);
                      vMatched := if bool_decide (height = O) && fParentOfMatch then vMatched st ++ [hash] else vMatched st; bad := bad st |})
        end in
      match height with
      | O => leaf
      | S h =>
          if negb fParentOfMatch then leaf
          else
            let '(hl, st) := TraverseAndExtract t h (pos * 2) st in
            let '(hr, st) := if pos * 2 + 1 <? CalcTreeWidth (nTransactions t) (Z.of_nat h) then TraverseAndExtract t h (pos * 2 + 1) st else (hl, st) in
            (H2 hl hr, st)
      end
  end.

(** The root (zero: failure) and the matched ids. *)
Definition ExtractMatches (t : CPartialMerkleTree) : bytes * list bytes :=
  if nTransactions t =? 0 then (uint256_zero, [])
  else if Z.quot MAX_BLOCK_SIZE_CURRENT 60 <? nTransactions t then (uint256_zero, [])
  else if nTransactions t <? zlen (vHash t) then (uint256_zero, [])
  else if zlen (vBits t) <? zlen (vHash t) then (uint256_zero, [])
  else
    let '(root, st) := TraverseAndExtract t (tree_height 32 (nTransactions t) 0) 0 {| nBitsUsed := 0; nHashUsed := 0; vMatched := []; bad := fBad t |} in
    if bad st then (uint256_zero, vMatched st)
    else if negb ((Z.of_nat (nBitsUsed st) + 7) / 8 =? (zlen (vBits t) + 7) / 8) then (uint256_zero, vMatched st)
    else if negb (Z.of_nat (nHashUsed st) =? zlen (vHash t)) then (uint256_zero, vMatched st)
    else (root, vMatched st).
End Merkle.

(** ** The serialized form *)

(** The bits eight to a byte, the least significant first. *)
Fixpoint pack_byte (l : list bool) : Z := match l with [] => 0 | b :: l => (if b then 1 else 0) + 2 * pack_byte l end.
Fixpoint pack_bits (fuel : nat) (l : list bool) : bytes :=
  match fuel, l with S fuel, _ :: _ => pack_byte (take 8 l) :: pack_bits fuel (drop 8 l) | _, _ => [] end.
Definition unpack_byte (b : Z) : list bool := map (fun i => negb (Z.land b (Z.shiftl 1 (Z.of_nat i)) =? 0)) (seq 0 8).

#[local] Instance uint256_ser : Serializable bytes := {|
  Serialize h := h;
  Unserialize := read 32;
  ser_valid h := length h = 32%nat
|}.

#[local] Instance uint256_laws : SerializableLaws bytes.
Proof. intros h rest Hh. by apply read_app. Qed.

Definition Serialize_CPartialMerkleTree (t : CPartialMerkleTree) : bytes :=
  ser_writedata32 (nTransactions t) ++ Serialize_vector (vHash t) ++ Serialize_bytes (pack_bits (length (vBits t)) (vBits t)).

Definition Unserialize_CPartialMerkleTree (batch : nat) : reader CPartialMerkleTree := fun s =>
  let* (n, s) := ser_readdata32 s in
  let* (hashes, s) := Unserialize_vector batch s in
  let* (vBytes, s) := Unserialize_bytes s in
  Ok ({| nTransactions := n; vBits := concat (map unpack_byte vBytes); vHash := hashes; fBad := false |}, s).

(** ** Blocks *)

Definition BlockMerkleRoot (block : CBlock) : bytes * bool := ComputeMerkleRoot Hash2 (map CTransaction_GetHash (vtx block)).
Definition BlockMerkleBranch (block : CBlock) (position : Z) : list bytes := ComputeMerkleBranch Hash2 (map CTransaction_GetHash (vtx block)) position.

(** A node of the tree of a block is a 256-bit hash. *)
Lemma Hash2_length a b : length (Hash2 a b) = 32%nat.
Proof. unfold Hash2. rewrite Hash_ranges_ref. apply sha256_ref_length. Qed.
