(* ===== verification/MerkleFacts.v ===== *)
(** Correctness of the Merkle routines: the constant-space computation and the recursive
    definition agree, branches lead back to the root, and a root binds its leaves unless two
    of the inputs that were hashed collide. *)

From Stdlib Require Import ZArith Lia.
From stdpp Require Import base tactics list numbers.
From S2P Require Import Prelude ArithUint256 Hash Serialize Transaction Block TxVerify Merkle.

(** ** Levels *)

(** The number of nodes at a level: [n / 2^l] rounded up. *)
Definition width (n l : Z) : Z := (n + 2 ^ l - 1) / 2 ^ l.

Lemma pow2_pos l : 0 <= l -> 0 < 2 ^ l.
Proof. intros. apply Z.pow_pos_nonneg; lia. Qed.

Lemma pow2_S l : 0 <= l -> 2 ^ (l + 1) = 2 * 2 ^ l.
Proof. intros. rewrite Z.pow_add_r by lia. lia. Qed.

Lemma pow2_le_31 l : 0 <= l <= 31 -> 0 < 2 ^ l <= 2 ^ 31.
Proof. intros. split; [apply pow2_pos; lia|apply Z.pow_le_mono_r; lia]. Qed.

Lemma div_pow2_S x l : 0 <= l -> x / 2 ^ (l + 1) = x / 2 ^ l / 2.
Proof. intros. pose proof (pow2_pos l ltac:(lia)). rewrite pow2_S, Z.mul_comm by lia. rewrite Z.div_div by lia. done. Qed.

Lemma width_0 n : width n 0 = n.
Proof. unfold width. change (2 ^ 0) with 1. rewrite Z.div_1_r. lia. Qed.

Lemma width_S n l : 0 <= l -> width n (l + 1) = (width n l + 1) / 2.
Proof.
  intros Hl. unfold width. rewrite div_pow2_S by lia. pose proof (pow2_pos l Hl). rewrite pow2_S by lia.
  replace (n + 2 * 2 ^ l - 1) with (n + 2 ^ l - 1 + 1 * 2 ^ l) by lia. rewrite Z.div_add by lia. done.
Qed.

Lemma width_bounds n l : 0 <= l -> n <= width n l * 2 ^ l < n + 2 ^ l.
Proof.
  intros Hl. unfold width. pose proof (pow2_pos l Hl). pose proof (Z_div_mod_eq_full (n + 2 ^ l - 1) (2 ^ l)).
  pose proof (Z.mod_pos_bound (n + 2 ^ l - 1) (2 ^ l)). nia.
Qed.

Lemma width_pos n l : 0 <= l -> 0 < n -> 0 < width n l.
Proof. intros Hl Hn. pose proof (width_bounds n l Hl). pose proof (pow2_pos l Hl). nia. Qed.

Lemma width_floor n l : 0 <= l -> n / 2 ^ l <= width n l <= n / 2 ^ l + 1.
Proof.
  intros Hl. pose proof (width_bounds n l Hl). pose proof (pow2_pos l Hl).
  pose proof (Z_div_mod_eq_full n (2 ^ l)). pose proof (Z.mod_pos_bound n (2 ^ l)). nia.
Qed.

Lemma CalcTreeWidth_width n l : 0 <= n <= 2 ^ 31 -> 0 <= l <= 31 -> CalcTreeWidth n l = width n l.
Proof.
  intros Hn Hl. unfold CalcTreeWidth, width. pose proof (pow2_le_31 l Hl).
  rewrite Z.shiftl_1_l, Z.shiftr_div_pow2 by lia. unfold u32. rewrite Z.mod_small by lia. done.
Qed.

Lemma bit_clear_even c l : 0 <= l <= 31 -> bit_clear c l = Z.even (c / 2 ^ l).
Proof.
  intros Hl. unfold bit_clear. pose proof (pow2_le_31 l Hl). rewrite Z.shiftl_1_l.
  unfold u32. rewrite Z.mod_small by lia. rewrite <- Z.shiftr_div_pow2 by lia.
  rewrite <- Z.negb_odd, <- Z.bit0_odd, Z.shiftr_spec, Z.add_0_l by lia.
  destruct (Z.testbit c l) eqn:E; simpl; [apply Z.eqb_neq|apply Z.eqb_eq].
  - intros H0. assert (Z.testbit (Z.land c (2 ^ l)) l = false) by (rewrite H0; apply Z.bits_0).
    rewrite Z.land_spec, E, Z.pow2_bits_true in H1 by lia. done.
  - apply Z.bits_inj'. intros k Hk. rewrite Z.land_spec, Z.bits_0. destruct (decide (k = l)) as [->|].
    + rewrite E. done.
    + rewrite Z.pow2_bits_false by lia. apply andb_false_r.
Qed.

(** A level at which [q] counts the nodes begun is even or odd; both cases as equations. *)
Lemma even_half q : Z.even q = true -> q = 2 * (q / 2).
Proof. intros H. apply Z.even_spec in H as [k ->]. rewrite Z.mul_comm, Z.div_mul by lia. lia. Qed.

Lemma odd_half q : Z.even q = false -> q = 2 * (q / 2) + 1.
Proof.
  intros H. assert (Z.odd q = true) as Ho by (rewrite <- Z.negb_even, H; done).
  apply Z.odd_spec in Ho as [k ->]. replace (2 * k + 1) with (1 + k * 2) by lia. rewrite Z.div_add by lia. change (1 / 2) with 0. lia.
Qed.

Lemma even_double k : Z.even (2 * k) = true.
Proof. apply Z.even_spec. exists k. lia. Qed.

Lemma even_double_1 k : Z.even (2 * k + 1) = false.
Proof. rewrite <- Z.negb_odd. assert (Z.odd (2 * k + 1) = true) as -> by (apply Z.odd_spec; exists k; lia). done. Qed.

(** ** Nodes *)

Section Nodes.
Context (H2 : bytes -> bytes -> bytes) (leaves : list bytes).
Notation n := (zlen leaves).
Context (Hn : 0 < n <= 2 ^ 31).

(** The node at a level and position of the tree, by the recursive definition. *)
Definition node (l p : Z) : bytes := CalcHash H2 n (Z.to_nat l) p leaves.

Lemma node_0 p : node 0 p = nth (Z.to_nat p) leaves uint256_zero.
Proof using Type. done. Qed.

Lemma node_S l p : 0 <= l <= 31 ->
  node (l + 1) p = H2 (node l (2 * p)) (if 2 * p + 1 <? width n l then node l (2 * p + 1) else node l (2 * p)).
Proof using Hn.
  intros Hl. unfold node. replace (Z.to_nat (l + 1)) with (S (Z.to_nat l)) by lia. simpl.
  rewrite Z2Nat.id, CalcTreeWidth_width, (Z.mul_comm p 2) by lia. done.
Qed.

Lemma node_pair l p : 0 <= l <= 31 -> 2 * p + 1 < width n l -> node (l + 1) p = H2 (node l (2 * p)) (node l (2 * p + 1)).
Proof using Hn. intros Hl Hp. rewrite node_S by done. rewrite (proj2 (Z.ltb_lt _ _)) by done. done. Qed.

Lemma node_last l p : 0 <= l <= 31 -> width n l <= 2 * p + 1 -> node (l + 1) p = H2 (node l (2 * p)) (node l (2 * p)).
Proof using Hn. intros Hl Hp. rewrite node_S by done. rewrite (proj2 (Z.ltb_ge _ _)) by done. done. Qed.

(** The sibling of the ancestor of leaf [pos] at a level, and those below a level. *)
Definition sibling (pos l : Z) : bytes :=
  let p := pos / 2 ^ l in
  if Z.even p then (if p + 1 <? width n l then node l (p + 1) else node l p) else node l (p - 1).
Definition siblings (pos l : Z) : list bytes := map (sibling pos) (seqZ 0 l).

Lemma siblings_S pos l : 0 <= l -> siblings pos (l + 1) = siblings pos l ++ [sibling pos l].
Proof using Type. intros Hl. unfold siblings. rewrite seqZ_app by lia. rewrite map_app. done. Qed.

(** Hashing up the siblings from an ancestor gives the higher ancestors. *)
Lemma FromBranch_siblings pos l k : 0 <= pos < n -> 0 <= l -> 0 <= k -> l + k <= 31 ->
  ComputeMerkleRootFromBranch H2 (node l (pos / 2 ^ l)) (map (sibling pos) (seqZ l k)) (pos / 2 ^ l) = node (l + k) (pos / 2 ^ (l + k)).
Proof using Hn.
  intros Hpos Hl Hk. revert l Hl. pattern k. apply natlike_ind; [|clear k Hk; intros k Hk IH l Hl Hle|done].
  { intros l Hl Hle. rewrite Z.add_0_r. done. }
  rewrite seqZ_cons by lia. simpl. rewrite Z.pred_succ.
  replace (l + Z.succ k) with (Z.succ l + k) by lia. rewrite <- IH by lia.
  replace (Z.succ l) with (l + 1) by lia. rewrite div_pow2_S by lia.
  rewrite Z.shiftr_div_pow2 by lia. change (2 ^ 1) with 2. set (p := pos / 2 ^ l).
  assert (Hp : p < width n l).
  { pose proof (width_bounds n l Hl). pose proof (pow2_pos l Hl). unfold p. apply Z.div_lt_upper_bound; lia. }
  f_equal. unfold sibling. fold p. pose proof (Z.land_ones p 1) as Hla. change (Z.ones 1) with 1 in Hla. rewrite Hla by lia.
  change (2 ^ 1) with 2. rewrite Zmod_even. destruct (Z.even p) eqn:Ep; simpl.
  - pose proof (even_half _ Ep) as E. rewrite node_S by lia. rewrite <- E. done.
  - pose proof (odd_half _ Ep) as E. rewrite node_pair by lia. rewrite <- E. do 2 f_equal. lia.
Qed.

(** ** The loops *)

(** [inner] holds, for every bit of the count, the last node of that size. *)
Definition inner_ok (N : Z) (inn : list bytes) : Prop :=
  length inn = 32%nat /\ forall L, 0 <= L <= 31 -> Z.even (N / 2 ^ L) = false -> inner_at inn L = node L (N / 2 ^ L - 1).

(** What is known of the leaf asked for while [h] is combined upwards from level [l] (its
    node has position [q - 1]): its branch so far, or the [inner] entry it went into. *)
Definition matching (N B pos lo l q ml : Z) (br : list bytes) (mh : bool) : Prop :=
  if mh then pos / 2 ^ l = q - 1 /\ br = siblings pos l /\ pos < n
  else (B <= pos /\ ml = -1 /\ br = []) \/
       (lo <= ml <= 31 /\ Z.even (N / 2 ^ ml) = false /\ pos / 2 ^ ml = N / 2 ^ ml - 1 /\ br = siblings pos ml /\ pos < n).

(** The [C] leaves up to the one being taken combined to level [l], those before in [inner]. *)
Record carrying (N C B pos l q : Z) (st : merkle_state) (h : bytes) (mh : bool) : Prop := {
  cy_inner : inner_ok N (inner st);
  cy_count : C = q * 2 ^ l; cy_level : 0 <= l <= 31; cy_small : C <= 2 ^ 31;
  cy_prev : N / 2 ^ l = q - 1; cy_q : 0 < q <= width n l;
  cy_h : h = node l (q - 1);
  cy_match : matching N B pos l l q (matchlevel st) (branch st) mh }.

Lemma carrying_inner N C B pos l q st h mh : carrying N C B pos l q st h mh -> Z.even q = true ->
  inner_at (inner st) l = node l (q - 2).
Proof using Type.
  intros [Hin _ Hl _ Hp _ _ _] Hev. pose proof (even_half q Hev) as E.
  assert (Hodd : Z.even (N / 2 ^ l) = false).
  { rewrite Hp, E. replace (2 * (q / 2) - 1) with (2 * (q / 2 - 1) + 1) by lia. apply even_double_1. }
  rewrite (proj2 Hin) by done. f_equal. lia.
Qed.

Lemma carrying_step N C B pos l q st h mh mut : 0 <= pos ->
  carrying N C B pos l q st h mh -> Z.even q = true ->
  let '(br, mh') := match_step st l h mh in
  carrying N C B pos (l + 1) (q / 2) {| inner := inner st; matchlevel := matchlevel st; branch := br; mutated := mut |}
    (H2 (inner_at (inner st) l) h) mh'.
Proof using Hn.
  intros Hpos Hc Hev. pose proof (carrying_inner _ _ _ _ _ _ _ _ _ Hc Hev) as Hi. destruct Hc as [Hin HC Hl Hs Hp Hq -> Hm]. pose proof (even_half q Hev) as E. set (k := q / 2) in *.
  pose proof (pow2_pos l ltac:(lia)) as Hpw.
  assert (Hl31 : l < 31). { destruct (decide (l = 31)) as [->|]; [nia|lia]. }
  assert (Hw : k <= width n (l + 1)). { rewrite width_S by lia. apply Z.div_le_lower_bound; lia. }
  assert (Hh : H2 (inner_at (inner st) l) (node l (q - 1)) = node (l + 1) (k - 1)).
  { rewrite node_pair by lia. rewrite Hi. f_equal; f_equal; lia. }
  assert (Hp' : N / 2 ^ (l + 1) = k - 1).
  { rewrite div_pow2_S, Hp, E by lia. replace (2 * k - 1) with (1 + (k - 1) * 2) by lia. rewrite Z.div_add by lia. done. }
  unfold match_step, matching in *. destruct mh; [|destruct (Z.eqb_spec (matchlevel st) l) as [El|El]].
  - destruct Hm as (Hpq & Hbr & Hlt). constructor; simpl; try done; try lia; [rewrite pow2_S by lia; lia|].
    rewrite siblings_S, Hbr by lia. split_and!; [| |done].
    + rewrite div_pow2_S, Hpq, E by lia. replace (2 * k - 1) with (1 + (k - 1) * 2) by lia. rewrite Z.div_add by lia. done.
    + f_equal. f_equal. unfold sibling. rewrite Hpq, E. replace (2 * k - 1) with (2 * (k - 1) + 1) by lia.
      rewrite even_double_1, Hi. f_equal. lia.
  - destruct Hm as [(? & ? & ?)|(? & ? & Hpq & Hbr & Hlt)]; [lia|]. rewrite El in *. constructor; simpl; try done; try lia; [rewrite pow2_S by lia; lia|].
    rewrite siblings_S, Hbr by lia. rewrite Hp in Hpq. split_and!; [| |done].
    + rewrite div_pow2_S, Hpq, E by lia. replace (2 * k - 1 - 1) with ((k - 1) * 2) by lia. rewrite Z.div_mul by lia. done.
    + f_equal. f_equal. unfold sibling. rewrite Hpq. replace (q - 1 - 1) with (2 * (k - 1)) by lia.
      rewrite even_double, (proj2 (Z.ltb_lt _ _)) by lia. f_equal. lia.
  - constructor; simpl; try done; try lia; [rewrite pow2_S by lia; lia|].
    destruct Hm as [?|(? & ? & ? & ? & ?)]; [left; done|right]. split; [lia|done].
Qed.

(** Combining ends at the lowest bit of the count; the pairs compared on the way decide
    [mutated]. *)
Lemma absorb_run N C B pos fuel : 0 <= pos -> forall l q st h mh, carrying N C B pos l q st h mh -> 32 - l <= Z.of_nat fuel ->
  exists st' l' q' h' mh', absorb H2 fuel st C l h mh = (st', l', h', mh') /\ l <= l' /\
    carrying N C B pos l' q' st' h' mh' /\ Z.even q' = false /\
    (mutated st' = true <-> mutated st = true \/ exists L, l <= L < l' /\ node L (C / 2 ^ L - 2) = node L (C / 2 ^ L - 1)).
Proof using Hn.
  intros Hpos. induction fuel as [|fuel IH]; intros l q st h mh Hc Hf; pose proof (cy_level _ _ _ _ _ _ _ _ _ Hc) as Hl; [lia|].
  pose proof (pow2_pos l ltac:(lia)) as Hpw.
  assert (Hq : C / 2 ^ l = q). { rewrite (cy_count _ _ _ _ _ _ _ _ _ Hc), Z.div_mul by lia. done. }
  simpl. rewrite bit_clear_even, Hq by lia. destruct (Z.even q) eqn:Hev.
  - pose proof (carrying_step _ _ _ _ _ _ _ _ _ (mutated st || bool_decide (inner_at (inner st) l = h)) Hpos Hc Hev) as Hs.
    destruct (match_step st l h mh) as [br mh'].
    destruct (IH _ _ _ _ _ Hs ltac:(lia)) as (st' & l' & q' & h' & mh'' & Hrun & Hle & Hc' & Hodd & Hmut).
    exists st', l', q', h', mh''. split_and!; try done; [lia|]. rewrite Hmut. simpl. rewrite orb_true_iff, bool_decide_eq_true.
    assert (Hpair : inner_at (inner st) l = h <-> node l (C / 2 ^ l - 2) = node l (C / 2 ^ l - 1)).
    { rewrite (carrying_inner _ _ _ _ _ _ _ _ _ Hc Hev), (cy_h _ _ _ _ _ _ _ _ _ Hc), Hq. done. }
    rewrite Hpair. split.
    + intros [[?|?]|(L & ? & ?)]; [auto|right; exists l; split; [lia|done]|right; exists L; split; [lia|done]].
    + intros [?|(L & ? & ?)]; [auto|]. destruct (decide (L = l)) as [->|]; [auto|right; exists L; split; [lia|done]].
  - exists st, l, q, h, mh. split_and!; try done. split; [auto|intros [?|(L & ? & _)]; [done|lia]].
Qed.

(** The sweep's loop is the same but for [mutated]. *)
Definition with_mutated (m : bool) (st : merkle_state) : merkle_state :=
  {| inner := inner st; matchlevel := matchlevel st; branch := branch st; mutated := m |}.

Lemma propagate_absorb fuel C m : forall st l h mh,
  propagate H2 fuel (with_mutated m st) C l h mh =
  let '(st', l', h', mh') := absorb H2 fuel st C l h mh in (with_mutated m st', l', h', mh').
Proof using Type.
  induction fuel as [|fuel IH]; intros st l h mh; simpl; [done|]. destruct (bit_clear C l); [|done].
  unfold match_step. simpl. destruct mh; [|destruct (matchlevel st =? l)]; rewrite <- IH; done.
Qed.

(** The state between two leaves. *)
Record taken (N pos : Z) (st : merkle_state) : Prop := {
  tk_inner : inner_ok N (inner st);
  tk_match : matching N N pos 0 0 0 (matchlevel st) (branch st) false;
  tk_mutated : mutated st = true <-> exists L p, 0 <= L <= 31 /\ 0 <= p /\ (2 * p + 2) * 2 ^ L <= N /\ node L (2 * p) = node L (2 * p + 1) }.

(** Above the lowest bit of [N + 1] nothing changes when it is counted. *)
Lemma above_lowest N l q L : 0 <= l < L -> N + 1 = q * 2 ^ l -> Z.even q = false -> N / 2 ^ L = (N + 1) / 2 ^ L.
Proof using Type.
  intros HL HC Hodd. pose proof (odd_half _ Hodd) as E. set (k := q / 2) in *.
  assert (H1 : (N + 1) / 2 ^ (l + 1) = k).
  { rewrite div_pow2_S, HC, Z.div_mul by (pose proof (pow2_pos l ltac:(lia)); lia). done. }
  pose proof (pow2_pos l ltac:(lia)). pose proof (pow2_S l ltac:(lia)).
  assert (H3 : N / 2 ^ (l + 1) = k). { symmetry. apply Z.div_unique with (2 ^ l - 1); nia. }
  replace L with ((l + 1) + (L - l - 1)) by lia. rewrite Z.pow_add_r, <- !Z.div_div by (lia || apply pow2_pos; lia). congruence.
Qed.

Lemma below_lowest N l q L : 0 <= L < l -> N + 1 = q * 2 ^ l -> Z.even ((N + 1) / 2 ^ L) = true.
Proof using Type.
  intros HL ->. replace l with (L + 1 + (l - L - 1)) by lia. rewrite !Z.pow_add_r by lia.
  pose proof (pow2_pos L ltac:(lia)). replace (q * (2 ^ L * 2 ^ 1 * 2 ^ (l - L - 1))) with (2 * (q * 2 ^ (l - L - 1)) * 2 ^ L) by lia.
  rewrite Z.div_mul by lia. apply even_double.
Qed.

Lemma even_below C q l L : 0 <= l -> 0 <= L -> C = q * 2 ^ l -> Z.even q = false -> (exists k, C = 2 * k * 2 ^ L) -> L < l.
Proof using Type.
  intros Hl HL HC Hodd [k Hk]. apply Z.lt_nge. intros Hle. subst C. replace L with (l + (L - l)) in Hk by lia.
  rewrite Z.pow_add_r in Hk by lia. pose proof (pow2_pos l Hl).
  assert (q = 2 * (k * 2 ^ (L - l))) as -> by nia. by rewrite even_double in Hodd.
Qed.

Lemma mutated_next N l q : 0 <= N -> 0 <= l <= 31 -> N + 1 = q * 2 ^ l -> Z.even q = false ->
  ((exists L p, 0 <= L <= 31 /\ 0 <= p /\ (2 * p + 2) * 2 ^ L <= N /\ node L (2 * p) = node L (2 * p + 1)) \/
   (exists L, 0 <= L < l /\ node L ((N + 1) / 2 ^ L - 2) = node L ((N + 1) / 2 ^ L - 1))) <->
  (exists L p, 0 <= L <= 31 /\ 0 <= p /\ (2 * p + 2) * 2 ^ L <= N + 1 /\ node L (2 * p) = node L (2 * p + 1)).
Proof using Hn.
  intros HN Hl HC Hodd. split.
  - intros [(L & p & ? & ? & ? & Heq)|(L & HL & Heq)]; [exists L, p; split_and!; lia || done|].
    pose proof (below_lowest _ _ _ _ HL HC) as Hev. pose proof (even_half _ Hev) as E. set (k := (N + 1) / 2 ^ L / 2) in *.
    pose proof (pow2_pos L ltac:(lia)). pose proof (Z.mul_div_le (N + 1) (2 ^ L) ltac:(lia)).
    assert (Hk : 0 < k). { assert (0 < (N + 1) / 2 ^ L); [|lia]. apply Z.div_str_pos. rewrite HC. pose proof (pow2_pos l).
      assert (0 < q) by nia. split; [lia|]. pose proof (Z.pow_le_mono_r 2 L l). nia. }
    exists L, (k - 1). split_and!; [lia|lia|lia|lia|]. rewrite E in Heq.
    replace (2 * (k - 1)) with (2 * k - 2) by lia. rewrite Heq. f_equal. lia.
  - intros (L & p & HL & Hp & Hle & Heq). destruct (decide ((2 * p + 2) * 2 ^ L = N + 1)) as [E|].
    + right. exists L. pose proof (even_below (N + 1) q l L ltac:(lia) ltac:(lia) HC Hodd ltac:(exists (p + 1); lia)).
      split; [lia|]. rewrite <- E, Z.div_mul by (pose proof (pow2_pos L); lia).
      replace (2 * p + 2 - 2) with (2 * p) by lia. rewrite Heq. f_equal. lia.
    + left. exists L, p. split_and!; lia || done.
Qed.

(** One leaf. *)
Lemma take_leaf N pos st : 0 <= N < n -> 0 <= pos -> taken N pos st ->
  exists st' l' h' mh', absorb H2 32 st (N + 1) 0 (node 0 N) (N =? pos) = (st', l', h', mh') /\
    taken (N + 1) pos {| inner := <[Z.to_nat l' := h']> (inner st'); matchlevel := if mh' then l' else matchlevel st';
                         branch := branch st'; mutated := mutated st' |}.
Proof using Hn.
  intros HN Hpos [Hin Hm Hmut].
  assert (Hc : carrying N (N + 1) (N + 1) pos 0 (N + 1) st (node 0 N) (N =? pos)).
  { constructor; try done; try lia; [change (2 ^ 0) with 1; rewrite Z.div_1_r; lia|rewrite width_0; lia|f_equal; lia|].
    unfold matching in *. destruct (Z.eqb_spec N pos) as [->|].
    - change (2 ^ 0) with 1. rewrite Z.div_1_r. split; [lia|]. destruct Hm as [(? & ? & ->)|(? & ? & ? & ?)]; [split; [done|lia]|lia].
    - destruct Hm as [(? & ? & ?)|?]; [left; split_and!; lia || done|right; done]. }
  destruct (absorb_run _ _ _ _ 32 Hpos _ _ _ _ _ Hc ltac:(lia)) as (st' & l & q & h & mh & -> & _ & Hc' & Hodd & Hmut').
  exists st', l, h, mh. split; [done|]. destruct Hc' as [Hin' HC Hl Hs Hp Hq -> Hm'].
  constructor; simpl.
  - destruct Hin' as [Hlen Hin']. split; [by rewrite length_insert|]. intros L HL Ho. unfold inner_at. rewrite nth_lookup.
    destruct (Z.lt_total L l) as [?|[->|?]].
    + by rewrite (below_lowest N l q L) in Ho by lia.
    + rewrite list_lookup_insert_eq by lia. simpl. rewrite HC, Z.div_mul by (pose proof (pow2_pos l); lia). done.
    + rewrite list_lookup_insert_ne by lia. rewrite <- nth_lookup. rewrite <- (above_lowest N l q) in * by (lia || done).
      rewrite <- Hin' by done. done.
  - unfold matching in *. destruct mh.
    + right. destruct Hm' as (Hpq & Hbr & ?). rewrite HC, Z.div_mul by (pose proof (pow2_pos l); lia). split_and!; lia || done.
    + destruct Hm' as [?|(Hml & Ho & Hpq & Hbr & ?)]; [left; done|right].
      assert (matchlevel st' <> l). { intros E. rewrite E, Hp, (odd_half q Hodd), Z.add_simpl_r, even_double in Ho. done. }
      rewrite <- (above_lowest N l q) by (lia || done). split_and!; lia || done.
  - rewrite Hmut', Hmut. apply (mutated_next N l q); lia || done.
Qed.

Lemma take_leaves_run pos rest : 0 <= pos -> forall N st, 0 <= N -> drop (Z.to_nat N) leaves = rest -> taken N pos st ->
  exists st', take_leaves H2 rest st N pos = (st', N + zlen rest) /\ taken (N + zlen rest) pos st'.
Proof using Hn.
  intros Hpos. induction rest as [|h rest IH]; intros N st HN Hd Ht.
  { exists st. unfold zlen. simpl. rewrite Z.add_0_r. done. }
  assert (Hlt : N < n). { apply (f_equal length) in Hd. rewrite length_drop in Hd. simpl in Hd. unfold zlen. lia. }
  assert (Hh : h = node 0 N).
  { rewrite node_0, <- (take_drop (Z.to_nat N) leaves), Hd, app_nth2 by (rewrite length_take; lia).
    rewrite length_take, Nat.min_l by (unfold zlen in Hlt; lia). by rewrite Nat.sub_diag. }
  subst h.
  destruct (take_leaf N pos st ltac:(lia) Hpos Ht) as (st' & l & h' & mh & Hrun & Ht').
  cbn [take_leaves]. unfold u32. rewrite Z.mod_small, Hrun by lia.
  edestruct (IH (N + 1)) as (st'' & Hrun' & Ht''); [lia| |exact Ht'|].
  { replace (Z.to_nat (N + 1)) with (Z.to_nat N + 1)%nat by lia. rewrite <- drop_drop, Hd. done. }
  assert (E : N + zlen (node 0 N :: rest) = N + 1 + zlen rest) by (unfold zlen; simpl length; lia).
  exists st''. rewrite E. done.
Qed.

(** The state at the head of the sweep. *)
Record swept (pos l : Z) (st : merkle_state) (h : bytes) (mh : bool) : Prop := {
  sw_inner : inner_ok n (inner st); sw_level : 0 <= l <= 31; sw_least : 2 ^ l < 2 * n;
  sw_odd : Z.even (width n l) = false; sw_h : h = node l (width n l - 1);
  sw_match : matching n n pos (l + 1) l (width n l) (matchlevel st) (branch st) mh }.

(** An odd level that is not the top: its last node is paired with itself. *)
Lemma sweep_pair pos l st h mh : 0 <= pos -> swept pos l st h mh -> width n l <> 1 ->
  carrying n ((width n l + 1) * 2 ^ l) n pos (l + 1) (width n (l + 1))
    {| inner := inner st; matchlevel := matchlevel st; branch := if mh then branch st ++ [h] else branch st; mutated := mutated st |} (H2 h h) mh.
Proof using Hn.
  intros Hpos [Hin Hl Hlt Hodd -> Hm] Hw. pose proof (odd_half _ Hodd) as E. pose proof (width_pos n l ltac:(lia) ltac:(lia)).
  pose proof (pow2_pos l ltac:(lia)) as Hpw. pose proof (width_bounds n l ltac:(lia)) as Hb. pose proof (width_floor n l ltac:(lia)) as Hf.
  set (w := width n l) in *. set (k := w / 2) in *. assert (Hk : 1 <= k) by lia.
  assert (Hl31 : l < 31). { destruct (decide (l = 31)) as [->|]; [nia|lia]. }
  assert (HwS : width n (l + 1) = k + 1). { rewrite width_S by lia. fold w. rewrite E. replace (2 * k + 1 + 1) with ((k + 1) * 2) by lia. apply Z.div_mul. lia. }
  assert (Hs : (w + 1) * 2 ^ l <= 2 ^ 31).
  { replace 31 with (l + (30 - l) + 1) in Hn |- * by lia. rewrite !Z.pow_add_r in Hn |- * by lia. change (2 ^ 1) with 2 in *.
    set (b := 2 ^ (30 - l)) in *. assert (w - 1 < 2 * b) by nia. assert (w + 1 <= 2 * b) by lia. nia. }
  constructor; simpl; try done; try lia.
  - rewrite HwS, pow2_S by lia. nia.
  - rewrite HwS, div_pow2_S by lia. rewrite Z.add_simpl_r. symmetry. apply Z.div_unique with (n / 2 ^ l - 2 * k); lia.
  - rewrite HwS, node_last by (fold w; lia). f_equal; f_equal; lia.
  - unfold matching in *. destruct mh; [|done]. destruct Hm as (Hpq & Hbr & ?). rewrite siblings_S, Hbr, HwS, div_pow2_S, Hpq by lia. split_and!; [| |done].
    + rewrite E, !Z.add_simpl_r, Z.mul_comm, Z.div_mul; lia.
    + f_equal. f_equal. unfold sibling. rewrite Hpq. fold w. rewrite (proj2 (Z.ltb_ge _ w)) by lia. rewrite E, Z.add_simpl_r, even_double. done.
Qed.

Lemma sweep_run pos fuel : 0 <= pos -> forall l st h mh, swept pos l st h mh -> 32 - l <= Z.of_nat fuel ->
  exists st' l' h' mh', sweep H2 fuel st (width n l * 2 ^ l) l h mh = (st', h') /\
    swept pos l' st' h' mh' /\ width n l' = 1 /\ mutated st' = mutated st.
Proof using Hn.
  intros Hpos. induction fuel as [|fuel IH]; intros l st h mh Hs Hf; pose proof (sw_level _ _ _ _ _ Hs) as Hl; [lia|].
  pose proof (pow2_le_31 l Hl) as Hpw. cbn [sweep]. rewrite Z.shiftl_1_l. unfold u32. rewrite (Z.mod_small (2 ^ l)) by lia.
  destruct (Z.eqb_spec (width n l * 2 ^ l) (2 ^ l)) as [E|E].
  { exists st, l, h, mh. split_and!; try done. nia. }
  assert (Hw : width n l <> 1) by nia. pose proof (sweep_pair _ _ _ _ _ Hpos Hs Hw) as Hc.
  destruct (absorb_run _ _ _ _ 32 Hpos _ _ _ _ _ Hc) as (st' & l' & q' & h' & mh' & Hrun & Hle & Hc' & Hodd & _); [lia|].
  pose proof (propagate_absorb 32 ((width n l + 1) * 2 ^ l) (mutated st) {| inner := inner st; matchlevel := matchlevel st; branch := if mh then branch st ++ [h] else branch st; mutated := mutated st |} (l + 1) (H2 h h) mh) as Hpr.
  rewrite Hrun in Hpr. unfold with_mutated at 1 in Hpr. simpl inner in Hpr. simpl matchlevel in Hpr. simpl branch in Hpr.
  replace ((width n l * 2 ^ l + 2 ^ l) mod 2 ^ 32) with ((width n l + 1) * 2 ^ l); cycle 1.
  { pose proof (cy_small _ _ _ _ _ _ _ _ _ Hc). pose proof (width_pos n l ltac:(lia) ltac:(lia)). rewrite Z.mod_small by nia. lia. }
  rewrite Hpr. destruct Hc' as [Hin HC Hl' Hsm Hp Hq -> Hm]. pose proof (pow2_pos l' ltac:(lia)).
  assert (Hq' : q' = width n l').
  { pose proof (width_bounds n l' ltac:(lia)). pose proof (width_bounds n l ltac:(lia)). nia. }
  subst q'. edestruct (IH l' (with_mutated (mutated st) st')) as (st2 & l2 & h2 & mh2 & Hrun2 & Hs2 & ? & ?); [|lia|].
  2: { exists st2, l2, h2, mh2. rewrite HC, Hrun2. done. }
  constructor; simpl; try done.
  - destruct Hs as [_ _ Hlt Ho _ _]. pose proof (odd_half _ Ho). pose proof (width_bounds n l ltac:(lia)). pose proof (width_pos n l ltac:(lia) ltac:(lia)).
    assert (3 <= width n l) by lia. assert (2 ^ l' <= (width n l + 1) * 2 ^ l) by nia.
    assert ((width n l + 1) * 2 ^ l <= 2 * ((width n l - 1) * 2 ^ l)) by nia. lia.
  - unfold matching in *. destruct mh'; [done|]. destruct Hm as [?|(Hml & Ho & ?)]; [left; done|right]. split; [|done].
    assert (matchlevel st' <> l'); [|lia]. intros Eq. rewrite Eq, Hp, (odd_half _ Hodd), Z.add_simpl_r, even_double in Ho. done.
Qed.

Lemma lowest_level_run fuel : forall l q, n = q * 2 ^ l -> 0 <= l <= 31 -> 32 - l <= Z.of_nat fuel ->
  exists l' q', lowest_level fuel n l = l' /\ n = q' * 2 ^ l' /\ Z.even q' = false /\ 0 <= l' <= 31.
Proof using Hn.
  induction fuel as [|fuel IH]; intros l q Hq Hl Hf; [lia|]. pose proof (pow2_pos l ltac:(lia)). cbn [lowest_level].
  rewrite bit_clear_even by done. replace (n / 2 ^ l) with q by (rewrite Hq, Z.div_mul; lia). destruct (Z.even q) eqn:Ev; [|eauto 10].
  pose proof (even_half _ Ev). apply (IH (l + 1) (q / 2)); [rewrite pow2_S; lia| |lia].
  destruct (decide (l = 31)) as [->|]; [nia|lia].
Qed.

Lemma width_top l : 0 <= l -> width n l = 1 <-> n <= 2 ^ l.
Proof using Hn. intros Hl. pose proof (width_bounds n l Hl). pose proof (pow2_pos l Hl). pose proof (width_pos n l Hl ltac:(lia)). split; nia. Qed.

Lemma tree_height_run l fuel : 0 <= l <= 31 -> 2 ^ l < 2 * n -> width n l = 1 ->
  forall k, 0 <= k <= l -> l - k < Z.of_nat fuel -> tree_height fuel n k = Z.to_nat l.
Proof using Hn.
  intros Hl Hlt Hw. induction fuel as [|fuel IH]; intros k Hk Hf; [lia|]. cbn [tree_height].
  rewrite CalcTreeWidth_width by lia. destruct (Z.ltb_spec 1 (width n k)) as [H1|H1].
  - apply IH; [|lia]. destruct (decide (k = l)) as [->|Hne]; [lia|]. lia.
  - f_equal. destruct (decide (k = l)) as [->|Hne]; [done|]. assert (Hk1 : width n k = 1) by (pose proof (width_pos n k); lia).
    apply width_top in Hk1; [|lia]. pose proof (Z.pow_le_mono_r 2 (k + 1) l ltac:(lia) ltac:(lia)). rewrite pow2_S in *; lia.
Qed.

(** The height of the tree. *)
Definition top : Z := Z.of_nat (tree_height 32 n 0).

(** The constant-space computation: the root by the recursive definition, the pairs of
    equal nodes, and the siblings of the position. *)
Lemma MerkleComputation_spec pos : 0 <= pos -> exists m,
  MerkleComputation H2 leaves pos = (node top 0, m, if pos <? n then siblings pos top else []) /\
  0 <= top <= 31 /\ width n top = 1 /\ 2 ^ top < 2 * n /\
  (m = true <-> exists L p, 0 <= L <= 31 /\ 0 <= p /\ (2 * p + 2) * 2 ^ L <= n /\ node L (2 * p) = node L (2 * p + 1)).
Proof using Hn.
  intros Hpos.
  assert (Ht0 : taken 0 pos {| inner := replicate 32 uint256_zero; matchlevel := -1; branch := []; mutated := false |}).
  { constructor; simpl; [split; [done|]| |].
    - intros L HL Ho. rewrite Z.div_0_l in Ho by (pose proof (pow2_pos L); lia). done.
    - left. done.
    - split; [done|]. intros (L & p & ? & ? & ? & _). pose proof (pow2_pos L). nia. }
  destruct (take_leaves_run pos leaves Hpos 0 _ ltac:(lia) eq_refl Ht0) as (st & Hrun & [Hin Hm Hmut]). rewrite Z.add_0_l in *.
  destruct (lowest_level_run 32 0 n ltac:(lia) ltac:(lia) ltac:(lia)) as (l & q & Hlow & Hq & Hodd & Hl).
  pose proof (pow2_pos l ltac:(lia)). assert (Hd : n / 2 ^ l = q) by (rewrite Hq, Z.div_mul; lia).
  assert (Hw : width n l = q). { pose proof (width_bounds n l ltac:(lia)). nia. }
  assert (Hs : swept pos l st (inner_at (inner st) l) (matchlevel st =? l)).
  { constructor; try done; try lia; [assert (0 < q) by nia; nia|by rewrite Hw|rewrite (proj2 Hin), Hd, Hw by (done || by rewrite Hd); done|].
    rewrite Hw. unfold matching in *. destruct (Z.eqb_spec (matchlevel st) l) as [El|]; destruct Hm as [(? & ? & ?)|(? & Ho & Hpq & ?)].
    - lia.
    - rewrite El in *. rewrite Hd in Hpq. done.
    - left. done.
    - right. split; [|done]. pose proof (Z.lt_total (matchlevel st) l) as [Hlt|[?|?]]; [|done|lia].
      rewrite Hq in Ho. replace l with (matchlevel st + 1 + (l - matchlevel st - 1)) in Ho by lia. rewrite !Z.pow_add_r in Ho by lia.
      replace (q * _) with (2 * (q * 2 ^ (l - matchlevel st - 1)) * 2 ^ matchlevel st) in Ho by lia.
      rewrite Z.div_mul, even_double in Ho by (pose proof (pow2_pos (matchlevel st)); lia). done. }
  destruct (sweep_run pos 32 Hpos _ _ _ _ Hs ltac:(lia)) as (st' & l' & h' & mh' & Hrun' & Hs' & Hw' & Hmut').
  destruct Hs' as [_ Hl' Hlt' _ -> Hm']. rewrite Hw' in Hm'.
  assert (Htop : top = l') by (unfold top; rewrite (tree_height_run l') by lia; lia).
  assert (Hbr : branch st' = if pos <? n then siblings pos l' else []).
  { unfold matching in Hm'. pose proof (proj1 (width_top l' ltac:(lia)) Hw'). destruct (Z.ltb_spec pos n), mh'.
    - apply Hm'.
    - destruct Hm' as [(? & _)|(? & Ho & _)]; [lia|]. rewrite Z.div_small in Ho; [done|].
      pose proof (Z.pow_lt_mono_r 2 l' (matchlevel st')). lia.
    - destruct Hm' as (_ & _ & ?). lia.
    - destruct Hm' as [(_ & _ & ?)|(_ & _ & _ & _ & ?)]; [done|lia]. }
  exists (mutated st'). rewrite Htop, Hmut'. split_and!; try done; try lia.
  unfold MerkleComputation. rewrite Hrun, Hlow. replace (width n l * 2 ^ l) with n in Hrun' by lia.
  rewrite Hrun', Hw', Hbr, Hmut'. clear - Hn. destruct leaves; [unfold zlen in Hn; simpl in Hn; lia|done].
Qed.
End Nodes.

(** ** A root binds its leaves *)

(** Two of these inputs that differ have the same hash. *)
Definition collision (l : list bytes) : Prop := exists x y, x ∈ l /\ y ∈ l /\ x <> y /\ Hash x = Hash y.

Lemma collision_dec l : Decision (collision l).
Proof.
  destruct (decide (Exists (fun x => Exists (fun y => x <> y /\ Hash x = Hash y) l) l)) as [H|H]; [left|right].
  - apply List.Exists_exists in H as (x & Hx & (y & Hy & Hne & Hh)%List.Exists_exists). exists x, y. rewrite !list_elem_of_In. done.
  - intros (x & y & Hx%list_elem_of_In & Hy%list_elem_of_In & Hne & Hh). apply H, List.Exists_exists. exists x. split; [done|]. apply List.Exists_exists. by exists y.
Qed.

Lemma collision_subseteq l k : l ⊆ k -> collision l -> collision k.
Proof. intros Hs (x & y & Hx & Hy & H). exists x, y. split; [by apply Hs|]. split; [by apply Hs|done]. Qed.

Lemma Hash2_Hash a b : Hash2 a b = Hash (a ++ b).
Proof. unfold Hash2, Hash. rewrite !Hash_ranges_ref. cbn [concat]. by rewrite !app_nil_r. Qed.

(** Without a collision a hash of a pair determines the pair. *)
Lemma Hash2_binds l a b c d : ~ collision l -> a ++ b ∈ l -> c ++ d ∈ l -> length a = length c -> Hash2 a b = Hash2 c d -> a = c /\ b = d.
Proof.
  intros Hn Ha Hc Hl E. rewrite !Hash2_Hash in E. destruct (decide (a ++ b = c ++ d)) as [Heq|Hne]; [by apply app_inj_1 in Heq|].
  destruct Hn. by exists (a ++ b), (c ++ d).
Qed.

(** The second of the pair whose hash is the node above. *)
Definition right_node (leaves : list bytes) (l p : Z) : bytes :=
  if 2 * p + 1 <? width (zlen leaves) l then node Hash2 leaves l (2 * p + 1) else node Hash2 leaves l (2 * p).

(** What is hashed for the root of a tree: each node below it, with its neighbour. *)
Definition hashed (leaves : list bytes) : list bytes :=
  l ← seqZ 0 (top leaves); p ← seqZ 0 (width (zlen leaves) (l + 1)); [node Hash2 leaves l (2 * p) ++ right_node leaves l p].

Lemma hashed_at leaves l p : 0 <= l < top leaves -> 0 <= p < width (zlen leaves) (l + 1) ->
  node Hash2 leaves l (2 * p) ++ right_node leaves l p ∈ hashed leaves.
Proof.
  intros Hl Hp. apply list_elem_of_bind. exists l. split; [|apply elem_of_seqZ; lia]. apply list_elem_of_bind. exists p.
  split; [by apply list_elem_of_singleton|apply elem_of_seqZ; lia].
Qed.

Lemma node_length leaves l p : Forall (fun h => length h = 32%nat) leaves -> 0 < zlen leaves <= 2 ^ 31 -> 0 <= l <= 32 -> length (node Hash2 leaves l p) = 32%nat.
Proof.
  intros Hf Hn Hl. destruct (decide (l = 0)) as [->|Hne].
  - rewrite node_0. destruct (nth_in_or_default (Z.to_nat p) leaves uint256_zero) as [Hin| ->]; [|done]. rewrite List.Forall_forall in Hf. by apply Hf.
  - replace l with (l - 1 + 1) by lia. rewrite node_S by lia. apply Hash2_length.
Qed.

Section Binding.
Context (inputs : list bytes) (Hno : ~ collision inputs).

(** Leaves that are hashes, whose tree hashes nothing but these inputs. *)
Record admissible (leaves : list bytes) : Prop := {
  ad_32 : Forall (fun h => length h = 32%nat) leaves;
  ad_size : 0 < zlen leaves <= 2 ^ 31;
  ad_hashed : hashed leaves ⊆ inputs }.

Lemma below_top leaves l : 0 < zlen leaves <= 2 ^ 31 -> 0 <= l -> 1 < width (zlen leaves) l -> l < top leaves.
Proof.
  intros Hn Hl Hw. destruct (MerkleComputation_spec Hash2 leaves Hn 0 ltac:(lia)) as (_ & _ & Ht & H1 & _).
  apply Z.lt_nge. intros Hge. apply width_top in H1; [|done|lia]. pose proof (Z.pow_le_mono_r 2 (top leaves) l).
  rewrite (proj2 (width_top leaves Hn l Hl)) in Hw by lia. lia.
Qed.

Lemma top_31 leaves : 0 < zlen leaves <= 2 ^ 31 -> top leaves <= 31.
Proof. intros Hn. by destruct (MerkleComputation_spec Hash2 leaves Hn 0 ltac:(lia)) as (_ & _ & (_ & Ht) & _). Qed.

(** Equal nodes above have equal children. *)
Lemma nodes_bind la lb l p q : admissible la -> admissible lb -> 0 <= l < top la -> l < top lb ->
  0 <= p < width (zlen la) (l + 1) -> 0 <= q < width (zlen lb) (l + 1) -> node Hash2 la (l + 1) p = node Hash2 lb (l + 1) q ->
  node Hash2 la l (2 * p) = node Hash2 lb l (2 * q) /\ right_node la l p = right_node lb l q.
Proof using Hno.
  intros [Fa Ha Sa] [Fb Hb Sb] Hl Hlb Hp Hq E. pose proof (top_31 la Ha). rewrite !node_S in E by lia.
  apply (Hash2_binds inputs) in E; [done|done|by apply Sa, hashed_at|apply Sb, hashed_at; lia|]. rewrite !node_length; done || lia.
Qed.

Lemma right_pair leaves l p : 2 * p + 1 < width (zlen leaves) l -> right_node leaves l p = node Hash2 leaves l (2 * p + 1).
Proof using Type. intros H. unfold right_node. by rewrite (proj2 (Z.ltb_lt _ _)). Qed.
Lemma right_last leaves l p : width (zlen leaves) l <= 2 * p + 1 -> right_node leaves l p = node Hash2 leaves l (2 * p).
Proof using Type. intros H. unfold right_node. by rewrite (proj2 (Z.ltb_ge _ _)). Qed.

(** Two complete neighbours are equal: what [mutated] reports. *)
Definition equal_pair (leaves : list bytes) : Prop :=
  exists L p, 0 <= L <= 31 /\ 0 <= p /\ (2 * p + 2) * 2 ^ L <= zlen leaves /\ node Hash2 leaves L (2 * p) = node Hash2 leaves L (2 * p + 1).

(** A node padded by repetition that equals a complete one shows such a pair. *)
Lemma padded_equal leaves l p q : admissible leaves -> 0 <= l -> l <= 31 -> 0 <= q ->
  (q + 1) * 2 ^ l <= zlen leaves -> p < width (zlen leaves) l -> zlen leaves < (p + 1) * 2 ^ l ->
  node Hash2 leaves l p = node Hash2 leaves l q -> equal_pair leaves.
Proof using Hno.
  intros Had Hl. pose proof (ad_size _ Had) as Hn. revert p q. pattern l. apply natlike_ind; [|clear l Hl; intros l Hl IH p q H31 Hq Hc Hw Hi Heq|done].
  { intros p q _ Hq Hc Hw Hi. rewrite width_0 in Hw. lia. }
  replace (Z.succ l) with (l + 1) in * by lia. pose proof (width_bounds (zlen leaves) (l + 1) ltac:(lia)) as HB.
  rewrite pow2_S in * by lia. pose proof (pow2_pos l Hl). pose proof (width_bounds (zlen leaves) l Hl).
  assert (Hpq : q < p) by nia. assert (Hw2 : 1 < width (zlen leaves) l).
  { rewrite width_S in Hw by done. pose proof (Z.mul_div_le (width (zlen leaves) l + 1) 2). lia. }
  pose proof (below_top leaves l Hn Hl Hw2) as Ht.
  destruct (nodes_bind leaves leaves l p q Had Had ltac:(lia) Ht ltac:(lia) ltac:(lia) Heq) as [E1 E2].
  rewrite (right_pair _ l q) in E2 by nia. destruct (Z.lt_ge_cases (2 * p + 1) (width (zlen leaves) l)).
  - rewrite right_pair in E2 by lia. eapply (IH (2 * p + 1) (2 * q + 1)); lia || done.
  - rewrite right_last in E2 by lia. exists l, q. split_and!; [lia|lia|lia|nia|congruence].
Qed.

(** So two trees of which one is padded where the other is not differ there. *)
Lemma padding_shows la lb l w : admissible la -> admissible lb -> 0 <= l < top la -> l < top lb -> 0 < w ->
  width (zlen la) l = 2 * w - 1 -> width (zlen lb) l = 2 * w ->
  node Hash2 la (l + 1) (w - 1) = node Hash2 lb (l + 1) (w - 1) -> equal_pair lb.
Proof using Hno.
  intros Ha Hb Hl Hlb Hw Hwa Hwb Heq. pose proof (top_31 lb (ad_size _ Hb)).
  assert (Ew : forall x, x = 2 * w - 1 \/ x = 2 * w -> (x + 1) / 2 = w).
  { intros x Hx. pose proof (Z_div_mod_eq_full (x + 1) 2). pose proof (Z.mod_pos_bound (x + 1) 2). lia. }
  destruct (nodes_bind la lb l (w - 1) (w - 1) Ha Hb Hl Hlb) as [E1 E2]; [rewrite width_S, Ew by lia; lia|rewrite width_S, Ew by lia; lia|done|].
  rewrite right_last in E2 by lia. rewrite right_pair in E2 by lia.
  pose proof (width_bounds (zlen lb) l ltac:(lia)) as B. rewrite Hwb in B. pose proof (pow2_pos l ltac:(lia)).
  assert (E : node Hash2 lb l (2 * (w - 1)) = node Hash2 lb l (2 * (w - 1) + 1)) by congruence.
  destruct (Z.le_gt_cases ((2 * (w - 1) + 2) * 2 ^ l) (zlen lb)).
  - exists l, (w - 1). split_and!; lia || done.
  - apply (padded_equal lb l (2 * (w - 1) + 1) (2 * (w - 1))); lia || nia || done.
Qed.

Lemma same_below la lb l : admissible la -> admissible lb -> ~ equal_pair la -> ~ equal_pair lb -> 0 <= l < top la -> l < top lb ->
  width (zlen la) (l + 1) = width (zlen lb) (l + 1) ->
  (forall p, 0 <= p < width (zlen la) (l + 1) -> node Hash2 la (l + 1) p = node Hash2 lb (l + 1) p) ->
  width (zlen la) l = width (zlen lb) l /\ forall p, 0 <= p < width (zlen la) l -> node Hash2 la l p = node Hash2 lb l p.
Proof using Hno.
  intros Ha Hb Hma Hmb Hl Hlb Hw Heq. pose proof (ad_size _ Ha). pose proof (ad_size _ Hb).
  pose proof (width_pos (zlen la) l ltac:(lia) ltac:(lia)). pose proof (width_pos (zlen lb) l ltac:(lia) ltac:(lia)).
  assert (Hbind : forall p, 0 <= p < width (zlen la) (l + 1) -> node Hash2 la l (2 * p) = node Hash2 lb l (2 * p) /\ right_node la l p = right_node lb l p).
  { intros p Hp. apply nodes_bind; try done; [congruence|by apply Heq]. }
  rewrite !width_S in * by lia. set (w := (width (zlen la) l + 1) / 2) in *.
  assert (Ha2 : width (zlen la) l = 2 * w - 1 \/ width (zlen la) l = 2 * w).
  { pose proof (Z_div_mod_eq_full (width (zlen la) l + 1) 2). pose proof (Z.mod_pos_bound (width (zlen la) l + 1) 2). lia. }
  assert (Hb2 : width (zlen lb) l = 2 * w - 1 \/ width (zlen lb) l = 2 * w).
  { pose proof (Z_div_mod_eq_full (width (zlen lb) l + 1) 2). pose proof (Z.mod_pos_bound (width (zlen lb) l + 1) 2). lia. }
  assert (Hww : width (zlen la) l = width (zlen lb) l).
  { pose proof (Heq (w - 1) ltac:(lia)) as El.
    destruct Ha2 as [E1|E1], Hb2 as [E2|E2]; try lia; exfalso; [apply Hmb, (padding_shows la lb l w)|apply Hma, (padding_shows lb la l w)]; lia || done. }
  split; [done|]. intros p Hp. destruct (Z.even p) eqn:Ev; [pose proof (even_half p Ev) as Eh|pose proof (odd_half p Ev) as Eh];
    destruct (Hbind (p / 2) ltac:(lia)) as [E1 E2].
  - by rewrite <- Eh in E1.
  - rewrite !right_pair, <- Eh in E2 by lia. done.
Qed.

Lemma same_leaves la lb : admissible la -> admissible lb -> ~ equal_pair la -> ~ equal_pair lb ->
  top la = top lb -> node Hash2 la (top la) 0 = node Hash2 lb (top lb) 0 -> la = lb.
Proof using Hno.
  intros Ha Hb Hma Hmb Ht Hr. pose proof (ad_size _ Ha) as Na. pose proof (ad_size _ Hb) as Nb.
  destruct (MerkleComputation_spec Hash2 la Na 0 ltac:(lia)) as (_ & _ & Hl & Hwa & _ & _).
  destruct (MerkleComputation_spec Hash2 lb Nb 0 ltac:(lia)) as (_ & _ & _ & Hwb & _ & _). rewrite <- Ht in Hwb, Hr.
  assert (Hall : forall k, 0 <= k -> k <= top la -> width (zlen la) (top la - k) = width (zlen lb) (top la - k) /\
    forall p, 0 <= p < width (zlen la) (top la - k) -> node Hash2 la (top la - k) p = node Hash2 lb (top la - k) p).
  { apply (natlike_ind (fun k => k <= top la -> _)).
    - intros _. rewrite Z.sub_0_r. split; [congruence|]. intros p Hp. assert (p = 0) as -> by lia. done.
    - intros k Hk IH Hle. destruct (IH ltac:(lia)) as [IH1 IH2].
      replace (top la - k) with (top la - Z.succ k + 1) in IH1, IH2 by lia. apply same_below; done || lia. }
  destruct (Hall (top la)) as [Hlen Heq]; [lia|lia|]. rewrite Z.sub_diag, !width_0 in *. unfold zlen in Hlen, Heq, Na, Nb.
  apply (nth_ext _ _ uint256_zero uint256_zero); [lia|]. intros i Hi. specialize (Heq (Z.of_nat i) ltac:(lia)).
  rewrite !node_0, Nat2Z.id in Heq. done.
Qed.
End Binding.

(** ** Theorems *)

(** The constant-space computation of a Merkle root gives the root of the recursive
    definition (pairs of nodes hashed level by level, the last node of an odd level paired
    with itself), and reports [mutated] exactly when two complete neighbouring subtrees
    have the same hash. *)
Theorem ComputeMerkleRoot_recursive H2 leaves : 0 < zlen leaves <= 2 ^ 31 ->
  let n := zlen leaves in
  exists m, ComputeMerkleRoot H2 leaves = (CalcHash H2 n (tree_height 32 n 0) 0 leaves, m) /\
    (m = true <-> exists height pos, 0 <= pos /\ (2 * pos + 2) * 2 ^ Z.of_nat height <= n /\
                    CalcHash H2 n height (2 * pos) leaves = CalcHash H2 n height (2 * pos + 1) leaves).
Proof.
  intros Hn n. destruct (MerkleComputation_spec H2 leaves Hn (2 ^ 32 - 1) ltac:(lia)) as (m & HM & Ht & _ & _ & Hm).
  exists m. split; [unfold ComputeMerkleRoot; rewrite HM; unfold node, top; by rewrite Nat2Z.id|]. rewrite Hm. split.
  - intros (L & p & HL & Hp & Hle & Heq). exists (Z.to_nat L), p. rewrite Z2Nat.id by lia. done.
  - intros (h & p & Hp & Hle & Heq). exists (Z.of_nat h), p. unfold node. rewrite Nat2Z.id. split_and!; try done; try lia.
    apply Z.lt_succ_r, Z.lt_nge. intros Hge. pose proof (Z.pow_le_mono_r 2 32 (Z.of_nat h) ltac:(lia) ltac:(lia)). nia.
Qed.

(** The branch computed for a leaf leads from the leaf back to the root. *)
Theorem MerkleBranch_roundtrip H2 leaves pos : 0 <= pos < zlen leaves -> zlen leaves <= 2 ^ 31 ->
  ComputeMerkleRootFromBranch H2 (nth (Z.to_nat pos) leaves uint256_zero) (ComputeMerkleBranch H2 leaves pos) pos =
  fst (ComputeMerkleRoot H2 leaves).
Proof.
  intros Hp Hle. assert (Hn : 0 < zlen leaves <= 2 ^ 31) by lia.
  destruct (MerkleComputation_spec H2 leaves Hn pos ltac:(lia)) as (m & HM & Ht & Hw & _ & _).
  destruct (MerkleComputation_spec H2 leaves Hn (2 ^ 32 - 1) ltac:(lia)) as (m' & HM' & _).
  unfold ComputeMerkleRoot, ComputeMerkleBranch. rewrite HM, HM', (proj2 (Z.ltb_lt _ _)) by lia. simpl.
  pose proof (FromBranch_siblings H2 leaves Hn pos 0 (top leaves) ltac:(lia) ltac:(lia) ltac:(lia) ltac:(lia)) as HB.
  rewrite Z.add_0_l, Z.pow_0_r, Z.div_1_r, node_0 in HB. unfold siblings. rewrite HB. f_equal.
  apply width_top in Hw; [|done|lia]. apply Z.div_small. lia.
Qed.

(** C25: Two lists of transaction ids of the same height with the same root, neither
    reported as mutated, are the same list, or two different inputs among those that are
    hashed for the two trees have the same double SHA-256 hash: without such a collision no
    transaction of a block can be changed, dropped, repeated or reordered without changing
    its root. *)
Theorem merkle_root_binds la lb root :
  Forall (fun h => length h = 32%nat) la -> Forall (fun h => length h = 32%nat) lb ->
  0 < zlen la <= 2 ^ 31 -> 0 < zlen lb <= 2 ^ 31 ->
  tree_height 32 (zlen la) 0 = tree_height 32 (zlen lb) 0 ->
  ComputeMerkleRoot Hash2 la = (root, false) -> ComputeMerkleRoot Hash2 lb = (root, false) ->
  la = lb \/ collision (hashed la ++ hashed lb).
Proof.
  intros Fa Fb Ha Hb Hh Hra Hrb. destruct (collision_dec (hashed la ++ hashed lb)) as [|Hno]; [by right|left]. unfold ComputeMerkleRoot in *.
  destruct (MerkleComputation_spec Hash2 la Ha (2 ^ 32 - 1) ltac:(lia)) as (ma & HMa & _ & _ & _ & Hma).
  destruct (MerkleComputation_spec Hash2 lb Hb (2 ^ 32 - 1) ltac:(lia)) as (mb & HMb & _ & _ & _ & Hmb).
  rewrite HMa in Hra. rewrite HMb in Hrb. cbn [fst] in Hra, Hrb.
  apply pair_equal_spec in Hra as [Hra ->], Hrb as [Hrb ->]. apply (same_leaves _ Hno).
  - split; [done|done|by apply list_subseteq_app_l].
  - split; [done|done|by apply list_subseteq_app_r].
  - intros E. by apply Hma in E.
  - intros E. by apply Hmb in E.
  - unfold top. congruence.
  - congruence.
Qed.

(** ** Witnesses *)

Definition sample_leaves : list bytes := [[1]; [2]; [3]; [4]; [5]].
Definition pair_up (a b : bytes) : bytes := zlen a :: a ++ b.

Lemma ComputeMerkleRoot_recursive_witness : exists m,
  ComputeMerkleRoot pair_up sample_leaves = (CalcHash pair_up 5 3 0 sample_leaves, m).
Proof. destruct (ComputeMerkleRoot_recursive pair_up sample_leaves ltac:(vm_compute; split; congruence)) as (m & Hm & _). exists m. exact Hm. Defined.

Lemma MerkleBranch_roundtrip_witness :
  ComputeMerkleRootFromBranch pair_up [4] (ComputeMerkleBranch pair_up sample_leaves 3) 3 = fst (ComputeMerkleRoot pair_up sample_leaves).
Proof. exact (MerkleBranch_roundtrip pair_up sample_leaves 3 ltac:(vm_compute; split; congruence) ltac:(vm_compute; congruence)). Defined.

Definition sample_ids : list bytes := [replicate 32 1; replicate 32 2; replicate 32 3].

Lemma sample_ids_32 : Forall (fun h => length h = 32%nat) sample_ids.
Proof. do 3 (apply Forall_cons_2; [reflexivity|]). apply Forall_nil_2. Qed.

Lemma merkle_root_binds_witness : exists root, ComputeMerkleRoot Hash2 sample_ids = (root, false) /\
  (sample_ids = sample_ids \/ collision (hashed sample_ids ++ hashed sample_ids)).
Proof.
  assert (E : snd (ComputeMerkleRoot Hash2 sample_ids) = false) by (vm_compute; reflexivity).
  exists (fst (ComputeMerkleRoot Hash2 sample_ids)). assert (E' : ComputeMerkleRoot Hash2 sample_ids = (fst (ComputeMerkleRoot Hash2 sample_ids), false)).
  { rewrite <- E. apply surjective_pairing. }
  split; [exact E'|].
  eapply merkle_root_binds; [exact sample_ids_32|exact sample_ids_32|vm_compute; split; congruence|vm_compute; split; congruence|reflexivity|exact E'|exact E'].
Defined.

(** Nothing collides in that tree. *)
Example sample_hashed : length (hashed sample_ids) = 3%nat /\ NoDup (map Hash (hashed sample_ids)).
Proof. split; [vm_compute; reflexivity|]. apply (bool_decide_unpack _). vm_compute. exact I. Qed.
