(* ===== verification/PartialMerkle.v ===== *)
(** Partial Merkle trees: what is built from a block's transaction ids and a choice of
    them survives the wire and extracts to the root and the chosen ids, and an extraction
    that ends in a block's root yields ids of that block only. *)

From Stdlib Require Import ZArith Lia.
From stdpp Require Import base tactics list numbers.
From S2P Require Import Prelude ArithUint256 Hash Serialize Transaction Block TxVerify Merkle MerkleFacts.

(** ** The leaves under a node *)

Section Segments.
Context {A : Type}.

Definition segment (h : nat) (pos : Z) (l : list A) : list A := take (2 ^ h) (drop (Z.to_nat pos * 2 ^ h) l).

Lemma segment_S h pos (l : list A) : 0 <= pos -> segment (S h) pos l = segment h (pos * 2) l ++ segment h (pos * 2 + 1) l.
Proof.
  intros Hp. unfold segment. replace (Z.to_nat (pos * 2)) with (2 * Z.to_nat pos)%nat by lia.
  replace (Z.to_nat (pos * 2 + 1)) with (2 * Z.to_nat pos + 1)%nat by lia. set (p := Z.to_nat pos).
  replace ((2 * p + 1) * 2 ^ h)%nat with (2 * p * 2 ^ h + 2 ^ h)%nat by lia. rewrite <- drop_drop.
  replace (p * 2 ^ S h)%nat with (2 * p * 2 ^ h)%nat by (rewrite Nat.pow_succ_r'; lia).
  rewrite Nat.pow_succ_r'. replace (2 * 2 ^ h)%nat with (2 ^ h + 2 ^ h)%nat by lia.
  set (r := drop _ l). rewrite <- (take_drop (2 ^ h) r) at 1. rewrite take_app, take_take, length_take.
  rewrite Nat.min_r by lia. destruct (Nat.le_gt_cases (2 ^ h) (length r)).
  - rewrite Nat.min_l by lia. do 2 f_equal. lia.
  - rewrite (drop_ge r) by lia. by rewrite !take_nil.
Qed.

Lemma segment_beyond h pos (l : list A) : 0 <= pos -> width (zlen l) (Z.of_nat h) <= pos -> segment h pos l = [].
Proof.
  intros Hp Hw. unfold segment. rewrite drop_ge, take_nil; [done|]. pose proof (width_bounds (zlen l) (Z.of_nat h) ltac:(lia)) as Hb.
  pose proof (pow2_pos (Z.of_nat h)). unfold zlen in *. apply Nat2Z.inj_le. rewrite Nat2Z.inj_mul, Nat2Z.inj_pow, Z2Nat.id by lia. nia.
Qed.

Lemma segment_leaf pos (l : list A) d : 0 <= pos < zlen l -> segment 0 pos l = [nth (Z.to_nat pos) l d].
Proof.
  intros Hp. unfold segment, zlen in *. simpl. rewrite Nat.mul_1_r. destruct (drop (Z.to_nat pos) l) as [|x r] eqn:E.
  - apply (f_equal length) in E. rewrite length_drop in E. simpl in E. lia.
  - simpl. rewrite take_0. f_equal. rewrite <- (take_drop (Z.to_nat pos) l), E, app_nth2; rewrite length_take; [|lia].
    rewrite Nat.min_l, Nat.sub_diag by lia. done.
Qed.

Lemma segment_all h (l : list A) : zlen l <= 2 ^ Z.of_nat h -> segment h 0 l = l.
Proof.
  intros Hl. unfold segment. simpl. rewrite drop_0. apply take_ge. apply Nat2Z.inj_le. rewrite Nat2Z.inj_pow. done.
Qed.
End Segments.

(** The chosen elements, in order. *)
Fixpoint select {A} (l : list A) (m : list bool) : list A :=
  match l, m with
  | x :: l, b :: m => if b then x :: select l m else select l m
  | _, _ => []
  end.

Lemma select_app {A} (l1 l2 : list A) m1 m2 : length l1 = length m1 -> select (l1 ++ l2) (m1 ++ m2) = select l1 m1 ++ select l2 m2.
Proof.
  revert m1. induction l1 as [|x l1 IH]; intros [|b m1] Hl; simpl in *; try done. rewrite IH by lia. destruct b; done.
Qed.

Lemma select_none {A} (l : list A) m : existsb id m = false -> select l m = [].
Proof. revert m. induction l as [|x l IH]; intros [|b m] Hm; simpl in *; try done. apply orb_false_iff in Hm as [Hb Hm]. destruct b; [done|auto]. Qed.

Lemma select_sublist {A} (l : list A) m : select l m `sublist_of` l.
Proof. revert m. induction l as [|x l IH]; intros [|b m]; simpl; try apply sublist_nil_l. destruct b; by constructor. Qed.

Lemma length_segment {A B} h pos (l : list A) (m : list B) : length l = length m -> length (segment h pos l) = length (segment h pos m).
Proof. intros Hl. unfold segment. rewrite !length_take, !length_drop. lia. Qed.

Section Partial.
Context (H2 : bytes -> bytes -> bytes) (vTxid : list bytes).
Notation n := (zlen vTxid).
Context (Hn : 0 < n <= 2 ^ 31).

Lemma segment_nonempty h pos : 0 <= pos < width n (Z.of_nat h) -> (0 < length (segment h pos vTxid))%nat.
Proof using Type.
  intros Hp. unfold segment. rewrite length_take, length_drop. pose proof (pow2_pos (Z.of_nat h) ltac:(lia)) as Hpw.
  pose proof (width_bounds n (Z.of_nat h) ltac:(lia)) as Hb. assert (pos * 2 ^ Z.of_nat h < n) as Hlt by nia.
  unfold zlen in Hlt. assert (Z.of_nat (Z.to_nat pos * 2 ^ h) < Z.of_nat (length vTxid)).
  { rewrite Nat2Z.inj_mul, Nat2Z.inj_pow, Z2Nat.id by lia. done. }
  assert (2 ^ h <> 0)%nat by (apply Nat.pow_nonzero; lia). lia.
Qed.

(** The two children of a node. *)
Lemma children h pos : 0 <= pos < width n (Z.of_nat (S h)) ->
  0 <= pos * 2 < width n (Z.of_nat h).
Proof using Type.
  intros Hp. replace (Z.of_nat (S h)) with (Z.of_nat h + 1) in Hp by lia. rewrite width_S in Hp by lia.
  assert (2 * ((width n (Z.of_nat h) + 1) / 2) <= width n (Z.of_nat h) + 1) by (apply Z.mul_div_le; lia). lia.
Qed.

Lemma tree_top : (tree_height 32 n 0 <= 31)%nat /\ width n (Z.of_nat (tree_height 32 n 0)) = 1 /\ n <= 2 ^ Z.of_nat (tree_height 32 n 0).
Proof using Hn H2.
  destruct (MerkleComputation_spec H2 vTxid Hn 0 ltac:(lia)) as (_ & _ & Ht & Hw & _). unfold top in *.
  split_and!; [lia|done|]. apply width_top in Hw; [done|done|lia].
Qed.

Context (vMatch : list bool) (Hm : length vMatch = length vTxid).

Lemma parent_of_match_segment h pos : 0 <= pos -> parent_of_match n h pos vMatch = existsb id (segment h pos vMatch).
Proof using Hm Hn.
  intros Hp. unfold parent_of_match, segment. rewrite !Z.shiftl_mul_pow2 by lia.
  assert (E : Z.to_nat (pos * 2 ^ Z.of_nat h) = (Z.to_nat pos * 2 ^ h)%nat).
  { rewrite Z2Nat.inj_mul, <- (Nat2Z.id (2 ^ h)), Nat2Z.inj_pow by (try apply Z.pow_nonneg; lia). done. }
  rewrite E. f_equal. set (r := drop _ vMatch). pose proof (pow2_pos (Z.of_nat h) ltac:(lia)).
  assert (Hr : length r = (length vTxid - Z.to_nat pos * 2 ^ h)%nat) by (unfold r; rewrite length_drop, Hm; done).
  assert (H2h : Z.of_nat (2 ^ h) = 2 ^ Z.of_nat h) by apply Nat2Z.inj_pow.
  destruct (Z.le_ge_cases ((pos + 1) * 2 ^ Z.of_nat h) n).
  - rewrite Z.min_l by done. f_equal. lia.
  - rewrite Z.min_r by done. unfold zlen in *. rewrite !take_ge; [done| |]; rewrite Hr; lia.
Qed.

(** Extraction follows the construction, wherever in the tree it was written. *)
Lemma extract_built h : forall pos, 0 <= pos < width n (Z.of_nat h) -> (h <= 31)%nat ->
  forall t b1 b2 h1 h2 ms bd, nTransactions t = n ->
  vBits t = b1 ++ fst (TraverseAndBuild H2 n h pos vTxid vMatch) ++ b2 ->
  vHash t = h1 ++ snd (TraverseAndBuild H2 n h pos vTxid vMatch) ++ h2 ->
  TraverseAndExtract H2 t h pos {| nBitsUsed := length b1; nHashUsed := length h1; vMatched := ms; bad := bd |} =
  (CalcHash H2 n h pos vTxid,
   {| nBitsUsed := length (b1 ++ fst (TraverseAndBuild H2 n h pos vTxid vMatch));
      nHashUsed := length (h1 ++ snd (TraverseAndBuild H2 n h pos vTxid vMatch));
      vMatched := ms ++ select (segment h pos vTxid) (segment h pos vMatch); bad := bd |}).
Proof using Hn Hm.
  assert (Hnm : zlen vMatch = n) by (unfold zlen; lia).
  induction h as [|h IH]; intros pos Hp Hh t b1 b2 h1 h2 ms bd Ht Hb Hs.
  - cbn [TraverseAndBuild fst snd TraverseAndExtract app] in *. rewrite Hb, list_lookup_middle by done. cbn [nBitsUsed nHashUsed].
    rewrite Hs, list_lookup_middle by done. change (Z.of_nat 0) with 0 in Hp. rewrite width_0 in Hp.
    rewrite parent_of_match_segment in * by lia. rewrite (segment_leaf _ vTxid uint256_zero), (segment_leaf _ vMatch false) by lia.
    rewrite !length_app. cbn. rewrite !Nat.add_1_r. unfold id. destruct (nth (Z.to_nat pos) vMatch false); cbn; by rewrite ?app_nil_r.
  - pose proof (children h pos Hp) as Hp0. assert (Hcw : CalcTreeWidth n (Z.of_nat h) = width n (Z.of_nat h)) by (apply CalcTreeWidth_width; lia).
    cbn [TraverseAndBuild CalcHash] in *. rewrite parent_of_match_segment, Hcw in * by lia.
    destruct (existsb id (segment (S h) pos vMatch)) eqn:Ex; cbn [negb] in *.
    + destruct (TraverseAndBuild H2 n h (pos * 2) vTxid vMatch) as [lb lh] eqn:El.
      set (r := if pos * 2 + 1 <? width n (Z.of_nat h) then TraverseAndBuild H2 n h (pos * 2 + 1) vTxid vMatch else ([], [])) in *.
      assert (Hr : (let '(rb, rh) := r in (true :: lb ++ rb, lh ++ rh)) = (true :: lb ++ fst r, lh ++ snd r)) by (destruct r; done).
      rewrite Hr in *. cbn [fst snd app] in *. cbn [TraverseAndExtract nBitsUsed nHashUsed vMatched bad]. rewrite Hb, list_lookup_middle by done.
      cbn [negb]. rewrite Ht, Hcw.
      replace (S (length b1)) with (length (b1 ++ [true])) by (rewrite length_app; simpl; lia).
      rewrite (IH (pos * 2) Hp0 ltac:(lia) t (b1 ++ [true]) (fst r ++ b2) h1 (snd r ++ h2));
        [|done|rewrite El, Hb, <- !app_assoc; done|rewrite El, Hs, <- !app_assoc; done].
      rewrite El. cbn [fst snd]. rewrite !segment_S by lia. rewrite select_app by (apply length_segment; lia).
      unfold r. destruct (Z.ltb_spec (pos * 2 + 1) (width n (Z.of_nat h))) as [Hlt|Hge].
      * rewrite (IH (pos * 2 + 1) ltac:(lia) ltac:(lia) t ((b1 ++ [true]) ++ lb) b2 (h1 ++ lh) h2); [|done| |];
          [|rewrite Hb; unfold r; simplify_list_eq; done
           |rewrite Hs; unfold r; simplify_list_eq; done].
        f_equal. f_equal; simplify_list_eq; done.
      * rewrite (segment_beyond h (pos * 2 + 1) vTxid), (segment_beyond h (pos * 2 + 1) vMatch) by (rewrite ?Hnm; lia). cbn [fst snd select].
        f_equal. f_equal; simplify_list_eq; done.
    + cbn [fst snd app] in *. cbn [TraverseAndExtract nBitsUsed nHashUsed vMatched bad]. rewrite Hb, list_lookup_middle by done. cbn [negb nHashUsed].
      rewrite Hs, list_lookup_middle by done. rewrite select_none, app_nil_r, !length_app by done. cbn. rewrite !Nat.add_1_r. done.
Qed.

(** A partial tree has no more hashes than flags, nor than transactions. *)
Lemma built_size h : forall pos, 0 <= pos < width n (Z.of_nat h) -> (h <= 31)%nat ->
  let '(bits, hashes) := TraverseAndBuild H2 n h pos vTxid vMatch in
  (length hashes <= length bits)%nat /\ (length hashes <= length (segment h pos vTxid))%nat /\
  (length bits <= S h * length (segment h pos vTxid))%nat.
Proof using Hm Hn.
  induction h as [|h IH]; intros pos Hp Hh; pose proof (segment_nonempty _ _ Hp) as Hne; cbn [TraverseAndBuild]; [simpl; lia|].
  destruct (parent_of_match n (S h) pos vMatch); cbn [negb]; [|cbn [length]; nia].
  pose proof (children h pos Hp) as Hp0. rewrite CalcTreeWidth_width by lia. specialize (IH _ Hp0 ltac:(lia)) as IH0.
  rewrite segment_S, length_app in * by lia. destruct (TraverseAndBuild H2 n h (pos * 2) vTxid vMatch) as [lb lh].
  destruct (Z.ltb_spec (pos * 2 + 1) (width n (Z.of_nat h))).
  - specialize (IH (pos * 2 + 1) ltac:(lia) ltac:(lia)). destruct (TraverseAndBuild H2 n h (pos * 2 + 1) vTxid vMatch) as [rb rh].
    cbn [length]. rewrite !length_app. nia.
  - cbn [length]. rewrite !length_app. cbn [length]. nia.
Qed.

(** What was built extracts to the root and the chosen ids, also with unused flags at the
    end that fit in its last byte. *)
Lemma ExtractMatches_built t pad :
  n <= MAX_BLOCK_SIZE_CURRENT `quot` 60 -> nTransactions t = n -> fBad t = false ->
  vHash t = vHash (CPartialMerkleTree_new H2 vTxid vMatch) ->
  vBits t = vBits (CPartialMerkleTree_new H2 vTxid vMatch) ++ pad ->
  (zlen (vBits t) + 7) / 8 = (zlen (vBits (CPartialMerkleTree_new H2 vTxid vMatch)) + 7) / 8 ->
  ExtractMatches H2 t = (CalcHash H2 n (tree_height 32 n 0) 0 vTxid, select vTxid vMatch).
Proof using Hn Hm.
  intros Hmax Ht Hbad Hh Hb Hpad. destruct tree_top as (H31 & Hw & Htop). unfold CPartialMerkleTree_new in *.
  assert (Hu : u32 n = n) by (unfold u32; apply Z.mod_small; lia). rewrite Hu in *. set (h := tree_height 32 n 0) in *.
  pose proof (built_size h 0 ltac:(lia) H31) as Hsz.
  pose proof (extract_built h 0 ltac:(lia) H31 t [] pad [] [] [] false Ht) as Hex.
  destruct (TraverseAndBuild H2 n h 0 vTxid vMatch) as [bits hashes]. cbn [vHash vBits fst snd] in *.
  rewrite !segment_all in Hex by (unfold zlen in *; lia). rewrite segment_all in Hsz by lia.
  specialize (Hex Hb ltac:(by rewrite Hh, app_nil_r)). unfold ExtractMatches. rewrite Ht, Hbad.
  rewrite (proj2 (Z.eqb_neq n 0)), (proj2 (Z.ltb_ge _ n)) by lia.
  rewrite (proj2 (Z.ltb_ge n _)), (proj2 (Z.ltb_ge _ (zlen (vHash t)))) by (rewrite ?Hh, ?Hb; unfold zlen; rewrite ?length_app; lia).
  fold h. cbn [length] in Hex. rewrite Hex. cbn [bad nBitsUsed nHashUsed vMatched app].
  rewrite Hh, Hpad. fold (zlen bits). rewrite Z.eqb_refl. fold (zlen hashes). rewrite Z.eqb_refl. done.
Qed.
End Partial.

(** ** Flags on the wire *)

Lemma unpack_pack_byte l : (length l <= 8)%nat -> unpack_byte (pack_byte l) = l ++ replicate (8 - length l) false.
Proof.
  intros Hl. do 9 (destruct l as [|? l]; [repeat (match goal with b : bool |- _ => destruct b end); reflexivity|cbn [length] in Hl]). exfalso. lia.
Qed.

(** The flags read back are those written and the rest of the last byte. *)
Lemma unpack_pack_bits fuel : forall l, (length l <= fuel)%nat ->
  exists pad, concat (map unpack_byte (pack_bits fuel l)) = l ++ pad /\ (zlen (l ++ pad) + 7) / 8 = (zlen l + 7) / 8.
Proof.
  induction fuel as [|fuel IH]; intros l Hf; [destruct l; [exists []; done|simpl in Hf; lia]|].
  destruct l as [|b l']; [exists []; done|]. remember (b :: l') as l eqn:El. assert (Hl : (0 < length l)%nat) by (subst; simpl; lia).
  assert (pack_bits (S fuel) l = pack_byte (take 8 l) :: pack_bits fuel (drop 8 l)) as -> by (subst; done).
  cbn [map concat]. rewrite unpack_pack_byte by (rewrite length_take; lia).
  destruct (IH (drop 8 l) ltac:(rewrite length_drop; lia)) as (pad & -> & Hpad). unfold zlen in *. rewrite !length_app, length_drop in Hpad.
  destruct (Nat.le_gt_cases 8 (length l)) as [H8|H8].
  - exists pad. rewrite length_take, Nat.min_l by lia. simpl replicate. rewrite app_nil_r, app_assoc, take_drop. split; [done|].
    rewrite length_app. replace (Z.of_nat (length l + length pad) + 7) with (Z.of_nat (length l - 8 + length pad) + 7 + 1 * 8) by lia.
    replace (Z.of_nat (length l) + 7) with (Z.of_nat (length l - 8) + 7 + 1 * 8) by lia. rewrite !Z.div_add by lia. lia.
  - replace (length l - 8)%nat with 0%nat in Hpad by lia. simpl in Hpad. rewrite take_ge, drop_ge by lia.
    exists (replicate (8 - length l) false ++ pad). split; [by rewrite app_nil_l, app_assoc|].
    rewrite !length_app, length_replicate. replace (Z.of_nat (length l + (8 - length l + length pad)) + 7) with (Z.of_nat (length pad) + 7 + 1 * 8) by lia.
    assert (Hp0 : (Z.of_nat (length pad) + 7) / 8 = 0) by (rewrite Hpad; reflexivity). rewrite Z.div_add, Hp0 by lia.
    apply Z.div_unique with (Z.of_nat (length l) - 1); lia.
Qed.

Lemma length_pack_bits fuel : forall l, (length (pack_bits fuel l) <= length l)%nat.
Proof.
  induction fuel as [|fuel IH]; intros l; [simpl; lia|]. destruct l as [|b l]; [done|]. cbn [pack_bits length].
  specialize (IH (drop 8 (b :: l))). rewrite length_drop in IH. simpl length in *. lia.
Qed.

Section Wire.
Context (H2 : bytes -> bytes -> bytes) (H2_32 : forall a b, length (H2 a b) = 32%nat).
Context (vTxid : list bytes) (Hid : Forall (fun h => length h = 32%nat) vTxid).

Lemma CalcHash_32 n h pos : length (CalcHash H2 n h pos vTxid) = 32%nat.
Proof using H2_32 Hid.
  destruct h; cbn [CalcHash]; [|apply H2_32]. destruct (nth_in_or_default (Z.to_nat pos) vTxid uint256_zero) as [Hin|Hd]; [|by rewrite Hd].
  rewrite Forall_forall in Hid. apply Hid. done.
Qed.

Lemma built_32 n h vMatch : forall pos, Forall (fun h => length h = 32%nat) (snd (TraverseAndBuild H2 n h pos vTxid vMatch)).
Proof using H2_32 Hid.
  induction h as [|h IH]; intros pos; cbn [TraverseAndBuild]; [repeat constructor; apply CalcHash_32|].
  destruct (negb _); [repeat constructor; apply CalcHash_32|].
  pose proof (IH (pos * 2)) as Hl. pose proof (IH (pos * 2 + 1)) as Hr. destruct (TraverseAndBuild H2 n h (pos * 2) vTxid vMatch) as [lb lh].
  destruct (_ <? _); [destruct (TraverseAndBuild H2 n h (pos * 2 + 1) vTxid vMatch) as [rb rh]|]; simpl in *; [by apply Forall_app|by rewrite app_nil_r].
Qed.
End Wire.

(** ** Soundness *)

(** What is hashed while a partial tree is walked. *)
Fixpoint extract_hashed (t : CPartialMerkleTree) (height : nat) (pos : Z) (st : extract_state) : list bytes :=
  match height, vBits t !! nBitsUsed st with
  | S h, Some true =>
      let st := {| nBitsUsed := S (nBitsUsed st); nHashUsed := nHashUsed st; vMatched := vMatched st; bad := bad st |} in
      let '(hl, st1) := TraverseAndExtract Hash2 t h (pos * 2) st in
      if pos * 2 + 1 <? CalcTreeWidth (nTransactions t) (Z.of_nat h)
      then (hl ++ fst (TraverseAndExtract Hash2 t h (pos * 2 + 1) st1)) :: extract_hashed t h (pos * 2) st ++ extract_hashed t h (pos * 2 + 1) st1
      else (hl ++ hl) :: extract_hashed t h (pos * 2) st
  | _, _ => []
  end.

Definition extract_start (t : CPartialMerkleTree) : extract_state := {| nBitsUsed := 0; nHashUsed := 0; vMatched := []; bad := fBad t |}.

Section Sound.
Context (inputs : list bytes) (Hno : ~ collision inputs).
Context (vTxid : list bytes) (Had : admissible inputs vTxid).
Notation n := (zlen vTxid).

Lemma extract_length t h pos st : Forall (fun x => length x = 32%nat) (vHash t) -> length (fst (TraverseAndExtract Hash2 t h pos st)) = 32%nat.
Proof using Type.
  intros Hf. assert (Hh : forall i x, vHash t !! i = Some x -> length x = 32%nat) by (intros i x Hx; exact (Forall_lookup_1 _ _ _ _ Hf Hx)).
  destruct h as [|h]; cbn [TraverseAndExtract]; (destruct (vBits t !! nBitsUsed st) as [f|]; [|done]); cbn [nHashUsed].
  - destruct (vHash t !! nHashUsed st) eqn:E; [by eapply Hh|done].
  - destruct f; cbn [negb].
    + destruct (TraverseAndExtract Hash2 t h (pos * 2) _) as [hl st1]. destruct (_ <? _); [|apply Hash2_length].
      destruct (TraverseAndExtract Hash2 t h (pos * 2 + 1) st1) as [hr st2]. apply Hash2_length.
    + destruct (vHash t !! nHashUsed st) eqn:E; [by eapply Hh|done].
Qed.

Lemma extract_sound t h : nTransactions t = n -> Forall (fun x => length x = 32%nat) (vHash t) -> (h <= Z.to_nat (top vTxid))%nat ->
  forall pos st r st', 0 <= pos < width n (Z.of_nat h) -> extract_hashed t h pos st ⊆ inputs ->
  TraverseAndExtract Hash2 t h pos st = (r, st') -> r = node Hash2 vTxid (Z.of_nat h) pos ->
  exists ids, vMatched st' = vMatched st ++ ids /\ ids `sublist_of` segment h pos vTxid.
Proof using Hno Had.
  destruct Had as [H32 Hn Hin]. intros Ht Hf. pose proof (top_31 vTxid Hn) as H31.
  induction h as [|h IH]; intros Hh pos st r st' Hp Hex Hrun Hr; cbn [TraverseAndExtract extract_hashed] in Hrun, Hex.
  all: destruct (vBits t !! nBitsUsed st) as [f|]; [|simplify_eq/=; exists []; rewrite app_nil_r; split; [done|apply sublist_nil_l]].
  all: cbn [nBitsUsed nHashUsed vMatched bad] in Hrun.
  - rewrite node_0 in Hr. destruct (vHash t !! nHashUsed st) as [hash|]; simplify_eq/=; [|exists []; rewrite app_nil_r; split; [done|apply sublist_nil_l]].
    change (Z.of_nat 0) with 0 in Hp. rewrite width_0 in Hp. rewrite (segment_leaf _ _ uint256_zero) by lia. destruct f; simpl.
    + eexists. split; [done|done].
    + exists []. rewrite app_nil_r. split; [done|apply sublist_nil_l].
  - destruct f; cbn [negb] in Hrun.
    + pose proof (children vTxid h pos Hp) as Hp0. set (st0 := {| nBitsUsed := _ |}) in *.
      pose proof (extract_length t h (pos * 2) st0 Hf) as HlL. destruct (TraverseAndExtract Hash2 t h (pos * 2) st0) as [hl st1] eqn:El. cbn [fst] in HlL.
      assert (Hcw : CalcTreeWidth n (Z.of_nat h) = width n (Z.of_nat h)) by (apply CalcTreeWidth_width; lia). rewrite Ht, Hcw in Hrun, Hex.
      replace (Z.of_nat (S h)) with (Z.of_nat h + 1) in Hr, Hp by lia. rewrite node_S in Hr by lia. fold (right_node vTxid (Z.of_nat h) pos) in Hr.
      assert (Hnode : node Hash2 vTxid (Z.of_nat h) (2 * pos) ++ right_node vTxid (Z.of_nat h) pos ∈ inputs) by (apply Hin, hashed_at; lia).
      pose proof (node_length vTxid (Z.of_nat h) (2 * pos) H32 Hn ltac:(lia)) as HlN. unfold right_node in *. rewrite (Z.mul_comm 2 pos) in *.
      rewrite segment_S by lia. destruct (Z.ltb_spec (pos * 2 + 1) (width n (Z.of_nat h))).
      * destruct (TraverseAndExtract Hash2 t h (pos * 2 + 1) st1) as [hr st2] eqn:Er. apply pair_equal_spec in Hrun as [<- <-]. cbn [fst] in Hex.
        apply (Hash2_binds inputs) in Hr as [Hl Hr]; [|done|apply Hex, elem_of_cons; by left|done|congruence].
        edestruct (IH ltac:(lia) (pos * 2) st0) as (i1 & E1 & S1); [exact Hp0| |exact El|done|].
        { intros x Hx. apply Hex, elem_of_cons. right. apply elem_of_app. by left. }
        edestruct (IH ltac:(lia) (pos * 2 + 1) st1) as (i2 & E2 & S2); [lia| |exact Er|done|].
        { intros x Hx. apply Hex, elem_of_cons. right. apply elem_of_app. by right. }
        exists (i1 ++ i2). rewrite E2, E1, app_assoc. split; [done|by apply sublist_app].
      * apply pair_equal_spec in Hrun as [<- <-].
        apply (Hash2_binds inputs) in Hr as [Hl _]; [|done|apply Hex, elem_of_cons; by left|done|congruence].
        edestruct (IH ltac:(lia) (pos * 2) st0) as (i1 & E1 & S1); [exact Hp0| |exact El|done|].
        { intros x Hx. apply Hex, elem_of_cons. by right. }
        exists i1. split; [done|]. by apply sublist_inserts_r.
    + destruct (vHash t !! nHashUsed st) as [hash|]; simplify_eq/=; exists []; rewrite app_nil_r; (split; [done|apply sublist_nil_l]).
Qed.
End Sound.

#[local] Existing Instance uint256_ser.
#[local] Existing Instance uint256_laws.

(** ** Theorems *)

(** A partial tree built from a block's transaction ids and any choice of them, sent
    over the wire and read back, extracts to the block's Merkle root and to exactly the
    chosen ids in order. *)
Theorem partial_tree_transmits H2 vTxid vMatch batch rest :
  (forall a b, length (H2 a b) = 32%nat) -> Forall (fun h => length h = 32%nat) vTxid ->
  0 < zlen vTxid <= MAX_BLOCK_SIZE_CURRENT `quot` 60 -> length vMatch = length vTxid -> (0 < batch)%nat ->
  exists t, Unserialize_CPartialMerkleTree batch (Serialize_CPartialMerkleTree (CPartialMerkleTree_new H2 vTxid vMatch) ++ rest) = Ok (t, rest) /\
    ExtractMatches H2 t = (fst (ComputeMerkleRoot H2 vTxid), select vTxid vMatch).
Proof.
  intros H32 Hid Hn Hm Hbatch. change (MAX_BLOCK_SIZE_CURRENT `quot` 60) with 33333 in Hn.
  assert (Hn31 : 0 < zlen vTxid <= 2 ^ 31) by lia.
  set (t0 := CPartialMerkleTree_new H2 vTxid vMatch).
  assert (Hnt : nTransactions t0 = zlen vTxid /\ Forall (fun h => length h = 32%nat) (vHash t0) /\ zlen (vHash t0) <= MAX_SIZE /\ zlen (vBits t0) <= MAX_SIZE).
  { unfold t0, CPartialMerkleTree_new, u32. rewrite Z.mod_small by lia. destruct (tree_top H2 vTxid Hn31) as (H31 & Hw & Htop).
    set (h := tree_height 32 (zlen vTxid) 0) in *. pose proof (built_size H2 vTxid Hn31 vMatch Hm h 0 ltac:(lia) H31) as Hsz.
    pose proof (built_32 H2 H32 vTxid Hid (zlen vTxid) h vMatch 0) as Hh. rewrite segment_all in Hsz by lia.
    destruct (TraverseAndBuild H2 (zlen vTxid) h 0 vTxid vMatch) as [bits hashes]. cbn in Hh |- *.
    unfold zlen, MAX_SIZE in *. split_and!; try done; [lia|]. destruct Hsz as (_ & _ & Hb). nia. }
  destruct Hnt as (Hnt & Hh32 & Hsh & Hsb). destruct (unpack_pack_bits (length (vBits t0)) (vBits t0) ltac:(lia)) as (pad & Hpad & Hpl).
  eexists. split.
  - unfold Unserialize_CPartialMerkleTree, Serialize_CPartialMerkleTree, ser_readdata32, ser_writedata32. rewrite <- !app_assoc.
    rewrite read_le_app by (rewrite Hnt; simpl; lia). cbn [res_bind]. rewrite (Unserialize_vector_app batch (vHash t0)) by done. cbn [res_bind].
    rewrite Unserialize_bytes_app; [cbn [res_bind]; reflexivity|].
    pose proof (length_pack_bits (length (vBits t0)) (vBits t0)). unfold zlen in *. lia.
  - destruct (MerkleComputation_spec H2 vTxid Hn31 (2 ^ 32 - 1) ltac:(lia)) as (m & HM & _).
    unfold ComputeMerkleRoot. rewrite HM. cbn [fst]. unfold node, top. rewrite Nat2Z.id.
    apply (ExtractMatches_built H2 vTxid Hn31 vMatch Hm _ pad); cbn [nTransactions vBits vHash fBad]; try done.
    + change (MAX_BLOCK_SIZE_CURRENT `quot` 60) with 33333. lia.
    + rewrite Hpad. done.
Qed.

(** C27: A partial tree for a block's number of transactions that extracts to the block's
    Merkle root yields transaction ids of that block only, in the block's order; or two
    different inputs among those hashed for the block's tree and in the extraction have the
    same double SHA-256 hash. *)
Theorem ExtractMatches_sound vTxid t root ids :
  Forall (fun h => length h = 32%nat) vTxid -> Forall (fun h => length h = 32%nat) (vHash t) ->
  0 < zlen vTxid <= 2 ^ 31 -> nTransactions t = zlen vTxid ->
  ExtractMatches Hash2 t = (root, ids) -> root = fst (ComputeMerkleRoot Hash2 vTxid) -> root <> uint256_zero ->
  ids `sublist_of` vTxid \/ collision (hashed vTxid ++ extract_hashed t (tree_height 32 (nTransactions t) 0) 0 (extract_start t)).
Proof.
  intros H32 Hf Hn Ht Hex Hroot Hnz. destruct (MerkleComputation_spec Hash2 vTxid Hn (2 ^ 32 - 1) ltac:(lia)) as (m & HM & _).
  unfold ComputeMerkleRoot in Hroot. rewrite HM in Hroot. cbn [fst] in Hroot.
  destruct (tree_top Hash2 vTxid Hn) as (H31 & Hw & Htop). unfold ExtractMatches in Hex. rewrite Ht in *. fold (extract_start t) in Hex.
  set (h := tree_height 32 (zlen vTxid) 0) in *. set (inputs := hashed vTxid ++ _). destruct (collision_dec inputs) as [|Hno]; [by right|left].
  destruct (TraverseAndExtract Hash2 t h 0 _) as [r st] eqn:Er.
  repeat (match type of Hex with (if ?b then _ else _) = _ => destruct b end; [apply pair_equal_spec in Hex as [Hex _]; congruence|]).
  apply pair_equal_spec in Hex as [-> <-].
  destruct (extract_sound inputs Hno vTxid) with (t := t) (h := h) (pos := 0) (st := extract_start t) (r := root) (st' := st) as (ids & -> & Hs);
    [split; [done|done|by apply list_subseteq_app_l]|done|done|unfold top; fold h; lia|lia|by apply list_subseteq_app_r|done|done|].
  rewrite segment_all in Hs by lia. done.
Qed.

(** ** Witnesses *)

Lemma partial_tree_transmits_witness : exists t,
  Unserialize_CPartialMerkleTree 156250
    (Serialize_CPartialMerkleTree (CPartialMerkleTree_new Hash2 [replicate 32 1; replicate 32 2; replicate 32 3] [false; false; true]) ++ [7]) = Ok (t, [7]) /\
  ExtractMatches Hash2 t = (fst (ComputeMerkleRoot Hash2 [replicate 32 1; replicate 32 2; replicate 32 3]), [replicate 32 3]).
Proof.
  apply (partial_tree_transmits Hash2 [replicate 32 1; replicate 32 2; replicate 32 3] [false; false; true] 156250 [7]);
    [apply Hash2_length|do 3 (apply Forall_cons_2; [reflexivity|]); apply Forall_nil_2|vm_compute; split; congruence|reflexivity|apply Nat.ltb_lt; vm_compute; reflexivity].
Defined.

Definition sample_tree : CPartialMerkleTree := CPartialMerkleTree_new Hash2 sample_ids [false; false; true].

Lemma ExtractMatches_sound_witness : snd (ExtractMatches Hash2 sample_tree) = [replicate 32 3] /\
  ([replicate 32 3] `sublist_of` sample_ids \/ collision (hashed sample_ids ++ extract_hashed sample_tree (tree_height 32 (nTransactions sample_tree) 0) 0 (extract_start sample_tree))).
Proof.
  split; [vm_compute; reflexivity|].
  eapply (ExtractMatches_sound sample_ids sample_tree (fst (ComputeMerkleRoot Hash2 sample_ids)));
    [exact sample_ids_32|apply (bool_decide_unpack _); vm_compute; exact I|vm_compute; split; congruence|vm_compute; reflexivity|vm_compute; reflexivity|reflexivity|vm_compute; congruence].
Defined.
