(* ===== verification/Bloom.v ===== *)
(** Bloom filters ([bloom.h], [bloom.cpp]), the messages that set a peer's filter
    ([main.cpp]), and the Merkle block of a filter ([merkleblock.cpp]).

    Where the code indexes an empty vector, divides by its size or builds a vector from a
    reversed range, the operation has no result. *)

From Stdlib Require Import ZArith Lia.
From stdpp Require Import base tactics list numbers option.
From S2P Require Import Prelude ArithUint256 Hash Serialize Script Standard Transaction Block TxVerify Merkle MerkleFacts PartialMerkle.

(** ** The filter *)

Definition MAX_BLOOM_FILTER_SIZE : Z := 36000.
Definition MAX_HASH_FUNCS : Z := 50.

Definition BLOOM_UPDATE_NONE : Z := 0.
Definition BLOOM_UPDATE_ALL : Z := 1.
Definition BLOOM_UPDATE_P2PUBKEY_ONLY : Z := 2.
Definition BLOOM_UPDATE_MASK : Z := 3.

Record CBloomFilter := { vData : bytes; isFull : bool; isEmpty : bool; nHashFuncs : Z; nTweak : Z; nFlags : Z }.

Definition CBloomFilter_default : CBloomFilter :=
  {| vData := []; isFull := true; isEmpty := false; nHashFuncs := 0; nTweak := 0; nFlags := 0 |}.

(** [bits] is [-1 / LN2SQUARED * nElements * log(nFPRate)] cast to [unsigned int], and
    [funcs size] is [size * 8 / nElements * LN2] cast likewise. *)
Definition CBloomFilter_new (bits : Z) (funcs : Z -> Z) (nTweakIn nFlagsIn : Z) : CBloomFilter :=
  let size := Z.min bits (MAX_BLOOM_FILTER_SIZE * 8) / 8 in
  {| vData := replicate (Z.to_nat size) 0; isFull := false; isEmpty := false;
     nHashFuncs := Z.min (funcs size) MAX_HASH_FUNCS; nTweak := nTweakIn; nFlags := nFlagsIn |}.

Definition with_vData (f : CBloomFilter) (d : bytes) : CBloomFilter :=
  {| vData := d; isFull := isFull f; isEmpty := isEmpty f; nHashFuncs := nHashFuncs f; nTweak := nTweak f; nFlags := nFlags f |}.
Definition with_flags (f : CBloomFilter) (full empty : bool) : CBloomFilter :=
  {| vData := vData f; isFull := full; isEmpty := empty; nHashFuncs := nHashFuncs f; nTweak := nTweak f; nFlags := nFlags f |}.

Definition bloom_Hash (f : CBloomFilter) (nHashNum : Z) (vDataToHash : bytes) : option Z :=
  if zlen (vData f) =? 0 then None
  else Some (MurmurHash3 (u32 (nHashNum * 0xFBA4C795 + nTweak f)) vDataToHash `mod` (zlen (vData f) * 8)).

Definition setNotFull (f : CBloomFilter) : CBloomFilter := with_flags f false (isEmpty f).

(** [1 << (7 & nIndex)] *)
Definition bit_mask (nIndex : Z) : Z := Z.shiftl 1 (Z.land 7 nIndex).
Definition set_bit (d : bytes) (nIndex : Z) : bytes :=
  <[Z.to_nat (Z.shiftr nIndex 3) := Z.lor (idx d (Z.shiftr nIndex 3)) (bit_mask nIndex)]> d.
Definition get_bit (d : bytes) (nIndex : Z) : bool := negb (Z.land (idx d (Z.shiftr nIndex 3)) (bit_mask nIndex) =? 0).

(** [for (i = 0; i < nHashFuncs; i++)], from [i] with [k] functions to go. *)
Fixpoint insert_loop (k : nat) (i : Z) (f : CBloomFilter) (vKey : bytes) : option CBloomFilter :=
  match k with
  | O => Some f
  | S k => nIndex ← bloom_Hash f i vKey; insert_loop k (i + 1) (with_vData f (set_bit (vData f) nIndex)) vKey
  end.
Definition bloom_insert (f : CBloomFilter) (vKey : bytes) : option CBloomFilter :=
  if isFull f then Some f
  else f ← insert_loop (Z.to_nat (nHashFuncs f)) 0 f vKey; Some (with_flags f (isFull f) false).
Definition insert_outpoint (f : CBloomFilter) (outpoint : COutPoint) : option CBloomFilter := bloom_insert f (Serialize outpoint).
Definition insert_hash (f : CBloomFilter) (hash : bytes) : option CBloomFilter := bloom_insert f hash.

Fixpoint contains_loop (k : nat) (i : Z) (f : CBloomFilter) (vKey : bytes) : option bool :=
  match k with
  | O => Some true
  | S k => nIndex ← bloom_Hash f i vKey; if negb (get_bit (vData f) nIndex) then Some false else contains_loop k (i + 1) f vKey
  end.
Definition contains (f : CBloomFilter) (vKey : bytes) : option bool :=
  if isFull f then Some true else if isEmpty f then Some false else contains_loop (Z.to_nat (nHashFuncs f)) 0 f vKey.
Definition contains_outpoint (f : CBloomFilter) (outpoint : COutPoint) : option bool := contains f (Serialize outpoint).
Definition contains_hash (f : CBloomFilter) (hash : bytes) : option bool := contains f hash.

Definition clear (f : CBloomFilter) : CBloomFilter := with_flags (with_vData f (replicate (length (vData f)) 0)) false true.
Definition IsWithinSizeConstraints (f : CBloomFilter) : bool :=
  (zlen (vData f) <=? MAX_BLOOM_FILTER_SIZE) && (nHashFuncs f <=? MAX_HASH_FUNCS).
Definition MatchesAll (f : CBloomFilter) : bool := forallb (fun b => b =? 0xff) (vData f).

(** The filter and the result. In the last branch the code writes to [vData[0]] of the
    vector it has just cleared. *)
Definition Merge (this filter : CBloomFilter) : option (CBloomFilter * bool) :=
  if negb (MatchesAll this) && negb (MatchesAll filter) then
    if negb ((zlen (vData filter) =? zlen (vData this)) && (nHashFuncs filter =? nHashFuncs this) && (nTweak filter =? nTweak this))
    then Some (this, false)
    else Some (with_vData this (zip_with Z.lor (vData this) (vData filter)), true)
  else None.

Definition UpdateEmptyFull (f : CBloomFilter) : CBloomFilter :=
  with_flags f (forallb (fun b => b =? 0xff) (vData f)) (forallb (fun b => b =? 0) (vData f)).

(** ** Relevant transactions *)

(** [std::vector(begin + k, end)] *)
Definition tail_from (k : Z) (s : bytes) : option bytes := if zlen s <? k then None else Some (drop (Z.to_nat k) s).

(** [setvch] then [getvch] of a big number: the magnitude without leading zeros, and room
    for the sign. *)
Definition bignum_setvch (vch : bytes) : bool * Z :=
  match rev vch with
  | [] => (false, 0)
  | b :: r => (negb (Z.land b 0x80 =? 0), le_val (rev r ++ [Z.land b 0x7f]))
  end.
Definition bignum_getvch (negative : bool) (magnitude : Z) : bytes :=
  if magnitude =? 0 then []
  else
    let size := Z.to_nat ((Z.log2 magnitude + 1 + 8 - 1) / 8) in
    let v := le_bytes size magnitude in
    if negb (Z.land (idx v (zlen v - 1)) 0x80 =? 0) then v ++ [if negative then 0x80 else 0x00]
    else if negative then <[(size - 1)%nat := Z.lor (idx v (zlen v - 1)) 0x80]> v
    else v.

(** [CoinSpend::ParseSerial]; the exceptions of the stream are [None]. *)
Definition ParseSerial (s : bytes) : option bytes :=
  match ReadCompactSize s with
  | Ok (nSize, s) =>
      match ReadCompactSize (drop (Z.to_nat nSize) s) with
      | Ok (nSize, s) =>
          match Unserialize_bytes (drop (Z.to_nat nSize) s) with
          | Ok (vch, _) => let '(negative, magnitude) := bignum_setvch vch in Some (bignum_getvch negative magnitude)
          | Err _ => None
          end
      | Err _ => None
      end
  | Err _ => None
  end.

(** The loop over the elements of a script: [data] maps what [GetOp] read to what is
    looked up. A script of [n] bytes has at most [n] elements. *)
Fixpoint scan_script (fuel : nat) (f : CBloomFilter) (data_of : bytes -> option bytes) (pc : bytes) : option bool :=
  match fuel, pc with
  | S fuel, _ :: _ =>
      let g := GetOp2 pc in
      if negb (go_ok g) then Some false
      else
        data ← data_of (go_data g);
        found ← (if negb (zlen data =? 0) then contains f data else Some false);
        if found : bool then Some true else scan_script fuel f data_of (go_pc g)
  | _, _ => Some false
  end.

Definition output_data (txout : CTxOut) (data : bytes) : option bytes :=
  if CTxOut_IsZerocoinMint txout then tail_from 6 (scriptPubKey txout) else Some data.
Definition input_data (txin : CTxIn) (data : bytes) : option bytes :=
  if CTxIn_IsZerocoinSpend txin then s ← tail_from 44 (scriptSig txin); ParseSerial s else Some data.

Definition scan_output (f : CBloomFilter) (txout : CTxOut) : option bool :=
  scan_script (length (scriptPubKey txout)) f (output_data txout) (scriptPubKey txout).
Definition scan_input (f : CBloomFilter) (txin : CTxIn) : option bool :=
  scan_script (length (scriptSig txin)) f (input_data txin) (scriptSig txin).

(** What a matching output adds to the filter. *)
Definition update_for (f : CBloomFilter) (txout : CTxOut) (outpoint : COutPoint) : option CBloomFilter :=
  let flags := Z.land (nFlags f) BLOOM_UPDATE_MASK in
  if flags =? BLOOM_UPDATE_ALL then insert_outpoint f outpoint
  else if flags =? BLOOM_UPDATE_P2PUBKEY_ONLY then
    let '(ok, type, _) := Solver (scriptPubKey txout) in
    if ok && (bool_decide (type = TX_PUBKEY) || bool_decide (type = TX_MULTISIG)) then insert_outpoint f outpoint else Some f
  else Some f.

(** [for (i = 0; i < tx.vout.size(); i++)] *)
Fixpoint match_outputs (f : CBloomFilter) (hash : bytes) (i : Z) (outs : list CTxOut) (fFound : bool) : option (CBloomFilter * bool) :=
  match outs with
  | [] => Some (f, fFound)
  | txout :: outs =>
      found ← scan_output f txout;
      if found : bool then
        f ← update_for f txout {| op_hash := hash; op_n := i |};
        match_outputs f hash (i + 1) outs true
      else match_outputs f hash (i + 1) outs fFound
  end.

Fixpoint match_inputs (f : CBloomFilter) (ins : list CTxIn) : option bool :=
  match ins with
  | [] => Some false
  | txin :: ins =>
      spent ← contains_outpoint f (prevout txin);
      if spent : bool then Some true
      else
        found ← scan_input f txin;
        if found : bool then Some true else match_inputs f ins
  end.

Definition IsRelevantAndUpdate (f : CBloomFilter) (tx : CTransaction) : option (CBloomFilter * bool) :=
  if isFull f then Some (f, true)
  else if isEmpty f then Some (f, false)
  else
    let hash := CTransaction_GetHash tx in
    fFound ← contains_hash f hash;
    '(f, fFound) ← match_outputs f hash 0 (vout tx) fFound;
    if fFound : bool then Some (f, true)
    else found ← match_inputs f (vin tx); Some (f, found).

(** ** The messages of a peer *)

Definition Serialize_CBloomFilter (f : CBloomFilter) : bytes :=
  Serialize_bytes (vData f) ++ ser_writedata32 (nHashFuncs f) ++ ser_writedata32 (nTweak f) ++ ser_writedata8 (nFlags f).
(** Into a default filter, whose [isFull] and [isEmpty] stay. *)
Definition Unserialize_CBloomFilter : reader CBloomFilter := fun s =>
  let* (d, s) := Unserialize_bytes s in
  let* (nf, s) := ser_readdata32 s in
  let* (tw, s) := ser_readdata32 s in
  let* (fl, s) := ser_readdata8 s in
  Ok ({| vData := d; isFull := true; isEmpty := false; nHashFuncs := nf; nTweak := tw; nFlags := fl |}, s).

(** [pfilter], [fRelayTxes] and the misbehaviour score of a node. *)
Record peer := { pfilter : option CBloomFilter; fRelayTxes : bool; nMisbehavior : Z }.

Definition FILTERLOAD (filter : CBloomFilter) (p : peer) : peer :=
  if negb (IsWithinSizeConstraints filter)
  then {| pfilter := pfilter p; fRelayTxes := true; nMisbehavior := nMisbehavior p + 100 |}
  else {| pfilter := Some (UpdateEmptyFull filter); fRelayTxes := true; nMisbehavior := nMisbehavior p |}.

Definition FILTERADD (data : bytes) (p : peer) : option peer :=
  if MAX_SCRIPT_ELEMENT_SIZE <? zlen data
  then Some {| pfilter := pfilter p; fRelayTxes := fRelayTxes p; nMisbehavior := nMisbehavior p + 100 |}
  else match pfilter p with
       | Some f => f ← bloom_insert f data; Some {| pfilter := Some f; fRelayTxes := fRelayTxes p; nMisbehavior := nMisbehavior p |}
       | None => Some {| pfilter := None; fRelayTxes := fRelayTxes p; nMisbehavior := nMisbehavior p + 100 |}
       end.

Definition FILTERCLEAR (p : peer) : peer :=
  {| pfilter := Some CBloomFilter_default; fRelayTxes := true; nMisbehavior := nMisbehavior p |}.

(** ** [CMerkleBlock] *)

Record CMerkleBlock := { mb_header : CBlockHeader; mb_txn : CPartialMerkleTree; vMatchedTxn : list (Z * bytes) }.

(** The loop over the transactions: [vMatch] and [vMatchedTxn] from index [i] on. *)
Fixpoint match_block (f : CBloomFilter) (i : Z) (txs : list CTransaction) : option (CBloomFilter * list bool * list (Z * bytes)) :=
  match txs with
  | [] => Some (f, [], [])
  | tx :: txs =>
      '(f, rel) ← IsRelevantAndUpdate f tx;
      '(f, vMatch, vMatched) ← match_block f (i + 1) txs;
      Some (f, rel :: vMatch, if rel : bool then (i, CTransaction_GetHash tx) :: vMatched else vMatched)
  end.

Definition CMerkleBlock_new (block : CBlock) (filter : CBloomFilter) : option (CMerkleBlock * CBloomFilter) :=
  '(f, vMatch, vMatched) ← match_block filter 0 (vtx block);
  Some ({| mb_header := GetBlockHeader block; mb_txn := CPartialMerkleTree_new Hash2 (map CTransaction_GetHash (vtx block)) vMatch; vMatchedTxn := vMatched |}, f).
