(* ===== verification/BloomFacts.v ===== *)
(** Correctness of Bloom filters and Merkle blocks: what was added to a filter is always
    found, a filter never loses an element, and the Merkle block of a filter proves every
    transaction that the filter watches. *)

From Stdlib Require Import ZArith Lia.
From stdpp Require Import base tactics list numbers option.
From S2P Require Import Prelude ArithUint256 Hash Serialize Script Standard Transaction Block TxVerify Merkle MerkleFacts PartialMerkle Bloom.

(** ** Bits *)

Lemma bit_mask_pow i : bit_mask i = 2 ^ Z.land 7 i.
Proof. unfold bit_mask. apply Z.shiftl_1_l. Qed.

Lemma land_7 i : 0 <= Z.land 7 i < 8.
Proof. rewrite Z.land_comm. change 7 with (Z.ones 3). rewrite Z.land_ones by lia. apply Z.mod_pos_bound. lia. Qed.

Lemma land_pow_testbit x k : 0 <= k -> negb (Z.land x (2 ^ k) =? 0) = Z.testbit x k.
Proof.
  intros Hk. destruct (Z.testbit x k) eqn:E.
  - apply negb_true_iff, Z.eqb_neq. intros H0. pose proof (f_equal (fun z => Z.testbit z k) H0) as Hb. cbv beta in Hb.
    rewrite Z.land_spec, E, Z.pow2_bits_true, Z.bits_0 in Hb by lia. done.
  - apply negb_false_iff, Z.eqb_eq, Z.bits_inj'. intros m Hm. rewrite Z.land_spec, Z.bits_0, Z.pow2_bits_eqb by lia.
    destruct (Z.eqb_spec k m) as [<-|]; [by rewrite E|apply andb_false_r].
Qed.

Lemma get_bit_testbit d i : get_bit d i = Z.testbit (idx d (Z.shiftr i 3)) (Z.land 7 i).
Proof. unfold get_bit. rewrite bit_mask_pow. apply land_pow_testbit. pose proof (land_7 i). lia. Qed.

Lemma shiftr_3_range i (d : bytes) : 0 <= i < zlen d * 8 -> (Z.to_nat (Z.shiftr i 3) < length d)%nat.
Proof. intros Hi. unfold zlen in *. rewrite Z.shiftr_div_pow2 by lia. change (2 ^ 3) with 8. assert (i / 8 < Z.of_nat (length d)) by (apply Z.div_lt_upper_bound; lia). lia. Qed.

Lemma set_bit_same d i : 0 <= i < zlen d * 8 -> get_bit (set_bit d i) i = true.
Proof.
  intros Hi. pose proof (shiftr_3_range i d Hi). rewrite get_bit_testbit. unfold set_bit, idx at 1.
  rewrite nth_lookup, list_lookup_insert_eq by done. simpl. rewrite bit_mask_pow, Z.lor_spec, Z.pow2_bits_true by (pose proof (land_7 i); lia).
  apply orb_true_r.
Qed.

Lemma set_bit_other d i j : 0 <= j -> get_bit d j = true -> get_bit (set_bit d i) j = true.
Proof.
  rewrite !get_bit_testbit. intros Hj Hb. unfold set_bit, idx at 1. rewrite nth_lookup.
  destruct (decide (Z.to_nat (Z.shiftr i 3) = Z.to_nat (Z.shiftr j 3))) as [E|E].
  - rewrite <- E. destruct (decide (Z.to_nat (Z.shiftr i 3) < length d)%nat) as [Hl|Hl].
    + rewrite list_lookup_insert_eq by done. simpl. rewrite Z.lor_spec. unfold idx in *. rewrite E, Hb. done.
    + rewrite list_insert_ge by lia. rewrite <- nth_lookup. unfold idx in Hb. by rewrite E.
  - rewrite list_lookup_insert_ne by done. rewrite <- nth_lookup. done.
Qed.

(** ** Growth *)

(** A filter of the same shape with at least the elements. *)
Record grows (f f' : CBloomFilter) : Prop := {
  gr_length : length (vData f') = length (vData f);
  gr_full : isFull f' = isFull f; gr_empty : isEmpty f' = true -> isEmpty f = true;
  gr_funcs : nHashFuncs f' = nHashFuncs f; gr_tweak : nTweak f' = nTweak f; gr_flags : nFlags f' = nFlags f;
  gr_bits : forall i, 0 <= i -> get_bit (vData f) i = true -> get_bit (vData f') i = true }.

#[export] Instance grows_preorder : PreOrder grows.
Proof.
  split.
  - intros f. by constructor.
  - intros f g h [] []. constructor; auto; congruence.
Qed.

(** The code computes a hash modulo the size of the data. *)
Definition usable (f : CBloomFilter) : Prop := isFull f = true \/ vData f <> [].

Lemma usable_grows f f' : grows f f' -> usable f -> usable f'.
Proof.
  intros [Hl Hf _ _ _ _ _] [?|Hne]; [left; congruence|right]. intros E. apply Hne. rewrite E in Hl. by destruct (vData f).
Qed.

Lemma bloom_Hash_some f i k : vData f <> [] -> exists x, bloom_Hash f i k = Some x /\ 0 <= x < zlen (vData f) * 8.
Proof.
  intros Hne. unfold bloom_Hash. assert (0 < zlen (vData f)) by (destruct (vData f); [done|unfold zlen; simpl; lia]).
  rewrite (proj2 (Z.eqb_neq _ 0)) by lia. eexists. split; [done|]. apply Z.mod_pos_bound. lia.
Qed.

Lemma bloom_Hash_grows f f' i k : grows f f' -> bloom_Hash f' i k = bloom_Hash f i k.
Proof. intros [Hl _ _ _ Ht _ _]. unfold bloom_Hash, zlen. rewrite Hl, Ht. done. Qed.

Lemma bloom_Hash_nonneg f i k x : bloom_Hash f i k = Some x -> 0 <= x < zlen (vData f) * 8.
Proof.
  unfold bloom_Hash. destruct (Z.eqb_spec (zlen (vData f)) 0); [done|]. intros [= <-]. apply Z.mod_pos_bound. pose proof (zlen_nonneg (vData f)). lia.
Qed.

Lemma contains_loop_mono k : forall i f f' key, grows f f' -> contains_loop k i f key = Some true -> contains_loop k i f' key = Some true.
Proof.
  induction k as [|k IH]; intros i f f' key Hg; [done|]. simpl. rewrite (bloom_Hash_grows f f') by done.
  destruct (bloom_Hash f i key) as [x|] eqn:Ex; [|done]. simpl. destruct (get_bit (vData f) x) eqn:Eb; [|done]. simpl.
  rewrite (gr_bits _ _ Hg) by (done || by apply bloom_Hash_nonneg in Ex; lia). simpl. by apply IH.
Qed.

Lemma contains_mono f f' key : grows f f' -> contains f key = Some true -> contains f' key = Some true.
Proof.
  intros Hg. unfold contains. rewrite (gr_full _ _ Hg), (gr_funcs _ _ Hg). destruct (isFull f); [done|].
  destruct (isEmpty f) eqn:E1, (isEmpty f') eqn:E2; try done; [apply (gr_empty _ _ Hg) in E2; congruence|].
  by apply contains_loop_mono.
Qed.

Lemma contains_total f key : usable f -> exists b, contains f key = Some b.
Proof.
  intros Hu. unfold contains. destruct (isFull f) eqn:Ef; [eauto|]. destruct (isEmpty f); [eauto|].
  destruct Hu as [?|Hne]; [congruence|]. generalize 0 as i. induction (Z.to_nat (nHashFuncs f)) as [|k IH]; intros i; simpl; [eauto|].
  destruct (bloom_Hash_some f i key Hne) as (x & -> & _). simpl. destruct (get_bit _ _); simpl; eauto.
Qed.

Lemma set_bit_grows f x : grows f (with_vData f (set_bit (vData f) x)).
Proof. constructor; simpl; try done; [apply length_insert|]. intros. by apply set_bit_other. Qed.

Lemma insert_loop_spec k : forall i f key, vData f <> [] ->
  exists f', insert_loop k i f key = Some f' /\ grows f f' /\ isEmpty f' = isEmpty f /\ contains_loop k i f' key = Some true.
Proof.
  induction k as [|k IH]; intros i f key Hne; simpl; [exists f; done|].
  destruct (bloom_Hash_some f i key Hne) as (x & Ex & Hx). rewrite Ex. simpl.
  pose proof (set_bit_grows f x) as Hg. set (g := with_vData f (set_bit (vData f) x)) in *.
  destruct (IH (i + 1) g key) as (f' & -> & Hg' & He & Hc).
  { intros E. apply Hne. apply (f_equal length) in E. rewrite (gr_length _ _ Hg) in E. by destruct (vData f). }
  exists f'. split; [done|]. split; [by etrans|]. split; [done|]. rewrite (bloom_Hash_grows f f'), Ex by by etrans. simpl.
  rewrite (gr_bits _ _ Hg') by (lia || by apply set_bit_same). done.
Qed.

Lemma bloom_insert_spec f key : usable f ->
  exists f', bloom_insert f key = Some f' /\ grows f f' /\ contains f' key = Some true.
Proof.
  intros Hu. unfold bloom_insert, contains. destruct (isFull f) eqn:Ef; [exists f; rewrite Ef; done|]. destruct Hu as [?|Hne]; [congruence|].
  destruct (insert_loop_spec (Z.to_nat (nHashFuncs f)) 0 f key Hne) as (f' & -> & Hg & He & Hc).
  exists (with_flags f' (isFull f') false). simpl. rewrite (gr_full _ _ Hg), Ef, (gr_funcs _ _ Hg).
  assert (Hg' : grows f' (with_flags f' false false)) by (constructor; simpl; try done; rewrite (gr_full _ _ Hg); done).
  split; [done|]. split; [by etrans|]. by apply (contains_loop_mono _ _ f').
Qed.

Lemma bloom_insert_grows f key f' : bloom_insert f key = Some f' -> grows f f'.
Proof.
  destruct (isFull f) eqn:Ef; [unfold bloom_insert; rewrite Ef; intros [= <-]; done|].
  destruct (decide (vData f = [])) as [E|E].
  - unfold bloom_insert. rewrite Ef. destruct (Z.to_nat (nHashFuncs f)); simpl; [intros [= <-]|unfold bloom_Hash; rewrite E; done].
    constructor; simpl; try done; congruence.
  - destruct (bloom_insert_spec f key) as (g & Hg & ? & _); [by right|]. intros Hr. by simplify_eq.
Qed.

(** ** Relevant transactions *)

Lemma scan_script_mono fuel : forall f f' data_of pc, usable f' -> grows f f' ->
  scan_script fuel f data_of pc = Some true -> scan_script fuel f' data_of pc = Some true.
Proof.
  induction fuel as [|fuel IH]; intros f f' data_of pc Hu Hg; [done|]. destruct pc as [|c pc]; [done|]. cbn [scan_script].
  destruct (negb (go_ok (GetOp2 (c :: pc)))); [done|]. destruct (data_of _) as [data|]; [|done]. cbn [mbind option_bind].
  destruct (negb (zlen data =? 0)); cbn [mbind option_bind]; [|by apply IH].
  destruct (contains f data) as [[]|] eqn:Ec; [|cbn [mbind option_bind]|done].
  - by rewrite (contains_mono _ _ _ Hg Ec).
  - destruct (contains_total f' data Hu) as [[] ->]; cbn [mbind option_bind]; [done|by apply IH].
Qed.

(** The filter has one of the data of the transaction that the code looks at. *)
Definition watched (f : CBloomFilter) (tx : CTransaction) : Prop :=
  contains_hash f (CTransaction_GetHash tx) = Some true \/
  (exists out, out ∈ vout tx /\ scan_output f out = Some true) \/
  (exists i, i ∈ vin tx /\ (contains_outpoint f (prevout i) = Some true \/ scan_input f i = Some true)).

Lemma watched_grows f f' tx : usable f' -> grows f f' -> watched f tx -> watched f' tx.
Proof.
  intros Hu Hg [H|[(o & Ho & H)|(i & Hi & [H|H])]].
  - left. by eapply contains_mono.
  - right; left. exists o. split; [done|]. by eapply scan_script_mono.
  - right; right. exists i. split; [done|left]. by eapply contains_mono.
  - right; right. exists i. split; [done|right]. by eapply scan_script_mono.
Qed.

Lemma update_for_grows f out op f' : update_for f out op = Some f' -> grows f f'.
Proof.
  unfold update_for. destruct (_ =? _); [apply bloom_insert_grows|]. destruct (_ =? _); [|by intros [= <-]].
  destruct (Solver (scriptPubKey out)) as [[ok ty] sols]. destruct (ok && _); [apply bloom_insert_grows|by intros [= <-]].
Qed.

Lemma match_outputs_grows outs : forall f hash i found f' found',
  match_outputs f hash i outs found = Some (f', found') -> grows f f' /\ (found = true -> found' = true).
Proof.
  induction outs as [|out outs IH]; intros f hash i found f' found'; simpl; [by intros [= <- <-]|].
  destruct (scan_output f out) as [[]|]; simpl; [|apply IH|done].
  destruct (update_for f out _) as [g|] eqn:Eu; [|done]. simpl. intros H. apply IH in H as [? H]. split; [|auto].
  etrans; [by eapply update_for_grows|done].
Qed.

Lemma match_outputs_found outs : forall f hash i found f' found' out, usable f ->
  match_outputs f hash i outs found = Some (f', found') -> out ∈ outs -> scan_output f out = Some true -> found' = true.
Proof.
  induction outs as [|o outs IH]; intros f hash i found f' found' out Hu Hrun Hin Hs; [by apply not_elem_of_nil in Hin|].
  simpl in Hrun. apply elem_of_cons in Hin as [->|Hin].
  - rewrite Hs in Hrun. simpl in Hrun. destruct (update_for f o _) as [g|]; [|done]. apply match_outputs_grows in Hrun as [_ H]. auto.
  - destruct (scan_output f o) as [[]|]; simpl in Hrun; [|by eapply IH|done].
    destruct (update_for f o _) as [g|] eqn:Eu; [|done]. apply match_outputs_grows in Hrun as [_ H]. auto.
Qed.

(** With [BLOOM_UPDATE_ALL] the outpoint of a matching output is added. *)
Lemma match_outputs_outpoint outs : forall f hash i found f' found' k out, usable f ->
  Z.land (nFlags f) BLOOM_UPDATE_MASK = BLOOM_UPDATE_ALL ->
  match_outputs f hash i outs found = Some (f', found') -> outs !! k = Some out -> scan_output f out = Some true ->
  contains_outpoint f' {| op_hash := hash; op_n := i + Z.of_nat k |} = Some true.
Proof.
  induction outs as [|o outs IH]; intros f hash i found f' found' k out Hu Hfl Hrun Hk Hs; [done|]. simpl in Hrun.
  destruct k as [|k]; simpl in Hk.
  - simplify_eq. rewrite Hs in Hrun. simpl in Hrun. unfold update_for in Hrun. rewrite Hfl, Z.eqb_refl in Hrun. rewrite Z.add_0_r.
    destruct (bloom_insert_spec f (Serialize {| op_hash := hash; op_n := i |}) Hu) as (g & Hg & _ & Hc).
    unfold insert_outpoint in Hrun. rewrite Hg in Hrun. apply match_outputs_grows in Hrun as [Hgr _]. by eapply contains_mono.
  - replace (i + Z.of_nat (S k)) with (i + 1 + Z.of_nat k) by lia. destruct (scan_output f o) as [[]|]; simpl in Hrun; [|by eapply IH|done].
    destruct (update_for f o _) as [g|] eqn:Eu; [|done]. apply update_for_grows in Eu.
    eapply (IH g); [by eapply usable_grows|by rewrite (gr_flags _ _ Eu)|done|done|].
    eapply scan_script_mono; [by eapply usable_grows|done|done].
Qed.

Lemma match_inputs_found ins : forall f b i, match_inputs f ins = Some b -> i ∈ ins ->
  contains_outpoint f (prevout i) = Some true \/ scan_input f i = Some true -> b = true.
Proof.
  induction ins as [|x ins IH]; intros f b i Hrun Hin Hw; [by apply not_elem_of_nil in Hin|]. simpl in Hrun.
  destruct (contains_outpoint f (prevout x)) as [[]|] eqn:Ec; simpl in Hrun; [by simplify_eq| |done].
  destruct (scan_input f x) as [[]|] eqn:Es; simpl in Hrun; [by simplify_eq| |done].
  apply elem_of_cons in Hin as [->|Hin]; [destruct Hw; congruence|by eapply IH].
Qed.

Lemma IsRelevantAndUpdate_grows f tx f' b : IsRelevantAndUpdate f tx = Some (f', b) -> grows f f'.
Proof.
  unfold IsRelevantAndUpdate. destruct (isFull f); [by intros [= <- _]|]. destruct (isEmpty f); [by intros [= <- _]|].
  destruct (contains_hash f _) as [fd|]; [|done]. cbn [mbind option_bind].
  destruct (match_outputs f _ 0 (vout tx) fd) as [[g fd']|] eqn:E; [|done]. cbn [mbind option_bind]. apply match_outputs_grows in E as [Hg _].
  destruct fd'; [by intros [= <- _]|]. destruct (match_inputs g (vin tx)); [|done]. by intros [= <- _].
Qed.

Lemma not_watched_empty f tx : isFull f = false -> isEmpty f = true -> ~ watched f tx.
Proof.
  intros Hf He. assert (Hc : forall k, contains f k = Some false) by (intros; unfold contains; by rewrite Hf, He).
  assert (Hs : forall fuel d pc, scan_script fuel f d pc <> Some true).
  { induction fuel as [|fuel IH]; intros d pc; [done|]. destruct pc; [done|]. cbn [scan_script]. destruct (negb _); [done|].
    destruct (d _); [|done]. cbn [mbind option_bind]. rewrite Hc. destruct (negb _); cbn [mbind option_bind]; apply IH. }
  intros [H|[(o & _ & H)|(i & _ & [H|H])]]; try (by eapply Hs, H);
    [unfold contains_hash in H|unfold contains_outpoint in H]; rewrite Hc in H; done.
Qed.

(** A watched transaction is relevant. *)
Lemma watched_relevant f tx f' b : usable f -> IsRelevantAndUpdate f tx = Some (f', b) -> watched f tx -> b = true.
Proof.
  intros Hu Hrun Hw. unfold IsRelevantAndUpdate in Hrun. destruct (isFull f) eqn:Ef; [by simplify_eq|].
  destruct (isEmpty f) eqn:Ee; [by destruct (not_watched_empty f tx)|].
  destruct (contains_hash f _) as [fd|] eqn:Eh; [|done]. cbn [mbind option_bind] in Hrun.
  destruct (match_outputs f _ 0 (vout tx) fd) as [[g fd']|] eqn:Eo; [|done]. cbn [mbind option_bind] in Hrun.
  destruct fd' eqn:Efd; [by simplify_eq|]. destruct (match_inputs g (vin tx)) as [b'|] eqn:Ei; [|done]. simplify_eq/=.
  pose proof (match_outputs_grows _ _ _ _ _ _ _ Eo) as [Hg Hf]. destruct Hw as [H|[(o & Ho & H)|(i & Hi & H)]].
  - rewrite H in Eh. simplify_eq. by specialize (Hf eq_refl).
  - by pose proof (match_outputs_found _ _ _ _ _ _ _ _ Hu Eo Ho H).
  - eapply match_inputs_found; [done|done|]. destruct H as [H|H]; [left; by eapply contains_mono|right].
    eapply scan_script_mono; [by eapply usable_grows|done|done].
Qed.

Lemma spent_watched f tx f' b tx' k out i : usable f -> IsRelevantAndUpdate f tx = Some (f', b) ->
  Z.land (nFlags f) BLOOM_UPDATE_MASK = BLOOM_UPDATE_ALL ->
  vout tx !! k = Some out -> scan_output f out = Some true -> i ∈ vin tx' ->
  prevout i = {| op_hash := CTransaction_GetHash tx; op_n := Z.of_nat k |} -> watched f' tx'.
Proof.
  intros Hu Hrun Hfl Hk Hs Hi Hp. right; right. exists i. split; [done|left]. rewrite Hp. unfold IsRelevantAndUpdate in Hrun.
  destruct (isFull f) eqn:Ef; [simplify_eq; unfold contains_outpoint, contains; by rewrite Ef|].
  destruct (isEmpty f) eqn:Ee.
  { destruct (not_watched_empty f tx Ef Ee). right; left. exists out. split; [by eapply list_elem_of_lookup_2|done]. }
  destruct (contains_hash f _) as [fd|] eqn:Eh; [|done]. cbn [mbind option_bind] in Hrun.
  destruct (match_outputs f _ 0 (vout tx) fd) as [[g fd']|] eqn:Eo; [|done]. cbn [mbind option_bind] in Hrun.
  pose proof (match_outputs_outpoint _ _ _ _ _ _ _ _ _ Hu Hfl Eo Hk Hs) as Hc. rewrite Z.add_0_l in Hc.
  destruct fd'; [by simplify_eq|]. destruct (match_inputs g (vin tx)); by simplify_eq/=.
Qed.

(** ** Merkle blocks *)

Lemma match_block_spec txs : forall f i f' m vm, match_block f i txs = Some (f', m, vm) ->
  length m = length txs /\ map snd vm = select (map CTransaction_GetHash txs) m /\
  (forall j tx, txs !! j = Some tx -> m !! j = Some true -> (i + Z.of_nat j, CTransaction_GetHash tx) ∈ vm).
Proof.
  induction txs as [|tx txs IH]; intros f i f' m vm; simpl; [by intros [= <- <- <-]|].
  destruct (IsRelevantAndUpdate f tx) as [[g rel]|]; [|done]. simpl. destruct (match_block g (i + 1) txs) as [[[h m'] vm']|] eqn:Em; [|done].
  simpl. intros [= <- <- <-]. destruct (IH _ _ _ _ _ Em) as (Hl & Hs & Hin). split_and!.
  - simpl. lia.
  - destruct rel; simpl; by rewrite Hs.
  - intros j tx' Hj Hm. destruct j as [|j]; simpl in *.
    + simplify_eq. rewrite Z.add_0_r. apply elem_of_cons. by left.
    + specialize (Hin j tx' Hj Hm). replace (i + Z.of_nat (S j)) with (i + 1 + Z.of_nat j) by lia.
      destruct rel; [apply elem_of_cons; by right|done].
Qed.

(** The filter before a transaction of the block. *)
Lemma match_block_at txs : forall f i f' m vm j tx, match_block f i txs = Some (f', m, vm) -> txs !! j = Some tx ->
  exists g g' b, grows f g /\ IsRelevantAndUpdate g tx = Some (g', b) /\ m !! j = Some b /\
    exists vm' m', match_block g' (i + Z.of_nat j + 1) (drop (S j) txs) = Some (f', m', vm') /\ m' = drop (S j) m.
Proof.
  induction txs as [|x txs IH]; intros f i f' m vm j tx Hrun Hj; [done|]. simpl in Hrun.
  destruct (IsRelevantAndUpdate f x) as [[g rel]|] eqn:Er; [|done]. simpl in Hrun.
  destruct (match_block g (i + 1) txs) as [[[h m'] vm']|] eqn:Em; [|done]. simplify_eq/=. destruct j as [|j]; simpl in Hj.
  - simplify_eq. exists f, g, rel. split_and!; [done|done|done|]. exists vm', m'. rewrite Z.add_0_r. done.
  - destruct (IH _ _ _ _ _ _ _ Em Hj) as (a & a' & b & Hg & Hr & Hm & vm'' & m'' & Hd & E). exists a, a', b.
    split_and!; [etrans; [by eapply IsRelevantAndUpdate_grows|done]|done|done|]. exists vm'', m''.
    replace (i + Z.of_nat (S j) + 1) with (i + 1 + Z.of_nat j + 1) by lia. done.
Qed.

Lemma match_block_watched txs f i f' m vm j tx : usable f -> match_block f i txs = Some (f', m, vm) -> txs !! j = Some tx ->
  watched f tx -> m !! j = Some true.
Proof.
  intros Hu Hrun Hj Hw. destruct (match_block_at _ _ _ _ _ _ _ _ Hrun Hj) as (g & g' & b & Hg & Hr & Hm & _).
  pose proof (usable_grows _ _ Hg Hu) as Hu'. rewrite Hm. f_equal. eapply watched_relevant; [done|done|by eapply watched_grows].
Qed.

Lemma match_block_spent txs f i f' m vm j j' tx tx' k out x : usable f -> match_block f i txs = Some (f', m, vm) ->
  Z.land (nFlags f) BLOOM_UPDATE_MASK = BLOOM_UPDATE_ALL -> (j < j')%nat ->
  txs !! j = Some tx -> txs !! j' = Some tx' -> vout tx !! k = Some out -> scan_output f out = Some true ->
  x ∈ vin tx' -> prevout x = {| op_hash := CTransaction_GetHash tx; op_n := Z.of_nat k |} -> m !! j' = Some true.
Proof.
  intros Hu Hrun Hfl Hlt Hj Hj' Hk Hs Hx Hp. destruct (match_block_at _ _ _ _ _ _ _ _ Hrun Hj) as (g & g' & b & Hg & Hr & Hm & vm' & m' & Hrest & ->).
  pose proof (usable_grows _ _ Hg Hu) as Hu'. pose proof (IsRelevantAndUpdate_grows _ _ _ _ Hr) as Hg'.
  pose proof (match_block_watched _ _ _ _ _ _ (j' - S j) tx' (usable_grows _ _ Hg' Hu') Hrest) as Hw.
  rewrite !lookup_drop in Hw. replace (S j + (j' - S j))%nat with j' in Hw by lia. apply Hw; [done|].
  eapply (spent_watched g); [done|done|by rewrite (gr_flags _ _ Hg)|done| |done|done]. by eapply scan_script_mono.
Qed.

(** ** The filter of a peer *)

Lemma UpdateEmptyFull_usable f : usable (UpdateEmptyFull f).
Proof. unfold usable. simpl. destruct (vData f); [by left|by right]. Qed.

Lemma zero_bits d i : forallb (fun b => b =? 0) d = true -> get_bit d i = false.
Proof.
  intros Hz. rewrite get_bit_testbit. unfold idx. rewrite forallb_forall in Hz.
  destruct (nth_in_or_default (Z.to_nat (Z.shiftr i 3)) d 0) as [Hin|Hd]; [|rewrite Hd; apply Z.bits_0].
  apply Hz, Z.eqb_eq in Hin. rewrite Hin. apply Z.bits_0.
Qed.

(** The flags [isFull] and [isEmpty] only shorten the lookup. *)
Lemma UpdateEmptyFull_contains f key : 0 < nHashFuncs f ->
  contains_loop (Z.to_nat (nHashFuncs f)) 0 f key = Some true -> contains (UpdateEmptyFull f) key = Some true.
Proof.
  intros Hn Hc. unfold contains. simpl. destruct (forallb _ (vData f)) eqn:Ef; [done|].
  destruct (forallb (fun b => b =? 0) (vData f)) eqn:Ez.
  - exfalso. replace (Z.to_nat (nHashFuncs f)) with (S (Z.to_nat (nHashFuncs f - 1))) in Hc by lia. simpl in Hc.
    destruct (bloom_Hash f 0 key); [|done]. simpl in Hc. by rewrite zero_bits in Hc.
  - assert (H : forall k i, contains_loop k i (with_flags f false false) key = contains_loop k i f key).
    { induction k as [|k IH]; intros i; [done|]. simpl. unfold bloom_Hash. simpl. destruct (_ =? 0); [done|]. simpl. by rewrite IH. }
    rewrite <- Hc. rewrite <- H. unfold UpdateEmptyFull. by rewrite Ef, Ez.
Qed.

(** A sequence of [filteradd] messages. *)
Fixpoint FILTERADDs (datas : list bytes) (p : peer) : option peer :=
  match datas with [] => Some p | d :: datas => p ← FILTERADD d p; FILTERADDs datas p end.

Lemma FILTERADDs_spec datas : forall p f, pfilter p = Some f -> usable f -> Forall (fun d => zlen d <= MAX_SCRIPT_ELEMENT_SIZE) datas ->
  exists p' f', FILTERADDs datas p = Some p' /\ pfilter p' = Some f' /\ nMisbehavior p' = nMisbehavior p /\ grows f f' /\
    forall d, d ∈ datas -> contains f' d = Some true.
Proof.
  induction datas as [|d datas IH]; intros p f Hp Hu Hl; [exists p, f; split_and!; try done; intros d Hd; by apply not_elem_of_nil in Hd|].
  apply Forall_cons_1 in Hl as [Hd Hl]. simpl. unfold FILTERADD at 1. rewrite (proj2 (Z.ltb_ge _ _)), Hp by done.
  destruct (bloom_insert_spec f d Hu) as (g & -> & Hg & Hc). cbn [mbind option_bind].
  destruct (IH {| pfilter := Some g; fRelayTxes := fRelayTxes p; nMisbehavior := nMisbehavior p |} g) as (p' & f' & Hrun & Hp' & Hm & Hg' & Hall);
    [done|by eapply usable_grows|done|].
  exists p', f'. split_and!; try done; [by etrans|]. intros x Hx. apply elem_of_cons in Hx as [->|Hx]; [by eapply contains_mono|auto].
Qed.

(** ** Theorems *)

(** A filter that a peer loads within the size limits, whatever its bytes, and the
    elements it adds afterwards never make the node fail or the peer misbehave; every
    element added is found in the filter, and so is every element of the loaded filter. *)
Theorem peer_filter_keeps filter p datas :
  IsWithinSizeConstraints filter = true -> Forall (fun d => zlen d <= MAX_SCRIPT_ELEMENT_SIZE) datas ->
  exists p' f, FILTERADDs datas (FILTERLOAD filter p) = Some p' /\ pfilter p' = Some f /\ nMisbehavior p' = nMisbehavior p /\
    (forall d, d ∈ datas -> contains f d = Some true) /\
    (forall key, 0 < nHashFuncs filter -> contains_loop (Z.to_nat (nHashFuncs filter)) 0 filter key = Some true -> contains f key = Some true).
Proof.
  intros Hs Hl. unfold FILTERLOAD. rewrite Hs. cbn [negb].
  destruct (FILTERADDs_spec datas {| pfilter := Some (UpdateEmptyFull filter); fRelayTxes := true; nMisbehavior := nMisbehavior p |} _ eq_refl (UpdateEmptyFull_usable filter) Hl)
    as (p' & f & Hrun & Hp & Hm & Hg & Hall).
  exists p', f. split_and!; try done. intros key Hn Hc. eapply contains_mono; [done|]. by apply UpdateEmptyFull_contains.
Qed.

(** C26: The Merkle block that a node computes for a filter extracts to the block's Merkle
    root and the matched transaction ids, and the matched transactions include every
    transaction that the filter watches (by its id, the data in its scripts or the outputs
    it spends) and, when the filter asks for updates, every later transaction of the block
    that spends a watched output. *)
Theorem CMerkleBlock_complete block f mb f' :
  usable f -> 0 < zlen (vtx block) <= MAX_BLOCK_SIZE_CURRENT `quot` 60 -> CMerkleBlock_new block f = Some (mb, f') ->
  ExtractMatches Hash2 (mb_txn mb) = (fst (BlockMerkleRoot block), map snd (vMatchedTxn mb)) /\
  (forall j tx, vtx block !! j = Some tx -> watched f tx -> (Z.of_nat j, CTransaction_GetHash tx) ∈ vMatchedTxn mb) /\
  (Z.land (nFlags f) BLOOM_UPDATE_MASK = BLOOM_UPDATE_ALL ->
   forall j j' tx tx' k out x, (j < j')%nat -> vtx block !! j = Some tx -> vtx block !! j' = Some tx' ->
   vout tx !! k = Some out -> scan_output f out = Some true ->
   x ∈ vin tx' -> prevout x = {| op_hash := CTransaction_GetHash tx; op_n := Z.of_nat k |} ->
   (Z.of_nat j', CTransaction_GetHash tx') ∈ vMatchedTxn mb).
Proof.
  intros Hu Hn Hrun. unfold CMerkleBlock_new in Hrun. destruct (match_block f 0 (vtx block)) as [[[g m] vm]|] eqn:Em; [|done].
  cbn [mbind option_bind] in Hrun. injection Hrun as <- <-. cbn [mb_txn vMatchedTxn].
  destruct (match_block_spec _ _ _ _ _ _ Em) as (Hl & Hs & Hin). split_and!.
  - set (ids := map CTransaction_GetHash (vtx block)) in *. assert (Hlen : zlen ids = zlen (vtx block)) by (unfold ids, zlen; by rewrite length_map).
    rewrite <- Hlen in Hn. change (MAX_BLOCK_SIZE_CURRENT `quot` 60) with 33333 in Hn. assert (Hn31 : 0 < zlen ids <= 2 ^ 31) by lia.
    destruct (MerkleComputation_spec Hash2 ids Hn31 (2 ^ 32 - 1) ltac:(lia)) as (mu & HM & _).
    unfold BlockMerkleRoot, ComputeMerkleRoot. fold ids. rewrite HM, Hs. cbn [fst]. unfold node, top. rewrite Nat2Z.id.
    apply (ExtractMatches_built Hash2 ids Hn31 m ltac:(unfold ids; rewrite length_map; done) _ []); try done.
    + change (MAX_BLOCK_SIZE_CURRENT `quot` 60) with 33333. lia.
    + unfold CPartialMerkleTree_new, u32. rewrite Z.mod_small by lia. destruct (TraverseAndBuild _ _ _ _ _ _). done.
    + unfold CPartialMerkleTree_new. destruct (TraverseAndBuild _ _ _ _ _ _). done.
    + by rewrite app_nil_r.
  - intros j tx Hj Hw. rewrite <- (Z.add_0_l (Z.of_nat j)). apply Hin; [done|]. by eapply match_block_watched.
  - intros Hfl j j' tx tx' k out x Hlt Hj Hj' Hk Hsc Hx Hp. rewrite <- (Z.add_0_l (Z.of_nat j')). apply Hin; [done|]. by eapply match_block_spent.
Qed.

(** ** Witnesses *)

Definition sample_filter : CBloomFilter :=
  {| vData := [0; 0; 0; 0]; isFull := false; isEmpty := true; nHashFuncs := 3; nTweak := 5; nFlags := BLOOM_UPDATE_ALL |}.

Lemma peer_filter_keeps_witness : exists p f,
  FILTERADDs [[1; 2]; [3]] (FILTERLOAD sample_filter {| pfilter := None; fRelayTxes := false; nMisbehavior := 0 |}) = Some p /\
  pfilter p = Some f /\ contains f [3] = Some true.
Proof.
  destruct (peer_filter_keeps sample_filter {| pfilter := None; fRelayTxes := false; nMisbehavior := 0 |} [[1; 2]; [3]]) as (p & f & H1 & H2 & _ & H3 & _);
    [vm_compute; reflexivity|do 2 (apply Forall_cons_2; [vm_compute; congruence|]); apply Forall_nil_2|].
  exists p, f. split; [exact H1|]. split; [exact H2|]. apply H3. vm_compute. apply list_elem_of_further, list_elem_of_here.
Defined.

(** A payment watched by its script, and the transaction that spends it. *)
Definition bloom_tx1 : CTransaction :=
  {| nVersion := 1; vin := [{| prevout := {| op_hash := replicate 32 9; op_n := 0 |}; scriptSig := []; nSequence := 0 |}];
     vout := [{| nValue := 5; scriptPubKey := [2; 7; 7]; nRounds := -10 |}]; nLockTime := 0 |}.
Definition bloom_tx2 : CTransaction :=
  {| nVersion := 1; vin := [{| prevout := {| op_hash := CTransaction_GetHash bloom_tx1; op_n := 0 |}; scriptSig := []; nSequence := 0 |}];
     vout := []; nLockTime := 0 |}.
Definition bloom_filter : CBloomFilter :=
  match bloom_insert (with_flags sample_filter false false) [7; 7] with Some f => f | None => sample_filter end.
Definition bloom_block : CBlock :=
  {| header := {| h_nVersion := 1; hashPrevBlock := uint256_zero; hashMerkleRoot := uint256_zero; nTime := 0; nBits := 0; nNonce := 0; nAccumulatorCheckpoint := uint256_zero |};
     vtx := [bloom_tx1; bloom_tx2]; vchBlockSig := [] |}.

Lemma CMerkleBlock_complete_witness : exists mb f',
  CMerkleBlock_new bloom_block bloom_filter = Some (mb, f') /\ (1, CTransaction_GetHash bloom_tx2) ∈ vMatchedTxn mb.
Proof.
  assert (Hc : (if CMerkleBlock_new bloom_block bloom_filter then true else false) = true) by (vm_compute; reflexivity).
  destruct (CMerkleBlock_new bloom_block bloom_filter) as [[mb f']|] eqn:E; [|discriminate Hc].
  exists mb, f'. split; [reflexivity|].
  destruct (CMerkleBlock_complete bloom_block bloom_filter mb f') as (_ & _ & H); [right; vm_compute; discriminate|vm_compute; split; congruence|exact E|].
  apply (H ltac:(vm_compute; reflexivity) 0%nat 1%nat bloom_tx1 bloom_tx2 0%nat {| nValue := 5; scriptPubKey := [2; 7; 7]; nRounds := -10 |}
           {| prevout := {| op_hash := CTransaction_GetHash bloom_tx1; op_n := 0 |}; scriptSig := []; nSequence := 0 |});
    [apply Nat.ltb_lt; reflexivity|reflexivity|reflexivity|reflexivity|vm_compute; reflexivity|apply list_elem_of_here|reflexivity].
Defined.
