(* ===== verification/BlockTree.v ===== *)
(** The choice of the active chain ([main.cpp]): the set of candidate tips, the search
    for the most work ([FindMostWorkChain]), and the steps that disconnect and connect
    blocks until the best usable candidate is the tip ([ActivateBestChain]).

    Whether a block connects is the verdict of [ConnectTip] (its checks are in
    [Connect]); here it is an input, and so is the result of reading a block to
    disconnect it. Pointer addresses, the last tie break of the order, are an input. *)

From Stdlib Require Import ZArith Lia.
From stdpp Require Import base tactics list numbers gmap strings.
From S2P Require Import Prelude ChainParams Block Chain TxVerify.

(** ** The state *)

Record tree := {
  mapBlockIndex : BlockMap;
  pindexBestInvalid : option ptr;
  setBlockIndexCandidates : gset ptr;
  mapBlocksUnlinked : list (ptr * ptr);
  setDirtyBlockIndex : gset ptr;
  chainActive : CChain;
  nBlockSequenceId : Z;
  pindexBestHeader : option ptr
}.

Definition with_index (t : tree) (ix : BlockMap) : tree :=
  {| mapBlockIndex := ix; pindexBestInvalid := pindexBestInvalid t; setBlockIndexCandidates := setBlockIndexCandidates t;
     mapBlocksUnlinked := mapBlocksUnlinked t; setDirtyBlockIndex := setDirtyBlockIndex t; chainActive := chainActive t;
     nBlockSequenceId := nBlockSequenceId t; pindexBestHeader := pindexBestHeader t |}.
Definition with_invalid (t : tree) (p : option ptr) : tree :=
  {| mapBlockIndex := mapBlockIndex t; pindexBestInvalid := p; setBlockIndexCandidates := setBlockIndexCandidates t;
     mapBlocksUnlinked := mapBlocksUnlinked t; setDirtyBlockIndex := setDirtyBlockIndex t; chainActive := chainActive t;
     nBlockSequenceId := nBlockSequenceId t; pindexBestHeader := pindexBestHeader t |}.
Definition with_candidates (t : tree) (s : gset ptr) : tree :=
  {| mapBlockIndex := mapBlockIndex t; pindexBestInvalid := pindexBestInvalid t; setBlockIndexCandidates := s;
     mapBlocksUnlinked := mapBlocksUnlinked t; setDirtyBlockIndex := setDirtyBlockIndex t; chainActive := chainActive t;
     nBlockSequenceId := nBlockSequenceId t; pindexBestHeader := pindexBestHeader t |}.
Definition with_unlinked (t : tree) (l : list (ptr * ptr)) : tree :=
  {| mapBlockIndex := mapBlockIndex t; pindexBestInvalid := pindexBestInvalid t; setBlockIndexCandidates := setBlockIndexCandidates t;
     mapBlocksUnlinked := l; setDirtyBlockIndex := setDirtyBlockIndex t; chainActive := chainActive t;
     nBlockSequenceId := nBlockSequenceId t; pindexBestHeader := pindexBestHeader t |}.
Definition with_dirty (t : tree) (p : ptr) : tree :=
  {| mapBlockIndex := mapBlockIndex t; pindexBestInvalid := pindexBestInvalid t; setBlockIndexCandidates := setBlockIndexCandidates t;
     mapBlocksUnlinked := mapBlocksUnlinked t; setDirtyBlockIndex := {[p]} ∪ setDirtyBlockIndex t; chainActive := chainActive t;
     nBlockSequenceId := nBlockSequenceId t; pindexBestHeader := pindexBestHeader t |}.
Definition with_chain (t : tree) (c : CChain) : tree :=
  {| mapBlockIndex := mapBlockIndex t; pindexBestInvalid := pindexBestInvalid t; setBlockIndexCandidates := setBlockIndexCandidates t;
     mapBlocksUnlinked := mapBlocksUnlinked t; setDirtyBlockIndex := setDirtyBlockIndex t; chainActive := c;
     nBlockSequenceId := nBlockSequenceId t; pindexBestHeader := pindexBestHeader t |}.

(** [p->nStatus |= f] *)
Definition add_status (ix : BlockMap) (p : ptr) (f : Z) : BlockMap := alter (fun e => with_status e (Z.lor (bi_nStatus e) f)) p ix.
Definition erase_candidate (t : tree) (p : ptr) : tree := with_candidates t (setBlockIndexCandidates t ∖ {[p]}).
Definition tip_of (t : tree) : option ptr := Tip (mapBlockIndex t) (chainActive t) false.
Definition work_at (ix : BlockMap) (p : ptr) : Z := match ix !! p with Some e => bi_nChainWork e | None => 0 end.
Definition sequence_at (ix : BlockMap) (p : ptr) : Z := match ix !! p with Some e => bi_nSequenceId e | None => 0 end.
Definition is_failed (e : CBlockIndex) : bool := has_flag (bi_nStatus e) BLOCK_FAILED_MASK.
Definition has_data (e : CBlockIndex) : bool := has_flag (bi_nStatus e) BLOCK_HAVE_DATA.

Section Selection.
Context (addr : ptr -> Z).

(** [CBlockIndexWorkComparator]: [pa] sorts before [pb]. *)
Definition work_less (ix : BlockMap) (pa pb : ptr) : bool :=
  if work_at ix pb <? work_at ix pa then false
  else if work_at ix pa <? work_at ix pb then true
  else if sequence_at ix pa <? sequence_at ix pb then false
  else if sequence_at ix pb <? sequence_at ix pa then true
  else if addr pa <? addr pb then false
  else if addr pb <? addr pa then true
  else false.

(** [*setBlockIndexCandidates.rbegin()] *)
Definition pick (ix : BlockMap) (p : ptr) (best : option ptr) : option ptr :=
  match best with Some q => if work_less ix q p then Some p else Some q | None => Some p end.
Definition best_candidate (t : tree) : option ptr :=
  foldr (pick (mapBlockIndex t)) None (elements (setBlockIndexCandidates t)).

(** ** [FindMostWorkChain] *)

(** [while (pindexTest && !chainActive.Contains(pindexTest))]: the first block on the
    path that cannot be used, and whether it failed (or has no data). *)
Fixpoint unusable_at (fuel : nat) (t : tree) (pindexTest : option ptr) : vres (option (ptr * bool)) :=
  match fuel, pindexTest with
  | S fuel, Some p =>
      match mapBlockIndex t !! p with
      | None => Err AssertFail
      | Some e =>
          if Contains (mapBlockIndex t) (chainActive t) p then Ok None
          else if (bi_nChainTx e =? 0) && negb (bi_nHeight e =? 0) then Err AssertFail
          else if is_failed e || negb (has_data e) then Ok (Some (p, is_failed e))
          else unusable_at fuel t (bi_pprev e)
      end
  | _, _ => Ok None
  end.

(** [while (pindexTest != pindexFailed)], then the block itself. *)
Fixpoint drop_path (fuel : nat) (t : tree) (pindexFailed pindexTest : ptr) (fFailedChain : bool) : tree :=
  match fuel with
  | O => t
  | S fuel =>
      if decide (pindexTest = pindexFailed) then erase_candidate t pindexTest
      else
        match prev_at (mapBlockIndex t) pindexFailed with
        | None => t
        | Some q =>
            let t := if fFailedChain then with_index t (add_status (mapBlockIndex t) pindexFailed BLOCK_FAILED_CHILD)
                     else with_unlinked t (mapBlocksUnlinked t ++ [(q, pindexFailed)]) in
            drop_path fuel (erase_candidate t pindexFailed) q pindexTest fFailedChain
        end
  end.

Definition note_invalid (t : tree) (p : ptr) : tree :=
  if match pindexBestInvalid t with None => true | Some q => work_at (mapBlockIndex t) q <? work_at (mapBlockIndex t) p end
  then with_invalid t (Some p) else t.

Definition rounds_of (t : tree) (p : ptr) : nat := match height_at (mapBlockIndex t) p with Some h => S (Z.to_nat h) | None => O end.

(** [do { ... } while (true)]; every round that does not return erases a candidate. *)
Fixpoint find_loop (fuel : nat) (t : tree) : vres (option ptr * tree) :=
  match best_candidate t with
  | None => Ok (None, t)
  | Some pindexNew =>
      match unusable_at (rounds_of t pindexNew) t (Some pindexNew) with
      | Err e => Err e
      | Ok None => Ok (Some pindexNew, t)
      | Ok (Some (pindexTest, fFailedChain)) =>
          let t := if fFailedChain then note_invalid t pindexNew else t in
          let t := drop_path (rounds_of t pindexNew) t pindexNew pindexTest fFailedChain in
          match fuel with S fuel => find_loop fuel t | O => Ok (None, t) end
      end
  end.
Definition FindMostWorkChain (t : tree) : vres (option ptr * tree) := find_loop (size (setBlockIndexCandidates t)) t.

(** ** [PruneBlockIndexCandidates]; the error is the failed assertion. *)
Definition PruneBlockIndexCandidates (t : tree) : vres tree :=
  match tip_of t with
  | None => Err AssertFail
  | Some tip =>
      let s := filter (fun p => work_less (mapBlockIndex t) p tip = false) (setBlockIndexCandidates t) in
      if decide (s = ∅) then Err AssertFail else Ok (with_candidates t s)
  end.

(** ** Tips *)

(** The verdict of connecting a block: the place of its undo data ([None] for the
    genesis block), or the rejection. *)
Context (connect : tree -> ptr -> vres (option Z)).
(** Whether the block at the tip can be read and disconnected. *)
Context (disconnect : tree -> ptr -> bool).

(** Its log line dereferences the tip of the active chain, which is null before the
    genesis block is connected; the log is not modelled. *)
Definition InvalidChainFound (t : tree) (p : ptr) : tree := note_invalid t p.

Definition InvalidBlockFound (t : tree) (p : ptr) (state : CValidationState) : tree :=
  if negb (corruptionPossible state) then
    InvalidChainFound (erase_candidate (with_dirty (with_index t (add_status (mapBlockIndex t) p BLOCK_FAILED_VALID)) p) p) p
  else t.

(** The entry after [ConnectBlock] wrote the undo data. *)
Definition mark_connected (e : CBlockIndex) (pos : Z) : CBlockIndex :=
  if dp_IsNull (GetUndoPos e) || negb (bi_IsValid e BLOCK_VALID_SCRIPTS) then
    let e := if dp_IsNull (GetUndoPos e) then
      {| bi_pprev := bi_pprev e; bi_pskip := bi_pskip e; bi_nHeight := bi_nHeight e; bi_nFile := bi_nFile e; bi_nDataPos := bi_nDataPos e;
         bi_nUndoPos := pos; bi_nChainWork := bi_nChainWork e; bi_nTx := bi_nTx e; bi_nChainTx := bi_nChainTx e;
         bi_nStatus := Z.lor (bi_nStatus e) BLOCK_HAVE_UNDO; bi_vStakeModifier := bi_vStakeModifier e; bi_nFlags := bi_nFlags e;
         bi_nVersion := bi_nVersion e; bi_hashMerkleRoot := bi_hashMerkleRoot e; bi_nTime := bi_nTime e; bi_nBits := bi_nBits e;
         bi_nNonce := bi_nNonce e; bi_nAccumulatorCheckpoint := bi_nAccumulatorCheckpoint e; bi_nSequenceId := bi_nSequenceId e |}
      else e in
    snd (RaiseValidity e BLOCK_VALID_SCRIPTS)
  else e.

Definition UpdateTip (t : tree) (p : option ptr) : tree := with_chain t (SetTip (mapBlockIndex t) (chainActive t) p).

(** The state, and whether the call succeeded. *)
Definition ConnectTip (t : tree) (p : ptr) : vres unit * tree :=
  if negb (bool_decide (prev_at (mapBlockIndex t) p = tip_of t)) then (Err AssertFail, t)
  else
    match connect t p with
    | Err e =>
        let state := state_after CValidationState_new (@Err _ unit e) in
        (Err e, if state_IsInvalid state then InvalidBlockFound t p state else t)
    | Ok pos =>
        let t := match pos with
                 | Some pos => with_dirty (with_index t (alter (fun e => mark_connected e pos) p (mapBlockIndex t))) p
                 | None => t
                 end in
        (Ok tt, UpdateTip t (Some p))
    end.

Definition DisconnectTip (t : tree) : vres unit * tree :=
  match tip_of t with
  | None => (Err AssertFail, t)
  | Some p => if disconnect t p then (Ok tt, UpdateTip t (prev_at (mapBlockIndex t) p)) else (Err (Failed "DisconnectTip"), t)
  end.

(** ** [ActivateBestChainStep] *)

(** [while (chainActive.Tip() && chainActive.Tip() != pindexFork)] *)
Fixpoint disconnect_to (fuel : nat) (t : tree) (pindexFork : option ptr) : vres unit * tree :=
  match fuel with
  | O => (Ok tt, t)
  | S fuel =>
      match tip_of t with
      | None => (Ok tt, t)
      | Some p =>
          if decide (Some p = pindexFork) then (Ok tt, t)
          else
            match DisconnectTip t with
            | (Ok _, t) => disconnect_to fuel t pindexFork
            | (Err e, t) => (Err e, t)
            end
      end
  end.

(** [while (pindexIter && pindexIter->nHeight != nHeight)]: from the highest down. *)
Fixpoint path_down (fuel : nat) (ix : BlockMap) (pindexIter : option ptr) (nHeight : Z) : list ptr :=
  match fuel, pindexIter with
  | S fuel, Some p =>
      match ix !! p with
      | None => []
      | Some e => if bi_nHeight e =? nHeight then [] else p :: path_down fuel ix (bi_pprev e) nHeight
      end
  | _, _ => []
  end.

(** How the loop over a batch ends: all connected, stopped early, an invalid block, or
    an error that the caller returns. *)
Inductive batch_end := Batch_done | Batch_better | Batch_invalid | Batch_error (e : reject).

Fixpoint connect_batch (t : tree) (pindexOldTip : option ptr) (back : ptr) (l : list ptr) : batch_end * tree :=
  match l with
  | [] => (Batch_done, t)
  | p :: l =>
      match ConnectTip t p with
      | (Err e, t) =>
          let state := state_after CValidationState_new (@Err _ unit e) in
          if state_IsInvalid state then
            (Batch_invalid, if negb (corruptionPossible state) then InvalidChainFound t back else t)
          else (Batch_error e, t)
      | (Ok _, t) =>
          match PruneBlockIndexCandidates t with
          | Err e => (Batch_error e, t)
          | Ok t =>
              if match pindexOldTip, tip_of t with
                 | Some old, Some new => work_at (mapBlockIndex t) old <? work_at (mapBlockIndex t) new
                 | _, _ => true
                 end
              then (Batch_better, t)
              else connect_batch t pindexOldTip back l
          end
      end
  end.

(** [while (fContinue && nHeight != pindexMostWork->nHeight)]: 32 blocks at a time. *)
Fixpoint connect_loop (fuel : nat) (t : tree) (pindexOldTip : option ptr) (pindexMostWork : ptr) (nHeight target : Z) : vres unit * tree :=
  match fuel with
  | O => (Ok tt, t)
  | S fuel =>
      if nHeight =? target then (Ok tt, t)
      else
        let nTargetHeight := Z.min (nHeight + 32) target in
        let vpindexToConnect :=
          path_down (Z.to_nat (nTargetHeight - nHeight)) (mapBlockIndex t) (GetAncestor (mapBlockIndex t) pindexMostWork nTargetHeight) nHeight in
        match connect_batch t pindexOldTip (default pindexMostWork (last vpindexToConnect)) (reverse vpindexToConnect) with
        | (Batch_done, t) => connect_loop fuel t pindexOldTip pindexMostWork nTargetHeight target
        | (Batch_better, t) | (Batch_invalid, t) => (Ok tt, t)
        | (Batch_error e, t) => (Err e, t)
        end
  end.

Definition ActivateBestChainStep (t : tree) (pindexMostWork : ptr) : vres unit * tree :=
  match height_at (mapBlockIndex t) pindexMostWork with
  | None => (Err AssertFail, t)
  | Some target =>
      let pindexOldTip := tip_of t in
      let pindexFork := FindFork (mapBlockIndex t) (chainActive t) (Some pindexMostWork) in
      match disconnect_to (length (chainActive t)) t pindexFork with
      | (Err e, t) => (Err e, t)
      | (Ok _, t) =>
          let nHeight := match pindexFork ≫= height_at (mapBlockIndex t) with Some h => h | None => -1 end in
          connect_loop (Z.to_nat (target - nHeight)) t pindexOldTip pindexMostWork nHeight target
      end
  end.

(** ** [ActivateBestChain]; [None]: more rounds are needed than [fuel]. *)
Fixpoint activate_loop (fuel : nat) (t : tree) : option (vres unit * tree) :=
  match FindMostWorkChain t with
  | Err e => Some (Err e, t)
  | Ok (None, t) => Some (Ok tt, t)
  | Ok (Some pindexMostWork, t) =>
      if decide (tip_of t = Some pindexMostWork) then Some (Ok tt, t)
      else
        match ActivateBestChainStep t pindexMostWork with
        | (Err e, t) => Some (Err e, t)
        | (Ok _, t) =>
            if decide (tip_of t = Some pindexMostWork) then Some (Ok tt, t)
            else match fuel with O => None | S fuel => activate_loop fuel t end
        end
  end.
Definition ActivateBestChain := activate_loop.
End Selection.
