(* ===== verification/ChainSelection.v ===== *)
(** The search for the most work: [FindMostWorkChain] returns the best candidate whose
    path to the active chain can be used, and loses no usable candidate. *)

From Stdlib Require Import ZArith Lia.
From stdpp Require Import base tactics list numbers gmap strings.
From S2P Require Import Prelude ChainParams Block Chain TxVerify BlockTree.

(** ** What marking a block leaves alone *)

(** Where an entry is, and what has been counted for it. *)
Definition links (e : CBlockIndex) := (bi_pprev e, bi_pskip e, bi_nHeight e, bi_nChainWork e).
Definition heading (e : CBlockIndex) := (bi_nTime e, bi_nBits e, bi_nVersion e).
Definition shape (e : CBlockIndex) := (links e, bi_nChainTx e, bi_nSequenceId e, bi_nTx e, has_data e, heading e).
Definition same_links (ix ix' : BlockMap) : Prop := links <$> ix' = links <$> ix.
Definition same_shape (ix ix' : BlockMap) : Prop := shape <$> ix' = shape <$> ix.

#[export] Instance same_links_equivalence : Equivalence same_links.
Proof. split; [intros ? | intros ??? | intros ? ? ? H1 H2]; unfold same_links in *; congruence. Qed.
#[export] Instance same_shape_equivalence : Equivalence same_shape.
Proof. split; [intros ? | intros ??? | intros ? ? ? H1 H2]; unfold same_shape in *; congruence. Qed.

Lemma fmap_alter_same {A} (f : CBlockIndex -> A) (ix : BlockMap) p g : (forall e, ix !! p = Some e -> f (g e) = f e) -> f <$> alter g p ix = f <$> ix.
Proof.
  intros Hf. apply map_eq. intros q. rewrite !lookup_fmap. destruct (decide (p = q)) as [<- |].
  - rewrite lookup_alter_eq. destruct (ix !! p) eqn:E; cbn; [by rewrite (Hf _ eq_refl) | done].
  - by rewrite lookup_alter_ne.
Qed.

Lemma same_shape_at ix ix' p : same_shape ix ix' -> shape <$> (ix' !! p) = shape <$> (ix !! p).
Proof. unfold same_shape. intros H. rewrite <- !lookup_fmap. by rewrite H. Qed.
Lemma same_links_at ix ix' p : same_links ix ix' -> links <$> (ix' !! p) = links <$> (ix !! p).
Proof. unfold same_links. intros H. rewrite <- !lookup_fmap. by rewrite H. Qed.

Lemma same_shape_alter ix p f : (forall e, shape (f e) = shape e) -> same_shape ix (alter f p ix).
Proof. intros Hf. by apply fmap_alter_same. Qed.

Lemma shape_links ix ix' : same_shape ix ix' -> same_links ix ix'.
Proof.
  intros Hs. apply map_eq. intros p. rewrite !lookup_fmap. pose proof (same_shape_at _ _ p Hs) as H.
  destruct (ix !! p), (ix' !! p); cbn in *; try done. injection H as H1 H2 H3 H4 _ _ _ _. unfold links. congruence.
Qed.
Coercion shape_links : same_shape >-> same_links.

Section SameLinks.
Context (ix ix' : BlockMap) (Hs : same_links ix ix').

Lemma shape_height p : height_at ix' p = height_at ix p.
Proof. pose proof (same_links_at _ _ p Hs) as H. unfold height_at. destruct (ix !! p), (ix' !! p); cbn in *; try done. by injection H as _ _ ->. Qed.
Lemma shape_prev p : prev_at ix' p = prev_at ix p.
Proof. pose proof (same_links_at _ _ p Hs) as H. unfold prev_at. destruct (ix !! p), (ix' !! p); cbn in *; try done. by injection H as ->. Qed.
Lemma shape_work p : work_at ix' p = work_at ix p.
Proof. pose proof (same_links_at _ _ p Hs) as H. unfold work_at. destruct (ix !! p), (ix' !! p); cbn in *; try done. by injection H. Qed.
Lemma shape_Contains c p : Contains ix' c p = Contains ix c p.
Proof. unfold Contains. by rewrite shape_height. Qed.
Lemma shape_Tip c : Tip ix' c false = Tip ix c false.
Proof. done. Qed.
Lemma shape_back n p : back ix' n p = back ix n p.
Proof. revert p. induction n as [| n IH]; intros p; cbn [back]; [done |]. rewrite shape_prev. destruct (prev_at ix p); cbn; [apply IH | done]. Qed.
Lemma shape_ancestor p k : ancestor ix' p k = ancestor ix p k.
Proof. unfold ancestor. rewrite shape_height. destruct (height_at ix p); [| done]. by rewrite shape_back. Qed.
Lemma shape_branch p h : branch ix' p h = branch ix p h.
Proof. unfold branch. apply map_ext. intros k. apply shape_ancestor. Qed.
Lemma shape_chain_ok c : chain_ok ix c -> chain_ok ix' c.
Proof. intros [-> | (p & h & Hp & ->)]; [by left |]. right. exists p, h. by rewrite shape_height, shape_branch. Qed.
Lemma shape_linked : linked ix -> linked ix'.
Proof.
  intros Hix p e' He'. pose proof (same_links_at _ _ p Hs) as H. rewrite He' in H. destruct (ix !! p) as [e |] eqn:He; [| done].
  cbn in H. pose proof (Hix _ _ He) as Hl. unfold links in H. injection H as E1 E2 E3 _. unfold entry_linked in *. rewrite E1, E2, E3.
  destruct (bi_pprev e) as [q |]; [| done]. destruct Hl as (h & ? & ? & ? & ?). exists h. by rewrite shape_height, shape_ancestor.
Qed.
Lemma shape_rounds t t' p : mapBlockIndex t = ix -> mapBlockIndex t' = ix' -> rounds_of t' p = rounds_of t p.
Proof. intros E E'. unfold rounds_of. by rewrite E, E', shape_height. Qed.
Lemma shape_some r e' : ix' !! r = Some e' -> is_Some (ix !! r).
Proof. intros He. pose proof (same_links_at _ _ r Hs) as H. rewrite He in H. by destruct (ix !! r). Qed.
End SameLinks.

Section SameShape.
Context (ix ix' : BlockMap) (Hs : same_shape ix ix').
Lemma shape_sequence p : sequence_at ix' p = sequence_at ix p.
Proof. pose proof (same_shape_at _ _ p Hs) as H. unfold sequence_at. destruct (ix !! p), (ix' !! p); cbn in *; try done. by injection H. Qed.
Lemma shape_less addr p q : work_less addr ix' p q = work_less addr ix p q.
Proof. unfold work_less. by rewrite !(shape_work _ _ Hs), !shape_sequence. Qed.
End SameShape.

(** ** The order of the candidates *)

Section Order.
Context (addr : ptr -> Z) (Haddr : forall p q, addr p = addr q -> p = q) (ix : BlockMap).
Notation less := (work_less addr ix).

(** The order as a comparison of triples. *)
Lemma less_iff p q : less p q = true <->
  work_at ix p < work_at ix q \/ (work_at ix p = work_at ix q /\ (sequence_at ix q < sequence_at ix p \/
    (sequence_at ix p = sequence_at ix q /\ addr q < addr p))).
Proof using Type.
  unfold work_less. destruct (Z.ltb_spec (work_at ix q) (work_at ix p)); [split; [done | lia] |].
  destruct (Z.ltb_spec (work_at ix p) (work_at ix q)); [split; [lia | done] |].
  destruct (Z.ltb_spec (sequence_at ix p) (sequence_at ix q)); [split; [done | lia] |].
  destruct (Z.ltb_spec (sequence_at ix q) (sequence_at ix p)); [split; [lia | done] |].
  destruct (Z.ltb_spec (addr p) (addr q)); [split; [done | lia] |].
  destruct (Z.ltb_spec (addr q) (addr p)); [split; [lia | done] | split; [done | lia]].
Qed.

Lemma less_total p q : p = q \/ less p q = true \/ less q p = true.
Proof using Haddr. destruct (decide (addr p = addr q)) as [E | Hne]; [left; by apply Haddr | right]. rewrite !less_iff. lia. Qed.

Lemma less_trans p q r : less p q = true -> less q r = true -> less p r = true.
Proof using Type. rewrite !less_iff. lia. Qed.
Lemma less_irrefl p : less p p = false.
Proof using Type. apply not_true_iff_false. rewrite less_iff. lia. Qed.

Lemma pick_best l : match foldr (pick addr ix) None l with
  | None => l = []
  | Some p => p ∈ l /\ forall c, c ∈ l -> c = p \/ less c p = true
  end.
Proof using Haddr.
  induction l as [| x l IH]; cbn [foldr]; [done |]. destruct (foldr (pick addr ix) None l) as [p |]; cbn [pick].
  - destruct IH as [Hin Hall]. destruct (less p x) eqn:E.
    + split; [left |]. intros c [-> | Hc]%elem_of_cons; [by left |]. right. destruct (Hall c Hc) as [-> | Hlt]; [done | by apply (less_trans _ p)].
    + split; [by right |]. intros c [-> | Hc]%elem_of_cons; [| by apply Hall]. destruct (less_total x p) as [-> | [? | ?]]; [by left | by right | congruence].
  - subst. split; [left |]. intros c [-> | Hc%elem_of_nil]%elem_of_cons; [by left | done].
Qed.
End Order.

(** ** Usable candidates *)

(** Every block between the candidate and the active chain is there and has not failed. *)
Definition usable (t : tree) (p : ptr) : Prop :=
  forall k q e, ancestor (mapBlockIndex t) p k = Some q -> Contains (mapBlockIndex t) (chainActive t) q = false ->
    mapBlockIndex t !! q = Some e -> is_failed e = false /\ has_data e = true.

(** Every block of the branch has its transactions counted. *)
Definition assembled (ix : BlockMap) (p : ptr) : Prop :=
  forall k q e, ancestor ix p k = Some q -> ix !! q = Some e -> bi_nChainTx e <> 0 \/ bi_nHeight e = 0.

Record tree_ok (t : tree) : Prop := {
  ok_linked : linked (mapBlockIndex t);
  ok_chain : chain_ok (mapBlockIndex t) (chainActive t);
  ok_candidates : forall p, p ∈ setBlockIndexCandidates t -> is_Some (mapBlockIndex t !! p) /\ assembled (mapBlockIndex t) p
}.

(** What a search may change: marks on blocks that were already unusable, and the
    candidates through them. *)
Record search_step (t t' : tree) : Prop := {
  ss_shape : same_shape (mapBlockIndex t) (mapBlockIndex t');
  ss_chain : chainActive t' = chainActive t;
  ss_fewer : setBlockIndexCandidates t' ⊆ setBlockIndexCandidates t;
  ss_usable : forall p, usable t' p <-> usable t p;
  ss_kept : forall p, p ∈ setBlockIndexCandidates t -> usable t p -> p ∈ setBlockIndexCandidates t';
  ss_verdict : forall r e e', mapBlockIndex t !! r = Some e -> mapBlockIndex t' !! r = Some e' ->
    has_data e' = has_data e /\ (is_failed e' = false -> is_failed e = false)
}.

Lemma search_refl t : search_step t t.
Proof. split; try done. intros r e e' He He'. assert (e' = e) as -> by congruence. done. Qed.
Lemma search_trans t1 t2 t3 : search_step t1 t2 -> search_step t2 t3 -> search_step t1 t3.
Proof.
  intros [A1 A2 A3 A4 A5 A6] [B1 B2 B3 B4 B5 B6]. split.
  - by etrans.
  - congruence.
  - set_solver.
  - intros p. by rewrite B4, A4.
  - intros p Hp Hu. apply B5; [by apply A5 |]. by apply A4.
  - intros r e e' He He'. destruct (shape_some _ _ B1 _ _ He') as [f Hf]. destruct (A6 r e f He Hf) as [E1 E2], (B6 r f e' Hf He') as [E3 E4].
    split; [congruence | auto].
Qed.

Lemma shape_ok t t' : tree_ok t -> same_shape (mapBlockIndex t) (mapBlockIndex t') -> setBlockIndexCandidates t' ⊆ setBlockIndexCandidates t ->
  chain_ok (mapBlockIndex t') (chainActive t') -> tree_ok t'.
Proof.
  intros [H1 H2 H3] A1 A2 Hch. split; [by apply (shape_linked _ _ A1) | done |].
  intros p Hp. destruct (H3 p (A2 p Hp)) as [[e He] Ha]. pose proof (same_shape_at _ _ p A1) as Hs. rewrite He in Hs.
  split; [destruct (mapBlockIndex t' !! p); done |]. intros k q e' Hq He'. rewrite (shape_ancestor _ _ A1) in Hq.
  pose proof (same_shape_at _ _ q A1) as Hsq. rewrite He' in Hsq. destruct (mapBlockIndex t !! q) as [f |] eqn:Hf; [| done].
  cbn in Hsq. injection Hsq as _ _ E1 _ E2 _ _ _. rewrite E1, E2. by apply (Ha k q).
Qed.

Lemma search_ok t t' : tree_ok t -> search_step t t' -> tree_ok t'.
Proof.
  intros Hok [A1 A2 A3 _ _ _]. apply (shape_ok t); [done | done | done |]. rewrite A2. apply (shape_chain_ok _ _ A1), Hok.
Qed.

Lemma contains_down ix c q k r : linked ix -> chain_ok ix c -> Contains ix c q = true -> ancestor ix q k = Some r -> Contains ix c r = true.
Proof.
  intros Hix [-> | (p & h & Hp & ->)] Hq Hr.
  - unfold Contains in Hq. destruct (height_at ix q) as [j |]; [| done]. unfold chain_at in Hq. rewrite orb_comm in Hq.
    change (zlen (A := option ptr) []) with 0 in Hq. destruct (Z.leb_spec 0 j), (Z.ltb_spec j 0); cbn in Hq; first [done | lia].
  - apply (branch_Contains ix Hix p h q Hp) in Hq as [j Hj]. apply (branch_Contains ix Hix p h r Hp). exists k.
    assert (Hq : height_at ix q = Some j) by (by apply (ancestor_height ix Hix p h)).
    pose proof (ancestor_range ix q j k r Hq Hr). by rewrite (ancestor_trans ix Hix p q j k Hj) by lia.
Qed.

Section Search.
Context (t : tree) (Hix : linked (mapBlockIndex t)) (Hchain : chain_ok (mapBlockIndex t) (chainActive t)).
Notation ix := (mapBlockIndex t).

Lemma contained_usable p : Contains ix (chainActive t) p = true -> usable t p.
Proof using Hix Hchain. intros Hp k q e Hq Hn _. by rewrite (contains_down _ _ _ _ _ Hix Hchain Hp Hq) in Hn. Qed.

(** The first block of the path that cannot be used. *)
Definition blocked_at (p q : ptr) (failed : bool) : Prop :=
  exists k e, ancestor ix p k = Some q /\ Contains ix (chainActive t) q = false /\ ix !! q = Some e /\
    failed = is_failed e /\ (is_failed e || negb (has_data e)) = true.

Lemma blocked_unusable p q f : blocked_at p q f -> ~ usable t p.
Proof using Type. intros (k & e & Ha & Hc & He & -> & Hb) Hu. destruct (Hu k q e Ha Hc He) as [E1 E2]. by rewrite E1, E2 in Hb. Qed.

Lemma unusable_at_spec fuel p h : height_at ix p = Some h -> h < Z.of_nat fuel -> assembled ix p ->
  exists r, unusable_at fuel t (Some p) = Ok r /\ match r with None => usable t p | Some (q, f) => blocked_at p q f end.
Proof using Hix Hchain.
  revert p h. induction fuel as [| fuel IH]; intros p h Hp Hf Has; cbn [unusable_at].
  { destruct (linked_prev ix Hix p h Hp). lia. }
  assert (Hp' := Hp). unfold height_at in Hp'. destruct (ix !! p) as [e |] eqn:He; [| done]. injection Hp' as Hh.
  destruct (Contains ix (chainActive t) p) eqn:Ec; [exists None; split; [done | by apply contained_usable] |].
  pose proof (ancestor_self ix Hix p h Hp) as Hself.
  destruct ((bi_nChainTx e =? 0) && negb (bi_nHeight e =? 0)) eqn:Ea.
  { exfalso. bprop. destruct (Has h p e Hself He); bprop; lia. }
  destruct (is_failed e || negb (has_data e)) eqn:Eb.
  { exists (Some (p, is_failed e)). split; [done |]. by exists h, e. }
  apply orb_false_iff in Eb as [Ef Ed]. apply negb_false_iff in Ed. destruct (linked_prev ix Hix p h Hp) as [H0 Hl].
  destruct (decide (h = 0)) as [-> | Hne].
  - pose proof (root_prev ix Hix p Hp) as Hn. unfold prev_at in Hn. rewrite He in Hn. cbn in Hn. rewrite Hn.
    exists None. split; [by destruct fuel |]. intros k q e' Hq _ He'. pose proof (ancestor_range ix p 0 k q Hp Hq). assert (k = 0) as -> by lia.
    assert (q = p) as -> by congruence. assert (e' = e) as -> by congruence. done.
  - destruct (Hl ltac:(lia)) as (q & Hq & Hhq & _). unfold prev_at in Hq. rewrite He in Hq. cbn in Hq. rewrite Hq.
    assert (Hprev : prev_at ix p = Some q) by (unfold prev_at; rewrite He; done).
    assert (Hdown : forall k, 0 <= k < h -> ancestor ix p k = ancestor ix q k) by (intros; by apply (ancestor_prev ix Hix p h q)).
    destruct (IH q (h - 1) Hhq ltac:(lia)) as (r & Hr & Hspec).
    { intros k x e' Hx. pose proof (ancestor_range ix q (h - 1) k x Hhq Hx). apply (Has k). by rewrite Hdown by lia. }
    exists r. split; [done |]. destruct r as [[q' f] |].
    + destruct Hspec as (k & e' & Ha & Hrest). exists k, e'. split; [| done]. pose proof (ancestor_range ix q (h - 1) k q' Hhq Ha). by rewrite Hdown by lia.
    + intros k x e' Hx Hc He'. pose proof (ancestor_range ix p h k x Hp Hx). destruct (decide (k = h)) as [-> | ?].
      * assert (x = p) as -> by congruence. assert (e' = e) as -> by congruence. done.
      * rewrite Hdown in Hx by lia. by apply (Hspec k x e').
Qed.
End Search.

(** ** Dropping a path *)

Definition mark_child (e : CBlockIndex) : CBlockIndex := with_status e (Z.lor (bi_nStatus e) BLOCK_FAILED_CHILD).

Lemma mark_child_failed e : is_failed (mark_child e) = true.
Proof.
  unfold is_failed, has_flag. cbn [mark_child with_status bi_nStatus]. apply negb_true_iff, Z.eqb_neq. intros E.
  assert (Ht : Z.testbit (Z.land (Z.lor (bi_nStatus e) BLOCK_FAILED_CHILD) BLOCK_FAILED_MASK) 6 = false) by (by rewrite E).
  rewrite Z.land_spec, Z.lor_spec in Ht. change (Z.testbit BLOCK_FAILED_CHILD 6) with true in Ht. change (Z.testbit BLOCK_FAILED_MASK 6) with true in Ht.
  by rewrite orb_true_r in Ht.
Qed.

Lemma mark_child_data e : has_data (mark_child e) = has_data e.
Proof.
  unfold has_data, has_flag, mark_child. cbn [with_status bi_nStatus]. rewrite Z.land_lor_distr_l.
  change (Z.land BLOCK_FAILED_CHILD BLOCK_HAVE_DATA) with 0. by rewrite Z.lor_0_r.
Qed.

Lemma mark_child_shape e : shape (mark_child e) = shape e.
Proof. unfold shape. by rewrite mark_child_data. Qed.

(** What [drop_path] from [p] down to [q] does. *)
Record dropped (t t' : tree) (p q : ptr) (failed : bool) : Prop := {
  dr_shape : same_shape (mapBlockIndex t) (mapBlockIndex t');
  dr_chain : chainActive t' = chainActive t;
  dr_fewer : setBlockIndexCandidates t' ⊆ setBlockIndexCandidates t;
  dr_gone : p ∉ setBlockIndexCandidates t';
  dr_path : forall c, c ∈ setBlockIndexCandidates t -> c ∉ setBlockIndexCandidates t' ->
    exists j k, ancestor (mapBlockIndex t) p j = Some c /\ ancestor (mapBlockIndex t) c k = Some q;
  dr_entries : forall r, mapBlockIndex t' !! r = mapBlockIndex t !! r \/
    (failed = true /\ mapBlockIndex t' !! r = mark_child <$> mapBlockIndex t !! r /\
      exists j k, ancestor (mapBlockIndex t) p j = Some r /\ ancestor (mapBlockIndex t) r k = Some q)
}.

Lemma drop_path_spec fuel t p q failed h k : linked (mapBlockIndex t) -> height_at (mapBlockIndex t) p = Some h ->
  ancestor (mapBlockIndex t) p k = Some q -> h - k < Z.of_nat fuel -> dropped t (drop_path fuel t p q failed) p q failed.
Proof.
  revert t p h. induction fuel as [| fuel IH]; intros t p h Hix Hp Hq Hf; [pose proof (ancestor_range _ p h k q Hp Hq); lia |].
  cbn [drop_path]. pose proof (ancestor_self _ Hix p h Hp) as Hself. destruct (decide (q = p)) as [-> | Hne].
  { split; cbn; [reflexivity | done | set_solver | set_solver | | by left]. intros c Hc Hn. destruct (decide (c = p)) as [-> | ?]; [by exists h, h | exfalso; set_solver]. }
  pose proof (ancestor_range _ p h k q Hp Hq) as Hk. assert (k <> h) by (intros ->; congruence).
  destruct (linked_prev _ Hix p h Hp) as [_ Hl]. destruct (Hl ltac:(lia)) as (p1 & Hp1 & Hh1 & _). rewrite Hp1.
  assert (Hq1 : ancestor (mapBlockIndex t) p1 k = Some q) by (rewrite <- (ancestor_prev _ Hix p h p1 k Hp Hp1) by lia; done).
  set (t1 := if failed then with_index t (add_status (mapBlockIndex t) p BLOCK_FAILED_CHILD) else with_unlinked t (mapBlocksUnlinked t ++ [(p1, p)])).
  assert (Hsh : same_shape (mapBlockIndex t) (mapBlockIndex t1)) by (unfold t1; destruct failed; [apply same_shape_alter, mark_child_shape | reflexivity]).
  assert (Hc1 : chainActive t1 = chainActive t /\ setBlockIndexCandidates t1 = setBlockIndexCandidates t) by (unfold t1; by destruct failed).
  destruct Hc1 as [Hch Hca].
  destruct (IH (erase_candidate t1 p) p1 (h - 1)) as [D1 D2 D3 D4 D5 D6]; cbn [erase_candidate with_candidates mapBlockIndex chainActive setBlockIndexCandidates] in *.
  - by apply (shape_linked _ _ Hsh).
  - by rewrite (shape_height _ _ Hsh).
  - by rewrite (shape_ancestor _ _ Hsh).
  - lia.
  - rewrite Hca in D3, D5. split.
    + by etrans.
    + congruence.
    + set_solver.
    + set_solver.
    + intros c Hc Hn. destruct (decide (c = p)) as [-> | Hcp]; [by exists h, k |]. destruct (D5 c ltac:(set_solver) Hn) as (j & j' & E1 & E2).
      rewrite !(shape_ancestor _ _ Hsh) in *. exists j, j'. split; [| done].
      pose proof (ancestor_range _ p1 (h - 1) j c Hh1 E1). by rewrite (ancestor_prev _ Hix p h p1 j Hp Hp1) by lia.
    + intros r. destruct (decide (r = p)) as [-> | Hrp].
      * destruct (D6 p) as [E | (-> & E & j & j' & Ej & _)]; rewrite E.
        -- unfold t1. destruct failed; [| by left]. right. split; [done |]. split; [| by exists h, k]. cbn. unfold add_status. by rewrite lookup_alter_eq.
        -- exfalso. rewrite (shape_ancestor _ _ Hsh) in Ej. pose proof (ancestor_height _ Hix p1 (h - 1) j p Hh1 Ej).
           pose proof (ancestor_range _ p1 (h - 1) j p Hh1 Ej). assert (j = h) by congruence. lia.
      * assert (E1 : mapBlockIndex t1 !! r = mapBlockIndex t !! r) by (unfold t1; destruct failed; cbn; [unfold add_status; by rewrite lookup_alter_ne | done]).
        destruct (D6 r) as [-> | (-> & -> & j & j' & Ej & Ej')]; rewrite E1; [by left |]. right. split; [done |]. split; [done |].
        rewrite !(shape_ancestor _ _ Hsh) in *. exists j, j'. split; [| done].
        pose proof (ancestor_range _ p1 (h - 1) j r Hh1 Ej). by rewrite (ancestor_prev _ Hix p h p1 j Hp Hp1) by lia.
Qed.

Lemma dropped_search t t' p q failed : linked (mapBlockIndex t) -> is_Some (height_at (mapBlockIndex t) p) ->
  blocked_at t p q failed -> dropped t t' p q failed -> search_step t t'.
Proof.
  intros Hix [h Hp] Hb [D1 D2 D3 D4 D5 D6]. assert (Hb' := Hb). destruct Hb' as (kq & eq & Hq & Hcq & Heq & -> & Hbq).
  assert (Hthrough : forall c k, ancestor (mapBlockIndex t) c k = Some q -> ~ usable t c).
  { intros c k Hc Hu. destruct (Hu k q eq Hc Hcq Heq) as [E1 E2]. by rewrite E1, E2 in Hbq. }
  assert (Hcont : forall r, Contains (mapBlockIndex t') (chainActive t') r = Contains (mapBlockIndex t) (chainActive t) r)
    by (intros r; by rewrite D2, (shape_Contains _ _ D1)).
  split; try done.
  - intros c. split; intros Hu k r e Hr Hc He.
    + destruct (D6 r) as [E | (_ & E & _)]; rewrite He in E.
      * apply (Hu k r e); [by rewrite (shape_ancestor _ _ D1) | by rewrite Hcont | done].
      * exfalso. destruct (Hu k r (mark_child e)) as [Hf _]; [by rewrite (shape_ancestor _ _ D1) | by rewrite Hcont | done |].
        by rewrite mark_child_failed in Hf.
    + rewrite (shape_ancestor _ _ D1) in Hr. rewrite Hcont in Hc. destruct (D6 r) as [E | (_ & _ & j & j' & Hj & Hj')].
      * rewrite E in He. by apply (Hu k r e).
      * exfalso. destruct (height_at (mapBlockIndex t) c) as [hc |] eqn:Hhc; [| unfold ancestor in Hr; by rewrite Hhc in Hr].
        pose proof (ancestor_height _ Hix c hc k r Hhc Hr) as Hhr. pose proof (ancestor_range _ r k j' q Hhr Hj').
        apply (Hthrough c j'); [| done]. by rewrite (ancestor_trans _ Hix c r k j' Hr) by lia.
  - intros c Hc Hu. destruct (decide (c ∈ setBlockIndexCandidates t')) as [| Hn]; [done |]. exfalso.
    destruct (D5 c Hc Hn) as (j & k & _ & Hk). by apply (Hthrough c k).
  - intros r e e' He He'. destruct (D6 r) as [E | (_ & E & _)]; rewrite He in E.
    + assert (e' = e) as -> by congruence. done.
    + rewrite He' in E. injection E as ->. by rewrite mark_child_failed, mark_child_data.
Qed.

Lemma note_invalid_search t p : search_step t (note_invalid t p).
Proof.
  unfold note_invalid. case_match; [| apply search_refl]. split; try done. cbn. intros r e e' He He'. assert (e' = e) as -> by congruence. done.
Qed.

Lemma best_candidate_in addr t p : best_candidate addr t = Some p -> p ∈ setBlockIndexCandidates t.
Proof.
  unfold best_candidate. rewrite <- elem_of_elements. generalize (elements (setBlockIndexCandidates t)). intros l. revert p.
  induction l as [| x l IH]; intros p; cbn [foldr]; [done |]. destruct (foldr _ None l) as [q |]; cbn [pick].
  - case_match; intros [= <-]; [left | right; by apply IH].
  - intros [= <-]. left.
Qed.

Section Find.
Context (addr : ptr -> Z) (Haddr : forall p q, addr p = addr q -> p = q).

Lemma best_candidate_spec t : match best_candidate addr t with
  | None => setBlockIndexCandidates t = ∅
  | Some p => p ∈ setBlockIndexCandidates t /\
      forall c, c ∈ setBlockIndexCandidates t -> c = p \/ work_less addr (mapBlockIndex t) c p = true
  end.
Proof using Haddr.
  unfold best_candidate. pose proof (pick_best addr Haddr (mapBlockIndex t) (elements (setBlockIndexCandidates t))) as H.
  destruct (foldr _ _ _) as [p |].
  - destruct H as [Hin Hall]. split; [by apply elem_of_elements |]. intros c Hc. apply Hall. by apply elem_of_elements.
  - apply set_eq. intros x. rewrite <- elem_of_elements, H. set_solver.
Qed.

(** What the search promises. *)
Definition best_usable (t : tree) (r : option ptr) : Prop :=
  match r with
  | Some p => p ∈ setBlockIndexCandidates t /\ usable t p /\
      forall c, c ∈ setBlockIndexCandidates t -> usable t c -> c = p \/ work_less addr (mapBlockIndex t) c p = true
  | None => forall c, c ∈ setBlockIndexCandidates t -> ~ usable t c
  end.

Lemma best_usable_back t t' r : search_step t t' -> best_usable t' r -> best_usable t r.
Proof using Type.
  intros [A1 A2 A3 A4 A5 _]. destruct r as [p |]; cbn.
  - intros (Hp & Hu & Hall). split; [by apply A3 |]. split; [by apply A4 |]. intros c Hc Huc. rewrite <- (shape_less _ _ A1).
    apply Hall; [by apply A5 | by apply A4].
  - intros Hall c Hc Huc. apply (Hall c); [by apply A5 | by apply A4].
Qed.

Lemma find_loop_spec fuel t : tree_ok t -> (size (setBlockIndexCandidates t) <= fuel)%nat ->
  exists r t', find_loop addr fuel t = Ok (r, t') /\ search_step t t' /\ best_usable t' r.
Proof using Haddr.
  revert t. induction fuel as [| fuel IH]; intros t Hok Hsize; pose proof (best_candidate_spec t) as Hbest.
  - destruct (best_candidate addr t) as [p |] eqn:Eb.
    { exfalso. destruct Hbest as [Hp _]. assert (Hs : setBlockIndexCandidates t ≡ ∅) by (apply size_empty_iff; lia). set_solver. }
    exists None, t. cbn [find_loop]. rewrite Eb. split; [done |]. split; [apply search_refl |]. intros c Hc. rewrite Hbest in Hc. set_solver.
  - cbn [find_loop]. destruct (best_candidate addr t) as [p |] eqn:Eb.
    2: { exists None, t. split; [done |]. split; [apply search_refl |]. intros c Hc. rewrite Hbest in Hc. set_solver. }
    destruct Hbest as [Hp Hall]. destruct Hok as [Hix Hch Hca]. destruct (Hca p Hp) as [[e He] Has].
    assert (Hh : height_at (mapBlockIndex t) p = Some (bi_nHeight e)) by (unfold height_at; by rewrite He).
    destruct (linked_prev _ Hix p _ Hh) as [H0 _].
    assert (Hr : rounds_of t p = S (Z.to_nat (bi_nHeight e))) by (unfold rounds_of; by rewrite Hh).
    destruct (unusable_at_spec t Hix Hch (rounds_of t p) p _ Hh ltac:(lia) Has) as (r & Er & Hspec). rewrite Er.
    destruct r as [[q f] |].
    + set (t1 := if f then note_invalid t p else t).
      assert (Hs1 : search_step t t1) by (unfold t1; destruct f; [apply note_invalid_search | apply search_refl]).
      assert (E1 : mapBlockIndex t1 = mapBlockIndex t /\ setBlockIndexCandidates t1 = setBlockIndexCandidates t /\ chainActive t1 = chainActive t)
        by (unfold t1, note_invalid; destruct f; [case_match |]; done). destruct E1 as (E1 & E2 & E3).
      assert (Hb1 : blocked_at t1 p q f) by (unfold blocked_at; by rewrite E1, E3).
      assert (Hr1 : rounds_of t1 p = S (Z.to_nat (bi_nHeight e))) by (unfold rounds_of; by rewrite E1, Hh).
      destruct Hspec as (k & e' & Hk & _). pose proof (ancestor_range _ p _ k q Hh Hk).
      assert (Hdrop : dropped t1 (drop_path (rounds_of t1 p) t1 p q f) p q f)
        by (apply (drop_path_spec _ _ _ _ _ (bi_nHeight e) k); rewrite ?E1, ?Hr1; done || lia).
      assert (Hs2 : search_step t1 (drop_path (rounds_of t1 p) t1 p q f))
        by (apply (dropped_search _ _ p q f); [by rewrite E1 | rewrite E1, Hh; eauto | done | done]).
      set (t2 := drop_path (rounds_of t1 p) t1 p q f) in *. pose proof (search_trans _ _ _ Hs1 Hs2) as Hs.
      destruct (IH t2) as (r & t3 & E & Hst & Hbu).
      * apply (search_ok t); [by split | done].
      * assert (Hsub : setBlockIndexCandidates t2 ⊂ setBlockIndexCandidates t).
        { split; [apply Hs |]. intros Hsup. apply (dr_gone _ _ _ _ _ Hdrop). by apply Hsup. }
        apply subset_size in Hsub. lia.
      * exists r, t3. split; [done |]. split; [by apply (search_trans _ t2) | done].
    + exists (Some p), t. split; [done |]. split; [apply search_refl |]. split; [done |]. split; [done |]. intros c Hc _. by apply Hall.
Qed.

Lemma FindMostWorkChain_spec t : tree_ok t -> exists r t', FindMostWorkChain addr t = Ok (r, t') /\ search_step t t' /\ best_usable t' r.
Proof using Haddr. intros Hok. by apply find_loop_spec. Qed.
End Find.
