(* ===== verification/Activation.v ===== *)
(** [ActivateBestChain]: it ends, and when it succeeds the tip of the active chain is
    the best usable candidate. *)

From Stdlib Require Import ZArith Lia.
From stdpp Require Import base tactics list numbers gmap strings.
From S2P Require Import Prelude ChainParams Block Chain TxVerify BlockTree ChainSelection.

(** ** Flags *)

Lemma has_flag_ext s s' f : (forall n, 0 <= n -> Z.testbit f n = true -> Z.testbit s n = Z.testbit s' n) -> has_flag s f = has_flag s' f.
Proof.
  intros H. unfold has_flag. do 2 f_equal. apply Z.bits_inj'. intros n Hn. rewrite !Z.land_spec. destruct (Z.testbit f n) eqn:E; [| by rewrite !andb_false_r].
  by rewrite (H n Hn E).
Qed.

(** The bits of a status that [ConnectBlock] leaves alone. *)
Lemma failed_mask_bits n : 0 <= n -> Z.testbit BLOCK_FAILED_MASK n = true -> n = 5 \/ n = 6.
Proof.
  intros Hn E. destruct (decide (n = 5)) as [| H5]; [by left |]. destruct (decide (n = 6)) as [| H6]; [by right |].
  exfalso. change BLOCK_FAILED_MASK with (Z.lor (2 ^ 5) (2 ^ 6)) in E. rewrite Z.lor_spec, !Z.pow2_bits_eqb in E by lia. bprop. lia.
Qed.
Lemma have_data_bits n : 0 <= n -> Z.testbit BLOCK_HAVE_DATA n = true -> n = 3.
Proof. intros Hn E. change BLOCK_HAVE_DATA with (2 ^ 3) in E. rewrite Z.pow2_bits_eqb in E by lia. bprop. lia. Qed.

Lemma valid_bits s n : n = 3 \/ n = 5 \/ n = 6 ->
  Z.testbit (Z.lor s BLOCK_HAVE_UNDO) n = Z.testbit s n /\
  Z.testbit (Z.lor (Z.ldiff s BLOCK_VALID_MASK) BLOCK_VALID_SCRIPTS) n = Z.testbit s n.
Proof.
  intros Hn. rewrite !Z.lor_spec, Z.ldiff_spec. destruct Hn as [-> | [-> | ->]].
  - change (Z.testbit BLOCK_HAVE_UNDO 3) with false. change (Z.testbit BLOCK_VALID_MASK 3) with false. change (Z.testbit BLOCK_VALID_SCRIPTS 3) with false.
    by rewrite !orb_false_r, andb_true_r.
  - change (Z.testbit BLOCK_HAVE_UNDO 5) with false. change (Z.testbit BLOCK_VALID_MASK 5) with false. change (Z.testbit BLOCK_VALID_SCRIPTS 5) with false.
    by rewrite !orb_false_r, andb_true_r.
  - change (Z.testbit BLOCK_HAVE_UNDO 6) with false. change (Z.testbit BLOCK_VALID_MASK 6) with false. change (Z.testbit BLOCK_VALID_SCRIPTS 6) with false.
    by rewrite !orb_false_r, andb_true_r.
Qed.

Definition same_verdict (e e' : CBlockIndex) : Prop := is_failed e' = is_failed e /\ has_data e' = has_data e.

Lemma same_verdict_bits e e' : (forall n, n = 3 \/ n = 5 \/ n = 6 -> Z.testbit (bi_nStatus e') n = Z.testbit (bi_nStatus e) n) -> same_verdict e e'.
Proof.
  intros H. split; apply has_flag_ext; intros n Hn Hb.
  - apply H. destruct (failed_mask_bits n Hn Hb); auto.
  - apply H. left. by apply have_data_bits.
Qed.

Lemma mark_connected_verdict e pos : same_verdict e (mark_connected e pos).
Proof.
  apply same_verdict_bits. intros n Hn. unfold mark_connected. destruct (_ || _); [| done].
  set (e1 := if dp_IsNull (GetUndoPos e) then _ else e).
  assert (H1 : Z.testbit (bi_nStatus e1) n = Z.testbit (bi_nStatus e) n) by (unfold e1; case_match; [apply valid_bits; done | done]).
  unfold RaiseValidity. case_match; [done |]. case_match; [| done]. cbn [snd with_status bi_nStatus]. rewrite <- H1. by apply valid_bits.
Qed.

Lemma mark_connected_shape e pos : shape (mark_connected e pos) = shape e.
Proof.
  unfold shape. destruct (mark_connected_verdict e pos) as [_ ->]. unfold mark_connected, RaiseValidity. repeat (case_match; cbn [snd]); done.
Qed.

Lemma add_failed_valid e : is_failed (with_status e (Z.lor (bi_nStatus e) BLOCK_FAILED_VALID)) = true.
Proof.
  unfold is_failed, has_flag. cbn [with_status bi_nStatus]. apply negb_true_iff, Z.eqb_neq. intros E.
  assert (Ht : Z.testbit (Z.land (Z.lor (bi_nStatus e) BLOCK_FAILED_VALID) BLOCK_FAILED_MASK) 5 = false) by (by rewrite E).
  rewrite Z.land_spec, Z.lor_spec in Ht. change (Z.testbit BLOCK_FAILED_VALID 5) with true in Ht. change (Z.testbit BLOCK_FAILED_MASK 5) with true in Ht.
  by rewrite orb_true_r in Ht.
Qed.
Lemma add_failed_data e : has_data (with_status e (Z.lor (bi_nStatus e) BLOCK_FAILED_VALID)) = has_data e.
Proof.
  apply has_flag_ext. intros n Hn Hb. apply have_data_bits in Hb; [| done]. subst. cbn [with_status bi_nStatus]. rewrite Z.lor_spec.
  change (Z.testbit BLOCK_FAILED_VALID 3) with false. apply orb_false_r.
Qed.

Lemma add_failed_shape e : shape (with_status e (Z.lor (bi_nStatus e) BLOCK_FAILED_VALID)) = shape e.
Proof. unfold shape. by rewrite add_failed_data. Qed.

(** ** What a step may change *)

(** Blocks keep their place and their data, and never lose a failure; candidates only
    go. *)
Record advance (t t' : tree) : Prop := {
  av_shape : same_shape (mapBlockIndex t) (mapBlockIndex t');
  av_fewer : setBlockIndexCandidates t' ⊆ setBlockIndexCandidates t;
  av_verdict : forall r e e', mapBlockIndex t !! r = Some e -> mapBlockIndex t' !! r = Some e' ->
    has_data e' = has_data e /\ (is_failed e' = false -> is_failed e = false)
}.

Lemma advance_refl t : advance t t.
Proof. split; [reflexivity | done |]. intros r e e' He He'. assert (e' = e) as -> by congruence. done. Qed.

Lemma advance_trans t1 t2 t3 : advance t1 t2 -> advance t2 t3 -> advance t1 t3.
Proof.
  intros [A1 A2 A3] [B1 B2 B3]. split; [by etrans | set_solver |]. intros r e e' He He'.
  destruct (shape_some _ _ B1 _ _ He') as [f Hf]. destruct (A3 r e f He Hf) as [E1 E2], (B3 r f e' Hf He') as [E3 E4].
  split; [congruence | auto].
Qed.

Lemma advance_candidates t s : s ⊆ setBlockIndexCandidates t -> advance t (with_candidates t s).
Proof. intros Hs. split; [reflexivity | done |]. cbn. intros r e e' He He'. assert (e' = e) as -> by congruence. done. Qed.
Lemma advance_chain t c : advance t (with_chain t c).
Proof. split; [reflexivity | done |]. cbn. intros r e e' He He'. assert (e' = e) as -> by congruence. done. Qed.

Lemma advance_note t p : advance t (note_invalid t p).
Proof. unfold note_invalid. case_match; [| apply advance_refl]. split; [reflexivity | done |]. cbn. intros r e e' He He'. assert (e' = e) as -> by congruence. done. Qed.

Lemma advance_connected t p pos : advance t (with_dirty (with_index t (alter (fun e => mark_connected e pos) p (mapBlockIndex t))) p).
Proof.
  split; cbn; [by apply same_shape_alter; intros; apply mark_connected_shape | done |]. intros r e e' He He'. destruct (decide (p = r)) as [-> |].
  - rewrite lookup_alter_eq, He in He'. injection He' as <-. destruct (mark_connected_verdict e pos) as [E1 E2]. by rewrite E1, E2.
  - rewrite lookup_alter_ne in He' by done. assert (e' = e) as -> by congruence. done.
Qed.

Lemma advance_failed t p : advance t (erase_candidate (with_dirty (with_index t (add_status (mapBlockIndex t) p BLOCK_FAILED_VALID)) p) p).
Proof.
  split; cbn; [apply same_shape_alter, add_failed_shape | set_solver |]. intros r e e' He He'. unfold add_status in He'. destruct (decide (p = r)) as [-> |].
  - rewrite lookup_alter_eq, He in He'. injection He' as <-. rewrite add_failed_data, add_failed_valid. done.
  - rewrite lookup_alter_ne in He' by done. assert (e' = e) as -> by congruence. done.
Qed.

Lemma search_advance t t' : search_step t t' -> advance t t'.
Proof. intros [A1 _ A3 _ _ A6]. by split. Qed.

(** No failure is added. *)
Definition calm (t t' : tree) : Prop := forall r e e', mapBlockIndex t !! r = Some e -> mapBlockIndex t' !! r = Some e' -> same_verdict e e'.

Lemma calm_same t t' : mapBlockIndex t' = mapBlockIndex t -> calm t t'.
Proof. intros E r e e' He He'. rewrite E in He'. assert (e' = e) as -> by congruence. done. Qed.
Lemma calm_trans t1 t2 t3 : same_shape (mapBlockIndex t2) (mapBlockIndex t3) -> calm t1 t2 -> calm t2 t3 -> calm t1 t3.
Proof.
  intros Hs C1 C2 r e e' He He'. destruct (shape_some _ _ Hs _ _ He') as [f Hf]. destruct (C1 r e f He Hf), (C2 r f e' Hf He'). split; congruence.
Qed.

(** ** Places on a branch *)

(** Work grows from parent to child. *)
Definition grows (ix : BlockMap) : Prop := forall p q, prev_at ix p = Some q -> work_at ix q < work_at ix p.

Lemma shape_grows ix ix' : same_shape ix ix' -> grows ix -> grows ix'.
Proof. intros Hs Hg p q. rewrite (shape_prev _ _ Hs), !(shape_work _ _ Hs). apply Hg. Qed.

Section Branch.
Context (ix : BlockMap) (Hix : linked ix) (Hgrow : grows ix) (most : ptr) (hm : Z) (Hm : height_at ix most = Some hm).

(** The active chain is the branch of [most] up to the height [lo]. *)
Definition standing (lo : Z) (c : CChain) : Prop :=
  (lo = -1 /\ c = []) \/ exists a, ancestor ix most lo = Some a /\ c = branch ix a lo.

Definition at_tip (lo : Z) : option ptr := ancestor ix most lo.

Lemma ancestor_none : ancestor ix most (-1) = None.
Proof using Hm. unfold ancestor. rewrite Hm. done. Qed.

Lemma standing_tip lo c : standing lo c -> Tip ix c false = at_tip lo.
Proof using Hix Hm.
  intros [[-> ->] | (a & Ha & ->)]; unfold at_tip; [by rewrite ancestor_none |]. rewrite Ha. apply branch_Tip; [done |]. by apply (ancestor_height ix Hix most hm).
Qed.

Lemma standing_ok lo c : standing lo c -> chain_ok ix c.
Proof using Hix Hm. intros [[_ ->] | (a & Ha & ->)]; [by left |]. right. exists a, lo. split; [by apply (ancestor_height ix Hix most hm) | done]. Qed.

Lemma standing_contains lo c q : standing lo c -> Contains ix c q = true <-> exists k, k <= lo /\ ancestor ix most k = Some q.
Proof using Hix Hm.
  intros [[-> ->] | (a & Ha & ->)].
  - split.
    + intros Hc. exfalso. unfold Contains in Hc. destruct (height_at ix q) as [j |]; [| done]. unfold chain_at in Hc.
      change (zlen (A := option ptr) []) with 0 in Hc. destruct (Z.leb_spec 0 j), (Z.ltb_spec j 0); cbn in Hc; first [done | lia].
    + intros (k & Hk & Hq). pose proof (ancestor_range ix most hm k q Hm Hq). lia.
  - assert (Hha : height_at ix a = Some lo) by (by apply (ancestor_height ix Hix most hm)). rewrite (branch_Contains ix Hix a lo q Hha). split.
    + intros [k Hk]. pose proof (ancestor_range ix a lo k q Hha Hk). exists k. split; [lia |]. by rewrite (ancestor_trans ix Hix most a lo k Ha) by lia.
    + intros (k & Hk & Hq). pose proof (ancestor_range ix most hm k q Hm Hq). exists k. by rewrite <- (ancestor_trans ix Hix most a lo k Ha) by lia.
Qed.

Lemma next_prev lo p : -1 <= lo -> ancestor ix most (lo + 1) = Some p -> prev_at ix p = at_tip lo.
Proof using Hix Hm.
  intros Hlo Hp. pose proof (ancestor_height ix Hix most hm _ _ Hm Hp) as Hhp. unfold at_tip. destruct (decide (lo = -1)) as [-> | Hne].
  - rewrite ancestor_none. by apply (root_prev ix Hix).
  - destruct (linked_prev ix Hix p (lo + 1) Hhp) as [_ Hl]. destruct (Hl ltac:(lia)) as (q & Hq & Hhq & _). rewrite Hq.
    rewrite (ancestor_trans ix Hix most p (lo + 1) lo Hp) by lia. rewrite (ancestor_prev ix Hix p (lo + 1) q lo Hhp Hq) by lia.
    replace (lo + 1 - 1) with lo in Hhq by lia. by rewrite (ancestor_self ix Hix q lo Hhq).
Qed.

Lemma work_below p h k q : height_at ix p = Some h -> ancestor ix p k = Some q -> k < h -> work_at ix q < work_at ix p.
Proof using Hix Hgrow.
  intros Hp Hq Hk. pose proof (ancestor_range ix p h k q Hp Hq) as Hr. remember (Z.to_nat (h - k)) as n eqn:En. revert p h Hp Hq Hk Hr En.
  induction n as [| n IH]; intros p h Hp Hq Hk Hr En; [lia |]. destruct (linked_prev ix Hix p h Hp) as [_ Hl].
  destruct (Hl ltac:(lia)) as (p1 & Hp1 & Hh1 & _). pose proof (Hgrow _ _ Hp1). destruct (decide (k = h - 1)) as [-> | Hne].
  - rewrite (ancestor_prev ix Hix p h p1 (h - 1) Hp Hp1) in Hq by lia. rewrite (ancestor_self ix Hix p1 (h - 1) Hh1) in Hq. by injection Hq as <-.
  - rewrite (ancestor_prev ix Hix p h p1 k Hp Hp1) in Hq by lia. specialize (IH p1 (h - 1) Hh1 Hq ltac:(lia) ltac:(lia) ltac:(lia)). lia.
Qed.

Lemma most_not_less addr k q : ancestor ix most k = Some q -> work_less addr ix most q = false.
Proof using Hix Hgrow Hm.
  intros Hq. destruct (decide (k = hm)) as [-> | Hne].
  - rewrite (ancestor_self ix Hix most hm Hm) in Hq. injection Hq as <-. apply less_irrefl.
  - pose proof (ancestor_range ix most hm k q Hm Hq). pose proof (work_below most hm k q Hm Hq ltac:(lia)).
    apply not_true_iff_false. rewrite less_iff. lia.
Qed.

(** The blocks of the branch from height [lo + 1] on. *)
Fixpoint segment (n : nat) (lo : Z) : list ptr :=
  match n with
  | O => []
  | S n => match ancestor ix most (lo + 1) with Some a => a :: segment n (lo + 1) | None => [] end
  end.

Lemma segment_snoc n lo a : -1 <= lo -> ancestor ix most (lo + Z.of_nat n + 1) = Some a -> segment (S n) lo = segment n lo ++ [a].
Proof using Hix Hm.
  revert lo. induction n as [| n IH]; intros lo Hlo Ha.
  - cbn [segment app]. replace (lo + Z.of_nat 0 + 1) with (lo + 1) in Ha by lia. by rewrite Ha.
  - pose proof (ancestor_range ix most hm _ a Hm Ha). destruct (ancestor_some ix Hix most hm (lo + 1) Hm ltac:(lia)) as (b & Hb & _).
    change (segment (S (S n)) lo) with (match ancestor ix most (lo + 1) with Some a => a :: segment (S n) (lo + 1) | None => [] end).
    rewrite Hb, IH; [| lia | by replace (lo + 1 + Z.of_nat n + 1) with (lo + Z.of_nat (S n) + 1) by lia].
    cbn [segment]. by rewrite Hb.
Qed.

Lemma path_down_segment n lo : -1 <= lo -> lo + Z.of_nat n <= hm ->
  reverse (path_down n ix (at_tip (lo + Z.of_nat n)) lo) = segment n lo.
Proof using Hix Hm.
  intros Hlo. induction n as [| n IH]; intros Hn; [done |]. unfold at_tip. destruct (ancestor_some ix Hix most hm (lo + Z.of_nat (S n)) Hm ltac:(lia)) as (a & Ha & Hha).
  rewrite Ha. cbn [path_down]. assert (He := Hha). unfold height_at in He. destruct (ix !! a) as [e |] eqn:Ee; [| done]. injection He as He.
  destruct (Z.eqb_spec (bi_nHeight e) lo); [lia |]. rewrite reverse_cons.
  assert (Hpr : bi_pprev e = at_tip (lo + Z.of_nat n)).
  { assert (E : prev_at ix a = bi_pprev e) by (unfold prev_at; by rewrite Ee). rewrite <- E. apply next_prev; [lia |].
    by replace (lo + Z.of_nat n + 1) with (lo + Z.of_nat (S n)) by lia. }
  rewrite Hpr, IH by lia. symmetry. apply segment_snoc; [done |]. by replace (lo + Z.of_nat n + 1) with (lo + Z.of_nat (S n)) by lia.
Qed.
End Branch.

Lemma shape_standing ix ix' most lo c : same_shape ix ix' -> standing ix most lo c -> standing ix' most lo c.
Proof.
  intros Hs [[-> ->] | (a & Ha & ->)]; [by left | right]. exists a. by rewrite (shape_ancestor _ _ Hs), (shape_branch _ _ Hs).
Qed.
Lemma shape_segment ix ix' most n lo : same_shape ix ix' -> segment ix' most n lo = segment ix most n lo.
Proof. intros Hs. revert lo. induction n as [| n IH]; intros lo; cbn [segment]; [done |]. rewrite (shape_ancestor _ _ Hs). case_match; [by rewrite IH | done]. Qed.

Section Steps.
Context (addr : ptr -> Z) (Haddr : forall p q, addr p = addr q -> p = q).
Context (connect : tree -> ptr -> vres (option Z)) (disconnect : tree -> ptr -> bool).
Hypothesis connect_uncorrupted : forall t p l c m, connect t p <> Err (DoS_corrupt l c m).

(** An error that stops the activation comes from the disk or from a block that could
    not be checked, never from an assertion of the selection itself. *)
Definition from_outside (e : reject) : Prop :=
  (exists t p, connect t p = Err e) \/ (e = Failed "DisconnectTip" /\ exists t p, disconnect t p = false).

Section Toward.
Context (most : ptr) (hm : Z).

(** Where a step is: on the branch of [most] at [lo], with [most] still a candidate. *)
Record toward (lo : Z) (t : tree) : Prop := {
  tw_linked : linked (mapBlockIndex t);
  tw_grows : grows (mapBlockIndex t);
  tw_height : height_at (mapBlockIndex t) most = Some hm;
  tw_low : -1 <= lo;
  tw_standing : standing (mapBlockIndex t) most lo (chainActive t);
  tw_candidate : most ∈ setBlockIndexCandidates t
}.

Lemma toward_advance lo lo' t t' : toward lo t -> advance t t' -> -1 <= lo' -> standing (mapBlockIndex t) most lo' (chainActive t') ->
  most ∈ setBlockIndexCandidates t' -> toward lo' t'.
Proof using Type.
  intros [T1 T2 T3 _ _ _] [A1 _ _] Hlo Hst Hc. split.
  - by apply (shape_linked _ _ A1).
  - by apply (shape_grows _ _ A1).
  - by rewrite (shape_height _ _ A1).
  - done.
  - by apply (shape_standing _ _ _ _ _ A1).
  - done.
Qed.

Lemma ConnectTip_spec lo t p : toward lo t -> ancestor (mapBlockIndex t) most (lo + 1) = Some p ->
  match ConnectTip connect t p with
  | (Ok _, t') => toward (lo + 1) t' /\ advance t t' /\ calm t t'
  | (Err e, t') =>
      (exists s, connect s p = Err e) /\ advance t t' /\ chainActive t' = chainActive t /\
      let state := state_after CValidationState_new (@Err _ unit e) in
      (is_Some (state_IsInvalid state) -> corruptionPossible state = false /\ forall e', mapBlockIndex t' !! p = Some e' -> is_failed e' = true)
  end.
Proof using connect_uncorrupted.
  intros Ht Hp. destruct Ht as [T1 T2 T3 T4 T5 T6] eqn:ET. pose proof Ht as Ht'. clear ET. unfold ConnectTip. unfold tip_of. rewrite (standing_tip _ T1 most hm T3 lo _ T5).
  rewrite (next_prev _ T1 most hm T3 lo p T4 Hp), bool_decide_true by done. cbn [negb].
  pose proof (ancestor_height _ T1 most hm _ _ T3 Hp) as Hhp. destruct (connect t p) as [pos | e] eqn:Ec.
  - set (t1 := match pos with Some pos => with_dirty (with_index t (alter (fun e => mark_connected e pos) p (mapBlockIndex t))) p | None => t end).
    assert (H1 : advance t t1 /\ calm t t1 /\ chainActive t1 = chainActive t /\ setBlockIndexCandidates t1 = setBlockIndexCandidates t).
    { unfold t1. destruct pos as [pos |]; [| split_and!; [apply advance_refl | by apply calm_same | done | done]]. split_and!; [apply advance_connected | | done | done].
      intros r f f' Hf Hf'. cbn in Hf'. destruct (decide (p = r)) as [-> | Hne].
      - rewrite lookup_alter_eq, Hf in Hf'. injection Hf' as <-. apply mark_connected_verdict.
      - rewrite lookup_alter_ne in Hf' by done. assert (f' = f) as -> by congruence. done. }
    destruct H1 as (A & C & E1 & E2). assert (Hch1 : SetTip (mapBlockIndex t1) (chainActive t1) (Some p) = branch (mapBlockIndex t) p (lo + 1)).
    { rewrite E1. rewrite (SetTip_branch _ (shape_linked _ _ (av_shape _ _ A) T1) _ p (lo + 1)).
      - apply (shape_branch _ _ (av_shape _ _ A)).
      - apply (shape_chain_ok _ _ (av_shape _ _ A)). by apply (standing_ok _ T1 most hm T3 lo).
      - by rewrite (shape_height _ _ (av_shape _ _ A)). }
    assert (A2 : advance t (UpdateTip t1 (Some p))) by (by apply (advance_trans _ t1); [| apply advance_chain]). split_and!; [| done | done].
    apply (toward_advance lo _ t); [done | done | lia | | cbn; by rewrite E2]. right. exists p. split; [done | exact Hch1].
  - set (state := state_after CValidationState_new (@Err _ unit e)). split; [by exists t |]. destruct (state_IsInvalid state) eqn:Ei.
    + assert (Hcor : corruptionPossible state = false).
      { unfold state in *. destruct e; cbn in *; try done. exfalso. by apply (connect_uncorrupted _ _ _ _ _ Ec). }
      unfold InvalidBlockFound. rewrite Hcor. cbn [negb]. split_and!.
      * eapply advance_trans; [apply advance_failed | apply advance_note].
      * unfold InvalidChainFound, note_invalid. case_match; done.
      * intros _. split; [done |]. intros e'.
        assert (Em : mapBlockIndex (InvalidChainFound (erase_candidate (with_dirty (with_index t (add_status (mapBlockIndex t) p BLOCK_FAILED_VALID)) p) p) p)
                     = add_status (mapBlockIndex t) p BLOCK_FAILED_VALID) by (unfold InvalidChainFound, note_invalid; case_match; done).
        rewrite Em. unfold add_status. rewrite lookup_alter_eq. destruct (mapBlockIndex t !! p) as [f |]; cbn; [| done]. intros [= <-]. apply add_failed_valid.
    + split_and!; [apply advance_refl | done | by intros [? ?]].
Qed.

Lemma Prune_spec lo t p : toward lo t -> ancestor (mapBlockIndex t) most lo = Some p -> exists t', PruneBlockIndexCandidates addr t = Ok t' /\
  toward lo t' /\ advance t t' /\ calm t t' /\ tip_of t' = Some p.
Proof using Type.
  intros Ht Hp. pose proof Ht as Ht'. destruct Ht' as [T1 T2 T3 T4 T5 T6]. unfold PruneBlockIndexCandidates.
  assert (Htip : tip_of t = Some p) by (unfold tip_of; rewrite (standing_tip _ T1 most hm T3 lo _ T5); done). rewrite Htip.
  set (s := filter (fun q => work_less addr (mapBlockIndex t) q p = false) (setBlockIndexCandidates t)).
  assert (Hin : most ∈ s) by (apply elem_of_filter; split; [by apply (most_not_less _ T1 T2 most hm T3 addr lo) | done]).
  rewrite decide_False by (intros E; rewrite E in Hin; by apply elem_of_empty in Hin). eexists. split; [done |].
  assert (A : advance t (with_candidates t s)) by (apply advance_candidates; intros q Hq; by apply elem_of_filter in Hq as [_ ?]).
  split_and!; [| done | by apply calm_same | done]. by apply (toward_advance lo _ t).
Qed.

(** Stopped by an invalid block of the branch. *)
Definition blocked (lo : Z) (t t' : tree) : Prop :=
  exists j b, lo < j <= hm /\ ancestor (mapBlockIndex t) most j = Some b /\ standing (mapBlockIndex t) most (j - 1) (chainActive t') /\
    forall e, mapBlockIndex t' !! b = Some e -> is_failed e = true.

Lemma connect_batch_spec old back n lo t : toward lo t -> lo + Z.of_nat n <= hm ->
  match connect_batch addr connect t old back (segment (mapBlockIndex t) most n lo) with
  | (Batch_done, t') => toward (lo + Z.of_nat n) t' /\ advance t t' /\ calm t t'
  | (Batch_better, t') => exists j, lo < j <= hm /\ toward j t' /\ advance t t' /\ calm t t'
  | (Batch_invalid, t') => advance t t' /\ blocked lo t t'
  | (Batch_error e, t') => from_outside e
  end.
Proof using connect_uncorrupted.
  revert lo t. induction n as [| n IH]; intros lo t Ht Hn.
  { cbn [segment connect_batch]. rewrite Z.add_0_r. split_and!; [done | apply advance_refl | by apply calm_same]. }
  pose proof Ht as Ht'. destruct Ht' as [T1 T2 T3 T4 T5 T6]. destruct (ancestor_some _ T1 most hm (lo + 1) T3 ltac:(lia)) as (p & Hp & _).
  cbn [segment]. rewrite Hp. cbn [connect_batch]. pose proof (ConnectTip_spec lo t p Ht Hp) as Hc. destruct (ConnectTip connect t p) as [[[] | e] t1].
  - destruct Hc as (Ht1 & A1 & C1). assert (Hp1 : ancestor (mapBlockIndex t1) most (lo + 1) = Some p) by (by rewrite (shape_ancestor _ _ (av_shape _ _ A1))).
    destruct (Prune_spec (lo + 1) t1 p Ht1 Hp1) as (t2 & -> & Ht2 & A2 & C2 & Htip). rewrite Htip.
    assert (A12 : advance t t2) by (by apply (advance_trans _ t1)). assert (C12 : calm t t2) by (apply (calm_trans _ t1); [apply A2 | done | done]).
    match goal with |- context [if ?c then _ else _] => destruct c end; [by exists (lo + 1); split_and!; [lia | lia | | |] |].
    rewrite <- (shape_segment _ _ most n (lo + 1) (av_shape _ _ A12)). specialize (IH (lo + 1) t2 Ht2 ltac:(lia)).
    destruct (connect_batch _ _ _ _ _ _) as [[| | | e] t3].
    + destruct IH as (H3 & A3 & C3). replace (lo + Z.of_nat (S n)) with (lo + 1 + Z.of_nat n) by lia.
      split_and!; [done | by apply (advance_trans _ t2) | apply (calm_trans _ t2); [apply A3 | done | done]].
    + destruct IH as (j & Hj & H3 & A3 & C3). exists j. split_and!; [lia | lia | done | by apply (advance_trans _ t2) | apply (calm_trans _ t2); [apply A3 | done | done]].
    + destruct IH as (A3 & j & b & Hj & Hb & Hst & Hf). split; [by apply (advance_trans _ t2) |]. exists j, b. rewrite (shape_ancestor _ _ (av_shape _ _ A12)) in Hb.
      split_and!; [lia | lia | done | | done]. apply (shape_standing (mapBlockIndex t2)); [symmetry; apply A12 | done].
    + done.
  - destruct Hc as ((s & Hs) & A1 & Ech & Hinv). cbv zeta in Hinv. destruct (state_IsInvalid (state_after CValidationState_new (@Err _ unit e))) eqn:Ei.
    + destruct (Hinv ltac:(eauto)) as [Hcor Hfail]. rewrite Hcor. cbn [negb]. split; [eapply advance_trans; [exact A1 | apply advance_note] |].
      exists (lo + 1), p. replace (lo + 1 - 1) with lo by lia. split_and!; [lia | lia | done | |].
      * unfold InvalidChainFound, note_invalid. case_match; cbn; by rewrite Ech.
      * intros e' He'. apply Hfail. unfold InvalidChainFound, note_invalid in He'. case_match; done.
    + left. eauto.
Qed.

Lemma blocked_shape lo lo' t t1 t' : same_shape (mapBlockIndex t) (mapBlockIndex t1) -> lo' <= lo -> blocked lo t1 t' -> blocked lo' t t'.
Proof using Type.
  intros Hs Hlo (j & b & Hj & Hb & Hst & Hf). exists j, b. rewrite (shape_ancestor _ _ Hs) in Hb.
  split_and!; [lia | lia | done | | done]. apply (shape_standing (mapBlockIndex t1)); [by symmetry | done].
Qed.

(** What a step toward [most] from [lo] achieves. *)
Definition progress (lo : Z) (t t' : tree) : Prop :=
  advance t t' /\ ((exists j, lo <= j <= hm /\ (j = lo -> lo = hm) /\ toward j t' /\ calm t t') \/ blocked lo t t').

Lemma connect_loop_spec fuel old lo t : toward lo t -> lo <= hm -> hm - lo <= Z.of_nat fuel ->
  match connect_loop addr connect fuel t old most lo hm with
  | (Ok _, t') => progress lo t t'
  | (Err e, _) => from_outside e
  end.
Proof using connect_uncorrupted.
  revert lo t. induction fuel as [| fuel IH]; intros lo t Ht Hlo Hf; cbn [connect_loop].
  { split; [apply advance_refl |]. left. exists lo. split_and!; [lia | lia | lia | done | by apply calm_same]. }
  destruct (Z.eqb_spec lo hm) as [-> | Hne].
  { split; [apply advance_refl |]. left. exists hm. split_and!; [lia | lia | done | done | by apply calm_same]. }
  pose proof Ht as [T1 T2 T3 T4 T5 T6]. set (n := Z.to_nat (Z.min (lo + 32) hm - lo)).
  assert (Hn : Z.min (lo + 32) hm = lo + Z.of_nat n) by lia. rewrite Hn, (GetAncestor_ancestor _ T1).
  replace (Z.to_nat (lo + Z.of_nat n - lo)) with n by lia. fold (at_tip (mapBlockIndex t) most (lo + Z.of_nat n)).
  rewrite (path_down_segment _ T1 most hm T3 n lo) by lia. match goal with |- context [default most ?x] => set (back := default most x) end.
  pose proof (connect_batch_spec old back n lo t Ht ltac:(lia)) as Hb. destruct (connect_batch _ _ _ _ _ _) as [[| | | e] t1].
  - destruct Hb as (Ht1 & A1 & C1). specialize (IH (lo + Z.of_nat n) t1 Ht1 ltac:(lia) ltac:(lia)).
    destruct (connect_loop _ _ _ _ _ _ _ _) as [[[] | e] t2]; [| done]. destruct IH as [A2 H2]. split; [by apply (advance_trans _ t1) |].
    destruct H2 as [(j & Hj & _ & Ht2 & C2) | Hbl]; [left | right].
    + exists j. split_and!; [lia | lia | lia | done |]. apply (calm_trans _ t1); [apply A2 | done | done].
    + apply (blocked_shape (lo + Z.of_nat n) _ _ t1); [apply A1 | lia | done].
  - destruct Hb as (j & Hj & Ht1 & A1 & C1). split; [done |]. left. exists j. split_and!; [lia | lia | lia | done | done].
  - destruct Hb as [A1 Hbl]. split; [done | by right].
  - done.
Qed.

(** *** Disconnecting *)

(** The branch of the tip [top] meets the branch of [most] at [lo]. *)
Lemma disconnect_to_spec fuel t lo : linked (mapBlockIndex t) -> height_at (mapBlockIndex t) most = Some hm -> -1 <= lo ->
  (chainActive t = [] /\ lo = -1 \/ exists top h, height_at (mapBlockIndex t) top = Some h /\ chainActive t = branch (mapBlockIndex t) top h /\
    h - lo <= Z.of_nat fuel /\ lo <= h /\ ancestor (mapBlockIndex t) top lo = ancestor (mapBlockIndex t) most lo) ->
  match disconnect_to disconnect fuel t (at_tip (mapBlockIndex t) most lo) with
  | (Ok _, t') => exists c, t' = with_chain t c /\ standing (mapBlockIndex t) most lo c
  | (Err e, _) => from_outside e
  end.
Proof using Type.
  revert t. induction fuel as [| fuel IH]; intros t Hix Hm Hlo Hc.
  - cbn [disconnect_to]. exists (chainActive t). split; [by destruct t |]. destruct Hc as [[E ->] | (top & h & Hh & E & Hf & Hl & Ha)]; [by left |].
    assert (h = lo) as -> by lia. right. exists top. split; [| done]. rewrite <- Ha. by apply ancestor_self.
  - cbn [disconnect_to]. destruct Hc as [[E ->] | (top & h & Hh & E & Hf & Hl & Ha)].
    { unfold tip_of. rewrite E. cbn. exists []. split; [destruct t; cbn in *; by subst | by left]. }
    assert (Htip : tip_of t = Some top) by (unfold tip_of; rewrite E; by apply branch_Tip). rewrite Htip.
    destruct (decide (h = lo)) as [-> | Hne].
    { pose proof (ancestor_self _ Hix top lo Hh) as Hself. unfold at_tip. rewrite <- Ha, Hself, decide_True by done.
      exists (chainActive t). split; [by destruct t |]. right. exists top. split; [congruence | done]. }
    rewrite decide_False.
    2: { unfold at_tip. intros E1. symmetry in E1. pose proof (ancestor_height _ Hix most hm lo top Hm E1). congruence. }
    unfold DisconnectTip. rewrite Htip. destruct (disconnect t top) eqn:Ed; [| right; split; [done | by exists t, top]].
    set (t1 := UpdateTip t (prev_at (mapBlockIndex t) top)). assert (Ei : mapBlockIndex t1 = mapBlockIndex t) by done. rewrite <- Ei.
    specialize (IH t1). rewrite Ei in IH. rewrite Ei. match type of IH with _ -> _ -> _ -> ?P -> _ => assert (Hnext : P) end.
    { destruct (decide (h = 0)) as [-> | H0].
      - left. split; [| lia]. cbn. by rewrite (root_prev _ Hix top Hh).
      - right. destruct (linked_prev _ Hix top h Hh) as [_ Hp]. destruct (Hp ltac:(lia)) as (q & Hq & Hhq & _). exists q, (h - 1).
        split_and!; [done | | lia | lia |].
        + cbn. rewrite Hq. apply (SetTip_branch _ Hix); [right; eauto | done].
        + rewrite <- Ha. destruct (decide (lo = -1)) as [-> | ?]; [unfold ancestor; by rewrite Hh, Hhq |].
          symmetry. apply (ancestor_prev _ Hix top h q lo Hh Hq). lia. }
    specialize (IH Hix Hm Hlo Hnext). destruct (disconnect_to _ _ _ _) as [[[] | e] t2]; [| done]. destruct IH as (c & -> & Hst). by exists c.
Qed.

(** *** A whole step *)

(** The active chain holds the ancestors of [most] up to the height [lo]. *)
Definition meets (t : tree) (lo : Z) : Prop :=
  -1 <= lo <= hm /\ forall k q, ancestor (mapBlockIndex t) most k = Some q -> Contains (mapBlockIndex t) (chainActive t) q = true <-> k <= lo.

Lemma contains_nil ix q : Contains ix [] q = false.
Proof using Type.
  unfold Contains. destruct (height_at ix q) as [j |]; [| done]. unfold chain_at. change (zlen (A := option ptr) []) with 0.
  destruct (Z.ltb_spec j 0), (Z.leb_spec 0 j); first [done | lia].
Qed.

Lemma fork_place t : linked (mapBlockIndex t) -> chain_ok (mapBlockIndex t) (chainActive t) -> height_at (mapBlockIndex t) most = Some hm ->
  exists lo, meets t lo /\ FindFork (mapBlockIndex t) (chainActive t) (Some most) = at_tip (mapBlockIndex t) most lo.
Proof using Type.
  intros Hix Hch Hm. pose proof (FindFork_highest _ Hix (chainActive t) most hm Hm) as Hf. destruct (linked_prev _ Hix most hm Hm) as [H0 _].
  destruct (FindFork _ _ _) as [f |]; cbn in Hf; unfold at_tip.
  - destruct Hf as (lo & Hlo & Hc & Hup). pose proof (ancestor_range _ most hm lo f Hm Hlo). exists lo. split; [| done].
    split; [lia |]. intros k q Hq. pose proof (ancestor_range _ most hm k q Hm Hq). split.
    + intros Hcq. destruct (decide (k <= lo)); [done |]. exfalso. apply (Hup k q); [lia | done | done].
    + intros Hk. apply (contains_down _ _ f k q Hix Hch Hc). by rewrite <- (ancestor_trans _ Hix most f lo k Hlo) by lia.
  - exists (-1). rewrite (ancestor_none _ most hm Hm). split; [| done]. split; [lia |]. intros k q Hq. pose proof (ancestor_range _ most hm k q Hm Hq).
    split; [intros Hc; by apply (Hf k q) in Hq | lia].
Qed.

Lemma fork_fuel t lo : linked (mapBlockIndex t) -> chain_ok (mapBlockIndex t) (chainActive t) -> height_at (mapBlockIndex t) most = Some hm -> meets t lo ->
  chainActive t = [] /\ lo = -1 \/ exists top h, height_at (mapBlockIndex t) top = Some h /\ chainActive t = branch (mapBlockIndex t) top h /\
    h - lo <= Z.of_nat (length (chainActive t)) /\ lo <= h /\ ancestor (mapBlockIndex t) top lo = ancestor (mapBlockIndex t) most lo.
Proof using Type.
  intros Hix Hch Hm [Hlo Hmeet]. destruct Hch as [E | (top & h & Hh & E)].
  - left. split; [done |]. destruct (decide (lo = -1)) as [| Hne]; [done |]. exfalso.
    destruct (ancestor_some _ Hix most hm lo Hm ltac:(lia)) as (q & Hq & _). pose proof (proj2 (Hmeet lo q Hq) ltac:(lia)) as Hc. by rewrite E, contains_nil in Hc.
  - right. exists top, h. destruct (linked_prev _ Hix top h Hh) as [H0 _]. pose proof (branch_zlen (mapBlockIndex t) top h H0) as Hz.
    rewrite <- E in Hz. unfold zlen in Hz. destruct (decide (lo = -1)) as [-> | Hne].
    + split_and!; [done | done | lia | lia |]. rewrite (ancestor_none _ most hm Hm). by rewrite (ancestor_none _ top h Hh).
    + destruct (ancestor_some _ Hix most hm lo Hm ltac:(lia)) as (q & Hq & Hhq). pose proof (proj2 (Hmeet lo q Hq) ltac:(lia)) as Hc.
      rewrite E in Hc. apply (branch_Contains _ Hix top h q Hh) in Hc as [k Hk]. pose proof (ancestor_height _ Hix top h k q Hh Hk).
      pose proof (ancestor_range _ top h k q Hh Hk). assert (k = lo) as -> by congruence. split_and!; [done | done | lia | lia | congruence].
Qed.

Lemma Step_spec t lo : linked (mapBlockIndex t) -> chain_ok (mapBlockIndex t) (chainActive t) -> grows (mapBlockIndex t) ->
  height_at (mapBlockIndex t) most = Some hm -> most ∈ setBlockIndexCandidates t -> meets t lo ->
  match ActivateBestChainStep addr connect disconnect t most with
  | (Ok _, t') => progress lo t t'
  | (Err e, _) => from_outside e
  end.
Proof using connect_uncorrupted.
  intros Hix Hch Hg Hm Hc Hmeet. unfold ActivateBestChainStep. rewrite Hm. destruct (fork_place t Hix Hch Hm) as (lo' & Hmeet' & ->).
  assert (lo' = lo) as ->.
  { destruct Hmeet as [Hl H], Hmeet' as [Hl' H']. destruct (Z.lt_trichotomy lo lo') as [Hlt | [-> | Hlt]]; [| done |]; exfalso.
    - destruct (ancestor_some _ Hix most hm lo' Hm ltac:(lia)) as (q & Hq & _). pose proof (proj2 (H' lo' q Hq)) as Hx. apply (H lo' q Hq) in Hx; lia.
    - destruct (ancestor_some _ Hix most hm lo Hm ltac:(lia)) as (q & Hq & _). pose proof (proj2 (H lo q Hq)) as Hx. apply (H' lo q Hq) in Hx; lia. }
  pose proof (fork_fuel t lo Hix Hch Hm Hmeet) as Hfuel. destruct Hmeet as [Hlo _].
  pose proof (disconnect_to_spec (length (chainActive t)) t lo Hix Hm ltac:(lia) Hfuel) as Hd.
  destruct (disconnect_to _ _ _ _) as [[[] | e] t1]; [| done]. destruct Hd as (c & -> & Hst).
  assert (Hnh : match at_tip (mapBlockIndex t) most lo ≫= height_at (mapBlockIndex (with_chain t c)) with Some h => h | None => -1 end = lo).
  { cbn [with_chain mapBlockIndex]. unfold at_tip. destruct (decide (lo = -1)) as [-> | Hne]; [by rewrite (ancestor_none _ most hm Hm) |].
    destruct (ancestor_some _ Hix most hm lo Hm ltac:(lia)) as (q & -> & Hhq). cbn. by rewrite Hhq. }
  assert (Ht : toward lo (with_chain t c)) by (split; cbn [with_chain mapBlockIndex chainActive setBlockIndexCandidates]; first [done | lia]).
  rewrite Hnh. pose proof (connect_loop_spec (Z.to_nat (hm - lo)) (tip_of t) lo (with_chain t c) Ht ltac:(lia) ltac:(lia)) as H.
  destruct (connect_loop _ _ _ _ _ _ _ _) as [[[] | e] t2]; [| done].
  split; [eapply advance_trans; [apply advance_chain | apply H] |]. destruct H as [_ [(j & Hj & He & Ht2 & C) | Hb]]; [left | right].
  - exists j. split_and!; [lia | lia | done | done | done].
  - destruct Hb as (j & b & Hb). by exists j, b.
Qed.
End Toward.

(** ** Rounds *)

Lemma advance_ok t t' : tree_ok t -> advance t t' -> chain_ok (mapBlockIndex t') (chainActive t') -> tree_ok t'.
Proof using Type. intros Hok [A1 A2 _]. by apply (shape_ok t). Qed.

Lemma best_unique t p r : best_usable addr t (Some p) -> best_usable addr t r -> r = Some p.
Proof using Type.
  intros (Hp & Hu & Hall) Hr. destruct r as [q |]; [| by destruct (Hr p Hp)]. destruct Hr as (Hq & Huq & Hallq).
  destruct (Hall q Hq Huq) as [-> | H1]; [done |]. destruct (Hallq p Hp Hu) as [-> | H2]; [done |].
  pose proof (less_trans addr _ _ _ _ H1 H2) as H3. by rewrite less_irrefl in H3.
Qed.

Section Round.
Context (most : ptr) (hm : Z).

Lemma toward_meets j t : toward most hm j t -> j <= hm -> meets most hm t j.
Proof using Type.
  intros [T1 T2 T3 T4 T5 T6] Hj. split; [lia |]. intros k q Hq. rewrite (standing_contains _ T1 most hm T3 j _ q T5). split.
  - intros (k' & Hk' & Hq'). pose proof (ancestor_height _ T1 most hm k q T3 Hq). pose proof (ancestor_height _ T1 most hm k' q T3 Hq').
    assert (k' = k) by congruence. lia.
  - intros Hk. by exists k.
Qed.

(** Going up the branch of the best candidate keeps it the best. *)
Lemma best_kept t t' lo j : best_usable addr t (Some most) -> meets most hm t lo -> advance t t' -> calm t t' ->
  toward most hm j t' -> lo <= j <= hm -> best_usable addr t' (Some most).
Proof using Type.
  intros (Hp & Hu & Hall) [Hlo Hmeet] [A1 A2 A3] C Ht Hj. pose proof (toward_meets j t' Ht ltac:(lia)) as [_ Hmeet'].
  pose proof Ht as [T1 T2 T3 T4 T5 T6].
  assert (Hback : forall c, usable t' c -> usable t c).
  { intros c Huc k q e Hq Hc He. destruct (mapBlockIndex t' !! q) as [e' |] eqn:He'.
    2: { pose proof (same_shape_at _ _ q A1) as Hs. by rewrite He, He' in Hs. }
    destruct (C q e e' He He') as [<- <-]. destruct (Contains (mapBlockIndex t') (chainActive t') q) eqn:Ec.
    - apply (standing_contains _ T1 most hm T3 j _ q T5) in Ec as (k' & Hk' & Hq'). rewrite (shape_ancestor _ _ A1) in Hq'.
      destruct (C q e e' He He') as [-> ->]. by apply (Hu k' q e).
    - apply (Huc k q e'); [by rewrite (shape_ancestor _ _ A1) | done | done]. }
  split; [done |]. split.
  - intros k q e' Hq Hc He'. destruct (shape_some _ _ A1 _ _ He') as [e He]. destruct (C q e e' He He') as [-> ->].
    assert (Hq1 := Hq). rewrite (shape_ancestor _ _ A1) in Hq1. apply (Hu k q e Hq1); [| done].
    destruct (Contains (mapBlockIndex t) (chainActive t) q) eqn:Ec; [| done]. exfalso. apply (Hmeet k q Hq1) in Ec.
    pose proof (proj2 (Hmeet' k q Hq) ltac:(lia)). congruence.
  - intros c Hc Huc. rewrite (shape_less _ _ A1). apply Hall; [by apply A2 | by apply Hback].
Qed.
End Round.

(** The blocks that have not failed. *)
Definition unfailed (t : tree) : gset ptr := dom (filter (fun pe : ptr * CBlockIndex => is_failed pe.2 = false) (mapBlockIndex t)).

Lemma elem_unfailed t p : p ∈ unfailed t <-> exists e, mapBlockIndex t !! p = Some e /\ is_failed e = false.
Proof using Type. unfold unfailed. rewrite elem_of_dom. split; [intros [e [? ?]%map_lookup_filter_Some]; eauto | intros (e & ? & ?); exists e; by apply map_lookup_filter_Some]. Qed.

Lemma unfailed_advance t t' : advance t t' -> unfailed t' ⊆ unfailed t.
Proof using Type.
  intros [A1 _ A3] p. rewrite !elem_unfailed. intros (e' & He' & Hf). destruct (shape_some _ _ A1 _ _ He') as [e He]. exists e.
  split; [done |]. by apply (A3 p e e').
Qed.

Lemma blocked_fewer t t' most hm lo : linked (mapBlockIndex t) -> usable t most -> height_at (mapBlockIndex t) most = Some hm -> meets most hm t lo -> advance t t' -> blocked most hm lo t t' ->
  (size (unfailed t') < size (unfailed t))%nat.
Proof using Type.
  intros Hix Hu Hm [Hlo Hmeet] A (j & b & Hj & Hb & _ & Hf). apply subset_size. split; [by apply unfailed_advance |]. intros Hsub.
  pose proof (ancestor_height _ Hix most hm j b Hm Hb) as Hhb. unfold height_at in Hhb. destruct (mapBlockIndex t !! b) as [e |] eqn:He; [| done].
  assert (Hn : Contains (mapBlockIndex t) (chainActive t) b = false).
  { destruct (Contains _ _ b) eqn:Ec; [| done]. apply (Hmeet j b Hb) in Ec. lia. }
  destruct (Hu j b e Hb Hn He) as [Hef _]. assert (Hin : b ∈ unfailed t) by (apply elem_unfailed; eauto).
  apply Hsub, elem_unfailed in Hin as (e' & He' & Hf'). rewrite (Hf e' He') in Hf'. done.
Qed.

Definition outcome (r : vres unit) (t' : tree) : Prop :=
  match r with
  | Ok _ => best_usable addr t' (tip_of t') \/ best_usable addr t' None
  | Err e => from_outside e
  end.

Definition ends (t : tree) : Prop :=
  exists n r t', ActivateBestChain addr connect disconnect n t = Some (r, t') /\ outcome r t'.

(** With a fixed best candidate: each round climbs its branch, or a block fails. *)
Lemma ends_toward N k t most hm lo : (forall t, tree_ok t -> grows (mapBlockIndex t) -> (size (unfailed t) < N)%nat -> ends t) ->
  tree_ok t -> grows (mapBlockIndex t) -> (size (unfailed t) < S N)%nat -> best_usable addr t (Some most) ->
  height_at (mapBlockIndex t) most = Some hm -> meets most hm t lo -> hm - lo < Z.of_nat k -> ends t.
Proof using Haddr connect_uncorrupted.
  intros IHN. revert t lo. induction k as [| k IH]; intros t lo Hok Hg HN Hbest Hm Hmeet Hk; [destruct Hmeet; lia |].
  destruct (FindMostWorkChain_spec addr Haddr t Hok) as (r & t1 & E & Hs & Hb1).
  assert (r = Some most) as -> by (apply (best_unique t); [done | by apply (best_usable_back _ _ t1)]).
  pose proof (search_ok _ _ Hok Hs) as Hok1. pose proof (search_advance _ _ Hs) as A1. pose proof (av_shape _ _ A1) as Sh.
  assert (Hm1 : height_at (mapBlockIndex t1) most = Some hm) by (by rewrite (shape_height _ _ Sh)).
  assert (Hmeet1 : meets most hm t1 lo).
  { destruct Hmeet as [Hl H]. split; [done |]. intros j q. rewrite (shape_ancestor _ _ Sh), (ss_chain _ _ Hs), (shape_Contains _ _ Sh). apply H. }
  destruct (decide (tip_of t1 = Some most)) as [Ht | Ht].
  { exists 0%nat, (Ok tt), t1. unfold ActivateBestChain. cbn [activate_loop]. rewrite E, decide_True by done. split; [done |]. left. by rewrite Ht. }
  pose proof (Step_spec most hm t1 lo (ok_linked _ Hok1) (ok_chain _ Hok1) (shape_grows _ _ Sh Hg) Hm1 (proj1 Hb1) Hmeet1) as Hstep.
  assert (Hgo : forall n, ActivateBestChain addr connect disconnect n t =
    match ActivateBestChainStep addr connect disconnect t1 most with
    | (Err e, t) => Some (Err e, t)
    | (Ok _, t) => if decide (tip_of t = Some most) then Some (Ok tt, t)
                   else match n with O => None | S n => activate_loop addr connect disconnect n t end
    end) by (intros [| n]; unfold ActivateBestChain; cbn [activate_loop]; rewrite E, decide_False by done; done).
  destruct (ActivateBestChainStep _ _ _ _ _) as [[[] | e] t2]; [| exists 0%nat, (Err e), t2; by rewrite Hgo].
  destruct Hstep as [A2 Hprog].
  assert (Hmore : (tip_of t2 <> Some most -> ends t2) -> (tip_of t2 = Some most -> best_usable addr t2 (Some most)) -> ends t).
  { intros Hrest Hdone. destruct (decide (tip_of t2 = Some most)) as [Ht2 | Ht2].
    - exists 0%nat, (Ok tt), t2. rewrite Hgo. split; [done |]. left. rewrite Ht2. by apply Hdone.
    - destruct (Hrest Ht2) as (n & r & t' & E' & Ho). exists (S n), r, t'. by rewrite Hgo. }
  assert (Hg2 : grows (mapBlockIndex t2)) by (apply (shape_grows _ _ (av_shape _ _ A2)), (shape_grows _ _ Sh), Hg).
  assert (HN1 : (size (unfailed t1) <= size (unfailed t))%nat) by (apply subseteq_size, unfailed_advance, A1).
  destruct Hprog as [(j & Hj & Hje & Ht2 & C2) | Hblock].
  - pose proof (best_kept most hm t1 t2 lo j Hb1 Hmeet1 A2 C2 Ht2 ltac:(lia)) as Hb2. pose proof Ht2 as [T1 T2 T3 T4 T5 T6]. apply Hmore; [| done]. intros Hne.
    assert (j <> hm).
    { intros ->. apply Hne. unfold tip_of. rewrite (standing_tip _ T1 most hm T3 hm _ T5). by apply ancestor_self. }
    apply (IH t2 j); [| done | | done | done | by apply toward_meets; [| lia] | lia].
    + apply (advance_ok t1); [done | done |]. by apply (standing_ok _ T1 most hm T3 j).
    + pose proof (subseteq_size _ _ (unfailed_advance _ _ A2)). lia.
  - pose proof (blocked_fewer t1 t2 most hm lo (ok_linked _ Hok1) (proj1 (proj2 Hb1)) Hm1 Hmeet1 A2 Hblock).
    destruct Hblock as (j & b & Hj & Hb & Hst & Hf). pose proof (shape_standing _ _ most (j - 1) _ (av_shape _ _ A2) Hst) as Hst2.
    pose proof (shape_linked _ _ (av_shape _ _ A2) (ok_linked _ Hok1)) as Hix2. assert (Hm2 : height_at (mapBlockIndex t2) most = Some hm) by (by rewrite (shape_height _ _ (av_shape _ _ A2))).
    apply Hmore.
    + intros _. apply IHN; [| done | lia]. apply (advance_ok t1); [done | done |]. by apply (standing_ok _ Hix2 most hm Hm2 (j - 1)).
    + intros Ht2. exfalso. unfold tip_of in Ht2. rewrite (standing_tip _ Hix2 most hm Hm2 (j - 1) _ Hst2) in Ht2.
      pose proof (ancestor_height _ Hix2 most hm (j - 1) most Hm2 Ht2). assert (hm = j - 1) by congruence. lia.
Qed.

Lemma ends_always N t : tree_ok t -> grows (mapBlockIndex t) -> (size (unfailed t) < N)%nat -> ends t.
Proof using Haddr connect_uncorrupted.
  revert t. induction N as [| N IH]; intros t Hok Hg HN; [lia |].
  destruct (FindMostWorkChain_spec addr Haddr t Hok) as (r & t1 & E & Hs & Hb). destruct r as [most |].
  - pose proof (best_usable_back addr t t1 _ Hs Hb) as Hbest. destruct (ok_candidates _ Hok most (proj1 Hbest)) as [[e He] _].
    assert (Hm : height_at (mapBlockIndex t) most = Some (bi_nHeight e)) by (unfold height_at; by rewrite He).
    destruct (fork_place most (bi_nHeight e) t (ok_linked _ Hok) (ok_chain _ Hok) Hm) as (lo & Hmeet & _).
    by apply (ends_toward N (S (Z.to_nat (bi_nHeight e - lo))) t most (bi_nHeight e) lo); try lia.
  - exists 0%nat, (Ok tt), t1. cbn. rewrite E. split; [done | by right].
Qed.
End Steps.
