(* ===== verification/BlockIndexing.v ===== *)
(** The updates of the block index ([main.cpp]): a new header ([AddToBlockIndex]), the
    arrival of a block's transactions ([ReceivedBlockTransactions]), and the manual
    invalidation and rehabilitation of a block ([InvalidateBlock], [ReconsiderBlock]).

    Dereferencing a null tip is the error ["null tip"]. *)

From Stdlib Require Import ZArith Lia.
From stdpp Require Import base tactics list numbers gmap strings.
From S2P Require Import Prelude ArithUint256 Hash ChainParams Transaction Block Chain Pow StakeModifier TxVerify BlockTree.

Definition with_work (e : CBlockIndex) (w : Z) : CBlockIndex :=
  {| bi_pprev := bi_pprev e; bi_pskip := bi_pskip e; bi_nHeight := bi_nHeight e; bi_nFile := bi_nFile e; bi_nDataPos := bi_nDataPos e;
     bi_nUndoPos := bi_nUndoPos e; bi_nChainWork := w; bi_nTx := bi_nTx e; bi_nChainTx := bi_nChainTx e; bi_nStatus := bi_nStatus e;
     bi_vStakeModifier := bi_vStakeModifier e; bi_nFlags := bi_nFlags e; bi_nVersion := bi_nVersion e;
     bi_hashMerkleRoot := bi_hashMerkleRoot e; bi_nTime := bi_nTime e; bi_nBits := bi_nBits e; bi_nNonce := bi_nNonce e;
     bi_nAccumulatorCheckpoint := bi_nAccumulatorCheckpoint e; bi_nSequenceId := bi_nSequenceId e |}.

(** The assignments of [nTx], [nFile], [nDataPos], [nUndoPos] and [nChainTx], and those of
    [nChainTx] and [nSequenceId]. *)
Definition with_data (e : CBlockIndex) (tx : Z) (pos : CDiskBlockPos) : CBlockIndex :=
  {| bi_pprev := bi_pprev e; bi_pskip := bi_pskip e; bi_nHeight := bi_nHeight e; bi_nFile := dp_nFile pos; bi_nDataPos := dp_nPos pos;
     bi_nUndoPos := 0; bi_nChainWork := bi_nChainWork e; bi_nTx := tx; bi_nChainTx := 0;
     bi_nStatus := Z.lor (bi_nStatus e) BLOCK_HAVE_DATA;
     bi_vStakeModifier := bi_vStakeModifier e; bi_nFlags := bi_nFlags e; bi_nVersion := bi_nVersion e;
     bi_hashMerkleRoot := bi_hashMerkleRoot e; bi_nTime := bi_nTime e; bi_nBits := bi_nBits e; bi_nNonce := bi_nNonce e;
     bi_nAccumulatorCheckpoint := bi_nAccumulatorCheckpoint e; bi_nSequenceId := bi_nSequenceId e |}.
Definition with_count (e : CBlockIndex) (chainTx seq : Z) : CBlockIndex :=
  {| bi_pprev := bi_pprev e; bi_pskip := bi_pskip e; bi_nHeight := bi_nHeight e; bi_nFile := bi_nFile e; bi_nDataPos := bi_nDataPos e;
     bi_nUndoPos := bi_nUndoPos e; bi_nChainWork := bi_nChainWork e; bi_nTx := bi_nTx e; bi_nChainTx := chainTx; bi_nStatus := bi_nStatus e;
     bi_vStakeModifier := bi_vStakeModifier e; bi_nFlags := bi_nFlags e; bi_nVersion := bi_nVersion e;
     bi_hashMerkleRoot := bi_hashMerkleRoot e; bi_nTime := bi_nTime e; bi_nBits := bi_nBits e; bi_nNonce := bi_nNonce e;
     bi_nAccumulatorCheckpoint := bi_nAccumulatorCheckpoint e; bi_nSequenceId := seq |}.

Definition with_header (t : tree) (p : option ptr) : tree :=
  {| mapBlockIndex := mapBlockIndex t; pindexBestInvalid := pindexBestInvalid t; setBlockIndexCandidates := setBlockIndexCandidates t;
     mapBlocksUnlinked := mapBlocksUnlinked t; setDirtyBlockIndex := setDirtyBlockIndex t; chainActive := chainActive t;
     nBlockSequenceId := nBlockSequenceId t; pindexBestHeader := p |}.
Definition with_sequence (t : tree) (n : Z) : tree :=
  {| mapBlockIndex := mapBlockIndex t; pindexBestInvalid := pindexBestInvalid t; setBlockIndexCandidates := setBlockIndexCandidates t;
     mapBlocksUnlinked := mapBlocksUnlinked t; setDirtyBlockIndex := setDirtyBlockIndex t; chainActive := chainActive t;
     nBlockSequenceId := n; pindexBestHeader := pindexBestHeader t |}.

(** ** [AddToBlockIndex] *)

Section Add.
Context (consensus : ConsensusParams) (HashQuark : bytes -> bytes) (literal : Z).

(** The entry under its parent: height, skip pointer and stake modifier. *)
Definition attach (ix : BlockMap) (hash : ptr) (block : CBlock) (e : CBlockIndex) : vres CBlockIndex :=
  match ix !! hashPrevBlock (header block) with
  | None => Ok e
  | Some prev =>
      let h := bi_nHeight prev + 1 in
      let e := with_links e (Some (hashPrevBlock (header block))) (BuildSkip ix (Some (hashPrevBlock (header block))) h) h in
      if h <? height_start_StakeModifierV2 consensus then Ok (SetNewStakeModifierV1 consensus ix literal hash e)
      else
        match vtx block !! 1%nat ≫= (fun tx => vin tx !! 0%nat) with
        | None => Err (Throws "vtx[1].vin[0]")
        | Some txin =>
            match SetNewStakeModifierV2 consensus ix e (op_hash (prevout txin)) with
            | Some e => Ok e
            | None => Err (Throws "null pprev")
            end
        end
  end.

Definition AddToBlockIndex (t : tree) (block : CBlock) : vres (ptr * tree) :=
  let hash := CBlockHeader_GetHash HashQuark (header block) in
  match mapBlockIndex t !! hash with
  | Some _ => Ok (hash, t)
  | None =>
      let e := with_count (CBlockIndex_new block) 0 0 in
      let ix := <[hash := e]> (mapBlockIndex t) in
      match attach ix hash block e with
      | Err err => Err err
      | Ok e =>
          match GetBlockProof (bi_nBits e) with
          | None => Err (Throws "Division by zero")
          | Some proof =>
              let prevWork := match bi_pprev e with Some q => work_at ix q | None => 0 end in
              let e := with_work e (val (uint_add (uint_lit 8 prevWork) proof)) in
              let e := snd (RaiseValidity e BLOCK_VALID_TREE) in
              let t := with_index t (<[hash := e]> ix) in
              let better := match pindexBestHeader t with None => true | Some q => work_at (mapBlockIndex t) q <? bi_nChainWork e end in
              let t := if better then with_header t (Some hash) else t in
              Ok (hash, with_dirty t hash)
          end
      end
  end.
End Add.

(** ** [ReceivedBlockTransactions] *)

Section Receive.
Context (addr : ptr -> Z).

Definition chain_tx_below (ix : BlockMap) (e : CBlockIndex) : Z :=
  match bi_pprev e with Some q => match ix !! q with Some f => bi_nChainTx f | None => 0 end | None => 0 end.

(** One round of the queue; the children that were waiting for the block. *)
Definition link_one (t : tree) (p : ptr) (e : CBlockIndex) : tree * list ptr :=
  let ix := mapBlockIndex t in
  let e := with_count e (u32 (chain_tx_below ix e + bi_nTx e)) (nBlockSequenceId t) in
  let t := with_sequence (with_index t (<[p := e]> ix)) (u32 (nBlockSequenceId t + 1)) in
  let t := if match tip_of t with None => true | Some tip => negb (work_less addr (mapBlockIndex t) p tip) end
           then with_candidates t ({[p]} ∪ setBlockIndexCandidates t) else t in
  (with_unlinked t (filter (fun ab => ab.1 <> p) (mapBlocksUnlinked t)),
   (filter (fun ab => ab.1 = p) (mapBlocksUnlinked t)).*2).

(** [while (!queue.empty())]; every block after the first leaves [mapBlocksUnlinked]. *)
Fixpoint link_loop (fuel : nat) (t : tree) (queue : list ptr) : tree :=
  match fuel, queue with
  | S fuel, p :: queue =>
      match mapBlockIndex t !! p with
      | None => t
      | Some e => let '(t, children) := link_one t p e in link_loop fuel t (queue ++ children)
      end
  | _, _ => t
  end.

Definition ReceivedBlockTransactions (block : CBlock) (t : tree) (pindexNew : ptr) (pos : CDiskBlockPos) : tree :=
  match mapBlockIndex t !! pindexNew with
  | None => t
  | Some e =>
      let e := if IsProofOfStake block then SetProofOfStake e else e in
      let e := with_data e (u32 (zlen (vtx block))) pos in
      let e := snd (RaiseValidity e BLOCK_VALID_TRANSACTIONS) in
      let t := with_dirty (with_index t (<[pindexNew := e]> (mapBlockIndex t))) pindexNew in
      match bi_pprev e with
      | None => link_loop (S (length (mapBlocksUnlinked t))) t [pindexNew]
      | Some q =>
          if negb (chain_tx_below (mapBlockIndex t) e =? 0) then link_loop (S (length (mapBlocksUnlinked t))) t [pindexNew]
          else if match mapBlockIndex t !! q with Some f => bi_IsValid f BLOCK_VALID_TREE | None => false end
          then with_unlinked t (mapBlocksUnlinked t ++ [(q, pindexNew)])
          else t
      end
  end.

(** ** [InvalidateBlock] and [ReconsiderBlock] *)

Context (disconnect : tree -> ptr -> bool).

(** [while (chainActive.Contains(pindex))] *)
Fixpoint unwind (fuel : nat) (t : tree) (pindex : ptr) : vres unit * tree :=
  match fuel with
  | O => (Ok tt, t)
  | S fuel =>
      if negb (Contains (mapBlockIndex t) (chainActive t) pindex) then (Ok tt, t)
      else
        match tip_of t with
        | None => (Err (Throws "null tip"), t)
        | Some walk =>
            let t := erase_candidate (with_dirty (with_index t (add_status (mapBlockIndex t) walk BLOCK_FAILED_CHILD)) walk) walk in
            match DisconnectTip disconnect t with
            | (Err e, t) => (Err e, t)
            | (Ok _, t) => unwind fuel t pindex
            end
        end
  end.

(** [IsValid(BLOCK_VALID_TRANSACTIONS) && nChainTx] *)
Definition ready (e : CBlockIndex) : bool := bi_IsValid e BLOCK_VALID_TRANSACTIONS && negb (bi_nChainTx e =? 0).

Definition InvalidateBlock (t : tree) (pindex : ptr) : vres unit * tree :=
  let t := erase_candidate (with_dirty (with_index t (add_status (mapBlockIndex t) pindex BLOCK_FAILED_VALID)) pindex) pindex in
  match unwind (length (chainActive t)) t pindex with
  | (Err e, t) => (Err e, t)
  | (Ok _, t) =>
      let readies := filter (fun pe : ptr * CBlockIndex => ready pe.2 = true) (mapBlockIndex t) in
      match tip_of t with
      | None => (Err (Throws "null tip"), t)
      | Some tip =>
          let again := dom (filter (fun pe : ptr * CBlockIndex => work_less addr (mapBlockIndex t) pe.1 tip = false) readies) in
          (Ok tt, InvalidChainFound (with_candidates t (again ∪ setBlockIndexCandidates t)) pindex)
      end
  end.

Definition clear_failed (e : CBlockIndex) : CBlockIndex := with_status e (Z.ldiff (bi_nStatus e) BLOCK_FAILED_MASK).

(** The blocks the first loop of [ReconsiderBlock] clears. *)
Definition revived (ix : BlockMap) (pindex : ptr) (nHeight : Z) (q : ptr) (e : CBlockIndex) : bool :=
  negb (bi_IsValid e BLOCK_VALID_TRANSACTIONS) && bool_decide (GetAncestor ix q nHeight = Some pindex).

(** [while (pindex != NULL)] *)
Fixpoint clear_ancestors (fuel : nat) (t : tree) (pindex : option ptr) : tree :=
  match fuel, pindex with
  | S fuel, Some p =>
      match mapBlockIndex t !! p with
      | None => t
      | Some e =>
          let t := if is_failed e then with_dirty (with_index t (alter clear_failed p (mapBlockIndex t))) p else t in
          clear_ancestors fuel t (bi_pprev e)
      end
  | _, _ => t
  end.

Definition ReconsiderBlock (t : tree) (pindex : ptr) : vres unit * tree :=
  match height_at (mapBlockIndex t) pindex with
  | None => (Err AssertFail, t)
  | Some nHeight =>
      let ix := mapBlockIndex t in
      let affected := filter (fun pe : ptr * CBlockIndex => revived ix pindex nHeight pe.1 pe.2 = true) ix in
      let ix' := map_imap (fun q e => Some (if revived ix pindex nHeight q e then clear_failed e else e)) ix in
      let readies := filter (fun pe : ptr * CBlockIndex => ready (clear_failed pe.2) = true) affected in
      let t1 := {| mapBlockIndex := ix';
                   pindexBestInvalid := match pindexBestInvalid t with
                                        | Some q => if decide (q ∈ dom affected) then None else Some q
                                        | None => None
                                        end;
                   setBlockIndexCandidates := setBlockIndexCandidates t; mapBlocksUnlinked := mapBlocksUnlinked t;
                   setDirtyBlockIndex := dom affected ∪ setDirtyBlockIndex t; chainActive := chainActive t;
                   nBlockSequenceId := nBlockSequenceId t; pindexBestHeader := pindexBestHeader t |} in
      match tip_of t with
      | None => if decide (readies = ∅) then (Ok tt, clear_ancestors (S (Z.to_nat nHeight)) t1 (Some pindex)) else (Err (Throws "null tip"), t1)
      | Some tip =>
          let again := dom (filter (fun pe : ptr * CBlockIndex => work_less addr ix tip pe.1 = true) readies) in
          (Ok tt, clear_ancestors (S (Z.to_nat nHeight)) (with_candidates t1 (again ∪ setBlockIndexCandidates t)) (Some pindex))
      end
  end.
End Receive.
