(* ===== verification/IndexInvariant.v ===== *)
(** The invariant of the block index: it is a tree in which work grows from parent to
    child, a block whose transactions are counted has its data and counted parents, and
    every candidate for the tip is such a block. Every operation on the index keeps it. *)

From Stdlib Require Import ZArith Lia.
From stdpp Require Import base tactics list numbers gmap strings.
From S2P Require Import Prelude ArithUint256 Hash ChainParams Transaction Block Chain Pow StakeModifier TxVerify BlockTree ChainSelection Activation BlockIndexing.

(** [nChainTx] is the number of transactions up to the block, and it is not zero only
    when the block and all its parents have their transactions. *)
Definition counted (ix : BlockMap) (e : CBlockIndex) : Prop :=
  bi_nChainTx e <> 0 -> has_data e = true /\ 0 < bi_nTx e /\ 0 <= chain_tx_below ix e /\
    (bi_pprev e <> None -> chain_tx_below ix e <> 0) /\ bi_nChainTx e = chain_tx_below ix e + bi_nTx e.

(** A block that waits for its parent. *)
Definition waiting (ix : BlockMap) (a b : ptr) : Prop :=
  exists e, ix !! b = Some e /\ bi_pprev e = Some a /\ has_data e = true /\ 0 < bi_nTx e.

Definition linked_tx (ix : BlockMap) (p : ptr) : Prop := exists e, ix !! p = Some e /\ bi_nChainTx e <> 0.

Record index_ok (t : tree) : Prop := {
  io_linked : linked (mapBlockIndex t);
  io_grows : grows (mapBlockIndex t);
  io_work : forall p, 0 <= work_at (mapBlockIndex t) p < 2 ^ 256;
  io_counted : forall p e, mapBlockIndex t !! p = Some e -> counted (mapBlockIndex t) e;
  io_candidates : forall p, p ∈ setBlockIndexCandidates t -> linked_tx (mapBlockIndex t) p;
  io_waiting : forall a b, (a, b) ∈ mapBlocksUnlinked t -> waiting (mapBlockIndex t) a b;
  io_chain : chain_ok (mapBlockIndex t) (chainActive t)
}.

(** ** The candidates of a tree that satisfies it *)

Lemma linked_tx_ancestor ix p h k q : linked ix -> (forall r e, ix !! r = Some e -> counted ix e) -> height_at ix p = Some h ->
  linked_tx ix p -> ancestor ix p k = Some q -> linked_tx ix q.
Proof.
  intros Hix Hc. remember (Z.to_nat (h - k)) as n eqn:En. revert p h En. induction n as [| n IH]; intros p h En Hp (e & He & Htx) Hq;
    pose proof (ancestor_range ix p h k q Hp Hq) as Hr.
  - assert (k = h) as -> by lia. rewrite (ancestor_self ix Hix p h Hp) in Hq. injection Hq as <-. by exists e.
  - destruct (linked_prev ix Hix p h Hp) as [_ Hl]. destruct (Hl ltac:(lia)) as (p1 & Hp1 & Hh1 & _).
    assert (Hprev : bi_pprev e = Some p1) by (unfold prev_at in Hp1; rewrite He in Hp1; done).
    apply (IH p1 (h - 1)); [lia | done | | by rewrite <- (ancestor_prev ix Hix p h p1 k Hp Hp1) by lia].
    destruct (Hc p e He Htx) as (_ & _ & _ & Hbelow & _). specialize (Hbelow ltac:(by rewrite Hprev)). unfold chain_tx_below in Hbelow. rewrite Hprev in Hbelow.
    destruct (ix !! p1) as [f |] eqn:Hf; [| done]. by exists f.
Qed.

Lemma index_tree_ok t : index_ok t -> tree_ok t.
Proof.
  intros [H1 H2 H3 H4 H5 H6 H7]. split; [done | done |]. intros p Hp. pose proof (H5 p Hp) as Htx. pose proof Htx as (e & He & _). split; [by rewrite He |].
  intros k q f Hq Hf. left. assert (Hh : height_at (mapBlockIndex t) p = Some (bi_nHeight e)) by (unfold height_at; by rewrite He).
  destruct (linked_tx_ancestor _ p _ k q H1 H4 Hh Htx Hq) as (f' & Hf' & ?). congruence.
Qed.

(** ** Operations that leave the shape of the entries *)

Lemma shape_below ix ix' e e' : same_shape ix ix' -> bi_pprev e' = bi_pprev e -> chain_tx_below ix' e' = chain_tx_below ix e.
Proof.
  intros Hs Hp. unfold chain_tx_below. rewrite Hp. destruct (bi_pprev e) as [q |]; [| done]. pose proof (same_shape_at _ _ q Hs) as H.
  destruct (ix !! q), (ix' !! q); cbn in *; try done. by injection H.
Qed.

Lemma shape_linked_tx ix ix' p : same_shape ix ix' -> linked_tx ix p -> linked_tx ix' p.
Proof.
  intros Hs (e & He & Htx). pose proof (same_shape_at _ _ p Hs) as H. rewrite He in H. destruct (ix' !! p) as [e' |] eqn:He'; [| done].
  exists e'. split; [done |]. cbn in H. injection H. congruence.
Qed.

Lemma index_keep t t' : index_ok t -> same_shape (mapBlockIndex t) (mapBlockIndex t') ->
  (forall p, p ∈ setBlockIndexCandidates t' -> p ∈ setBlockIndexCandidates t \/ linked_tx (mapBlockIndex t) p) ->
  (forall a b, (a, b) ∈ mapBlocksUnlinked t' -> (a, b) ∈ mapBlocksUnlinked t \/ prev_at (mapBlockIndex t) b = Some a /\ linked_tx (mapBlockIndex t) b) ->
  chain_ok (mapBlockIndex t') (chainActive t') -> index_ok t'.
Proof.
  intros [H1 H2 H3 H4 H5 H6 H7] Hs Hc Hu Hch.
  assert (Hwait : forall a b, waiting (mapBlockIndex t) a b -> waiting (mapBlockIndex t') a b).
  { intros a b (e & He & E1 & E2 & E3). pose proof (same_shape_at _ _ b Hs) as H. rewrite He in H. destruct (mapBlockIndex t' !! b) as [e' |] eqn:He'; [| done].
    cbn in H. injection H as F1 F2 F3 F4 F5 F6 F7 F8. exists e'. rewrite F1, F7, F8. done. }
  split.
  - by apply (shape_linked _ _ Hs).
  - by apply (shape_grows _ _ Hs).
  - intros p. by rewrite (shape_work _ _ Hs).
  - intros p e' He'. pose proof (same_shape_at _ _ p Hs) as H. rewrite He' in H. destruct (mapBlockIndex t !! p) as [e |] eqn:He; [| done].
    cbn in H. injection H as F1 F2 F3 F4 F5 F6 F7 F8. intros Htx. unfold counted in H4. rewrite (shape_below _ _ e e' Hs F1), F1, F5, F7, F8.
    apply (H4 p e He). by rewrite <- F5.
  - intros p Hp. apply (shape_linked_tx _ _ _ Hs). destruct (Hc p Hp) as [? | ?]; [by apply H5 | done].
  - intros a b Hab. apply Hwait. destruct (Hu a b Hab) as [? | [Hpr (e & He & Htx)]]; [by apply H6 |].
    destruct (H4 b e He Htx) as (D1 & D2 & _). exists e. unfold prev_at in Hpr. rewrite He in Hpr. done.
  - done.
Qed.

(** The special case of the steps that only drop candidates. *)
Definition keeps (t t' : tree) : Prop :=
  same_shape (mapBlockIndex t) (mapBlockIndex t') /\ setBlockIndexCandidates t' ⊆ setBlockIndexCandidates t /\
  mapBlocksUnlinked t' = mapBlocksUnlinked t /\
  (linked (mapBlockIndex t) -> chain_ok (mapBlockIndex t) (chainActive t) -> chain_ok (mapBlockIndex t') (chainActive t')).

#[export] Instance keeps_refl : Reflexive keeps.
Proof. intros t. by split_and!. Qed.
#[export] Instance keeps_trans : Transitive keeps.
Proof.
  intros t1 t2 t3 (A1 & A2 & A3 & A4) (B1 & B2 & B3 & B4). split_and!; [by etrans | set_solver | congruence |].
  intros Hl Hc. apply B4; [by apply (shape_linked _ _ A1) | by apply A4].
Qed.

Lemma keeps_ok t t' : index_ok t -> keeps t t' -> index_ok t'.
Proof.
  intros Hok (K1 & K2 & K3 & K4). apply (index_keep t); [done | done | | |].
  - intros p Hp. left. by apply K2.
  - intros a b Hab. left. by rewrite <- K3.
  - apply K4; apply Hok.
Qed.

Lemma keeps_note t p : keeps t (note_invalid t p).
Proof. unfold note_invalid. case_match; [by split_and! | reflexivity]. Qed.

(** Marking one entry, with or without dropping it from the candidates. *)
Lemma keeps_mark t p f : (forall e, shape (f e) = shape e) -> keeps t (with_dirty (with_index t (alter f p (mapBlockIndex t))) p).
Proof.
  intros Hf. assert (Hs : same_shape (mapBlockIndex t) (alter f p (mapBlockIndex t))) by (by apply same_shape_alter).
  split_and!; cbn; [done | done | done |]. intros _. by apply (shape_chain_ok _ _ Hs).
Qed.
Lemma keeps_erase t p : keeps t (erase_candidate t p).
Proof. split_and!; cbn; [done | set_solver | done | done]. Qed.
Lemma keeps_tip t p : match p with Some q => is_Some (mapBlockIndex t !! q) | None => True end -> keeps t (UpdateTip t p).
Proof.
  intros Hp. split_and!; cbn; [done | done | done |]. intros Hl Hc. destruct p as [q |]; [| by left]. destruct Hp as [e He].
  assert (Hh : height_at (mapBlockIndex t) q = Some (bi_nHeight e)) by (unfold height_at; by rewrite He). right. exists q, (bi_nHeight e).
  split; [done |]. by apply SetTip_branch.
Qed.

Lemma keeps_linked t t' : keeps t t' -> linked (mapBlockIndex t) -> linked (mapBlockIndex t').
Proof. intros [Hs _]. by apply (shape_linked _ _ Hs). Qed.
Lemma keeps_some t t' p : keeps t t' -> is_Some (mapBlockIndex t !! p) -> is_Some (mapBlockIndex t' !! p).
Proof. intros [Hs _] [e He]. pose proof (same_shape_at _ _ p Hs) as H. rewrite He in H. by destruct (mapBlockIndex t' !! p). Qed.

Section Selection.
Context (addr : ptr -> Z) (connect : tree -> ptr -> vres (option Z)) (disconnect : tree -> ptr -> bool).

Lemma keeps_fail t p : keeps t (erase_candidate (with_dirty (with_index t (add_status (mapBlockIndex t) p BLOCK_FAILED_VALID)) p) p).
Proof using Type. etrans; [| apply keeps_erase]. apply keeps_mark, add_failed_shape. Qed.
Lemma keeps_child t p : keeps t (erase_candidate (with_dirty (with_index t (add_status (mapBlockIndex t) p BLOCK_FAILED_CHILD)) p) p).
Proof using Type. etrans; [| apply keeps_erase]. apply keeps_mark, mark_child_shape. Qed.

Lemma ConnectTip_keeps t p : is_Some (mapBlockIndex t !! p) -> keeps t (ConnectTip connect t p).2.
Proof using Type.
  intros Hp. unfold ConnectTip. destruct (negb _); [done |]. destruct (connect t p) as [pos | e]; cbn [snd].
  - set (t1 := match pos with Some pos => _ | None => t end). assert (K : keeps t t1).
    { unfold t1. destruct pos as [pos |]; [| done]. apply keeps_mark. intros e. apply mark_connected_shape. }
    etrans; [exact K |]. apply keeps_tip. by apply (keeps_some t).
  - case_match; [| done]. unfold InvalidBlockFound. case_match; [| done]. etrans; [apply keeps_fail | apply keeps_note].
Qed.

Lemma DisconnectTip_keeps t : linked (mapBlockIndex t) -> keeps t (DisconnectTip disconnect t).2.
Proof using Type.
  intros Hix. unfold DisconnectTip. destruct (tip_of t) as [p |]; [| done]. case_match; [| done]. apply keeps_tip.
  destruct (prev_at (mapBlockIndex t) p) as [q |] eqn:Eq; [| done]. unfold prev_at in Eq. destruct (mapBlockIndex t !! p) as [e |] eqn:He; [| done]. cbn in Eq.
  pose proof (Hix p e He) as Hl. unfold entry_linked in Hl. rewrite Eq in Hl. destruct Hl as (h & Hh & _). unfold height_at in Hh. by destruct (mapBlockIndex t !! q).
Qed.

Lemma Prune_keeps t t' : PruneBlockIndexCandidates addr t = Ok t' -> keeps t t'.
Proof using Type.
  unfold PruneBlockIndexCandidates. destruct (tip_of t) as [tip |]; [| done]. case_match; [done |]. intros [= <-]. split_and!; cbn; [done | | done | done].
  intros q Hq. by apply elem_of_filter in Hq as [_ ?].
Qed.

Lemma disconnect_to_keeps fuel t fork : linked (mapBlockIndex t) -> keeps t (disconnect_to disconnect fuel t fork).2.
Proof using Type.
  revert t. induction fuel as [| fuel IH]; intros t Hix; cbn [disconnect_to]; [done |]. destruct (tip_of t) as [p |]; [| done]. case_match; [done |].
  pose proof (DisconnectTip_keeps t Hix) as K. destruct (DisconnectTip disconnect t) as [[[] | e] t1]; cbn [snd] in K; [| done].
  etrans; [exact K |]. apply IH. by apply (keeps_linked t).
Qed.

Lemma connect_batch_keeps t old back l : Forall (fun p => is_Some (mapBlockIndex t !! p)) l -> keeps t (connect_batch addr connect t old back l).2.
Proof using Type.
  revert t. induction l as [| p l IH]; intros t Hl; cbn [connect_batch]; [done |]. inversion Hl as [| x l' Hp Hl']; subst.
  pose proof (ConnectTip_keeps t p Hp) as K. destruct (ConnectTip connect t p) as [[[] | e] t1]; cbn [snd] in K.
  - destruct (PruneBlockIndexCandidates addr t1) as [t2 | e] eqn:E; [| done]. apply Prune_keeps in E. assert (K2 : keeps t t2) by (by etrans).
    match goal with |- context [if ?c then _ else _] => destruct c end; [done |]. etrans; [exact K2 |]. apply IH.
    eapply Forall_impl; [exact Hl' |]. intros q. by apply keeps_some.
  - repeat case_match; try done. etrans; [exact K | apply keeps_note].
Qed.

Lemma path_down_some fuel ix p n : Forall (fun q => is_Some (ix !! q)) (path_down fuel ix p n).
Proof using Type.
  revert p. induction fuel as [| fuel IH]; intros p; cbn [path_down]; [constructor |]. destruct p as [p |]; [| constructor].
  destruct (ix !! p) as [e |] eqn:He; [| constructor]. case_match; constructor; [by rewrite He | apply IH].
Qed.

Lemma connect_loop_keeps fuel t old most n target : keeps t (connect_loop addr connect fuel t old most n target).2.
Proof using Type.
  revert t n. induction fuel as [| fuel IH]; intros t n; cbn [connect_loop]; [done |]. case_match; [done |].
  match goal with |- context [connect_batch _ _ _ _ ?b (reverse ?l)] => pose proof (connect_batch_keeps t old b (reverse l)) as K; set (batch := connect_batch _ _ _ _ _ _) in * end.
  assert (K' : keeps t batch.2) by (apply K, Forall_reverse, path_down_some). clear K. destruct batch as [[| | | e] t1]; cbn [snd] in *; try done. etrans; [exact K' | apply IH].
Qed.

Lemma Step_keeps t most : linked (mapBlockIndex t) -> keeps t (ActivateBestChainStep addr connect disconnect t most).2.
Proof using Type.
  intros Hix. unfold ActivateBestChainStep. destruct (height_at _ most) as [target |]; [| done].
  pose proof (disconnect_to_keeps (length (chainActive t)) t (FindFork (mapBlockIndex t) (chainActive t) (Some most)) Hix) as K.
  destruct (disconnect_to _ _ _ _) as [[[] | e] t1]; cbn [snd] in *; [| done]. etrans; [exact K | apply connect_loop_keeps].
Qed.

(** ** The search *)

Lemma drop_path_ok fuel t p q failed : index_ok t -> linked_tx (mapBlockIndex t) p -> index_ok (drop_path fuel t p q failed).
Proof using Type.
  revert t p. induction fuel as [| fuel IH]; intros t p Hok Hp; cbn [drop_path]; [done |].
  destruct (decide (q = p)) as [-> | Hne]; [apply (keeps_ok t); [done | apply keeps_erase] |].
  destruct (prev_at (mapBlockIndex t) p) as [p1 |] eqn:Hp1; [| done].
  assert (Hp1tx : linked_tx (mapBlockIndex t) p1).
  { destruct Hp as (e & He & Htx). unfold prev_at in Hp1. rewrite He in Hp1. cbn in Hp1. destruct (io_counted _ Hok p e He Htx) as (_ & _ & _ & Hb & _).
    rewrite Hp1 in Hb. specialize (Hb ltac:(done)). unfold chain_tx_below in Hb. rewrite Hp1 in Hb. destruct (mapBlockIndex t !! p1) as [f |] eqn:Hf; [by exists f | done]. }
  set (t1 := if failed then with_index t (add_status (mapBlockIndex t) p BLOCK_FAILED_CHILD) else with_unlinked t (mapBlocksUnlinked t ++ [(p1, p)])).
  assert (Hs : same_shape (mapBlockIndex t) (mapBlockIndex t1)) by (unfold t1; destruct failed; [apply same_shape_alter, mark_child_shape | reflexivity]).
  apply IH; [| cbn; by apply (shape_linked_tx _ _ _ Hs)]. apply (keeps_ok t1); [| apply keeps_erase]. apply (index_keep t); [done | done | | |].
  - unfold t1. intros r Hr. left. by destruct failed.
  - unfold t1. intros a b. destruct failed; cbn; [by left |]. intros [? | Hab%list_elem_of_singleton]%elem_of_app; [by left |]. injection Hab as -> ->. by right.
  - apply (shape_chain_ok _ _ Hs). unfold t1. destruct failed; apply (io_chain _ Hok).
Qed.

Lemma find_loop_ok fuel t r t' : index_ok t -> find_loop addr fuel t = Ok (r, t') -> index_ok t'.
Proof using Type.
  revert t. induction fuel as [| fuel IH]; intros t Hok; cbn [find_loop]; destruct (best_candidate addr t) as [p |] eqn:Eb; try (by intros [= <- <-]).
  all: destruct (unusable_at _ _ _) as [[[q f] |] | e]; [| by intros [= <- <-] | done].
  all: assert (Hp : linked_tx (mapBlockIndex t) p); [apply (io_candidates _ Hok) |]; [by eapply best_candidate_in |].
  all: set (t1 := if f then note_invalid t p else t); assert (Hok1 : index_ok t1 /\ mapBlockIndex t1 = mapBlockIndex t) by
    (unfold t1; destruct f; [split; [apply (keeps_ok t); [done | apply keeps_note] | unfold note_invalid; by case_match] | done]).
  all: destruct Hok1 as [Hok1 E1]; assert (Hok2 : index_ok (drop_path (rounds_of t1 p) t1 p q f)) by (apply drop_path_ok; [done | by rewrite E1]).
  - intros [= _ <-]. done.
  - by apply IH.
Qed.
End Selection.

(** ** A new header *)

Section Adding.
Context (consensus : ConsensusParams) (HashQuark : bytes -> bytes) (literal : Z).

Lemma modifier_links ix hash e : links (SetNewStakeModifierV1 consensus ix literal hash e) = links e /\
  bi_nChainTx (SetNewStakeModifierV1 consensus ix literal hash e) = bi_nChainTx e /\ bi_nBits (SetNewStakeModifierV1 consensus ix literal hash e) = bi_nBits e.
Proof using Type.
  unfold SetNewStakeModifierV1. set (e1 := snd (SetStakeEntropyBit e (GetStakeEntropyBit hash))).
  assert (H : links e1 = links e /\ bi_nChainTx e1 = bi_nChainTx e /\ bi_nBits e1 = bi_nBits e) by (unfold e1, SetStakeEntropyBit; by destruct (1 <? _)).
  by destruct (ComputeNextStakeModifier _ _ _ _) as [[ok m] g].
Qed.

Lemma attach_links ix hash block e e' : attach consensus literal ix hash block e = Ok e' ->
  bi_nChainTx e' = bi_nChainTx e /\ bi_nBits e' = bi_nBits e /\ bi_nChainWork e' = bi_nChainWork e /\
  match ix !! hashPrevBlock (header block) with
  | None => e' = e
  | Some prev => bi_pprev e' = Some (hashPrevBlock (header block)) /\ bi_nHeight e' = bi_nHeight prev + 1 /\
      bi_pskip e' = BuildSkip ix (Some (hashPrevBlock (header block))) (bi_nHeight prev + 1)
  end.
Proof using Type.
  unfold attach. destruct (ix !! _) as [prev |] eqn:Ep; [| by intros [= <-]]. destruct (_ <? _) eqn:Hv.
  - intros [= <-]. match goal with |- context [SetNewStakeModifierV1 _ _ _ _ ?x] => destruct (modifier_links ix hash x) as (L & T & B) end.
    unfold links in L. injection L as L1 L2 L3 L4. rewrite T, B, L1, L2, L3, L4. done.
  - destruct (_ ≫= _) as [txin |]; [| done]. unfold SetNewStakeModifierV2. cbn [with_links bi_nHeight bi_pprev].
    rewrite Hv, Ep. cbn [mbind option_bind]. by intros [= <-].
Qed.

Lemma insert_work (ix : BlockMap) hash e p : ix !! hash = None -> p <> hash -> work_at (<[hash := e]> ix) p = work_at ix p.
Proof using Type. intros _ Hne. unfold work_at. by rewrite lookup_insert_ne. Qed.

Lemma insert_old_prev (ix : BlockMap) hash p f q : linked ix -> ix !! hash = None -> ix !! p = Some f -> bi_pprev f = Some q -> q <> hash.
Proof using Type.
  intros Hix Hh Hp Hq ->. pose proof (Hix p f Hp) as Hl. unfold entry_linked in Hl. rewrite Hq in Hl. destruct Hl as (h & Hl & _).
  unfold height_at in Hl. by rewrite Hh in Hl.
Qed.

(** Adding an entry that is linked, has more work than its parent and no transactions. *)
Lemma insert_ok t t' hash e : index_ok t -> mapBlockIndex t !! hash = None ->
  mapBlockIndex t' = <[hash := e]> (mapBlockIndex t) -> setBlockIndexCandidates t' = setBlockIndexCandidates t ->
  mapBlocksUnlinked t' = mapBlocksUnlinked t -> chainActive t' = chainActive t ->
  linked (<[hash := e]> (mapBlockIndex t)) -> bi_nChainTx e = 0 -> 0 <= bi_nChainWork e < 2 ^ 256 ->
  (forall q, bi_pprev e = Some q -> q <> hash /\ work_at (mapBlockIndex t) q < bi_nChainWork e) -> index_ok t'.
Proof using Type.
  intros [H1 H2 H3 H4 H5 H6 H7] Hn Ei Ec Eu Ech Hlink Htx Hw Hprev. set (ix := mapBlockIndex t) in *.
  assert (Hat : forall p f, ix !! p = Some f -> <[hash := e]> ix !! p = Some f).
  { intros p f Hp. rewrite lookup_insert_ne; [done |]. intros ->. congruence. }
  split; rewrite Ei, ?Ec, ?Eu, ?Ech.
  - done.
  - intros p q Hpq. unfold prev_at in Hpq. destruct (decide (p = hash)) as [-> | Hne].
    + rewrite lookup_insert_eq in Hpq. cbn in Hpq. destruct (Hprev q Hpq) as [Hq Hlt]. rewrite (insert_work ix hash e q) by done.
      unfold work_at at 2. by rewrite lookup_insert_eq.
    + rewrite lookup_insert_ne in Hpq by done. destruct (ix !! p) as [f |] eqn:Hf; [| done]. cbn in Hpq.
      rewrite !insert_work; [| done | done | done | by apply (insert_old_prev ix hash p f)]. apply H2. unfold prev_at. fold ix. by rewrite Hf.
  - intros p. destruct (decide (p = hash)) as [-> | Hne]; [unfold work_at; by rewrite lookup_insert_eq |]. rewrite insert_work by done. apply H3.
  - intros p f Hf. destruct (decide (p = hash)) as [-> | Hne]; [rewrite lookup_insert_eq in Hf; injection Hf as <-; by intros ? |].
    rewrite lookup_insert_ne in Hf by done. assert (Eb : chain_tx_below (<[hash := e]> ix) f = chain_tx_below ix f).
    { unfold chain_tx_below. destruct (bi_pprev f) as [q |] eqn:Eq; [| done]. rewrite lookup_insert_ne; [done |].
      intros <-. by apply (insert_old_prev ix hash p f hash). }
    unfold counted. rewrite Eb. by apply (H4 p).
  - intros p Hp. destruct (H5 p Hp) as (f & Hf & ?). exists f. split; [by apply Hat | done].
  - intros a b Hab. destruct (H6 a b Hab) as (f & Hf & ?). exists f. split; [by apply Hat | done].
  - destruct H7 as [-> | (p & h & Hp & ->)]; [by left |]. right. exists p, h. rewrite height_insert by (fold ix; congruence). split; [done |].
    unfold branch. apply map_ext. intros k. symmetry. by apply ancestor_insert; [| | congruence].
Qed.

Lemma RaiseValidity_keeps e n : links (snd (RaiseValidity e n)) = links e /\ bi_nChainTx (snd (RaiseValidity e n)) = bi_nChainTx e /\ bi_nTx (snd (RaiseValidity e n)) = bi_nTx e.
Proof using Type. unfold RaiseValidity. by repeat case_match. Qed.

Lemma with_links_self e : with_links e (bi_pprev e) (bi_pskip e) (bi_nHeight e) = e.
Proof using Type. by destruct e. Qed.

Lemma stub_skip ix hash stub prev k : linked ix -> ix !! hash = None -> is_Some (ix !! prev) -> bi_pprev stub = None -> bi_nHeight stub = 0 ->
  GetAncestor (<[hash := stub]> ix) prev k = GetAncestor ix prev k.
Proof using Type.
  intros Hix Hh [f Hf] Hp H0. assert (Hl : linked (<[hash := stub]> ix)).
  { pose proof (add_linked_linked ix hash hash stub Hix) as H. unfold add_linked in H. rewrite Hh in H.
    replace (with_links stub None None 0) with (with_links stub (bi_pprev stub) None (bi_nHeight stub)) in H by (by rewrite Hp, H0).
    intros p e He. pose proof (H p) as H'. destruct (decide (p = hash)) as [-> | Hne].
    - rewrite lookup_insert_eq in He. injection He as <-. unfold entry_linked. by rewrite Hp.
    - rewrite lookup_insert_ne in He by done. pose proof (Hix p e He) as Hl. unfold entry_linked in *. destruct (bi_pprev e) as [q |] eqn:Eq; [| done].
      destruct Hl as (h & E1 & E2 & E3 & E4). exists h. rewrite height_insert, ancestor_insert by (done || congruence). done. }
  rewrite (GetAncestor_ancestor _ Hl), (GetAncestor_ancestor _ Hix). apply ancestor_insert; [done | done |]. unfold height_at. by rewrite Hf.
Qed.

(** The guards on a new block: its target is in range, it is not its own parent, and the
    work of its chain fits. *)
Definition addable (t : tree) (block : CBlock) : Prop :=
  let h := header block in
  0 <= nBits h < 2 ^ 32 /\ hashPrevBlock h <> CBlockHeader_GetHash HashQuark h /\
  exists T, valid_target (nBits h) T /\ work_at (mapBlockIndex t) (hashPrevBlock h) + 2 ^ 256 / (T + 1) < 2 ^ 256.

Lemma AddToBlockIndex_ok t block p t' : index_ok t -> addable t block -> AddToBlockIndex consensus HashQuark literal t block = Ok (p, t') -> index_ok t'.
Proof using Type.
  intros Hok (Hbits & Hself & T & HT & Hfit). unfold AddToBlockIndex. set (hash := CBlockHeader_GetHash HashQuark (header block)) in *.
  destruct (mapBlockIndex t !! hash) as [old |] eqn:Eold; [by intros [= _ <-] |]. set (stub := with_count (CBlockIndex_new block) 0 0).
  assert (Hstub : bi_pprev stub = None /\ bi_nHeight stub = 0 /\ bi_nBits stub = nBits (header block) /\ bi_nChainTx stub = 0 /\ bi_pskip stub = None).
  { unfold stub, CBlockIndex_new. by destruct (IsProofOfStake block). }
  destruct Hstub as (S1 & S2 & S3 & S4 & S5). destruct (attach _ _ _ _ _ _) as [e |] eqn:Ea; [| done].
  destruct (attach_links _ _ _ _ _ Ea) as (A1 & A2 & _ & A3). destruct (GetBlockProof_spec (nBits (header block)) Hbits) as (proof & Ep & Wp & Lp & Hp & _).
  rewrite A2, S3, Ep. specialize (Hp T HT). rewrite lookup_insert_ne in A3 by done.
  set (prevWork := match bi_pprev e with Some q => _ | None => 0 end). set (e1 := with_work e _). set (e2 := snd (RaiseValidity e1 BLOCK_VALID_TREE)).
  intros E. injection E as _ <-. set (ix := mapBlockIndex t) in *.
  destruct (RaiseValidity_keeps e1 BLOCK_VALID_TREE) as (L & R1 & _). fold e2 in L, R1. unfold links in L. injection L as L1 L2 L3 L4. cbn [e1 with_work] in *.
  pose proof (io_work _ Hok (hashPrevBlock (header block))) as Hpw. fold ix in Hpw.
  assert (HprevWork : prevWork = match ix !! hashPrevBlock (header block) with Some _ => work_at ix (hashPrevBlock (header block)) | None => 0 end).
  { unfold prevWork. destruct (ix !! hashPrevBlock (header block)) as [prev |]; [| by rewrite A3, S1]. destruct A3 as (-> & _). by apply insert_work. }
  assert (Hbound : 0 <= prevWork <= work_at ix (hashPrevBlock (header block))) by (rewrite HprevWork; case_match; lia).
  destruct HT as (tt0 & ET & VT & HT0). destruct (target_shape _ Hbits) as (t0 & neg & over & ET' & W0 & L0 & Hmax). rewrite ET in ET'. injection ET' as <- <- <-.
  specialize (Hmax eq_refl). rewrite VT in Hmax. pose proof (val_bound _ W0) as Hb0. rewrite VT in Hb0.
  assert (Hpos : 1 <= val proof) by (rewrite Hp; apply Z.div_le_lower_bound; lia).
  destruct (uint_lit_spec 8 prevWork) as (V1 & W1 & Len1); [change (32 * Z.of_nat 8) with 256; lia |].
  destruct (uint_add_spec (uint_lit 8 prevWork) proof W1 Wp ltac:(congruence)) as (Vs & _ & _).
  assert (HM : modulus (uint_lit 8 prevWork) = 2 ^ 256) by (unfold modulus, zlen; by rewrite Len1). rewrite HM, V1, Z.mod_small in Vs by lia.
  rewrite Vs in L4. apply (insert_ok t _ hash e2); [done | done | | | | | | | |]; fold ix.
  - match goal with |- context [if ?c then _ else _] => destruct c end; cbn; apply insert_insert_eq.
  - by match goal with |- context [if ?c then _ else _] => destruct c end.
  - by match goal with |- context [if ?c then _ else _] => destruct c end.
  - by match goal with |- context [if ?c then _ else _] => destruct c end.
  - pose proof (add_linked_linked ix hash (hashPrevBlock (header block)) e2 (io_linked _ Hok)) as Hl. unfold add_linked in Hl. rewrite Eold in Hl.
    destruct (ix !! hashPrevBlock (header block)) as [prev |] eqn:Eprev.
    + destruct A3 as (P1 & P2 & P3). rewrite <- (with_links_self e2), L1, L2, L3, P1, P2, P3. unfold BuildSkip in *.
      by rewrite (stub_skip ix hash stub (hashPrevBlock (header block)) _ (io_linked _ Hok) Eold) by (done || by rewrite Eprev).
    + by rewrite <- (with_links_self e2), L1, L2, L3, A3, S1, S2, S5.
  - rewrite R1. cbn. by rewrite A1.
  - rewrite L4. lia.
  - intros q Hq. rewrite L1 in Hq. rewrite L4. destruct (ix !! hashPrevBlock (header block)) as [prev |] eqn:Eprev; [| congruence].
    destruct A3 as (P1 & _). rewrite P1 in Hq. injection Hq as <-. split; [done |]. lia.
Qed.
End Adding.

(** ** The arrival of transactions *)

Lemma prev_self t p e : index_ok t -> mapBlockIndex t !! p = Some e -> bi_pprev e <> Some p.
Proof. intros Hok He Hp. pose proof (io_grows _ Hok p p) as H. unfold prev_at in H. rewrite He in H. specialize (H Hp). lia. Qed.

Lemma chain_tx_nonneg t p e : index_ok t -> mapBlockIndex t !! p = Some e -> 0 <= bi_nChainTx e.
Proof. intros Hok He. destruct (decide (bi_nChainTx e = 0)) as [-> | Hne]; [lia |]. destruct (io_counted _ Hok p e He Hne) as (_ & ? & ? & _ & ?). lia. Qed.

Lemma below_nonneg t e : index_ok t -> 0 <= chain_tx_below (mapBlockIndex t) e.
Proof.
  intros Hok. unfold chain_tx_below. destruct (bi_pprev e) as [q |]; [| lia]. destruct (mapBlockIndex t !! q) as [f |] eqn:Hf; [| lia]. by apply (chain_tx_nonneg t q).
Qed.

(** Replacing one entry, which may start to count. *)
Lemma entry_ok t t' p e e' : index_ok t -> mapBlockIndex t !! p = Some e -> mapBlockIndex t' = <[p := e']> (mapBlockIndex t) ->
  links e' = links e -> counted (mapBlockIndex t) e' -> (bi_nChainTx e <> 0 -> bi_nChainTx e' = bi_nChainTx e) ->
  (has_data e = true -> has_data e' = true /\ bi_nTx e' = bi_nTx e) ->
  (forall q, q ∈ setBlockIndexCandidates t' -> q ∈ setBlockIndexCandidates t \/ q = p /\ bi_nChainTx e' <> 0) ->
  (forall ab, ab ∈ mapBlocksUnlinked t' -> ab ∈ mapBlocksUnlinked t) -> chainActive t' = chainActive t -> index_ok t'.
Proof.
  intros Hok He Ei Hl Hc Htx Hd Hca Hu Hch. set (ix := mapBlockIndex t) in *. assert (Hlinks : same_links ix (mapBlockIndex t')).
  { rewrite Ei. apply map_eq. intros q. rewrite !lookup_fmap. destruct (decide (q = p)) as [-> | Hne]; [rewrite lookup_insert_eq, He; cbn; by rewrite Hl | by rewrite lookup_insert_ne]. }
  assert (Hbelow : forall f, counted ix f -> bi_nChainTx f <> 0 -> chain_tx_below (mapBlockIndex t') f = chain_tx_below ix f).
  { intros f Hf Hne. destruct (Hf Hne) as (_ & _ & _ & Hb & _). rewrite Ei. unfold chain_tx_below in *. destruct (bi_pprev f) as [q |]; [| done].
    destruct (decide (q = p)) as [-> | Hq]; [| by rewrite lookup_insert_ne]. rewrite lookup_insert_eq. rewrite He in *. apply Htx. by apply Hb. }
  assert (Hkeep : forall f, counted ix f -> counted (mapBlockIndex t') f) by (intros f Hf Hne; rewrite (Hbelow f Hf Hne); by apply Hf).
  assert (Hltx : forall q, linked_tx ix q -> linked_tx (mapBlockIndex t') q).
  { intros q (f & Hf & Hne). rewrite Ei. destruct (decide (q = p)) as [-> | Hq]; [| by exists f; rewrite lookup_insert_ne].
    assert (f = e) as -> by congruence. exists e'. rewrite lookup_insert_eq. split; [done |]. by rewrite Htx. }
  split.
  - apply (shape_linked _ _ Hlinks), Hok.
  - intros a b. rewrite (shape_prev _ _ Hlinks), !(shape_work _ _ Hlinks). apply Hok.
  - intros q. rewrite (shape_work _ _ Hlinks). apply Hok.
  - intros q f Hf. rewrite Ei in Hf. apply Hkeep. destruct (decide (q = p)) as [-> | Hq]; [rewrite lookup_insert_eq in Hf; by injection Hf as <- |].
    rewrite lookup_insert_ne in Hf by done. by apply (io_counted _ Hok q).
  - intros q Hq. destruct (Hca q Hq) as [? | [-> Hne]]; [by apply Hltx, (io_candidates _ Hok) |]. exists e'. rewrite Ei, lookup_insert_eq. done.
  - intros a b Hab. destruct (io_waiting _ Hok a b (Hu _ Hab)) as (f & Hf & E1 & E2 & E3). fold ix in Hf. rewrite Ei. destruct (decide (b = p)) as [-> | Hb].
    + assert (f = e) as -> by congruence. destruct (Hd E2) as [D1 D2]. exists e'. rewrite lookup_insert_eq, D2. unfold links in Hl. injection Hl as -> _ _ _. done.
    + exists f. by rewrite lookup_insert_ne.
  - rewrite Hch. apply (shape_chain_ok _ _ Hlinks), Hok.
Qed.

Section Receiving.
Context (addr : ptr -> Z).

(** A block of the queue: its parents are counted. *)
Definition queued (ix : BlockMap) (q : ptr) : Prop :=
  exists e, ix !! q = Some e /\ has_data e = true /\ 0 < bi_nTx e /\ (bi_pprev e <> None -> chain_tx_below ix e <> 0).

(** No addition of the loop passes 32 bits. *)
Fixpoint links_fit (fuel : nat) (t : tree) (queue : list ptr) : Prop :=
  match fuel, queue with
  | S fuel, p :: queue =>
      match mapBlockIndex t !! p with
      | None => True
      | Some e => chain_tx_below (mapBlockIndex t) e + bi_nTx e < 2 ^ 32 /\
                  links_fit fuel (fst (link_one addr t p e)) (queue ++ snd (link_one addr t p e))
      end
  | _, _ => True
  end.

Lemma link_one_ok t p e : index_ok t -> mapBlockIndex t !! p = Some e -> queued (mapBlockIndex t) p ->
  chain_tx_below (mapBlockIndex t) e + bi_nTx e < 2 ^ 32 ->
  index_ok (fst (link_one addr t p e)) /\ Forall (queued (mapBlockIndex (fst (link_one addr t p e)))) (snd (link_one addr t p e)) /\
  (forall q, queued (mapBlockIndex t) q -> queued (mapBlockIndex (fst (link_one addr t p e))) q).
Proof using Type.
  intros Hok He (e0 & He0 & Hd & Htx & Hb) Hfit. assert (e0 = e) as -> by congruence. clear He0. pose proof (below_nonneg t e Hok) as H0.
  set (e' := with_count e (u32 (chain_tx_below (mapBlockIndex t) e + bi_nTx e)) (nBlockSequenceId t)).
  assert (Hc' : bi_nChainTx e' = chain_tx_below (mapBlockIndex t) e + bi_nTx e) by (cbn; apply Z.mod_small; lia).
  assert (Ei : mapBlockIndex (fst (link_one addr t p e)) = <[p := e']> (mapBlockIndex t)).
  { unfold link_one. cbn [fst]. match goal with |- context [if ?c then _ else _] => destruct c end; done. }
  assert (Hqueue : forall q f, mapBlockIndex t !! q = Some f -> has_data f = true -> 0 < bi_nTx f ->
    (bi_pprev f <> None -> chain_tx_below (mapBlockIndex t) f <> 0 \/ bi_pprev f = Some p) -> queued (<[p := e']> (mapBlockIndex t)) q).
  { intros q f Hf D1 D2 D3. exists (if decide (q = p) then e' else f). assert (Hlook : <[p := e']> (mapBlockIndex t) !! q = Some (if decide (q = p) then e' else f)).
    { destruct (decide (q = p)) as [-> |]; [apply lookup_insert_eq | by rewrite lookup_insert_ne]. }
    split; [done |]. assert (Hsame : bi_pprev (if decide (q = p) then e' else f) = bi_pprev f /\ has_data (if decide (q = p) then e' else f) = true /\ 0 < bi_nTx (if decide (q = p) then e' else f)).
    { destruct (decide (q = p)) as [-> |]; [assert (f = e) as -> by congruence |]; done. }
    destruct Hsame as (S1 & S2 & S3). split_and!; [done | done |]. rewrite S1. intros Hne. specialize (D3 Hne). unfold chain_tx_below in *. rewrite S1.
    destruct (bi_pprev f) as [r |]; [| done]. destruct (decide (r = p)) as [-> | Hr].
    - rewrite lookup_insert_eq, Hc'. lia.
    - rewrite lookup_insert_ne by done. by destruct D3 as [? | [= ->]]. }
  split_and!.
  - apply (entry_ok t _ p e e'); [done | done | done | done | | | done | | |].
    + intros _. cbn [e' with_count has_data bi_nStatus bi_nTx bi_pprev]. unfold chain_tx_below in *. cbn [e' with_count bi_pprev]. rewrite Hc'. done.
    + intros Hne. destruct (io_counted _ Hok p e He Hne) as (_ & _ & _ & _ & ->). done.
    + intros q. unfold link_one. cbn [fst]. match goal with |- context [if ?c then _ else _] => destruct c end; cbn; [| by left].
      intros [Hq%elem_of_singleton | ?]%elem_of_union; [right; split; [done |]; fold e'; change (bi_nChainTx e' <> 0); rewrite Hc'; lia | by left].
    + intros ab. unfold link_one. cbn [fst]. match goal with |- context [if ?c then _ else _] => destruct c end; cbn; rewrite list_elem_of_filter; by intros [_ ?].
    + unfold link_one. cbn [fst]. by match goal with |- context [if ?c then _ else _] => destruct c end.
  - rewrite Ei. apply Forall_forall. intros q Hq. assert (Hch : (p, q) ∈ mapBlocksUnlinked t).
    { unfold link_one in Hq. cbn [snd] in Hq. revert Hq. match goal with |- context [if ?c then _ else _] => destruct c end; cbn;
        intros ([a b] & -> & [Ha Hab]%list_elem_of_filter)%list_elem_of_fmap; cbn in *; by subst. }
    destruct (io_waiting _ Hok p q Hch) as (f & Hf & E1 & E2 & E3). apply (Hqueue q f); [done | done | done |]. intros _. by right.
  - intros q (f & Hf & E1 & E2 & E3). rewrite Ei. apply (Hqueue q f); [done | done | done |]. intros Hne. left. by apply E3.
Qed.

Lemma link_loop_ok fuel t queue : index_ok t -> Forall (queued (mapBlockIndex t)) queue -> links_fit fuel t queue -> index_ok (link_loop addr fuel t queue).
Proof using Type.
  revert t queue. induction fuel as [| fuel IH]; intros t queue Hok Hq Hfit; [done |]. destruct queue as [| p queue]; [done |].
  cbn [link_loop links_fit] in *. inversion Hq as [| x l Hp Hq']; subst. destruct (mapBlockIndex t !! p) as [e |] eqn:He; [| done].
  destruct Hfit as [Hfit Hrest]. destruct (link_one_ok t p e Hok He Hp Hfit) as (Hok1 & Hch & Hold). destruct (link_one addr t p e) as [t1 children]. cbn [fst snd] in *.
  apply IH; [done | | done]. apply Forall_app. split; [| done]. eapply Forall_impl; [exact Hq' | exact Hold].
Qed.
End Receiving.

(** ** Statuses *)

Lemma data_bit e s : Z.testbit s 3 = Z.testbit (bi_nStatus e) 3 -> has_data (with_status e s) = has_data e.
Proof. intros H. apply has_flag_ext. intros n Hn Hb. apply have_data_bits in Hb; [| done]. by subst. Qed.

Lemma clear_failed_shape e : shape (clear_failed e) = shape e.
Proof.
  unfold shape, clear_failed. rewrite data_bit; [done |]. rewrite Z.ldiff_spec. change (Z.testbit BLOCK_FAILED_MASK 3) with false. apply andb_true_r.
Qed.

Lemma raise_data e : has_data (snd (RaiseValidity e BLOCK_VALID_TRANSACTIONS)) = has_data e.
Proof.
  unfold RaiseValidity. case_match; [done |]. case_match; [| done]. cbn [snd]. apply data_bit. rewrite Z.lor_spec, Z.ldiff_spec.
  change (Z.testbit BLOCK_VALID_MASK 3) with false. change (Z.testbit BLOCK_VALID_TRANSACTIONS 3) with false. by rewrite orb_false_r, andb_true_r.
Qed.

Lemma with_data_has e n pos : has_data (with_data e n pos) = true.
Proof.
  unfold has_data, has_flag. apply negb_true_iff, Z.eqb_neq. intros E. assert (Ht : Z.testbit (Z.land (bi_nStatus (with_data e n pos)) BLOCK_HAVE_DATA) 3 = false) by (by rewrite E).
  cbn [with_data bi_nStatus] in Ht. rewrite Z.land_spec, Z.lor_spec in Ht. change (Z.testbit BLOCK_HAVE_DATA 3) with true in Ht. by rewrite orb_true_r in Ht.
Qed.

Section Operations.
Context (consensus : ConsensusParams) (HashQuark : bytes -> bytes) (literal : Z) (addr : ptr -> Z).
Context (connect : tree -> ptr -> vres (option Z)) (disconnect : tree -> ptr -> bool).

(** The entry as [ReceivedBlockTransactions] first writes it. *)
Definition received (block : CBlock) (pos : CDiskBlockPos) (e : CBlockIndex) : CBlockIndex :=
  snd (RaiseValidity (with_data (if IsProofOfStake block then SetProofOfStake e else e) (u32 (zlen (vtx block))) pos) BLOCK_VALID_TRANSACTIONS).
Definition receive_start (block : CBlock) (t : tree) (p : ptr) (pos : CDiskBlockPos) (e : CBlockIndex) : tree :=
  with_dirty (with_index t (<[p := received block pos e]> (mapBlockIndex t))) p.

(** What [AcceptBlock] guarantees of the call: the data was not there yet, and the block
    has transactions; and the counts fit. *)
Definition receivable (t : tree) (block : CBlock) (p : ptr) (pos : CDiskBlockPos) : Prop :=
  0 < zlen (vtx block) < 2 ^ 32 /\ exists e, mapBlockIndex t !! p = Some e /\ has_data e = false /\
    links_fit addr (S (length (mapBlocksUnlinked t))) (receive_start block t p pos e) [p].

Lemma waiting_ok t a b : index_ok t -> waiting (mapBlockIndex t) a b -> index_ok (with_unlinked t (mapBlocksUnlinked t ++ [(a, b)])).
Proof using Type.
  intros [H1 H2 H3 H4 H5 H6 H7] Hab. split; try done. cbn. intros a' b' [? | E%list_elem_of_singleton]%elem_of_app; [by apply H6 |]. by injection E as -> ->.
Qed.

Lemma Received_ok t block p pos : index_ok t -> receivable t block p pos -> index_ok (ReceivedBlockTransactions addr block t p pos).
Proof using Type.
  intros Hok (Hvtx & e & He & Hdata & Hfit). unfold ReceivedBlockTransactions. rewrite He. fold (received block pos e).
  set (e0 := if IsProofOfStake block then SetProofOfStake e else e). assert (H0 : links e0 = links e) by (unfold e0; by case_match).
  assert (HR : links (received block pos e) = links (with_data e0 (u32 (zlen (vtx block))) pos) /\ bi_nChainTx (received block pos e) = 0 /\
    bi_nTx (received block pos e) = u32 (zlen (vtx block))) by apply (RaiseValidity_keeps (with_data e0 (u32 (zlen (vtx block))) pos) BLOCK_VALID_TRANSACTIONS).
  destruct HR as (L & R1 & R2).
  fold (receive_start block t p pos e). assert (Hd : has_data (received block pos e) = true) by (unfold received; rewrite raise_data; apply with_data_has).
  assert (Hn : bi_nTx (received block pos e) = zlen (vtx block)) by (rewrite R2; apply Z.mod_small; lia).
  assert (Hz : bi_nChainTx e = 0).
  { destruct (decide (bi_nChainTx e = 0)) as [| Hne]; [done |]. destruct (io_counted _ Hok p e He Hne) as (Hx & _). congruence. }
  assert (HL : links (received block pos e) = links e) by (rewrite L; unfold links in *; cbn; congruence).
  assert (Hok1 : index_ok (receive_start block t p pos e)).
  { apply (entry_ok t _ p e (received block pos e)); [done | done | done | done | | | | by left | done | done]; intros Hne; congruence. }
  assert (He1 : mapBlockIndex (receive_start block t p pos e) !! p = Some (received block pos e)) by apply lookup_insert_eq.
  assert (Hrun : (bi_pprev (received block pos e) <> None -> chain_tx_below (mapBlockIndex (receive_start block t p pos e)) (received block pos e) <> 0) ->
    index_ok (link_loop addr (S (length (mapBlocksUnlinked (receive_start block t p pos e)))) (receive_start block t p pos e) [p])).
  { intros Hb. apply link_loop_ok; [done | | done]. constructor; [| constructor]. exists (received block pos e). split_and!; [done | done | lia | done]. }
  destruct (bi_pprev (received block pos e)) as [q |] eqn:Eq; [| apply Hrun; done].
  destruct (Z.eqb_spec (chain_tx_below (mapBlockIndex (receive_start block t p pos e)) (received block pos e)) 0) as [Hzero | Hnz]; cbn [negb]; [| by apply Hrun].
  match goal with |- index_ok (if ?c then _ else _) => destruct c end; [| done]. apply waiting_ok; [done |]. exists (received block pos e). split_and!; [done | done | done | lia].
Qed.

Lemma unwind_keeps fuel t p : linked (mapBlockIndex t) -> keeps t (unwind disconnect fuel t p).2.
Proof using Type.
  revert t. induction fuel as [| fuel IH]; intros t Hix; cbn [unwind]; [done |]. case_match; [done |]. destruct (tip_of t) as [walk |]; [| done].
  set (t1 := erase_candidate _ _). assert (K1 : keeps t t1) by apply keeps_child. pose proof (keeps_linked _ _ K1 Hix) as Hix1.
  pose proof (DisconnectTip_keeps disconnect t1 Hix1) as K2. destruct (DisconnectTip disconnect t1) as [[[] | e] t2]; cbn [snd] in *; [| by etrans].
  etrans; [exact K1 |]. etrans; [exact K2 |]. apply IH. by apply (keeps_linked t1).
Qed.

Lemma ready_linked (ix : BlockMap) p : p ∈ dom (filter (fun pe : ptr * CBlockIndex => ready pe.2 = true) ix) -> linked_tx ix p.
Proof using Type.
  intros Hp. apply elem_of_dom in Hp as [e [He Hr]%map_lookup_filter_Some]. exists e. split; [done |]. unfold ready in Hr. cbn in Hr. bprop. lia.
Qed.

Lemma InvalidateBlock_ok t p : index_ok t -> index_ok (InvalidateBlock addr disconnect t p).2.
Proof using Type.
  intros Hok. unfold InvalidateBlock. set (t1 := erase_candidate _ _). assert (K1 : keeps t t1) by apply keeps_fail.
  pose proof (keeps_ok _ _ Hok K1) as Hok1. pose proof (unwind_keeps (length (chainActive t1)) t1 p (io_linked _ Hok1)) as K2.
  destruct (unwind _ _ _ _) as [[[] | e] t2]; cbn [snd] in *; [| by apply (keeps_ok t1)]. pose proof (keeps_ok _ _ Hok1 K2) as Hok2.
  destruct (tip_of t2) as [tip |]; [| done]. cbn [snd].
  match goal with |- context [with_candidates t2 ?s] => set (t3 := with_candidates t2 s) end. apply (keeps_ok t3); [| apply keeps_note].
  apply (index_keep t2); [done | done | | by left | apply Hok2]. unfold t3. cbn. intros q [Hq | ?]%elem_of_union; [right | by left].
  apply ready_linked. apply elem_of_dom in Hq as [f [Hf _]%map_lookup_filter_Some]. apply elem_of_dom. by exists f.
Qed.

Lemma clear_ancestors_keeps fuel t p : keeps t (clear_ancestors fuel t p).
Proof using Type.
  revert t p. induction fuel as [| fuel IH]; intros t p; cbn [clear_ancestors]; [done |]. destruct p as [p |]; [| done].
  destruct (mapBlockIndex t !! p) as [e |]; [| done]. destruct (is_failed e); [| apply IH]. etrans; [apply (keeps_mark t p clear_failed), clear_failed_shape | apply IH].
Qed.

Lemma ReconsiderBlock_ok t p : index_ok t -> index_ok (ReconsiderBlock addr t p).2.
Proof using Type.
  intros Hok. unfold ReconsiderBlock. destruct (height_at _ p) as [h |]; [| done]. set (ix := mapBlockIndex t). set (affected := filter _ ix).
  set (ix' := map_imap _ ix). set (readies := filter _ affected). set (t1 := {| mapBlockIndex := ix' |}).
  assert (Hs : same_shape ix ix').
  { apply map_eq. intros q. rewrite !lookup_fmap. unfold ix'. rewrite map_lookup_imap. destruct (ix !! q) as [e |]; [| done]. cbn. case_match; [by rewrite clear_failed_shape | done]. }
  assert (Hch : chain_ok ix' (chainActive t)) by (apply (shape_chain_ok _ _ Hs), Hok). assert (Hok1 : index_ok t1) by (by apply (index_keep t); [| | left | left |]).
  destruct (tip_of t) as [tip |]; [| case_match; [apply (keeps_ok t1); [done | apply clear_ancestors_keeps] | done]]. cbn [snd].
  match goal with |- context [with_candidates t1 ?s] => set (t2 := with_candidates t1 s) end. apply (keeps_ok t2); [| apply clear_ancestors_keeps].
  apply (index_keep t); [done | done | | by left | done]. unfold t2. cbn. intros q [Hq | ?]%elem_of_union; [right | by left].
  apply elem_of_dom in Hq as [f [Hf _]%map_lookup_filter_Some]. apply map_lookup_filter_Some in Hf as [Hf Hr]. apply map_lookup_filter_Some in Hf as [Hf _].
  exists f. split; [done |]. unfold ready in Hr. cbn in Hr. bprop. lia.
Qed.

(** ** Reachable trees *)

(** One operation on the index, each under the lock that protects it; a round of
    [ActivateBestChain] is a search and a step. *)
Inductive index_step (t : tree) : tree -> Prop :=
| step_add block p t' : addable HashQuark t block -> AddToBlockIndex consensus HashQuark literal t block = Ok (p, t') -> index_step t t'
| step_receive block p pos : receivable t block p pos -> index_step t (ReceivedBlockTransactions addr block t p pos)
| step_find r t' : FindMostWorkChain addr t = Ok (r, t') -> index_step t t'
| step_activate most : index_step t (ActivateBestChainStep addr connect disconnect t most).2
| step_invalidate p : index_step t (InvalidateBlock addr disconnect t p).2
| step_reconsider p : index_step t (ReconsiderBlock addr t p).2.

Definition empty_tree : tree :=
  {| mapBlockIndex := ∅; pindexBestInvalid := None; setBlockIndexCandidates := ∅; mapBlocksUnlinked := []; setDirtyBlockIndex := ∅;
     chainActive := []; nBlockSequenceId := 1; pindexBestHeader := None |}.

Inductive reachable : tree -> Prop :=
| reach_start : reachable empty_tree
| reach_step t t' : reachable t -> index_step t t' -> reachable t'.

Lemma index_step_ok t t' : index_ok t -> index_step t t' -> index_ok t'.
Proof using Type.
  intros Hok Hstep. destruct Hstep as [block p t' Hadd E | block p pos Hrec | r t' E | most | p | p].
  - by apply (AddToBlockIndex_ok consensus HashQuark literal t block p).
  - by apply Received_ok.
  - by apply (find_loop_ok addr (size (setBlockIndexCandidates t)) t r).
  - apply (keeps_ok t); [done |]. apply Step_keeps, Hok.
  - by apply InvalidateBlock_ok.
  - by apply ReconsiderBlock_ok.
Qed.

Lemma empty_ok : index_ok empty_tree.
Proof using Type.
  split; cbn.
  - apply map_Forall_empty.
  - intros p q H. unfold prev_at in H. by rewrite lookup_empty in H.
  - intros p. unfold work_at. rewrite lookup_empty. lia.
  - intros p e H. by rewrite lookup_empty in H.
  - intros p Hp. by apply elem_of_empty in Hp.
  - intros a b Hab. by apply elem_of_nil in Hab.
  - by left.
Qed.

Lemma reachable_ok t : reachable t -> index_ok t.
Proof using Type. induction 1 as [| t t' _ IH Hs]; [apply empty_ok | by apply (index_step_ok t)]. Qed.
End Operations.
