(* ===== verification/TipSelection.v ===== *)
(** The theorems on the choice of the active chain, for every tree of blocks that the
    operations of the index can reach. *)

From Stdlib Require Import ZArith Lia.
From stdpp Require Import base tactics list numbers gmap strings.
From S2P Require Import Prelude ArithUint256 Hash ChainParams Transaction Block Chain Pow StakeModifier TxVerify BlockTree ChainSelection Activation BlockIndexing IndexInvariant.

Section Theorems.
Context (consensus : ConsensusParams) (HashQuark : bytes -> bytes) (literal : Z) (addr : ptr -> Z).
Context (connect : tree -> ptr -> vres (option Z)) (disconnect : tree -> ptr -> bool).
Notation reachable := (reachable consensus HashQuark literal addr connect disconnect).

(** C6: in every tree that the operations on the block index reach from the empty one
    (new headers, arriving transactions, searches, steps of the activation that end in
    any way, manual invalidation and rehabilitation), the index is a tree with correct
    heights and skip pointers in which work grows from parent to child; a block's count
    of transactions is not zero only if it and all its parents have their data, and then
    it is their number; every candidate for the tip is such a block; and the active
    chain is the branch of its tip. *)
Theorem block_index_invariant t : reachable t ->
  linked (mapBlockIndex t) /\ grows (mapBlockIndex t) /\ chain_ok (mapBlockIndex t) (chainActive t) /\
  (forall p e, mapBlockIndex t !! p = Some e -> bi_nChainTx e <> 0 -> bi_nChainTx e = chain_tx_below (mapBlockIndex t) e + bi_nTx e /\
    forall k q f, ancestor (mapBlockIndex t) p k = Some q -> mapBlockIndex t !! q = Some f -> bi_nChainTx f <> 0 /\ has_data f = true /\ 0 < bi_nTx f) /\
  (forall p, p ∈ setBlockIndexCandidates t -> exists e, mapBlockIndex t !! p = Some e /\ bi_nChainTx e <> 0) /\
  (forall a b, (a, b) ∈ mapBlocksUnlinked t -> prev_at (mapBlockIndex t) b = Some a).
Proof using Type.
  intros Hr. apply reachable_ok in Hr as [H1 H2 H3 H4 H5 H6 H7]. split_and!; [done | done | done | | done |].
  - intros p e He Htx. split; [apply (H4 p e He Htx) |]. intros k q f Hq Hf. assert (Hh : height_at (mapBlockIndex t) p = Some (bi_nHeight e)) by (unfold height_at; by rewrite He).
    destruct (linked_tx_ancestor _ p _ k q H1 H4 Hh (ex_intro _ e (conj He Htx)) Hq) as (f' & Hf' & Hne). assert (f' = f) as -> by congruence.
    destruct (H4 q f Hf Hne) as (D1 & D2 & _). done.
  - intros a b Hab. destruct (H6 a b Hab) as (e & He & Hp & _). unfold prev_at. by rewrite He.
Qed.

Context (Haddr : forall p q, addr p = addr q -> p = q).

(** in a reachable tree the search for the most work ends without a failed
    assertion; it returns the candidate that the order puts last among those whose every
    block outside the active chain has its data and has not failed, and null exactly
    when no candidate is usable; the candidates it drops and the blocks it marks as
    children of a failed one are unusable, and no usable one is lost. *)
Theorem FindMostWorkChain_best t : reachable t -> exists r t', FindMostWorkChain addr t = Ok (r, t') /\ best_usable addr t r /\
  (forall p, usable t' p <-> usable t p) /\
  (forall p, p ∈ setBlockIndexCandidates t -> usable t p -> p ∈ setBlockIndexCandidates t') /\ chainActive t' = chainActive t.
Proof using Haddr.
  intros Hr. destruct (FindMostWorkChain_spec addr Haddr t (index_tree_ok t (reachable_ok _ _ _ _ _ _ _ Hr))) as (r & t' & E & Hs & Hb). exists r, t'.
  split_and!; [done | by apply (best_usable_back _ _ t') | apply Hs | apply Hs | apply Hs].
Qed.

(** A failing block is rejected as invalid, never as possibly corrupted. *)
Hypothesis connect_uncorrupted : forall t p l c m, connect t p <> Err (DoS_corrupt l c m).

(** C5: in a reachable tree, activating the best chain ends, whatever blocks turn out to
    be invalid on the way. When it succeeds, the tip of the active chain is the best
    candidate among those whose blocks have their data and have not failed (or no
    candidate is usable); when it does not, the error came from connecting a block or
    from reading one to disconnect it, and no assertion of the selection failed. *)
Theorem ActivateBestChain_ends t : reachable t ->
  exists n r t', ActivateBestChain addr connect disconnect n t = Some (r, t') /\
    match r with
    | Ok _ => best_usable addr t' (tip_of t') \/ best_usable addr t' None
    | Err e => (exists t p, connect t p = Err e) \/ (e = Failed "DisconnectTip" /\ exists t p, disconnect t p = false)
    end.
Proof using Haddr connect_uncorrupted.
  intros Hr. apply reachable_ok in Hr. pose proof (index_tree_ok t Hr) as Hok.
  destruct (ends_always addr Haddr connect disconnect connect_uncorrupted (S (size (unfailed t))) t Hok (io_grows _ Hr) ltac:(lia)) as (n & r & t' & E & Ho).
  exists n, r, t'. by destruct r.
Qed.
End Theorems.

(** ** A sample: a genesis block and two blocks that follow it on different branches *)

(** A hash that can be computed by hand: the merkle root, after the version and a
    parent of one byte. *)
Definition root_hash (s : bytes) : bytes := take 1 (drop 5 s).
Definition tree_block (n prev : Z) : CBlock :=
  {| header := {| h_nVersion := 3; hashPrevBlock := [prev]; hashMerkleRoot := [n]; nTime := 1000 + n; nBits := 0x207fffff;
                  nNonce := 0; nAccumulatorCheckpoint := uint256_zero |};
     vtx := [sample_tx]; vchBlockSig := [] |}.
Definition sample_addr (p : ptr) : Z := Z.pos (encode p).
Definition sample_pos : CDiskBlockPos := {| dp_nFile := 0; dp_nPos := 8 |}.
Definition add_block (t : tree) (n prev : Z) : tree :=
  match AddToBlockIndex mainConsensus root_hash 0 t (tree_block n prev) with
  | Ok (p, t) => ReceivedBlockTransactions sample_addr (tree_block n prev) t p sample_pos
  | Err _ => t
  end.
Definition sample_tree : tree := add_block (add_block (add_block empty_tree 1 0) 2 1) 3 1.

Lemma sample_addr_inj p q : sample_addr p = sample_addr q -> p = q.
Proof. intros E. injection E. apply (inj encode). Qed.

Section Sample.
Context (connect : tree -> ptr -> vres (option Z)) (disconnect : tree -> ptr -> bool).
Notation reachable := (reachable mainConsensus root_hash 0 sample_addr connect disconnect).

Lemma add_block_reachable t n prev p t1 : reachable t -> AddToBlockIndex mainConsensus root_hash 0 t (tree_block n prev) = Ok (p, t1) ->
  addable root_hash t (tree_block n prev) -> receivable sample_addr t1 (tree_block n prev) p sample_pos -> reachable (add_block t n prev).
Proof using Type.
  intros Ht E Ha Hr. unfold add_block. rewrite E. apply (reach_step _ _ _ _ _ _ t1); [| by apply step_receive].
  apply (reach_step _ _ _ _ _ _ t); [done |]. by apply (step_add _ _ _ _ _ _ t (tree_block n prev) p).
Qed.

Lemma sample_addable t n prev : hashPrevBlock (header (tree_block n prev)) <> CBlockHeader_GetHash root_hash (header (tree_block n prev)) ->
  work_at (mapBlockIndex t) [prev] < 2 ^ 32 -> addable root_hash t (tree_block n prev).
Proof using Type.
  intros Hne Hw. split; [cbn; lia |]. split; [done |]. exists (0x7fffff * 2 ^ 232). split.
  - eexists. split; [vm_compute; reflexivity |]. split; [vm_compute; reflexivity | done].
  - change (2 ^ 256 / (0x7fffff * 2 ^ 232 + 1)) with 2. cbn [header tree_block hashPrevBlock]. lia.
Qed.

Ltac sample_block :=
  eapply add_block_reachable; [| vm_compute; reflexivity | apply sample_addable; [by vm_compute | vm_compute; reflexivity] |
    split; [vm_compute; split; reflexivity |]; eexists; split; [vm_compute; reflexivity |]; split; [vm_compute; reflexivity |]; vm_compute; repeat split].

Lemma sample_reachable : reachable sample_tree.
Proof using Type. unfold sample_tree. do 3 sample_block. apply reach_start. Qed.
End Sample.

Lemma block_index_invariant_witness : exists e, mapBlockIndex sample_tree !! [2] = Some e /\ bi_nChainTx e = 2 /\
  forall k q f, ancestor (mapBlockIndex sample_tree) [2] k = Some q -> mapBlockIndex sample_tree !! q = Some f -> bi_nChainTx f <> 0 /\ has_data f = true /\ 0 < bi_nTx f.
Proof.
  destruct (block_index_invariant mainConsensus root_hash 0 sample_addr (fun _ _ => Ok (Some 0)) (fun _ _ => true) sample_tree (sample_reachable _ _))
    as (_ & _ & _ & H & _).
  destruct (mapBlockIndex sample_tree !! [2]) as [e |] eqn:E; [| by vm_compute in E]. exists e. split; [done |].
  assert (Hn : bi_nChainTx e = 2) by (vm_compute in E; by injection E as <-). split; [done |]. apply (H [2] e E). lia.
Defined.

Lemma FindMostWorkChain_best_witness : exists t', FindMostWorkChain sample_addr sample_tree = Ok (Some [2], t') /\ usable t' [2].
Proof.
  destruct (FindMostWorkChain_best mainConsensus root_hash 0 sample_addr (fun _ _ => Ok (Some 0)) (fun _ _ => true) sample_addr_inj sample_tree (sample_reachable _ _))
    as (r & t' & E & Hb & Hu & _). exists t'. assert (r = Some [2]) as -> by (vm_compute in E; by injection E as <- _). split; [done |]. apply Hu, Hb.
Defined.

Definition can_read (_ : tree) (_ : ptr) : bool := true.

(** The block [2] is rejected when it is connected: the block [3] becomes the tip. *)
Definition reject_two (_ : tree) (p : ptr) : vres (option Z) := if decide (p = [2]) then Err (DoS 100 16 "bad-blk") else Ok (Some 0).

Lemma ActivateBestChain_ends_witness : exists n r t', ActivateBestChain sample_addr reject_two can_read n sample_tree = Some (r, t') /\
  match r with
  | Ok _ => best_usable sample_addr t' (tip_of t') \/ best_usable sample_addr t' None
  | Err e => (exists t p, reject_two t p = Err e) \/ (e = Failed "DisconnectTip" /\ exists t p, can_read t p = false)
  end.
Proof.
  apply (ActivateBestChain_ends mainConsensus root_hash 0 sample_addr reject_two can_read sample_addr_inj).
  - intros t p l c m. unfold reject_two. by case_match.
  - apply sample_reachable.
Defined.

Example activate_around_invalid :
  (snd <$> ActivateBestChain sample_addr reject_two can_read 5 sample_tree) ≫= tip_of = Some [3].
Proof. vm_compute. reflexivity. Qed.
