(* ===== verification/BlockCheck.v ===== *)
(** The checks on a block ([main.cpp], [checkpoints.cpp], [chain.cpp]): those that need only
    the block ([CheckBlockHeader], [CheckBlock]), and those against its parent in the index
    ([CheckWork], [CheckBlockTime], [ContextualCheckBlockHeader], [ContextualCheckBlock]).

    Sporks, clocks, settings, checkpoints, the transaction lookup, the masternode payments
    and the zerocoin library are inputs, the fields of [block_env]. *)

From Stdlib Require Import ZArith Lia String.
From stdpp Require Import base tactics list numbers option gmap strings.
From S2P Require Import Prelude ArithUint256 ChainParams Script Standard Transaction Block BetPayout TxVerify Merkle Chain Pow StakeModifier BlockTree.

Class block_env := {
  b_consensus : ConsensusParams;
  b_regtest : bool;
  b_HashQuark : bytes -> bytes;
  b_adjusted_time : Z;                                 (* GetAdjustedTime() *)
  b_time : Z;                                          (* GetTime() *)
  b_initial_download : bool;                           (* IsInitialBlockDownload() *)
  b_swifttx_filtering : bool;                          (* SPORK_3_SWIFTTX_BLOCK_FILTERING *)
  b_superblocks : bool;                                (* SPORK_13_ENABLE_SUPERBLOCKS *)
  b_coldstaking : bool;                                (* SPORK_17_COLDSTAKING_ENFORCEMENT *)
  b_locked_input : COutPoint -> option bytes;          (* mapLockedInputs *)
  b_synced : bool;                                     (* masternodeSync.IsSynced() *)
  b_budget_block : Z -> bool;                          (* budget.IsBudgetPaymentBlock *)
  b_payee_valid : CBlock -> Z -> bool;                 (* IsBlockPayeeValid *)
  b_get_tx : bytes -> option (CTransaction * bytes);   (* GetTransaction *)
  b_zerocoin_spend : CTransaction -> bool;             (* CheckZerocoinSpend *)
  b_parse_spend : CTransaction -> CTxIn -> vres Z;     (* the serial number of a zerocoin input *)
  b_spend_version : CTransaction -> CTxIn -> bool;     (* CheckPublicCoinSpendVersion *)
  b_max_reorg : Z;                                     (* -maxreorg *)
  b_checkpoints : list (Z * ptr);                      (* mapCheckpoints, by height *)
  b_checkpoints_enabled : bool;                        (* Checkpoints::fEnabled *)
  b_bits_close : Z -> Z -> bool                        (* two targets within a half, as doubles *)
}.

(** ** Checkpoints *)

Section Checkpoints.
Context `{block_env}.

Definition Checkpoints_CheckBlock (nHeight : Z) (hash : ptr) (fMatchesCheckpoint : bool) : bool :=
  if negb b_checkpoints_enabled then true
  else
    match List.find (fun hc => fst hc =? nHeight) b_checkpoints with
    | None => negb fMatchesCheckpoint
    | Some hc => bool_decide (hash = snd hc)
    end.

Definition GetLastCheckpoint (ix : BlockMap) : option CBlockIndex :=
  if negb b_checkpoints_enabled then None
  else List.find (fun hc => bool_decide (is_Some (ix !! snd hc))) (reverse b_checkpoints) ≫= (fun hc => ix !! snd hc).
End Checkpoints.

(** ** The block alone *)

Section Alone.
Context `{block_env}.

Definition block_hash (block : CBlock) : ptr := CBlockHeader_GetHash b_HashQuark (header block).
Definition is_genesis (hash : ptr) : bool := le_val hash =? hashGenesisBlock b_consensus.

Definition CheckBlockHeader (h : CBlockHeader) (fCheckPOW : bool) : vres unit :=
  if fCheckPOW && negb (CheckProofOfWork b_consensus b_regtest (uint_of_hash (CBlockHeader_GetHash b_HashQuark h)) (nBits h))
  then Err (DoS 50 REJECT_INVALID "high-hash")
  else if b_regtest then Ok tt
  else if ZC_TimeStart b_consensus <? nTime h then
    if h_nVersion h <? 4 then Err (DoS 50 REJECT_INVALID "block-version") else Ok tt
  else if h_nVersion h <=? 0 then Err (DoS 50 REJECT_INVALID "block-version")
  else Ok tt.

(** The value of the outputs but the first and the last. *)
Definition middle_value (tx : CTransaction) : Z :=
  fold_left (fun n o => s64 (n + nValue o)) (drop 1 (take (length (vout tx) - 1) (vout tx))) 0.

(** [None]: an access outside a vector, or the exception that the message for disabled
    superblocks throws (its format string lacks an argument). *)
Definition CheckColdStakeFreeOutput (tx : CTransaction) (nHeight : Z) : option bool :=
  if negb (HasP2CSOutputs tx) then Some true
  else
    let outs := length (vout tx) in
    lastOut ← vout tx !! (outs - 1)%nat;
    if (3 <=? Z.of_nat outs) && negb (bool_decide (Some (scriptPubKey lastOut) = scriptPubKey <$> vout tx !! (outs - 2)%nat)) then
      if b_regtest then Some false
      else if negb b_synced then
        i ← vin tx !! 0%nat;
        match b_get_tx (op_hash (prevout i)) with
        | None => Some false
        | Some (txPrev, _) =>
            o ← vout txPrev !! Z.to_nat (op_n (prevout i));
            Some (middle_value tx =? s64 (nValue o + GetBlockValue (nHeight - 1)))
        end
      else if b_budget_block nHeight then if b_superblocks then Some true else None
      else Some false
    else Some true.

(** The header, the Merkle root, the size, and the kind of every transaction. *)
Definition check_form (block : CBlock) (fCheckMerkleRoot : bool) : vres unit :=
  let IsPoS := IsProofOfStake block in
  match CheckBlockHeader (header block) (negb IsPoS) with
  | Err e => Err (escalate e 100 REJECT_INVALID "bad-header" true)
  | Ok _ =>
      let '(root, mutated) := BlockMerkleRoot block in
      if fCheckMerkleRoot && negb (bool_decide (hashMerkleRoot (header block) = root)) then Err (DoS_corrupt 100 REJECT_INVALID "bad-txnmrklroot")
      else if fCheckMerkleRoot && mutated then Err (DoS_corrupt 100 REJECT_INVALID "bad-txns-duplicate")
      else if (zlen (vtx block) =? 0) || (MAX_BLOCK_SIZE_CURRENT <? zlen (vtx block)) || (MAX_BLOCK_SIZE_CURRENT <? zlen (Serialize_CBlock block))
      then Err (DoS 100 REJECT_INVALID "bad-blk-length")
      else
        match vtx block with
        | [] => Err (DoS 100 REJECT_INVALID "bad-cb-missing")
        | cb :: rest =>
            if negb (IsCoinBase cb) then Err (DoS 100 REJECT_INVALID "bad-cb-missing")
            else if existsb IsCoinBase rest then Err (DoS 100 REJECT_INVALID "bad-cb-multiple")
            else if IsPoS then
              if negb (zlen (vout cb) =? 1) || negb (forallb CTxOut_IsEmpty (take 1 (vout cb))) then Err (DoS 100 0 "")
              else
                match rest with
                | [] => Err (Throws "vtx[1]")
                | stake :: rest =>
                    if negb (IsCoinStake stake) then Err (DoS 100 0 "")
                    else if existsb IsCoinStake rest then Err (DoS 100 0 "")
                    else Ok tt
                end
            else Ok tt
        end
  end.

(** A transaction that spends an output which another one has locked. *)
Definition breaks_lock (tx : CTransaction) : bool :=
  negb (IsCoinBase tx) &&
  existsb (fun i => match b_locked_input (prevout i) with Some h => negb (bool_decide (h = CTransaction_GetHash tx)) | None => false end) (vin tx).

(** [nHeight] of the block, zero when its parent is unknown. *)
Definition height_above (t : tree) (tip : ptr) (prevHash : ptr) : Z :=
  if bool_decide (tip = prevHash)
  then match mapBlockIndex t !! tip with Some e => bi_nHeight e + 1 | None => 0 end
  else match mapBlockIndex t !! prevHash with Some e => bi_nHeight e + 1 | None => 0 end.

(** Cold staking and masternode payments: whether cold staking is active. *)
Definition check_payments (t : tree) (block : CBlock) : vres bool :=
  match tip_of t with
  | None => Ok true
  | Some tip =>
      let nHeight := height_above t tip (hashPrevBlock (header block)) in
      if negb (nHeight =? 0) && negb b_initial_download then
        match (if IsProofOfStake block then vtx block !! 1%nat ≫= (fun tx => CheckColdStakeFreeOutput tx nHeight) else Some true) with
        | None => Err (Throws "vout")
        | Some false => Err (DoS 0 REJECT_INVALID "bad-p2cs-outs")
        | Some true => if negb (b_payee_valid block nHeight) then Err (DoS 0 REJECT_INVALID "bad-cb-payee") else Ok b_coldstaking
        end
      else Ok true
  end.

(** One input of the search for serial numbers spent twice. *)
Definition check_serial (tx : CTransaction) (vBlockSerials : list Z) (txIn : CTxIn) : vres (list Z) :=
  if CTxIn_IsZerocoinSpend txIn || CTxIn_IsZerocoinPublicSpend txIn then
    let* serial := b_parse_spend tx txIn in
    if CTxIn_IsZerocoinPublicSpend txIn && negb b_initial_download && negb (b_spend_version tx txIn)
    then Err (DoS 0 REJECT_INVALID "bad-zcspend-version")
    else if bool_decide (serial ∈ vBlockSerials) then Err (DoS 100 0 "")
    else Ok (vBlockSerials ++ [serial])
  else Ok vBlockSerials.

Definition check_block_tx (fZerocoinActive fColdStakingActive : bool) (vBlockSerials : list Z) (tx : CTransaction) : vres (list Z) :=
  let* _ := CheckTransaction b_consensus b_zerocoin_spend tx fZerocoinActive fColdStakingActive in
  if HasZerocoinSpendInputs tx then res_fold (check_serial tx) vBlockSerials (vin tx) else Ok vBlockSerials.

Definition block_sigops (block : CBlock) : Z := fold_left (fun n tx => u32 (n + GetLegacySigOpCount tx)) (vtx block) 0.

(** [mapRejectedBlocks.insert], which keeps an entry that is there. *)
Definition reject_block (rejected : gmap ptr Z) (block : CBlock) : gmap ptr Z :=
  match rejected !! block_hash block with Some _ => rejected | None => <[block_hash block := b_time]> rejected end.

(** The verdict, [mapRejectedBlocks], and [block.fChecked]. *)
Definition CheckBlock (t : tree) (rejected : gmap ptr Z) (block : CBlock) (fChecked fCheckPOW fCheckMerkleRoot fCheckSig : bool) :
    vres unit * gmap ptr Z * bool :=
  if fChecked then (Ok tt, rejected, true)
  else
    match check_form block fCheckMerkleRoot with
    | Err e => (Err e, rejected, false)
    | Ok _ =>
        if b_swifttx_filtering && existsb breaks_lock (vtx block)
        then (Err (DoS 0 REJECT_INVALID "conflicting-tx-ix"), reject_block rejected block, false)
        else
          let fZerocoinActive := ZC_TimeStart b_consensus <? nTime (header block) in
          match check_payments t block with
          | Err e => (Err e, match e with DoS _ _ _ => reject_block rejected block | _ => rejected end, false)
          | Ok fColdStakingActive =>
              match res_fold (check_block_tx fZerocoinActive fColdStakingActive) [] (vtx block) with
              | Err e => (Err e, rejected, false)
              | Ok _ =>
                  let nMaxBlockSigOps := if fZerocoinActive then MAX_BLOCK_SIGOPS_CURRENT else MAX_BLOCK_SIGOPS_LEGACY in
                  if nMaxBlockSigOps <? block_sigops block then (Err (DoS_corrupt 100 REJECT_INVALID "bad-blk-sigops"), rejected, false)
                  else (Ok tt, rejected, fCheckPOW && fCheckMerkleRoot && fCheckSig)
              end
          end
    end.
End Alone.

(** ** The block under its parent *)

Section Contextual.
Context `{block_env}.

Definition MaxFutureBlockTime (prev : CBlockIndex) : Z := b_adjusted_time + FutureBlockTimeDrift b_consensus (bi_nHeight prev + 1).

Definition MinPastBlockTime (ix : BlockMap) (p : ptr) (prev : CBlockIndex) : Z :=
  if negb (IsTimeProtocolV2 b_consensus (bi_nHeight prev + 1)) then GetMedianTimePast ix p
  else if bi_nHeight prev + 1 =? height_start_TimeProtoV2 b_consensus
  then bi_nTime prev - FutureBlockTimeDrift b_consensus (bi_nHeight prev) + FutureBlockTimeDrift b_consensus (bi_nHeight prev + 1)
  else bi_nTime prev.

Definition CheckWork (ix : BlockMap) (block : CBlock) (pindexPrev : option ptr) : vres unit :=
  match pindexPrev ≫= (ix !!.) with
  | None => Err (Failed "null pindexPrev")
  | Some prev =>
      match GetNextWorkRequired b_consensus b_regtest ix pindexPrev with
      | None => Err (Throws "GetNextWorkRequired")
      | Some nBitsRequired =>
          if negb b_regtest && IsProofOfWork block && (bi_nHeight prev + 1 <=? 68589)
          then check (b_bits_close (nBits (header block)) nBitsRequired) (Failed "incorrect proof of work (DGW pre-fork)")
          else if negb (nBits (header block) =? nBitsRequired) then
            if (nTime (header block) =? u32 (nPwrbBadBlockTime b_consensus)) && (nBits (header block) =? u32 (nPwrbBadBlockBits b_consensus))
            then Ok tt
            else Err (Failed "incorrect proof of work")
          else Ok tt
      end
  end.

Definition CheckBlockTime (ix : BlockMap) (h : CBlockHeader) (p : ptr) (prev : CBlockIndex) : vres unit :=
  if b_regtest then Ok tt
  else if MaxFutureBlockTime prev <? nTime h then Err (Invalid REJECT_INVALID "time-too-new")
  else if nTime h <=? MinPastBlockTime ix p prev then Err (DoS 50 REJECT_INVALID "time-too-old")
  else if negb (IsValidBlockTimeStamp b_consensus (nTime h) (bi_nHeight prev + 1)) then Err (DoS 100 REJECT_INVALID "invalid-time-mask")
  else Ok tt.

(** A version that the height no longer allows. *)
Definition outdated_version (version nHeight : Z) : bool :=
  ((version <? 3) && (1 <=? nHeight)) ||
  ((version <? 4) && (height_start_ZC b_consensus <=? nHeight)) ||
  ((version <? 5) && (height_start_BIP65 b_consensus <=? nHeight)) ||
  ((version <? 6) && (height_start_StakeModifierV2 b_consensus <=? nHeight)) ||
  ((version <? 7) && (height_start_TimeProtoV2 b_consensus <=? nHeight)).

(** The reason of the last rejection also names the version and the height. *)
Definition ContextualCheckBlockHeader (t : tree) (h : CBlockHeader) (pindexPrev : option ptr) : vres unit :=
  let hash := CBlockHeader_GetHash b_HashQuark h in
  if is_genesis hash then Ok tt
  else
    match pindexPrev with
    | None => Err AssertFail
    | Some p =>
        match mapBlockIndex t !! p with
        | None => Err AssertFail
        | Some prev =>
            let nHeight := bi_nHeight prev + 1 in
            let chainHeight := Height (chainActive t) in
            if b_max_reorg <=? chainHeight - nHeight then Err (DoS 1 0 "")
            else
              let* _ := CheckBlockTime (mapBlockIndex t) h p prev in
              if negb (Checkpoints_CheckBlock nHeight hash false) then Err (DoS 100 REJECT_CHECKPOINT "checkpoint mismatch")
              else if match GetLastCheckpoint (mapBlockIndex t) with Some c => nHeight <? bi_nHeight c | None => false end
              then Err (DoS 0 0 "")
              else if outdated_version (h_nVersion h) nHeight then Err (Invalid REJECT_OBSOLETE "rejected block version")
              else Ok tt
        end
    end.

Definition ContextualCheckBlock (t : tree) (block : CBlock) (pindexPrev : option ptr) : vres unit :=
  let prev := pindexPrev ≫= (mapBlockIndex t !!.) in
  let nHeight := match prev with None => 0 | Some prev => bi_nHeight prev + 1 end in
  if negb (forallb (fun tx => IsFinalTx (Height (chainActive t)) b_adjusted_time tx nHeight (nTime (header block))) (vtx block))
  then Err (DoS 10 REJECT_INVALID "bad-txns-nonfinal")
  else
    match prev with
    | None => Ok tt
    | Some _ =>
        let expect := push_int64 [] nHeight in
        match vtx block !! 0%nat ≫= (fun tx => vin tx !! 0%nat) with
        | None => Err (Throws "vtx[0].vin[0]")
        | Some i => check (bool_decide (take (length expect) (scriptSig i) = expect)) (DoS 100 REJECT_INVALID "bad-cb-height")
        end
    end.
End Contextual.
