(* ===== verification/BlockRules.v ===== *)
(** What every operation on the block index leaves alone: the parent, the height and the
    header of an entry, and whether its data is there. The difficulty and the time limits
    of a block depend on nothing else, so what was checked once holds for good. *)

From Stdlib Require Import ZArith Lia String.
From stdpp Require Import base tactics list numbers option gmap strings sorting.
From S2P Require Import Prelude ArithUint256 ChainParams Transaction Block TxVerify Chain Pow StakeModifier BlockTree ChainSelection Activation BlockIndexing IndexInvariant BlockCheck.

(** ** Entries that agree *)

Definition fixed (e : CBlockIndex) := (bi_pprev e, bi_nHeight e, has_data e, heading e).
Definition same_fixed (ix ix' : BlockMap) : Prop := fixed <$> ix' = fixed <$> ix.

#[export] Instance same_fixed_equivalence : Equivalence same_fixed.
Proof. split; [intros ? | intros ??? | intros ? ? ? H1 H2]; unfold same_fixed in *; congruence. Qed.

Lemma shape_fixed ix ix' : same_shape ix ix' -> same_fixed ix ix'.
Proof.
  intros Hs. apply map_eq. intros p. rewrite !lookup_fmap. pose proof (same_shape_at _ _ p Hs) as H.
  destruct (ix !! p) as [e|], (ix' !! p) as [e'|]; cbn in *; try done. unfold shape, links in H. injection H. intros. unfold fixed, heading. congruence.
Qed.

Lemma same_fixed_at ix ix' p : same_fixed ix ix' -> fixed <$> (ix' !! p) = fixed <$> (ix !! p).
Proof. unfold same_fixed. intros H. rewrite <- !lookup_fmap. by rewrite H. Qed.

Lemma same_fixed_insert ix p e e' : ix !! p = Some e -> fixed e' = fixed e -> same_fixed ix (<[p := e']> ix).
Proof. intros He Hf. unfold same_fixed. rewrite fmap_insert, Hf. apply insert_id. by rewrite lookup_fmap, He. Qed.

Section Operations.
Context (addr : ptr -> Z) (connect : tree -> ptr -> vres (option Z)) (disconnect : tree -> ptr -> bool).

(** The operations below change neither the set of entries nor what is fixed of them. *)
Notation calmly t t' := (same_fixed (mapBlockIndex t) (mapBlockIndex t')).

Lemma calmly_mark t p f : (forall e, shape (f e) = shape e) -> same_fixed (mapBlockIndex t) (alter f p (mapBlockIndex t)).
Proof using Type. intros Hf. by apply shape_fixed, same_shape_alter. Qed.

Lemma calmly_note t p : calmly t (note_invalid t p).
Proof using Type. unfold note_invalid. by case_match. Qed.

Lemma calmly_drop fuel : forall t f p b, calmly t (drop_path fuel t f p b).
Proof using Type.
  induction fuel as [|fuel IH]; intros t f p b; cbn [drop_path]; [done|]. case_match; [done|]. destruct (prev_at _ f) as [q|]; [|done].
  etrans; [|apply IH]. destruct b; cbn; [|done]. apply calmly_mark, mark_child_shape.
Qed.

Lemma calmly_find fuel : forall t r t', find_loop addr fuel t = Ok (r, t') -> calmly t t'.
Proof using Type.
  assert (Hone : forall t p q f, calmly t (let t := if f : bool then note_invalid t p else t in drop_path (rounds_of t p) t p q f)).
  { intros t p q f. cbv zeta. etrans; [|apply calmly_drop]. destruct f; [apply calmly_note|done]. }
  induction fuel as [|fuel IH]; intros t r t'; cbn [find_loop]; destruct (best_candidate addr t) as [p|]; try (by intros [= _ <-]).
  - destruct (unusable_at _ _ _) as [[[q f]|]|]; [|by intros [= _ <-]|done]. intros [= _ <-]. apply Hone.
  - destruct (unusable_at _ _ _) as [[[q f]|]|]; [|by intros [= _ <-]|done]. intros E. apply IH in E. etrans; [apply (Hone t p q f)|exact E].
Qed.

Lemma calmly_connect t p : calmly t (ConnectTip connect t p).2.
Proof using Type.
  unfold ConnectTip. destruct (negb _); [done|]. destruct (connect t p) as [pos|e]; cbn [snd].
  - destruct pos as [pos|]; cbn; [|done]. apply calmly_mark. intros e. apply mark_connected_shape.
  - case_match; [|done]. unfold InvalidBlockFound. case_match; [|done]. etrans; [|apply calmly_note]. cbn. apply calmly_mark, add_failed_shape.
Qed.

Lemma calmly_disconnect t : calmly t (DisconnectTip disconnect t).2.
Proof using Type. unfold DisconnectTip. by repeat case_match. Qed.

Lemma calmly_disconnect_to fuel : forall t fork, calmly t (disconnect_to disconnect fuel t fork).2.
Proof using Type.
  induction fuel as [|fuel IH]; intros t fork; cbn [disconnect_to]; [done|]. destruct (tip_of t); [|done]. case_match; [done|].
  pose proof (calmly_disconnect t) as K. destruct (DisconnectTip disconnect t) as [[[]|e] t1]; [|done]. etrans; [exact K|apply IH].
Qed.

Lemma calmly_prune t t' : PruneBlockIndexCandidates addr t = Ok t' -> calmly t t'.
Proof using Type. unfold PruneBlockIndexCandidates. repeat case_match; try done. by intros [= <-]. Qed.

Lemma calmly_batch l : forall t old back, calmly t (connect_batch addr connect t old back l).2.
Proof using Type.
  induction l as [|p l IH]; intros t old back; cbn [connect_batch]; [done|]. pose proof (calmly_connect t p) as K.
  destruct (ConnectTip connect t p) as [[[]|e] t1]; cbn [snd] in K.
  - destruct (PruneBlockIndexCandidates addr t1) as [t2|] eqn:E; [|done]. apply calmly_prune in E. assert (K2 : calmly t t2) by (by etrans).
    match goal with |- context [if ?c then _ else _] => destruct c end; [done|]. etrans; [exact K2|apply IH].
  - repeat case_match; try done. etrans; [exact K|apply calmly_note].
Qed.

Lemma calmly_loop fuel : forall t old most n target, calmly t (connect_loop addr connect fuel t old most n target).2.
Proof using Type.
  induction fuel as [|fuel IH]; intros t old most n target; cbn [connect_loop]; [done|]. case_match; [done|].
  match goal with |- context [connect_batch _ _ _ _ ?b ?l] => pose proof (calmly_batch l t old b) as K; destruct (connect_batch _ _ _ _ b l) as [[| | |e] t1] end; cbn [snd] in *; try done.
  etrans; [exact K|apply IH].
Qed.

Lemma calmly_step t most : calmly t (ActivateBestChainStep addr connect disconnect t most).2.
Proof using Type.
  unfold ActivateBestChainStep. destruct (height_at _ most); [|done].
  match goal with |- context [disconnect_to _ ?n t ?f] => pose proof (calmly_disconnect_to n t f) as K; destruct (disconnect_to _ n t f) as [[[]|e] t1] end; cbn [snd] in *; [|done].
  etrans; [exact K|apply calmly_loop].
Qed.

Lemma calmly_activate fuel : forall t r t', ActivateBestChain addr connect disconnect fuel t = Some (r, t') -> calmly t t'.
Proof using Type.
  unfold ActivateBestChain. induction fuel as [|fuel IH]; intros t r t'; cbn [activate_loop];
    destruct (FindMostWorkChain addr t) as [[[most|] t1]|] eqn:Ef; try (intros [= _ <-]; try done; by apply calmly_find in Ef); try (by intros [= _ <-]).
  all: apply calmly_find in Ef; case_match; [by intros [= _ <-]|].
  all: pose proof (calmly_step t1 most) as K; destruct (ActivateBestChainStep addr connect disconnect t1 most) as [[[]|e] t2]; cbn [snd] in K;
    [|intros [= _ <-]; by etrans].
  all: case_match; [intros [= _ <-]; by etrans|]; try done.
  intros E. apply IH in E. etrans; [exact Ef|]. by etrans.
Qed.

Lemma calmly_unwind fuel : forall t p, calmly t (unwind disconnect fuel t p).2.
Proof using Type.
  induction fuel as [|fuel IH]; intros t p; cbn [unwind]; [done|]. case_match; [done|]. destruct (tip_of t) as [walk|]; [|done].
  match goal with |- context [DisconnectTip disconnect ?x] => set (t1 := x) end. assert (K1 : calmly t t1) by (apply calmly_mark, mark_child_shape).
  pose proof (calmly_disconnect t1) as K2. destruct (DisconnectTip disconnect t1) as [[[]|e] t2]; cbn [snd] in *; [|by etrans].
  etrans; [exact K1|]. etrans; [exact K2|apply IH].
Qed.

Lemma calmly_invalidate t p : calmly t (InvalidateBlock addr disconnect t p).2.
Proof using Type.
  unfold InvalidateBlock. match goal with |- context [unwind _ _ ?x _] => set (t1 := x) end. assert (K1 : calmly t t1) by (apply calmly_mark, add_failed_shape).
  pose proof (calmly_unwind (length (chainActive t1)) t1 p) as K2. destruct (unwind _ _ t1 p) as [[[]|e] t2]; cbn [snd] in *; [|by etrans].
  destruct (tip_of t2); [|by etrans]. cbn [snd]. etrans; [exact K1|]. etrans; [exact K2|]. unfold InvalidChainFound. etrans; [|apply calmly_note]. done.
Qed.

Lemma calmly_clear fuel : forall t p, calmly t (clear_ancestors fuel t p).
Proof using Type.
  induction fuel as [|fuel IH]; intros t p; cbn [clear_ancestors]; [done|]. destruct p as [p|]; [|done]. destruct (mapBlockIndex t !! p) as [e|]; [|done].
  etrans; [|apply IH]. destruct (is_failed e); [|done]. cbn. apply calmly_mark, clear_failed_shape.
Qed.

Lemma calmly_reconsider t p : calmly t (ReconsiderBlock addr t p).2.
Proof using Type.
  unfold ReconsiderBlock. destruct (height_at _ p) as [h|]; [|done]. set (ix := mapBlockIndex t). set (ix' := map_imap _ ix).
  assert (Hs : same_fixed ix ix').
  { apply shape_fixed, map_eq. intros q. rewrite !lookup_fmap. unfold ix'. rewrite map_lookup_imap. destruct (ix !! q) as [e|]; [|done]. cbn. case_match; [by rewrite clear_failed_shape|done]. }
  destruct (tip_of t) as [tip|].
  - cbn [snd]. etrans; [|apply calmly_clear]. exact Hs.
  - case_match; cbn [snd]; [|exact Hs]. etrans; [|apply calmly_clear]. exact Hs.
Qed.

Lemma calmly_link fuel : forall t queue, calmly t (link_loop addr fuel t queue).
Proof using Type.
  induction fuel as [|fuel IH]; intros t queue; cbn [link_loop]; [done|]. destruct queue as [|p queue]; [done|]. destruct (mapBlockIndex t !! p) as [e|] eqn:He; [|done].
  destruct (link_one addr t p e) as [t1 children] eqn:E. etrans; [|apply IH]. unfold link_one in E.
  assert (Hi : mapBlockIndex t1 = <[p := with_count e (u32 (chain_tx_below (mapBlockIndex t) e + bi_nTx e)) (nBlockSequenceId t)]> (mapBlockIndex t)).
  { injection E as <- _. by repeat case_match. }
  rewrite Hi. by apply (same_fixed_insert _ p e).
Qed.

(** Receiving the data of a block changes only its entry. *)
Lemma receive_fixed block t p pos e : mapBlockIndex t !! p = Some e ->
  same_fixed (<[p := received block pos e]> (mapBlockIndex t)) (mapBlockIndex (ReceivedBlockTransactions addr block t p pos)).
Proof using Type.
  intros He. unfold ReceivedBlockTransactions. rewrite He. fold (received block pos e). destruct (bi_pprev (received block pos e)) as [q|].
  - match goal with |- context [if ?c then _ else _] => destruct c end; [apply calmly_link|].
    match goal with |- context [if ?c then _ else _] => destruct c end; done.
  - apply calmly_link.
Qed.

Lemma received_fixed block pos e : fixed (received block pos e) = (bi_pprev e, bi_nHeight e, true, heading e).
Proof using Type.
  assert (Hd : has_data (received block pos e) = true) by (unfold received; rewrite raise_data; apply with_data_has).
  unfold fixed. rewrite Hd. unfold received, RaiseValidity, heading. by repeat case_match.
Qed.
End Operations.

(** ** An index that grows *)

Definition place (e : CBlockIndex) := (bi_pprev e, bi_nHeight e, heading e).
Definition ext (ix ix' : BlockMap) : Prop := forall p e, ix !! p = Some e -> exists e', ix' !! p = Some e' /\ place e' = place e.
(** Every parent is an entry. *)
Definition closed (ix : BlockMap) : Prop := forall p e q, ix !! p = Some e -> bi_pprev e = Some q -> is_Some (ix !! q).

#[export] Instance ext_preorder : PreOrder ext.
Proof.
  split; [intros ix p e He; by exists e|]. intros ix1 ix2 ix3 H12 H23 p e He. destruct (H12 p e He) as (e2 & He2 & E2). destruct (H23 p e2 He2) as (e3 & He3 & E3).
  exists e3. split; [done|congruence].
Qed.

Lemma place_inv e e' : place e' = place e -> bi_pprev e' = bi_pprev e /\ bi_nHeight e' = bi_nHeight e /\ bi_nTime e' = bi_nTime e /\ bi_nBits e' = bi_nBits e /\ bi_nVersion e' = bi_nVersion e.
Proof. unfold place, heading. intros H. injection H. auto. Qed.

Lemma fixed_ext ix ix' : same_fixed ix ix' -> ext ix ix'.
Proof.
  intros Hs p e He. pose proof (same_fixed_at _ _ p Hs) as H. rewrite He in H. destruct (ix' !! p) as [e'|]; [|done]. exists e'. split; [done|].
  cbn in H. unfold fixed in H. injection H. intros. unfold place, heading. congruence.
Qed.
Lemma insert_ext ix p e : (forall old, ix !! p = Some old -> place e = place old) -> ext ix (<[p := e]> ix).
Proof.
  intros Hp q f Hf. destruct (decide (p = q)) as [<-|]; [exists e; rewrite lookup_insert_eq; split; [done|by apply Hp]|exists f; by rewrite lookup_insert_ne].
Qed.
Lemma fixed_closed ix ix' : same_fixed ix ix' -> closed ix -> closed ix'.
Proof.
  intros Hs Hc p e' q He' Hq. pose proof (same_fixed_at _ _ p Hs) as H. rewrite He' in H. destruct (ix !! p) as [e|] eqn:He; [|done]. cbn in H. unfold fixed in H. injection H. intros.
  destruct (Hc p e q He) as [f Hf]; [congruence|]. destruct (fixed_ext _ _ Hs q f Hf) as (f' & -> & _). done.
Qed.
Lemma insert_closed ix p e : closed ix -> (forall q, bi_pprev e = Some q -> is_Some (<[p := e]> ix !! q)) -> closed (<[p := e]> ix).
Proof.
  intros Hc He q f r Hf Hr. destruct (decide (p = q)) as [<-|]; [rewrite lookup_insert_eq in Hf; simplify_eq; by apply He|].
  rewrite lookup_insert_ne in Hf by done. destruct (Hc q f r Hf Hr) as [g Hg]. destruct (decide (p = r)) as [<-|]; [rewrite lookup_insert_eq|rewrite lookup_insert_ne by done]; done.
Qed.

Section Growing.
Context (consensus : ConsensusParams) (fRegTest : bool) (ix ix' : BlockMap) (Hext : ext ix ix').

Lemma gravity_ext n : forall p average span lastTime count r,
  gravity_loop ix n p average span lastTime count = Some r -> gravity_loop ix' n p average span lastTime count = Some r.
Proof using Hext.
  induction n as [|n IH]; intros p average span lastTime count r; cbn [gravity_loop]; [done|]. destruct p as [p|]; [|done].
  destruct (ix !! p) as [e|] eqn:He; [|done]. destruct (Hext p e He) as (e' & -> & Hp). apply place_inv in Hp as (Ep & Eh & Et & Eb & _).
  unfold bi_GetBlockTime. rewrite Ep, Eh, Et, Eb. destruct (_ <=? 0); [done|]. destruct (if count + 1 =? 1 then _ else _) as [a|]; [|done].
  destruct (bi_pprev e) as [q|]; [|done]. apply IH.
Qed.

Lemma pos_work_ext e e' r : place e' = place e -> pos_work_required consensus ix e = Some r -> pos_work_required consensus ix' e' = Some r.
Proof using Hext.
  intros (Ep & Eh & Et & Eb & _)%place_inv. unfold pos_work_required, bi_GetBlockTime. rewrite Ep, Eh, Et, Eb. destruct (bi_nHeight e =? 0); [done|].
  destruct (bi_pprev e) as [q|]; [|done]. cbn [mbind option_bind]. destruct (ix !! q) as [f|] eqn:Ef; [|done].
  destruct (Hext q f Ef) as (f' & -> & Hf). apply place_inv in Hf as (_ & _ & Et' & _). cbn [mbind option_bind]. by rewrite Et'.
Qed.

(** The difficulty that a block requires of its successor never changes. *)
Lemma GetNextWorkRequired_ext p r : GetNextWorkRequired consensus fRegTest ix (Some p) = Some r -> GetNextWorkRequired consensus fRegTest ix' (Some p) = Some r.
Proof using Hext.
  unfold GetNextWorkRequired. cbn [mbind option_bind]. destruct (ix !! p) as [e|] eqn:He; [|by destruct fRegTest].
  destruct (Hext p e He) as (e' & -> & Hp). pose proof (place_inv _ _ Hp) as (_ & Eh & _ & Eb & _). rewrite Eh, Eb. destruct fRegTest; [done|].
  destruct (_ || _); [done|]. destruct (_ <=? _); [by apply pos_work_ext|]. unfold pow_work_required.
  destruct (gravity_loop ix PastBlocksMax (Some p) (uint_of 8 0) 0 0 0) as [x|] eqn:Eg; [|done]. by rewrite (gravity_ext _ _ _ _ _ _ _ Eg).
Qed.

Lemma past_times_ext n : closed ix -> forall p, is_Some (ix !! p) -> past_times ix' n (Some p) = past_times ix n (Some p).
Proof using Hext.
  intros Hc. induction n as [|n IH]; intros p [e He]; cbn [past_times]; [done|]. rewrite He. destruct (Hext p e He) as (e' & -> & Hp).
  apply place_inv in Hp as (-> & _ & -> & _). f_equal. destruct (bi_pprev e) as [q|] eqn:Eq; [|by destruct n]. apply IH. by apply (Hc p e).
Qed.

Lemma median_ext p : closed ix -> is_Some (ix !! p) -> GetMedianTimePast ix' p = GetMedianTimePast ix p.
Proof using Hext. intros Hc Hp. unfold GetMedianTimePast. by rewrite past_times_ext. Qed.

Lemma MinPast_ext `{block_env} p e e' : closed ix -> ix !! p = Some e -> place e' = place e -> MinPastBlockTime ix' p e' = MinPastBlockTime ix p e.
Proof using Hext.
  intros Hc He (_ & Eh & Et & _)%place_inv. unfold MinPastBlockTime. rewrite Eh, Et, median_ext by (done || by exists e). done.
Qed.
End Growing.
