(* ===== verification/CoinsView.v ===== *)
(** [coins.h], [coins.cpp] (the views) and the coin part of [txdb.cpp]: layers of
    views on the set of unspent outputs. A view is an interface
    ([CCoinsView]); what it promises to the view above it is the class
    [CCoinsViewLaws], discharged by the database view and, over any view that
    satisfies it, by the cache. *)

From Stdlib Require Import ZArith Lia.
From stdpp Require Import base tactics list numbers gmap fin_maps.
From S2P Require Import Prelude Amount ChainParams Script Standard Serialize Transaction.
From S2P Require Import Compressor Coins.

Abbreviation txid_t := bytes.

Definition UINT256_ZERO : bytes := replicate 32 0.
Definition uint256_IsNull (h : bytes) : bool := forallb (Z.eqb 0) h.

(** ** Cache entries *)

(** The flags are kept as two booleans: [DIRTY] is bit 0, [FRESH] bit 1. *)
Record CCoinsCacheEntry := { coins : CCoins; DIRTY : bool; FRESH : bool }.

#[global] Instance CCoinsCacheEntry_eq_dec : EqDecision CCoinsCacheEntry.
Proof. solve_decision. Defined.

Abbreviation CCoinsMap := (gmap bytes CCoinsCacheEntry).

(** ** The interface of a view

    Reading may fill a cache, so every operation returns the view after it.
    [BatchWrite] is [None] when an [assert] fails. *)
Class CCoinsView (V : Type) := {
  GetCoins : V -> txid_t -> option CCoins * V;
  HaveCoins : V -> txid_t -> bool * V;
  GetBestBlock : V -> bytes * V;
  BatchWrite : V -> CCoinsMap -> bytes -> option (bool * V)
}.

(** ** The base class: an empty view that cannot be written *)

Definition empty_view := unit.
#[global] Instance empty_view_ops : CCoinsView empty_view := {
  GetCoins v _ := (None, v);
  HaveCoins v _ := (false, v);
  GetBestBlock v := (UINT256_ZERO, v);
  BatchWrite v _ _ := Some (false, v)
}.

(** ** The database view *)

Record CCoinsViewDB := { db_coins : gmap bytes CCoins; db_best : option bytes }.

Definition db_GetBestBlock (v : CCoinsViewDB) : bytes :=
  match db_best v with Some h => h | None => UINT256_ZERO end.

(** One round of the loop over the map that is written. *)
Definition db_write_entry (m : gmap bytes CCoins) (te : bytes * CCoinsCacheEntry) : gmap bytes CCoins :=
  let (t, e) := te in
  if DIRTY e then if IsPruned (coins e) then delete t m else <[t := coins e]> m else m.

Definition db_BatchWrite (v : CCoinsViewDB) (mapCoins : CCoinsMap) (hashBlock : bytes) : CCoinsViewDB :=
  {| db_coins := foldl db_write_entry (db_coins v) (map_to_list mapCoins);
     db_best := if uint256_IsNull hashBlock then db_best v else Some hashBlock |}.

#[global] Instance db_ops : CCoinsView CCoinsViewDB := {
  GetCoins v t := (db_coins v !! t, v);
  HaveCoins v t := (bool_decide (is_Some (db_coins v !! t)), v);
  GetBestBlock v := (db_GetBestBlock v, v);
  BatchWrite v m h := Some (true, db_BatchWrite v m h)
}.

(** ** The cache *)

Record CCoinsViewCache (V : Type) := { base : V; hashBlock : bytes; cacheCoins : CCoinsMap }.
Arguments base {V} _.
Arguments hashBlock {V} _.
Arguments cacheCoins {V} _.

Section Cache.
Context {V : Type} `{CCoinsView V}.
Implicit Types (v : CCoinsViewCache V) (t : txid_t).

Definition new_cache (b : V) : CCoinsViewCache V := {| base := b; hashBlock := UINT256_ZERO; cacheCoins := ∅ |}.

Definition FetchCoins v t : option CCoinsCacheEntry * CCoinsViewCache V :=
  match cacheCoins v !! t with
  | Some e => (Some e, v)
  | None =>
      match GetCoins (base v) t with
      | (None, b) => (None, {| base := b; hashBlock := hashBlock v; cacheCoins := cacheCoins v |})
      | (Some tmp, b) =>
          let e := {| coins := tmp; DIRTY := false; FRESH := IsPruned tmp |} in
          (Some e, {| base := b; hashBlock := hashBlock v; cacheCoins := <[t := e]> (cacheCoins v) |})
      end
  end.

Definition AccessCoins v t : option CCoins * CCoinsViewCache V :=
  let (e, v) := FetchCoins v t in (coins <$> e, v).

Definition cache_HaveCoins v t : bool * CCoinsViewCache V :=
  let (e, v) := FetchCoins v t in
  (match e with Some e => negb (zlen (c_vout (coins e)) =? 0) | None => false end, v).

Definition cache_GetBestBlock v : bytes * CCoinsViewCache V :=
  if uint256_IsNull (hashBlock v) then
    let (h, b) := GetBestBlock (base v) in (h, {| base := b; hashBlock := h; cacheCoins := cacheCoins v |})
  else (hashBlock v, v).

Definition SetBestBlock v (hashBlockIn : bytes) : CCoinsViewCache V :=
  {| base := base v; hashBlock := hashBlockIn; cacheCoins := cacheCoins v |}.

(** One round of [BatchWrite] on our entry for the transaction; [None] is the
    failed [assert]. *)
Definition batch_entry (us : option CCoinsCacheEntry) (e : CCoinsCacheEntry) : option (option CCoinsCacheEntry) :=
  if DIRTY e then
    match us with
    | None =>
        if IsPruned (coins e) then Some None
        else if FRESH e then Some (Some {| coins := coins e; DIRTY := true; FRESH := true |})
        else None
    | Some u =>
        if FRESH u && IsPruned (coins e) then Some None
        else Some (Some {| coins := coins e; DIRTY := true; FRESH := FRESH u |})
    end
  else Some us.

Fixpoint batch_loop (cache : CCoinsMap) (l : list (bytes * CCoinsCacheEntry)) : option CCoinsMap :=
  match l with
  | [] => Some cache
  | (t, e) :: l =>
      match batch_entry (cache !! t) e with
      | None => None
      | Some us => batch_loop (partial_alter (fun _ => us) t cache) l
      end
  end.

Definition cache_BatchWrite v (mapCoins : CCoinsMap) (hashBlockIn : bytes) : option (bool * CCoinsViewCache V) :=
  match batch_loop (cacheCoins v) (map_to_list mapCoins) with
  | None => None
  | Some m => Some (true, {| base := base v; hashBlock := hashBlockIn; cacheCoins := m |})
  end.

#[global] Instance cache_ops : CCoinsView (CCoinsViewCache V) := {
  GetCoins := AccessCoins;
  HaveCoins := cache_HaveCoins;
  GetBestBlock := cache_GetBestBlock;
  BatchWrite := cache_BatchWrite
}.

Definition Flush v : option (bool * CCoinsViewCache V) :=
  match BatchWrite (base v) (cacheCoins v) (hashBlock v) with
  | None => None
  | Some (fOk, b) => Some (fOk, {| base := b; hashBlock := hashBlock v; cacheCoins := ∅ |})
  end.

(** [ModifyCoins]: the entry that the modifier refers to, marked dirty. *)
Definition begin_modify v t : CCoinsCacheEntry * V :=
  match cacheCoins v !! t with
  | Some e => ({| coins := coins e; DIRTY := true; FRESH := FRESH e |}, base v)
  | None =>
      match GetCoins (base v) t with
      | (None, b) => ({| coins := CCoins_empty; DIRTY := true; FRESH := true |}, b)
      | (Some c, b) => ({| coins := c; DIRTY := true; FRESH := IsPruned c |}, b)
      end
  end.

(** [ModifyCoins], a use [f] of the modifier, and its destructor. *)
Definition ModifyCoins {A} v t (f : CCoins -> A * CCoins) : A * CCoinsViewCache V :=
  let (e, b) := begin_modify v t in
  let (a, c) := f (coins e) in
  let c := Cleanup c in
  (a, {| base := b; hashBlock := hashBlock v;
         cacheCoins := if FRESH e && IsPruned c then delete t (cacheCoins v)
                       else <[t := {| coins := c; DIRTY := DIRTY e; FRESH := FRESH e |}]> (cacheCoins v) |}).

(** [None] is the failed [assert]. *)
Definition GetOutputFor v (input : CTxIn) : option CTxOut * CCoinsViewCache V :=
  let (c, v) := AccessCoins v (op_hash (prevout input)) in
  (match c with
   | Some c => if IsAvailable c (op_n (prevout input)) then c_vout c !! Z.to_nat (op_n (prevout input)) else None
   | None => None
   end, v).

Fixpoint values_in v (l : list CTxIn) (nResult : Z) : option Z * CCoinsViewCache V :=
  match l with
  | [] => (Some nResult, v)
  | i :: l =>
      match GetOutputFor v i with
      | (Some o, v) => values_in v l (s64 (nResult + nValue o))
      | (None, v) => (None, v)
      end
  end.

Definition GetValueIn v (tx : CTransaction) : option Z * CCoinsViewCache V :=
  if IsCoinBase tx then (Some 0, v)
  else if HasZerocoinSpendInputs tx then (Some (GetZerocoinSpent tx), v)
  else values_in v (vin tx) 0.

Definition IsOutputAvailable v t (index : Z) : bool * CCoinsViewCache V :=
  let (c, v) := AccessCoins v t in
  (match c with Some c => IsAvailable c index | None => false end, v).

Fixpoint have_inputs v (l : list CTxIn) : bool * CCoinsViewCache V :=
  match l with
  | [] => (true, v)
  | i :: l =>
      match IsOutputAvailable v (op_hash (prevout i)) (op_n (prevout i)) with
      | (true, v) => have_inputs v l
      | (false, v) => (false, v)
      end
  end.

Definition HaveInputs v (tx : CTransaction) : bool * CCoinsViewCache V :=
  if negb (IsCoinBase tx) && negb (HasZerocoinSpendInputs tx) then have_inputs v (vin tx) else (true, v).
End Cache.

(** ** What a view stands for

    The contents of a view: for each transaction its unspent outputs, if any. *)

Definition norm (c : CCoins) : option CCoins := if IsPruned c then None else Some c.

(** The equivalence of [operator==]: equal, or both spent. *)
#[global] Instance CCoins_equiv : Equiv CCoins := fun a b => norm a = norm b.
#[global] Instance CCoins_equivalence : Equivalence (≡@{CCoins}).
Proof. split; unfold equiv, CCoins_equiv; [by intros ? | by intros ? | by intros ? ? ? -> ->]. Qed.
#[global] Instance norm_proper : Proper ((≡) ==> (=)) norm.
Proof. by intros a b E. Qed.
#[global] Instance IsPruned_proper : Proper ((≡) ==> (=)) IsPruned.
Proof. intros a b E. unfold equiv, CCoins_equiv, norm in E. by destruct (IsPruned a), (IsPruned b). Qed.

Lemma CCoins_eqb_equiv a b : CCoins_eqb a b = true <-> a ≡ b.
Proof.
  unfold CCoins_eqb, equiv, CCoins_equiv, norm.
  destruct (IsPruned a) eqn:Ea, (IsPruned b) eqn:Eb; cbn [andb orb]; try done;
    rewrite bool_decide_eq_true; naive_solver congruence.
Qed.

Lemma norm_pruned c : IsPruned c = true -> norm c = None.
Proof. unfold norm. by intros ->. Qed.
Lemma norm_unpruned c : IsPruned c = false -> norm c = Some c.
Proof. unfold norm. by intros ->. Qed.
Lemma norm_None c : norm c = None <-> IsPruned c = true.
Proof. unfold norm. by destruct (IsPruned c). Qed.
Lemma norm_Some c d : norm c = Some d -> c = d /\ IsPruned c = false.
Proof. unfold norm. destruct (IsPruned c); naive_solver. Qed.

(** The contents seen through a map of entries: an entry hides what is below. *)
Definition overlay (m : CCoinsMap) (below : gmap bytes CCoins) : gmap bytes CCoins :=
  merge (fun e b => match e with Some e => norm (coins e) | None => b end) m below.

Lemma lookup_overlay m below t :
  overlay m below !! t = match m !! t with Some e => norm (coins e) | None => below !! t end.
Proof. unfold overlay. rewrite lookup_merge. by destruct (m !! t), (below !! t). Qed.

Lemma overlay_empty below : overlay ∅ below = below.
Proof. apply map_eq. intros t. by rewrite lookup_overlay, lookup_empty. Qed.

(** What an entry of a cache must satisfy, given the contents below and the
    transactions that the view below holds in memory. *)
Record entry_ok (held : txid_t -> Prop) (below : gmap bytes CCoins) (t : txid_t) (e : CCoinsCacheEntry) : Prop := {
  ok_clean : DIRTY e = false -> norm (coins e) = below !! t;
  ok_fresh : FRESH e = true -> below !! t = None;
  ok_held : FRESH e = false -> held t
}.
Arguments ok_clean {_ _ _ _} _ _.
Arguments ok_fresh {_ _ _ _} _ _.
Arguments ok_held {_ _ _ _} _ _.

Definition entries_ok (held : txid_t -> Prop) (below : gmap bytes CCoins) (m : CCoinsMap) : Prop := map_Forall (entry_ok held below) m.

Class CCoinsViewLaws (V : Type) `{CCoinsView V} := {
  contents : V -> gmap bytes CCoins;
  best : V -> bytes;
  held : V -> txid_t -> Prop;
  view_inv : V -> Prop;
  GetCoins_law v t r v' : view_inv v -> GetCoins v t = (r, v') ->
    view_inv v' /\ contents v' = contents v /\ best v' = best v /\ r ≫= norm = contents v !! t /\
    (is_Some r -> held v' t) /\ (forall t', held v t' -> held v' t');
  GetBestBlock_law v h v' : view_inv v -> GetBestBlock v = (h, v') ->
    view_inv v' /\ contents v' = contents v /\ best v' = best v /\ h = best v /\ (forall t, held v t -> held v' t);
  BatchWrite_law v m h : view_inv v -> entries_ok (held v) (contents v) m -> uint256_IsNull h = false ->
    exists v', BatchWrite v m h = Some (true, v') /\ view_inv v' /\ contents v' = overlay m (contents v) /\ best v' = h
}.

(** ** The database view keeps the promise *)

Definition db_inv (v : CCoinsViewDB) : Prop := map_Forall (fun _ c => IsPruned c = false) (db_coins v).

Lemma db_fold_lookup l m t : NoDup l.*1 ->
  foldl db_write_entry m l !! t =
  match list_to_map (M := gmap bytes CCoinsCacheEntry) l !! t with
  | Some e => if DIRTY e then norm (coins e) else m !! t
  | None => m !! t
  end.
Proof.
  revert m. induction l as [| [u e] l IH]; intros m; cbn; [by rewrite lookup_empty |]. intros [Hu Hl]%NoDup_cons.
  rewrite IH by done. destruct (decide (u = t)) as [-> | Hne].
  - rewrite lookup_insert_eq. apply not_elem_of_list_to_map in Hu. rewrite Hu. unfold norm.
    destruct (DIRTY e); [| done]. destruct (IsPruned (coins e)); [apply lookup_delete_eq | apply lookup_insert_eq].
  - rewrite lookup_insert_ne by done. destruct (DIRTY e); [| done].
    destruct (IsPruned (coins e)); [by rewrite lookup_delete_ne | by rewrite lookup_insert_ne].
Qed.

Lemma db_write_lookup v m h t :
  db_coins (db_BatchWrite v m h) !! t =
  match m !! t with Some e => if DIRTY e then norm (coins e) else db_coins v !! t | None => db_coins v !! t end.
Proof. cbn. rewrite db_fold_lookup by apply NoDup_fst_map_to_list. by rewrite list_to_map_to_list. Qed.

#[global, refine] Instance db_laws : CCoinsViewLaws CCoinsViewDB := {
  contents := db_coins;
  best := db_GetBestBlock;
  held _ _ := True;
  view_inv := db_inv
}.
Proof.
  - intros v t r v' Hv E. cbn in E. simplify_eq. split_and!; try done.
    destruct (db_coins v' !! t) eqn:Et; [| done]. cbn. by rewrite norm_unpruned by exact (Hv _ _ Et).
  - intros v h v' Hv E. cbn in E. by simplify_eq.
  - intros v m h Hv Hm Hh. eexists. split; [reflexivity |]. split_and!.
    + intros t c Hc. rewrite db_write_lookup in Hc. destruct (m !! t); [| by apply (Hv t)].
      destruct (DIRTY _); [by apply norm_Some in Hc as [<- ?] | by apply (Hv t)].
    + apply map_eq. intros t. rewrite db_write_lookup, lookup_overlay. destruct (m !! t) as [e |] eqn:Et; [| done].
      destruct (DIRTY e) eqn:Ed; [done |]. by rewrite (ok_clean (Hm _ _ Et) Ed).
    + unfold db_GetBestBlock. cbn. by rewrite Hh.
Defined.

(** ** Questions about contents *)

Definition available (m : gmap bytes CCoins) (out : COutPoint) : bool :=
  match m !! op_hash out with Some c => IsAvailable c (op_n out) | None => false end.

Definition output_of (m : gmap bytes CCoins) (out : COutPoint) : option CTxOut :=
  if available m out then m !! op_hash out ≫= fun c => c_vout c !! Z.to_nat (op_n out) else None.

Definition inputs_available (m : gmap bytes CCoins) (tx : CTransaction) : bool :=
  if negb (IsCoinBase tx) && negb (HasZerocoinSpendInputs tx)
  then forallb (fun i => available m (prevout i)) (vin tx) else true.

Fixpoint sum_in (m : gmap bytes CCoins) (l : list CTxIn) (nResult : Z) : option Z :=
  match l with
  | [] => Some nResult
  | i :: l => match output_of m (prevout i) with Some o => sum_in m l (s64 (nResult + nValue o)) | None => None end
  end.

Definition value_in (m : gmap bytes CCoins) (tx : CTransaction) : option Z :=
  if IsCoinBase tx then Some 0
  else if HasZerocoinSpendInputs tx then Some (GetZerocoinSpent tx)
  else sum_in m (vin tx) 0.

Lemma pruned_unavailable c n : IsPruned c = true -> IsAvailable c n = false.
Proof.
  unfold IsPruned, IsAvailable. intros H. destruct (c_vout c !! Z.to_nat n) as [o |] eqn:E; [| done].
  rewrite forallb_forall in H. apply list_elem_of_lookup_2, list_elem_of_In, H in E. rewrite E. by destruct (0 <=? n).
Qed.

(** ** The cache keeps the promise, over any view that does *)

Section CacheLaws.
Context {V : Type} `{CCoinsViewLaws V}.
Implicit Types (v : CCoinsViewCache V) (t : txid_t).

Definition cache_contents v : gmap bytes CCoins := overlay (cacheCoins v) (contents (base v)).
Definition cache_best v : bytes := if uint256_IsNull (hashBlock v) then best (base v) else hashBlock v.
Definition cache_held v t : Prop := is_Some (cacheCoins v !! t).

(** The invariant of a cache: the flags of every entry tell the truth about the
    view below. *)
Definition cache_inv v : Prop :=
  view_inv (base v) /\ entries_ok (held (base v)) (contents (base v)) (cacheCoins v).

Lemma entries_ok_mono (h h' : txid_t -> Prop) below m :
  (forall t, h t -> h' t) -> entries_ok h below m -> entries_ok h' below m.
Proof. intros Hh Hm t e He. destruct (Hm t e He) as [? ? ?]. split; auto. Qed.

Lemma FetchCoins_spec v t r v' : cache_inv v -> FetchCoins v t = (r, v') ->
  cache_inv v' /\ cache_contents v' = cache_contents v /\ cache_best v' = cache_best v /\ hashBlock v' = hashBlock v /\
  r ≫= (fun e => norm (coins e)) = cache_contents v !! t /\ (is_Some r -> cache_held v' t) /\
  (forall t', cache_held v t' -> cache_held v' t').
Proof.
  intros [Hb He] E. unfold FetchCoins in E. unfold cache_contents, cache_held, cache_best.
  rewrite lookup_overlay. destruct (cacheCoins v !! t) as [e |] eqn:Et.
  { simplify_eq. split_and!; done. }
  destruct (GetCoins (base v) t) as [r0 b] eqn:Eg. destruct (GetCoins_law _ _ _ _ Hb Eg) as (Hb' & Hc & Hbest & Hr & Hh & Hm).
  pose proof (entries_ok_mono _ _ _ _ Hm He) as He'.
  destruct r0 as [c |]; simplify_eq; cbn [base cacheCoins hashBlock]; rewrite ?Hc, ?Hbest; cbn in Hr.
  - split_and!; try done.
    + split; cbn [base cacheCoins]; [done |]. rewrite Hc. intros u e Hu. apply lookup_insert_Some in Hu as [[<- <-] | [Hne Hu]].
      * split; cbn; [done | | by intros _; apply Hh]. intros Hp. rewrite <- Hr. by apply norm_pruned.
      * by apply He'.
    + apply map_eq. intros u. rewrite !lookup_overlay. destruct (decide (u = t)) as [-> | Hne].
      * by rewrite lookup_insert_eq, Et.
      * by rewrite lookup_insert_ne.
    + intros _. rewrite lookup_insert_eq. by eexists.
    + intros u [e Hu]. destruct (decide (u = t)) as [-> | Hne]; [rewrite lookup_insert_eq | rewrite lookup_insert_ne by done]; eauto.
  - split_and!; try done. split; cbn [base cacheCoins]; [done |]. by rewrite Hc.
Qed.

Lemma AccessCoins_spec v t r v' : cache_inv v -> AccessCoins v t = (r, v') ->
  cache_inv v' /\ cache_contents v' = cache_contents v /\ cache_best v' = cache_best v /\
  r ≫= norm = cache_contents v !! t /\ (is_Some r -> cache_held v' t) /\ (forall t', cache_held v t' -> cache_held v' t').
Proof.
  intros Hv E. unfold AccessCoins in E. destruct (FetchCoins v t) as [e v1] eqn:Ef. simplify_eq.
  destruct (FetchCoins_spec _ _ _ _ Hv Ef) as (? & ? & ? & ? & Hr & Hh & ?). split_and!; try done.
  - by destruct e.
  - rewrite fmap_is_Some. exact Hh.
Qed.

Lemma GetBestBlock_spec v h v' : cache_inv v -> cache_GetBestBlock v = (h, v') ->
  cache_inv v' /\ cache_contents v' = cache_contents v /\ cache_best v' = cache_best v /\ h = cache_best v /\
  (forall t, cache_held v t -> cache_held v' t).
Proof.
  intros [Hb He] E. unfold cache_GetBestBlock in E. unfold cache_best, cache_contents, cache_held.
  destruct (uint256_IsNull (hashBlock v)) eqn:En; [| simplify_eq; by rewrite En].
  destruct (GetBestBlock (base v)) as [h0 b] eqn:Eg. destruct (GetBestBlock_law _ _ _ Hb Eg) as (Hb' & Hc & Hbb & -> & Hm).
  simplify_eq. cbn [base cacheCoins hashBlock]. rewrite Hc, Hbb. split_and!; try done.
  - split; cbn [base cacheCoins]; [done |]. rewrite Hc. by apply (entries_ok_mono _ _ _ _ Hm).
  - destruct (uint256_IsNull (best (base v))); done.
Qed.

(** One round keeps the flags truthful and installs the child's version. *)
Lemma batch_entry_spec v t e : cache_inv v -> entry_ok (cache_held v) (cache_contents v) t e ->
  exists us, batch_entry (cacheCoins v !! t) e = Some us /\
    match us with Some u => norm (coins u) | None => contents (base v) !! t end = norm (coins e) /\
    (forall u, us = Some u -> entry_ok (held (base v)) (contents (base v)) t u).
Proof.
  intros [_ He] [Hclean Hfresh Hheld]. unfold cache_contents, cache_held in *. rewrite lookup_overlay in Hclean, Hfresh.
  unfold batch_entry. destruct (DIRTY e) eqn:Ed.
  - destruct (cacheCoins v !! t) as [u |] eqn:Et.
    + destruct (He _ _ Et) as [_ Huf Huh]. destruct (FRESH u) eqn:Eu; cbn [andb].
      * destruct (IsPruned (coins e)) eqn:Ep; eexists; split; try reflexivity; cbn.
        -- rewrite norm_pruned by done. by rewrite Huf.
        -- split; [done |]. intros ? [= <-]. split; cbn; auto; done.
      * eexists. split; [reflexivity |]. split; [done |]. intros ? [= <-]. split; cbn; auto; done.
    + destruct (FRESH e) eqn:Ef; [| destruct (Hheld eq_refl); done].
      destruct (IsPruned (coins e)) eqn:Ep; eexists; (split; [reflexivity |]); cbn.
      * rewrite norm_pruned by done. by rewrite Hfresh.
      * split; [done |]. intros ? [= <-]. split; cbn; auto; done.
  - eexists. split; [reflexivity |]. split; [by rewrite (Hclean eq_refl) |]. intros u Hu. by apply He.
Qed.

Lemma batch_loop_spec v l : cache_inv v -> NoDup l.*1 ->
  (forall t e, (t, e) ∈ l -> entry_ok (cache_held v) (cache_contents v) t e) ->
  exists m, batch_loop (cacheCoins v) l = Some m /\ entries_ok (held (base v)) (contents (base v)) m /\
    overlay m (contents (base v)) = overlay (list_to_map l) (cache_contents v).
Proof.
  revert v. induction l as [| [t e] l IH]; intros v Hv Hnd Hl.
  { exists (cacheCoins v). cbn. rewrite overlay_empty. by destruct Hv. }
  apply NoDup_cons in Hnd as [Ht Hnd]. cbn [batch_loop].
  destruct (batch_entry_spec v t e Hv (Hl t e ltac:(by left))) as (us & -> & Hus & Hok).
  set (v1 := {| base := base v; hashBlock := hashBlock v; cacheCoins := partial_alter (fun _ => us) t (cacheCoins v) |}).
  assert (Hv1 : cache_inv v1).
  { destruct Hv as [Hb He]. split; [done |]. intros u f Hu. cbn in Hu. destruct (decide (u = t)) as [-> | Hne].
    - rewrite lookup_partial_alter_eq in Hu. by apply Hok.
    - rewrite lookup_partial_alter_ne in Hu by done. by apply He. }
  assert (Hc1 : cache_contents v1 = overlay {[ t := e ]} (cache_contents v)).
  { apply map_eq. intros u. unfold cache_contents, v1. cbn. rewrite !lookup_overlay. destruct (decide (u = t)) as [-> | Hne].
    - rewrite lookup_partial_alter_eq, lookup_singleton_eq. by destruct us.
    - by rewrite lookup_partial_alter_ne, lookup_singleton_ne by done. }
  destruct (IH v1 Hv1 Hnd) as (m & Hm & Hok' & E).
  { intros u f Hu. assert (Hne : u <> t) by (intros ->; apply Ht; apply list_elem_of_fmap; by exists (t, f)).
    destruct (Hl u f ltac:(by right)) as [H1 H2 H3].
    assert (Hc : cache_contents v1 !! u = cache_contents v !! u) by (by rewrite Hc1, lookup_overlay, lookup_singleton_ne).
    split; rewrite ?Hc; auto. unfold cache_held, v1. cbn. rewrite lookup_partial_alter_ne by done. exact H3. }
  exists m. split_and!; [done | done |]. change (base v1) with (base v) in E. rewrite E, Hc1. apply map_eq. intros u. cbn [list_to_map foldr fst snd].
  rewrite !lookup_overlay. destruct (decide (u = t)) as [-> | Hne].
  - rewrite lookup_insert_eq, lookup_singleton_eq. cbn in Ht. apply not_elem_of_list_to_map in Ht. by rewrite Ht.
  - by rewrite lookup_insert_ne, lookup_singleton_ne by done.
Qed.

Lemma cache_BatchWrite_spec v m h : cache_inv v -> entries_ok (cache_held v) (cache_contents v) m -> uint256_IsNull h = false ->
  exists v', cache_BatchWrite v m h = Some (true, v') /\ cache_inv v' /\ cache_contents v' = overlay m (cache_contents v) /\
    cache_best v' = h.
Proof.
  intros Hv Hm Hh. destruct (batch_loop_spec v (map_to_list m) Hv (NoDup_fst_map_to_list m)) as (m' & E & Hok & Hov).
  { intros t e Ht. apply elem_of_map_to_list in Ht. by apply Hm. }
  unfold cache_BatchWrite. rewrite E. eexists. split; [reflexivity |]. rewrite list_to_map_to_list in Hov.
  split_and!; [split; [by destruct Hv | done] | done |]. unfold cache_best. cbn [hashBlock]. by rewrite Hh.
Qed.

#[global, refine] Instance cache_laws : CCoinsViewLaws (CCoinsViewCache V) := {
  contents := cache_contents;
  best := cache_best;
  held := cache_held;
  view_inv := cache_inv
}.
Proof. exact AccessCoins_spec. exact GetBestBlock_spec. exact cache_BatchWrite_spec. Defined.

Lemma new_cache_inv b : view_inv b -> cache_inv (new_cache b).
Proof. intros Hb. split; [done |]. apply map_Forall_empty. Qed.

Lemma new_cache_contents b : cache_contents (new_cache b) = contents b.
Proof. apply overlay_empty. Qed.

(** ** The operations, as operations on the contents *)

Lemma Flush_spec v : cache_inv v -> uint256_IsNull (hashBlock v) = false ->
  exists v', Flush v = Some (true, v') /\ cache_inv v' /\ cache_contents v' = cache_contents v /\ cache_best v' = cache_best v /\
    cacheCoins v' = ∅ /\ contents (base v') = cache_contents v /\ best (base v') = hashBlock v /\ hashBlock v' = hashBlock v.
Proof.
  intros [Hb He] Hh. unfold Flush. destruct (BatchWrite_law _ _ _ Hb He Hh) as (b & -> & Hb' & Hc & Hbest).
  eexists. split; [reflexivity |]. unfold cache_contents, cache_best, cache_inv. cbn [base cacheCoins hashBlock]. rewrite overlay_empty, Hh.
  split_and!; try done.
Qed.

(** What using a modifier does: [f] sees the coins of [t] (or spent ones), and the
    cleaned result replaces them. *)
Lemma ModifyCoins_spec {A} v t (f : CCoins -> A * CCoins) a v' : cache_inv v -> ModifyCoins v t f = (a, v') ->
  cache_inv v' /\ cache_best v' = cache_best v /\ hashBlock v' = hashBlock v /\
  exists c, norm c = cache_contents v !! t /\ a = fst (f c) /\
    cache_contents v' = partial_alter (fun _ => norm (Cleanup (snd (f c)))) t (cache_contents v).
Proof.
  intros [Hb He] E. unfold ModifyCoins in E.
  destruct (begin_modify v t) as [e b] eqn:Eb. destruct (f (coins e)) as [a' c'] eqn:Ef. injection E as -> <-.
  assert (H1 : view_inv b /\ contents b = contents (base v) /\ best b = best (base v) /\
    (forall u, held (base v) u -> held b u) /\
    norm (coins e) = cache_contents v !! t /\ (FRESH e = true -> contents (base v) !! t = None) /\ (FRESH e = false -> held b t) /\ DIRTY e = true).
  { unfold begin_modify in Eb. unfold cache_contents. rewrite lookup_overlay. destruct (cacheCoins v !! t) as [u |] eqn:Et.
    - simplify_eq. destruct (He _ _ Et). by split_and!.
    - destruct (GetCoins (base v) t) as [r b'] eqn:Eg. destruct (GetCoins_law _ _ _ _ Hb Eg) as (Hb' & Hc & Hbest & Hr & Hh & Hm).
      destruct r as [c |]; simplify_eq; cbn in *; rewrite <- Hr; split_and!; try done.
      + by apply norm_pruned.
      + intros _. by apply Hh. }
  destruct H1 as (Hb' & Hc & Hbest & Hm & Hn & Hf & Hh & Hd). pose proof (entries_ok_mono _ _ _ _ Hm He) as He'.
  assert (Hw : forall m, (forall u, u <> t -> m !! u = cacheCoins v !! u) ->
    overlay m (contents b) !! t = norm (Cleanup c') ->
    overlay m (contents b) = partial_alter (fun _ => norm (Cleanup c')) t (cache_contents v)).
  { intros m Hm1 Hm2. apply map_eq. intros u. unfold cache_contents. destruct (decide (u = t)) as [-> | Hne].
    - by rewrite lookup_partial_alter_eq.
    - rewrite lookup_partial_alter_ne by done. by rewrite !lookup_overlay, Hm1, Hc. }
  unfold cache_inv, cache_best, cache_contents. cbn [base hashBlock cacheCoins]. split_and!; [done | | by rewrite Hbest | done |].
  - rewrite Hc. intros u g Hu. destruct (FRESH e && IsPruned (Cleanup c')) eqn:Ee.
    + apply lookup_delete_Some in Hu as [_ Hu]. by apply He'.
    + apply lookup_insert_Some in Hu as [[<- <-] | [Hne Hu]]; [| by apply He']. split; cbn; rewrite ?Hd; done.
  - exists (coins e). rewrite Ef. split_and!; [done | done |]. apply Hw.
    + intros u Hne. case_match; [by rewrite lookup_delete_ne | by rewrite lookup_insert_ne].
    + rewrite lookup_overlay. destruct (FRESH e && IsPruned (Cleanup c')) eqn:Ee; bprop.
      * rewrite lookup_delete_eq, Hc, norm_pruned by done. auto.
      * by rewrite lookup_insert_eq.
Qed.

(** ** Reading the contents *)

(** A read changes nothing that can be seen. *)
Definition reads v v' : Prop :=
  cache_inv v' /\ cache_contents v' = cache_contents v /\ cache_best v' = cache_best v /\
  (uint256_IsNull (hashBlock v) = false -> hashBlock v' = hashBlock v).

Lemma reads_refl v : cache_inv v -> reads v v.
Proof. intros Hv. unfold reads. by split_and!. Qed.
Lemma reads_trans v1 v2 v3 : reads v1 v2 -> reads v2 v3 -> reads v1 v3.
Proof.
  intros (_ & Hc & Hb & Hn) (Hi & Hc' & Hb' & Hn'). split_and!; [done | congruence | congruence |].
  intros H1. specialize (Hn H1). rewrite Hn' by congruence. done.
Qed.

Lemma AccessCoins_reads v t r v' : cache_inv v -> AccessCoins v t = (r, v') ->
  reads v v' /\ r ≫= norm = cache_contents v !! t.
Proof.
  intros Hv E. destruct (AccessCoins_spec _ _ _ _ Hv E) as (? & ? & ? & ? & _). split; [| done]. split_and!; try done.
  intros _. unfold AccessCoins in E. destruct (FetchCoins v t) as [e v1] eqn:Ef. simplify_eq.
  by destruct (FetchCoins_spec _ _ _ _ Hv Ef) as (_ & _ & _ & ? & _).
Qed.

Lemma GetBestBlock_reads v h v' : cache_inv v -> cache_GetBestBlock v = (h, v') -> reads v v' /\ h = cache_best v.
Proof.
  intros Hv E. destruct (GetBestBlock_spec _ _ _ Hv E) as (? & ? & ? & ? & _). split; [| done]. split_and!; try done.
  unfold cache_GetBestBlock in E. intros Hn. rewrite Hn in E. by simplify_eq.
Qed.

Lemma IsOutputAvailable_reads v t n r v' : cache_inv v -> IsOutputAvailable v t n = (r, v') ->
  reads v v' /\ r = available (cache_contents v) {| op_hash := t; op_n := n |}.
Proof.
  intros Hv E. unfold IsOutputAvailable in E. destruct (AccessCoins v t) as [c v1] eqn:Ea. simplify_eq.
  destruct (AccessCoins_reads _ _ _ _ Hv Ea) as [Hr Hc]. split; [done |]. unfold available. cbn [op_hash op_n]. rewrite <- Hc.
  destruct c as [c |]; [| done]. cbn. unfold norm. destruct (IsPruned c) eqn:Ep; [| done]. by apply pruned_unavailable.
Qed.

Lemma GetOutputFor_reads v i r v' : cache_inv v -> GetOutputFor v i = (r, v') ->
  reads v v' /\ r = output_of (cache_contents v) (prevout i).
Proof.
  intros Hv E. unfold GetOutputFor in E. destruct (AccessCoins v _) as [c v1] eqn:Ea. simplify_eq.
  destruct (AccessCoins_reads _ _ _ _ Hv Ea) as [Hr Hc]. split; [done |]. unfold output_of, available. rewrite <- Hc.
  destruct c as [c |]; [| done]. cbn. unfold norm. destruct (IsPruned c) eqn:Ep; [| done]. by rewrite pruned_unavailable.
Qed.

Lemma have_inputs_reads l v r v' : cache_inv v -> have_inputs v l = (r, v') ->
  reads v v' /\ r = forallb (fun i => available (cache_contents v) (prevout i)) l.
Proof.
  revert v. induction l as [| i l IH]; intros v Hv E; cbn [have_inputs] in E.
  { simplify_eq. split; [by apply reads_refl | done]. }
  destruct (IsOutputAvailable v _ _) as [b v1] eqn:Ea. destruct (IsOutputAvailable_reads _ _ _ _ _ Hv Ea) as [Hr Hb].
  assert (Hb' : b = available (cache_contents v) (prevout i)) by (rewrite Hb; by destruct (prevout i)).
  cbn [forallb]. rewrite <- Hb'. destruct b; [| by simplify_eq].
  destruct (IH v1 ltac:(by destruct Hr) E) as [Hr' ->]. destruct Hr as (? & Hc & ?). rewrite Hc. split; [| done].
  by apply (reads_trans _ v1).
Qed.

Lemma HaveInputs_reads v tx r v' : cache_inv v -> HaveInputs v tx = (r, v') ->
  reads v v' /\ r = inputs_available (cache_contents v) tx.
Proof.
  intros Hv E. unfold HaveInputs in E. unfold inputs_available. case_match; [by apply have_inputs_reads |].
  simplify_eq. split; [by apply reads_refl | done].
Qed.

Lemma values_in_reads l v n r v' : cache_inv v -> values_in v l n = (r, v') ->
  reads v v' /\ r = sum_in (cache_contents v) l n.
Proof.
  revert v n. induction l as [| i l IH]; intros v n Hv E; cbn [values_in sum_in] in *.
  { simplify_eq. split; [by apply reads_refl | done]. }
  destruct (GetOutputFor v i) as [o v1] eqn:Eo. destruct (GetOutputFor_reads _ _ _ _ Hv Eo) as [Hr <-].
  destruct o as [o |]; [| by simplify_eq]. destruct (IH v1 _ ltac:(by destruct Hr) E) as [Hr' ->].
  assert (Hc : cache_contents v1 = cache_contents v) by apply Hr. rewrite Hc. split; [| done]. by apply (reads_trans _ v1).
Qed.

Lemma GetValueIn_reads v tx r v' : cache_inv v -> GetValueIn v tx = (r, v') ->
  reads v v' /\ r = value_in (cache_contents v) tx.
Proof.
  intros Hv E. unfold GetValueIn in E. unfold value_in.
  destruct (IsCoinBase tx); [simplify_eq; split; [by apply reads_refl | done] |].
  destruct (HasZerocoinSpendInputs tx); [simplify_eq; split; [by apply reads_refl | done] |]. by apply values_in_reads.
Qed.
End CacheLaws.

(** ** Sequences of operations *)

#[global] Instance Cleanup_proper : Proper ((≡) ==> (≡)) Cleanup.
Proof.
  assert (H : forall c, IsPruned (Cleanup c) = IsPruned c).
  { intros c. apply eq_true_iff_eq. unfold IsPruned. cbn [Cleanup with_vout c_vout].
    by rewrite <- !drop_null_nil, (drop_null_clean (c_vout c)). }
  intros a b E. unfold equiv, CCoins_equiv, norm in *. rewrite !H. destruct (IsPruned a), (IsPruned b); try done. congruence.
Qed.

Lemma norm_default c : c ≡ default CCoins_empty (norm c).
Proof. unfold equiv, CCoins_equiv, norm. by destruct (IsPruned c) eqn:E; cbn; rewrite ?E. Qed.

(** What the code does with the cache it was given: look at coins, ask for or move
    the best block, modify coins, flush. *)
Inductive cache_op :=
| OpGet (t : txid_t)
| OpBest
| OpSetBest (h : bytes)
| OpModify (t : txid_t) (f : CCoins -> CCoins)
| OpFlush.

Inductive cache_out :=
| OutCoins (c : option CCoins)
| OutBest (h : bytes)
| OutDone.

(** Specification: a finite map and the hash of a block. *)
Record utxo_set := { utxos : gmap bytes CCoins; utxo_best : bytes }.

Definition spec_step (s : utxo_set) (o : cache_op) : cache_out * utxo_set :=
  match o with
  | OpGet t => (OutCoins (utxos s !! t), s)
  | OpBest => (OutBest (utxo_best s), s)
  | OpSetBest h => (OutDone, {| utxos := utxos s; utxo_best := h |})
  | OpModify t f =>
      (OutDone, {| utxos := partial_alter (fun c => norm (Cleanup (f (default CCoins_empty c)))) t (utxos s);
                   utxo_best := utxo_best s |})
  | OpFlush => (OutDone, s)
  end.

Fixpoint spec_run (s : utxo_set) (l : list cache_op) : list cache_out * utxo_set :=
  match l with
  | [] => ([], s)
  | o :: l => let (a, s) := spec_step s o in let (r, s) := spec_run s l in (a :: r, s)
  end.

(** The functions passed to a modifier cannot tell spent coins apart, and the best
    block is never set to null. *)
Definition op_ok (o : cache_op) : Prop :=
  match o with
  | OpModify _ f => Proper ((≡) ==> (≡)) f
  | OpSetBest h => uint256_IsNull h = false
  | _ => True
  end.

Section Runs.
Context {V : Type} `{CCoinsViewLaws V}.
Implicit Types (v : CCoinsViewCache V) (t : txid_t).

Definition cache_step v (o : cache_op) : option (cache_out * CCoinsViewCache V) :=
  match o with
  | OpGet t => let (c, v) := AccessCoins v t in Some (OutCoins (c ≫= norm), v)
  | OpBest => let (h, v) := cache_GetBestBlock v in Some (OutBest h, v)
  | OpSetBest h => Some (OutDone, SetBestBlock v h)
  | OpModify t f => Some (OutDone, snd (ModifyCoins v t (fun c => (tt, f c))))
  | OpFlush => match Flush v with Some (true, v) => Some (OutDone, v) | _ => None end
  end.

Fixpoint cache_run v (l : list cache_op) : option (list cache_out * CCoinsViewCache V) :=
  match l with
  | [] => Some ([], v)
  | o :: l =>
      match cache_step v o with
      | None => None
      | Some (a, v) => match cache_run v l with Some (r, v) => Some (a :: r, v) | None => None end
      end
  end.

Definition abs v : utxo_set := {| utxos := cache_contents v; utxo_best := cache_best v |}.

Lemma reads_abs v v' : reads v v' -> abs v' = abs v.
Proof. intros (_ & Hc & Hb & _). unfold abs. by rewrite Hc, Hb. Qed.

Lemma cache_step_refines v o : cache_inv v -> uint256_IsNull (hashBlock v) = false -> op_ok o ->
  exists v', cache_step v o = Some (fst (spec_step (abs v) o), v') /\ cache_inv v' /\ uint256_IsNull (hashBlock v') = false /\
    abs v' = snd (spec_step (abs v) o).
Proof.
  intros Hv Hn Ho. destruct o as [t | | h | t f |]; cbn [cache_step spec_step fst snd].
  - destruct (AccessCoins v t) as [c v1] eqn:E. destruct (AccessCoins_reads _ _ _ _ Hv E) as [Hr ->].
    exists v1. split_and!; [done | apply Hr | | by apply reads_abs]. destruct Hr as (_ & _ & _ & Hh). by rewrite Hh.
  - destruct (cache_GetBestBlock v) as [h v1] eqn:E. destruct (GetBestBlock_reads _ _ _ Hv E) as [Hr ->].
    exists v1. split_and!; [done | apply Hr | | by apply reads_abs]. destruct Hr as (_ & _ & _ & Hh). by rewrite Hh.
  - eexists. split; [reflexivity |]. cbn in Ho. split_and!; [done | done |]. unfold abs, cache_best. cbn [SetBestBlock hashBlock].
    by rewrite Ho.
  - destruct (ModifyCoins v t (fun c => (tt, f c))) as [a v1] eqn:E. destruct (ModifyCoins_spec _ _ _ _ _ Hv E) as (Hi & Hb & Hh & c & Hc & _ & Hm).
    exists v1. split_and!; [done | done | by rewrite Hh |]. unfold abs. rewrite Hb, Hm. f_equal. cbn [snd utxos].
    apply partial_alter_ext. intros x Hx. rewrite <- Hx, <- Hc. cbn in Ho. apply norm_proper, Cleanup_proper, Ho, norm_default.
  - destruct (Flush_spec v Hv Hn) as (v1 & -> & Hi & Hc & Hb & _ & _ & _ & Hh). exists v1.
    split_and!; [done | done | by rewrite Hh | unfold abs; by rewrite Hc, Hb].
Qed.

Lemma cache_run_refines l v : cache_inv v -> uint256_IsNull (hashBlock v) = false -> Forall op_ok l ->
  exists v', cache_run v l = Some (fst (spec_run (abs v) l), v') /\ cache_inv v' /\ uint256_IsNull (hashBlock v') = false /\
    abs v' = snd (spec_run (abs v) l).
Proof.
  intros Hv Hn Hl. revert v Hv Hn. induction Hl as [| o l Ho Hl IH]; intros v Hv Hn; [by exists v |]. cbn [cache_run spec_run].
  destruct (cache_step_refines v o Hv Hn Ho) as (v1 & -> & Hi & Hn1 & Ha). destruct (spec_step (abs v) o) as [a s]. cbn [fst snd] in *.
  destruct (IH v1 Hi Hn1) as (v2 & -> & Hi2 & Hn2 & Ha2). rewrite Ha in *. destruct (spec_run s l) as [r s']. by exists v2.
Qed.

(** ** Reachable caches *)

Inductive cache_moves : CCoinsViewCache V -> CCoinsViewCache V -> Prop :=
| move_access v t r v' : AccessCoins v t = (r, v') -> cache_moves v v'
| move_have v t r v' : cache_HaveCoins v t = (r, v') -> cache_moves v v'
| move_best v h v' : cache_GetBestBlock v = (h, v') -> cache_moves v v'
| move_set v h : cache_moves v (SetBestBlock v h)
| move_modify {A} v t (f : CCoins -> A * CCoins) a v' : ModifyCoins v t f = (a, v') -> cache_moves v v'
| move_batch v m h ok v' : entries_ok (cache_held v) (cache_contents v) m -> uint256_IsNull h = false ->
    cache_BatchWrite v m h = Some (ok, v') -> cache_moves v v'
| move_flush v ok v' : uint256_IsNull (hashBlock v) = false -> Flush v = Some (ok, v') -> cache_moves v v'.

Lemma cache_moves_inv v v' : cache_inv v -> cache_moves v v' -> cache_inv v'.
Proof.
  intros Hv M. destruct M as [v t r v' E | v t r v' E | v h v' E | v h | A v t f a v' E | v m h ok v' Hm Hh E | v ok v' Hh E].
  - by apply (AccessCoins_spec v t r v').
  - unfold cache_HaveCoins in E. destruct (FetchCoins v t) as [e v1] eqn:Ef. simplify_eq. by apply (FetchCoins_spec v t e v').
  - by apply (GetBestBlock_spec v h v').
  - exact Hv.
  - by apply (ModifyCoins_spec v t f a v').
  - destruct (cache_BatchWrite_spec v m h Hv Hm Hh) as (v1 & E1 & Hi & _). rewrite E in E1. by simplify_eq.
  - destruct (Flush_spec v Hv Hh) as (v1 & E1 & Hi & _). rewrite E in E1. by simplify_eq.
Qed.

Lemma cache_reach_inv v v' : cache_inv v -> rtc cache_moves v v' -> cache_inv v'.
Proof. intros Hv. induction 1; [done |]. eauto using cache_moves_inv. Qed.

(** however a cache over a lawful view is used (reads, modifications, writes from
    a cache above, flushes), the flags of its entries stay truthful: an entry not
    marked dirty is what the view below has, one marked fresh is not below; the
    assertion of [BatchWrite] never fails when the cache is flushed. *)
Theorem cache_flags_truthful (b : V) v : view_inv b -> rtc cache_moves (new_cache b) v ->
  (forall t e, cacheCoins v !! t = Some e ->
     (DIRTY e = false -> norm (coins e) = contents (base v) !! t) /\ (FRESH e = true -> contents (base v) !! t = None)) /\
  (uint256_IsNull (hashBlock v) = false -> exists v', Flush v = Some (true, v')).
Proof.
  intros Hb R. pose proof (cache_reach_inv _ _ (new_cache_inv b Hb) R) as Hv. split.
  - intros t e He. destruct Hv as [_ Hok]. by destruct (Hok t e He).
  - intros Hn. destruct (Flush_spec v Hv Hn) as (v' & ? & _). by exists v'.
Qed.

(** C4: a cache over any lawful view implements a finite map with a best block: a
    sequence of reads, modifications and flushes succeeds, gives the answers of the
    map and leaves its contents, whatever mixture of cached, fetched, fresh and
    flushed entries represents them. *)
Theorem cache_implements_map v (l : list cache_op) :
  cache_inv v -> uint256_IsNull (hashBlock v) = false -> Forall op_ok l ->
  exists v', cache_run v l = Some (fst (spec_run (abs v) l), v') /\ cache_inv v' /\ abs v' = snd (spec_run (abs v) l).
Proof. intros Hv Hn Hl. destruct (cache_run_refines l v Hv Hn Hl) as (v' & ? & ? & _ & ?). by exists v'. Qed.
End Runs.

(** ** The stack of the node: a scratch cache over the tip's cache over the database *)

(** C3: what a block does to its scratch cache reaches the disk: flushing the scratch
    cache into the tip's cache and that one into the database leaves in the database
    exactly the coins and the best block that the operations describe. *)
Theorem chainstate_reaches_disk (tip : CCoinsViewCache CCoinsViewDB) (h : bytes) (l : list cache_op) :
  cache_inv tip -> uint256_IsNull h = false -> Forall op_ok l ->
  exists r scratch scratch' tip', cache_run (new_cache tip) (OpSetBest h :: l) = Some (r, scratch) /\
    Flush scratch = Some (true, scratch') /\ Flush (base scratch') = Some (true, tip') /\
    let s := snd (spec_run {| utxos := cache_contents tip; utxo_best := h |} l) in
    db_coins (base tip') = utxos s /\ db_GetBestBlock (base tip') = utxo_best s.
Proof.
  intros Hv Hh Hl. set (v0 := SetBestBlock (new_cache tip) h).
  assert (Hv0 : cache_inv v0) by (apply (new_cache_inv tip), Hv).
  assert (Ha : abs v0 = {| utxos := cache_contents tip; utxo_best := h |}).
  { unfold abs, cache_best, v0. cbn [SetBestBlock hashBlock]. rewrite Hh. f_equal. apply overlay_empty. }
  destruct (cache_run_refines l v0 Hv0 Hh Hl) as (v1 & E1 & Hi1 & Hn1 & Ha1).
  destruct (Flush_spec v1 Hi1 Hn1) as (v2 & E2 & [Hb2 _] & _ & _ & _ & Hc2 & Hbest2 & _).
  assert (Hbest : cache_best v1 = hashBlock v1) by (unfold cache_best; by rewrite Hn1).
  assert (Hn2 : uint256_IsNull (hashBlock (base v2)) = false).
  { unfold Flush in E2. destruct (BatchWrite (base v1) (cacheCoins v1) (hashBlock v1)) as [[b c] |] eqn:Eb; [| done]. simplify_eq. cbn in Eb |- *.
    unfold cache_BatchWrite in Eb. destruct (batch_loop _ _); [| done]. by simplify_eq. }
  destruct (Flush_spec (base v2) Hb2 Hn2) as (t3 & E3 & _ & _ & _ & _ & Hc3 & Hbest3 & _).
  exists (OutDone :: fst (spec_run (abs v0) l)), v1, v2, t3. cbn [cache_run cache_step]. fold v0. rewrite E1. do 3 (split; [done |]).
  rewrite Ha in Ha1. rewrite <- Ha1. cbn zeta. unfold abs. cbn [utxos utxo_best]. split.
  - change (db_coins (base t3)) with (contents (base t3)). rewrite Hc3. exact Hc2.
  - change (db_GetBestBlock (base t3)) with (best (base t3)). rewrite Hbest3. rewrite Hbest, <- Hbest2.
    cbn [best cache_laws]. unfold cache_best. by rewrite Hn2.
Qed.

(** ** A small chain state *)

Definition sample_out (n : Z) : CTxOut := {| nValue := n; scriptPubKey := [OP_1]; nRounds := -10 |}.
Definition sample_coins : CCoins :=
  {| fCoinBase := false; fCoinStake := true; c_vout := [sample_out 5; sample_out 7]; c_nHeight := 3; c_nVersion := 1 |}.
Definition sample_db : CCoinsViewDB := {| db_coins := {[ [7] := sample_coins ]}; db_best := Some [1] |}.

Lemma sample_db_inv : db_inv sample_db.
Proof. apply map_Forall_singleton. reflexivity. Qed.

(** Spend everything, look, put other coins there, flush. *)
Definition sample_ops : list cache_op :=
  [OpModify [7] (fun _ => CCoins_empty); OpGet [7]; OpModify [8] (fun _ => sample_coins); OpFlush; OpSetBest [2]].

Lemma const_proper (c : CCoins) : Proper ((≡) ==> (≡)) (fun _ : CCoins => c).
Proof. by intros a b _. Qed.

Lemma sample_ops_ok : Forall op_ok sample_ops.
Proof. repeat constructor; cbn [op_ok]; apply const_proper. Qed.

Lemma cache_flags_truthful_witness : exists v : CCoinsViewCache CCoinsViewDB,
  cacheCoins v !! [7] = Some {| coins := sample_coins; DIRTY := false; FRESH := false |} /\
  db_coins (base v) !! [7] = Some sample_coins.
Proof.
  exists (snd (AccessCoins (new_cache sample_db) [7])). split; [vm_compute; reflexivity |].
  destruct (cache_flags_truthful sample_db (snd (AccessCoins (new_cache sample_db) [7]))) as [H _].
  - exact sample_db_inv.
  - apply rtc_once, (move_access _ [7] (Some sample_coins)). vm_compute. reflexivity.
  - destruct (H [7] {| coins := sample_coins; DIRTY := false; FRESH := false |}) as [<- _]; vm_compute; reflexivity.
Defined.

Lemma cache_implements_map_witness : exists v' : CCoinsViewCache CCoinsViewDB,
  option_map snd (cache_run (SetBestBlock (new_cache sample_db) [1]) sample_ops) = Some v' /\
  cache_contents v' !! [7] = None /\ cache_contents v' !! [8] = Some sample_coins.
Proof.
  destruct (cache_implements_map (SetBestBlock (new_cache sample_db) [1]) sample_ops) as (v' & E & _ & A).
  - apply (new_cache_inv sample_db), sample_db_inv.
  - reflexivity.
  - exact sample_ops_ok.
  - exists v'. rewrite E. change (cache_contents v') with (utxos (abs v')). rewrite A. split_and!; [done | vm_compute; reflexivity ..].
Defined.

Lemma chainstate_reaches_disk_witness : exists tip' : CCoinsViewCache CCoinsViewDB,
  db_coins (base tip') !! [8] = Some sample_coins /\ db_GetBestBlock (base tip') = [2].
Proof.
  destruct (chainstate_reaches_disk (new_cache sample_db) [1] sample_ops) as (r & s & s' & tip' & _ & _ & _ & Hc & Hb).
  - apply (new_cache_inv sample_db), sample_db_inv.
  - reflexivity.
  - exact sample_ops_ok.
  - exists tip'. rewrite Hc, Hb. vm_compute. split; reflexivity.
Defined.
