(* ===== verification/Mempool.v ===== *)
(** The memory pool ([txmempool.h], [txmempool.cpp]): the transactions that may go into
    the next block, the inputs they spend, and the view of the coins that includes them.

    An entry of [mapNextTx] points at a transaction inside [mapTx]; the pointer is modelled
    as the key of the map node it points into, and following it is undefined ([None]) once
    that node is erased. [double] values are a parameter. *)

From Stdlib Require Import ZArith Lia.
From stdpp Require Import base tactics list numbers option gmap fin_maps sorting.
From S2P Require Import Prelude Amount Hash Serialize Transaction Coins CoinsView.

(** The [double] values of priorities. *)
Class double_ops := { double : Type; dzero : double; dadd : double -> double -> double; dpositive : double -> bool }.

#[global] Instance COutPoint_countable : Countable COutPoint.
Proof.
  refine (inj_countable' (fun o => (op_hash o, op_n o)) (fun p => {| op_hash := p.1; op_n := p.2 |}) _). by intros [].
Defined.

(** [COutPoint::operator<] on outpoints of one transaction. *)
Definition outpoint_le (a b : COutPoint) : Prop := op_n a <= op_n b.
#[global] Instance outpoint_le_dec : RelDecision outpoint_le.
Proof. intros a b. unfold outpoint_le. apply _. Defined.

Section Mempool.
Context `{double_ops}.

Definition MEMPOOL_HEIGHT : Z := 0x7FFFFFFF.

Record CTxMemPoolEntry := {
  me_tx : CTransaction; me_nFee : Z; me_nTxSize : Z; me_nModSize : Z; me_nTime : Z; me_dPriority : double; me_nHeight : Z }.

Definition CTxMemPoolEntry_new (tx : CTransaction) (nFee nTime : Z) (dPriority : double) (nHeight : Z) : CTxMemPoolEntry :=
  let nTxSize := zlen (Serialize_CTransaction tx) in
  {| me_tx := tx; me_nFee := nFee; me_nTxSize := nTxSize; me_nModSize := CalculateModifiedSize tx nTxSize;
     me_nTime := nTime; me_dPriority := dPriority; me_nHeight := nHeight |}.

(** [ptx] is the key of the entry whose transaction is pointed at. *)
Record CInPoint := { ptx : bytes; in_n : Z }.

Record CTxMemPool := {
  mapTx : gmap bytes CTxMemPoolEntry;
  mapNextTx : gmap COutPoint CInPoint;
  mapDeltas : gmap bytes (double * Z);
  nTransactionsUpdated : Z;
  totalTxSize : Z }.

Definition CTxMemPool_new : CTxMemPool :=
  {| mapTx := ∅; mapNextTx := ∅; mapDeltas := ∅; nTransactionsUpdated := 0; totalTxSize := 0 |}.

(** [it->second.ptx] *)
Definition deref (pool : CTxMemPool) (p : CInPoint) : option CTransaction := me_tx <$> mapTx pool !! ptx p.

Definition AddTransactionsUpdated (pool : CTxMemPool) (n : Z) : CTxMemPool :=
  {| mapTx := mapTx pool; mapNextTx := mapNextTx pool; mapDeltas := mapDeltas pool;
     nTransactionsUpdated := u32 (nTransactionsUpdated pool + n); totalTxSize := totalTxSize pool |}.

(** [for (i = 0; i < tx.vin.size(); i++) mapNextTx[tx.vin[i].prevout] = CInPoint(&tx, i)] *)
Fixpoint mark_inputs (next : gmap COutPoint CInPoint) (hash : bytes) (i : Z) (ins : list CTxIn) : gmap COutPoint CInPoint :=
  match ins with
  | [] => next
  | txin :: ins => mark_inputs (<[prevout txin := {| ptx := hash; in_n := i |}]> next) hash (i + 1) ins
  end.

Definition addUnchecked (pool : CTxMemPool) (hash : bytes) (entry : CTxMemPoolEntry) : CTxMemPool :=
  {| mapTx := <[hash := entry]> (mapTx pool);
     mapNextTx := if negb (HasZerocoinSpendInputs (me_tx entry)) then mark_inputs (mapNextTx pool) hash 0 (vin (me_tx entry)) else mapNextTx pool;
     mapDeltas := mapDeltas pool;
     nTransactionsUpdated := u32 (nTransactionsUpdated pool + 1);
     totalTxSize := u64 (totalTxSize pool + me_nTxSize entry) |}.

(** The spenders of the outputs of a transaction, pushed to [txToRemove]. *)
Fixpoint spenders (pool : CTxMemPool) (hash : bytes) (i : Z) (outs : nat) : option (list bytes) :=
  match outs with
  | O => Some []
  | S outs =>
      match mapNextTx pool !! {| op_hash := hash; op_n := i |} with
      | None => spenders pool hash (i + 1) outs
      | Some p => tx ← deref pool p; l ← spenders pool hash (i + 1) outs; Some (CTransaction_GetHash tx :: l)
      end
  end.

Definition unmark_inputs (next : gmap COutPoint CInPoint) (ins : list CTxIn) : gmap COutPoint CInPoint :=
  foldl (fun m txin => delete (prevout txin) m) next ins.

(** [while (!txToRemove.empty())]: the pool and the transactions added to [removed]. *)
Fixpoint remove_loop (fuel : nat) (pool : CTxMemPool) (txToRemove : list bytes) (fRecursive : bool) : option (CTxMemPool * list CTransaction) :=
  match fuel, txToRemove with
  | S fuel, hash :: rest =>
      match mapTx pool !! hash with
      | None => remove_loop fuel pool rest fRecursive
      | Some e =>
          let tx := me_tx e in
          children ← (if fRecursive then spenders pool hash 0 (length (vout tx)) else Some []);
          let pool' :=
            {| mapTx := delete hash (mapTx pool); mapNextTx := unmark_inputs (mapNextTx pool) (vin tx); mapDeltas := mapDeltas pool;
               nTransactionsUpdated := u32 (nTransactionsUpdated pool + 1); totalTxSize := u64 (totalTxSize pool - me_nTxSize e) |} in
          '(pool', removed) ← remove_loop fuel pool' (rest ++ children) fRecursive;
          Some (pool', tx :: removed)
      end
  | _, _ => Some (pool, [])
  end.

(** Every round takes one hash off the queue and adds at most one per output of a
    transaction that leaves the pool. *)
Definition remove_fuel (pool : CTxMemPool) (queue : list bytes) : nat :=
  length queue + map_fold (fun _ e n => length (vout (me_tx e)) + n)%nat 0%nat (mapTx pool).

Definition remove (pool : CTxMemPool) (origTx : CTransaction) (fRecursive : bool) : option (CTxMemPool * list CTransaction) :=
  let hash := CTransaction_GetHash origTx in
  queue ← (if fRecursive && bool_decide (mapTx pool !! hash = None)
           then l ← spenders pool hash 0 (length (vout origTx)); Some (hash :: l)
           else Some [hash]);
  remove_loop (remove_fuel pool queue) pool queue fRecursive.

(** The loop over [transactionsToRemove]. *)
Fixpoint remove_all (pool : CTxMemPool) (l : list CTransaction) : option CTxMemPool :=
  match l with
  | [] => Some pool
  | tx :: l => '(pool, _) ← remove pool tx true; remove_all pool l
  end.

(** The test of one input in [removeCoinbaseSpends]; [access] is [pcoins->AccessCoins]. *)
Definition premature (pool : CTxMemPool) (access : bytes -> option CCoins) (nMemPoolHeight nCoinbaseMaturity : Z) (txin : CTxIn) : bool :=
  if bool_decide (is_Some (mapTx pool !! op_hash (prevout txin))) then false
  else match access (op_hash (prevout txin)) with
       | None => true
       | Some coins => (fCoinBase coins || fCoinStake coins) && (u32 (nMemPoolHeight - c_nHeight coins) <? u32 nCoinbaseMaturity)
       end.

(** The loop over the inputs of one transaction, which ends at the first such input;
    [None] is the failed assertion on the coins under [fSanityCheck]. *)
Fixpoint spends_premature (fSanityCheck : bool) (pool : CTxMemPool) (access : bytes -> option CCoins) (nMemPoolHeight nCoinbaseMaturity : Z) (ins : list CTxIn) : option bool :=
  match ins with
  | [] => Some false
  | txin :: ins =>
      if fSanityCheck && bool_decide (mapTx pool !! op_hash (prevout txin) = None) && bool_decide (access (op_hash (prevout txin)) = None) then None
      else if premature pool access nMemPoolHeight nCoinbaseMaturity txin then Some true
      else spends_premature fSanityCheck pool access nMemPoolHeight nCoinbaseMaturity ins
  end.

(** The loop over the entries. *)
Fixpoint premature_txs (fSanityCheck : bool) (pool : CTxMemPool) (access : bytes -> option CCoins) (nMemPoolHeight nCoinbaseMaturity : Z) (l : list CTransaction) : option (list CTransaction) :=
  match l with
  | [] => Some []
  | tx :: l =>
      b ← spends_premature fSanityCheck pool access nMemPoolHeight nCoinbaseMaturity (vin tx);
      l ← premature_txs fSanityCheck pool access nMemPoolHeight nCoinbaseMaturity l;
      Some (if b : bool then tx :: l else l)
  end.

Definition removeCoinbaseSpends (fSanityCheck : bool) (pool : CTxMemPool) (access : bytes -> option CCoins) (nMemPoolHeight nCoinbaseMaturity : Z) : option CTxMemPool :=
  transactionsToRemove ← premature_txs fSanityCheck pool access nMemPoolHeight nCoinbaseMaturity (map (fun kv => me_tx kv.2) (map_to_list (mapTx pool)));
  remove_all pool transactionsToRemove.

(** The loop over the inputs; transactions are equal when their hashes are. *)
Fixpoint remove_conflicts (pool : CTxMemPool) (tx : CTransaction) (ins : list CTxIn) : option (CTxMemPool * list CTransaction) :=
  match ins with
  | [] => Some (pool, [])
  | txin :: ins =>
      '(pool, removed) ←
        match mapNextTx pool !! prevout txin with
        | None => Some (pool, [])
        | Some p =>
            txConflict ← deref pool p;
            if bool_decide (CTransaction_GetHash txConflict = CTransaction_GetHash tx) then Some (pool, []) else remove pool txConflict true
        end;
      '(pool, more) ← remove_conflicts pool tx ins;
      Some (pool, removed ++ more)
  end.
Definition removeConflicts (pool : CTxMemPool) (tx : CTransaction) : option (CTxMemPool * list CTransaction) := remove_conflicts pool tx (vin tx).

Definition ClearPrioritisation (pool : CTxMemPool) (hash : bytes) : CTxMemPool :=
  {| mapTx := mapTx pool; mapNextTx := mapNextTx pool; mapDeltas := delete hash (mapDeltas pool);
     nTransactionsUpdated := nTransactionsUpdated pool; totalTxSize := totalTxSize pool |}.

(** The pool after a block, and [conflicts]. The fee estimator sees the entries of the
    block's transactions first. *)
Fixpoint removeForBlock (pool : CTxMemPool) (vtx : list CTransaction) : option (CTxMemPool * list CTransaction) :=
  match vtx with
  | [] => Some (pool, [])
  | tx :: vtx =>
      '(pool, _) ← remove pool tx false;
      '(pool, conflicts) ← removeConflicts pool tx;
      '(pool, more) ← removeForBlock (ClearPrioritisation pool (CTransaction_GetHash tx)) vtx;
      Some (pool, conflicts ++ more)
  end.

Definition mempool_clear (pool : CTxMemPool) : CTxMemPool :=
  {| mapTx := ∅; mapNextTx := ∅; mapDeltas := mapDeltas pool; nTransactionsUpdated := u32 (nTransactionsUpdated pool + 1); totalTxSize := 0 |}.

Definition exists_tx (pool : CTxMemPool) (hash : bytes) : bool := bool_decide (is_Some (mapTx pool !! hash)).
Definition lookup_tx (pool : CTxMemPool) (hash : bytes) : option CTransaction := me_tx <$> mapTx pool !! hash.
Definition queryHashes (pool : CTxMemPool) : list bytes := (map_to_list (mapTx pool)).*1.
Definition getTransactions (pool : CTxMemPool) : gset bytes := dom (mapTx pool).

(** The outpoints of [mapNextTx] with the hash, in order, are spent from the coins. *)
Definition pruneSpent (pool : CTxMemPool) (hashTx : bytes) (coins : CCoins) : CCoins :=
  let outs := List.filter (fun o => bool_decide (op_hash o = hashTx)) (map_to_list (mapNextTx pool)).*1 in
  foldl (fun c o => match Spend c o with Some (c, _) => c | None => c end) coins (merge_sort outpoint_le outs).

Definition PrioritiseTransaction (pool : CTxMemPool) (hash : bytes) (dPriorityDelta : double) (nFeeDelta : Z) : CTxMemPool :=
  let deltas := default (dzero, 0) (mapDeltas pool !! hash) in
  {| mapTx := mapTx pool; mapNextTx := mapNextTx pool;
     mapDeltas := <[hash := (dadd deltas.1 dPriorityDelta, s64 (deltas.2 + nFeeDelta))]> (mapDeltas pool);
     nTransactionsUpdated := nTransactionsUpdated pool; totalTxSize := totalTxSize pool |}.

Definition ApplyDeltas (pool : CTxMemPool) (hash : bytes) (dPriorityDelta : double) (nFeeDelta : Z) : double * Z :=
  match mapDeltas pool !! hash with
  | None => (dPriorityDelta, nFeeDelta)
  | Some deltas => (dadd dPriorityDelta deltas.1, s64 (nFeeDelta + deltas.2))
  end.

(** ** The view of the coins with the pool *)

Record CCoinsViewMemPool (V : Type) := { mp_base : V; mp_pool : CTxMemPool }.
End Mempool.
Arguments mp_base {_ V} _.
Arguments mp_pool {_ V} _.

#[global] Instance mempool_ops `{double_ops} {V} `{CCoinsView V} : CCoinsView (CCoinsViewMemPool V) := {
  GetCoins v t :=
    match lookup_tx (mp_pool v) t with
    | Some tx => (Some (FromTx tx MEMPOOL_HEIGHT), v)
    | None =>
        let (c, b) := GetCoins (mp_base v) t in
        (match c with Some c => if IsPruned c then None else Some c | None => None end, {| mp_base := b; mp_pool := mp_pool v |})
    end;
  HaveCoins v t :=
    if exists_tx (mp_pool v) t then (true, v)
    else let (r, b) := HaveCoins (mp_base v) t in (r, {| mp_base := b; mp_pool := mp_pool v |});
  GetBestBlock v := let (h, b) := GetBestBlock (mp_base v) in (h, {| mp_base := b; mp_pool := mp_pool v |});
  BatchWrite v m h :=
    match BatchWrite (mp_base v) m h with
    | Some (r, b) => Some (r, {| mp_base := b; mp_pool := mp_pool v |})
    | None => None
    end
}.
