(* ===== verification/MempoolFacts.v ===== *)
(** Invariants of the memory pool: the two maps agree and no pointer dangles, removal
    takes exactly the descendants, and connecting a block leaves a pool that fits the
    coins after the block. *)

From Stdlib Require Import ZArith Lia.
From stdpp Require Import base tactics list numbers option gmap fin_maps relations.
From S2P Require Import Prelude Amount Hash Serialize Transaction Coins CoinsView Mempool.

#[local] Opaque CTransaction_GetHash.

Section Facts.
Context `{double_ops}.
Implicit Types (pool : CTxMemPool).

(** ** The invariant *)

Definition total_size (m : gmap bytes CTxMemPoolEntry) : Z := map_fold (fun _ e n => me_nTxSize e + n) 0 m.

(** Entries are under the hash of their transaction, [mapNextTx] has exactly their inputs,
    and the total of the sizes is right. Entries without zerocoin inputs; the code keeps the
    others out of [mapNextTx]. *)
Record pool_ok pool : Prop := {
  pk_hash : forall h e, mapTx pool !! h = Some e -> CTransaction_GetHash (me_tx e) = h;
  pk_plain : forall h e, mapTx pool !! h = Some e -> HasZerocoinSpendInputs (me_tx e) = false;
  pk_next : forall o p, mapNextTx pool !! o = Some p ->
    exists e i, mapTx pool !! ptx p = Some e /\ 0 <= in_n p /\ vin (me_tx e) !! Z.to_nat (in_n p) = Some i /\ prevout i = o;
  pk_marked : forall h e k i, mapTx pool !! h = Some e -> vin (me_tx e) !! k = Some i ->
    mapNextTx pool !! prevout i = Some {| ptx := h; in_n := Z.of_nat k |};
  pk_size : totalTxSize pool = u64 (total_size (mapTx pool)) }.

Lemma pool_ok_new : pool_ok CTxMemPool_new.
Proof. constructor; simpl; try (intros *; rewrite lookup_empty; done). done. Qed.

Lemma pool_ok_clear pool : pool_ok (mempool_clear pool).
Proof. constructor; simpl; try (intros *; rewrite lookup_empty; done). done. Qed.

(** The invariant does not read the deltas nor the counter. *)
Lemma pool_ok_same pool pool' : mapTx pool' = mapTx pool -> mapNextTx pool' = mapNextTx pool -> totalTxSize pool' = totalTxSize pool ->
  pool_ok pool -> pool_ok pool'.
Proof. intros E1 E2 E3 [A B C D E]. constructor; rewrite ?E1, ?E2, ?E3; done. Qed.

(** ** Adding *)

Definition prevouts (tx : CTransaction) : list COutPoint := map prevout (vin tx).

Lemma elem_of_prevouts tx o : o ∈ prevouts tx <-> exists k i, vin tx !! k = Some i /\ prevout i = o.
Proof.
  unfold prevouts. rewrite list_elem_of_fmap. split.
  - intros (i & -> & Hi). apply list_elem_of_lookup_1 in Hi as [k Hk]. eauto.
  - intros (k & i & Hk & <-). exists i. split; [done|]. by eapply list_elem_of_lookup_2.
Qed.

Lemma mark_inputs_other ins : forall next hash i o, o ∉ map prevout ins -> mark_inputs next hash i ins !! o = next !! o.
Proof.
  induction ins as [|x ins IH]; intros next hash i o Ho; [done|]. cbn [map mark_inputs] in *. apply not_elem_of_cons in Ho as [Ho1 Ho2].
  rewrite IH by done. by rewrite lookup_insert_ne.
Qed.

Lemma mark_inputs_at ins : forall next hash i k x, NoDup (map prevout ins) -> ins !! k = Some x ->
  mark_inputs next hash i ins !! prevout x = Some {| ptx := hash; in_n := i + Z.of_nat k |}.
Proof.
  induction ins as [|y ins IH]; intros next hash i k x Hnd Hk; [done|]. cbn [map mark_inputs] in *. apply NoDup_cons in Hnd as [Hy Hnd].
  destruct k as [|k]; simpl in Hk.
  - simplify_eq. rewrite mark_inputs_other by done. rewrite lookup_insert_eq, Z.add_0_r. done.
  - rewrite (IH _ _ _ k) by done. do 2 f_equal. lia.
Qed.

Lemma pool_ok_add pool hash entry : pool_ok pool -> mapTx pool !! hash = None -> CTransaction_GetHash (me_tx entry) = hash ->
  HasZerocoinSpendInputs (me_tx entry) = false -> NoDup (prevouts (me_tx entry)) ->
  (forall o, o ∈ prevouts (me_tx entry) -> mapNextTx pool !! o = None) -> pool_ok (addUnchecked pool hash entry).
Proof.
  intros [Hh Hp Hn Hm Hs] Hfresh Hhash Hzc Hnd Hnew. unfold addUnchecked. rewrite Hzc. constructor; simpl.
  - intros h e He. apply lookup_insert_Some in He as [[<- <-]|[_ He]]; eauto.
  - intros h e He. apply lookup_insert_Some in He as [[<- <-]|[_ He]]; eauto.
  - intros o p Ho. destruct (decide (o ∈ prevouts (me_tx entry))) as [Hin|Hin].
    + apply elem_of_prevouts in Hin as (k & i & Hk & <-). rewrite (mark_inputs_at _ _ _ _ k) in Ho by done. injection Ho as <-.
      exists entry, i. cbn [ptx in_n]. rewrite lookup_insert_eq, Z.add_0_l, Nat2Z.id. split_and!; done || lia.
    + rewrite mark_inputs_other in Ho by done. destruct (Hn _ _ Ho) as (e & i & He & ?). exists e, i. split; [|done].
      rewrite lookup_insert_ne; [done|]. congruence.
  - intros h e k i He Hi. apply lookup_insert_Some in He as [[<- <-]|[Hne He]].
    + by rewrite (mark_inputs_at _ _ _ _ k).
    + rewrite mark_inputs_other; [by eapply Hm|]. intros Hin. specialize (Hnew _ Hin). rewrite (Hm _ _ _ _ He Hi) in Hnew. done.
  - unfold total_size. rewrite map_fold_insert_L by (done || lia). rewrite Hs. unfold u64, total_size.
    rewrite Z.add_mod_idemp_l by lia. f_equal. lia.
Qed.

(** ** Removing one entry *)

Lemma unmark_inputs_lookup ins : forall next o, unmark_inputs next ins !! o = if decide (o ∈ map prevout ins) then None else next !! o.
Proof.
  unfold unmark_inputs. induction ins as [|x ins IH]; intros next o; simpl; [done|]. rewrite IH.
  destruct (decide (o ∈ map prevout ins)) as [Hi|Hi], (decide (o ∈ prevout x :: map prevout ins)) as [Hj|Hj]; try done.
  - exfalso. apply Hj. by apply elem_of_cons; right.
  - apply elem_of_cons in Hj as [->|Hj]; [apply lookup_delete_eq|done].
  - rewrite lookup_delete_ne; [done|]. intros <-. apply Hj. apply elem_of_cons. by left.
Qed.

(** The pool without an entry. *)
Definition erase pool hash (e : CTxMemPoolEntry) : CTxMemPool :=
  {| mapTx := delete hash (mapTx pool); mapNextTx := unmark_inputs (mapNextTx pool) (vin (me_tx e)); mapDeltas := mapDeltas pool;
     nTransactionsUpdated := u32 (nTransactionsUpdated pool + 1); totalTxSize := u64 (totalTxSize pool - me_nTxSize e) |}.

Lemma pool_ok_erase pool hash e : pool_ok pool -> mapTx pool !! hash = Some e -> pool_ok (erase pool hash e).
Proof.
  intros [Hh Hp Hn Hm Hs] He. constructor; simpl.
  - intros h x Hx. apply lookup_delete_Some in Hx as [_ Hx]. eauto.
  - intros h x Hx. apply lookup_delete_Some in Hx as [_ Hx]. eauto.
  - intros o p Ho. rewrite unmark_inputs_lookup in Ho. destruct (decide _) as [|Hno]; [done|].
    destruct (Hn _ _ Ho) as (x & i & Hx & Hk & Hi & Hpo). exists x, i. split; [|done].
    rewrite lookup_delete_ne; [done|]. intros Heq. apply Hno. rewrite <- Hpo. apply list_elem_of_fmap. exists i. split; [done|].
    rewrite <- Heq in Hx. simplify_eq. by eapply list_elem_of_lookup_2.
  - intros h x k i Hx Hi. apply lookup_delete_Some in Hx as [Hne Hx]. rewrite unmark_inputs_lookup.
    destruct (decide _) as [Hin|]; [|by eapply Hm]. exfalso. apply Hne.
    apply elem_of_prevouts in Hin as (k' & i' & Hk' & Heq). pose proof (Hm _ _ _ _ He Hk') as H1. rewrite Heq in H1.
    pose proof (Hm _ _ _ _ Hx Hi) as H2'. congruence.
  - assert (Ht : total_size (mapTx pool) = me_nTxSize e + total_size (delete hash (mapTx pool))).
    { unfold total_size. rewrite (map_fold_delete_L _ _ hash e) by (done || lia). done. }
    rewrite Hs. unfold u64. rewrite Zminus_mod_idemp_l. f_equal. lia.
Qed.

(** ** Descendants *)

(** [b] spends an output of [a], both in the pool. *)
Definition child pool (a b : bytes) : Prop :=
  exists ea eb i, mapTx pool !! a = Some ea /\ mapTx pool !! b = Some eb /\ i ∈ vin (me_tx eb) /\
    op_hash (prevout i) = a /\ 0 <= op_n (prevout i) < Z.of_nat (length (vout (me_tx ea))).

Lemma deref_ok pool o p : pool_ok pool -> mapNextTx pool !! o = Some p -> exists e, mapTx pool !! ptx p = Some e /\ deref pool p = Some (me_tx e) /\ CTransaction_GetHash (me_tx e) = ptx p.
Proof.
  intros Hok Ho. destruct (pk_next _ Hok _ _ Ho) as (e & i & He & _). exists e. unfold deref. rewrite He. split_and!; try done. by eapply pk_hash.
Qed.

Lemma spenders_spec pool hash n : pool_ok pool -> forall i, exists l, spenders pool hash i n = Some l /\ (length l <= n)%nat /\
  forall b, b ∈ l <-> exists k p, i <= k < i + Z.of_nat n /\ mapNextTx pool !! {| op_hash := hash; op_n := k |} = Some p /\ ptx p = b.
Proof.
  intros Hok. induction n as [|n IH]; intros i; cbn [spenders].
  { exists []. split_and!; try done. intros b. split; [intros Hb; by apply not_elem_of_nil in Hb|intros (k & p & ? & _); lia]. }
  destruct (IH (i + 1)) as (l & Hl & Hlen & Hel). destruct (mapNextTx pool !! {| op_hash := hash; op_n := i |}) as [p|] eqn:Ep.
  - destruct (deref_ok _ _ _ Hok Ep) as (e & He & -> & Hh). cbn [mbind option_bind]. rewrite Hl. cbn [mbind option_bind].
    exists (CTransaction_GetHash (me_tx e) :: l). split_and!; [done|simpl; lia|]. intros b. rewrite elem_of_cons, Hel, Hh. split.
    + intros [->|(k & q & ? & ? & ?)]; [exists i, p; split_and!; lia || done|exists k, q; split_and!; lia || done].
    + intros (k & q & Hk & Hq & <-). destruct (decide (k = i)) as [->|]; [left; congruence|right; exists k, q; split_and!; lia || done].
  - exists l. split_and!; [done|lia|]. intros b. rewrite Hel. split.
    + intros (k & q & ? & ? & ?). exists k, q. split_and!; lia || done.
    + intros (k & q & Hk & Hq & <-). destruct (decide (k = i)) as [->|]; [congruence|exists k, q; split_and!; lia || done].
Qed.

Lemma spenders_child pool hash e l b : pool_ok pool -> mapTx pool !! hash = Some e ->
  spenders pool hash 0 (length (vout (me_tx e))) = Some l -> b ∈ l <-> child pool hash b.
Proof.
  intros Hok He Hl. destruct (spenders_spec pool hash (length (vout (me_tx e))) Hok 0) as (l' & Hl' & _ & Hel). simplify_eq.
  rewrite Hel. split.
  - intros (k & p & Hk & Hp & <-). destruct (pk_next _ Hok _ _ Hp) as (eb & i & Hb & _ & Hi & Hpo).
    exists e, eb, i. rewrite Hpo. split_and!; try done; [by eapply list_elem_of_lookup_2|simpl; lia|simpl; lia].
  - intros (ea & eb & i & Ha & Hb & Hi & Hhash & Hr). simplify_eq. apply list_elem_of_lookup_1 in Hi as [k Hk].
    pose proof (pk_marked _ Hok _ _ _ _ Hb Hk) as Hm. exists (op_n (prevout i)), {| ptx := b; in_n := Z.of_nat k |}.
    split_and!; [lia|lia| |done]. by destruct (prevout i).
Qed.

(** ** Removing with all descendants *)

(** The hash is one of the queue or descends from one. *)
Definition reached pool (queue : list bytes) (h : bytes) : Prop := exists a, a ∈ queue /\ rtc (child pool) a h.

Lemma child_erase pool hash e a b : child (erase pool hash e) a b <-> child pool a b /\ a <> hash /\ b <> hash.
Proof.
  split.
  - intros (ea & eb & i & Ha & Hb & ?). simpl in *. apply lookup_delete_Some in Ha as [? Ha], Hb as [? Hb].
    split; [by exists ea, eb, i|split; congruence].
  - intros [(ea & eb & i & Ha & Hb & ?) [? ?]]. exists ea, eb, i. simpl. rewrite !lookup_delete_ne by congruence. done.
Qed.

(** A path either avoids an entry or goes on from it for the last time. *)
Lemma path_cut pool hash e a b : rtc (child pool) a b -> b <> hash ->
  rtc (child (erase pool hash e)) a b \/ exists c, child pool hash c /\ rtc (child (erase pool hash e)) c b.
Proof.
  intros Hp. revert b Hp. apply (rtc_ind_r (fun b => b <> hash -> _ \/ exists c, child pool hash c /\ rtc (child (erase pool hash e)) c b) a); [by left|].
  intros b c _ Hc IH Hne.
  destruct (decide (b = hash)) as [->|Hb]; [right; by exists c|].
  destruct (IH Hb) as [Hp|(d & Hd & Hp)]; [left|right; exists d; split; [done|]];
    (eapply rtc_r; [done|]); apply child_erase; done.
Qed.

Lemma reached_erase pool hash e children rest h : pool_ok pool -> mapTx pool !! hash = Some e ->
  (forall b, b ∈ children <-> child pool hash b) -> h <> hash ->
  reached pool (hash :: rest) h <-> reached (erase pool hash e) (rest ++ children) h.
Proof.
  intros Hok He Hch Hne. assert (Hsub : forall a b, rtc (child (erase pool hash e)) a b -> rtc (child pool) a b).
  { intros a b. apply rtc_subrel. intros x y Hxy. by apply child_erase in Hxy as [? _]. }
  split.
  - intros (a & Ha & Hp). destruct (path_cut _ _ e _ _ Hp Hne) as [Hp'|(c & Hc & Hp')].
    + apply elem_of_cons in Ha as [->|Ha]; [|exists a; split; [apply elem_of_app; by left|done]].
      inversion Hp' as [|? b ? Hb]; subst; [done|]. apply child_erase in Hb as (_ & ? & _). done.
    + exists c. split; [apply elem_of_app; right; by apply Hch|done].
  - intros (a & Ha & Hp). apply elem_of_app in Ha as [Ha|Ha]; [exists a; split; [apply elem_of_cons; by right|by apply Hsub]|].
    exists hash. split; [apply elem_of_cons; by left|]. eapply rtc_l; [by apply Hch|by apply Hsub].
Qed.

Lemma reached_absent pool hash rest h : mapTx pool !! hash = None -> is_Some (mapTx pool !! h) -> reached pool (hash :: rest) h <-> reached pool rest h.
Proof.
  intros Hn Hs. split; [|intros (a & Ha & ?); exists a; split; [apply elem_of_cons; by right|done]].
  intros (a & Ha & Hp). apply elem_of_cons in Ha as [->|Ha]; [|by exists a]. exfalso.
  inversion Hp as [|? b ? Hb]; subst; [by rewrite Hn in Hs; destruct Hs|]. destruct Hb as (ea & ? & ? & Hea & _). congruence.
Qed.

Lemma fuel_erase pool hash e queue : mapTx pool !! hash = Some e ->
  (remove_fuel (erase pool hash e) queue + length (vout (me_tx e)) = remove_fuel pool queue)%nat.
Proof. intros He. unfold remove_fuel. simpl. rewrite (map_fold_delete_L _ _ hash e (mapTx pool)) by (done || lia). lia. Qed.

(** The result of a removal: the entries that stay are those not taken. *)
Definition removes pool (taken : bytes -> Prop) pool' (removed : list CTransaction) : Prop :=
  pool_ok pool' /\ mapDeltas pool' = mapDeltas pool /\
  (forall h e, mapTx pool' !! h = Some e <-> mapTx pool !! h = Some e /\ ~ taken h) /\
  (forall tx, tx ∈ removed <-> exists h e, mapTx pool !! h = Some e /\ taken h /\ tx = me_tx e).

Lemma removes_erase pool hash e (taken taken' : bytes -> Prop) pool' removed : mapTx pool !! hash = Some e -> taken hash ->
  (forall h, h <> hash -> taken h <-> taken' h) -> removes (erase pool hash e) taken' pool' removed -> removes pool taken pool' (me_tx e :: removed).
Proof.
  intros He Ht Htt (Hok & Hd & Hm & Hr). split_and!; [done|done| |].
  - intros h x. rewrite Hm. simpl. rewrite lookup_delete_Some. split.
    + intros [[Hne Hx] Hn]. split; [done|]. by rewrite Htt.
    + intros [Hx Hn]. assert (hash <> h) by (intros ->; done). split; [done|]. by rewrite <- Htt.
  - intros tx. rewrite elem_of_cons, Hr. simpl. split.
    + intros [->|(h & x & Hx & Hth & ->)]; [by exists hash, e|]. apply lookup_delete_Some in Hx as [Hne Hx].
      exists h, x. split_and!; try done. apply Htt; [congruence|done].
    + intros (h & x & Hx & Hth & ->). destruct (decide (h = hash)) as [->|Hne]; [left; congruence|right].
      exists h, x. rewrite lookup_delete_ne by congruence. split_and!; try done. by apply Htt.
Qed.

Lemma removes_iff pool (taken taken' : bytes -> Prop) pool' removed :
  (forall h, is_Some (mapTx pool !! h) -> taken h <-> taken' h) -> removes pool taken' pool' removed -> removes pool taken pool' removed.
Proof.
  intros Htt (Hok & Hd & Hm & Hr). split_and!; [done|done| |].
  - intros h x. rewrite Hm. split; intros [Hx Hn]; (split; [done|]); rewrite Htt in * by eauto; done.
  - intros tx. rewrite Hr. split; intros (h & x & Hx & Hth & ->); exists h, x; (split_and!; try done); apply Htt; eauto.
Qed.

Lemma remove_loop_recursive fuel : forall pool queue, pool_ok pool -> (remove_fuel pool queue <= fuel)%nat ->
  exists pool' removed, remove_loop fuel pool queue true = Some (pool', removed) /\ removes pool (reached pool queue) pool' removed.
Proof.
  induction fuel as [|fuel IH]; intros pool queue Hok Hf; (destruct queue as [|hash rest]; [exists pool, []; split; [done|]|]).
  1, 3: split_and!; try done; [intros h e; split; [|by intros []]; intros He; split; [done|]; intros (a & Ha & _); by apply not_elem_of_nil in Ha|];
        intros tx; split; [intros Htx; by apply not_elem_of_nil in Htx|intros (h & e & _ & (a & Ha & _) & _); by apply not_elem_of_nil in Ha].
  { unfold remove_fuel in Hf. simpl in Hf. lia. }
  cbn [remove_loop]. destruct (mapTx pool !! hash) as [e|] eqn:He.
  - destruct (spenders_spec pool hash (length (vout (me_tx e))) Hok 0) as (children & Hch & Hlen & _).
    rewrite Hch. cbn [mbind option_bind]. fold (erase pool hash e).
    destruct (IH (erase pool hash e) (rest ++ children)) as (pool' & removed & Hrun & Hres).
    { by apply pool_ok_erase. }
    { pose proof (fuel_erase pool hash e (hash :: rest) He) as Hfe. unfold remove_fuel in *. rewrite length_app. simpl length in *. lia. }
    rewrite Hrun. cbn [mbind option_bind]. exists pool', (me_tx e :: removed). split; [done|].
    eapply removes_erase; [done| |intros h Hne; by eapply reached_erase; [| |intros b; by eapply spenders_child|]|done].
    exists hash. split; [apply elem_of_cons; by left|done].
  - destruct (IH pool rest Hok) as (pool' & removed & Hrun & Hres); [unfold remove_fuel in *; simpl in Hf; lia|].
    exists pool', removed. split; [done|]. eapply removes_iff; [|done]. intros h Hs. by apply reached_absent.
Qed.

(** What removing a transaction takes: itself and what descends from it or spends it. *)
Definition doomed pool (tx : CTransaction) (h : bytes) : Prop :=
  reached pool [CTransaction_GetHash tx] h \/
  (mapTx pool !! CTransaction_GetHash tx = None /\
   exists a k p, 0 <= k < Z.of_nat (length (vout tx)) /\ mapNextTx pool !! {| op_hash := CTransaction_GetHash tx; op_n := k |} = Some p /\
     ptx p = a /\ rtc (child pool) a h).

Lemma remove_recursive pool tx : pool_ok pool -> exists pool' removed, remove pool tx true = Some (pool', removed) /\ removes pool (doomed pool tx) pool' removed.
Proof.
  intros Hok. unfold remove. cbn [andb]. destruct (decide (mapTx pool !! CTransaction_GetHash tx = None)) as [Hn|Hn].
  - rewrite bool_decide_eq_true_2 by done. destruct (spenders_spec pool (CTransaction_GetHash tx) (length (vout tx)) Hok 0) as (l & -> & _ & Hl).
    cbn [mbind option_bind]. destruct (remove_loop_recursive _ pool (CTransaction_GetHash tx :: l) Hok (le_n _)) as (pool' & removed & -> & Hres).
    exists pool', removed. split; [done|]. eapply removes_iff; [|done]. intros h Hs. rewrite reached_absent by done. split.
    + intros [Hr|(_ & a & k & p & Hk & Hp & <- & Hr)].
      * apply reached_absent in Hr; [|done|done]. destruct Hr as (a & Ha & _). by apply not_elem_of_nil in Ha.
      * exists (ptx p). split; [apply Hl; exists k, p; split_and!; lia || done|done].
    + intros (a & Ha & Hr). right. split; [done|]. apply Hl in Ha as (k & p & Hk & Hp & Hb). exists a, k, p. split_and!; lia || done.
  - rewrite bool_decide_eq_false_2 by done. cbn [mbind option_bind].
    destruct (remove_loop_recursive _ pool [CTransaction_GetHash tx] Hok (le_n _)) as (pool' & removed & -> & Hres).
    exists pool', removed. split; [done|]. eapply removes_iff; [|done]. intros h Hs. split; [intros [?|[? _]]; done|by left].
Qed.

Lemma remove_single pool tx : pool_ok pool ->
  exists pool' removed, remove pool tx false = Some (pool', removed) /\ removes pool (fun h => h = CTransaction_GetHash tx) pool' removed.
Proof.
  intros Hok. unfold remove. cbn [andb mbind option_bind]. unfold remove_fuel. cbn [length Nat.add]. set (k := map_fold _ _ _).
  cbn [remove_loop]. destruct (mapTx pool !! CTransaction_GetHash tx) as [e|] eqn:He.
  - cbn [mbind option_bind app]. fold (erase pool (CTransaction_GetHash tx) e).
    assert (Hl : remove_loop k (erase pool (CTransaction_GetHash tx) e) [] false = Some (erase pool (CTransaction_GetHash tx) e, [])) by (destruct k; done).
    rewrite Hl. cbn [mbind option_bind]. eexists _, _. split; [done|].
    eapply (removes_erase _ _ _ _ (fun _ => False)); [done|done|intros h Hne; split; done|]. split_and!; [by apply pool_ok_erase|done|intros; tauto|].
    intros x. split; [intros Hx; by apply not_elem_of_nil in Hx|intros (? & ? & _ & [] & _)].
  - assert (Hl : remove_loop k pool [] false = Some (pool, [])) by (destruct k; done). rewrite Hl. eexists _, _. split; [done|].
    split_and!; [done|done|intros h e; split; [intros Hh; split; [done|congruence]|by intros []]|].
    intros x. split; [intros Hx; by apply not_elem_of_nil in Hx|intros (h & e & He' & -> & _); congruence].
Qed.

(** ** Several removals *)

Lemma removes_cases pool taken pool' removed h e : pool_ok pool -> removes pool taken pool' removed -> mapTx pool !! h = Some e ->
  (mapTx pool' !! h = Some e /\ ~ taken h) \/ (mapTx pool' !! h = None /\ taken h).
Proof.
  intros Hok (Hok' & _ & Hm & Hr) He. destruct (decide (me_tx e ∈ removed)) as [Hin|Hin].
  - right. apply Hr in Hin as (h' & e' & He' & Ht & Heq). assert (h' = h) as ->.
    { rewrite <- (pk_hash _ Hok _ _ He), <- (pk_hash _ Hok _ _ He'). by rewrite Heq. }
    split; [|done]. destruct (mapTx pool' !! h) as [x|] eqn:Ex; [|done]. apply Hm in Ex as [_ ?]. done.
  - left. assert (~ taken h). { intros Ht. apply Hin, Hr. by exists h, e. }
    split; [by apply Hm|done].
Qed.

Lemma removes_sub pool taken pool' removed h e : removes pool taken pool' removed -> mapTx pool' !! h = Some e -> mapTx pool !! h = Some e.
Proof. intros (_ & _ & Hm & _) He. by apply Hm in He as [? _]. Qed.

Lemma removes_next pool taken pool' removed o p : pool_ok pool -> removes pool taken pool' removed ->
  mapNextTx pool' !! o = Some p <-> mapNextTx pool !! o = Some p /\ ~ taken (ptx p).
Proof.
  intros Hok Hres. pose proof Hres as (Hok' & _ & Hm & _). split.
  - intros Ho. destruct (pk_next _ Hok' _ _ Ho) as (e & i & He & Hn & Hi & <-). apply Hm in He as [He Ht]. split; [|done].
    rewrite (pk_marked _ Hok _ _ _ _ He Hi). destruct p. simpl in *. do 2 f_equal. lia.
  - intros [Ho Ht]. destruct (pk_next _ Hok _ _ Ho) as (e & i & He & Hn & Hi & <-).
    rewrite (pk_marked _ Hok' (ptx p) e _ _ (proj2 (Hm _ _) (conj He Ht)) Hi). destruct p. simpl in *. do 2 f_equal. lia.
Qed.

Lemma removes_none pool : pool_ok pool -> removes pool (fun _ => False) pool [].
Proof.
  intros Hok. split_and!; [done|done|intros; tauto|]. intros x. split; [intros Hx; by apply not_elem_of_nil in Hx|intros (? & ? & _ & [] & _)].
Qed.

Lemma removes_trans pool t1 pool1 r1 t2 pool2 r2 : pool_ok pool -> removes pool t1 pool1 r1 -> removes pool1 t2 pool2 r2 ->
  removes pool (fun h => t1 h \/ t2 h) pool2 (r1 ++ r2).
Proof.
  intros Hok H1 H2'. pose proof H1 as (Hok1 & Hd1 & Hm1 & Hr1). pose proof H2' as (Hok2 & Hd2 & Hm2 & Hr2). split_and!; [done|congruence| |].
  - intros h e. rewrite Hm2, Hm1. tauto.
  - intros tx. rewrite elem_of_app, Hr1, Hr2. split.
    + intros [(h & e & He & Ht & ->)|(h & e & He & Ht & ->)]; exists h, e; (split_and!; [|by auto|done]); [done|by eapply removes_sub].
    + intros (h & e & He & Ht & ->). destruct (removes_cases _ _ _ _ _ _ Hok H1 He) as [[He1 Hn]|[_ Ht1]];
        [right; exists h, e; split_and!; try done; by destruct Ht|left; by exists h, e].
Qed.

(** A path to an entry that stays has only entries that stay, when descendants go too. *)
Lemma path_stays pool taken pool' removed a h : removes pool taken pool' removed ->
  (forall x y, taken x -> child pool x y -> taken y) -> ~ taken h -> rtc (child pool) a h -> rtc (child pool') a h /\ ~ taken a.
Proof.
  intros (_ & _ & Hm & _) Hcl Hn Hp. induction Hp as [a|a b h Hab _ IH]; [done|]. destruct (IH Hn) as [IH1 IH2].
  assert (Ha : ~ taken a) by (intros Ht; apply IH2; by eapply Hcl). split; [|done]. eapply rtc_l; [|done].
  destruct Hab as (ea & eb & i & Hea & Heb & ?). exists ea, eb, i. rewrite !Hm. done.
Qed.

Lemma child_sub pool taken pool' removed : removes pool taken pool' removed -> forall a b, rtc (child pool') a b -> rtc (child pool) a b.
Proof.
  intros Hres a b. apply rtc_subrel. intros x y (ex & ey & i & Hx & Hy & ?). exists ex, ey, i.
  split_and!; try done; [by eapply removes_sub|by eapply removes_sub|tauto|tauto|tauto|tauto].
Qed.

(** ** Conflicts *)

(** The entry descends from one that spends an input of the transaction, other than itself. *)
Definition conflicted pool (tx : CTransaction) (ins : list CTxIn) (h : bytes) : Prop :=
  exists i p, i ∈ ins /\ mapNextTx pool !! prevout i = Some p /\ ptx p <> CTransaction_GetHash tx /\ rtc (child pool) (ptx p) h.

Lemma conflicted_closed pool tx ins x y : conflicted pool tx ins x -> child pool x y -> conflicted pool tx ins y.
Proof. intros (i & p & ? & ? & ? & ?) ?. exists i, p. split_and!; try done. by eapply rtc_r. Qed.

Lemma doomed_in pool e h x : pool_ok pool -> mapTx pool !! h = Some e -> doomed pool (me_tx e) x <-> rtc (child pool) h x.
Proof.
  intros Hok He. unfold doomed. rewrite (pk_hash _ Hok _ _ He). split.
  - intros [(a & Ha & Hr)|[? _]]; [|congruence]. apply list_elem_of_singleton in Ha as ->. done.
  - intros Hr. left. exists h. split; [by apply list_elem_of_singleton|done].
Qed.

Lemma remove_conflicts_spec tx ins : forall pool, pool_ok pool ->
  exists pool' removed, remove_conflicts pool tx ins = Some (pool', removed) /\ removes pool (conflicted pool tx ins) pool' removed.
Proof.
  induction ins as [|i ins IH]; intros pool Hok.
  { exists pool, []. split; [done|]. eapply removes_iff; [|by apply removes_none]. intros h _. split; [|done].
    intros (? & ? & Hi & _). by apply not_elem_of_nil in Hi. }
  cbn [remove_conflicts].
  assert (Hstep : exists pool1 r1 taken, match mapNextTx pool !! prevout i with
      | Some p => txConflict ← deref pool p; if bool_decide (CTransaction_GetHash txConflict = CTransaction_GetHash tx) then Some (pool, []) else remove pool txConflict true
      | None => Some (pool, []) end = Some (pool1, r1) /\ removes pool taken pool1 r1 /\ (forall x y, taken x -> child pool x y -> taken y) /\
      (forall h, taken h <-> exists p, mapNextTx pool !! prevout i = Some p /\ ptx p <> CTransaction_GetHash tx /\ rtc (child pool) (ptx p) h)).
  { destruct (mapNextTx pool !! prevout i) as [p|] eqn:Ep; cycle 1.
    { exists pool, [], (fun _ => False). split_and!; [done|by apply removes_none|done|]. intros h. split; [done|by intros (? & ? & _)]. }
    destruct (deref_ok _ _ _ Hok Ep) as (e & He & -> & Hh). cbn [mbind option_bind]. rewrite Hh. case_bool_decide as Heq.
    - exists pool, [], (fun _ => False). split_and!; [done|by apply removes_none|done|]. intros h. split; [done|]. intros (q & ? & ? & _). congruence.
    - destruct (remove_recursive pool (me_tx e) Hok) as (pool1 & r1 & -> & Hres).
      exists pool1, r1, (rtc (child pool) (ptx p)). split_and!; [done| |intros x y ? ?; by eapply rtc_r|].
      + eapply removes_iff; [|done]. intros h _. symmetry. by apply doomed_in.
      + intros h. split; [by exists p|]. intros (q & ? & ? & ?). congruence. }
  destruct Hstep as (pool1 & r1 & taken & -> & H1 & Hcl & Htk). cbn [mbind option_bind]. pose proof H1 as (Hok1 & _).
  destruct (IH pool1 Hok1) as (pool2 & r2 & -> & H2'). cbn [mbind option_bind]. exists pool2, (r1 ++ r2). split; [done|].
  eapply removes_iff; [|by eapply removes_trans]. intros h [e He]. split.
  - intros (j & p & Hj & Hp & Hne & Hr). apply elem_of_cons in Hj as [->|Hj]; [left; apply Htk; eauto|].
    destruct (removes_cases _ _ _ _ _ _ Hok H1 He) as [[_ Hn]|[_ Ht]]; [right|by left].
    destruct (path_stays _ _ _ _ _ _ H1 Hcl Hn Hr) as [Hr1 Hnp]. exists j, p. split_and!; try done. by apply (removes_next _ _ _ _ _ _ Hok H1).
  - intros [Ht|(j & p & Hj & Hp & Hne & Hr)].
    + apply Htk in Ht as (p & ? & ? & ?). exists i, p. split_and!; try done. apply elem_of_cons. by left.
    + apply (removes_next _ _ _ _ _ _ Hok H1) in Hp as [Hp _]. exists j, p. split_and!; try done; [apply elem_of_cons; by right|].
      by eapply child_sub.
Qed.

(** ** Blocks *)

(** One transaction of a block: it leaves the pool, then what conflicts with it. *)
Lemma block_step pool tx : pool_ok pool -> exists pool1 r1 pool2 r2,
  remove pool tx false = Some (pool1, r1) /\ removes pool (fun h => h = CTransaction_GetHash tx) pool1 r1 /\
  removeConflicts pool1 tx = Some (pool2, r2) /\ removes pool1 (conflicted pool1 tx (vin tx)) pool2 r2 /\
  pool_ok (ClearPrioritisation pool2 (CTransaction_GetHash tx)).
Proof.
  intros Hok. destruct (remove_single pool tx Hok) as (pool1 & r1 & H1 & Hr1). pose proof Hr1 as (Hok1 & _).
  destruct (remove_conflicts_spec tx (vin tx) pool1 Hok1) as (pool2 & r2 & H2' & Hr2). pose proof Hr2 as (Hok2 & _).
  exists pool1, r1, pool2, r2. split_and!; try done. by apply (pool_ok_same pool2).
Qed.

(** An entry left by the step is another transaction and spends none of its inputs. *)
Lemma block_step_left pool tx pool1 r1 pool2 r2 h e : pool_ok pool ->
  removes pool (fun h => h = CTransaction_GetHash tx) pool1 r1 -> removes pool1 (conflicted pool1 tx (vin tx)) pool2 r2 ->
  mapTx pool2 !! h = Some e -> mapTx pool !! h = Some e /\ h <> CTransaction_GetHash tx /\
    forall i, i ∈ vin tx -> prevout i ∉ prevouts (me_tx e).
Proof.
  intros Hok H1 H2' He. pose proof H1 as (Hok1 & _ & Hm1 & _). pose proof H2' as (_ & _ & Hm2 & _).
  apply Hm2 in He as [He1 Hnc]. apply Hm1 in He1 as Hx. destruct Hx as [He Hne]. split_and!; [done|done|].
  intros i Hi Hin. apply Hnc. apply elem_of_prevouts in Hin as (k & j & Hk & Hpo).
  pose proof (pk_marked _ Hok1 _ _ _ _ He1 Hk) as Hmk. rewrite Hpo in Hmk. exists i. eexists. split_and!; [done|exact Hmk|done|done].
Qed.

(** The entry descends from one that spends what the transaction spends. *)
Definition displaced pool (tx : CTransaction) (h : bytes) : Prop :=
  exists i p, i ∈ vin tx /\ mapNextTx pool !! prevout i = Some p /\ rtc (child pool) (ptx p) h.

Lemma block_step_gone pool tx pool1 r1 pool2 r2 h e : pool_ok pool ->
  removes pool (fun h => h = CTransaction_GetHash tx) pool1 r1 -> removes pool1 (conflicted pool1 tx (vin tx)) pool2 r2 ->
  mapTx pool !! h = Some e -> mapTx pool2 !! h = None -> h = CTransaction_GetHash tx \/ displaced pool tx h.
Proof.
  intros Hok H1 H2' He Hgone. pose proof H1 as (Hok1 & _). destruct (removes_cases _ _ _ _ _ _ Hok H1 He) as [[He1 Hn]|[_ Ht]]; [right|by left].
  destruct (removes_cases _ _ _ _ _ _ Hok1 H2' He1) as [[? _]|[_ (i & p & Hi & Hp & _ & Hr)]]; [congruence|].
  exists i, p. apply (removes_next _ _ _ _ _ _ Hok H1) in Hp as [Hp _]. split_and!; try done. by eapply child_sub.
Qed.

(** The pools between the transactions of a block are parts of the first one. *)
Record part_of pool' pool : Prop := {
  po_tx : forall h e, mapTx pool' !! h = Some e -> mapTx pool !! h = Some e;
  po_next : forall o p, mapNextTx pool' !! o = Some p -> mapNextTx pool !! o = Some p }.

Lemma part_of_child pool' pool a b : part_of pool' pool -> rtc (child pool') a b -> rtc (child pool) a b.
Proof.
  intros [Ht _]. apply rtc_subrel. intros x y (ex & ey & i & Hx & Hy & Hr). exists ex, ey, i. split_and!; try apply Hr; auto.
Qed.

Lemma part_of_removes pool taken pool' removed : pool_ok pool -> removes pool taken pool' removed -> part_of pool' pool.
Proof.
  intros Hok Hres. split; [intros; by eapply removes_sub|]. intros o p Ho. by apply (removes_next _ _ _ _ _ _ Hok Hres) in Ho as [? _].
Qed.

Lemma part_of_trans pool2 pool1 pool : part_of pool2 pool1 -> part_of pool1 pool -> part_of pool2 pool.
Proof. intros [A B] [C D]. split; eauto. Qed.

Lemma removeForBlock_run vtx : forall pool, pool_ok pool -> exists pool' conflicts,
  removeForBlock pool vtx = Some (pool', conflicts) /\ pool_ok pool' /\ part_of pool' pool /\
  (forall h e, mapTx pool' !! h = Some e -> forall tx, tx ∈ vtx -> h <> CTransaction_GetHash tx /\ forall i, i ∈ vin tx -> prevout i ∉ prevouts (me_tx e)) /\
  (forall h e, mapTx pool !! h = Some e -> mapTx pool' !! h = None -> exists tx, tx ∈ vtx /\ (h = CTransaction_GetHash tx \/ displaced pool tx h)).
Proof.
  induction vtx as [|tx vtx IH]; intros pool Hok; cbn [removeForBlock].
  { exists pool, []. split_and!; try done; [intros ? ? _ ? Hx; by apply not_elem_of_nil in Hx|intros; congruence]. }
  destruct (block_step pool tx Hok) as (pool1 & r1 & pool2 & r2 & -> & Hr1 & E2 & Hr2 & Hok3). cbn [mbind option_bind].
  rewrite E2. cbn [mbind option_bind]. destruct (IH _ Hok3) as (pool' & conflicts & -> & Hok' & Hpart & Hleft & Hgone). cbn [mbind option_bind].
  pose proof Hr1 as (Hok1 & _). assert (Hp2 : part_of pool2 pool) by (eapply part_of_trans; eapply part_of_removes; done).
  assert (Hp3 : part_of (ClearPrioritisation pool2 (CTransaction_GetHash tx)) pool) by (destruct Hp2; by split).
  eexists _, _. split_and!; [done|done|by eapply part_of_trans| |].
  - intros h e He t Ht. apply elem_of_cons in Ht as [->|Ht]; [|by eapply Hleft].
    by destruct (block_step_left _ _ _ _ _ _ h e Hok Hr1 Hr2 (po_tx _ _ Hpart _ _ He)) as (_ & ? & ?).
  - intros h e He Hnone. destruct (mapTx pool2 !! h) as [x|] eqn:Ex.
    + destruct (Hgone h x Ex Hnone) as (t & Ht & [Hh|(i & p & Hi & Hp & Hr)]); exists t; (split; [apply elem_of_cons; by right|]); [by left|right].
      exists i, p. split_and!; [done|by apply (po_next _ _ Hp3)|by eapply part_of_child].
    + exists tx. split; [apply elem_of_cons; by left|]. by eapply block_step_gone.
Qed.

(** ** Immature spends *)

Lemma remove_all_spec l : forall pool, pool_ok pool -> exists pool', remove_all pool l = Some pool' /\ pool_ok pool' /\ part_of pool' pool /\
  (forall h e tx, mapTx pool' !! h = Some e -> tx ∈ l -> h <> CTransaction_GetHash tx) /\
  (forall a b e, child pool a b -> mapTx pool' !! b = Some e -> is_Some (mapTx pool' !! a)).
Proof.
  induction l as [|tx l IH]; intros pool Hok; cbn [remove_all].
  { exists pool. split_and!; try done; [intros ? ? ? _ Hx; by apply not_elem_of_nil in Hx|intros a b e (ea & ? & ? & Ha & _) _; by exists ea]. }
  destruct (remove_recursive pool tx Hok) as (pool1 & r1 & -> & Hres). cbn [mbind option_bind]. pose proof Hres as (Hok1 & _ & Hm1 & _).
  destruct (IH pool1 Hok1) as (pool' & -> & Hok' & Hpart & Hl & Hcl). exists pool'. split_and!; try done.
  - eapply part_of_trans; [done|by eapply part_of_removes].
  - intros h e t He Ht. apply elem_of_cons in Ht as [->|Ht]; [|by eapply Hl]. apply (po_tx _ _ Hpart), Hm1 in He as [_ Hnd].
    intros ->. apply Hnd. left. exists (CTransaction_GetHash tx). split; [by apply list_elem_of_singleton|done].
  - intros a b e Hc Hb. pose proof (po_tx _ _ Hpart _ _ Hb) as Hb1. apply (Hcl a b e); [|done].
    destruct Hc as (ea & eb & i & Ha & Heb & Hrest). exists ea, eb, i.
    pose proof (proj1 (Hm1 _ _) Hb1) as [Hxe Hnb]. assert (e = eb) as -> by congruence.
    split_and!; try apply Hrest; [|done]. apply Hm1. split; [done|]. intros Hd. apply Hnb.
    assert (Hc : child pool a b) by (by exists ea, eb, i).
    destruct Hd as [(x & Hx & Hr)|(Hn & x & k & p & Hk & Hp & Hxp & Hr)]; [left; exists x; split; [done|by eapply rtc_r]|right].
    split; [done|]. exists x, k, p. split_and!; try done; try lia. by eapply rtc_r.
Qed.

(** Without [fSanityCheck] the loops pick the transactions with a premature input. *)
Lemma premature_txs_filter pool access nMemPoolHeight nCoinbaseMaturity l :
  premature_txs false pool access nMemPoolHeight nCoinbaseMaturity l =
  Some (List.filter (fun tx => existsb (premature pool access nMemPoolHeight nCoinbaseMaturity) (vin tx)) l).
Proof.
  assert (Hs : forall ins, spends_premature false pool access nMemPoolHeight nCoinbaseMaturity ins = Some (existsb (premature pool access nMemPoolHeight nCoinbaseMaturity) ins)).
  { induction ins as [|i ins IH]; [done|]. cbn [spends_premature existsb andb]. destruct (premature _ _ _ _ i); [done|exact IH]. }
  induction l as [|tx l IH]; [done|]. cbn [premature_txs List.filter]. rewrite Hs, IH. done.
Qed.

(** After a reorganization to a height, what stays in the pool spends no immature coins. *)
Lemma removeCoinbaseSpends_run pool access nMemPoolHeight nCoinbaseMaturity : pool_ok pool ->
  (forall h e i, mapTx pool !! h = Some e -> i ∈ vin (me_tx e) -> forall ea, mapTx pool !! op_hash (prevout i) = Some ea ->
     0 <= op_n (prevout i) < Z.of_nat (length (vout (me_tx ea)))) ->
  exists pool', removeCoinbaseSpends false pool access nMemPoolHeight nCoinbaseMaturity = Some pool' /\ pool_ok pool' /\ part_of pool' pool /\
    forall h e i, mapTx pool' !! h = Some e -> i ∈ vin (me_tx e) -> premature pool' access nMemPoolHeight nCoinbaseMaturity i = false.
Proof.
  intros Hok Hrange. unfold removeCoinbaseSpends. rewrite premature_txs_filter. cbn [mbind option_bind]. set (l := List.filter _ _).
  destruct (remove_all_spec l pool Hok) as (pool' & -> & Hok' & Hpart & Hl & Hcl). exists pool'. split_and!; try done.
  intros h e i He Hi. pose proof (po_tx _ _ Hpart _ _ He) as He0.
  assert (Hp0 : premature pool access nMemPoolHeight nCoinbaseMaturity i = false).
  { destruct (premature pool access nMemPoolHeight nCoinbaseMaturity i) eqn:Ep; [|done]. exfalso.
    apply (Hl h e (me_tx e) He); [|symmetry; by apply (pk_hash _ Hok)]. unfold l. apply list_elem_of_In, filter_In. split.
    - apply in_map_iff. exists (h, e). split; [done|]. apply list_elem_of_In. by apply elem_of_map_to_list.
    - apply existsb_exists. exists i. split; [by apply list_elem_of_In|done]. }
  unfold premature in *. destruct (mapTx pool !! op_hash (prevout i)) as [ea|] eqn:Ea.
  - assert (Hs : is_Some (mapTx pool' !! op_hash (prevout i))).
    { eapply (Hcl _ h e); [|done]. exists ea, e, i. pose proof (Hrange h e i He0 Hi ea Ea). split_and!; done || lia. }
    rewrite bool_decide_eq_true_2 by done. done.
  - rewrite bool_decide_eq_false_2 in Hp0 by (intros [? ?]; congruence).
    rewrite bool_decide_eq_false_2; [done|]. intros [x Hx]. apply (po_tx _ _ Hpart) in Hx. congruence.
Qed.
End Facts.
