(* ===== verification/Connect.v ===== *)
(** [main.cpp]: [UpdateCoins], [CheckInputs], [ConnectBlock], [DisconnectBlock], and
    the check of the minted value in [masternode-payments.cpp]. *)

From Stdlib Require Import ZArith Lia String.
From stdpp Require Import base tactics list numbers strings gmap fin_maps.
From S2P Require Import Prelude CString Amount ChainParams Script Standard Serialize Block Interpreter CoreWrite.
From S2P Require Import BetCode BetPayout Transaction Compressor Coins CoinsView TxVerify.

(** ** Computations on a cache that may fail *)

Section Monad.
Context {V : Type}.

Definition CM (A : Type) : Type := CCoinsViewCache V -> vres A * CCoinsViewCache V.
Definition cm_ret {A} (a : A) : CM A := fun v => (Ok a, v).
Definition cm_bind {A B} (m : CM A) (f : A -> CM B) : CM B := fun v =>
  match m v with (Ok a, v) => f a v | (Err e, v) => (Err e, v) end.
Definition cm_fail {A} (e : reject) : CM A := fun v => (Err e, v).
Definition cm_lift {A} (r : vres A) : CM A := fun v => (r, v).

Fixpoint cm_fold {A S} (f : S -> A -> CM S) (s : S) (l : list A) : CM S :=
  match l with
  | [] => cm_ret s
  | x :: l => cm_bind (f s x) (fun s => cm_fold f s l)
  end.
End Monad.
Arguments CM V A : clear implicits.

Notation "'let^' x ':=' m 'in' k" := (cm_bind m (fun x => k))
  (at level 200, x pattern, m at level 100, k at level 200, right associativity) : res_scope.

(** An operation that only looks, and one whose [None] is a failed [assert]. *)
Definition cm_read {V A} (f : CCoinsViewCache V -> A * CCoinsViewCache V) : CM V A := fun v => let (a, v) := f v in (Ok a, v).
Definition cm_assert {V A} (f : CCoinsViewCache V -> option A * CCoinsViewCache V) : CM V A := fun v =>
  match f v with (Some a, v) => (Ok a, v) | (None, v) => (Err AssertFail, v) end.

(** ** What validation reads besides the cache

    The chain's parameters and the state of the node; the elliptic curve
    ([CPubKey::CheckLowS], [CPubKey::Verify], whose cache of successes is not seen),
    zerocoin, the list of frozen outputs and the budget are inputs. *)
Class validation_env := {
  CheckLowS : bytes -> bool;
  Verify : bytes -> bytes -> bytes -> bool;
  consensus_params : ConsensusParams;
  height_of : bytes -> option Z;                     (* mapBlockIndex: the height of a block *)
  tip : option (bytes * Z);                          (* chainActive.Tip() and its height *)
  total_blocks_estimate : Z;                         (* Checkpoints::GetTotalBlocksEstimate() *)
  script_threads : bool;                             (* nScriptCheckThreads is not zero *)
  testnet : bool;
  HashQuark : bytes -> bytes;
  lottery : node;                                    (* the node, and the node after the *)
  lottery2 : node;                                   (* results files are downloaded again *)
  masternodes_synced : bool;
  superblocks : bool;                                (* SPORK_13_ENABLE_SUPERBLOCKS *)
  IsBudgetPaymentBlock : Z -> bool;
  ContainsOutPoint : COutPoint -> bool;
  zerocoin_maintenance : Z -> bool;                  (* at a block's time *)
  mint_ok : CTxOut -> bool;                          (* TxOutToPublicCoin *)
  zerocoin_spends : CTransaction -> Z -> vres Z;     (* the checks of the spends and their total *)
  zerocoin_undo : CTransaction -> vres Z;            (* their removal and their total *)
  zerocoin_supply_ok : CBlock -> bool;
  supply_events : Z -> Z -> Z;                       (* corrections of the supply at zerocoin heights *)
  CheckBlock : CBlock -> bool -> bool -> vres unit   (* main.cpp, CheckBlock *)
}.

Section Validation.
Context {V : Type} `{CCoinsView V} {env : validation_env}.

(** ** [UpdateCoins] *)

Definition spend_modifier (out : COutPoint) (c : CCoins) : option CTxInUndo * CCoins :=
  match Spend c out with Some (c, u) => (Some u, c) | None => (None, c) end.

Definition spend_input (vprevout : list CTxInUndo) (i : CTxIn) : CM V (list CTxInUndo) :=
  let^ u := cm_assert (fun v => ModifyCoins v (op_hash (prevout i)) (spend_modifier (prevout i))) in
  cm_ret (vprevout ++ [u]).

Definition UpdateCoins (tx : CTransaction) (nHeight : Z) : CM V (list CTxInUndo) :=
  let^ vprevout :=
    if negb (IsCoinBase tx) && negb (HasZerocoinSpendInputs tx) then cm_fold spend_input [] (vin tx) else cm_ret [] in
  let^ _ := cm_read (fun v => ModifyCoins v (CTransaction_GetHash tx) (fun _ => (tt, FromTx tx nHeight))) in
  cm_ret vprevout.

(** ** Script checks *)

Record CScriptCheck := { sc_script : bytes; sc_tx : CTransaction; sc_nIn : Z; sc_flags : Z }.

(** The constructor of [CScriptCheck] from coins reads the output that input [i] spends. *)
Definition script_check_of (c : CCoins) (tx : CTransaction) (nIn : Z) (i : CTxIn) (flags : Z) : option CScriptCheck :=
  match c_vout c !! Z.to_nat (op_n (prevout i)) with
  | Some o => Some {| sc_script := scriptPubKey o; sc_tx := tx; sc_nIn := nIn; sc_flags := flags |}
  | None => None
  end.

Definition run_check (k : CScriptCheck) : vres bool :=
  match vin (sc_tx k) !! Z.to_nat (sc_nIn k) with
  | None => Err AssertFail
  | Some i =>
      match VerifyScript CheckLowS (scriptSig i) (sc_script k) (sc_flags k)
              (TransactionSignatureChecker Verify (sc_tx k) (sc_nIn k)) with
      | None => Err AssertFail
      | Some r => Ok (is_ok r)
      end
  end.

(** ** [CheckInputs] *)

Definition MANDATORY_SCRIPT_VERIFY_FLAGS : Z := SCRIPT_VERIFY_P2SH.
Definition STANDARD_SCRIPT_VERIFY_FLAGS : Z :=
  Z.lor MANDATORY_SCRIPT_VERIFY_FLAGS (Z.lor SCRIPT_VERIFY_DERSIG (Z.lor SCRIPT_VERIFY_STRICTENC
    (Z.lor SCRIPT_VERIFY_MINIMALDATA (Z.lor SCRIPT_VERIFY_NULLDUMMY SCRIPT_VERIFY_DISCOURAGE_UPGRADABLE_NOPS)))).
Definition STANDARD_NOT_MANDATORY_VERIFY_FLAGS : Z := Z.ldiff STANDARD_SCRIPT_VERIFY_FLAGS MANDATORY_SCRIPT_VERIFY_FLAGS.

(** One input of the first loop: maturity, then the running total. *)
Definition check_coin (nSpendHeight nValueIn : Z) (i : CTxIn) : CM V Z :=
  let^ c := cm_assert (fun v => AccessCoins v (op_hash (prevout i))) in
  if (fCoinBase c || fCoinStake c) && (s32 (nSpendHeight - c_nHeight c) <? nCoinbaseMaturity consensus_params)
  then cm_fail (Invalid REJECT_INVALID "bad-txns-premature-spend-of-coinbase")
  else match c_vout c !! Z.to_nat (op_n (prevout i)) with
       | None => cm_fail AssertFail
       | Some o =>
           let nValueIn := s64 (nValueIn + nValue o) in
           if negb (MoneyRange consensus_params (nValue o)) || negb (MoneyRange consensus_params nValueIn)
           then cm_fail (DoS 100 REJECT_INVALID "bad-txns-inputvalues-outofrange")
           else cm_ret nValueIn
       end.

Definition value_out (tx : CTransaction) : vres Z :=
  match GetValueOut tx with Ok n => Ok n | Err _ => Err (Throws "GetValueOut") end.

Definition check_fee (tx : CTransaction) (nValueIn : Z) : vres unit :=
  if IsCoinStake tx then Ok tt
  else
    let* nValueOut := value_out tx in
    if nValueIn <? nValueOut then Err (DoS 100 REJECT_INVALID "bad-txns-in-belowout")
    else
      let nTxFee := s64 (nValueIn - nValueOut) in
      if nTxFee <? 0 then Err (DoS 100 REJECT_INVALID "bad-txns-fee-negative")
      else if negb (MoneyRange consensus_params nTxFee) then Err (DoS 100 REJECT_INVALID "bad-txns-fee-outofrange")
      else Ok tt.

(** One input of the second loop. [pvChecks]: the checks are collected for the
    worker threads instead of being run. *)
Definition check_script (tx : CTransaction) (flags : Z) (pvChecks : bool) (s : Z * list CScriptCheck) (i : CTxIn) :
    CM V (Z * list CScriptCheck) :=
  let (nIn, checks) := s in
  let^ c := cm_assert (fun v => AccessCoins v (op_hash (prevout i))) in
  match script_check_of c tx nIn i flags with
  | None => cm_fail AssertFail
  | Some k =>
      if pvChecks then cm_ret (nIn + 1, checks ++ [k])
      else
        let^ ok := cm_lift (run_check k) in
        if ok then cm_ret (nIn + 1, checks)
        else
          let^ soft :=
            if negb (Z.land flags STANDARD_NOT_MANDATORY_VERIFY_FLAGS =? 0) then
              cm_lift (run_check {| sc_script := sc_script k; sc_tx := tx; sc_nIn := nIn;
                                    sc_flags := Z.ldiff flags STANDARD_NOT_MANDATORY_VERIFY_FLAGS |})
            else cm_ret false in
          if soft then cm_fail (Invalid REJECT_NONSTANDARD "non-mandatory-script-verify-flag")
          else cm_fail (DoS 100 REJECT_INVALID "mandatory-script-verify-flag-failed")
  end.

Definition CheckInputs (tx : CTransaction) (fScriptChecks : bool) (flags : Z) (pvChecks : bool) : CM V (list CScriptCheck) :=
  if negb (IsCoinBase tx) && negb (HasZerocoinSpendInputs tx) then
    let^ have := cm_read (fun v => HaveInputs v tx) in
    if negb have then cm_fail (Invalid 0 "")
    else
      let^ h := cm_read cache_GetBestBlock in
      match height_of h with
      | None => cm_fail AssertFail
      | Some nHeight =>
          let^ nValueIn := cm_fold (check_coin (s32 (nHeight + 1))) 0 (vin tx) in
          let^ _ := cm_lift (check_fee tx nValueIn) in
          if fScriptChecks then
            let^ (_, checks) := cm_fold (check_script tx flags pvChecks) (0, []) (vin tx) in
            cm_ret checks
          else cm_ret []
      end
  else cm_ret [].

(** ** [GetP2SHSigOpCount] *)

Definition add_p2sh (n : Z) (i : CTxIn) : CM V Z :=
  let^ o := cm_assert (fun v => GetOutputFor v i) in
  cm_ret (if IsPayToScriptHash (scriptPubKey o) then u32 (n + GetSigOpCount_p2sh (scriptPubKey o) (scriptSig i)) else n).

Definition GetP2SHSigOpCount (tx : CTransaction) : CM V Z :=
  if IsCoinBase tx || HasZerocoinSpendInputs tx then cm_ret 0 else cm_fold add_p2sh 0 (vin tx).

(** ** [ConnectBlock]: one transaction *)

Definition ValidOutPoint (out : COutPoint) (nHeight : Z) : bool :=
  negb ((height_start_InvalidUTXOsCheck consensus_params <=? nHeight) && ContainsOutPoint out).

(** The running totals of the loop. *)
Record connect_state := {
  nFees : Z;
  nSigOps : Z;
  nValueIn : Z;
  nValueOut : Z;
  nValueBet : Z;
  vtxundo : list (list CTxInUndo);
  vChecks : list CScriptCheck
}.

Definition connect_start : connect_state :=
  {| nFees := 0; nSigOps := 0; nValueIn := 0; nValueOut := 0; nValueBet := 0; vtxundo := []; vChecks := [] |}.

(** [strncmp(ScriptToAsmStr(out.scriptPubKey).c_str(), "OP_RETURN", 9) == 0] *)
Definition burns (o : CTxOut) : bool := bool_decide (take 9 (ScriptToAsmStr (scriptPubKey o) false) = str "OP_RETURN").

Definition bet_value (l : list CTxOut) (n : Z) : Z :=
  fold_left (fun n o => if burns o then s64 (n + nValue o) else n) l n.

(** The signature operations, fees and values of an ordinary transaction, and its
    inputs checked. *)
Definition connect_inputs (nHeight flags : Z) (fScriptChecks threads : bool) (s : connect_state) (tx : CTransaction) :
    CM V connect_state :=
  let^ have := cm_read (fun v => HaveInputs v tx) in
  if negb have then cm_fail (DoS 100 REJECT_INVALID "bad-txns-inputs-missingorspent")
  else if negb (forallb (fun i => ValidOutPoint (prevout i) nHeight) (vin tx))
  then cm_fail (DoS 100 REJECT_INVALID "bad-txns-invalid-inputs")
  else
    let^ p2sh := GetP2SHSigOpCount tx in
    let sigops := u32 (nSigOps s + p2sh) in
    if MAX_BLOCK_SIGOPS_CURRENT <? sigops then cm_fail (DoS 100 REJECT_INVALID "bad-blk-sigops")
    else
      let^ fees :=
        if IsCoinStake tx then cm_ret (nFees s)
        else
          let^ value := cm_assert (fun v => GetValueIn v tx) in
          let^ out := cm_lift (value_out tx) in
          cm_ret (s64 (nFees s + (value - out))) in
      let^ value := cm_assert (fun v => GetValueIn v tx) in
      let^ checks := CheckInputs tx fScriptChecks flags threads in
      cm_ret {| nFees := fees; nSigOps := sigops; nValueIn := s64 (nValueIn s + value); nValueOut := nValueOut s;
                nValueBet := nValueBet s; vtxundo := vtxundo s; vChecks := vChecks s ++ checks |}.

Definition connect_mints (nHeight : Z) (tx : CTransaction) : vres unit :=
  if HasZerocoinMintOutputs tx then
    if height_start_ZC_PublicSpends consensus_params <=? nHeight then Err (DoS 100 0 "")
    else if forallb (fun o => negb (CTxOut_IsZerocoinMint o) || mint_ok o) (vout tx) then Ok tt
    else Err (DoS 100 0 "")
  else Ok tt.

Definition connect_tx (block : CBlock) (nHeight flags : Z) (fScriptChecks threads : bool) (first : bool) (s : connect_state)
    (tx : CTransaction) : CM V connect_state :=
  let^ c := cm_read (fun v => AccessCoins v (CTransaction_GetHash tx)) in
  if match c with Some c => negb (IsPruned c) | None => false end then cm_fail (DoS 100 REJECT_INVALID "bad-txns-BIP30")
  else
    let sigops := u32 (nSigOps s + GetLegacySigOpCount tx) in
    if MAX_BLOCK_SIGOPS_CURRENT <? sigops then cm_fail (DoS 100 REJECT_INVALID "bad-blk-sigops")
    else if zerocoin_maintenance (nTime (header block)) && ContainsZerocoins tx then cm_fail (DoS 100 0 "")
    else
      let^ _ := cm_lift (connect_mints nHeight tx) in
      let s := {| nFees := nFees s; nSigOps := sigops; nValueIn := nValueIn s; nValueOut := nValueOut s;
                  nValueBet := nValueBet s; vtxundo := vtxundo s; vChecks := vChecks s |} in
      let^ s :=
        if HasZerocoinSpendInputs tx then
          let^ z := cm_lift (zerocoin_spends tx nHeight) in
          cm_ret {| nFees := nFees s; nSigOps := nSigOps s; nValueIn := s64 (nValueIn s + z); nValueOut := nValueOut s;
                    nValueBet := nValueBet s; vtxundo := vtxundo s; vChecks := vChecks s |}
        else if negb (IsCoinBase tx) then connect_inputs nHeight flags fScriptChecks threads s tx
        else cm_ret s in
      let^ out := cm_lift (value_out tx) in
      let^ undo := UpdateCoins tx nHeight in
      cm_ret {| nFees := nFees s; nSigOps := nSigOps s; nValueIn := nValueIn s; nValueOut := s64 (nValueOut s + out);
                nValueBet := bet_value (vout tx) (nValueBet s);
                vtxundo := if first then vtxundo s else vtxundo s ++ [undo]; vChecks := vChecks s |}.

(** [for (i = 0; i < block.vtx.size(); i++)] *)
Definition connect_txs (block : CBlock) (nHeight flags : Z) (fScriptChecks threads : bool) : CM V connect_state :=
  match vtx block with
  | [] => cm_ret connect_start
  | tx :: l =>
      let^ s := connect_tx block nHeight flags fScriptChecks threads true connect_start tx in
      cm_fold (connect_tx block nHeight flags fScriptChecks threads false) s l
  end.

(** ** [IsBlockValueValid] ([masternode-payments.cpp]) *)

(** The height that follows the block's parent, 0 when the parent is unknown. *)
Definition height_after (hashPrev : bytes) : Z :=
  match tip with
  | None => 0
  | Some (h, n) =>
      if bool_decide (h = hashPrev) then s32 (n + 1)
      else match height_of hashPrev with Some n => s32 (n + 1) | None => 0 end
  end.

Definition IsBlockValueValid (block : CBlock) (nExpectedValue nMinted : Z) : bool :=
  match tip with
  | None => true
  | Some _ =>
      let nHeight := height_after (hashPrevBlock (header block)) in
      if negb masternodes_synced then
        if Z.rem nHeight (nBudgetCycleBlocks consensus_params) <? 100 then true else nMinted <=? nExpectedValue
      else if negb superblocks then nMinted <=? nExpectedValue
      else if IsBudgetPaymentBlock nHeight then true
      else nMinted <=? nExpectedValue
  end.

(** ** [ConnectBlock] *)

(** The entry of the block in the index: its hash, its height and its parent. *)
Record block_pos := { phashBlock : bytes; nHeight_ : Z; pprev : option (bytes * Z) }.

Definition is_genesis (block : CBlock) : bool :=
  le_val (CBlockHeader_GetHash HashQuark (header block)) =? hashGenesisBlock consensus_params.

Definition hash_prev (pindex : block_pos) : bytes := match pprev pindex with None => UINT256_ZERO | Some (h, _) => h end.

Definition connect_flags (pindex : block_pos) (fScriptChecks : bool) : Z :=
  let fCLTVIsActivated :=
    fScriptChecks && match pprev pindex with Some (_, h) => height_start_BIP65 consensus_params <=? h | None => false end in
  let flags := Z.lor SCRIPT_VERIFY_P2SH SCRIPT_VERIFY_DERSIG in
  if fCLTVIsActivated then Z.lor flags SCRIPT_VERIFY_CHECKLOCKTIMEVERIFY else flags.

Definition set_best (h : bytes) : CM V unit := fun v => (Ok tt, SetBestBlock v h).

(** The checks after the loop: the payouts of the lottery, the minted value and the
    scripts given to the threads. *)
Definition connect_totals (block : CBlock) (nHeight : Z) (s : connect_state) : vres unit :=
  let nMint := s64 (nValueOut s - nValueIn s + nFees s) in
  match connect_expected_mint lottery lottery2 testnet block nHeight with
  | Err _ => Err (Throws "GetBetPayouts")
  | Ok None => Err (DoS 100 REJECT_INVALID "bad-cb-payout")
  | Ok (Some nExpectedMint) =>
      if negb (IsBlockValueValid block nExpectedMint nMint) then Err (DoS 100 REJECT_INVALID "bad-cb-amount")
      else check_all (fun k => let* ok := run_check k in check ok (DoS 100 REJECT_INVALID "block-validation-failed")) (vChecks s)
  end.

(** What is left to do when the block is more than checked: the undo data to write,
    the best block and the money supply. *)
Definition ConnectBlock (block : CBlock) (pindex : block_pos) (fJustCheck fAlreadyChecked : bool) (nMoneySupply : Z) :
    CM V (Z * option (list (list CTxInUndo))) :=
  let^ _ :=
    if fAlreadyChecked then cm_ret tt
    else match CheckBlock block (negb fJustCheck) (negb fJustCheck) with
         | Err (DoS_corrupt _ _ _) => cm_fail (Error_ "Corrupt block found indicating potential hardware failure; shutting down")
         | r => cm_lift r
         end in
  let^ best := cm_read cache_GetBestBlock in
  if negb (bool_decide (hash_prev pindex = best)) then cm_fail AssertFail
  else if is_genesis block then
    let^ _ := if fJustCheck then cm_ret tt else set_best (phashBlock pindex) in
    cm_ret (nMoneySupply, None)
  else if (nHeight_ pindex <=? height_last_PoW consensus_params) && IsProofOfStake block then cm_fail (DoS 100 REJECT_INVALID "PoS-early")
  else if (height_last_PoW consensus_params <? nHeight_ pindex) && IsProofOfWork block then cm_fail (DoS 100 REJECT_INVALID "PoW-ended")
  else
    let fScriptChecks := total_blocks_estimate <=? nHeight_ pindex in
    let^ s := connect_txs block (nHeight_ pindex) (connect_flags pindex fScriptChecks) fScriptChecks script_threads in
    let^ _ := cm_lift (connect_totals block (nHeight_ pindex) s) in
    if fJustCheck then cm_ret (nMoneySupply, None)
    else
      let^ _ := set_best (phashBlock pindex) in
      if negb (zerocoin_supply_ok block) then cm_fail (DoS 100 REJECT_INVALID "")
      else
        let nMoneySupply := supply_events (nHeight_ pindex) nMoneySupply in
        cm_ret (s64 (nMoneySupply + (nValueOut s - nValueIn s - nValueBet s)), Some (vtxundo s)).

(** ** [DisconnectBlock] *)

(** The outputs of a transaction taken out: was what is there what the block put? *)
Definition remove_outputs (tx : CTransaction) (nHeight : Z) (c : CCoins) : bool * CCoins :=
  let outs := ClearUnspendable c in
  let outsBlock := FromTx tx nHeight in
  let outs :=
    if c_nVersion outsBlock <? 0
    then {| fCoinBase := fCoinBase outs; fCoinStake := fCoinStake outs; c_vout := c_vout outs; c_nHeight := c_nHeight outs;
            c_nVersion := c_nVersion outsBlock |}
    else outs in
  (CCoins_eqb outs outsBlock, CCoins_empty).

(** [if (vout.size() < n + 1) vout.resize(n + 1); vout[n] = txout;] *)
Definition put_output (v : list CTxOut) (n : Z) (o : CTxOut) : list CTxOut :=
  let v := if zlen v <? u32 (n + 1) then v ++ replicate (Z.to_nat (u32 (n + 1)) - length v) CTxOut_SetNull else v in
  <[Z.to_nat n := o]> v.

(** One input restored from its undo record. *)
Definition restore_input (out : COutPoint) (undo : CTxInUndo) (c : CCoins) : bool * CCoins :=
  let (clean1, c) :=
    if negb (u_nHeight undo =? 0) then
      (IsPruned c, {| fCoinBase := u_fCoinBase undo; fCoinStake := false; c_vout := []; c_nHeight := s32 (u_nHeight undo);
                      c_nVersion := u_nVersion undo |})
    else (negb (IsPruned c), c) in
  let clean2 := negb (IsAvailable c (op_n out)) in
  (clean1 && clean2, with_vout c (put_output (c_vout c) (op_n out) (u_txout undo))).

(** [for (j = tx.vin.size(); j-- > 0;)]: the inputs and their records, last first. *)
Fixpoint restore_inputs (l : list (CTxIn * CTxInUndo)) (fClean : bool) : CM V bool :=
  match l with
  | [] => cm_ret fClean
  | (i, u) :: l =>
      let^ ok := cm_read (fun v => ModifyCoins v (op_hash (prevout i)) (restore_input (prevout i) u)) in
      restore_inputs l (fClean && ok)
  end.

Record disconnect_state := { d_clean : bool; d_valueOut : Z; d_valueIn : Z }.

(** [undo] is [vtxundo[i - 1]], which does not exist for the first transaction. *)
Definition disconnect_tx (nHeight : Z) (s : disconnect_state) (txu : CTransaction * option (list CTxInUndo)) : CM V disconnect_state :=
  let (tx, undo) := txu in
  let^ z := if ContainsZerocoins tx then cm_lift (zerocoin_undo tx) else cm_ret 0 in
  let^ out := cm_lift (value_out tx) in
  let^ ok := cm_read (fun v => ModifyCoins v (CTransaction_GetHash tx) (remove_outputs tx nHeight)) in
  let fClean := d_clean s && ok in
  let^ fClean :=
    if negb (IsCoinBase tx) && negb (HasZerocoinSpendInputs tx) then
      match undo with
      | None => cm_fail AssertFail
      | Some vprevout =>
          if negb (zlen vprevout =? zlen (vin tx)) then cm_fail (Failed "transaction and undo data inconsistent")
          else restore_inputs (reverse (zip (vin tx) vprevout)) fClean
      end
    else cm_ret fClean in
  let^ value :=
    if negb (HasZerocoinSpendInputs tx) && negb (IsCoinBase tx) then
      let^ have := cm_read (fun v => HaveInputs v tx) in
      if have then cm_assert (fun v => GetValueIn v tx) else cm_ret 0
    else cm_ret 0 in
  cm_ret {| d_clean := fClean; d_valueOut := s64 (d_valueOut s + out); d_valueIn := s64 (d_valueIn s + z + value) |}.

(** Every transaction with its undo data. *)
Definition with_undo (txs : list CTransaction) (vtxundo : list (list CTxInUndo)) : list (CTransaction * option (list CTxInUndo)) :=
  zip txs (None :: map Some vtxundo).

(** [blockUndo] as read from disk. The result: [fClean] and the money supply. *)
Definition DisconnectBlock (block : CBlock) (pindex : block_pos) (blockUndo : option (list (list CTxInUndo))) (nMoneySupply : Z) :
    CM V (bool * Z) :=
  let^ best := cm_read cache_GetBestBlock in
  if negb (bool_decide (phashBlock pindex = best)) then cm_fail AssertFail
  else match blockUndo with
       | None => cm_fail (Failed "failure reading undo data")
       | Some vtxundo =>
           if negb (zlen vtxundo + 1 =? zlen (vtx block)) then cm_fail (Failed "block and undo data inconsistent")
           else if negb (zerocoin_supply_ok block) then cm_fail (Failed "Failed to calculate new zPWRB supply")
           else
             let^ s := cm_fold (disconnect_tx (nHeight_ pindex)) {| d_clean := true; d_valueOut := 0; d_valueIn := 0 |}
                         (reverse (with_undo (vtx block) vtxundo)) in
             let^ _ := set_best (hash_prev pindex) in
             cm_ret (d_clean s, s64 (nMoneySupply - (d_valueOut s - d_valueIn s)))
       end.
End Validation.
