(* ===== verification/AcceptTx.v ===== *)
(** Acceptance of a loose transaction ([main.cpp]): standardness, relay fees and
    [AcceptToMemoryPool]. *)

From Stdlib Require Import ZArith Lia String.
From stdpp Require Import base tactics list numbers option gmap fin_maps strings.
From S2P Require Import Prelude CString Amount ChainParams Script Standard Serialize Interpreter Transaction Coins CoinsView TxVerify Mempool Connect.

Definition CURRENT_VERSION : Z := 1.
Definition MAX_STANDARD_TX_SIZE : Z := 100000.
Definition MAX_P2SH_SIGOPS : Z := 15.
Definition DEFAULT_BLOCK_PRIORITY_SIZE : Z := 50000.

(** ** What acceptance reads besides the pool and the coins

    Sporks, settings, clocks and the zerocoin checks are inputs, as are the priority test
    [AllowFree(view.GetPriority(tx, chainHeight + 1))] and the verdict of the rate limiter
    for a size. *)
Class accept_env := {
  a_double :: double_ops;
  a_validation :: validation_env;
  spork_zerocoin_maintenance : bool;                 (* SPORK_16_ZEROCOIN_MAINTENANCE_MODE *)
  spork_coldstaking : bool;                          (* SPORK_17_COLDSTAKING_ENFORCEMENT *)
  regtest : bool;
  chain_height : Z;                                  (* chainActive.Height() *)
  median_time_past : Z;                              (* of chainActive.Tip() *)
  adjusted_time : Z;
  now : Z;                                           (* GetTime() *)
  CheckZerocoinSpend : CTransaction -> bool;
  zerocoin_inputs_check : CTransaction -> vres unit; (* the loop over public spends *)
  locked_input : COutPoint -> option bytes;          (* mapLockedInputs *)
  minRelayTxFee : CFeeRate;
  datacarrier : bool;
  nMaxDatacarrierBytes : Z;
  fIsBareMultisigStd : bool;
  relaypriority : bool;
  allow_free : CTransaction -> bool;
  rate_limited : Z -> bool
}.

Section Accept.
Context `{accept_env}.

(** [CheckFinalTx] with [STANDARD_LOCKTIME_VERIFY_FLAGS], which have [LOCKTIME_MEDIAN_TIME_PAST]. *)
Definition CheckFinalTx (tx : CTransaction) : bool :=
  IsFinalTx chain_height adjusted_time tx (s32 (chain_height + 1)) median_time_past.

(** ** Standard transactions *)

(** The loop over the inputs. *)
Definition standard_input (txin : CTxIn) : res string unit :=
  if CTxIn_IsZerocoinSpend txin || CTxIn_IsZerocoinPublicSpend txin then Ok tt
  else if 1650 <? zlen (scriptSig txin) then Err "scriptsig-size"%string
  else if negb (IsPushOnly (scriptSig txin)) then Err "scriptsig-not-pushonly"%string
  else Ok tt.

(** The loop over the outputs, with [nDataOut]. *)
Definition standard_output (nDataOut : Z) (txout : CTxOut) : res string Z :=
  let '(ok, whichType) := IsStandard datacarrier nMaxDatacarrierBytes (scriptPubKey txout) in
  if negb ok then Err "scriptpubkey"%string
  else if bool_decide (whichType = TX_NULL_DATA) then Ok (nDataOut + 1)
  else if bool_decide (whichType = TX_MULTISIG) && negb fIsBareMultisigStd then Err "bare-multisig"%string
  else if IsDust txout minRelayTxFee then Err "dust"%string
  else Ok nDataOut.

(** [true], or [false] with the reason. *)
Definition IsStandardTx (tx : CTransaction) : res string unit :=
  if (CURRENT_VERSION <? nVersion tx) || (nVersion tx <? 1) then Err "version"%string
  else if negb (IsFinalTx chain_height adjusted_time tx (s32 (chain_height + 1)) 0) then Err "non-final"%string
  else if (if ContainsZerocoins tx then MAX_ZEROCOIN_TX_SIZE else MAX_STANDARD_TX_SIZE) <=? zlen (Serialize_CTransaction tx) then Err "tx-size"%string
  else
    let* _ := res_fold (fun _ i => standard_input i) tt (vin tx) in
    let* nDataOut := res_fold standard_output 0 (vout tx) in
    if 1 <? nDataOut then Err "multi-op-return"%string else Ok tt.

Definition no_checker : BaseSignatureChecker :=
  {| CheckSig := fun _ _ _ => false; CheckLockTime := fun _ => false; checkColdStake := fun _ => false |}.

Section Views.
Context {V : Type} `{CCoinsView V}.

(** One input of [AreInputsStandard]: go on, or the result. *)
Definition standard_prev (i : CTxIn) (prevScript : bytes) : option bool :=
  let '(ok, whichType, vSolutions) := Solver prevScript in
  if negb ok then Some false
  else
    let nArgsExpected := ScriptSigArgsExpected whichType vSolutions in
    if nArgsExpected <? 0 then Some false
    else
      match EvalScript CheckLowS (scriptSig i) 0 no_checker [] with
      | Err _ => Some false
      | Ok stack =>
          if bool_decide (whichType = TX_SCRIPTHASH) then
            match stack with
            | [] => Some false
            | subscript :: _ =>
                let '(ok2, whichType2, vSolutions2) := Solver subscript in
                if ok2 : bool then
                  let tmpExpected := ScriptSigArgsExpected whichType2 vSolutions2 in
                  if tmpExpected <? 0 then Some false
                  else if negb (zlen stack =? nArgsExpected + tmpExpected) then Some false else None
                else Some (GetSigOpCount subscript true <=? MAX_P2SH_SIGOPS)
            end
          else if negb (zlen stack =? nArgsExpected) then Some false else None
      end.

Fixpoint standard_prevs (l : list CTxIn) : CM V bool :=
  match l with
  | [] => cm_ret true
  | i :: l =>
      let^ prev := cm_assert (fun v => GetOutputFor v i) in
      match standard_prev i (scriptPubKey prev) with Some r => cm_ret r | None => standard_prevs l end
  end.

Definition AreInputsStandard (tx : CTransaction) : CM V bool :=
  if IsCoinBase tx || HasZerocoinSpendInputs tx then cm_ret true else standard_prevs (vin tx).

(** ** The inputs of the transaction, looked up in the coins and the pool *)

(** [for (txin : tx.vin)]: do all inputs exist? *)
Fixpoint inputs_exist (l : list CTxIn) : CM V unit :=
  match l with
  | [] => cm_ret tt
  | txin :: l =>
      let^ have := cm_read (fun v => cache_HaveCoins v (op_hash (prevout txin))) in
      if negb have then cm_fail (Failed "missing inputs")
      else if negb (ValidOutPoint (prevout txin) chain_height) then cm_fail (Invalid REJECT_INVALID "bad-txns-invalid-inputs")
      else inputs_exist l
  end.

(** The branch for ordinary inputs: [nValueIn]. *)
Definition find_inputs (tx : CTransaction) : CM V Z :=
  let^ have := cm_read (fun v => cache_HaveCoins v (CTransaction_GetHash tx)) in
  if have : bool then cm_fail (Failed "already have coins")
  else
    let^ _ := inputs_exist (vin tx) in
    if negb regtest && HasZerocoinMintOutputs tx then cm_fail (Invalid REJECT_INVALID "bad-txns-invalid-outputs")
    else
      let^ available := cm_read (fun v => HaveInputs v tx) in
      if negb available then cm_fail (Invalid REJECT_DUPLICATE "bad-txns-inputs-spent")
      else
        let^ _ := cm_read cache_GetBestBlock in
        cm_assert (fun v => GetValueIn v tx).
End Views.

(** ** Fees *)

Definition GetMinRelayFee (pool : CTxMemPool) (tx : CTransaction) (nBytes : Z) (fAllowFree : bool) : Z :=
  let '(dPriorityDelta, nFeeDelta) := ApplyDeltas pool (CTransaction_GetHash tx) dzero 0 in
  if dpositive dPriorityDelta || (0 <? nFeeDelta) then 0
  else
    let nMinFee := GetFee minRelayTxFee nBytes in
    let nMinFee := if fAllowFree && (nBytes <? DEFAULT_BLOCK_PRIORITY_SIZE - 1000) then 0 else nMinFee in
    if negb (MoneyRange consensus_params nMinFee) then nMaxMoneyOut consensus_params else nMinFee.

(** The block under [if (!ignoreFees)]. *)
Definition check_relay_fee (pool : CTxMemPool) (tx : CTransaction) (nFees nSize : Z) (fLimitFree hasZcSpendInputs : bool) : vres unit :=
  if fLimitFree && (nFees <? GetMinRelayFee pool tx nSize true) && negb hasZcSpendInputs then Err (DoS 0 REJECT_INSUFFICIENTFEE "insufficient fee")
  else if negb hasZcSpendInputs && relaypriority && (nFees <? GetFee minRelayTxFee nSize) && negb (allow_free tx)
  then Err (DoS 0 REJECT_INSUFFICIENTFEE "insufficient priority")
  else if fLimitFree && (nFees <? GetFee minRelayTxFee nSize) && negb hasZcSpendInputs && rate_limited nSize
  then Err (DoS 0 REJECT_INSUFFICIENTFEE "rate limited free transaction")
  else Ok tt.

(** ** [AcceptToMemoryPool] *)

(** The checks before the coins are looked at. *)
Definition check_loose (pool : CTxMemPool) (tx : CTransaction) : vres unit :=
  if spork_zerocoin_maintenance && ContainsZerocoins tx then Err (DoS 10 REJECT_INVALID "bad-tx")
  else match CheckTransaction consensus_params CheckZerocoinSpend tx (height_start_ZC consensus_params <=? chain_height) spork_coldstaking with
  | Err e => Err (escalate e 100 REJECT_INVALID "bad-tx" false)
  | Ok _ =>
  if IsCoinBase tx then Err (DoS 100 REJECT_INVALID "coinbase")
  else if IsCoinStake tx then Err (DoS 100 REJECT_INVALID "coinstake")
  else if negb (CheckFinalTx tx) then Err (DoS 0 REJECT_NONSTANDARD "non-final")
  else match (if negb regtest then IsStandardTx tx else Ok tt) with
       | Err reason => Err (DoS 0 REJECT_NONSTANDARD reason)
       | Ok _ =>
           if exists_tx pool (CTransaction_GetHash tx) then Err (Failed "tx already in mempool")
           else if existsb (fun i => match locked_input (prevout i) with Some h => negb (bool_decide (h = CTransaction_GetHash tx)) | None => false end) (vin tx)
           then Err (DoS 0 REJECT_INVALID "tx-lock-conflict")
           else if negb (HasZerocoinSpendInputs tx) && existsb (fun i => bool_decide (is_Some (mapNextTx pool !! prevout i))) (vin tx)
           then Err (Failed "conflict in mempool")
           else Ok tt
       end
  end.

(** The flags of the two script checks. *)
Definition with_cltv (flags : Z) : Z :=
  if height_start_BIP65 consensus_params <=? chain_height then Z.lor flags SCRIPT_VERIFY_CHECKLOCKTIMEVERIFY else flags.

(** The checks on the view after its backend is switched to the empty one. *)
Definition check_with_inputs (pool : CTxMemPool) (tx : CTransaction) (nValueIn : Z) (fLimitFree fRejectInsaneFee ignoreFees : bool) : CM empty_view CTxMemPoolEntry :=
  let hasZcSpendInputs := HasZerocoinSpendInputs tx in
  let^ standard := (if negb regtest then AreInputsStandard tx else cm_ret true) in
  if negb standard then cm_fail (Failed "nonstandard transaction input")
  else
    let^ nP2SH := (if negb hasZcSpendInputs then GetP2SHSigOpCount tx else cm_ret 0) in
    if negb hasZcSpendInputs && (MAX_TX_SIGOPS_CURRENT <? u32 (GetLegacySigOpCount tx + nP2SH))
    then cm_fail (DoS 0 REJECT_NONSTANDARD "bad-txns-too-many-sigops")
    else
      let^ nValueOut := cm_lift (value_out tx) in
      let nFees := s64 (nValueIn - nValueOut) in
      (* the priority that is computed here is not kept *)
      let entry := CTxMemPoolEntry_new tx nFees now dzero (u32 chain_height) in
      let nSize := u32 (me_nTxSize entry) in
      let^ _ := cm_lift (if negb ignoreFees then check_relay_fee pool tx nFees nSize fLimitFree hasZcSpendInputs else Ok tt) in
      if fRejectInsaneFee && (s64 (GetFee minRelayTxFee nSize * 10000) <? nFees) then cm_fail (Failed "insane fees")
      else if negb regtest && (nFees =? 0) && negb hasZcSpendInputs then cm_fail (Failed "zero fees not accepted")
      else
        let^ _ := CheckInputs tx true (with_cltv STANDARD_SCRIPT_VERIFY_FLAGS) false in
        let^ _ := CheckInputs tx true (with_cltv MANDATORY_SCRIPT_VERIFY_FLAGS) false in
        cm_ret entry.

(** [view.SetBackend] *)
Definition SetBackend {V W : Type} (v : CCoinsViewCache V) (w : W) : CCoinsViewCache W :=
  {| base := w; hashBlock := hashBlock v; cacheCoins := cacheCoins v |}.

Context {B : Type} `{CCoinsView B}.

(** The pool after an accepted transaction, or the rejection. [tip] is [pcoinsTip]. *)
Definition AcceptToMemoryPool (pool : CTxMemPool) (tip : B) (tx : CTransaction) (fLimitFree fRejectInsaneFee ignoreFees : bool) : vres CTxMemPool :=
  let* _ := check_loose pool tx in
  let '(r, view) :=
    if HasZerocoinSpendInputs tx then
      (let* _ := zerocoin_inputs_check tx in Ok (GetZerocoinSpent tx), new_cache (tt : empty_view))
    else
      let (r, v) := find_inputs tx (new_cache {| mp_base := tip; mp_pool := pool |}) in (r, SetBackend v (tt : empty_view)) in
  let* nValueIn := r in
  let* entry := fst (check_with_inputs pool tx nValueIn fLimitFree fRejectInsaneFee ignoreFees view) in
  Ok (addUnchecked pool (CTransaction_GetHash tx) entry).
End Accept.
