(* ===== verification/Orphans.v ===== *)
(** Orphan transactions ([main.cpp]): transactions whose inputs are unknown wait for their
    parents, and the handler of the [tx] message accepts them when the parents arrive. *)

From Stdlib Require Import ZArith Lia String.
From stdpp Require Import base tactics list numbers option gmap fin_maps fin_sets strings sorting.
From S2P Require Import Prelude CString Amount ChainParams Script Standard Serialize Interpreter Transaction Coins CoinsView TxVerify Mempool Connect AcceptTx.

Record COrphanTx := { or_tx : CTransaction; fromPeer : Z }.

Record orphan_maps := {
  mapOrphanTransactions : gmap bytes COrphanTx;
  mapOrphanTransactionsByPrev : gmap bytes (gset bytes) }.

Definition no_orphans : orphan_maps := {| mapOrphanTransactions := ∅; mapOrphanTransactionsByPrev := ∅ |}.

(** [mapOrphanTransactionsByPrev[txin.prevout.hash].insert(hash)] for every input *)
Definition mark_prev (hash : bytes) (byprev : gmap bytes (gset bytes)) (ins : list CTxIn) : gmap bytes (gset bytes) :=
  foldl (fun m txin => <[op_hash (prevout txin) := {[hash]} ∪ default ∅ (m !! op_hash (prevout txin))]> m) byprev ins.

Definition AddOrphanTx (o : orphan_maps) (tx : CTransaction) (peer : Z) : orphan_maps * bool :=
  let hash := CTransaction_GetHash tx in
  if bool_decide (is_Some (mapOrphanTransactions o !! hash)) then (o, false)
  else if 5000 <? zlen (Serialize_CTransaction tx) then (o, false)
  else ({| mapOrphanTransactions := <[hash := {| or_tx := tx; fromPeer := peer |}]> (mapOrphanTransactions o);
           mapOrphanTransactionsByPrev := mark_prev hash (mapOrphanTransactionsByPrev o) (vin tx) |}, true).

(** The loop over the inputs in [EraseOrphanTx]. *)
Definition unmark_prev (hash : bytes) (byprev : gmap bytes (gset bytes)) (ins : list CTxIn) : gmap bytes (gset bytes) :=
  foldl (fun m txin =>
    match m !! op_hash (prevout txin) with
    | None => m
    | Some s => let s := s ∖ {[hash]} in
                if bool_decide (s = ∅) then delete (op_hash (prevout txin)) m else <[op_hash (prevout txin) := s]> m
    end) byprev ins.

Definition EraseOrphanTx (o : orphan_maps) (hash : bytes) : orphan_maps :=
  match mapOrphanTransactions o !! hash with
  | None => o
  | Some x => {| mapOrphanTransactions := delete hash (mapOrphanTransactions o);
                 mapOrphanTransactionsByPrev := unmark_prev hash (mapOrphanTransactionsByPrev o) (vin (or_tx x)) |}
  end.

(** The iterator is advanced before the erasure, so every orphan present at the start is
    looked at. *)
Definition EraseOrphansFor (o : orphan_maps) (peer : Z) : orphan_maps :=
  foldl (fun o kv => if fromPeer kv.2 =? peer then EraseOrphanTx o (CTransaction_GetHash (or_tx kv.2)) else o) o (map_to_list (mapOrphanTransactions o)).

(** [uint256::operator<]: as numbers, the last byte in memory the most significant. *)
Definition hash_le (a b : bytes) : Prop := le_val a <= le_val b.
#[global] Instance hash_le_dec : RelDecision hash_le.
Proof. intros a b. unfold hash_le. apply _. Defined.

(** [lower_bound(randomhash)], or [begin()] at the end. *)
Definition evicted (o : orphan_maps) (randomhash : bytes) : option bytes :=
  let keys := merge_sort hash_le (map_to_list (mapOrphanTransactions o)).*1 in
  match List.find (fun k => bool_decide (hash_le randomhash k)) keys with Some k => Some k | None => head keys end.

(** [while (mapOrphanTransactions.size() > nMaxOrphans)]; [rand] are the random hashes. *)
Fixpoint limit_loop (fuel : nat) (o : orphan_maps) (nMaxOrphans : Z) (rand : nat -> bytes) (nEvicted : nat) : orphan_maps * nat :=
  match fuel with
  | O => (o, nEvicted)
  | S fuel =>
      if nMaxOrphans <? Z.of_nat (size (mapOrphanTransactions o)) then
        match evicted o (rand nEvicted) with
        | Some k => limit_loop fuel (EraseOrphanTx o k) nMaxOrphans rand (S nEvicted)
        | None => (o, nEvicted)
        end
      else (o, nEvicted)
  end.
Definition LimitOrphanTxSize (o : orphan_maps) (nMaxOrphans : Z) (rand : nat -> bytes) : orphan_maps * nat :=
  limit_loop (size (mapOrphanTransactions o)) o nMaxOrphans rand 0.

(** ** The [tx] message *)

Section Handler.
Context `{accept_env} {B : Type} `{CCoinsView B} (tip : B).

(** What the handler changes while it tries orphans: the pool, the relayed transactions,
    the peers punished with their scores, the two queues. *)
Record orphan_work := {
  w_pool : CTxMemPool; w_relayed : list CTransaction; setMisbehaving : list (Z * Z); w_queue : list bytes; vEraseQueue : list bytes }.

(** [state.IsInvalid(nDos)] of the state that a rejection leaves. *)
Definition dos_of (r : reject) : Z := default 0 (state_IsInvalid (state_after CValidationState_new (A := unit) (Err r))).

Definition missing_inputs (r : reject) : bool := bool_decide (r = Failed "missing inputs").

(** One orphan of the inner loop. *)
Definition try_orphan (o : orphan_maps) (w : orphan_work) (orphanHash : bytes) : orphan_work :=
  let x := default {| or_tx := {| nVersion := CURRENT_VERSION; vin := []; vout := []; nLockTime := 0 |}; fromPeer := 0 |} (mapOrphanTransactions o !! orphanHash) in
  if existsb (fun pd => fst pd =? fromPeer x) (setMisbehaving w) then w
  else match AcceptToMemoryPool (w_pool w) tip (or_tx x) true false false with
       | Ok pool => {| w_pool := pool; w_relayed := w_relayed w ++ [or_tx x]; setMisbehaving := setMisbehaving w;
                       w_queue := w_queue w ++ [orphanHash]; vEraseQueue := vEraseQueue w ++ [orphanHash] |}
       | Err r =>
           if missing_inputs r then w
           else {| w_pool := w_pool w; w_relayed := w_relayed w;
                   setMisbehaving := if 0 <? dos_of r then setMisbehaving w ++ [(fromPeer x, dos_of r)] else setMisbehaving w;
                   w_queue := w_queue w; vEraseQueue := vEraseQueue w ++ [orphanHash] |}
       end.

(** [for (i = 0; i < vWorkQueue.size(); i++)]: the queue grows while it is walked. *)
Fixpoint orphan_loop (fuel : nat) (o : orphan_maps) (w : orphan_work) (i : nat) : orphan_work :=
  match fuel with
  | O => w
  | S fuel =>
      match w_queue w !! i with
      | None => w
      | Some h =>
          let w := match mapOrphanTransactionsByPrev o !! h with
                   | None => w
                   | Some s => foldl (try_orphan o) w (merge_sort hash_le (elements s))
                   end in
          orphan_loop fuel o w (S i)
      end
  end.

Record tx_result := { r_pool : CTxMemPool; r_orphans : orphan_maps; r_relayed : list CTransaction; r_punished : list (Z * Z) }.

(** The handler, for a transaction from a peer. The queue holds the transaction and the
    orphans accepted, so [1 + size] rounds are enough. *)
Definition TX (pool : CTxMemPool) (o : orphan_maps) (tx : CTransaction) (peer : Z) (fWhitelisted : bool) (nMaxOrphanTx : Z) (rand : nat -> bytes) : tx_result :=
  let r := AcceptToMemoryPool pool tip tx true false false in
  let punish r := match r with Err e => if 0 <? dos_of e then [(peer, dos_of e)] else [] | Ok _ => [] end in
  match r with
  | Ok pool' =>
      if negb (HasZerocoinSpendInputs tx) then
        let w := orphan_loop (S (size (mapOrphanTransactions o))) o
                   {| w_pool := pool'; w_relayed := [tx]; setMisbehaving := []; w_queue := [CTransaction_GetHash tx]; vEraseQueue := [] |} 0 in
        {| r_pool := w_pool w; r_orphans := foldl EraseOrphanTx o (vEraseQueue w); r_relayed := w_relayed w; r_punished := setMisbehaving w |}
      else {| r_pool := pool'; r_orphans := o; r_relayed := [tx]; r_punished := [] |}
  | Err e =>
      if negb (HasZerocoinSpendInputs tx) && missing_inputs e then
        {| r_pool := pool; r_orphans := fst (LimitOrphanTxSize (fst (AddOrphanTx o tx peer)) nMaxOrphanTx rand); r_relayed := []; r_punished := punish r |}
      else {| r_pool := pool; r_orphans := o; r_relayed := if fWhitelisted then [tx] else []; r_punished := punish r |}
  end.
End Handler.
