(* ===== verification/Kernel.v ===== *)
(** Proof of stake ([kernel.cpp], [stakeinput.cpp], [zpwrb/zpos.cpp]): the input that
    stakes a block, its kernel, the search for a kernel by the wallet and its check in
    validation.

    Inputs of the model: the lookup of a transaction and its block (mempool, index or
    block files), the decoding of a zerocoin spend, the database of accumulator
    checksums, and the clock. *)

From Stdlib Require Import ZArith Lia.
From stdpp Require Import base tactics list numbers gmap strings.
From S2P Require Import Prelude Amount ArithUint256 Hash ChainParams Interpreter Sighash Transaction Block Chain Pow StakeModifier TxVerify Connect.

(** ** The interface of a staking input *)

(** [CStakeInput]: what [GetIndexFrom], [GetValue], [GetUniqueness], [IsZPWRB],
    [ContextCheck] and [GetTxOutFrom] return; [None] is null, out of range or false. *)
Record CStakeInput := {
  si_GetIndexFrom : option ptr;
  si_GetValue : option Z;
  si_GetUniqueness : bytes;
  si_IsZPWRB : bool;
  si_ContextCheck : Z -> Z -> bool;
  si_GetTxOutFrom : option CTxOut
}.

Record CPwrbStake := { txFrom : CTransaction; nPosition : Z; pindexFrom : option ptr }.
Record CLegacyZPwrbStake := { nChecksum : Z; denom : Z; hashSerial : bytes }.

(** What a zerocoin spend says about itself. *)
Record CoinSpend := { accChecksum : Z; spend_denom : Z; serial : bytes; fSpendStake : bool }.

Definition zerocoinDenomList : list Z := [1; 5; 10; 50; 100; 500; 1000; 5000].
Definition IntToZerocoinDenomination (amount : Z) : Z := if decide (amount ∈ zerocoinDenomList) then amount else 0.
Definition AmountToZerocoinDenomination (amount : Z) : Z :=
  if amount - COIN * Z.quot amount COIN =? 0 then IntToZerocoinDenomination (Z.quot amount COIN) else 0.

Definition denom_position (d : Z) : Z :=
  match list_find (fun x => x = d) zerocoinDenomList with Some (i, _) => Z.of_nat i | None => zlen zerocoinDenomList end.
Definition ParseAccChecksum (nCheckpoint : bytes) (d : Z) : Z :=
  Get32 (uint_shr (uint_of_hash nCheckpoint) (u32 (32 * (zlen zerocoinDenomList - 1 - denom_position d)))) 0.

Section Kernel.
Context (consensus : ConsensusParams) (fRegTest : bool) (ix : BlockMap) (chain : CChain).
Context (GetTransaction : bytes -> option (CTransaction * bytes)).
Context (TxInToZerocoinSpend : CTxIn -> option CoinSpend) (ReadAccChecksum : Z -> Z -> option Z).

(** ** [CPwrbStake] *)

Definition in_active_chain (hashBlock : bytes) : option ptr :=
  match ix !! hashBlock with Some _ => if Contains ix chain hashBlock then Some hashBlock else None | None => None end.

Definition CPwrbStake_InitFromTxIn (txin : CTxIn) : option CPwrbStake :=
  if CTxIn_IsZerocoinSpend txin then None
  else
    match GetTransaction (op_hash (prevout txin)) with
    | None => None
    | Some (txPrev, hashBlock) =>
        match in_active_chain hashBlock with
        | None => None
        | Some p => Some {| txFrom := txPrev; nPosition := op_n (prevout txin); pindexFrom := Some p |}
        end
    end.

Definition CPwrbStake_GetTxOutFrom (s : CPwrbStake) : option CTxOut :=
  if CTransaction_IsNull (txFrom s) || (zlen (vout (txFrom s)) <=? nPosition s) then None else vout (txFrom s) !! Z.to_nat (nPosition s).
Definition CPwrbStake_GetValue (s : CPwrbStake) : option Z :=
  o ← vout (txFrom s) !! Z.to_nat (nPosition s); Some (nValue o).
Definition CPwrbStake_GetUniqueness (s : CPwrbStake) : bytes := le_bytes 4 (nPosition s) ++ CTransaction_GetHash (txFrom s).

Definition CPwrbStake_GetIndexFrom (s : CPwrbStake) : option ptr :=
  match pindexFrom s with
  | Some p => Some p
  | None => match GetTransaction (CTransaction_GetHash (txFrom s)) with Some (_, hashBlock) => in_active_chain hashBlock | None => None end
  end.

Definition CPwrbStake_ContextCheck (s : CPwrbStake) (nHeight nTime : Z) : bool :=
  match CPwrbStake_GetIndexFrom s ≫= (ix !!.) with
  | None => false
  | Some e =>
      negb ((height_start_ZC_PublicSpends consensus - 1 <=? nHeight) &&
            negb (HasStakeMinAgeOrDepth consensus nHeight nTime (bi_nHeight e) (bi_nTime e)))
  end.

Definition CPwrbStake_input (s : CPwrbStake) : CStakeInput :=
  {| si_GetIndexFrom := CPwrbStake_GetIndexFrom s; si_GetValue := CPwrbStake_GetValue s; si_GetUniqueness := CPwrbStake_GetUniqueness s;
     si_IsZPWRB := false; si_ContextCheck := CPwrbStake_ContextCheck s; si_GetTxOutFrom := CPwrbStake_GetTxOutFrom s |}.

(** ** [CLegacyZPwrbStake] *)

(** [while (pindex && pindex->nHeight <= height_last_ZC_AccumCheckpoint)] *)
Fixpoint checksum_scan (fuel : nat) (pindex : option ptr) (s : CLegacyZPwrbStake) : option ptr :=
  match fuel, pindex with
  | S fuel, Some p =>
      e ← ix !! p;
      if bi_nHeight e <=? height_last_ZC_AccumCheckpoint consensus then
        if ParseAccChecksum (bi_nAccumulatorCheckpoint e) (denom s) =? nChecksum s then Some p
        else checksum_scan fuel (if Z.rem (bi_nHeight e) 10 =? 0 then chain_at chain (bi_nHeight e + 10) else Next ix chain p) s
      else None
  | _, _ => None
  end.

Definition CLegacyZPwrbStake_GetIndexFrom (s : CLegacyZPwrbStake) : option ptr :=
  match ReadAccChecksum (nChecksum s) (denom s) with
  | Some nHeightChecksum => chain_at chain nHeightChecksum
  | None => checksum_scan (length chain) (chain_at chain (height_start_ZC consensus)) s
  end.

Definition CLegacyZPwrbStake_InitFromTxIn (txin : CTxIn) : option CLegacyZPwrbStake :=
  if negb (CTxIn_IsZerocoinSpend txin) then None
  else
    spend ← TxInToZerocoinSpend txin;
    if negb (fSpendStake spend) then None
    else
      let s := {| nChecksum := accChecksum spend; denom := spend_denom spend; hashSerial := Hash (serial spend) |} in
      match CLegacyZPwrbStake_GetIndexFrom s with Some _ => Some s | None => None end.

Definition CLegacyZPwrbStake_GetValue (s : CLegacyZPwrbStake) : Z := denom s * COIN.

Definition CLegacyZPwrbStake_ContextCheck (s : CLegacyZPwrbStake) (nHeight nTime : Z) : bool :=
  if (nHeight <? height_start_ZC_SerialsV2 consensus) || (height_last_ZC_AccumCheckpoint consensus <=? nHeight) then false
  else
    match chain_at chain (nHeight - 1 - ZC_MinStakeDepth consensus) ≫= (ix !!.) with
    | None => false
    | Some e => ParseAccChecksum (bi_nAccumulatorCheckpoint e) (AmountToZerocoinDenomination (CLegacyZPwrbStake_GetValue s)) =? nChecksum s
    end.

Definition CLegacyZPwrbStake_input (s : CLegacyZPwrbStake) : CStakeInput :=
  {| si_GetIndexFrom := CLegacyZPwrbStake_GetIndexFrom s; si_GetValue := Some (CLegacyZPwrbStake_GetValue s); si_GetUniqueness := hashSerial s;
     si_IsZPWRB := true; si_ContextCheck := CLegacyZPwrbStake_ContextCheck s; si_GetTxOutFrom := None |}.

(** ** [CStakeKernel] *)

Record CStakeKernel := {
  k_stakeModifier : bytes;
  k_nTimeBlockFrom : Z;
  k_stakeUniqueness : bytes;
  k_nTime : Z;
  k_nBits : Z;
  k_stakeValue : Z
}.

(** [None]: a null [pindexFrom] or a position out of range. *)
Definition CStakeKernel_new (prev : CBlockIndex) (stakeInput : CStakeInput) (nBits nTimeTx : Z) : option CStakeKernel :=
  stakeValue ← si_GetValue stakeInput;
  let stakeModifier :=
    if bi_nHeight prev + 1 <? height_start_StakeModifierV2 consensus
    then le_bytes 8 (default 0 (GetOldStakeModifier consensus ix chain (si_GetIndexFrom stakeInput) (si_IsZPWRB stakeInput)))
    else GetStakeModifierV2 consensus prev in
  from ← si_GetIndexFrom stakeInput ≫= (ix !!.);
  Some {| k_stakeModifier := stakeModifier; k_nTimeBlockFrom := s32 (bi_nTime from); k_stakeUniqueness := si_GetUniqueness stakeInput;
          k_nTime := s32 nTimeTx; k_nBits := nBits; k_stakeValue := stakeValue |}.

Definition CStakeKernel_GetHash (k : CStakeKernel) : bytes :=
  Hash (k_stakeModifier k ++ le_bytes 4 (k_nTimeBlockFrom k) ++ k_stakeUniqueness k ++ le_bytes 4 (k_nTime k)).

(** The target times a hundredth of the value; the product wraps at 256 bits. *)
Definition weighted_target (nBits stakeValue : Z) : option base_uint :=
  weight ← uint_div (uint_of 8 (u64 stakeValue)) (uint_of 8 100);
  Some (uint_mul (target_of nBits) weight).

Definition CheckKernelHash (k : CStakeKernel) : bool :=
  match weighted_target (k_nBits k) (k_stakeValue k) with
  | Some bnTarget => CompareTo (uint_of_hash (CStakeKernel_GetHash k)) bnTarget <? 0
  | None => false
  end.

(** ** Staking and validation *)

Definition LoadStakeInput (block : CBlock) (pindexPrev : option ptr) : option CStakeInput :=
  if match pindexPrev with
     | None => bool_decide (is_Some (ix !! hashPrevBlock (header block)))
     | Some p => bool_decide (hashPrevBlock (header block) = p)
     end
  then
    if negb (IsProofOfStake block) then None
    else
      txin ← vtx block !! 1%nat ≫= (fun tx => vin tx !! 0%nat);
      if CTxIn_IsZerocoinSpend txin then CLegacyZPwrbStake_input <$> CLegacyZPwrbStake_InitFromTxIn txin
      else CPwrbStake_input <$> CPwrbStake_InitFromTxIn txin
  else None.

Definition GetTimeSlot (nTime : Z) : Z := Z.quot nTime (nTimeSlotLength consensus) * nTimeSlotLength consensus.

(** The result and [nTimeTx]; [now] is [GetAdjustedTime()]. *)
Definition Stake (prev : CBlockIndex) (stakeInput : option CStakeInput) (nBits nTimeTx now : Z) : option (bool * Z) :=
  match stakeInput with
  | None => Some (false, nTimeTx)
  | Some s =>
      if negb (si_ContextCheck s (bi_nHeight prev + 1) (u32 nTimeTx)) then Some (false, nTimeTx)
      else
        let nTimeTx := if fRegTest then now else GetTimeSlot now in
        if (nTimeTx <=? bi_nTime prev) && negb fRegTest then Some (false, nTimeTx)
        else k ← CStakeKernel_new prev s nBits nTimeTx; Some (CheckKernelHash k, nTimeTx)
  end.

Inductive pos_error :=
| StakeInputInit | StakeInputContext | KernelHash | NoStakePrevout | SignatureFails (e : ScriptError) | PosUndefined.

Context (Verify : bytes -> bytes -> bytes -> bool) (CheckLowS : bytes -> bool).

Definition CheckProofOfStake (block : CBlock) (pindexPrev : ptr) : res pos_error unit :=
  match ix !! pindexPrev with
  | None => Err PosUndefined
  | Some prev =>
      match LoadStakeInput block (Some pindexPrev) with
      | None => Err StakeInputInit
      | Some stakeInput =>
          if negb (si_ContextCheck stakeInput (bi_nHeight prev + 1) (nTime (header block))) then Err StakeInputContext
          else
            match CStakeKernel_new prev stakeInput (nBits (header block)) (nTime (header block)) with
            | None => Err PosUndefined
            | Some k =>
                if negb (CheckKernelHash k) then Err KernelHash
                else if si_IsZPWRB stakeInput then Ok tt
                else
                  match si_GetTxOutFrom stakeInput with
                  | None => Err NoStakePrevout
                  | Some stakePrevout =>
                      match vtx block !! 1%nat with
                      | None => Err PosUndefined
                      | Some tx =>
                          match vin tx !! 0%nat with
                          | None => Err PosUndefined
                          | Some txin =>
                              match VerifyScript CheckLowS (scriptSig txin) (scriptPubKey stakePrevout) STANDARD_SCRIPT_VERIFY_FLAGS
                                      (TransactionSignatureChecker Verify tx 0) with
                              | Some (Ok _) => Ok tt
                              | Some (Err e) => Err (SignatureFails e)
                              | None => Err PosUndefined
                              end
                          end
                      end
                  end
            end
      end
  end.

(** [GetStakeKernelHash]; [None]: it returns false. *)
Definition GetStakeKernelHash (block : CBlock) (pindexPrev : ptr) : option bytes :=
  stakeInput ← LoadStakeInput block (Some pindexPrev);
  prev ← ix !! pindexPrev;
  k ← CStakeKernel_new prev stakeInput (nBits (header block)) (nTime (header block));
  Some (CStakeKernel_GetHash k).
End Kernel.

(** ** The kernel check as arithmetic *)

Lemma weighted_target_spec nBits v : 0 <= nBits < 2 ^ 32 -> 0 <= v < 2 ^ 63 -> exists w, weighted_target nBits v = Some w /\ words w /\ length w = 8%nat /\
  val w = (val (target_of nBits) * (v / 100)) `mod` 2 ^ 256.
Proof.
  intros Hb Hv. destruct (target_of_words nBits Hb) as [Wt Lt]. unfold weighted_target, u64. rewrite (Z.mod_small v) by lia.
  destruct (uint_of_spec 8 v ltac:(lia) ltac:(lia)) as (V1 & W1 & L1). destruct (uint_of_spec 8 100 ltac:(lia) ltac:(lia)) as (V2 & W2 & L2).
  destruct (uint_div_spec _ _ W1 W2 ltac:(congruence) ltac:(lia)) as (q & E & Vq & Wq & Lq). rewrite E. cbn [mbind option_bind].
  destruct (uint_mul_spec (target_of nBits) q Wt Wq ltac:(congruence)) as (Vm & Wm & Lm). eexists. split; [done |]. split_and!; [done | congruence |].
  rewrite Vm, Vq, V1, V2. unfold modulus, zlen. by rewrite Lt.
Qed.

Lemma CheckKernelHash_lt k : 0 <= k_nBits k < 2 ^ 32 -> 0 <= k_stakeValue k < 2 ^ 63 ->
  CheckKernelHash k = (val (uint_of_hash (CStakeKernel_GetHash k)) <? (val (target_of (k_nBits k)) * (k_stakeValue k / 100)) `mod` 2 ^ 256).
Proof.
  intros Hb Hv. unfold CheckKernelHash. destruct (weighted_target_spec _ _ Hb Hv) as (w & -> & Ww & Lw & Vw).
  destruct (uint_lit_words 8 (le_val (CStakeKernel_GetHash k))) as [W L]. fold (uint_of_hash (CStakeKernel_GetHash k)) in W, L.
  rewrite CompareTo_sign by congruence. rewrite <- Vw. unfold sign_of.
  destruct (Z.ltb_spec (val (uint_of_hash (CStakeKernel_GetHash k))) (val w)); [done |]. by case_match.
Qed.

(** the chance of a stake does not grow with its value: at the easiest target that the
    main network allows, a stake of 1.05 coins has less than a hundredth of the weighted
    target of one coin, because the product of the target and the value wraps at 256
    bits. *)
Theorem stake_weight_wraps : exists nBits a b, GetCompact (uint_lit 8 (posLimitV2 mainConsensus)) false = Some nBits /\
  weighted_target nBits COIN = Some a /\ weighted_target nBits 105000000 = Some b /\ 100 * val b < val a.
Proof.
  destruct (GetCompact (uint_lit 8 (posLimitV2 mainConsensus)) false) as [c |] eqn:E; [| by vm_compute in E].
  assert (Hc : c = 0x1e0fffff) by (vm_compute in E; by injection E as <-). subst c.
  destruct (weighted_target_spec 0x1e0fffff COIN ltac:(lia) ltac:(unfold COIN; lia)) as (a & Ea & _ & _ & Va).
  destruct (weighted_target_spec 0x1e0fffff 105000000 ltac:(lia) ltac:(lia)) as (b & Eb & _ & _ & Vb).
  exists 0x1e0fffff, a, b. split_and!; [done | done | done |]. rewrite Va, Vb. vm_compute. reflexivity.
Qed.

(** ** What the wallet stakes, validation accepts *)

Section Agreement.
Context (consensus : ConsensusParams) (fRegTest : bool) (ix : BlockMap) (chain : CChain).
Context (GetTransaction : bytes -> option (CTransaction * bytes)).
Context (TxInToZerocoinSpend : CTxIn -> option CoinSpend) (ReadAccChecksum : Z -> Z -> option Z).
Context (Verify : bytes -> bytes -> bytes -> bool) (CheckLowS : bytes -> bool).

(** The context check only gets easier with time. *)
Lemma context_later s h t t' : t <= t' -> CPwrbStake_ContextCheck consensus ix chain GetTransaction s h t = true ->
  CPwrbStake_ContextCheck consensus ix chain GetTransaction s h t' = true.
Proof using Type.
  intros Ht. unfold CPwrbStake_ContextCheck. destruct (_ ≫= _) as [e |]; [| done]. unfold HasStakeMinAgeOrDepth.
  rewrite !negb_true_iff, !andb_false_iff, !negb_false_iff. intros [? | H]; [by left | right]. case_match; [bprop; lia | done].
Qed.

Lemma init_same tx n p txin : GetTransaction (CTransaction_GetHash tx) = Some (tx, p) -> in_active_chain ix chain p = Some p ->
  CTxIn_IsZerocoinSpend txin = false -> prevout txin = {| op_hash := CTransaction_GetHash tx; op_n := n |} ->
  CPwrbStake_InitFromTxIn ix chain GetTransaction txin = Some {| txFrom := tx; nPosition := n; pindexFrom := Some p |}.
Proof using Type. intros Hg Hc Hz Ep. unfold CPwrbStake_InitFromTxIn. rewrite Hz, Ep. cbn [op_hash op_n]. by rewrite Hg, Hc. Qed.

(** C39: when the wallet finds that an output can stake a block on a parent, a block on
    that parent with the same target and the time that the search chose, whose coinstake
    spends the output first and signs it, passes the proof-of-stake check of validation,
    provided that the chosen time is not before the time the search started from. *)
Theorem Stake_accepted (prev : CBlockIndex) (p : ptr) (tx : CTransaction) (n nBits_ t0 t1 now : Z) (block : CBlock) (stakeTx : CTransaction) (txin : CTxIn) (out : CTxOut) :
  ix !! p = Some prev -> 0 <= t0 <= t1 -> t1 < 2 ^ 31 -> 0 <= n ->
  Stake consensus fRegTest ix chain prev (Some (CPwrbStake_input consensus ix chain GetTransaction {| txFrom := tx; nPosition := n; pindexFrom := None |}))
    nBits_ t0 now = Some (true, t1) ->
  (forall hb tx', GetTransaction (CTransaction_GetHash tx) = Some (tx', hb) -> tx' = tx) ->
  IsProofOfStake block = true -> hashPrevBlock (header block) = p -> nBits (header block) = nBits_ -> nTime (header block) = t1 ->
  vtx block !! 1%nat = Some stakeTx -> vin stakeTx !! 0%nat = Some txin -> CTxIn_IsZerocoinSpend txin = false ->
  prevout txin = {| op_hash := CTransaction_GetHash tx; op_n := n |} -> vout tx !! Z.to_nat n = Some out ->
  VerifyScript CheckLowS (scriptSig txin) (scriptPubKey out) STANDARD_SCRIPT_VERIFY_FLAGS (TransactionSignatureChecker Verify stakeTx 0) = Some (Ok tt) ->
  CheckProofOfStake consensus ix chain GetTransaction TxInToZerocoinSpend ReadAccChecksum Verify CheckLowS block p = Ok tt.
Proof using Type.
  intros Hp Ht0 Ht1 Hn HS Huniq Hpos Hprev Hbits Htime Htx Hin Hz Hout Ho Hver. set (s0 := {| txFrom := tx; nPosition := n; pindexFrom := None |}) in *.
  unfold Stake in HS. cbn [CPwrbStake_input si_ContextCheck] in HS. unfold u32 in HS. rewrite (Z.mod_small t0) in HS by lia.
  destruct (CPwrbStake_ContextCheck consensus ix chain GetTransaction s0 (bi_nHeight prev + 1) t0) eqn:Hctx; cbn [negb] in HS; [| done].
  destruct (_ && _) in HS; [done |].
  destruct (CStakeKernel_new consensus ix chain prev _ nBits_ _) as [k |] eqn:Hk in HS; [| done]. cbn [mbind option_bind] in HS. injection HS as Hhash E1. rewrite E1 in Hk.
  assert (Hidx : exists q, CPwrbStake_GetIndexFrom ix chain GetTransaction s0 = Some q).
  { unfold CPwrbStake_ContextCheck in Hctx. destruct (CPwrbStake_GetIndexFrom ix chain GetTransaction s0) as [q |]; [eauto | done]. }
  destruct Hidx as [q Hq]. assert (Hq' := Hq). unfold CPwrbStake_GetIndexFrom in Hq'. cbn [s0 pindexFrom txFrom] in Hq'.
  destruct (GetTransaction (CTransaction_GetHash tx)) as [[tx' hb] |] eqn:Hg; [| done]. assert (tx' = tx) as -> by (by apply (Huniq hb)).
  assert (hb = q) as -> by (unfold in_active_chain in Hq'; repeat case_match; congruence).
  pose proof (init_same tx n q txin Hg Hq' Hz Hout) as Hinit. set (s1 := {| txFrom := tx; nPosition := n; pindexFrom := Some q |}) in *.
  assert (Hctx1 : CPwrbStake_ContextCheck consensus ix chain GetTransaction s1 (bi_nHeight prev + 1) t1 = true).
  { apply (context_later _ _ t0); [lia |]. rewrite <- Hctx. unfold CPwrbStake_ContextCheck. by rewrite Hq. }
  assert (Hk1 : CStakeKernel_new consensus ix chain prev (CPwrbStake_input consensus ix chain GetTransaction s1) nBits_ t1 = Some k).
  { rewrite <- Hk. unfold CStakeKernel_new. cbn [CPwrbStake_input si_GetIndexFrom si_GetValue si_GetUniqueness si_IsZPWRB]. by rewrite Hq. }
  assert (Hload : LoadStakeInput consensus ix chain GetTransaction TxInToZerocoinSpend ReadAccChecksum block (Some p) = Some (CPwrbStake_input consensus ix chain GetTransaction s1)).
  { unfold LoadStakeInput. rewrite bool_decide_true, Hpos, Htx by done. cbn [negb mbind option_bind]. rewrite Hin. cbn [mbind option_bind]. by rewrite Hz, Hinit. }
  assert (Hnth : CPwrbStake_GetTxOutFrom s1 = Some out).
  { unfold CPwrbStake_GetTxOutFrom, CTransaction_IsNull. cbn [s1 txFrom nPosition]. apply lookup_lt_Some in Ho as Hlt.
    destruct (Z.leb_spec (zlen (vout tx)) n); [unfold zlen in *; lia |]. destruct (Z.eqb_spec (zlen (vout tx)) 0); [unfold zlen in *; lia |]. by rewrite andb_false_r. }
  unfold CheckProofOfStake. rewrite Hp, Hload, Hbits, Htime. cbn [CPwrbStake_input si_ContextCheck si_IsZPWRB si_GetTxOutFrom].
  rewrite Hctx1. cbn [negb]. fold (CPwrbStake_input consensus ix chain GetTransaction s1). rewrite Hk1, Hhash. cbn [negb]. by rewrite Hnth, Htx, Hin, Hver.
Qed.
End Agreement.

(** A stake of 299 units at height 2001, whose output anyone can spend. *)
Definition stake_tx : CTransaction := {| nVersion := 1; vin := []; vout := [{| nValue := 299; scriptPubKey := [0x51]; nRounds := 0 |}]; nLockTime := 0 |}.
Definition stake_entry (h : Z) : CBlockIndex := with_links (CBlockIndex_new CBlock_SetNull) None None h.
Definition stake_index : BlockMap := {[ [1] := stake_entry 0; [2] := stake_entry 2000 ]}.
Definition stake_txin : CTxIn := {| prevout := {| op_hash := CTransaction_GetHash stake_tx; op_n := 0 |}; scriptSig := []; nSequence := 0 |}.
Definition coinstake : CTransaction :=
  {| nVersion := 1; vin := [stake_txin]; vout := [{| nValue := 0; scriptPubKey := []; nRounds := 0 |}; {| nValue := 299; scriptPubKey := [0x51]; nRounds := 0 |}]; nLockTime := 0 |}.
Definition stake_block : CBlock :=
  {| header := {| h_nVersion := 7; hashPrevBlock := [2]; hashMerkleRoot := []; nTime := 1500; nBits := 0x207fffff; nNonce := 0; nAccumulatorCheckpoint := [] |};
     vtx := [coinstake; coinstake]; vchBlockSig := [] |}.
Definition find_stake_tx (_ : bytes) : option (CTransaction * bytes) := Some (stake_tx, [1]).

Lemma stake_found : Stake mainConsensus false stake_index [Some [1]] (stake_entry 2000)
  (Some (CPwrbStake_input mainConsensus stake_index [Some [1]] find_stake_tx {| txFrom := stake_tx; nPosition := 0; pindexFrom := None |}))
  0x207fffff 1000 1505 = Some (true, 1500).
Proof. vm_compute. reflexivity. Qed.

Lemma Stake_accepted_witness : CheckProofOfStake mainConsensus stake_index [Some [1]] find_stake_tx (fun _ => None) (fun _ _ => None) (fun _ _ _ => true)
  (fun _ => true) stake_block [2] = Ok tt.
Proof.
  apply (Stake_accepted mainConsensus false stake_index [Some [1]] find_stake_tx (fun _ => None) (fun _ _ => None) (fun _ _ _ => true) (fun _ => true)
    (stake_entry 2000) [2] stake_tx 0 0x207fffff 1000 1500 1505 stake_block coinstake stake_txin {| nValue := 299; scriptPubKey := [0x51]; nRounds := 0 |});
    [reflexivity | lia | lia | lia | exact stake_found | | | reflexivity .. | | reflexivity | reflexivity | reflexivity].
  - intros hb tx' E. unfold find_stake_tx in E. congruence.
  - vm_compute. reflexivity.
  - unfold CTxIn_IsZerocoinSpend. rewrite andb_comm. reflexivity.
Defined.
