(* ===== verification/AcceptBlock.v ===== *)
(** A block that arrives ([main.cpp], [blocksignature.cpp], [chain.h]): where it is stored
    ([FindBlockPos]), its header ([AcceptBlockHeader]), the inputs of its coinstake, and the
    whole of [AcceptBlock] and [ProcessNewBlock].

    Reading and writing block files, the free space on the disk, the coins of the tip and
    the zerocoin library are inputs. *)

From Stdlib Require Import ZArith Lia String.
From stdpp Require Import base tactics list numbers option gmap strings.
From S2P Require Import Prelude ArithUint256 ChainParams Script Standard Transaction Block TxVerify Chain Pow StakeModifier Coins BlockTree BlockIndexing Kernel BlockCheck.

(** ** Block files *)

Record CBlockFileInfo := {
  bf_nBlocks : Z; bf_nSize : Z; bf_nUndoSize : Z; bf_nHeightFirst : Z; bf_nHeightLast : Z; bf_nTimeFirst : Z; bf_nTimeLast : Z }.

Definition CBlockFileInfo_null : CBlockFileInfo :=
  {| bf_nBlocks := 0; bf_nSize := 0; bf_nUndoSize := 0; bf_nHeightFirst := 0; bf_nHeightLast := 0; bf_nTimeFirst := 0; bf_nTimeLast := 0 |}.

(** [AddBlock], then the new [nSize]. *)
Definition AddBlock (f : CBlockFileInfo) (nHeightIn nTimeIn : Z) : CBlockFileInfo :=
  {| bf_nHeightFirst := if (bf_nBlocks f =? 0) || (nHeightIn <? bf_nHeightFirst f) then nHeightIn else bf_nHeightFirst f;
     bf_nTimeFirst := if (bf_nBlocks f =? 0) || (nTimeIn <? bf_nTimeFirst f) then nTimeIn else bf_nTimeFirst f;
     bf_nBlocks := u32 (bf_nBlocks f + 1);
     bf_nHeightLast := if bf_nHeightLast f <? nHeightIn then nHeightIn else bf_nHeightLast f;
     bf_nTimeLast := if bf_nTimeLast f <? nTimeIn then nTimeIn else bf_nTimeLast f;
     bf_nSize := bf_nSize f; bf_nUndoSize := bf_nUndoSize f |}.
Definition with_size (f : CBlockFileInfo) (n : Z) : CBlockFileInfo :=
  {| bf_nHeightFirst := bf_nHeightFirst f; bf_nTimeFirst := bf_nTimeFirst f; bf_nBlocks := bf_nBlocks f; bf_nHeightLast := bf_nHeightLast f;
     bf_nTimeLast := bf_nTimeLast f; bf_nSize := n; bf_nUndoSize := bf_nUndoSize f |}.
Definition with_undo_size (f : CBlockFileInfo) (n : Z) : CBlockFileInfo :=
  {| bf_nHeightFirst := bf_nHeightFirst f; bf_nTimeFirst := bf_nTimeFirst f; bf_nBlocks := bf_nBlocks f; bf_nHeightLast := bf_nHeightLast f;
     bf_nTimeLast := bf_nTimeLast f; bf_nSize := bf_nSize f; bf_nUndoSize := n |}.

Definition MAX_BLOCKFILE_SIZE : Z := 0x8000000.
Definition BLOCKFILE_CHUNK_SIZE : Z := 0x1000000.
Definition UNDOFILE_CHUNK_SIZE : Z := 0x100000.

Record block_files := { vinfoBlockFile : list CBlockFileInfo; nLastBlockFile : Z; setDirtyFileInfo : gset Z }.

(** [vinfoBlockFile.resize(nFile + 1)] when it is shorter. *)
Definition grow_files (l : list CBlockFileInfo) (nFile : Z) : list CBlockFileInfo :=
  l ++ replicate (S (Z.to_nat nFile) - length l) CBlockFileInfo_null.

(** [while (vinfoBlockFile[nFile].nSize + nAddSize >= MAX_BLOCKFILE_SIZE)]; [None]: more
    rounds than [fuel]. *)
Fixpoint next_file (fuel : nat) (l : list CBlockFileInfo) (nFile nAddSize : Z) : option (list CBlockFileInfo * Z) :=
  match l !! Z.to_nat nFile with
  | None => None
  | Some f =>
      if MAX_BLOCKFILE_SIZE <=? u32 (bf_nSize f + nAddSize) then
        match fuel with O => None | S fuel => next_file fuel (grow_files l (nFile + 1)) (nFile + 1) nAddSize end
      else Some (l, nFile)
  end.

Section Files.
Context (disk_space : Z -> bool).

(** The chunks to allocate before the file grows from [nPos] to [nSize]; the error when
    there is no room. *)
Definition allocate (nPos nSize chunk : Z) : vres unit :=
  let nOldChunks := u32 (nPos + chunk - 1) / chunk in
  let nNewChunks := u32 (nSize + chunk - 1) / chunk in
  if nOldChunks <? nNewChunks then check (disk_space (u32 (nNewChunks * chunk - nPos))) (Error_ "out of disk space") else Ok tt.

(** [fKnown] is a given position. The result is the position, the verdict, and the files;
    [None]: the loop does not end within the files there are and one more. *)
Definition FindBlockPos (s : block_files) (known : option CDiskBlockPos) (nAddSize nHeight nTime : Z) : option (vres unit * CDiskBlockPos * block_files) :=
  let nFile := match known with Some pos => dp_nFile pos | None => nLastBlockFile s end in
  let l := grow_files (vinfoBlockFile s) nFile in
  match (match known with Some _ => Some (l, nFile) | None => next_file (S (length l)) l nFile nAddSize end) with
  | None => None
  | Some (l, nFile) =>
      match l !! Z.to_nat nFile with
      | None => None
      | Some f =>
          let pos := match known with Some pos => pos | None => {| dp_nFile := nFile; dp_nPos := bf_nSize f |} end in
          let nSize := match known with Some pos => Z.max (u32 (dp_nPos pos + nAddSize)) (bf_nSize f) | None => u32 (bf_nSize f + nAddSize) end in
          let l := <[Z.to_nat nFile := with_size (AddBlock f nHeight nTime) nSize]> l in
          match (match known with Some _ => Ok tt | None => allocate (dp_nPos pos) nSize BLOCKFILE_CHUNK_SIZE end) with
          | Err e => Some (Err e, pos, {| vinfoBlockFile := l; nLastBlockFile := nFile; setDirtyFileInfo := setDirtyFileInfo s |})
          | Ok _ => Some (Ok tt, pos, {| vinfoBlockFile := l; nLastBlockFile := nFile; setDirtyFileInfo := {[nFile]} ∪ setDirtyFileInfo s |})
          end
      end
  end.

(** [None]: [nFile] is not a block file. *)
Definition FindUndoPos (s : block_files) (nFile nAddSize : Z) : option (vres unit * CDiskBlockPos * block_files) :=
  match vinfoBlockFile s !! Z.to_nat nFile with
  | None => None
  | Some f =>
      let pos := {| dp_nFile := nFile; dp_nPos := bf_nUndoSize f |} in
      let nNewSize := u32 (bf_nUndoSize f + nAddSize) in
      let s := {| vinfoBlockFile := <[Z.to_nat nFile := with_undo_size f nNewSize]> (vinfoBlockFile s); nLastBlockFile := nLastBlockFile s;
                  setDirtyFileInfo := {[nFile]} ∪ setDirtyFileInfo s |} in
      Some (allocate (dp_nPos pos) nNewSize UNDOFILE_CHUNK_SIZE, pos, s)
  end.
End Files.

(** ** What acceptance reads and writes besides the index *)

Class accept_block_env := {
  ab_block :: block_env;
  ab_addr : ptr -> Z;                                         (* addresses of index entries *)
  ab_literal : Z;                                             (* the address of a string literal *)
  ab_connect : tree -> ptr -> vres (option Z);
  ab_disconnect : tree -> ptr -> bool;
  ab_Verify : bytes -> bytes -> bytes -> bool;
  ab_CheckLowS : bytes -> bool;
  ab_zerocoin_input : CTxIn -> option CoinSpend;              (* TxInToZerocoinSpend *)
  ab_acc_checksum : Z -> Z -> option Z;                       (* ReadAccChecksum *)
  ab_spend_pubkey : CTxIn -> bytes;                           (* the key of a zerocoin spend *)
  ab_serial : CTxIn -> Z;                                     (* and its serial number *)
  ab_public_enforced : Z -> bool -> bool;                     (* CheckPublicCoinSpendEnforced *)
  ab_serial_height : Z -> option Z;                           (* IsSerialInBlockchain *)
  ab_context_spend : CTransaction -> CTxIn -> Z -> bool;      (* ContextualCheckZerocoinSpend *)
  ab_context_spend_noserial : CTransaction -> CTxIn -> Z -> bool;
  ab_read : ptr -> option CBlock;                             (* ReadBlockFromDisk *)
  ab_write : CBlock -> CDiskBlockPos -> bool;                 (* WriteBlockToDisk *)
  ab_space : Z -> bool;                                       (* CheckDiskSpace *)
  ab_coins : bytes -> option CCoins                           (* pcoinsTip, through a cache *)
}.

Section Accept.
Context `{accept_block_env}.

(** ** [CheckBlockSignature]; [None]: an access outside a vector. *)

Definition staker_key (block : CBlock) : option (option bytes) :=
  stake ← vtx block !! 1%nat;
  i ← vin stake !! 0%nat;
  if CTxIn_IsZerocoinSpend i then Some (Some (ab_spend_pubkey i))
  else
    o ← vout stake !! 1%nat;
    let '(ok, whichType, vSolutions) := Solver (scriptPubKey o) in
    if negb ok then Some None
    else if bool_decide (whichType = TX_PUBKEY) || bool_decide (whichType = TX_PUBKEYHASH)
    then k ← head vSolutions; Some (Some (CPubKey k))
    else if bool_decide (whichType = TX_COLDSTAKE) then
      b0 ← scriptSig i !! 0%nat;
      let start := 1 + b0 in
      b1 ← scriptSig i !! Z.to_nat start;
      let start := start + 1 + b1 in
      Some (Some (CPubKey (drop (Z.to_nat (start + 1)) (scriptSig i))))
    else Some (Some []).

Definition CheckBlockSignature (block : CBlock) : option bool :=
  if IsProofOfWork block then Some (zlen (vchBlockSig block) =? 0)
  else if zlen (vchBlockSig block) =? 0 then Some false
  else
    match staker_key block with
    | None => None
    | Some None => Some false
    | Some (Some pubkey) => if negb (PubKey_IsValid pubkey) then Some false else Some (ab_Verify pubkey (vchBlockSig block) (block_hash block))
    end.

(** ** [AcceptBlockHeader] *)

Definition prev_failed (t : tree) (p : ptr) : bool := match mapBlockIndex t !! p with Some e => is_failed e | None => false end.

(** The entry, and the index. An invalid parent that a checkpoint names would be
    reconsidered when the entry is known, which it is not at this point. *)
Definition AcceptBlockHeader (t : tree) (block : CBlock) : vres ptr * tree :=
  let hash := block_hash block in
  match mapBlockIndex t !! hash with
  | Some e => ((if is_failed e then Err (Invalid 0 "duplicate") else Ok hash), t)
  | None =>
      match CheckBlockHeader (header block) false with
      | Err e => (Err e, t)
      | Ok _ =>
          let prevHash := hashPrevBlock (header block) in
          match (if is_genesis hash then Ok None
                 else if negb (bool_decide (is_Some (mapBlockIndex t !! prevHash))) then Err (DoS 0 0 "bad-prevblk")
                 else if prev_failed t prevHash then Err (DoS 100 REJECT_INVALID "bad-prevblk")
                 else Ok (Some prevHash)) with
          | Err e => (Err e, t)
          | Ok pindexPrev =>
              match ContextualCheckBlockHeader t (header block) pindexPrev with
              | Err e => (Err e, t)
              | Ok _ =>
                  match AddToBlockIndex b_consensus b_HashQuark ab_literal t block with
                  | Err e => (Err e, t)
                  | Ok (p, t) => (Ok p, t)
                  end
              end
          end
      end
  end.

(** ** The inputs of a coinstake *)

Definition spends_any (ins : list CTxIn) (i : CTxIn) : bool := existsb (fun s => bool_decide (prevout s = prevout i)) ins.

(** An input of the block: serial numbers spent twice, and inputs of the coinstake. *)
Definition check_own_input (nHeight : Z) (pwrbInputs : list CTxIn) (tx : CTransaction) (serials : list Z) (i : CTxIn) : vres (list Z) :=
  let public := CTxIn_IsZerocoinPublicSpend i in
  let* serials :=
    if (height_start_ZC b_consensus <=? nHeight) && (CTxIn_IsZerocoinSpend i || public) then
      if negb (ab_public_enforced nHeight public) then Err (Failed "CheckPublicCoinSpendEnforced")
      else
        let* serial := if public then b_parse_spend tx i else Ok (ab_serial i) in
        if bool_decide (serial ∈ serials) then Err (DoS 100 0 "") else Ok (serials ++ [serial])
    else Ok serials in
  if IsCoinStake tx then Ok serials
  else if spends_any pwrbInputs i then Err (Failed "double spent coinstake input inside block")
  else Ok serials.

Definition check_own_tx (nHeight : Z) (pwrbInputs : list CTxIn) (serials : list Z) (tx : CTransaction) : vres (list Z) :=
  res_fold (check_own_input nHeight pwrbInputs tx) serials (vin tx).

(** The serial numbers of a block of the fork, when none of its inputs is one of the
    coinstake's. *)
Definition scan_block (pwrbInputs : list CTxIn) (hasZ : bool) (bl : CBlock) : vres (list Z) :=
  let ins := concat (map vin (vtx bl)) in
  if existsb (spends_any pwrbInputs) ins then Err (DoS 100 0 "")
  else Ok (if hasZ then map ab_serial (List.filter CTxIn_IsZerocoinSpend ins) else []).

(** [while (!chainActive.Contains(prev))]: the height of the split, and the serial numbers
    on the fork. *)
Fixpoint scan_fork (fuel : nat) (t : tree) (pwrbInputs : list CTxIn) (hasZ : bool) (prev : ptr) (bl : CBlock) (readBlock : Z) (serials : list Z) :
    vres (Z * list Z) :=
  match mapBlockIndex t !! prev with
  | None => Err (Throws "null pprev")
  | Some e =>
      if Contains (mapBlockIndex t) (chainActive t) prev then Ok (bi_nHeight e, serials)
      else
        let readBlock := readBlock + 1 in
        if readBlock =? b_max_reorg then Err (Failed "forked chain longer than maximum reorg limit")
        else
          let* more := scan_block pwrbInputs hasZ bl in
          match bi_pprev e with
          | None => Err (Throws "null pprev")
          | Some q =>
              match ab_read q, fuel with
              | Some bl, S fuel => scan_fork fuel t pwrbInputs hasZ q bl readBlock (serials ++ more)
              | _, _ => Err (Failed "previous block not on disk")
              end
          end
  end.

(** The zerocoin inputs of the coinstake, on a fork that split at [splitHeight]. *)
Definition check_fork_spend (stake : CTransaction) (nHeight splitHeight : Z) (serials : list Z) (i : CTxIn) : vres unit :=
  if bool_decide (ab_serial i ∈ serials) then Err (DoS 100 0 "")
  else if match ab_serial_height (ab_serial i) with Some h => h <=? splitHeight | None => false end then Err (DoS 100 0 "")
  else check (ab_context_spend_noserial stake i nHeight) (DoS 100 REJECT_INVALID "bad-txns-invalid-zpwrb").

(** An ordinary input of the coinstake against the coins of the tip. *)
Definition check_main_input (isBlockFromFork : bool) (i : CTxIn) : vres unit :=
  if isBlockFromFork then Ok tt
  else
    match ab_coins (op_hash (prevout i)) with
    | None => Err (Failed "coin stake inputs not available on main chain")
    | Some c => check (IsAvailable c (op_n (prevout i))) (Failed "coin stake inputs already spent in main chain")
    end.

Definition check_coinstake (t : tree) (block : CBlock) (pindexPrev : option ptr) (nHeight : Z) : vres unit :=
  match vtx block !! 1%nat with
  | None => Err (Throws "vtx[1]")
  | Some stake =>
      let isBlockFromFork := match pindexPrev with Some p => negb (bool_decide (tip_of t = Some p)) | None => false end in
      let zPWRBInputs := List.filter CTxIn_IsZerocoinSpend (vin stake) in
      let pwrbInputs := List.filter (fun i => negb (CTxIn_IsZerocoinSpend i)) (vin stake) in
      let hasZ := negb (zlen zPWRBInputs =? 0) in
      let* _ := res_fold (check_own_tx nHeight pwrbInputs) [] (vtx block) in
      let* _ :=
        match pindexPrev with
        | Some prev =>
            if isBlockFromFork then
              match ab_read prev with
              | None => Err (Failed "previous block not on disk")
              | Some bl =>
                  let* (splitHeight, serials) := scan_fork (rounds_of t prev) t pwrbInputs hasZ prev bl 0 [] in
                  if hasZ then check_all (check_fork_spend stake nHeight splitHeight serials) zPWRBInputs else Ok tt
              end
            else Ok tt
        | None => Ok tt
        end in
      if negb (HasZerocoinSpendInputs stake) then check_all (check_main_input isBlockFromFork) (vin stake)
      else if isBlockFromFork then Ok tt
      else check_all (fun i => check (ab_context_spend stake i nHeight) (DoS 100 REJECT_INVALID "bad-txns-invalid-zpwrb")) zPWRBInputs
  end.

(** ** [AcceptBlock] *)

Record node_state := { ns_tree : tree; ns_files : block_files; ns_rejected : gmap ptr Z; ns_checked : bool (* block.fChecked *) }.

Definition with_tree (s : node_state) (t : tree) : node_state :=
  {| ns_tree := t; ns_files := ns_files s; ns_rejected := ns_rejected s; ns_checked := ns_checked s |}.

(** The last part: the place in the block files, and the transactions in the index. *)
Definition store_block (s : node_state) (block : CBlock) (pindex : ptr) (nHeight : Z) (dbp : option CDiskBlockPos) : option (vres unit * node_state) :=
  let nBlockSize := u32 (zlen (Serialize_CBlock block)) in
  match FindBlockPos ab_space (ns_files s) dbp (u32 (nBlockSize + 8)) (u32 nHeight) (u64 (nTime (header block))) with
  | None => None
  | Some (r, blockPos, files) =>
      let s := {| ns_tree := ns_tree s; ns_files := files; ns_rejected := ns_rejected s; ns_checked := ns_checked s |} in
      match r with
      | Err e => Some (Err e, s)
      | Ok _ =>
          if match dbp with None => negb (ab_write block blockPos) | Some _ => false end then Some (Err (Error_ "Failed to write block"), s)
          else Some (Ok tt, with_tree s (ReceivedBlockTransactions ab_addr block (ns_tree s) pindex blockPos))
      end
  end.

(** The checks of the contents; a failure that is not a possible corruption marks the
    entry. *)
Definition check_contents (s : node_state) (block : CBlock) (pindex : ptr) (fAlreadyCheckedBlock : bool) : vres unit * node_state :=
  let '(r, rejected, checked) :=
    if fAlreadyCheckedBlock then (Ok tt, ns_rejected s, ns_checked s)
    else CheckBlock (ns_tree s) (ns_rejected s) block (ns_checked s) true true true in
  let r := let* _ := r in ContextualCheckBlock (ns_tree s) block (prev_at (mapBlockIndex (ns_tree s)) pindex) in
  let s := {| ns_tree := ns_tree s; ns_files := ns_files s; ns_rejected := rejected; ns_checked := checked |} in
  match r with
  | Ok _ => (Ok tt, s)
  | Err e =>
      let state := state_after CValidationState_new (@Err _ unit e) in
      (Err e,
       if match state_IsInvalid state with Some _ => negb (corruptionPossible state) | None => false end
       then with_tree s (with_dirty (with_index (ns_tree s) (add_status (mapBlockIndex (ns_tree s)) pindex BLOCK_FAILED_VALID)) pindex)
       else s)
  end.

(** After the parent was found: work, stake, header, contents, coinstake, storage. *)
Definition accept_under (s : node_state) (block : CBlock) (pindexPrev : option ptr) (dbp : option CDiskBlockPos) (fAlreadyCheckedBlock : bool) :
    option (vres unit * option ptr * node_state) :=
  let t := ns_tree s in
  match (if is_genesis (block_hash block) then Ok tt else CheckWork (mapBlockIndex t) block pindexPrev) with
  | Err e => Some (Err e, None, s)
  | Ok _ =>
      let isPoS := IsProofOfStake block in
      match (if isPoS then
               match pindexPrev with
               | None => Err (Throws "null pindexPrev")
               | Some p =>
                   check (is_ok (CheckProofOfStake b_consensus (mapBlockIndex t) (chainActive t) b_get_tx ab_zerocoin_input ab_acc_checksum
                                   ab_Verify ab_CheckLowS block p)) (DoS 100 0 "")
               end
             else Ok tt) with
      | Err e => Some (Err e, None, s)
      | Ok _ =>
          match AcceptBlockHeader t block with
          | (Err e, t) => Some (Err e, (if bool_decide (is_Some (mapBlockIndex (ns_tree s) !! block_hash block)) then Some (block_hash block) else None), with_tree s t)
          | (Ok pindex, t) =>
              let s := with_tree s t in
              match mapBlockIndex t !! pindex with
              | None => Some (Err AssertFail, Some pindex, s)
              | Some e =>
                  if has_data e then Some (Ok tt, Some pindex, s)
                  else
                    match check_contents s block pindex fAlreadyCheckedBlock with
                    | (Err r, s) => Some (Err r, Some pindex, s)
                    | (Ok _, s) =>
                        match (if isPoS then check_coinstake t block pindexPrev (bi_nHeight e) else Ok tt) with
                        | Err r => Some (Err r, Some pindex, s)
                        | Ok _ => '(r, s) ← store_block s block pindex (bi_nHeight e) dbp; Some (r, Some pindex, s)
                        end
                    end
              end
          end
      end
  end.

(** The verdict, [*ppindex], and the state; [None]: a loop needs more rounds than [fuel]. *)
Definition AcceptBlock (fuel : nat) (s : node_state) (block : CBlock) (dbp : option CDiskBlockPos) (fAlreadyCheckedBlock : bool) :
    option (vres unit * option ptr * node_state) :=
  let t := ns_tree s in
  let prevHash := hashPrevBlock (header block) in
  if is_genesis (block_hash block) then accept_under s block None dbp fAlreadyCheckedBlock
  else
    match mapBlockIndex t !! prevHash with
    | None => Some (Err (DoS 0 0 "bad-prevblk"), None, s)
    | Some prev =>
        if is_failed prev then
          if Checkpoints_CheckBlock (bi_nHeight prev) prevHash true then
            match ReconsiderBlock ab_addr t prevHash with
            | (Ok _, t) => '(_, t) ← ActivateBestChain ab_addr ab_connect ab_disconnect fuel t; Some (Ok tt, None, with_tree s t)
            | (Err e, t) => Some (Err e, None, with_tree s t)
            end
          else Some (Err (DoS 100 REJECT_INVALID "bad-prevblk"), None, s)
        else accept_under s block (Some prevHash) dbp fAlreadyCheckedBlock
    end.

(** ** [ProcessNewBlock]: from the first check to the activation of the best chain; the
    spam filter, masternodes and the wallet come after a verdict. [fromPeer] tells a block
    of the network from one of the node's own. *)
Definition ProcessNewBlock (fuel : nat) (s : node_state) (block : CBlock) (fromPeer : bool) (dbp : option CDiskBlockPos) : option (vres unit * node_state) :=
  let '(r, rejected, fChecked) := CheckBlock (ns_tree s) (ns_rejected s) block (ns_checked s) true true true in
  let s := {| ns_tree := ns_tree s; ns_files := ns_files s; ns_rejected := rejected; ns_checked := fChecked |} in
  match CheckBlockSignature block with
  | None => Some (Err (Throws "vtx[1]"), s)
  | Some false => Some (Err (Failed "bad proof-of-stake block signature"), s)
  | Some true =>
      if negb (is_genesis (block_hash block)) && fromPeer && negb (bool_decide (is_Some (mapBlockIndex (ns_tree s) !! hashPrevBlock (header block))))
      then Some (Err (Failed "unknown parent"), s)
      else
        match r with
        | Err e => Some (Err e, s)
        | Ok _ =>
            match AcceptBlock fuel s block dbp true with
            | None => None
            | Some (Err e, _, s) => Some (Err e, s)
            | Some (Ok _, _, s) =>
                '(r, t) ← ActivateBestChain ab_addr ab_connect ab_disconnect fuel (ns_tree s);
                Some (r, with_tree s t)
            end
        end
  end.
End Accept.
