(* ===== verification/AcceptFacts.v ===== *)
(** Accepted blocks: whatever blocks and headers arrive in whatever order, every entry of
    the index obeys the rules against its parent, and every entry whose data is there
    belongs to a well-formed block with the required difficulty. *)

From Stdlib Require Import ZArith Lia String.
From stdpp Require Import base tactics list numbers option gmap strings relations sorting.
From S2P Require Import Prelude ArithUint256 ChainParams Script Standard Transaction Block TxVerify Merkle Chain Pow StakeModifier Coins BlockTree ChainSelection Activation BlockIndexing IndexInvariant Kernel.
From S2P Require Import BlockCheck BlockRules AcceptBlock.

(** ** A new entry *)

Section NewEntry.
Context (consensus : ConsensusParams) (HashQuark : bytes -> bytes) (literal : Z).

(** The entry of a block under its parent, with no data yet. *)
Definition placed_entry (ix : BlockMap) (block : CBlock) (e : CBlockIndex) : Prop :=
  heading e = (nTime (header block), nBits (header block), h_nVersion (header block)) /\ has_data e = false /\
  match ix !! hashPrevBlock (header block) with
  | Some prev => bi_pprev e = Some (hashPrevBlock (header block)) /\ bi_nHeight e = bi_nHeight prev + 1
  | None => bi_pprev e = None
  end.

Lemma raise_tree_data e : has_data (snd (RaiseValidity e BLOCK_VALID_TREE)) = has_data e.
Proof.
  unfold RaiseValidity. case_match; [done|]. case_match; [|done]. cbn [snd]. apply data_bit. rewrite Z.lor_spec, Z.ldiff_spec.
  change (Z.testbit BLOCK_VALID_MASK 3) with false. change (Z.testbit BLOCK_VALID_TREE 3) with false. by rewrite orb_false_r, andb_true_r.
Qed.

Lemma attach_placed ix hash block e e' : attach consensus literal ix hash block e = Ok e' -> heading e' = heading e /\ bi_nStatus e' = bi_nStatus e.
Proof.
  unfold attach. destruct (ix !! _) as [prev|] eqn:Ep; [|by intros [= <-]]. destruct (_ <? _) eqn:Hv.
  - intros [= <-]. unfold SetNewStakeModifierV1. destruct (ComputeNextStakeModifier _ _ _ _) as [[ok m] g].
    unfold SetStakeEntropyBit. by destruct (1 <? _).
  - destruct (_ ≫= _) as [txin|]; [|done]. unfold SetNewStakeModifierV2. cbn [with_links bi_nHeight bi_pprev]. rewrite Hv, Ep. cbn [mbind option_bind]. by intros [= <-].
Qed.

Lemma AddToBlockIndex_entry t block p t' : AddToBlockIndex consensus HashQuark literal t block = Ok (p, t') ->
  let hash := CBlockHeader_GetHash HashQuark (header block) in
  p = hash /\ (is_Some (mapBlockIndex t !! hash) -> t' = t) /\
  (mapBlockIndex t !! hash = None -> hashPrevBlock (header block) <> hash ->
   exists e, mapBlockIndex t' = <[hash := e]> (mapBlockIndex t) /\ placed_entry (mapBlockIndex t) block e).
Proof.
  intros E. cbn zeta. unfold AddToBlockIndex in E. set (hash := CBlockHeader_GetHash HashQuark (header block)) in *.
  destruct (mapBlockIndex t !! hash) as [old|] eqn:Eo; [injection E as <- <-; by split_and!|].
  set (stub := with_count (CBlockIndex_new block) 0 0) in *. destruct (attach _ _ _ _ _ _) as [e|] eqn:Ea; [|done].
  destruct (GetBlockProof _) as [proof|]; [|done]. injection E as <- <-. split_and!; [done|by intros [? ?]|]. intros _ Hne.
  destruct (attach_placed _ _ _ _ _ Ea) as [Hh Hst]. destruct (attach_links consensus literal _ _ _ _ _ Ea) as (_ & _ & _ & Hl).
  rewrite lookup_insert_ne in Hl by done.
  match goal with |- context [RaiseValidity ?x _] => set (e1 := x) end. exists (snd (RaiseValidity e1 BLOCK_VALID_TREE)). split.
  { match goal with |- context [if ?c then _ else _] => destruct c end; cbn; by rewrite insert_insert_eq. }
  destruct (RaiseValidity_keeps e1 BLOCK_VALID_TREE) as (L & _). unfold links in L. injection L as L1 L2 L3 L4.
  assert (Hraise : heading (snd (RaiseValidity e1 BLOCK_VALID_TREE)) = heading e1) by (unfold RaiseValidity; by repeat case_match).
  split_and!.
  - rewrite Hraise. change (heading e1) with (heading e). rewrite Hh. unfold stub, CBlockIndex_new, heading. by destruct (IsProofOfStake block).
  - rewrite raise_tree_data. change (has_data e1) with (has_data e). unfold has_data. rewrite Hst. unfold stub, CBlockIndex_new. by destruct (IsProofOfStake block).
  - rewrite L1, L3. change (bi_pprev e1) with (bi_pprev e). change (bi_nHeight e1) with (bi_nHeight e).
    destruct (mapBlockIndex t !! hashPrevBlock (header block)) as [prev|]; [by destruct Hl as (? & ? & _)|]. rewrite Hl. unfold stub, CBlockIndex_new. by destruct (IsProofOfStake block).
Qed.
End NewEntry.

(** ** The rules *)

Section Rules.
Context `{block_env} (seen : CBlockHeader -> Prop).

Definition header_hash (h : CBlockHeader) : ptr := CBlockHeader_GetHash b_HashQuark h.

(** Against the parent: the height, the time, the version, the checkpoints. *)
Definition follows (ix : BlockMap) (p : ptr) (e : CBlockIndex) : Prop :=
  exists q prev, bi_pprev e = Some q /\ ix !! q = Some prev /\ bi_nHeight e = bi_nHeight prev + 1 /\
    (b_regtest = false -> MinPastBlockTime ix q prev < bi_nTime e /\ IsValidBlockTimeStamp b_consensus (bi_nTime e) (bi_nHeight e) = true) /\
    outdated_version (bi_nVersion e) (bi_nHeight e) = false /\ Checkpoints_CheckBlock (bi_nHeight e) p false = true.

(** The target is the required one; early proofs of work may be near it, and one block of
    the past is excepted. *)
Definition right_work (e : CBlockIndex) (required : Z) : Prop :=
  bi_nBits e = required \/ (b_regtest = false /\ bi_nHeight e <= 68589 /\ b_bits_close (bi_nBits e) required = true) \/
  (bi_nTime e = u32 (nPwrbBadBlockTime b_consensus) /\ bi_nBits e = u32 (nPwrbBadBlockBits b_consensus)).

Definition well_stored (ix : BlockMap) (p : ptr) (e : CBlockIndex) : Prop :=
  (exists q required, bi_pprev e = Some q /\ GetNextWorkRequired b_consensus b_regtest ix (Some q) = Some required /\ right_work e required) /\
  exists block, block_hash block = p /\ check_form block true = Ok tt.

Record rules_ok (ix : BlockMap) : Prop := {
  ro_closed : closed ix;
  ro_header : forall p e, ix !! p = Some e -> exists h, seen h /\ header_hash h = p /\ heading e = (nTime h, nBits h, h_nVersion h) /\
    (is_genesis p = false -> bi_pprev e = Some (hashPrevBlock h));
  ro_follows : forall p e, ix !! p = Some e -> is_genesis p = false -> follows ix p e;
  ro_stored : forall p e, ix !! p = Some e -> is_genesis p = false -> has_data e = true -> well_stored ix p e }.

Lemma follows_ext ix ix' p e e' : closed ix -> ext ix ix' -> place e' = place e -> follows ix p e -> follows ix' p e'.
Proof.
  intros Hc Hx (Ep & Eh & Et & Eb & Ev)%place_inv (q & prev & Hq & Hprev & Hh & Ht & Hv & Hck). destruct (Hx q prev Hprev) as (prev' & Hprev' & Hpl).
  exists q, prev'. pose proof (place_inv _ _ Hpl) as (_ & Eh' & _). rewrite Ep, Eh, Et, Ev, Eh', (MinPast_ext ix ix' Hx q prev prev') by done. done.
Qed.

Lemma well_stored_ext ix ix' p e e' : ext ix ix' -> place e' = place e -> well_stored ix p e -> well_stored ix' p e'.
Proof.
  intros Hx (Ep & Eh & Et & Eb & Ev)%place_inv [(q & r & Hq & Hr & Hw) Hb]. split; [|done]. exists q, r. unfold right_work. rewrite Ep, Eh, Et, Eb.
  split_and!; [done|by eapply GetNextWorkRequired_ext|done].
Qed.

Lemma fixed_same ix ix' p e' : same_fixed ix ix' -> ix' !! p = Some e' -> exists e, ix !! p = Some e /\ place e' = place e /\ has_data e' = has_data e.
Proof.
  intros Hs He'. pose proof (same_fixed_at _ _ p Hs) as E. rewrite He' in E. destruct (ix !! p) as [e|]; [|done]. exists e. cbn in E. unfold fixed in E. injection E. intros.
  unfold place, heading. split_and!; congruence.
Qed.

(** Operations that leave what is fixed keep the rules. *)
Lemma rules_same ix ix' : same_fixed ix ix' -> rules_ok ix -> rules_ok ix'.
Proof.
  intros Hs [Hc Hh Hf Hst]. pose proof (fixed_ext _ _ Hs) as Hx. constructor; [by eapply fixed_closed| | |]; intros p e' He';
    destruct (fixed_same _ _ _ _ Hs He') as (e & He & Hp & Hd).
  - destruct (Hh p e He) as (h & H1 & H2 & H3 & H4). exists h. apply place_inv in Hp as (-> & _ & Et & Eb & Ev). unfold heading in *. rewrite Et, Eb, Ev. done.
  - intros Hg. by apply (follows_ext ix _ _ e), Hf.
  - intros Hg Hd'. apply (well_stored_ext ix _ _ e); [done|done|]. apply Hst; [done|done|congruence].
Qed.

(** A new entry whose header passed. *)
Lemma rules_add ix p e h : rules_ok ix -> ix !! p = None -> seen h -> header_hash h = p -> heading e = (nTime h, nBits h, h_nVersion h) ->
  has_data e = false -> (forall q, bi_pprev e = Some q -> q <> p -> is_Some (ix !! q)) ->
  (is_genesis p = false -> bi_pprev e = Some (hashPrevBlock h) /\ follows ix p e) -> rules_ok (<[p := e]> ix).
Proof.
  intros [Hc Hh Hf Hst] Hn Hs Hp Hhd Hd Hpr Hg. assert (Hx : ext ix (<[p := e]> ix)) by (apply insert_ext; congruence).
  constructor; [|intros q f Hq..]; [|destruct (decide (q = p)) as [->|Hne];
    [rewrite lookup_insert_eq in Hq; injection Hq as <-|rewrite lookup_insert_ne in Hq by done]..].
  - apply insert_closed; [done|]. intros q Hq. destruct (decide (q = p)) as [->|]; [rewrite lookup_insert_eq; by eexists|rewrite lookup_insert_ne by done; by apply Hpr].
  - exists h. split_and!; try done. intros Hge. by apply Hg.
  - by apply Hh.
  - intros Hge. destruct (Hg Hge) as [_ Hfo]. by apply (follows_ext ix _ _ e).
  - intros Hge. by apply (follows_ext ix _ _ f), Hf.
  - intros _ Hd'. congruence.
  - intros Hge Hd'. by apply (well_stored_ext ix _ _ f), Hst.
Qed.

(** The data of a block arrives. *)
Lemma rules_receive ix p e e' : rules_ok ix -> ix !! p = Some e -> place e' = place e -> (is_genesis p = false -> well_stored ix p e) -> rules_ok (<[p := e']> ix).
Proof.
  intros [Hc Hh Hf Hst] He Hp Hw. assert (Hx : ext ix (<[p := e']> ix)) by (apply insert_ext; congruence). pose proof (place_inv _ _ Hp) as (Ep & _ & Et & Eb & Ev).
  constructor; [|intros q f Hq..]; [|destruct (decide (q = p)) as [->|Hne];
    [rewrite lookup_insert_eq in Hq; injection Hq as <-|rewrite lookup_insert_ne in Hq by done]..].
  - apply insert_closed; [done|]. rewrite Ep. intros q Hq. destruct (decide (q = p)) as [->|]; [rewrite lookup_insert_eq; by eexists|rewrite lookup_insert_ne by done; by apply (Hc p e)].
  - destruct (Hh p e He) as (h & H1 & H2 & H3 & H4). exists h. unfold heading in *. rewrite Ep, Et, Eb, Ev. done.
  - by apply Hh.
  - intros Hg. by apply (follows_ext ix _ _ e), Hf.
  - intros Hg. by apply (follows_ext ix _ _ f), Hf.
  - intros Hg _. by apply (well_stored_ext ix _ _ e), Hw.
  - intros Hg Hd. by apply (well_stored_ext ix _ _ f), Hst.
Qed.
End Rules.

(** No two of the headers that arrive have the same hash, and none contains its own. *)
Record collision_free `{block_env} (seen : CBlockHeader -> Prop) : Prop := {
  cf_inj : forall h h', seen h -> seen h' -> header_hash h = header_hash h' -> h = h';
  cf_self : forall h, seen h -> hashPrevBlock h <> header_hash h }.

Section Accepting.
Context `{accept_block_env} (seen : CBlockHeader -> Prop) (Hcf : collision_free seen).
Notation rules t := (rules_ok seen (mapBlockIndex t)).

Lemma contextual_follows t block prev e : mapBlockIndex t !! hashPrevBlock (header block) = Some prev -> is_genesis (block_hash block) = false ->
  ContextualCheckBlockHeader t (header block) (Some (hashPrevBlock (header block))) = Ok tt -> placed_entry (mapBlockIndex t) block e ->
  follows (mapBlockIndex t) (block_hash block) e.
Proof using Type.
  intros Hprev Hg Hc (Hhd & _ & Hpl). rewrite Hprev in Hpl. destruct Hpl as [Hp Hh]. unfold ContextualCheckBlockHeader in Hc. unfold block_hash in Hg |- *. rewrite Hg, Hprev in Hc.
  destruct (_ <=? _); [done|]. destruct (CheckBlockTime _ _ _ _) as [[]|] eqn:Et; [|done]. cbn [res_bind] in Hc.
  destruct (Checkpoints_CheckBlock _ _ _) eqn:Ek; cbn [negb] in Hc; [|done]. destruct (match GetLastCheckpoint _ with Some _ => _ | None => _ end); [done|].
  destruct (outdated_version _ _) eqn:Ev; [done|]. unfold heading in Hhd. injection Hhd as E1 E2 E3. exists (hashPrevBlock (header block)), prev. rewrite Hh, E1, E3. split_and!; try done.
  intros Hr. unfold CheckBlockTime in Et. rewrite Hr in Et. destruct (_ <? _); [done|]. destruct (Z.leb_spec (nTime (header block)) (MinPastBlockTime (mapBlockIndex t) (hashPrevBlock (header block)) prev)); [done|].
  split; [done|]. by destruct (IsValidBlockTimeStamp _ _ _).
Qed.

Lemma AcceptBlockHeader_rules t block r t' : seen (header block) -> rules t -> AcceptBlockHeader t block = (r, t') ->
  rules t' /\ ext (mapBlockIndex t) (mapBlockIndex t') /\ forall p, r = Ok p -> p = block_hash block.
Proof using Hcf.
  intros Hs Hok E. unfold AcceptBlockHeader in E. destruct (mapBlockIndex t !! block_hash block) as [e|] eqn:Eh.
  { injection E as <- <-. split_and!; [done|done|]. intros p. destruct (is_failed e); [done|]. by intros [= <-]. }
  destruct (CheckBlockHeader _ _); [|injection E as <- <-; by split_and!].
  destruct (if is_genesis _ then _ else _) as [pindexPrev|] eqn:Ep; [|injection E as <- <-; by split_and!].
  destruct (ContextualCheckBlockHeader _ _ _) as [[]|] eqn:Ec; [|injection E as <- <-; by split_and!].
  destruct (AddToBlockIndex _ _ _ _ _) as [[p t1]|] eqn:Ea; [|injection E as <- <-; by split_and!]. injection E as <- <-.
  destruct (AddToBlockIndex_entry _ _ _ _ _ _ _ Ea) as (Hp & _ & Hnew). fold (block_hash block) in Hp, Hnew.
  destruct (Hnew Eh (cf_self _ Hcf _ Hs)) as (en & Hix & Hpl). rewrite Hix. split_and!; [|apply insert_ext; congruence|by intros q [= <-]].
  pose proof Hpl as (Hhd & Hd & Hprev). apply (rules_add seen _ _ _ (header block)); try done.
  - intros q Hq _. destruct (mapBlockIndex t !! hashPrevBlock (header block)) eqn:Eq; [destruct Hprev as [Hprev _]; rewrite Hprev in Hq; injection Hq as <-; by eexists|congruence].
  - intros Hg. rewrite Hg in Ep. destruct (mapBlockIndex t !! hashPrevBlock (header block)) as [prev|] eqn:Eq.
    + split; [by destruct Hprev|]. rewrite bool_decide_eq_true_2 in Ep by (by eexists). cbn [negb] in Ep. destruct (prev_failed _ _); [done|]. injection Ep as <-.
      by eapply contextual_follows.
    + rewrite bool_decide_eq_false_2 in Ep by (by intros [? ?]). done.
Qed.

(** A passed check of the work fixes the target of the entry. *)
Lemma CheckWork_right ix block prev e : ix !! hashPrevBlock (header block) = Some prev -> bi_nHeight e = bi_nHeight prev + 1 ->
  heading e = (nTime (header block), nBits (header block), h_nVersion (header block)) ->
  CheckWork ix block (Some (hashPrevBlock (header block))) = Ok tt ->
  exists required, GetNextWorkRequired b_consensus b_regtest ix (Some (hashPrevBlock (header block))) = Some required /\ right_work e required.
Proof using Type.
  intros Hprev Hh Hhd E. unfold CheckWork in E. cbn [mbind option_bind] in E. rewrite Hprev in E. revert E. destruct (GetNextWorkRequired _ _ _ _) as [req|]; intros E; [|done].
  exists req. split; [done|]. unfold heading in Hhd. injection Hhd as E1 E2 E3. unfold right_work. rewrite E1, E2, Hh.
  destruct (negb b_regtest && _ && _) eqn:Ec.
  - right; left. bprop. unfold check in E. destruct (b_bits_close _ _); [|done]. split_and!; done.
  - destruct (Z.eqb_spec (nBits (header block)) req) as [Eq|Eq]; [by left|]. cbn [negb] in E. right; right.
    destruct ((nTime (header block) =? _) && (nBits (header block) =? _)) eqn:Eb; [|done]. bprop. done.
Qed.

Lemma check_contents_rules s block pindex already r s' : rules (ns_tree s) -> check_contents s block pindex already = (r, s') ->
  (already = true \/ ns_checked s = true -> check_form block true = Ok tt) ->
  same_fixed (mapBlockIndex (ns_tree s)) (mapBlockIndex (ns_tree s')) /\ (r = Ok tt -> check_form block true = Ok tt).
Proof using Type.
  intros Hok E Hal. unfold check_contents in E. set (first := if already then _ else _) in E.
  assert (Hf : fst (fst first) = Ok tt -> check_form block true = Ok tt).
  { unfold first, CheckBlock. destruct already; [intros _; apply Hal; by left|]. destruct (ns_checked s); [intros _; apply Hal; by right|].
    destruct (check_form block true) as [[]|]; [done|]. cbn. done. }
  destruct first as [[r1 rej] chk]. cbn [fst] in Hf. destruct (res_bind r1 _) as [[]|e] eqn:Er.
  - injection E as <- <-. split; [done|]. intros _. apply Hf. by destruct r1 as [[]|].
  - injection E as <- <-. split; [|done]. match goal with |- context [if ?c then _ else _] => destruct c end; cbn; [|done].
    apply shape_fixed, same_shape_alter, add_failed_shape.
Qed.

Lemma received_rules ix t block p pos e : rules t -> mapBlockIndex t !! p = Some e -> ix = mapBlockIndex t -> (is_genesis p = false -> well_stored ix p e) ->
  rules (ReceivedBlockTransactions ab_addr block t p pos).
Proof using Type.
  intros Hok He -> Hw. eapply rules_same; [by apply (receive_fixed ab_addr block t p pos e)|]. apply (rules_receive seen _ _ e); try done.
  pose proof (received_fixed block pos e) as Hf. unfold fixed in Hf. injection Hf as F1 F2 _ F3 F4 F5. unfold place, heading. congruence.
Qed.

Lemma store_block_rules s block pindex nHeight dbp r s' e : rules (ns_tree s) -> mapBlockIndex (ns_tree s) !! pindex = Some e ->
  (is_genesis pindex = false -> well_stored (mapBlockIndex (ns_tree s)) pindex e) ->
  store_block s block pindex nHeight dbp = Some (r, s') -> rules (ns_tree s').
Proof using Type.
  intros Hok He Hw E. unfold store_block in E. destruct (FindBlockPos _ _ _ _ _ _) as [[[[[]|r1] pos] files]|]; [|by injection E as _ <-|done].
  match type of E with (if ?c then _ else _) = _ => destruct c end; injection E as _ <-; [done|]. cbn. by eapply received_rules.
Qed.

Lemma accept_under_rules s block pindexPrev dbp already r pi s' : seen (header block) -> rules (ns_tree s) ->
  (already = true \/ ns_checked s = true -> check_form block true = Ok tt) ->
  (is_genesis (block_hash block) = false -> pindexPrev = Some (hashPrevBlock (header block)) /\ is_Some (mapBlockIndex (ns_tree s) !! hashPrevBlock (header block))) ->
  accept_under s block pindexPrev dbp already = Some (r, pi, s') -> rules (ns_tree s').
Proof using Hcf.
  intros Hs Hok Hal Hprev E. unfold accept_under in E.
  destruct (if is_genesis (block_hash block) then _ else CheckWork _ _ _) as [[]|] eqn:Ew; [|by injection E as _ _ <-].
  match type of E with match ?c with Ok _ => _ | Err _ => _ end = _ => destruct c end; [|by injection E as _ _ <-].
  destruct (AcceptBlockHeader (ns_tree s) block) as [[p|] t] eqn:Eh; destruct (AcceptBlockHeader_rules _ _ _ _ Hs Hok Eh) as (Hok1 & Hx & Hp);
    [|by injection E as _ _ <-]. specialize (Hp p eq_refl) as ->. destruct (mapBlockIndex t !! block_hash block) as [e|] eqn:Ee; [|by injection E as _ _ <-].
  destruct (has_data e); [by injection E as _ _ <-|]. destruct (check_contents (with_tree s t) block (block_hash block) already) as [r1 s1] eqn:Ek.
  destruct (check_contents_rules (with_tree s t) _ _ _ _ _ Hok1 Ek Hal) as [Hfx Hform]. pose proof (rules_same _ _ _ Hfx Hok1) as Hok2.
  destruct r1 as [[]|]; [|by injection E as _ _ <-]. match type of E with match ?c with Ok _ => _ | Err _ => _ end = _ => destruct c end; [|by injection E as _ _ <-].
  destruct (store_block _ _ _ _ _) as [[r2 s2]|] eqn:Est; [|done]. injection E as _ _ <-. cbn [ns_tree with_tree] in Hfx.
  destruct (fixed_ext _ _ Hfx _ _ Ee) as (e1 & He1 & Hp1). eapply store_block_rules; [exact Hok2|exact He1| |exact Est]. intros Hg.
  apply (well_stored_ext (mapBlockIndex t) _ _ e); [by apply fixed_ext|done|]. destruct (Hprev Hg) as [-> [prev Hpv]]. rewrite Hg in Ew.
  split; [|exists block; split; [done|by apply Hform]]. destruct (ro_header _ _ Hok1 _ _ Ee) as (h & Hsh & Hhh & Hhd & Hpp).
  assert (h = header block) as -> by (by apply (cf_inj _ Hcf)). specialize (Hpp Hg). destruct (Hx _ _ Hpv) as (prev' & Hpv' & Hpl').
  destruct (ro_follows _ _ Hok1 _ _ Ee Hg) as (q & pr & Hq & Hpr & Hh & _). assert (q = hashPrevBlock (header block)) as -> by congruence.
  assert (pr = prev') as -> by congruence. apply place_inv in Hpl' as (_ & Hh' & _).
  destruct (CheckWork_right _ block prev e Hpv ltac:(congruence) Hhd Ew) as (req & Hreq & Hright).
  exists (hashPrevBlock (header block)), req. split_and!; [done|by eapply GetNextWorkRequired_ext|done].
Qed.

Lemma AcceptBlock_rules fuel s block dbp already r pi s' : seen (header block) -> rules (ns_tree s) ->
  (already = true \/ ns_checked s = true -> check_form block true = Ok tt) ->
  AcceptBlock fuel s block dbp already = Some (r, pi, s') -> rules (ns_tree s').
Proof using Hcf.
  intros Hs Hok Hal E. unfold AcceptBlock in E. destruct (is_genesis (block_hash block)) eqn:Hg.
  { eapply accept_under_rules; [done..| |exact E]. congruence. }
  destruct (mapBlockIndex (ns_tree s) !! _) as [prev|] eqn:Ep; [|by injection E as _ _ <-]. destruct (is_failed prev).
  - destruct (Checkpoints_CheckBlock _ _ _); [|by injection E as _ _ <-].
    pose proof (calmly_reconsider ab_addr (ns_tree s) (hashPrevBlock (header block))) as K. pose proof (rules_same _ _ _ K Hok) as Hok1.
    destruct (ReconsiderBlock _ _ _) as [[[]|] t]; cbn [snd] in *; [|by injection E as _ _ <-].
    destruct (ActivateBestChain _ _ _ _ _) as [[r1 t1]|] eqn:Ea; [|done]. injection E as _ _ <-. cbn. apply calmly_activate in Ea. by eapply rules_same.
  - eapply accept_under_rules; [done..| |exact E]. intros _. split; [done|by eexists].
Qed.

Lemma ProcessNewBlock_rules fuel s block peer dbp r s' : seen (header block) -> rules (ns_tree s) -> ns_checked s = false ->
  ProcessNewBlock fuel s block peer dbp = Some (r, s') -> rules (ns_tree s').
Proof using Hcf.
  intros Hs Hok Hck E. unfold ProcessNewBlock in E.
  destruct (CheckBlock (ns_tree s) (ns_rejected s) block (ns_checked s) true true true) as [[r1 rej] chk] eqn:Ec.
  assert (Hform : r1 = Ok tt -> check_form block true = Ok tt).
  { intros ->. unfold CheckBlock in Ec. rewrite Hck in Ec. by destruct (check_form block true) as [[]|]. }
  destruct (CheckBlockSignature block) as [[]|]; [|by injection E as _ <-|by injection E as _ <-].
  match type of E with (if ?c then _ else _) = _ => destruct c end; [by injection E as _ <-|]. destruct r1 as [[]|]; [|by injection E as _ <-].
  destruct (AcceptBlock _ _ _ _ _) as [[[[[]|] pi] s2]|] eqn:Ea; [| |done].
  - assert (Hok2 : rules (ns_tree s2)) by (eapply (AcceptBlock_rules _ _ _ _ true); [done| |by intros _; apply Hform|exact Ea]; done).
    destruct (ActivateBestChain _ _ _ _ _) as [[r2 t2]|] eqn:Eb; [|done]. injection E as _ <-. cbn. apply calmly_activate in Eb. by eapply rules_same.
  - injection E as _ <-. eapply (AcceptBlock_rules _ _ _ _ true); [done| |by intros _; apply Hform|exact Ea]; done.
Qed.
End Accepting.

(** ** Over time: clocks, sporks, settings and peers change, the network does not *)

Record same_network (a b : block_env) : Prop := {
  sn_consensus : @b_consensus a = @b_consensus b;
  sn_regtest : @b_regtest a = @b_regtest b;
  sn_hash : @b_HashQuark a = @b_HashQuark b;
  sn_checkpoints : @b_checkpoints a = @b_checkpoints b;
  sn_enabled : @b_checkpoints_enabled a = @b_checkpoints_enabled b;
  sn_close : @b_bits_close a = @b_bits_close b }.

Lemma same_network_sym a b : same_network a b -> same_network b a.
Proof. intros []. constructor; congruence. Qed.

Lemma network_rules a b seen ix : same_network a b -> @rules_ok a seen ix -> @rules_ok b seen ix.
Proof.
  intros [E1 E2 E3 E4 E5 E6] [Hc Hh Hf Hs]. destruct a, b; cbn in *; subst. constructor; [exact Hc|exact Hh|exact Hf|exact Hs].
Qed.

Lemma network_collisions a b seen : same_network a b -> @collision_free a seen -> @collision_free b seen.
Proof. intros [_ _ E3 _ _ _] [Hi Hself]. unfold header_hash in *. rewrite E3 in Hi, Hself. constructor; [exact Hi|exact Hself]. Qed.

(** The object of a block that just arrived has not been checked. *)
Definition fresh (s : node_state) : node_state :=
  {| ns_tree := ns_tree s; ns_files := ns_files s; ns_rejected := ns_rejected s; ns_checked := false |}.

Lemma genesis_rules (env : accept_block_env) (seen : CBlockHeader -> Prop) t block p t' pos : collision_free seen -> seen (header block) -> is_genesis (block_hash block) = true ->
  rules_ok seen (mapBlockIndex t) -> AddToBlockIndex b_consensus b_HashQuark ab_literal t block = Ok (p, t') ->
  rules_ok seen (mapBlockIndex (ReceivedBlockTransactions ab_addr block t' p pos)).
Proof.
  intros Hcf Hs Hg Hok Ea. destruct (AddToBlockIndex_entry _ _ _ _ _ _ _ Ea) as (Hp & Hold & Hnew). fold (block_hash block) in Hp, Hold, Hnew. subst p.
  assert (Hok1 : rules_ok seen (mapBlockIndex t') /\ is_Some (mapBlockIndex t' !! block_hash block)).
  { destruct (mapBlockIndex t !! block_hash block) as [e|] eqn:Eh; [rewrite Hold by (by eexists); by rewrite Eh|].
    destruct (Hnew eq_refl (cf_self _ Hcf _ Hs)) as (en & Hix & Hhd & Hd & Hprev). rewrite Hix, lookup_insert_eq. split; [|by eexists].
    apply (rules_add seen _ _ _ (header block)); try done; [|congruence].
    intros q Hq _. destruct (mapBlockIndex t !! hashPrevBlock (header block)) eqn:Eq; [destruct Hprev as [Hprev _]; rewrite Hprev in Hq; injection Hq as <-; by eexists|congruence]. }
  destruct Hok1 as [Hok1 [e He]]. eapply received_rules; [done|exact He|done|]. congruence.
Qed.

Section Steps.
Context (network : block_env) (seen : CBlockHeader -> Prop).

(** What happens to the index: a block of a peer or of the node is processed, a block is
    loaded from a file, a header arrives, the genesis block is written, the best chain is
    activated, a block is invalidated or reconsidered. *)
Inductive chain_step (s : node_state) : node_state -> Prop :=
| step_process (env : accept_block_env) fuel block peer dbp r s' : same_network network ab_block -> seen (header block) ->
    ProcessNewBlock fuel (fresh s) block peer dbp = Some (r, s') -> chain_step s s'
| step_load (env : accept_block_env) fuel block dbp r pi s' : same_network network ab_block -> seen (header block) ->
    AcceptBlock fuel (fresh s) block dbp false = Some (r, pi, s') -> chain_step s s'
| step_header (env : accept_block_env) block r t : same_network network ab_block -> seen (header block) ->
    AcceptBlockHeader (ns_tree s) block = (r, t) -> chain_step s (with_tree s t)
| step_genesis (env : accept_block_env) block p t pos : same_network network ab_block -> seen (header block) -> @is_genesis (@ab_block env) (@block_hash (@ab_block env) block) = true ->
    AddToBlockIndex (@b_consensus (@ab_block env)) (@b_HashQuark (@ab_block env)) ab_literal (ns_tree s) block = Ok (p, t) ->
    chain_step s (with_tree s (ReceivedBlockTransactions ab_addr block t p pos))
| step_best (env : accept_block_env) fuel r t : ActivateBestChain ab_addr ab_connect ab_disconnect fuel (ns_tree s) = Some (r, t) -> chain_step s (with_tree s t)
| step_invalid (env : accept_block_env) p : chain_step s (with_tree s (InvalidateBlock ab_addr ab_disconnect (ns_tree s) p).2)
| step_again (env : accept_block_env) p : chain_step s (with_tree s (ReconsiderBlock ab_addr (ns_tree s) p).2).

Lemma chain_step_rules s s' : @collision_free network seen -> chain_step s s' -> @rules_ok network seen (mapBlockIndex (ns_tree s)) -> @rules_ok network seen (mapBlockIndex (ns_tree s')).
Proof using Type.
  intros Hcf Hst Hok. destruct Hst as [env fuel block peer dbp r s' Hn Hs E|env fuel block dbp r pi s' Hn Hs E|env block r t Hn Hs E|env block p t pos Hn Hs Hg E|env fuel r t E|env p|env p].
  - apply (network_rules (@ab_block env) network _ _ (same_network_sym _ _ Hn)). exact (ProcessNewBlock_rules seen (network_collisions _ _ _ Hn Hcf) _ (fresh s) _ _ _ _ _ Hs (network_rules _ _ _ _ Hn Hok) eq_refl E).
  - apply (network_rules (@ab_block env) network _ _ (same_network_sym _ _ Hn)). refine (AcceptBlock_rules seen (network_collisions _ _ _ Hn Hcf) _ (fresh s) _ _ _ _ _ _ Hs (network_rules _ _ _ _ Hn Hok) _ E). by intros [?|?].
  - apply (network_rules (@ab_block env) network _ _ (same_network_sym _ _ Hn)). cbn. exact (proj1 (AcceptBlockHeader_rules seen (network_collisions _ _ _ Hn Hcf) _ _ _ _ Hs (network_rules _ _ _ _ Hn Hok) E)).
  - apply (network_rules (@ab_block env) network _ _ (same_network_sym _ _ Hn)). cbn. exact (genesis_rules env seen _ _ _ _ pos (network_collisions _ _ _ Hn Hcf) Hs Hg (network_rules _ _ _ _ Hn Hok) E).
  - apply calmly_activate in E. by eapply rules_same.
  - eapply rules_same; [|done]. apply calmly_invalidate.
  - eapply rules_same; [|done]. apply calmly_reconsider.
Qed.
End Steps.

Lemma rules_empty `{block_env} seen : rules_ok seen ∅.
Proof. constructor; repeat intro; match goal with E : ∅ !! _ = Some _ |- _ => by rewrite lookup_empty in E end. Qed.

(** ** The theorem *)

(** C7: whatever blocks and headers arrive in whatever order, while clocks, sporks and
    settings change, blocks connect or fail, and operators invalidate and reconsider blocks:
    every entry of the index but the genesis block is one higher than its parent, is later
    than the limit its ancestors set, has a time slot, a version and, at a checkpoint, the
    hash that its height demands; and every entry whose data is stored has the difficulty
    that its ancestors require (but for the two exceptions of the code) and belongs to a
    well-formed block whose transactions have the Merkle root of its header. *)
Theorem accepted_blocks_follow_rules (network : block_env) (seen : CBlockHeader -> Prop) s0 s : collision_free seen ->
  mapBlockIndex (ns_tree s0) = ∅ -> rtc (chain_step network seen) s0 s ->
  forall p e, mapBlockIndex (ns_tree s) !! p = Some e -> is_genesis p = false ->
    (exists q prev, bi_pprev e = Some q /\ mapBlockIndex (ns_tree s) !! q = Some prev /\ bi_nHeight e = bi_nHeight prev + 1 /\
       (b_regtest = false -> MinPastBlockTime (mapBlockIndex (ns_tree s)) q prev < bi_nTime e /\ IsValidBlockTimeStamp b_consensus (bi_nTime e) (bi_nHeight e) = true) /\
       outdated_version (bi_nVersion e) (bi_nHeight e) = false /\ Checkpoints_CheckBlock (bi_nHeight e) p false = true /\
       (has_data e = true -> exists required, GetNextWorkRequired b_consensus b_regtest (mapBlockIndex (ns_tree s)) (Some q) = Some required /\ right_work e required)) /\
    (has_data e = true -> exists block, block_hash block = p /\ check_form block true = Ok tt).
Proof.
  intros Hcf H0 Hr p e He Hg. assert (Hok : rules_ok seen (mapBlockIndex (ns_tree s))).
  { eapply (rtc_ind_r (fun s => rules_ok seen (mapBlockIndex (ns_tree s)))); [| |exact Hr]; [rewrite H0; apply rules_empty|].
    intros x y _ Hst Hx. by eapply chain_step_rules. }
  destruct (ro_follows _ _ Hok p e He Hg) as (q & prev & Hq & Hprev & Hh & Ht & Hv & Hck). split.
  - exists q, prev. split_and!; try done. intros Hd. destruct (ro_stored _ _ Hok p e He Hg Hd) as [(q' & req & Hq' & Hreq & Hw) _].
    assert (q' = q) as -> by congruence. by exists req.
  - intros Hd. by destruct (ro_stored _ _ Hok p e He Hg Hd) as [_ Hb].
Qed.

(** ** Witness: a genesis block and a block on it *)

(** A hash that can be computed by hand: the nonce, at the end of an old header. *)
Definition nonce_hash (s : bytes) : bytes := drop (length s - 4) s.

Definition tiny_consensus : ConsensusParams :=
  let c := mainConsensus in
  {| hashGenesisBlock := 1; fPowAllowMinDifficultyBlocks := fPowAllowMinDifficultyBlocks c; powLimit := powLimit c; posLimitV1 := posLimitV1 c; posLimitV2 := posLimitV2 c;
     nBudgetCycleBlocks := nBudgetCycleBlocks c; nBudgetFeeConfirmations := nBudgetFeeConfirmations c; nCoinbaseMaturity := nCoinbaseMaturity c;
     nFutureTimeDriftPoW := nFutureTimeDriftPoW c; nFutureTimeDriftPoS := nFutureTimeDriftPoS c; nMasternodeCountDrift := nMasternodeCountDrift c;
     nMaxMoneyOut := nMaxMoneyOut c; nPoolMaxTransactions := nPoolMaxTransactions c; nProposalEstablishmentTime := nProposalEstablishmentTime c;
     nStakeMinAge := nStakeMinAge c; nStakeMinDepth := nStakeMinDepth c; nTargetTimespan := nTargetTimespan c; nTargetTimespanV2 := nTargetTimespanV2 c;
     nTargetSpacing := nTargetSpacing c; nTimeSlotLength := nTimeSlotLength c; nBetBlocksIndexTimespan := nBetBlocksIndexTimespan c;
     strDevPayoutAddr := strDevPayoutAddr c; nMinBetPayoutRange := nMinBetPayoutRange c; nMaxBetPayoutRange := nMaxBetPayoutRange c;
     nMaxWinnerPayout := nMaxWinnerPayout c; nBetBlockPayoutAmount := nBetBlockPayoutAmount c; nBetPlaceTimeoutBlocks := nBetPlaceTimeoutBlocks c;
     strSporkPubKey := strSporkPubKey c; strSporkPubKeyOld := strSporkPubKeyOld c; nTime_EnforceNewSporkKey := nTime_EnforceNewSporkKey c;
     nTime_RejectOldSporkKey := nTime_RejectOldSporkKey c; height_last_PoW := height_last_PoW c; height_last_ZC_AccumCheckpoint := height_last_ZC_AccumCheckpoint c;
     height_last_ZC_WrappedSerials := height_last_ZC_WrappedSerials c; height_start_BIP65 := 1000; height_start_InvalidUTXOsCheck := 1000;
     height_start_MessSignaturesV2 := 1000; height_start_StakeModifierNewSelection := 1000; height_start_StakeModifierV2 := 1000;
     height_start_TimeProtoV2 := 1000; height_start_ZC := 1000; height_start_ZC_InvalidSerials := 1000; height_start_ZC_PublicSpends := 1000;
     height_start_ZC_SerialRangeCheck := 1000; height_start_ZC_SerialsV2 := 1000; height_ZC_RecalcAccumulators := 1000;
     nPwrbBadBlockTime := nPwrbBadBlockTime c; nPwrbBadBlockBits := nPwrbBadBlockBits c; ZC_Modulus := ZC_Modulus c;
     ZC_MaxPublicSpendsPerTx := ZC_MaxPublicSpendsPerTx c; ZC_MaxSpendsPerTx := ZC_MaxSpendsPerTx c; ZC_MinMintConfirmations := ZC_MinMintConfirmations c;
     ZC_MinMintFee := ZC_MinMintFee c; ZC_MinStakeDepth := ZC_MinStakeDepth c; ZC_TimeStart := ZC_TimeStart c; ZC_WrappedSerialsSupply := ZC_WrappedSerialsSupply c |}.

#[local] Instance tiny_network : block_env := {|
  b_consensus := tiny_consensus; b_regtest := false; b_HashQuark := nonce_hash; b_adjusted_time := 2000; b_time := 2000; b_initial_download := true;
  b_swifttx_filtering := false; b_superblocks := false; b_coldstaking := false; b_locked_input := fun _ => None; b_synced := true;
  b_budget_block := fun _ => false; b_payee_valid := fun _ _ => true; b_get_tx := fun _ => None; b_zerocoin_spend := fun _ => false;
  b_parse_spend := fun _ _ => Err AssertFail; b_spend_version := fun _ _ => true; b_max_reorg := 100; b_checkpoints := [];
  b_checkpoints_enabled := true; b_bits_close := Z.eqb |}.

#[local] Instance tiny_node : accept_block_env := {|
  ab_block := tiny_network; ab_addr := fun p => Z.pos (encode p); ab_literal := 0; ab_connect := fun _ _ => Ok (Some 0); ab_disconnect := fun _ _ => true;
  ab_Verify := fun _ _ _ => true; ab_CheckLowS := fun _ => true; ab_zerocoin_input := fun _ => None; ab_acc_checksum := fun _ _ => None;
  ab_spend_pubkey := fun _ => []; ab_serial := fun _ => 0; ab_public_enforced := fun _ _ => true; ab_serial_height := fun _ => None;
  ab_context_spend := fun _ _ _ => true; ab_context_spend_noserial := fun _ _ _ => true; ab_read := fun _ => None; ab_write := fun _ _ => true;
  ab_space := fun _ => true; ab_coins := fun _ => None |}.

(** A coinbase that starts with the height. *)
Definition tiny_coinbase (height : Z) : CTransaction :=
  {| Transaction.nVersion := 1; vin := [{| prevout := COutPoint_null; scriptSig := push_int64 [] height ++ [0]; nSequence := 0 |}];
     vout := [{| nValue := 100000000; scriptPubKey := [OP_1]; nRounds := -10 |}]; nLockTime := 0 |}.
Definition tiny_block (height nonce time : Z) (prev : bytes) : CBlock :=
  let b := {| header := CBlockHeader_SetNull; vtx := [tiny_coinbase height]; vchBlockSig := [] |} in
  {| header := {| h_nVersion := 3; hashPrevBlock := prev; hashMerkleRoot := fst (BlockMerkleRoot b); nTime := time; nBits := 0x1e0fffff; nNonce := nonce;
                  nAccumulatorCheckpoint := uint256_zero |}; vtx := [tiny_coinbase height]; vchBlockSig := [] |}.
Definition tiny_genesis : CBlock := tiny_block 0 1 1000 uint256_zero.
Definition tiny_next : CBlock := tiny_block 1 2 1500 [1; 0; 0; 0].

Definition tiny_start : node_state :=
  {| ns_tree := empty_tree; ns_files := {| vinfoBlockFile := []; nLastBlockFile := 0; setDirtyFileInfo := ∅ |}; ns_rejected := ∅; ns_checked := false |}.
Definition tiny_with_genesis : node_state :=
  match AddToBlockIndex b_consensus b_HashQuark ab_literal empty_tree tiny_genesis with
  | Ok (p, t) => with_tree tiny_start (ReceivedBlockTransactions ab_addr tiny_genesis t p {| dp_nFile := 0; dp_nPos := 8 |})
  | Err _ => tiny_start
  end.
#[local] Notation tiny_accepted := (AcceptBlock 0 (fresh tiny_with_genesis) tiny_next None false).

Lemma tiny_runs : match tiny_accepted with
  | Some (Ok _, Some p, s) => bool_decide (p = [2; 0; 0; 0]) && match mapBlockIndex (ns_tree s) !! [2; 0; 0; 0] with Some e => has_data e && (bi_nHeight e =? 1) | None => false end
  | _ => false end = true.
Proof. vm_compute. reflexivity. Qed.

Definition tiny_seen (h : CBlockHeader) : Prop := h = header tiny_genesis \/ h = header tiny_next.

Lemma tiny_collision_free : collision_free tiny_seen.
Proof.
  assert (H1 : header_hash (header tiny_genesis) = [1; 0; 0; 0]) by (vm_compute; reflexivity).
  assert (H2 : header_hash (header tiny_next) = [2; 0; 0; 0]) by (vm_compute; reflexivity).
  constructor.
  - intros h h' [->| ->] [->| ->] E; try reflexivity; exfalso; rewrite H1, H2 in E; discriminate E.
  - intros h [->| ->]; [rewrite H1|rewrite H2]; discriminate.
Qed.

Lemma tiny_genesis_step : chain_step tiny_network tiny_seen tiny_start tiny_with_genesis.
Proof.
  assert (Hg : is_genesis (block_hash tiny_genesis) = true) by (vm_compute; reflexivity).
  assert (Ha : is_ok (AddToBlockIndex b_consensus b_HashQuark ab_literal empty_tree tiny_genesis) = true) by (vm_compute; reflexivity).
  unfold tiny_with_genesis. destruct (AddToBlockIndex b_consensus b_HashQuark ab_literal empty_tree tiny_genesis) as [[p t]|] eqn:E; [|discriminate Ha].
  apply (step_genesis _ _ _ tiny_node tiny_genesis p t); [by constructor|by left|exact Hg|exact E].
Qed.

Lemma accepted_blocks_follow_rules_witness : exists s e, rtc (chain_step tiny_network tiny_seen) tiny_start s /\
  mapBlockIndex (ns_tree s) !! [2; 0; 0; 0] = Some e /\ has_data e = true /\ bi_nHeight e = 1 /\
  exists q required, bi_pprev e = Some q /\ GetNextWorkRequired b_consensus b_regtest (mapBlockIndex (ns_tree s)) (Some q) = Some required /\ right_work e required.
Proof.
  pose proof tiny_runs as Hrun. destruct tiny_accepted as [[[[u|] [p|]] s]|] eqn:E; try discriminate Hrun.
  apply andb_true_iff in Hrun as [_ Hrun]. destruct (mapBlockIndex (ns_tree s) !! [2; 0; 0; 0]) as [e|] eqn:Ee; [|discriminate Hrun].
  apply andb_true_iff in Hrun as [Hd Hh]. apply Z.eqb_eq in Hh.
  assert (Hr : rtc (chain_step tiny_network tiny_seen) tiny_start s).
  { eapply rtc_l; [exact tiny_genesis_step|]. apply rtc_once. apply (step_load _ _ _ tiny_node 0 tiny_next None (Ok u) (Some p)); [constructor; reflexivity|right; reflexivity|exact E]. }
  exists s, e. split; [exact Hr|]. split; [exact Ee|]. split; [exact Hd|]. split; [exact Hh|].
  destruct (accepted_blocks_follow_rules tiny_network tiny_seen tiny_start s tiny_collision_free eq_refl Hr _ e Ee) as [(q & prev & Hq & _ & _ & _ & _ & _ & Hw) _];
    [vm_compute; reflexivity|]. destruct (Hw Hd) as (req & Hreq & Hright). exists q, req. split; [exact Hq|]. split; [exact Hreq|exact Hright].
Defined.
