(* ===== verification/BlockStore.v ===== *)
(** What the checks of a block promise: the exact conditions of [CheckBlock], the inputs of
    a coinstake, and the place of a block in the files. *)

From Stdlib Require Import ZArith Lia String.
From stdpp Require Import base tactics list numbers option gmap strings.
From S2P Require Import Prelude ArithUint256 ChainParams Script Standard Transaction Block TxVerify Merkle Chain Pow StakeModifier Coins BlockTree ChainSelection IndexInvariant Kernel.
From S2P Require Import BlockCheck AcceptBlock TipSelection AcceptFacts.

(** ** Block files *)

(** A block of [size] bytes at a position. *)
Record stored_at := { sa_pos : CDiskBlockPos; sa_size : Z }.

Definition apart (a b : stored_at) : Prop :=
  dp_nFile (sa_pos a) <> dp_nFile (sa_pos b) \/
  dp_nPos (sa_pos a) + sa_size a <= dp_nPos (sa_pos b) \/ dp_nPos (sa_pos b) + sa_size b <= dp_nPos (sa_pos a).

(** The sizes of the files fit, and the blocks lie within them, apart from each other. *)
Record files_ok (s : block_files) (l : list stored_at) : Prop := {
  fo_last : 0 <= nLastBlockFile s;
  fo_sizes : forall i f, vinfoBlockFile s !! i = Some f -> 0 <= bf_nSize f <= 2 ^ 31;
  fo_inside : forall a, a ∈ l -> 0 <= dp_nFile (sa_pos a) /\ exists f, vinfoBlockFile s !! Z.to_nat (dp_nFile (sa_pos a)) = Some f /\
    0 <= dp_nPos (sa_pos a) /\ dp_nPos (sa_pos a) + sa_size a <= bf_nSize f;
  fo_apart : forall i j a b, l !! i = Some a -> l !! j = Some b -> i <> j -> apart a b }.

Lemma grow_lookup l n i f : grow_files l n !! i = Some f -> l !! i = Some f \/ f = CBlockFileInfo_null.
Proof.
  unfold grow_files. intros [H|[_ H]]%lookup_app_Some; [by left|]. apply lookup_replicate in H as [-> _]. by right.
Qed.
Lemma grow_keeps l n i f : l !! i = Some f -> grow_files l n !! i = Some f.
Proof. intros H. unfold grow_files. by apply lookup_app_l_Some. Qed.
Lemma grow_has l n : is_Some (grow_files l n !! Z.to_nat n).
Proof. apply lookup_lt_is_Some. unfold grow_files. rewrite length_app, length_replicate. lia. Qed.

Definition grown (l l' : list CBlockFileInfo) : Prop :=
  (forall i f, l' !! i = Some f -> l !! i = Some f \/ f = CBlockFileInfo_null) /\ (forall i f, l !! i = Some f -> l' !! i = Some f).

Lemma grown_files l n : grown l (grow_files l n).
Proof. split; [apply grow_lookup|apply grow_keeps]. Qed.
Lemma grown_trans l1 l2 l3 : grown l1 l2 -> grown l2 l3 -> grown l1 l3.
Proof. intros [A1 A2] [B1 B2]. split; [|by auto]. intros i f [H|H]%B1; [by apply A1|by right]. Qed.

Lemma grow_at_end l n : 0 <= n -> (length l <= Z.to_nat n)%nat -> grow_files l n !! Z.to_nat n = Some CBlockFileInfo_null.
Proof. intros Hn Hl. unfold grow_files. rewrite lookup_app_r by done. apply lookup_replicate_2. lia. Qed.

(** The search leaves full files behind and ends at a file with room. *)
Lemma next_file_ends fuel : forall l nFile nAddSize, 0 <= nAddSize < MAX_BLOCKFILE_SIZE -> 0 <= nFile -> is_Some (l !! Z.to_nat nFile) ->
  (forall i f, l !! i = Some f -> 0 <= bf_nSize f <= 2 ^ 31) -> Z.of_nat (length l) <= nFile + Z.of_nat fuel \/ l !! Z.to_nat nFile = Some CBlockFileInfo_null ->
  exists l' n f, next_file fuel l nFile nAddSize = Some (l', n) /\ grown l l' /\ 0 <= n /\ l' !! Z.to_nat n = Some f /\ bf_nSize f + nAddSize < MAX_BLOCKFILE_SIZE.
Proof.
  unfold MAX_BLOCKFILE_SIZE. induction fuel as [|fuel IH]; intros l nFile nAddSize Ha Hn [f Hf] Hs Hlen; cbn [next_file]; rewrite Hf; unfold MAX_BLOCKFILE_SIZE;
    pose proof (Hs _ _ Hf) as Hsz; rewrite u32_id by lia; destruct (Z.leb_spec 0x8000000 (bf_nSize f + nAddSize)) as [Hfull|Hroom];
    try (exists l, nFile, f; split_and!; try done; split; [by left|done]);
    (destruct Hlen as [Hlen|Hnull]; [|rewrite Hf in Hnull; injection Hnull as ->; cbn in Hfull; lia]).
  { apply lookup_lt_Some in Hf. lia. }
  destruct (IH (grow_files l (nFile + 1)) (nFile + 1) nAddSize) as (l' & n & g & E & Hg & H0 & Hl & Hr); [done|lia|apply grow_has| | |].
  - intros i g [Hg| ->]%grow_lookup; [by apply (Hs i)|]. cbn. lia.
  - destruct (decide (length l <= Z.to_nat (nFile + 1))%nat); [right; apply grow_at_end; lia|left].
    unfold grow_files. rewrite length_app, length_replicate. lia.
  - exists l', n, g. split_and!; try done. eapply grown_trans; [apply grown_files|done].
Qed.

(** The files after a block was put into one of them. *)
Lemma files_ok_put s l l' n f g a : files_ok s l -> grown (vinfoBlockFile s) l' -> 0 <= n -> l' !! Z.to_nat n = Some f -> dp_nFile (sa_pos a) = n ->
  dp_nPos (sa_pos a) = bf_nSize f -> 0 <= sa_size a -> bf_nSize g = bf_nSize f + sa_size a -> bf_nSize g <= 2 ^ 31 -> forall dirty,
  files_ok {| vinfoBlockFile := <[Z.to_nat n := g]> l'; nLastBlockFile := n; setDirtyFileInfo := dirty |} (a :: l).
Proof.
  intros [Hl Hs Hi Ha] [G1 G2] Hn Hf Hfile Hpos Hsz Hg Hmax dirty. pose proof (lookup_lt_Some _ _ _ Hf) as Hlt.
  assert (Hs' : forall i f, l' !! i = Some f -> 0 <= bf_nSize f <= 2 ^ 31) by (intros i h [H| ->]%G1; [by apply (Hs i)|cbn; lia]).
  assert (Hin : forall b, b ∈ l -> 0 <= dp_nFile (sa_pos b) /\ (dp_nFile (sa_pos b) = n -> dp_nPos (sa_pos b) + sa_size b <= bf_nSize f)).
  { intros b Hb. destruct (Hi b Hb) as (H0 & h & Hh & _ & Hle). split; [done|]. intros E. rewrite E in Hh. apply G2 in Hh. rewrite Hf in Hh. by simplify_eq. }
  assert (Hap : forall b, b ∈ l -> apart a b).
  { intros b Hb. destruct (Hin b Hb) as [_ Hle]. unfold apart. destruct (decide (dp_nFile (sa_pos b) = n)) as [E|]; [right; right; rewrite Hpos; by apply Hle|left; congruence]. }
  constructor; cbn [vinfoBlockFile nLastBlockFile].
  - done.
  - intros i h. destruct (decide (i = Z.to_nat n)) as [->|Hne]; [rewrite list_lookup_insert_eq by done; intros [= <-]; pose proof (Hs' _ _ Hf); lia|].
    rewrite list_lookup_insert_ne by done. apply Hs'.
  - intros b [->|Hb]%elem_of_cons.
    + split; [lia|]. exists g. rewrite Hfile, list_lookup_insert_eq by done. split; [done|]. pose proof (Hs' _ _ Hf). lia.
    + destruct (Hi b Hb) as (H0 & h & Hh & Hp & Hle). split; [done|]. destruct (decide (dp_nFile (sa_pos b) = n)) as [E|Hne].
      * exists g. rewrite E, list_lookup_insert_eq by done. split_and!; [done|done|]. destruct (Hin b Hb) as [_ Hle']. specialize (Hle' E). lia.
      * exists h. rewrite list_lookup_insert_ne by lia. split; [by apply G2|done].
  - intros i j x y Hx Hy Hij. destruct i as [|i], j as [|j]; cbn in Hx, Hy; simplify_eq; try done.
    + apply Hap. by eapply list_elem_of_lookup_2.
    + assert (Hc : apart y x) by (apply Hap; by eapply list_elem_of_lookup_2). unfold apart in *. destruct Hc as [?|[?|?]]; [left; congruence|by right; right|by right; left].
    + apply (Ha i j); [done|done|congruence].
Qed.

(** C30: Finding room for a block ends, whatever the block files hold; the range it returns
    lies within its file, below the limit on the size of a file, and no two blocks stored
    one after the other ever overlap, also when the disk is full and the range is lost. *)
Theorem block_ranges_disjoint disk_space s l nAddSize nHeight nTime : files_ok s l -> 0 < nAddSize < MAX_BLOCKFILE_SIZE ->
  exists r pos s', FindBlockPos disk_space s None nAddSize nHeight nTime = Some (r, pos, s') /\
    dp_nPos pos + nAddSize < MAX_BLOCKFILE_SIZE /\ files_ok s' ({| sa_pos := pos; sa_size := nAddSize |} :: l).
Proof.
  intros Hok Hadd. unfold FindBlockPos. set (l0 := grow_files (vinfoBlockFile s) (nLastBlockFile s)).
  destruct (next_file_ends (S (length l0)) l0 (nLastBlockFile s) nAddSize) as (l' & n & f & E & Hg & Hn & Hf & Hroom); [lia|apply Hok|apply grow_has| |left; pose proof (fo_last _ _ Hok); lia|].
  { intros i f [Hf| ->]%grow_lookup; [by apply (fo_sizes _ _ Hok i)|cbn; lia]. }
  rewrite E, Hf. assert (Hgr : grown (vinfoBlockFile s) l') by (eapply grown_trans; [apply grown_files|exact Hg]).
  assert (Hsz : 0 <= bf_nSize f) by (destruct Hgr as [G1 _]; destruct (G1 _ _ Hf) as [H| ->]; [by apply (fo_sizes _ _ Hok _ _ H)|done]).
  rewrite u32_id by (unfold MAX_BLOCKFILE_SIZE in *; lia). cbn [dp_nPos].
  assert (Hput : forall d, files_ok {| vinfoBlockFile := <[Z.to_nat n := with_size (AddBlock f nHeight nTime) (bf_nSize f + nAddSize)]> l'; nLastBlockFile := n; setDirtyFileInfo := d |}
    ({| sa_pos := {| dp_nFile := n; dp_nPos := bf_nSize f |}; sa_size := nAddSize |} :: l)).
  { apply (files_ok_put s l l' n f); try done; cbn; unfold MAX_BLOCKFILE_SIZE in *; lia. }
  destruct (allocate _ _ _ _); eexists _, _, _; (split; [done|]); (split; [done|apply Hput]).
Qed.

Definition no_files : block_files := {| vinfoBlockFile := []; nLastBlockFile := 0; setDirtyFileInfo := ∅ |}.

Lemma no_files_ok : files_ok no_files [].
Proof. constructor; cbn; [lia|done|intros a Ha; by apply not_elem_of_nil in Ha|done]. Qed.

(** A block that nearly fills a file, and one that no longer fits. *)
Lemma block_ranges_disjoint_witness : exists r1 p1 s1 r2 p2 s2,
  FindBlockPos (fun _ => true) no_files None 0x7000000 1 1000 = Some (r1, p1, s1) /\ FindBlockPos (fun _ => true) s1 None 0x2000000 2 1000 = Some (r2, p2, s2) /\
  files_ok s2 [{| sa_pos := p2; sa_size := 0x2000000 |}; {| sa_pos := p1; sa_size := 0x7000000 |}] /\ dp_nFile p2 = 1.
Proof.
  destruct (block_ranges_disjoint (fun _ => true) no_files [] 0x7000000 1 1000 no_files_ok) as (r1 & p1 & s1 & E1 & _ & H1); [unfold MAX_BLOCKFILE_SIZE; lia|].
  destruct (block_ranges_disjoint (fun _ => true) s1 _ 0x2000000 2 1000 H1) as (r2 & p2 & s2 & E2 & _ & H2); [unfold MAX_BLOCKFILE_SIZE; lia|].
  exists r1, p1, s1, r2, p2, s2. split; [exact E1|]. split; [exact E2|]. split; [exact H2|]. vm_compute in E1. injection E1 as _ _ <-. vm_compute in E2. injection E2 as _ <- _. reflexivity.
Defined.

(** ** The inputs of a coinstake *)

Lemma res_fold_each {E A S} (f : S -> A -> res E S) l : forall s s' x, res_fold f s l = Ok s' -> x ∈ l -> exists s1 s2, f s1 x = Ok s2.
Proof.
  induction l as [|y l IH]; intros s s' x Hf Hx; [by apply not_elem_of_nil in Hx|]. cbn [res_fold] in Hf. destruct (f s y) as [s1|] eqn:Ey; [|done]. cbn [res_bind] in Hf.
  apply elem_of_cons in Hx as [->|Hx]; [by exists s, s1|by eapply IH].
Qed.

Section Stake.
Context `{accept_block_env}.

(** No input of the list spends an output of the other. *)
Definition disjoint_inputs (ins ins' : list CTxIn) : Prop := forall i j, i ∈ ins -> j ∈ ins' -> prevout i <> prevout j.

Lemma spends_none ins l : Forall (fun i => spends_any ins i = false) l -> disjoint_inputs l ins.
Proof using Type.
  intros Hl i j Hi Hj E. rewrite Forall_forall in Hl. specialize (Hl i Hi). unfold spends_any in Hl.
  assert (Ht : existsb (fun s => bool_decide (prevout s = prevout i)) ins = true); [|congruence].
  apply existsb_exists. exists j. split; [by apply list_elem_of_In|]. by apply bool_decide_eq_true_2.
Qed.

Lemma own_inputs nHeight ins block serials serials' tx : res_fold (check_own_tx nHeight ins) serials (vtx block) = Ok serials' -> tx ∈ vtx block ->
  IsCoinStake tx = false -> disjoint_inputs (vin tx) ins.
Proof using Type.
  intros E Htx Hk. destruct (res_fold_each _ _ _ _ _ E Htx) as (s1 & s2 & Et). apply spends_none, Forall_forall. intros i Hi.
  destruct (res_fold_each _ _ _ _ _ Et Hi) as (s3 & s4 & Ei). unfold check_own_input in Ei. rewrite Hk in Ei.
  match type of Ei with res_bind ?r _ = _ => destruct r; [|done] end. cbn [res_bind] in Ei. by destruct (spends_any ins i).
Qed.

Lemma scan_block_apart ins hasZ bl l : scan_block ins hasZ bl = Ok l -> disjoint_inputs (concat (map vin (vtx bl))) ins.
Proof using Type.
  unfold scan_block. destruct (existsb _ _) eqn:Ex; [done|]. intros _. apply spends_none, Forall_forall. intros i Hi.
  destruct (spends_any ins i) eqn:Es; [|done]. rewrite <- Ex. symmetry. apply existsb_exists. exists i. split; [by apply list_elem_of_In|done].
Qed.

Lemma scan_fork_spec fuel t ins hasZ : linked (mapBlockIndex t) -> forall prev h bl count serials split serials',
  height_at (mapBlockIndex t) prev = Some h -> ab_read prev = Some bl -> scan_fork fuel t ins hasZ prev bl count serials = Ok (split, serials') ->
  (exists q, ancestor (mapBlockIndex t) prev split = Some q /\ Contains (mapBlockIndex t) (chainActive t) q = true) /\
  forall k q, split < k -> ancestor (mapBlockIndex t) prev k = Some q ->
    Contains (mapBlockIndex t) (chainActive t) q = false /\ exists b, ab_read q = Some b /\ disjoint_inputs (concat (map vin (vtx b))) ins.
Proof using Type.
  intros Hix. induction fuel as [|fuel IH]; intros prev h bl count serials split serials' Hh Hbl E; cbn [scan_fork] in E.
  all: pose proof Hh as Hp; unfold height_at in Hh; destruct (mapBlockIndex t !! prev) as [e|] eqn:Ee; [|done]; injection Hh as <-.
  all: destruct (Contains _ _ prev) eqn:Ec; [injection E as <- <-|].
  1, 3: split; [exists prev; split; [by apply ancestor_self|done]|]; intros k q Hk Hq; pose proof (ancestor_range _ _ _ _ _ Hp Hq); lia.
  all: destruct (_ =? b_max_reorg); [done|]; destruct (scan_block ins hasZ bl) as [more|] eqn:Es; [|done]; cbn [res_bind] in E.
  all: destruct (bi_pprev e) as [p1|] eqn:Ep; [|done]; destruct (ab_read p1) as [b1|] eqn:Er; [|done]; try done.
  assert (Hprev : prev_at (mapBlockIndex t) prev = Some p1) by (unfold prev_at; by rewrite Ee).
  destruct (linked_prev _ Hix prev _ Hp) as [H0 Hl]. assert (Hh1 : height_at (mapBlockIndex t) p1 = Some (bi_nHeight e - 1) /\ 0 < bi_nHeight e).
  { pose proof (Hix prev e Ee) as Hel. unfold entry_linked in Hel. rewrite Ep in Hel. destruct Hel as (h' & E1 & E2 & E3 & _). rewrite E1. split; [f_equal; lia|lia]. }
  destruct Hh1 as [Hh1 Hpos]. destruct (IH p1 _ b1 _ _ _ _ Hh1 Er E) as [(q0 & Hq0 & Hc0) Hall].
  pose proof (ancestor_range _ _ _ _ _ Hh1 Hq0) as Hr0. split.
  - exists q0. split; [|done]. rewrite (ancestor_prev _ Hix prev (bi_nHeight e) p1 split Hp Hprev); [done|lia].
  - intros k q Hk Hq. destruct (decide (k = bi_nHeight e)) as [->|Hne].
    + rewrite (ancestor_self _ Hix _ _ Hp) in Hq. injection Hq as <-. split; [done|]. exists bl. split; [done|]. by eapply scan_block_apart.
    + pose proof (ancestor_range _ _ _ _ _ Hp Hq) as Hrk. rewrite (ancestor_prev _ Hix prev (bi_nHeight e) p1 k Hp Hprev) in Hq by lia. by apply (Hall k).
Qed.
End Stake.

Lemma plain_inputs tx : HasZerocoinSpendInputs tx = false ->
  List.filter CTxIn_IsZerocoinSpend (vin tx) = [] /\ List.filter (fun i => negb (CTxIn_IsZerocoinSpend i)) (vin tx) = vin tx.
Proof.
  intros Hz%no_spends. induction Hz as [|i l Hi _ [IH1 IH2]]; [done|]. cbn [List.filter]. rewrite Hi. cbn [negb]. by rewrite IH1, IH2.
Qed.

Lemma check_all_each {A} (f : A -> vres unit) l x : check_all f l = Ok tt -> x ∈ l -> f x = Ok tt.
Proof. intros E Hx. destruct (res_fold_each _ _ _ _ _ E Hx) as (s1 & s2 & Ef). by destruct s2. Qed.

(** C29: A coinstake of ordinary coins that passes the checks of [AcceptBlock] spends outputs
    that no other transaction of the block spends; on the tip they are available coins; on
    a fork, going back from the parent, a block of the active chain is reached, and no
    block above it spends any of them. *)
Theorem coinstake_inputs_unspent `{accept_block_env} t block prev stake nHeight : linked (mapBlockIndex t) -> is_Some (mapBlockIndex t !! prev) ->
  vtx block !! 1%nat = Some stake -> HasZerocoinSpendInputs stake = false -> check_coinstake t block (Some prev) nHeight = Ok tt ->
  (forall tx, tx ∈ vtx block -> IsCoinStake tx = false -> disjoint_inputs (vin tx) (vin stake)) /\
  (tip_of t = Some prev -> forall j, j ∈ vin stake -> exists c, ab_coins (op_hash (prevout j)) = Some c /\ IsAvailable c (op_n (prevout j)) = true) /\
  (tip_of t <> Some prev -> exists split q0, ancestor (mapBlockIndex t) prev split = Some q0 /\ Contains (mapBlockIndex t) (chainActive t) q0 = true /\
     forall k q, split < k -> ancestor (mapBlockIndex t) prev k = Some q ->
       exists b, ab_read q = Some b /\ disjoint_inputs (concat (map vin (vtx b))) (vin stake)).
Proof.
  intros Hix [e He] Hstake Hz E. unfold check_coinstake in E. rewrite Hstake, Hz in E. cbn [negb] in E.
  destruct (plain_inputs stake Hz) as [E1 E2]. rewrite E1, E2 in E. destruct (res_fold _ _ _) as [serials|] eqn:Eo; [|done]. cbn [res_bind] in E.
  split; [intros tx Htx Hk; by eapply own_inputs|]. destruct (bool_decide (tip_of t = Some prev)) eqn:Et; cbn [negb] in E.
  - apply bool_decide_eq_true in Et. split; [|done]. intros _ j Hj. cbn [res_bind] in E. pose proof (check_all_each _ _ j E Hj) as Ej. unfold check_main_input in Ej.
    destruct (ab_coins _) as [c|]; [|done]. exists c. split; [done|]. unfold check in Ej. by destruct (IsAvailable _ _).
  - apply bool_decide_eq_false in Et. split; [done|]. intros _. destruct (ab_read prev) as [bl|] eqn:Er; [|done].
    destruct (scan_fork _ _ _ _ _ _ _ _) as [[split sr]|] eqn:Es; [|done].
    assert (Hh : height_at (mapBlockIndex t) prev = Some (bi_nHeight e)) by (unfold height_at; by rewrite He).
    destruct (scan_fork_spec _ _ _ _ Hix _ _ _ _ _ _ _ Hh Er Es) as [(q0 & Hq0 & Hc0) Hall]. exists split, q0. split_and!; [done|done|].
    intros k q Hk Hq. by destruct (Hall k q Hk Hq) as [_ ?].
Qed.

(** Two blocks on a genesis block: [2] is on the active chain, and a block arrives on [3]. *)
Definition forked_tree : tree := (ActivateBestChainStep sample_addr (fun _ _ => Ok (Some 0)) can_read sample_tree [2]).2.

Definition fork_stake : CTransaction :=
  {| Transaction.nVersion := 1; vin := [{| prevout := {| op_hash := [7]; op_n := 0 |}; scriptSig := []; nSequence := 0 |}];
     vout := [{| nValue := 0; scriptPubKey := []; nRounds := -10 |}; {| nValue := 5; scriptPubKey := [OP_1]; nRounds := -10 |}]; nLockTime := 0 |}.
Definition fork_block : CBlock := {| header := CBlockHeader_SetNull; vtx := [tiny_coinbase 2; fork_stake]; vchBlockSig := [] |}.

#[local] Instance fork_node : accept_block_env := {|
  ab_block := tiny_network; ab_addr := sample_addr; ab_literal := 0; ab_connect := fun _ _ => Ok (Some 0); ab_disconnect := can_read;
  ab_Verify := fun _ _ _ => true; ab_CheckLowS := fun _ => true; ab_zerocoin_input := fun _ => None; ab_acc_checksum := fun _ _ => None;
  ab_spend_pubkey := fun _ => []; ab_serial := fun _ => 0; ab_public_enforced := fun _ _ => true; ab_serial_height := fun _ => None;
  ab_context_spend := fun _ _ _ => true; ab_context_spend_noserial := fun _ _ _ => true;
  ab_read := fun p => if bool_decide (p = [3]) then Some (tree_block 3 1) else if bool_decide (p = [1]) then Some (tree_block 1 0) else None;
  ab_write := fun _ _ => true; ab_space := fun _ => true; ab_coins := fun _ => None |}.

Lemma forked_linked : linked (mapBlockIndex forked_tree).
Proof.
  apply io_linked. eapply reachable_ok. apply (reach_step _ _ _ _ _ _ sample_tree); [apply (sample_reachable (fun _ _ => Ok (Some 0)) can_read)|]. apply step_activate.
Qed.

Lemma coinstake_inputs_unspent_witness : exists split q0, ancestor (mapBlockIndex forked_tree) [3] split = Some q0 /\
  forall k q, split < k -> ancestor (mapBlockIndex forked_tree) [3] k = Some q -> exists b, ab_read q = Some b /\ disjoint_inputs (concat (map vin (vtx b))) (vin fork_stake).
Proof.
  assert (Hp : bool_decide (is_Some (mapBlockIndex forked_tree !! [3])) = true) by (vm_compute; reflexivity). apply bool_decide_eq_true in Hp.
  assert (Hc : is_ok (check_coinstake forked_tree fork_block (Some [3]) 2) = true) by (vm_compute; reflexivity).
  assert (Ht : bool_decide (tip_of forked_tree = Some [3]) = false) by (vm_compute; reflexivity). apply bool_decide_eq_false in Ht.
  destruct (check_coinstake forked_tree fork_block (Some [3]) 2) as [[]|] eqn:E; [|discriminate Hc].
  destruct (coinstake_inputs_unspent forked_tree fork_block [3] fork_stake 2 forked_linked Hp eq_refl eq_refl E) as (_ & _ & Hf).
  destruct (Hf Ht) as (split & q0 & H1 & _ & H2). exists split, q0. split; [exact H1|exact H2].
Defined.

(** ** [CheckBlock] *)

Section CheckBlock.
Context `{block_env}.







End CheckBlock.


