(* ===== verification/ConnectFacts.v ===== *)
(** Connecting and disconnecting blocks, as functions of the contents of the cache:
    what [UpdateCoins] does to the map of coins, and that disconnecting puts it
    back. *)

From Stdlib Require Import ZArith Lia String.
From stdpp Require Import base tactics list numbers strings gmap fin_maps.
From S2P Require Import Prelude CString Amount ChainParams Script Standard Serialize Block Interpreter CoreWrite.
From S2P Require Import BetCode BetPayout Transaction Compressor Coins CoinsView TxVerify Connect.

Abbreviation utxo_map := (gmap bytes CCoins).

(** ** Updating a map of coins *)

Definition spend_out (m : utxo_map) (out : COutPoint) : option (CTxInUndo * utxo_map) :=
  match m !! op_hash out ≫= (fun c => Spend c out) with
  | Some (c, u) => Some (u, partial_alter (fun _ => norm c) (op_hash out) m)
  | None => None
  end.

Fixpoint spend_outs (m : utxo_map) (l : list CTxIn) : option (list CTxInUndo * utxo_map) :=
  match l with
  | [] => Some ([], m)
  | i :: l =>
      match spend_out m (prevout i) with
      | None => None
      | Some (u, m) => match spend_outs m l with Some (us, m) => Some (u :: us, m) | None => None end
      end
  end.

Definition update_coins (m : utxo_map) (tx : CTransaction) (nHeight : Z) : option (list CTxInUndo * utxo_map) :=
  match (if negb (IsCoinBase tx) && negb (HasZerocoinSpendInputs tx) then spend_outs m (vin tx) else Some ([], m)) with
  | None => None
  | Some (us, m) => Some (us, partial_alter (fun _ => norm (FromTx tx nHeight)) (CTransaction_GetHash tx) m)
  end.

Lemma Cleanup_clean c : clean (c_vout c) -> Cleanup c = c.
Proof. intros H. unfold Cleanup. rewrite H. by destruct c. Qed.

Lemma FromTx_clean tx h : Cleanup (FromTx tx h) = FromTx tx h.
Proof. apply Cleanup_clean. unfold FromTx, ClearUnspendable, Cleanup. cbn [c_vout with_vout]. apply drop_null_clean. Qed.

Lemma Spend_clean c out c' u : Spend c out = Some (c', u) -> Cleanup c' = c'.
Proof.
  unfold Spend. intros E. destruct (c_vout c !! _) as [o |]; [| done]. destruct (CTxOut_IsNull o); [done |]. cbn zeta in E.
  apply Cleanup_clean. destruct (zlen _ =? 0); simplify_eq; apply drop_null_clean.
Qed.

Lemma Spend_pruned c out : IsPruned c = true -> Spend c out = None.
Proof.
  intros Hp. unfold Spend. destruct (c_vout c !! Z.to_nat (op_n out)) as [o |] eqn:E; [| done].
  unfold IsPruned in Hp. rewrite forallb_forall in Hp. by rewrite (Hp o) by (by eapply list_elem_of_In, list_elem_of_lookup_2).
Qed.

Section Effects.
Context {V : Type} `{CCoinsViewLaws V}.
Implicit Types v : CCoinsViewCache V.

(** A cache that holds these coins and this best block. *)
Definition holds v (m : utxo_map) (b : bytes) : Prop := cache_inv v /\ cache_contents v = m /\ cache_best v = b.

Lemma reads_holds v v' m b : holds v m b -> reads v v' -> holds v' m b.
Proof. intros (_ & <- & <-) (? & ? & ? & _). by split_and!. Qed.

Lemma modify_holds {A} v m b t (f : CCoins -> A * CCoins) a v' : holds v m b -> ModifyCoins v t f = (a, v') ->
  exists c, norm c = m !! t /\ a = fst (f c) /\ holds v' (partial_alter (fun _ => norm (Cleanup (snd (f c)))) t m) b.
Proof.
  intros (Hi & <- & <-) E. destruct (ModifyCoins_spec _ _ _ _ _ Hi E) as (Hi' & Hb & _ & c & Hc & Ha & Hm).
  exists c. by split_and!.
Qed.

Lemma spend_input_inv v m b us i us' v' : holds v m b -> spend_input us i v = (Ok us', v') ->
  exists u m', spend_out m (prevout i) = Some (u, m') /\ us' = us ++ [u] /\ holds v' m' b.
Proof.
  intros Hv E. unfold spend_input, cm_bind, cm_assert in E.
  destruct (ModifyCoins v _ _) as [r v1] eqn:Em. destruct (modify_holds _ _ _ _ _ _ _ Hv Em) as (c & Hc & -> & Hv1).
  unfold spend_modifier in *. destruct (Spend c (prevout i)) as [[c' u] |] eqn:Es; cbn [fst snd] in *; [| done]. injection E as <- <-.
  assert (Hp : IsPruned c = false) by (destruct (IsPruned c) eqn:Hp; [by rewrite Spend_pruned in Es | done]).
  rewrite (Spend_clean _ _ _ _ Es) in Hv1. rewrite (norm_unpruned _ Hp) in Hc. unfold spend_out. rewrite <- Hc. cbn. rewrite Es.
  by exists u, (partial_alter (fun _ => norm c') (op_hash (prevout i)) m).
Qed.

Lemma spend_inputs_inv l v m b us us' v' : holds v m b -> cm_fold spend_input us l v = (Ok us', v') ->
  exists k m', spend_outs m l = Some (k, m') /\ us' = us ++ k /\ holds v' m' b.
Proof.
  revert v m us. induction l as [| i l IH]; intros v m us Hv E; cbn [cm_fold spend_outs] in *.
  { injection E as <- <-. exists [], m. by rewrite app_nil_r. }
  unfold cm_bind in E. destruct (spend_input us i v) as [[us1 | e] v1] eqn:E1; [| done].
  destruct (spend_input_inv _ _ _ _ _ _ _ Hv E1) as (u & m1 & -> & -> & Hv1).
  destruct (IH _ _ _ Hv1 E) as (k & m2 & -> & -> & Hv2). exists (u :: k), m2. by rewrite <- app_assoc.
Qed.

Lemma UpdateCoins_inv v m b tx h us v' : holds v m b -> UpdateCoins tx h v = (Ok us, v') ->
  exists m', update_coins m tx h = Some (us, m') /\ holds v' m' b.
Proof.
  intros Hv E. unfold UpdateCoins in E. unfold update_coins. unfold cm_bind at 1 in E.
  match type of E with context [match ?t with pair _ _ => _ end] => destruct t as [[us0 | e] v1] eqn:E1 end; [| done].
  assert (exists m1, (if negb (IsCoinBase tx) && negb (HasZerocoinSpendInputs tx) then spend_outs m (vin tx) else Some ([], m))
    = Some (us0, m1) /\ holds v1 m1 b) as (m1 & -> & Hv1).
  { destruct (negb (IsCoinBase tx) && negb (HasZerocoinSpendInputs tx)).
    - destruct (spend_inputs_inv _ _ _ _ _ _ _ Hv E1) as (k & m1 & -> & -> & ?). by exists m1.
    - injection E1 as <- <-. by exists m. }
  unfold cm_bind, cm_read in E. destruct (ModifyCoins v1 _ _) as [a v2] eqn:E2. injection E as <- <-.
  destruct (modify_holds _ _ _ _ _ _ _ Hv1 E2) as (c & _ & _ & Hv2). cbn [snd] in Hv2. rewrite FromTx_clean in Hv2. by eexists.
Qed.
End Effects.

(** ** Restoring what was spent *)

(** What the coins of a chain state satisfy. *)
Definition coins_ok (c : CCoins) : Prop := coins_wf c /\ IsPruned c = false /\ 0 < c_nHeight c < 2 ^ 31.
Definition utxo_wf (m : utxo_map) : Prop := map_Forall (fun _ => coins_ok) m.

(** Everything but the mark of a coinstake. *)
Definition drop_stake (c : CCoins) : CCoins :=
  {| fCoinBase := fCoinBase c; fCoinStake := false; c_vout := c_vout c; c_nHeight := c_nHeight c; c_nVersion := c_nVersion c |}.

(** The coins [c] that disconnecting leaves for the coins [c'] that were there:
    themselves, or, for coins older than the block at [h] of which nothing was left
    ([gone]), without that mark. *)
Definition same_at (h : Z) (gone : Prop) (c c' : CCoins) : Prop := c = c' \/ (c = drop_stake c' /\ c_nHeight c' < h /\ gone).
Definition same_but_stake (h : Z) (gone : bytes -> Prop) (m m' : utxo_map) : Prop :=
  forall t, option_Forall2 (same_at h (gone t)) (m !! t) (m' !! t).

#[global] Instance same_at_preorder h g : PreOrder (same_at h g).
Proof.
  split; [by left |]. intros a b c [-> | [-> Hb]] [-> | [-> Hc]]; [by left | by right | by right |]. right. cbn in *. done.
Qed.
#[global] Instance same_but_stake_preorder h g : PreOrder (same_but_stake h g).
Proof. split; [intros m t; reflexivity | intros m1 m2 m3 H1 H2 t; by transitivity (m2 !! t)]. Qed.

Lemma same_alter h g m m' t a a' : same_but_stake h g m m' -> option_Forall2 (same_at h (g t)) a a' ->
  same_but_stake h g (partial_alter (fun _ => a) t m) (partial_alter (fun _ => a') t m').
Proof.
  intros E Ea u. destruct (decide (u = t)) as [-> | Hne].
  - by rewrite !lookup_partial_alter_eq.
  - by rewrite !lookup_partial_alter_ne.
Qed.

Lemma same_at_vout h g c c' : same_at h g c c' -> c_vout c = c_vout c'.
Proof. by intros [-> | [-> _]]. Qed.
Lemma same_at_pruned h g c c' : same_at h g c c' -> IsPruned c = IsPruned c'.
Proof. intros E. unfold IsPruned. by rewrite (same_at_vout h g c c' E). Qed.

Lemma put_output_back v n o : 0 <= n < 2 ^ 32 - 1 -> put_output v n o = put_back v (Z.to_nat n) o.
Proof.
  intros Hn. unfold put_output, put_back. rewrite u32_id by lia. unfold zlen.
  replace (Z.to_nat (n + 1)) with (S (Z.to_nat n)) by lia. destruct (Z.ltb_spec (Z.of_nat (length v)) (n + 1)); [done |].
  replace (S (Z.to_nat n) - length v)%nat with 0%nat by lia. by rewrite app_nil_r.
Qed.

(** The shape of a successful [Spend]. *)
Lemma Spend_inv c out c' u : Spend c out = Some (c', u) -> exists o,
  c_vout c !! Z.to_nat (op_n out) = Some o /\ CTxOut_IsNull o = false /\ u_txout u = o /\
  c' = with_vout c (drop_null (<[Z.to_nat (op_n out) := CTxOut_SetNull]> (c_vout c))) /\
  ((c_vout c' = [] /\ u_fCoinBase u = fCoinBase c /\ u_nHeight u = u32 (c_nHeight c) /\ u_nVersion u = c_nVersion c) \/
   (c_vout c' <> [] /\ u_nHeight u = 0)).
Proof.
  unfold Spend. destruct (c_vout c !! _) as [o |] eqn:E; [| done]. destruct (CTxOut_IsNull o) eqn:En; [done |]. cbn zeta.
  intros Es. exists o. destruct (zlen _ =? 0) eqn:Ez; injection Es as <- <-; cbn in *; split_and!; try done; [left | right]; bprop.
  - split; [| done]. destruct (drop_null _); [done |]. by rewrite zlen_cons in Ez; pose proof (zlen_nonneg l); lia.
  - split; [| done]. intros E0. rewrite E0 in Ez. done.
Qed.

Lemma null_unavailable c n : (forall o, c_vout c !! Z.to_nat n = Some o -> CTxOut_IsNull o = true) -> IsAvailable c n = false.
Proof.
  intros Hn. unfold IsAvailable. destruct (c_vout c !! Z.to_nat n) as [o |] eqn:E; [| done]. rewrite (Hn o eq_refl).
  by rewrite andb_false_r.
Qed.

(** Coins that may be spent in a block at height [h]: a coinstake is older. *)
Definition mature (h : Z) (m : utxo_map) (out : COutPoint) : Prop :=
  forall c, m !! op_hash out = Some c -> fCoinStake c = true -> c_nHeight c < h.

Lemma restore_same h g m t c0 c1 m2 d : m !! t = Some c0 -> clean (c_vout c0) -> IsPruned c0 = false ->
  same_but_stake h g m2 (partial_alter (fun _ => norm c1) t m) -> same_at h (g t) d c0 ->
  same_but_stake h g (partial_alter (fun _ => norm (Cleanup d)) t m2) m.
Proof.
  intros E0 Hcl Hp Hsame Hd. pose proof (same_at_vout _ _ _ _ Hd) as Hdv.
  rewrite Cleanup_clean by (by rewrite Hdv). rewrite norm_unpruned by (by rewrite (same_at_pruned _ _ _ _ Hd)).
  transitivity (partial_alter (fun _ => Some c0) t (partial_alter (fun _ => norm c1) t m)).
  - apply same_alter; [done | by constructor].
  - assert (partial_alter (fun _ => Some c0) t (partial_alter (fun _ => norm c1) t m) = m) as ->; [| reflexivity].
    apply map_eq. intros u. destruct (decide (u = t)) as [-> |]; [by rewrite lookup_partial_alter_eq | by rewrite !lookup_partial_alter_ne].
Qed.

(** What is left of the coins has nothing at the place that was spent. *)
Lemma spent_unavailable c out c' u : coins_wf c -> Spend c out = Some (c', u) -> forall d, c_vout d = c_vout c' ->
  IsAvailable d (op_n out) = false.
Proof.
  intros [_ Hnc] Es d Hd. destruct (Spend_inv _ _ _ _ Es) as (o & Ho & _ & _ & Hc1 & _).
  apply null_unavailable. rewrite Hd, Hc1. cbn [with_vout c_vout]. intros p Hpp.
  set (w := <[Z.to_nat (op_n out) := CTxOut_SetNull]> (c_vout c)) in *.
  assert (Hd2 : drop_null w `prefix_of` w) by (eexists; apply drop_null_split, Forall_insert; [done | by intros _]).
  apply (prefix_lookup_Some _ _ _ _ Hpp) in Hd2. unfold w in Hd2.
  rewrite list_lookup_insert_eq in Hd2 by (by eapply lookup_lt_Some). by injection Hd2 as <-.
Qed.

Lemma restore_spent h g m out u m' m2 c : utxo_wf m -> 0 <= op_n out < 2 ^ 32 - 1 -> mature h m out ->
  spend_out m out = Some (u, m') -> (m' !! op_hash out = None -> g (op_hash out)) -> same_but_stake h g m2 m' -> norm c = m2 !! op_hash out ->
  fst (restore_input out u c) = true /\
  same_but_stake h g (partial_alter (fun _ => norm (Cleanup (snd (restore_input out u c)))) (op_hash out) m2) m.
Proof.
  intros Hwf Hn Hmat Es Hg Hsame Hc. unfold spend_out in Es. destruct (m !! op_hash out) as [c0 |] eqn:E0; [| done]. cbn in Es.
  destruct (Spend c0 out) as [[c1 u1] |] eqn:Es0; [| done]. injection Es as -> <-.
  destruct (Hwf _ _ E0) as ((Hcl & Hnc) & Hp & Hh). destruct (Spend_inv _ _ _ _ Es0) as (o & Ho & Hon & Hu & Hc1 & Hcase).
  assert (Hback : put_output (c_vout c1) (op_n out) o = c_vout c0)
    by (rewrite put_output_back, Hc1 by done; cbn [c_vout with_vout]; by apply put_back_spent).
  pose proof (Spend_wf c0 out c1 u (conj Hcl Hnc) Es0) as Hwf1.
  pose proof (restore_same h g m (op_hash out) c0 c1 m2) as Hfin.
  assert (Hl := Hsame (op_hash out)). rewrite <- Hc, lookup_partial_alter_eq in Hl.
  unfold restore_input. destruct Hcase as [(Hv1 & Hcb & Hht & Hver) | (Hv1 & Hht)].
  - rewrite Hht, u32_id by lia. rewrite (proj2 (Z.eqb_neq _ _)) by lia. cbn [negb].
    assert (Hn1 : norm c1 = None) by (apply norm_None; by apply wf_pruned).
    rewrite lookup_partial_alter_eq in Hg. specialize (Hg Hn1). rewrite Hn1 in Hl. inversion Hl as [| Hnone]. symmetry in Hnone. apply norm_None in Hnone. rewrite Hnone. split.
    + cbn [fst andb]. by rewrite null_unavailable.
    + cbn [snd]. apply Hfin; try done. rewrite Hu. cbn [with_vout c_vout]. rewrite <- Hv1, Hback, Hcb, Hver, s32_id by lia.
      destruct (fCoinStake c0) eqn:Ef; [right; split_and!; [done | by apply Hmat | done] | left]. destruct c0; cbn in *; by subst.
  - rewrite Hht. cbn [Z.eqb negb].
    assert (Hp1 : IsPruned c1 = false) by (destruct (IsPruned c1) eqn:E; [apply wf_pruned in E; done | done]).
    rewrite (norm_unpruned _ Hp1) in Hl. destruct (norm c) as [d |] eqn:Hdd; [| by inversion Hl].
    assert (Hd : same_at h (g (op_hash out)) d c1) by (by inversion Hl). apply norm_Some in Hdd as [-> Hpc].
    pose proof (same_at_vout _ _ _ _ Hd) as Hdv. rewrite Hpc. cbn [negb andb fst snd]. split.
    + rewrite (spent_unavailable c0 out c1 u); done.
    + apply Hfin; try done. rewrite Hu, Hdv, Hback. rewrite Hc1 in Hd. destruct c0; cbn in *.
      destruct Hd as [-> | [-> Hlt]]; [by left | by right].
Qed.

(** ** Spending keeps the coins well formed *)

Lemma spend_out_lookup m out u m' t c' : spend_out m out = Some (u, m') -> m' !! t = Some c' ->
  exists c, m !! t = Some c /\ fCoinStake c' = fCoinStake c /\ fCoinBase c' = fCoinBase c /\ c_nHeight c' = c_nHeight c /\
    (coins_wf c -> coins_wf c') /\ (IsPruned c = false -> IsPruned c' = false).
Proof.
  unfold spend_out. intros Es Hc'. destruct (m !! op_hash out) as [c |] eqn:E0; [| done]. cbn in Es.
  destruct (Spend c out) as [[c1 u1] |] eqn:Es0; [| done]. injection Es as -> <-. destruct (decide (t = op_hash out)) as [-> | Hne].
  - rewrite lookup_partial_alter_eq in Hc'. apply norm_Some in Hc' as [<- Hp]. exists c.
    pose proof (fun Hw => Spend_wf c out c1 u Hw Es0). destruct (Spend_inv _ _ _ _ Es0) as (o & _ & _ & _ & -> & _). by split_and!.
  - rewrite lookup_partial_alter_ne in Hc' by done. exists c'. by split_and!.
Qed.

Lemma spend_out_wf m out u m' : utxo_wf m -> spend_out m out = Some (u, m') -> utxo_wf m'.
Proof.
  intros Hm Es t c' Hc'. destruct (spend_out_lookup _ _ _ _ _ _ Es Hc') as (c & Hc & _ & _ & Hh & Hw & Hp).
  destruct (Hm t c Hc) as (H1 & H2 & H3). split_and!; [auto | auto | | ]; rewrite Hh; apply H3.
Qed.

Lemma spend_out_mature h m out out' u m' : mature h m out -> spend_out m out' = Some (u, m') -> mature h m' out.
Proof.
  intros Hm Es c' Hc' Hs. destruct (spend_out_lookup _ _ _ _ _ _ Es Hc') as (c & Hc & E1 & _ & E2 & _).
  rewrite E2. apply (Hm c Hc). congruence.
Qed.

Lemma spend_out_none m out u m' t : spend_out m out = Some (u, m') -> m !! t = None -> m' !! t = None.
Proof.
  intros Es Ht. destruct (m' !! t) as [c' |] eqn:E; [| done].
  destruct (spend_out_lookup _ _ _ _ _ _ Es E) as (c & Hc & _). congruence.
Qed.

Lemma spend_outs_keeps l m us m' : spend_outs m l = Some (us, m') -> length us = length l /\
  (utxo_wf m -> utxo_wf m') /\ (forall t, m !! t = None -> m' !! t = None).
Proof.
  revert m us. induction l as [| i l IH]; intros m us E; cbn [spend_outs] in E; [by simplify_eq |].
  destruct (spend_out m (prevout i)) as [[u m1] |] eqn:E1; [| done]. destruct (spend_outs m1 l) as [[us1 m2] |] eqn:E2; [| done].
  simplify_eq. destruct (IH _ _ E2) as (H1 & H2 & H3). cbn. split_and!; [congruence | eauto using spend_out_wf |].
  intros t Ht. by eapply H3, spend_out_none.
Qed.

(** ** Restoring all the inputs of a transaction *)

Section Restore.
Context {V : Type} `{CCoinsViewLaws V}.
Implicit Types v : CCoinsViewCache V.

Lemma restore_inputs_app l k fc v : restore_inputs (l ++ k) fc v =
  match restore_inputs l fc v with (Ok fc', v') => restore_inputs k fc' v' | (Err e, v') => (Err e, v') end.
Proof.
  revert fc v. induction l as [| [i u] l IH]; intros fc v; cbn [app restore_inputs]; [done |]. unfold cm_bind, cm_read.
  destruct (ModifyCoins v _ _) as [a v1]. apply IH.
Qed.

Lemma restore_inputs_spent h g l v m m2 m' us b fc : utxo_wf m -> Forall (fun i => 0 <= op_n (prevout i) < 2 ^ 32 - 1) l ->
  Forall (fun i => mature h m (prevout i)) l -> spend_outs m l = Some (us, m') -> (forall t, m' !! t = None -> g t) -> holds v m2 b -> same_but_stake h g m2 m' ->
  exists v' m3, restore_inputs (reverse (zip l us)) fc v = (Ok fc, v') /\ holds v' m3 b /\ same_but_stake h g m3 m.
Proof.
  intros Hm Hn Hmat. revert m Hm us Hmat. induction Hn as [| i l Hi Hn IH]; intros m Hm us Hmat Es Hg Hv Hsame; cbn [spend_outs] in Es.
  { injection Es as <- <-. by exists v, m2. }
  destruct (spend_out m (prevout i)) as [[u m1] |] eqn:E1; [| done]. destruct (spend_outs m1 l) as [[us1 m1'] |] eqn:E2; [| done].
  injection Es as <- <-. apply Forall_cons in Hmat as [Hmi Hmat].
  destruct (IH m1 (spend_out_wf _ _ _ _ Hm E1) us1) as (v1 & m3 & Er & Hv1 & Hs1); [| done | done | done | done |].
  { eapply Forall_impl; [exact Hmat |]. intros j Hj. exact (spend_out_mature _ _ _ _ _ _ Hj E1). }
  cbn [zip]. rewrite reverse_cons, restore_inputs_app, Er. cbn [restore_inputs]. unfold cm_bind, cm_read.
  destruct (ModifyCoins v1 _ _) as [ok v2] eqn:Em. destruct (modify_holds _ _ _ _ _ _ _ Hv1 Em) as (c & Hc & -> & Hv2).
  destruct (restore_spent h g m (prevout i) u m1 m3 c Hm Hi Hmi E1 (fun Hx => Hg _ (proj2 (proj2 (spend_outs_keeps _ _ _ _ E2)) _ Hx)) Hs1 Hc) as [-> Hs2]. rewrite andb_true_r. eauto.
Qed.
End Restore.

(** ** Removing the outputs of a transaction *)

Lemma drop_null_map_clear v : (forall o, CTxOut_IsNull o = true -> CTxOut_IsNull (clear_unspendable o) = true) ->
  forallb CTxOut_IsNull v = true -> forallb CTxOut_IsNull (map clear_unspendable v) = true.
Proof.
  intros Hc. induction v as [| o v IH]; cbn [forallb map]; [done |]. intros [Ho Hv]%andb_true_iff. by rewrite (Hc o Ho), (IH Hv).
Qed.

Lemma clear_null o : CTxOut_IsNull o = true -> CTxOut_IsNull (clear_unspendable o) = true.
Proof. unfold clear_unspendable. by case_match. Qed.

Lemma clear_clear o : clear_unspendable (clear_unspendable o) = clear_unspendable o.
Proof. unfold clear_unspendable. destruct (IsUnspendable (scriptPubKey o)) eqn:E; [done |]. by rewrite E. Qed.

Lemma ClearUnspendable_FromTx tx h : ClearUnspendable (FromTx tx h) = FromTx tx h.
Proof.
  unfold FromTx, ClearUnspendable, Cleanup. cbn [with_vout c_vout fCoinBase fCoinStake c_nHeight c_nVersion]. unfold with_vout. cbn. f_equal.
  assert (Hm : map clear_unspendable (drop_null (map clear_unspendable (vout tx))) = drop_null (map clear_unspendable (vout tx))).
  { rewrite <- (map_id (drop_null _)) at 2. apply map_ext_in. intros o Ho. apply list_elem_of_In, drop_null_elem in Ho.
    apply list_elem_of_fmap in Ho as (p & -> & _). apply clear_clear. }
  rewrite Hm. apply drop_null_clean.
Qed.

Lemma ClearUnspendable_pruned c : IsPruned c = true -> IsPruned (ClearUnspendable c) = true.
Proof.
  unfold IsPruned, ClearUnspendable, Cleanup. cbn [c_vout with_vout]. intros Hp.
  rewrite (proj2 (drop_null_nil _)); [done |]. apply drop_null_map_clear; [apply clear_null | done].
Qed.

Lemma remove_added tx h c : norm c = norm (FromTx tx h) -> fst (remove_outputs tx h c) = true.
Proof.
  intros E. unfold remove_outputs. cbn [fst]. apply CCoins_eqb_equiv. unfold equiv, CCoins_equiv.
  destruct (IsPruned (FromTx tx h)) eqn:Ep.
  - rewrite (norm_pruned _ Ep) in *. apply norm_None in E. apply norm_None. apply ClearUnspendable_pruned in E. by case_match.
  - rewrite (norm_unpruned _ Ep) in *. apply norm_Some in E as [-> _]. rewrite ClearUnspendable_FromTx.
    case_match; by rewrite norm_unpruned.
Qed.

(** ** Checks only read *)

Section Reading.
Context {V : Type} `{CCoinsViewLaws V} {env : validation_env}.
Implicit Types v : CCoinsViewCache V.

Definition only_reads {A} (f : CM V A) : Prop := forall v r v', cache_inv v -> f v = (r, v') -> reads v v'.

Lemma ret_reads {A} (a : A) : only_reads (cm_ret a).
Proof. intros v r v' Hv E. injection E as <- <-. by apply reads_refl. Qed.
Lemma fail_reads {A} e : only_reads (A := A) (cm_fail e).
Proof. intros v r v' Hv E. injection E as <- <-. by apply reads_refl. Qed.
Lemma lift_reads {A} (x : vres A) : only_reads (cm_lift x).
Proof. intros v r v' Hv E. injection E as <- <-. by apply reads_refl. Qed.
Lemma bind_reads {A B} (f : CM V A) (g : A -> CM V B) : only_reads f -> (forall a, only_reads (g a)) -> only_reads (cm_bind f g).
Proof.
  intros Hf Hg v r v' Hv E. unfold cm_bind in E. destruct (f v) as [[a | e] v1] eqn:E1; pose proof (Hf _ _ _ Hv E1) as H1.
  - apply (reads_trans _ v1); [done |]. apply (Hg a v1 r); [apply H1 | done].
  - by simplify_eq.
Qed.
Lemma fold_reads {A S} (f : S -> A -> CM V S) s l : (forall s x, only_reads (f s x)) -> only_reads (cm_fold f s l).
Proof. intros Hf. revert s. induction l as [| x l IH]; intros s; cbn [cm_fold]; auto using ret_reads, bind_reads. Qed.
Lemma read_reads {A} (f : CCoinsViewCache V -> A * CCoinsViewCache V) :
  (forall v a v', cache_inv v -> f v = (a, v') -> reads v v') -> only_reads (cm_read f).
Proof. intros Hf v r v' Hv E. unfold cm_read in E. destruct (f v) as [a v1] eqn:E1. simplify_eq. eauto. Qed.
Lemma assert_reads {A} (f : CCoinsViewCache V -> option A * CCoinsViewCache V) :
  (forall v a v', cache_inv v -> f v = (a, v') -> reads v v') -> only_reads (cm_assert f).
Proof. intros Hf v r v' Hv E. unfold cm_assert in E. destruct (f v) as [[a |] v1] eqn:E1; simplify_eq; eauto. Qed.

Lemma access_reads t : only_reads (cm_assert (fun v => AccessCoins v t)).
Proof. apply assert_reads. intros v a v' Hv E. by apply (AccessCoins_reads v t a v'). Qed.
Lemma value_reads tx : only_reads (cm_assert (fun v => GetValueIn v tx)).
Proof. apply assert_reads. intros v a v' Hv E. by apply (GetValueIn_reads v tx a v'). Qed.
Lemma have_reads tx : only_reads (cm_read (fun v => HaveInputs v tx)).
Proof. apply read_reads. intros v a v' Hv E. by apply (HaveInputs_reads v tx a v'). Qed.
Lemma best_reads : only_reads (cm_read cache_GetBestBlock).
Proof. apply read_reads. intros v a v' Hv E. by apply (GetBestBlock_reads v a v'). Qed.
Lemma output_reads i : only_reads (cm_assert (fun v => GetOutputFor v i)).
Proof. apply assert_reads. intros v a v' Hv E. by apply (GetOutputFor_reads v i a v'). Qed.

Create HintDb reads.
Hint Resolve ret_reads fail_reads lift_reads access_reads value_reads have_reads best_reads output_reads : reads.
Hint Extern 1 (only_reads (cm_bind _ _)) => apply bind_reads : reads.
Hint Extern 1 (only_reads (cm_fold _ _ _)) => apply fold_reads : reads.
Hint Extern 2 (only_reads (if _ then _ else _)) => case_match : reads.
Hint Extern 2 (only_reads (match _ with _ => _ end)) => case_match : reads.

Lemma GetP2SHSigOpCount_reads tx : only_reads (GetP2SHSigOpCount tx).
Proof. unfold GetP2SHSigOpCount, add_p2sh. auto 10 with reads. Qed.

Lemma check_coin_reads h n i : only_reads (check_coin (V := V) h n i).
Proof. unfold check_coin. auto 10 with reads. Qed.

Lemma check_script_reads tx flags pv s i : only_reads (check_script (V := V) tx flags pv s i).
Proof. unfold check_script. destruct s. auto 12 with reads. Qed.

Lemma CheckInputs_reads tx fsc flags pv : only_reads (CheckInputs (V := V) tx fsc flags pv).
Proof.
  unfold CheckInputs. case_match; [| auto with reads]. apply bind_reads; [auto with reads |]. intros have. case_match; [auto with reads |].
  apply bind_reads; [auto with reads |]. intros hb. case_match; [| auto with reads].
  apply bind_reads; [apply fold_reads; intros; apply check_coin_reads |]. intros n. apply bind_reads; [auto with reads |]. intros _.
  case_match; [| auto with reads]. apply bind_reads; [apply fold_reads; intros; apply check_script_reads |]. intros []. auto with reads.
Qed.

(** ** What a successful check has seen *)

(** The value of the output at a place, and of the outputs that a list of inputs spends. *)
Definition out_value (m : utxo_map) (out : COutPoint) : Z :=
  match m !! op_hash out ≫= (fun c => c_vout c !! Z.to_nat (op_n out)) with Some o => nValue o | None => 0 end.
Definition exact_in (m : utxo_map) (l : list CTxIn) : Z := fold_right (fun i n => out_value m (prevout i) + n) 0 l.

(** The coins that input [i] spends, with the output, in the money range and mature. *)
Definition coin_ok (nSpendHeight : Z) (m : utxo_map) (i : CTxIn) (o : CTxOut) : Prop :=
  exists c, m !! op_hash (prevout i) = Some c /\ c_vout c !! Z.to_nat (op_n (prevout i)) = Some o /\
    0 <= nValue o <= nMaxMoneyOut consensus_params /\
    (fCoinBase c || fCoinStake c = true -> nCoinbaseMaturity consensus_params <= s32 (nSpendHeight - c_nHeight c)).

Lemma check_coin_inv h n i v m b n' v' : holds v m b -> available m (prevout i) = true ->
  check_coin (V := V) h n i v = (Ok n', v') ->
  exists o, coin_ok h m i o /\ output_of m (prevout i) = Some o /\ n' = s64 (n + nValue o) /\ 0 <= n' <= nMaxMoneyOut consensus_params /\ holds v' m b.
Proof.
  intros Hv Ha E. assert (Hr := check_coin_reads h n i _ _ _ (proj1 Hv) E). pose proof (reads_holds _ _ _ _ Hv Hr) as Hv'.
  unfold check_coin, cm_bind, cm_assert in E. destruct (AccessCoins v _) as [c v1] eqn:Ea.
  destruct Hv as (Hi & <- & <-). destruct (AccessCoins_reads _ _ _ _ Hi Ea) as [_ Hc]. unfold output_of. rewrite Ha. unfold available in Ha.
  destruct (cache_contents v !! op_hash (prevout i)) as [d |] eqn:Ed; [| done].
  destruct c as [c |]; [| done]. cbn in Hc. apply norm_Some in Hc as [<- Hp]. case_match eqn:Em; [done |].
  destruct (c_vout c !! _) as [o |] eqn:Eo; [| done]. case_match eqn:Er; [done |]. injection E as <- <-.
  apply orb_false_iff in Er as [Er1 Er2]. unfold MoneyRange in *. bprop. exists o. cbn. split_and!; try done; try lia.
  exists c. split_and!; try done; try lia. intros Hcs. destruct Em as [Em | Em]; [congruence |]. by bprop.
Qed.

Lemma check_coins_inv h l n v m b n' v' : holds v m b -> forallb (fun i => available m (prevout i)) l = true ->
  cm_fold (check_coin (V := V) h) n l v = (Ok n', v') ->
  sum_in m l n = Some n' /\ Forall (fun i => exists o, coin_ok h m i o) l /\
  (0 <= n <= nMaxMoneyOut consensus_params -> nMaxMoneyOut consensus_params < 2 ^ 62 -> 0 <= n' <= nMaxMoneyOut consensus_params /\ n' = n + exact_in m l) /\ holds v' m b.
Proof.
  revert n v. induction l as [| i l IH]; intros n v Hv Ha E; cbn [cm_fold sum_in forallb] in *.
  { injection E as <- <-. split_and!; [done | constructor | cbn; lia | done]. }
  apply andb_true_iff in Ha as [Hai Ha]. unfold cm_bind in E. destruct (check_coin _ _ _ v) as [[n1 | e] v1] eqn:E1; [| done].
  destruct (check_coin_inv _ _ _ _ _ _ _ _ Hv Hai E1) as (o & Ho & -> & -> & Hr & Hv1).
  destruct (IH _ _ Hv1 Ha E) as (Hs & Hf & Hn & Hv'). split_and!; [done | constructor; [by exists o | done] | | done].
  intros Hn0 Hmx. destruct Ho as (c & Hc & Hco & Hval & _). destruct (Hn ltac:(lia) Hmx) as [Hr' ->]. split; [done |].
  cbn [exact_in fold_right]. fold (exact_in m l). unfold out_value. rewrite Hc. cbn. rewrite Hco. rewrite s64_id by lia. lia.
Qed.
End Reading.
