(* ===== verification/Reorg.v ===== *)
(** Connecting a block and disconnecting it: what a connected block has gone through,
    and that disconnecting it restores the coins, the best block and (but for the
    bets) the money supply. *)

From Stdlib Require Import ZArith Lia String.
From stdpp Require Import base tactics list numbers strings gmap fin_maps.
From S2P Require Import Prelude CString Amount ChainParams Script Standard Serialize Block Interpreter CoreWrite.
From S2P Require Import BetCode BetPayout Transaction Compressor Coins CoinsView TxVerify Connect ConnectFacts.

(** ** Sums that may wrap

    The totals of a block are [int64_t] sums; they are compared modulo [2^64]. *)

Definition eq64 (a b : Z) : Prop := a `mod` 2 ^ 64 = b `mod` 2 ^ 64.
#[global] Instance eq64_equivalence : Equivalence eq64.
Proof. split; unfold eq64; [by intros ? | by intros ? | by intros ? ? ? -> ->]. Qed.
#[global] Instance add_eq64 : Proper (eq64 ==> eq64 ==> eq64) Z.add.
Proof. intros a b E c d F. unfold eq64 in *. rewrite Z.add_mod, E, F, <- Z.add_mod; lia. Qed.
#[global] Instance sub_eq64 : Proper (eq64 ==> eq64 ==> eq64) Z.sub.
Proof. intros a b E c d F. unfold eq64 in *. rewrite Zminus_mod, E, F, <- Zminus_mod. done. Qed.
#[global] Instance s64_eq64 : Proper (eq64 ==> eq) s64.
Proof. intros a b E. unfold s64. rewrite (Z.add_mod a), (Z.add_mod b) by lia. unfold eq64 in E. by rewrite E. Qed.

Lemma eq64_s64 a : eq64 (s64 a) a.
Proof.
  unfold eq64, s64. rewrite Zminus_mod, Z.mod_mod, <- Zminus_mod by lia. f_equal. lia.
Qed.

(** ** Inverting a computation that succeeded *)

Lemma cm_bind_ok {V A B} (f : CM V A) (g : A -> CM V B) v b v' : cm_bind f g v = (Ok b, v') ->
  exists a v1, f v = (Ok a, v1) /\ g a v1 = (Ok b, v').
Proof. unfold cm_bind. destruct (f v) as [[a | e] v1]; [eauto | done]. Qed.

Lemma cm_lift_ok {V A} (r : vres A) (v : CCoinsViewCache V) a v' : cm_lift r v = (Ok a, v') -> r = Ok a /\ v' = v.
Proof. unfold cm_lift. by intros [= -> ->]. Qed.

Lemma cm_bind_run {V A B} (f : CM V A) (g : A -> CM V B) v a v1 : f v = (Ok a, v1) -> cm_bind f g v = g a v1.
Proof. unfold cm_bind. by intros ->. Qed.

(** Injectivity without unfolding what the pair holds. *)
Lemma some_pair_inv {A B} (a c : A) (b d : B) : Some (a, b) = Some (c, d) -> a = c /\ b = d.
Proof. by intros [= -> ->]. Qed.

Section Inversion.
Context {V : Type} `{CCoinsViewLaws V} {env : validation_env}.
Implicit Types v : CCoinsViewCache V.

Lemma have_holds v m b tx r v' : holds v m b -> cm_read (fun v => HaveInputs v tx) v = (r, v') ->
  r = Ok (inputs_available m tx) /\ holds v' m b.
Proof.
  intros Hv E. unfold cm_read in E. destruct (HaveInputs v tx) as [a v1] eqn:E1. injection E as <- <-.
  destruct (HaveInputs_reads _ _ _ _ (proj1 Hv) E1) as [Hr ->]. assert (Hv1 := reads_holds _ _ _ _ Hv Hr). by destruct Hv as (_ & <- & _).
Qed.

Lemma value_holds v m b tx r v' : holds v m b -> cm_assert (fun v => GetValueIn v tx) v = (r, v') ->
  r = match value_in m tx with Some n => Ok n | None => Err AssertFail end /\ holds v' m b.
Proof.
  intros Hv E. unfold cm_assert in E. destruct (GetValueIn v tx) as [a v1] eqn:E1.
  destruct (GetValueIn_reads _ _ _ _ (proj1 Hv) E1) as [Hr Ha]. assert (Hv1 := reads_holds _ _ _ _ Hv Hr). destruct Hv as (_ & <- & _).
  rewrite <- Ha. by destruct a; simplify_eq.
Qed.

Lemma best_holds v m b r v' : holds v m b -> cm_read cache_GetBestBlock v = (r, v') -> r = Ok b /\ holds v' m b.
Proof.
  intros Hv E. unfold cm_read in E. destruct (cache_GetBestBlock v) as [a v1] eqn:E1. injection E as <- <-.
  destruct (GetBestBlock_reads _ _ _ (proj1 Hv) E1) as [Hr ->]. assert (Hv1 := reads_holds _ _ _ _ Hv Hr). by destruct Hv as (_ & _ & <-).
Qed.

Lemma ordinary_inputs m tx : IsCoinBase tx = false -> HasZerocoinSpendInputs tx = false ->
  inputs_available m tx = forallb (fun i => available m (prevout i)) (vin tx) /\ value_in m tx = sum_in m (vin tx) 0.
Proof. intros Hc Hz. unfold inputs_available, value_in. by rewrite Hc, Hz. Qed.

(** What a transaction that passed [CheckInputs] satisfies; [n] is the value of its
    inputs. *)
Record inputs_checked (m : utxo_map) (b : bytes) (tx : CTransaction) (n : Z) : Prop := {
  ic_available : inputs_available m tx = true;
  ic_value : value_in m tx = Some n;
  ic_range : 0 <= n <= nMaxMoneyOut consensus_params;
  ic_exact : n = exact_in m (vin tx);
  ic_coins : exists hb, height_of b = Some hb /\ Forall (fun i => exists o, coin_ok (s32 (hb + 1)) m i o) (vin tx);
  ic_fee : IsCoinStake tx = false -> exists out, value_out tx = Ok out /\ out <= n
}.

Lemma check_fee_ok tx n : check_fee tx n = Ok tt -> IsCoinStake tx = false -> exists out, value_out tx = Ok out /\ out <= n.
Proof.
  unfold check_fee. intros E Hs. rewrite Hs in E. apply res_bind_Ok in E as (out & Ho & E). exists out. split; [done |].
  bcase_in E; [done | lia].
Qed.

Lemma CheckInputs_inv v m b tx fsc flags pv k v' : 0 <= nMaxMoneyOut consensus_params < 2 ^ 62 ->
  IsCoinBase tx = false -> HasZerocoinSpendInputs tx = false ->
  holds v m b -> CheckInputs tx fsc flags pv v = (Ok k, v') -> (exists n, inputs_checked m b tx n) /\ holds v' m b.
Proof.
  intros Hmax Hcb Hz Hv E. assert (Hv' := reads_holds _ _ _ _ Hv (CheckInputs_reads _ _ _ _ _ _ _ (proj1 Hv) E)). split; [| done].
  destruct (ordinary_inputs m tx Hcb Hz) as [Ei Ev]. unfold CheckInputs in E. rewrite Hcb, Hz in E. cbn [negb andb] in E.
  apply cm_bind_ok in E as (have & v1 & E1 & E). destruct (have_holds _ _ _ _ _ _ Hv E1) as [[= ->] Hv1].
  destruct (inputs_available m tx) eqn:Ea; cbn [negb] in E; [| done].
  apply cm_bind_ok in E as (h & v2 & E2 & E). destruct (best_holds _ _ _ _ _ Hv1 E2) as [[= ->] Hv2].
  destruct (height_of b) as [hb |] eqn:Eh; [| done]. apply cm_bind_ok in E as (n & v3 & E3 & E).
  destruct (check_coins_inv _ _ _ _ _ _ _ _ Hv2 (eq_sym Ei) E3) as (Hs & Hf & Hn & Hv3).
  apply cm_bind_ok in E as ([] & v4 & E4 & _). apply cm_lift_ok in E4 as [Hfee _].
  destruct (Hn ltac:(lia) ltac:(lia)) as [Hr Hex]. exists n. split; [done | congruence | done | lia | by exists hb |]. by apply check_fee_ok.
Qed.

(** One ordinary transaction of a block. *)
Lemma connect_inputs_inv v m b h flags fsc thr s tx s' v' : 0 <= nMaxMoneyOut consensus_params < 2 ^ 62 ->
  IsCoinBase tx = false -> HasZerocoinSpendInputs tx = false -> holds v m b ->
  connect_inputs h flags fsc thr s tx v = (Ok s', v') ->
  holds v' m b /\ exists n, inputs_checked m b tx n /\ nValueIn s' = s64 (nValueIn s + n) /\ nValueOut s' = nValueOut s /\
    nValueBet s' = nValueBet s /\ vtxundo s' = vtxundo s /\
    nFees s' = (if IsCoinStake tx then nFees s else match value_out tx with Ok out => s64 (nFees s + (n - out)) | Err _ => 0 end).
Proof.
  intros Hmax Hcb Hz Hv E. unfold connect_inputs in E.
  apply cm_bind_ok in E as (have & v1 & E1 & E). destruct (have_holds _ _ _ _ _ _ Hv E1) as [_ Hv1].
  case_match; [done |]. case_match; [done |].
  apply cm_bind_ok in E as (p2sh & v2 & E2 & E). assert (Hv2 := reads_holds _ _ _ _ Hv1 (GetP2SHSigOpCount_reads _ _ _ _ (proj1 Hv1) E2)).
  case_match; [done |]. apply cm_bind_ok in E as (fees & v3 & E3 & E).
  assert (holds v3 m b /\ forall n, value_in m tx = Some n -> fees = (if IsCoinStake tx then nFees s
    else match value_out tx with Ok out => s64 (nFees s + (n - out)) | Err _ => 0 end)) as [Hv3 Hfees].
  { destruct (IsCoinStake tx); [by injection E3 as <- <- |]. apply cm_bind_ok in E3 as (n & v4 & E4 & E3).
    destruct (value_holds _ _ _ _ _ _ Hv2 E4) as [Hn Hv4]. apply cm_bind_ok in E3 as (out & v5 & E5 & E3).
    apply cm_lift_ok in E5 as [-> ->]. injection E3 as <- <-. split; [done |]. intros n' Hn'. rewrite Hn' in Hn. by simplify_eq. }
  apply cm_bind_ok in E as (n & v4 & E4 & E). destruct (value_holds _ _ _ _ _ _ Hv3 E4) as [Hn Hv4].
  apply cm_bind_ok in E as (k & v5 & E5 & E). destruct (CheckInputs_inv _ _ _ _ _ _ _ _ _ Hmax Hcb Hz Hv4 E5) as [(n' & Hic) Hv5].
  rewrite (ic_value _ _ _ _ Hic) in Hn. injection Hn as ->. injection E as <- <-. split; [done |]. exists n'. cbn.
  split_and!; try done. apply Hfees. apply Hic.
Qed.
End Inversion.

(** ** One transaction connected *)

Section Transactions.
Context {V : Type} `{CCoinsViewLaws V} {env : validation_env}.
Implicit Types v : CCoinsViewCache V.
Hypothesis max_money : 0 <= nMaxMoneyOut consensus_params < 2 ^ 62.

Definition burned (l : list CTxOut) : Z := fold_right (fun o n => (if burns o then nValue o else 0) + n) 0 l.

Lemma bet_value_burned l n : eq64 (bet_value l n) (n + burned l).
Proof.
  revert n. induction l as [| o l IH]; intros n; cbn [bet_value fold_left burned fold_right].
  - by rewrite Z.add_0_r.
  - unfold bet_value in IH. rewrite IH. destruct (burns o); fold (burned l).
    + rewrite eq64_s64. by rewrite Z.add_assoc.
    + by rewrite Z.add_0_l.
Qed.

(** The transaction [tx] of a block at height [h] took the coins from [m] to [m'] with
    the undo data [us]; [n] and [out] are the values of its inputs and outputs. *)
Record tx_connected (m : utxo_map) (b : bytes) (h : Z) (tx : CTransaction) (us : list CTxInUndo) (m' : utxo_map) (n out : Z) : Prop := {
  tc_new : m !! CTransaction_GetHash tx = None;
  tc_out : value_out tx = Ok out;
  tc_in : if IsCoinBase tx then n = 0 else inputs_checked m b tx n;
  tc_coins : update_coins m tx h = Some (us, m')
}.

Definition tx_fee (tx : CTransaction) (n out : Z) : Z := if IsCoinBase tx || IsCoinStake tx then 0 else n - out.

Lemma no_zerocoins tx : ContainsZerocoins tx = false -> HasZerocoinSpendInputs tx = false /\ HasZerocoinMintOutputs tx = false.
Proof. unfold ContainsZerocoins. intros E. by bprop. Qed.

Lemma connect_tx_inv v m b block h flags fsc thr first s tx s' v' : ContainsZerocoins tx = false -> holds v m b ->
  connect_tx block h flags fsc thr first s tx v = (Ok s', v') ->
  exists us m' n out, tx_connected m b h tx us m' n out /\ holds v' m' b /\
    eq64 (nValueIn s') (nValueIn s + n) /\ eq64 (nValueOut s') (nValueOut s + out) /\
    eq64 (nFees s') (nFees s + tx_fee tx n out) /\ eq64 (nValueBet s') (nValueBet s + burned (vout tx)) /\
    vtxundo s' = (if first then vtxundo s else vtxundo s ++ [us]).
Proof.
  intros Hzc Hv E. destruct (no_zerocoins tx Hzc) as [Hz _]. unfold connect_tx in E.
  apply cm_bind_ok in E as (c & v1 & E1 & E). unfold cm_read in E1. destruct (AccessCoins v _) as [c0 v0] eqn:Ea. injection E1 as -> ->.
  destruct (AccessCoins_reads _ _ _ _ (proj1 Hv) Ea) as [Hr Hc]. assert (Hv1 := reads_holds _ _ _ _ Hv Hr).
  destruct (match c with Some _ => _ | None => _ end) eqn:Eb; [done |].
  assert (Hnew : m !! CTransaction_GetHash tx = None).
  { destruct Hv as (_ & <- & _). rewrite <- Hc. destruct c as [c |]; [| done]. cbn. apply norm_None. by bprop. }
  case_match; [done |]. case_match; [done |]. apply cm_bind_ok in E as ([] & v2 & E2 & E). apply cm_lift_ok in E2 as [_ ->].
  rewrite Hz in E. apply cm_bind_ok in E as (s1 & v2 & E2 & E).
  set (s0 := {| nFees := nFees s; nSigOps := _ |}) in E2.
  assert (exists n, (if IsCoinBase tx then n = 0 else inputs_checked m b tx n) /\ holds v2 m b /\
    eq64 (nValueIn s1) (nValueIn s + n) /\ nValueOut s1 = nValueOut s /\ nValueBet s1 = nValueBet s /\ vtxundo s1 = vtxundo s /\
    forall out, value_out tx = Ok out -> eq64 (nFees s1) (nFees s + tx_fee tx n out)) as (n & Hn & Hv2 & Hin & Hout & Hbet & Hundo & Hfee).
  { unfold tx_fee. destruct (IsCoinBase tx) eqn:Hcb; cbn [negb] in E2.
    - injection E2 as <- <-. exists 0. cbn. rewrite !Z.add_0_r. split_and!; try done.
    - destruct (connect_inputs_inv _ _ _ _ _ _ _ _ _ _ _ max_money Hcb Hz Hv1 E2) as (Hv2 & n & Hic & Hin & Hout & Hbet & Hundo & Hfee).
      exists n. split_and!; try done; [rewrite Hin; apply eq64_s64 |]. intros out Ho. rewrite Hfee, Ho. cbn.
      destruct (IsCoinStake tx); [by rewrite Z.add_0_r | apply eq64_s64]. }
  apply cm_bind_ok in E as (out & v3 & E3 & E). apply cm_lift_ok in E3 as [Ho ->].
  apply cm_bind_ok in E as (us & v4 & E4 & E). destruct (UpdateCoins_inv _ _ _ _ _ _ _ Hv2 E4) as (m' & Hup & Hv4). injection E as <- <-.
  exists us, m', n, out. cbn. split_and!; try done; try by rewrite Hundo.
  - rewrite eq64_s64. by rewrite Hout.
  - by apply Hfee.
  - rewrite bet_value_burned. by rewrite Hbet.
Qed.

(** ** The same transaction disconnected *)

Lemma same_available h g m m' out : same_but_stake h g m m' -> available m out = available m' out /\ output_of m out = output_of m' out.
Proof.
  intros E. assert (Ha : available m out = available m' out).
  { unfold available. destruct (E (op_hash out)) as [c c' Hc |]; [| done]. unfold IsAvailable. by rewrite (same_at_vout _ _ _ _ Hc). }
  split; [done |]. unfold output_of. rewrite Ha. destruct (available m' out); [| done].
  destruct (E (op_hash out)) as [c c' Hc |]; [| done]. cbn. by rewrite (same_at_vout _ _ _ _ Hc).
Qed.

Lemma same_inputs h g m m' tx : same_but_stake h g m m' -> inputs_available m tx = inputs_available m' tx /\ value_in m tx = value_in m' tx.
Proof.
  intros E. unfold inputs_available, value_in. split.
  - case_match; [| done]. induction (vin tx) as [| i l IH]; cbn [forallb]; [done |].
    by rewrite IH, (proj1 (same_available _ _ _ _ (prevout i) E)).
  - case_match; [done |]. case_match; [done |]. generalize 0. induction (vin tx) as [| i l IH]; intros n; cbn [sum_in]; [done |].
    rewrite (proj2 (same_available _ _ _ _ (prevout i) E)). case_match; auto.
Qed.

Lemma remove_outputs_run v m2 m' m1 b h g tx : holds v m2 b -> same_but_stake h g m2 m' -> m1 !! CTransaction_GetHash tx = None ->
  m' = partial_alter (fun _ => norm (FromTx tx h)) (CTransaction_GetHash tx) m1 ->
  exists v' m3, cm_read (fun v => ModifyCoins v (CTransaction_GetHash tx) (remove_outputs tx h)) v = (Ok true, v') /\
    holds v' m3 b /\ same_but_stake h g m3 m1.
Proof.
  intros Hv Hs Hn ->. unfold cm_read. destruct (ModifyCoins v _ _) as [ok v1] eqn:E.
  destruct (modify_holds _ _ _ _ _ _ _ Hv E) as (c & Hc & -> & Hv1). cbn [remove_outputs snd] in Hv1.
  exists v1. eexists. split_and!; [| exact Hv1 |].
  - f_equal. f_equal. apply remove_added. assert (Hl := Hs (CTransaction_GetHash tx)). rewrite <- Hc, lookup_partial_alter_eq in Hl.
    inversion Hl as [c1 c2 Hcc E1 E2 |]; [| done]. destruct Hcc as [-> | (-> & Hlt & _)]; [done |].
    symmetry in E2. apply norm_Some in E2 as [<- _]. cbn in Hlt. lia.
  - intros t. destruct (decide (t = CTransaction_GetHash tx)) as [-> | Hne].
    + rewrite lookup_partial_alter_eq, Hn. constructor.
    + rewrite lookup_partial_alter_ne by done. specialize (Hs t). by rewrite lookup_partial_alter_ne in Hs by done.
Qed.

Lemma mature_coin hb h m i o : 0 < nCoinbaseMaturity consensus_params -> 0 < h < 2 ^ 31 -> hb = h - 1 -> utxo_wf m ->
  coin_ok (s32 (hb + 1)) m i o -> mature h m (prevout i).
Proof.
  intros Hmat Hh -> Hwf (c & Hc & _ & _ & Hm) c' Hc' Hs. assert (c' = c) as -> by congruence.
  destruct (Hwf _ _ Hc) as (_ & _ & Hch). rewrite Hs, orb_true_r in Hm. specialize (Hm eq_refl).
  replace (h - 1 + 1) with h in Hm by lia. rewrite !s32_id in Hm by (rewrite ?s32_id; lia). lia.
Qed.

Hypothesis maturity : 0 < nCoinbaseMaturity consensus_params.

Lemma disconnect_tx_run v m b h g tx us m' n out m2 s u : 0 < h < 2 ^ 31 -> height_of b = Some (h - 1) -> utxo_wf m ->
  ContainsZerocoins tx = false -> (IsCoinBase tx = false -> Forall (fun i => 0 <= op_n (prevout i) < 2 ^ 32 - 1) (vin tx)) ->
  tx_connected m b h tx us m' n out -> (IsCoinBase tx = false -> u = Some us) ->
  (forall t, m' !! t = None -> g t) -> g (CTransaction_GetHash tx) ->
  forall b', holds v m2 b' -> same_but_stake h g m2 m' ->
  exists v' m3 s', disconnect_tx h s (tx, u) v = (Ok s', v') /\ holds v' m3 b' /\ same_but_stake h g m3 m /\
    d_clean s' = d_clean s /\ eq64 (d_valueOut s') (d_valueOut s + out) /\ eq64 (d_valueIn s') (d_valueIn s + n).
Proof.
  intros Hh Hb Hwf Hzc Hn Htc Hu Hg Hgt b' Hv Hs. destruct (no_zerocoins tx Hzc) as [Hz _]. destruct Htc as [Hnew Hout Hin Hup].
  unfold update_coins in Hup. rewrite Hz in Hup. cbn [negb] in Hup. rewrite andb_true_r in Hup. unfold disconnect_tx. rewrite Hzc, Hout, Hz.
  cbn [negb]. rewrite andb_true_r. cbn [cm_lift]. erewrite cm_bind_run by reflexivity. erewrite cm_bind_run by reflexivity.
  destruct (IsCoinBase tx) eqn:Hcb; cbn [negb andb] in *.
  - apply some_pair_inv in Hup as [<- <-]. destruct (remove_outputs_run _ _ _ _ _ h g tx Hv Hs Hnew eq_refl) as (v1 & m3 & E1 & Hv1 & Hs1).
    erewrite cm_bind_run by exact E1. erewrite cm_bind_run by reflexivity. erewrite cm_bind_run by reflexivity.
    eexists v1, m3, _. split_and!; [reflexivity | done | done | cbn; apply andb_true_r | apply eq64_s64 |]. cbn. rewrite eq64_s64, Hin. by rewrite !Z.add_0_r.
  - rewrite (Hu eq_refl). destruct (spend_outs m (vin tx)) as [[us1 m1] |] eqn:Es; [| done]. apply some_pair_inv in Hup as [<- <-].
    destruct (spend_outs_keeps _ _ _ _ Es) as (Hlen & _ & Hnone).
    destruct (remove_outputs_run _ _ _ _ _ h g tx Hv Hs (Hnone _ Hnew) eq_refl) as (v1 & m3 & E1 & Hv1 & Hs1).
    erewrite cm_bind_run by exact E1. rewrite (proj2 (Z.eqb_eq _ _)) by (unfold zlen; by rewrite Hlen). cbn [negb].
    destruct (ic_coins _ _ _ _ Hin) as (hb & Hhb & Hcoins). assert (hb = h - 1) as Ehb by congruence.
    destruct (restore_inputs_spent h g (vin tx) v1 m m3 m1 us1 b' (d_clean s && true) Hwf (Hn eq_refl)) as (v2 & m4 & E2 & Hv2 & Hs2); [| done | | done | done |].
    { eapply Forall_impl; [exact Hcoins |]. intros i [o Ho]. by eapply (mature_coin hb h). }
    { intros t Ht. destruct (decide (t = CTransaction_GetHash tx)) as [-> | Hne]; [done |]. apply Hg. by rewrite lookup_partial_alter_ne. }
    erewrite cm_bind_run by exact E2. destruct (same_inputs h g m4 m tx Hs2) as [Ha Hval].
    destruct (cm_read (fun v => HaveInputs v tx) v2) as [r v3] eqn:E3. destruct (have_holds _ _ _ _ _ _ Hv2 E3) as [-> Hv3].
    rewrite Ha, (ic_available _ _ _ _ Hin) in E3.
    destruct (cm_assert (fun v => GetValueIn v tx) v3) as [r v4] eqn:E4. destruct (value_holds _ _ _ _ _ _ Hv3 E4) as [-> Hv4].
    rewrite Hval, (ic_value _ _ _ _ Hin) in E4.
    erewrite cm_bind_run; [| erewrite cm_bind_run by exact E3; exact E4].
    eexists v4, m4, _. split_and!; [reflexivity | done | done | cbn; apply andb_true_r | apply eq64_s64 |]. cbn. rewrite eq64_s64. by rewrite Z.add_0_r.
Qed.
End Transactions.

(** ** The transactions of a block *)

Section Blocks.
Context {V : Type} `{CCoinsViewLaws V} {env : validation_env}.
Implicit Types v : CCoinsViewCache V.

(** A list of transactions connected one after the other: the undo data of each, and
    the sums of their inputs, outputs and fees. *)
Inductive txs_connected (b : bytes) (h : Z) :
    utxo_map -> list CTransaction -> list (list CTxInUndo) -> utxo_map -> Z -> Z -> Z -> Prop :=
| txs_nil m : txs_connected b h m [] [] m 0 0 0
| txs_cons m tx us m1 n out l uss m' ins outs fees :
    tx_connected m b h tx us m1 n out -> txs_connected b h m1 l uss m' ins outs fees ->
    txs_connected b h m (tx :: l) (us :: uss) m' (n + ins) (out + outs) (tx_fee tx n out + fees).

Definition burned_all (l : list CTransaction) : Z := fold_right (fun tx n => burned (vout tx) + n) 0 l.

(** Ordinary transactions of this chain. *)
Definition plain_tx (tx : CTransaction) : Prop :=
  ContainsZerocoins tx = false /\
  (IsCoinBase tx = false -> Forall (fun i => 0 <= op_n (prevout i) < 2 ^ 32 - 1) (vin tx)).

Lemma add_values_nonneg l a k : res_fold add_value a l = Ok k -> Forall (fun o => 0 <= nValue o) l.
Proof.
  revert a. induction l as [| o l IH]; intros a E; [constructor |]. cbn [res_fold] in E. apply res_bind_Ok in E as (a1 & E1 & E).
  unfold add_value in E1. destruct (Z.ltb_spec (nValue o) 0); [done |]. constructor; [lia | by eapply IH].
Qed.

Lemma value_out_nonneg tx n : value_out tx = Ok n -> Forall (fun o => 0 <= nValue o) (vout tx).
Proof. unfold value_out, GetValueOut. destruct (res_fold _ _ _) as [k | e] eqn:E; [| done]. intros _. by eapply add_values_nonneg. Qed.

Lemma nonneg_canonical l : Forall (fun o => 0 <= nValue o) l -> Forall null_canonical l.
Proof.
  intros Hl. eapply Forall_impl; [exact Hl |]. intros o Ho Hn. unfold CTxOut_IsNull in Hn. bprop. cbn beta in Ho. lia.
Qed.

Lemma tx_connected_wf m b h tx us m' n out : 0 < h < 2 ^ 31 -> utxo_wf m -> tx_connected m b h tx us m' n out -> utxo_wf m'.
Proof.
  intros Hh Hwf [_ Hout _ Hup]. unfold update_coins in Hup. case_match eqn:E; [| done]. destruct p as [us1 m1].
  apply some_pair_inv in Hup as [<- <-].
  assert (Hwf1 : utxo_wf m1) by (case_match; [by apply (spend_outs_keeps _ _ _ _ E) | by simplify_eq]).
  intros t c Hc. destruct (decide (t = CTransaction_GetHash tx)) as [-> | Hne].
  - rewrite lookup_partial_alter_eq in Hc. apply norm_Some in Hc as [<- Hp]. split_and!; [| done | cbn; lia | cbn; lia].
    apply FromTx_wf. by eapply nonneg_canonical, value_out_nonneg.
  - rewrite lookup_partial_alter_ne in Hc by done. by apply (Hwf1 t).
Qed.

Hypothesis max_money : 0 <= nMaxMoneyOut consensus_params < 2 ^ 62.

Lemma connect_fold_inv l v m b block h flags fsc thr s s' v' : Forall plain_tx l -> holds v m b ->
  cm_fold (connect_tx block h flags fsc thr false) s l v = (Ok s', v') ->
  exists uss m' ins outs fees, txs_connected b h m l uss m' ins outs fees /\ holds v' m' b /\
    eq64 (nValueIn s') (nValueIn s + ins) /\ eq64 (nValueOut s') (nValueOut s + outs) /\ eq64 (nFees s') (nFees s + fees) /\
    eq64 (nValueBet s') (nValueBet s + burned_all l) /\ vtxundo s' = vtxundo s ++ uss.
Proof.
  intros Hl. revert v m s. induction Hl as [| tx l [Hz _] Hl IH]; intros v m s Hv E; cbn [cm_fold] in E.
  { injection E as <- <-. exists [], m, 0, 0, 0. cbn [burned_all fold_right]. rewrite !Z.add_0_r, app_nil_r.
    split_and!; try done. constructor. }
  apply cm_bind_ok in E as (s1 & v1 & E1 & E).
  destruct (connect_tx_inv max_money _ _ _ _ _ _ _ _ _ _ _ _ _ Hz Hv E1) as (us & m1 & n & out & Htc & Hv1 & Hi & Ho & Hf & Hb & Hu).
  destruct (IH _ _ _ Hv1 E) as (uss & m' & ins & outs & fees & Hc & Hv' & Hi' & Ho' & Hf' & Hb' & Hu').
  exists (us :: uss), m', (n + ins), (out + outs), (tx_fee tx n out + fees).
  cbn [burned_all fold_right]. fold (burned_all l). rewrite !Z.add_assoc.
  split_and!; [by econstructor | done | by rewrite Hi', Hi | by rewrite Ho', Ho | by rewrite Hf', Hf | by rewrite Hb', Hb |].
  rewrite Hu', Hu. by rewrite <- app_assoc.
Qed.

Lemma connect_txs_inv v m b block h flags fsc thr s cb l v' : vtx block = cb :: l -> Forall plain_tx (cb :: l) -> holds v m b ->
  connect_txs block h flags fsc thr v = (Ok s, v') ->
  exists us uss m' ins outs fees, txs_connected b h m (cb :: l) (us :: uss) m' ins outs fees /\ holds v' m' b /\
    eq64 (nValueIn s) ins /\ eq64 (nValueOut s) outs /\ eq64 (nFees s) fees /\ eq64 (nValueBet s) (burned_all (cb :: l)) /\
    vtxundo s = uss.
Proof.
  intros Hvtx Hl Hv E. unfold connect_txs in E. rewrite Hvtx in E. apply Forall_cons in Hl as [[Hz _] Hl].
  apply cm_bind_ok in E as (s1 & v1 & E1 & E).
  destruct (connect_tx_inv max_money _ _ _ _ _ _ _ _ _ _ _ _ _ Hz Hv E1) as (us & m1 & n & out & Htc & Hv1 & Hi & Ho & Hf & Hb & Hu).
  destruct (connect_fold_inv _ _ _ _ _ _ _ _ _ _ _ _ Hl Hv1 E) as (uss & m' & ins & outs & fees & Hc & Hv' & Hi' & Ho' & Hf' & Hb' & Hu').
  exists us, uss, m', (n + ins), (out + outs), (tx_fee cb n out + fees). cbn [connect_start nFees nValueIn nValueOut nValueBet vtxundo] in *.
  rewrite Z.add_0_l in Hi, Ho, Hf, Hb. cbn [burned_all fold_right]. fold (burned_all l).
  split_and!; [by econstructor | done | by rewrite Hi', Hi | by rewrite Ho', Ho | by rewrite Hf', Hf | by rewrite Hb', Hb |].
  by rewrite Hu', Hu.
Qed.

(** ** Disconnecting them *)

Lemma cm_fold_app {A S} (f : S -> A -> CM V S) l k s v : cm_fold f s (l ++ k) v =
  match cm_fold f s l v with (Ok s', v') => cm_fold f s' k v' | (Err e, v') => (Err e, v') end.
Proof.
  revert s v. induction l as [| x l IH]; intros s v; cbn [app cm_fold]; [done |]. unfold cm_bind.
  destruct (f s x v) as [[s1 | e] v1]; [apply IH | done].
Qed.

Hypothesis maturity : 0 < nCoinbaseMaturity consensus_params.

Lemma txs_connected_none b h m l uss m' ins outs fees t : txs_connected b h m l uss m' ins outs fees ->
  m !! t = None -> m' !! t = None \/ t ∈ map CTransaction_GetHash l.
Proof.
  induction 1 as [m | m tx us m1 n out l uss m' ins outs fees Htc Hc IH]; intros Ht; [by left |].
  destruct (decide (t = CTransaction_GetHash tx)) as [-> | Hne]; [right; apply list_elem_of_here |].
  destruct IH as [? | ?]; [| by left | right; by apply list_elem_of_further].
  pose proof (tc_coins _ _ _ _ _ _ _ _ Htc) as Hup. unfold update_coins in Hup. case_match eqn:E; [| done]. destruct p as [us1 m2].
  apply some_pair_inv in Hup as [_ <-]. rewrite lookup_partial_alter_ne by done.
  case_match; [by eapply spend_outs_keeps | by apply some_pair_inv in E as [_ <-]].
Qed.

Lemma ids_tail (m' : utxo_map) tx l t : m' !! t = None \/ t ∈ map CTransaction_GetHash l ->
  m' !! t = None \/ t ∈ map CTransaction_GetHash (tx :: l).
Proof. intros [? | ?]; [by left | right; by apply list_elem_of_further]. Qed.

Lemma disconnect_fold_run b h g m l uss m' ins outs fees : 0 < h < 2 ^ 31 -> height_of b = Some (h - 1) ->
  txs_connected b h m l uss m' ins outs fees -> utxo_wf m -> Forall plain_tx l ->
  (forall t, m' !! t = None \/ t ∈ map CTransaction_GetHash l -> g t) ->
  forall v m2 b' s, holds v m2 b' -> same_but_stake h g m2 m' ->
  exists v' m3 s', cm_fold (disconnect_tx h) s (reverse (zip l (map Some uss))) v = (Ok s', v') /\ holds v' m3 b' /\
    same_but_stake h g m3 m /\ d_clean s' = d_clean s /\ eq64 (d_valueOut s') (d_valueOut s + outs) /\ eq64 (d_valueIn s') (d_valueIn s + ins).
Proof.
  intros Hh Hb. induction 1 as [m | m tx us m1 n out l uss m' ins outs fees Htc Hc IH]; intros Hwf Hl Hg v m2 b' s Hv Hs.
  { exists v, m2, s. by rewrite !Z.add_0_r. }
  apply Forall_cons in Hl as [[Hz Hn] Hl]. destruct (IH (tx_connected_wf _ _ _ _ _ _ _ _ Hh Hwf Htc) Hl (fun t Ht => Hg t (ids_tail _ _ _ _ Ht)) v m2 b' s Hv Hs)
    as (v1 & m3 & s1 & E1 & Hv1 & Hs1 & Hcl1 & Ho1 & Hi1).
  destruct (disconnect_tx_run maturity _ _ _ _ _ _ _ _ _ _ _ s1 (Some us) Hh Hb Hwf Hz Hn Htc (fun _ => eq_refl) (fun t Ht => Hg t (ids_tail _ _ _ _ (txs_connected_none _ _ _ _ _ _ _ _ _ t Hc Ht)))
      (Hg _ (or_intror (list_elem_of_here _ _))) _ Hv1 Hs1)
    as (v2 & m4 & s2 & E2 & Hv2 & Hs2 & Hcl2 & Ho2 & Hi2).
  exists v2, m4, s2. cbn [map zip]. rewrite reverse_cons, cm_fold_app, E1. cbn [cm_fold]. erewrite cm_bind_run by exact E2.
  split_and!; [done | done | done | congruence | |].
  - rewrite Ho2, Ho1. by rewrite <- Z.add_assoc, (Z.add_comm outs).
  - rewrite Hi2, Hi1. by rewrite <- Z.add_assoc, (Z.add_comm ins).
Qed.

(** ** A block connected and disconnected *)

(** The place of a block in the index, under its parent. *)
Record placed (pindex : block_pos) (h : Z) : Prop := {
  pl_height : nHeight_ pindex = h;
  pl_range : 0 < h < 2 ^ 31;
  pl_hash : uint256_IsNull (phashBlock pindex) = false;
  pl_prev : exists hp, pprev pindex = Some (hp, h - 1) /\ uint256_IsNull hp = false /\ height_of hp = Some (h - 1)
}.

Lemma set_best_holds v m b h : holds v m b -> uint256_IsNull h = false ->
  exists v', set_best h v = (Ok tt, v') /\ holds v' m h.
Proof.
  intros (Hi & Hc & _) Hh. eexists. split; [reflexivity |]. split_and!; [done | done |]. unfold cache_best. cbn [SetBestBlock hashBlock].
  by rewrite Hh.
Qed.

(** What a block that was connected went through. *)
Lemma ConnectBlock_inv v m b block pindex h fAlreadyChecked supply supply1 undo cb l v1 : placed pindex h ->
  vtx block = cb :: l -> Forall plain_tx (cb :: l) -> holds v m b ->
  ConnectBlock block pindex false fAlreadyChecked supply v = (Ok (supply1, Some undo), v1) ->
  b = hash_prev pindex /\ exists us m' ins outs fees s,
    txs_connected b h m (cb :: l) (us :: undo) m' ins outs fees /\ holds v1 m' (phashBlock pindex) /\
    connect_totals block h s = Ok tt /\ zerocoin_supply_ok block = true /\
    eq64 (nValueIn s) ins /\ eq64 (nValueOut s) outs /\ eq64 (nFees s) fees /\
    supply1 = s64 (supply_events h supply + (outs - ins - burned_all (vtx block))).
Proof.
  intros [Hph Hpr Hpb Hpp] Hvtx Hl Hv E. unfold ConnectBlock in E. apply cm_bind_ok in E as (_u & v2 & E2 & E).
  assert (holds v2 m b) as Hv2.
  { destruct fAlreadyChecked; [by injection E2 as <- <- |]. destruct (CheckBlock _ _ _) as [? | []]; unfold cm_lift, cm_fail in E2; by simplify_eq. }
  apply cm_bind_ok in E as (b1 & v3 & E3 & E). destruct (best_holds _ _ _ _ _ Hv2 E3) as [[= ->] Hv3].
  destruct (bool_decide (hash_prev pindex = b)) eqn:Eb; cbn [negb] in E; [| done]. apply bool_decide_eq_true in Eb. split; [done |].
  destruct (is_genesis block); [by apply cm_bind_ok in E as (? & ? & _ & ?) |]. case_match; [done |]. case_match; [done |].
  rewrite Hph in E. apply cm_bind_ok in E as (s & v4 & E4 & E).
  destruct (connect_txs_inv _ _ _ _ _ _ _ _ _ _ _ _ Hvtx Hl Hv3 E4) as (us & uss & m' & ins & outs & fees & Hc & Hv4 & Hi & Ho & Hf & Hb & Hu).
  apply cm_bind_ok in E as ([] & v5 & E5 & E). apply cm_lift_ok in E5 as [Ht ->].
  destruct (set_best_holds v4 m' b (phashBlock pindex) Hv4 Hpb) as (v6 & E6 & Hv6). erewrite cm_bind_run in E by exact E6.
  destruct (zerocoin_supply_ok block) eqn:Ez; cbn [negb] in E; [| done]. injection E as <- <- <-. rewrite Hu in *.
  exists us, m', ins, outs, fees, s. split_and!; try done. apply s64_eq64. rewrite Hvtx. by rewrite Ho, Hi, Hb.
Qed.

(** Of the transaction [t] the block left nothing: it is not among the coins [m']
    after the block, or what is there is a transaction of the block itself that took
    the same id. *)
Definition spent_by (block : CBlock) (m' : utxo_map) (t : bytes) : Prop := m' !! t = None \/ t ∈ map CTransaction_GetHash (vtx block).

Lemma disconnect_connected v m b block pindex h fAlreadyChecked supply supply1 undo cb l v1 : placed pindex h ->
  vtx block = cb :: l -> IsCoinBase cb = true -> Forall plain_tx (cb :: l) -> utxo_wf m -> holds v m b ->
  ConnectBlock block pindex false fAlreadyChecked supply v = (Ok (supply1, Some undo), v1) ->
  exists v2 m2, DisconnectBlock block pindex (Some undo) supply1 v1 =
      (Ok (true, s64 (supply_events h supply - burned_all (vtx block))), v2) /\
    holds v2 m2 b /\ same_but_stake h (spent_by block (cache_contents v1)) m2 m.
Proof.
  intros Hpl Hvtx Hcb Hl Hwf Hv E.
  destruct (ConnectBlock_inv _ _ _ _ _ _ _ _ _ _ _ _ _ Hpl Hvtx Hl Hv E) as (Hb & us & m' & ins & outs & fees & s & Hc & Hv1 & _ & Hz & _ & _ & _ & Hsup).
  destruct Hpl as [Hph Hpr Hpb (hp & Hprev & Hnp & Hhp)].
  assert (Hbh : height_of b = Some (h - 1)) by (rewrite Hb; unfold hash_prev; by rewrite Hprev).
  assert (Hnb : uint256_IsNull (hash_prev pindex) = false) by (unfold hash_prev; by rewrite Hprev).
  inversion Hc as [| m0 tx us0 m1 n out l0 uss m0' ins0 outs0 fees0 Htc Hc1]; subst.
  apply Forall_cons in Hl as [[Hzc Hn] Hl].
  unfold DisconnectBlock. destruct (cm_read cache_GetBestBlock v1) as [r v2] eqn:E2. destruct (best_holds _ _ _ _ _ Hv1 E2) as [-> Hv2].
  erewrite cm_bind_run by exact E2. rewrite bool_decide_eq_true_2 by done. cbn [negb].
  assert (Hlen : zlen undo + 1 = zlen (vtx block)).
  { rewrite Hvtx, zlen_cons. unfold zlen. enough (length undo = length l) by lia. clear -Hc1. by induction Hc1; cbn; congruence. }
  rewrite (proj2 (Z.eqb_eq _ _) Hlen), Hz. cbn [negb]. unfold with_undo. rewrite Hvtx. cbn [zip]. rewrite reverse_cons.
  set (s0 := {| d_clean := true; d_valueOut := 0; d_valueIn := 0 |}). set (g := spent_by block (cache_contents v1)).
  assert (Hg : forall t, m' !! t = None \/ t ∈ map CTransaction_GetHash l -> g t).
  { intros t Ht. unfold g, spent_by. destruct Hv1 as (_ & -> & _). rewrite Hvtx. by apply ids_tail. }
  assert (Hgc : g (CTransaction_GetHash cb)) by (right; rewrite Hvtx; apply list_elem_of_here).
  destruct (disconnect_fold_run _ _ _ _ _ _ _ _ _ _ Hpr Hbh Hc1 (tx_connected_wf _ _ _ _ _ _ _ _ Hpr Hwf Htc) Hl Hg v2 m' _ s0 Hv2 (reflexivity _))
    as (v3 & m3 & s1 & E3 & Hv3 & Hs3 & Hcl3 & Ho3 & Hi3).
  destruct (disconnect_tx_run maturity v3 m (hash_prev pindex) (nHeight_ pindex) _ cb us m1 n out m3 s1 None Hpr Hbh Hwf Hzc Hn Htc ltac:(by rewrite Hcb)
      (fun t Ht => Hg t (txs_connected_none _ _ _ _ _ _ _ _ _ t Hc1 Ht)) Hgc _ Hv3 Hs3)
    as (v4 & m4 & s2 & E4 & Hv4 & Hs4 & Hcl4 & Ho4 & Hi4).
  erewrite cm_bind_run; [| rewrite cm_fold_app, E3; cbn [cm_fold]; by erewrite cm_bind_run by exact E4].
  destruct (set_best_holds v4 m4 _ (hash_prev pindex) Hv4 Hnb) as (v5 & E5 & Hv5). erewrite cm_bind_run by exact E5.
  exists v5, m4. split_and!; [| done | done]. unfold cm_ret. do 3 f_equal; [by rewrite Hcl4, Hcl3 |]. apply s64_eq64.
  rewrite eq64_s64, Ho4, Ho3, Hi4, Hi3. cbn [s0 d_valueOut d_valueIn]. rewrite <- Hvtx. unfold eq64. f_equal. lia.
Qed.
End Blocks.

(** ** Spending does not crash *)

Lemma spend_available m out : available m out = true -> exists u m', spend_out m out = Some (u, m').
Proof.
  unfold available, spend_out. destruct (m !! op_hash out) as [c |]; [| done]. unfold IsAvailable, Spend. cbn.
  destruct (c_vout c !! Z.to_nat (op_n out)) as [o |]; [| done]. intros [[_ En]%andb_true_iff _]%andb_true_iff.
  apply negb_true_iff in En. rewrite En. destruct (zlen _ =? 0); by eexists _, _.
Qed.

Lemma available_after m out u m' out' : utxo_wf m -> spend_out m out = Some (u, m') -> out' <> out -> 0 <= op_n out ->
  available m out' = true -> available m' out' = true.
Proof.
  unfold available, spend_out. intros Hwf Es Hne Hn Ha. destruct (m !! op_hash out) as [c |] eqn:E; [| done]. cbn in Es.
  destruct (Spend c out) as [[c' u'] |] eqn:Es'; [| done]. apply some_pair_inv in Es as [<- <-].
  destruct (decide (op_hash out' = op_hash out)) as [Eh | Hh]; [| by rewrite lookup_partial_alter_ne].
  rewrite Eh, lookup_partial_alter_eq. rewrite Eh, E in Ha. unfold IsAvailable in Ha.
  destruct (c_vout c !! Z.to_nat (op_n out')) as [o |] eqn:Eo; [| done].
  apply andb_true_iff in Ha as [[H0 H1]%andb_true_iff H2]. apply negb_true_iff in H1.
  assert (Hk : Z.to_nat (op_n out') <> Z.to_nat (op_n out)).
  { intros Hk. apply Hne. destruct out, out'; cbn in *. apply Z.leb_le in H0. f_equal; [done | lia]. }
  destruct (Spend_inv _ _ _ _ Es') as (p & _ & _ & _ & -> & _). set (w := <[Z.to_nat (op_n out) := CTxOut_SetNull]> (c_vout c)).
  assert (Hw : w !! Z.to_nat (op_n out') = Some o) by (unfold w; by rewrite list_lookup_insert_ne).
  assert (Hd : drop_null w `prefix_of` w) by (eexists; apply drop_null_split, Forall_insert; [by apply (Hwf _ _ E) | by intros _]).
  destruct (lookup_lt_is_Some_2 (drop_null w) (Z.to_nat (op_n out')) (drop_null_reach w _ o Hw H1)) as [q Hq].
  assert (q = o) as -> by (apply (prefix_lookup_Some _ _ _ _ Hq) in Hd; congruence).
  assert (Hav : IsAvailable (with_vout c (drop_null w)) (op_n out') = true).
  { unfold IsAvailable. cbn [c_vout with_vout]. by rewrite Hq, H0, H1, H2. }
  unfold norm. destruct (IsPruned _) eqn:Ep; [by rewrite (pruned_unavailable _ _ Ep) in Hav | done].
Qed.

Lemma spend_outs_available l m : utxo_wf m -> NoDup (map prevout l) -> Forall (fun i => 0 <= op_n (prevout i)) l ->
  forallb (fun i => available m (prevout i)) l = true -> exists us m', spend_outs m l = Some (us, m').
Proof.
  revert m. induction l as [| i l IH]; intros m Hwf Hnd Hn Ha; [by eexists _, _ |]. cbn [spend_outs map forallb] in *.
  apply andb_true_iff in Ha as [Hi Ha]. apply NoDup_cons in Hnd as [Hni Hnd]. apply Forall_cons in Hn as [Hn0 Hn].
  destruct (spend_available m (prevout i) Hi) as (u & m1 & E1). rewrite E1.
  destruct (IH m1 (spend_out_wf _ _ _ _ Hwf E1) Hnd Hn) as (us & m2 & ->); [| eauto]. rewrite forallb_forall in *. intros j Hj.
  apply (available_after m (prevout i) u m1); auto. intros Ej. apply Hni. rewrite <- Ej. apply list_elem_of_fmap_2. by apply list_elem_of_In.
Qed.

Section NoCrash.
Context {V : Type} `{CCoinsViewLaws V}.
Implicit Types v : CCoinsViewCache V.

Lemma spend_inputs_run l v m b us k m' : holds v m b -> spend_outs m l = Some (k, m') ->
  exists v', cm_fold spend_input us l v = (Ok (us ++ k), v') /\ holds v' m' b.
Proof.
  revert v m us k. induction l as [| i l IH]; intros v m us k Hv E; cbn [spend_outs cm_fold] in *.
  { apply some_pair_inv in E as [<- <-]. exists v. by rewrite app_nil_r. }
  destruct (spend_out m (prevout i)) as [[u m1] |] eqn:E1; [| done]. destruct (spend_outs m1 l) as [[us1 m2] |] eqn:E2; [| done].
  apply some_pair_inv in E as [<- <-]. assert (exists v1, spend_input us i v = (Ok (us ++ [u]), v1) /\ holds v1 m1 b) as (v1 & Ei & Hv1).
  { unfold spend_input, cm_bind, cm_assert. destruct (ModifyCoins v _ _) as [r v1] eqn:Em.
    destruct (modify_holds _ _ _ _ _ _ _ Hv Em) as (c & Hc & -> & Hv1). unfold spend_out in E1. rewrite <- Hc in E1.
    unfold norm in E1. destruct (IsPruned c); [done |]. cbn in E1. unfold spend_modifier in *.
    destruct (Spend c (prevout i)) as [[c' u'] |] eqn:Es; [| done]. apply some_pair_inv in E1 as [<- <-]. cbn [fst snd] in *.
    exists v1. split; [done |]. by rewrite (Spend_clean _ _ _ _ Es) in Hv1. }
  erewrite cm_bind_run by exact Ei. destruct (IH v1 m1 (us ++ [u]) us1 Hv1 E2) as (v2 & -> & Hv2).
  exists v2. by rewrite <- app_assoc.
Qed.

(** [UpdateCoins] never fails its assertion on a transaction whose inputs are
    available and distinct, as [HaveInputs] and [CheckTransaction] make sure: it spends
    every input, leaves one undo record for each and adds the outputs. *)
Theorem UpdateCoins_succeeds v (tx : CTransaction) (h : Z) :
  cache_inv v -> utxo_wf (cache_contents v) -> inputs_available (cache_contents v) tx = true ->
  NoDup (map prevout (vin tx)) -> Forall (fun i => 0 <= op_n (prevout i)) (vin tx) ->
  exists us v' m', UpdateCoins tx h v = (Ok us, v') /\ update_coins (cache_contents v) tx h = Some (us, m') /\
    cache_inv v' /\ cache_contents v' = m' /\ cache_best v' = cache_best v.
Proof.
  intros Hi Hwf Ha Hnd Hn. assert (Hv : holds v (cache_contents v) (cache_best v)) by (by split_and!).
  assert (Hs : exists us m1 v1, (if negb (IsCoinBase tx) && negb (HasZerocoinSpendInputs tx) then spend_outs (cache_contents v) (vin tx)
      else Some ([], cache_contents v)) = Some (us, m1) /\
    (if negb (IsCoinBase tx) && negb (HasZerocoinSpendInputs tx) then cm_fold spend_input [] (vin tx) else cm_ret []) v = (Ok us, v1) /\
    holds v1 m1 (cache_best v)).
  { unfold inputs_available in Ha. destruct (negb (IsCoinBase tx) && negb (HasZerocoinSpendInputs tx)).
    - destruct (spend_outs_available _ _ Hwf Hnd Hn Ha) as (us & m1 & E). destruct (spend_inputs_run _ _ _ _ [] _ _ Hv E) as (v1 & E1 & Hv1). by exists us, m1, v1.
    - by exists [], (cache_contents v), v. }
  destruct Hs as (us & m1 & v1 & Es & E1 & Hv1). unfold update_coins, UpdateCoins. rewrite Es. erewrite cm_bind_run by exact E1.
  unfold cm_bind, cm_read. destruct (ModifyCoins v1 _ _) as [a v2] eqn:Em. destruct (modify_holds _ _ _ _ _ _ _ Hv1 Em) as (c & _ & _ & Hv2).
  cbn [snd] in Hv2. rewrite FromTx_clean in Hv2. destruct Hv2 as (? & ? & ?). by eexists us, v2, _.
Qed.
End NoCrash.

(** C2: disconnecting the block that was just connected, with the undo data that
    connecting it produced, finds nothing amiss ([fClean]) and restores the best block
    and every coin as it was, except that a transaction whose last output the block
    spent is no longer marked as a coinstake; the money supply ends below what it was
    by the bets of the block. A transaction of which an output is left comes back exactly
    as it was. *)
Theorem disconnect_undoes_connect {V : Type} `{CCoinsViewLaws V} {env : validation_env} (v : CCoinsViewCache V) (block : CBlock)
    (pindex : block_pos) (h : Z) (fAlreadyChecked : bool) (nMoneySupply nMoneySupply' : Z) (undo : list (list CTxInUndo))
    (coinbase : CTransaction) (txs : list CTransaction) (v1 : CCoinsViewCache V) :
  0 <= nMaxMoneyOut consensus_params < 2 ^ 62 -> 0 < nCoinbaseMaturity consensus_params -> placed pindex h ->
  vtx block = coinbase :: txs -> IsCoinBase coinbase = true -> Forall plain_tx (coinbase :: txs) ->
  cache_inv v -> utxo_wf (cache_contents v) ->
  ConnectBlock block pindex false fAlreadyChecked nMoneySupply v = (Ok (nMoneySupply', Some undo), v1) ->
  exists v2, DisconnectBlock block pindex (Some undo) nMoneySupply' v1 =
      (Ok (true, s64 (supply_events h nMoneySupply - burned_all (vtx block))), v2) /\
    cache_inv v2 /\ cache_best v2 = cache_best v /\
    forall t, match cache_contents v2 !! t, cache_contents v !! t with
              | Some c2, Some c => c2 = c \/ (c2 = drop_stake c /\ c_nHeight c < h /\ spent_by block (cache_contents v1) t)
              | None, None => True
              | _, _ => False
              end.
Proof.
  intros Hm Hmat Hpl Hvtx Hcb Hl Hi Hwf E.
  destruct (disconnect_connected Hm Hmat v _ (cache_best v) _ _ _ _ _ _ _ _ _ _ Hpl Hvtx Hcb Hl Hwf (conj Hi (conj eq_refl eq_refl)) E)
    as (v2 & m2 & E2 & (Hi2 & <- & Hb2) & Hs). exists v2. split_and!; try done.
  intros t. by destruct (Hs t).
Qed.

(** ** A block that spends a coinstake *)

Definition sample_node : node := {|
  params := mainParams;
  IsInitialBlockDownload := true;
  GetTime := 0;
  tip_time := 0;
  blocks_from := fun _ => [];
  GetTransaction := fun _ => None;
  ReadResultsFile := None;
  ReadResultsFile2 := None;
  SPORK_19_DRAW_RESULT := 0
|}.

(** Below the last checkpoint, before the first draw, on the chain whose block [9] is at
    height 149. *)
#[local] Instance sample_env : validation_env := {|
  CheckLowS := fun _ => true;
  Verify := fun _ _ _ => false;
  consensus_params := mainConsensus;
  height_of := fun h => if decide (h = [9]) then Some 149 else None;
  tip := Some ([9], 149);
  total_blocks_estimate := 1000;
  script_threads := false;
  testnet := false;
  HashQuark := fun _ => [];
  lottery := sample_node;
  lottery2 := sample_node;
  masternodes_synced := true;
  superblocks := false;
  IsBudgetPaymentBlock := fun _ => false;
  ContainsOutPoint := fun _ => false;
  zerocoin_maintenance := fun _ => true;
  mint_ok := fun _ => false;
  zerocoin_spends := fun _ _ => Err AssertFail;
  zerocoin_undo := fun _ => Err AssertFail;
  zerocoin_supply_ok := fun _ => true;
  supply_events := fun _ n => n;
  CheckBlock := fun _ _ _ => Ok tt
|}.

Definition spend_of (n : Z) : CTxIn := {| prevout := {| op_hash := [7]; op_n := n |}; scriptSig := []; nSequence := 0 |}.
Definition sample_coinbase : CTransaction :=
  {| nVersion := 1; vin := [{| prevout := {| op_hash := UINT256_ZERO; op_n := MAX_UINT32 |}; scriptSig := [0; 0]; nSequence := 0 |}];
     vout := [sample_out 1]; nLockTime := 0 |}.
Definition sample_spend : CTransaction :=
  {| nVersion := 1; vin := [spend_of 0; spend_of 1]; vout := [sample_out 11]; nLockTime := 0 |}.
Definition sample_blk : CBlock := {| header := CBlockHeader_SetNull; vtx := [sample_coinbase; sample_spend]; vchBlockSig := [] |}.
Definition sample_pos : block_pos := {| phashBlock := [10]; nHeight_ := 150; pprev := Some ([9], 149) |}.
Definition sample_view : CCoinsViewCache CCoinsViewDB := SetBestBlock (new_cache sample_db) [9].

Definition hash_coinbase : bytes :=
  [114; 243; 144; 75; 1; 87; 57; 180; 61; 175; 243; 236; 3; 172; 17; 197; 177; 99; 89; 93; 63; 213; 201; 115; 85; 142; 94; 234;
   214; 145; 96; 14].
Definition hash_spend : bytes :=
  [28; 45; 27; 105; 128; 54; 0; 190; 28; 142; 195; 166; 32; 33; 59; 26; 78; 31; 167; 224; 15; 125; 148; 88; 232; 119; 120; 145;
   174; 94; 31; 251].

Lemma coinbase_hash : CTransaction_GetHash sample_coinbase = hash_coinbase.
Proof. vm_compute. reflexivity. Qed.
Lemma spend_hash : CTransaction_GetHash sample_spend = hash_spend.
Proof. vm_compute. reflexivity. Qed.

Definition sample_undo : list (list CTxInUndo) :=
  [[{| u_txout := sample_out 5; u_fCoinBase := false; u_fCoinStake := false; u_nHeight := 0; u_nVersion := 0 |};
    {| u_txout := sample_out 7; u_fCoinBase := false; u_fCoinStake := true; u_nHeight := 3; u_nVersion := 1 |}]].

(** The cache after the block. *)
Definition sample_after : CCoinsViewCache CCoinsViewDB :=
  {| base := sample_db; hashBlock := [10];
     cacheCoins := <[hash_spend := {| coins := {| fCoinBase := false; fCoinStake := false; c_vout := [sample_out 11]; c_nHeight := 150; c_nVersion := 1 |};
                                      DIRTY := true; FRESH := true |}]>
                   (<[[7] := {| coins := {| fCoinBase := false; fCoinStake := true; c_vout := []; c_nHeight := 3; c_nVersion := 1 |};
                                DIRTY := true; FRESH := false |}]>
                   (<[hash_coinbase := {| coins := {| fCoinBase := true; fCoinStake := false; c_vout := [sample_out 1]; c_nHeight := 150; c_nVersion := 1 |};
                                          DIRTY := true; FRESH := true |}]> ∅)) |}.

Lemma sample_connect : ConnectBlock sample_blk sample_pos false true 1000 sample_view = (Ok (1000, Some sample_undo), sample_after).
Proof.
  unfold ConnectBlock, connect_txs. change (vtx sample_blk) with [sample_coinbase; sample_spend]. cbn [cm_fold].
  unfold connect_tx, UpdateCoins. rewrite coinbase_hash, spend_hash. vm_compute. reflexivity.
Qed.

Lemma sample_view_wf : utxo_wf (cache_contents sample_view).
Proof.
  assert (E : cache_contents sample_view = {[ [7] := sample_coins ]}) by (change (cache_contents sample_view) with (overlay ∅ {[ [7] := sample_coins ]}); apply overlay_empty).
  rewrite E. apply map_Forall_singleton. split_and!; [split; [reflexivity |] | reflexivity ..].
  repeat constructor; intros Hx; vm_compute in Hx; discriminate Hx.
Qed.

Lemma sample_placed : placed sample_pos 150.
Proof. split; [reflexivity | split; reflexivity | reflexivity |]. exists [9]. split_and!; reflexivity. Qed.

Lemma sample_plain : Forall plain_tx [sample_coinbase; sample_spend].
Proof.
  apply Forall_cons. split; [split; [reflexivity | intros Hx; vm_compute in Hx; discriminate Hx] |].
  apply Forall_cons. split; [split; [reflexivity | intros _] | constructor].
  apply Forall_cons. split; [vm_compute; split; congruence |]. apply Forall_cons. split; [vm_compute; split; congruence | constructor].
Qed.

Lemma disconnect_undoes_connect_witness : exists v2,
  DisconnectBlock sample_blk sample_pos (Some sample_undo) 1000 sample_after = (Ok (true, 1000), v2) /\ cache_best v2 = [9].
Proof.
  destruct (disconnect_undoes_connect sample_view sample_blk sample_pos 150 true 1000 1000 sample_undo sample_coinbase [sample_spend] sample_after)
    as (v2 & E & _ & Hb & _).
  - vm_compute. split; congruence.
  - reflexivity.
  - exact sample_placed.
  - reflexivity.
  - reflexivity.
  - exact sample_plain.
  - apply (new_cache_inv sample_db), sample_db_inv.
  - exact sample_view_wf.
  - exact sample_connect.
  - exists v2. split; [| exact Hb]. rewrite E. do 2 f_equal.
Defined.

Lemma UpdateCoins_succeeds_witness : exists us v' m', UpdateCoins sample_spend 150 sample_view = (Ok us, v') /\
  update_coins (cache_contents sample_view) sample_spend 150 = Some (us, m').
Proof.
  destruct (UpdateCoins_succeeds sample_view sample_spend 150) as (us & v' & m' & E1 & E2 & _).
  - apply (new_cache_inv sample_db), sample_db_inv.
  - exact sample_view_wf.
  - reflexivity.
  - apply NoDup_cons. split; [| apply NoDup_cons; split; [apply not_elem_of_nil | constructor]].
    intros Hx. apply elem_of_cons in Hx as [Hx | Hx]; [discriminate Hx | by apply elem_of_nil in Hx].
  - apply Forall_cons. split; [vm_compute; congruence |]. apply Forall_cons. split; [vm_compute; congruence | constructor].
  - exists us, v', m'. split; [exact E1 | exact E2].
Defined.

(** the mark of a coinstake does not survive a reorganization: a coinstake whose
    last output is spent in a block comes back, when the block is disconnected, as an
    ordinary transaction, so that the maturity rule no longer applies to it. *)
Theorem disconnect_forgets_coinstake :
  cache_contents sample_view !! [7] = Some sample_coins /\ fCoinStake sample_coins = true /\
  exists v1 v2, ConnectBlock sample_blk sample_pos false true 1000 sample_view = (Ok (1000, Some sample_undo), v1) /\
    DisconnectBlock sample_blk sample_pos (Some sample_undo) 1000 v1 = (Ok (true, 1000), v2) /\
    cache_contents v2 !! [7] = Some (drop_stake sample_coins).
Proof.
  split_and!; [reflexivity | reflexivity |]. exists sample_after.
  assert (E : exists v2, DisconnectBlock sample_blk sample_pos (Some sample_undo) 1000 sample_after = (Ok (true, 1000), v2) /\
    cache_contents v2 !! [7] = Some (drop_stake sample_coins)).
  { unfold DisconnectBlock, with_undo. change (vtx sample_blk) with [sample_coinbase; sample_spend]. cbn [zip map sample_undo reverse rev_append cm_fold].
    unfold disconnect_tx. rewrite coinbase_hash, spend_hash. eexists. split; vm_compute; reflexivity. }
  destruct E as (v2 & E & Hc). exists v2. split_and!; [exact sample_connect | exact E | exact Hc].
Qed.
