(* ===== verification/MempoolChain.v ===== *)
(** The memory pool and the chain: every transaction that is accepted keeps the pool
    consistent and supported by the coins, and so does connecting a block. *)

From Stdlib Require Import ZArith Lia String.
From stdpp Require Import base tactics list numbers option gmap fin_maps relations strings.
From S2P Require Import Prelude CString Amount ChainParams Script Standard Serialize Block Interpreter Transaction Coins CoinsView TxVerify.
From S2P Require Import Mempool MempoolFacts Connect AcceptTx ConnectFacts Reorg.

#[local] Opaque CTransaction_GetHash.

(** ** Support *)

Section Support.
Context `{double_ops}.
Implicit Types (pool : CTxMemPool) (m : utxo_map).

(** The coins with the pool over them, as [CCoinsViewMemPool] shows them. *)
Definition pool_view pool m : utxo_map :=
  merge (fun e c => match e with Some e => norm (FromTx (me_tx e) MEMPOOL_HEIGHT) | None => c end) (mapTx pool) m.

Lemma lookup_pool_view pool m t :
  pool_view pool m !! t = match mapTx pool !! t with Some e => norm (FromTx (me_tx e) MEMPOOL_HEIGHT) | None => m !! t end.
Proof. unfold pool_view. rewrite lookup_merge. by destruct (mapTx pool !! t), (m !! t). Qed.

(** Every input in the pool is an output of the pool or an available coin. *)
Definition supported m pool : Prop :=
  forall h e i, mapTx pool !! h = Some e -> i ∈ vin (me_tx e) -> available (pool_view pool m) (prevout i) = true.

Lemma available_norm m o c : m !! op_hash o = norm c -> available m o = IsAvailable c (op_n o).
Proof.
  intros E. unfold available. rewrite E. unfold norm. destruct (IsPruned c) eqn:Ep; [|done]. by rewrite pruned_unavailable.
Qed.

Lemma IsAvailable_height tx h h' n : IsAvailable (FromTx tx h) n = IsAvailable (FromTx tx h') n.
Proof. done. Qed.

Lemma drop_null_length v : (length (drop_null v) <= length v)%nat.
Proof. induction v as [|o v IH]; cbn [drop_null length]; [lia|]. destruct (drop_null v); [destruct (CTxOut_IsNull o)|]; simpl in *; lia. Qed.

Lemma IsAvailable_range tx h n : IsAvailable (FromTx tx h) n = true -> 0 <= n < Z.of_nat (length (vout tx)).
Proof.
  unfold IsAvailable. destruct (c_vout (FromTx tx h) !! Z.to_nat n) as [o|] eqn:E; [|done]. intros [[H0 _]%andb_true_iff _]%andb_true_iff.
  apply Z.leb_le in H0. apply lookup_lt_Some in E. cbn in E. pose proof (drop_null_length (map clear_unspendable (vout tx))) as Hl.
  rewrite length_map in Hl. lia.
Qed.

Lemma supported_range pool m h e i ea : supported m pool -> mapTx pool !! h = Some e -> i ∈ vin (me_tx e) ->
  mapTx pool !! op_hash (prevout i) = Some ea -> 0 <= op_n (prevout i) < Z.of_nat (length (vout (me_tx ea))).
Proof.
  intros Hs He Hi Ha. pose proof (Hs _ _ _ He Hi) as Hav.
  rewrite (available_norm _ _ (FromTx (me_tx ea) MEMPOOL_HEIGHT)) in Hav by (by rewrite lookup_pool_view, Ha). by eapply IsAvailable_range.
Qed.

(** ** Connecting a transaction *)

Lemma spend_outs_after l m us m' o : utxo_wf m -> Forall (fun i => 0 <= op_n (prevout i)) l -> spend_outs m l = Some (us, m') ->
  o ∉ map prevout l -> available m o = true -> available m' o = true.
Proof.
  revert m us. induction l as [|i l IH]; intros m us Hwf Hn E Ho Ha; cbn [spend_outs map] in *; [by simplify_eq|].
  apply not_elem_of_cons in Ho as [Ho1 Ho2]. apply Forall_cons_1 in Hn as [Hn1 Hn].
  destruct (spend_out m (prevout i)) as [[u m1]|] eqn:E1; [|done]. destruct (spend_outs m1 l) as [[us1 m2]|] eqn:E2; [|done]. simplify_eq.
  eapply IH; [by eapply spend_out_wf|done|done|done|]. by eapply available_after.
Qed.

Lemma update_coins_after m tx h us m' o : utxo_wf m -> (IsCoinBase tx = false -> Forall (fun i => 0 <= op_n (prevout i)) (vin tx)) ->
  update_coins m tx h = Some (us, m') -> op_hash o <> CTransaction_GetHash tx -> o ∉ prevouts tx -> available m o = true -> available m' o = true.
Proof.
  intros Hwf Hn Hup Hne Ho Ha. unfold update_coins in Hup. case_match eqn:E; [|done]. destruct p as [us1 m1]. apply some_pair_inv in Hup as [_ <-].
  unfold available. rewrite lookup_partial_alter_ne by done. change (available m1 o = true).
  destruct (IsCoinBase tx); cbn [negb andb] in E; [by simplify_eq|]. destruct (HasZerocoinSpendInputs tx); cbn [negb] in E; [by simplify_eq|].
  eapply spend_outs_after; [done|by apply Hn|done|done|done].
Qed.

Lemma update_coins_new m tx h us m' : update_coins m tx h = Some (us, m') -> m' !! CTransaction_GetHash tx = norm (FromTx tx h).
Proof. unfold update_coins. intros Hup. case_match; [|done]. destruct p as [us1 m1]. apply some_pair_inv in Hup as [_ <-]. by rewrite lookup_partial_alter_eq. Qed.

(** One transaction of a block keeps the pool supported. *)
Lemma supported_step m tx h us m' pool pool1 r1 pool2 r2 : utxo_wf m -> pool_ok pool -> supported m pool ->
  (IsCoinBase tx = false -> Forall (fun i => 0 <= op_n (prevout i)) (vin tx)) ->
  m !! CTransaction_GetHash tx = None -> update_coins m tx h = Some (us, m') ->
  (forall e, mapTx pool !! CTransaction_GetHash tx = Some e -> me_tx e = tx) ->
  removes pool (fun x => x = CTransaction_GetHash tx) pool1 r1 -> removes pool1 (conflicted pool1 tx (vin tx)) pool2 r2 -> supported m' pool2.
Proof.
  intros Hwf Hok Hs Hn Hnew Hup Hsame H1 H2' x e i He Hi. set (o := prevout i).
  destruct (block_step_left _ _ _ _ _ _ _ _ Hok H1 H2' He) as (He0 & Hx & Hno). pose proof (Hs _ _ _ He0 Hi) as Hav. fold o in Hav.
  pose proof H1 as (Hok1 & _ & Hm1 & _). pose proof H2' as (_ & _ & Hm2 & _).
  assert (Ho : o ∉ prevouts tx).
  { intros Hin. apply elem_of_prevouts in Hin as (k & j & Hk & Hj). apply (Hno j); [by eapply list_elem_of_lookup_2|].
    rewrite Hj. apply list_elem_of_fmap. by exists i. }
  assert (Hgone : mapTx pool2 !! CTransaction_GetHash tx = None).
  { destruct (mapTx pool2 !! CTransaction_GetHash tx) eqn:E; [|done]. apply Hm2 in E as [E _]. apply Hm1 in E as [_ E]. done. }
  destruct (mapTx pool !! op_hash o) as [ea|] eqn:Ea.
  - pose proof Hav as Hav'. rewrite (available_norm _ _ (FromTx (me_tx ea) MEMPOOL_HEIGHT)) in Hav' by (by rewrite lookup_pool_view, Ea).
    destruct (decide (op_hash o = CTransaction_GetHash tx)) as [Eh|Eh].
    + rewrite (available_norm _ _ (FromTx tx h)); [rewrite (IsAvailable_height _ _ MEMPOOL_HEIGHT), <- (Hsame ea); [done|congruence]|].
      rewrite lookup_pool_view, Eh, Hgone. by eapply update_coins_new.
    + assert (Ha1 : mapTx pool1 !! op_hash o = Some ea) by (by apply Hm1).
      assert (Hnc : ~ conflicted pool1 tx (vin tx) (op_hash o)).
      { intros Hc. apply Hm2 in He as [He1 Hnc]. apply Hnc. eapply conflicted_closed; [done|].
        exists ea, e, i. split_and!; try done; by eapply IsAvailable_range. }
      rewrite (available_norm _ _ (FromTx (me_tx ea) MEMPOOL_HEIGHT)); [done|]. by rewrite lookup_pool_view, (proj2 (Hm2 _ _) (conj Ha1 Hnc)).
  - assert (Ham : available m o = true). { unfold available in Hav |- *. by rewrite lookup_pool_view, Ea in Hav. }
    assert (Hne : op_hash o <> CTransaction_GetHash tx). { intros Eh. unfold available in Ham. by rewrite Eh, Hnew in Ham. }
    assert (En : mapTx pool2 !! op_hash o = None).
    { destruct (mapTx pool2 !! op_hash o) eqn:E; [|done]. apply Hm2 in E as [E _]. apply Hm1 in E as [E _]. congruence. }
    pose proof (update_coins_after _ _ _ _ _ o Hwf Hn Hup Hne Ho Ham) as Hfin. unfold available in Hfin |- *. by rewrite lookup_pool_view, En.
Qed.

Lemma supported_same m pool pool' : mapTx pool' = mapTx pool -> supported m pool -> supported m pool'.
Proof. intros E Hs h e i He Hi. unfold pool_view. rewrite E in *. by apply (Hs h e i). Qed.
End Support.

(** ** Reading through the pool *)

(** A cache whose answers are those of given contents. *)
Section Reading.
Context {V : Type} `{CCoinsView V} (I : CCoinsViewCache V -> Prop) (m : utxo_map).
Context (access : forall v t r v', I v -> AccessCoins v t = (r, v') -> I v' /\ r ≫= norm = m !! t).

Lemma IsOutputAvailable_I v t n r v' : I v -> IsOutputAvailable v t n = (r, v') -> I v' /\ r = available m {| op_hash := t; op_n := n |}.
Proof using access.
  intros Hv E. unfold IsOutputAvailable in E. destruct (AccessCoins v t) as [c v1] eqn:Ea. simplify_eq.
  destruct (access _ _ _ _ Hv Ea) as [Hr Hc]. split; [done|]. unfold available. cbn [op_hash op_n]. rewrite <- Hc.
  destruct c as [c|]; [|done]. cbn. unfold norm. destruct (IsPruned c) eqn:Ep; [by rewrite pruned_unavailable|done].
Qed.

Lemma have_inputs_I l : forall v r v', I v -> have_inputs v l = (r, v') -> I v' /\ r = forallb (fun i => available m (prevout i)) l.
Proof using access.
  induction l as [|i l IH]; intros v r v' Hv E; cbn [have_inputs forallb] in *; [by simplify_eq|].
  destruct (IsOutputAvailable v (op_hash (prevout i)) (op_n (prevout i))) as [b v1] eqn:Ea.
  destruct (IsOutputAvailable_I _ _ _ _ _ Hv Ea) as [Hv1 Hb]. assert (Eo : {| op_hash := op_hash (prevout i); op_n := op_n (prevout i) |} = prevout i) by (by destruct (prevout i)).
  rewrite Eo in Hb. rewrite <- Hb. destruct b; cbn [negb andb] in *; [by eapply IH|by simplify_eq].
Qed.

Lemma HaveCoins_I v t r v' : I v -> cache_HaveCoins v t = (r, v') -> I v' /\ (r = false -> m !! t = None).
Proof using access.
  intros Hv E. unfold cache_HaveCoins in E. destruct (FetchCoins v t) as [e v1] eqn:Ef. simplify_eq.
  destruct (access v t (coins <$> e) v') as [Hv' Hc]; [done|unfold AccessCoins; by rewrite Ef|]. split; [done|].
  rewrite <- Hc. destruct e as [e|]; [|done]. cbn. intros Hz. apply negb_false_iff, Z.eqb_eq in Hz.
  apply norm_None. unfold IsPruned. destruct (c_vout (coins e)); [done|unfold zlen in Hz; simpl in Hz; lia].
Qed.
End Reading.

Section PoolReads.
Context `{double_ops} {B : Type} `{CCoinsViewLaws B} (pool : CTxMemPool) (m : utxo_map).
Implicit Types v : CCoinsViewCache (CCoinsViewMemPool B).

Record through_pool v : Prop := {
  tp_inv : view_inv (mp_base (base v)); tp_contents : contents (mp_base (base v)) = m; tp_pool : mp_pool (base v) = pool;
  tp_entries : forall t e, cacheCoins v !! t = Some e -> norm (coins e) = pool_view pool m !! t }.

Lemma through_pool_new tip : view_inv tip -> contents tip = m -> through_pool (new_cache {| mp_base := tip; mp_pool := pool |}).
Proof. intros Hi Hc. by constructor. Qed.

Lemma AccessCoins_pool v t r v' : through_pool v -> AccessCoins v t = (r, v') -> through_pool v' /\ r ≫= norm = pool_view pool m !! t.
Proof.
  intros [Hi Hc Hp He] E. unfold AccessCoins, FetchCoins in E. destruct (cacheCoins v !! t) as [e|] eqn:Et.
  { simplify_eq/=. split; [by constructor|by apply He]. }
  cbn [GetCoins mempool_ops] in E. unfold lookup_tx in E. rewrite Hp in E. destruct (mapTx pool !! t) as [x|] eqn:Ex; cbn [fmap option_fmap option_map] in E.
  - simplify_eq/=. assert (Hn : norm (FromTx (me_tx x) MEMPOOL_HEIGHT) = pool_view pool m !! t) by (by rewrite lookup_pool_view, Ex).
    split; [|done]. constructor; simpl; try done. intros u y Hy. apply lookup_insert_Some in Hy as [[<- <-]|[_ Hy]]; [done|by apply He].
  - destruct (GetCoins (mp_base (base v)) t) as [c b] eqn:Eg. destruct (GetCoins_law _ _ _ _ Hi Eg) as (Hi' & Hc' & _ & Hr & _).
    assert (Hn : c ≫= norm = pool_view pool m !! t) by (rewrite lookup_pool_view, Ex; congruence).
    destruct c as [c|]; [destruct (IsPruned c) eqn:Epr|]; simplify_eq/=.
    + split; [constructor; simpl; congruence || done|]. by rewrite norm_pruned in Hn.
    + split; [|done]. constructor; simpl; [done|congruence|done|]. intros u y Hy. apply lookup_insert_Some in Hy as [[<- <-]|[_ Hy]]; [done|by apply He].
    + split; [constructor; simpl; congruence || done|done].
Qed.

Lemma GetBestBlock_pool v h v' : through_pool v -> cache_GetBestBlock v = (h, v') -> through_pool v'.
Proof.
  intros [Hi Hc Hp He] E. unfold cache_GetBestBlock in E. destruct (uint256_IsNull (hashBlock v)); [|by simplify_eq].
  cbn [GetBestBlock mempool_ops] in E. destruct (GetBestBlock (mp_base (base v))) as [b w] eqn:Eb. simplify_eq.
  destruct (GetBestBlock_law _ _ _ Hi Eb) as (Hi' & Hc' & _). constructor; simpl; congruence || done.
Qed.
End PoolReads.

(** ** Accepted transactions *)

Section Accepted.
Context `{accept_env} {B : Type} `{CCoinsViewLaws B}.

Lemma inputs_exist_pool pool m l : forall v r v', through_pool (B := B) pool m v -> inputs_exist l v = (Ok r, v') -> through_pool pool m v'.
Proof.
  induction l as [|i l IH]; intros v r v' Hv E; cbn [inputs_exist] in E; [by injection E as _ <-|].
  apply cm_bind_ok in E as (b & v1 & E1 & E). unfold cm_read in E1. destruct (cache_HaveCoins v _) as [b0 v0] eqn:Eh. injection E1 as -> ->.
  destruct (HaveCoins_I _ _ (AccessCoins_pool pool m) _ _ _ _ Hv Eh) as [Hv1 _].
  destruct b; cbn [negb] in E; [|done]. destruct (negb (ValidOutPoint _ _)); [done|]. by eapply IH.
Qed.

Lemma find_inputs_ok pool m tx v n v' : through_pool (B := B) pool m v -> IsCoinBase tx = false -> HasZerocoinSpendInputs tx = false ->
  find_inputs tx v = (Ok n, v') ->
  pool_view pool m !! CTransaction_GetHash tx = None /\ forall i, i ∈ vin tx -> available (pool_view pool m) (prevout i) = true.
Proof.
  intros Hv Hcb Hz E. unfold find_inputs in E. apply cm_bind_ok in E as (b & v1 & E1 & E). unfold cm_read in E1.
  destruct (cache_HaveCoins v _) as [b0 v0] eqn:Eh. injection E1 as -> ->.
  destruct (HaveCoins_I _ _ (AccessCoins_pool pool m) _ _ _ _ Hv Eh) as [Hv1 Hnone]. destruct b; [done|]. split; [by apply Hnone|].
  apply cm_bind_ok in E as ([] & v2 & E2 & E). pose proof (inputs_exist_pool _ _ _ _ _ _ Hv1 E2) as Hv2.
  destruct (negb regtest && HasZerocoinMintOutputs tx); [done|]. apply cm_bind_ok in E as (av & v3 & E3 & E). unfold cm_read in E3.
  destruct (HaveInputs v2 tx) as [b2 v4] eqn:Ei. injection E3 as -> ->. unfold HaveInputs in Ei. rewrite Hcb, Hz in Ei. cbn [negb andb] in Ei.
  destruct (have_inputs_I _ _ (AccessCoins_pool pool m) _ _ _ _ Hv2 Ei) as [_ Hav]. destruct av; [|done]. symmetry in Hav.
  rewrite forallb_forall in Hav. intros i Hi. apply Hav. by apply list_elem_of_In.
Qed.

Lemma check_with_inputs_entry pool tx n fl fr ig v e v' : check_with_inputs pool tx n fl fr ig v = (Ok e, v') -> me_tx e = tx.
Proof.
  unfold check_with_inputs. intros E. apply cm_bind_ok in E as (st & v1 & _ & E). destruct (negb st); [done|].
  apply cm_bind_ok in E as (np & v2 & _ & E). destruct (negb _ && _); [done|]. apply cm_bind_ok in E as (vo & v3 & _ & E).
  apply cm_bind_ok in E as ([] & v4 & _ & E). destruct (fr && _); [done|]. destruct (negb regtest && _ && _); [done|].
  apply cm_bind_ok in E as (? & v5 & _ & E). apply cm_bind_ok in E as (? & v6 & _ & E). injection E as <- _. done.
Qed.

(** What the first checks promise. *)
Lemma check_loose_ok pool tx : 0 <= nMaxMoneyOut consensus_params < 2 ^ 62 -> 0 <= ZC_MaxSpendsPerTx consensus_params -> HasZerocoinSpendInputs tx = false -> check_loose pool tx = Ok tt ->
  IsCoinBase tx = false /\ NoDup (prevouts tx) /\ mapTx pool !! CTransaction_GetHash tx = None /\
  forall o, o ∈ prevouts tx -> mapNextTx pool !! o = None.
Proof.
  intros Hmax Hzc Hz E. unfold check_loose in E. destruct (spork_zerocoin_maintenance && _); [done|].
  destruct (CheckTransaction _ _ _ _ _) as [[]|] eqn:Ec; [|done].
  destruct (IsCoinBase tx); [done|]. destruct (IsCoinStake tx); [done|]. destruct (negb (CheckFinalTx tx)); [done|].
  destruct (if negb regtest then _ else _); [|done]. destruct (exists_tx pool _) eqn:Ex; [done|]. destruct (existsb _ (vin tx)); [done|].
  rewrite Hz in E. cbn [negb andb] in E. destruct (existsb _ (vin tx)) eqn:En; [done|]. split_and!; [done| | |].
  - apply CheckTransaction_tx_ok in Ec; [|done|done|done]. apply (tx_distinct _ _ _ _ Ec).
  - unfold exists_tx in Ex. apply bool_decide_eq_false in Ex. by apply eq_None_not_Some.
  - intros o Ho. apply elem_of_prevouts in Ho as (k & i & Hk & <-). destruct (mapNextTx pool !! prevout i) as [p|] eqn:Ep; [|done].
    assert (Ht : existsb (fun i => bool_decide (is_Some (mapNextTx pool !! prevout i))) (vin tx) = true); [|congruence].
    apply existsb_exists. exists i. split; [apply list_elem_of_In; by eapply list_elem_of_lookup_2|]. apply bool_decide_eq_true_2. by rewrite Ep.
Qed.

Lemma AcceptToMemoryPool_inv pool m tip tx fl fr ig pool' :
  0 <= nMaxMoneyOut consensus_params < 2 ^ 62 -> 0 <= ZC_MaxSpendsPerTx consensus_params -> HasZerocoinSpendInputs tx = false -> view_inv tip -> contents tip = m ->
  AcceptToMemoryPool pool tip tx fl fr ig = Ok pool' ->
  exists e, me_tx e = tx /\ pool' = addUnchecked pool (CTransaction_GetHash tx) e /\ NoDup (prevouts tx) /\ mapTx pool !! CTransaction_GetHash tx = None /\
    (forall o, o ∈ prevouts tx -> mapNextTx pool !! o = None) /\ m !! CTransaction_GetHash tx = None /\
    forall i, i ∈ vin tx -> available (pool_view pool m) (prevout i) = true.
Proof.
  intros Hmax Hzc Hz Hi Hc E. unfold AcceptToMemoryPool in E. rewrite Hz in E.
  destruct (check_loose pool tx) as [[]|] eqn:El; cbn [res_bind] in E; [|done]. destruct (check_loose_ok _ _ Hmax Hzc Hz El) as (Hcb & Hnd & Hfr & Hnx).
  destruct (find_inputs tx _) as [r v1] eqn:Ef. destruct r as [n|]; cbn [res_bind] in E; [|done].
  destruct (find_inputs_ok pool m tx _ _ _ (through_pool_new pool m tip Hi Hc) Hcb Hz Ef) as [Hnone Hav].
  destruct (check_with_inputs _ _ _ _ _ _ _) as [[e|] v2] eqn:Ew; cbn [fst res_bind] in E; [|done]. injection E as <-.
  exists e. split_and!; try done; [by eapply check_with_inputs_entry|]. by rewrite lookup_pool_view, Hfr in Hnone.
Qed.

(** While zerocoins are under maintenance no transaction that spends them is accepted. *)
Lemma accepted_plain pool tip tx fl fr ig pool' : AcceptToMemoryPool pool (tip : B) tx fl fr ig = Ok pool' ->
  spork_zerocoin_maintenance = true -> HasZerocoinSpendInputs tx = false.
Proof.
  intros E Hs. unfold AcceptToMemoryPool in E. destruct (check_loose pool tx) as [[]|] eqn:El; cbn [res_bind] in E; [|done].
  unfold check_loose in El. rewrite Hs in El. cbn [andb] in El. unfold ContainsZerocoins in El. by destruct (HasZerocoinSpendInputs tx).
Qed.

Lemma supported_add pool m e : supported m pool -> pool_ok pool -> mapTx pool !! CTransaction_GetHash (me_tx e) = None ->
  m !! CTransaction_GetHash (me_tx e) = None -> (forall i, i ∈ vin (me_tx e) -> available (pool_view pool m) (prevout i) = true) ->
  supported m (addUnchecked pool (CTransaction_GetHash (me_tx e)) e).
Proof.
  intros Hs Hok Hfr Hnone Hav h x i Hx Hi.
  assert (Hold : available (pool_view pool m) (prevout i) = true).
  { simpl in Hx. apply lookup_insert_Some in Hx as [[_ <-]|[_ Hx]]; [by apply Hav|by eapply Hs]. }
  unfold available in *. rewrite lookup_pool_view in *. cbn [mapTx addUnchecked].
  destruct (decide (op_hash (prevout i) = CTransaction_GetHash (me_tx e))) as [Eh|Eh].
  - by rewrite Eh, Hfr, Hnone in Hold.
  - by rewrite lookup_insert_ne.
Qed.
End Accepted.

(** ** Removal keeps support *)

Section Removal.
Context `{double_ops}.

Lemma supported_removes pool taken pool' r m : supported m pool -> removes pool taken pool' r -> pool_ok pool ->
  (forall x y, taken x -> child pool x y -> taken y) -> supported m pool'.
Proof.
  intros Hs Hres Hok Hcl h e i He Hi. pose proof Hres as (_ & _ & Hm & _). apply Hm in He as [He Hn]. pose proof (Hs _ _ _ He Hi) as Hav.
  unfold available in *. rewrite lookup_pool_view in *. destruct (mapTx pool !! op_hash (prevout i)) as [ea|] eqn:Ea.
  - rewrite (proj2 (Hm _ ea)); [done|]. split; [done|]. intros Ht. apply Hn. eapply Hcl; [done|]. exists ea, e, i. pose proof (supported_range _ _ _ _ _ _ Hs He Hi Ea). split_and!; done || lia.
  - destruct (mapTx pool' !! op_hash (prevout i)) as [x|] eqn:Ex; [|done]. apply Hm in Ex as [Ex _]. congruence.
Qed.

Lemma doomed_closed pool tx x y : doomed pool tx x -> child pool x y -> doomed pool tx y.
Proof.
  intros [(a & Ha & Hr)|(Hn & a & k & p & Hk & Hp & He & Hr)] Hc; [left; exists a; split; [done|by eapply rtc_r]|right].
  split; [done|]. exists a, k, p. split_and!; try done; try lia. by eapply rtc_r.
Qed.

Lemma remove_supported pool tx pool' r m : pool_ok pool -> supported m pool -> remove pool tx true = Some (pool', r) -> pool_ok pool' /\ supported m pool'.
Proof.
  intros Hok Hs E. destruct (remove_recursive pool tx Hok) as (p & r' & E' & Hres). simplify_eq. split; [apply Hres|].
  eapply supported_removes; [done|done|done|]. intros x y. apply doomed_closed.
Qed.

Lemma remove_all_supported l m : forall pool pool', pool_ok pool -> supported m pool -> remove_all pool l = Some pool' -> pool_ok pool' /\ supported m pool'.
Proof.
  induction l as [|tx l IH]; intros pool pool' Hok Hs E; cbn [remove_all] in E; [by simplify_eq|].
  destruct (remove pool tx true) as [[p r]|] eqn:Er; [|done]. cbn [mbind option_bind] in E.
  destruct (remove_supported _ _ _ _ _ Hok Hs Er). by eapply IH.
Qed.
End Removal.

(** ** The pool over time *)

Section Steps.
Context {D : double_ops} {ev : validation_env}.

Lemma supported_block b h l : forall m uss m' ins outs fees pool, 0 < h < 2 ^ 31 -> utxo_wf m -> Forall plain_tx l ->
  txs_connected b h m l uss m' ins outs fees -> pool_ok pool -> supported m pool ->
  (forall tx e, tx ∈ l -> mapTx pool !! CTransaction_GetHash tx = Some e -> me_tx e = tx) ->
  exists pool' conflicts, removeForBlock pool l = Some (pool', conflicts) /\ pool_ok pool' /\ utxo_wf m' /\ supported m' pool'.
Proof.
  induction l as [|tx l IH]; intros m uss m' ins outs fees pool Hh Hwf Hpl Hc Hok Hs Hsame; inversion Hc; subst; [by exists pool, []|].
  apply Forall_cons_1 in Hpl as [[Hz Hrange] Hpl]. cbn [removeForBlock].
  destruct (block_step pool tx Hok) as (pool1 & r1 & pool2 & r2 & -> & Hr1 & E2 & Hr2 & Hok3). cbn [mbind option_bind]. rewrite E2. cbn [mbind option_bind].
  match goal with Ht : tx_connected _ _ _ _ _ _ _ _ |- _ => pose proof (tx_connected_wf _ _ _ _ _ _ _ _ Hh Hwf Ht) as Hwf1; destruct Ht as [Hnew _ _ Hup] end.
  assert (Hs2 : supported m1 pool2).
  { assert (Hn : IsCoinBase tx = false -> Forall (fun i => 0 <= op_n (prevout i)) (vin tx)).
    { intros Hcb. eapply Forall_impl; [by apply Hrange|]. simpl. lia. }
    assert (Hst : forall e, mapTx pool !! CTransaction_GetHash tx = Some e -> me_tx e = tx) by (intros e; apply Hsame, elem_of_cons; by left).
    exact (supported_step m tx h us m1 pool pool1 r1 pool2 r2 Hwf Hok Hs Hn Hnew Hup Hst Hr1 Hr2). }
  match goal with Ht : txs_connected _ _ m1 _ _ _ _ _ _ |- _ =>
    destruct (IH _ _ _ _ _ _ (ClearPrioritisation pool2 (CTransaction_GetHash tx)) Hh Hwf1 Hpl Ht Hok3) as (pool' & cs & -> & Hok' & Hwf' & Hs') end.
  - by apply (supported_same _ pool2).
  - intros t e Ht He. apply (Hsame t e); [apply elem_of_cons; by right|]. simpl in He. by destruct (block_step_left _ _ _ _ _ _ _ _ Hok Hr1 Hr2 He) as [? _].
  - cbn [mbind option_bind]. eexists _, _. split; [done|]. done.
Qed.

End Steps.

(** The environment [E] with the pool's type of priorities. *)
Definition with_doubles (D : double_ops) (E : accept_env) : accept_env := {|
  a_double := D; a_validation := @a_validation E;
  spork_zerocoin_maintenance := @spork_zerocoin_maintenance E; spork_coldstaking := @spork_coldstaking E; regtest := @regtest E;
  chain_height := @chain_height E; median_time_past := @median_time_past E; adjusted_time := @adjusted_time E; now := @now E;
  CheckZerocoinSpend := @CheckZerocoinSpend E; zerocoin_inputs_check := @zerocoin_inputs_check E; locked_input := @locked_input E;
  minRelayTxFee := @minRelayTxFee E; datacarrier := @datacarrier E; nMaxDatacarrierBytes := @nMaxDatacarrierBytes E;
  fIsBareMultisigStd := @fIsBareMultisigStd E; relaypriority := @relaypriority E; allow_free := @allow_free E; rate_limited := @rate_limited E |}.

(** The limits of the consensus parameters in use. *)
Definition limits_ok (ev : validation_env) : Prop :=
  0 <= nMaxMoneyOut consensus_params < 2 ^ 62 /\ 0 <= ZC_MaxSpendsPerTx consensus_params.

(** Zerocoins are under maintenance, or the transaction spends none. *)
Definition spends_no_zerocoin (E : accept_env) (tx : CTransaction) : Prop :=
  spork_zerocoin_maintenance = true \/ HasZerocoinSpendInputs tx = false.

Section PoolSteps.
Context {D : double_ops} {B : Type} `{CCoinsViewLaws B} {V : Type} `{CCoinsViewLaws V}.

(** What changes the coins of the tip or the pool: a transaction is accepted or removed
    with its descendants, immature spends are dropped after a reorganization, a block is
    connected, priorities are set, the pool is cleared. The height, the clock, the sporks,
    the fees and all else that the environment holds may differ from step to step. *)
Inductive pool_step : utxo_map * CTxMemPool -> utxo_map * CTxMemPool -> Prop :=
| step_accept E m pool (tip : B) tx fl fr ig pool' : limits_ok (@a_validation E) -> spends_no_zerocoin E tx -> view_inv tip -> contents tip = m ->
    AcceptToMemoryPool (H := with_doubles D E) pool tip tx fl fr ig = Ok pool' -> pool_step (m, pool) (m, pool')
| step_remove m pool tx pool' removed : remove pool tx true = Some (pool', removed) -> pool_step (m, pool) (m, pool')
| step_immature m pool fSanityCheck height maturity pool' :
    removeCoinbaseSpends fSanityCheck pool (fun t => m !! t) height maturity = Some pool' -> pool_step (m, pool) (m, pool')
| step_block (ev : validation_env) m pool (v v1 : CCoinsViewCache V) b block pindex h fAlreadyChecked supply supply1 undo cb l pool' conflicts :
    limits_ok ev -> placed pindex h -> vtx block = cb :: l -> Forall plain_tx (cb :: l) -> holds v m b ->
    ConnectBlock block pindex false fAlreadyChecked supply v = (Ok (supply1, Some undo), v1) ->
    (forall tx e, tx ∈ vtx block -> mapTx pool !! CTransaction_GetHash tx = Some e -> me_tx e = tx) ->
    removeForBlock pool (vtx block) = Some (pool', conflicts) -> pool_step (m, pool) (cache_contents v1, pool')
| step_prioritise m pool hash dp nf : pool_step (m, pool) (m, PrioritiseTransaction pool hash dp nf)
| step_clear m pool : pool_step (m, pool) (m, mempool_clear pool).

Definition pool_inv (s : utxo_map * CTxMemPool) : Prop := utxo_wf s.1 /\ pool_ok s.2 /\ supported s.1 s.2.

Lemma pool_inv_accept (E : accept_env) m pool (tip : B) tx fl fr ig pool' : limits_ok (@a_validation E) -> spends_no_zerocoin E tx ->
  view_inv tip -> contents tip = m -> AcceptToMemoryPool (H := with_doubles D E) pool tip tx fl fr ig = Ok pool' ->
  pool_inv (m, pool) -> pool_inv (m, pool').
Proof.
  intros [Hmax Hzc] Hz Hvi Hct Hacc (Hwf & Hok & Hs). cbn [fst snd] in *.
  assert (Hz' : HasZerocoinSpendInputs tx = false).
  { destruct Hz as [Hz|Hz]; [|done]. exact (accepted_plain (H := with_doubles D E) _ _ _ _ _ _ _ Hacc Hz). }
  destruct (AcceptToMemoryPool_inv (H := with_doubles D E) _ _ _ _ _ _ _ _ Hmax Hzc Hz' Hvi Hct Hacc) as (e & <- & -> & Hnd & Hfr & Hnx & Hnone & Hav).
  split_and!; [done|by apply pool_ok_add|exact (supported_add (H := with_doubles D E) _ _ _ Hs Hok Hfr Hnone Hav)].
Qed.

Lemma pool_step_inv s s' : pool_inv s -> pool_step s s' -> pool_inv s'.
Proof.
  intros Hinv Hst. pose proof Hinv as (Hwf & Hok & Hs).
  destruct Hst as [E m pool tip tx fl fr ig pool' Hl Hz Hvi Hct Hacc|m pool tx pool' removed Hr|m pool sanity height maturity pool' Hr|
    ev m pool v v1 b block pindex h ac supply supply1 undo cb l pool' cs [Hmax _] Hpl Hvtx Hplain Hv Hcon Hsame Hr| |]; cbn [fst snd] in *.
  - by eapply pool_inv_accept.
  - split; [done|]. by eapply remove_supported.
  - split; [done|]. unfold removeCoinbaseSpends in Hr. destruct (premature_txs _ _ _ _ _ _) as [l|]; [|done]. by eapply remove_all_supported.
  - destruct (ConnectBlock_inv Hmax _ _ _ _ _ _ _ _ _ _ _ _ _ Hpl Hvtx Hplain Hv Hcon) as (_ & us & m' & ins & outs & fees & s & Hc & Hv1 & _).
    destruct Hv1 as (_ & Hm' & _). rewrite Hvtx in *.
    destruct (supported_block _ _ _ _ _ _ _ _ _ pool (pl_range _ _ Hpl) Hwf Hplain Hc Hok Hs Hsame) as (p & c & Hr' & ?).
    simplify_eq. split; tauto.
  - split_and!; [done|by apply (pool_ok_same pool)|by apply (supported_same _ pool)].
  - split_and!; [done|apply pool_ok_clear|]. intros h e i He. simpl in He. by rewrite lookup_empty in He.
Qed.
End PoolSteps.

(** ** Theorems *)

(** C14: In every state that accepting and removing transactions, connecting blocks,
    dropping immature spends and clearing lead to, while the height of the chain, the
    clock, the sporks and the settings change in any way, the maps of the pool agree (an
    entry is under its hash, [mapNextTx] has exactly the inputs of the entries and points
    at them, the total size is right), no two entries spend the same output, and every
    input of an entry is an output of another entry or an available coin of the tip. The
    transactions of the blocks have no zerocoins, and no transaction that spends zerocoins
    is handed to the pool except under the maintenance of zerocoins (when it is refused). *)
Theorem mempool_invariant {D : double_ops} {B : Type} `{CCoinsViewLaws B} {V : Type} `{CCoinsViewLaws V} m0 m pool :
  utxo_wf m0 -> rtc (pool_step (B := B) (V := V)) (m0, CTxMemPool_new) (m, pool) ->
  pool_ok pool /\ supported m pool /\
  forall h1 h2 e1 e2 o, mapTx pool !! h1 = Some e1 -> mapTx pool !! h2 = Some e2 -> o ∈ prevouts (me_tx e1) -> o ∈ prevouts (me_tx e2) -> h1 = h2.
Proof.
  intros Hwf Hr. assert (Hinv : pool_inv (m, pool)).
  { eapply (rtc_ind_r (fun s => pool_inv s)); [| |exact Hr].
    - split_and!; [done|apply pool_ok_new|]. intros h e i He. simpl in He. by rewrite lookup_empty in He.
    - intros s s' _ Hst Hs. exact (pool_step_inv s s' Hs Hst). }
  destruct Hinv as (_ & Hok & Hs). split_and!; [done|done|].
  intros h1 h2 e1 e2 o H1' H2' Ho1 Ho2. apply elem_of_prevouts in Ho1 as (k1 & i1 & Hk1 & <-), Ho2 as (k2 & i2 & Hk2 & Ho).
  pose proof (pk_marked _ Hok _ _ _ _ H1' Hk1) as E1. pose proof (pk_marked _ Hok _ _ _ _ H2' Hk2) as E2. rewrite Ho in E2. congruence.
Qed.

(** C24: Removing a transaction recursively from a consistent pool never follows a dangling
    pointer and ends; it takes exactly the transaction and everything in the pool that
    descends from it or from an output of it, and lists what it took. *)
Theorem remove_takes_descendants `{double_ops} pool tx : pool_ok pool ->
  exists pool' removed, remove pool tx true = Some (pool', removed) /\ pool_ok pool' /\
    (forall h e, mapTx pool' !! h = Some e <-> mapTx pool !! h = Some e /\ ~ doomed pool tx h) /\
    (forall t, t ∈ removed <-> exists h e, mapTx pool !! h = Some e /\ doomed pool tx h /\ t = me_tx e).
Proof.
  intros Hok. destruct (remove_recursive pool tx Hok) as (pool' & removed & E & Hok' & _ & Hm & Hr). exists pool', removed. done.
Qed.

(** Removing the transactions of a block from a consistent pool succeeds; afterwards no
    transaction of the block is in the pool and no entry spends what the block spent, and
    only those and descendants of entries that spent the same outputs have left. *)
Theorem removeForBlock_clears `{double_ops} pool vtx : pool_ok pool ->
  exists pool' conflicts, removeForBlock pool vtx = Some (pool', conflicts) /\ pool_ok pool' /\
    (forall h e, mapTx pool' !! h = Some e -> mapTx pool !! h = Some e /\
       forall tx, tx ∈ vtx -> h <> CTransaction_GetHash tx /\ forall i, i ∈ vin tx -> prevout i ∉ prevouts (me_tx e)) /\
    (forall h e, mapTx pool !! h = Some e -> mapTx pool' !! h = None ->
       exists tx, tx ∈ vtx /\ (h = CTransaction_GetHash tx \/ displaced pool tx h)).
Proof.
  intros Hok. destruct (removeForBlock_run vtx pool Hok) as (pool' & conflicts & E & Hok' & Hpart & Hleft & Hgone).
  exists pool', conflicts. split_and!; try done. intros h e He. split; [by apply (po_tx _ _ Hpart)|by eapply Hleft].
Qed.

(** ** Witnesses *)

#[local] Instance sample_doubles : double_ops := {| double := Z; dzero := 0; dadd := Z.add; dpositive := Z.ltb 0 |}.

(** A node on the regression test network. *)
#[local] Instance sample_accept : accept_env := {|
  a_double := sample_doubles; a_validation := sample_env;
  spork_zerocoin_maintenance := true; spork_coldstaking := true; regtest := true;
  chain_height := 149; median_time_past := 0; adjusted_time := 0; now := 0;
  CheckZerocoinSpend := fun _ => false; zerocoin_inputs_check := fun _ => Err AssertFail; locked_input := fun _ => None;
  minRelayTxFee := mkCFeeRate 0; datacarrier := true; nMaxDatacarrierBytes := 83; fIsBareMultisigStd := true;
  relaypriority := false; allow_free := fun _ => true; rate_limited := fun _ => false |}.

Definition sample_tip : CCoinsViewDB := {| db_coins := {[ [7] := sample_coins ]}; db_best := Some [9] |}.

Lemma sample_tip_wf : utxo_wf (contents sample_tip).
Proof. apply map_Forall_singleton. vm_compute. split_and!; try done; repeat constructor; done. Qed.

(** A payment and a transaction that spends it. *)
Definition sample_child : CTransaction :=
  {| nVersion := 1; vin := [{| prevout := {| op_hash := hash_spend; op_n := 0 |}; scriptSig := []; nSequence := 0 |}]; vout := [sample_out 10]; nLockTime := 0 |}.
(** The same node three blocks and some minutes later. *)
Definition later : accept_env := {|
  a_double := sample_doubles; a_validation := sample_env;
  spork_zerocoin_maintenance := false; spork_coldstaking := false; regtest := true;
  chain_height := 152; median_time_past := 300; adjusted_time := 600; now := 600;
  CheckZerocoinSpend := fun _ => false; zerocoin_inputs_check := fun _ => Err AssertFail; locked_input := fun _ => None;
  minRelayTxFee := mkCFeeRate 0; datacarrier := true; nMaxDatacarrierBytes := 83; fIsBareMultisigStd := true;
  relaypriority := false; allow_free := fun _ => true; rate_limited := fun _ => false |}.

Lemma mempool_invariant_witness : exists pool,
  rtc (pool_step (B := CCoinsViewDB) (V := CCoinsViewDB)) (contents sample_tip, CTxMemPool_new) (contents sample_tip, pool) /\
  is_Some (mapTx pool !! CTransaction_GetHash sample_child) /\ pool_ok pool.
Proof.
  assert (Hin : view_inv sample_tip) by (apply map_Forall_singleton; reflexivity).
  assert (Hl : limits_ok sample_env) by (split; [vm_compute; split; congruence|vm_compute; congruence]).
  assert (Hc : match AcceptToMemoryPool (H := sample_accept) CTxMemPool_new sample_tip sample_spend true false false with
    | Ok p0 => match AcceptToMemoryPool (H := later) p0 sample_tip sample_child true false false with
               | Ok p => bool_decide (is_Some (mapTx p !! CTransaction_GetHash sample_child)) | Err _ => false end
    | Err _ => false end = true) by (vm_compute; reflexivity).
  destruct (AcceptToMemoryPool (H := sample_accept) CTxMemPool_new sample_tip sample_spend true false false) as [pool|] eqn:E; [|discriminate Hc].
  destruct (AcceptToMemoryPool (H := later) pool sample_tip sample_child true false false) as [pool'|] eqn:E'; [|discriminate Hc].
  assert (Hr : rtc (pool_step (B := CCoinsViewDB) (V := CCoinsViewDB)) (contents sample_tip, CTxMemPool_new) (contents sample_tip, pool')).
  { eapply rtc_l; [|apply rtc_once].
    - exact (step_accept sample_accept (contents sample_tip) CTxMemPool_new sample_tip sample_spend true false false pool Hl (or_introl eq_refl) Hin eq_refl E).
    - exact (step_accept later (contents sample_tip) pool sample_tip sample_child true false false pool' Hl (or_intror eq_refl) Hin eq_refl E'). }
  exists pool'. split; [exact Hr|]. split; [by apply bool_decide_eq_true in Hc|].
  apply (mempool_invariant (contents sample_tip) (contents sample_tip) pool'); [exact sample_tip_wf|exact Hr].
Defined.

Definition pool_entry (tx : CTransaction) : CTxMemPoolEntry := CTxMemPoolEntry_new tx 1 0 0 149.
Definition sample_pool : CTxMemPool :=
  addUnchecked (addUnchecked CTxMemPool_new hash_spend (pool_entry sample_spend)) (CTransaction_GetHash sample_child) (pool_entry sample_child).

Lemma sample_child_hash : CTransaction_GetHash sample_child <> hash_spend.
Proof. vm_compute. discriminate. Qed.

Lemma sample_pool_ok : pool_ok sample_pool.
Proof.
  apply pool_ok_add; [apply pool_ok_add; [apply pool_ok_new|done|exact spend_hash|reflexivity| |]|
    cbn [mapTx addUnchecked]; rewrite lookup_insert_ne by (symmetry; exact sample_child_hash); done|reflexivity|reflexivity| |].
  - apply NoDup_cons. split; [|apply NoDup_singleton]. intros Hin. apply list_elem_of_singleton in Hin. discriminate Hin.
  - intros o _. apply lookup_empty.
  - apply NoDup_singleton.
  - intros o Ho. apply list_elem_of_singleton in Ho as ->. reflexivity.
Qed.

Lemma sample_child_of : child sample_pool hash_spend (CTransaction_GetHash sample_child).
Proof.
  exists (pool_entry sample_spend), (pool_entry sample_child), {| prevout := {| op_hash := hash_spend; op_n := 0 |}; scriptSig := []; nSequence := 0 |}.
  unfold sample_pool. cbn [mapTx addUnchecked]. rewrite lookup_insert_eq, lookup_insert_ne, lookup_insert_eq by exact sample_child_hash.
  split_and!; try done. apply list_elem_of_singleton. done.
Qed.

Lemma remove_takes_descendants_witness : exists pool' removed,
  remove sample_pool sample_spend true = Some (pool', removed) /\ pool_ok pool' /\ sample_child ∈ removed.
Proof.
  destruct (remove_takes_descendants sample_pool sample_spend sample_pool_ok) as (pool' & removed & E & Hok & _ & Hr).
  exists pool', removed. split; [exact E|]. split; [exact Hok|]. apply Hr. exists (CTransaction_GetHash sample_child), (pool_entry sample_child).
  split; [unfold sample_pool; cbn [mapTx addUnchecked]; apply lookup_insert_eq|]. split; [|reflexivity]. left. exists hash_spend.
  split; [apply list_elem_of_singleton; symmetry; exact spend_hash|apply rtc_once; exact sample_child_of].
Defined.

Lemma removeForBlock_clears_witness : exists pool' conflicts,
  removeForBlock sample_pool [sample_spend] = Some (pool', conflicts) /\ pool_ok pool' /\ mapTx pool' !! hash_spend = None.
Proof.
  destruct (removeForBlock_clears sample_pool [sample_spend] sample_pool_ok) as (pool' & conflicts & E & Hok & Hleft & _).
  exists pool', conflicts. split; [exact E|]. split; [exact Hok|]. destruct (mapTx pool' !! hash_spend) as [e|] eqn:Ee; [|reflexivity].
  destruct (Hleft _ _ Ee) as [_ Hn]. destruct (Hn sample_spend) as [Hne _]; [apply list_elem_of_singleton; reflexivity|].
  destruct Hne. symmetry. exact spend_hash.
Defined.
