(* ===== verification/OrphanFacts.v ===== *)
(** Orphan transactions: the two maps agree, their size is bounded, and the handler of the
    [tx] message tries every orphan whose parent it accepts and ends. *)

From Stdlib Require Import ZArith Lia String.
From stdpp Require Import base tactics list numbers option gmap fin_maps fin_sets relations strings sorting.
From S2P Require Import Prelude CString Amount ChainParams Script Standard Serialize Block Interpreter Transaction Coins CoinsView TxVerify.
From S2P Require Import Mempool MempoolFacts Connect AcceptTx Orphans ConnectFacts Reorg MempoolChain.

#[local] Opaque CTransaction_GetHash.

(** ** The two maps *)

Definition prev_hashes (tx : CTransaction) : list bytes := map (fun i => op_hash (prevout i)) (vin tx).

Record orphans_ok (o : orphan_maps) : Prop := {
  oo_hash : forall h x, mapOrphanTransactions o !! h = Some x -> CTransaction_GetHash (or_tx x) = h;
  oo_prev : forall p h, (exists s, mapOrphanTransactionsByPrev o !! p = Some s /\ h ∈ s) <->
                        (exists x, mapOrphanTransactions o !! h = Some x /\ p ∈ prev_hashes (or_tx x));
  oo_nonempty : forall p s, mapOrphanTransactionsByPrev o !! p = Some s -> s <> ∅;
  oo_small : forall h x, mapOrphanTransactions o !! h = Some x -> zlen (Serialize_CTransaction (or_tx x)) <= 5000;
  oo_plain : forall h x, mapOrphanTransactions o !! h = Some x -> HasZerocoinSpendInputs (or_tx x) = false }.

Lemma orphans_ok_none : orphans_ok no_orphans.
Proof.
  constructor; simpl; intros *; rewrite ?lookup_empty; try done. split; intros (? & E & _); discriminate E.
Qed.

Lemma mark_prev_lookup hash ins : forall m p, mark_prev hash m ins !! p =
  if decide (p ∈ map (fun i => op_hash (prevout i)) ins) then Some ({[hash]} ∪ default ∅ (m !! p)) else m !! p.
Proof.
  unfold mark_prev. induction ins as [|i ins IH]; intros m p; [done|]. cbn [foldl map]. rewrite IH.
  destruct (decide (p = op_hash (prevout i))) as [->|Hne].
  - rewrite lookup_insert_eq. rewrite (decide_True (P := op_hash (prevout i) ∈ _ :: _)) by (apply elem_of_cons; by left).
    destruct (decide _); [|done]. simpl. f_equal. set_solver.
  - rewrite lookup_insert_ne by done. destruct (decide (p ∈ map _ ins)) as [Hin|Hin].
    + rewrite decide_True by (apply elem_of_cons; by right). done.
    + rewrite decide_False by (rewrite elem_of_cons; intros [?|?]; done). done.
Qed.

(** An entry of the second map after an erasure. *)
Definition without (hash : bytes) (e : option (gset bytes)) : option (gset bytes) :=
  e ≫= fun s => if bool_decide (s ∖ {[hash]} = ∅) then None else Some (s ∖ {[hash]}).

Lemma without_twice hash e : without hash (without hash e) = without hash e.
Proof.
  unfold without. destruct e as [s|]; [|done]. simpl. case_bool_decide as E; [done|]. simpl.
  replace (s ∖ {[hash]} ∖ {[hash]}) with (s ∖ {[hash]}) by set_solver. by rewrite bool_decide_eq_false_2.
Qed.

Lemma unmark_prev_lookup hash ins : forall m p, unmark_prev hash m ins !! p =
  if decide (p ∈ map (fun i => op_hash (prevout i)) ins) then without hash (m !! p) else m !! p.
Proof.
  unfold unmark_prev. induction ins as [|i ins IH]; intros m p; [done|]. cbn [foldl map]. rewrite IH. clear IH.
  set (m1 := match m !! op_hash (prevout i) with None => m | Some s => _ end).
  assert (Hm1 : m1 !! p = if decide (p = op_hash (prevout i)) then without hash (m !! p) else m !! p).
  { unfold m1, without. destruct (decide (p = op_hash (prevout i))) as [->|Hne].
    - destruct (m !! op_hash (prevout i)) as [s|] eqn:E; [|by rewrite E]. simpl. case_bool_decide; [apply lookup_delete_eq|apply lookup_insert_eq].
    - destruct (m !! op_hash (prevout i)) as [s|]; [|done]. case_bool_decide; [by rewrite lookup_delete_ne|by rewrite lookup_insert_ne]. }
  rewrite Hm1. destruct (decide (p = op_hash (prevout i))) as [->|Hne].
  - rewrite (decide_True (P := op_hash (prevout i) ∈ _ :: _)) by (apply elem_of_cons; by left). destruct (decide _); [apply without_twice|done].
  - destruct (decide (p ∈ map _ ins)) as [Hin|Hin].
    + rewrite decide_True by (apply elem_of_cons; by right). done.
    + rewrite decide_False by (rewrite elem_of_cons; intros [?|?]; done). done.
Qed.

Lemma elem_of_without hash e h : (exists s, without hash e = Some s /\ h ∈ s) <-> (exists s, e = Some s /\ h ∈ s) /\ h <> hash.
Proof.
  unfold without. destruct e as [s|]; simpl; [|by split; [intros (? & ? & _)|intros [(? & ? & _) _]]]. split.
  - intros (s' & E & Hh). case_bool_decide; [done|]. simplify_eq. split; [exists s; split; [done|]; set_solver|set_solver].
  - intros [(s' & [= <-] & Hh) Hne]. case_bool_decide as E; [set_solver|]. eexists. split; [done|]. set_solver.
Qed.

Lemma AddOrphanTx_ok o tx peer : HasZerocoinSpendInputs tx = false -> orphans_ok o -> orphans_ok (fst (AddOrphanTx o tx peer)).
Proof.
  intros Hpl Hok. unfold AddOrphanTx. case_bool_decide as Hn; [done|]. destruct (Z.ltb_spec 5000 (zlen (Serialize_CTransaction tx))) as [|Hsz]; [done|].
  destruct Hok as [Hh Hp Hne Hsm Hz]. apply eq_None_not_Some in Hn. constructor; simpl.
  - intros h x Hx. apply lookup_insert_Some in Hx as [[<- <-]|[_ Hx]]; [done|by apply Hh].
  - intros p h. rewrite mark_prev_lookup. fold (prev_hashes tx). destruct (decide (h = CTransaction_GetHash tx)) as [->|Hhne].
    + assert (Hno : forall p, ~ exists s, mapOrphanTransactionsByPrev o !! p = Some s /\ CTransaction_GetHash tx ∈ s).
      { intros q Hq. apply Hp in Hq as (x & Hx & _). congruence. }
      split.
      * intros (s & Hs & Hin). destruct (decide (p ∈ prev_hashes tx)) as [Hd|Hd]; [|destruct (Hno p); by exists s].
        eexists. split; [apply lookup_insert_eq|done].
      * intros (x & Hx & Hin). rewrite lookup_insert_eq in Hx. simplify_eq/=. rewrite decide_True by done. eexists. split; [done|]. set_solver.
    + rewrite lookup_insert_ne by done. rewrite <- Hp. destruct (decide (p ∈ prev_hashes tx)) as [Hd|Hd]; [|done]. split.
      * intros (s & [= <-] & Hin). destruct (mapOrphanTransactionsByPrev o !! p) as [s|]; simpl in *; [exists s; split; [done|]; set_solver|set_solver].
      * intros (s & -> & Hin). eexists. split; [done|]. simpl. set_solver.
  - intros p s Hs. rewrite mark_prev_lookup in Hs. destruct (decide _); [|by apply (Hne p)]. simplify_eq. set_solver.
  - intros h x Hx. apply lookup_insert_Some in Hx as [[<- <-]|[_ Hx]]; [done|by apply (Hsm h)].
  - intros h x Hx. apply lookup_insert_Some in Hx as [[<- <-]|[_ Hx]]; [done|by apply (Hz h)].
Qed.

Lemma EraseOrphanTx_ok o hash : orphans_ok o -> orphans_ok (EraseOrphanTx o hash).
Proof.
  intros Hok. unfold EraseOrphanTx. destruct (mapOrphanTransactions o !! hash) as [x|] eqn:Ex; [|done].
  destruct Hok as [Hh Hp Hne Hsm Hz]. constructor; simpl.
  - intros h y Hy. apply lookup_delete_Some in Hy as [_ Hy]. by apply Hh.
  - intros p h. rewrite unmark_prev_lookup. fold (prev_hashes (or_tx x)). destruct (decide (p ∈ prev_hashes (or_tx x))) as [Hd|Hd].
    + rewrite elem_of_without, Hp. split.
      * intros [(y & Hy & Hin) Hhn]. exists y. rewrite lookup_delete_ne by done. done.
      * intros (y & Hy & Hin). apply lookup_delete_Some in Hy as [Hhn Hy]. split; [by exists y|done].
    + rewrite Hp. split.
      * intros (y & Hy & Hin). exists y. rewrite lookup_delete_ne; [done|]. intros <-. simplify_eq. done.
      * intros (y & Hy & Hin). apply lookup_delete_Some in Hy as [_ Hy]. by exists y.
  - intros p s Hs. rewrite unmark_prev_lookup in Hs. destruct (decide _); [|by apply (Hne p)].
    unfold without in Hs. destruct (mapOrphanTransactionsByPrev o !! p); [|done]. simpl in Hs. by case_bool_decide; simplify_eq.
  - intros h y Hy. apply lookup_delete_Some in Hy as [_ Hy]. by apply (Hsm h).
  - intros h y Hy. apply lookup_delete_Some in Hy as [_ Hy]. by apply (Hz h).
Qed.

Lemma erase_list_ok l : forall o, orphans_ok o -> orphans_ok (foldl EraseOrphanTx o l).
Proof. induction l as [|h l IH]; intros o Hok; [done|]. apply IH. by apply EraseOrphanTx_ok. Qed.

Lemma EraseOrphanTx_map o h : mapOrphanTransactions (EraseOrphanTx o h) = delete h (mapOrphanTransactions o).
Proof. unfold EraseOrphanTx. destruct (mapOrphanTransactions o !! h) eqn:E; [done|]. by rewrite delete_id. Qed.

Lemma erase_list_lookup l : forall o h x, mapOrphanTransactions (foldl EraseOrphanTx o l) !! h = Some x -> mapOrphanTransactions o !! h = Some x /\ h ∉ l.
Proof.
  induction l as [|k l IH]; intros o h x E; cbn [foldl] in E; [split; [done|apply not_elem_of_nil]|].
  apply IH in E as [E Hn]. rewrite EraseOrphanTx_map in E. apply lookup_delete_Some in E as [Hne E]. split; [done|]. by apply not_elem_of_cons.
Qed.

Lemma erase_list_size l : forall o, (size (mapOrphanTransactions (foldl EraseOrphanTx o l)) <= size (mapOrphanTransactions o))%nat.
Proof.
  induction l as [|h l IH]; intros o; [done|]. cbn [foldl]. etrans; [apply IH|]. rewrite EraseOrphanTx_map.
  apply map_subseteq_size, delete_subseteq.
Qed.

Lemma EraseOrphansFor_ok o peer : orphans_ok o -> orphans_ok (EraseOrphansFor o peer).
Proof.
  intros Hok. unfold EraseOrphansFor. generalize (map_to_list (mapOrphanTransactions o)). intros l. revert o Hok.
  induction l as [|[h x] l IH]; intros o Hok; [done|]. cbn [foldl]. apply IH. destruct (_ =? _); [by apply EraseOrphanTx_ok|done].
Qed.

(** ** The bound *)

Lemma evicted_in o r : mapOrphanTransactions o <> ∅ -> exists k, evicted o r = Some k /\ is_Some (mapOrphanTransactions o !! k).
Proof.
  intros Hne. unfold evicted. set (keys := merge_sort hash_le (map_to_list (mapOrphanTransactions o)).*1).
  assert (Hp : keys ≡ₚ (map_to_list (mapOrphanTransactions o)).*1) by apply merge_sort_Permutation.
  assert (Hin : forall k, k ∈ keys -> is_Some (mapOrphanTransactions o !! k)).
  { intros k Hk. rewrite Hp in Hk. apply list_elem_of_fmap in Hk as ([k' x] & -> & Hk). apply elem_of_map_to_list in Hk. by exists x. }
  destruct (List.find _ keys) as [k|] eqn:Ef.
  - apply List.find_some in Ef as [Ek _]. exists k. split; [done|]. apply Hin. by apply list_elem_of_In.
  - destruct keys as [|k l]; [|exists k; split; [done|apply Hin, elem_of_cons; by left]].
    destruct Hne. apply Permutation_nil_l in Hp. symmetry in Hp. apply fmap_nil_inv in Hp. by apply map_to_list_empty_iff.
Qed.

Lemma limit_loop_ok fuel : forall o nMax rand n, 0 <= nMax -> (size (mapOrphanTransactions o) <= fuel)%nat -> orphans_ok o ->
  let o' := fst (limit_loop fuel o nMax rand n) in
  orphans_ok o' /\ Z.of_nat (size (mapOrphanTransactions o')) <= nMax /\ mapOrphanTransactions o' ⊆ mapOrphanTransactions o.
Proof.
  induction fuel as [|fuel IH]; intros o nMax rand n Hmax Hsz Hok; cbn [limit_loop]; [split_and!; [done|simpl; lia|done]|].
  destruct (Z.ltb_spec nMax (Z.of_nat (size (mapOrphanTransactions o)))) as [Hlt|Hge]; [|done].
  destruct (evicted_in o (rand n)) as (k & -> & Hk); [intros E; rewrite E, map_size_empty in Hlt; lia|].
  assert (Hs : S (size (delete k (mapOrphanTransactions o))) = size (mapOrphanTransactions o)).
  { rewrite map_size_delete_Some by done. apply map_size_ne_0_lookup_2 in Hk. lia. }
  destruct (IH (EraseOrphanTx o k) nMax rand (S n)) as (H1 & H2 & H3); [done|rewrite EraseOrphanTx_map; lia|by apply EraseOrphanTx_ok|].
  split_and!; [done|done|]. etrans; [exact H3|]. rewrite EraseOrphanTx_map. apply delete_subseteq.
Qed.

(** ** Trying the orphans *)

Section Trying.
Context `{accept_env} {B : Type} `{CCoinsView B} (tip : B) (I : CTxMemPool -> Prop).
Context (accept_I : forall pool tx pool', HasZerocoinSpendInputs tx = false -> I pool -> AcceptToMemoryPool pool tip tx true false false = Ok pool' -> I pool').

Lemma accepted_new pool tx fl fr ig pool' : AcceptToMemoryPool pool tip tx fl fr ig = Ok pool' ->
  mapTx pool !! CTransaction_GetHash tx = None /\
  exists e, mapTx pool' = <[CTransaction_GetHash tx := e]> (mapTx pool).
Proof.
  intros E. unfold AcceptToMemoryPool in E. destruct (check_loose pool tx) as [[]|] eqn:El; cbn [res_bind] in E; [|done]. split.
  - unfold check_loose in El. destruct (spork_zerocoin_maintenance && _); [done|]. destruct (CheckTransaction _ _ _ _ _); [|done]. destruct (IsCoinBase tx); [done|].
    destruct (IsCoinStake tx); [done|]. destruct (negb _); [done|]. destruct (if negb regtest then _ else _); [|done].
    destruct (exists_tx pool _) eqn:Ex; [done|]. unfold exists_tx in Ex. apply bool_decide_eq_false in Ex. by apply eq_None_not_Some.
  - case_match. match type of E with res_bind ?r _ = _ => destruct r; cbn [res_bind] in E; [|done] end.
    match type of E with res_bind ?r _ = _ => destruct r as [e|]; cbn [res_bind] in E; [|done] end. injection E as <-. by exists e.
Qed.

(** Progress: the pool grows, the queues and the punished peers are kept. *)
Record onward (w w' : orphan_work) : Prop := {
  on_pool : mapTx (w_pool w) ⊆ mapTx (w_pool w');
  on_queue : w_queue w `prefix_of` w_queue w';
  on_bad : setMisbehaving w `prefix_of` setMisbehaving w';
  on_erase : vEraseQueue w `prefix_of` vEraseQueue w' }.

Lemma onward_refl w : onward w w.
Proof. by constructor. Qed.
Lemma onward_trans w1 w2 w3 : onward w1 w2 -> onward w2 w3 -> onward w1 w3.
Proof. intros [] []. constructor; by etrans. Qed.

Context (o : orphan_maps) (h0 : bytes) (p0 : CTxMemPool) (Ho : orphans_ok o).

(** What has become of an orphan that was tried: it leaves the map, its peer was punished,
    or it still misses an input in a pool between the first and the last. *)
Definition settled (w : orphan_work) (h : bytes) (x : COrphanTx) : Prop :=
  h ∈ vEraseQueue w \/ fromPeer x ∈ (setMisbehaving w).*1 \/
  exists p, mapTx p0 ⊆ mapTx p /\ mapTx p ⊆ mapTx (w_pool w) /\ AcceptToMemoryPool p tip (or_tx x) true false false = Err (Failed "missing inputs").

Lemma settled_onward w w' h x : onward w w' -> settled w h x -> settled w' h x.
Proof.
  intros [Hp _ Hb He] [Hs|[Hs|(p & Hp0 & Hp1 & E)]].
  - left. by eapply elem_of_prefix.
  - right; left. apply list_elem_of_fmap in Hs as (y & -> & Hy). apply list_elem_of_fmap. exists y. split; [done|]. by eapply elem_of_prefix.
  - right; right. exists p. split_and!; [done|by etrans|done].
Qed.

(** The queue holds the first transaction and the accepted orphans, once each; all are in
    the pool, whatever is new in the pool is in the queue, and all of the queue was
    relayed. *)
Record working (w : orphan_work) : Prop := {
  wk_inv : I (w_pool w);
  wk_grown : mapTx p0 ⊆ mapTx (w_pool w);
  wk_queue : exists acc, w_queue w = h0 :: acc /\ NoDup acc /\ forall h, h ∈ acc -> is_Some (mapOrphanTransactions o !! h) /\ is_Some (mapTx (w_pool w) !! h);
  wk_new : forall k, mapTx p0 !! k = None -> is_Some (mapTx (w_pool w) !! k) -> k ∈ w_queue w;
  wk_relayed : map CTransaction_GetHash (w_relayed w) = w_queue w;
  wk_first : is_Some (mapTx (w_pool w) !! h0) }.

Lemma try_orphan_ok w h x : mapOrphanTransactions o !! h = Some x -> working w ->
  working (try_orphan tip o w h) /\ onward w (try_orphan tip o w h) /\ settled (try_orphan tip o w h) h x.
Proof using Ho accept_I.
  intros Hx Hw. unfold try_orphan. rewrite Hx. cbn [default from_option id].
  destruct (existsb _ _) eqn:Eb.
  { split_and!; [done|apply onward_refl|]. right; left. apply existsb_exists in Eb as (y & Hy & Ey). apply list_elem_of_fmap.
    exists y. split; [symmetry; by apply Z.eqb_eq|by apply list_elem_of_In]. }
  destruct Hw as [Hi Hg (acc & Hq & Hnd & Hacc) Hnew Hrel Hf].
  destruct (AcceptToMemoryPool (w_pool w) tip (or_tx x) true false false) as [pool'|r] eqn:E.
  - destruct (accepted_new _ _ _ _ _ _ E) as (Hn & e & Em). pose proof (oo_plain _ Ho _ _ Hx) as Hz. rewrite (oo_hash _ Ho _ _ Hx) in *.
    assert (Hsub : mapTx (w_pool w) ⊆ mapTx pool') by (rewrite Em; by apply insert_subseteq). split_and!.
    + constructor; simpl; [by eapply accept_I|by etrans| | | |by eapply lookup_weaken_is_Some].
      * exists (acc ++ [h]). rewrite Hq. split_and!; [done| |].
        -- apply NoDup_app. split_and!; [done| |apply NoDup_singleton]. intros k Hk ->%list_elem_of_singleton. apply Hacc in Hk as [_ [? Hk]]. congruence.
        -- intros k [Hk|Hk%list_elem_of_singleton]%elem_of_app; [destruct (Hacc _ Hk); split; [done|by eapply lookup_weaken_is_Some]|].
           subst k. split; [by exists x|]. rewrite Em, lookup_insert_eq. by eexists.
      * intros k Hk Hsome. apply elem_of_app. destruct (decide (k = h)) as [->|Hne]; [right; by apply list_elem_of_singleton|].
        left. apply Hnew; [done|]. by rewrite Em, lookup_insert_ne in Hsome.
      * rewrite map_app, Hrel. cbn [map]. by rewrite (oo_hash _ Ho _ _ Hx).
    + constructor; simpl; [done|by apply prefix_app_r|done|by apply prefix_app_r].
    + left. simpl. apply elem_of_app. right. by apply list_elem_of_singleton.
  - unfold missing_inputs. case_bool_decide as Em.
    + subst r. split_and!; [by constructor; try done; exists acc|apply onward_refl|]. right; right. by exists (w_pool w).
    + split_and!; [constructor; simpl; try done; by exists acc| |left; simpl; apply elem_of_app; right; by apply list_elem_of_singleton].
      constructor; simpl; try done; [|by apply prefix_app_r]. destruct (0 <? _); [by apply prefix_app_r|done].
Qed.

Lemma try_list_ok l : forall w, working w -> (forall h, h ∈ l -> is_Some (mapOrphanTransactions o !! h)) ->
  let w' := foldl (try_orphan tip o) w l in
  working w' /\ onward w w' /\ forall h x, h ∈ l -> mapOrphanTransactions o !! h = Some x -> settled w' h x.
Proof using Ho accept_I.
  induction l as [|k l IH]; intros w Hw Hl; cbn [foldl].
  { split_and!; [done|apply onward_refl|]. intros h x Hh. by apply not_elem_of_nil in Hh. }
  destruct (Hl k) as [y Hy]; [apply elem_of_cons; by left|]. destruct (try_orphan_ok w k y Hy Hw) as (Hw1 & Ho1 & Hs1).
  destruct (IH (try_orphan tip o w k)) as (Hw2 & Ho2 & Hs2); [done|intros h Hh; apply Hl, elem_of_cons; by right|].
  split_and!; [done|by eapply onward_trans|]. intros h x [->|Hh]%elem_of_cons Hx; [|by apply Hs2]. simplify_eq. by eapply settled_onward.
Qed.

Lemma queue_bound w : working w -> (length (w_queue w) <= S (size (mapOrphanTransactions o)))%nat.
Proof.
  intros [_ _ (acc & -> & Hnd & Hacc) _ _ _]. simpl. apply le_n_S. rewrite <- (size_dom (D := gset bytes)), <- (size_list_to_set (C := gset bytes)) by done.
  apply subseteq_size. intros k Hk%elem_of_list_to_set. apply elem_of_dom. by apply Hacc.
Qed.

Definition waiting_settled (w : orphan_work) (n : nat) : Prop := forall j p h x, (j < n)%nat -> w_queue w !! j = Some p ->
  mapOrphanTransactions o !! h = Some x -> p ∈ prev_hashes (or_tx x) -> settled w h x.

Lemma orphan_loop_ok fuel : forall w i, working w -> waiting_settled w i -> (S (size (mapOrphanTransactions o)) <= fuel + i)%nat ->
  let w' := orphan_loop tip fuel o w i in working w' /\ onward w w' /\ waiting_settled w' (length (w_queue w')).
Proof using Ho accept_I.
  induction fuel as [|fuel IH]; intros w i Hw Hdone Hfuel; cbn [orphan_loop].
  { split_and!; [done|apply onward_refl|]. intros j p h x Hj. apply Hdone. pose proof (queue_bound _ Hw). lia. }
  destruct (w_queue w !! i) as [k|] eqn:Ek.
  2: { split_and!; [done|apply onward_refl|]. intros j p h x Hj. apply Hdone. apply lookup_ge_None in Ek. lia. }
  set (w1 := match mapOrphanTransactionsByPrev o !! k with None => w | Some s => _ end).
  assert (Hstep : working w1 /\ onward w w1 /\ forall h x, mapOrphanTransactions o !! h = Some x -> k ∈ prev_hashes (or_tx x) -> settled w1 h x).
  { unfold w1. destruct (mapOrphanTransactionsByPrev o !! k) as [s|] eqn:Es.
    - destruct (try_list_ok (merge_sort hash_le (elements s)) w Hw) as (Hw1 & Ho1 & Hs1).
      { intros h Hh. rewrite merge_sort_Permutation in Hh. apply elem_of_elements in Hh.
        destruct (proj1 (oo_prev _ Ho k h)) as (x & Hx & _); [by exists s|by exists x]. }
      split_and!; [done|done|]. intros h x Hx Hk. apply Hs1; [|done]. rewrite merge_sort_Permutation. apply elem_of_elements.
      destruct (proj2 (oo_prev _ Ho k h)) as (s' & Hs' & Hh); [by exists x|]. congruence.
    - split_and!; [done|apply onward_refl|]. intros h x Hx Hk. destruct (proj2 (oo_prev _ Ho k h)) as (s' & Hs' & _); [by exists x|]. congruence. }
  destruct Hstep as (Hw1 & Ho1 & Hs1). destruct (IH w1 (S i)) as (Hw2 & Ho2 & Hs2); [done| |lia|].
  - intros j p h x Hj Hp Hx Hin. destruct (decide (j = i)) as [->|Hne].
    + apply Hs1; [done|]. pose proof (prefix_lookup_Some _ _ _ _ Ek (on_queue _ _ Ho1)). congruence.
    + apply (settled_onward w); [done|]. apply (Hdone j p); [lia| |done|done].
      destruct (lookup_lt_is_Some_2 (w_queue w) j) as [p' Hp']; [apply lookup_lt_Some in Ek; lia|].
      pose proof (prefix_lookup_Some _ _ _ _ Hp' (on_queue _ _ Ho1)). congruence.
  - split_and!; [done|by eapply onward_trans|done].
Qed.
End Trying.

(** ** The handler *)

Lemma pool_inv_accepted `{E : accept_env} {B : Type} `{CCoinsViewLaws B} m pool (tip : B) tx fl fr ig pool' : limits_ok a_validation ->
  spends_no_zerocoin E tx -> view_inv tip -> contents tip = m -> AcceptToMemoryPool pool tip tx fl fr ig = Ok pool' ->
  pool_inv (m, pool) -> pool_inv (m, pool').
Proof.
  intros Hl Hz Hvi Hc Ha. destruct E as [D ev]. eapply (pool_inv_accept (B := B)); [exact Hl|exact Hz|exact Hvi|exact Hc|exact Ha].
Qed.

(** What the handler leaves, by what became of the transaction. *)
Lemma TX_accepted `{accept_env} {B : Type} `{CCoinsViewLaws B} (tip : B) pool o tx peer fWhitelisted nMaxOrphanTx rand pool' :
  HasZerocoinSpendInputs tx = false -> AcceptToMemoryPool pool tip tx true false false = Ok pool' ->
  TX tip pool o tx peer fWhitelisted nMaxOrphanTx rand =
    let w := orphan_loop tip (S (size (mapOrphanTransactions o))) o
      {| w_pool := pool'; w_relayed := [tx]; setMisbehaving := []; w_queue := [CTransaction_GetHash tx]; vEraseQueue := [] |} 0 in
    {| r_pool := w_pool w; r_orphans := foldl EraseOrphanTx o (vEraseQueue w); r_relayed := w_relayed w; r_punished := setMisbehaving w |}.
Proof. intros Hz E. unfold TX. by rewrite E, Hz. Qed.

(** C15: The handler of the [tx] message, for a transaction that spends no zerocoins or
    while zerocoins are under maintenance, keeps the pool consistent and supported by the
    coins and only adds to it, keeps the two orphan maps in agreement and within
    [nMaxOrphanTx], and finishes its queue. Every transaction it relays is in the pool,
    except one from a whitelisted peer that was refused, which it relays without any other
    effect. Every transaction that is new in the pool was relayed, and an orphan that still
    waits for one comes from a punished peer or misses an input in a pool that lies between
    the first and the last. *)
Theorem TX_handles_orphans `{E : accept_env} {B : Type} `{CCoinsViewLaws B} (tip : B) m pool o tx peer fWhitelisted nMaxOrphanTx rand :
  limits_ok a_validation -> spends_no_zerocoin E tx -> view_inv tip -> contents tip = m -> pool_inv (m, pool) ->
  orphans_ok o -> Z.of_nat (size (mapOrphanTransactions o)) <= nMaxOrphanTx ->
  let r := TX tip pool o tx peer fWhitelisted nMaxOrphanTx rand in
  pool_inv (m, r_pool r) /\ mapTx pool ⊆ mapTx (r_pool r) /\
  orphans_ok (r_orphans r) /\ Z.of_nat (size (mapOrphanTransactions (r_orphans r))) <= nMaxOrphanTx /\
  (forall t, t ∈ r_relayed r -> is_Some (mapTx (r_pool r) !! CTransaction_GetHash t) \/
     (t = tx /\ fWhitelisted = true /\ r_pool r = pool /\ r_orphans r = o)) /\
  (forall k, mapTx pool !! k = None -> is_Some (mapTx (r_pool r) !! k) -> k ∈ map CTransaction_GetHash (r_relayed r) /\
     forall h x, mapOrphanTransactions (r_orphans r) !! h = Some x -> k ∈ prev_hashes (or_tx x) ->
       fromPeer x ∈ (r_punished r).*1 \/
       exists p, mapTx pool ⊆ mapTx p /\ mapTx p ⊆ mapTx (r_pool r) /\ AcceptToMemoryPool p tip (or_tx x) true false false = Err (Failed "missing inputs")).
Proof.
  intros Hl Hsp Hvi Hc Hinv Ho Hsz. cbn zeta.
  assert (Hacc : forall p t p', HasZerocoinSpendInputs t = false -> pool_inv (m, p) -> AcceptToMemoryPool p tip t true false false = Ok p' -> pool_inv (m, p')).
  { intros p t p' Hz Hp Ea. eapply (pool_inv_accepted (B := B)); [exact Hl|by right|exact Hvi|exact Hc|exact Ea|exact Hp]. }
  assert (Hstay : forall k, mapTx pool !! k = None -> ~ is_Some (mapTx pool !! k)) by (intros k ->; apply is_Some_None).
  destruct (AcceptToMemoryPool pool tip tx true false false) as [pool'|e] eqn:Ea.
  - assert (Hz : HasZerocoinSpendInputs tx = false) by (destruct Hsp as [Hsp|]; [by eapply accepted_plain|done]).
    rewrite (TX_accepted _ _ _ _ _ _ _ _ _ Hz Ea). cbn zeta. destruct (accepted_new _ _ _ _ _ _ _ Ea) as (Hn & en & Em).
    set (w0 := {| w_pool := pool'; w_relayed := [tx]; setMisbehaving := []; w_queue := [CTransaction_GetHash tx]; vEraseQueue := [] |}).
    assert (Hw0 : working (fun p => pool_inv (m, p)) o (CTransaction_GetHash tx) pool w0).
    { constructor; simpl; [by eapply Hacc|rewrite Em; by apply insert_subseteq| | |done|rewrite Em, lookup_insert_eq; by eexists].
      - exists []. split_and!; [done|apply NoDup_nil_2|]. intros h Hh. by apply not_elem_of_nil in Hh.
      - intros k Hk Hs. apply list_elem_of_singleton. destruct (decide (k = CTransaction_GetHash tx)) as [|Hne]; [done|].
        rewrite Em, lookup_insert_ne in Hs by done. by destruct (Hstay k). }
    destruct (orphan_loop_ok tip _ Hacc o _ pool Ho (S (size (mapOrphanTransactions o))) w0 0 Hw0) as (Hw & _ & Hs); [intros j p h x Hj; lia|lia|].
    set (w := orphan_loop tip _ o w0 0) in *. destruct Hw as [Hi Hg (acc & Hq & _ & Hin) Hnew Hrel Hf]. cbn [r_pool r_orphans r_relayed r_punished]. split_and!.
    + done.
    + done.
    + by apply erase_list_ok.
    + pose proof (erase_list_size (vEraseQueue w) o). lia.
    + intros t Ht. left. assert (Hh : CTransaction_GetHash t ∈ w_queue w) by (rewrite <- Hrel; by apply (list_elem_of_fmap_2 CTransaction_GetHash)).
      rewrite Hq in Hh. apply elem_of_cons in Hh as [->|Hh]; [done|by apply Hin].
    + intros k Hk Hsome. rewrite Hrel. pose proof (Hnew k Hk Hsome) as Hh. split; [done|]. intros h x Hx Hp. apply erase_list_lookup in Hx as [Hx Hne].
      apply list_elem_of_lookup in Hh as [j Hj]. destruct (Hs j _ h x (lookup_lt_Some _ _ _ Hj) Hj Hx Hp) as [?|?]; done.
  - unfold TX. rewrite Ea. destruct (negb (HasZerocoinSpendInputs tx)) eqn:Hz; [destruct (missing_inputs e)|]; cbn [andb r_pool r_orphans r_relayed r_punished].
    + apply negb_true_iff in Hz.
      destruct (limit_loop_ok _ (fst (AddOrphanTx o tx peer)) nMaxOrphanTx rand 0 ltac:(lia) (le_n _) (AddOrphanTx_ok o tx peer Hz Ho)) as (Hk1 & Hk2 & _).
      split_and!; try done; [intros t Ht; by apply not_elem_of_nil in Ht|]. intros k Hk Hs. by destruct (Hstay k).
    + split_and!; try done; [|intros k Hk Hs; by destruct (Hstay k)].
      destruct fWhitelisted; intros t Ht; [|by apply not_elem_of_nil in Ht]. apply list_elem_of_singleton in Ht. right. by split_and!.
    + split_and!; try done; [|intros k Hk Hs; by destruct (Hstay k)].
      destruct fWhitelisted; intros t Ht; [|by apply not_elem_of_nil in Ht]. apply list_elem_of_singleton in Ht. right. by split_and!.
Qed.

(** ** Witness *)

#[local] Existing Instance sample_doubles.
#[local] Existing Instance sample_accept.

Definition waiting_child : orphan_maps := fst (AddOrphanTx no_orphans sample_child 3).

Lemma waiting_child_relayed : map CTransaction_GetHash (r_relayed (TX sample_tip CTxMemPool_new waiting_child sample_spend 2 false 100 (fun _ => []))) =
  [hash_spend; CTransaction_GetHash sample_child].
Proof. vm_compute. reflexivity. Qed.

Lemma TX_handles_orphans_witness : let r := TX sample_tip CTxMemPool_new waiting_child sample_spend 2 false 100 (fun _ => []) in
  pool_ok (r_pool r) /\ orphans_ok (r_orphans r) /\ is_Some (mapTx (r_pool r) !! CTransaction_GetHash sample_child).
Proof.
  intros r. pose proof waiting_child_relayed as Hr. fold r in Hr.
  destruct (TX_handles_orphans sample_tip (contents sample_tip) CTxMemPool_new waiting_child sample_spend 2 false 100 (fun _ => []))
    as ((_ & Hp & _) & _ & Ho & _ & Hin & _);
    [split; [vm_compute; split; congruence|vm_compute; congruence]|left; reflexivity|apply map_Forall_singleton; reflexivity|reflexivity| |
     apply AddOrphanTx_ok, orphans_ok_none; reflexivity|vm_compute; discriminate|].
  - split; [exact sample_tip_wf|]. split; [apply pool_ok_new|]. intros h e i He. simpl in He. discriminate He.
  - split; [exact Hp|]. split; [exact Ho|]. fold r in Hin.
    destruct (r_relayed r) as [|a [|b l]]; [discriminate Hr|discriminate Hr|].
    assert (Hb : CTransaction_GetHash b = CTransaction_GetHash sample_child) by (exact (f_equal (fun x => nth 1 x []) Hr)).
    rewrite <- Hb. destruct (Hin b) as [Hi | (_ & Hf & _)]; [apply elem_of_cons; right; apply elem_of_cons; left; reflexivity|exact Hi|discriminate Hf].
Defined.
