(* ===== verification/Inflation.v ===== *)
(** The value in circulation: connecting a block changes the total value of the
    unspent outputs by what the block mints, less the fees and the outputs nobody can
    spend, and never by more than the subsidy and the lottery payouts. *)

From Stdlib Require Import ZArith Lia String.
From stdpp Require Import base tactics list numbers strings gmap fin_maps.
From S2P Require Import Prelude CString Amount ChainParams Script Standard Serialize Block Interpreter CoreWrite.
From S2P Require Import BetCode BetPayout Transaction Compressor Coins CoinsView TxVerify Connect ConnectFacts Reorg.

(** ** The value of coins *)

Definition live_value (o : CTxOut) : Z := if CTxOut_IsNull o then 0 else nValue o.
Definition live_sum (l : list CTxOut) : Z := fold_right (fun o n => live_value o + n) 0 l.
Definition coins_value (c : CCoins) : Z := live_sum (c_vout c).
Definition opt_value (c : option CCoins) : Z := match c with Some c => coins_value c | None => 0 end.
Definition total_value (m : utxo_map) : Z := map_fold (fun _ c n => coins_value c + n) 0 m.

Lemma live_sum_drop_null v : live_sum (drop_null v) = live_sum v.
Proof.
  induction v as [| o v IH]; [done |]. cbn [drop_null live_sum fold_right]. fold (live_sum v). rewrite <- IH.
  destruct (drop_null v) as [| p w]; [| done]. unfold live_value. destruct (CTxOut_IsNull o) eqn:E; [done |].
  cbn [live_sum fold_right]. unfold live_value. by rewrite E.
Qed.

Lemma live_sum_null_at v n o : v !! n = Some o -> live_sum (<[n := CTxOut_SetNull]> v) = live_sum v - live_value o.
Proof.
  revert n. induction v as [| p v IH]; intros n Hn; [done |]. destruct n as [| n]; cbn in Hn.
  - injection Hn as ->. cbn [list_insert insert live_sum fold_right]. change (live_value CTxOut_SetNull) with 0. lia.
  - change (<[S n := CTxOut_SetNull]> (p :: v)) with (p :: <[n := CTxOut_SetNull]> v). cbn [live_sum fold_right].
    fold (live_sum v) (live_sum (<[n := CTxOut_SetNull]> v)). rewrite (IH n Hn). lia.
Qed.

Lemma norm_value c : opt_value (norm c) = coins_value c.
Proof.
  unfold norm. destruct (IsPruned c) eqn:E; [| done]. unfold coins_value, IsPruned in *. cbn [opt_value].
  induction (c_vout c) as [| o v IH]; [done |]. cbn [forallb] in E. apply andb_true_iff in E as [Eo Ev].
  change (live_sum (o :: v)) with (live_value o + live_sum v). rewrite <- IH by done. unfold live_value. by rewrite Eo.
Qed.

Lemma total_insert m t c : m !! t = None -> total_value (<[t := c]> m) = coins_value c + total_value m.
Proof. intros Hn. unfold total_value. rewrite map_fold_insert_L; [done | intros; lia | done]. Qed.

Lemma total_alter m t a : total_value (partial_alter (fun _ => a) t m) = total_value m - opt_value (m !! t) + opt_value a.
Proof.
  assert (Hd : forall m', m' !! t = None -> total_value (partial_alter (fun _ => a) t m') = total_value m' + opt_value a).
  { intros m' Hn. destruct a as [c |].
    - change (partial_alter (fun _ => Some c) t m') with (<[t := c]> m'). rewrite total_insert by done. cbn. lia.
    - change (partial_alter (fun _ => None) t m') with (delete t m'). rewrite delete_id by done. cbn. lia. }
  destruct (m !! t) as [c |] eqn:E; cbn; [| rewrite Hd by done; lia].
  rewrite <- (insert_delete_id m t c E) at 2. rewrite total_insert by apply lookup_delete_eq.
  replace (partial_alter (fun _ => a) t m) with (partial_alter (fun _ => a) t (delete t m)); [rewrite Hd by apply lookup_delete_eq; lia |].
  apply map_eq. intros u. destruct (decide (u = t)) as [-> |]; [by rewrite !lookup_partial_alter_eq |].
  by rewrite !lookup_partial_alter_ne, lookup_delete_ne.
Qed.

(** ** Spending *)

Lemma Spend_value c out c' u : Spend c out = Some (c', u) -> coins_value c' = coins_value c - nValue (u_txout u).
Proof.
  intros Es. destruct (Spend_inv _ _ _ _ Es) as (o & Ho & Hn & Hu & -> & _). unfold coins_value. cbn [c_vout with_vout].
  rewrite live_sum_drop_null, (live_sum_null_at _ _ _ Ho), Hu. unfold live_value. by rewrite Hn.
Qed.

(** Every unspent output of [m'] is one of [m]. *)
Definition output_at (m : utxo_map) (t : bytes) (k : nat) : option CTxOut := m !! t ≫= fun c => c_vout c !! k.
Definition outputs_from (m' m : utxo_map) : Prop :=
  forall t k o, output_at m' t k = Some o -> CTxOut_IsNull o = false -> output_at m t k = Some o.

#[global] Instance outputs_from_preorder : PreOrder outputs_from.
Proof. split; [by intros m t k o | intros a b c Hab Hbc t k o Ho Hn; auto]. Qed.

Lemma spend_out_from m out u m' : utxo_wf m -> spend_out m out = Some (u, m') -> outputs_from m' m.
Proof.
  unfold spend_out, output_at. intros Hwf Es t k o Ho Hn. destruct (m !! op_hash out) as [c0 |] eqn:E; [| done]. cbn in Es.
  destruct (Spend c0 out) as [[c' u'] |] eqn:Es'; [| done]. apply some_pair_inv in Es as [<- <-].
  destruct (decide (t = op_hash out)) as [-> | Hne].
  - unfold output_at in *. rewrite lookup_partial_alter_eq in Ho. rewrite E. unfold norm in Ho. destruct (IsPruned c'); [done |]. cbn in *.
    destruct (Spend_inv _ _ _ _ Es') as (p & _ & _ & _ & -> & _). cbn [c_vout with_vout] in Ho.
    set (w := <[Z.to_nat (op_n out) := CTxOut_SetNull]> (c_vout c0)) in *.
    assert (Hd : drop_null w `prefix_of` w) by (eexists; apply drop_null_split, Forall_insert; [by apply (Hwf _ _ E) | by intros _]).
    apply (prefix_lookup_Some _ _ _ _ Ho) in Hd. unfold w in Hd. by apply list_lookup_insert_Some in Hd as [(_ & <- & _) | (_ & ->)].
  - unfold output_at in *. by rewrite lookup_partial_alter_ne in Ho.
Qed.

Lemma spend_out_value m out u m' : spend_out m out = Some (u, m') ->
  total_value m' = total_value m - nValue (u_txout u) /\ output_at m (op_hash out) (Z.to_nat (op_n out)) = Some (u_txout u) /\
  CTxOut_IsNull (u_txout u) = false.
Proof.
  unfold spend_out, output_at. destruct (m !! op_hash out) as [c |] eqn:E; [| done]. cbn. intros Es.
  destruct (Spend c out) as [[c' u'] |] eqn:Es'; [| done]. apply some_pair_inv in Es as [<- <-].
  rewrite total_alter, E, norm_value, (Spend_value _ _ _ _ Es'). cbn. destruct (Spend_inv _ _ _ _ Es') as (o & -> & ? & -> & _).
  split_and!; [lia | done | done].
Qed.

Lemma spend_outs_value l m0 m us m' : utxo_wf m -> outputs_from m m0 -> spend_outs m l = Some (us, m') ->
  total_value m' = total_value m - exact_in m0 l.
Proof.
  revert m us. induction l as [| i l IH]; intros m us Hwf Hk E; cbn [spend_outs exact_in fold_right] in *.
  { apply some_pair_inv in E as [_ <-]. lia. }
  fold (exact_in m0 l). destruct (spend_out m (prevout i)) as [[u m2] |] eqn:E1; [| done].
  destruct (spend_outs m2 l) as [[us1 m3] |] eqn:E2; [| done]. apply some_pair_inv in E as [_ <-].
  destruct (spend_out_value _ _ _ _ E1) as (Ht & Ho & Hn).
  rewrite (IH m2 us1 (spend_out_wf _ _ _ _ Hwf E1)); [| by transitivity m; [eapply spend_out_from |] | done].
  pose proof (Hk _ _ _ Ho Hn) as Ho'. unfold output_at in Ho'. unfold out_value. rewrite Ho'. lia.
Qed.

(** ** Outputs *)

(** The value of the outputs that nobody can spend. *)
Definition lost_value (l : list CTxOut) : Z := fold_right (fun o n => (if IsUnspendable (scriptPubKey o) then nValue o else 0) + n) 0 l.

Lemma lost_nonneg l : Forall (fun o => 0 <= nValue o) l -> 0 <= lost_value l.
Proof. induction 1 as [| o l Ho _ IH]; cbn [lost_value fold_right]; [lia |]. fold (lost_value l). case_match; lia. Qed.

Lemma FromTx_value tx h : Forall (fun o => 0 <= nValue o) (vout tx) ->
  coins_value (FromTx tx h) = sum_values (vout tx) - lost_value (vout tx).
Proof.
  intros Hv. unfold coins_value, FromTx, ClearUnspendable, Cleanup. cbn [c_vout with_vout]. rewrite live_sum_drop_null.
  induction Hv as [| o l Ho Hl IH]; [done |]. cbn [map live_sum lost_value sum_values fold_right] in *.
  fold (live_sum (map clear_unspendable l)) (lost_value l) (sum_values l) in *. rewrite IH. unfold clear_unspendable, live_value.
  destruct (IsUnspendable (scriptPubKey o)); [change (CTxOut_IsNull CTxOut_SetNull) with true; cbn iota; lia |].
  unfold CTxOut_IsNull. rewrite (proj2 (Z.eqb_neq _ _)) by lia. lia.
Qed.

Section Value.
Context {env : validation_env}.

(** The amounts that [CheckTransaction] lets through. *)
Definition amounts_ok (tx : CTransaction) : Prop :=
  Forall (fun o => 0 <= nValue o <= nMaxMoneyOut consensus_params) (vout tx) /\ sum_values (vout tx) <= nMaxMoneyOut consensus_params.

Hypothesis max_money : 0 <= nMaxMoneyOut consensus_params < 2 ^ 60.

Lemma value_out_exact tx out : amounts_ok tx -> value_out tx = Ok out -> out = sum_values (vout tx) /\ 0 <= out <= nMaxMoneyOut consensus_params.
Proof.
  intros [Hv Hs] Ho. unfold value_out, GetValueOut in Ho. destruct (res_fold add_value 0 (vout tx)) as [k |] eqn:E; [| done]. injection Ho as ->.
  assert (Hr : Forall (fun o => in_s 64 (nValue o)) (vout tx)).
  { eapply Forall_impl; [exact Hv |]. intros o Ho. unfold in_s. cbn beta in Ho. lia. }
  apply (add_values_spec (vout tx) 0 out Hr ltac:(lia)) in E as (Hnn & _ & ->). split; [lia |]. pose proof (sum_values_nonneg _ Hnn). lia.
Qed.

(** What one transaction adds to the value in circulation. *)
Lemma tx_value m b h tx us m' n out : utxo_wf m -> HasZerocoinSpendInputs tx = false -> amounts_ok tx ->
  tx_connected m b h tx us m' n out ->
  total_value m' = total_value m + out - n - lost_value (vout tx) /\ 0 <= out <= nMaxMoneyOut consensus_params /\
  0 <= n <= nMaxMoneyOut consensus_params /\ 0 <= tx_fee tx n out /\ (IsCoinBase tx = true -> n = 0).
Proof.
  intros Hwf Hz Ha [Hnew Hout Hin Hup]. destruct (value_out_exact tx out Ha Hout) as [Es Hr].
  assert (Hnn : Forall (fun o => 0 <= nValue o) (vout tx)) by (eapply value_out_nonneg; exact Hout).
  unfold update_coins in Hup. rewrite Hz in Hup. cbn [negb] in Hup. rewrite andb_true_r in Hup. unfold tx_fee.
  destruct (IsCoinBase tx) eqn:Hcb; cbn [negb orb] in *.
  - apply some_pair_inv in Hup as [_ <-]. rewrite total_alter, Hnew, norm_value, FromTx_value by done. cbn [opt_value]. split_and!; lia.
  - destruct (spend_outs m (vin tx)) as [[us1 m1] |] eqn:E; [| done]. apply some_pair_inv in Hup as [_ <-].
    destruct (spend_outs_keeps _ _ _ _ E) as (_ & _ & Hnone). pose proof (spend_outs_value _ m _ _ _ Hwf (reflexivity _) E) as Ht.
    rewrite total_alter, (Hnone _ Hnew), norm_value, FromTx_value by done. cbn [opt_value].
    pose proof (ic_exact _ _ _ _ Hin) as He. pose proof (ic_range _ _ _ _ Hin) as Hrn.
    split; [lia |]. split; [lia |]. split; [lia |]. split; [| done].
    destruct (IsCoinStake tx) eqn:Hcs; [lia |]. destruct (ic_fee _ _ _ _ Hin Hcs) as (out' & Ho' & Hle). assert (out' = out) by congruence. lia.
Qed.

Definition lost_all (l : list CTransaction) : Z := fold_right (fun tx n => lost_value (vout tx) + n) 0 l.

(** An ordinary transaction mints nothing. *)
Definition mints (tx : CTransaction) : bool := IsCoinBase tx || IsCoinStake tx.

Lemma txs_value b h m l uss m' ins outs fees : 0 < h < 2 ^ 31 -> txs_connected b h m l uss m' ins outs fees -> utxo_wf m ->
  Forall (fun tx => HasZerocoinSpendInputs tx = false /\ amounts_ok tx) l ->
  total_value m' = total_value m + outs - ins - lost_all l /\ 0 <= fees /\ 0 <= lost_all l /\
  (Forall (fun tx => mints tx = false) l -> outs - ins + fees = 0) /\
  (Forall (fun tx => mints tx = false) (drop 1 l) -> Z.abs (outs - ins + fees) <= nMaxMoneyOut consensus_params).
Proof.
  intros Hh. induction 1 as [m | m tx us m1 n out l uss m' ins outs fees Htc Hc IH]; intros Hwf Hl.
  { cbn [lost_all fold_right]. split_and!; lia. }
  apply Forall_cons in Hl as [[Hz Ha] Hl]. pose proof (tx_connected_wf _ _ _ _ _ _ _ _ Hh Hwf Htc) as Hwf1.
  destruct (IH Hwf1 Hl) as (Ht & Hf & Hlo & Hm & _). destruct (tx_value _ _ _ _ _ _ _ _ Hwf Hz Ha Htc) as (Ht1 & Ho1 & Hn1 & Hf1 & _).
  cbn [lost_all fold_right drop]. fold (lost_all l).
  assert (0 <= lost_value (vout tx)) by (apply lost_nonneg; eapply value_out_nonneg, Htc).
  split_and!; try lia.
  - intros [Hmt Hml]%Forall_cons. specialize (Hm Hml). unfold tx_fee, mints in *. rewrite Hmt in *. lia.
  - intros Hml. specialize (Hm Hml). unfold tx_fee in *. destruct (IsCoinBase tx || IsCoinStake tx); lia.
Qed.
End Value.

(** ** A block *)

Lemma CheckTransaction_amounts {env : validation_env} (CheckZerocoinSpend : CTransaction -> bool) tx fZerocoinActive fColdStakingActive :
  0 <= nMaxMoneyOut consensus_params < 2 ^ 62 -> 0 <= ZC_MaxSpendsPerTx consensus_params -> HasZerocoinSpendInputs tx = false ->
  CheckTransaction consensus_params CheckZerocoinSpend tx fZerocoinActive fColdStakingActive = Ok tt -> amounts_ok tx.
Proof.
  intros Hm Hs Hz E. apply CheckTransaction_tx_ok in E as [_ _ _ Ho Ht _ _ _]; [| done..]. split; [| done].
  eapply Forall_impl; [exact Ho |]. by intros o (_ & ? & _).
Qed.

(** The blocks whose amount the node checks, once its chain has a tip. Exempt are: while the masternode data is not
    synced, the first hundred blocks of a budget cycle; once it is, the payment blocks of
    the budget while superblocks are enabled. *)
Definition value_checked {env : validation_env} (block : CBlock) : Prop :=
  let nHeight := height_after (hashPrevBlock (header block)) in
  is_Some tip /\
  if masternodes_synced then superblocks = true -> IsBudgetPaymentBlock nHeight = false
  else 100 <= Z.rem nHeight (nBudgetCycleBlocks consensus_params).

Lemma value_checked_bound {env : validation_env} block nExpectedValue nMinted :
  value_checked block -> IsBlockValueValid block nExpectedValue nMinted = true -> nMinted <= nExpectedValue.
Proof.
  unfold value_checked, IsBlockValueValid. intros [[t ->] Hc]. destruct masternodes_synced; cbn [negb] in *.
  - destruct superblocks; cbn [negb]; [rewrite Hc by done |]; intros Hv; bprop; lia.
  - rewrite (proj2 (Z.ltb_ge _ _) Hc). intros Hv. bprop. lia.
Qed.

(** C1: a block without zerocoin transactions that is connected, and whose amount the node
    checks at all, raises the total value of all unspent outputs by at most the amount that
    the rules allow it to mint: the subsidy (with the fee reward of a proof-of-work block)
    and the lottery payouts that are due. The amount is checked in every case but two: the
    first hundred blocks of a budget cycle before the masternode data is synced, and budget
    payment blocks while superblocks are enabled. The totals of the block are 64-bit sums;
    that they may wrap cannot be used to mint more. *)
Theorem connect_mints_at_most {V : Type} `{CCoinsViewLaws V} {env : validation_env} (CheckZerocoinSpend : CTransaction -> bool)
    (fZerocoinActive fColdStakingActive : bool) (v : CCoinsViewCache V) (block : CBlock) (pindex : block_pos) (h : Z)
    (fAlreadyChecked : bool) (nMoneySupply nMoneySupply' : Z) (undo : list (list CTxInUndo))
    (coinbase : CTransaction) (txs : list CTransaction) (v1 : CCoinsViewCache V) :
  0 <= nMaxMoneyOut consensus_params < 2 ^ 60 -> 0 <= ZC_MaxSpendsPerTx consensus_params -> placed pindex h ->
  vtx block = coinbase :: txs -> IsCoinBase coinbase = true -> Forall (fun tx => IsCoinBase tx = false) txs ->
  Forall (fun tx => IsCoinStake tx = false) (drop 1 txs) -> Forall plain_tx (coinbase :: txs) ->
  Forall (fun tx => CheckTransaction consensus_params CheckZerocoinSpend tx fZerocoinActive fColdStakingActive = Ok tt) (coinbase :: txs) ->
  value_checked block -> cache_inv v -> utxo_wf (cache_contents v) ->
  ConnectBlock block pindex false fAlreadyChecked nMoneySupply v = (Ok (nMoneySupply', Some undo), v1) ->
  exists nExpectedMint, connect_expected_mint lottery lottery2 testnet block h = Ok (Some nExpectedMint) /\
    total_value (cache_contents v1) <= total_value (cache_contents v) + nExpectedMint.
Proof.
  intros Hm Hzc Hpl Hvtx Hcb Hncb Hncs Hl Hct Hchk Hi Hwf E.
  assert (Hm' : 0 <= nMaxMoneyOut consensus_params < 2 ^ 62) by lia.
  destruct (ConnectBlock_inv Hm' v _ (cache_best v) _ _ _ _ _ _ _ _ _ _ Hpl Hvtx Hl (conj Hi (conj eq_refl eq_refl)) E)
    as (_ & us & m' & ins & outs & fees & s & Hc & (_ & <- & _) & Htot & _ & Hin & Hout & Hfee & _).
  assert (Hok : Forall (fun tx => HasZerocoinSpendInputs tx = false /\ amounts_ok tx) (coinbase :: txs)).
  { apply List.Forall_forall. intros tx Htx. rewrite List.Forall_forall in Hl, Hct. destruct (no_zerocoins _ (proj1 (Hl tx Htx))) as [Hz _].
    split; [done |]. eapply CheckTransaction_amounts; [lia | done | done | by apply Hct]. }
  pose proof (pl_range _ _ Hpl) as Hh.
  destruct (txs_value Hm _ _ _ _ _ _ _ _ _ Hh Hc Hwf Hok) as (Ht & Hf & Hlo & _ & _).
  inversion Hc as [| m0 tx us0 m1 n out l0 uss m0' ins0 outs0 fees0 Htc Hc1]; subst.
  apply Forall_cons in Hok as [[Hz Ha] Hok].
  destruct (tx_value Hm _ _ _ _ _ _ _ _ Hwf Hz Ha Htc) as (_ & Ho1 & _ & _ & Hn0). specialize (Hn0 Hcb). subst n.
  destruct (txs_value Hm _ _ _ _ _ _ _ _ _ Hh Hc1 (tx_connected_wf _ _ _ _ _ _ _ _ Hh Hwf Htc) Hok) as (_ & _ & _ & _ & Hr).
  assert (Hord : Forall (fun tx => mints tx = false) (drop 1 txs)).
  { apply List.Forall_forall. intros tx Htx. unfold mints. rewrite List.Forall_forall in Hncb, Hncs. rewrite (Hncs tx Htx).
    rewrite (Hncb tx); [done |]. destruct txs; [done | by right]. }
  specialize (Hr Hord). unfold connect_totals in Htot. unfold tx_fee in *. rewrite Hcb in *. cbn [orb] in *.
  destruct (connect_expected_mint lottery lottery2 testnet block h) as [[e |] |] eqn:Ee; [| done | done].
  destruct (IsBlockValueValid _ _ _) eqn:Ev; cbn [negb] in Htot; [| done]. exists e. split; [done |].
  apply (value_checked_bound _ _ _ Hchk) in Ev.
  assert (Hmint : s64 (nValueOut s - nValueIn s + nFees s) = out + outs0 - (0 + ins0) + (0 + fees0)).
  { rewrite <- (s64_id (out + outs0 - (0 + ins0) + (0 + fees0))) by lia. apply s64_eq64. by rewrite Hout, Hin, Hfee. }
  lia.
Qed.

Lemma connect_mints_at_most_witness : exists nExpectedMint,
  connect_expected_mint sample_node sample_node false sample_blk 150 = Ok (Some nExpectedMint) /\
  total_value (cache_contents sample_after) <= total_value (cache_contents sample_view) + nExpectedMint.
Proof.
  apply (connect_mints_at_most (env := sample_env) (fun _ => false) true true sample_view sample_blk sample_pos 150 true 1000 1000
    sample_undo sample_coinbase [sample_spend] sample_after).
  - vm_compute. split; congruence.
  - vm_compute. congruence.
  - exact sample_placed.
  - reflexivity.
  - reflexivity.
  - repeat constructor.
  - constructor.
  - exact sample_plain.
  - repeat constructor.
  - split; [by eexists | done].
  - apply (new_cache_inv sample_db), sample_db_inv.
  - exact sample_view_wf.
  - exact sample_connect.
Defined.
