(* ===== verification/AddrMan.v ===== *)
(** The address manager ([addrman.h], [addrman.cpp]): what the node knows of its peers'
    addresses, in a table of entries with two families of buckets, "new" (an entry may be
    in up to eight of them) and "tried" (in one), and a random order of all entries.

    A [CAddrInfo&] is the id of the entry in [mapInfo]. An array of buckets is the finite
    map of its slots that are not -1. [None] is a failed [assert]. Random draws are
    arguments of the operations: the result of [RandomInt] as a function of its argument,
    and of the number of the call where there are several. *)

From Stdlib Require Import ZArith Lia.
From Stdlib Require Import Floats.SpecFloat.
From stdpp Require Import base tactics list numbers option gmap fin_maps sorting.
From S2P Require Import Prelude Hash Serialize ArithUint256 NetAddress.

(** ** Entries *)

Record CAddrInfo := {
  ai_addr : CAddress; ai_nLastTry : Z; ai_nLastCountAttempt : Z; ai_source : CNetAddr;
  ai_nLastSuccess : Z; ai_nAttempts : Z; ai_nRefCount : Z; ai_fInTried : bool; ai_nRandomPos : Z }.

Definition CAddrInfo_new (addrIn : CAddress) (addrSource : CNetAddr) : CAddrInfo :=
  {| ai_addr := addrIn; ai_nLastTry := 0; ai_nLastCountAttempt := 0; ai_source := addrSource;
     ai_nLastSuccess := 0; ai_nAttempts := 0; ai_nRefCount := 0; ai_fInTried := false; ai_nRandomPos := -1 |}.

Definition CAddrInfo_default : CAddrInfo := CAddrInfo_new CAddress_default CNetAddr_Init.

(** The base classes of an entry: its service, its network address, its last sighting. *)
Definition ai_service (i : CAddrInfo) : CService := ad_service (ai_addr i).
Definition ai_ip (i : CAddrInfo) : CNetAddr := sv_ip (ai_service i).
Definition ai_nTime (i : CAddrInfo) : Z := ad_nTime (ai_addr i).

(** Assignments to the fields. *)
Definition set_addr (a : CAddress) (i : CAddrInfo) : CAddrInfo :=
  {| ai_addr := a; ai_nLastTry := ai_nLastTry i; ai_nLastCountAttempt := ai_nLastCountAttempt i; ai_source := ai_source i;
     ai_nLastSuccess := ai_nLastSuccess i; ai_nAttempts := ai_nAttempts i; ai_nRefCount := ai_nRefCount i;
     ai_fInTried := ai_fInTried i; ai_nRandomPos := ai_nRandomPos i |}.
Definition set_stats (nLastSuccess nLastTry nLastCountAttempt nAttempts : Z) (i : CAddrInfo) : CAddrInfo :=
  {| ai_addr := ai_addr i; ai_nLastTry := nLastTry; ai_nLastCountAttempt := nLastCountAttempt; ai_source := ai_source i;
     ai_nLastSuccess := nLastSuccess; ai_nAttempts := nAttempts; ai_nRefCount := ai_nRefCount i;
     ai_fInTried := ai_fInTried i; ai_nRandomPos := ai_nRandomPos i |}.
Definition set_place (nRefCount : Z) (fInTried : bool) (nRandomPos : Z) (i : CAddrInfo) : CAddrInfo :=
  {| ai_addr := ai_addr i; ai_nLastTry := ai_nLastTry i; ai_nLastCountAttempt := ai_nLastCountAttempt i; ai_source := ai_source i;
     ai_nLastSuccess := ai_nLastSuccess i; ai_nAttempts := ai_nAttempts i; ai_nRefCount := nRefCount;
     ai_fInTried := fInTried; ai_nRandomPos := nRandomPos |}.
Definition set_refs (n : Z) (i : CAddrInfo) : CAddrInfo := set_place n (ai_fInTried i) (ai_nRandomPos i) i.
Definition set_tried (b : bool) (i : CAddrInfo) : CAddrInfo := set_place (ai_nRefCount i) b (ai_nRandomPos i) i.
Definition set_pos (p : Z) (i : CAddrInfo) : CAddrInfo := set_place (ai_nRefCount i) (ai_fInTried i) p i.

Definition ADDRMAN_TRIED_BUCKET_COUNT : Z := 256.
Definition ADDRMAN_NEW_BUCKET_COUNT : Z := 1024.
Definition ADDRMAN_BUCKET_SIZE : Z := 64.
Definition ADDRMAN_TRIED_BUCKETS_PER_GROUP : Z := 8.
Definition ADDRMAN_NEW_BUCKETS_PER_SOURCE_GROUP : Z := 64.
Definition ADDRMAN_NEW_BUCKETS_PER_ADDRESS : Z := 8.
Definition ADDRMAN_HORIZON_DAYS : Z := 30.
Definition ADDRMAN_RETRIES : Z := 3.
Definition ADDRMAN_MAX_FAILURES : Z := 10.
Definition ADDRMAN_MIN_FAIL_DAYS : Z := 7.
Definition ADDRMAN_GETADDR_MAX_PCT : Z := 23.
Definition ADDRMAN_GETADDR_MAX : Z := 2500.

(** [(CHashWriter(SER_GETHASH, 0) << ...).GetHash().GetCheapHash()] *)
Definition cheap_hash (written : bytes) : Z := GetLow64 (uint_lit 8 (le_val (Hash written))).

Definition GetTriedBucket (nKey : bytes) (i : CAddrInfo) : Z :=
  let hash1 := cheap_hash (nKey ++ Serialize_bytes (CService_GetKey (ai_service i))) in
  let hash2 := cheap_hash (nKey ++ Serialize_bytes (GetGroup (ai_ip i)) ++
                           ser_writedata64 (hash1 `mod` ADDRMAN_TRIED_BUCKETS_PER_GROUP)) in
  hash2 `mod` ADDRMAN_TRIED_BUCKET_COUNT.

Definition GetNewBucket (nKey : bytes) (src : CNetAddr) (i : CAddrInfo) : Z :=
  let vchSourceGroupKey := GetGroup src in
  let hash1 := cheap_hash (nKey ++ Serialize_bytes (GetGroup (ai_ip i)) ++ Serialize_bytes vchSourceGroupKey) in
  let hash2 := cheap_hash (nKey ++ Serialize_bytes vchSourceGroupKey ++
                           ser_writedata64 (hash1 `mod` ADDRMAN_NEW_BUCKETS_PER_SOURCE_GROUP)) in
  hash2 `mod` ADDRMAN_NEW_BUCKET_COUNT.

(** The characters are ['N'] and ['K']. *)
Definition GetBucketPosition (nKey : bytes) (fNew : bool) (nBucket : Z) (i : CAddrInfo) : Z :=
  let hash1 := cheap_hash (nKey ++ ser_writedata8 (if fNew then 78 else 75) ++ ser_writedata32 nBucket ++
                           Serialize_bytes (CService_GetKey (ai_service i))) in
  hash1 `mod` ADDRMAN_BUCKET_SIZE.

Definition IsTerrible (nNow : Z) (i : CAddrInfo) : bool :=
  if negb (ai_nLastTry i =? 0) && (nNow - 60 <=? ai_nLastTry i) then false
  else if nNow + 10 * 60 <? ai_nTime i then true
  else if (ai_nTime i =? 0) || (ADDRMAN_HORIZON_DAYS * 24 * 60 * 60 <? nNow - ai_nTime i) then true
  else if (ai_nLastSuccess i =? 0) && (ADDRMAN_RETRIES <=? ai_nAttempts i) then true
  else (ADDRMAN_MIN_FAIL_DAYS * 24 * 60 * 60 <? nNow - ai_nLastSuccess i) && (ADDRMAN_MAX_FAILURES <=? ai_nAttempts i).

(** *** The chance of an entry

    [double] is the IEEE format of 53 bits; [pow(0.66, n)] is the C library's, a parameter. *)
Definition dmul : spec_float -> spec_float -> spec_float := SFmul 53 1024.
Definition double_of (n : Z) : spec_float := binary_normalize 53 1024 n 0 false.
Definition lit_1_2 : spec_float := S754_finite false 5404319552844595 (-52).
Definition lit_0_01 : spec_float := S754_finite false 5764607523034235 (-59).

Definition GetChance (pow066 : Z -> spec_float) (nNow : Z) (i : CAddrInfo) : spec_float :=
  let nSinceLastTry := Z.max 0 (nNow - ai_nLastTry i) in
  let fChance := double_of 1 in
  let fChance := if nSinceLastTry <? 60 * 10 then dmul fChance lit_0_01 else fChance in
  dmul fChance (pow066 (Z.min (ai_nAttempts i) 8)).

(** ** The manager *)

Record CAddrMan := {
  nIdCount : Z;
  mapInfo : gmap Z CAddrInfo;
  mapAddr : gmap CNetAddr Z;
  vRandom : list Z;
  nTried : Z;
  vvTried : gmap (Z * Z) Z;
  nNew : Z;
  vvNew : gmap (Z * Z) Z;
  nLastGood : Z;
  am_nKey : bytes }.

(** A slot of an array of buckets, and its assignment. *)
Definition slot (vv : gmap (Z * Z) Z) (b p : Z) : Z := default (-1) (vv !! (b, p)).
Definition set_slot (vv : gmap (Z * Z) Z) (b p v : Z) : gmap (Z * Z) Z :=
  if v =? -1 then delete (b, p) vv else <[(b, p) := v]> vv.

(** [mapInfo[id]], which default-constructs a missing entry, and an assignment through a
    reference to it. *)
Definition info_at (am : CAddrMan) (id : Z) : CAddrInfo := default CAddrInfo_default (mapInfo am !! id).

Definition with_infos (m : gmap Z CAddrInfo) (am : CAddrMan) : CAddrMan :=
  {| nIdCount := nIdCount am; mapInfo := m; mapAddr := mapAddr am; vRandom := vRandom am; nTried := nTried am;
     vvTried := vvTried am; nNew := nNew am; vvNew := vvNew am; nLastGood := nLastGood am; am_nKey := am_nKey am |}.
Definition with_random (v : list Z) (am : CAddrMan) : CAddrMan :=
  {| nIdCount := nIdCount am; mapInfo := mapInfo am; mapAddr := mapAddr am; vRandom := v; nTried := nTried am;
     vvTried := vvTried am; nNew := nNew am; vvNew := vvNew am; nLastGood := nLastGood am; am_nKey := am_nKey am |}.
Definition with_counts (new tried : Z) (am : CAddrMan) : CAddrMan :=
  {| nIdCount := nIdCount am; mapInfo := mapInfo am; mapAddr := mapAddr am; vRandom := vRandom am; nTried := tried;
     vvTried := vvTried am; nNew := new; vvNew := vvNew am; nLastGood := nLastGood am; am_nKey := am_nKey am |}.
Definition with_new (vv : gmap (Z * Z) Z) (am : CAddrMan) : CAddrMan :=
  {| nIdCount := nIdCount am; mapInfo := mapInfo am; mapAddr := mapAddr am; vRandom := vRandom am; nTried := nTried am;
     vvTried := vvTried am; nNew := nNew am; vvNew := vv; nLastGood := nLastGood am; am_nKey := am_nKey am |}.
Definition with_tried (vv : gmap (Z * Z) Z) (am : CAddrMan) : CAddrMan :=
  {| nIdCount := nIdCount am; mapInfo := mapInfo am; mapAddr := mapAddr am; vRandom := vRandom am; nTried := nTried am;
     vvTried := vv; nNew := nNew am; vvNew := vvNew am; nLastGood := nLastGood am; am_nKey := am_nKey am |}.
Definition with_good (t : Z) (am : CAddrMan) : CAddrMan :=
  {| nIdCount := nIdCount am; mapInfo := mapInfo am; mapAddr := mapAddr am; vRandom := vRandom am; nTried := nTried am;
     vvTried := vvTried am; nNew := nNew am; vvNew := vvNew am; nLastGood := t; am_nKey := am_nKey am |}.

Definition upd (id : Z) (f : CAddrInfo -> CAddrInfo) (am : CAddrMan) : CAddrMan :=
  with_infos (<[id := f (info_at am id)]> (mapInfo am)) am.

(** [Clear]: [mapInfo] and [mapAddr] are left as they are. The key is a random draw. *)
Definition Clear (randKey : bytes) (am : CAddrMan) : CAddrMan :=
  {| nIdCount := 0; mapInfo := mapInfo am; mapAddr := mapAddr am; vRandom := []; nTried := 0; vvTried := ∅;
     nNew := 0; vvNew := ∅; nLastGood := 1; am_nKey := randKey |}.

(** The constructor: the maps start empty. *)
Definition CAddrMan_new (randKey : bytes) : CAddrMan :=
  Clear randKey {| nIdCount := 0; mapInfo := ∅; mapAddr := ∅; vRandom := []; nTried := 0; vvTried := ∅;
                   nNew := 0; vvNew := ∅; nLastGood := 0; am_nKey := [] |}.

Definition CAddrMan_size (am : CAddrMan) : Z := zlen (vRandom am).

Definition Find (am : CAddrMan) (addr : CNetAddr) : option Z :=
  id ← mapAddr am !! addr; if decide (is_Some (mapInfo am !! id)) then Some id else None.

(** [Create]: the id of the new entry. *)
Definition Create (am : CAddrMan) (addr : CAddress) (addrSource : CNetAddr) : Z * CAddrMan :=
  let nId := nIdCount am in
  (nId,
   {| nIdCount := s32 (nId + 1);
      mapInfo := <[nId := set_pos (s32 (zlen (vRandom am))) (CAddrInfo_new addr addrSource)]> (mapInfo am);
      mapAddr := <[sv_ip (ad_service addr) := nId]> (mapAddr am);
      vRandom := vRandom am ++ [nId];
      nTried := nTried am; vvTried := vvTried am; nNew := nNew am; vvNew := vvNew am;
      nLastGood := nLastGood am; am_nKey := am_nKey am |}).

(** The positions are [unsigned int]. *)
Definition SwapRandom (am : CAddrMan) (nRndPos1 nRndPos2 : Z) : option CAddrMan :=
  if nRndPos1 =? nRndPos2 then Some am
  else if (nRndPos1 <? zlen (vRandom am)) && (nRndPos2 <? zlen (vRandom am)) then
    let nId1 := idx (vRandom am) nRndPos1 in
    let nId2 := idx (vRandom am) nRndPos2 in
    if bool_decide (is_Some (mapInfo am !! nId1)) && bool_decide (is_Some (mapInfo am !! nId2)) then
      Some (with_random (<[Z.to_nat nRndPos2 := nId1]> (<[Z.to_nat nRndPos1 := nId2]> (vRandom am)))
              (upd nId2 (set_pos (s32 nRndPos1)) (upd nId1 (set_pos (s32 nRndPos2)) am)))
    else None
  else None.

Definition Delete (am : CAddrMan) (nId : Z) : option CAddrMan :=
  info ← mapInfo am !! nId;
  if ai_fInTried info then None
  else if ai_nRefCount info =? 0 then
    am ← SwapRandom am (u32 (ai_nRandomPos info)) (u32 (zlen (vRandom am) - 1));
    Some {| nIdCount := nIdCount am; mapInfo := delete nId (mapInfo am); mapAddr := delete (ai_ip info) (mapAddr am);
            vRandom := take (length (vRandom am) - 1) (vRandom am); nTried := nTried am; vvTried := vvTried am;
            nNew := nNew am - 1; vvNew := vvNew am; nLastGood := nLastGood am; am_nKey := am_nKey am |}
  else None.

Definition ClearNew (am : CAddrMan) (nUBucket nUBucketPos : Z) : option CAddrMan :=
  let nIdDelete := slot (vvNew am) nUBucket nUBucketPos in
  if nIdDelete =? -1 then Some am
  else
    let infoDelete := info_at am nIdDelete in
    if 0 <? ai_nRefCount infoDelete then
      let am := upd nIdDelete (fun i => set_refs (ai_nRefCount i - 1) i) am in
      let am := with_new (set_slot (vvNew am) nUBucket nUBucketPos (-1)) am in
      if ai_nRefCount (info_at am nIdDelete) =? 0 then Delete am nIdDelete else Some am
    else None.

(** *** From "new" to "tried" *)

(** One round of the loop that removes the entry from the new buckets. *)
Definition leave_bucket (nId : Z) (am : CAddrMan) (bucket : Z) : CAddrMan :=
  let pos := GetBucketPosition (am_nKey am) true bucket (info_at am nId) in
  if slot (vvNew am) bucket pos =? nId
  then upd nId (fun i => set_refs (ai_nRefCount i - 1) i) (with_new (set_slot (vvNew am) bucket pos (-1)) am)
  else am.

Definition new_buckets : list Z := seqZ 0 ADDRMAN_NEW_BUCKET_COUNT.

(** The tried entry in the way goes back to the new table. *)
Definition evict (am : CAddrMan) (nKBucket nKBucketPos : Z) : option CAddrMan :=
  let nIdEvict := slot (vvTried am) nKBucket nKBucketPos in
  if nIdEvict =? -1 then Some am
  else if bool_decide (is_Some (mapInfo am !! nIdEvict)) then
    let am := upd nIdEvict (set_tried false) am in
    let am := with_tried (set_slot (vvTried am) nKBucket nKBucketPos (-1)) am in
    let am := with_counts (nNew am) (nTried am - 1) am in
    let infoOld := info_at am nIdEvict in
    let nUBucket := GetNewBucket (am_nKey am) (ai_source infoOld) infoOld in
    let nUBucketPos := GetBucketPosition (am_nKey am) true nUBucket infoOld in
    am ← ClearNew am nUBucket nUBucketPos;
    if slot (vvNew am) nUBucket nUBucketPos =? -1 then
      let am := upd nIdEvict (set_refs 1) am in
      let am := with_new (set_slot (vvNew am) nUBucket nUBucketPos nIdEvict) am in
      Some (with_counts (nNew am + 1) (nTried am) am)
    else None
  else None.

Definition MakeTried (am : CAddrMan) (nId : Z) : option CAddrMan :=
  let am := foldl (leave_bucket nId) am new_buckets in
  let am := with_counts (nNew am - 1) (nTried am) am in
  let info := info_at am nId in
  if ai_nRefCount info =? 0 then
    let nKBucket := GetTriedBucket (am_nKey am) info in
    let nKBucketPos := GetBucketPosition (am_nKey am) false nKBucket info in
    am ← evict am nKBucket nKBucketPos;
    if slot (vvTried am) nKBucket nKBucketPos =? -1 then
      let am := with_tried (set_slot (vvTried am) nKBucket nKBucketPos nId) am in
      let am := with_counts (nNew am) (nTried am + 1) am in
      Some (upd nId (set_tried true) am)
    else None
  else None.

(** The bucket found by the search that starts at [nRnd], if any. *)
Definition find_new_bucket (am : CAddrMan) (nId nRnd : Z) : option Z :=
  List.find (fun nB => slot (vvNew am) nB (GetBucketPosition (am_nKey am) true nB (info_at am nId)) =? nId)
    ((fun n => u32 (n + nRnd) `mod` ADDRMAN_NEW_BUCKET_COUNT) <$> new_buckets).

Definition Good_ (RandomInt : Z -> Z) (addr : CService) (nTime : Z) (am : CAddrMan) : option CAddrMan :=
  let am := with_good nTime am in
  match Find am (sv_ip addr) with
  | None => Some am
  | Some nId =>
      if negb (CService_eq (ai_service (info_at am nId)) addr) then Some am
      else
        let am := upd nId (fun i => set_stats nTime nTime (ai_nLastCountAttempt i) 0 i) am in
        if ai_fInTried (info_at am nId) then Some am
        else match find_new_bucket am nId (RandomInt ADDRMAN_NEW_BUCKET_COUNT) with
             | None => Some am
             | Some _ => MakeTried am nId
             end
  end.

(** *** Adding *)

(** What [Add_] does to a known entry before it looks for a bucket: the entry, and whether
    it goes on. *)
Definition refresh (RandomInt : Z -> Z) (now : Z) (addr : CAddress) (nTimePenalty : Z) (info : CAddrInfo) : CAddrInfo * bool :=
  let fCurrentlyOnline := now - ad_nTime addr <? 24 * 60 * 60 in
  let nUpdateInterval := if fCurrentlyOnline then 60 * 60 else 24 * 60 * 60 in
  let nTime' :=
    if negb (ad_nTime addr =? 0) && ((ai_nTime info =? 0) || (ai_nTime info <? ad_nTime addr - nUpdateInterval - nTimePenalty))
    then u32 (Z.max 0 (ad_nTime addr - nTimePenalty)) else ai_nTime info in
  let info := set_addr {| ad_service := ai_service info;
                          ad_nServices := Z.lor (ad_nServices (ai_addr info)) (ad_nServices addr);
                          ad_nTime := nTime' |} info in
  (info,
   if (ad_nTime addr =? 0) || (negb (ai_nTime info =? 0) && (ad_nTime addr <=? ai_nTime info)) then false
   else if ai_fInTried info then false
   else if ai_nRefCount info =? ADDRMAN_NEW_BUCKETS_PER_ADDRESS then false
   else let nFactor := 2 ^ Z.max 0 (ai_nRefCount info) in negb ((1 <? nFactor) && negb (RandomInt nFactor =? 0))).

(** The second half of [Add_]: the entry into its bucket for this source. *)
Definition place (now : Z) (source : CNetAddr) (nId : Z) (am : CAddrMan) : option CAddrMan :=
  let info := info_at am nId in
  let nUBucket := GetNewBucket (am_nKey am) source info in
  let nUBucketPos := GetBucketPosition (am_nKey am) true nUBucket info in
  let there := slot (vvNew am) nUBucket nUBucketPos in
  if there =? nId then Some am
  else
    let am := if there =? -1 then am else upd there id am in
    let infoExisting := info_at am there in
    let fInsert := (there =? -1) || IsTerrible now infoExisting || ((1 <? ai_nRefCount infoExisting) && (ai_nRefCount info =? 0)) in
    if fInsert then
      am ← ClearNew am nUBucket nUBucketPos;
      let am := upd nId (fun i => set_refs (ai_nRefCount i + 1) i) am in
      Some (with_new (set_slot (vvNew am) nUBucket nUBucketPos nId) am)
    else if ai_nRefCount info =? 0 then Delete am nId else Some am.

Definition Add_ (RandomInt : Z -> Z) (now : Z) (addr : CAddress) (source : CNetAddr) (nTimePenalty : Z) (am : CAddrMan)
    : option (bool * CAddrMan) :=
  if negb (IsRoutable (sv_ip (ad_service addr))) then Some (false, am)
  else match Find am (sv_ip (ad_service addr)) with
       | Some nId =>
           let (info, go) := refresh RandomInt now addr nTimePenalty (info_at am nId) in
           let am := upd nId (fun _ => info) am in
           if go then am ← place now source nId am; Some (false, am) else Some (false, am)
       | None =>
           let (nId, am) := Create am addr source in
           let am := upd nId (fun i => set_addr {| ad_service := ai_service i; ad_nServices := ad_nServices (ai_addr i);
                                                   ad_nTime := u32 (Z.max 0 (ai_nTime i - nTimePenalty)) |} i) am in
           let am := with_counts (nNew am + 1) (nTried am) am in
           am ← place now source nId am; Some (true, am)
       end.

(** [Add] of a vector: whether an address was new. *)
Fixpoint Add_all (RandomInt : nat -> Z -> Z) (now : Z) (vAddr : list CAddress) (source : CNetAddr) (nTimePenalty : Z) (am : CAddrMan)
    : option (Z * CAddrMan) :=
  match vAddr with
  | [] => Some (0, am)
  | addr :: vAddr =>
      r ← Add_ (RandomInt (length vAddr)) now addr source nTimePenalty am;
      t ← Add_all RandomInt now vAddr source nTimePenalty r.2;
      Some ((if r.1 : bool then 1 else 0) + t.1, t.2)
  end.

(** *** Statistics *)

(** [Find], then the comparison of the services, as the three updates below begin. *)
Definition find_service (am : CAddrMan) (addr : CService) : option Z :=
  nId ← Find am (sv_ip addr); if CService_eq (ai_service (info_at am nId)) addr then Some nId else None.

Definition Attempt_ (addr : CService) (fCountFailure : bool) (nTime : Z) (am : CAddrMan) : CAddrMan :=
  match find_service am addr with
  | None => am
  | Some nId =>
      upd nId (fun i =>
        if fCountFailure && (ai_nLastCountAttempt i <? nLastGood am)
        then set_stats (ai_nLastSuccess i) nTime nTime (s32 (ai_nAttempts i + 1)) i
        else set_stats (ai_nLastSuccess i) nTime (ai_nLastCountAttempt i) (ai_nAttempts i) i) am
  end.

Definition Connected_ (addr : CService) (nTime : Z) (am : CAddrMan) : CAddrMan :=
  match find_service am addr with
  | None => am
  | Some nId =>
      upd nId (fun i =>
        if 20 * 60 <? nTime - ai_nTime i
        then set_addr {| ad_service := ai_service i; ad_nServices := ad_nServices (ai_addr i); ad_nTime := u32 nTime |} i
        else i) am
  end.

Definition SetServices_ (addr : CService) (nServices : Z) (am : CAddrMan) : CAddrMan :=
  match find_service am addr with
  | None => am
  | Some nId =>
      upd nId (fun i => set_addr {| ad_service := ai_service i; ad_nServices := nServices; ad_nTime := ai_nTime i |} i) am
  end.

(** *** Choosing *)

(** The draws of one call of [Select_]: [RandomInt] and [insecure_rand.randbits], by the
    number of the draw. *)
Record draws := { d_int : nat -> Z -> Z; d_bits : nat -> Z -> Z }.

(** [while (vv[nBucket][nPos] == -1) ...]: the slot where the walk stops, with the number
    of draws made. *)
Fixpoint walk (fuel : nat) (rnd : draws) (k : nat) (vv : gmap (Z * Z) Z) (log2 : Z) (b p : Z) : option (Z * Z * nat) :=
  if slot vv b p =? -1 then
    match fuel with
    | O => None
    | S fuel =>
        walk fuel rnd (S (S k)) vv log2 ((b + d_bits rnd k log2) `mod` 2 ^ log2)
          ((p + d_bits rnd (S k) 6) `mod` ADDRMAN_BUCKET_SIZE)
    end
  else Some (b, p, k).

(** [while (1) ...] on one of the tables. [inr] is a failed assertion, [None] a run longer
    than the fuel. *)
Fixpoint select_loop (fuel : nat) (rnd : draws) (k : nat) (pow066 : Z -> spec_float) (now : Z) (am : CAddrMan)
    (vv : gmap (Z * Z) Z) (log2 : Z) (fChanceFactor : spec_float) : option (CAddrInfo + unit) :=
  match fuel with
  | O => None
  | S fuel =>
      let b := d_int rnd k (2 ^ log2) in
      let p := d_int rnd (S k) ADDRMAN_BUCKET_SIZE in
      w ← walk fuel rnd (S (S k)) vv log2 b p;
      let '(b, p, k) := w in
      match mapInfo am !! slot vv b p with
      | None => Some (inr ())
      | Some info =>
          let limit := dmul (dmul fChanceFactor (GetChance pow066 now info)) (double_of (2 ^ 30)) in
          if SFltb (double_of (d_int rnd k (2 ^ 30))) limit then Some (inl info)
          else select_loop fuel rnd (S k) pow066 now am vv log2 (dmul fChanceFactor lit_1_2)
      end
  end.

Definition Select_ (fuel : nat) (rnd : draws) (pow066 : Z -> spec_float) (now : Z) (newOnly : bool) (am : CAddrMan)
    : option (CAddrInfo + unit) :=
  if CAddrMan_size am =? 0 then Some (inl CAddrInfo_default)
  else if newOnly && (nNew am =? 0) then Some (inl CAddrInfo_default)
  else if negb newOnly && ((0 <? nTried am) && ((nNew am =? 0) || (d_int rnd 0 2 =? 0)))
  then select_loop fuel rnd 1 pow066 now am (vvTried am) 8 (double_of 1)
  else select_loop fuel rnd 1 pow066 now am (vvNew am) 10 (double_of 1).

(** [for (n = 0; n < vRandom.size(); n++)] of [GetAddr_]. *)
Fixpoint getaddr_loop (RandomInt : nat -> Z -> Z) (now nNodes : Z) (todo : nat) (n : Z) (am : CAddrMan) (vAddr : list CAddress)
    : option (list CAddress * CAddrMan) :=
  match todo with
  | O => Some (vAddr, am)
  | S todo =>
      if nNodes <=? zlen vAddr then Some (vAddr, am)
      else
        let nRndPos := RandomInt (S todo) (zlen (vRandom am) - n) + n in
        am ← SwapRandom am n (u32 nRndPos);
        ai ← mapInfo am !! idx (vRandom am) n;
        getaddr_loop RandomInt now nNodes todo (n + 1) am (if negb (IsTerrible now ai) then vAddr ++ [ai_addr ai] else vAddr)
  end.

Definition GetAddr_ (RandomInt : nat -> Z -> Z) (now : Z) (am : CAddrMan) : option (list CAddress * CAddrMan) :=
  let nNodes := u32 (ADDRMAN_GETADDR_MAX_PCT * zlen (vRandom am) / 100) in
  let nNodes := if ADDRMAN_GETADDR_MAX <? nNodes then ADDRMAN_GETADDR_MAX else nNodes in
  getaddr_loop RandomInt now nNodes (length (vRandom am)) 0 am [].

(** *** The consistency check

    [Check_] of a build with [DEBUG_ADDRMAN]: zero or an error code. [mapAddr[info]] inserts
    a missing key with the value 0, so the map is threaded. *)
Record tally := { t_setTried : gset Z; t_mapNew : gmap Z Z; t_mapAddr : gmap CNetAddr Z }.

Definition check_table (n : Z) (info : CAddrInfo) (t : tally) : res Z tally :=
  if ai_fInTried info then
    if ai_nLastSuccess info =? 0 then Err (-1)
    else if negb (ai_nRefCount info =? 0) then Err (-2)
    else Ok {| t_setTried := {[n]} ∪ t_setTried t; t_mapNew := t_mapNew t; t_mapAddr := t_mapAddr t |}
  else if (ai_nRefCount info <? 0) || (ADDRMAN_NEW_BUCKETS_PER_ADDRESS <? ai_nRefCount info) then Err (-3)
  else if ai_nRefCount info =? 0 then Err (-4)
  else Ok {| t_setTried := t_setTried t; t_mapNew := <[n := ai_nRefCount info]> (t_mapNew t); t_mapAddr := t_mapAddr t |}.

Definition check_entry (am : CAddrMan) (t : tally) (n : Z) : res Z tally :=
  let info := info_at am n in
  let* t := check_table n info t in
  let a := default 0 (t_mapAddr t !! ai_ip info) in
  if negb (a =? n) then Err (-5)
  else if (ai_nRandomPos info <? 0) || (zlen (vRandom am) <=? ai_nRandomPos info) || negb (idx (vRandom am) (ai_nRandomPos info) =? n)
  then Err (-14)
  else if ai_nLastTry info <? 0 then Err (-6)
  else if ai_nLastSuccess info <? 0 then Err (-8)
  else Ok {| t_setTried := t_setTried t; t_mapNew := t_mapNew t; t_mapAddr := <[ai_ip info := a]> (t_mapAddr t) |}.

Definition check_tried_slot (am : CAddrMan) (setTried : gset Z) (at_ : Z * Z) : res Z (gset Z) :=
  let (n, i) := at_ in
  let v := slot (vvTried am) n i in
  if v =? -1 then Ok setTried
  else if negb (bool_decide (v ∈ setTried)) then Err (-11)
  else if negb (GetTriedBucket (am_nKey am) (info_at am v) =? n) then Err (-17)
  else if negb (GetBucketPosition (am_nKey am) false n (info_at am v) =? i) then Err (-18)
  else Ok (setTried ∖ {[v]}).

Definition check_new_slot (am : CAddrMan) (mapNew : gmap Z Z) (at_ : Z * Z) : res Z (gmap Z Z) :=
  let (n, i) := at_ in
  let v := slot (vvNew am) n i in
  if v =? -1 then Ok mapNew
  else match mapNew !! v with
       | None => Err (-12)
       | Some c =>
           if negb (GetBucketPosition (am_nKey am) true n (info_at am v) =? i) then Err (-19)
           else Ok (if c - 1 =? 0 then delete v mapNew else <[v := c - 1]> mapNew)
       end.

(** The slots of an array of buckets in the order of the loops. *)
Definition slots (buckets : Z) : list (Z * Z) := n ← seqZ 0 buckets; i ← seqZ 0 ADDRMAN_BUCKET_SIZE; [(n, i)].

(** The keys of [mapInfo] in order. *)
Definition ids (am : CAddrMan) : list Z := merge_sort Z.le (elements (dom (mapInfo am))).

Definition check_all (am : CAddrMan) : res Z unit :=
  if negb (zlen (vRandom am) =? nTried am + nNew am) then Err (-7)
  else
    let* t := res_fold (check_entry am) {| t_setTried := ∅; t_mapNew := ∅; t_mapAddr := mapAddr am |} (ids am) in
    if negb (Z.of_nat (size (t_setTried t)) =? nTried am) then Err (-9)
    else if negb (Z.of_nat (size (t_mapNew t)) =? nNew am) then Err (-10)
    else
      let* setTried := res_fold (check_tried_slot am) (t_setTried t) (slots ADDRMAN_TRIED_BUCKET_COUNT) in
      let* mapNew := res_fold (check_new_slot am) (t_mapNew t) (slots ADDRMAN_NEW_BUCKET_COUNT) in
      if negb (size setTried =? 0)%nat then Err (-13)
      else if negb (size mapNew =? 0)%nat then Err (-15)
      else if bool_decide (Forall (fun b => b = 0) (am_nKey am)) then Err (-16)
      else Ok tt.

Definition Check_ (am : CAddrMan) : Z := match check_all am with Ok _ => 0 | Err e => e end.

(** *** Histories

    A call of a public method, with what it reads from the clock and the random source. *)
Inductive call :=
| call_Add (RandomInt : nat -> Z -> Z) (now : Z) (vAddr : list CAddress) (source : CNetAddr) (nTimePenalty : Z)
| call_Good (RandomInt : Z -> Z) (addr : CService) (nTime : Z)
| call_Attempt (addr : CService) (fCountFailure : bool) (nTime : Z)
| call_GetAddr (RandomInt : nat -> Z -> Z) (now : Z)
| call_Connected (addr : CService) (nTime : Z)
| call_SetServices (addr : CService) (nServices : Z).

Definition run_call (am : CAddrMan) (c : call) : option CAddrMan :=
  match c with
  | call_Add rnd now vAddr source nTimePenalty => snd <$> Add_all rnd now vAddr source nTimePenalty am
  | call_Good rnd addr nTime => Good_ rnd addr nTime am
  | call_Attempt addr fCountFailure nTime => Some (Attempt_ addr fCountFailure nTime am)
  | call_GetAddr rnd now => snd <$> GetAddr_ rnd now am
  | call_Connected addr nTime => Some (Connected_ addr nTime am)
  | call_SetServices addr nServices => Some (SetServices_ addr nServices am)
  end.

Fixpoint run_calls (am : CAddrMan) (cs : list call) : option CAddrMan :=
  match cs with
  | [] => Some am
  | c :: cs => am ← run_call am c; run_calls am cs
  end.
