(* ===== verification/AddrManFacts.v ===== *)
(** The invariant of the address manager: the tables, the index by address, the random
    order and the counters agree, so that no assertion of the code can fail and its own
    consistency check finds nothing. *)

From Stdlib Require Import ZArith Lia.
From stdpp Require Import base tactics list numbers option gmap fin_maps sorting.
From S2P Require Import Prelude Serialize NetAddress AddrMan.

(** ** Counting in finite maps *)

Section Count.
Context {K : Type} `{Countable K} {A : Type}.
Implicit Types (m : gmap K A) (p : A -> bool).

(** How many values of a map satisfy a test. *)
Definition count p m : Z := Z.of_nat (size (filter (fun kv => p kv.2 = true) m)).

Lemma count_nonneg p m : 0 <= count p m.
Proof. unfold count. lia. Qed.

Lemma count_empty p : count p ∅ = 0.
Proof. done. Qed.

Lemma count_insert_None p m k x : m !! k = None -> count p (<[k := x]> m) = count p m + Z.b2z (p x).
Proof.
  intros E. unfold count. rewrite map_filter_insert. cbn. case_decide as D.
  - rewrite D, map_size_insert_None; [cbn; lia |]. apply map_lookup_filter_None. auto.
  - rewrite delete_id by done. destruct (p x); [done | cbn; lia].
Qed.

Lemma count_delete p m k x : m !! k = Some x -> count p (delete k m) = count p m - Z.b2z (p x).
Proof.
  intros E. rewrite <- (insert_delete_id m k x E) at 2. rewrite count_insert_None by apply lookup_delete_eq. lia.
Qed.

Lemma count_insert_Some p m k x y : m !! k = Some y -> count p (<[k := x]> m) = count p m - Z.b2z (p y) + Z.b2z (p x).
Proof.
  intros E. rewrite <- insert_delete_eq, count_insert_None by apply lookup_delete_eq. rewrite (count_delete _ _ _ y) by done. lia.
Qed.

Lemma count_zero p m k x : count p m = 0 -> m !! k = Some x -> p x = false.
Proof.
  intros C E. destruct (p x) eqn:Ep; [| done]. pose proof (count_delete p m k x E) as D. rewrite Ep, C in D.
  pose proof (count_nonneg p (delete k m)). cbn in D. lia.
Qed.

Lemma count_none p m : (forall k x, m !! k = Some x -> p x = false) -> count p m = 0.
Proof.
  intros N. unfold count. replace (filter _ m) with (∅ : gmap K A); [done |]. symmetry. apply map_empty. intros k.
  apply map_lookup_filter_None. right. intros x E. cbn. by rewrite (N _ _ E).
Qed.

Lemma count_split p m : count p m + count (fun x => negb (p x)) m = Z.of_nat (size m).
Proof.
  induction m as [| k x m E IH] using map_ind; [done |]. rewrite !count_insert_None, map_size_insert_None by done.
  destruct (p x); cbn [negb Z.b2z]; lia.
Qed.

(** A view of the values is unchanged when the new value looks the same. *)
Lemma fmap_same {B} (f : A -> B) m k x y : m !! k = Some x -> f y = f x -> f <$> <[k := y]> m = f <$> m.
Proof. intros E F. rewrite fmap_insert, F. apply insert_id. by rewrite lookup_fmap, E. Qed.
End Count.

(** ** The invariant *)

(** What the groups of fields of an entry are to the invariant. *)
Definition v_flag (i : CAddrInfo) : CService * bool := (ai_service i, ai_fInTried i).
Definition v_place (i : CAddrInfo) : CService * bool * Z := (ai_service i, ai_fInTried i, ai_nRefCount i).

(** Buckets depend on the service alone. *)
Definition tried_bucket (key : bytes) (s : CService) : Z := GetTriedBucket key (CAddrInfo_new (CAddress_Init s) []).
Definition position (key : bytes) (fNew : bool) (b : Z) (s : CService) : Z :=
  GetBucketPosition key fNew b (CAddrInfo_new (CAddress_Init s) []).

Lemma GetTriedBucket_service key i : GetTriedBucket key i = tried_bucket key (ai_service i).
Proof. unfold tried_bucket, GetTriedBucket. reflexivity. Qed.
Lemma GetBucketPosition_service key fNew b i : GetBucketPosition key fNew b i = position key fNew b (ai_service i).
Proof. unfold position, GetBucketPosition. reflexivity. Qed.

Lemma tried_bucket_range key s : 0 <= tried_bucket key s < 256.
Proof. unfold tried_bucket, GetTriedBucket, ADDRMAN_TRIED_BUCKET_COUNT. apply Z.mod_pos_bound. lia. Qed.
Lemma position_range key fNew b s : 0 <= position key fNew b s < 64.
Proof. unfold position, GetBucketPosition, ADDRMAN_BUCKET_SIZE. apply Z.mod_pos_bound. lia. Qed.
Lemma GetNewBucket_range key src i : 0 <= GetNewBucket key src i < 1024.
Proof. unfold GetNewBucket, ADDRMAN_NEW_BUCKET_COUNT. apply Z.mod_pos_bound. lia. Qed.

#[global] Opaque tried_bucket position GetNewBucket GetTriedBucket GetBucketPosition.

(** The number of new buckets an entry is in. *)
Definition refs (vv : gmap (Z * Z) Z) (n : Z) : Z := count (fun v => v =? n) vv.

(** Ids were given out, and the index finds each entry by its address. *)
Definition ids_ok (nId : Z) (ips : gmap Z CNetAddr) (index : gmap CNetAddr Z) : Prop :=
  (forall n a, ips !! n = Some a -> 0 <= n < nId /\ index !! a = Some n) /\
  (forall a n, index !! a = Some n -> ips !! n = Some a).

(** The random order lists every entry once, at the position the entry records. *)
Definition random_ok (pos : gmap Z Z) (v : list Z) : Prop :=
  forall n p, pos !! n = Some p <-> 0 <= p /\ v !! Z.to_nat p = Some n.

(** The tried table holds the tried entries, each in its slot. *)
Definition tried_ok (key : bytes) (flags : gmap Z (CService * bool)) (vv : gmap (Z * Z) Z) : Prop :=
  forall b p n, vv !! (b, p) = Some n <->
    exists s, flags !! n = Some (s, true) /\ b = tried_bucket key s /\ p = position key false b s.

(** The new table holds each new entry as often as the entry counts, one to eight times,
    in slots that are its own; the entries of [P] are between tables. *)
Definition new_ok (key : bytes) (places : gmap Z (CService * bool * Z)) (P : gset Z) (vv : gmap (Z * Z) Z) : Prop :=
  (forall n s t r, places !! n = Some (s, t, r) ->
     r = refs vv n /\ (t = false -> if decide (n ∈ P) then r = 0 else 1 <= r <= 8)) /\
  (forall b p n, vv !! (b, p) = Some n ->
     exists s r, places !! n = Some (s, false, r) /\ p = position key true b s /\ 0 <= b < 1024).

(** The fields of an address are in the ranges of their types. *)
Definition net_ok (ip : CNetAddr) : Prop := length ip = 16%nat /\ is_bytes ip.
Definition address_ok (a : CAddress) : Prop :=
  net_ok (sv_ip (ad_service a)) /\ 0 <= sv_port (ad_service a) < 2 ^ 16 /\ 0 <= ad_nServices a < 2 ^ 64 /\ 0 <= ad_nTime a < 2 ^ 32.

(** So are the fields of an entry, and a tried entry has been connected to. *)
Definition times_ok (i : CAddrInfo) : Prop :=
  0 <= ai_nLastTry i /\ 0 <= ai_nLastSuccess i < 2 ^ 63 /\ (ai_fInTried i = true -> ai_nLastSuccess i <> 0) /\
  - 2 ^ 31 <= ai_nAttempts i < 2 ^ 31 /\ net_ok (ai_source i) /\ address_ok (ai_addr i).

(** [k] new entries are not counted in [nNew]. *)
Record wf (P : gset Z) (k : Z) (am : CAddrMan) : Prop := {
  w_ids : ids_ok (nIdCount am) (ai_ip <$> mapInfo am) (mapAddr am);
  w_random : random_ok (ai_nRandomPos <$> mapInfo am) (vRandom am);
  w_len : zlen (vRandom am) <= nIdCount am;
  w_tried : tried_ok (am_nKey am) (v_flag <$> mapInfo am) (vvTried am);
  w_new : new_ok (am_nKey am) (v_place <$> mapInfo am) P (vvNew am);
  w_times : map_Forall (fun _ => times_ok) (mapInfo am);
  w_nTried : nTried am = count id (ai_fInTried <$> mapInfo am);
  w_nNew : nNew am + k = count negb (ai_fInTried <$> mapInfo am);
  w_cap : nIdCount am < 2 ^ 31;
  w_key : Exists (fun b => b <> 0) (am_nKey am) }.

Lemma info_at_some am n i : mapInfo am !! n = Some i -> info_at am n = i.
Proof. unfold info_at. by intros ->. Qed.

Lemma upd_some am n f i : mapInfo am !! n = Some i -> upd n f am = with_infos (<[n := f i]> (mapInfo am)) am.
Proof. intros E. unfold upd. by rewrite (info_at_some am n i E). Qed.

(** A change of an entry that keeps what the structure reads. *)
Lemma wf_upd P k am n f i :
  wf P k am -> mapInfo am !! n = Some i ->
  v_place (f i) = v_place i -> ai_nRandomPos (f i) = ai_nRandomPos i -> times_ok (f i) -> wf P k (upd n f am).
Proof.
  intros W E Hp Hr Ht. rewrite (upd_some _ _ _ i E).
  assert (Hs : ai_service (f i) = ai_service i) by (unfold v_place in Hp; congruence).
  assert (Hf : ai_fInTried (f i) = ai_fInTried i) by (unfold v_place in Hp; congruence).
  destruct W. constructor; cbn; rewrite ?(fmap_same _ _ n i) by (done || unfold ai_ip, v_flag; congruence); try done.
  by apply map_Forall_insert_2.
Qed.

Lemma wf_counts P k am d : wf P k am -> wf P (k - d) (with_counts (nNew am + d) (nTried am) am).
Proof. intros []. constructor; cbn; try done. lia. Qed.

Lemma wf_good P k am t : wf P k am -> wf P k (with_good t am).
Proof. intros []. by constructor. Qed.

(** ** The random order *)

(** The manager after changes to the random order alone. *)
Record shuffled (am am' : CAddrMan) : Prop := {
  sh_infos : set_pos 0 <$> mapInfo am' = set_pos 0 <$> mapInfo am;
  sh_rest : with_random [] (with_infos ∅ am') = with_random [] (with_infos ∅ am);
  sh_perm : vRandom am' ≡ₚ vRandom am }.

Lemma shuffled_refl am : shuffled am am.
Proof. by constructor. Qed.

Lemma shuffled_trans am1 am2 am3 : shuffled am1 am2 -> shuffled am2 am3 -> shuffled am1 am3.
Proof. intros [] []. constructor; etrans; eauto. Qed.

Lemma shuffled_lookup am am' n i : shuffled am am' -> mapInfo am !! n = Some i ->
  exists i', mapInfo am' !! n = Some i' /\ set_pos 0 i' = set_pos 0 i.
Proof.
  intros S E. pose proof (f_equal (fun m => m !! n) (sh_infos _ _ S)) as F. cbn in F. rewrite !lookup_fmap, E in F.
  destruct (mapInfo am' !! n) as [i' |]; [| done]. exists i'. split; [done |]. by apply (inj Some) in F.
Qed.

Lemma shuffled_view {B} (f : CAddrInfo -> B) am am' :
  (forall i, f (set_pos 0 i) = f i) -> shuffled am am' -> f <$> mapInfo am' = f <$> mapInfo am.
Proof.
  intros Hf S. assert (G : forall m : gmap Z CAddrInfo, f <$> m = f <$> (set_pos 0 <$> m)).
  { intros m. rewrite <- map_fmap_compose. apply map_fmap_ext. intros. symmetry. apply Hf. }
  rewrite G, (G (mapInfo am)). by rewrite (sh_infos _ _ S).
Qed.

Lemma shuffled_wf P k am am' :
  wf P k am -> shuffled am am' -> random_ok (ai_nRandomPos <$> mapInfo am') (vRandom am') -> wf P k am'.
Proof.
  intros W S R. pose proof (sh_rest _ _ S) as Q. unfold with_random, with_infos in Q. cbn in Q. injection Q as Q1 Q2 Q3 Q4 Q5 Q6 Q7 Q8.
  destruct W. constructor; rewrite ?Q1, ?Q2, ?Q3, ?Q4, ?Q5, ?Q6, ?Q7, ?Q8, ?(shuffled_view _ am am') by done; try done.
  - unfold zlen. rewrite (Permutation_length (sh_perm _ _ S)). exact w_len0.
  - apply map_Forall_lookup. intros n i' E'. pose proof (f_equal (fun m => m !! n) (sh_infos _ _ S)) as F. cbn in F.
    rewrite !lookup_fmap, E' in F. destruct (mapInfo am !! n) as [i |] eqn:E; [| done]. apply (inj Some) in F.
    pose proof (map_Forall_lookup_1 _ _ _ _ w_times0 E) as T. change (times_ok (set_pos 0 i')). by rewrite F.
Qed.

Lemma random_lookup pos v j n : random_ok pos v -> v !! j = Some n -> pos !! n = Some (Z.of_nat j).
Proof. intros R E. apply R. rewrite Nat2Z.id. split; [lia | done]. Qed.

Lemma random_swap pos v p1 p2 n1 n2 :
  random_ok pos v -> p1 <> p2 -> v !! p1 = Some n1 -> v !! p2 = Some n2 ->
  random_ok (<[n2 := Z.of_nat p1]> (<[n1 := Z.of_nat p2]> pos)) (<[p2 := n1]> (<[p1 := n2]> v)).
Proof.
  intros R D E1 E2 n p. pose proof (random_lookup _ _ _ _ R E1) as F1. pose proof (random_lookup _ _ _ _ R E2) as F2.
  assert (Hn : n1 <> n2) by (intros ->; rewrite F1 in F2; apply D; injection F2; lia).
  pose proof (lookup_lt_Some _ _ _ E1) as L1. pose proof (lookup_lt_Some _ _ _ E2) as L2.
  destruct (decide (n = n2)) as [-> |]; [rewrite lookup_insert_eq | rewrite lookup_insert_ne by done; destruct (decide (n = n1)) as [-> |];
    [rewrite lookup_insert_eq | rewrite lookup_insert_ne, (R n p) by done]].
  - split; [intros [= <-]; rewrite Nat2Z.id, list_lookup_insert_ne, list_lookup_insert_eq by done; split; [lia | done] |].
    intros [Hp Q]. f_equal. apply list_lookup_insert_Some in Q as [(? & ? & ?) | [? Q]]; [congruence |].
    apply list_lookup_insert_Some in Q as [(? & ? & ?) | [? Q]]; [lia |]. pose proof (random_lookup _ _ _ _ R Q). simplify_eq; lia.
  - split; [intros [= <-]; rewrite Nat2Z.id, list_lookup_insert_eq by (by rewrite length_insert); split; [lia | done] |].
    intros [Hp Q]. f_equal. apply list_lookup_insert_Some in Q as [(? & ? & ?) | [? Q]]; [lia |].
    apply list_lookup_insert_Some in Q as [(? & ? & ?) | [? Q]]; [congruence |]. pose proof (random_lookup _ _ _ _ R Q). simplify_eq; lia.
  - apply and_iff_compat_l. rewrite !list_lookup_insert_Some.
    split; [| intros [(? & ? & ?) | [? [(? & ? & ?) | [? ?]]]]; congruence].
    intros Q. right. split; [intros X; rewrite <- X in Q; congruence |]. right. split; [intros X; rewrite <- X in Q; congruence | done].
Qed.

(** Taking the last element out. *)
Lemma random_pop pos v n :
  random_ok pos v -> v !! (length v - 1)%nat = Some n -> random_ok (delete n pos) (take (length v - 1) v).
Proof.
  intros R E m p. pose proof (lookup_lt_Some _ _ _ E) as L. pose proof (random_lookup _ _ _ _ R E) as F.
  destruct (decide (m = n)) as [-> |].
  - rewrite lookup_delete_eq. split; [done |]. intros [Hp Q]. apply lookup_take_Some in Q as [Q Hl].
    pose proof (random_lookup _ _ _ _ R Q). simplify_eq; lia.
  - rewrite lookup_delete_ne, (R m p), lookup_take_Some by done. split; [| tauto]. intros [Hp Q]. split; [done |]. split; [done |].
    pose proof (lookup_lt_Some _ _ _ Q). destruct (decide (Z.to_nat p = length v - 1)%nat) as [X |]; [rewrite X in Q; congruence | lia].
Qed.

(** Adding an element at the end. *)
Lemma random_push pos v n :
  random_ok pos v -> pos !! n = None -> random_ok (<[n := zlen v]> pos) (v ++ [n]).
Proof.
  intros R E m p. destruct (decide (m = n)) as [-> |].
  - rewrite lookup_insert_eq. unfold zlen. split.
    + intros [= <-]. rewrite Nat2Z.id, lookup_app_r, Nat.sub_diag by lia. split; [lia | done].
    + intros [Hp Q]. f_equal. apply lookup_app_Some in Q as [Q | [Hl Q]].
      * pose proof (random_lookup _ _ _ _ R Q). congruence.
      * apply list_lookup_singleton_Some in Q as [Q _]. lia.
  - rewrite lookup_insert_ne, (R m p), lookup_app_Some by done. split; [intros [? ?]; auto |]. intros [Hp [Q | [Hl Q]]]; [done |].
    apply list_lookup_singleton_Some in Q as [_ ->]. done.
Qed.

Lemma random_idx v p : 0 <= p < zlen v -> v !! Z.to_nat p = Some (idx v p).
Proof. intros Hp. unfold idx. rewrite nth_lookup. unfold zlen in Hp. destruct (lookup_lt_is_Some_2 v (Z.to_nat p) ltac:(lia)) as [x ->]. done. Qed.

Lemma random_entry P k am p :
  wf P k am -> 0 <= p < zlen (vRandom am) -> exists i, mapInfo am !! idx (vRandom am) p = Some i /\ ai_nRandomPos i = p.
Proof.
  intros W Hp. pose proof (random_lookup _ _ _ _ (w_random _ _ _ W) (random_idx _ _ Hp)) as E. rewrite Z2Nat.id in E by lia.
  by apply lookup_fmap_Some in E as (i & E1 & E2); exists i.
Qed.

(** The two elements of the random order trade places, and nothing else changes. *)
Lemma SwapRandom_ok P k am p1 p2 :
  wf P k am -> 0 <= p1 < zlen (vRandom am) -> 0 <= p2 < zlen (vRandom am) ->
  exists am', SwapRandom am p1 p2 = Some am' /\ wf P k am' /\ shuffled am am' /\
    vRandom am' = <[Z.to_nat p2 := idx (vRandom am) p1]> (<[Z.to_nat p1 := idx (vRandom am) p2]> (vRandom am)).
Proof.
  intros W H1 H2. pose proof (random_idx _ _ H1) as R1. pose proof (random_idx _ _ H2) as R2. unfold SwapRandom.
  destruct (Z.eqb_spec p1 p2) as [-> | D].
  { exists am. split_and!; try done. rewrite list_insert_insert_eq. by rewrite list_insert_id. }
  destruct (random_entry _ _ _ _ W H1) as (i1 & E1 & P1), (random_entry _ _ _ _ W H2) as (i2 & E2 & P2).
  assert (Hn : idx (vRandom am) p1 <> idx (vRandom am) p2) by congruence.
  pose proof (w_len _ _ _ W). pose proof (w_cap _ _ _ W).
  rewrite (proj2 (Z.ltb_lt p1 _)), (proj2 (Z.ltb_lt p2 _)), E1, E2 by lia. cbn [andb]. rewrite !bool_decide_eq_true_2 by eauto. cbn [andb].
  eexists. split; [done |]. rewrite !s32_id by lia.
  set (am' := with_random _ _).
  assert (S : shuffled am am').
  { constructor; [| done |].
    - unfold am', upd, info_at. cbn. rewrite E1. rewrite lookup_insert_ne, E2 by done. cbn [default].
      rewrite (fmap_same _ _ (idx (vRandom am) p2) i2), (fmap_same _ _ (idx (vRandom am) p1) i1) by (done || by rewrite lookup_insert_ne). done.
    - apply Permutation_insert_swap; done. }
  split; [| by split].
  apply (shuffled_wf P k am); [done | done |]. unfold am', upd, info_at. cbn. rewrite E1. rewrite lookup_insert_ne, E2 by done. cbn [default].
  rewrite !fmap_insert. cbn [ai_nRandomPos set_pos set_place].
  assert (D' : Z.to_nat p1 <> Z.to_nat p2) by lia. pose proof (random_swap _ _ _ _ _ _ (w_random _ _ _ W) D' R1 R2) as Q. by rewrite !Z2Nat.id in Q by lia.
Qed.

(** ** Deleting an entry *)

Lemma ids_delete c ips index n a : ids_ok c ips index -> ips !! n = Some a -> ids_ok c (delete n ips) (delete a index).
Proof.
  intros [I1 I2] E. destruct (I1 _ _ E) as [_ Ea]. split.
  - intros m b Em. apply lookup_delete_Some in Em as [D Em]. destruct (I1 _ _ Em) as [? Eb]. split; [done |].
    rewrite lookup_delete_ne; [done |]. intros <-. congruence.
  - intros b m Em. apply lookup_delete_Some in Em as [D Em]. apply lookup_delete_Some. split; [| by apply I2].
    intros <-. apply I2 in Em. congruence.
Qed.

Lemma tried_delete key flags vv n s : tried_ok key flags vv -> flags !! n = Some (s, false) -> tried_ok key (delete n flags) vv.
Proof.
  intros T E b p m. rewrite (T b p m). split; intros (s' & Es & Hs); exists s'; (split; [| done]).
  - rewrite lookup_delete_ne; [done |]. congruence.
  - by apply lookup_delete_Some in Es as [_ Es].
Qed.

Lemma refs_none vv n : refs vv n = 0 <-> forall b p, vv !! (b, p) <> Some n.
Proof.
  split.
  - intros R b p E. pose proof (count_zero _ _ _ _ R E) as C. cbn in C. lia.
  - intros N. apply count_none. intros [b p] x E. apply Z.eqb_neq. intros ->. by apply (N b p).
Qed.

Lemma new_delete key places P vv n v : new_ok key places P vv -> n ∈ P -> places !! n = Some v -> v.1.2 = false ->
  new_ok key (delete n places) (P ∖ {[n]}) vv.
Proof.
  intros [N1 N2] HP E HT. destruct v as [[s t] r]. cbn in HT. subst t. destruct (N1 _ _ _ _ E) as [Er Hr].
  specialize (Hr eq_refl). rewrite decide_True in Hr by done. subst r. pose proof (proj1 (refs_none vv n) Hr) as Z0. split.
  - intros m s' t r Em. apply lookup_delete_Some in Em as [D Em]. destruct (N1 _ _ _ _ Em) as [? H]. split; [done |]. intros Ht.
    specialize (H Ht). destruct (decide (m ∈ P)) as [i | i]; [rewrite decide_True by set_solver | rewrite decide_False by set_solver]; done.
  - intros b p m Em. destruct (N2 _ _ _ Em) as (s' & r & Es & Hs). exists s', r. split; [| done]. rewrite lookup_delete_ne; [done |].
    intros <-. by apply (Z0 b p).
Qed.

(** The last entry of the random order, between the tables, can go. *)
Lemma wf_remove P k am n i :
  wf P k am -> mapInfo am !! n = Some i -> ai_fInTried i = false -> n ∈ P ->
  vRandom am !! (length (vRandom am) - 1)%nat = Some n ->
  wf (P ∖ {[n]}) k
    {| nIdCount := nIdCount am; mapInfo := delete n (mapInfo am); mapAddr := delete (ai_ip i) (mapAddr am);
       vRandom := take (length (vRandom am) - 1) (vRandom am); nTried := nTried am; vvTried := vvTried am;
       nNew := nNew am - 1; vvNew := vvNew am; nLastGood := nLastGood am; am_nKey := am_nKey am |}.
Proof.
  intros W E HT HP HL. destruct W. constructor; cbn; rewrite ?fmap_delete; try done.
  - apply ids_delete; [done |]. by rewrite lookup_fmap, E.
  - by apply random_pop.
  - unfold zlen in *. rewrite length_take. lia.
  - apply (tried_delete _ _ _ _ (ai_service i)); [done |]. rewrite lookup_fmap, E. cbn. unfold v_flag. by rewrite HT.
  - eapply new_delete; [done | done | by rewrite lookup_fmap, E | done].
  - by apply map_Forall_delete.
  - rewrite (count_delete _ _ _ (ai_fInTried i)) by (by rewrite lookup_fmap, E). rewrite HT. cbn. lia.
  - rewrite (count_delete _ _ _ (ai_fInTried i)) by (by rewrite lookup_fmap, E). rewrite HT. cbn. lia.
Qed.

(** The other fields of the manager. *)
Definition frame (am am' : CAddrMan) : Prop :=
  nIdCount am' = nIdCount am /\ vvTried am' = vvTried am /\ nLastGood am' = nLastGood am /\ am_nKey am' = am_nKey am.

Lemma Delete_ok P k am n i :
  wf P k am -> n ∈ P -> mapInfo am !! n = Some i -> ai_fInTried i = false ->
  exists am1 am', shuffled am am1 /\ Delete am n = Some am' /\ wf (P ∖ {[n]}) k am' /\
    mapInfo am' = delete n (mapInfo am1) /\ vvNew am' = vvNew am /\ frame am am'.
Proof.
  intros W HP E HT. pose proof (w_len _ _ _ W). pose proof (w_cap _ _ _ W).
  assert (Hp : 0 <= ai_nRandomPos i /\ vRandom am !! Z.to_nat (ai_nRandomPos i) = Some n).
  { apply (w_random _ _ _ W). by rewrite lookup_fmap, E. }
  destruct Hp as [Hp Hv]. pose proof (lookup_lt_Some _ _ _ Hv) as Hl.
  assert (Hz : 0 <= ai_nRandomPos i < zlen (vRandom am)) by (unfold zlen; lia).
  destruct (SwapRandom_ok P k am (ai_nRandomPos i) (zlen (vRandom am) - 1)) as (am1 & S1 & W1 & Sh & V1); [done | lia | lia |].
  unfold Delete. rewrite E. cbn [mbind option_bind]. rewrite HT.
  destruct (w_new _ _ _ W) as [N1 _]. destruct (N1 n (ai_service i) false (ai_nRefCount i)) as [_ Hr];
    [by rewrite lookup_fmap, E; cbn; unfold v_place; rewrite HT |].
  specialize (Hr eq_refl). rewrite decide_True in Hr by done. rewrite Hr. cbn [Z.eqb].
  rewrite !u32_id by lia. rewrite S1. cbn [mbind option_bind].
  exists am1. eexists. split; [done |]. split; [done |].
  destruct (shuffled_lookup _ _ _ _ Sh E) as (i1 & E1 & I1). pose proof (sh_rest _ _ Sh) as Q.
  unfold with_random, with_infos in Q. injection Q as Q1 Q2 Q3 Q4 Q5 Q6 Q7 Q8. split; [| by split_and!].
  replace (ai_ip i) with (ai_ip i1) by (change (ai_ip (set_pos 0 i1) = ai_ip i); by rewrite I1).
  apply (wf_remove P k am1 n i1); [done | done | change (ai_fInTried (set_pos 0 i1) = false); by rewrite I1 | done |].
  rewrite V1, !length_insert. unfold idx at 1. rewrite (nth_lookup_Some _ _ _ _ Hv).
  replace (Z.to_nat (zlen (vRandom am) - 1)) with (length (vRandom am) - 1)%nat by (unfold zlen; lia).
  apply list_lookup_insert_eq. rewrite length_insert. lia.
Qed.

(** ** Slots of the new table *)

Lemma refs_delete vv bp n m : vv !! bp = Some n -> refs (delete bp vv) m = refs vv m - Z.b2z (n =? m).
Proof. intros E. unfold refs. by rewrite (count_delete _ _ _ n). Qed.

Lemma refs_insert vv bp n m : vv !! bp = None -> refs (<[bp := n]> vv) m = refs vv m + Z.b2z (n =? m).
Proof. intros E. unfold refs. by rewrite count_insert_None. Qed.

Lemma refs_pos vv b p n : vv !! (b, p) = Some n -> 1 <= refs vv n.
Proof.
  intros E. pose proof (refs_delete _ _ _ n E) as D. rewrite Z.eqb_refl in D. cbn in D.
  pose proof (count_nonneg (fun v => v =? n) (delete (b, p) vv)). unfold refs in *. lia.
Qed.

(** An entry leaves a slot; it is between the tables if that was its last. *)
Lemma new_drop key places P P' vv b p n s r :
  new_ok key places P vv -> vv !! (b, p) = Some n -> places !! n = Some (s, false, r) ->
  (forall m, m ∈ P' <-> m ∈ P /\ m <> n \/ m = n /\ r = 1) ->
  new_ok key (<[n := (s, false, r - 1)]> places) P' (delete (b, p) vv).
Proof.
  intros [N1 N2] E En HP. pose proof (refs_pos _ _ _ _ E) as Hpos. destruct (N1 _ _ _ _ En) as [Er Hr]. specialize (Hr eq_refl). split.
  - intros m s' t r' Em. rewrite (refs_delete _ _ n) by done. destruct (decide (m = n)) as [-> | D].
    + rewrite lookup_insert_eq in Em. injection Em as <- <- <-. rewrite Z.eqb_refl. cbn. split; [lia |]. intros _.
      destruct (decide (n ∈ P)) as [i | i]; [lia |]. case_decide as HD; rewrite HP in HD; [lia |]. assert (r <> 1) by tauto. lia.
    + rewrite lookup_insert_ne in Em by done. destruct (N1 _ _ _ _ Em) as [? H]. rewrite (proj2 (Z.eqb_neq n m)) by done. cbn.
      split; [lia |]. intros Ht. specialize (H Ht). assert (Hm : m ∈ P' <-> m ∈ P) by (rewrite HP; tauto).
      destruct (decide (m ∈ P)) as [i | i]; [rewrite decide_True by tauto | rewrite decide_False by tauto]; done.
  - intros b' p' m Em. apply lookup_delete_Some in Em as [D Em]. destruct (N2 _ _ _ Em) as (s' & r' & Es & Hs).
    destruct (decide (m = n)) as [-> |]; [rewrite En in Es; injection Es as -> -> | ].
    + exists s', (r' - 1). by rewrite lookup_insert_eq.
    + exists s', r'. by rewrite lookup_insert_ne.
Qed.

(** An entry takes an empty slot. *)
Lemma new_add key places P vv b n s r :
  let p := position key true b s in
  new_ok key places P vv -> vv !! (b, p) = None -> places !! n = Some (s, false, r) -> 0 <= b < 1024 -> r < 8 ->
  new_ok key (<[n := (s, false, r + 1)]> places) (P ∖ {[n]}) (<[(b, p) := n]> vv).
Proof.
  intros p [N1 N2] E En Hb Hr8. destruct (N1 _ _ _ _ En) as [Er Hr]. specialize (Hr eq_refl). split.
  - intros m s' t r' Em. rewrite refs_insert by done. destruct (decide (m = n)) as [-> | D].
    + rewrite lookup_insert_eq in Em. injection Em as <- <- <-. rewrite Z.eqb_refl. cbn. split; [lia |]. intros _.
      rewrite decide_False by set_solver. destruct (decide (n ∈ P)); lia.
    + rewrite lookup_insert_ne in Em by done. destruct (N1 _ _ _ _ Em) as [? H]. rewrite (proj2 (Z.eqb_neq n m)) by done. cbn.
      split; [lia |]. intros Ht. specialize (H Ht).
      destruct (decide (m ∈ P)) as [i | i]; [rewrite decide_True by set_solver | rewrite decide_False by set_solver]; done.
  - intros b' p' m Em. destruct (decide ((b', p') = (b, p))) as [[= -> ->] | D].
    + rewrite lookup_insert_eq in Em. injection Em as <-. exists s, (r + 1). by rewrite lookup_insert_eq.
    + rewrite lookup_insert_ne in Em by done. destruct (N2 _ _ _ Em) as (s' & r' & Es & Hs).
      destruct (decide (m = n)) as [-> |]; [rewrite En in Es; injection Es as -> -> |].
      * exists s', (r' + 1). by rewrite lookup_insert_eq.
      * exists s', r'. by rewrite lookup_insert_ne.
Qed.

Definition with_place (n : Z) (i : CAddrInfo) (vv : gmap (Z * Z) Z) (am : CAddrMan) : CAddrMan :=
  with_new vv (with_infos (<[n := i]> (mapInfo am)) am).

Lemma wf_with_place P P' k am n i r vv :
  wf P k am -> mapInfo am !! n = Some i ->
  new_ok (am_nKey am) (<[n := (ai_service i, ai_fInTried i, r)]> (v_place <$> mapInfo am)) P' vv ->
  wf P' k (with_place n (set_refs r i) vv am).
Proof.
  intros [] E N. constructor; cbn; rewrite ?(fmap_same _ _ n i) by done; try done; [by rewrite fmap_insert |].
  apply map_Forall_insert_2; [| done]. apply (map_Forall_lookup_1 _ _ _ _ w_times0 E).
Qed.

Lemma slot_inv vv b p v : slot vv b p = v -> v <> -1 -> vv !! (b, p) = Some v.
Proof. unfold slot. destruct (vv !! (b, p)); cbn; congruence. Qed.

Lemma new_slot_entry P k am b p n : wf P k am -> vvNew am !! (b, p) = Some n ->
  exists i, mapInfo am !! n = Some i /\ ai_fInTried i = false /\ ai_nRefCount i = refs (vvNew am) n /\ 0 <= n /\
    p = position (am_nKey am) true b (ai_service i) /\ 0 <= b < 1024.
Proof.
  intros W E. destruct (w_new _ _ _ W) as [N1 N2]. destruct (N2 _ _ _ E) as (s & r & Es & Hs). pose proof (N1 _ _ _ _ Es) as [Er _].
  apply lookup_fmap_Some in Es as (i & Ei & E1). injection Ei as F1 F2 F3. exists i. subst.
  destruct (w_ids _ _ _ W) as [I1 _]. destruct (I1 n (ai_ip i)) as [Hn _]; [by rewrite lookup_fmap, E1 |]. split_and!; tauto || lia || done.
Qed.

Lemma new_slot_none P k am b p : wf P k am -> slot (vvNew am) b p = -1 -> vvNew am !! (b, p) = None.
Proof.
  intros W E. destruct (vvNew am !! (b, p)) as [n |] eqn:En; [| done].
  destruct (new_slot_entry _ _ _ _ _ _ W En) as (i & _ & _ & _ & Hn & _). unfold slot in E. rewrite En in E. cbn in E. lia.
Qed.

(** [ClearNew] empties a slot, and deletes the entry that was there if it was its last. *)
Lemma ClearNew_ok P k am b p :
  wf P k am ->
  exists am', ClearNew am b p = Some am' /\ wf P k am' /\ vvNew am' = delete (b, p) (vvNew am) /\ frame am am' /\
    (forall m i, mapInfo am !! m = Some i -> vvNew am !! (b, p) <> Some m ->
       exists i', mapInfo am' !! m = Some i' /\ set_pos 0 i' = set_pos 0 i).
Proof.
  intros W. unfold ClearNew. destruct (Z.eqb_spec (slot (vvNew am) b p) (-1)) as [E | E].
  { exists am. split; [done |]. split; [done |]. rewrite delete_id by (by apply (new_slot_none P k)). split; [done |]. split; [done | eauto]. }
  pose proof (slot_inv _ _ _ _ eq_refl E) as En. set (n := slot (vvNew am) b p) in *.
  destruct (new_slot_entry _ _ _ _ _ _ W En) as (i & Ei & Ht & Hr & Hn & _). pose proof (refs_pos _ _ _ _ En) as Hpos.
  rewrite (info_at_some _ _ _ Ei), (proj2 (Z.ltb_lt 0 _)) by lia. rewrite (upd_some _ _ _ i Ei). cbn [vvNew with_infos].
  change (with_new _ _) with (with_place n (set_refs (ai_nRefCount i - 1) i) (set_slot (vvNew am) b p (-1)) am).
  set (P' := if decide (ai_nRefCount i = 1) then {[n]} ∪ P else P).
  assert (HnP : n ∉ P).
  { intros HP. destruct (w_new _ _ _ W) as [N1 _]. destruct (N1 n (ai_service i) false (ai_nRefCount i)) as [_ H];
      [rewrite lookup_fmap, Ei; cbn; unfold v_place; by rewrite Ht |]. specialize (H eq_refl). rewrite decide_True in H by done. lia. }
  set (am1 := with_place _ _ _ _).
  assert (W1 : wf P' k am1).
  { apply (wf_with_place P); [done | done |]. unfold set_slot. cbn [Z.eqb]. rewrite Ht.
    eapply new_drop; [apply (w_new _ _ _ W) | done | rewrite lookup_fmap, Ei; cbn; unfold v_place; by rewrite Ht |].
    intros m. unfold P'. case_decide; set_solver. }
  assert (E1 : mapInfo am1 !! n = Some (set_refs (ai_nRefCount i - 1) i)) by apply lookup_insert_eq.
  assert (Fr : forall m j, mapInfo am !! m = Some j -> Some n <> Some m -> mapInfo am1 !! m = Some j).
  { intros m j Em D. unfold am1. cbn. by rewrite lookup_insert_ne by congruence. }
  rewrite (info_at_some _ _ _ E1). cbn [ai_nRefCount set_refs set_place].
  destruct (Z.eqb_spec (ai_nRefCount i - 1) 0) as [Ez | Ez].
  - assert (HP' : P' = {[n]} ∪ P) by (unfold P'; apply decide_True; lia).
    destruct (Delete_ok P' k am1 n _ W1 ltac:(set_solver) E1 Ht) as (am2 & am' & Sh & D & W' & Em & Ev & Fr').
    exists am'. split; [done |]. split; [by replace P with (P' ∖ {[n]}) by set_solver |]. rewrite Ev. split; [done |].
    split; [done |]. intros m j Ej D'. rewrite En in D'. destruct (shuffled_lookup _ _ _ _ Sh (Fr m j Ej D')) as (j' & Ej' & Hj').
    exists j'. rewrite Em, lookup_delete_ne by congruence. done.
  - exists am1. split; [done |]. split; [by replace P with P' by (apply decide_False; lia) |]. split; [done |]. split; [done |].
    intros m j Ej D'. rewrite En in D'. eauto.
Qed.

(** ** Finding and creating *)

Lemma Find_some P k am a n : wf P k am -> Find am a = Some n -> exists i, mapInfo am !! n = Some i /\ ai_ip i = a.
Proof.
  intros W F. unfold Find in F. destruct (mapAddr am !! a) as [m |] eqn:E; [| done]. cbn in F. case_decide as D; [| done].
  injection F as <-. apply (w_ids _ _ _ W) in E. by apply lookup_fmap_Some in E as (i & Ei & E1); exists i.
Qed.

Lemma Find_none P k am a : wf P k am -> Find am a = None -> mapAddr am !! a = None.
Proof.
  intros W F. unfold Find in F. destruct (mapAddr am !! a) as [m |] eqn:E; [| done]. cbn in F.
  apply (w_ids _ _ _ W) in E. apply lookup_fmap_Some in E as (i & _ & E1). by rewrite decide_True in F by eauto.
Qed.

Lemma find_service_some P k am s n : wf P k am -> find_service am s = Some n -> exists i, mapInfo am !! n = Some i /\ ai_service i = s.
Proof.
  intros W F. unfold find_service in F. destruct (Find am (sv_ip s)) as [m |] eqn:E; [| done]. cbn in F.
  destruct (Find_some _ _ _ _ _ W E) as (i & Ei & _). rewrite (info_at_some _ _ _ Ei) in F.
  destruct (CService_eq (ai_service i) s) eqn:Es; [| done]. injection F as <-. exists i. split; [done |].
  unfold CService_eq in Es. apply andb_true_iff in Es as [E1%bool_decide_eq_true E2%Z.eqb_eq]. destruct (ai_service i), s. cbn in *. congruence.
Qed.

Lemma fresh_id P k am n : wf P k am -> nIdCount am <= n -> mapInfo am !! n = None.
Proof.
  intros W Hn. destruct (mapInfo am !! n) as [i |] eqn:E; [| done]. destruct (w_ids _ _ _ W) as [I1 _].
  destruct (I1 n (ai_ip i)) as [? _]; [by rewrite lookup_fmap, E | lia].
Qed.

Lemma new_create key places P vv n s : new_ok key places P vv -> places !! n = None ->
  new_ok key (<[n := (s, false, 0)]> places) ({[n]} ∪ P) vv.
Proof.
  intros [N1 N2] E.
  assert (Z0 : refs vv n = 0) by (apply refs_none; intros b p Eb; destruct (N2 _ _ _ Eb) as (? & ? & ? & _); congruence). split.
  - intros m s' t r Em. destruct (decide (m = n)) as [-> |].
    + rewrite lookup_insert_eq in Em. injection Em as <- <- <-. split; [done |]. by rewrite decide_True by set_solver.
    + rewrite lookup_insert_ne in Em by done. destruct (N1 _ _ _ _ Em) as [? H]. split; [done |]. intros Ht. specialize (H Ht).
      destruct (decide (m ∈ P)) as [i | i]; [rewrite decide_True by set_solver | rewrite decide_False by set_solver]; done.
  - intros b p m Em. destruct (N2 _ _ _ Em) as (s' & r & Es & Hs). exists s', r. rewrite lookup_insert_ne by congruence. done.
Qed.

Lemma tried_create key flags vv n s : tried_ok key flags vv -> flags !! n = None -> tried_ok key (<[n := (s, false)]> flags) vv.
Proof.
  intros T E b p m. rewrite (T b p m). split; intros (s' & Es & Hs); exists s'; (split; [| done]).
  - rewrite lookup_insert_ne by congruence. done.
  - apply lookup_insert_Some in Es as [[_ ?] | [_ ?]]; [congruence | done].
Qed.

Lemma Create_ok P k am addr src :
  wf P k am -> mapAddr am !! sv_ip (ad_service addr) = None -> nIdCount am + 1 < 2 ^ 31 -> address_ok addr -> net_ok src ->
  let n := nIdCount am in let am' := (Create am addr src).2 in
  wf ({[n]} ∪ P) (k + 1) am' /\ nIdCount am' = n + 1 /\
  mapInfo am' !! n = Some (set_pos (zlen (vRandom am)) (CAddrInfo_new addr src)).
Proof.
  intros W Ea Hc Hadr Hsrc n am'. subst n. pose proof (w_len _ _ _ W). pose proof (zlen_nonneg (vRandom am)).
  pose proof (fresh_id _ _ _ (nIdCount am) W ltac:(lia)) as En. unfold am', Create, snd. rewrite !s32_id by lia.
  split; [| split; [done | apply lookup_insert_eq]].
  destruct W. constructor; cbn; rewrite ?fmap_insert; try done.
  - destruct w_ids0 as [I1 I2]. split.
    + intros m a [[<- <-] | [D Em]]%lookup_insert_Some; [rewrite lookup_insert_eq; split; [lia | done] |].
      destruct (I1 _ _ Em). split; [lia |]. rewrite lookup_insert_ne; [done |]. unfold ai_ip. cbn. congruence.
    + intros a m [[<- <-] | [D Em]]%lookup_insert_Some; [by rewrite lookup_insert_eq |].
      rewrite lookup_insert_ne; [by apply I2 |]. intros <-. apply I2 in Em. rewrite lookup_fmap in Em.  by rewrite En in Em.
  - apply random_push; [done |]. by rewrite lookup_fmap, En.
  - unfold zlen in *. rewrite length_app. cbn [length]. lia.
  - apply tried_create; [done |]. by rewrite lookup_fmap, En.
  - apply new_create; [done |]. by rewrite lookup_fmap, En.
  - apply map_Forall_insert_2; [| done]. unfold times_ok. cbn -[Z.pow]. split_and!; done || lia.
  - rewrite count_insert_None by (by rewrite lookup_fmap, En). cbn. lia.
  - rewrite count_insert_None by (by rewrite lookup_fmap, En). cbn. lia.
Qed.

(** ** Adding *)

Lemma upd_id am n i : mapInfo am !! n = Some i -> upd n id am = am.
Proof. intros E. rewrite (upd_some _ _ _ i E). unfold with_infos. unfold id at 1. rewrite insert_id by done. by destruct am. Qed.

Lemma lor_bound w a b : 0 <= w -> 0 <= a < 2 ^ w -> 0 <= b < 2 ^ w -> Z.lor a b < 2 ^ w.
Proof.
  intros Hw Ha Hb. destruct (decide (Z.lor a b = 0)) as [-> |]; [lia |]. apply Z.log2_lt_pow2; [pose proof (Z.lor_nonneg a b); lia |].
  rewrite Z.log2_lor by lia. apply Z.max_lub_lt.
  - destruct (decide (a = 0)) as [-> |]; [| apply Z.log2_lt_pow2; lia]. cbn. destruct (decide (w = 0)) as [-> |]; [| lia].
    exfalso. assert (b = 0) as -> by lia. done.
  - destruct (decide (b = 0)) as [-> |]; [| apply Z.log2_lt_pow2; lia]. cbn. destruct (decide (w = 0)) as [-> |]; [| lia].
    exfalso. assert (a = 0) as -> by lia. done.
Qed.

(** The entry goes to its bucket for the source, or is dropped if it is new and the bucket
    keeps what it has. *)
Lemma place_ok P k am now src n i :
  wf P k am -> mapInfo am !! n = Some i -> ai_fInTried i = false -> ai_nRefCount i < 8 ->
  exists am', place now src n am = Some am' /\ wf (P ∖ {[n]}) k am' /\ nIdCount am' = nIdCount am.
Proof.
  intros W E Ht Hr. unfold place. rewrite (info_at_some _ _ _ E).
  set (b := GetNewBucket _ _ _). set (p := GetBucketPosition _ _ _ _). set (there := slot _ _ _).
  assert (Hn : 0 <= n) by (destruct (w_ids _ _ _ W) as [I1 _]; destruct (I1 n (ai_ip i)) as [? _]; [by rewrite lookup_fmap, E | lia]).
  assert (Epl : (v_place <$> mapInfo am) !! n = Some (ai_service i, false, ai_nRefCount i)) by (rewrite lookup_fmap, E; cbn; unfold v_place; by rewrite Ht).
  destruct (w_new _ _ _ W) as [N1 _]. destruct (N1 _ _ _ _ Epl) as [Hrn Hr0]. specialize (Hr0 eq_refl).
  destruct (Z.eqb_spec there n) as [Et | Et].
  { exists am. split; [done |]. split; [| done]. pose proof (slot_inv _ _ _ n Et ltac:(lia)) as Es. pose proof (refs_pos _ _ _ _ Es).
    destruct (decide (n ∈ P)); [lia |]. by replace (P ∖ {[n]}) with P by set_solver. }
  assert (Ea : (if there =? -1 then am else upd there id am) = am).
  { destruct (Z.eqb_spec there (-1)); [done |]. pose proof (slot_inv _ _ _ there eq_refl ltac:(done)) as Es.
    destruct (new_slot_entry _ _ _ _ _ _ W Es) as (j & Ej & _). by apply (upd_id am there j). }
  rewrite Ea. destruct (_ || _ || _).
  - destruct (ClearNew_ok P k am b p W) as (am1 & -> & W1 & Ev & (F1 & F2 & F3 & F4) & Fr). cbn [mbind option_bind].
    destruct (Fr n i E) as (i1 & E1 & I1).
    { intros X. apply Et. unfold there, slot. by rewrite X. }
    eexists. split; [done |]. split; [| done]. rewrite (upd_some _ _ _ i1 E1). unfold set_slot. rewrite (proj2 (Z.eqb_neq n (-1))) by lia.
    assert (V : v_place i1 = v_place i) by (change (v_place (set_pos 0 i1) = v_place (set_pos 0 i)); by rewrite I1).
    unfold v_place in V. injection V as V1 V2 V3. cbn [vvNew with_infos].
    change (with_new _ _) with (with_place n (set_refs (ai_nRefCount i1 + 1) i1) (<[(b, p) := n]> (vvNew am1)) am1).
    apply (wf_with_place P); [done | done |]. rewrite V2, Ht, V1.
    unfold p. rewrite GetBucketPosition_service, <- F4. apply new_add; [apply W1 | | | apply GetNewBucket_range | lia].
    + rewrite Ev, F4, <- GetBucketPosition_service. apply lookup_delete_eq.
    + rewrite lookup_fmap, E1. cbn. unfold v_place. by rewrite V1, V2, V3, Ht.
  - destruct (Z.eqb_spec (ai_nRefCount i) 0) as [Ez | Ez].
    + destruct (decide (n ∈ P)) as [HP |]; [| lia].
      destruct (Delete_ok P k am n i W HP E Ht) as (am1 & am' & _ & D & W' & _ & _ & F & _). by exists am'.
    + exists am. destruct (decide (n ∈ P)); [lia |]. by replace (P ∖ {[n]}) with P by set_solver.
Qed.

Lemma refresh_keeps rnd now addr pen i :
  let i' := (refresh rnd now addr pen i).1 in
  v_place i' = v_place i /\ ai_nRandomPos i' = ai_nRandomPos i /\ (times_ok i -> address_ok addr -> times_ok i').
Proof.
  split; [done |]. split; [done |]. intros (T1 & T2 & T3 & T4 & T5 & (A1 & A2 & A3 & A4)) (B1 & B2 & B3 & B4).
  unfold times_ok, address_ok, refresh. cbn -[Z.pow Z.lor u32]. split_and!; try (done || lia); try apply T2; try apply T4; try apply A2.
  - apply Z.lor_nonneg. lia.
  - apply lor_bound; lia.
  - destruct (_ && _); [apply u32_range | apply A4].
  - destruct (_ && _); [apply u32_range | apply A4].
Qed.

Lemma refresh_goes_on rnd now addr pen i : (refresh rnd now addr pen i).2 = true -> ai_fInTried i = false /\ ai_nRefCount i <> 8.
Proof.
  unfold refresh. cbn -[Z.pow Z.max]. destruct (_ || _); [done |]. destruct (ai_fInTried i); [done |].
  unfold ADDRMAN_NEW_BUCKETS_PER_ADDRESS. destruct (Z.eqb_spec (ai_nRefCount i) 8); done.
Qed.

Lemma Add_ok rnd now addr src pen am :
  wf ∅ 0 am -> nIdCount am + 1 < 2 ^ 31 -> address_ok addr -> net_ok src ->
  exists r, Add_ rnd now addr src pen am = Some r /\ wf ∅ 0 r.2 /\ nIdCount r.2 <= nIdCount am + 1.
Proof.
  intros W Hc Hadr Hsrc. unfold Add_. destruct (negb _); [eexists; split; [done |]; split; [done | cbn; lia] |].
  destruct (Find am (sv_ip (ad_service addr))) as [n |] eqn:F.
  - destruct (Find_some _ _ _ _ _ W F) as (i & E & _). rewrite (info_at_some _ _ _ E).
    destruct (refresh_keeps rnd now addr pen i) as (K1 & K2 & K3). pose proof (refresh_goes_on rnd now addr pen i) as G.
    destruct (refresh rnd now addr pen i) as [i' go]. cbn [fst snd] in *.
    assert (W1 : wf ∅ 0 (upd n (fun _ => i') am)).
    { apply (wf_upd _ _ _ _ _ i); [done | done | done | done |]. apply K3; [| done]. apply (map_Forall_lookup_1 _ _ _ _ (w_times _ _ _ W) E). }
    destruct go; [| eexists; split; [done |]; split; [done | cbn; lia]]. destruct (G eq_refl) as [Ht Hr].
    unfold v_place in K1. injection K1 as V1 V2 V3.
    destruct (w_new _ _ _ W) as [N1 _]. destruct (N1 n (ai_service i) false (ai_nRefCount i)) as [_ H8];
      [rewrite lookup_fmap, E; cbn; unfold v_place; by rewrite Ht |]. specialize (H8 eq_refl). rewrite decide_False in H8 by set_solver.
    destruct (place_ok ∅ 0 (upd n (fun _ => i') am) now src n i' W1) as (am' & -> & W' & C');
      [rewrite (upd_some _ _ _ i E); apply lookup_insert_eq | congruence | lia |].
    eexists. split; [done |]. cbn [snd]. replace (∅ ∖ {[n]}) with (∅ : gset Z) in W' by set_solver. split; [done |]. rewrite C'. cbn. lia.
  - destruct (Create_ok ∅ 0 am addr src W (Find_none _ _ _ _ W F) Hc Hadr Hsrc) as (W1 & C1 & E1).
    destruct (Create am addr src) as [n am1] eqn:EC. assert (n = nIdCount am) as -> by (unfold Create in EC; congruence). cbn [snd] in *.
    set (f := fun i => set_addr _ i).
    assert (W2 : wf ({[nIdCount am]} ∪ ∅) (0 + 1) (upd (nIdCount am) f am1)).
    { apply (wf_upd _ _ _ _ _ _ W1 E1); [done | done |]. destruct (map_Forall_lookup_1 _ _ _ _ (w_times _ _ _ W1) E1) as (T1 & T2 & T3 & T4 & T5 & (A1 & A2 & A3 & A4)).
      unfold times_ok, address_ok. unfold f. cbn -[Z.pow u32]. split_and!; first [done | apply u32_range | apply T2 | apply T4 | apply A2 | apply A3]. }
    apply (wf_counts _ _ _ 1) in W2. cbn [Z.add Z.sub Z.opp Z.pos_sub] in W2.
    destruct (place_ok _ _ _ now src (nIdCount am) (f (set_pos (zlen (vRandom am)) (CAddrInfo_new addr src))) W2) as (am' & -> & W' & C');
      [cbn; rewrite (info_at_some _ _ _ E1); apply lookup_insert_eq | done | cbn; lia |].
    eexists. split; [done |]. cbn [snd]. replace (({[nIdCount am]} ∪ ∅) ∖ {[nIdCount am]}) with (∅ : gset Z) in W' by set_solver.
    split; [done |]. rewrite C'. cbn. lia.
Qed.

(** ** From the new table to the tried table *)

Lemma with_place_same am n i : mapInfo am !! n = Some i -> with_place n (set_refs (ai_nRefCount i) i) (vvNew am) am = am.
Proof.
  intros E. unfold with_place, with_new, with_infos. cbn. replace (set_refs (ai_nRefCount i) i) with i by (by destruct i).
  rewrite insert_id by done. by destruct am.
Qed.

Lemma with_place_twice am n i i' vv vv' : with_place n i' vv' (with_place n i vv am) = with_place n i' vv' am.
Proof. unfold with_place, with_new, with_infos. cbn. by rewrite insert_insert_eq. Qed.

Lemma new_refs_zero key places P vv n s t r : new_ok key places P vv -> places !! n = Some (s, t, r) -> (t = true \/ n ∈ P) -> r = 0 /\ refs vv n = 0.
Proof.
  intros [N1 N2] E H. destruct (N1 _ _ _ _ E) as [Er Hr]. destruct t.
  - assert (refs vv n = 0); [| lia]. apply refs_none. intros b p Eb. destruct (N2 _ _ _ Eb) as (? & ? & ? & _). congruence.
  - specialize (Hr eq_refl). rewrite decide_True in Hr by naive_solver. lia.
Qed.

(** The loop over the new buckets takes the entry out of every slot of those buckets. *)
Lemma leave_all k n bs am P i :
  wf P k am -> P ⊆ {[n]} -> mapInfo am !! n = Some i -> ai_fInTried i = false ->
  exists P' r vv', let am' := with_place n (set_refs r i) vv' am in
    foldl (leave_bucket n) am bs = am' /\ wf P' k am' /\ P' ⊆ {[n]} /\
    (forall b p, vv' !! (b, p) = Some n -> vvNew am !! (b, p) = Some n /\ b ∉ bs).
Proof.
  revert am P i. induction bs as [| b bs IH]; intros am P i W HP E Ht.
  { exists P, (ai_nRefCount i), (vvNew am). cbn -[with_place]. rewrite (with_place_same am n i E). split_and!; try done.
    intros b p Eb. split; [done | apply not_elem_of_nil]. }
  cbn [foldl]. unfold leave_bucket at 2. rewrite (info_at_some _ _ _ E). set (pos := GetBucketPosition _ _ _ _).
  assert (Hn : 0 <= n) by (destruct (w_ids _ _ _ W) as [I1 _]; destruct (I1 n (ai_ip i)) as [? _]; [by rewrite lookup_fmap, E | lia]).
  destruct (Z.eqb_spec (slot (vvNew am) b pos) n) as [Es | Es].
  - pose proof (slot_inv _ _ _ _ Es ltac:(lia)) as Eb. rewrite (upd_some (with_new _ am) n _ i E).
    change (with_infos _ _) with (with_place n (set_refs (ai_nRefCount i - 1) i) (delete (b, pos) (vvNew am)) am). set (am1 := with_place _ _ _ _).
    assert (W1 : exists P1, wf P1 k am1 /\ P1 ⊆ {[n]}).
    { set (P1 := if decide (ai_nRefCount i = 1) then {[n]} else ∅ : gset Z). exists P1. split; [| unfold P1; case_decide; set_solver].
      apply (wf_with_place P); [done | done |]. rewrite Ht.
      eapply new_drop; [apply (w_new _ _ _ W) | done | rewrite lookup_fmap, E; cbn; unfold v_place; by rewrite Ht |].
      intros m. unfold P1. case_decide; set_solver. }
    destruct W1 as (P1 & W1 & HP1).
    destruct (IH am1 P1 (set_refs (ai_nRefCount i - 1) i) W1 HP1 (lookup_insert_eq _ _ _) Ht) as (P' & r & vv' & F & W' & HP' & Hs).
    exists P', r, vv'. unfold am1 in F, W'. rewrite with_place_twice in F, W'. split_and!; [done | done | done |].
    intros b' p Eb'. destruct (Hs _ _ Eb') as [Hd Hb]. unfold am1 in Hd. cbn in Hd. apply lookup_delete_Some in Hd as [D Hd]. split; [done |].
    apply not_elem_of_cons. split; [| done]. intros ->. apply D. f_equal.
    destruct (new_slot_entry _ _ _ _ _ _ W Hd) as (j & Ej & _ & _ & _ & -> & _). rewrite E in Ej. injection Ej as <-. apply GetBucketPosition_service.
  - destruct (IH am P i W HP E Ht) as (P' & r & vv' & F & W' & HP' & Hs). exists P', r, vv'. split_and!; [done | done | done |].
    intros b' p Eb'. destruct (Hs _ _ Eb') as [Hd Hb]. split; [done |]. apply not_elem_of_cons. split; [| done]. intros ->. apply Es.
    destruct (new_slot_entry _ _ _ _ _ _ W Hd) as (j & Ej & _ & _ & _ & Ep & _). rewrite E in Ej. injection Ej as <-.
    unfold pos. rewrite GetBucketPosition_service, <- Ep. unfold slot. by rewrite Hd.
Qed.

(** A flag of the tried table is set or cleared together with its slot. *)
Lemma tried_clear key flags vv n s :
  let b := tried_bucket key s in
  tried_ok key flags vv -> flags !! n = Some (s, true) -> tried_ok key (<[n := (s, false)]> flags) (delete (b, position key false b s) vv).
Proof.
  intros b T E b' p' m.
  assert (Sn : vv !! (b, position key false b s) = Some n) by (apply T; eauto). rewrite lookup_delete_Some, (T b' p' m). split.
  - intros (D & s' & Es & Hb & Hp). exists s'. split; [| done]. rewrite lookup_insert_ne; [done |]. intros <-. rewrite E in Es. injection Es as <-.
    apply D. subst b' p'. done.
  - intros (s' & Es & Hb & Hp). apply lookup_insert_Some in Es as [[_ ?] | [D Es]]; [done |]. split; [| eauto]. intros X. rewrite X in Sn.
    assert (vv !! (b', p') = Some m) by (apply T; eauto). congruence.
Qed.

Lemma tried_set key flags vv n s :
  let b := tried_bucket key s in let p := position key false b s in
  tried_ok key flags vv -> flags !! n = Some (s, false) -> vv !! (b, p) = None -> tried_ok key (<[n := (s, true)]> flags) (<[(b, p) := n]> vv).
Proof.
  intros b p T E Ev b' p' m. destruct (decide ((b', p') = (b, p))) as [[= -> ->] | D].
  - rewrite lookup_insert_eq. split; [intros [= <-]; exists s; by rewrite lookup_insert_eq |].
    intros (s' & Es & Hb & Hp). f_equal. apply lookup_insert_Some in Es as [[? _] | [? Es]]; [done |].
    assert (vv !! (b, p) = Some m) by (apply T; eauto). congruence.
  - rewrite lookup_insert_ne, (T b' p' m) by done. split; intros (s' & Es & Hb & Hp); exists s'; (split; [| done]).
    + rewrite lookup_insert_ne by congruence. done.
    + apply lookup_insert_Some in Es as [[_ Q] | [? Es]]; [| done]. injection Q as <-. exfalso. apply D. unfold p, b. by rewrite Hp, Hb.
Qed.

(** The new table does not see a change of the flag of an entry that is in none of its slots. *)
Lemma new_flag key places P P' vv n s t t' :
  new_ok key places P vv -> places !! n = Some (s, t, 0) -> refs vv n = 0 ->
  (forall m, m <> n -> m ∈ P' <-> m ∈ P) -> (n ∈ P' \/ t' = true) -> new_ok key (<[n := (s, t', 0)]> places) P' vv.
Proof.
  intros [N1 N2] E Z0 HP Hn. split.
  - intros m s' u r Em. destruct (decide (m = n)) as [-> | D].
    + rewrite lookup_insert_eq in Em. injection Em as <- <- <-. split; [done |]. intros ->. by rewrite decide_True by naive_solver.
    + rewrite lookup_insert_ne in Em by done. destruct (N1 _ _ _ _ Em) as [? H]. split; [done |]. intros Hu. specialize (H Hu). specialize (HP m D).
      destruct (decide (m ∈ P)); [rewrite decide_True by tauto | rewrite decide_False by tauto]; done.
  - intros b p m Em. destruct (N2 _ _ _ Em) as (s' & r & Es & Hs). exists s', r. rewrite lookup_insert_ne; [done |].
    intros <-. by apply (proj1 (refs_none vv n) Z0 b p).
Qed.
