(* ===== verification/AddrManInvariant.v ===== *)
(** Every call of the address manager keeps its invariant: no assertion fails, whatever
    the addresses, times and random draws, and [Check_] returns 0 after every call. *)

From Stdlib Require Import ZArith Lia.
From stdpp Require Import base tactics list numbers option gmap fin_maps sorting.
From S2P Require Import Prelude Serialize NetAddress AddrMan AddrManFacts.

(** ** Good *)

Lemma place_of am n i : mapInfo am !! n = Some i -> (v_place <$> mapInfo am) !! n = Some (v_place i).
Proof. intros E. by rewrite lookup_fmap, E. Qed.

Lemma same_place i j : set_pos 0 i = set_pos 0 j ->
  ai_service i = ai_service j /\ ai_fInTried i = ai_fInTried j /\ ai_nRefCount i = ai_nRefCount j /\ ai_nLastSuccess i = ai_nLastSuccess j.
Proof.
  intros E. pose proof (f_equal ai_service E). pose proof (f_equal ai_fInTried E). pose proof (f_equal ai_nRefCount E).
  pose proof (f_equal ai_nLastSuccess E). done.
Qed.

Lemma id_nonneg P k am n i : wf P k am -> mapInfo am !! n = Some i -> 0 <= n.
Proof. intros W E. destruct (w_ids _ _ _ W) as [I1 _]. destruct (I1 n (ai_ip i)) as [? _]; [by rewrite lookup_fmap, E | lia]. Qed.

Lemma tried_slot_entry P k am b p n : wf P k am -> vvTried am !! (b, p) = Some n ->
  exists i, mapInfo am !! n = Some i /\ ai_fInTried i = true /\ b = tried_bucket (am_nKey am) (ai_service i) /\
    p = position (am_nKey am) false b (ai_service i).
Proof.
  intros W E. apply (w_tried _ _ _ W) in E as (s & Es & Hb & Hp). apply lookup_fmap_Some in Es as (i & Ei & E).
  injection Ei as <- F. eauto.
Qed.

Lemma tried_slot_none P k am b p : wf P k am -> slot (vvTried am) b p = -1 -> vvTried am !! (b, p) = None.
Proof.
  intros W E. destruct (vvTried am !! (b, p)) as [n |] eqn:En; [| done]. destruct (tried_slot_entry _ _ _ _ _ _ W En) as (i & Ei & _).
  pose proof (id_nonneg _ _ _ _ _ W Ei). unfold slot in E. rewrite En in E. cbn in E. lia.
Qed.

(** The flag and the slot of an entry change together, with the counters. *)
Lemma wf_flag P P' k k' am n i t vv dt dn :
  wf P k am -> mapInfo am !! n = Some i -> (t = true -> ai_nLastSuccess i <> 0) ->
  tried_ok (am_nKey am) (<[n := (ai_service i, t)]> (v_flag <$> mapInfo am)) vv ->
  new_ok (am_nKey am) (<[n := (ai_service i, t, ai_nRefCount i)]> (v_place <$> mapInfo am)) P' (vvNew am) ->
  dt = Z.b2z t - Z.b2z (ai_fInTried i) -> dn = k - k' - dt ->
  wf P' k' (with_counts (nNew am + dn) (nTried am + dt) (with_tried vv (with_infos (<[n := set_tried t i]> (mapInfo am)) am))).
Proof.
  intros W E Hs HT HN Hdt Hdn. pose proof (map_Forall_lookup_1 _ _ _ _ (w_times _ _ _ W) E) as (? & ? & ? & ? & ? & ?). destruct W. constructor; cbn; rewrite ?(fmap_same _ _ n i) by done; try done; rewrite ?fmap_insert; try done.
  - apply map_Forall_insert_2; [| done]. unfold times_ok. do 5 (split; [done |]). done.
  - rewrite (count_insert_Some _ _ _ _ (ai_fInTried i)) by (by rewrite lookup_fmap, E). cbn. unfold id in *. lia.
  - rewrite (count_insert_Some _ _ _ _ (ai_fInTried i)) by (by rewrite lookup_fmap, E). cbn. destruct t, (ai_fInTried i); cbn in *; lia.
Qed.

Lemma with_counts_same am : with_counts (nNew am) (nTried am) am = am.
Proof. by destruct am. Qed.

(** The entry in the way goes back to the new table; the entries between the tables stay. *)
Lemma evict_ok P k am b p :
  wf P k am -> (forall m i, m ∈ P -> mapInfo am !! m = Some i -> ai_fInTried i = false) ->
  exists am', evict am b p = Some am' /\ wf P k am' /\ vvTried am' = delete (b, p) (vvTried am) /\
    nIdCount am' = nIdCount am /\ am_nKey am' = am_nKey am /\
    (forall m i, m ∈ P -> mapInfo am !! m = Some i -> exists i', mapInfo am' !! m = Some i' /\ set_pos 0 i' = set_pos 0 i).
Proof.
  intros W HP. unfold evict. destruct (Z.eqb_spec (slot (vvTried am) b p) (-1)) as [E | E].
  { exists am. rewrite delete_id by (by apply (tried_slot_none P k)). split_and!; try done. eauto. }
  pose proof (slot_inv _ _ _ _ eq_refl E) as En. set (n := slot (vvTried am) b p) in *.
  destruct (tried_slot_entry _ _ _ _ _ _ W En) as (i & Ei & Ht & Hb & Hp). rewrite bool_decide_eq_true_2 by (rewrite Ei; eauto).
  rewrite (upd_some _ _ _ i Ei). cbn [vvTried with_infos nNew nTried with_tried].
  pose proof (id_nonneg _ _ _ _ _ W Ei) as Hn. pose proof (place_of _ _ _ Ei) as Epl. unfold v_place in Epl. rewrite Ht in Epl.
  destruct (new_refs_zero _ _ _ _ _ _ _ _ (w_new _ _ _ W) Epl (or_introl eq_refl)) as [R0 R1].
  assert (HnP : n ∉ P) by (intros X; pose proof (HP _ _ X Ei); congruence).
  set (am1 := with_counts _ _ _).
  assert (W1 : wf ({[n]} ∪ P) (k + 1) am1).
  { unfold am1. replace (nNew am) with (nNew am + 0) by lia. replace (nTried am - 1) with (nTried am + -1) by lia.
    apply (wf_flag P _ k); [done | done | done | | | rewrite Ht; done | lia]; change (set_slot (vvTried am) b p (-1)) with (delete (b, p) (vvTried am)).
    - subst p b. apply tried_clear; [apply W |]. rewrite lookup_fmap, Ei. cbn. unfold v_flag. by rewrite Ht.
    - rewrite R0 in Epl |- *. eapply new_flag; [apply W | done | done | set_solver | left; set_solver]. }
  assert (E1 : mapInfo am1 !! n = Some (set_tried false i)) by apply lookup_insert_eq. rewrite (info_at_some _ _ _ E1).
  set (nb := GetNewBucket _ _ _). set (np := GetBucketPosition _ _ _ _).
  destruct (ClearNew_ok _ _ am1 nb np W1) as (am2 & -> & W2 & Ev & (F1 & F2 & F3 & F4) & Fr). cbn [mbind option_bind].
  assert (Free : forall m j, m ∈ {[n]} ∪ P -> mapInfo am1 !! m = Some j -> exists j', mapInfo am2 !! m = Some j' /\ set_pos 0 j' = set_pos 0 j).
  { intros m j Hm Ej. apply Fr; [done |]. intros X. destruct (new_slot_entry _ _ _ _ _ _ W1 X) as (j' & Ej' & Hj & Hr & _). rewrite Ej in Ej'. injection Ej' as <-.
    pose proof (place_of _ _ _ Ej) as Q. destruct (new_refs_zero _ _ _ _ _ _ _ _ (w_new _ _ _ W1) Q (or_intror Hm)) as [_ Q0].
    pose proof (refs_pos _ _ _ _ X). lia. }
  assert (Hempty : vvNew am2 !! (nb, np) = None) by (rewrite Ev; apply lookup_delete_eq).
  replace (slot (vvNew am2) nb np) with (-1) by (unfold slot; by rewrite Hempty). cbn [Z.eqb].
  destruct (Free n _ ltac:(set_solver) E1) as (i2 & E2 & I2). destruct (same_place _ _ I2) as (V1 & V2 & V3 & _).
  eexists. split; [done |]. rewrite (upd_some _ _ _ i2 E2). unfold set_slot. rewrite (proj2 (Z.eqb_neq n (-1))) by lia. cbn [vvNew with_infos].
  change (with_new _ _) with (with_place n (set_refs 1 i2) (<[(nb, np) := n]> (vvNew am2)) am2).
  split.
  { replace k with (k + 1 - 1) by lia. apply wf_counts. replace P with (({[n]} ∪ P) ∖ {[n]}) by set_solver.
    apply (wf_with_place ({[n]} ∪ P)); [done | done |]. rewrite V2, V1. cbn [ai_fInTried ai_service set_tried set_place].
    unfold np. rewrite GetBucketPosition_service, <- F4. replace 1 with (ai_nRefCount i + 1) by lia.
    apply new_add; [apply W2 | by rewrite F4, <- GetBucketPosition_service | | apply GetNewBucket_range | lia].
    rewrite (place_of _ _ _ E2). unfold v_place. by rewrite V1, V2, V3. }
  split_and!; [exact F2 | exact F1 | exact F4 |].
  intros m j Hm Ej. assert (D : m <> n) by congruence. destruct (Free m j ltac:(set_solver)) as (j' & Ej' & Hj').
  { unfold am1. cbn. by rewrite lookup_insert_ne. }
  exists j'. cbn. by rewrite lookup_insert_ne.
Qed.

Lemma MakeTried_ok am n i :
  wf ∅ 0 am -> mapInfo am !! n = Some i -> ai_fInTried i = false -> ai_nLastSuccess i <> 0 ->
  exists am' i', MakeTried am n = Some am' /\ wf ∅ 0 am' /\ nIdCount am' = nIdCount am /\
    mapInfo am' !! n = Some i' /\ ai_fInTried i' = true /\ ai_service i' = ai_service i.
Proof.
  intros W E Ht Hs. unfold MakeTried. destruct (leave_all 0 n new_buckets am ∅ i W ltac:(set_solver) E Ht) as (P & r & vv & -> & W1 & HP & Hv).
  set (am1 := with_place _ _ _ _) in *. assert (E1 : mapInfo am1 !! n = Some (set_refs r i)) by apply lookup_insert_eq.
  pose proof (id_nonneg _ _ _ _ _ W E) as Hn.
  assert (R0 : refs vv n = 0).
  { apply refs_none. intros b p Eb. destruct (Hv _ _ Eb) as [Em Hb]. apply Hb. destruct (new_slot_entry _ _ _ _ _ _ W Em) as (_ & _ & _ & _ & _ & _ & ?).
    unfold new_buckets, ADDRMAN_NEW_BUCKET_COUNT. apply elem_of_seqZ. lia. }
  assert (HPn : P = {[n]}).
  { destruct (decide (n ∈ P)); [set_solver |]. exfalso. destruct (w_new _ _ _ W1) as [N1 _]. pose proof (place_of _ _ _ E1) as Q. unfold v_place in Q.
    cbn [ai_fInTried set_refs set_place] in Q. rewrite Ht in Q. destruct (N1 _ _ _ _ Q) as [Q1 Q2]. specialize (Q2 eq_refl). rewrite decide_False in Q2 by done.
    cbn in Q1, Q2. lia. }
  subst P. destruct (new_refs_zero _ _ _ _ n _ _ _ (w_new _ _ _ W1) (place_of _ _ _ E1) ltac:(right; set_solver)) as [Hr _]. cbn in Hr. subst r.
  apply (wf_counts _ _ _ (-1)) in W1. replace (nNew am1 + -1) with (nNew am1 - 1) in W1 by lia. replace (0 - -1) with 1 in W1 by lia.
  set (am2 := with_counts _ _ _) in *. assert (E2 : mapInfo am2 !! n = Some (set_refs 0 i)) by apply lookup_insert_eq.
  rewrite (info_at_some _ _ _ E2). cbn [ai_nRefCount set_refs set_place Z.eqb]. rewrite GetTriedBucket_service.
  set (b := tried_bucket _ _). rewrite GetBucketPosition_service. set (p := position _ _ _ _).
  destruct (evict_ok {[n]} 1 am2 b p W1) as (am3 & -> & W3 & Ev & Ec & Ek & Fr).
  { intros m j Hm Ej. assert (m = n) as -> by set_solver. rewrite E2 in Ej. injection Ej as <-. done. }
  cbn [mbind option_bind]. assert (Hempty : vvTried am3 !! (b, p) = None) by (rewrite Ev; apply lookup_delete_eq).
  replace (slot (vvTried am3) b p) with (-1) by (unfold slot; by rewrite Hempty). cbn [Z.eqb].
  destruct (Fr n _ ltac:(set_solver) E2) as (i3 & E3 & I3). destruct (same_place _ _ I3) as (V1 & V2 & V3 & V4).
  exists (with_counts (nNew am3 + 0) (nTried am3 + 1) (with_tried (<[(b, p) := n]> (vvTried am3)) (with_infos (<[n := set_tried true i3]> (mapInfo am3)) am3))).
  exists (set_tried true i3). split.
  { f_equal. unfold upd, info_at. cbn. rewrite E3. cbn [default]. unfold set_slot. rewrite (proj2 (Z.eqb_neq n (-1))) by lia.
    unfold with_counts, with_tried, with_infos. cbn. by rewrite Z.add_0_r. }
  split; [| split_and!; [exact Ec | apply lookup_insert_eq | done | exact V1]].
  apply (wf_flag {[n]} _ 1); [done | done | intros _; rewrite V4; done | | | rewrite V2; cbn; rewrite Ht; done | lia].
  - unfold p, b. rewrite <- Ek. rewrite V1. apply tried_set; [apply W3 | | rewrite Ek; exact Hempty].
    rewrite lookup_fmap, E3. cbn. unfold v_flag. rewrite V1, V2. cbn. by rewrite Ht.
  - rewrite V3. cbn [ai_nRefCount set_refs set_place]. eapply (new_flag _ _ {[n]}); [apply W3 | | | set_solver | by right].
    + rewrite (place_of _ _ _ E3). unfold v_place. by rewrite V3.
    + eapply (new_refs_zero _ _ _ _ n); [apply W3 | apply (place_of _ _ _ E3) | right; set_solver].
Qed.

Lemma s32_range z : - 2 ^ 31 <= s32 z < 2 ^ 31.
Proof. unfold s32. pose proof (Z.mod_pos_bound (z + 2 ^ 31) (2 ^ 32) ltac:(lia)). lia. Qed.

(** The ranges of an entry after assignments to its fields. *)
Ltac entry_ranges :=
  unfold times_ok, address_ok, ai_service, ai_nTime;
  cbn [ai_nLastTry ai_nLastSuccess ai_fInTried ai_nAttempts ai_source ai_addr set_stats set_addr ad_service ad_nServices ad_nTime];
  split_and!; done || lia.

Lemma good_times t i : 0 < t < 2 ^ 63 -> times_ok i -> times_ok (set_stats t t (ai_nLastCountAttempt i) 0 i).
Proof. intros Ht (? & ? & ? & ? & ? & ? & ? & ? & ?). entry_ranges. Qed.

Lemma Good_ok rnd addr t am :
  wf ∅ 0 am -> 0 < t < 2 ^ 63 -> exists am', Good_ rnd addr t am = Some am' /\ wf ∅ 0 am' /\ nIdCount am' = nIdCount am.
Proof.
  intros W Ht. apply (wf_good _ _ _ t) in W. unfold Good_. set (am1 := with_good t am) in *. change (nIdCount am) with (nIdCount am1).
  destruct (Find am1 (sv_ip addr)) as [n |] eqn:F; [| eauto]. destruct (Find_some _ _ _ _ _ W F) as (i & E & _).
  destruct (negb _); [eauto |]. set (f := fun j => set_stats t t (ai_nLastCountAttempt j) 0 j).
  assert (W1 : wf ∅ 0 (upd n f am1)) by (apply (wf_upd _ _ _ _ _ i W E); try done; apply good_times, (map_Forall_lookup_1 _ _ _ _ (w_times _ _ _ W) E); done).
  assert (E1 : mapInfo (upd n f am1) !! n = Some (f i)) by (rewrite (upd_some _ _ _ i E); apply lookup_insert_eq).
  rewrite (info_at_some _ _ _ E1). destruct (ai_fInTried (f i)) eqn:Hf; [by exists (upd n f am1) |].
  destruct (find_new_bucket (upd n f am1) n (rnd ADDRMAN_NEW_BUCKET_COUNT)); [| by exists (upd n f am1)].
  destruct (MakeTried_ok _ n (f i) W1 E1 Hf) as (am' & i' & M & W' & C & _); [cbn; lia |]. exists am'. split; [exact M |]. split; [exact W' | exact C].
Qed.

Lemma find_found {A} (f : A -> bool) l x : In x l -> f x = true -> exists y, List.find f l = Some y.
Proof. intros Hx Hf. destruct (List.find f l) as [y |] eqn:E; [eauto |]. pose proof (List.find_none _ _ E x Hx). congruence. Qed.

(** A new entry is in some slot. *)
Lemma new_entry_slot am n i : wf ∅ 0 am -> mapInfo am !! n = Some i -> ai_fInTried i = false -> exists b p, vvNew am !! (b, p) = Some n.
Proof.
  intros W E Ht. pose proof (place_of _ _ _ E) as Q. unfold v_place in Q. rewrite Ht in Q. destruct (w_new _ _ _ W) as [N1 _].
  destruct (N1 _ _ _ _ Q) as [Q1 Q2]. specialize (Q2 eq_refl). rewrite decide_False in Q2 by set_solver.
  unfold refs, count in Q1. destruct (map_size_ne_0_lookup (filter (fun kv : Z * Z * Z => (kv.2 =? n) = true) (vvNew am))) as [H _].
  destruct H as [[b p] [x Hx]]; [lia |]. apply map_lookup_filter_Some in Hx as [Hx Hn]. cbn in Hn. apply Z.eqb_eq in Hn as ->. eauto.
Qed.

(** The search for a bucket, from any starting point, finds one. *)
Lemma find_new_bucket_finds am n i r :
  wf ∅ 0 am -> mapInfo am !! n = Some i -> ai_fInTried i = false -> 0 <= r < ADDRMAN_NEW_BUCKET_COUNT ->
  exists b, find_new_bucket am n r = Some b.
Proof.
  intros W E Ht Hr. destruct (new_entry_slot am n i W E Ht) as (b & p & Eb).
  destruct (new_slot_entry _ _ _ _ _ _ W Eb) as (j & Ej & _ & _ & Hn & Ep & Hb). rewrite E in Ej. injection Ej as <-.
  unfold ADDRMAN_NEW_BUCKET_COUNT in *. pose proof (Z.mod_pos_bound (b - r) 1024 ltac:(lia)) as Hm. apply (find_found _ _ b).
  - apply list_elem_of_In, list_elem_of_fmap. exists ((b - r) `mod` 1024).
    split; [| unfold new_buckets, ADDRMAN_NEW_BUCKET_COUNT; apply elem_of_seqZ; lia].
    unfold ADDRMAN_NEW_BUCKET_COUNT. rewrite u32_id by lia. rewrite Zplus_mod_idemp_l. replace (b - r + r) with b by lia. by rewrite Z.mod_small.
  - rewrite (info_at_some _ _ _ E), GetBucketPosition_service, <- Ep. unfold slot. rewrite Eb. apply Z.eqb_refl.
Qed.

(** ** Statistics *)

Lemma wf_touch am s f :
  wf ∅ 0 am -> (forall i, ai_service i = s -> times_ok i -> v_place (f i) = v_place i /\ ai_nRandomPos (f i) = ai_nRandomPos i /\ times_ok (f i)) ->
  let am' := match find_service am s with None => am | Some n => upd n f am end in
  wf ∅ 0 am' /\ nIdCount am' = nIdCount am.
Proof.
  intros W Hf. cbn. destruct (find_service am s) as [n |] eqn:F; [| done]. split; [| done].
  destruct (find_service_some _ _ _ _ _ W F) as (i & E & Hs).
  destruct (Hf i Hs (map_Forall_lookup_1 _ _ _ _ (w_times _ _ _ W) E)) as (K1 & K2 & K3). by apply (wf_upd _ _ _ _ _ i).
Qed.

Lemma Attempt_ok s c t am : wf ∅ 0 am -> 0 <= t -> wf ∅ 0 (Attempt_ s c t am) /\ nIdCount (Attempt_ s c t am) = nIdCount am.
Proof.
  intros W Ht. apply wf_touch; [done |]. intros i _ (? & ? & ? & ? & ? & ? & ? & ? & ?). cbv beta. pose proof (s32_range (ai_nAttempts i + 1)).
  destruct (_ && _); (split; [done |]; split; [done |]; entry_ranges).
Qed.

Lemma Connected_ok s t am : wf ∅ 0 am -> wf ∅ 0 (Connected_ s t am) /\ nIdCount (Connected_ s t am) = nIdCount am.
Proof.
  intros W. apply wf_touch; [done |]. intros i _ (? & ? & ? & ? & ? & ? & ? & ? & ?). cbv beta. pose proof (u32_range t).
  destruct (_ <? _); (split; [done |]; split; [done |]; entry_ranges).
Qed.

Lemma SetServices_ok s v am : wf ∅ 0 am -> 0 <= v < 2 ^ 64 -> wf ∅ 0 (SetServices_ s v am) /\ nIdCount (SetServices_ s v am) = nIdCount am.
Proof.
  intros W Hv. apply wf_touch; [done |]. intros i _ (? & ? & ? & ? & ? & ? & ? & ? & ?). cbv beta.
  split; [done |]; split; [done |]; entry_ranges.
Qed.

(** ** Sampling

    The loop of [GetAddr_] shuffles the random order from the front; what it has passed is
    fixed, and it has collected the good entries among it. *)

(** The addresses of the entries worth sending, in an order of ids. *)
Definition good_addr (am : CAddrMan) (now : Z) (n : Z) : list CAddress :=
  match mapInfo am !! n with Some i => if IsTerrible now i then [] else [ai_addr i] | None => [] end.
Definition good_addrs (am : CAddrMan) (now : Z) (l : list Z) : list CAddress := concat (good_addr am now <$> l).

Lemma good_addrs_app am now l1 l2 : good_addrs am now (l1 ++ l2) = good_addrs am now l1 ++ good_addrs am now l2.
Proof. unfold good_addrs. by rewrite fmap_app, concat_app. Qed.

Lemma good_addr_shuffled am am' now n : shuffled am am' -> good_addr am' now n = good_addr am now n.
Proof.
  intros S. unfold good_addr. pose proof (f_equal (fun m => m !! n) (sh_infos _ _ S)) as F. cbn in F. rewrite !lookup_fmap in F.
  destruct (mapInfo am' !! n) as [i' |], (mapInfo am !! n) as [i |]; try done. apply (inj Some) in F.
  pose proof (f_equal (IsTerrible now) F) as F1. pose proof (f_equal ai_addr F) as F2. change (IsTerrible now i' = IsTerrible now i) in F1.
  change (ai_addr i' = ai_addr i) in F2. by rewrite F1, F2.
Qed.

Lemma getaddr_loop_ok rnd now nNodes am todo n am1 v :
  (forall k m, 0 < m -> 0 <= rnd k m < m) ->
  wf ∅ 0 am -> wf ∅ 0 am1 -> shuffled am am1 -> Z.of_nat n + Z.of_nat todo = zlen (vRandom am1) ->
  v = good_addrs am now (take n (vRandom am1)) -> zlen v <= nNodes ->
  exists am' m, getaddr_loop rnd now nNodes todo (Z.of_nat n) am1 v = Some (good_addrs am now (take m (vRandom am')), am') /\
    wf ∅ 0 am' /\ shuffled am am' /\ (m <= length (vRandom am'))%nat /\
    zlen (good_addrs am now (take m (vRandom am'))) <= nNodes /\
    (nNodes <= zlen (good_addrs am now (take m (vRandom am'))) \/ m = length (vRandom am')).
Proof.
  intros Hrnd W. revert n am1 v. induction todo as [| todo IH]; intros n am1 v W1 S1 Hl Hv Hn; cbn [getaddr_loop].
  { exists am1, n. subst v. unfold zlen in Hl. split_and!; try done; [lia | right; lia]. }
  destruct (Z.leb_spec nNodes (zlen v)) as [Hd | Hd].
  { exists am1, n. subst v. unfold zlen in Hl. split_and!; try done; [lia | by left]. }
  pose proof (w_len _ _ _ W1). pose proof (w_cap _ _ _ W1). pose proof (Hrnd (S todo) (zlen (vRandom am1) - Z.of_nat n) ltac:(lia)) as Hr.
  set (p := _ + Z.of_nat n). rewrite (u32_id p) by lia.
  destruct (SwapRandom_ok ∅ 0 am1 (Z.of_nat n) p) as (am2 & -> & W2 & S2 & V2); [done | lia | lia |]. cbn [mbind option_bind].
  assert (L2 : zlen (vRandom am2) = zlen (vRandom am1)) by (unfold zlen; by rewrite (Permutation_length (sh_perm _ _ S2))).
  destruct (random_entry _ _ am2 (Z.of_nat n) W2 ltac:(lia)) as (i & E & _). rewrite E. cbn [mbind option_bind].
  pose proof (random_idx (vRandom am2) (Z.of_nat n) ltac:(lia)) as Ei. rewrite Nat2Z.id in Ei.
  assert (Hpre : take n (vRandom am2) = take n (vRandom am1)).
  { rewrite V2, Nat2Z.id, take_insert_ge, take_insert_ge by lia. done. }
  pose proof (shuffled_trans _ _ _ S1 S2) as S12.
  assert (Hv' : (if negb (IsTerrible now i) then v ++ [ai_addr i] else v) = good_addrs am now (take (S n) (vRandom am2))).
  { erewrite take_S_r by done. rewrite good_addrs_app, Hpre, <- Hv. unfold good_addrs. cbn. rewrite app_nil_r, <- (good_addr_shuffled _ _ now _ S12).
    unfold good_addr. rewrite E. destruct (IsTerrible now i); cbn; [by rewrite app_nil_r | done]. }
  replace (Z.of_nat n + 1) with (Z.of_nat (S n)) by lia. apply IH; [done | done | lia | done |].
  destruct (negb _); [| lia]. unfold zlen in *. rewrite length_app. cbn. lia.
Qed.
