(* ===== verification/AddrManCheck.v ===== *)
(** The consistency check of the address manager passes in every state that calls can reach,
    and what the sample of addresses sent to a peer holds. *)

From Stdlib Require Import ZArith Lia.
From stdpp Require Import base tactics list numbers option gmap fin_maps fin_map_dom sorting.
From S2P Require Import Prelude Serialize NetAddress AddrMan AddrManFacts AddrManInvariant.

(** ** The slots of a table *)



#[local] Opaque slots.





(** ** The loops of the check *)






(** ** The sizes the check compares *)

Lemma random_perm P k am : wf P k am -> vRandom am ≡ₚ elements (dom (mapInfo am)).
Proof.
  intros W. pose proof (w_random _ _ _ W) as R. apply NoDup_Permutation; [| apply NoDup_elements |].
  - apply NoDup_alt. intros i j n Hi Hj. pose proof (random_lookup _ _ _ _ R Hi). pose proof (random_lookup _ _ _ _ R Hj). simplify_eq. lia.
  - intros n. rewrite elem_of_elements, elem_of_dom. split.
    + intros [j Hj]%list_elem_of_lookup. pose proof (random_lookup _ _ _ _ R Hj) as Q. apply lookup_fmap_Some in Q as (i & _ & ->). eauto.
    + intros [i E]. destruct (R n (ai_nRandomPos i)) as [Q _]. destruct Q as [_ Q]; [by rewrite lookup_fmap, E |]. eapply list_elem_of_lookup_2, Q.
Qed.






(** ** Histories *)

(** What a call may be given: values of their types, times after the epoch, draws in their
    range. *)
Definition call_ok (c : call) : Prop :=
  match c with
  | call_Add _ _ vAddr source _ => Forall address_ok vAddr /\ net_ok source
  | call_Good _ _ t => 0 < t < 2 ^ 63
  | call_Attempt _ _ t => 0 <= t
  | call_GetAddr rnd _ => forall k m, 0 < m -> 0 <= rnd k m < m
  | call_Connected _ _ => True
  | call_SetServices _ nServices => 0 <= nServices < 2 ^ 64
  end.

(** The number of addresses offered to the manager. *)
Definition offered (cs : list call) : Z :=
  foldr (fun c n => match c with call_Add _ _ v _ _ => zlen v | _ => 0 end + n) 0 cs.

Lemma offered_nonneg cs : 0 <= offered cs.
Proof.
  induction cs as [| c cs IH]; [done |]. cbn [offered foldr]. fold (offered cs). pose proof (fun v : list CAddress => zlen_nonneg v) as Hz.
  destruct c as [? ? v | | | | |]; [specialize (Hz v) | ..]; lia.
Qed.

Lemma wf_new key : Exists (fun b => b <> 0) key -> wf ∅ 0 (CAddrMan_new key).
Proof.
  intros K. constructor; cbn; rewrite ?fmap_empty; try done.
  - intros n p. rewrite lookup_empty. split; [done | intros [_ X]; done].
  - intros b p n. rewrite lookup_empty. split; [done | intros (s & X & _); by rewrite lookup_empty in X].
Qed.

Lemma Add_all_ok rnd now v src pen am :
  wf ∅ 0 am -> nIdCount am + zlen v < 2 ^ 31 -> Forall address_ok v -> net_ok src ->
  exists r, Add_all rnd now v src pen am = Some r /\ wf ∅ 0 r.2 /\ nIdCount r.2 <= nIdCount am + zlen v.
Proof.
  revert am. induction v as [| a v IH]; intros am W Hc Hv Hsrc; cbn [Add_all].
  { exists (0, am). split; [done |]. split; [done |]. unfold zlen. cbn. lia. }
  apply Forall_cons in Hv as [Ha Hv]. rewrite zlen_cons in *. pose proof (zlen_nonneg v).
  destruct (Add_ok (rnd (length v)) now a src pen am W ltac:(lia) Ha Hsrc) as (r & -> & W1 & C1). cbn [mbind option_bind].
  destruct (IH r.2 W1 ltac:(lia) Hv Hsrc) as (t & -> & W2 & C2). cbn [mbind option_bind]. eexists. split; [done |]. cbn [snd]. split; [done | lia].
Qed.

Lemma GetAddr_ok rnd now am :
  (forall k m, 0 < m -> 0 <= rnd k m < m) -> wf ∅ 0 am ->
  let limit := Z.min 2500 (23 * zlen (vRandom am) / 100) in
  exists am' m, let v := good_addrs am now (take m (vRandom am')) in
    GetAddr_ rnd now am = Some (v, am') /\ wf ∅ 0 am' /\ shuffled am am' /\ (m <= length (vRandom am'))%nat /\
    zlen v <= limit /\ (limit <= zlen v \/ m = length (vRandom am')).
Proof.
  intros Hr W limit. pose proof (w_len _ _ _ W). pose proof (w_cap _ _ _ W). pose proof (zlen_nonneg (vRandom am)). unfold GetAddr_, ADDRMAN_GETADDR_MAX_PCT, ADDRMAN_GETADDR_MAX.
  assert (Hd : 0 <= 23 * zlen (vRandom am) / 100 < 2 ^ 31) by (split; [apply Z.div_pos; lia | apply Z.div_lt_upper_bound; lia]).
  rewrite u32_id by lia. assert (El : (if 2500 <? 23 * zlen (vRandom am) / 100 then 2500 else 23 * zlen (vRandom am) / 100) = limit).
  { unfold limit. destruct (Z.ltb_spec 2500 (23 * zlen (vRandom am) / 100)); lia. }
  rewrite El. apply (getaddr_loop_ok rnd now limit am (length (vRandom am)) 0 am []); try done; unfold zlen at 1, limit; cbn [length]; lia.
Qed.

(** No history of calls fails an assertion, and the invariant holds after it. *)
Lemma run_calls_ok am cs :
  wf ∅ 0 am -> Forall call_ok cs -> nIdCount am + offered cs < 2 ^ 31 ->
  exists am', run_calls am cs = Some am' /\ wf ∅ 0 am'.
Proof.
  revert am. induction cs as [| c cs IH]; intros am W Hc Hn; [by exists am |]. apply Forall_cons in Hc as [Hc1 Hcs]. cbn [run_calls].
  assert (H : exists am1, run_call am c = Some am1 /\ wf ∅ 0 am1 /\ nIdCount am1 + offered cs < 2 ^ 31).
  { cbn [offered foldr] in Hn. fold (offered cs) in Hn. pose proof (offered_nonneg cs). destruct c; cbn [run_call]; cbn in Hc1.
    - destruct (Add_all_ok RandomInt now vAddr source nTimePenalty am W ltac:(lia) (proj1 Hc1) (proj2 Hc1)) as (r & -> & W1 & C1). exists r.2. split; [done |]. split; [done | lia].
    - destruct (Good_ok RandomInt addr nTime am W Hc1) as (am1 & G & W1 & C1). exists am1. split; [exact G |]. split; [done | lia].
    - destruct (Attempt_ok addr fCountFailure nTime am W Hc1) as [W1 C1]. eexists. split; [done |]. split; [done | lia].
    - destruct (GetAddr_ok RandomInt now am Hc1 W) as (am1 & m & -> & W1 & S1 & _). exists am1. split; [done |]. split; [done |].
      pose proof (sh_rest _ _ S1) as Q. unfold with_random, with_infos in Q. injection Q as Q1 _. lia.
    - destruct (Connected_ok addr nTime am W) as [W1 C1]. eexists. split; [done |]. split; [done | lia].
    - destruct (SetServices_ok addr nServices am W Hc1) as [W1 C1]. eexists. split; [done |]. split; [done | lia]. }
  destruct H as (am1 & -> & W1 & C1). cbn [mbind option_bind]. by apply IH.
Qed.


(** Two addresses are offered, one is connected to, and a peer asks for addresses. *)
Definition sample_key : bytes := replicate 32 7.
Definition sample_service (last : Z) : CService := {| sv_ip := pchIPv4 ++ [85; 25; 0; last]; sv_port := 51472 |}.
Definition sample_address (last : Z) : CAddress := {| ad_service := sample_service last; ad_nServices := 1; ad_nTime := 1600000000 |}.
Definition sample_calls : list call :=
  [call_Add (fun _ _ => 0) 1600000100 [sample_address 1; sample_address 2] (pchIPv4 ++ [85; 26; 0; 1]) 0;
   call_Attempt (sample_service 1) true 1600000200; call_Good (fun _ => 3) (sample_service 1) 1600000201;
   call_GetAddr (fun _ m => m - 1) 1600000300].

Lemma sample_addresses_ok : Forall address_ok [sample_address 1; sample_address 2].
Proof. repeat constructor; cbn; lia. Qed.

Lemma sample_source_ok : net_ok (pchIPv4 ++ [85; 26; 0; 1]).
Proof. repeat constructor; cbn; lia. Qed.

Lemma sample_calls_ok : Forall call_ok sample_calls.
Proof.
  unfold sample_calls. apply Forall_cons; split; [exact (conj sample_addresses_ok sample_source_ok) |]. apply Forall_cons; split; [unfold call_ok; lia |].
  apply Forall_cons; split; [unfold call_ok; lia |]. apply Forall_cons; split; [unfold call_ok; intros; lia | apply Forall_nil_2].
Qed.


(** ** What a sample holds *)

(** Entries worth sending. *)
Definition worth (now : Z) (i : CAddrInfo) : bool := negb (IsTerrible now i).

Lemma good_addrs_perm am now l l' : l ≡ₚ l' -> good_addrs am now l ≡ₚ good_addrs am now l'.
Proof. intros P. unfold good_addrs. by rewrite P. Qed.

Lemma good_addrs_elem am now l a : a ∈ good_addrs am now l <-> exists n i, n ∈ l /\ mapInfo am !! n = Some i /\ worth now i = true /\ ai_addr i = a.
Proof.
  unfold good_addrs. rewrite list_elem_of_In, in_concat. setoid_rewrite <- list_elem_of_In. setoid_rewrite list_elem_of_fmap. unfold good_addr, worth. split.
  - intros (x & (n & -> & Hn) & Ha). destruct (mapInfo am !! n) as [i |] eqn:E; [| by apply not_elem_of_nil in Ha].
    destruct (IsTerrible now i) eqn:T; [by apply not_elem_of_nil in Ha |]. apply list_elem_of_singleton in Ha as ->. exists n, i. by rewrite T.
  - intros (n & i & Hn & E & T & <-). eexists. split; [by exists n |]. rewrite E. apply negb_true_iff in T. rewrite T. left.
Qed.

Lemma good_addrs_count am now : zlen (good_addrs am now (map_to_list (mapInfo am)).*1) = count (worth now) (mapInfo am).
Proof.
  transitivity (zlen (filter (fun kv => worth now kv.2 = true) (map_to_list (mapInfo am)))).
  - assert (H : forall l, (forall n i, (n, i) ∈ l -> mapInfo am !! n = Some i) ->
      zlen (good_addrs am now l.*1) = zlen (filter (fun kv => worth now kv.2 = true) l)).
    { induction l as [| [n i] l IH]; intros Hl; [done |]. rewrite filter_cons. cbn [fmap list_fmap fst snd].
      change (n :: l.*1) with ([n] ++ l.*1). rewrite good_addrs_app. unfold zlen. rewrite length_app. fold (zlen (good_addrs am now l.*1)).
      unfold good_addrs at 1. cbn. rewrite app_nil_r. unfold good_addr. rewrite (Hl n i) by left. unfold zlen in IH.
      specialize (IH ltac:(intros; apply Hl; by right)). case_decide as D; unfold worth in D; cbn in D;
        destruct (IsTerrible now i); try done; cbn [length app]; unfold zlen; lia. }
    apply H. intros n i. by rewrite elem_of_map_to_list.
  - unfold count, zlen. f_equal. rewrite <- length_map_to_list. apply Permutation_length, NoDup_Permutation.
    + apply NoDup_filter, NoDup_map_to_list.
    + apply NoDup_map_to_list.
    + intros [n i]. rewrite list_elem_of_filter, !elem_of_map_to_list, map_lookup_filter_Some. tauto.
Qed.

Lemma good_addrs_ips am now l : wf ∅ 0 am -> NoDup l -> NoDup ((fun a => sv_ip (ad_service a)) <$> good_addrs am now l).
Proof.
  intros W. induction l as [| n l IH]; intros Hd; [constructor |]. apply NoDup_cons in Hd as [Hn Hd]. change (n :: l) with ([n] ++ l).
  rewrite good_addrs_app, fmap_app. apply NoDup_app. split; [| split; [| by apply IH]].
  - unfold good_addrs, good_addr. cbn. destruct (mapInfo am !! n) as [i |]; [destruct (IsTerrible now i) |]; cbn; repeat constructor; apply not_elem_of_nil.
  - intros x Hx Hy. apply list_elem_of_fmap in Hx as (a & -> & Ha), Hy as (b & Hab & Hb).
    apply good_addrs_elem in Ha as (m & i & Hm & E & _ & <-), Hb as (m' & i' & Hm' & E' & _ & <-).
    apply list_elem_of_singleton in Hm as ->. destruct (w_ids _ _ _ W) as [I1 _].
    destruct (I1 n (ai_ip i)) as [_ X]; [by rewrite lookup_fmap, E |]. destruct (I1 m' (ai_ip i')) as [_ X']; [by rewrite lookup_fmap, E' |].
    assert (n = m') by (unfold ai_ip, ai_service in X, X'; congruence). by subst.
Qed.

Lemma wf_ids_perm am : wf ∅ 0 am -> vRandom am ≡ₚ (map_to_list (mapInfo am)).*1.
Proof.
  intros W. rewrite (random_perm _ _ _ W). apply NoDup_Permutation; [apply NoDup_elements | apply NoDup_fst_map_to_list |].
  intros n. rewrite elem_of_elements, elem_of_dom, list_elem_of_fmap. split.
  - intros [i E]. exists (n, i). by rewrite elem_of_map_to_list.
  - intros ([m i] & -> & E). apply elem_of_map_to_list in E. by exists i.
Qed.

(** In any state that calls can reach, [GetAddr_] returns a sample of the addresses it
    knows: entries of the table, none twice (no two with the same network address), none
    that is terrible, as many as there are good ones up to 23 percent of the table and
    2500; it fails no assertion and changes nothing but the random order. *)
Theorem GetAddr_samples (key : bytes) (cs : list call) (am : CAddrMan) (RandomInt : nat -> Z -> Z) (now : Z) :
  Exists (fun b => b <> 0) key -> Forall call_ok cs -> offered cs < 2 ^ 31 ->
  run_calls (CAddrMan_new key) cs = Some am -> (forall k m, 0 < m -> 0 <= RandomInt k m < m) ->
  exists v am', GetAddr_ RandomInt now am = Some (v, am') /\
    set_pos 0 <$> mapInfo am' = set_pos 0 <$> mapInfo am /\ vRandom am' ≡ₚ vRandom am /\
    NoDup ((fun a => sv_ip (ad_service a)) <$> v) /\
    (forall a, a ∈ v -> exists n i, mapInfo am !! n = Some i /\ IsTerrible now i = false /\ ai_addr i = a) /\
    zlen v = Z.min (Z.min 2500 (23 * zlen (vRandom am) / 100)) (count (worth now) (mapInfo am)).
Proof.
  intros K Hc Hn R Hr. destruct (run_calls_ok _ cs (wf_new key K) Hc Hn) as (am0 & R' & W). rewrite R in R'. injection R' as <-.
  destruct (GetAddr_ok RandomInt now am Hr W) as (am' & m & G & W' & S & Hm & Hl & Hmax). eexists _, am'. split; [exact G |].
  split; [apply S |]. split; [apply S |].
  assert (Hd : NoDup (vRandom am')) by (rewrite (random_perm _ _ _ W'); apply NoDup_elements).
  split; [apply good_addrs_ips; [done |]; rewrite <- (take_drop m (vRandom am')) in Hd; by apply NoDup_app in Hd as [? _] |]. split.
  - intros a Ha. apply good_addrs_elem in Ha as (n & i & _ & E & T & Hi). exists n, i. by apply negb_true_iff in T.
  - assert (Hall : zlen (good_addrs am now (vRandom am')) = count (worth now) (mapInfo am)).
    { rewrite <- good_addrs_count. unfold zlen. f_equal. apply Permutation_length, good_addrs_perm. rewrite (sh_perm _ _ S). by apply wf_ids_perm. }
    pose proof (good_addrs_app am now (take m (vRandom am')) (drop m (vRandom am'))) as Ha. rewrite take_drop in Ha.
    apply (f_equal zlen) in Ha. rewrite zlen_app, Hall in Ha. pose proof (zlen_nonneg (good_addrs am now (drop m (vRandom am')))).
    destruct Hmax as [Hx | Hx]; [lia |]. rewrite Hx, drop_all in Ha. rewrite Hx in Hl |- *. unfold good_addrs at 2 in Ha. cbn in Ha.
    change (zlen []) with 0 in Ha. lia.
Qed.

Lemma GetAddr_samples_witness : exists am v am', run_calls (CAddrMan_new sample_key) sample_calls = Some am /\
  GetAddr_ (fun _ _ => 0) 1600000400 am = Some (v, am').
Proof.
  assert (K : Exists (fun b => b <> 0) sample_key) by (left; done).
  assert (Ho : offered sample_calls < 2 ^ 31) by (unfold offered, zlen; cbn; lia).
  destruct (run_calls_ok _ sample_calls (wf_new sample_key K) sample_calls_ok Ho) as (am & R & _).
  destruct (GetAddr_samples sample_key sample_calls am (fun _ _ => 0) 1600000400 K sample_calls_ok Ho R ltac:(intros; lia)) as (v & am' & G & _).
  exists am, v, am'. split; [exact R | exact G].
Defined.


