(* ===== verification/AddrManDisk.v ===== *)
(** The file of peer addresses ([CAddrMan::Serialize] and [Unserialize] of [addrman.h],
    [CAddrDB] of [net.cpp]): what is written to [peers.dat] and how it is read at the start
    of the node.

    An exception leaves the manager as far as it was filled, so a read returns the manager
    together with what is left of the stream or the exception. *)

From Stdlib Require Import ZArith Lia.
From stdpp Require Import base tactics list numbers option gmap fin_maps sorting.
From S2P Require Import Prelude Hash Serialize NetAddress AddrMan.

(** The version of [configure.ac]: 1.0.8. *)
Definition CLIENT_VERSION : Z := 1000800.

(** ** Entries *)

Definition Serialize_CAddrInfo (i : CAddrInfo) : bytes :=
  Serialize_CAddress SER_DISK CLIENT_VERSION (ai_addr i) ++ ai_source i ++
  ser_writedata64 (ai_nLastSuccess i) ++ ser_writedata32 (ai_nAttempts i).

(** Reading one field of an object: the object, and the stream or the exception. *)
Definition field {A B} (r : reader B) (f : B -> A -> A) (st : A * res ser_error bytes) : A * res ser_error bytes :=
  match st.2 with
  | Err _ => st
  | Ok s => match r s with Ok (b, s) => (f b st.1, Ok s) | Err e => (st.1, Err e) end
  end.

Definition set_ad (f : CAddress -> CAddress) (i : CAddrInfo) : CAddrInfo := set_addr (f (ai_addr i)) i.
Definition set_source (src : CNetAddr) (i : CAddrInfo) : CAddrInfo :=
  {| ai_addr := ai_addr i; ai_nLastTry := ai_nLastTry i; ai_nLastCountAttempt := ai_nLastCountAttempt i; ai_source := src;
     ai_nLastSuccess := ai_nLastSuccess i; ai_nAttempts := ai_nAttempts i; ai_nRefCount := ai_nRefCount i;
     ai_fInTried := ai_fInTried i; ai_nRandomPos := ai_nRandomPos i |}.

(** [s >> info] from a file: the version that precedes the address is read and ignored, the
    fields that live in memory only keep their values. *)
Definition read_info (i : CAddrInfo) (s : bytes) : CAddrInfo * res ser_error bytes :=
  let st := (set_ad (fun a => CAddress_Init (ad_service a)) i, Ok s) in
  let st := field ser_readdata32 (fun _ i => i) st in
  let st := field ser_readdata32 (fun t => set_ad (fun a => {| ad_service := ad_service a; ad_nServices := ad_nServices a; ad_nTime := t |})) st in
  let st := field ser_readdata64 (fun v => set_ad (fun a => {| ad_service := ad_service a; ad_nServices := v; ad_nTime := ad_nTime a |})) st in
  let st := field (read 16) (fun ip => set_ad (fun a =>
      {| ad_service := {| sv_ip := ip; sv_port := sv_port (ad_service a) |}; ad_nServices := ad_nServices a; ad_nTime := ad_nTime a |})) st in
  let st := field (read 2) (fun portN => set_ad (fun a =>
      {| ad_service := {| sv_ip := sv_ip (ad_service a); sv_port := le_val (rev portN) |}; ad_nServices := ad_nServices a; ad_nTime := ad_nTime a |})) st in
  let st := field (read 16) set_source st in
  let st := field ser_readdata64 (fun v i => set_stats (s64 v) (ai_nLastTry i) (ai_nLastCountAttempt i) (ai_nAttempts i) i) st in
  field ser_readdata32 (fun v i => set_stats (ai_nLastSuccess i) (ai_nLastTry i) (ai_nLastCountAttempt i) (s32 v) i) st.

(** ** Writing *)

(** The new entries in the order of their ids, with the number each gets; [None] is the
    assertion that [nNew] is right. *)
Fixpoint write_new (am : CAddrMan) (l : list Z) (nIds : Z) (mapUnkIds : gmap Z Z) : option (gmap Z Z * bytes) :=
  match l with
  | [] => Some (mapUnkIds, [])
  | n :: l =>
      let mapUnkIds := <[n := nIds]> mapUnkIds in
      let info := info_at am n in
      if negb (ai_nRefCount info =? 0) then
        if nIds =? nNew am then None
        else r ← write_new am l (nIds + 1) mapUnkIds; Some (r.1, Serialize_CAddrInfo info ++ r.2)
      else write_new am l nIds mapUnkIds
  end.

Fixpoint write_tried (am : CAddrMan) (l : list Z) (nIds : Z) : option bytes :=
  match l with
  | [] => Some []
  | n :: l =>
      let info := info_at am n in
      if ai_fInTried info then
        if nIds =? nTried am then None
        else r ← write_tried am l (nIds + 1); Some (Serialize_CAddrInfo info ++ r)
      else write_tried am l nIds
  end.

Definition write_bucket (mapUnkIds : gmap Z Z) (vv : gmap (Z * Z) Z) (bucket : Z) : bytes :=
  let taken := filter (fun i => slot vv bucket i <> -1) (seqZ 0 ADDRMAN_BUCKET_SIZE) in
  ser_writedata32 (zlen taken) ++ concat ((fun i => ser_writedata32 (default 0 (mapUnkIds !! slot vv bucket i))) <$> taken).

Definition Serialize_CAddrMan (am : CAddrMan) : option bytes :=
  r ← write_new am (ids am) 0 ∅;
  tried ← write_tried am (ids am) 0;
  Some ([1] ++ [32] ++ am_nKey am ++ ser_writedata32 (nNew am) ++ ser_writedata32 (nTried am) ++
        ser_writedata32 (Z.lxor ADDRMAN_NEW_BUCKET_COUNT (2 ^ 30)) ++ r.2 ++ tried ++
        concat (write_bucket r.1 (vvNew am) <$> new_buckets)).

(** ** Reading *)

Inductive load_error := stream_error (e : ser_error) | incorrect_keysize | failed_assert.

Definition loading (A : Type) : Type := CAddrMan * res load_error A.

Definition then_ {A B} (x : loading A) (k : CAddrMan -> A -> loading B) : loading B :=
  match x with (am, Ok a) => k am a | (am, Err e) => (am, Err e) end.

(** [s >> x] for a local variable. *)
Definition get {A} (r : reader A) (am : CAddrMan) (s : bytes) : loading (A * bytes) :=
  (am, match r s with Ok x => Ok x | Err e => Err (stream_error e) end).

Definition with_addrs (m : gmap CNetAddr Z) (am : CAddrMan) : CAddrMan :=
  {| nIdCount := nIdCount am; mapInfo := mapInfo am; mapAddr := m; vRandom := vRandom am; nTried := nTried am;
     vvTried := vvTried am; nNew := nNew am; vvNew := vvNew am; nLastGood := nLastGood am; am_nKey := am_nKey am |}.
Definition with_key (k : bytes) (am : CAddrMan) : CAddrMan :=
  {| nIdCount := nIdCount am; mapInfo := mapInfo am; mapAddr := mapAddr am; vRandom := vRandom am; nTried := nTried am;
     vvTried := vvTried am; nNew := nNew am; vvNew := vvNew am; nLastGood := nLastGood am; am_nKey := k |}.
Definition with_ids (c : Z) (am : CAddrMan) : CAddrMan :=
  {| nIdCount := c; mapInfo := mapInfo am; mapAddr := mapAddr am; vRandom := vRandom am; nTried := nTried am;
     vvTried := vvTried am; nNew := nNew am; vvNew := vvNew am; nLastGood := nLastGood am; am_nKey := am_nKey am |}.

(** A reference from the bucket of the entry's own source, if the slot is free. *)
Definition adopt (n : Z) (am : CAddrMan) : CAddrMan :=
  let info := info_at am n in
  let nUBucket := GetNewBucket (am_nKey am) (ai_source info) info in
  let nUBucketPos := GetBucketPosition (am_nKey am) true nUBucket info in
  if slot (vvNew am) nUBucket nUBucketPos =? -1
  then upd n (fun i => set_refs (ai_nRefCount i + 1) i) (with_new (set_slot (vvNew am) nUBucket nUBucketPos n) am)
  else am.

(** The entry that was read enters the index and the random order. *)
Definition list_entry (n : Z) (info : CAddrInfo) (am : CAddrMan) : CAddrMan :=
  with_random (vRandom am ++ [n])
    (upd n (set_pos (s32 (zlen (vRandom am)))) (with_addrs (<[ai_ip info := n]> (mapAddr am)) am)).

Fixpoint load_new (todo : nat) (n : Z) (rebuild : bool) (am : CAddrMan) (s : bytes) : loading bytes :=
  match todo with
  | O => (am, Ok s)
  | S todo =>
      let (info, r) := read_info (info_at am n) s in
      let am := upd n (fun _ => info) am in
      match r with
      | Err e => (am, Err (stream_error e))
      | Ok s =>
          let am := list_entry n info am in
          load_new todo (n + 1) rebuild (if rebuild then adopt n am else am) s
      end
  end.

(** [nLost] is returned with the rest of the stream. *)
Fixpoint load_tried (todo : nat) (nLost : Z) (am : CAddrMan) (s : bytes) : loading (Z * bytes) :=
  match todo with
  | O => (am, Ok (nLost, s))
  | S todo =>
      let (info, r) := read_info CAddrInfo_default s in
      match r with
      | Err e => (am, Err (stream_error e))
      | Ok s =>
          let nKBucket := GetTriedBucket (am_nKey am) info in
          let nKBucketPos := GetBucketPosition (am_nKey am) false nKBucket info in
          if slot (vvTried am) nKBucket nKBucketPos =? -1 then
            let id := nIdCount am in
            let am := {| nIdCount := s32 (id + 1);
                         mapInfo := <[id := set_place (ai_nRefCount info) true (s32 (zlen (vRandom am))) info]> (mapInfo am);
                         mapAddr := <[ai_ip info := id]> (mapAddr am); vRandom := vRandom am ++ [id]; nTried := nTried am;
                         vvTried := set_slot (vvTried am) nKBucket nKBucketPos id; nNew := nNew am; vvNew := vvNew am;
                         nLastGood := nLastGood am; am_nKey := am_nKey am |} in
            load_tried todo nLost am s
          else load_tried todo (nLost + 1) am s
      end
  end.

(** One index of a bucket. *)
Definition load_index (usable : bool) (bucket nIndex : Z) (am : CAddrMan) : CAddrMan :=
  if (0 <=? nIndex) && (nIndex <? nNew am) then
    let am := upd nIndex id am in
    let info := info_at am nIndex in
    let nUBucketPos := GetBucketPosition (am_nKey am) true bucket info in
    if usable && (slot (vvNew am) bucket nUBucketPos =? -1) && (ai_nRefCount info <? ADDRMAN_NEW_BUCKETS_PER_ADDRESS)
    then with_new (set_slot (vvNew am) bucket nUBucketPos nIndex) (upd nIndex (fun i => set_refs (ai_nRefCount i + 1) i) am)
    else am
  else am.

Fixpoint load_indices (todo : nat) (usable : bool) (bucket : Z) (am : CAddrMan) (s : bytes) : loading bytes :=
  match todo with
  | O => (am, Ok s)
  | S todo =>
      then_ (get ser_readdata32 am s) (fun am x =>
        load_indices todo usable bucket (load_index usable bucket (s32 x.1) am) x.2)
  end.

Fixpoint load_buckets (todo : nat) (bucket : Z) (usable : bool) (am : CAddrMan) (s : bytes) : loading bytes :=
  match todo with
  | O => (am, Ok s)
  | S todo =>
      then_ (get ser_readdata32 am s) (fun am x =>
        then_ (load_indices (Z.to_nat (s32 x.1)) usable bucket am x.2) (fun am s =>
          load_buckets todo (bucket + 1) usable am s))
  end.

(** New entries that no slot refers to are deleted. *)
Fixpoint prune (l : list Z) (am : CAddrMan) : option CAddrMan :=
  match l with
  | [] => Some am
  | n :: l =>
      let info := info_at am n in
      if negb (ai_fInTried info) && (ai_nRefCount info =? 0) then am ← Delete am n; prune l am else prune l am
  end.

Definition Unserialize_CAddrMan (randKey : bytes) (am : CAddrMan) (s : bytes) : loading bytes :=
  let am := Clear randKey am in
  then_ (get ser_readdata8 am s) (fun am v =>
  then_ (get ser_readdata8 am v.2) (fun am k =>
  if negb (k.1 =? 32) then (am, Err incorrect_keysize)
  else
  then_ (get (read 32) am k.2) (fun am key =>
  then_ (get ser_readdata32 (with_key key.1 am) key.2) (fun am new =>
  then_ (get ser_readdata32 (with_counts (s32 new.1) (nTried am) am) new.2) (fun am tried =>
  then_ (get ser_readdata32 (with_counts (nNew am) (s32 tried.1) am) tried.2) (fun am ub =>
  let nVersion := v.1 in
  let nUBuckets := if negb (nVersion =? 0) then Z.lxor (s32 ub.1) (2 ^ 30) else s32 ub.1 in
  let usable := (nVersion =? 1) && (nUBuckets =? ADDRMAN_NEW_BUCKET_COUNT) in
  then_ (load_new (Z.to_nat (nNew am)) 0 (negb usable) am ub.2) (fun am s =>
  then_ (load_tried (Z.to_nat (nTried am)) 0 (with_ids (nNew am) am) s) (fun am x =>
  then_ (load_buckets (Z.to_nat nUBuckets) 0 usable (with_counts (nNew am) (nTried am - x.1) am) x.2) (fun am s =>
  match prune (ids am) am with Some am => (am, Ok s) | None => (am, Err failed_assert) end))))))))).

(** ** The database *)

Definition CAddrDB_Write (MessageStart : bytes) (am : CAddrMan) : option bytes :=
  s ← Serialize_CAddrMan am; let data := MessageStart ++ s in Some (data ++ Hash data).

(** What becomes of a call of [Read]: [threw] is an exception that no handler of [Read]
    catches. *)
Inductive read_result := read_ok | read_failed | threw | aborted.

(** [CAddrDB::Read(addr, ssPeers)]; the second key is drawn by the [Clear] of the handler. *)
Definition CAddrDB_Read_stream (MessageStart randKey randKey2 : bytes) (am : CAddrMan) (ssPeers : bytes) : CAddrMan * read_result :=
  match read 4 ssPeers with
  | Err _ => (Clear randKey2 am, read_failed)
  | Ok (pchMsgTmp, s) =>
      if negb (bool_decide (pchMsgTmp = MessageStart)) then (am, read_failed)
      else match Unserialize_CAddrMan randKey am s with
           | (am, Ok _) => (am, read_ok)
           | (am, Err failed_assert) => (am, aborted)
           | (am, Err _) => (Clear randKey2 am, read_failed)
           end
  end.

(** [CAddrDB::Read(addr)] on the contents of the file. A vector cannot be resized to more
    than 2^63 - 1 elements: [std::length_error], outside of the [try] block. *)
Definition CAddrDB_Read (MessageStart randKey randKey2 : bytes) (am : CAddrMan) (file : bytes) : CAddrMan * read_result :=
  let fileSize := zlen file in
  let dataSize := u64 (fileSize - 32) in
  let dataSize := if 32 <=? fileSize then fileSize - 32 else dataSize in
  if 2 ^ 63 - 1 <? dataSize then (am, threw)
  else
    let vchData := take (Z.to_nat dataSize) file in
    let hashIn := take 32 (drop (Z.to_nat dataSize) file) in
    if negb (bool_decide (hashIn = Hash vchData)) then (am, read_failed)
    else CAddrDB_Read_stream MessageStart randKey randKey2 am vchData.

(** The part of [StartNode] that loads the addresses, on a file that can be opened; after a
    failed read [DumpAddresses] writes the cleared manager. *)
Definition load_peers (MessageStart randKey randKey2 randKey3 : bytes) (am : CAddrMan) (file : bytes) : CAddrMan * read_result :=
  match CAddrDB_Read MessageStart randKey randKey2 am file with
  | (am, read_failed) =>
      let am := Clear randKey3 am in
      match CAddrDB_Write MessageStart am with Some _ => (am, read_failed) | None => (am, aborted) end
  | x => x
  end.
