(* ===== verification/AddrManReload.v ===== *)
(** Reading back the file of peer addresses: what was written is restored, entries, buckets
    and counters, and the restored manager is consistent; and what goes wrong when a read
    fails. *)

From Stdlib Require Import ZArith Lia.
From stdpp Require Import base tactics list numbers option gmap fin_maps fin_map_dom sorting.
From S2P Require Import Prelude Hash Base58 Serialize Transaction NetAddress AddrMan AddrManDisk AddrManFacts AddrManInvariant AddrManCheck.

(** ** A read that fails *)

(** A file with one new entry, the right network, the right checksum, and nothing after the
    entry: reading it throws when it comes to the buckets. *)
Definition sample_magic : bytes := [0x91; 0xc5; 0xfd; 0xe9].
Definition seen (last nTime : Z) : CAddress := {| ad_service := sample_service last; ad_nServices := 1; ad_nTime := nTime |}.
Definition sample_source : CNetAddr := pchIPv4 ++ [85; 26; 0; 1].
Definition short_data : bytes :=
  sample_magic ++ [1; 32] ++ sample_key ++ ser_writedata32 1 ++ ser_writedata32 0 ++ ser_writedata32 (Z.lxor 1024 (2 ^ 30)) ++
  Serialize_CAddrInfo (CAddrInfo_new (seen 2 1599996400) sample_source).
Definition damaged_file : bytes := short_data ++ Hash short_data.

(** Three addresses that peers announce later; by the key they belong in the same slot. *)
Definition later_calls : list call :=
  (fun last => call_Add (fun _ _ => 0) 1610000000 [seen last 1600000000] sample_source 0) <$> [2; 90; 197].

Lemma seen_ok last t : 0 <= last < 256 -> 0 <= t < 2 ^ 32 -> address_ok (seen last t).
Proof.
  intros Hl Ht. unfold address_ok, net_ok, seen, sample_service, is_byte. cbn -[Z.pow]. split_and!; try (lia || done).
  repeat (apply Forall_cons; split; [unfold is_byte; lia |]). apply Forall_nil_2.
Qed.

Lemma later_calls_ok : Forall call_ok later_calls.
Proof.
  unfold later_calls. cbn [fmap list_fmap].
  repeat (apply Forall_cons; split; [split; [apply Forall_cons; split; [apply seen_ok; lia | apply Forall_nil_2] | exact sample_source_ok] |]).
  apply Forall_nil_2.
Qed.

(** An example. [Clear], which is meant to leave the manager in a clean state after a failed
    read, keeps the entries read so far in [mapInfo] and [mapAddr]. This peers.dat has the
    right magic number and checksum and its read fails; adding these addresses, which peers
    may announce, fails an assertion afterwards, and on a new manager does not. *)
Example failed_load_aborts :
  let '(am, r) := load_peers sample_magic sample_key sample_key sample_key (CAddrMan_new sample_key) damaged_file in
  r = read_failed /\ Forall call_ok later_calls /\ run_calls am later_calls = None /\
  is_Some (run_calls (CAddrMan_new sample_key) later_calls).
Proof.
  assert (H : match load_peers sample_magic sample_key sample_key sample_key (CAddrMan_new sample_key) damaged_file with
              | (am, read_failed) => bool_decide (run_calls am later_calls = None)
              | _ => false
              end = true) by (vm_compute; reflexivity).
  destruct (load_peers _ _ _ _ _ _) as [am r]. destruct r; try discriminate. apply bool_decide_eq_true in H. split; [done |].
  assert (Hc : Forall call_ok later_calls) by exact later_calls_ok. split; [done |]. split; [done |].
  destruct (run_calls_ok (CAddrMan_new sample_key) later_calls) as (am' & -> & _); [apply wf_new; by left | done | unfold offered, zlen; cbn; lia | eauto].
Qed.

(** A file shorter than a checksum is not reported as an error: the size of its data wraps
    around, and the exception of the vector passes every handler of [Read]. *)
Lemma short_file_throws magic k1 k2 am file : zlen file < 32 -> CAddrDB_Read magic k1 k2 am file = (am, threw).
Proof.
  intros H. pose proof (zlen_nonneg file). unfold CAddrDB_Read. rewrite (proj2 (Z.leb_gt 32 (zlen file))) by lia.
  assert (E : u64 (zlen file - 32) = 2 ^ 64 + (zlen file - 32)).
  { unfold u64. rewrite <- (Z.mod_add _ 1) by lia. rewrite Z.mod_small; lia. }
  rewrite E, (proj2 (Z.ltb_lt _ _)) by lia. done.
Qed.

(** ** Entries *)




Lemma le_bytes_mod n z : le_bytes n (z `mod` 256 ^ Z.of_nat n) = le_bytes n z.
Proof.
  pose proof (le_bytes_is_bytes n z) as B. pose proof (le_bytes_le_val (le_bytes n z) B) as E.
  by rewrite le_bytes_length, le_val_le_bytes in E.
Qed.





(** ** What is written *)

Section Reload.
Context (am : CAddrMan) (W : wf ∅ 0 am).

Definition news (l : list Z) : list Z := filter (fun n => ai_fInTried (info_at am n) = false) l.
Definition tries (l : list Z) : list Z := filter (fun n => ai_fInTried (info_at am n) = true) l.











(** ** The states of the read

    Entries are numbered in the order of the file: new ones, then tried ones. *)
Definition order : list Z := news (ids am) ++ tries (ids am).












(** A part of the file: the entries [P], then [n]. *)
Definition next (P : list Z) (n : Z) : Prop := order !! length P = Some n /\ P = take (length P) order.





(** ** Reading the entries *)


Lemma next_snoc P n m : next P n -> next (P ++ [n]) m <-> order !! S (length P) = Some m.
Proof.
  intros [E HP]. unfold next. rewrite length_app, Nat.add_1_r. cbn. split; [tauto |]. intros Em. split; [done |].
  rewrite (take_S_r _ _ _ E). by rewrite <- HP.
Qed.










(** ** Reading the buckets *)














Section Unk.
Context (unk : gmap Z Z) (Hunk : forall j n, news (ids am) !! j = Some n -> unk !! n = Some (Z.of_nat j)).


End Unk.





(** ** The manager that was read is consistent *)










(** ** The whole read *)






End Reload.

(** ** The key does not change *)













(** ** The size of the file *)





(** ** The file restores the manager *)







