(* ===== verification/Sporks.v ===== *)
(** Sporks ([spork.h], [spork.cpp], [sporkid.h], [sporkdb.cpp]) and the signed messages they
    are ([messagesigner.h], [messagesigner.cpp], parts of [key.cpp], [pubkey.cpp] and
    [base58.cpp]): settings of the whole network that the holder of the spork key can change,
    among them the result of a draw and the reach of the search for bets.

    The curve is a parameter, the class [curve]; so is [HashQuark], which names a spork on
    the network. The clock, the height of the chain and the mode of the node are the record
    [moment], an argument of each operation. The database of sporks maps an id to the bytes
    stored under it. *)

From Stdlib Require Import ZArith Lia.
From stdpp Require Import base tactics list numbers option strings gmap fin_maps fin_map_dom sorting.
From S2P Require Import Prelude CString StrEncodings Hash ChainParams Base58 Standard Serialize.

(** ** The curve *)

(** What the code uses of [secp256k1]: [seckey_verify]; the serialized public key of a
    secret; a recoverable signature as its 64 bytes and its recovery id; the public key that
    a signature recovers to, serialized. *)
Class curve := {
  seckey_verify : bytes -> bool;
  pubkey_create : bytes -> bool -> bytes;
  sign_recoverable : bytes -> bytes -> bytes * Z;
  ecdsa_recover : bytes -> bytes -> Z -> bool -> option bytes;
}.

(** What the library documents: a public key has the form and the length that the flag asks
    for, a signature is 64 bytes with a recovery id below four, and it recovers to the
    public key of the secret that made it. *)
Class curve_laws {CU : curve} := {
  pubkey_form : forall k c, seckey_verify k = true -> CPubKey (pubkey_create k c) = pubkey_create k c;
  signature_form : forall k h, seckey_verify k = true -> length (sign_recoverable k h).1 = 64%nat /\ 0 <= (sign_recoverable k h).2 < 4;
  recover_sign : forall k h c, seckey_verify k = true ->
    ecdsa_recover h (sign_recoverable k h).1 (sign_recoverable k h).2 c = Some (pubkey_create k c);
}.

(** ** Keys *)

Section Keys.
Context {CU : curve}.

Record CKey := { keydata : bytes; fValid : bool; fCompressed : bool }.

Definition CKey_Set (p : bytes) (fCompressedIn : bool) : CKey :=
  if negb (zlen p =? 32) then {| keydata := replicate 32 0; fValid := false; fCompressed := false |}
  else if seckey_verify p then {| keydata := p; fValid := true; fCompressed := fCompressedIn |}
  else {| keydata := replicate 32 0; fValid := false; fCompressed := false |}.

(** [None] is a failed assertion. *)
Definition GetPubKey (key : CKey) : option bytes :=
  if negb (fValid key) then None
  else
    let result := pubkey_create (keydata key) (fCompressed key) in
    if (PubKey_size result =? zlen result) && PubKey_IsValid result then Some result else None.

Definition COMPACT_SIGNATURE_SIZE : Z := 65.

Definition SignCompact (key : CKey) (hash : bytes) : bool * bytes :=
  if negb (fValid key) then (false, [])
  else
    let (sig, rec) := sign_recoverable (keydata key) hash in
    (true, u8 (27 + rec + (if fCompressed key then 4 else 0)) :: sig).

Definition RecoverCompact (hash vchSig : bytes) : option bytes :=
  if negb (zlen vchSig =? COMPACT_SIGNATURE_SIZE) then None
  else
    let recid := Z.land (idx vchSig 0 - 27) 3 in
    let fComp := negb (Z.land (idx vchSig 0 - 27) 4 =? 0) in
    CPubKey <$> ecdsa_recover hash (drop 1 vchSig) recid fComp.

(** [CBitcoinSecret]: [IsValid], [SetString] and [GetKey]. *)
Definition Secret_IsValid (params : CChainParams) (a : CBase58Data) : bool :=
  ((zlen (vchData a) =? 32) || ((zlen (vchData a) =? 33) && (idx (vchData a) 32 =? 1))) &&
  bool_decide (vchVersion a = Base58Prefix params SECRET_KEY).

Definition Secret_GetKey (a : CBase58Data) : option CKey :=
  if zlen (vchData a) <? 32 then None
  else Some (CKey_Set (take 32 (vchData a)) ((32 <? zlen (vchData a)) && (idx (vchData a) 32 =? 1))).

(** [GetKeysFromSecret]: an assertion that failed, a secret that is none, or the keys. *)
Definition GetKeysFromSecret (params : CChainParams) (strSecret : bytes) : option (option (CKey * bytes)) :=
  let (ok, vchSecret) := SetString (c_str strSecret) 1 in
  if negb (ok && Secret_IsValid params vchSecret) then Some None
  else keyRet ← Secret_GetKey vchSecret; pubkeyRet ← GetPubKey keyRet; Some (Some (keyRet, pubkeyRet)).

(** ** Signatures of messages *)

Definition strMessageMagic : bytes := str "DarkNet Signed Message:" ++ [10].

Definition GetMessageHash (strMessage : bytes) : bytes :=
  Hash (Serialize_bytes strMessageMagic ++ Serialize_bytes strMessage).

Definition VerifyHash (hash pubkey vchSig : bytes) : bool :=
  match RecoverCompact hash vchSig with
  | None => false
  | Some pubkeyFromSig => bool_decide (PubKey_GetID pubkeyFromSig = PubKey_GetID pubkey)
  end.

Definition VerifyMessage (pubkey vchSig strMessage : bytes) : bool := VerifyHash (GetMessageHash strMessage) pubkey vchSig.

End Keys.

(** ** Spork messages *)

Definition MESS_VER_STRMESS : Z := 0.
Definition MESS_VER_HASH : Z := 1.

Record CSporkMessage := { nSporkID : Z; nValue : Z; nTimeSigned : Z; vchSig : bytes; nMessVersion : Z }.

#[global] Instance CSporkMessage_eq_dec : EqDecision CSporkMessage.
Proof. solve_decision. Defined.

Definition CSporkMessage_new (id value time : Z) : CSporkMessage :=
  {| nSporkID := id; nValue := value; nTimeSigned := time; vchSig := []; nMessVersion := MESS_VER_HASH |}.
Definition CSporkMessage_default : CSporkMessage := CSporkMessage_new 0 0 0.

Definition Serialize_spork (m : CSporkMessage) : bytes :=
  ser_writedata32 (nSporkID m) ++ ser_writedata64 (nValue m) ++ ser_writedata64 (nTimeSigned m) ++
  Serialize_bytes (vchSig m) ++ ser_writedata32 (nMessVersion m).

(** A message without the version is an old one. *)
Definition Unserialize_spork : reader CSporkMessage := fun s =>
  let* (id, s) := ser_readdata32 s in
  let* (value, s) := ser_readdata64 s in
  let* (time, s) := ser_readdata64 s in
  let* (sig, s) := Unserialize_bytes s in
  let m v := {| nSporkID := s32 id; nValue := s64 value; nTimeSigned := s64 time; vchSig := sig; nMessVersion := v |} in
  match ser_readdata32 s with
  | Ok (v, s) => Ok (m (s32 v), s)
  | Err _ => Ok (m MESS_VER_STRMESS, s)
  end.

(** The bytes that [GetSignatureHash] hashes. *)
Definition signature_preimage (m : CSporkMessage) : bytes :=
  ser_writedata32 (nMessVersion m) ++ ser_writedata32 (nSporkID m) ++ ser_writedata64 (nValue m) ++ ser_writedata64 (nTimeSigned m).
Definition GetSignatureHash (m : CSporkMessage) : bytes := Hash (signature_preimage m).

Definition GetStrMessage (m : CSporkMessage) : bytes :=
  to_string (nSporkID m) ++ to_string (nValue m) ++ to_string (nTimeSigned m).

(** The bytes between [BEGIN(nSporkID)] and [END(nTimeSigned)]: the three members follow
    each other without padding. *)
Definition GetHash_spork (HashQuark : bytes -> bytes) (m : CSporkMessage) : bytes :=
  HashQuark (ser_writedata32 (nSporkID m) ++ ser_writedata64 (nValue m) ++ ser_writedata64 (nTimeSigned m)).

Definition GetPublicKey (p : ConsensusParams) : bytes := CPubKey (ParseHex (strSporkPubKey p)).
Definition GetPublicKeyOld (p : ConsensusParams) : bytes := CPubKey (ParseHex (strSporkPubKeyOld p)).

Definition with_sig (m : CSporkMessage) (version : Z) (sig : bytes) : CSporkMessage :=
  {| nSporkID := nSporkID m; nValue := nValue m; nTimeSigned := nTimeSigned m; vchSig := sig; nMessVersion := version |}.

Section Messages.
Context {CU : curve} (params : CChainParams).

(** [Sign(key, pubKey, fNewSigs)]: the result and the message, which keeps its version and
    signature even when the check of the signature fails. *)
Definition Sign_key (m : CSporkMessage) (key : CKey) (pubKey : bytes) (fNewSigs : bool) : bool * CSporkMessage :=
  if fNewSigs then
    let m := with_sig m MESS_VER_HASH (vchSig m) in
    let hash := GetSignatureHash m in
    let (ok, sig) := SignCompact key hash in
    if negb ok then (false, m)
    else let m := with_sig m MESS_VER_HASH sig in (VerifyHash hash pubKey sig, m)
  else
    let m := with_sig m MESS_VER_STRMESS (vchSig m) in
    let strMessage := GetStrMessage m in
    let (ok, sig) := SignCompact key (GetMessageHash strMessage) in
    if negb ok then (false, m)
    else let m := with_sig m MESS_VER_STRMESS sig in (VerifyMessage pubKey sig strMessage, m).

Definition Sign (m : CSporkMessage) (strSignKey : bytes) (fNewSigs : bool) : option (bool * CSporkMessage) :=
  keys ← GetKeysFromSecret params strSignKey;
  match keys with
  | None => Some (false, m)
  | Some (key, pubkey) => Some (Sign_key m key pubkey fNewSigs)
  end.

Definition CheckSignature_key (m : CSporkMessage) (pubKey : bytes) : bool :=
  if nMessVersion m =? MESS_VER_HASH then VerifyHash (GetSignatureHash m) pubKey (vchSig m)
  else VerifyMessage pubKey (vchSig m) (GetStrMessage m).

Definition CheckSignature (m : CSporkMessage) : bool :=
  let pubkey := GetPublicKey (consensus params) in
  if idx pubkey 0 =? 255 then false else CheckSignature_key m pubkey.

(** The test of [ProcessSpork] and [SetPrivKey]: the spork key, or the old one while it may
    still be used; [timeSigned] decides whether the new key is required. *)
Definition valid_signature (adjusted timeSigned : Z) (m : CSporkMessage) : bool :=
  let fRequireNew := nTime_EnforceNewSporkKey (consensus params) <=? timeSigned in
  let fValidSig := CheckSignature m in
  if negb fValidSig && negb fRequireNew then
    if adjusted <? nTime_RejectOldSporkKey (consensus params) then CheckSignature_key m (GetPublicKeyOld (consensus params))
    else fValidSig
  else fValidSig.

End Messages.

(** ** The definitions of sporks *)

Definition SPORK_2_SWIFTTX : Z := 10001.
Definition SPORK_3_SWIFTTX_BLOCK_FILTERING : Z := 10002.
Definition SPORK_5_MAX_VALUE : Z := 10004.
Definition SPORK_8_MASTERNODE_PAYMENT_ENFORCEMENT : Z := 10007.
Definition SPORK_9_MASTERNODE_BUDGET_ENFORCEMENT : Z := 10008.
Definition SPORK_13_ENABLE_SUPERBLOCKS : Z := 10012.
Definition SPORK_14_NEW_PROTOCOL_ENFORCEMENT : Z := 10013.
Definition SPORK_15_NEW_PROTOCOL_ENFORCEMENT_2 : Z := 10014.
Definition SPORK_16_ZEROCOIN_MAINTENANCE_MODE : Z := 10015.
Definition SPORK_17_COLDSTAKING_ENFORCEMENT : Z := 10017.
Definition SPORK_18_ZEROCOIN_PUBLICSPEND_V4 : Z := 10018.
Definition SPORK_19_DRAW_RESULT : Z := 10019.
Definition SPORK_20_TRAVERSE_SZ : Z := 10020.
Definition SPORK_INVALID : Z := -1.

Record CSporkDef := { sporkId : Z; defaultValue : Z; sporkName : string }.

Definition sporkDefs : list CSporkDef := [
  {| sporkId := SPORK_2_SWIFTTX; defaultValue := 0; sporkName := "SPORK_2_SWIFTTX" |};
  {| sporkId := SPORK_3_SWIFTTX_BLOCK_FILTERING; defaultValue := 0; sporkName := "SPORK_3_SWIFTTX_BLOCK_FILTERING" |};
  {| sporkId := SPORK_5_MAX_VALUE; defaultValue := 1000; sporkName := "SPORK_5_MAX_VALUE" |};
  {| sporkId := SPORK_8_MASTERNODE_PAYMENT_ENFORCEMENT; defaultValue := 4070908800; sporkName := "SPORK_8_MASTERNODE_PAYMENT_ENFORCEMENT" |};
  {| sporkId := SPORK_9_MASTERNODE_BUDGET_ENFORCEMENT; defaultValue := 4070908800; sporkName := "SPORK_9_MASTERNODE_BUDGET_ENFORCEMENT" |};
  {| sporkId := SPORK_13_ENABLE_SUPERBLOCKS; defaultValue := 4070908800; sporkName := "SPORK_13_ENABLE_SUPERBLOCKS" |};
  {| sporkId := SPORK_14_NEW_PROTOCOL_ENFORCEMENT; defaultValue := 4070908800; sporkName := "SPORK_14_NEW_PROTOCOL_ENFORCEMENT" |};
  {| sporkId := SPORK_15_NEW_PROTOCOL_ENFORCEMENT_2; defaultValue := 4070908800; sporkName := "SPORK_15_NEW_PROTOCOL_ENFORCEMENT_2" |};
  {| sporkId := SPORK_16_ZEROCOIN_MAINTENANCE_MODE; defaultValue := 1584552673; sporkName := "SPORK_16_ZEROCOIN_MAINTENANCE_MODE" |};
  {| sporkId := SPORK_17_COLDSTAKING_ENFORCEMENT; defaultValue := 4070908800; sporkName := "SPORK_17_COLDSTAKING_ENFORCEMENT" |};
  {| sporkId := SPORK_18_ZEROCOIN_PUBLICSPEND_V4; defaultValue := 4070908800; sporkName := "SPORK_18_ZEROCOIN_PUBLICSPEND_V4" |};
  {| sporkId := SPORK_19_DRAW_RESULT; defaultValue := 201901010102030405; sporkName := "SPORK_19_DRAW_RESULT" |};
  {| sporkId := SPORK_20_TRAVERSE_SZ; defaultValue := 0; sporkName := "SPORK_20_TRAVERSE_SZ" |} ].

(** [sporkDefsById.find] and [sporkDefsByName.find]; [emplace] keeps the first of a key. *)
Definition def_by_id (id : Z) : option CSporkDef := snd <$> list_find (fun d => sporkId d = id) sporkDefs.
Definition def_by_name (name : string) : option CSporkDef := snd <$> list_find (fun d => sporkName d = name) sporkDefs.

Definition GetSporkNameByID (id : Z) : string :=
  match def_by_id id with Some d => sporkName d | None => "Unknown" end.
Definition GetSporkIDByName (name : string) : Z :=
  match def_by_name name with Some d => sporkId d | None => SPORK_INVALID end.

(** ** The manager *)

(** [CSporkManager] with the global [mapSporks] and the database. *)
Record CSporkManager := {
  strMasterPrivKey : bytes;
  mapSporksActive : gmap Z CSporkMessage;
  mapSporks : gmap bytes CSporkMessage;
  sporkDB : gmap Z bytes
}.

(** A node just started on a database. *)
Definition CSporkManager_new (db : gmap Z bytes) : CSporkManager :=
  {| strMasterPrivKey := []; mapSporksActive := ∅; mapSporks := ∅; sporkDB := db |}.

Definition Clear (sm : CSporkManager) : CSporkManager :=
  {| strMasterPrivKey := []; mapSporksActive := ∅; mapSporks := mapSporks sm; sporkDB := sporkDB sm |}.

(** When an operation runs: [GetTime], [GetAdjustedTime], the height of the tip if there is
    one, and whether the node is in lite mode. *)
Record moment := { now : Z; adjusted : Z; tip_height : option Z; fLiteMode : bool }.

Inductive command := SPORK | GETSPORKS.

(** What a call sends or reports: a penalty for the peer, an announcement to all peers, a
    message to the peer, or an exception that leaves the handler. *)
Inductive effect :=
| misbehaving (score : Z) | relay_inv (hash : bytes) | push_spork (m : CSporkMessage) | threw (e : ser_error).

Section Manager.
Context {CU : curve} (HashQuark : bytes -> bytes) (params : CChainParams).

(** [mapSporks[hash] = spork; mapSporksActive[id] = spork;] *)
Definition activate (id : Z) (m : CSporkMessage) (sm : CSporkManager) : CSporkManager :=
  {| strMasterPrivKey := strMasterPrivKey sm; mapSporksActive := <[id := m]> (mapSporksActive sm);
     mapSporks := <[GetHash_spork HashQuark m := m]> (mapSporks sm); sporkDB := sporkDB sm |}.

Definition WriteSpork (id : Z) (m : CSporkMessage) (sm : CSporkManager) : CSporkManager :=
  {| strMasterPrivKey := strMasterPrivKey sm; mapSporksActive := mapSporksActive sm; mapSporks := mapSporks sm;
     sporkDB := <[id := Serialize_spork m]> (sporkDB sm) |}.

(** A value that cannot be read is reported as missing. *)
Definition ReadSpork (id : Z) (sm : CSporkManager) : option CSporkMessage :=
  v ← sporkDB sm !! id; match Unserialize_spork v with Ok (m, _) => Some m | Err _ => None end.

Definition load_def (sm : CSporkManager) (d : CSporkDef) : CSporkManager :=
  match ReadSpork (sporkId d) sm with
  | None => sm
  | Some spork => activate (nSporkID spork) spork sm
  end.
Definition LoadSporksFromDB (sm : CSporkManager) : CSporkManager := fold_left load_def sporkDefs sm.

(** The part of [ProcessSpork] for a message that was read. *)
Definition process_message (at_ : moment) (nChainHeight : Z) (spork : CSporkMessage) (sm : CSporkManager) : CSporkManager * list effect :=
  if String.eqb (GetSporkNameByID (nSporkID spork)) "Unknown" then (sm, [])
  else if adjusted at_ + 2 * 60 * 60 <? nTimeSigned spork then (sm, [misbehaving 100])
  else if negb (nMessVersion spork =? MESS_VER_HASH) && IsMessSigV2 (consensus params) (nChainHeight - 600) then (sm, [])
  else if match mapSporksActive sm !! nSporkID spork with
          | Some active => nTimeSigned spork <=? nTimeSigned active
          | None => false
          end then (sm, [])
  else if negb (valid_signature params (adjusted at_) (nTimeSigned spork) spork) then (sm, [misbehaving 100])
  else (WriteSpork (nSporkID spork) spork (activate (nSporkID spork) spork sm), [relay_inv (GetHash_spork HashQuark spork)]).

(** The active sporks in the order of their ids. *)
Definition actives (sm : CSporkManager) : list CSporkMessage :=
  omap (fun id => mapSporksActive sm !! id) (merge_sort Z.le (elements (dom (mapSporksActive sm)))).

Definition ProcessSpork (at_ : moment) (strCommand : command) (vRecv : bytes) (sm : CSporkManager) : CSporkManager * list effect :=
  if fLiteMode at_ then (sm, [])
  else match tip_height at_ with
       | None => (sm, [])
       | Some nChainHeight =>
           match strCommand with
           | SPORK => match Unserialize_spork vRecv with
                      | Err e => (sm, [threw e])
                      | Ok (spork, _) => process_message at_ nChainHeight spork sm
                      end
           | GETSPORKS => (sm, push_spork <$> actives sm)
           end
       end.

(** [None] is a failed assertion on the key. Without a tip the height is -1. *)
Definition UpdateSpork (at_ : moment) (id value : Z) (sm : CSporkManager) : option (bool * CSporkManager * list effect) :=
  let fNewSigs := IsMessSigV2 (consensus params) (default (-1) (tip_height at_)) in
  r ← Sign params (CSporkMessage_new id value (now at_)) (strMasterPrivKey sm) fNewSigs;
  let '(ok, spork) := r in
  Some (if ok : bool then (true, activate id spork sm, [relay_inv (GetHash_spork HashQuark spork)]) else (false, sm, [])).

Definition GetSporkValue (id : Z) (sm : CSporkManager) : Z :=
  match mapSporksActive sm !! id with
  | Some m => nValue m
  | None => match def_by_id id with Some d => defaultValue d | None => -1 end
  end.

Definition IsSporkActive (at_ : moment) (id : Z) (sm : CSporkManager) : bool := GetSporkValue id sm <? adjusted at_.

Definition SetPrivKey (at_ : moment) (strPrivKey : bytes) (sm : CSporkManager) : option (bool * CSporkManager) :=
  r ← Sign params CSporkMessage_default strPrivKey true;
  if valid_signature params (adjusted at_) (now at_) r.2
  then Some (true, {| strMasterPrivKey := strPrivKey; mapSporksActive := mapSporksActive sm; mapSporks := mapSporks sm; sporkDB := sporkDB sm |})
  else Some (false, sm).

(** [AlreadyHave] and [ProcessGetData] of [main.cpp], for the type [MSG_SPORK]. *)
Definition AlreadyHave_spork (hash : bytes) (sm : CSporkManager) : bool := bool_decide (is_Some (mapSporks sm !! hash)).
Definition ProcessGetData_spork (hash : bytes) (sm : CSporkManager) : list effect :=
  match mapSporks sm !! hash with Some m => [push_spork m] | None => [] end.

(** ** Histories *)

(** What happens to a node that does not sign sporks: messages of peers, and restarts. *)
Inductive event :=
| ev_message (at_ : moment) (strCommand : command) (vRecv : bytes)
| ev_restart.

Definition step (sm : CSporkManager) (e : event) : CSporkManager :=
  match e with
  | ev_message at_ strCommand vRecv => (ProcessSpork at_ strCommand vRecv sm).1
  | ev_restart => LoadSporksFromDB (CSporkManager_new (sporkDB sm))
  end.

Definition run (l : list event) : CSporkManager := fold_left step l (LoadSporksFromDB (CSporkManager_new ∅)).

End Manager.
