(* ===== verification/SporkFacts.v ===== *)
(** Theorems about sporks: nodes that were sent the same sporks agree on them, whatever the
    order and through restarts; what the holder of the key sets is accepted; and what a
    signature of a spork binds. *)

From Stdlib Require Import ZArith Lia.
From stdpp Require Import base tactics list numbers option strings gmap fin_maps fin_map_dom.
From S2P Require Import Prelude CString StrEncodings Hash ChainParams Base58 Standard Serialize Transaction Sporks.

(** ** Messages as bytes *)

Definition spork_ok (m : CSporkMessage) : Prop :=
  in_s 32 (nSporkID m) /\ in_s 64 (nValue m) /\ in_s 64 (nTimeSigned m) /\ zlen (vchSig m) <= MAX_SIZE /\ in_s 32 (nMessVersion m).

Lemma spork_roundtrip m rest : spork_ok m -> Unserialize_spork (Serialize_spork m ++ rest) = Ok (m, rest).
Proof.
  intros (H1 & H2 & H3 & H4 & H5). unfold Unserialize_spork, Serialize_spork, ser_readdata32, ser_readdata64, ser_writedata32, ser_writedata64.
  rewrite <- !app_assoc, read_le_signed. cbn [res_bind]. rewrite read_le_signed. cbn [res_bind]. rewrite read_le_signed. cbn [res_bind].
  rewrite Unserialize_bytes_app by done. cbn [res_bind]. rewrite read_le_signed.
  rewrite !s32_of_mod, !s64_of_mod by done. by destruct m.
Qed.

Lemma s32_in z : in_s 32 (s32 z).
Proof. unfold in_s, s32. pose proof (Z.mod_pos_bound (z + 2 ^ 31) (2 ^ 32) ltac:(lia)). lia. Qed.
Lemma s64_in z : in_s 64 (s64 z).
Proof. unfold in_s, s64. pose proof (Z.mod_pos_bound (z + 2 ^ 63) (2 ^ 64) ltac:(lia)). lia. Qed.

Lemma read_blocks_size fuel nSize i s v r : read_blocks fuel nSize i s = Ok (v, r) -> zlen v <= Z.max 0 (nSize - i).
Proof.
  revert i s v r. induction fuel as [| fuel IH]; intros i s v r; cbn [read_blocks]; [intros [= <- <-]; zl; lia |].
  destruct (i <? nSize) eqn:E; bprop; [| intros [= <- <-]; zl; lia].
  unfold read. case_match; [done |]. cbn [res_bind]. destruct (read_blocks fuel _ _ _) as [[w r'] |] eqn:E2; [| done]. cbn [res_bind]. intros [= <- <-].
  apply IH in E2. rewrite zlen_app. unfold zlen at 1. rewrite length_take. lia.
Qed.

Lemma Unserialize_bytes_size s v r : Unserialize_bytes s = Ok (v, r) -> zlen v <= MAX_SIZE.
Proof.
  unfold Unserialize_bytes. destruct (ReadCompactSize s) as [[n s'] |] eqn:E; [| done]. cbn [res_bind]. intros H. apply read_blocks_size in H.
  assert (n <= MAX_SIZE); [| unfold MAX_SIZE in *; lia]. revert E. unfold ReadCompactSize.
  repeat match goal with |- context [res_bind ?x _] => destruct x as [[? ?] |]; [cbn [res_bind] | done] end.
  destruct (MAX_SIZE <? _) eqn:E; [done |]. bprop. intros [= <- <-]. lia.
Qed.

Lemma Unserialize_spork_ok s m r : Unserialize_spork s = Ok (m, r) -> spork_ok m.
Proof.
  unfold Unserialize_spork.
  destruct (ser_readdata32 s) as [[id s1] |]; [| done]. cbn [res_bind].
  destruct (ser_readdata64 s1) as [[value s2] |]; [| done]. cbn [res_bind].
  destruct (ser_readdata64 s2) as [[time s3] |]; [| done]. cbn [res_bind].
  destruct (Unserialize_bytes s3) as [[sig s4] |] eqn:E; [| done]. cbn [res_bind]. apply Unserialize_bytes_size in E.
  destruct (ser_readdata32 s4) as [[v s5] |]; intros [= <- <-]; unfold spork_ok; cbn [nSporkID nValue nTimeSigned vchSig nMessVersion];
    split_and!; try apply s32_in; try apply s64_in; try done.
Qed.

Section Network.
Context {CU : curve} (HashQuark : bytes -> bytes) (params : CChainParams).
Notation run := (run HashQuark params).
Notation step := (step HashQuark params).

(** ** What a node accepts *)

(** The tests of [ProcessSpork] that do not depend on the sporks the node has. *)
Definition acceptable (at_ : moment) (nChainHeight : Z) (m : CSporkMessage) : bool :=
  bool_decide (is_Some (def_by_id (nSporkID m))) && (nTimeSigned m <=? adjusted at_ + 7200) &&
  ((nMessVersion m =? MESS_VER_HASH) || negb (IsMessSigV2 (consensus params) (nChainHeight - 600))) &&
  valid_signature params (adjusted at_) (nTimeSigned m) m.

Definition accepted (e : event) : list CSporkMessage :=
  match e with
  | ev_message at_ SPORK vRecv =>
      match fLiteMode at_, tip_height at_, Unserialize_spork vRecv with
      | false, Some h, Ok (m, _) => if acceptable at_ h m then [m] else []
      | _, _, _ => []
      end
  | _ => []
  end.
Definition accepted_all (l : list event) : list CSporkMessage := l ≫= accepted.

Definition newer (sm : CSporkManager) (m : CSporkMessage) : bool :=
  match mapSporksActive sm !! nSporkID m with Some a => nTimeSigned a <? nTimeSigned m | None => true end.

Lemma def_by_id_Some id d : def_by_id id = Some d -> d ∈ sporkDefs /\ sporkId d = id.
Proof.
  unfold def_by_id. intros E. apply fmap_Some in E as ([i d'] & E & ->). apply list_find_Some in E as (E & Hd & _).
  split; [by eapply list_elem_of_lookup_2 | done].
Qed.

(** What holds of every definition in the table holds of a known spork. *)
Lemma def_by_id_Forall (P : CSporkDef -> Prop) id d : Forall P sporkDefs -> def_by_id id = Some d -> P d.
Proof. intros HF E. apply def_by_id_Some in E as [E _]. rewrite Forall_forall in HF. by apply HF. Qed.

Lemma unknown_name id : String.eqb (GetSporkNameByID id) "Unknown" = negb (bool_decide (is_Some (def_by_id id))).
Proof.
  unfold GetSporkNameByID. destruct (def_by_id id) as [d |] eqn:E; [| done]. rewrite bool_decide_eq_true_2 by eauto.
  apply (def_by_id_Forall (fun d => String.eqb (sporkName d) "Unknown" = false) id d); [repeat constructor | done].
Qed.

Lemma known_id_range id : is_Some (def_by_id id) -> in_s 32 id.
Proof.
  intros [d E]. destruct (def_by_id_Some _ _ E) as [_ <-]. apply (def_by_id_Forall (fun d => in_s 32 (sporkId d)) _ _) in E; [done |].
  apply (bool_decide_unpack _). vm_compute. exact I.
Qed.

Lemma process_message_state at_ h m sm : (process_message HashQuark params at_ h m sm).1 =
  if acceptable at_ h m && newer sm m then WriteSpork (nSporkID m) m (activate HashQuark (nSporkID m) m sm) else sm.
Proof.
  unfold process_message, acceptable, newer. rewrite unknown_name. change (2 * 60 * 60) with 7200. rewrite Z.ltb_antisym.
  destruct (bool_decide (is_Some (def_by_id (nSporkID m)))); [| done]. cbn [negb andb].
  destruct (nTimeSigned m <=? adjusted at_ + 7200); [| done]. cbn [negb andb].
  destruct (nMessVersion m =? MESS_VER_HASH), (IsMessSigV2 _ _); cbn [negb andb orb]; try done;
    (destruct (mapSporksActive sm !! nSporkID m) as [a |]; [rewrite Z.leb_antisym; destruct (nTimeSigned a <? nTimeSigned m) |]);
    destruct (valid_signature _ _ _ _); done.
Qed.

Lemma acceptable_known at_ h m : acceptable at_ h m = true -> is_Some (def_by_id (nSporkID m)).
Proof. unfold acceptable. rewrite !andb_true_iff, bool_decide_eq_true. tauto. Qed.

(** ** The state of the manager *)

(** Every active spork is stored, well-formed, known and under its id. *)
Record sporks_inv (sm : CSporkManager) : Prop := {
  inv_db : sporkDB sm = Serialize_spork <$> mapSporksActive sm;
  inv_active : map_Forall (fun id m => nSporkID m = id /\ spork_ok m /\ is_Some (def_by_id id)) (mapSporksActive sm)
}.

Lemma load_defs ds A sm : sporkDB sm = Serialize_spork <$> A -> map_Forall (fun id m => nSporkID m = id /\ spork_ok m) A ->
  let sm' := fold_left (load_def HashQuark) ds sm in
  sporkDB sm' = sporkDB sm /\
  forall id, mapSporksActive sm' !! id = if decide (id ∈ sporkId <$> ds) then A !! id ∪ mapSporksActive sm !! id else mapSporksActive sm !! id.
Proof.
  revert sm. induction ds as [| d ds IH]; intros sm Hdb HA; cbn [fold_left]; [split; [done | intros id; by rewrite decide_False by set_solver] |].
  assert (R : ReadSpork (sporkId d) sm = A !! sporkId d).
  { unfold ReadSpork. rewrite Hdb, lookup_fmap. destruct (A !! sporkId d) as [m |] eqn:E; [| done]. cbn [fmap option_fmap option_map mbind option_bind].
    rewrite <- (app_nil_r (Serialize_spork m)), spork_roundtrip by (by eapply HA). done. }
  unfold load_def at 2 4. rewrite R. destruct (A !! sporkId d) as [m |] eqn:E.
  - destruct (HA _ _ E) as [Em _]. destruct (IH (activate HashQuark (nSporkID m) m sm) Hdb HA) as [D H]. split; [exact D |].
    intros id. rewrite H. cbn [activate mapSporksActive]. rewrite Em. rewrite fmap_cons.
    destruct (decide (id = sporkId d)) as [-> | Hne].
    + rewrite lookup_insert_eq, E, (decide_True (P := _ ∈ _ :: _)) by set_solver. destruct (decide _), (mapSporksActive sm !! sporkId d); done.
    + rewrite lookup_insert_ne by done. destruct (decide (id ∈ sporkId <$> ds)); [rewrite decide_True by set_solver | rewrite decide_False by set_solver]; done.
  - destruct (IH sm Hdb HA) as [D H]. split; [exact D |]. intros id. rewrite H, fmap_cons.
    destruct (decide (id = sporkId d)) as [-> | Hne]; [rewrite E, !(left_id_L None (∪)); by repeat destruct (decide _) |].
    destruct (decide (id ∈ sporkId <$> ds)); [rewrite decide_True by set_solver | rewrite decide_False by set_solver]; done.
Qed.

Lemma known_listed id : is_Some (def_by_id id) -> id ∈ sporkId <$> sporkDefs.
Proof.
  intros [d E]. apply def_by_id_Some in E as [E <-]. by apply list_elem_of_fmap_2.
Qed.

(** A restart brings back the sporks that were active. *)
Lemma restart_restores sm : sporks_inv sm ->
  let sm' := LoadSporksFromDB HashQuark (CSporkManager_new (sporkDB sm)) in
  mapSporksActive sm' = mapSporksActive sm /\ sporkDB sm' = sporkDB sm.
Proof.
  intros [Hdb HA] sm'. destruct (load_defs sporkDefs (mapSporksActive sm) (CSporkManager_new (sporkDB sm)) Hdb) as [D H]; [intros id m E; by destruct (HA _ _ E) as (? & ? & _) |].
  split; [| exact D]. apply map_eq. intros id. unfold sm', LoadSporksFromDB. rewrite H. cbn [CSporkManager_new mapSporksActive]. rewrite lookup_empty, (right_id_L None (∪)).
  destruct (decide _) as [| n]; [done |]. destruct (mapSporksActive sm !! id) as [m |] eqn:E; [| done]. destruct n. apply known_listed. by apply HA in E as (_ & _ & ?).
Qed.

(** The first message of an id among those with the latest time. *)
Definition latest (id : Z) (l : list CSporkMessage) (o : option CSporkMessage) : Prop :=
  match o with
  | None => forall x, x ∈ l -> nSporkID x <> id
  | Some m => exists l1 l2, l = l1 ++ m :: l2 /\ nSporkID m = id /\
      (forall x, x ∈ l1 -> nSporkID x = id -> nTimeSigned x < nTimeSigned m) /\
      (forall x, x ∈ l2 -> nSporkID x = id -> nTimeSigned x <= nTimeSigned m)
  end.

Lemma latest_snoc_other id l o m : latest id l o -> (nSporkID m = id -> exists a, o = Some a /\ nTimeSigned m <= nTimeSigned a) -> latest id (l ++ [m]) o.
Proof.
  destruct o as [a |]; cbn.
  - intros (l1 & l2 & -> & Ha & H1 & H2) Hm. exists l1, (l2 ++ [m]). rewrite <- app_assoc. split_and!; [done | done | done |].
    intros x [Hx | ->%list_elem_of_singleton]%elem_of_app Hid; [by apply H2 |]. by destruct (Hm Hid) as (? & [= <-] & ?).
  - intros H Hm x [Hx | ->%list_elem_of_singleton]%elem_of_app; [by apply H |]. intros Hid. by destruct (Hm Hid) as (? & ? & _).
Qed.

Lemma latest_snoc_new id l o m : latest id l o -> nSporkID m = id -> (forall a, o = Some a -> nTimeSigned a < nTimeSigned m) -> latest id (l ++ [m]) (Some m).
Proof.
  intros H Hid Hn. exists l, []. split_and!; [done | done | | intros x Hx; by apply not_elem_of_nil in Hx].
  intros x Hx Hxid. destruct o as [a |]; cbn in H; [| by destruct (H x Hx)].
  destruct H as (l1 & l2 & -> & Ha & H1 & H2). specialize (Hn a eq_refl).
  apply elem_of_app in Hx as [Hx | [-> | Hx]%elem_of_cons]; [specialize (H1 x Hx Hxid) | | specialize (H2 x Hx Hxid)]; lia.
Qed.

Definition tracks (l : list CSporkMessage) (sm : CSporkManager) : Prop :=
  sporks_inv sm /\ forall id, latest id l (mapSporksActive sm !! id).

Lemma tracks_message l sm at_ h m : tracks l sm -> spork_ok m ->
  tracks (l ++ if acceptable at_ h m then [m] else []) (process_message HashQuark params at_ h m sm).1.
Proof.
  intros [[Hdb HA] HL] Hm. rewrite process_message_state. destruct (acceptable at_ h m) eqn:Ea; cbn [andb]; [| by rewrite app_nil_r].
  pose proof (acceptable_known _ _ _ Ea) as Hk. destruct (newer sm m) eqn:En; unfold newer in En.
  - split; [split |].
    + cbn. by rewrite Hdb, fmap_insert.
    + cbn. by apply map_Forall_insert_2.
    + intros id. cbn. destruct (decide (nSporkID m = id)) as [<- | Hne].
      * rewrite lookup_insert_eq. eapply latest_snoc_new; [apply HL | done |]. intros a E. rewrite E in En. bprop. lia.
      * rewrite lookup_insert_ne by done. apply latest_snoc_other; [apply HL | done].
  - split; [done |]. intros id. apply latest_snoc_other; [apply HL |]. intros <-. destruct (mapSporksActive sm !! nSporkID m) as [a |]; [| done]. bprop. eauto.
Qed.

Lemma tracks_step l sm e : tracks l sm -> tracks (l ++ accepted e) (step sm e).
Proof.
  intros H. destruct e as [at_ [|] vRecv |]; cbn [accepted Sporks.step].
  - unfold ProcessSpork. destruct (fLiteMode at_); [by rewrite app_nil_r |]. destruct (tip_height at_) as [h |]; [| by rewrite app_nil_r].
    destruct (Unserialize_spork vRecv) as [[m r] |] eqn:E; [| by rewrite app_nil_r]. apply tracks_message; [done |]. by eapply Unserialize_spork_ok.
  - rewrite app_nil_r. unfold ProcessSpork. destruct (fLiteMode at_); [done |]. by destruct (tip_height at_).
  - rewrite app_nil_r. destruct H as [HI HL]. destruct (restart_restores sm HI) as [EA ED]. destruct HI as [Hdb HA].
    split; [split; rewrite EA, ?ED; done |]. intros id. rewrite EA. apply HL.
Qed.

Lemma start_is_restart : LoadSporksFromDB HashQuark (CSporkManager_new ∅) = step (CSporkManager_new ∅) ev_restart.
Proof. cbn [Sporks.step CSporkManager_new sporkDB]. reflexivity. Qed.

Lemma run_tracks evs : tracks (accepted_all evs) (run evs).
Proof.
  unfold Sporks.run. induction evs as [| e evs IH] using rev_ind.
  - assert (H0 : tracks [] (CSporkManager_new ∅)).
    { split; [split; [cbn; by rewrite fmap_empty | apply map_Forall_empty] |]. intros id. cbn [CSporkManager_new mapSporksActive]. rewrite lookup_empty. cbn. intros x Hx. by apply not_elem_of_nil in Hx. }
    cbn [fold_left]. rewrite start_is_restart. change (accepted_all []) with ([] ++ accepted ev_restart). apply tracks_step, H0.
  - rewrite fold_left_app. cbn [fold_left]. unfold accepted_all. rewrite bind_app. cbn [mbind list_bind]. rewrite app_nil_r. by apply tracks_step.
Qed.

(** When no two accepted messages of an id have the same time, the active spork of the id is
    the accepted message with the latest time, and nothing else. *)
Lemma active_iff evs id m : (forall x y, x ∈ accepted_all evs -> y ∈ accepted_all evs -> nSporkID x = nSporkID y -> nTimeSigned x = nTimeSigned y -> x = y) ->
  mapSporksActive (run evs) !! id = Some m <->
  m ∈ accepted_all evs /\ nSporkID m = id /\ forall x, x ∈ accepted_all evs -> nSporkID x = id -> nTimeSigned x <= nTimeSigned m.
Proof.
  intros Hd. destruct (run_tracks evs) as [_ HL]. specialize (HL id). destruct (mapSporksActive (run evs) !! id) as [a |]; cbn in HL.
  - destruct HL as (l1 & l2 & E & Ha & H1 & H2). rewrite E in Hd |- *. split.
    + intros [= <-]. split; [set_solver |]. split; [done |]. intros x [Hx | [-> | Hx]%elem_of_cons]%elem_of_app Hid; [specialize (H1 x Hx Hid); lia | lia | by apply H2].
    + intros (Hm & Hid & Hmax). f_equal. apply Hd; [set_solver | done | congruence |]. specialize (Hmax a ltac:(set_solver) Ha).
      apply elem_of_app in Hm as [Hm | [-> | Hm]%elem_of_cons]; [specialize (H1 m Hm Hid) | | specialize (H2 m Hm Hid)]; lia.
  - split; [done |]. intros (Hm & Hid & _). by destruct (HL m Hm).
Qed.

(** C19: Two nodes that do not sign sporks themselves receive messages of any kind, valid or
    not, in any order, any number of times, at different moments, and restart whenever they
    like. If the messages that pass the checks are the same on both nodes, and those of the
    same spork have different times, then both nodes have the same active sporks, in memory
    and in the database, and the same value for every spork; the active spork of an id is
    the accepted message of that id with the latest time. *)
Theorem sporks_converge (evs1 evs2 : list event) :
  (forall m, m ∈ accepted_all evs1 <-> m ∈ accepted_all evs2) ->
  (forall x y, x ∈ accepted_all evs1 -> y ∈ accepted_all evs1 -> nSporkID x = nSporkID y -> nTimeSigned x = nTimeSigned y -> x = y) ->
  mapSporksActive (run evs1) = mapSporksActive (run evs2) /\ sporkDB (run evs1) = sporkDB (run evs2) /\
  (forall id, GetSporkValue id (run evs1) = GetSporkValue id (run evs2)) /\
  (forall id m, mapSporksActive (run evs1) !! id = Some m <->
     m ∈ accepted_all evs1 /\ nSporkID m = id /\ forall x, x ∈ accepted_all evs1 -> nSporkID x = id -> nTimeSigned x <= nTimeSigned m).
Proof.
  intros Hsame Hd. assert (EA : mapSporksActive (run evs1) = mapSporksActive (run evs2)).
  { apply map_eq. intros id. apply option_eq. intros m. rewrite active_iff by done. rewrite active_iff by (intros x y; rewrite <- !Hsame; apply Hd). by setoid_rewrite Hsame. }
  destruct (run_tracks evs1) as [[D1 _] _], (run_tracks evs2) as [[D2 _] _].
  split; [exact EA |]. split; [by rewrite D1, D2, EA |]. split; [intros id; unfold GetSporkValue; by rewrite EA |]. intros id m. by apply active_iff.
Qed.

End Network.

(** ** The holder of the key *)

Section Signer.
Context {CU : curve} {CL : curve_laws} (HashQuark : bytes -> bytes) (params : CChainParams).

Lemma recid_bits rec (c : bool) : 0 <= rec < 4 ->
  Z.land (u8 (27 + rec + (if c then 4 else 0)) - 27) 3 = rec /\ Z.land (u8 (27 + rec + (if c then 4 else 0)) - 27) 4 = (if c then 4 else 0).
Proof. intros H. assert (rec = 0 \/ rec = 1 \/ rec = 2 \/ rec = 3) as [-> | [-> | [-> | ->]]] by lia; destruct c; done. Qed.

(** A compact signature recovers to the public key of the key that made it. *)
Lemma RecoverCompact_SignCompact key pubkey hash : (fValid key = true -> seckey_verify (keydata key) = true) -> GetPubKey key = Some pubkey ->
  exists sig, SignCompact key hash = (true, sig) /\ zlen sig = 65 /\ RecoverCompact hash sig = Some pubkey.
Proof.
  intros Hv. unfold GetPubKey, SignCompact. destruct (fValid key); [| done]. specialize (Hv eq_refl). cbn [negb]. case_match; [| done]. intros [= <-].
  destruct (signature_form (keydata key) hash Hv) as [HL Hr]. pose proof (recover_sign (keydata key) hash (fCompressed key) Hv) as HR.
  destruct (sign_recoverable (keydata key) hash) as [sig rec]. cbn [fst snd] in *. exists (u8 (27 + rec + (if fCompressed key then 4 else 0)) :: sig).
  assert (HZ : zlen (u8 (27 + rec + (if fCompressed key then 4 else 0)) :: sig) = 65) by (rewrite zlen_cons; unfold zlen; rewrite HL; done).
  split; [done |]. split; [exact HZ |]. unfold RecoverCompact. rewrite HZ. change (negb (65 =? COMPACT_SIGNATURE_SIZE)) with false. cbn iota.
  destruct (recid_bits rec (fCompressed key) Hr) as [B1 B2].
  set (b := u8 _) in *. change (idx (b :: sig) 0) with b. change (drop 1 (b :: sig)) with sig. rewrite B1, B2.
  assert (EC : negb ((if fCompressed key then 4 else 0) =? 0) = fCompressed key) by (by destruct (fCompressed key)).
  rewrite EC, HR. cbn [fmap option_fmap option_map]. by rewrite pubkey_form.
Qed.

Lemma GetKeys_valid secret key pubkey : GetKeysFromSecret params secret = Some (Some (key, pubkey)) ->
  (fValid key = true -> seckey_verify (keydata key) = true) /\ GetPubKey key = Some pubkey.
Proof.
  unfold GetKeysFromSecret. destruct (SetString _ _) as [ok a]. case_match; [done |]. unfold Secret_GetKey. case_match; [done |]. cbn [mbind option_bind].
  set (k := CKey_Set _ _). destruct (GetPubKey k) as [pk |] eqn:E; [| done]. cbn. intros [= <- <-]. split; [| done].
  unfold k, CKey_Set. case_match; [done |]. by destruct (seckey_verify _) eqn:?.
Qed.

(** The signature is not part of what is signed. *)
Lemma signed_hash m v s s' : GetSignatureHash (with_sig m v s) = GetSignatureHash (with_sig m v s').
Proof. unfold GetSignatureHash. f_equal. Qed.

(** What [Sign] does with a secret whose keys are known. *)
Lemma Sign_keys secret key pubkey m fNewSigs : GetKeysFromSecret params secret = Some (Some (key, pubkey)) ->
  exists sig, Sign params m secret fNewSigs = Some (true, with_sig m (if fNewSigs then MESS_VER_HASH else MESS_VER_STRMESS) sig) /\ zlen sig = 65 /\
    forall pk, CheckSignature_key (with_sig m (if fNewSigs then MESS_VER_HASH else MESS_VER_STRMESS) sig) pk = bool_decide (PubKey_GetID pubkey = PubKey_GetID pk).
Proof.
  intros K. destruct (GetKeys_valid _ _ _ K) as [Hv HP]. unfold Sign. rewrite K. cbn [mbind option_bind]. unfold Sign_key, VerifyMessage, VerifyHash.
  destruct fNewSigs;
    match goal with |- context [SignCompact key ?h] => destruct (RecoverCompact_SignCompact key pubkey h Hv HP) as (sig & -> & HL & HR) end;
    exists sig; cbn [negb]; rewrite HR, bool_decide_eq_true_2 by done; (split; [done |]); (split; [done |]); intros pk;
    unfold CheckSignature_key, VerifyMessage, VerifyHash; cbn [with_sig nMessVersion vchSig]; [change (MESS_VER_HASH =? MESS_VER_HASH) with true | change (MESS_VER_STRMESS =? MESS_VER_HASH) with false]; cbn iota.
  - by rewrite (signed_hash _ _ sig (vchSig m)), HR.
  - change (GetStrMessage (with_sig m MESS_VER_STRMESS sig)) with (GetStrMessage (with_sig m MESS_VER_STRMESS (vchSig m))). by rewrite HR.
Qed.

(** A secret that [SetPrivKey] accepts once the new key is required belongs to that key. *)
Lemma SetPrivKey_keys at_ secret sm sm' : SetPrivKey params at_ secret sm = Some (true, sm') -> nTime_EnforceNewSporkKey (consensus params) <= now at_ ->
  strMasterPrivKey sm' = secret /\ exists key pubkey, GetKeysFromSecret params secret = Some (Some (key, pubkey)) /\
    idx (GetPublicKey (consensus params)) 0 <> 255 /\ PubKey_GetID pubkey = PubKey_GetID (GetPublicKey (consensus params)).
Proof.
  intros S Ht. unfold SetPrivKey in S. destruct (GetKeysFromSecret params secret) as [[[key pubkey] |] |] eqn:K.
  - destruct (Sign_keys secret key pubkey CSporkMessage_default true K) as (sig & E & _ & HC). rewrite E in S. cbn [mbind option_bind snd] in S.
    unfold valid_signature in S. rewrite (proj2 (Z.leb_le _ _) Ht), andb_false_r in S. unfold CheckSignature in S. rewrite HC in S.
    destruct (idx _ 0 =? 255) eqn:E0; [done |]. bprop. destruct (bool_decide _) eqn:EB; [| done]. apply bool_decide_eq_true in EB. injection S as <-. eauto 10.
  - unfold Sign in S. rewrite K in S. cbn [mbind option_bind snd] in S. unfold valid_signature in S. rewrite (proj2 (Z.leb_le _ _) Ht), andb_false_r in S.
    unfold CheckSignature in S. by destruct (idx _ 0 =? 255).
  - unfold Sign in S. by rewrite K in S.
Qed.

(** C20: Once a node has been given the spork key, setting a spork signs it and announces it,
    and every node that receives the message accepts it, relays it, stores it and then has
    the new value, provided it knows the spork, its clock is at most two hours behind, its
    active spork is older, and the signer's chain is at most 600 blocks behind the change of
    signatures. *)
Theorem UpdateSpork_propagates (at0 at1 at2 : moment) (secret : bytes) (id value h : Z) (sm0 sm1 peer : CSporkManager) :
  SetPrivKey params at0 secret sm0 = Some (true, sm1) -> nTime_EnforceNewSporkKey (consensus params) <= now at0 ->
  in_s 64 value -> in_s 64 (now at1) -> is_Some (def_by_id id) -> fLiteMode at2 = false -> tip_height at2 = Some h ->
  now at1 <= adjusted at2 + 7200 ->
  (IsMessSigV2 (consensus params) (h - 600) = true -> IsMessSigV2 (consensus params) (default (-1) (tip_height at1)) = true) ->
  (forall a, mapSporksActive peer !! id = Some a -> nTimeSigned a < now at1) ->
  exists m, UpdateSpork HashQuark params at1 id value sm1 = Some (true, activate HashQuark id m sm1, [relay_inv (GetHash_spork HashQuark m)]) /\
    let (peer', sends) := ProcessSpork HashQuark params at2 SPORK (Serialize_spork m) peer in
    sends = [relay_inv (GetHash_spork HashQuark m)] /\ GetSporkValue id peer' = value /\ sporkDB peer' !! id = Some (Serialize_spork m) /\
    GetSporkValue id (activate HashQuark id m sm1) = value.
Proof.
  intros S Ht Hval Hnow Hid Hlite Htip Hfut Hsig Hold. destruct (SetPrivKey_keys _ _ _ _ S Ht) as (Ek & key & pubkey & K & Hk & HI).
  unfold UpdateSpork. rewrite Ek. set (new := IsMessSigV2 _ (default _ _)) in *.
  destruct (Sign_keys secret key pubkey (CSporkMessage_new id value (now at1)) new K) as (sig & E & HL & HC).
  set (m := with_sig _ _ _) in *. exists m. rewrite E. split; [done |].
  assert (Hids : in_s 32 id) by (by apply known_id_range).
  assert (Hok : spork_ok m) by (split_and!; try done; cbn [m with_sig vchSig nMessVersion]; [rewrite HL; done | destruct new; done]).
  unfold ProcessSpork. rewrite Hlite, Htip, <- (app_nil_r (Serialize_spork m)), spork_roundtrip by done.
  unfold process_message. rewrite unknown_name. change (nSporkID m) with id. change (nTimeSigned m) with (now at1). rewrite bool_decide_eq_true_2 by done. cbn [negb].
  rewrite (proj2 (Z.ltb_ge _ _)) by lia.
  assert (HV : negb (nMessVersion m =? MESS_VER_HASH) && IsMessSigV2 (consensus params) (h - 600) = false).
  { destruct (IsMessSigV2 (consensus params) (h - 600)); [| by rewrite andb_false_r]. cbn [m with_sig nMessVersion]. by rewrite Hsig. }
  assert (HO : match mapSporksActive peer !! id with Some a => now at1 <=? nTimeSigned a | None => false end = false).
  { destruct (mapSporksActive peer !! id) as [a |]; [| done]. apply Z.leb_gt. by apply Hold. }
  assert (HG : valid_signature params (adjusted at2) (now at1) m = true).
  { unfold valid_signature, CheckSignature. rewrite (proj2 (Z.eqb_neq _ _) Hk), HC, bool_decide_eq_true_2 by done. done. }
  rewrite HV, HO, HG. cbn [negb]. split; [done |]. unfold GetSporkValue, WriteSpork, activate. cbn [mapSporksActive sporkDB]. rewrite !lookup_insert_eq, app_nil_r. done.
Qed.

(** The signer does not store what it sets: a restart brings back the sporks of before. *)
Lemma UpdateSpork_not_stored at_ id value sm ok sm' sends : sporks_inv sm -> UpdateSpork HashQuark params at_ id value sm = Some (ok, sm', sends) ->
  mapSporksActive (LoadSporksFromDB HashQuark (CSporkManager_new (sporkDB sm'))) = mapSporksActive sm.
Proof.
  intros HI. unfold UpdateSpork. destruct (Sign _ _ _ _) as [[[] m] |]; cbn [mbind option_bind]; [| | done]; intros [= <- <- <-]; exact (proj1 (restart_restores HashQuark sm HI)).
Qed.

End Signer.

(** ** What a signature binds *)

(** A signature of the new form is one of the bytes of the id, the value and the time. *)
Lemma signature_preimage_inj m m' : spork_ok m -> spork_ok m' -> signature_preimage m = signature_preimage m' ->
  nMessVersion m = nMessVersion m' /\ nSporkID m = nSporkID m' /\ nValue m = nValue m' /\ nTimeSigned m = nTimeSigned m'.
Proof.
  intros (H1 & H2 & H3 & _ & H5) (H1' & H2' & H3' & _ & H5'). unfold signature_preimage, ser_writedata32, ser_writedata64. intros E.
  assert (W32 : forall z z' r r', in_s 32 z -> in_s 32 z' -> le_bytes 4 z ++ r = le_bytes 4 z' ++ r' -> z = z' /\ r = r').
  { intros z z' r r' Hz Hz' EE. apply (f_equal (read_le 4)) in EE. rewrite !read_le_signed in EE. injection EE as Ez Er. apply (f_equal s32) in Ez. by rewrite !s32_of_mod in Ez by done. }
  assert (W64 : forall z z' r r', in_s 64 z -> in_s 64 z' -> le_bytes 8 z ++ r = le_bytes 8 z' ++ r' -> z = z' /\ r = r').
  { intros z z' r r' Hz Hz' EE. apply (f_equal (read_le 8)) in EE. rewrite !read_le_signed in EE. injection EE as Ez Er. apply (f_equal s64) in Ez. by rewrite !s64_of_mod in Ez by done. }
  apply W32 in E as [E1 E]; [| done | done]. apply W32 in E as [E2 E]; [| done | done]. apply W64 in E as [E3 E]; [| done | done].
  rewrite <- (app_nil_r (le_bytes 8 (nTimeSigned m))), <- (app_nil_r (le_bytes 8 (nTimeSigned m'))) in E. by apply W64 in E as [E4 _].
Qed.

Lemma dec_digits_acc fuel n acc : dec_digits fuel n acc = dec_digits fuel n [] ++ acc.
Proof.
  revert n acc. induction fuel as [| fuel IH]; intros n acc; cbn [dec_digits]; [done |]. destruct (n <? 10); [done |].
  rewrite IH, (IH _ [_]), <- app_assoc. done.
Qed.

Lemma dec_digits_fuel f f' n : 0 <= n < 10 ^ Z.of_nat f -> 0 <= n < 10 ^ Z.of_nat f' -> (0 < f)%nat -> (0 < f')%nat -> dec_digits f n [] = dec_digits f' n [].
Proof.
  revert f' n. induction f as [| f IH]; intros [| f'] n H1 H2 L1 L2; try lia. cbn [dec_digits]. destruct (n <? 10) eqn:E; bprop; [done |].
  rewrite Nat2Z.inj_succ, Z.pow_succ_r in H1, H2 by lia. rewrite (dec_digits_acc f), (dec_digits_acc f'). f_equal.
  assert (0 <= n / 10) by (apply Z.div_pos; lia).
  apply IH; [split; [done |]; apply Z.div_lt_upper_bound; lia | split; [done |]; apply Z.div_lt_upper_bound; lia | destruct f; [cbn in H1 |]; lia | destruct f'; [cbn in H2 |]; lia].
Qed.

Lemma dec_nonneg_digit n : 0 <= n < 10 -> dec_nonneg n = [48 + n].
Proof. intros H. unfold dec_nonneg. cbn [dec_digits]. by rewrite (proj2 (Z.ltb_lt n 10)), Z.mod_small by lia. Qed.

Lemma dec_nonneg_snoc n d : 1 <= n -> 0 <= d < 10 -> dec_nonneg (10 * n + d) = dec_nonneg n ++ [48 + d].
Proof.
  intros Hn Hd. set (z := 10 * n + d). assert (Ez : z / 10 = n) by (unfold z; rewrite Z.mul_comm, Z.div_add_l, Z.div_small by lia; lia).
  assert (Em : z `mod` 10 = d) by (unfold z; rewrite Z.mul_comm, Z.add_comm, Z_mod_plus_full, Z.mod_small by lia; lia).
  unfold dec_nonneg at 1. cbn [dec_digits]. rewrite (proj2 (Z.ltb_ge z 10)), Ez, Em, dec_digits_acc by (unfold z; lia). f_equal.
  assert (3 <= Z.log2 z) by (apply (Z.log2_le_mono 8 z); unfold z; lia). pose proof (dec_fuel z ltac:(unfold z; lia)) as HF.
  rewrite Nat2Z.inj_succ, Z.pow_succ_r in HF by lia. apply dec_digits_fuel; [unfold z in *; lia | split; [lia | apply dec_fuel; lia] | lia | lia].
Qed.

(** The first digit of a number in decimal. *)
Lemma dec_nonneg_cons k d r : (0 < k)%nat -> 1 <= d < 10 -> 10 ^ (Z.of_nat k - 1) <= r < 10 ^ Z.of_nat k ->
  dec_nonneg (d * 10 ^ Z.of_nat k + r) = (48 + d) :: dec_nonneg r.
Proof.
  revert r. induction k as [| k IH]; intros r Hk Hd Hr; [lia |]. rewrite Nat2Z.inj_succ in *. unfold Z.succ in *. replace (Z.of_nat k + 1 - 1) with (Z.of_nat k) in Hr by lia.
  rewrite Z.pow_add_r, Z.pow_1_r in * by lia. destruct k as [| k].
  - change (10 ^ Z.of_nat 0) with 1 in *. replace (d * (1 * 10) + r) with (10 * d + r) by lia. rewrite dec_nonneg_snoc, !dec_nonneg_digit by lia. done.
  - pose proof (Z.div_mod r 10 ltac:(lia)) as D. pose proof (Z.mod_pos_bound r 10 ltac:(lia)) as B.
    assert (P : 10 ^ Z.of_nat (S k) = 10 * 10 ^ Z.of_nat k) by (rewrite Nat2Z.inj_succ, Z.pow_succ_r by lia; done). pose proof (Z.pow_pos_nonneg 10 (Z.of_nat k) ltac:(lia) ltac:(lia)).
    replace (d * (10 ^ Z.of_nat (S k) * 10) + r) with (10 * (d * 10 ^ Z.of_nat (S k) + r / 10) + r `mod` 10) by lia.
    rewrite dec_nonneg_snoc, IH by (rewrite ?Nat2Z.inj_succ; replace (Z.succ (Z.of_nat k) - 1) with (Z.of_nat k) by lia; rewrite ?Z.pow_succ_r by lia; nia).
    rewrite D at 3. rewrite (dec_nonneg_snoc (r / 10)) by nia. done.
Qed.

Section Forgery.
Context {CU : curve} (HashQuark : bytes -> bytes) (params : CChainParams).

(** The message with the first digit of its time moved to the end of its value. *)
Definition shift_digit (m : CSporkMessage) (d r : Z) : CSporkMessage :=
  {| nSporkID := nSporkID m; nValue := 10 * nValue m + d; nTimeSigned := r; vchSig := vchSig m; nMessVersion := nMessVersion m |}.

Lemma shift_digit_string m k d r : 1 <= nValue m -> nTimeSigned m = d * 10 ^ Z.of_nat k + r -> (0 < k)%nat -> 1 <= d < 10 ->
  10 ^ (Z.of_nat k - 1) <= r < 10 ^ Z.of_nat k -> GetStrMessage (shift_digit m d r) = GetStrMessage m.
Proof.
  intros Hv Ht Hk Hd Hr. pose proof (Z.pow_pos_nonneg 10 (Z.of_nat k - 1) ltac:(lia) ltac:(lia)). unfold GetStrMessage, shift_digit. cbn [nSporkID nValue nTimeSigned]. f_equal.
  unfold to_string. rewrite !(proj2 (Z.ltb_ge _ 0)) by nia. rewrite Ht, dec_nonneg_cons, dec_nonneg_snoc, <- app_assoc by (lia || done). done.
Qed.

(** C21: A spork signed in the old form can be changed by anyone. The signed text is the
    decimal id, value and time without separators; moving the first digit of the time to
    the end of the value gives another message with the same text, so the same signature.
    A node that has no spork of that id and would accept the original accepts the changed
    message at the same moment, with ten times the value and more. *)
Theorem string_sporks_forgeable (at_ : moment) (h : Z) (m : CSporkMessage) (sm : CSporkManager) (k : nat) (d r : Z) :
  nMessVersion m <> MESS_VER_HASH -> spork_ok m -> 1 <= nValue m -> 10 * nValue m + d < 2 ^ 63 ->
  nTimeSigned m = d * 10 ^ Z.of_nat k + r -> (0 < k)%nat -> 1 <= d < 10 -> 10 ^ (Z.of_nat k - 1) <= r < 10 ^ Z.of_nat k ->
  fLiteMode at_ = false -> tip_height at_ = Some h -> mapSporksActive sm !! nSporkID m = None -> acceptable params at_ h m = true ->
  GetSporkValue (nSporkID m) (ProcessSpork HashQuark params at_ SPORK (Serialize_spork (shift_digit m d r)) sm).1 = 10 * nValue m + d.
Proof.
  intros Hver (K1 & K2 & K3 & K4 & K5) Hv Hmax Ht Hk Hd Hr Hlite Htip Hnone Ha. pose proof (Z.pow_pos_nonneg 10 (Z.of_nat k - 1) ltac:(lia) ltac:(lia)) as P1.
  pose proof (Z.pow_pos_nonneg 10 (Z.of_nat k) ltac:(lia) ltac:(lia)) as P2. set (f := shift_digit m d r).
  assert (Hlt : 0 < r < nTimeSigned m) by nia.
  assert (Hok : spork_ok f) by (unfold in_s in *; split_and!; cbn [f shift_digit nSporkID nValue nTimeSigned vchSig nMessVersion]; unfold in_s; lia || done).
  assert (HC : forall pk, CheckSignature_key f pk = CheckSignature_key m pk).
  { intros pk. unfold CheckSignature_key. change (nMessVersion f) with (nMessVersion m). rewrite (proj2 (Z.eqb_neq _ _) Hver). change (vchSig f) with (vchSig m).
    unfold f. by rewrite (shift_digit_string m k). }
  assert (Haf : acceptable params at_ h f = true).
  { unfold acceptable in *. change (nMessVersion f) with (nMessVersion m). change (nSporkID f) with (nSporkID m). change (nTimeSigned f) with r.
    rewrite !andb_true_iff in Ha. destruct Ha as [[[A1 A2] A3] A4]. rewrite A1, A3. bprop. rewrite (proj2 (Z.leb_le r _)) by lia. cbn [andb].
    unfold valid_signature, CheckSignature in *. rewrite !HC. revert A4. set (o := CheckSignature_key m (GetPublicKeyOld _)). destruct (if _ =? 255 then _ else _); [done |]. cbn [negb andb].
    destruct (_ <=? nTimeSigned m) eqn:E; [done |]. bprop. rewrite (proj2 (Z.leb_gt _ r)) by lia. done. }
  unfold ProcessSpork. rewrite Hlite, Htip, <- (app_nil_r (Serialize_spork f)), spork_roundtrip by done. rewrite process_message_state, Haf.
  unfold newer. change (nSporkID f) with (nSporkID m). rewrite Hnone. cbn [andb]. unfold GetSporkValue. cbn [WriteSpork activate mapSporksActive]. by rewrite lookup_insert_eq.
Qed.

End Forgery.

(** A toy curve on which every signature of 65 bytes recovers to the spork key. *)
#[local] Instance any_signature : curve := {|
  seckey_verify := fun _ => true;
  pubkey_create := fun _ _ => GetPublicKey mainConsensus;
  sign_recoverable := fun _ _ => (replicate 64 0, 0);
  ecdsa_recover := fun _ _ _ _ => Some (GetPublicKey mainConsensus)
|}.

Definition sample_moment : moment := {| now := 1600000000; adjusted := 1600000000; tip_height := Some 5000; fLiteMode := false |}.
Definition sample_spork (value time : Z) : CSporkMessage :=
  {| nSporkID := SPORK_20_TRAVERSE_SZ; nValue := value; nTimeSigned := time; vchSig := replicate 65 0; nMessVersion := MESS_VER_HASH |}.
Definition sent (m : CSporkMessage) : event := ev_message sample_moment SPORK (Serialize_spork m).

Definition history1 : list event := [sent (sample_spork 5 1590000000); sent (sample_spork 7 1595000000); ev_restart].
Definition history2 : list event :=
  [sent (sample_spork 7 1595000000); ev_restart; sent (sample_spork 5 1590000000); sent (sample_spork 9 1700000000); sent (sample_spork 7 1595000000)].

Lemma sporks_converge_witness : GetSporkValue SPORK_20_TRAVERSE_SZ (run (fun x => x) mainParams history1) = GetSporkValue SPORK_20_TRAVERSE_SZ (run (fun x => x) mainParams history2).
Proof.
  assert (E1 : accepted_all mainParams history1 = [sample_spork 5 1590000000; sample_spork 7 1595000000]) by (vm_compute; reflexivity).
  assert (E2 : accepted_all mainParams history2 = [sample_spork 7 1595000000; sample_spork 5 1590000000; sample_spork 7 1595000000]) by (vm_compute; reflexivity).
  destruct (sporks_converge (fun x => x) mainParams history1 history2) as (_ & _ & E & _); [rewrite E1, E2 | rewrite E1 | exact (E _)].
  - intros m. rewrite !elem_of_cons, !elem_of_nil. tauto.
  - intros x y. rewrite !elem_of_cons, !elem_of_nil. intros [-> | [-> | []]] [-> | [-> | []]]; cbn; done.
Defined.

(** With equal times the first message wins, and nodes that received them in different
    orders disagree from then on. *)
Lemma tied_sporks_diverge : let a := sent (sample_spork 5 1590000000) in let b := sent (sample_spork 7 1590000000) in
  GetSporkValue SPORK_20_TRAVERSE_SZ (run (fun x => x) mainParams [a; b; a]) <> GetSporkValue SPORK_20_TRAVERSE_SZ (run (fun x => x) mainParams [b; a; b]).
Proof. vm_compute. discriminate. Qed.

(** ** The other theorems at concrete inputs *)

#[local] Instance any_signature_laws : curve_laws.
Proof.
  split.
  - intros k c _. vm_compute. reflexivity.
  - intros k h _. split; [vm_compute; reflexivity | cbn; lia].
  - intros k h c _. reflexivity.
Qed.

Definition sample_secret : bytes := default [] (EncodeBase58Check ([60] ++ replicate 32 1 ++ [1])).
Definition sample_signer : CSporkManager := {| strMasterPrivKey := sample_secret; mapSporksActive := ∅; mapSporks := ∅; sporkDB := ∅ |}.

Lemma UpdateSpork_propagates_witness : exists m,
  let (peer', sends) := ProcessSpork (fun x => x) mainParams sample_moment SPORK (Serialize_spork m) (CSporkManager_new ∅) in
  GetSporkValue SPORK_20_TRAVERSE_SZ peer' = 30.
Proof.
  destruct (UpdateSpork_propagates (fun x => x) mainParams sample_moment sample_moment sample_moment sample_secret SPORK_20_TRAVERSE_SZ 30 5000
    (CSporkManager_new ∅) sample_signer (CSporkManager_new ∅)) as (m & _ & H).
  - vm_compute. reflexivity.
  - vm_compute. discriminate.
  - split; [vm_compute; discriminate | reflexivity].
  - split; [vm_compute; discriminate | reflexivity].
  - exists {| sporkId := SPORK_20_TRAVERSE_SZ; defaultValue := 0; sporkName := "SPORK_20_TRAVERSE_SZ" |}. vm_compute. reflexivity.
  - reflexivity.
  - reflexivity.
  - vm_compute. discriminate.
  - intros _. vm_compute. reflexivity.
  - intros a. cbn [CSporkManager_new mapSporksActive]. rewrite lookup_empty. discriminate.
  - exists m. destruct (ProcessSpork _ _ _ _ _ _) as [peer' sends]. apply H.
Defined.

Definition early_moment : moment := {| now := 1600000000; adjusted := 1600000000; tip_height := Some 2000; fLiteMode := false |}.
Definition old_spork : CSporkMessage :=
  {| nSporkID := SPORK_20_TRAVERSE_SZ; nValue := 5; nTimeSigned := 1600000000; vchSig := replicate 65 0; nMessVersion := MESS_VER_STRMESS |}.

Lemma string_sporks_forgeable_witness :
  GetSporkValue SPORK_20_TRAVERSE_SZ (ProcessSpork (fun x => x) mainParams early_moment SPORK (Serialize_spork (shift_digit old_spork 1 600000000)) (CSporkManager_new ∅)).1 = 51.
Proof.
  apply (string_sporks_forgeable (fun x => x) mainParams early_moment 2000 old_spork (CSporkManager_new ∅) 9 1 600000000);
    try (vm_compute; (discriminate || reflexivity)); try (cbn; lia).
  unfold spork_ok, in_s, old_spork, MAX_SIZE. cbn -[Z.pow]. unfold SPORK_20_TRAVERSE_SZ, MESS_VER_STRMESS. split_and!; try lia; done.
Defined.
