(* ===== verification/Wallet.v ===== *)
(** The wallet's way to a transaction ([wallet/wallet.cpp], [coincontrol.h]): the coins it
    may spend, the choice among them, and [CreateTransaction], which pays, gives change and
    settles the fee; bets are made by it.

    What the wallet knows of its transactions (keys, depths, locks), signing, fee rates and
    the verdict on free transactions, which is computed with priorities in [double], are the
    class [wallet_env]. The order in which [std::sort] leaves equal elements and in which a
    set of pointers is walked is not defined by the language: the class [orders] holds
    any such order. Random draws are arguments, given by the round of the loop in
    [CreateTransaction] and the attempt within it. Amounts stay within 64 bits, since they
    are sums of outputs that exist. *)

From Stdlib Require Import ZArith Lia.
From stdpp Require Import base tactics list numbers option strings.
From S2P Require Import Prelude Amount Script Hash ChainParams Base58 Standard Serialize Transaction.

(** ** Coins *)

(** A wallet transaction and the number of an output, for [pair<const CWalletTx*, unsigned>]. *)
Definition coin : Type := CTransaction * Z.

Definition coin_out (c : coin) : CTxOut := nth (Z.to_nat c.2) (vout c.1) CTxOut_SetNull.
Definition coin_value (c : coin) : Z := nValue (coin_out c).

Record COutput := { out_tx : CTransaction; out_i : Z; nDepth : Z; fSpendable : bool }.
Definition out_coin (o : COutput) : coin := (out_tx o, out_i o).

Inductive AvailableCoinsType := ALL_COINS | ONLY_10000 | STAKEABLE_COINS.

#[global] Instance AvailableCoinsType_eq_dec : EqDecision AvailableCoinsType.
Proof. solve_decision. Defined.

Definition ISMINE_NO : Z := 0.
Definition ISMINE_WATCH_ONLY : Z := 1.
Definition ISMINE_MULTISIG : Z := 2.
Definition ISMINE_SPENDABLE : Z := 4.
Definition ISMINE_COLD : Z := 8.
Definition ISMINE_SPENDABLE_DELEGATED : Z := 16.
Definition ISMINE_SPENDABLE_STAKEABLE : Z := Z.lor ISMINE_SPENDABLE_DELEGATED ISMINE_COLD.

Record CCoinControl := {
  destChange : CTxDestination; fSplitBlock : bool; nSplitBlock : Z; fAllowOtherInputs : bool; setSelected : list COutPoint
}.

Definition HasSelected (c : CCoinControl) : bool := negb (zlen (setSelected c) =? 0).
Definition IsSelected (c : CCoinControl) (hash : bytes) (n : Z) : bool :=
  bool_decide ({| op_hash := hash; op_n := n |} ∈ setSelected c).

Class wallet_env := {
  w_consensus : ConsensusParams;
  chain_height : Z;
  mapWallet : list CTransaction;
  CheckFinalTx : CTransaction -> bool;
  IsTrusted : CTransaction -> bool;
  GetBlocksToMaturity : CTransaction -> Z;
  GetDepthInMainChain : CTransaction -> bool -> Z;
  InMempool : CTransaction -> bool;
  IsFromMe : CTransaction -> bool;
  IsSpent : bytes -> Z -> bool;
  IsLockedCoin : bytes -> Z -> bool;
  IsMine : CTxOut -> Z;
  HasDelegator : CTxOut -> bool;
  SignSignature : CTransaction -> CTransaction -> nat -> option bytes;
  payTxFee : CFeeRate;
  minTxFee : CFeeRate;
  minRelayTxFee : CFeeRate;
  estimated_fee : CFeeRate;
  maxTxFee : Z;
  bSpendZeroConfChange : bool;
  fSendFreeTransactions : bool;
  free_priority : list coin -> CTransaction -> Z -> bool
}.

Class orders := {
  std_sort : list (Z * coin) -> list (Z * coin);
  set_order : list coin -> list coin
}.

(** What the standard promises: sorting and walking a set leave out nothing. *)
Class orders_laws {OR : orders} := {
  std_sort_perm : forall l, std_sort l ≡ₚ l;
  set_order_perm : forall l, set_order l ≡ₚ l
}.

Section Available.
Context {W : wallet_env}.

(** The test of one output in [AvailableCoins]; the coin and whether it can be spent. *)
Definition available_output (coinControl : option CCoinControl) (fCoinsSelected fIncludeDelegated fIncludeColdStaking : bool)
    (nCoinType : AvailableCoinsType) (fIncludeZeroValue : bool) (nWatchonlyConfig : Z) (pcoin : CTransaction) (nDepth i : Z) (o : CTxOut) : option COutput :=
  let wtxid := CTransaction_GetHash pcoin in
  let found := if decide (nCoinType = ONLY_10000) then nValue o =? 10 * COIN else true in
  if negb found then None
  else if bool_decide (nCoinType = STAKEABLE_COINS) && CTxOut_IsZerocoinMint o then None
  else if IsSpent wtxid i then None
  else
    let mine := IsMine o in
    if (mine =? ISMINE_NO) ||
       (((mine =? ISMINE_MULTISIG) || (mine =? ISMINE_SPENDABLE)) && (nWatchonlyConfig =? 2)) ||
       ((mine =? ISMINE_WATCH_ONLY) && (nWatchonlyConfig =? 1)) ||
       (IsLockedCoin wtxid i && negb (bool_decide (nCoinType = ONLY_10000))) ||
       ((nValue o <=? 0) && negb fIncludeZeroValue) ||
       (fCoinsSelected && match coinControl with Some c => negb (fAllowOtherInputs c) && negb (IsSelected c wtxid i) | None => false end)
    then None
    else if (mine =? ISMINE_COLD) && (negb fIncludeColdStaking || negb (HasDelegator o)) then None
    else if (mine =? ISMINE_SPENDABLE_DELEGATED) && negb fIncludeDelegated then None
    else if (mine =? ISMINE_SPENDABLE_STAKEABLE) && negb fIncludeColdStaking && negb fIncludeDelegated then None
    else
      let mask := Z.lor (Z.lor ISMINE_MULTISIG (if fIncludeColdStaking then ISMINE_COLD else ISMINE_NO))
                        (if fIncludeDelegated then ISMINE_SPENDABLE_DELEGATED else ISMINE_NO) in
      let fIsValid := negb (Z.land mine ISMINE_SPENDABLE =? ISMINE_NO) || negb (Z.land mine mask =? ISMINE_NO) in
      Some {| out_tx := pcoin; out_i := i; Wallet.nDepth := nDepth; fSpendable := fIsValid |}.

Definition available_in (coinControl : option CCoinControl) (fCoinsSelected fIncludeDelegated fIncludeColdStaking : bool)
    (nCoinType : AvailableCoinsType) (fOnlyConfirmed fIncludeZeroValue fUseIX : bool) (nWatchonlyConfig : Z) (pcoin : CTransaction) : list COutput :=
  if negb (CheckFinalTx pcoin) then []
  else if fOnlyConfirmed && negb (IsTrusted pcoin) then []
  else if 0 <? GetBlocksToMaturity pcoin then []
  else
    let nDepth := GetDepthInMainChain pcoin false in
    if fUseIX && (nDepth <? 6) then []
    else if (nDepth =? 0) && negb (InMempool pcoin) then []
    else if bool_decide (nCoinType = STAKEABLE_COINS) && (nDepth <=? nStakeMinDepth w_consensus) && (height_start_TimeProtoV2 w_consensus <? chain_height) then []
    else if bool_decide (nCoinType = STAKEABLE_COINS) && (nDepth <=? nCoinbaseMaturity w_consensus) && (chain_height <=? height_start_TimeProtoV2 w_consensus) then []
    else omap (fun x => available_output coinControl fCoinsSelected fIncludeDelegated fIncludeColdStaking nCoinType fIncludeZeroValue nWatchonlyConfig pcoin nDepth x.1 x.2)
              (zip (seqZ 0 (zlen (vout pcoin))) (vout pcoin)).

Definition AvailableCoins (coinControl : option CCoinControl) (fIncludeDelegated fIncludeColdStaking : bool)
    (nCoinType : AvailableCoinsType) (fOnlyConfirmed fIncludeZeroValue fUseIX : bool) (nWatchonlyConfig : Z) : list COutput :=
  let fCoinsSelected := match coinControl with Some c => HasSelected c | None => false end in
  let fIncludeDelegated := if negb fIncludeDelegated && fCoinsSelected then true else fIncludeDelegated in
  mapWallet ≫= available_in coinControl fCoinsSelected fIncludeDelegated fIncludeColdStaking nCoinType fOnlyConfirmed fIncludeZeroValue fUseIX nWatchonlyConfig.

End Available.

(** ** The choice of coins *)

(** The local variables of [ApproximateBestSubset]. *)
Record subset_state := { nTotal : Z; vfIncluded : list bool; fReachedTarget : bool; nBest : Z; vfBest : list bool }.

(** The body of the inner loop for the coin at [i]. *)
Definition subset_step (vValue : list (Z * coin)) (nTargetValue : Z) (first_pass : bool) (randbool : nat -> bool) (st : subset_state) (i : nat) : subset_state :=
  let v := (nth i vValue (0, (CTransaction_empty, 0))).1 in
  if (if first_pass then randbool i else negb (nth i (vfIncluded st) false)) then
    let total := nTotal st + v in
    let included := <[i := true]> (vfIncluded st) in
    if nTargetValue <=? total then
      let better := total <? nBest st in
      {| nTotal := total - v; vfIncluded := <[i := false]> included; fReachedTarget := true;
         nBest := if better then total else nBest st; vfBest := if better then included else vfBest st |}
    else {| nTotal := total; vfIncluded := included; fReachedTarget := fReachedTarget st; nBest := nBest st; vfBest := vfBest st |}
  else st.

Definition subset_pass (vValue : list (Z * coin)) (nTargetValue : Z) (first_pass : bool) (randbool : nat -> bool) (st : subset_state) : subset_state :=
  fold_left (subset_step vValue nTargetValue first_pass randbool) (seq 0 (length vValue)) st.

(** One repetition: two passes, the second only if the first did not reach the target. *)
Definition subset_rep (vValue : list (Z * coin)) (nTargetValue : Z) (randbool : nat -> bool) (best : Z * list bool) : Z * list bool :=
  let st := {| nTotal := 0; vfIncluded := replicate (length vValue) false; fReachedTarget := false; nBest := best.1; vfBest := best.2 |} in
  let st := subset_pass vValue nTargetValue true randbool st in
  let st := if fReachedTarget st then st else subset_pass vValue nTargetValue false randbool st in
  (nBest st, vfBest st).

Fixpoint subset_loop (todo : nat) (nRep : nat) (vValue : list (Z * coin)) (nTargetValue : Z) (randbool : nat -> nat -> bool) (best : Z * list bool) : Z * list bool :=
  match todo with
  | O => best
  | S todo =>
      if best.1 =? nTargetValue then best
      else subset_loop todo (S nRep) vValue nTargetValue randbool (subset_rep vValue nTargetValue (randbool nRep) best)
  end.

Definition ApproximateBestSubset (vValue : list (Z * coin)) (nTotalLower nTargetValue : Z) (randbool : nat -> nat -> bool) (iterations : nat) : Z * list bool :=
  subset_loop iterations 0 vValue nTargetValue randbool (nTotalLower, replicate (length vValue) true).

(** [std::random_shuffle] with the draws of [GetRandInt]. *)
Definition swap_at (l : list COutput) (i j : nat) : list COutput :=
  match l !! i, l !! j with Some a, Some b => <[i := b]> (<[j := a]> l) | _, _ => l end.
Definition random_shuffle (GetRandInt : Z -> Z) (l : list COutput) : list COutput :=
  fold_left (fun l i => swap_at l i (Z.to_nat (GetRandInt (Z.of_nat i + 1)))) (seq 1 (length l - 1)) l.

(** The draws of one call of [SelectCoinsMinConf]. *)
Record draws := { d_shuffle : Z -> Z; d_first : nat -> nat -> bool; d_second : nat -> nat -> bool }.

(** [setCoinsRet.insert] *)
Definition set_insert (c : coin) (s : list coin) : list coin := if decide (c ∈ s) then s else s ++ [c].
Definition insert_all (l : list (Z * coin)) : list coin := fold_left (fun s x => set_insert x.2 s) l [].
Definition total_of (l : list (Z * coin)) : Z := fold_left (fun a x => a + x.1) l 0.

(** The scan of the coins: an exact match, or the lower coins with their total and the
    smallest of the larger ones. *)
Inductive scan_result := exact_coin (c : Z * coin) | scanned (vValue : list (Z * coin)) (nTotalLower : Z) (coinLowestLarger : option (Z * coin)).

Definition MAX_INT64 : Z := 2 ^ 63 - 1.

Section Select.
Context {W : wallet_env} {OR : orders}.

Fixpoint scan_coins (nTargetValue nConfMine nConfTheirs : Z) (vCoins : list COutput) (vValue : list (Z * coin)) (nTotalLower : Z) (coinLowestLarger : option (Z * coin)) : scan_result :=
  match vCoins with
  | [] => scanned vValue nTotalLower coinLowestLarger
  | output :: vCoins =>
      let skip := scan_coins nTargetValue nConfMine nConfTheirs vCoins vValue nTotalLower coinLowestLarger in
      if negb (fSpendable output) then skip
      else if nDepth output <? (if IsFromMe (out_tx output) then nConfMine else nConfTheirs) then skip
      else
        let n := coin_value (out_coin output) in
        let c := (n, out_coin output) in
        if n =? nTargetValue then exact_coin c
        else if n <? nTargetValue + CENT then scan_coins nTargetValue nConfMine nConfTheirs vCoins (vValue ++ [c]) (nTotalLower + n) coinLowestLarger
        else if n <? match coinLowestLarger with Some l => l.1 | None => MAX_INT64 end
             then scan_coins nTargetValue nConfMine nConfTheirs vCoins vValue nTotalLower (Some c)
             else skip
  end.

(** The result, the set and its value. *)
Definition SelectCoinsMinConf (d : draws) (nTargetValue nConfMine nConfTheirs : Z) (vCoins : list COutput) : bool * list coin * Z :=
  match scan_coins nTargetValue nConfMine nConfTheirs (random_shuffle (d_shuffle d) vCoins) [] 0 None with
  | exact_coin c => (true, [c.2], c.1)
  | scanned vValue nTotalLower coinLowestLarger =>
      if nTotalLower =? nTargetValue then (true, insert_all vValue, total_of vValue)
      else if nTotalLower <? nTargetValue then
        match coinLowestLarger with None => (false, [], 0) | Some l => (true, [l.2], l.1) end
      else
        let vValue := std_sort vValue in
        let '(nBest, vfBest) := ApproximateBestSubset vValue nTotalLower nTargetValue (d_first d) 1000 in
        let '(nBest, vfBest) :=
          if negb (nBest =? nTargetValue) && (nTargetValue + CENT <=? nTotalLower)
          then ApproximateBestSubset vValue nTotalLower (nTargetValue + CENT) (d_second d) 1000 else (nBest, vfBest) in
        let best := omap (fun x => if x.2 : bool then Some x.1 else None) (zip vValue vfBest) in
        match coinLowestLarger with
        | Some l => if (negb (nBest =? nTargetValue) && (nBest <? nTargetValue + CENT)) || (l.1 <=? nBest) then (true, [l.2], l.1)
                    else (true, insert_all best, total_of best)
        | None => (true, insert_all best, total_of best)
        end
  end.

(** The three attempts, with fewer and fewer confirmations. *)
Definition select_confirmed (d : nat -> draws) (nTargetValue : Z) (vCoins : list COutput) : bool * list coin * Z :=
  match SelectCoinsMinConf (d 0%nat) nTargetValue 1 6 vCoins with
  | (true, s, v) => (true, s, v)
  | _ => match SelectCoinsMinConf (d 1%nat) nTargetValue 1 1 vCoins with
         | (true, s, v) => (true, s, v)
         | r => if bSpendZeroConfChange then SelectCoinsMinConf (d 2%nat) nTargetValue 0 1 vCoins else r
         end
  end.

Definition SelectCoinsToSpend (d : nat -> draws) (nTargetValue : Z) (coinControl : option CCoinControl) (coin_type : AvailableCoinsType)
    (useIX fIncludeColdStaking fIncludeDelegated : bool) : bool * list coin * Z :=
  let vCoins := AvailableCoins coinControl fIncludeDelegated fIncludeColdStaking coin_type true false useIX 1 in
  if match coinControl with Some c => HasSelected c | None => false end then
    let taken := (fun o => (coin_value (out_coin o), out_coin o)) <$> filter (fun o => fSpendable o = true) vCoins in
    (nTargetValue <=? total_of taken, insert_all taken, total_of taken)
  else select_confirmed d nTargetValue vCoins.

End Select.

(** ** Fees *)

Section Create.
Context {W : wallet_env} {OR : orders}.

Definition GetMinimumFee (nTxBytes : Z) : Z :=
  let nFeeNeeded := GetFee payTxFee nTxBytes in
  let nFeeNeeded := if nFeeNeeded =? 0 then GetFee estimated_fee nTxBytes else nFeeNeeded in
  let nFeeNeeded := if nFeeNeeded =? 0 then GetFee minTxFee nTxBytes else nFeeNeeded in
  let nFeeNeeded := if nFeeNeeded <? GetFee minRelayTxFee nTxBytes then GetFee minRelayTxFee nTxBytes else nFeeNeeded in
  if maxTxFee <? nFeeNeeded then maxTxFee else nFeeNeeded.

(** ** [CreateTransaction] *)

(** The parameters of a call that stay the same in its loop. *)
Record request := {
  vecSend : list (bytes * Z);
  coinControl : option CCoinControl;
  coin_type : AvailableCoinsType;
  useIX : bool;
  nFeePay : Z;
  fIncludeDelegated : bool;
  opReturn : bytes
}.

(** How a call or a round of its loop ends: with a transaction, the coins it spends and its
    fee; with a reason and the fee so far (0 before it is set); with a failed assertion; or
    with a larger fee to try. *)
Inductive outcome :=
| created (tx : CTransaction) (coins : list coin) (nFeeRet : Z)
| failed (strFailReason : string) (nFeeRet : Z)
| aborted
| retry (nFeeRet : Z).

Definition payee_script (r : request) (script : bytes) : bytes :=
  if 0 <? zlen (opReturn r) then push_data [OP_RETURN] (opReturn r) else script.

(** One payment in [n] parts; the last takes the remainder, a [uint64_t]. *)
Definition split_output (n : Z) (script : bytes) (amount : Z) : list CTxOut :=
  (fun i => CTxOut_new (if i =? n - 1 then s64 (Z.quot amount n + u64 (Z.rem amount n)) else Z.quot amount n) script) <$> seqZ 0 n.

(** The outputs to the payees; [None] is an amount that is too small. *)
Definition payee_outputs (r : request) : option (list CTxOut) :=
  match coinControl r with
  | Some c =>
      if negb (fSplitBlock c) then
        mapM (fun s => let txout := CTxOut_new s.2 (payee_script r s.1) in if IsDust txout minRelayTxFee then None else Some txout) (vecSend r)
      else Some (vecSend r ≫= fun s => split_output (nSplitBlock c) (payee_script r s.1) s.2)
  | None => Some (vecSend r ≫= fun s => split_output 1 (payee_script r s.1) s.2)
  end.

(** The change added to the first output that pays its script. *)
Fixpoint combine_change (scriptChange : bytes) (nChange : Z) (outs : list CTxOut) : option (list CTxOut) :=
  match outs with
  | [] => None
  | o :: outs =>
      if decide (scriptChange = scriptPubKey o)
      then Some ({| nValue := nValue o + nChange; scriptPubKey := scriptPubKey o; nRounds := nRounds o |} :: outs)
      else cons o <$> combine_change scriptChange nChange outs
  end.

(** The outputs and the fee once the change is dealt with; [None] is a failed assertion. *)
Definition add_change (r : request) (change_key : option bytes) (position : Z -> Z) (nChange nFeeRet : Z) (outs : list CTxOut) : option (list CTxOut * Z) :=
  if 0 <? nChange then
    let custom := match coinControl r with Some c => negb (bool_decide (destChange c = CNoDestination)) | None => false end in
    scriptChange ← (if custom then Some (GetScriptForDestination match coinControl r with Some c => destChange c | None => CNoDestination end)
                    else GetScriptForDestination ∘ PubKey_GetID <$> change_key);
    match (if custom then combine_change scriptChange nChange outs else None) with
    | Some outs => Some (outs, nFeeRet)
    | None =>
        let newTxOut := CTxOut_new nChange scriptChange in
        if IsDust newTxOut minRelayTxFee then Some (outs, nFeeRet + nChange)
        else let p := Z.to_nat (position (zlen outs + 1)) in Some (take p outs ++ newTxOut :: drop p outs, nFeeRet)
    end
  else Some (outs, nFeeRet).

Definition coin_input (c : coin) : CTxIn :=
  {| prevout := {| op_hash := CTransaction_GetHash c.1; op_n := c.2 |}; scriptSig := []; nSequence := MAX_UINT32 |}.

Definition set_scriptSig (tx : CTransaction) (nIn : nat) (sig : bytes) : CTransaction :=
  {| nVersion := nVersion tx; vin := alter (fun i => {| prevout := prevout i; scriptSig := sig; nSequence := nSequence i |}) nIn (vin tx);
     vout := vout tx; nLockTime := nLockTime tx |}.

Fixpoint sign_inputs (coins : list coin) (nIn : nat) (txNew : CTransaction) : option CTransaction :=
  match coins with
  | [] => Some txNew
  | c :: coins => sig ← SignSignature c.1 txNew nIn; sign_inputs coins (S nIn) (set_scriptSig txNew nIn sig)
  end.

Definition MAX_FREE_TRANSACTION_CREATE_SIZE : Z := 1000.
Definition MAX_STANDARD_TX_SIZE : Z := 100000.

Definition create_round (r : request) (nValue : Z) (d : nat -> draws) (change_key : option bytes) (position : Z -> Z) (nFeeRet : Z) : outcome :=
  let nTotalValue := nValue + nFeeRet in
  match payee_outputs r with
  | None => failed "Transaction amount too small" nFeeRet
  | Some outs =>
      let '(ok, setCoins, nValueIn) := SelectCoinsToSpend d nTotalValue (coinControl r) (coin_type r) (useIX r) false (fIncludeDelegated r) in
      if negb ok then
        failed (String.append (if decide (coin_type r = ALL_COINS) then "Insufficient funds." else "")
                  (if useIX r then " SwiftX requires inputs with at least 6 confirmations, you might need to wait a few minutes and try again." else "")) nFeeRet
      else if existsb (fun c => GetDepthInMainChain c.1 true <? 0) setCoins then aborted
      else match add_change r change_key position (nValueIn - nValue - nFeeRet) nFeeRet outs with
           | None => aborted
           | Some (outs, nFeeRet) =>
               let coins := set_order setCoins in
               match sign_inputs coins 0 {| nVersion := 1; vin := coin_input <$> coins; vout := outs; nLockTime := 0 |} with
               | None => failed "Signing transaction failed" nFeeRet
               | Some tx =>
                   let nBytes := zlen (Serialize_CTransaction tx) in
                   if MAX_STANDARD_TX_SIZE <=? nBytes then failed "Transaction too large" nFeeRet
                   else if fSendFreeTransactions && (nBytes <=? MAX_FREE_TRANSACTION_CREATE_SIZE) && free_priority setCoins tx nBytes then created tx coins nFeeRet
                   else
                     let nFeeNeeded := Z.max (nFeePay r) (GetMinimumFee nBytes) in
                     if nFeeNeeded <? GetFee minRelayTxFee nBytes then failed "Transaction too large for fee policy" nFeeRet
                     else if nFeeNeeded <=? nFeeRet then created tx coins nFeeRet
                     else retry nFeeNeeded
               end
           end
  end.

(** The sum of the payments; [None] if a sum before the last is negative, or there is no payment. *)
Fixpoint sum_sends (l : list (bytes * Z)) (nValue : Z) : option Z :=
  match l with
  | [] => if nValue <? 0 then None else Some nValue
  | s :: l => if nValue <? 0 then None else sum_sends l (nValue + s.2)
  end.

(** The loop; without fuel it ends in [retry]. *)
Fixpoint create_loop (fuel : nat) (r : request) (nValue : Z) (d : nat -> nat -> draws) (change_key : nat -> option bytes) (position : nat -> Z -> Z) (round : nat) (nFeeRet : Z) : outcome :=
  match fuel with
  | O => retry nFeeRet
  | S fuel =>
      match create_round r nValue (d round) (change_key round) (position round) nFeeRet with
      | retry nFeeRet => create_loop fuel r nValue d change_key position (S round) nFeeRet
      | o => o
      end
  end.

(** The fee to pay at least; a locked transaction pays a cent. *)
Definition fee_pay (r : request) : request :=
  {| vecSend := vecSend r; coinControl := coinControl r; coin_type := coin_type r; useIX := useIX r;
     nFeePay := if useIX r && (nFeePay r <? CENT) then CENT else nFeePay r; fIncludeDelegated := fIncludeDelegated r; opReturn := opReturn r |}.

Definition CreateTransaction (fuel : nat) (r : request) (d : nat -> nat -> draws) (change_key : nat -> option bytes) (position : nat -> Z -> Z) : outcome :=
  let r := fee_pay r in
  match (if zlen (vecSend r) =? 0 then None else sum_sends (vecSend r) 0) with
  | None => failed "Transaction amounts must be positive" 0
  | Some nValue => create_loop fuel r nValue d change_key position 0 (if 0 <? nFeePay r then nFeePay r else 0)
  end.

End Create.
