(* ===== verification/WalletFacts.v ===== *)
(** Theorems about the wallet: the choice of coins covers what is asked for whenever the
    coins do, and a created transaction spends distinct coins of the wallet, balances, pays
    enough and is found after finitely many rounds. *)

From Stdlib Require Import ZArith Lia.
From stdpp Require Import base tactics list numbers option strings sets sorting.
From S2P Require Import Prelude Amount Script Hash ChainParams Base58 Standard Serialize Transaction Wallet.

(** ** Sums of coins *)

Fixpoint zsum {A} (f : A -> Z) (l : list A) : Z := match l with [] => 0 | x :: l => f x + zsum f l end.

Lemma zsum_app {A} (f : A -> Z) l k : zsum f (l ++ k) = zsum f l + zsum f k.
Proof. induction l as [| x l IH]; cbn; [done | rewrite IH; lia]. Qed.

#[global] Instance zsum_perm {A} (f : A -> Z) : Proper ((≡ₚ) ==> eq) (zsum f).
Proof. intros l k E. induction E; cbn; lia. Qed.

Lemma zsum_fmap {A B} (f : B -> Z) (g : A -> B) l : zsum f (g <$> l) = zsum (fun x => f (g x)) l.
Proof. induction l as [| x l IH]; cbn; [done | by rewrite IH]. Qed.

Lemma zsum_ext {A} (f g : A -> Z) l : (forall x, x ∈ l -> f x = g x) -> zsum f l = zsum g l.
Proof. induction l as [| x l IH]; intros H; cbn; [done |]. rewrite H, IH by set_solver. done. Qed.

Lemma zsum_nonneg {A} (f : A -> Z) l : Forall (fun x => 0 <= f x) l -> 0 <= zsum f l.
Proof. induction 1; cbn; lia. Qed.

Lemma zsum_submseteq {A} (f : A -> Z) l k : l ⊆+ k -> Forall (fun x => 0 <= f x) k -> zsum f l <= zsum f k.
Proof. intros [r ->]%submseteq_Permutation [_ H]%Forall_app. rewrite zsum_app. apply zsum_nonneg in H. lia. Qed.

Lemma submseteq_NoDup {A} (l k : list A) : NoDup k -> l ⊆+ k -> NoDup l.
Proof. intros H [r E]%submseteq_Permutation. rewrite E in H. by apply NoDup_app in H as (? & _ & _). Qed.

Lemma fmap_of_bind {A B C} (f : B -> C) (g : A -> list B) l : f <$> (l ≫= g) = l ≫= fun x => f <$> g x.
Proof. induction l as [| x l IH]; cbn; [done |]. rewrite fmap_app. f_equal. exact IH. Qed.

Lemma total_of_zsum l : total_of l = zsum fst l.
Proof.
  unfold total_of. enough (H : forall a, fold_left (fun a x => a + x.1) l a = a + zsum fst l) by (rewrite H; lia).
  induction l as [| x l IH]; intros a; cbn; [lia | rewrite IH; lia].
Qed.

Lemma insert_all_NoDup l : NoDup l.*2 -> insert_all l = l.*2.
Proof.
  intros H. unfold insert_all. enough (G : forall s, NoDup (s ++ l.*2) -> fold_left (fun s x => set_insert x.2 s) l s = s ++ l.*2) by (by apply G).
  clear H. induction l as [| x l IH]; intros s; cbn [fold_left fmap list_fmap]; [by rewrite app_nil_r |]. intros H.
  assert (Hx : x.2 ∉ s) by (intros Hx; apply NoDup_app in H as (_ & H & _); by apply (H x.2 Hx); left).
  unfold set_insert. rewrite decide_False by done. rewrite IH; rewrite <- app_assoc; done.
Qed.

(** ** The search for a subset *)

(** The elements of a list that a mask selects. *)
Definition masked {A} (l : list A) (m : list bool) : list A := omap (fun x => if x.2 : bool then Some x.1 else None) (zip l m).

Lemma masked_sublist {A} (l : list A) m : sublist (masked l m) l.
Proof.
  revert m. induction l as [| x l IH]; intros [| [] m]; unfold masked; cbn; try constructor; try apply IH. apply sublist_nil_l.
Qed.

Lemma masked_all {A} (l : list A) : masked l (replicate (length l) true) = l.
Proof. induction l as [| x l IH]; unfold masked; cbn; [done |]. f_equal. apply IH. Qed.

Lemma masked_none {A} (l : list A) : masked l (replicate (length l) false) = [].
Proof. induction l as [| x l IH]; unfold masked; cbn; [done |]. apply IH. Qed.

Lemma masked_cons {A} (x : A) l b m : masked (x :: l) (b :: m) = if b then x :: masked l m else masked l m.
Proof. by destruct b. Qed.

Lemma masked_on {A} (f : A -> Z) (l : list A) m i x : l !! i = Some x -> m !! i = Some false ->
  zsum f (masked l (<[i := true]> m)) = zsum f (masked l m) + f x.
Proof.
  revert m i. induction l as [| y l IH]; intros [| b m] [| i]; try done.
  - intros [= ->] [= ->]. change (<[0%nat := true]> (false :: m)) with (true :: m). rewrite !masked_cons. cbn. lia.
  - intros Hl Hm. specialize (IH m i Hl Hm). change (<[S i := true]> (b :: m)) with (b :: <[i := true]> m). rewrite !masked_cons. destruct b; cbn [zsum]; lia.
Qed.

Lemma fold_seq_inv {A} (P : nat -> A -> Prop) (f : A -> nat -> A) n a : P 0%nat a -> (forall i a, (i < n)%nat -> P i a -> P (S i) (f a i)) ->
  P n (fold_left f (seq 0 n) a).
Proof.
  intros H0 HS. enough (G : forall k, (k <= n)%nat -> P k (fold_left f (seq 0 k) a)) by (by apply G).
  induction k as [| k IH]; intros Hk; [done |]. rewrite seq_S, fold_left_app. cbn. apply HS; [lia | apply IH; lia].
Qed.

Section Subset.
Context (vValue : list (Z * coin)) (nTargetValue : Z).
Notation n := (length vValue).

(** What the best subset so far satisfies. *)
Definition covers (best : Z * list bool) : Prop :=
  length best.2 = n /\ best.1 = zsum fst (masked vValue best.2) /\ nTargetValue <= best.1.

Definition subset_inv (first_pass : bool) (i : nat) (st : subset_state) : Prop :=
  length (vfIncluded st) = n /\ nTotal st = zsum fst (masked vValue (vfIncluded st)) /\ covers (nBest st, vfBest st) /\
  (first_pass = true -> forall j, (i <= j < n)%nat -> vfIncluded st !! j = Some false).

Lemma subset_step_inv first_pass randbool i st : (i < n)%nat -> subset_inv first_pass i st ->
  subset_inv first_pass (S i) (subset_step vValue nTargetValue first_pass randbool st i).
Proof.
  intros Hi (HL & HT & (HB1 & HB2 & HB3) & HF). unfold subset_step. cbn [fst snd] in *.
  destruct (lookup_lt_is_Some_2 vValue i Hi) as [x Hx]. rewrite (nth_lookup_Some _ _ _ _ Hx).
  destruct (if first_pass then _ else _) eqn:E; [| repeat split; try done; intros H j Hj; apply HF; [done | lia]].
  assert (Ei : vfIncluded st !! i = Some false).
  { destruct first_pass; [apply HF; [done | lia] |]. destruct (lookup_lt_is_Some_2 (vfIncluded st) i ltac:(lia)) as [b Hb]. rewrite (nth_lookup_Some _ _ _ _ Hb) in E. by destruct b. }
  pose proof (masked_on fst _ _ _ _ Hx Ei) as HM.
  assert (HF' : forall b, first_pass = true -> forall j, (S i <= j < n)%nat -> <[i := b]> (vfIncluded st) !! j = Some false)
    by (intros b H j Hj; rewrite list_lookup_insert_ne by lia; apply HF; [done | lia]).
  destruct (nTargetValue <=? _) eqn:Et; bprop.
  - rewrite list_insert_insert_eq, (list_insert_id _ _ _ Ei). repeat split; cbn [vfIncluded nTotal nBest vfBest fst snd]; try done; try lia.
    + destruct (_ <? _); [by rewrite length_insert | done].
    + destruct (_ <? _); [rewrite HM, HT; lia | done].
    + destruct (_ <? _); lia.
    + intros H j Hj. apply HF; [done | lia].
  - split; cbn [vfIncluded nTotal nBest vfBest]; [by rewrite length_insert |]. split; [rewrite HM, HT; lia |]. split; [done | by apply HF'].
Qed.

Lemma subset_rep_covers randbool best : covers best -> covers (subset_rep vValue nTargetValue randbool best).
Proof.
  intros HC. unfold subset_rep, subset_pass. set (st0 := {| nTotal := 0 |}).
  assert (H1 : subset_inv true n (fold_left (subset_step vValue nTargetValue true randbool) (seq 0 n) st0)).
  { apply fold_seq_inv; [| intros i a Hi Ha; by apply subset_step_inv]. unfold st0, subset_inv. cbn. rewrite length_replicate, masked_none.
    split; [done |]. split; [done |]. split; [by destruct best |]. intros _ j Hj. apply lookup_replicate_2. lia. }
  set (st1 := fold_left _ _ _) in *. destruct (fReachedTarget st1); [by destruct H1 as (_ & _ & ? & _) |].
  assert (H2 : subset_inv false n (fold_left (subset_step vValue nTargetValue false randbool) (seq 0 n) st1)).
  { apply fold_seq_inv; [| intros i a Hi Ha; by apply subset_step_inv]. destruct H1 as (? & ? & ? & _). done. }
  by destruct H2 as (_ & _ & ? & _).
Qed.

Lemma ApproximateBestSubset_covers nTotalLower randbool iterations : nTotalLower = zsum fst vValue -> nTargetValue <= nTotalLower ->
  covers (ApproximateBestSubset vValue nTotalLower nTargetValue randbool iterations).
Proof.
  intros HT Hle. unfold ApproximateBestSubset. assert (HC : covers (nTotalLower, replicate n true)).
  { unfold covers. cbn. rewrite length_replicate, masked_all. done. }
  revert HC. generalize (nTotalLower, replicate n true) as best. generalize 0%nat as rep.
  induction iterations as [| it IH]; intros rep best HC; cbn [subset_loop]; [done |]. destruct (_ =? _); [done |]. apply IH. by apply subset_rep_covers.
Qed.

End Subset.

(** ** The choice of coins *)

Lemma swap_at_perm l i j : swap_at l i j ≡ₚ l.
Proof.
  unfold swap_at. destruct (l !! i) as [a |] eqn:Ei; [| done]. destruct (l !! j) as [b |] eqn:Ej; [| done].
  destruct (decide (i = j)) as [-> | Hne]; [rewrite Ei in Ej; injection Ej as ->; by rewrite list_insert_insert_eq, list_insert_id |].
  rewrite list_insert_insert_ne by done. by apply Permutation_insert_swap.
Qed.

Lemma random_shuffle_perm GetRandInt l : random_shuffle GetRandInt l ≡ₚ l.
Proof.
  unfold random_shuffle. generalize (seq 1 (length l - 1)) as ks. intros ks. revert l. induction ks as [| i ks IH]; intros l; cbn; [done |].
  rewrite IH. apply swap_at_perm.
Qed.

Section Selection.
Context {W : wallet_env} {OR : orders} {OL : orders_laws}.

(** The coins that count for given numbers of confirmations, with their values. *)
Definition valued (o : COutput) : Z * coin := (coin_value (out_coin o), out_coin o).
Definition eligible (nConfMine nConfTheirs : Z) (o : COutput) : Prop :=
  fSpendable o = true /\ (if IsFromMe (out_tx o) then nConfMine else nConfTheirs) <= nDepth o.
#[local] Instance eligible_dec a b o : Decision (eligible a b o).
Proof. unfold eligible. apply _. Defined.
Definition eligible_coins (nConfMine nConfTheirs : Z) (vCoins : list COutput) : list (Z * coin) :=
  valued <$> filter (eligible nConfMine nConfTheirs) vCoins.

Lemma eligible_coins_cons a b o l : eligible_coins a b (o :: l) =
  if negb (fSpendable o) then eligible_coins a b l
  else if nDepth o <? (if IsFromMe (out_tx o) then a else b) then eligible_coins a b l else valued o :: eligible_coins a b l.
Proof.
  unfold eligible_coins. rewrite filter_cons. destruct (decide (eligible a b o)) as [[-> H] | H].
  - cbn [negb]. by rewrite (proj2 (Z.ltb_ge _ _)) by done.
  - destruct (fSpendable o) eqn:E; cbn [negb]; [| done]. destruct (_ <? _) eqn:E2; [done |]. bprop. by destruct H.
Qed.

(** What the scan of the coins finds. *)
Lemma scan_coins_spec target a b vCoins v0 t0 l0 : Forall (fun x => x.1 < MAX_INT64) (eligible_coins a b vCoins) ->
  match scan_coins target a b vCoins v0 t0 l0 with
  | exact_coin c => c ∈ eligible_coins a b vCoins /\ c.1 = target
  | scanned v t l =>
      let lower := filter (fun x => x.1 < target + CENT) (eligible_coins a b vCoins) in
      v = v0 ++ lower /\ t = t0 + zsum fst lower /\
      match l with
      | Some c => (c ∈ eligible_coins a b vCoins /\ target + CENT <= c.1) \/ l0 = Some c
      | None => l0 = None /\ lower = eligible_coins a b vCoins
      end
  end.
Proof.
  revert v0 t0 l0. induction vCoins as [| o vCoins IH]; intros v0 t0 l0 HM; cbn [scan_coins].
  - cbn. rewrite app_nil_r. split; [done |]. split; [lia |]. destruct l0; auto.
  - rewrite eligible_coins_cons in *. destruct (negb (fSpendable o)); [by apply IH |]. destruct (nDepth o <? _); [by apply IH |].
    apply Forall_cons in HM as [HM1 HM]. set (n := coin_value (out_coin o)). change (valued o) with (n, out_coin o) in *. rewrite filter_cons. cbn [fst] in *.
    destruct (n =? target) eqn:E1; bprop; [cbn [fst]; split; [by left | done] |].
    destruct (n <? target + CENT) eqn:E2; bprop.
    + rewrite !decide_True by done. specialize (IH (v0 ++ [(n, out_coin o)]) (t0 + n) l0 HM). destruct (scan_coins _ _ _ _ _ _ _) as [c | v t l].
      * destruct IH as [? ?]. split; [by right | done].
      * cbn zeta in *. destruct IH as (-> & -> & IH). rewrite <- app_assoc. cbn [zsum fst]. split; [done |]. split; [lia |]. destruct l; [| destruct IH as [-> ->]; done].
        destruct IH as [[? ?] |]; [left; split; [by right | done] | by right].
    + rewrite !decide_False by lia. destruct (n <? match l0 with Some l => l.1 | None => MAX_INT64 end) eqn:E3; bprop.
      * specialize (IH v0 t0 (Some (n, out_coin o)) HM). destruct (scan_coins _ _ _ _ _ _ _) as [c | v t l].
        -- destruct IH as [? ?]. split; [by right | done].
        -- cbn zeta in *. destruct IH as (-> & -> & IH). split; [done |]. split; [done |]. destruct l; [| by destruct IH as [? _]].
           destruct IH as [[? ?] | [= <-]]; left; [split; [by right | done] | split; [by left | done]].
      * specialize (IH v0 t0 l0 HM). destruct (scan_coins _ _ _ _ _ _ _) as [c | v t l].
        -- destruct IH as [? ?]. split; [by right | done].
        -- cbn zeta in *. destruct IH as (-> & -> & IH). split; [done |]. split; [done |]. destruct l; [destruct IH as [[? ?] |]; [left; split; [by right | done] | by right] |].
           destruct IH as [-> _]. cbn in E3. lia.
Qed.

(** A selection: some of the coins of a list, each once, worth the target. *)
Definition selects (E : list (Z * coin)) (target : Z) (s : list coin) (v : Z) : Prop :=
  exists sub, sub ⊆+ E /\ s = sub.*2 /\ v = zsum fst sub /\ target <= v.

Lemma selects_all E sub target : NoDup E.*2 -> sub ⊆+ E -> target <= zsum fst sub -> selects E target (insert_all sub) (total_of sub).
Proof.
  intros HN HS Ht. exists sub. rewrite total_of_zsum, insert_all_NoDup; [done |]. apply (submseteq_NoDup _ E.*2); [done |]. by apply fmap_submseteq.
Qed.

Lemma selects_one E target c : c ∈ E -> target <= c.1 -> selects E target [c.2] c.1.
Proof. intros Hc Ht. exists [c]. split; [by apply singleton_submseteq_l |]. cbn. split; [done |]. split; [lia | done]. Qed.

Lemma selects_perm E E' target s v : E ≡ₚ E' -> selects E target s v -> selects E' target s v.
Proof. intros HP (sub & HS & ?). exists sub. rewrite <- HP. done. Qed.

Lemma SelectCoinsMinConf_selects d target a b vCoins : NoDup (out_coin <$> vCoins) -> Forall (fun x => x.1 < MAX_INT64) (eligible_coins a b vCoins) ->
  match SelectCoinsMinConf d target a b vCoins with
  | (true, s, v) => selects (eligible_coins a b vCoins) target s v
  | (false, _, _) => zsum fst (eligible_coins a b vCoins) < target
  end.
Proof.
  intros HN HM. pose proof (random_shuffle_perm (d_shuffle d) vCoins) as HP. unfold SelectCoinsMinConf. set (sh := random_shuffle _ _) in *.
  assert (HE : eligible_coins a b sh ≡ₚ eligible_coins a b vCoins) by (unfold eligible_coins; by rewrite HP).
  rewrite <- HE in HM. pose proof (scan_coins_spec target a b sh [] 0 None HM) as HS.
  assert (HD : NoDup (eligible_coins a b sh).*2).
  { unfold eligible_coins. rewrite <- list_fmap_compose. change (snd ∘ valued) with out_coin. rewrite HP. apply (submseteq_NoDup _ _ HN).
    apply fmap_submseteq, sublist_submseteq, sublist_filter. }
  destruct (scan_coins _ _ _ _ _ _ _) as [c | v t l].
  { destruct HS as [Hc Ht]. apply (selects_perm _ _ _ _ _ HE). apply selects_one; [done | lia]. }
  cbn zeta in HS. rewrite app_nil_l in HS. set (lower := filter _ _) in *. destruct HS as (-> & Et & HL).
  assert (HLow : lower ⊆+ eligible_coins a b sh) by (apply sublist_submseteq, sublist_filter).
  assert (Large : forall c, l = Some c -> selects (eligible_coins a b vCoins) target [c.2] c.1).
  { intros c ->. destruct HL as [[Hc Hge] |]; [| done]. apply (selects_perm _ _ _ _ _ HE), selects_one; [done | unfold CENT in *; lia]. }
  destruct (t =? target) eqn:E1; bprop; [apply (selects_perm _ _ _ _ _ HE), selects_all; [done | done | lia] |].
  destruct (t <? target) eqn:E2; bprop.
  { destruct l as [c |]; [by apply Large |]. destruct HL as [_ HL]. rewrite <- HE, <- HL. lia. }
  assert (HB : forall m, masked (std_sort lower) m ⊆+ eligible_coins a b sh).
  { intros m. transitivity (std_sort lower); [apply sublist_submseteq, masked_sublist |]. by rewrite std_sort_perm. }
  assert (HSum : t = zsum fst (std_sort lower)) by (rewrite std_sort_perm; lia).
  pose proof (ApproximateBestSubset_covers (std_sort lower) target t (d_first d) 1000 HSum ltac:(lia)) as C1.
  destruct (ApproximateBestSubset (std_sort lower) t target (d_first d) 1000) as [n1 m1].
  set (second := negb _ && _).
  assert (C2 : covers (std_sort lower) target (if second then ApproximateBestSubset (std_sort lower) t (target + CENT) (d_second d) 1000 else (n1, m1))).
  { destruct second eqn:E3; [| done]. unfold second in E3. apply andb_true_iff in E3 as [_ E3]. bprop.
    destruct (ApproximateBestSubset_covers (std_sort lower) (target + CENT) t (d_second d) 1000 HSum ltac:(lia)) as (? & ? & ?). repeat split; try done. unfold CENT in *. lia. }
  destruct (if second then _ else _) as [nb mb]. destruct C2 as (_ & C2 & C3). cbn [fst snd] in *. fold (masked (std_sort lower) mb).
  assert (Best : selects (eligible_coins a b vCoins) target (insert_all (masked (std_sort lower) mb)) (total_of (masked (std_sort lower) mb)))
    by (apply (selects_perm _ _ _ _ _ HE), selects_all; [done | apply HB | lia]).
  destruct l as [c |]; [| exact Best]. destruct (_ || _); [by apply Large | exact Best].
Qed.

(** What a selection from given outputs is, in terms of the set of coins. *)
Lemma selects_spec (outs : list COutput) target s v : NoDup (out_coin <$> outs) -> selects (valued <$> outs) target s v ->
  NoDup s /\ (forall c, c ∈ s -> exists o, o ∈ outs /\ c = out_coin o) /\ v = zsum coin_value s /\ target <= v.
Proof.
  intros HN (sub & HS & -> & -> & Ht). assert (HN' : NoDup (valued <$> outs).*2) by (by rewrite <- list_fmap_compose).
  split; [apply (submseteq_NoDup _ _ HN'); by apply fmap_submseteq |]. split; [| split; [| done]].
  - intros c (x & -> & Hx)%list_elem_of_fmap. apply (elem_of_submseteq _ _ _ Hx) in HS. apply list_elem_of_fmap in HS as (o & -> & Ho). eauto.
  - rewrite zsum_fmap. apply zsum_ext. intros x Hx. apply (elem_of_submseteq _ _ _ Hx) in HS. by apply list_elem_of_fmap in HS as (o & -> & Ho).
Qed.

(** C18: Choosing coins succeeds exactly when the coins that are spendable and confirmed
    enough are worth the target, whatever the random draws; what is chosen are distinct
    such coins, and their reported value is their sum and reaches the target. *)
Theorem SelectCoinsMinConf_covers (d : draws) (nTargetValue nConfMine nConfTheirs : Z) (vCoins : list COutput) :
  NoDup (out_coin <$> vCoins) -> Forall (fun o => 0 <= coin_value (out_coin o) < MAX_INT64) vCoins ->
  let '(ok, setCoinsRet, nValueRet) := SelectCoinsMinConf d nTargetValue nConfMine nConfTheirs vCoins in
  (ok = true <-> nTargetValue <= zsum fst (eligible_coins nConfMine nConfTheirs vCoins)) /\
  (ok = true -> NoDup setCoinsRet /\ (forall c, c ∈ setCoinsRet -> exists o, o ∈ vCoins /\ eligible nConfMine nConfTheirs o /\ c = out_coin o) /\
     nValueRet = zsum coin_value setCoinsRet /\ nTargetValue <= nValueRet).
Proof.
  intros HN HV. assert (HE : Forall (fun x => 0 <= x.1 < MAX_INT64) (eligible_coins nConfMine nConfTheirs vCoins)).
  { apply Forall_fmap, Forall_forall. intros o [_ Ho]%list_elem_of_filter. rewrite Forall_forall in HV. by apply HV. }
  pose proof (SelectCoinsMinConf_selects d nTargetValue nConfMine nConfTheirs vCoins HN ltac:(eapply Forall_impl; [exact HE | naive_solver])) as HS.
  destruct (SelectCoinsMinConf _ _ _ _ _) as [[[] s] v]; [| split; [split; [done | lia] | done]]. split.
  - split; [intros _ | done]. destruct HS as (sub & HS & _ & -> & Ht). apply (zsum_submseteq fst) in HS; [lia |]. eapply Forall_impl; [exact HE |]. cbn. lia.
  - intros _. assert (HN' : NoDup (out_coin <$> filter (eligible nConfMine nConfTheirs) vCoins)) by (eapply submseteq_NoDup; [exact HN | apply fmap_submseteq, sublist_submseteq, sublist_filter]).
    destruct (selects_spec _ _ _ _ HN' HS) as (? & Hin & ? & ?). split; [done |]. split; [| done]. intros c Hc. destruct (Hin c Hc) as (o & Ho & ->). apply list_elem_of_filter in Ho as [? ?]. eauto.
Qed.

(** ** The coins of the wallet *)

Lemma omap_index {B} (g : Z * CTxOut -> option B) (i : B -> Z) l : (forall x o, g x = Some o -> i o = x.1) -> sublist (i <$> omap g l) l.*1.
Proof. intros H. induction l as [| x l IH]; cbn; [done |]. destruct (g x) as [o |] eqn:E; cbn; [rewrite (H _ _ E) |]; by constructor. Qed.

Lemma available_output_Some cc sel del cold ty zero watch pcoin depth i o out : available_output cc sel del cold ty zero watch pcoin depth i o = Some out ->
  out_tx out = pcoin /\ out_i out = i /\ IsSpent (CTransaction_GetHash pcoin) i = false /\ (zero = false -> 0 < nValue o).
Proof.
  unfold available_output. cbn zeta. destruct (negb _); [done |]. destruct (bool_decide _ && _); [done |]. destruct (IsSpent _ _) eqn:ES; [done |].
  match goal with |- (if ?c then _ else _) = _ -> _ => destruct c eqn:E end; [done |]. do 3 (match goal with |- (if ?c then _ else _) = _ -> _ => destruct c end; [done |]). intros [= <-].
  split; [done |]. split; [done |]. split; [done |]. intros ->. apply orb_false_iff in E as [E _]. apply orb_false_iff in E as [_ E]. cbn in E. rewrite andb_true_r in E. bprop. lia.
Qed.

(** The available coins are different unspent outputs of transactions of the wallet, and
    none of them is empty unless asked for. *)
Lemma AvailableCoins_coins cc del cold ty conf zero ix watch : NoDup mapWallet ->
  NoDup (out_coin <$> AvailableCoins cc del cold ty conf zero ix watch) /\
  forall o, o ∈ AvailableCoins cc del cold ty conf zero ix watch -> out_tx o ∈ mapWallet /\ coin_out (out_coin o) ∈ vout (out_tx o) /\ IsSpent (CTransaction_GetHash (out_tx o)) (out_i o) = false /\ (zero = false -> 0 < coin_value (out_coin o)).
Proof.
  intros HN. unfold AvailableCoins. set (f := available_in _ _ _ _ _ _ _ _ _). set (del' := if _ : bool then true else del) in f.
  assert (HF : forall t o, o ∈ f t -> out_tx o = t /\ coin_out (out_coin o) ∈ vout t /\ IsSpent (CTransaction_GetHash t) (out_i o) = false /\ (zero = false -> 0 < coin_value (out_coin o))).
  { intros t o Ho. unfold f, available_in in Ho. repeat (case_match; [by apply not_elem_of_nil in Ho |]). apply list_elem_of_omap in Ho as ([i x] & Hx & Ho).
    apply available_output_Some in Ho as (Et & Ei & Hs & Hv). apply list_elem_of_lookup in Hx as [k Hx]. apply lookup_zip_Some in Hx as [Hi Hx]. apply lookup_seqZ in Hi as [Hi _]. cbn [fst snd] in *.
    assert (Eo : coin_out (out_coin o) = x) by (unfold coin_out, out_coin; cbn [fst snd]; rewrite Et, Ei; subst i; rewrite Z.add_0_l, Nat2Z.id; by apply nth_lookup_Some).
    split; [done |]. unfold coin_value. rewrite Eo. split; [by eapply list_elem_of_lookup_2 |]. split; [by rewrite Ei | done]. }
  split.
  - rewrite fmap_of_bind. apply NoDup_bind; [| | done].
    + intros t1 t2 c _ _ (o1 & -> & H1)%list_elem_of_fmap (o2 & E & H2)%list_elem_of_fmap. apply HF in H1 as [<- _], H2 as [<- _]. by injection E.
    + intros t _. cbn. apply (NoDup_fmap_1 snd). rewrite <- list_fmap_compose. change (snd ∘ out_coin) with out_i.
      unfold f, available_in. repeat (case_match; [apply NoDup_nil_2 |]). eapply sublist_NoDup; [| apply omap_index; intros x o H'; by apply available_output_Some in H' as (_ & ? & _)].
      rewrite fst_zip by (rewrite length_seqZ; unfold zlen; lia). apply NoDup_seqZ.
  - intros o (t & Ho & Ht)%list_elem_of_bind. destruct (HF t o Ho) as (<- & ? & ? & ?). done.
Qed.

End Selection.

(** ** Creating a transaction *)

Lemma zsum_const {A} (f : A -> Z) c l : Forall (fun x => f x = c) l -> zsum f l = c * zlen l.
Proof. unfold zlen. induction 1 as [| x l H _ IH]; cbn [zsum length]; [lia |]. rewrite H, IH. lia. Qed.

(** The parts of a payment add up to it. *)
Lemma split_output_sum n script amount : 1 <= n -> 0 <= amount < 2 ^ 63 -> zsum nValue (split_output n script amount) = amount.
Proof.
  intros Hn Ha. unfold split_output. rewrite zsum_fmap. pose proof (Z.quot_rem' amount n) as D. pose proof (Z.rem_bound_pos amount n ltac:(lia) ltac:(lia)) as B.
  assert (0 <= Z.quot amount n) by (apply Z.quot_pos; lia). assert (Z.quot amount n <= amount) by nia.
  assert (ES : seqZ 0 n = seqZ 0 (n - 1) ++ [n - 1]).
  { replace (seqZ 0 n) with (seqZ 0 ((n - 1) + 1)) by (f_equal; lia). rewrite seqZ_app by lia. done. }
  rewrite ES, zsum_app, (zsum_const _ (Z.quot amount n)).
  - unfold zlen. rewrite length_seqZ, Z2Nat.id by lia. cbn [zsum nValue CTxOut_new]. rewrite Z.eqb_refl, u64_id, s64_id by nia. lia.
  - apply Forall_forall. intros x Hx%elem_of_seqZ. cbn. by rewrite (proj2 (Z.eqb_neq x (n - 1))) by lia.
Qed.

Section Creation.
Context {W : wallet_env} {OR : orders} {OL : orders_laws}.

(** A request that makes sense: amounts of 64 bits, at least one part per payment. *)
Definition request_ok (r : request) : Prop :=
  Forall (fun s => 0 <= s.2 < 2 ^ 63) (vecSend r) /\ match coinControl r with Some c => 1 <= nSplitBlock c | None => True end.

Lemma payee_outputs_sum r outs : request_ok r -> payee_outputs r = Some outs -> zsum nValue outs = zsum snd (vecSend r).
Proof.
  intros [HA HC]. unfold payee_outputs.
  assert (HS : forall n, 1 <= n -> zsum nValue (vecSend r ≫= fun s => split_output n (payee_script r s.1) s.2) = zsum snd (vecSend r)).
  { intros n Hn. induction HA as [| s l Hs _ IH]; [done |]. cbn [mbind list_bind zsum]. rewrite zsum_app, split_output_sum by done. f_equal. exact IH. }
  intros E. destruct (coinControl r) as [c |]; [| injection E as <-; apply HS; lia]. destruct (negb _); [| injection E as <-; by apply HS].
  clear HS HA. revert outs E. induction (vecSend r) as [| s l IH]; intros outs E; cbn in E; [by injection E as <- |].
  destruct (IsDust _ _); [done |]. cbn in E. destruct (mapM _ l) as [outs' |]; [| done]. cbn in E. injection E as <-. cbn. by rewrite (IH outs').
Qed.

Lemma combine_change_sum script c outs outs' : combine_change script c outs = Some outs' -> zsum nValue outs' = zsum nValue outs + c.
Proof.
  revert outs'. induction outs as [| o outs IH]; intros outs'; cbn [combine_change]; [done |]. destruct (decide _); [intros [= <-]; cbn; lia |].
  destruct (combine_change script c outs) as [l |]; [| done]. cbn. intros [= <-]. cbn. rewrite (IH l) by done. lia.
Qed.

Lemma add_change_sum r key pos nChange fee outs outs' fee' : 0 <= nChange -> add_change r key pos nChange fee outs = Some (outs', fee') ->
  zsum nValue outs' + fee' = zsum nValue outs + fee + nChange /\ fee <= fee'.
Proof.
  intros H0. unfold add_change. destruct (0 <? nChange) eqn:E; bprop; [| intros [= <- <-]; lia].
  match goal with |- (?s ≫= _) = _ -> _ => destruct s as [script |] end; [| done]. cbn [mbind option_bind].
  destruct (if _ : bool then combine_change _ _ _ else None) as [o |] eqn:EC.
  - intros [= <- <-]. destruct (match coinControl r with Some c => _ | None => _ end); [| done]. apply combine_change_sum in EC. lia.
  - destruct (IsDust _ _); intros [= <- <-]; [lia |]. rewrite zsum_app. cbn [zsum nValue CTxOut_new].
    pose proof (zsum_app nValue (take (Z.to_nat (pos (zlen outs + 1))) outs) (drop (Z.to_nat (pos (zlen outs + 1))) outs)) as HT. rewrite take_drop in HT. lia.
Qed.

(** The script that a payment goes to: the one asked for, unless data is to be carried. *)
Definition asked_script (r : request) (script : bytes) : bytes :=
  match opReturn r with [] => script | data => push_data [OP_RETURN] data end.

(** In how many parts each payment is made. *)
Definition asked_parts (r : request) : Z :=
  match coinControl r with Some c => if fSplitBlock c then nSplitBlock c else 1 | None => 1 end.

(** The outputs [outs] pay [amount] to [script] in [n] parts, all but the last of the same
    size. *)
Definition paid_in_parts (n : Z) (script : bytes) (amount : Z) (outs : list CTxOut) : Prop :=
  zlen outs = n /\ zsum nValue outs = amount /\
  forall i o, outs !! i = Some o -> o = CTxOut_new (nValue o) script /\ (Z.of_nat i < n - 1 -> nValue o = Z.quot amount n).

(** The outputs [outs] are the payments asked for, in order; unless they are split, with
    coin control, none of them is dust. *)
Definition payments (r : request) (outs : list CTxOut) : Prop :=
  (exists parts, outs = concat parts /\
     Forall2 (fun s part => paid_in_parts (asked_parts r) (asked_script r s.1) s.2 part) (vecSend r) parts) /\
  forall c, coinControl r = Some c -> fSplitBlock c = false -> Forall (fun o => IsDust o minRelayTxFee = false) outs.

(** The destination for change, if the request has one. *)
Definition asked_change (r : request) : option CTxDestination :=
  c ← coinControl r; if decide (destChange c = CNoDestination) then None else Some (destChange c).

(** The outputs [outs'] are the payments and, of a change [c], nothing, one output at any
    place that is not dust, to the change destination asked for or else to a key drawn from
    the key pool ([keys]), or an increase of the first payment to that destination. *)
Definition pays (keys : nat -> option bytes) (r : request) (outs' : list CTxOut) : Prop :=
  exists outs, payments r outs /\
    (outs' = outs \/
     (exists l1 l2 c script, outs = l1 ++ l2 /\ outs' = l1 ++ CTxOut_new c script :: l2 /\ 0 < c /\ IsDust (CTxOut_new c script) minRelayTxFee = false /\
        match asked_change r with
        | Some dest => script = GetScriptForDestination dest
        | None => exists n key, keys n = Some key /\ script = GetScriptForDestination (PubKey_GetID key)
        end) \/
     (exists l1 o l2 c dest, asked_change r = Some dest /\ outs = l1 ++ o :: l2 /\ scriptPubKey o = GetScriptForDestination dest /\
        Forall (fun o' => scriptPubKey o' <> GetScriptForDestination dest) l1 /\ 0 < c /\
        outs' = l1 ++ {| nValue := nValue o + c; scriptPubKey := scriptPubKey o; nRounds := nRounds o |} :: l2)).

Lemma payee_script_asked r script : payee_script r script = asked_script r script.
Proof. unfold payee_script, asked_script. destruct (opReturn r) as [| x l] eqn:E; [done |]. rewrite (proj2 (Z.ltb_lt _ _)); [done |]. rewrite zlen_cons. pose proof (zlen_nonneg l). lia. Qed.

Lemma split_output_paid n script amount : 1 <= n -> 0 <= amount < 2 ^ 63 -> paid_in_parts n script amount (split_output n script amount).
Proof.
  intros Hn Ha. split; [unfold zlen, split_output; rewrite length_fmap, length_seqZ; lia |]. split; [by apply split_output_sum |].
  intros i o Ho. apply list_lookup_fmap_Some in Ho as (k & -> & Hk). apply lookup_seqZ in Hk as [-> Hk]. split; [done |]. intros Hi. cbn.
  by rewrite (proj2 (Z.eqb_neq _ _)) by lia.
Qed.

Lemma payee_outputs_payments r outs : request_ok r -> payee_outputs r = Some outs -> payments r outs.
Proof.
  intros [HA HC] E. unfold payee_outputs in E. unfold payments, asked_parts.
  assert (HS : forall n, 1 <= n -> exists parts, (vecSend r ≫= fun s => split_output n (payee_script r s.1) s.2) = concat parts /\
    Forall2 (fun s part => paid_in_parts n (asked_script r s.1) s.2 part) (vecSend r) parts).
  { intros n Hn. exists ((fun s => split_output n (payee_script r s.1) s.2) <$> vecSend r). split; [by rewrite <- flat_map_concat_map |].
    apply Forall2_fmap_r, Forall_Forall2_diag. eapply Forall_impl; [exact HA |]. intros s Hs. cbn. rewrite payee_script_asked. by apply split_output_paid. }
  destruct (coinControl r) as [c |]; [| injection E as <-; split; [apply HS; lia | done]].
  destruct (fSplitBlock c) eqn:Ef; cbn [negb] in E; [injection E as <-; split; [by apply HS | intros ? [= <-]; congruence] |]. clear HS.
  assert (HP : Forall2 (fun s o => o = CTxOut_new s.2 (payee_script r s.1) /\ IsDust o minRelayTxFee = false) (vecSend r) outs).
  { apply mapM_Some in E. eapply Forall2_impl; [exact E |]. intros s o Hs. cbn beta zeta in Hs. destruct (IsDust _ _) eqn:Ed; [done |]. by injection Hs as <-. }
  split; [| intros _ _ _; eapply Forall2_Forall_r; [exact HP |]; apply Forall_true; by intros ? ? [_ ?]].
  exists ((fun o => [o]) <$> outs). split; [clear; induction outs as [| o l IH]; cbn; congruence |]. apply Forall2_fmap_r. eapply Forall2_impl; [exact HP |].
  intros s o [-> _]. rewrite payee_script_asked. split; [done |]. split; [cbn; lia |]. intros [| i] o Ho; [injection Ho as <- | done]. split; [done |]. cbn. lia.
Qed.

Lemma combine_change_at script c outs outs' : combine_change script c outs = Some outs' -> exists l1 o l2,
  outs = l1 ++ o :: l2 /\ scriptPubKey o = script /\ Forall (fun o' => scriptPubKey o' <> script) l1 /\
  outs' = l1 ++ {| nValue := nValue o + c; scriptPubKey := scriptPubKey o; nRounds := nRounds o |} :: l2.
Proof.
  revert outs'. induction outs as [| o outs IH]; intros outs'; cbn [combine_change]; [done |]. destruct (decide _) as [Hs | Hs].
  - intros [= <-]. exists [], o, outs. split_and!; [done | done | constructor | done].
  - destruct (combine_change script c outs) as [l |]; [| done]. cbn. intros [= <-]. destruct (IH l eq_refl) as (l1 & o' & l2 & -> & Ho & Hl & ->).
    exists (o :: l1), o', l2. split_and!; [done | done | constructor; [intros Hq; by symmetry in Hq | done] | done].
Qed.

Lemma add_change_pays r keys n pos nChange fee outs outs' fee' : request_ok r -> payee_outputs r = Some outs ->
  add_change r (keys n) pos nChange fee outs = Some (outs', fee') -> pays keys r outs'.
Proof.
  intros HR EP E. exists outs. split; [by apply payee_outputs_payments |]. revert E. unfold add_change. destruct (0 <? nChange) eqn:E; bprop; [| intros [= <- _]; by left].
  assert (Hput : forall script, match asked_change r with Some dest => script = GetScriptForDestination dest
      | None => exists n key, keys n = Some key /\ script = GetScriptForDestination (PubKey_GetID key) end ->
    (if IsDust (CTxOut_new nChange script) minRelayTxFee then Some (outs, fee + nChange)
     else let p := Z.to_nat (pos (zlen outs + 1)) in Some (take p outs ++ CTxOut_new nChange script :: drop p outs, fee)) = Some (outs', fee') ->
    outs' = outs \/ exists l1 l2 c script, outs = l1 ++ l2 /\ outs' = l1 ++ CTxOut_new c script :: l2 /\ 0 < c /\ IsDust (CTxOut_new c script) minRelayTxFee = false /\
        match asked_change r with Some dest => script = GetScriptForDestination dest
        | None => exists n key, keys n = Some key /\ script = GetScriptForDestination (PubKey_GetID key) end).
  { intros script Hscript. destruct (IsDust _ _) eqn:Ed; [intros [= <- _]; by left |]. cbn zeta. intros [= <- _]. right.
    exists (take (Z.to_nat (pos (zlen outs + 1))) outs), (drop (Z.to_nat (pos (zlen outs + 1))) outs), nChange, script. by rewrite take_drop. }
  destruct (match coinControl r with Some c => negb _ | None => false end) eqn:Ec; cbn zeta.
  - assert (Ed : asked_change r = Some (match coinControl r with Some c => destChange c | None => CNoDestination end)).
    { unfold asked_change. destruct (coinControl r) as [c |]; [| done]. apply negb_true_iff, bool_decide_eq_false in Ec. cbn. by rewrite decide_False. }
    cbn [mbind option_bind]. set (dest := match coinControl r with Some c => destChange c | None => _ end) in *.
    destruct (combine_change _ _ _) as [o' |] eqn:EC.
    + intros [= <- _]. apply combine_change_at in EC as (l1 & o & l2 & -> & Ho & Hl & ->). right; right. exists l1, o, l2, nChange, dest. done.
    + intros H. destruct (Hput _ ltac:(by rewrite Ed) H) as [? | ?]; [by left | right; by left].
  - assert (Ed : asked_change r = None).
    { unfold asked_change. destruct (coinControl r) as [c |]; [| done]. apply negb_false_iff, bool_decide_eq_true in Ec. cbn. by rewrite decide_True. }
    destruct (keys n) as [key |] eqn:Ek; [| done]. cbn [fmap option_fmap option_map mbind option_bind compose].
    intros H. destruct (Hput (GetScriptForDestination (PubKey_GetID key)) ltac:(rewrite Ed; by exists n, key) H) as [? | ?]; [by left | right; by left].
Qed.

Lemma sign_inputs_keeps coins k tx tx' : sign_inputs coins k tx = Some tx' -> prevout <$> vin tx' = prevout <$> vin tx /\ vout tx' = vout tx.
Proof.
  revert k tx. induction coins as [| c coins IH]; intros k tx; cbn [sign_inputs]; [by intros [= ->] |].
  destruct (SignSignature _ _ _) as [sig |]; [| done]. cbn [mbind option_bind]. intros H. apply IH in H as [-> ->]. cbn [set_scriptSig vin vout]. split; [| done].
  apply list_eq. intros i. rewrite !list_lookup_fmap. destruct (decide (i = k)) as [-> | Hne]; [rewrite list_lookup_alter_eq | by rewrite list_lookup_alter_ne].
  by destruct (vin tx !! k).
Qed.

(** What the wallet holds: different transactions whose outputs are amounts. *)
Definition wallet_ok : Prop := NoDup mapWallet /\ Forall (fun t => Forall (fun o => nValue o < MAX_INT64) (vout t)) mapWallet.

(** The coins a transaction may spend: available, spendable, each once. *)
Definition spends (r : request) (coins : list coin) : Prop :=
  NoDup coins /\ forall c, c ∈ coins -> exists o, o ∈ AvailableCoins (coinControl r) (fIncludeDelegated r) false (coin_type r) true false (useIX r) 1 /\
    fSpendable o = true /\ c = out_coin o.

Lemma SelectCoinsToSpend_selects d target r s v : wallet_ok ->
  SelectCoinsToSpend d target (coinControl r) (coin_type r) (useIX r) false (fIncludeDelegated r) = (true, s, v) ->
  spends r s /\ v = zsum coin_value s /\ target <= v.
Proof.
  intros [HN HM]. unfold SelectCoinsToSpend, spends. set (av := AvailableCoins _ _ _ _ _ _ _ _).
  destruct (AvailableCoins_coins (coinControl r) (fIncludeDelegated r) false (coin_type r) true false (useIX r) 1 HN) as [HD HA]. fold av in HD, HA.
  assert (Sub : forall P {D : forall o, Decision (P o)}, NoDup (out_coin <$> filter P av)) by (intros P D; eapply submseteq_NoDup; [exact HD | apply fmap_submseteq, sublist_submseteq, sublist_filter]).
  assert (Fin : forall P {D : forall o, Decision (P o)}, (forall o, P o -> fSpendable o = true) -> selects (valued <$> filter P av) target s v ->
            (NoDup s /\ forall c, c ∈ s -> exists o, o ∈ av /\ fSpendable o = true /\ c = out_coin o) /\ v = zsum coin_value s /\ target <= v).
  { intros P D HP HS. destruct (selects_spec _ _ _ _ (Sub P D) HS) as (H1 & H2 & H3 & H4). split; [split; [done |] | done].
    intros c Hc. destruct (H2 c Hc) as (o & [Ho Hin]%list_elem_of_filter & ->). eauto. }
  destruct (match coinControl r with Some c => _ | None => _ end).
  - intros [= Ht <- <-]. bprop. fold valued in *. apply (Fin (fun o => fSpendable o = true) _); [done |].
    apply selects_all; [| done | by rewrite <- total_of_zsum]. rewrite <- list_fmap_compose. apply Sub.
  - assert (Min : forall dd a b, SelectCoinsMinConf dd target a b av = (true, s, v) ->
      (NoDup s /\ forall c, c ∈ s -> exists o, o ∈ av /\ fSpendable o = true /\ c = out_coin o) /\ v = zsum coin_value s /\ target <= v).
    { intros dd a b E. pose proof (SelectCoinsMinConf_selects dd target a b av HD) as HS. rewrite E in HS. apply (Fin (eligible a b) _); [by intros o [? _] | apply HS].
      apply Forall_fmap, Forall_forall. intros o [_ Ho]%list_elem_of_filter. destruct (HA o Ho) as (Ht & Hv & _). rewrite Forall_forall in HM. specialize (HM _ Ht).
      rewrite Forall_forall in HM. by apply HM. }
    unfold select_confirmed. destruct (SelectCoinsMinConf (d 0%nat) _ _ _ _) as [[[] s0] v0] eqn:E0; [intros [= <- <-]; by apply Min in E0 |].
    destruct (SelectCoinsMinConf (d 1%nat) _ _ _ _) as [[[] s1] v1] eqn:E1; [intros [= <- <-]; by apply Min in E1 |].
    destruct bSpendZeroConfChange; [apply Min | done].
Qed.

(** What a created transaction satisfies. *)
Definition balanced (keys : nat -> option bytes) (r : request) (tx : CTransaction) (coins : list coin) (fee : Z) : Prop :=
  spends r coins /\ prevout <$> vin tx = (fun c => {| op_hash := CTransaction_GetHash c.1; op_n := c.2 |}) <$> coins /\
  zsum coin_value coins = zsum nValue (vout tx) + fee /\
  zlen (Serialize_CTransaction tx) < MAX_STANDARD_TX_SIZE /\ pays keys r (vout tx) /\
  (fSendFreeTransactions = false -> GetFee minRelayTxFee (zlen (Serialize_CTransaction tx)) <= fee /\
     nFeePay r <= fee /\ GetMinimumFee (zlen (Serialize_CTransaction tx)) <= fee).

Lemma create_round_spec keys n r nSend d pos fee : wallet_ok -> request_ok r -> nSend = zsum snd (vecSend r) ->
  match create_round r nSend d (keys n) pos fee with
  | created tx coins fee' => balanced keys r tx coins fee' /\ fee <= fee'
  | retry fee' => fee < fee' /\ fee' <= Z.max (nFeePay r) maxTxFee
  | _ => True
  end.
Proof.
  intros HW HR HV. unfold create_round. destruct (payee_outputs r) as [outs |] eqn:EP; [| done].
  destruct (SelectCoinsToSpend _ _ _ _ _ _ _) as [[ok s] v] eqn:ES. destruct ok; cbn [negb]; [| done].
  destruct (SelectCoinsToSpend_selects _ _ _ _ _ HW ES) as ((HN & HC) & HSum & Hge). match goal with |- context [existsb ?f s] => destruct (existsb f s) end; [done |].
  destruct (add_change _ _ _ _ _ _) as [[outs' fee'] |] eqn:EA; [| done]. pose proof (add_change_pays _ _ _ _ _ _ _ _ _ HR EP EA) as HP. apply add_change_sum in EA as [EA Hfee]; [| lia].
  rewrite (payee_outputs_sum _ _ HR EP) in EA.
  destruct (sign_inputs _ _ _) as [tx |] eqn:EG; [| done]. apply sign_inputs_keeps in EG as [EI EO]. cbn [vin vout] in EI, EO.
  set (size := zlen (Serialize_CTransaction tx)). destruct (MAX_STANDARD_TX_SIZE <=? size) eqn:Esz; [done |]. bprop.
  assert (HB : forall b : bool, (b = false -> GetFee minRelayTxFee size <= fee' /\ nFeePay r <= fee' /\ GetMinimumFee size <= fee') -> b = fSendFreeTransactions \/ b = false -> balanced keys r tx (set_order s) fee').
  { intros b Hb Hbf. split; [split; [by rewrite set_order_perm | intros c Hc; apply HC; by rewrite set_order_perm in Hc] |]. split; [rewrite EI, <- list_fmap_compose; done |].
    rewrite set_order_perm, EO. split; [lia |]. split; [done |]. split; [done |]. destruct Hbf as [-> | ->]; [done |]. intros _. by apply Hb. }
  destruct (fSendFreeTransactions && _ && _) eqn:EF.
  { apply andb_true_iff in EF as [EF _]. apply andb_true_iff in EF as [EF _]. split; [apply (HB true); [done | by left] | done]. }
  destruct (Z.max _ _ <? _) eqn:E1; [done |]. bprop. destruct (Z.max _ _ <=? fee') eqn:E2; bprop.
  - split; [apply (HB false); [intros _; lia | by right] | done].
  - split; [lia |]. assert (GetMinimumFee size <= maxTxFee); [| lia]. unfold GetMinimumFee. destruct (maxTxFee <? _) eqn:E; bprop; lia.
Qed.

Lemma create_loop_spec fuel r nSend d key pos round fee : wallet_ok -> request_ok r -> nSend = zsum snd (vecSend r) ->
  match create_loop fuel r nSend d key pos round fee with
  | created tx coins fee' => balanced key r tx coins fee' /\ fee <= fee'
  | retry fee' => fee + Z.of_nat fuel <= fee' /\ (fuel = 0%nat \/ fee' <= Z.max (nFeePay r) maxTxFee)
  | _ => True
  end.
Proof.
  intros HW HR HV. revert round fee. induction fuel as [| fuel IH]; intros round fee; cbn [create_loop]; [split; [lia | by left] |].
  pose proof (create_round_spec key round r nSend (d round) (pos round) fee HW HR HV) as H. destruct (create_round _ _ _ _ _ _) as [tx coins fee' | | | fee'] eqn:E; [done | done | done |].
  destruct H as [H1 H2]. specialize (IH (S round) fee'). destruct (create_loop _ _ _ _ _ _ _ _) as [tx coins f | | | f] eqn:EL; [destruct IH; split; [done | lia] | done | done |].
  destruct IH as [IH1 IH2]. split; [lia |]. right. destruct IH2 as [-> |]; [| done]. cbn in EL. injection EL as <-. done.
Qed.

Lemma sum_sends_zsum l a n : sum_sends l a = Some n -> n = a + zsum snd l.
Proof.
  revert a. induction l as [| x l IH]; intros a; cbn [sum_sends]; destruct (a <? 0); try done; [intros [= <-]; cbn; lia |]. intros H. apply IH in H. cbn. lia.
Qed.

Lemma CreateTransaction_spec (fuel : nat) (r : request) (d : nat -> nat -> draws) (change_key : nat -> option bytes) (position : nat -> Z -> Z) :
  wallet_ok -> request_ok r ->
  match CreateTransaction fuel r d change_key position with
  | created tx coins nFeeRet => balanced change_key (fee_pay r) tx coins nFeeRet /\ 0 <= nFeeRet /\
      forall c, c ∈ coins -> c.1 ∈ mapWallet /\ coin_out c ∈ vout c.1 /\ IsSpent (CTransaction_GetHash c.1) c.2 = false /\ 0 < coin_value c
  | retry _ => Z.of_nat fuel <= Z.max 0 maxTxFee
  | _ => True
  end.
Proof.
  intros HW HR. unfold CreateTransaction. destruct (zlen _ =? 0); [done |]. destruct (sum_sends _ _) as [nValue |] eqn:ES; [| done]. apply sum_sends_zsum in ES.
  assert (HR' : request_ok (fee_pay r)) by done. set (f0 := if _ : bool then nFeePay _ else 0). assert (H0 : 0 <= f0 /\ nFeePay (fee_pay r) <= f0) by (unfold f0; destruct (0 <? _) eqn:E; bprop; lia).
  pose proof (create_loop_spec fuel (fee_pay r) nValue d change_key position 0 f0 HW HR' ES) as H. destruct (create_loop _ _ _ _ _ _ _ _) as [tx coins fee | | | fee]; [| done | done |].
  - destruct H as [HB Hf]. split; [done |]. split; [lia |]. intros c Hc. destruct HB as ([_ HC] & _). destruct (HC c Hc) as (o & Ho & _ & ->).
    destruct HW as [HN _]. destruct (AvailableCoins_coins (coinControl r) (fIncludeDelegated r) false (coin_type r) true false (useIX r) 1 HN) as [_ HA].
    destruct (HA o Ho) as (? & ? & ? & Hp). split; [done |]. split; [done |]. split; [done | by apply Hp].
  - destruct H as [H1 [-> | H2]]; lia.
Qed.

(** C17: Creating a transaction ends: after as many rounds as the largest fee has units the
    loop has stopped, whatever coins and keys each round draws. A transaction that is
    created spends different unspent coins of the wallet that the request allows; their
    value is exactly the value of its outputs plus the fee that is reported. Its outputs are
    the payments, each of the amount and to the script asked for (or to the data to carry),
    in the parts asked for, and at most one for change, which goes to the destination asked
    for or else to a key of the key pool; change to a destination that is paid already is
    added to that payment. The transaction is of standard size, and, unless free
    transactions are allowed, the fee is at least what was asked for, what the wallet
    computes and what the network relays. *)
Theorem CreateTransaction_balances (fuel : nat) (r : request) (d : nat -> nat -> draws) (change_key : nat -> option bytes) (position : nat -> Z -> Z) :
  wallet_ok -> request_ok r ->
  match CreateTransaction fuel r d change_key position with
  | created tx coins nFeeRet => balanced change_key (fee_pay r) tx coins nFeeRet /\ 0 <= nFeeRet /\
      forall c, c ∈ coins -> c.1 ∈ mapWallet /\ coin_out c ∈ vout c.1 /\ IsSpent (CTransaction_GetHash c.1) c.2 = false /\ 0 < coin_value c
  | retry _ => Z.of_nat fuel <= Z.max 0 maxTxFee
  | _ => True
  end.
Proof. apply CreateTransaction_spec. Qed.

End Creation.

(** ** A small wallet *)

Definition paid (value : Z) : CTransaction :=
  {| nVersion := 1; vin := []; vout := [CTxOut_new value (GetScriptForDestination (CKeyID (replicate 20 7)))]; nLockTime := 0 |}.

(** Three coins, everything trusted and deep, signatures empty, usual fees. *)
Definition sample_wallet : wallet_env := {|
  w_consensus := mainConsensus; chain_height := 5000; mapWallet := [paid (3 * COIN); paid (2 * COIN); paid (9 * COIN)];
  CheckFinalTx := fun _ => true; IsTrusted := fun _ => true; GetBlocksToMaturity := fun _ => 0; GetDepthInMainChain := fun _ _ => 10;
  InMempool := fun _ => false; IsFromMe := fun _ => true; IsSpent := fun _ _ => false; IsLockedCoin := fun _ _ => false;
  IsMine := fun _ => ISMINE_SPENDABLE; HasDelegator := fun _ => false; SignSignature := fun _ _ _ => Some [];
  payTxFee := mkCFeeRate 0; minTxFee := mkCFeeRate 10000; minRelayTxFee := mkCFeeRate 10000; estimated_fee := mkCFeeRate 0; maxTxFee := COIN;
  bSpendZeroConfChange := true; fSendFreeTransactions := false; free_priority := fun _ _ _ => false |}.

Definition sample_orders : orders := {| std_sort := fun l => l; set_order := fun l => l |}.

Lemma sample_orders_laws : @orders_laws sample_orders.
Proof. split; done. Qed.

Lemma sample_wallet_ok : @wallet_ok sample_wallet.
Proof.
  split.
  - apply (bool_decide_unpack _). vm_compute. exact I.
  - apply (bool_decide_unpack _). vm_compute. exact I.
Qed.

Definition sample_draws : draws := {| d_shuffle := fun _ => 0; d_first := fun rep i => Nat.even (rep + i); d_second := fun _ _ => true |}.
Definition sample_coins : list COutput := @AvailableCoins sample_wallet None false false ALL_COINS true false false 1.

Lemma SelectCoinsMinConf_covers_witness : exists s v, @SelectCoinsMinConf sample_wallet sample_orders sample_draws (4 * COIN) 1 6 sample_coins = (true, s, v) /\ 4 * COIN <= v.
Proof.
  assert (E : (@SelectCoinsMinConf sample_wallet sample_orders sample_draws (4 * COIN) 1 6 sample_coins).1.1 = true) by (vm_compute; reflexivity).
  pose proof (@SelectCoinsMinConf_covers sample_wallet sample_orders sample_orders_laws sample_draws (4 * COIN) 1 6 sample_coins) as H.
  destruct (SelectCoinsMinConf _ _ _ _ _) as [[ok s] v]. cbn [fst] in E. subst ok. exists s, v. split; [reflexivity |].
  destruct H as [_ H]; [apply (bool_decide_unpack _); vm_compute; exact I | apply (bool_decide_unpack _); vm_compute; exact I |]. exact (proj2 (proj2 (proj2 (H eq_refl)))).
Defined.

Definition sample_request : request :=
  {| vecSend := [(GetScriptForDestination (CKeyID (replicate 20 9)), 4 * COIN)]; coinControl := None; coin_type := ALL_COINS; useIX := false; nFeePay := 0;
     fIncludeDelegated := false; opReturn := [] |}.

Lemma CreateTransaction_balances_witness : exists tx coins fee,
  @CreateTransaction sample_wallet sample_orders 5 sample_request (fun _ _ => sample_draws) (fun _ => Some (2 :: replicate 32 1)) (fun _ _ => 0) = created tx coins fee /\
  zsum coin_value coins = zsum nValue (vout tx) + fee.
Proof.
  pose proof (@CreateTransaction_balances sample_wallet sample_orders sample_orders_laws 5 sample_request (fun _ _ => sample_draws) (fun _ => Some (2 :: replicate 32 1)) (fun _ _ => 0)
    sample_wallet_ok) as H.
  assert (E : match @CreateTransaction sample_wallet sample_orders 5 sample_request (fun _ _ => sample_draws) (fun _ => Some (2 :: replicate 32 1)) (fun _ _ => 0) with
              | created _ _ _ => true | _ => false end = true) by (vm_compute; reflexivity).
  destruct (CreateTransaction _ _ _ _ _) as [tx coins fee | | |]; try discriminate E. exists tx, coins, fee. split; [reflexivity |].
  destruct H as ((_ & _ & H & _) & _); [split; [apply (bool_decide_unpack _); vm_compute; exact I | exact I] | exact H].
Defined.
