(* ===== verification/PlaceBet.v ===== *)
(** Placing a bet ([placebet] and [SendMoney] of [wallet/rpcwallet.cpp]): the checks on the
    bet, its encoding, and the transaction that carries it. The parameters of the call are
    taken as parsed; what the wallet reports of itself, the outcome of handing the
    transaction to the memory pool, and the function of the Boost library that reads
    hexadecimal digits are inputs. *)

From Stdlib Require Import ZArith Lia.
From stdpp Require Import base tactics list numbers option strings sets.
From S2P Require Import Prelude CString Amount StrEncodings DrawTime Script Hash ChainParams Base58 Standard Serialize Transaction BetCode BetPayout Wallet WalletFacts.

Inductive rpc_code := RPC_INVALID_PARAMETER | RPC_WALLET_ERROR | RPC_WALLET_INSUFFICIENT_FUNDS | RPC_WALLET_UNLOCK_NEEDED | RPC_BET_DETAILS_ERROR.

(** How a call fails: a JSON-RPC error, another exception, a failed assertion, or rounds
    that were not enough (see [CreateTransaction]). *)
Inductive rpc_error := JSONRPCError (code : rpc_code) | exception | assertion | unfinished.

Record call_env := {
  GetTime : Z;
  tip_time : Z;
  IsLocked : bool;
  fWalletUnlockStaking : bool;
  GetBalance : Z;
  CommitTransaction : CTransaction -> bool
}.

(** The random draws of a call and the fuel of its loop. *)
Record chances := { fuel : nat; ch_draws : nat -> nat -> draws; ch_key : nat -> option bytes; ch_position : nat -> Z -> Z }.

(** Until the next draw the date of the next draw stays the same. *)
Lemma nextdrawdate_within t s : t <= s < nextdrawtime t -> nextdrawdate s = nextdrawdate t.
Proof.
  intros H. destruct (nextdrawtime_earliest t) as (D1 & _ & M1), (nextdrawtime_earliest s) as (D2 & L2 & M2).
  assert (E : nextdrawtime s = nextdrawtime t) by (apply Z.le_antisymm; [apply M2; [done | lia] | apply M1; [done | lia]]).
  destruct (drawdates_agree t) as [_ ->], (drawdates_agree s) as [_ ->]. by rewrite E.
Qed.

Section Rpc.
Context {W : wallet_env} {OR : orders} (e : call_env) (ch : chances).

(** [boost::algorithm::unhex], [None] when it throws. *)
Context (unhex : bytes -> option bytes).

Definition EnsureWalletIsUnlocked (fAllowAnonOnly : bool) : res rpc_error unit :=
  if IsLocked e || (negb fAllowAnonOnly && fWalletUnlockStaking e) then Err (JSONRPCError RPC_WALLET_UNLOCK_NEEDED) else Ok tt.

Definition EnsureEnoughPWRB (total : Z) : res rpc_error unit :=
  if GetBalance e <? total then Err (JSONRPCError RPC_WALLET_INSUFFICIENT_FUNDS) else Ok tt.

Definition money_request (address : CTxDestination) (nValue : Z) (fUseIX : bool) (opReturn : bytes) : request :=
  {| vecSend := [(GetScriptForDestination address, nValue)]; coinControl := None; coin_type := ALL_COINS; useIX := fUseIX; nFeePay := 0;
     fIncludeDelegated := false; Wallet.opReturn := opReturn |}.

Definition SendMoney (address : CTxDestination) (nValue : Z) (fUseIX : bool) (opReturn : bytes) : res rpc_error CTransaction :=
  if nValue <=? 0 then Err (JSONRPCError RPC_INVALID_PARAMETER)
  else if GetBalance e <? nValue then Err (JSONRPCError RPC_WALLET_INSUFFICIENT_FUNDS)
  else if IsLocked e then Err (JSONRPCError RPC_WALLET_ERROR)
  else match CreateTransaction (fuel ch) (money_request address nValue fUseIX opReturn) (ch_draws ch) (ch_key ch) (ch_position ch) with
       | created wtxNew _ _ => if CommitTransaction e wtxNew then Ok wtxNew else Err (JSONRPCError RPC_WALLET_ERROR)
       | failed _ _ => Err (JSONRPCError RPC_WALLET_ERROR)
       | aborted => Err assertion
       | retry _ => Err unfinished
       end.

Definition out_of_numbers (n : Z) : bool := (n <? 0) || (69 <? n).

Definition placebet (nNumber1 nNumber2 nNumber3 nAmount : Z) : res rpc_error CTransaction :=
  if (nAmount <=? nMinBetPayoutRange w_consensus * COIN) || (nMaxBetPayoutRange w_consensus * COIN <=? nAmount) then Err (JSONRPCError RPC_BET_DETAILS_ERROR)
  else
    let nBlockTime := tip_time e in
    if 60 * 60 * 6 <? GetTime e - nBlockTime then Err (JSONRPCError RPC_BET_DETAILS_ERROR)
    else if nextdrawtime nBlockTime - nBlockTime <? 60 * 60 * 2 then Err (JSONRPCError RPC_BET_DETAILS_ERROR)
    else match stoi (nextdrawdate (nBlockTime + 60 * 60 * 2)) with
         | Err _ => Err exception
         | Ok nDate =>
             if out_of_numbers nNumber1 || out_of_numbers nNumber2 || out_of_numbers nNumber3 then Err (JSONRPCError RPC_BET_DETAILS_ERROR)
             else
               let* _ := EnsureWalletIsUnlocked false in
               let* _ := EnsureEnoughPWRB nAmount in
               let lottoBet := CLottoBet_new nDate nNumber1 nNumber2 nNumber3 in
               match unhex (ToOpCode lottoBet).1 with
               | None => Err exception
               | Some unHexedOpCode => SendMoney CNoDestination nAmount false unHexedOpCode
               end
         end.

(** ** The bet that was placed *)

(** The documented use of [boost::algorithm::unhex]: each pair of hexadecimal digits, in
    either case, becomes the byte it denotes. *)
Definition unhex_decodes : Prop := forall l, is_bytes l -> unhex (HexStr l) = Some l.

Lemma push_bet lb : push_data [OP_RETURN] (bet_bytes lb) = script_of [Op OP_RETURN; Push (bet_bytes lb)].
Proof.
  destruct (bet_bytes_ok lb) as [_ HL]. unfold script_of. cbn [map concat item_bytes]. rewrite app_nil_r. unfold push_data. rewrite HL. done.
Qed.

(** The only output that [SendMoney] asks for. *)
Lemma money_payments address nAmount ix data outs : 0 < zlen data ->
  payments (fee_pay (money_request address nAmount ix data)) outs -> outs = [CTxOut_new nAmount (push_data [OP_RETURN] data)].
Proof.
  intros Hd [(parts & -> & HP) _]. cbn [vecSend fee_pay money_request] in HP. apply Forall2_cons_inv_l in HP as (part & l & HP & Hl & ->).
  apply Forall2_nil_inv_l in Hl as ->. destruct HP as (HL & HS & HO). change (asked_parts _) with 1 in HL. unfold zlen in HL. cbn [concat]. rewrite app_nil_r.
  destruct part as [| o [| o' part]]; [done | | cbn in HL; lia]. destruct (HO 0%nat o eq_refl) as [-> _]. cbn [zsum snd nValue CTxOut_new] in HS.
  unfold asked_script. cbn [Wallet.opReturn fee_pay money_request]. destruct data; [done |]. do 2 f_equal. lia.
Qed.

Lemma SendMoney_created address nAmount ix data tx : wallet_ok -> orders_laws -> nAmount < 2 ^ 63 -> 0 < zlen data -> SendMoney address nAmount ix data = Ok tx ->
  CommitTransaction e tx = true /\ exists coins fee, balanced (ch_key ch) (fee_pay (money_request address nAmount ix data)) tx coins fee /\ 0 <= fee /\
    let o := CTxOut_new nAmount (push_data [OP_RETURN] data) in
    vout tx = [o] \/ exists c key, 0 < c /\ vout tx ≡ₚ [CTxOut_new c (GetScriptForDestination (PubKey_GetID key)); o].
Proof.
  intros HW OL Hmax Hd. unfold SendMoney. destruct (nAmount <=? 0) eqn:E0; [done |]. bprop. destruct (_ <? _); [done |]. destruct (IsLocked e); [done |].
  assert (HR : request_ok (money_request address nAmount ix data)) by (split; [apply Forall_cons; cbn; split; [lia | apply Forall_nil_2] | done]).
  pose proof (CreateTransaction_spec (fuel ch) (money_request address nAmount ix data) (ch_draws ch) (ch_key ch) (ch_position ch) HW HR) as HB.
  destruct (CreateTransaction _ _ _ _ _) as [t coins fee | | |]; [| done | done | done]. destruct (CommitTransaction e t) eqn:EC; [| done]. intros [= <-].
  destruct HB as (HB & Hf & _). split; [done |]. exists coins, fee. split; [done |]. split; [done |]. cbn zeta.
  destruct HB as (_ & _ & _ & _ & (outs & HP & HO) & _). apply money_payments in HP as ->; [| done].
  destruct HO as [-> | [(l1 & l2 & c & script & El & -> & Hc & _ & (n & key & _ & ->)) | (l1 & o & l2 & c & dest & Hd' & _)]]; [by left | | done].
  right. exists c, key. split; [done |]. rewrite <- Permutation_middle, <- El. done.
Qed.

(** C11: A bet that [placebet] places is one that the search for bets finds. The transaction
    it commits spends distinct unspent coins of the wallet and balances; its outputs are the
    bet and at most one for change; the bet output has the amount of the bet, which lies in
    the range that is paid, and reads back as the three numbers and the date of the first
    draw after two hours from the tip. That draw is the next one, at least two hours away,
    unless the tip is exactly two hours before it (the help text of the command says that
    betting closes ninety minutes before; the code closes it two hours before). *)
Theorem placebet_found (nNumber1 nNumber2 nNumber3 nAmount : Z) (tx : CTransaction) :
  wallet_ok -> orders_laws -> unhex_decodes -> nAmount < 2 ^ 63 -> placebet nNumber1 nNumber2 nNumber3 nAmount = Ok tx ->
  CommitTransaction e tx = true /\
  (exists coins fee, NoDup coins /\ prevout <$> vin tx = (fun c => {| op_hash := CTransaction_GetHash c.1; op_n := c.2 |}) <$> coins /\
     zsum coin_value coins = zsum nValue (vout tx) + fee /\ 0 <= fee) /\
  (exists o nDate, (vout tx = [o] \/ exists c key, 0 < c /\ vout tx ≡ₚ [CTxOut_new c (GetScriptForDestination (PubKey_GetID key)); o]) /\
     nValue o = nAmount /\ nMinBetPayoutRange w_consensus * COIN <= nAmount <= nMaxBetPayoutRange w_consensus * COIN /\
     stoi (nextdrawdate (tip_time e + 7200)) = Ok nDate /\
     bet_of_output o = Some {| nDate := u32 nDate; nNumber1 := nNumber1; nNumber2 := nNumber2; nNumber3 := nNumber3 |}) /\
  tip_time e + 7200 <= nextdrawtime (tip_time e) /\
  (nextdrawtime (tip_time e) <> tip_time e + 7200 -> nextdrawdate (tip_time e + 7200) = nextdrawdate (tip_time e)).
Proof.
  intros HW OL HX Hmax. unfold placebet. cbn zeta. change (60 * 60 * 2) with 7200. match goal with |- (if ?c then _ else _) = _ -> _ => destruct c eqn:E1 end; [done |]. destruct (_ <? GetTime e - _); [done |].
  destruct (_ <? 7200) eqn:E2; [done |]. bprop. destruct (stoi _) as [date |]; [| done]. match goal with |- (if ?c then _ else _) = _ -> _ => destruct c eqn:E3 end; [done |].
  unfold EnsureWalletIsUnlocked. destruct (IsLocked e || _); [done |]. cbn [res_bind]. unfold EnsureEnoughPWRB. destruct (_ <? nAmount); [done |]. cbn [res_bind].
  unfold out_of_numbers in *. bprop.
  set (lb := {| nDate := u32 date; nNumber1 := nNumber1; nNumber2 := nNumber2; nNumber3 := nNumber3 |}).
  assert (El : CLottoBet_new date nNumber1 nNumber2 nNumber3 = lb) by (unfold CLottoBet_new; rewrite !(u32_id nNumber1), !(u32_id nNumber2), !(u32_id nNumber3) by lia; done).
  pose proof (u32_range date) as Hr. assert (Hok : bet_ok lb) by (unfold bet_ok, in_u; cbn; lia).
  rewrite El, ToOpCode_bytes by (unfold in_u; cbn; lia). cbn [fst]. destruct (bet_bytes_ok lb) as [HB HL]. rewrite HX by done. intros HS.
  apply SendMoney_created in HS as (HC & coins & fee & HBal & Hf & HO); [| done | done | done | lia]. rewrite push_bet in HO. cbn zeta in HO.
  destruct HBal as ([HN _] & HI & HV & _). split; [done |]. split; [by exists coins, fee |]. split; [| split; [lia |]].
  - exists (CTxOut_new nAmount (script_of [Op OP_RETURN; Push (bet_bytes lb)])), date. split; [done |]. split; [done |]. split; [lia |]. split; [done |].
    by apply bet_of_output_written.
  - intros Hne. apply nextdrawdate_within. lia.
Qed.

End Rpc.

Definition sample_call : call_env :=
  {| GetTime := 1600000100; tip_time := 1600000000; IsLocked := false; fWalletUnlockStaking := false; GetBalance := 14 * COIN; CommitTransaction := fun _ => true |}.
Definition sample_chances : chances :=
  {| fuel := 5; ch_draws := fun _ _ => sample_draws; ch_key := fun _ => Some (2 :: replicate 32 1); ch_position := fun _ _ => 0 |}.

(** A reader of hexadecimal digits. *)
Fixpoint read_hex (s : bytes) : option bytes :=
  match s with
  | [] => Some []
  | [_] => None
  | a :: b :: s =>
      if (HexDigit a =? -1) || (HexDigit b =? -1) then None
      else cons (Z.lor (u8 (Z.shiftl (HexDigit a) 4)) (HexDigit b)) <$> read_hex s
  end.

Lemma read_hex_decodes : unhex_decodes read_hex.
Proof.
  intros l. induction 1 as [| c l Hc Hl IH]; [done |]. destruct (nibbles c Hc) as (Hh & Hlo & Hc'). cbn [HexStr read_hex].
  destruct (hexmap_ok _ Hh) as (-> & _), (hexmap_ok _ Hlo) as (-> & _).
  rewrite (proj2 (Z.eqb_neq _ (-1))), (proj2 (Z.eqb_neq (Z.land c 15) (-1))) by lia. cbn [orb]. by rewrite IH, Hc'.
Qed.

Lemma placebet_found_witness : exists tx o nDate, @placebet sample_wallet sample_orders sample_call sample_chances read_hex 1 7 12 (4 * COIN) = Ok tx /\ nValue o = 4 * COIN /\
  bet_of_output o = Some {| nDate := nDate; nNumber1 := 1; nNumber2 := 7; nNumber3 := 12 |}.
Proof.
  pose proof (@placebet_found sample_wallet sample_orders sample_call sample_chances read_hex 1 7 12 (4 * COIN)) as H.
  assert (E : match @placebet sample_wallet sample_orders sample_call sample_chances read_hex 1 7 12 (4 * COIN) with Ok _ => true | Err _ => false end = true) by (vm_compute; reflexivity).
  destruct (placebet _ _ _ _ _ _ _) as [tx |]; [| discriminate E].
  destruct (H tx sample_wallet_ok sample_orders_laws read_hex_decodes ltac:(vm_compute; reflexivity) eq_refl) as (_ & _ & (o & nDate & _ & Ho & _ & _ & Hb) & _).
  exists tx, o, (u32 nDate). split; [reflexivity |]. split; [exact Ho | exact Hb].
Defined.

(** A bet that names no number, or the same number twice, cannot win. *)
Lemma hopeless_bets : forall (env : node) r start time date,
  isWinner env r start time (CLottoBet_new date 0 0 0) <> Ok true /\ isWinner env r start time (CLottoBet_new date 7 7 0) <> Ok true.
Proof.
  intros env r start time date. unfold isWinner. cbn [CLottoBet_new nNumber1 nNumber2 nNumber3]. change (u32 0) with 0. change (u32 7) with 7.
  split; repeat match goal with |- context [let* _ := not_drawn ?n ?l in _] => destruct (not_drawn n l) end; cbn [res_bind]; try done;
    intros [= H]; apply negb_true_iff in H; bprop; done.
Qed.

(** Such bets are accepted all the same. *)
Lemma hopeless_bet_accepted : match @placebet sample_wallet sample_orders sample_call sample_chances read_hex 0 0 0 (4 * COIN) with Ok _ => true | Err _ => false end = true.
Proof. vm_compute. reflexivity. Qed.
